(* ===== verification/_CoqProject ===== *)
-Q . S2P
Prelude.v
GoStrings.v
GoCollections.v
GoTime.v
Runs.v
GoCrypto.v
GoFloat.v
Scope.v
PolicyEngine.v
PolicyEvaluators.v
AuthzRecords.v
AuthzStore.v
Rebac.v
PolicyBundle.v
BuiltinPolicy.v
PolicyRuntime.v
TenancyRecords.v
Tenancy.v
Accounts.v
RequestRoles.v
AuthzMiddleware.v
AuthzHandlers.v
OneShot.v
GoParse.v
GoText.v
Wildcard.v
ScanDomain.v
GraphContract.v
AwsPolicies.v
AwsReferences.v
AwsGraph.v
AwsRules.v
Scanner.v
GoBase64.v
SecretStore.v
ConnectorRecords.v
Connectors.v
AwsRollouts.v
AwsOnboarding.v
ConnectorLifecycle.v
K8sNormalizer.v
K8sGraph.v
K8sScan.v
ScanPipeline.v
Cron.v
ScanQueue.v
Scheduler.v
ScanWorker.v
RepoFindings.v
RepoScanRecords.v
RepoScanStore.v
RepoFindingStore.v
RepoLifecycle.v
RepoFindingQueries.v
RepoScanRuns.v
RepoTargets.v
FindingEnrichment.v
FindingStore.v
FindingTriage.v
FindingWorkflow.v
FindingReports.v
FindingBaselines.v
WorkspaceService.v
WorkspaceAccess.v
RepoScanService.v
RepoScanPasses.v
ScanPolicies.v
WorkspacePurge.v
PurgeWorkers.v
PolicyScheduler.v
PolicyPasses.v
