(* ===== verification/Prelude.v ===== *)
(** * Identrail: a verification development

    Identrail is a Go server that discovers the machine identities of cloud
    accounts, builds a permission graph of them, scans repositories, reports
    risky access, and serves the result to the members of a workspace.  This
    library models the decision-making core of the program, in [src/internal],
    and proves it correct.  It is a shallow embedding: a Go function is a Gallina
    function of the same name, a method of a store is a function from a state to
    a state or an error, a map is a [gmap], a slice a [list], an [int] or a
    [time.Duration] a [Z] (with its 64-bit wrap-around wherever an overflow can
    be seen).  All definitions are executable; the witnesses run them.

    ** The program's parts, and the files that model them

    Language and library support: [Prelude] (errors, options, automation),
    [GoStrings], [GoText] and [GoParse] (packages [strings], [strconv] and
    [net/url] on byte strings), [GoCollections] (maps, slices, sorting),
    [GoTime], [GoFloat], [GoCrypto], [GoBase64] and [Runs] (sequences of calls on
    a component).

    Authorization.  Every API request passes through one middleware, which
    resolves a policy, builds an engine from it and asks for a decision.
    - [Scope]: the tenant/workspace scope of a call (db/scope.go).
    - [PolicyEngine]: inputs, decisions and the four ordered stages
      (api/authz_policy.go).
    - [PolicyEvaluators]: tenant isolation, RBAC, ABAC
      (api/authz_evaluators.go).
    - [Rebac]: the relationship evaluator, over the interface
      [RelationshipStore] (api/authz_evaluators.go).
    - [AuthzRecords], [AuthzStore]: the authorization tables and their write
      normalizers (db/store.go, db/memory.go); they implement
      [RelationshipStore].
    - [PolicyBundle]: compiling a route policy bundle into the tables of an
      engine (api/authz_policy_bundle_runtime.go).
    - [BuiltinPolicy]: the bundle shipped with the program.
    - [PolicyRuntime]: which policy version decides a request: rollouts, canary
      targeting, the cache (api/authz_policy_bundle_runtime.go).
    - [RequestRoles]: who a request acts as, over the interface
      [DirectoryStore] (api/authz_middleware.go, router.go, service.go).
    - [AuthzMiddleware]: the whole of one request's decision
      (api/authz_middleware.go).
    - [AuthzHandlers]: rolling back and simulating policies.

    Tenancy, login and workspaces.
    - [TenancyRecords], [Tenancy]: organizations, workspaces, members and
      projects (db/store.go, db/memory_tenancy.go).
    - [Accounts]: users, provider identities, sessions (db/memory_auth.go).
      The two share [Tenancy.DirectoryState], which implements
      [DirectoryStore].
    - [OneShot]: SAML relay states, OAuth transactions and the webhook ledger
      (db/memory_enterprise_auth.go).
    - [WorkspaceService]: the API's workspace, member and project requests with
      their owner and administrator gates; [WorkspaceAccess]: what they grant
      (api/service.go).
    - [WorkspacePurge]: the cascading deletions over every table of the store
      (db/memory_tenancy.go); [PurgeWorkers]: the passes that purge workspaces
      and accounts past their grace period (workspacepurge, userpurge).

    Connectors and secrets.
    - [SecretStore]: envelopes, key sets and rotation (secretstore).
    - [ConnectorRecords], [Connectors], [AwsRollouts], [AwsOnboarding]: the
      connectors of a project, the rollouts of an AWS organization and the
      onboarding attempts, in the store (db/memory_tenancy.go,
      connector_lifecycle.go, memory_aws_*.go); [ConnectorLifecycle] puts their
      calls together as one transition system.

    Scanning accounts.  A schedule or a request puts a scan in a queue; a worker
    takes it, under a lock, and runs the pipeline of a provider.
    - [Cron]: the schedules of scan policies (scheduler/cron.go).
    - [ScanPolicies], [PolicyScheduler], [PolicyPasses]: the policies that say
      when a project is scanned, the pass that queues what is due, and its
      correctness (api/scan_policy.go, scan_policy_scheduler.go).
    - [ScanQueue]: the rows of the queue (db/memory.go).
    - [Scheduler]: locks, the interface [Locker] and the passes of a runner
      (scheduler/lock.go, runner.go).
    - [ScanWorker]: one pass of the worker, retries and dead letters
      (api/service.go).
    - [ScanDomain], [GraphContract]: the records of the scan graph and the
      contracts between the stages (domain, providers); [Scanner]: the interface
      of a provider's stages.
    - [Wildcard], [AwsPolicies], [AwsReferences], [AwsGraph], [AwsRules]: the
      AWS stages: policy documents to permissions, references between
      workloads and secrets, the edges of the graph, the risk rules
      (providers/aws).
    - [K8sNormalizer], [K8sGraph], [K8sScan]: the Kubernetes stages
      (providers/kubernetes).
    - [ScanPipeline]: the stages in sequence (app/app.go).

    Scanning repositories.
    - [RepoFindings], [RepoScanRecords]: findings and scans with their
      normalizers (domain, db/store.go).
    - [RepoScanStore], [RepoFindingStore], [RepoFindingQueries]: their tables
      (db/memory.go); [RepoScanRuns]: runs of calls on the scans;
      [RepoLifecycle]: what an observation and a completed scan make of earlier
      findings.
    - [RepoTargets]: which repositories may be scanned; [RepoScanService],
      [RepoScanPasses]: accepting, queueing and running scans, with other clients
      interfering (api/service.go).

    Findings.
    - [FindingStore]: the findings of scans and their triage states in the store
      (db/memory.go); [FindingEnrichment]: what the API adds to them, and the
      exports (findings/standards); [FindingTriage], [FindingWorkflow]: the triage
      workflow and its history; [FindingReports]: summaries, trends and the
      difference of two scans; [FindingBaselines]: exporting and importing
      suppressions (api/service.go, finding_baselines.go).

    ** How state and operations correspond

    A store method runs under the store's mutex, so it is one atomic step
    [args -> state -> result]; an operation that fails returns the error and the
    state is the one given (the store never writes before its last check; the
    exceptions are modelled as they are).  [time.Now()], [uuid.NewString()] and
    the context are arguments.  Concurrency appears as sequences of atomic
    steps in any order ([Runs]), with the theorems quantified over them.  In
    [RepoScanPasses] a worker's run is interleaved with the store calls of other
    clients.  The API requests of [WorkspaceService], [FindingTriage] and
    [FindingBaselines] make several store calls, which are one step here: what
    is proved of their sequences holds for requests that run one after another
    ([raced_triage_loses_update] shows a race the code allows).
    Context cancellation is modelled in [Scheduler], [ScanWorker],
    [RepoScanPasses] and [PurgeWorkers], where it changes what happens, and left
    out elsewhere, as the file says.

    ** What is proved

    - Authorization (end to end): no request reaches a handler unless the policy
      the resolver chose for it allows it, inside its own tenant and workspace
      and with a granted role; where roles come from, and that a user holds a
      membership role only through a row that is active, of an account that is.
      Beneath this are the meaning of the engine,
      of ABAC and of ReBAC (sound and, below its limits, complete), the
      well-formedness of compiled and built-in bundles, the resolver, the
      harmlessness of shadow candidates, the rollback handler, and the
      invariants and refinement of the tables.
    - Workspaces: lifecycle requests are granted to live owners and strand
      nobody; a member row is written for an administrator, and which row it is;
      a purge takes every row of the workspace but its AWS onboarding and none of
      another workspace; a pass of the purge worker takes what is overdue.
    - Login: sessions, the identity index, one-shot records, exclusive webhook
      claims.
    - Connectors: secrets survive key rotation, a shutdown freezes the rollouts,
      stale writes are refused, the tables keep their invariant.
    - Scan scheduling: what a schedule denotes and that its search ends; ticks
      increase; a pass visits each policy once and a second pass does nothing;
      the queue hands a row out once per queueing, within its admission limit;
      locks exclude; attempts are bounded and failures disposed of.
    - Repository scans: admission, one pending scan per repository, the end of a
      scan is final, a run refines the store's steps and keeps an end it did not
      make; what a new observation and a completed scan make of earlier findings.
    - Findings: the triage workflow and its history, imports that suppress only
      exact matches in the requested scan, the partition of a difference and the
      scan it is taken against.
    - The pipelines: the AWS builder meets the contract of the next stage, the
      rules report exactly what they should, deterministically; the wildcard
      matcher is right, node ids are injective, and the composition reports an
      escalation exactly when the policies contain one.

    ** Fuel and bounds

    - [Cron.cron_fuel] is 64: a part's range has at most 60 values, and the loop
      ends within the fuel whatever the step ([cron_part_loop]), overflow of
      [value += step] included.  [Cron.cronSearchLimit] is the code's own limit
      of 366 days.
    - [Wildcard.pattern_fuel] bounds the matcher's iterations by
      (|pattern| + 1) * (|target| + 2) + 1; that it is enough is proved with the
      matcher's meaning.
    - [FindingBaselines.load_fuel] bounds the pages of an import by the rows of
      the store; that it is enough is part of the import's theorem.
    - ReBAC's recursion is on the path's remaining relations; the limit of 200
      tuples per lookup is the code's, and a hypothesis of completeness only.
    - Retry counts, delays, page sizes and admission limits are the code's
      constants.
    - The FNV-1a hash of canary targeting is computed modulo 2^32.

    ** Parameters

    Code that is not in the repository, and what Go leaves unspecified, is an
    argument or a class with the laws the code relies on: HMAC-SHA256, SHA-256
    and AES-GCM (digests of 64 hexadecimal digits; no collision-freeness unless a
    theorem says so), the decoding, encoding and syntax check of JSON,
    [strconv.ParseFloat], [url.Parse], the order of a map iteration ([MapRange]:
    any permutation) and of [sort.Slice] ([SortSlice]: any sorted permutation),
    UUIDs and the clock.  [strings.EqualFold] and the case mappings are those of
    ASCII.

    ** What is not modelled

    - The PostgreSQL stores and migrations: their behaviour is the server's.
      The in-memory stores have the same interface and are modelled.
    - HTTP routing and request decoding (api/router.go beyond the role
      helpers), the session, SAML, SCIM and connector routes: glue around the
      modelled operations and around third-party clients.
    - Collectors and SDK clients (providers/aws/sdk_*.go, collectors): calls to
      AWS; the normalizer that reads their records.
    - The repository scanner (repoexposure), which runs git; runtime correlation
      (runtime/); remediation pull requests; the views, remediation and advisory
      builders of api/aws_*.go.
    - Logging, metrics, tracing, e-mail, data exports, the CLI and the web front
      end. *)
From stdpp Require Export base tactics prelude gmap strings list sorting.
From Stdlib Require Export ZArith.
From Stdlib Require Import Ascii.

#[global] Set Default Goal Selector "!".
#[global] Open Scope Z_scope.

(** ** Errors

    A Go [error] value.  [Sentinel] is a package-level [errors.New] variable,
    compared by identity (each one has its own message); [Errorf] is a fresh
    error built by [errors.New] or by [fmt.Errorf] without [%w];
    [Wrap p e] is [fmt.Errorf("p: %w", e)], [WrapSuffix e s] is
    [fmt.Errorf("%w: s", e)] and [WrapBoth e f] is [fmt.Errorf("%w: %w", e, f)].
    [Alias m e] is a value of an error type of the program's own with the message
    [m], whose [Is] method accepts [e]. *)
Inductive error :=
| Sentinel (message : string)
| Errorf (message : string)
| Wrap (prefix : string) (inner : error)
| WrapSuffix (inner : error) (suffix : string)
| WrapBoth (outer inner : error)
| Alias (message : string) (target : error).

#[export] Instance error_eq_dec : EqDecision error.
Proof. solve_decision. Defined.

(** [err.Error()]. *)
Fixpoint error_string (e : error) : string :=
  match e with
  | Sentinel m | Errorf m | Alias m _ => m
  | Wrap p e => p +:+ ": " +:+ error_string e
  | WrapSuffix e s => error_string e +:+ ": " +:+ s
  | WrapBoth e f => error_string e +:+ ": " +:+ error_string f
  end.

(** [errors.Is(err, target)] for a sentinel [target]: walk the wrap chain. *)
Fixpoint errors_is (e target : error) : bool :=
  bool_decide (e = target) ||
  match e with
  | Wrap _ e | WrapSuffix e _ => errors_is e target
  | WrapBoth e f => errors_is e target || errors_is f target
  | Alias _ e => bool_decide (e = target)
  | _ => false
  end.

(** ** Fallible computations: Go's [(T, error)] where the value is ignored
    on error. *)
Inductive result (A : Type) :=
| Ok (a : A)
| Err (e : error).
Arguments Ok {_} _.
Arguments Err {_} _.

#[export] Instance result_ret : MRet result := fun _ a => Ok a.
#[export] Instance result_bind : MBind result :=
  fun _ _ f m => match m with Ok a => f a | Err e => Err e end.
#[export] Instance result_fmap : FMap result :=
  fun _ _ f m => match m with Ok a => Ok (f a) | Err e => Err e end.
#[export] Instance result_eq_dec `{EqDecision A} : EqDecision (result A).
Proof. solve_decision. Defined.

Definition is_ok {A} (r : result A) : bool :=
  match r with Ok _ => true | Err _ => false end.

(** The value of a run, or a default. *)
Definition ok_or {A} (d : A) (r : result A) : A := match r with Ok a => a | Err _ => d end.

Lemma is_ok_or {A} (d : A) (r : result A) : is_ok r = true → r = Ok (ok_or d r).
Proof. by destruct r. Qed.

(** [if cond { return ..., err }]. *)
Definition guard_err (ok : bool) (e : error) : result unit :=
  if ok then Ok tt else Err e.

Lemma Ok_inj {A} (a b : A) : Ok a = Ok b → a = b.
Proof. by intros [=]. Qed.

Lemma bind_Ok {A B} (m : result A) (f : A → result B) b :
  m ≫= f = Ok b ↔ ∃ a, m = Ok a ∧ f a = Ok b.
Proof.
  destruct m as [a|e]; split.
  - intros H. by exists a.
  - by intros (a' & [= ->] & H).
  - intros [=].
  - by intros (a' & [=] & ?).
Qed.

Lemma fmap_Ok {A B} (f : A → B) (m : result A) b :
  f <$> m = Ok b ↔ ∃ a, m = Ok a ∧ b = f a.
Proof. destruct m as [a|e]; cbn; naive_solver. Qed.

Lemma bind_Err {A B} (m : result A) (f : A → result B) e :
  m ≫= f = Err e ↔ m = Err e ∨ ∃ a, m = Ok a ∧ f a = Err e.
Proof.
  destruct m as [a|e']; split.
  - intros H. right. by exists a.
  - by intros [[=]|(a' & [= ->] & H)].
  - intros [= ->]. by left.
  - by intros [[= ->]|(a' & [=] & ?)].
Qed.

Lemma guard_err_Ok b e u : guard_err b e = Ok u ↔ b = true.
Proof. by destruct b, u. Qed.

(** A loop that stops at the first error. *)
Fixpoint forM_ {A} (f : A → result unit) (l : list A) : result unit :=
  match l with
  | [] => Ok tt
  | x :: l => _ ← f x; forM_ f l
  end.

Lemma forM_Ok {A} (f : A → result unit) l u :
  forM_ f l = Ok u ↔ Forall (λ x, f x = Ok tt) l.
Proof.
  destruct u. induction l as [|x l IH]; cbn.
  - done.
  - rewrite bind_Ok, Forall_cons, <-IH. split.
    + by intros ([] & ? & ?).
    + intros [? ?]. by exists tt.
Qed.

(** The same loop with the element's index (Go's [for i, x := range l]). *)
Fixpoint forM_i {A} (f : nat → A → result unit) (i : nat) (l : list A) : result unit :=
  match l with
  | [] => Ok tt
  | x :: l => _ ← f i x; forM_i f (S i) l
  end.

Lemma forM_i_Ok {A} (f : nat → A → result unit) (i : nat) l u :
  forM_i f i l = Ok u ↔ ∀ j x, l !! j = Some x → f (i + j)%nat x = Ok tt.
Proof.
  destruct u. revert i. induction l as [|x l IH]; intros i; cbn.
  - done.
  - rewrite bind_Ok. split.
    + intros ([] & Hx & Hl) [|j] y Hj; cbn in Hj.
      * simplify_eq. by rewrite Nat.add_0_r.
      * rewrite <-Nat.add_succ_comm. by apply (proj1 (IH (S i)) Hl).
    + intros H. exists tt. split.
      * rewrite <-(Nat.add_0_r i). by apply H.
      * apply IH. intros j y Hj. rewrite Nat.add_succ_comm. by apply (H (S j)).
Qed.

(** ** Machine integers

    Go's [int] and [int64] are 64-bit two's complement. *)
Definition wrap64 (z : Z) : Z := (z + 2 ^ 63) `mod` 2 ^ 64 - 2 ^ 63.
Definition wrapu64 (z : Z) : Z := z `mod` 2 ^ 64.
Definition int64_min : Z := - 2 ^ 63.
Definition int64_max : Z := 2 ^ 63 - 1.
Definition in_int64 (z : Z) : Prop := int64_min ≤ z ≤ int64_max.

Lemma wrap64_id z : in_int64 z → wrap64 z = z.
Proof.
  unfold in_int64, int64_min, int64_max, wrap64. intros.
  rewrite Z.mod_small; lia.
Qed.

Lemma wrap64_range z : in_int64 (wrap64 z).
Proof.
  unfold in_int64, int64_min, int64_max, wrap64.
  pose proof (Z.mod_pos_bound (z + 2 ^ 63) (2 ^ 64)). lia.
Qed.

Lemma wrapu64_range z : 0 ≤ wrapu64 z < 2 ^ 64.
Proof. apply Z.mod_pos_bound. lia. Qed.

(** ** Reachability of step relations *)
Section reachable.
Context {S : Type} (init : S → Prop) (step : S → S → Prop).

Inductive reachable : S → Prop :=
| reachable_init s : init s → reachable s
| reachable_step s s' : reachable s → step s s' → reachable s'.

(** Rule induction for invariants. *)
Lemma reachable_invariant (I : S → Prop) :
  (∀ s, init s → I s) → (∀ s s', reachable s → I s → step s s' → I s') →
  ∀ s, reachable s → I s.
Proof. intros Hi Hs s. induction 1; eauto. Qed.
End reachable.

(** ** Automation *)
Create HintDb identrail.
Create Rewrite HintDb identrail.
#[export] Hint Resolve wrap64_range wrapu64_range : identrail.
#[export] Hint Rewrite @bind_Ok @fmap_Ok @guard_err_Ok @forM_Ok : identrail.

(** Decompose a successful run of a monadic definition into the successes of
    its steps. *)
Ltac inv_ok :=
  repeat match goal with
  | H : (_ ≫= _) = Ok _ |- _ => apply bind_Ok in H as (? & ? & ?)
  | H : guard_err _ _ = Ok _ |- _ => apply guard_err_Ok in H
  | H : Ok _ = Ok _ |- _ => injection H as H
  | H : Err _ = Ok _ |- _ => discriminate H
  | H : Ok _ = Err _ |- _ => discriminate H
  | H : mret _ = Ok _ |- _ => injection H as H
  | u : unit |- _ => destruct u
  end; subst.

(** Split every [if]/[match] in the hypothesis [H], naming the equations. *)
Ltac split_hyp H :=
  repeat match type of H with
  | context [match ?x with _ => _ end] => destruct x eqn:?
  end.

(** Boolean conjunctions, disjunctions and decisions to propositions. *)
Ltac boolify :=
  repeat match goal with
  | H : _ && _ = true |- _ => apply andb_true_iff in H as [? ?]
  | H : _ && _ = false |- _ => apply andb_false_iff in H
  | H : _ || _ = true |- _ => apply orb_true_iff in H
  | H : _ || _ = false |- _ => apply orb_false_iff in H as [? ?]
  | H : negb _ = true |- _ => apply negb_true_iff in H
  | H : negb _ = false |- _ => apply negb_false_iff in H
  | H : bool_decide _ = true |- _ => apply bool_decide_eq_true in H
  | H : bool_decide _ = false |- _ => apply bool_decide_eq_false in H
  | H : (_ <=? _) = true |- _ => apply Z.leb_le in H
  | H : (_ <=? _) = false |- _ => apply Z.leb_gt in H
  | H : (_ <? _) = true |- _ => apply Z.ltb_lt in H
  | H : (_ <? _) = false |- _ => apply Z.ltb_ge in H
  | H : (_ =? _) = true |- _ => apply Z.eqb_eq in H
  | H : (_ =? _) = false |- _ => apply Z.eqb_neq in H
  end.

(** [open_bind H x Hx]: the first step of the successful run [H] returned [x],
    by [Hx]; [H] is the rest of the run. *)
Tactic Notation "open_bind" hyp(H) simple_intropattern(x) simple_intropattern(Hx) :=
  apply bind_Ok in H as (x & Hx & H).
