(* ===== verification/GoStrings.v ===== *)
(** * Go's [strings], [strconv], [fmt] and [hash/fnv] functions

    A Go string is its sequence of bytes, an element of [string].
    [TrimSpace] and [Fields] follow the full Unicode [White_Space] set on the
    UTF-8 bytes.  Case mapping ([ToLower], [ToUpper], [EqualFold]) is exact on
    ASCII bytes and leaves every other byte as it is; [%q] is exact on ASCII. *)
From S2P Require Import Prelude.
From stdpp Require Export pretty.
From Stdlib Require Export Ascii.

#[global] Open Scope string_scope.
#[global] Open Scope list_scope.
#[global] Open Scope Z_scope.

Abbreviation bytes := String.list_ascii_of_string.
Abbreviation of_bytes := String.string_of_list_ascii.

Lemma of_bytes_bytes s : of_bytes (bytes s) = s.
Proof. apply String.string_of_list_ascii_of_string. Qed.
Lemma bytes_of_bytes l : bytes (of_bytes l) = l.
Proof. apply String.list_ascii_of_string_of_list_ascii. Qed.
#[export] Hint Rewrite of_bytes_bytes bytes_of_bytes : identrail.

Lemma bytes_inj s t : bytes s = bytes t → s = t.
Proof. intros H. by rewrite <-(of_bytes_bytes s), H, of_bytes_bytes. Qed.

Lemma bytes_app s t : bytes (s +:+ t) = (bytes s ++ bytes t)%list.
Proof.
  induction s as [|c s IH]; [done|].
  change (c :: bytes (s +:+ t) = c :: (bytes s ++ bytes t)%list). by rewrite IH.
Qed.

Lemma of_bytes_nil_iff l : of_bytes l = "" ↔ l = [].
Proof. destruct l; cbn; naive_solver. Qed.

(** The value of a byte. *)
Definition code (c : ascii) : N := N_of_ascii c.

Definition between (lo hi c : N) : bool := (lo <=? c)%N && (c <=? hi)%N.

(** ** Case mapping *)
Definition lower_byte (c : ascii) : ascii :=
  if between 65 90 (code c) then ascii_of_N (code c + 32) else c.
Definition upper_byte (c : ascii) : ascii :=
  if between 97 122 (code c) then ascii_of_N (code c - 32) else c.

(** [strings.ToLower], [strings.ToUpper], [strings.EqualFold]. *)
Definition ToLower (s : string) : string := of_bytes (map lower_byte (bytes s)).
Definition ToUpper (s : string) : string := of_bytes (map upper_byte (bytes s)).
Definition EqualFold (s t : string) : bool := bool_decide (ToLower s = ToLower t).

(** ** White space *)
Definition space1 (a : ascii) : bool :=
  between 9 13 (code a) || (code a =? 32)%N.
(** U+0085 and U+00A0. *)
Definition space2 (a b : ascii) : bool :=
  (code a =? 194)%N && ((code b =? 133)%N || (code b =? 160)%N).
(** U+1680, U+2000-U+200A, U+2028, U+2029, U+202F, U+205F, U+3000. *)
Definition space3 (a b c : ascii) : bool :=
  ((code a =? 225) && (code b =? 154) && (code c =? 128))%N
  || ((code a =? 226)%N && (code b =? 128)%N
      && (between 128 138 (code c) || (code c =? 168)%N || (code c =? 169)%N || (code c =? 175)%N))
  || ((code a =? 226) && (code b =? 129) && (code c =? 159))%N
  || ((code a =? 227) && (code b =? 128) && (code c =? 128))%N.

Section trim.
Context (s2 : ascii → ascii → bool) (s3 : ascii → ascii → ascii → bool).

(** Drop the white-space runes a byte list starts with. *)
Fixpoint drop_space (l : list ascii) : list ascii :=
  match l with
  | [] => []
  | a :: l1 =>
      if space1 a then drop_space l1 else
      match l1 with
      | [] => l
      | b :: l2 =>
          if s2 a b then drop_space l2 else
          match l2 with
          | [] => l
          | c :: l3 => if s3 a b c then drop_space l3 else l
          end
      end
  end.

Definition starts_space (l : list ascii) : bool :=
  match l with
  | [] => false
  | a :: l1 =>
      space1 a ||
      match l1 with
      | [] => false
      | b :: l2 => s2 a b || match l2 with [] => false | c :: _ => s3 a b c end
      end
  end.

Lemma drop_space_id l : starts_space l = false → drop_space l = l.
Proof.
  destruct l as [|a [|b [|c l]]]; cbn; intros H; boolify; destruct_and?;
    repeat match goal with
    | E : ?x = false |- context [if ?x then _ else _] => rewrite E
    end; done.
Qed.

Lemma drop_space_starts l : starts_space (drop_space l) = false.
Proof.
  induction l as [l IH] using (induction_ltof1 _ (@length _)); unfold ltof in IH.
  destruct l as [|a [|b [|c l]]]; cbn in *; try done.
  - destruct (space1 a) eqn:E; cbn; [done|]. by rewrite E.
  - destruct (space1 a) eqn:E; [apply (IH [b]); cbn; lia|].
    destruct (s2 a b) eqn:E2; [done|]. cbn. by rewrite E, E2.
  - destruct (space1 a) eqn:E; [apply (IH (b :: c :: l)); cbn; lia|].
    destruct (s2 a b) eqn:E2; [apply (IH (c :: l)); cbn; lia|].
    destruct (s3 a b c) eqn:E3; [apply IH; cbn; lia|].
    cbn. by rewrite E, E2, E3.
Qed.

Lemma starts_space_app l k : starts_space l = true → starts_space (l ++ k) = true.
Proof.
  destruct l as [|a [|b [|c l]]]; cbn; try done; rewrite ?orb_true_iff; naive_solver.
Qed.

Lemma drop_space_suffix l : ∃ k, l = (k ++ drop_space l)%list.
Proof.
  induction l as [l IH] using (induction_ltof1 _ (@length _)); unfold ltof in IH.
  destruct l as [|a [|b [|c l]]]; cbn -[drop_space].
  - by exists [].
  - cbn. destruct (space1 a); [by exists [a]|by exists []].
  - cbn. destruct (space1 a).
    + destruct (IH [b]) as [k Hk]; [cbn; lia|]. cbn in Hk. exists (a :: k). cbn. by rewrite <-Hk.
    + destruct (s2 a b); [by exists [a; b]|by exists []].
  - cbn. destruct (space1 a).
    + destruct (IH (b :: c :: l)) as [k Hk]; [cbn; lia|]. exists (a :: k). cbn in *. by rewrite <-Hk.
    + destruct (s2 a b).
      * destruct (IH (c :: l)) as [k Hk]; [cbn; lia|]. exists (a :: b :: k). cbn in *. by rewrite <-Hk.
      * destruct (s3 a b c); [|by exists []].
        destruct (IH l) as [k Hk]; [cbn; lia|]. exists (a :: b :: c :: k). cbn in *. by rewrite <-Hk.
Qed.

(** Byte maps that leave the white-space tests alone commute with trimming. *)
Lemma drop_space_map (f : ascii → ascii) l :
  (∀ a, space1 (f a) = space1 a) → (∀ a b, s2 (f a) (f b) = s2 a b) →
  (∀ a b c, s3 (f a) (f b) (f c) = s3 a b c) →
  drop_space (map f l) = map f (drop_space l).
Proof.
  intros H1 H2 H3.
  induction l as [l IH] using (induction_ltof1 _ (@length _)); unfold ltof in IH.
  destruct l as [|a [|b [|c l]]]; cbn; rewrite ?H1, ?H2, ?H3; try done.
  - by destruct (space1 a).
  - destruct (space1 a); [by destruct (space1 b)|]. by destruct (s2 a b).
  - destruct (space1 a).
    { specialize (IH (b :: c :: l)). cbn in IH. rewrite ?H1, ?H2, ?H3 in IH. apply IH. lia. }
    destruct (s2 a b).
    { specialize (IH (c :: l)). cbn in IH. rewrite ?H1, ?H2, ?H3 in IH. apply IH. lia. }
    destruct (s3 a b c); [apply IH; cbn; lia|done].
Qed.
End trim.

Definition trim_left : list ascii → list ascii := drop_space space2 space3.
Definition trim_right (l : list ascii) : list ascii :=
  rev (drop_space (λ b a, space2 a b) (λ c b a, space3 a b c) (rev l)).

(** [strings.TrimSpace]. *)
Definition TrimSpace (s : string) : string := of_bytes (trim_right (trim_left (bytes s))).


Example TrimSpace_ascii :
  TrimSpace (String (ascii_of_N 9) "  a b " +:+ of_bytes [ascii_of_N 226; ascii_of_N 128; ascii_of_N 131]) = "a b".
Proof. reflexivity. Qed.

Lemma trim_left_id l : starts_space space2 space3 l = false → trim_left l = l.
Proof. apply drop_space_id. Qed.

Lemma trim_right_starts l :
  starts_space space2 space3 l = false → starts_space space2 space3 (trim_right l) = false.
Proof.
  intros H. unfold trim_right.
  destruct (drop_space_suffix (λ b a, space2 a b) (λ c b a, space3 a b c) (rev l)) as [k Hk].
  destruct (starts_space space2 space3 (rev _)) eqn:E; [|done].
  apply (starts_space_app _ _ _ (rev k)) in E.
  rewrite <-rev_app_distr, <-Hk, rev_involutive in E. congruence.
Qed.

Lemma trim_right_idemp l : trim_right (trim_right l) = trim_right l.
Proof.
  unfold trim_right. rewrite rev_involutive. f_equal.
  apply drop_space_id, drop_space_starts.
Qed.

Lemma TrimSpace_idemp s : TrimSpace (TrimSpace s) = TrimSpace s.
Proof.
  unfold TrimSpace. rewrite bytes_of_bytes.
  rewrite (trim_left_id (trim_right _)), trim_right_idemp; [done|].
  apply trim_right_starts, drop_space_starts.
Qed.

Lemma space1_lower a : space1 (lower_byte a) = space1 a.
Proof. by destruct a as [[] [] [] [] [] [] [] []]. Qed.

(** Only bytes below 0x80 are changed, to bytes below 0x80. *)
Lemma lower_high a n : (n >= 128)%N → (code (lower_byte a) =? n)%N = (code a =? n)%N.
Proof.
  intros Hn. destruct (decide (lower_byte a = a)) as [->|Hne]; [done|].
  assert (code (lower_byte a) < 128 ∧ code a < 128)%N as [? ?].
  { revert Hne. destruct a as [[] [] [] [] [] [] [] []]; vm_compute; naive_solver. }
  transitivity false; [|symmetry]; apply N.eqb_neq; lia.
Qed.

Lemma lower_between_high a lo hi :
  (lo >= 128)%N → between lo hi (code (lower_byte a)) = between lo hi (code a).
Proof.
  intros Hn. destruct (decide (lower_byte a = a)) as [->|Hne]; [done|].
  assert (code (lower_byte a) < 128 ∧ code a < 128)%N as [? ?].
  { revert Hne. destruct a as [[] [] [] [] [] [] [] []]; vm_compute; naive_solver. }
  unfold between. transitivity false; [|symmetry]; apply andb_false_intro1, N.leb_gt; lia.
Qed.

Lemma space2_lower a b : space2 (lower_byte a) (lower_byte b) = space2 a b.
Proof. unfold space2. by rewrite !lower_high by lia. Qed.
Lemma space3_lower a b c : space3 (lower_byte a) (lower_byte b) (lower_byte c) = space3 a b c.
Proof. unfold space3. by rewrite !lower_high, !lower_between_high by lia. Qed.

Lemma ToLower_TrimSpace s : ToLower (TrimSpace s) = TrimSpace (ToLower s).
Proof.
  unfold ToLower, TrimSpace, trim_left, trim_right. rewrite !bytes_of_bytes. f_equal.
  rewrite drop_space_map; auto using space1_lower, space2_lower, space3_lower.
  rewrite <-!map_rev, drop_space_map by auto using space1_lower, space2_lower, space3_lower.
  by rewrite map_rev.
Qed.

Lemma ToLower_idemp s : ToLower (ToLower s) = ToLower s.
Proof.
  unfold ToLower. rewrite bytes_of_bytes, map_map. f_equal. apply map_ext.
  intros a. by destruct a as [[] [] [] [] [] [] [] []].
Qed.

(** [strings.ToLower(strings.TrimSpace(s))], the canonical form of keys and
    enumeration values throughout the program. *)
Definition canon (s : string) : string := ToLower (TrimSpace s).

Lemma canon_idemp s : canon (canon s) = canon s.
Proof. unfold canon. by rewrite <-(ToLower_TrimSpace (TrimSpace s)), TrimSpace_idemp, ToLower_idemp. Qed.
Lemma TrimSpace_canon s : TrimSpace (canon s) = canon s.
Proof. unfold canon. by rewrite <-ToLower_TrimSpace, TrimSpace_idemp. Qed.
Lemma ToLower_canon s : ToLower (canon s) = canon s.
Proof. apply ToLower_idemp. Qed.
Lemma canon_TrimSpace s : canon (TrimSpace s) = canon s.
Proof. unfold canon. by rewrite TrimSpace_idemp. Qed.
#[export] Hint Rewrite TrimSpace_idemp ToLower_idemp canon_idemp TrimSpace_canon ToLower_canon
  canon_TrimSpace : identrail.

Lemma ToLower_empty s : ToLower s = "" ↔ s = "".
Proof.
  unfold ToLower. rewrite of_bytes_nil_iff. destruct s; cbn; naive_solver.
Qed.
Lemma canon_empty s : canon s = "" ↔ TrimSpace s = "".
Proof. apply ToLower_empty. Qed.

(** [strings.TrimSpace(s) == ""]. *)
Definition blank (s : string) : bool := bool_decide (TrimSpace s = "").

Lemma blank_true s : blank s = true ↔ TrimSpace s = "".
Proof. apply bool_decide_eq_true. Qed.
Lemma blank_false s : blank s = false ↔ TrimSpace s ≠ "".
Proof. apply bool_decide_eq_false. Qed.
Lemma blank_TrimSpace s : blank (TrimSpace s) = blank s.
Proof. unfold blank. by rewrite TrimSpace_idemp. Qed.
Lemma blank_canon s : blank (canon s) = blank s.
Proof. unfold blank. rewrite TrimSpace_canon. apply bool_decide_ext, canon_empty. Qed.
#[export] Hint Rewrite blank_TrimSpace blank_canon : identrail.

(** ** Order: Go compares strings byte by byte. *)
Fixpoint compare_bytes (l k : list ascii) : comparison :=
  match l, k with
  | [], [] => Eq
  | [], _ => Lt
  | _, [] => Gt
  | a :: l, b :: k =>
      match N.compare (code a) (code b) with Eq => compare_bytes l k | c => c end
  end.
Definition compare_string (s t : string) : comparison := compare_bytes (bytes s) (bytes t).
Definition str_ltb (s t : string) : bool := match compare_string s t with Lt => true | _ => false end.
Definition str_leb (s t : string) : bool := match compare_string s t with Gt => false | _ => true end.

Lemma code_inj a b : code a = code b → a = b.
Proof. unfold code. intros H. by rewrite <-(ascii_N_embedding a), <-(ascii_N_embedding b), H. Qed.

Lemma compare_bytes_eq l k : compare_bytes l k = Eq ↔ l = k.
Proof.
  revert k. induction l as [|a l IH]; intros [|b k]; cbn; try (split; by intros).
  destruct (N.compare_spec (code a) (code b)) as [E|E|E]; try rewrite IH.
  - apply code_inj in E as ->. split; [by intros ->|by intros [= ->]].
  - split; [done|]. intros [= -> _]. lia.
  - split; [done|]. intros [= -> _]. lia.
Qed.

Lemma compare_bytes_antisym l k : compare_bytes k l = CompOpp (compare_bytes l k).
Proof.
  revert k. induction l as [|a l IH]; intros [|b k]; cbn; try done.
  rewrite N.compare_antisym. destruct (N.compare _ _); cbn; auto.
Qed.

Lemma compare_bytes_trans l k m :
  compare_bytes l k ≠ Gt → compare_bytes k m ≠ Gt → compare_bytes l m ≠ Gt.
Proof.
  revert k m. induction l as [|a l IH]; intros [|b k] [|c m]; cbn; try done.
  destruct (N.compare_spec (code a) (code b)) as [E|E|E],
    (N.compare_spec (code b) (code c)) as [F|F|F],
    (N.compare_spec (code a) (code c)) as [G|G|G]; try done; try lia; eauto.
Qed.

Lemma str_leb_refl s : str_leb s s = true.
Proof. unfold str_leb, compare_string. by rewrite (proj2 (compare_bytes_eq _ _) eq_refl). Qed.
Lemma str_leb_total s t : str_leb s t = true ∨ str_leb t s = true.
Proof.
  unfold str_leb, compare_string. rewrite (compare_bytes_antisym (bytes s)).
  destruct (compare_bytes (bytes s) (bytes t)); cbn; auto.
Qed.
Lemma str_leb_trans s t u : str_leb s t = true → str_leb t u = true → str_leb s u = true.
Proof.
  unfold str_leb, compare_string. intros H1 H2.
  pose proof (compare_bytes_trans (bytes s) (bytes t) (bytes u)).
  destruct (compare_bytes (bytes s) (bytes t)), (compare_bytes (bytes t) (bytes u)),
    (compare_bytes (bytes s) (bytes u)); try done; exfalso; by apply H.
Qed.
Lemma str_leb_antisym s t : str_leb s t = true → str_leb t s = true → s = t.
Proof.
  unfold str_leb, compare_string. rewrite (compare_bytes_antisym (bytes s)).
  destruct (compare_bytes (bytes s) (bytes t)) eqn:E; cbn; try done.
  intros. by apply bytes_inj, compare_bytes_eq.
Qed.

(** ** Searching and splitting *)
Fixpoint prefix_bytes (p l : list ascii) : bool :=
  match p, l with
  | [], _ => true
  | a :: p, b :: l => bool_decide (a = b) && prefix_bytes p l
  | _, [] => false
  end.
Definition HasPrefix (s p : string) : bool := prefix_bytes (bytes p) (bytes s).
Definition HasSuffix (s p : string) : bool := prefix_bytes (rev (bytes p)) (rev (bytes s)).

Fixpoint contains_bytes (l p : list ascii) : bool :=
  prefix_bytes p l || match l with [] => false | _ :: l => contains_bytes l p end.
Definition Contains (s p : string) : bool := contains_bytes (bytes s) (bytes p).

(** [strings.Split(s, sep)] for a one-byte separator; never empty. *)
Fixpoint split_bytes (sep : ascii) (l : list ascii) : list (list ascii) :=
  match l with
  | [] => [[]]
  | a :: l =>
      if decide (a = sep) then [] :: split_bytes sep l
      else match split_bytes sep l with
           | [] => [[a]]
           | x :: r => (a :: x) :: r
           end
  end.
Definition Split (s : string) (sep : ascii) : list string := of_bytes <$> split_bytes sep (bytes s).

(** [strings.Fields]: the maximal runs of non-white-space. *)
Fixpoint fields_bytes (cur l : list ascii) : list (list ascii) :=
  let flush r := match cur with [] => r | _ => rev cur :: r end in
  match l with
  | [] => flush []
  | a :: l1 =>
      if space1 a then flush (fields_bytes [] l1) else
      match l1 with
      | [] => fields_bytes (a :: cur) l1
      | b :: l2 =>
          if space2 a b then flush (fields_bytes [] l2) else
          match l2 with
          | [] => fields_bytes (a :: cur) l1
          | c :: l3 =>
              if space3 a b c then flush (fields_bytes [] l3) else fields_bytes (a :: cur) l1
          end
      end
  end.
Definition Fields (s : string) : list string := of_bytes <$> fields_bytes [] (bytes s).

(** [strings.Join]. *)
Fixpoint Join (l : list string) (sep : string) : string :=
  match l with
  | [] => ""
  | [x] => x
  | x :: r => x +:+ sep +:+ Join r sep
  end.

Lemma prefix_bytes_spec p l : prefix_bytes p l = true ↔ ∃ k, l = (p ++ k)%list.
Proof.
  revert l. induction p as [|a p IH]; intros [|b l]; cbn.
  1: { split; [by exists []|done]. }
  1: { split; [by exists (b :: l)|done]. }
  1: { split; [done|by intros [? ?]]. }
  rewrite andb_true_iff, bool_decide_eq_true, IH. split.
  - intros [-> [k ->]]. by exists k.
  - intros [k [= -> ->]]. split; [done|by exists k].
Qed.
Lemma HasPrefix_spec s p : HasPrefix s p = true ↔ ∃ t, s = p +:+ t.
Proof.
  unfold HasPrefix. rewrite prefix_bytes_spec. split.
  - intros [k Hk]. exists (of_bytes k). apply bytes_inj. by rewrite bytes_app, bytes_of_bytes.
  - intros [t ->]. exists (bytes t). apply bytes_app.
Qed.

Lemma split_bytes_app sep l k :
  sep ∉ l → split_bytes sep (l ++ sep :: k) = l :: split_bytes sep k.
Proof.
  induction l as [|a l IH]; cbn; intros Hl.
  - by rewrite decide_True.
  - apply not_elem_of_cons in Hl as [Ha Hl]. rewrite decide_False by done. by rewrite IH.
Qed.
Lemma split_bytes_none sep l : sep ∉ l → split_bytes sep l = [l].
Proof.
  induction l as [|a l IH]; cbn; intros Hl; [done|].
  apply not_elem_of_cons in Hl as [Ha Hl]. rewrite decide_False by done. by rewrite IH.
Qed.

(** ** Numbers *)
Abbreviation Itoa := (pretty : Z → string).

Definition digit_value (c : ascii) : option Z :=
  if between 48 57 (code c) then Some (Z.of_N (code c - 48)) else None.
Fixpoint digits_value (acc : Z) (l : list ascii) : option Z :=
  match l with
  | [] => Some acc
  | c :: l => d ← digit_value c; digits_value (acc * 10 + d) l
  end.
(** [strconv.Atoi] and [strconv.ParseInt(s, 10, 64)]: an optional sign, at
    least one decimal digit, and the value in range. *)
Definition Atoi (s : string) : option Z :=
  let '(neg, l) :=
    match bytes s with
    | c :: l => if decide (c = "-"%char) then (true, l)
                else if decide (c = "+"%char) then (false, l) else (false, c :: l)
    | [] => (false, [])
    end in
  match l with
  | [] => None
  | _ => v ← digits_value 0 l;
         let z := if neg : bool then - v else v in
         if decide (int64_min ≤ z ≤ int64_max) then Some z else None
  end.

(** [%q]. *)
Definition hex_digit (n : N) : ascii :=
  if (n <? 10)%N then ascii_of_N (48 + n) else ascii_of_N (87 + n).
Definition quote_byte (c : ascii) : list ascii :=
  let esc x := ["\"%char; x] in
  match code c with
  | 34%N => esc c | 92%N => esc c
  | 7%N => esc "a"%char | 8%N => esc "b"%char | 9%N => esc "t"%char | 10%N => esc "n"%char
  | 11%N => esc "v"%char | 12%N => esc "f"%char | 13%N => esc "r"%char
  | n => if (n <? 32)%N || (n =? 127)%N
         then ["\"%char; "x"%char; hex_digit (n / 16); hex_digit (n mod 16)] else [c]
  end.
Definition Quote (s : string) : string :=
  let q := ascii_of_N 34 in of_bytes (q :: (bytes s ≫= quote_byte) ++ [q])%list.

(** ** Character classes: [^[first][rest]{0,max}$]. *)
Definition match_ident (first rest : ascii → bool) (max : nat) (s : string) : bool :=
  match bytes s with
  | [] => false
  | c :: l => first c && forallb rest l && (length l <=? max)%nat
  end.
Definition is_lower (c : ascii) : bool := between 97 122 (code c).
Definition is_upper (c : ascii) : bool := between 65 90 (code c).
Definition is_digit (c : ascii) : bool := between 48 57 (code c).
Definition is_one_of (s : string) (c : ascii) : bool := bool_decide (c ∈ bytes s).

(** ** FNV-1a, 64 bits ([hash/fnv.New64a]) *)
Definition fnv_offset64 : Z := 14695981039346656037.
Definition fnv_prime64 : Z := 1099511628211.
Definition fnv1a_step (h : Z) (c : ascii) : Z :=
  wrapu64 (Z.lxor h (Z.of_N (code c)) * fnv_prime64).
Definition fnv1a_64 (s : string) : Z := fold_left fnv1a_step (bytes s) fnv_offset64.

Lemma fnv1a_64_range s : 0 ≤ fnv1a_64 s < 2 ^ 64.
Proof.
  unfold fnv1a_64. assert (0 ≤ fnv_offset64 < 2 ^ 64) as H by (unfold fnv_offset64; lia).
  revert H. generalize fnv_offset64. induction (bytes s) as [|c l IH]; cbn; intros h Hh; [done|].
  apply IH, wrapu64_range.
Qed.

(** Published test vectors. *)
Example fnv1a_64_a : fnv1a_64 "a" = 0xaf63dc4c8601ec8c.
Proof. reflexivity. Qed.
Example fnv1a_64_foobar : fnv1a_64 "foobar" = 0x85944171f73967e8.
Proof. reflexivity. Qed.
Example Atoi_ex : Atoi "-042" = Some (-42).
Proof. reflexivity. Qed.
Example Atoi_range : Atoi "9223372036854775808" = None.
Proof. reflexivity. Qed.
Example Quote_ex : Quote "a/b" = of_bytes (ascii_of_N 34 :: bytes "a/b" ++ [ascii_of_N 34])%list.
Proof. reflexivity. Qed.

#[global] Arguments TrimSpace : simpl never.
#[global] Arguments ToLower : simpl never.
#[global] Arguments ToUpper : simpl never.
#[global] Arguments canon : simpl never.
#[global] Arguments blank : simpl never.
#[global] Arguments Quote : simpl never.
#[global] Arguments Split : simpl never.
#[global] Arguments Fields : simpl never.
#[global] Arguments Atoi : simpl never.
#[global] Arguments fnv1a_64 : simpl never.
#[global] Arguments String.append : simpl never.

(** ** Joining with a separator *)
Definition no_byte (c : ascii) (s : string) : Prop := c ∉ bytes s.

Lemma join_inj (sep : ascii) s s' t t' :
  no_byte sep s → no_byte sep s' →
  s +:+ String sep t = s' +:+ String sep t' → s = s' ∧ t = t'.
Proof.
  unfold no_byte. intros Hs Hs' H. apply (f_equal (λ x, bytes x)) in H. rewrite !bytes_app in H. cbn in H.
  assert (split_bytes sep (bytes s ++ sep :: bytes t) = split_bytes sep (bytes s' ++ sep :: bytes t')) as E
    by by rewrite H.
  rewrite !split_bytes_app in E by done. injection E as E _.
  assert (s = s') as -> by by apply bytes_inj. split; [done|].
  apply app_inv_head in H. injection H as H. by apply bytes_inj.
Qed.

(** The last separator, when the tail has none. *)
Lemma join_inj_r (sep : ascii) s s' t t' :
  no_byte sep t → no_byte sep t' →
  s +:+ String sep t = s' +:+ String sep t' → s = s' ∧ t = t'.
Proof.
  intros Ht Ht' H. apply (f_equal (λ x, bytes x)) in H. rewrite !bytes_app in H. cbn in H.
  apply (f_equal reverse) in H. rewrite !reverse_app, !reverse_cons, <-!app_assoc in H. cbn in H.
  assert (∀ x, of_bytes (reverse (reverse (bytes x))) = x) as Hx
    by (intros x; by rewrite reverse_involutive, of_bytes_bytes).
  destruct (join_inj sep (of_bytes (reverse (bytes t))) (of_bytes (reverse (bytes t')))
    (of_bytes (reverse (bytes s))) (of_bytes (reverse (bytes s')))) as [E E'].
  - unfold no_byte. rewrite bytes_of_bytes, elem_of_reverse. exact Ht.
  - unfold no_byte. rewrite bytes_of_bytes, elem_of_reverse. exact Ht'.
  - apply bytes_inj. rewrite !bytes_app. cbn. by rewrite !bytes_of_bytes.
  - apply (f_equal (λ x, of_bytes (reverse (bytes x)))) in E, E'. rewrite !bytes_of_bytes, !Hx in E, E'. by split.
Qed.

(** ** Decimal numerals *)
Lemma pretty_N_char_digit n : (n < 10)%N → is_digit (pretty_N_char n) = true.
Proof.
  intros Hn. assert (n ∈ [0; 1; 2; 3; 4; 5; 6; 7; 8; 9]%N) as Hin.
  { rewrite !elem_of_cons, elem_of_nil. lia. }
  rewrite !elem_of_cons, elem_of_nil in Hin. destruct_or? Hin; by subst.
Qed.

Lemma pretty_N_go_digits x s :
  ∃ t, bytes (pretty_N_go x s) = t ++ bytes s ∧ Forall (λ c, is_digit c = true) t ∧ ((0 < x)%N → t ≠ []).
Proof.
  revert s. induction (N.lt_wf_0 x) as [x _ IH]; intros s.
  destruct (decide (x = 0%N)) as [->|Hx].
  { exists []. rewrite pretty_N_go_0. split_and!; [done|done|lia]. }
  rewrite pretty_N_go_step by lia.
  destruct (IH (x `div` 10)%N (N.div_lt x 10 ltac:(lia) ltac:(lia))
    (String (pretty_N_char (x `mod` 10)) s)) as (t & Ht & Hf & _).
  exists (t ++ [pretty_N_char (x `mod` 10)]). rewrite Ht, <-app_assoc. split_and!; [done| |].
  - apply Forall_app. split; [done|]. apply Forall_singleton, pretty_N_char_digit, N.mod_lt. lia.
  - intros _ E. by apply app_nil in E as [_ ?].
Qed.

(** [Itoa] yields an optional sign and at least one digit. *)
Lemma Itoa_digits z :
  ∃ t, bytes (Itoa z) = (if z <? 0 then "-"%char :: t else t) ∧ t ≠ [] ∧ Forall (λ c, is_digit c = true) t.
Proof.
  destruct z as [|p|p]; cbn -[bytes].
  - exists (bytes "0"). by split_and!; [| |repeat constructor].
  - destruct (pretty_N_go_digits (N.pos p) "") as (t & Ht & Hf & Hne).
    exists t. rewrite app_nil_r in Ht. split_and!; [exact Ht|by apply Hne|done].
  - destruct (pretty_N_go_digits (N.pos p) "") as (t & Ht & Hf & Hne).
    exists t. rewrite app_nil_r in Ht. split_and!; [|by apply Hne|done].
    rewrite bytes_app. cbn. f_equal. exact Ht.
Qed.

Lemma Itoa_nonempty z : Itoa z ≠ "".
Proof.
  intros E. destruct (Itoa_digits z) as (t & Ht & Hne & _). rewrite E in Ht. destruct (z <? 0); [done|].
  by destruct t.
Qed.

(** Numerals contain no other byte. *)
Lemma Itoa_no_byte c z : is_digit c = false → c ≠ "-"%char → no_byte c (Itoa z).
Proof.
  intros Hc Hm Hin. destruct (Itoa_digits z) as (t & Ht & _ & Hf). rewrite Ht in Hin.
  assert (c ∉ t) as Hnt.
  { intros Hi. rewrite Forall_forall in Hf. apply Hf in Hi. congruence. }
  destruct (z <? 0); [|done]. apply elem_of_cons in Hin as [?|?]; done.
Qed.

Lemma Itoa_inj a b : Itoa a = Itoa b → a = b.
Proof. apply (inj pretty). Qed.

Lemma append_nonempty s t : s ≠ "" → s +:+ t ≠ "".
Proof. by destruct s. Qed.

(** Equality of concatenations up to associativity. *)
Ltac str_assoc :=
  apply bytes_inj; repeat (rewrite bytes_app; cbn); repeat (rewrite <-app_assoc; cbn); reflexivity.
