(* ===== verification/GoCollections.v ===== *)
(** * Go's maps, slices and sorting

    A Go map with string keys is a [gmap string A].  The order in which
    [for k, v := range m] visits a map is unspecified: [MapRange] is that
    order, an arbitrary permutation of the entries, and every theorem about a
    definition that ranges over a map holds for every instance. *)
From S2P Require Import Prelude GoStrings.

Class MapRange := {
  map_range : ∀ {A}, gmap string A → list (string * A);
  map_range_perm : ∀ {A} (m : gmap string A), map_range m ≡ₚ map_to_list m;
}.

(** One possible order, for evaluating the definitions on concrete inputs. *)
Definition canonical_range : MapRange :=
  {| map_range := λ _ m, map_to_list m; map_range_perm := λ _ m, reflexivity _ |}.

(** The opposite order. *)
Definition reversed_range : MapRange.
Proof.
  refine {| map_range := λ _ m, rev (map_to_list m) |}.
  intros A m. symmetry. apply Permutation_rev.
Defined.

Section range.
Context `{MapRange} {A : Type}.
Implicit Types m : gmap string A.

Lemma elem_of_map_range m k x : (k, x) ∈ map_range m ↔ m !! k = Some x.
Proof. rewrite map_range_perm. apply elem_of_map_to_list. Qed.

Lemma NoDup_map_range m : NoDup (map_range m).*1.
Proof. rewrite map_range_perm. apply NoDup_fst_map_to_list. Qed.

Lemma map_range_nil m : map_range m = [] ↔ m = ∅.
Proof.
  rewrite <-(map_to_list_empty_iff m). split; intros E.
  - apply Permutation_nil_r. by rewrite <-map_range_perm, E.
  - apply Permutation_nil_r. by rewrite map_range_perm, E.
Qed.
End range.
#[export] Hint Rewrite @elem_of_map_range : identrail.

(** [len(m) == 0]. *)
Definition map_is_empty {A} (m : gmap string A) : bool := bool_decide (m = ∅).

(** ** Sorting

    [sort.Strings], [sort.Ints] and [sort.Slice] return a sorted permutation.
    For an antisymmetric order it is unique ([isort_unique]), so insertion
    sort is as good as any. *)
Section sort.
Context {A : Type} (leb : A → A → bool).

Fixpoint insert_sorted (x : A) (l : list A) : list A :=
  match l with
  | [] => [x]
  | y :: l => if leb x y then x :: y :: l else y :: insert_sorted x l
  end.
Definition isort (l : list A) : list A := foldr insert_sorted [] l.

Lemma insert_sorted_perm x l : insert_sorted x l ≡ₚ x :: l.
Proof.
  induction l as [|y l IH]; cbn; [done|].
  destruct (leb x y); [done|]. rewrite IH. apply Permutation_swap.
Qed.
Lemma isort_perm l : isort l ≡ₚ l.
Proof. induction l as [|x l IH]; cbn; [done|]. by rewrite insert_sorted_perm, IH. Qed.

Context (total : ∀ x y, leb x y = true ∨ leb y x = true)
  (trans : ∀ x y z, leb x y = true → leb y z = true → leb x z = true).
Abbreviation le := (λ x y, leb x y = true).

Lemma insert_sorted_sorted x l : StronglySorted le l → StronglySorted le (insert_sorted x l).
Proof.
  induction 1 as [|y l Hl IH Hy]; cbn; [repeat constructor|].
  destruct (leb x y) eqn:E.
  - constructor; [by constructor|]. constructor; [done|].
    eapply Forall_impl; [apply Hy|]. cbn. eauto.
  - constructor; [done|]. rewrite insert_sorted_perm. constructor; [|done].
    destruct (total x y); congruence.
Qed.
Lemma isort_sorted l : StronglySorted le (isort l).
Proof. induction l; cbn; [constructor|by apply insert_sorted_sorted]. Qed.

Context (antisym : ∀ x y, leb x y = true → leb y x = true → x = y).

Lemma sorted_unique l k :
  StronglySorted le l → StronglySorted le k → l ≡ₚ k → l = k.
Proof.
  intros Hl. revert k. induction Hl as [|x l Hl IH Hx]; intros k Hk Hp.
  - by apply Permutation_nil_l in Hp.
  - destruct Hk as [|y k Hk Hy]; [by apply Permutation_nil_r in Hp|].
    assert (x = y) as ->.
    { assert (x ∈ y :: k) as Hxy by (rewrite <-Hp; left).
      assert (y ∈ x :: l) as Hyx by (rewrite Hp; left).
      apply elem_of_cons in Hxy as [->|Hxk]; [done|].
      apply elem_of_cons in Hyx as [->|Hyl]; [done|].
      rewrite Forall_forall in Hx, Hy. apply antisym; auto. }
    f_equal. apply IH; [done|]. by apply Permutation_cons_inv in Hp.
Qed.

Lemma isort_unique l k : l ≡ₚ k → isort l = isort k.
Proof. intros Hp. apply sorted_unique; auto using isort_sorted. by rewrite !isort_perm. Qed.
Lemma isort_id l : StronglySorted le l → isort l = l.
Proof. intros Hl. apply sorted_unique; auto using isort_sorted, isort_perm. Qed.
Lemma isort_idemp l : isort (isort l) = isort l.
Proof. apply isort_id, isort_sorted. Qed.
End sort.

Definition SortStrings : list string → list string := isort str_leb.
Definition SortInts : list Z → list Z := isort Z.leb.

Lemma SortStrings_perm l : SortStrings l ≡ₚ l.
Proof. apply isort_perm. Qed.
Lemma SortStrings_sorted l : StronglySorted (λ x y, str_leb x y = true) (SortStrings l).
Proof. apply isort_sorted; eauto using str_leb_total, str_leb_trans. Qed.
Lemma SortStrings_unique l k : l ≡ₚ k → SortStrings l = SortStrings k.
Proof. apply isort_unique; eauto using str_leb_total, str_leb_trans, str_leb_antisym. Qed.
Lemma SortStrings_id l :
  StronglySorted (λ x y, str_leb x y = true) l → SortStrings l = l.
Proof. apply isort_id; eauto using str_leb_total, str_leb_trans, str_leb_antisym. Qed.

Lemma Zleb_total x y : (x <=? y) = true ∨ (y <=? x) = true.
Proof. lia. Qed.
Lemma Zleb_trans x y z : (x <=? y) = true → (y <=? z) = true → (x <=? z) = true.
Proof. lia. Qed.
Lemma Zleb_antisym x y : (x <=? y) = true → (y <=? x) = true → x = y.
Proof. lia. Qed.
Lemma SortInts_perm l : SortInts l ≡ₚ l.
Proof. apply isort_perm. Qed.
Lemma SortInts_sorted l : StronglySorted (λ x y, (x <=? y) = true) (SortInts l).
Proof. apply isort_sorted; eauto using Zleb_total, Zleb_trans. Qed.
Lemma SortInts_id l : StronglySorted (λ x y, (x <=? y) = true) l → SortInts l = l.
Proof. apply isort_id; eauto using Zleb_total, Zleb_trans, Zleb_antisym. Qed.

(** ** First occurrences

    The loop [seen := map[K]struct{}{}; for ... { if skip || seen { continue };
    seen[x] = struct{}{}; out = append(out, x) }]. *)
Section unique.
Context {A : Type} `{Countable A}.

Fixpoint unique_from (seen : gset A) (l : list A) : list A :=
  match l with
  | [] => []
  | x :: l =>
      if decide (x ∈ seen) then unique_from seen l else x :: unique_from ({[x]} ∪ seen) l
  end.
Definition unique : list A → list A := unique_from ∅.

Lemma elem_of_unique_from seen l x : x ∈ unique_from seen l ↔ x ∈ l ∧ x ∉ seen.
Proof.
  revert seen. induction l as [|y l IH]; intros seen; cbn.
  - set_solver.
  - case_decide; [|rewrite elem_of_cons]; rewrite IH; [set_solver|].
    destruct (decide (x = y)); set_solver.
Qed.
Lemma elem_of_unique l x : x ∈ unique l ↔ x ∈ l.
Proof. unfold unique. rewrite elem_of_unique_from. set_solver. Qed.

Lemma NoDup_unique_from seen l : NoDup (unique_from seen l).
Proof.
  revert seen. induction l as [|y l IH]; intros seen; cbn; [constructor|].
  case_decide; [done|]. constructor; [|done]. rewrite elem_of_unique_from. set_solver.
Qed.
Lemma NoDup_unique l : NoDup (unique l).
Proof. apply NoDup_unique_from. Qed.

Lemma unique_from_id seen l : NoDup l → (∀ x, x ∈ l → x ∉ seen) → unique_from seen l = l.
Proof.
  intros Hl. revert seen. induction Hl as [|x l Hx Hl IH]; intros seen Hs; cbn; [done|].
  rewrite decide_False by (apply Hs; left). f_equal. apply IH.
  intros y Hy. rewrite not_elem_of_union, not_elem_of_singleton.
  split; [by intros ->|]. apply Hs. by right.
Qed.
Lemma unique_id l : NoDup l → unique l = l.
Proof. intros Hl. apply unique_from_id; [done|set_solver]. Qed.
Lemma unique_idemp l : unique (unique l) = unique l.
Proof. apply unique_id, NoDup_unique. Qed.
End unique.

(** The non-empty results of [f]. *)
Definition nonempty_map (f : string → string) (l : list string) : list string :=
  filter (λ x, x ≠ "") (f <$> l).

Lemma elem_of_nonempty_map f l x :
  x ∈ nonempty_map f l ↔ x ≠ "" ∧ ∃ y, y ∈ l ∧ x = f y.
Proof.
  unfold nonempty_map. rewrite list_elem_of_filter, list_elem_of_fmap. naive_solver.
Qed.

(** A list already in normal form is left alone. *)
Lemma nonempty_map_id f l :
  Forall (λ x, f x = x ∧ x ≠ "") l → nonempty_map f l = l.
Proof.
  induction 1 as [|x l [Hf Hx] _ IH]; [done|]. unfold nonempty_map in *.
  rewrite fmap_cons, Hf, filter_cons_True by done. by rewrite IH.
Qed.

Lemma nonempty_map_Forall f l :
  (∀ s, f (f s) = f s) → Forall (λ x, f x = x ∧ x ≠ "") (nonempty_map f l).
Proof.
  intros Hf. apply Forall_forall. intros x (? & y & _ & ->)%elem_of_nonempty_map. auto.
Qed.

(** [l[:limit]] when [limit > 0 && len(l) > limit]. *)
Definition truncate {A} (limit : Z) (l : list A) : list A :=
  if (0 <? limit) && (limit <? Z.of_nat (length l)) then take (Z.to_nat limit) l else l.

Lemma truncate_prefix {A} limit (l : list A) : truncate limit l `prefix_of` l.
Proof. unfold truncate. destruct (_ && _); [apply prefix_take|done]. Qed.

Lemma elem_of_truncate {A} limit (l : list A) x : x ∈ truncate limit l → x ∈ l.
Proof. destruct (truncate_prefix limit l) as [k Hk]. rewrite Hk at 2. set_solver. Qed.

Lemma truncate_id {A} limit (l : list A) : Z.of_nat (length l) ≤ limit → truncate limit l = l.
Proof.
  intros Hl. unfold truncate. rewrite (proj2 (Z.ltb_ge limit _)) by done. by rewrite andb_false_r.
Qed.

Lemma truncate_nil {A} limit (l : list A) : truncate limit l = [] ↔ l = [].
Proof.
  unfold truncate. destruct (0 <? limit) eqn:E; [|done]. apply Z.ltb_lt in E.
  destruct l as [|x l]; [by destruct (_ && _); rewrite ?take_nil|].
  destruct (_ && _); [|done].
  destruct (Z.to_nat limit) eqn:F; [lia|done].
Qed.

(** [compareX] chains: the first difference decides. *)
Definition lex (c d : comparison) : comparison := match c with Eq => d | _ => c end.

(** ** Building a map in a loop

    [for ... { if skip { continue }; out[key] = value }]: [f] gives the entry
    an element writes, if any; a later write to the same key wins. *)
Section collect.
Context {A B : Type}.
Implicit Types (f : A → option (string * B)) (l : list A).

Definition collect_step f (m : gmap string B) (x : A) : gmap string B :=
  match f x with Some (k, b) => <[k := b]> m | None => m end.
Definition collect_from f (m : gmap string B) l : gmap string B := foldl (collect_step f) m l.
Definition collect f l : gmap string B := collect_from f ∅ l.

Lemma collect_from_Some f m l k b :
  collect_from f m l !! k = Some b → m !! k = Some b ∨ ∃ x, x ∈ l ∧ f x = Some (k, b).
Proof.
  revert m. induction l as [|x l IH]; intros m; cbn; [by left|].
  intros [Hm|(y & Hy & Hf)]%IH; [|right; exists y; split; [by right|done]].
  unfold collect_step in Hm. destruct (f x) as [[k' b']|] eqn:E; [|by left].
  apply lookup_insert_Some in Hm as [[-> ->]|[_ Hm]]; [|by left].
  right. exists x. split; [left|done].
Qed.
Lemma collect_Some f l k b :
  collect f l !! k = Some b → ∃ x, x ∈ l ∧ f x = Some (k, b).
Proof. intros [[=]|H]%collect_from_Some. done. Qed.

(** Entries of one key all write the same value. *)
Definition collect_consistent f l : Prop :=
  ∀ x y k b c, x ∈ l → y ∈ l → f x = Some (k, b) → f y = Some (k, c) → b = c.

Lemma collect_from_lookup f m l x k b :
  collect_consistent f l → x ∈ l → f x = Some (k, b) → collect_from f m l !! k = Some b.
Proof.
  intros Hc Hx Hf. induction l as [|y l IH] using rev_ind; [by apply not_elem_of_nil in Hx|].
  unfold collect_from in *. rewrite foldl_app. cbn. unfold collect_step at 1.
  assert (collect_consistent f l) as Hc'.
  { intros u v k' b' c' Hu Hv. apply Hc; set_solver. }
  destruct (f y) as [[k' b']|] eqn:E.
  - destruct (decide (k' = k)) as [->|Hne].
    + rewrite lookup_insert_eq. f_equal. apply (Hc y x k b' b); set_solver.
    + rewrite lookup_insert_ne by done. apply IH; [done|].
      apply elem_of_app in Hx as [?|Hx]; [done|]. apply list_elem_of_singleton in Hx. congruence.
  - apply IH; [done|]. apply elem_of_app in Hx as [?|Hx]; [done|].
    apply list_elem_of_singleton in Hx. congruence.
Qed.

Lemma collect_lookup f l k b :
  collect_consistent f l → collect f l !! k = Some b ↔ ∃ x, x ∈ l ∧ f x = Some (k, b).
Proof.
  intros Hc. split; [apply collect_Some|]. intros (x & Hx & Hf). by eapply collect_from_lookup.
Qed.

(** The order in which the elements are visited does not matter. *)
Lemma collect_perm f l l' : collect_consistent f l → l ≡ₚ l' → collect f l = collect f l'.
Proof.
  intros Hc Hp. apply map_eq. intros k. apply option_eq. intros b.
  rewrite collect_lookup by done. rewrite collect_lookup by
    (intros x y k' b' c; rewrite <-Hp; apply Hc).
  by setoid_rewrite Hp.
Qed.

(** A key some entry writes is present. *)
Lemma collect_from_is_Some f m l k :
  (∃ x b, x ∈ l ∧ f x = Some (k, b)) ∨ is_Some (m !! k) → is_Some (collect_from f m l !! k).
Proof.
  revert m. induction l as [|y l IH]; intros m; cbn.
  { intros [(x & b & []%not_elem_of_nil & _)|H]; done. }
  intros H. apply IH. unfold collect_step. destruct H as [(x & b & [->|Hx]%elem_of_cons & Hf)|Hm].
  - right. rewrite Hf, lookup_insert_eq. done.
  - left. by exists x, b.
  - right. destruct (f y) as [[k' b']|]; [|done].
    destruct (decide (k' = k)) as [->|]; [by rewrite lookup_insert_eq|by rewrite lookup_insert_ne].
Qed.
Lemma collect_is_Some f l k :
  is_Some (collect f l !! k) ↔ ∃ x b, x ∈ l ∧ f x = Some (k, b).
Proof.
  split.
  - intros [b (x & ? & ?)%collect_Some]. by exists x, b.
  - intros H. apply collect_from_is_Some. by left.
Qed.
End collect.

Section collect_range.
Context `{MapRange} {A : Type}.
Implicit Types (m : gmap string A).

(** Entries of distinct canonical keys: nothing is overwritten. *)
Lemma collect_range_consistent {B} (f : string * A → option (string * B)) m :
  (∀ k k' x y key b c, m !! k = Some x → m !! k' = Some y →
     f (k, x) = Some (key, b) → f (k', y) = Some (key, c) → k = k') →
  collect_consistent f (map_range m).
Proof.
  intros Hf [k x] [k' y] key b c Hx%elem_of_map_range Hy%elem_of_map_range Hfx Hfy.
  assert (k = k') as <- by eauto. congruence.
Qed.

(** Rebuilding a map whose entries are already in normal form. *)
Lemma collect_range_id (f : string * A → option (string * A)) m :
  (∀ k x, m !! k = Some x → f (k, x) = Some (k, x)) → collect f (map_range m) = m.
Proof.
  intros Hf. apply map_eq. intros k. apply option_eq. intros b. rewrite collect_lookup.
  - split.
    + intros ([k' x] & Hx%elem_of_map_range & Hk). rewrite (Hf k' x) in Hk by done. by simplify_eq.
    + intros Hb. exists (k, b). by rewrite elem_of_map_range, (Hf k b).
  - apply collect_range_consistent. intros k1 k2 x y key b' c Hx Hy.
    rewrite (Hf k1 x), (Hf k2 y) by done. congruence.
Qed.
End collect_range.

(** The result does not depend on the iteration order. *)
Lemma collect_range_irrelevant {A B} (R R' : MapRange) (f : string * A → option (string * B))
    (m : gmap string A) :
  (∀ k k' x y key b c, m !! k = Some x → m !! k' = Some y →
     f (k, x) = Some (key, b) → f (k', y) = Some (key, c) → k = k') →
  collect f (@map_range R _ m) = collect f (@map_range R' _ m).
Proof.
  intros Hf. apply collect_perm; [by apply collect_range_consistent|].
  by rewrite (@map_range_perm R), (@map_range_perm R').
Qed.

Lemma unique_nonempty_map_idemp f l :
  (∀ s, f (f s) = f s) →
  unique (nonempty_map f (unique (nonempty_map f l))) = unique (nonempty_map f l).
Proof.
  intros Hf. rewrite (nonempty_map_id f (unique (nonempty_map f l))); [apply unique_idemp|].
  apply Forall_forall. intros x Hx. apply (proj1 (elem_of_unique _ _)) in Hx.
  revert x Hx. by apply Forall_forall, nonempty_map_Forall.
Qed.

#[global] Arguments unique : simpl never.
#[global] Arguments nonempty_map : simpl never.
#[global] Arguments collect : simpl never.
#[global] Arguments SortStrings : simpl never.

(** ** [sort.Slice]

    An unstable sort: some sorted permutation.  Theorems hold for every
    instance of [SortSlice]. *)
Definition le_of {A} (less : A → A → bool) (x y : A) : bool := negb (less y x).

Class SortSlice := {
  sort_slice : ∀ {A}, (A → A → bool) → list A → list A;
  sort_slice_perm : ∀ {A} (less : A → A → bool) l, sort_slice less l ≡ₚ l;
  sort_slice_sorted : ∀ {A} (less : A → A → bool) l,
    (∀ x y, le_of less x y = true ∨ le_of less y x = true) →
    (∀ x y z, le_of less x y = true → le_of less y z = true → le_of less x z = true) →
    StronglySorted (λ x y, le_of less x y = true) (sort_slice less l);
}.

(** [sort.SliceStable]: insertion sort is stable. *)
Definition sort_stable {A} (less : A → A → bool) (l : list A) : list A := isort (le_of less) l.
Lemma sort_stable_perm {A} (less : A → A → bool) l : sort_stable less l ≡ₚ l.
Proof. apply isort_perm. Qed.

(** Insertion sort is one. *)
Definition insertion_sort : SortSlice.
Proof.
  refine {| sort_slice := λ _ less, isort (le_of less) |}.
  - intros. apply isort_perm.
  - intros A less l Ht Htr. by apply isort_sorted.
Defined.

Lemma elem_of_sort_slice `{SortSlice} {A} (less : A → A → bool) l x : x ∈ sort_slice less l ↔ x ∈ l.
Proof. by rewrite sort_slice_perm. Qed.

(** ** Comparison chains as orders *)
Record compare_ok {A} (c : A → A → comparison) : Prop := {
  co_antisym : ∀ x y, c y x = CompOpp (c x y);
  co_trans : ∀ x y z, c x y ≠ Gt → c y z ≠ Gt → c x z ≠ Gt;
}.

(** The [less] function of a comparison. *)
Definition less_of {A} (c : A → A → comparison) (x y : A) : bool :=
  match c x y with Lt => true | _ => false end.

Lemma compare_ok_on {A B} (f : A → B) c : compare_ok c → compare_ok (λ x y, c (f x) (f y)).
Proof. intros [Ha Ht]. split; [intros; apply Ha|intros x y z; apply Ht]. Qed.
Lemma compare_ok_flip {A} (c : A → A → comparison) : compare_ok c → compare_ok (λ x y, c y x).
Proof. intros [Ha Ht]. split; [intros; apply Ha|]. intros x y z H1 H2. by apply (Ht z y x). Qed.
Lemma compare_ok_string : compare_ok compare_string.
Proof.
  split; intros; [apply compare_bytes_antisym|]. by apply (compare_bytes_trans _ (bytes y)).
Qed.
Lemma compare_ok_Z : compare_ok Z.compare.
Proof. split; [intros; apply Z.compare_antisym|]. intros x y z ??. apply Z.le_trans with y; done. Qed.

Lemma compare_ok_Eq {A} (c : A → A → comparison) x y z :
  compare_ok c → c x y = Eq → c x z = c y z.
Proof.
  intros [Ha Ht] Hxy.
  assert (c y x = Eq) as Hyx by by rewrite Ha, Hxy.
  pose proof (Ht x y z) as H1. pose proof (Ht y x z) as H2.
  pose proof (Ht z x y) as H3. pose proof (Ht z y x) as H4.
  rewrite !(Ha _ z) in H3, H4. rewrite Hxy, Hyx in *.
  destruct (c x z), (c y z); cbn in *; try done; exfalso;
    first [by apply H1|by apply H2|by apply H3|by apply H4].
Qed.

Lemma compare_ok_lex {A} (c d : A → A → comparison) :
  compare_ok c → compare_ok d → compare_ok (λ x y, lex (c x y) (d x y)).
Proof.
  intros Hc Hd. split.
  - intros x y. rewrite (co_antisym _ Hc x y), (co_antisym _ Hd x y). by destruct (c x y).
  - intros x y z. destruct (c x y) eqn:E1; cbn; [| |done].
    + rewrite (compare_ok_Eq c x y z) by done. destruct (c y z); cbn; [|done..].
      apply (co_trans _ Hd).
    + intros _. destruct (c y z) eqn:E2; cbn; [| |done].
      * intros _. assert (c x z = Lt) as ->; [|done].
        rewrite (co_antisym _ Hc z x), <-(compare_ok_Eq c y z x Hc E2).
        by rewrite (co_antisym _ Hc x y), E1.
      * intros _. pose proof (co_trans _ Hc x y z) as Ht. rewrite E1, E2 in Ht.
        destruct (c x z) eqn:E3; cbn; [|done|by destruct Ht].
        exfalso. rewrite (compare_ok_Eq c x z y Hc E3) in E1.
        rewrite (co_antisym _ Hc y z), E2 in E1. done.
Qed.

Lemma le_of_less_of {A} (c : A → A → comparison) x y :
  compare_ok c → le_of (less_of c) x y = true ↔ c x y ≠ Gt.
Proof. intros Hc. unfold le_of, less_of. rewrite (co_antisym _ Hc x y). by destruct (c x y). Qed.

Lemma StronglySorted_weaken {A} (R S : A → A → Prop) l :
  (∀ x y, R x y → S x y) → StronglySorted R l → StronglySorted S l.
Proof.
  intros HRS. induction 1 as [|x l Hl IH Hx]; constructor; [done|].
  by eapply Forall_impl; [apply Hx|apply HRS].
Qed.

Lemma sort_slice_less_of `{SortSlice} {A} (c : A → A → comparison) l :
  compare_ok c → StronglySorted (λ x y, c x y ≠ Gt) (sort_slice (less_of c) l).
Proof.
  intros Hc. eapply StronglySorted_weaken; [|apply (sort_slice_sorted (less_of c))].
  - intros x y. by rewrite le_of_less_of.
  - intros x y. rewrite !le_of_less_of, (co_antisym _ Hc x y) by done. destruct (c x y); auto.
  - intros x y z. rewrite !le_of_less_of by done. apply (co_trans _ Hc).
Qed.

(** A chain of comparisons that tells all elements apart has one sorted
    order. *)
Lemma sort_slice_unique (S1 S2 : SortSlice) {A} (c : A → A → comparison) (l k : list A) :
  compare_ok c → (∀ x y, x ∈ l → y ∈ l → c x y = Eq → x = y) → l ≡ₚ k →
  @sort_slice S1 A (less_of c) l = @sort_slice S2 A (less_of c) k.
Proof.
  intros Hc Heq Hp. apply (StronglySorted_unique_strong (λ x y, c x y ≠ Gt)).
  - intros x y Hx Hy Hxy Hyx. rewrite (@elem_of_sort_slice S1) in Hx. rewrite (@elem_of_sort_slice S2) in Hy. apply Heq; [done|by rewrite Hp|].
    rewrite (co_antisym _ Hc x y) in Hyx. by destruct (c x y).
  - by apply sort_slice_less_of.
  - by apply sort_slice_less_of.
  - by rewrite (@sort_slice_perm S1), (@sort_slice_perm S2).
Qed.

Lemma lex_Eq c d : lex c d = Eq ↔ c = Eq ∧ d = Eq.
Proof. destruct c; naive_solver. Qed.
Lemma compare_string_Eq x y : compare_string x y = Eq ↔ x = y.
Proof. unfold compare_string. rewrite compare_bytes_eq. split; [apply bytes_inj|by intros ->]. Qed.

(** ** Keeping the first of equal keys

    [if _, exists := seen[key(x)]; exists { continue }; seen[key(x)] = {};
    out = append(out, x)]. *)
Section dedup.
Context {A : Type} (key : A → string).

Fixpoint dedup_from (seen : gset string) (l : list A) : list A :=
  match l with
  | [] => []
  | x :: l => if decide (key x ∈ seen) then dedup_from seen l else x :: dedup_from ({[key x]} ∪ seen) l
  end.
Definition dedup_by : list A → list A := dedup_from ∅.

Lemma dedup_from_spec seen l :
  NoDup (key <$> dedup_from seen l) ∧ (∀ x, x ∈ dedup_from seen l → x ∈ l ∧ key x ∉ seen) ∧
  (∀ x, x ∈ l → key x ∈ seen ∨ ∃ y, y ∈ dedup_from seen l ∧ key y = key x).
Proof.
  revert seen. induction l as [|x l IH]; intros seen; cbn.
  - split; [constructor|]. split; by intros y Hy%elem_of_nil.
  - destruct (decide _) as [Hin|Hin].
    + destruct (IH seen) as (H1 & H2 & H3). split; [done|]. split.
      * intros y Hy. apply H2 in Hy as [??]. split; [by right|done].
      * intros y [->|Hy]%elem_of_cons; [by left|auto].
    + destruct (IH ({[key x]} ∪ seen)) as (H1 & H2 & H3). split; [|split].
      * cbn. constructor; [|done]. intros (y & E & Hy)%list_elem_of_fmap. apply H2 in Hy as [_ Hy]. set_solver.
      * intros y [->|Hy]%elem_of_cons; [split; [left|done]|].
        apply H2 in Hy as [??]. split; [by right|set_solver].
      * intros y [->|Hy]%elem_of_cons; [right; exists x; split; [left|done]|].
        destruct (H3 y Hy) as [Hk|(z & Hz & E)]; [|right; exists z; split; [by right|done]].
        apply elem_of_union in Hk as [Hk|?]; [|by left]. apply elem_of_singleton in Hk.
        right. exists x. split; [left|done].
Qed.
Lemma NoDup_dedup_by l : NoDup (key <$> dedup_by l).
Proof. apply dedup_from_spec. Qed.
Lemma elem_of_dedup_by l x : x ∈ dedup_by l → x ∈ l.
Proof. intros H. by apply dedup_from_spec in H as [? _]. Qed.
Lemma dedup_by_complete l x : x ∈ l → ∃ y, y ∈ dedup_by l ∧ key y = key x.
Proof. intros H. destruct (dedup_from_spec ∅ l) as (_ & _ & Hc). by destruct (Hc x H). Qed.
Lemma dedup_by_complete_inj l x :
  (∀ y, y ∈ l → key y = key x → y = x) → x ∈ l → x ∈ dedup_by l.
Proof.
  intros Hinj Hx. destruct (dedup_by_complete l x Hx) as (y & Hy & E).
  assert (y = x) as <- by (apply Hinj; [by apply elem_of_dedup_by|done]). done.
Qed.
End dedup.

(** ** Loops that append and stop at the first error *)

(** Run [f] over [l] and append the results; the first error ends the loop. *)
Fixpoint concat_results {A B} (f : A → result (list B)) (l : list A) : result (list B) :=
  match l with
  | [] => Ok []
  | x :: l => r ← f x; rest ← concat_results f l; Ok (r ++ rest)
  end.

Lemma elem_of_concat_results {A B} (f : A → result (list B)) l r y :
  concat_results f l = Ok r → y ∈ r ↔ ∃ x ys, x ∈ l ∧ f x = Ok ys ∧ y ∈ ys.
Proof.
  revert r. induction l as [|x l IH]; intros r H; cbn in H.
  - injection H as <-. set_solver.
  - open_bind H ys Hys. open_bind H rest Hrest. injection H as <-. rewrite elem_of_app, (IH _ Hrest). split.
    + intros [?|(z & zs & ? & ? & ?)]; [exists x, ys|exists z, zs]; (split; [by constructor|]); auto.
    + intros (z & zs & [->|Hz]%elem_of_cons & Hf & Hy); [left; congruence|right; eauto].
Qed.
Lemma concat_results_total {A B} (f : A → result (list B)) l :
  (∀ x, x ∈ l → ∃ ys, f x = Ok ys) → ∃ r, concat_results f l = Ok r.
Proof.
  induction l as [|x l IH]; intros H; cbn; [by eexists|].
  destruct (H x) as [ys ->]; [by left|]. destruct IH as [r ->]; [|by eexists]. intros y Hy. apply H. by right.
Qed.
Lemma concat_results_each {A B} (f : A → result (list B)) l r x :
  concat_results f l = Ok r → x ∈ l → ∃ ys, f x = Ok ys.
Proof.
  revert r. induction l as [|y l IH]; intros r H Hx; [by apply elem_of_nil in Hx|]. cbn in H.
  open_bind H ys Hys. open_bind H rest Hrest. apply elem_of_cons in Hx as [->|Hx]; [by eexists|by eapply IH].
Qed.

(** [len(l) == 0]. *)
Definition is_nil {A} (l : list A) : bool := match l with [] => true | _ => false end.

(** ** Grouping: [m[key] = append(m[key], x)] in a loop *)
Section group.
Context {A B : Type} (f : A → option (string * B)).

Definition group_step (m : gmap string (list B)) (x : A) : gmap string (list B) :=
  match f x with Some (k, b) => <[k := default [] (m !! k) ++ [b]]> m | None => m end.
Definition group (l : list A) : gmap string (list B) := foldl group_step ∅ l.
(** The members of one group, in order. *)
Definition members (k : string) (l : list A) : list B :=
  omap (λ x, match f x with Some (k', b) => if decide (k' = k) then Some b else None | None => None end) l.

Lemma members_app k l l' : members k (l ++ l') = members k l ++ members k l'.
Proof. apply omap_app. Qed.

Lemma group_lookup l k : group l !! k = if is_nil (members k l) then None else Some (members k l).
Proof.
  unfold group. induction l as [|x l IH] using rev_ind; [done|].
  rewrite foldl_app, members_app. set (ms := members k l) in *. set (m := foldl group_step ∅ l) in *.
  unfold members. cbn. unfold group_step. destruct (f x) as [[k' b]|]; cbn; [|by rewrite app_nil_r].
  destruct (decide (k' = k)) as [->|Hne]; cbn.
  - rewrite lookup_insert_eq, IH. by destruct ms.
  - rewrite lookup_insert_ne, app_nil_r by done. apply IH.
Qed.
Lemma group_default l k : default [] (group l !! k) = members k l.
Proof. rewrite group_lookup. by destruct (members k l). Qed.
Lemma group_Some l k bs : group l !! k = Some bs ↔ bs ≠ [] ∧ bs = members k l.
Proof. rewrite group_lookup. destruct (members k l); cbn; naive_solver. Qed.
Lemma elem_of_members k l b : b ∈ members k l ↔ ∃ x, x ∈ l ∧ f x = Some (k, b).
Proof.
  unfold members. rewrite list_elem_of_omap. split.
  - intros (x & Hx & E). exists x. split; [done|]. destruct (f x) as [[k' b']|]; [|done].
    destruct (decide (k' = k)) as [->|]; [congruence|done].
  - intros (x & Hx & E). exists x. rewrite E, decide_True by done. done.
Qed.
End group.

(** ** A loop that keeps the best element

    [found] and [best] as an option: the first element, replaced by each later
    one that is strictly before it. *)
Definition keep_best {A} (less : A → A → bool) (best : option A) (x : A) : option A :=
  match best with None => Some x | Some b => if less x b then Some x else best end.
Definition select_best {A} (less : A → A → bool) (l : list A) : option A := foldl (keep_best less) None l.

Lemma select_best_from {A} (c : A → A → comparison) (l : list A) b :
  compare_ok c →
  ∃ b', foldl (keep_best (less_of c)) (Some b) l = Some b' ∧ (b' = b ∨ b' ∈ l) ∧ c b' b ≠ Gt ∧
    ∀ x, x ∈ l → c b' x ≠ Gt.
Proof.
  intros Hc. revert b. induction l as [|x l IH]; intros b.
  - exists b. split_and!; [done|by left| |by intros ? ?%elem_of_nil].
    pose proof (co_antisym _ Hc b b). by destruct (c b b).
  - cbn [foldl keep_best]. destruct (less_of c x b) eqn:E.
    + assert (c x b = Lt) as Exb by (unfold less_of in E; by destruct (c x b)).
      destruct (IH x) as (b' & -> & Hin & Hbx & Hall). exists b'. split_and!; [done| | |].
      * right. rewrite elem_of_cons. destruct Hin as [->|]; auto.
      * apply (co_trans _ Hc _ x); [done|by rewrite Exb].
      * intros y [->|Hy]%elem_of_cons; [done|by apply Hall].
    + destruct (IH b) as (b' & -> & Hin & Hbb & Hall). exists b'. split_and!; [done| |done|].
      * rewrite elem_of_cons. destruct Hin as [->|]; auto.
      * intros y [->|Hy]%elem_of_cons; [|by apply Hall]. apply (co_trans _ Hc _ b); [done|].
        unfold less_of in E. rewrite (co_antisym _ Hc x b). by destruct (c x b).
Qed.

(** The element kept is one of the least. *)
Lemma select_best_spec {A} (c : A → A → comparison) (l : list A) :
  compare_ok c →
  match select_best (less_of c) l with
  | None => l = []
  | Some b => b ∈ l ∧ ∀ x, x ∈ l → c b x ≠ Gt
  end.
Proof.
  intros Hc. destruct l as [|x l]; [done|]. unfold select_best. cbn [foldl keep_best].
  destruct (select_best_from c l x Hc) as (b & -> & Hin & Hbx & Hall). split.
  - rewrite elem_of_cons. destruct Hin as [->|]; auto.
  - intros y [->|Hy]%elem_of_cons; [done|by apply Hall].
Qed.

(** [appendUniqueID]. *)
Definition append_unique (l : list string) (id : string) : list string :=
  if bool_decide (id ∈ l) then l else l ++ [id].
