(* ===== verification/GoTime.v ===== *)
(** * Go's [time] package

    A [time.Time] is its instant, in nanoseconds since the Unix epoch; the
    location is irrelevant to the code, which works in UTC, so [t.UTC()] is
    [t].  A [time.Duration] is a number of nanoseconds. *)
From S2P Require Import Prelude GoStrings.

Abbreviation time := Z (only parsing).

Definition Nanosecond : Z := 1.
Definition Second : Z := 1000000000.
Definition Minute : Z := 60 * Second.
Definition Hour : Z := 60 * Minute.

(** The zero [time.Time]: January 1, year 1, 00:00:00 UTC. *)
Definition time_zero : Z := - (62135596800 * Second).
Definition IsZero (t : Z) : bool := t =? time_zero.

Definition After (t u : Z) : bool := u <? t.
Definition Before (t u : Z) : bool := t <? u.

(** [t.Truncate(time.Minute)]: rounds down to a multiple of a minute since
    the zero time; the zero time is itself a whole minute of the epoch. *)
Definition TruncateMinute (t : Z) : Z := t - (t - time_zero) `mod` Minute.

(** [time.Unix(sec, 0)] and [t.Unix()]. *)
Definition Unix (t : Z) : Z := t / Second.
Definition FromUnix (sec : Z) : Z := sec * Second.

(** ** Calendar *)
Definition unix_day (t : Z) : Z := t / (24 * Hour).
Definition time_Hour (t : Z) : Z := (t / Hour) `mod` 24.
Definition time_Minute (t : Z) : Z := (t / Minute) `mod` 60.
(** Sunday is 0; the epoch was a Thursday. *)
Definition time_Weekday (t : Z) : Z := (unix_day t + 4) `mod` 7.

(** Year, month and day of a day number (proleptic Gregorian calendar),
    counting years from March 1st in 400-year eras. *)
Definition civil_of_days (z : Z) : Z * Z * Z :=
  let z := z + 719468 in
  let era := z / 146097 in
  let doe := z - era * 146097 in
  let yoe := (doe - doe / 1460 + doe / 36524 - doe / 146096) / 365 in
  let doy := doe - (365 * yoe + yoe / 4 - yoe / 100) in
  let mp := (5 * doy + 2) / 153 in
  let d := doy - (153 * mp + 2) / 5 + 1 in
  let m := if mp <? 10 then mp + 3 else mp - 9 in
  let y := yoe + era * 400 + (if m <=? 2 then 1 else 0) in
  (y, m, d).
Definition time_Month (t : Z) : Z := (civil_of_days (unix_day t)).1.2.
Definition time_Day (t : Z) : Z := (civil_of_days (unix_day t)).2.

(** [time.Date(y, m, d, h, mi, s, 0, time.UTC)] for a valid civil date. *)
Definition days_of_civil (y m d : Z) : Z :=
  let y := if m <=? 2 then y - 1 else y in
  let era := y / 400 in
  let yoe := y - era * 400 in
  let doy := (153 * (if 2 <? m then m - 3 else m + 9) + 2) / 5 + d - 1 in
  let doe := yoe * 365 + yoe / 4 - yoe / 100 + doy in
  era * 146097 + doe - 719468.
Definition time_Date (y m d h mi s : Z) : Z :=
  days_of_civil y m d * (24 * Hour) + h * Hour + mi * Minute + s * Second.

(** Two days the program's own tests rely on: 2026-05-17 is a Sunday and
    2026-06-08 a Monday. *)
Example calendar_ex :
  time_Weekday (time_Date 2026 5 17 8 10 0) = 0 ∧ time_Weekday (time_Date 2026 6 8 9 0 0) = 1 ∧
  time_Month (time_Date 2024 2 29 23 59 59) = 2 ∧ time_Day (time_Date 2024 2 29 23 59 59) = 29 ∧
  time_Hour (time_Date 2024 2 29 23 59 59) = 23 ∧ time_Minute (time_Date 2024 2 29 23 59 59) = 59.
Proof. by vm_compute. Qed.
Example time_zero_ex : time_Date 1 1 1 0 0 0 = time_zero.
Proof. by vm_compute. Qed.

(** ** Facts *)
Lemma TruncateMinute_le t : TruncateMinute t ≤ t.
Proof.
  unfold TruncateMinute. pose proof (Z.mod_pos_bound (t - time_zero) Minute).
  unfold Minute, Second in *. lia.
Qed.
Lemma TruncateMinute_gt t : t - Minute < TruncateMinute t.
Proof.
  unfold TruncateMinute. pose proof (Z.mod_pos_bound (t - time_zero) Minute).
  unfold Minute, Second in *. lia.
Qed.
(** Whole minutes. *)
Definition is_minute (t : Z) : Prop := t `mod` Minute = 0.
Lemma TruncateMinute_minute t : is_minute (TruncateMinute t).
Proof.
  unfold is_minute, TruncateMinute.
  assert (time_zero = - 1035593280 * Minute) as -> by reflexivity.
  replace (t - - 1035593280 * Minute) with (t + 1035593280 * Minute) by lia.
  rewrite Z.mod_add by done. rewrite Zminus_mod_idemp_r. by rewrite Z.sub_diag.
Qed.
Lemma TruncateMinute_id t : is_minute t → TruncateMinute t = t.
Proof.
  unfold is_minute, TruncateMinute. intros H.
  assert (time_zero = - 1035593280 * Minute) as -> by reflexivity.
  replace (t - - 1035593280 * Minute) with (t + 1035593280 * Minute) by lia.
  rewrite Z.mod_add by done. lia.
Qed.
#[export] Hint Resolve TruncateMinute_le TruncateMinute_minute : identrail.

Lemma time_Hour_range t : 0 ≤ time_Hour t < 24.
Proof. apply Z.mod_pos_bound. lia. Qed.
Lemma time_Minute_range t : 0 ≤ time_Minute t < 60.
Proof. apply Z.mod_pos_bound. lia. Qed.
Lemma time_Weekday_range t : 0 ≤ time_Weekday t < 7.
Proof. apply Z.mod_pos_bound. lia. Qed.

(** ** Formatting *)

(** [t.UTC().Format(time.RFC3339)] and [time.RFC3339Nano], which drops the
    trailing zeros of the fraction, for the years 0 to 9999. *)
Definition pad (width : nat) (z : Z) : string :=
  let digits := bytes (Itoa z) in
  of_bytes (repeat "0"%char (width - length digits) ++ digits)%list.
Definition time_Second (t : Z) : Z := (t / Second) `mod` 60.
Definition seconds_text (t : Z) : string :=
  let '(y, m, d) := civil_of_days (unix_day t) in
  pad 4 y +:+ "-" +:+ pad 2 m +:+ "-" +:+ pad 2 d +:+ "T" +:+
  pad 2 (time_Hour t) +:+ ":" +:+ pad 2 (time_Minute t) +:+ ":" +:+ pad 2 (time_Second t).
Fixpoint drop_zeros (l : list ascii) : list ascii :=
  match l with "0"%char :: l => drop_zeros l | _ => l end.
Definition fraction_text (t : Z) : string :=
  let ns := t `mod` Second in
  if ns =? 0 then "" else "." +:+ of_bytes (rev (drop_zeros (rev (bytes (pad 9 ns))))).
Definition Format_RFC3339 (t : Z) : string := seconds_text t +:+ "Z".
Definition Format_RFC3339Nano (t : Z) : string := seconds_text t +:+ fraction_text t +:+ "Z".
Example format_ex :
  Format_RFC3339 (time_Date 2026 6 8 9 5 0) = "2026-06-08T09:05:00Z" ∧
  Format_RFC3339Nano (time_Date 2026 6 8 9 5 0 + 120 * 1000000) = "2026-06-08T09:05:00.12Z" ∧
  Format_RFC3339Nano (time_Date 2026 6 8 9 5 0) = "2026-06-08T09:05:00Z".
Proof. repeat split; by vm_compute. Qed.

(** ** Parsing

    [time.Parse] with the layouts [time.RFC3339] and [time.RFC3339Nano], which
    accept the same texts: an hour may have one digit, the seconds any fraction
    after a dot or a comma, of which nine digits count, and an offset up to 24
    hours and 60 minutes. *)
Definition digits2 (l : list ascii) : option (Z * list ascii) :=
  match l with
  | a :: b :: l => d ← digit_value a; e ← digit_value b; Some (d * 10 + e, l)
  | _ => None
  end.
Definition digits12 (l : list ascii) : option (Z * list ascii) :=
  match digits2 l with
  | Some r => Some r
  | None => match l with a :: l => d ← digit_value a; Some (d, l) | [] => None end
  end.
Definition digits4 (l : list ascii) : option (Z * list ascii) :=
  '(h, l) ← digits2 l; '(t, l) ← digits2 l; Some (h * 100 + t, l).
Definition literal (c : ascii) (l : list ascii) : option (list ascii) :=
  match l with a :: l => if decide (a = c) then Some l else None | [] => None end.
Definition check (ok : bool) : option unit := if ok then Some tt else None.

Fixpoint span_digits (l : list ascii) : list Z * list ascii :=
  match l with
  | [] => ([], [])
  | c :: l' => match digit_value c with Some d => let '(ds, r) := span_digits l' in (d :: ds, r) | None => ([], l) end
  end.
(** The nanoseconds that the digits of a fraction stand for. *)
Definition nanoseconds (ds : list Z) : Z := foldl (λ acc d, acc * 10 + d) 0 (take 9 (ds ++ repeat 0 9)).
Definition fraction (l : list ascii) : Z * list ascii :=
  match l with
  | c :: l' =>
      if bool_decide (c = "."%char ∨ c = ","%char) then
        match span_digits l' with ([], _) => (0, l) | (ds, r) => (nanoseconds ds, r) end
      else (0, l)
  | [] => (0, l)
  end.
(** The offset, in seconds east of UTC. *)
Definition zone (l : list ascii) : option (Z * list ascii) :=
  match l with
  | "Z"%char :: l => Some (0, l)
  | c :: l =>
      sign ← (if decide (c = "+"%char) then Some 1 else if decide (c = "-"%char) then Some (-1) else None);
      '(h, l) ← digits2 l; l ← literal ":" l; '(m, l) ← digits2 l;
      _ ← check ((h <=? 24) && (m <=? 60));
      Some (sign * (h * 3600 + m * 60), l)
  | [] => None
  end.
Definition is_leap (y : Z) : bool := (y mod 4 =? 0) && (negb (y mod 100 =? 0) || (y mod 400 =? 0)).
Definition days_in (y m : Z) : Z :=
  if m =? 2 then if is_leap y then 29 else 28
  else if bool_decide (m ∈ [4; 6; 9; 11]) then 30 else 31.

Definition Parse_RFC3339 (s : string) : option Z :=
  '(y, l) ← digits4 (bytes s); l ← literal "-" l;
  '(m, l) ← digits2 l; _ ← check ((1 <=? m) && (m <=? 12)); l ← literal "-" l;
  '(d, l) ← digits2 l; l ← literal "T" l;
  '(h, l) ← digits12 l; _ ← check (h <? 24); l ← literal ":" l;
  '(mi, l) ← digits2 l; _ ← check (mi <? 60); l ← literal ":" l;
  '(sec, l) ← digits2 l; _ ← check (sec <? 60);
  let '(ns, l) := fraction l in
  '(offset, l) ← zone l;
  _ ← check (match l with [] => true | _ => false end);
  _ ← check ((1 <=? d) && (d <=? days_in y m));
  Some (time_Date y m d h mi sec + ns - offset * Second).

Example parse_ex :
  Parse_RFC3339 "2026-06-08T09:05:00Z" = Some (time_Date 2026 6 8 9 5 0) ∧
  Parse_RFC3339 "2026-06-08T09:05:00.12Z" = Some (time_Date 2026 6 8 9 5 0 + 120 * 1000000) ∧
  Parse_RFC3339 "2026-06-08T09:05:00+02:30" = Some (time_Date 2026 6 8 6 35 0) ∧
  Parse_RFC3339 "2026-02-29T09:05:00Z" = None ∧ Parse_RFC3339 "2026-06-08" = None ∧
  Parse_RFC3339 (Format_RFC3339Nano (time_Date 2024 2 29 23 59 59 + 5)) = Some (time_Date 2024 2 29 23 59 59 + 5).
Proof. repeat split; by vm_compute. Qed.
