(* ===== verification/Runs.v ===== *)
(** * Runs of operations

    A component is driven by a sequence of calls; [step] is the state after one
    call.  Generic facts about such runs: invariants, and counting the calls
    that have a given effect. *)
From S2P Require Import Prelude.

Section runs.
Context {S Op : Type} (step : S → Op → S).

Definition run (ops : list Op) (s : S) : S := foldl step s ops.

Lemma run_app ops ops' s : run (ops ++ ops') s = run ops' (run ops s).
Proof. apply foldl_app. Qed.

(** A property every call preserves holds after any run. *)
Lemma run_invariant (I : S → Prop) (ok : Op → Prop) :
  (∀ s op, ok op → I s → I (step s op)) → ∀ ops s, Forall ok ops → I s → I (run ops s).
Proof.
  intros Hstep ops s Hops. revert s. induction Hops as [|op ops Hop _ IH]; intros s Hs; [done|].
  apply IH, Hstep; assumption.
Qed.

(** Every state of a run, the first and the last included, satisfies [P]. *)
Fixpoint always (P : S → Prop) (ops : list Op) (s : S) : Prop :=
  P s ∧ match ops with [] => True | op :: ops => always P ops (step s op) end.

Lemma always_invariant (P I : S → Prop) :
  (∀ s op, P s → I s → I (step s op)) → ∀ ops s, always P ops s → I s → I (run ops s).
Proof.
  intros Hstep ops. induction ops as [|op ops IH]; intros s [Hs Hops] HI; [done|]. by apply IH; [|apply Hstep].
Qed.

Definition count (b : bool) : nat := if b then 1%nat else 0%nat.

(** How many calls of a run have the effect [f], judged in the state they are
    made in. *)
Fixpoint tally (f : Op → S → bool) (ops : list Op) (s : S) : nat :=
  match ops with
  | [] => 0
  | op :: ops => count (f op s) + tally f ops (step s op)
  end.

(** Calls that consume what other calls produce: a measure of what is in stock
    bounds the consumption, the rest being in stock at the end. *)
Lemma tally_le (I : S → Prop) (ok : Op → Prop) (measure : S → nat) (consumes produces : Op → S → bool) :
  (∀ s op, ok op → I s → I (step s op)) →
  (∀ op s, ok op → I s →
    (count (consumes op s) + measure (step s op) ≤ count (produces op s) + measure s)%nat) →
  ∀ ops s, Forall ok ops → I s →
    (tally consumes ops s + measure (run ops s) ≤ tally produces ops s + measure s)%nat.
Proof.
  intros HI Hstep ops s Hops. revert s. induction Hops as [|op ops Hop _ IH]; intros s Hs; [cbn; lia|].
  cbn [tally]. change (run (op :: ops) s) with (run ops (step s op)).
  pose proof (IH (step s op) (HI s op Hop Hs)). pose proof (Hstep op s Hop Hs). lia.
Qed.

(** An effect no call has while [I] holds never happens. *)
Lemma tally_zero (I : S → Prop) (ok : Op → Prop) (f : Op → S → bool) :
  (∀ op s, ok op → I s → f op s = false ∧ I (step s op)) →
  ∀ ops s, Forall ok ops → I s → tally f ops s = 0%nat ∧ I (run ops s).
Proof.
  intros Hstep ops s Hops. revert s. induction Hops as [|op ops Hop _ IH]; intros s Hs; [done|]. cbn.
  destruct (Hstep op s Hop Hs) as [-> Hs']. exact (IH _ Hs').
Qed.
End runs.
