(* ===== verification/GoCrypto.v ===== *)
(** * The cryptographic primitives the code calls

    [crypto/hmac] with [crypto/sha256] is a parameter; the code that shows the
    digest relies on its being 64 hexadecimal digits. *)
From S2P Require Import Prelude GoStrings.

Class HMAC := {
  (** [hex.EncodeToString(mac.Sum(nil))] of HMAC-SHA256: key, message. *)
  hmac_sha256_hex : string → string → string;
  hmac_sha256_hex_length : ∀ key message, length (bytes (hmac_sha256_hex key message)) = 64%nat;
}.

(** The same digest as its 32 bytes. *)
Class HMACBytes := { hmac_sha256 : string → string → string }.

(** [fmt.Sprintf("%0nx", v)] for [0 <= v < 16^n]. *)
Fixpoint hex_digits (n : nat) (v : Z) : list ascii :=
  match n with
  | O => []
  | S n => hex_digits n (v / 16) ++ [hex_digit (Z.to_N (v `mod` 16))]
  end.

Example hex_digits_ex : of_bytes (hex_digits 4 0xbeef) = "beef".
Proof. reflexivity. Qed.
