(* ===== verification/GoFloat.v ===== *)
(** * Go's [float64]

    IEEE 754 binary64, in the Standard Library's specification of floating-point
    numbers, which computes: a number is a zero, an infinity, a NaN or
    [(-1)^s * m * 2^e].  Comparisons with a NaN are false, and the two zeros are
    equal. *)
From S2P Require Import Prelude.
From Stdlib Require Export SpecFloat.

Abbreviation float64 := spec_float.

#[export] Instance float64_eq_dec : EqDecision float64.
Proof. solve_decision. Defined.

(** [float64(i)]: the nearest double, ties to even. *)
Definition float_of_int (z : Z) : float64 := binary_normalize 53 1024 z 0 false.
Definition float_zero : float64 := S754_zero false.
Definition float_one : float64 := float_of_int 1.

Definition float_eqb : float64 → float64 → bool := SFeqb.
Definition float_ltb : float64 → float64 → bool := SFltb.
(** [f == 0]. *)
Definition float_is_zero (f : float64) : bool := float_eqb f float_zero.

(** The value of [f], when it is an integer ([math.Trunc(f) == f]) below the
    infinities. *)
Definition float_to_int (f : float64) : option Z :=
  match f with
  | S754_zero _ => Some 0
  | S754_finite s m e =>
      let m := if s then Z.neg m else Z.pos m in
      if 0 <=? e then Some (m * 2 ^ e)
      else if m mod 2 ^ (- e) =? 0 then Some (m / 2 ^ (- e)) else None
  | _ => None
  end.

Example float_ex :
  float_to_int (float_of_int 42) = Some 42 ∧ float_to_int (float_of_int (-7)) = Some (-7) ∧
  float_ltb (float_of_int 1) (float_of_int 2) = true ∧ float_eqb S754_nan S754_nan = false ∧
  float_to_int (S754_finite false 3 (-1)) = None.
Proof. by vm_compute. Qed.

Lemma float_is_zero_spec f : float_is_zero f = true ↔ ∃ s, f = S754_zero s.
Proof.
  unfold float_is_zero, float_eqb, SFeqb. destruct f as [s|s| |s m e]; cbn; try destruct s; split; try done.
  all: try (intros _; by eexists). all: by intros [? [=]].
Qed.
