(* ===== verification/Scope.v ===== *)
(** * Tenant/workspace scope (internal/db/scope.go)

    A Go [context.Context] is modelled by the one value this package keeps in
    it: the [Scope] stored under [scopeContextKey], if any. *)
From S2P Require Import Prelude GoStrings.

Definition DefaultTenantID : string := "default".
Definition DefaultWorkspaceID : string := "default".

Definition ErrNotFound : error := Sentinel "record not found".
Definition ErrScopeRequired : error := Sentinel "scope is required".
Definition ErrConflict : error := Sentinel "record conflict".

Record Scope := mkScope { Scope_TenantID : string; Scope_WorkspaceID : string }.

#[export] Instance Scope_eq_dec : EqDecision Scope.
Proof. solve_decision. Defined.

(** [func (s Scope) Normalize() Scope]. *)
Definition Scope_Normalize (s : Scope) : Scope :=
  let tenantID := TrimSpace (Scope_TenantID s) in
  let tenantID := if decide (tenantID = "") then DefaultTenantID else tenantID in
  let workspaceID := TrimSpace (Scope_WorkspaceID s) in
  let workspaceID := if decide (workspaceID = "") then DefaultWorkspaceID else workspaceID in
  mkScope tenantID workspaceID.

Definition Context := option Scope.

Definition WithScope (ctx : Context) (scope : Scope) : Context := Some (Scope_Normalize scope).

Definition LookupScope (ctx : Context) : option Scope := Scope_Normalize <$> ctx.

Definition ScopeFromContext (ctx : Context) : Scope :=
  match LookupScope ctx with
  | Some scope => scope
  | None => Scope_Normalize (mkScope "" "")
  end.

Definition RequireScope (ctx : Context) : result Scope :=
  match LookupScope ctx with
  | None => Err ErrScopeRequired
  | Some scope => Ok (Scope_Normalize scope)
  end.

Definition WithDefaultScope (ctx : Context) (fallback : Scope) : Context :=
  match LookupScope ctx with Some _ => ctx | None => WithScope ctx fallback end.

Definition MatchScope (scope : Scope) (tenantID workspaceID : string) : bool :=
  let normalized := Scope_Normalize scope in
  bool_decide (TrimSpace tenantID = Scope_TenantID normalized) &&
  bool_decide (TrimSpace workspaceID = Scope_WorkspaceID normalized).

Definition ResolveScopedWorkspaceID (scope : Scope) (workspaceID : string) : result string :=
  let normalizedScope := Scope_Normalize scope in
  let resolved := TrimSpace workspaceID in
  let resolved := if decide (resolved = "") then Scope_WorkspaceID normalizedScope else resolved in
  if decide (resolved ≠ Scope_WorkspaceID normalizedScope) then Err ErrNotFound
  else Ok resolved.

(** ** Facts *)

(** A scope in the form [Normalize] produces. *)
Definition scope_normal (s : Scope) : Prop :=
  TrimSpace (Scope_TenantID s) = Scope_TenantID s ∧ Scope_TenantID s ≠ "" ∧
  TrimSpace (Scope_WorkspaceID s) = Scope_WorkspaceID s ∧ Scope_WorkspaceID s ≠ "".

Lemma Scope_Normalize_normal s : scope_normal (Scope_Normalize s).
Proof.
  unfold scope_normal, Scope_Normalize; cbn.
  repeat case_decide; rewrite ?TrimSpace_idemp; by split_and?.
Qed.

Lemma Scope_Normalize_id s : scope_normal s → Scope_Normalize s = s.
Proof.
  destruct s as [t w]. unfold scope_normal, Scope_Normalize; cbn. intros (-> & ? & -> & ?).
  by rewrite !decide_False.
Qed.

Lemma Scope_Normalize_idemp s : Scope_Normalize (Scope_Normalize s) = Scope_Normalize s.
Proof. apply Scope_Normalize_id, Scope_Normalize_normal. Qed.
#[export] Hint Rewrite Scope_Normalize_idemp : identrail.
#[export] Hint Resolve Scope_Normalize_normal : identrail.

Lemma RequireScope_normal ctx scope : RequireScope ctx = Ok scope → scope_normal scope.
Proof. unfold RequireScope. destruct (LookupScope ctx); intros [= <-]. auto with identrail. Qed.

Lemma RequireScope_WithScope ctx s : RequireScope (WithScope ctx s) = Ok (Scope_Normalize s).
Proof. unfold RequireScope, WithScope. cbn. by rewrite !Scope_Normalize_idemp. Qed.

Lemma MatchScope_true scope t w :
  MatchScope scope t w = true ↔
  TrimSpace t = Scope_TenantID (Scope_Normalize scope) ∧
  TrimSpace w = Scope_WorkspaceID (Scope_Normalize scope).
Proof. unfold MatchScope. by rewrite andb_true_iff, !bool_decide_eq_true. Qed.

(** A record stamped with the active scope matches it, and no other scope does. *)
Lemma MatchScope_stamped scope scope' :
  MatchScope scope (Scope_TenantID (Scope_Normalize scope'))
    (Scope_WorkspaceID (Scope_Normalize scope')) = true ↔
  Scope_Normalize scope = Scope_Normalize scope'.
Proof.
  rewrite MatchScope_true.
  destruct (Scope_Normalize_normal scope') as (-> & _ & -> & _).
  destruct (Scope_Normalize scope), (Scope_Normalize scope'); cbn. naive_solver.
Qed.

Lemma ResolveScopedWorkspaceID_Ok scope w r :
  ResolveScopedWorkspaceID scope w = Ok r → r = Scope_WorkspaceID (Scope_Normalize scope).
Proof. unfold ResolveScopedWorkspaceID. repeat case_decide; intros [=]; subst; try done; tauto. Qed.
