(* ===== verification/PolicyEngine.v ===== *)
(** * The centralized authorization engine (internal/api/authz_policy.go)

    The input and decision data, the engine's four ordered stages and its
    decision loop with the trace it records. *)
From S2P Require Import Prelude GoStrings Scope.

Definition PolicyStageTenantIsolation : string := "tenant_isolation".
Definition PolicyStageRBAC : string := "rbac".
Definition PolicyStageABAC : string := "abac".
Definition PolicyStageReBAC : string := "rebac".
Definition PolicyStageDefaultDeny : string := "default_deny".

Definition PolicyOutcomeNoOpinion : string := "no_op".
Definition PolicyOutcomeAllow : string := "allow".
Definition PolicyOutcomeDeny : string := "deny".
Definition PolicyOutcomeSkipped : string := "skipped".

Record PolicySubject := mkPolicySubject {
  Subject_Type : string;
  Subject_ID : string;
  Subject_TenantID : string;
  Subject_WorkspaceID : string;
  Subject_Groups : list string;
  Subject_Roles : list string;
  Subject_Attributes : gmap string string;
}.

Record PolicyResource := mkPolicyResource {
  Resource_Type : string;
  Resource_ID : string;
  Resource_TenantID : string;
  Resource_WorkspaceID : string;
  Resource_Attributes : gmap string string;
}.

Record PolicyContext := mkPolicyContext {
  Context_RequestPath : string;
  Context_RequestMethod : string;
  Context_Now : Z;
  Context_Attributes : gmap string string;
}.

Record PolicyInput := mkPolicyInput {
  Input_Subject : PolicySubject;
  Input_Action : string;
  Input_Resource : PolicyResource;
  Input_Context : PolicyContext;
}.

Record PolicyDecision := mkPolicyDecision {
  Decision_Allowed : bool;
  Decision_Stage : string;
  Decision_Reason : string;
}.

Record PolicyTraceStep := mkPolicyTraceStep {
  Step_Stage : string;
  Step_Outcome : string;
  Step_Reason : string;
}.

(** The interface [PolicyEvaluator]: outcome and reason, or an error. *)
Definition PolicyEvaluator := Context → PolicyInput → result (string * string).

(** A nil evaluator is [None], and so is a nil [*PolicyEngine]. *)
Record PolicyEngine := mkPolicyEngine {
  TenantIsolationEvaluator : option PolicyEvaluator;
  RBACEvaluator : option PolicyEvaluator;
  ABACEvaluator : option PolicyEvaluator;
  ReBACEvaluator : option PolicyEvaluator;
}.

Definition NewPolicyEngine (tenantIsolation rbac abac rebac : option PolicyEvaluator) : PolicyEngine :=
  mkPolicyEngine tenantIsolation rbac abac rebac.

Definition denyDecision (stage reason : string) : PolicyDecision :=
  let message := TrimSpace reason in
  mkPolicyDecision false stage (if decide (message = "") then "access denied" else message).

Definition zero_decision : PolicyDecision := mkPolicyDecision false "" "".

Definition stage_names : list string :=
  [PolicyStageTenantIsolation; PolicyStageRBAC; PolicyStageABAC; PolicyStageReBAC].

Definition engine_stages (p : PolicyEngine) : list (string * option PolicyEvaluator) :=
  [(PolicyStageTenantIsolation, TenantIsolationEvaluator p);
   (PolicyStageRBAC, RBACEvaluator p);
   (PolicyStageABAC, ABACEvaluator p);
   (PolicyStageReBAC, ReBACEvaluator p)].

(** The default reason of an outcome. *)
Definition default_reason (outcome reason : string) : string :=
  let reason := TrimSpace reason in
  if decide (reason = "") then
    if decide (outcome = PolicyOutcomeNoOpinion) then "no policy opinion"
    else if decide (outcome = PolicyOutcomeAllow) then "policy grants action"
    else if decide (outcome = PolicyOutcomeDeny) then "policy denies action"
    else reason
  else reason.

(** The steps recorded for the stages after a terminal decision. *)
Definition skipped_steps (name : string) (remaining : list string) : list PolicyTraceStep :=
  (λ stage, mkPolicyTraceStep stage PolicyOutcomeSkipped
              ("skipped after terminal decision at " +:+ name))
    <$> (remaining ++ [PolicyStageDefaultDeny]).

(** The loop over the stages; [trace] is what has been recorded so far. *)
Fixpoint decide_stages (ctx : Context) (input : PolicyInput)
    (stages : list (string * option PolicyEvaluator)) (trace : list PolicyTraceStep)
    : PolicyDecision * list PolicyTraceStep * option error :=
  match stages with
  | [] =>
      let decision := denyDecision PolicyStageDefaultDeny "no policy granted access" in
      (decision,
       trace ++ [mkPolicyTraceStep PolicyStageDefaultDeny PolicyOutcomeDeny (Decision_Reason decision)],
       None)
  | (name, None) :: remaining =>
      decide_stages ctx input remaining
        (trace ++ [mkPolicyTraceStep name PolicyOutcomeNoOpinion "stage evaluator is not configured"])
  | (name, Some evaluate) :: remaining =>
      match evaluate ctx input with
      | Err err => (zero_decision, trace, Some (Wrap ("evaluate " +:+ name +:+ " policy") err))
      | Ok (outcome, reason) =>
          let reason := default_reason outcome reason in
          let trace := trace ++ [mkPolicyTraceStep name outcome reason] in
          if decide (outcome = PolicyOutcomeAllow) then
            (mkPolicyDecision true name reason, trace ++ skipped_steps name remaining.*1, None)
          else if decide (outcome = PolicyOutcomeDeny) then
            (denyDecision name reason, trace ++ skipped_steps name remaining.*1, None)
          else if decide (outcome = PolicyOutcomeNoOpinion) then
            decide_stages ctx input remaining trace
          else
            (zero_decision, trace,
             Some (Errorf ("evaluate " +:+ name +:+ " policy: invalid outcome " +:+ Quote outcome)))
      end
  end.

Definition DecideWithTrace (p : option PolicyEngine) (ctx : Context) (input : PolicyInput)
    : PolicyDecision * list PolicyTraceStep * option error :=
  match p with
  | None =>
      let decision := denyDecision PolicyStageDefaultDeny "authorization policy engine is not configured" in
      (decision,
       ((λ stage, mkPolicyTraceStep stage PolicyOutcomeSkipped "policy engine is not configured")
          <$> stage_names)
       ++ [mkPolicyTraceStep PolicyStageDefaultDeny PolicyOutcomeDeny (Decision_Reason decision)],
       None)
  | Some p => decide_stages ctx input (engine_stages p) []
  end.

Definition Decide (p : option PolicyEngine) (ctx : Context) (input : PolicyInput) : result PolicyDecision :=
  match DecideWithTrace p ctx input with
  | (decision, _, None) => Ok decision
  | (_, _, Some err) => Err err
  end.

(** ** Reference semantics *)

(** A stage abstains when it has no evaluator or the evaluator has no opinion. *)
Definition abstains (ctx : Context) (input : PolicyInput) (stage : string * option PolicyEvaluator) : bool :=
  match stage.2 with
  | None => true
  | Some evaluate =>
      match evaluate ctx input with
      | Ok (outcome, _) => bool_decide (outcome = PolicyOutcomeNoOpinion)
      | Err _ => false
      end
  end.

(** What a stage that does not abstain decides. *)
Definition verdict (ctx : Context) (input : PolicyInput) (stage : string * option PolicyEvaluator)
    : result PolicyDecision :=
  let '(name, evaluator) := stage in
  match evaluator with
  | None => Ok (denyDecision PolicyStageDefaultDeny "")
  | Some evaluate =>
      match evaluate ctx input with
      | Err err => Err (Wrap ("evaluate " +:+ name +:+ " policy") err)
      | Ok (outcome, reason) =>
          if decide (outcome = PolicyOutcomeAllow)
          then Ok (mkPolicyDecision true name (default_reason outcome reason))
          else if decide (outcome = PolicyOutcomeDeny)
          then Ok (denyDecision name (default_reason outcome reason))
          else Err (Errorf ("evaluate " +:+ name +:+ " policy: invalid outcome " +:+ Quote outcome))
      end
  end.

(** The first stage that does not abstain. *)
Definition first_opinion (ctx : Context) (input : PolicyInput)
    (stages : list (string * option PolicyEvaluator)) : option (string * option PolicyEvaluator) :=
  snd <$> list_find (λ stage, abstains ctx input stage = false) stages.

Lemma first_opinion_cons ctx input stage stages :
  first_opinion ctx input (stage :: stages) =
  if abstains ctx input stage then first_opinion ctx input stages else Some stage.
Proof.
  unfold first_opinion. cbn. destruct (abstains ctx input stage); cbn; [|done].
  rewrite decide_False by done. by destruct (list_find _ stages) as [[]|].
Qed.

Definition result_of (r : PolicyDecision * list PolicyTraceStep * option error) : result PolicyDecision :=
  match r with (decision, _, None) => Ok decision | (_, _, Some err) => Err err end.

Lemma decide_stages_first ctx input stages trace :
  result_of (decide_stages ctx input stages trace) =
  match first_opinion ctx input stages with
  | None => Ok (denyDecision PolicyStageDefaultDeny "no policy granted access")
  | Some stage => verdict ctx input stage
  end.
Proof.
  revert trace. induction stages as [|[name [evaluate|]] stages IH]; intros trace.
  - done.
  - rewrite first_opinion_cons. unfold abstains, verdict; cbn.
    destruct (evaluate ctx input) as [[outcome reason]|err] eqn:E; cbn; [|by rewrite E].
    destruct (decide (outcome = PolicyOutcomeAllow)) as [->|Ha]; cbn;
      [by rewrite bool_decide_eq_false_2 by done; cbn; rewrite E|].
    destruct (decide (outcome = PolicyOutcomeDeny)) as [->|Hd]; cbn;
      [by rewrite bool_decide_eq_false_2 by done; cbn; rewrite E|].
    destruct (decide (outcome = PolicyOutcomeNoOpinion)) as [->|Hn]; cbn; [apply IH|].
    rewrite bool_decide_eq_false_2 by done. cbn. by rewrite E, !decide_False.
  - rewrite first_opinion_cons. apply IH.
Qed.

(** A decision that allows comes from a stage whose evaluator allows, after
    stages that all abstain. *)
Lemma first_opinion_Some ctx input stages stage :
  first_opinion ctx input stages = Some stage →
  ∃ i, stages !! i = Some stage ∧ abstains ctx input stage = false ∧
    ∀ j stage', stages !! j = Some stage' → (j < i)%nat → abstains ctx input stage' = true.
Proof.
  unfold first_opinion. destruct (list_find _ stages) as [[i st]|] eqn:E; cbn; [|done].
  intros [= ->]. apply list_find_Some in E as (Hi & Ha & Hj). exists i. split_and!; [done..|].
  intros j st Hst Hlt. specialize (Hj j st Hst Hlt). by destruct (abstains ctx input st).
Qed.

(** A verdict names its own stage. *)
Lemma verdict_stage ctx input stage d :
  verdict ctx input stage = Ok d →
  Decision_Stage d = stage.1 ∨ Decision_Stage d = PolicyStageDefaultDeny.
Proof.
  destruct stage as [name [evaluate|]]; cbn; [|intros [= <-]; by right].
  destruct (evaluate ctx input) as [[outcome reason]|]; [|done].
  repeat case_decide; intros [= <-]; by left.
Qed.

(** ** The trace *)
Definition trace_stages : list string := stage_names ++ [PolicyStageDefaultDeny].

(** The outcome a final decision records for its own stage. *)
Definition decision_outcome (d : PolicyDecision) : string :=
  if Decision_Allowed d then PolicyOutcomeAllow else PolicyOutcomeDeny.

Lemma skipped_steps_stages name l : Step_Stage <$> skipped_steps name l = l ++ [PolicyStageDefaultDeny].
Proof. unfold skipped_steps. rewrite <-list_fmap_compose. apply list_fmap_id. Qed.

Lemma skipped_steps_outcomes name l :
  Step_Outcome <$> skipped_steps name l = replicate (S (length l)) PolicyOutcomeSkipped.
Proof.
  unfold skipped_steps. rewrite <-list_fmap_compose.
  induction l as [|x l IH]; cbn; [done|]. f_equal. apply IH.
Qed.

(** The steps the loop adds to a trace, on success: the remaining stages and
    the default in order, abstentions up to the deciding stage and skips after it. *)
Lemma decide_stages_trace ctx input stages trace d trace' :
  decide_stages ctx input stages trace = (d, trace', None) →
  ∃ new n, trace' = trace ++ new ∧ (n ≤ length stages)%nat ∧
    Step_Stage <$> new = stages.*1 ++ [PolicyStageDefaultDeny] ∧
    Step_Outcome <$> new = replicate n PolicyOutcomeNoOpinion ++ [decision_outcome d] ++
      replicate (length stages - n) PolicyOutcomeSkipped ∧
    (stages.*1 ++ [PolicyStageDefaultDeny]) !! n = Some (Decision_Stage d).
Proof.
  revert trace. induction stages as [|[name [evaluate|]] stages IH]; intros trace H; cbn in H.
  { injection H as <- <-. by exists [mkPolicyTraceStep PolicyStageDefaultDeny PolicyOutcomeDeny
      "no policy granted access"], 0%nat. }
  1: destruct (evaluate ctx input) as [[outcome reason]|err]; [|done].
  1: destruct (decide (outcome = PolicyOutcomeAllow)) as [->|Ha];
       [|destruct (decide (outcome = PolicyOutcomeDeny)) as [->|Hd];
         [|destruct (decide (outcome = PolicyOutcomeNoOpinion)) as [->|Hn]; [|done]]].
  1, 2: injection H as <- <-; rewrite <-app_assoc; eexists _, 0%nat;
      (split_and!; [done|lia| | |done]); cbn [fmap list_fmap app];
      rewrite ?fmap_app; cbn [fmap list_fmap app]; f_equal;
      rewrite ?skipped_steps_stages, ?skipped_steps_outcomes, ?length_fmap; done.
  all: apply IH in H as (new & n & -> & Hlen & Hs & Ho & Hst); rewrite <-app_assoc;
      eexists _, (S n); (split_and!; [done|cbn; lia| | |done]);
      cbn; by rewrite ?Hs, ?Ho.
Qed.

(** ** The engine's contract *)

Lemma Decide_Some p ctx input :
  Decide (Some p) ctx input =
  match first_opinion ctx input (engine_stages p) with
  | None => Ok (denyDecision PolicyStageDefaultDeny "no policy granted access")
  | Some stage => verdict ctx input stage
  end.
Proof.
  transitivity (result_of (decide_stages ctx input (engine_stages p) [])); [done|].
  apply decide_stages_first.
Qed.

(** C27. For every engine, context and input, the decision is exactly that of
    the first of the four stages (tenant isolation, RBAC, ABAC, ReBAC) that has
    an opinion: allow, deny, or the stage's wrapped error; when every stage
    abstains the request is denied by default.  A nil engine denies. *)
Theorem Decide_first_opinion (p : option PolicyEngine) (ctx : Context) (input : PolicyInput) :
  Decide p ctx input =
  match p with
  | None => Ok (denyDecision PolicyStageDefaultDeny "authorization policy engine is not configured")
  | Some p =>
      match first_opinion ctx input (engine_stages p) with
      | None => Ok (denyDecision PolicyStageDefaultDeny "no policy granted access")
      | Some stage => verdict ctx input stage
      end
  end.
Proof. destruct p as [p|]; [apply Decide_Some|done]. Qed.

(** An allowed decision names the stage that allowed it. *)
Lemma Decide_allowed_stage p ctx input d :
  Decide p ctx input = Ok d → Decision_Allowed d = true →
  ∃ e i evaluate reason, p = Some e ∧
    engine_stages e !! i = Some (Decision_Stage d, Some evaluate) ∧
    evaluate ctx input = Ok (PolicyOutcomeAllow, reason) ∧
    ∀ j stage, engine_stages e !! j = Some stage → (j < i)%nat → abstains ctx input stage = true.
Proof.
  intros H' Ha. destruct p as [e|]; [|by injection H' as <-]. rewrite Decide_Some in H'.
  destruct (first_opinion _ _ _) as [[name [evaluate|]]|] eqn:E;
    [|by injection H' as <-|by injection H' as <-].
  apply first_opinion_Some in E as (i & Hi & Hn & Hj). cbn in H'.
  destruct (evaluate ctx input) as [[outcome reason]|] eqn:Ev; [|done].
  repeat case_decide; [|by injection H' as <-|done]. subst.
  exists e, i, evaluate, reason. injection H' as <-. done.
Qed.

(** On success the trace has exactly five steps, in the canonical stage
    order; every step before the deciding one abstains, the deciding one records
    the decision's own outcome, every later one is skipped, and the decision
    names the stage of the deciding step. *)
Theorem DecideWithTrace_shape (p : PolicyEngine) (ctx : Context) (input : PolicyInput)
    (d : PolicyDecision) (trace : list PolicyTraceStep)
    (H : DecideWithTrace (Some p) ctx input = (d, trace, None)) :
  Step_Stage <$> trace = trace_stages ∧
  ∃ n, (n ≤ 4)%nat ∧
    Step_Outcome <$> trace = replicate n PolicyOutcomeNoOpinion ++ [decision_outcome d] ++
      replicate (4 - n) PolicyOutcomeSkipped ∧
    trace_stages !! n = Some (Decision_Stage d).
Proof.
  apply (decide_stages_trace ctx input (engine_stages p)) in H as (new & n & -> & Hn & Hs & Ho & Hd).
  split; [done|]. by exists n.
Qed.

(** An engine whose RBAC stage allows and whose other stages are not configured. *)
Definition rbac_only_engine : PolicyEngine :=
  NewPolicyEngine None (Some (λ _ _, Ok (PolicyOutcomeAllow, " "))) None None.
Definition empty_input : PolicyInput :=
  mkPolicyInput (mkPolicySubject "" "" "" "" [] [] ∅) "" (mkPolicyResource "" "" "" "" ∅)
    (mkPolicyContext "" "" 0 ∅).

Lemma DecideWithTrace_shape_witness :
  let '(d, trace, _) := DecideWithTrace (Some rbac_only_engine) None empty_input in
  Step_Stage <$> trace = trace_stages ∧
  ∃ n, (n ≤ 4)%nat ∧
    Step_Outcome <$> trace = replicate n PolicyOutcomeNoOpinion ++ [decision_outcome d] ++
      replicate (4 - n) PolicyOutcomeSkipped ∧
    trace_stages !! n = Some (Decision_Stage d).
Proof. apply (DecideWithTrace_shape rbac_only_engine None empty_input). reflexivity. Defined.
