(* ===== verification/PolicyEvaluators.v ===== *)
(** * Tenant isolation, RBAC and ABAC (internal/api/authz_evaluators.go)

    Each evaluator is a definition of type [PolicyEvaluator]; the tables it
    was built from are its first argument.  A set of roles
    ([map[string]struct{}]) is a [gset string]. *)
From S2P Require Import Prelude GoStrings GoCollections Scope PolicyEngine.

Definition policyContextTenantIDKey : string := "tenant_id".
Definition policyContextWorkspaceIDKey : string := "workspace_id".

Definition abacAttributeSourceSubject : string := "subject".
Definition abacAttributeSourceResource : string := "resource".
Definition abacAttributeSourceContext : string := "context".
Definition abacOperatorEquals : string := "equals".
Definition abacOperatorOneOf : string := "one_of".
Definition abacOperatorEqualsAttribute : string := "equals_attribute".

(** Reading a map returns the zero value for a missing key. *)
Definition attribute (m : gmap string string) (key : string) : string := default "" (m !! key).

(** ** Tenant isolation *)

(** The tenant and workspace a request targets: the resource's own, or else
    those of the request context. *)
Definition target_tenant (input : PolicyInput) : string :=
  let t := TrimSpace (Resource_TenantID (Input_Resource input)) in
  if decide (t = "") then TrimSpace (attribute (Context_Attributes (Input_Context input)) policyContextTenantIDKey)
  else t.
Definition target_workspace (input : PolicyInput) : string :=
  let w := TrimSpace (Resource_WorkspaceID (Input_Resource input)) in
  if decide (w = "") then TrimSpace (attribute (Context_Attributes (Input_Context input)) policyContextWorkspaceIDKey)
  else w.

Definition tenantIsolationEvaluator : PolicyEvaluator := λ _ input,
  let subjectTenant := TrimSpace (Subject_TenantID (Input_Subject input)) in
  let subjectWorkspace := TrimSpace (Subject_WorkspaceID (Input_Subject input)) in
  let targetTenant := target_tenant input in
  let targetWorkspace := target_workspace input in
  if decide (subjectTenant ≠ "" ∧ targetTenant ≠ "" ∧ subjectTenant ≠ targetTenant) then
    Ok (PolicyOutcomeDeny,
        "tenant scope mismatch: subject=" +:+ Quote subjectTenant +:+ " target=" +:+ Quote targetTenant)
  else if decide (subjectWorkspace ≠ "" ∧ targetWorkspace ≠ "" ∧ subjectWorkspace ≠ targetWorkspace) then
    Ok (PolicyOutcomeDeny,
        "workspace scope mismatch: subject=" +:+ Quote subjectWorkspace +:+ " target=" +:+ Quote targetWorkspace)
  else Ok (PolicyOutcomeNoOpinion, "").

(** ** RBAC *)
Abbreviation ActionRoles := (gmap string (gset string)).

Definition normalize_role_set (roles : list string) : gset string :=
  list_to_set (nonempty_map canon roles).

(** The loop body: what one [action, roles] entry of the grants writes. *)
Definition normalized_grant (grant : string * list string) : option (string * gset string) :=
  let normalizedAction := canon grant.1 in
  if decide (normalizedAction = "") then None
  else let roleSet := normalize_role_set grant.2 in
       if decide (roleSet = ∅) then None else Some (normalizedAction, roleSet).

Definition normalizeActionRoleGrants `{MapRange} (grants : gmap string (list string)) : ActionRoles :=
  collect normalized_grant (map_range grants).

Definition subjectHasAnyRole (roles : list string) (allowedRoles : gset string) : bool :=
  existsb (λ role, let normalizedRole := canon role in
    negb (bool_decide (normalizedRole = "")) && bool_decide (normalizedRole ∈ allowedRoles)) roles.

(** [rbacPolicyEvaluator.Evaluate]. *)
Definition rbacPolicyEvaluator (actionRoles : ActionRoles) : PolicyEvaluator := λ _ input,
  if decide (actionRoles = ∅) then Ok (PolicyOutcomeNoOpinion, "")
  else let action := canon (Input_Action input) in
    if decide (action = "") then Ok (PolicyOutcomeNoOpinion, "")
    else match actionRoles !! action with
      | None => Ok (PolicyOutcomeNoOpinion, "")
      | Some allowedRoles =>
          if subjectHasAnyRole (Subject_Roles (Input_Subject input)) allowedRoles
          then Ok (PolicyOutcomeAllow, "rbac role grants action")
          else Ok (PolicyOutcomeNoOpinion, "")
      end.

(** [rbacRequirementEvaluator.Evaluate]. *)
Definition rbacRequirementEvaluator (actionRoles : ActionRoles) : PolicyEvaluator := λ _ input,
  if decide (actionRoles = ∅) then Ok (PolicyOutcomeNoOpinion, "")
  else let action := canon (Input_Action input) in
    if decide (action = "") then Ok (PolicyOutcomeNoOpinion, "")
    else match actionRoles !! action with
      | None => Ok (PolicyOutcomeNoOpinion, "")
      | Some allowedRoles =>
          if subjectHasAnyRole (Subject_Roles (Input_Subject input)) allowedRoles
          then Ok (PolicyOutcomeNoOpinion, "")
          else Ok (PolicyOutcomeDeny, "rbac role does not grant action")
      end.

Definition newRBACPolicyEvaluator `{MapRange} (grants : gmap string (list string)) : PolicyEvaluator :=
  rbacPolicyEvaluator (normalizeActionRoleGrants grants).
Definition newRBACRequirementEvaluator `{MapRange} (grants : gmap string (list string)) : PolicyEvaluator :=
  rbacRequirementEvaluator (normalizeActionRoleGrants grants).

(** ** ABAC *)
Record abacPredicate := mkAbacPredicate {
  Predicate_Source : string;
  Predicate_Key : string;
  Predicate_Operator : string;
  Predicate_Value : string;
  Predicate_Values : list string;
  Predicate_CompareSource : string;
  Predicate_CompareKey : string;
}.

(** [abacClause.AllOf]. *)
Abbreviation abacClause := (list abacPredicate).

Record abacActionPolicy := mkAbacActionPolicy {
  Abac_AnyOf : list abacClause;
  Abac_OnNoMatch : string;
}.

#[export] Instance abacPredicate_eq_dec : EqDecision abacPredicate.
Proof. solve_decision. Defined.
#[export] Instance abacActionPolicy_eq_dec : EqDecision abacActionPolicy.
Proof. solve_decision. Defined.

Definition normalizeABACPredicate (p : abacPredicate) : abacPredicate :=
  let operator := canon (Predicate_Operator p) in
  mkAbacPredicate
    (canon (Predicate_Source p))
    (canon (Predicate_Key p))
    (if decide (operator = "") then abacOperatorEquals else operator)
    (TrimSpace (Predicate_Value p))
    (unique (nonempty_map TrimSpace (Predicate_Values p)))
    (canon (Predicate_CompareSource p))
    (canon (Predicate_CompareKey p)).

Definition normalizeABACPolicy (policy : abacActionPolicy) : abacActionPolicy :=
  let outcome := canon (Abac_OnNoMatch policy) in
  mkAbacActionPolicy
    (fmap (M:=list) (fmap (M:=list) normalizeABACPredicate) (Abac_AnyOf policy))
    (if decide (outcome = PolicyOutcomeNoOpinion) then PolicyOutcomeNoOpinion
     else if decide (outcome = PolicyOutcomeAllow) then PolicyOutcomeAllow
     else PolicyOutcomeDeny).

Definition normalized_abac_entry (entry : string * abacActionPolicy) : option (string * abacActionPolicy) :=
  let normalizedAction := canon entry.1 in
  if decide (normalizedAction = "") then None else Some (normalizedAction, normalizeABACPolicy entry.2).

Definition normalizeABACPolicies `{MapRange} (policies : gmap string abacActionPolicy)
    : gmap string abacActionPolicy :=
  collect normalized_abac_entry (map_range policies).

(** A trimmed value, if it is not empty. *)
Definition present (value : string) : option string :=
  let value := TrimSpace value in if decide (value = "") then None else Some value.

(** The exact key first, then any key equal under case folding. *)
Definition lookupPolicyAttribute `{MapRange} (attributes : gmap string string) (key : string) : option string :=
  match attributes !! key with
  | Some value => present value
  | None =>
      match list_find (λ entry, EqualFold entry.1 key = true) (map_range attributes) with
      | Some (_, (_, value)) => present value
      | None => None
      end
  end.

Definition resolveABACValue `{MapRange} (input : PolicyInput) (source key : string) : option string :=
  let subject := Input_Subject input in
  let resource := Input_Resource input in
  let context := Input_Context input in
  let normalizedKey := canon key in
  if decide (normalizedKey = "") then None
  else if decide (source = abacAttributeSourceSubject) then
    if decide (normalizedKey = "type") then present (Subject_Type subject)
    else if decide (normalizedKey = "id") then present (Subject_ID subject)
    else if decide (normalizedKey = "tenant_id") then present (Subject_TenantID subject)
    else if decide (normalizedKey = "workspace_id") then present (Subject_WorkspaceID subject)
    else lookupPolicyAttribute (Subject_Attributes subject) normalizedKey
  else if decide (source = abacAttributeSourceResource) then
    if decide (normalizedKey = "type") then present (Resource_Type resource)
    else if decide (normalizedKey = "id") then present (Resource_ID resource)
    else if decide (normalizedKey = "tenant_id") then present (Resource_TenantID resource)
    else if decide (normalizedKey = "workspace_id") then present (Resource_WorkspaceID resource)
    else lookupPolicyAttribute (Resource_Attributes resource) normalizedKey
  else if decide (source = abacAttributeSourceContext) then
    if decide (normalizedKey = "request_path") then present (Context_RequestPath context)
    else if decide (normalizedKey = "request_method") then present (Context_RequestMethod context)
    else lookupPolicyAttribute (Context_Attributes context) normalizedKey
  else None.

Definition evaluateABACPredicate `{MapRange} (input : PolicyInput) (p : abacPredicate) : bool * string :=
  let name source key := source +:+ "." +:+ key in
  match resolveABACValue input (Predicate_Source p) (Predicate_Key p) with
  | None => (false, "abac missing " +:+ name (Predicate_Source p) (Predicate_Key p))
  | Some lhs =>
      if decide (Predicate_Operator p = abacOperatorEquals) then
        if decide (lhs = Predicate_Value p) then (true, "")
        else (false, "abac mismatch " +:+ name (Predicate_Source p) (Predicate_Key p))
      else if decide (Predicate_Operator p = abacOperatorOneOf) then
        if decide (lhs ∈ Predicate_Values p) then (true, "")
        else (false, "abac value not allowed for " +:+ name (Predicate_Source p) (Predicate_Key p))
      else if decide (Predicate_Operator p = abacOperatorEqualsAttribute) then
        match resolveABACValue input (Predicate_CompareSource p) (Predicate_CompareKey p) with
        | None => (false, "abac missing " +:+ name (Predicate_CompareSource p) (Predicate_CompareKey p))
        | Some rhs =>
            if decide (lhs = rhs) then (true, "")
            else (false, "abac mismatch " +:+ name (Predicate_Source p) (Predicate_Key p) +:+
                         " vs " +:+ name (Predicate_CompareSource p) (Predicate_CompareKey p))
        end
      else (false, "abac unsupported operator")
  end.

(** The inner loop over a clause's predicates: whether it matched, and the
    deny reason it leaves. *)
Fixpoint evaluate_clause `{MapRange} (input : PolicyInput) (clause : abacClause) (denyReason : string)
    : bool * string :=
  match clause with
  | [] => (true, denyReason)
  | predicate :: clause =>
      match evaluateABACPredicate input predicate with
      | (true, _) => evaluate_clause input clause denyReason
      | (false, reason) => (false, if blank reason then denyReason else reason)
      end
  end.

Fixpoint evaluate_clauses `{MapRange} (input : PolicyInput) (clauses : list abacClause) (denyReason : string)
    : bool * string :=
  match clauses with
  | [] => (false, denyReason)
  | clause :: clauses =>
      match evaluate_clause input clause denyReason with
      | (true, denyReason) => (true, denyReason)
      | (false, denyReason) => evaluate_clauses input clauses denyReason
      end
  end.

(** [abacPolicyEvaluator.Evaluate]. *)
Definition abacPolicyEvaluator `{MapRange} (actionPolicies : gmap string abacActionPolicy) : PolicyEvaluator :=
  λ _ input,
  if decide (actionPolicies = ∅) then Ok (PolicyOutcomeNoOpinion, "")
  else let action := canon (Input_Action input) in
    if decide (action = "") then Ok (PolicyOutcomeNoOpinion, "")
    else match actionPolicies !! action with
      | None => Ok (PolicyOutcomeNoOpinion, "")
      | Some policy =>
          if decide (Abac_AnyOf policy = []) then Ok (PolicyOutcomeAllow, "abac policy grants action")
          else match evaluate_clauses input (Abac_AnyOf policy) "abac conditions not satisfied" with
            | (true, _) => Ok (PolicyOutcomeAllow, "abac policy grants action")
            | (false, denyReason) =>
                if decide (Abac_OnNoMatch policy = PolicyOutcomeNoOpinion) then Ok (PolicyOutcomeNoOpinion, "")
                else if decide (Abac_OnNoMatch policy = PolicyOutcomeAllow)
                then Ok (PolicyOutcomeAllow, "abac policy grants action")
                else Ok (PolicyOutcomeDeny, denyReason)
            end
      end.

Definition newABACPolicyEvaluator `{MapRange} (policies : gmap string abacActionPolicy) : PolicyEvaluator :=
  abacPolicyEvaluator (normalizeABACPolicies policies).

(** ** Facts: tenant isolation *)

(** The request crosses a tenant or workspace boundary. *)
Definition scope_mismatch (input : PolicyInput) : Prop :=
  let st := TrimSpace (Subject_TenantID (Input_Subject input)) in
  let sw := TrimSpace (Subject_WorkspaceID (Input_Subject input)) in
  (st ≠ "" ∧ target_tenant input ≠ "" ∧ st ≠ target_tenant input) ∨
  (sw ≠ "" ∧ target_workspace input ≠ "" ∧ sw ≠ target_workspace input).
#[export] Instance scope_mismatch_dec input : Decision (scope_mismatch input).
Proof. unfold scope_mismatch. solve_decision. Defined.

Lemma tenantIsolationEvaluator_outcome ctx input :
  ∃ reason, tenantIsolationEvaluator ctx input =
    Ok (if decide (scope_mismatch input) then PolicyOutcomeDeny else PolicyOutcomeNoOpinion, reason).
Proof.
  unfold tenantIsolationEvaluator, scope_mismatch. cbv zeta.
  repeat case_decide; first [by eexists|tauto].
Qed.

(** An engine that starts with tenant isolation. *)
Definition isolated_engine (rbac abac rebac : option PolicyEvaluator) : PolicyEngine :=
  NewPolicyEngine (Some tenantIsolationEvaluator) rbac abac rebac.

Lemma Decide_isolated rbac abac rebac ctx input :
  ∃ reason, Decide (Some (isolated_engine rbac abac rebac)) ctx input =
    if decide (scope_mismatch input) then Ok (denyDecision PolicyStageTenantIsolation reason)
    else match first_opinion ctx input (drop 1 (engine_stages (isolated_engine rbac abac rebac))) with
         | None => Ok (denyDecision PolicyStageDefaultDeny "no policy granted access")
         | Some stage => verdict ctx input stage
         end.
Proof.
  destruct (tenantIsolationEvaluator_outcome ctx input) as [reason E].
  exists (default_reason PolicyOutcomeDeny reason). rewrite Decide_Some.
  unfold engine_stages; cbn [drop isolated_engine NewPolicyEngine TenantIsolationEvaluator].
  rewrite first_opinion_cons.
  assert (abstains ctx input (PolicyStageTenantIsolation, Some tenantIsolationEvaluator) =
    negb (bool_decide (scope_mismatch input))) as ->.
  { unfold abstains; cbn. rewrite E.
    destruct (decide (scope_mismatch input)) as [H|H];
      [rewrite (bool_decide_eq_true_2 _ H)|rewrite (bool_decide_eq_false_2 _ H)]; reflexivity. }
  destruct (decide (scope_mismatch input)) as [H|H];
    [rewrite (bool_decide_eq_true_2 _ H)|by rewrite (bool_decide_eq_false_2 _ H)].
  cbn [negb verdict]. by rewrite E.
Qed.

(** C3. No policy can grant access across a boundary: in an engine whose first
    stage is the tenant isolation evaluator, whatever the RBAC, ABAC and ReBAC
    stages are, the tenant isolation stage itself decides (and denies) exactly
    when subject and target disagree on a known tenant or workspace, so an
    allowed request never crosses one. *)
Theorem tenant_isolation_enforced (rbac abac rebac : option PolicyEvaluator)
    (ctx : Context) (input : PolicyInput) :
  let decision := Decide (Some (isolated_engine rbac abac rebac)) ctx input in
  (scope_mismatch input ↔
     ∃ d, decision = Ok d ∧ Decision_Stage d = PolicyStageTenantIsolation ∧ Decision_Allowed d = false) ∧
  (∀ d, decision = Ok d → Decision_Allowed d = true → ¬ scope_mismatch input).
Proof.
  cbv zeta. destruct (Decide_isolated rbac abac rebac ctx input) as [reason ->].
  destruct (decide (scope_mismatch input)) as [Hm|Hm].
  - split; [split; eauto|]. by intros d [= <-].
  - split; [|done]. split; [done|]. intros (d & Hd & Hs & _).
    destruct (first_opinion _ _ _) as [stage|] eqn:Ef; [|by injection Hd as <-].
    apply first_opinion_Some in Ef as (i & Hi & _).
    apply verdict_stage in Hd as [Hd|Hd]; rewrite Hs in Hd; [|done].
    do 3 (destruct i as [|i]; [by injection Hi as <-|]). done.
Qed.

(** ** Facts: RBAC *)

(** The subject holds one of the roles. *)
Definition has_role (roles : list string) (allowedRoles : gset string) : Prop :=
  ∃ role, role ∈ roles ∧ canon role ≠ "" ∧ canon role ∈ allowedRoles.

Lemma subjectHasAnyRole_spec roles allowedRoles :
  subjectHasAnyRole roles allowedRoles = true ↔ has_role roles allowedRoles.
Proof.
  unfold subjectHasAnyRole, has_role. rewrite existsb_exists.
  setoid_rewrite <-list_elem_of_In. setoid_rewrite andb_true_iff.
  setoid_rewrite negb_true_iff. setoid_rewrite bool_decide_eq_true.
  setoid_rewrite bool_decide_eq_false. naive_solver.
Qed.

(** The requirement gate denies a mapped action without a granted role. *)
Lemma rbacRequirementEvaluator_denies actionRoles ctx input allowedRoles :
  canon (Input_Action input) ≠ "" → actionRoles !! canon (Input_Action input) = Some allowedRoles →
  rbacRequirementEvaluator actionRoles ctx input =
    if subjectHasAnyRole (Subject_Roles (Input_Subject input)) allowedRoles
    then Ok (PolicyOutcomeNoOpinion, "") else Ok (PolicyOutcomeDeny, "rbac role does not grant action").
Proof.
  intros Hne Hl. unfold rbacRequirementEvaluator.
  rewrite decide_False by (intros ->; by rewrite lookup_empty in Hl).
  by rewrite decide_False, Hl by done.
Qed.

(** A normalized grant table has canonical, non-empty actions and roles. *)
Definition action_roles_normal (m : ActionRoles) : Prop :=
  ∀ action roles, m !! action = Some roles →
    canon action = action ∧ action ≠ "" ∧ roles ≠ ∅ ∧ ∀ r, r ∈ roles → canon r = r ∧ r ≠ "".

Lemma elem_of_normalize_role_set roles r :
  r ∈ normalize_role_set roles ↔ r ≠ "" ∧ ∃ r', r' ∈ roles ∧ r = canon r'.
Proof. unfold normalize_role_set. by rewrite elem_of_list_to_set, elem_of_nonempty_map. Qed.

Lemma normalized_grant_Some grant action roles :
  normalized_grant grant = Some (action, roles) ↔
  action = canon grant.1 ∧ roles = normalize_role_set grant.2 ∧ action ≠ "" ∧ roles ≠ ∅.
Proof. unfold normalized_grant. repeat case_decide; naive_solver. Qed.

Lemma normalizeActionRoleGrants_normal `{MapRange} grants :
  action_roles_normal (normalizeActionRoleGrants grants).
Proof.
  intros action roles ((x & rs) & _ & (-> & -> & ? & ?)%normalized_grant_Some)%collect_Some.
  cbn in *. split_and!; [apply canon_idemp|done..|].
  intros r (? & r' & _ & ->)%elem_of_normalize_role_set. by rewrite canon_idemp.
Qed.

(** ** Facts: ABAC *)

Section abac.
Context `{MapRange}.

(** What a predicate means. *)
Definition predicate_holds (input : PolicyInput) (p : abacPredicate) : Prop :=
  ∃ value, resolveABACValue input (Predicate_Source p) (Predicate_Key p) = Some value ∧
    ((Predicate_Operator p = abacOperatorEquals ∧ value = Predicate_Value p) ∨
     (Predicate_Operator p = abacOperatorOneOf ∧ value ∈ Predicate_Values p) ∨
     (Predicate_Operator p = abacOperatorEqualsAttribute ∧
        resolveABACValue input (Predicate_CompareSource p) (Predicate_CompareKey p) = Some value)).

Lemma evaluateABACPredicate_spec input p :
  (evaluateABACPredicate input p).1 = true ↔ predicate_holds input p.
Proof.
  unfold evaluateABACPredicate, predicate_holds.
  destruct (resolveABACValue input (Predicate_Source p) (Predicate_Key p)) as [v|]; cbn; [|naive_solver].
  destruct (decide (Predicate_Operator p = abacOperatorEquals)) as [->|He];
    [case_decide; naive_solver|].
  destruct (decide (Predicate_Operator p = abacOperatorOneOf)) as [->|Ho];
    [case_decide; naive_solver|].
  destruct (decide (Predicate_Operator p = abacOperatorEqualsAttribute)) as [->|Ha];
    [|naive_solver].
  destruct (resolveABACValue input _ _) as [w|]; [case_decide|]; naive_solver.
Qed.

#[export] Instance predicate_holds_dec input p : Decision (predicate_holds input p).
Proof.
  destruct ((evaluateABACPredicate input p).1) eqn:E.
  - left. by apply evaluateABACPredicate_spec.
  - right. rewrite <-evaluateABACPredicate_spec. congruence.
Defined.

Lemma evaluate_clause_spec input clause reason :
  (evaluate_clause input clause reason).1 = true ↔ Forall (predicate_holds input) clause.
Proof.
  induction clause as [|p clause IH]; cbn; [done|]. rewrite Forall_cons, <-IH, <-evaluateABACPredicate_spec.
  destruct (evaluateABACPredicate input p) as [[] r]; cbn; naive_solver.
Qed.

Lemma evaluate_clauses_spec input clauses reason :
  (evaluate_clauses input clauses reason).1 = true ↔ Exists (Forall (predicate_holds input)) clauses.
Proof.
  revert reason. induction clauses as [|clause clauses IH]; intros reason; cbn.
  { split; [done|]. by intros ?%Exists_nil. }
  rewrite Exists_cons, <-(evaluate_clause_spec input clause reason).
  destruct (evaluate_clause input clause reason) as [[] r]; cbn; [naive_solver|].
  rewrite IH. naive_solver.
Qed.

(** A policy's condition: a disjunction of conjunctions of predicates; no
    clause at all means no condition. *)
Definition policy_condition (input : PolicyInput) (policy : abacActionPolicy) : Prop :=
  Abac_AnyOf policy = [] ∨ Exists (Forall (predicate_holds input)) (Abac_AnyOf policy).
#[export] Instance policy_condition_dec input policy : Decision (policy_condition input policy).
Proof. unfold policy_condition. solve_decision. Defined.

(** The ABAC evaluator computes the disjunctive normal form of the
    action's policy: no opinion when the action is blank or has no policy, allow
    when the policy's condition holds, and otherwise the policy's
    no-match outcome, where anything but [no_op] and [allow] denies. *)
Theorem abacPolicyEvaluator_dnf (policies : gmap string abacActionPolicy) (ctx : Context)
    (input : PolicyInput) :
  ∃ reason, abacPolicyEvaluator policies ctx input =
    Ok (match (if decide (canon (Input_Action input) = "") then None
               else policies !! canon (Input_Action input)) with
        | None => PolicyOutcomeNoOpinion
        | Some policy =>
            if decide (policy_condition input policy) then PolicyOutcomeAllow
            else if decide (Abac_OnNoMatch policy = PolicyOutcomeNoOpinion) then PolicyOutcomeNoOpinion
            else if decide (Abac_OnNoMatch policy = PolicyOutcomeAllow) then PolicyOutcomeAllow
            else PolicyOutcomeDeny
        end, reason).
Proof.
  unfold abacPolicyEvaluator. cbv zeta.
  destruct (decide (policies = ∅)) as [->|_]; [rewrite lookup_empty; case_decide; by eexists|].
  case_decide; [by eexists|]. destruct (policies !! _) as [policy|]; [|by eexists].
  destruct (decide (Abac_AnyOf policy = [])) as [He|He].
  { rewrite decide_True by (by left). by eexists. }
  pose proof (evaluate_clauses_spec input (Abac_AnyOf policy) "abac conditions not satisfied") as Hc.
  destruct (evaluate_clauses _ _ _) as [[] reason]; cbn in Hc.
  - rewrite decide_True by (right; by apply Hc). by eexists.
  - rewrite (decide_False (P := policy_condition input policy))
      by (intros [?|Hx]; [done|by apply Hc in Hx]).
    repeat case_decide; by eexists.
Qed.
End abac.

(** ** Facts: normalization *)

Lemma normalizeABACPredicate_idemp p :
  normalizeABACPredicate (normalizeABACPredicate p) = normalizeABACPredicate p.
Proof.
  unfold normalizeABACPredicate; cbn. rewrite !canon_idemp, !TrimSpace_idemp.
  rewrite unique_nonempty_map_idemp by apply TrimSpace_idemp. f_equal.
  destruct (decide (canon (Predicate_Operator p) = "")) as [E|E]; [done|].
  by rewrite canon_idemp, decide_False.
Qed.

Lemma normalizeABACPolicy_idemp policy :
  normalizeABACPolicy (normalizeABACPolicy policy) = normalizeABACPolicy policy.
Proof.
  unfold normalizeABACPolicy; cbn. f_equal.
  - rewrite <-list_fmap_compose. apply list_fmap_ext. intros _ clause _. cbn.
    rewrite <-list_fmap_compose. apply list_fmap_ext. intros _ p _. apply normalizeABACPredicate_idemp.
  - by repeat case_decide.
Qed.

Lemma normalized_abac_entry_Some entry action policy :
  normalized_abac_entry entry = Some (action, policy) ↔
  action = canon entry.1 ∧ policy = normalizeABACPolicy entry.2 ∧ action ≠ "".
Proof. unfold normalized_abac_entry. case_decide; naive_solver. Qed.

(** Distinct keys have distinct canonical forms, so that no entry of a table
    overwrites another. *)
Definition canonical_keys {A} (m : gmap string A) : Prop :=
  ∀ k k', is_Some (m !! k) → is_Some (m !! k') → canon k = canon k' → k = k'.

Lemma normalizeABACPolicies_lookup `{MapRange} policies action policy :
  normalizeABACPolicies policies !! action = Some policy →
  canon action = action ∧ action ≠ "" ∧ ∃ raw, policy = normalizeABACPolicy raw.
Proof.
  intros ((k & raw) & _ & (-> & -> & ?)%normalized_abac_entry_Some)%collect_Some.
  cbn in *. split_and!; [apply canon_idemp|done|eauto].
Qed.

(** Normalization does not depend on the iteration order when the keys are canonical. *)
Lemma normalizeActionRoleGrants_range (R R' : MapRange) grants :
  canonical_keys grants →
  @normalizeActionRoleGrants R grants = @normalizeActionRoleGrants R' grants.
Proof.
  intros Hc. apply collect_range_irrelevant. intros k k' x y key b c Hx Hy
    (-> & _)%normalized_grant_Some (E & _)%normalized_grant_Some. by apply Hc.
Qed.

Lemma normalizeABACPolicies_range (R R' : MapRange) policies :
  canonical_keys policies →
  @normalizeABACPolicies R policies = @normalizeABACPolicies R' policies.
Proof.
  intros Hc. apply collect_range_irrelevant. intros k k' x y key b c Hx Hy
    (-> & _)%normalized_abac_entry_Some (E & _)%normalized_abac_entry_Some. by apply Hc.
Qed.
