(* ===== verification/AuthzRecords.v ===== *)
(** * Authorization records and their write normalizers (internal/db/store.go)

    The seven record types of the authorization tables, the enumerations they
    draw from and the [Normalize...ForWrite] functions.  [now] is the value of
    [time.Now().UTC()] in the call. *)
From S2P Require Import Prelude GoStrings GoCollections GoTime Scope.

Definition AuthzEntityKindSubject : string := "subject".
Definition AuthzEntityKindResource : string := "resource".
Definition AuthzRelationshipOwns : string := "owns".
Definition AuthzRelationshipManages : string := "manages".
Definition AuthzRelationshipDelegatedAdmin : string := "delegated_admin".
Definition AuthzRelationshipMemberOf : string := "member_of".
Definition AuthzPolicyRolloutModeDisabled : string := "disabled".
Definition AuthzPolicyRolloutModeShadow : string := "shadow".
Definition AuthzPolicyRolloutModeEnforce : string := "enforce".

Definition validAuthzEntityKinds : list string := [AuthzEntityKindSubject; AuthzEntityKindResource].
Definition validAuthzEnvironments : list string := ["prod"; "staging"; "dev"; "test"; "sandbox"].
Definition validAuthzRiskTiers : list string := ["low"; "medium"; "high"; "critical"].
Definition validAuthzClassifications : list string := ["public"; "internal"; "confidential"; "restricted"].
Definition validAuthzRelationships : list string :=
  [AuthzRelationshipOwns; AuthzRelationshipManages; AuthzRelationshipDelegatedAdmin; AuthzRelationshipMemberOf].
Definition validAuthzPolicyRolloutModes : list string :=
  [AuthzPolicyRolloutModeDisabled; AuthzPolicyRolloutModeShadow; AuthzPolicyRolloutModeEnforce].

(** [authzOwnerTeamPattern]: ^[a-z0-9][a-z0-9._-]{0,63}$. *)
Definition authzOwnerTeamPattern : string → bool :=
  match_ident (λ c, is_lower c || is_digit c) (λ c, is_lower c || is_digit c || is_one_of "._-" c) 63.

(** A dynamic value ([any]) of an event's metadata. *)
Inductive any := AnyNil | AnyBool (b : bool) | AnyInt (n : Z) | AnyString (s : string).

Record AuthzEntityAttributes := mkAttributes {
  Attributes_TenantID : string;
  Attributes_WorkspaceID : string;
  Attributes_EntityKind : string;
  Attributes_EntityType : string;
  Attributes_EntityID : string;
  Attributes_OwnerTeam : string;
  Attributes_Environment : string;
  Attributes_RiskTier : string;
  Attributes_Classification : string;
  Attributes_UpdatedAt : Z;
}.

Record AuthzRelationship := mkRelationship {
  Rel_TenantID : string;
  Rel_WorkspaceID : string;
  Rel_SubjectType : string;
  Rel_SubjectID : string;
  Rel_Relation : string;
  Rel_ObjectType : string;
  Rel_ObjectID : string;
  Rel_Source : string;
  Rel_ExpiresAt : option Z;
  Rel_CreatedAt : Z;
  Rel_UpdatedAt : Z;
}.

Record AuthzRelationshipFilter := mkRelationshipFilter {
  Filter_SubjectType : string;
  Filter_SubjectID : string;
  Filter_Relation : string;
  Filter_ObjectType : string;
  Filter_ObjectID : string;
  Filter_IncludeExpired : bool;
}.

Record AuthzPolicySet := mkPolicySet {
  Set_TenantID : string;
  Set_WorkspaceID : string;
  Set_PolicySetID : string;
  Set_DisplayName : string;
  Set_Description : string;
  Set_CreatedBy : string;
  Set_CreatedAt : Z;
  Set_UpdatedAt : Z;
}.

Record AuthzPolicyVersion := mkPolicyVersion {
  Version_TenantID : string;
  Version_WorkspaceID : string;
  Version_PolicySetID : string;
  Version_Version : Z;
  Version_Bundle : string;
  Version_Checksum : string;
  Version_CreatedBy : string;
  Version_CreatedAt : Z;
}.

Record AuthzPolicyRollout := mkRollout {
  Rollout_TenantID : string;
  Rollout_WorkspaceID : string;
  Rollout_PolicySetID : string;
  Rollout_ActiveVersion : option Z;
  Rollout_CandidateVersion : option Z;
  Rollout_Mode : string;
  Rollout_TenantAllowlist : list string;
  Rollout_WorkspaceAllowlist : list string;
  Rollout_CanaryPercentage : Z;
  Rollout_ValidatedVersions : list Z;
  Rollout_UpdatedBy : string;
  Rollout_UpdatedAt : Z;
}.

Record AuthzPolicyEvent := mkPolicyEvent {
  Event_ID : string;
  Event_TenantID : string;
  Event_WorkspaceID : string;
  Event_PolicySetID : string;
  Event_EventType : string;
  Event_FromVersion : option Z;
  Event_ToVersion : option Z;
  Event_Actor : string;
  Event_Message : string;
  Event_Metadata : gmap string any;
  Event_CreatedAt : Z;
}.

#[export] Instance AuthzRelationship_eq_dec : EqDecision AuthzRelationship.
Proof. solve_decision. Defined.
#[export] Instance AuthzPolicySet_eq_dec : EqDecision AuthzPolicySet.
Proof. solve_decision. Defined.
#[export] Instance AuthzPolicyVersion_eq_dec : EqDecision AuthzPolicyVersion.
Proof. solve_decision. Defined.
#[export] Instance AuthzPolicyRollout_eq_dec : EqDecision AuthzPolicyRollout.
Proof. solve_decision. Defined.

(** The checksum and the syntax check of a stored bundle: [crypto/sha256] with
    [encoding/hex], and [json.Valid]. *)
Class BundleCodec := {
  sha256_hex : string → string;
  json_Valid : string → bool;
}.

(** [if t.IsZero() { t = fallback }]. *)
Definition or_time (t fallback : Z) : Z := if IsZero t then fallback else t.

Definition valid_or_empty (valid : list string) (value : string) : bool :=
  bool_decide (value = "") || bool_decide (value ∈ valid).

Definition NormalizeAuthzEntityAttributesForWrite (now : Z) (attrs : AuthzEntityAttributes)
    : result AuthzEntityAttributes :=
  let kind := canon (Attributes_EntityKind attrs) in
  _ ← guard_err (bool_decide (kind ∈ validAuthzEntityKinds)) (Errorf "invalid authz entity kind");
  let type := canon (Attributes_EntityType attrs) in
  _ ← guard_err (bool_decide (type ≠ "")) (Errorf "entity type is required");
  let id := TrimSpace (Attributes_EntityID attrs) in
  _ ← guard_err (bool_decide (id ≠ "")) (Errorf "entity id is required");
  let team := canon (Attributes_OwnerTeam attrs) in
  _ ← guard_err (bool_decide (team = "") || authzOwnerTeamPattern team) (Errorf "invalid owner_team format");
  let env := canon (Attributes_Environment attrs) in
  _ ← guard_err (valid_or_empty validAuthzEnvironments env) (Errorf "invalid env value");
  let risk := canon (Attributes_RiskTier attrs) in
  _ ← guard_err (valid_or_empty validAuthzRiskTiers risk) (Errorf "invalid risk_tier value");
  let class := canon (Attributes_Classification attrs) in
  _ ← guard_err (valid_or_empty validAuthzClassifications class) (Errorf "invalid classification value");
  mret (mkAttributes (Attributes_TenantID attrs) (Attributes_WorkspaceID attrs) kind type id team env risk class
          (or_time (Attributes_UpdatedAt attrs) now)).

Definition NormalizeAuthzRelationshipForWrite (now : Z) (r : AuthzRelationship) : result AuthzRelationship :=
  let subjectType := canon (Rel_SubjectType r) in
  _ ← guard_err (bool_decide (subjectType ≠ "")) (Errorf "subject type is required");
  let subjectID := TrimSpace (Rel_SubjectID r) in
  _ ← guard_err (bool_decide (subjectID ≠ "")) (Errorf "subject id is required");
  let relation := canon (Rel_Relation r) in
  _ ← guard_err (bool_decide (relation ∈ validAuthzRelationships)) (Errorf "invalid relation value");
  let objectType := canon (Rel_ObjectType r) in
  _ ← guard_err (bool_decide (objectType ≠ "")) (Errorf "object type is required");
  let objectID := TrimSpace (Rel_ObjectID r) in
  _ ← guard_err (bool_decide (objectID ≠ "")) (Errorf "object id is required");
  let source := canon (Rel_Source r) in
  let createdAt := or_time (Rel_CreatedAt r) now in
  mret (mkRelationship (Rel_TenantID r) (Rel_WorkspaceID r) subjectType subjectID relation objectType objectID
          (if decide (source = "") then "manual" else source) (Rel_ExpiresAt r)
          createdAt (or_time (Rel_UpdatedAt r) createdAt)).

Definition normalizeAuthzPolicySetID (value : string) : result string :=
  let normalized := canon value in
  _ ← guard_err (bool_decide (normalized ≠ "")) (Errorf "policy set id is required");
  _ ← guard_err (authzOwnerTeamPattern normalized) (Errorf "invalid policy set id format");
  mret normalized.

Definition NormalizeAuthzPolicySetForWrite (now : Z) (s : AuthzPolicySet) : result AuthzPolicySet :=
  policySetID ← normalizeAuthzPolicySetID (Set_PolicySetID s);
  let displayName := TrimSpace (Set_DisplayName s) in
  _ ← guard_err (bool_decide (displayName ≠ "")) (Errorf "display name is required");
  let createdAt := or_time (Set_CreatedAt s) now in
  mret (mkPolicySet (Set_TenantID s) (Set_WorkspaceID s) policySetID displayName
          (TrimSpace (Set_Description s)) (TrimSpace (Set_CreatedBy s))
          createdAt (or_time (Set_UpdatedAt s) createdAt)).

Definition NormalizeAuthzPolicyVersionForWrite `{BundleCodec} (now : Z) (v : AuthzPolicyVersion)
    : result AuthzPolicyVersion :=
  policySetID ← normalizeAuthzPolicySetID (Version_PolicySetID v);
  _ ← guard_err (0 <? Version_Version v) (Errorf "version must be greater than zero");
  let bundle := TrimSpace (Version_Bundle v) in
  _ ← guard_err (bool_decide (bundle ≠ "")) (Errorf "policy bundle is required");
  _ ← guard_err (json_Valid bundle) (Errorf "policy bundle must be valid json");
  let checksum := canon (Version_Checksum v) in
  mret (mkPolicyVersion (Version_TenantID v) (Version_WorkspaceID v) policySetID (Version_Version v) bundle
          (if decide (checksum = "") then sha256_hex bundle else checksum)
          (TrimSpace (Version_CreatedBy v)) (or_time (Version_CreatedAt v) now)).

Definition normalizeAuthzRolloutAllowlist (values : list string) : list string :=
  SortStrings (unique (nonempty_map TrimSpace values)).

Definition normalizeAuthzRolloutValidatedVersions (versions : list Z) : result (list Z) :=
  _ ← guard_err (forallb (λ version, 0 <? version) versions)
        (Errorf "validated versions must be greater than zero");
  mret (SortInts (unique versions)).

Definition containsInt (values : list Z) (value : Z) : bool := bool_decide (value ∈ values).

(** A version pointer is nil or satisfies the condition. *)
Definition pointer_ok (ok : Z → bool) (pointer : option Z) : bool :=
  match pointer with None => true | Some version => ok version end.

Definition NormalizeAuthzPolicyRolloutForWrite (now : Z) (r : AuthzPolicyRollout)
    : result AuthzPolicyRollout :=
  policySetID ← normalizeAuthzPolicySetID (Rollout_PolicySetID r);
  _ ← guard_err (pointer_ok (λ v, 0 <? v) (Rollout_ActiveVersion r))
        (Errorf "active version must be greater than zero");
  _ ← guard_err (pointer_ok (λ v, 0 <? v) (Rollout_CandidateVersion r))
        (Errorf "candidate version must be greater than zero");
  let mode := canon (Rollout_Mode r) in
  let mode := if decide (mode = "") then AuthzPolicyRolloutModeDisabled else mode in
  _ ← guard_err (bool_decide (mode ∈ validAuthzPolicyRolloutModes)) (Errorf "invalid rollout mode");
  let canary := if Rollout_CanaryPercentage r =? 0 then 100 else Rollout_CanaryPercentage r in
  _ ← guard_err (negb ((canary <? 0) || (100 <? canary)))
        (Errorf "canary percentage must be between 0 and 100");
  validated ← normalizeAuthzRolloutValidatedVersions (Rollout_ValidatedVersions r);
  let enforced := bool_decide (mode = AuthzPolicyRolloutModeEnforce) in
  _ ← guard_err (negb enforced || pointer_ok (containsInt validated) (Rollout_ActiveVersion r))
        (Errorf "active version must exist in validated_versions when mode is enforce");
  _ ← guard_err (negb enforced || pointer_ok (containsInt validated) (Rollout_CandidateVersion r))
        (Errorf "candidate version must exist in validated_versions when mode is enforce");
  mret (mkRollout (Rollout_TenantID r) (Rollout_WorkspaceID r) policySetID
          (Rollout_ActiveVersion r) (Rollout_CandidateVersion r) mode
          (normalizeAuthzRolloutAllowlist (Rollout_TenantAllowlist r))
          (normalizeAuthzRolloutAllowlist (Rollout_WorkspaceAllowlist r))
          canary validated (TrimSpace (Rollout_UpdatedBy r)) (or_time (Rollout_UpdatedAt r) now)).

Definition NormalizeAuthzPolicyEventForWrite (now : Z) (e : AuthzPolicyEvent) : result AuthzPolicyEvent :=
  policySetID ← normalizeAuthzPolicySetID (Event_PolicySetID e);
  let eventType := canon (Event_EventType e) in
  _ ← guard_err (bool_decide (eventType ≠ "")) (Errorf "event type is required");
  _ ← guard_err (pointer_ok (λ v, 0 <? v) (Event_FromVersion e))
        (Errorf "from version must be greater than zero");
  _ ← guard_err (pointer_ok (λ v, 0 <? v) (Event_ToVersion e))
        (Errorf "to version must be greater than zero");
  mret (mkPolicyEvent (TrimSpace (Event_ID e)) (Event_TenantID e) (Event_WorkspaceID e) policySetID eventType
          (Event_FromVersion e) (Event_ToVersion e) (TrimSpace (Event_Actor e)) (TrimSpace (Event_Message e))
          (Event_Metadata e) (or_time (Event_CreatedAt e) now)).

(** ** Well-formed records: what the normalizers establish *)

Definition policy_set_id_normal (id : string) : Prop :=
  canon id = id ∧ id ≠ "" ∧ authzOwnerTeamPattern id = true.

Record relationship_normal (r : AuthzRelationship) : Prop := {
  rn_subject_type : canon (Rel_SubjectType r) = Rel_SubjectType r ∧ Rel_SubjectType r ≠ "";
  rn_subject_id : TrimSpace (Rel_SubjectID r) = Rel_SubjectID r ∧ Rel_SubjectID r ≠ "";
  rn_relation : canon (Rel_Relation r) = Rel_Relation r ∧ Rel_Relation r ∈ validAuthzRelationships;
  rn_object_type : canon (Rel_ObjectType r) = Rel_ObjectType r ∧ Rel_ObjectType r ≠ "";
  rn_object_id : TrimSpace (Rel_ObjectID r) = Rel_ObjectID r ∧ Rel_ObjectID r ≠ "";
}.

#[export] Instance relationship_normal_dec r : Decision (relationship_normal r).
Proof.
  refine (cast_if (decide
    ((canon (Rel_SubjectType r) = Rel_SubjectType r ∧ Rel_SubjectType r ≠ "") ∧
     (TrimSpace (Rel_SubjectID r) = Rel_SubjectID r ∧ Rel_SubjectID r ≠ "") ∧
     (canon (Rel_Relation r) = Rel_Relation r ∧ Rel_Relation r ∈ validAuthzRelationships) ∧
     (canon (Rel_ObjectType r) = Rel_ObjectType r ∧ Rel_ObjectType r ≠ "") ∧
     (TrimSpace (Rel_ObjectID r) = Rel_ObjectID r ∧ Rel_ObjectID r ≠ "")))).
  - abstract (split; tauto).
  - abstract (intros []; tauto).
Defined.

Definition allowlist_normal (l : list string) : Prop :=
  NoDup l ∧ StronglySorted (λ x y, str_leb x y = true) l ∧ Forall (λ x, TrimSpace x = x ∧ x ≠ "") l.

Record rollout_normal (r : AuthzPolicyRollout) : Prop := {
  ron_id : policy_set_id_normal (Rollout_PolicySetID r);
  ron_mode : Rollout_Mode r ∈ validAuthzPolicyRolloutModes;
  ron_canary : 1 ≤ Rollout_CanaryPercentage r ≤ 100;
  ron_active : ∀ v, Rollout_ActiveVersion r = Some v → 0 < v;
  ron_candidate : ∀ v, Rollout_CandidateVersion r = Some v → 0 < v;
  ron_tenants : allowlist_normal (Rollout_TenantAllowlist r);
  ron_workspaces : allowlist_normal (Rollout_WorkspaceAllowlist r);
  ron_validated : NoDup (Rollout_ValidatedVersions r) ∧
    StronglySorted (λ x y, (x <=? y) = true) (Rollout_ValidatedVersions r) ∧
    Forall (λ v, 0 < v) (Rollout_ValidatedVersions r);
  ron_enforced : Rollout_Mode r = AuthzPolicyRolloutModeEnforce →
    ∀ v, Rollout_ActiveVersion r = Some v ∨ Rollout_CandidateVersion r = Some v →
         v ∈ Rollout_ValidatedVersions r;
}.

Lemma canon_fixed s x : canon s = x → canon x = x.
Proof. intros <-. apply canon_idemp. Qed.

Lemma normalizeAuthzPolicySetID_Ok value id :
  normalizeAuthzPolicySetID value = Ok id ↔ id = canon value ∧ policy_set_id_normal id.
Proof.
  unfold normalizeAuthzPolicySetID, policy_set_id_normal. split.
  - intros H. inv_ok. boolify. by rewrite canon_idemp.
  - intros (-> & _ & Hne & Hp). rewrite bool_decide_eq_true_2 by done. cbn. by rewrite Hp.
Qed.

Lemma normalizeAuthzPolicySetID_normal id :
  policy_set_id_normal id → normalizeAuthzPolicySetID id = Ok id.
Proof. intros H. apply normalizeAuthzPolicySetID_Ok. split; [|done]. by destruct H as [-> _]. Qed.

Lemma NormalizeAuthzRelationshipForWrite_Ok now r n :
  NormalizeAuthzRelationshipForWrite now r = Ok n →
  relationship_normal n ∧ Rel_SubjectType n = canon (Rel_SubjectType r) ∧
  Rel_SubjectID n = TrimSpace (Rel_SubjectID r) ∧ Rel_Relation n = canon (Rel_Relation r) ∧
  Rel_ObjectType n = canon (Rel_ObjectType r) ∧ Rel_ObjectID n = TrimSpace (Rel_ObjectID r) ∧
  Rel_ExpiresAt n = Rel_ExpiresAt r.
Proof.
  unfold NormalizeAuthzRelationshipForWrite. intros H. inv_ok. boolify.
  split_and!; try done. split; cbn; rewrite ?canon_idemp, ?TrimSpace_idemp; done.
Qed.

Lemma normalizeAuthzRolloutAllowlist_normal values :
  allowlist_normal (normalizeAuthzRolloutAllowlist values).
Proof.
  unfold normalizeAuthzRolloutAllowlist, allowlist_normal. split_and!.
  - rewrite SortStrings_perm. apply NoDup_unique.
  - apply SortStrings_sorted.
  - rewrite SortStrings_perm. apply Forall_forall. intros x Hx. apply (proj1 (elem_of_unique _ _)) in Hx.
    revert x Hx. apply Forall_forall, nonempty_map_Forall, TrimSpace_idemp.
Qed.

Lemma normalizeAuthzRolloutAllowlist_id l :
  allowlist_normal l → normalizeAuthzRolloutAllowlist l = l.
Proof.
  intros (Hd & Hs & Hf). unfold normalizeAuthzRolloutAllowlist.
  by rewrite nonempty_map_id, unique_id, SortStrings_id.
Qed.

Lemma normalizeAuthzRolloutValidatedVersions_Ok l k :
  normalizeAuthzRolloutValidatedVersions l = Ok k →
  NoDup k ∧ StronglySorted (λ x y, (x <=? y) = true) k ∧ Forall (λ v, 0 < v) k ∧ (∀ v, v ∈ k ↔ v ∈ l).
Proof.
  unfold normalizeAuthzRolloutValidatedVersions. intros H. inv_ok.
  rewrite forallb_forall in *. split_and!.
  - rewrite SortInts_perm. apply NoDup_unique.
  - apply SortInts_sorted.
  - rewrite SortInts_perm. apply Forall_forall. intros v Hv. apply (proj1 (elem_of_unique _ _)) in Hv.
    apply list_elem_of_In in Hv. apply Z.ltb_lt. eauto.
  - intros v. by rewrite SortInts_perm, elem_of_unique.
Qed.

Lemma normalizeAuthzRolloutValidatedVersions_id l :
  NoDup l → StronglySorted (λ x y, (x <=? y) = true) l → Forall (λ v, 0 < v) l →
  normalizeAuthzRolloutValidatedVersions l = Ok l.
Proof.
  intros Hd Hs Hf. unfold normalizeAuthzRolloutValidatedVersions.
  assert (forallb (λ v, 0 <? v) l = true) as ->.
  { apply forallb_forall. intros v Hv. apply Z.ltb_lt. rewrite Forall_forall in Hf.
    by apply Hf, list_elem_of_In. }
  cbn. by rewrite unique_id, SortInts_id.
Qed.

Lemma pointer_ok_spec ok p : pointer_ok ok p = true ↔ ∀ v, p = Some v → ok v = true.
Proof. destruct p; cbn; naive_solver. Qed.

Lemma enforced_pointer (enforced : Prop) `{Decision enforced} validated active candidate v :
  enforced →
  (negb (bool_decide enforced) = true ∨ pointer_ok (containsInt validated) active = true) ∧
  (negb (bool_decide enforced) = true ∨ pointer_ok (containsInt validated) candidate = true) →
  active = Some v ∨ candidate = Some v → v ∈ validated.
Proof.
  intros He [Ha Hc] Hv. rewrite bool_decide_eq_true_2 in Ha, Hc by done.
  destruct Ha as [|Ha], Hc as [|Hc]; try done. rewrite pointer_ok_spec in Ha, Hc.
  apply (bool_decide_eq_true (v ∈ validated)). destruct Hv; [by apply Ha|by apply Hc].
Qed.

Lemma NormalizeAuthzPolicyRolloutForWrite_normal now r n :
  NormalizeAuthzPolicyRolloutForWrite now r = Ok n → rollout_normal n.
Proof.
  unfold NormalizeAuthzPolicyRolloutForWrite. intros H.
  apply bind_Ok in H as (id & Hid & H). apply normalizeAuthzPolicySetID_Ok in Hid as [-> Hid].
  inv_ok. boolify.
  match goal with H : normalizeAuthzRolloutValidatedVersions _ = _ |- _ =>
    apply normalizeAuthzRolloutValidatedVersions_Ok in H as (? & ? & ? & ?) end.
  repeat match goal with H : pointer_ok _ _ = true |- _ => rewrite pointer_ok_spec in H end.
  split; cbn; auto using normalizeAuthzRolloutAllowlist_normal.
  - destruct (Rollout_CanaryPercentage r =? 0) eqn:E; lia.
  - intros v Hv. apply Z.ltb_lt. eauto.
  - intros v Hv. apply Z.ltb_lt. eauto.
  - intros Hm v Hv. eapply enforced_pointer; [exact Hm| |exact Hv]. by split.
Qed.

Lemma or_time_id t fallback : IsZero t = false → or_time t fallback = t.
Proof. unfold or_time. by intros ->. Qed.
Lemma or_time_nonzero t fallback : IsZero fallback = false → IsZero (or_time t fallback) = false.
Proof. unfold or_time. by destruct (IsZero t) eqn:E. Qed.

Lemma rollout_mode_canon mode :
  mode ∈ validAuthzPolicyRolloutModes → canon mode = mode ∧ mode ≠ "".
Proof.
  unfold validAuthzPolicyRolloutModes. rewrite !elem_of_cons, elem_of_nil.
  by intros [->|[->|[->|[]]]].
Qed.

Lemma NormalizeAuthzPolicyRolloutForWrite_id now r :
  rollout_normal r → TrimSpace (Rollout_UpdatedBy r) = Rollout_UpdatedBy r →
  IsZero (Rollout_UpdatedAt r) = false →
  NormalizeAuthzPolicyRolloutForWrite now r = Ok r.
Proof.
  intros [Hid Hm Hc Ha Hcd Ht Hw (Hv1 & Hv2 & Hv3) He] Hby Hat.
  unfold NormalizeAuthzPolicyRolloutForWrite. rewrite (normalizeAuthzPolicySetID_normal _ Hid); cbn.
  assert (∀ p, (∀ v, p = Some v → 0 < v) → pointer_ok (λ v, 0 <? v) p = true) as Hp.
  { intros p Hp. apply pointer_ok_spec. intros v Hv. by apply Z.ltb_lt, Hp. }
  rewrite (Hp _ Ha), (Hp _ Hcd); cbn.
  destruct (rollout_mode_canon _ Hm) as [-> Hne]. rewrite decide_False by done.
  rewrite (bool_decide_eq_true_2 (Rollout_Mode r ∈ _)) by done; cbn.
  rewrite (proj2 (Z.eqb_neq (Rollout_CanaryPercentage r) 0)) by lia.
  rewrite (proj2 (Z.ltb_ge (Rollout_CanaryPercentage r) 0)), (proj2 (Z.ltb_ge 100 _)) by lia; cbn.
  rewrite normalizeAuthzRolloutValidatedVersions_id by done; cbn.
  assert (∀ p, p = Rollout_ActiveVersion r ∨ p = Rollout_CandidateVersion r →
    negb (bool_decide (Rollout_Mode r = AuthzPolicyRolloutModeEnforce)) ||
    pointer_ok (containsInt (Rollout_ValidatedVersions r)) p = true) as Hq.
  { intros p Hpp. case_bool_decide as E; [|done]. apply pointer_ok_spec. intros v Hv.
    apply bool_decide_eq_true, He; [done|]. destruct Hpp as [->| ->]; auto. }
  rewrite (Hq (Rollout_ActiveVersion r)) by auto; cbn.
  rewrite (Hq (Rollout_CandidateVersion r)) by auto; cbn.
  rewrite !normalizeAuthzRolloutAllowlist_id, Hby, or_time_id by done. by destruct r.
Qed.

Lemma NormalizeAuthzPolicyRolloutForWrite_stamp now r n :
  NormalizeAuthzPolicyRolloutForWrite now r = Ok n →
  TrimSpace (Rollout_UpdatedBy n) = Rollout_UpdatedBy n ∧
  Rollout_UpdatedAt n = or_time (Rollout_UpdatedAt r) now.
Proof.
  unfold NormalizeAuthzPolicyRolloutForWrite. intros H. inv_ok. cbn. by rewrite TrimSpace_idemp.
Qed.

(** What the rollout normalizer accepts is well formed (a known mode, a
    canary percentage between 1 and 100, positive sorted distinct validated
    versions, trimmed sorted distinct allowlists, and under [enforce] both
    pointers validated), and normalizing it again at any later time returns it
    unchanged. *)
Theorem NormalizeAuthzPolicyRolloutForWrite_wf (now later : Z) (r n : AuthzPolicyRollout)
    (Hnow : IsZero now = false) (Hok : NormalizeAuthzPolicyRolloutForWrite now r = Ok n) :
  rollout_normal n ∧ NormalizeAuthzPolicyRolloutForWrite later n = Ok n.
Proof.
  pose proof (NormalizeAuthzPolicyRolloutForWrite_normal _ _ _ Hok) as Hn.
  destruct (NormalizeAuthzPolicyRolloutForWrite_stamp _ _ _ Hok) as [Hby Hat].
  split; [done|]. apply NormalizeAuthzPolicyRolloutForWrite_id; [done..|].
  rewrite Hat. by apply or_time_nonzero.
Qed.

Definition sample_rollout : AuthzPolicyRollout :=
  mkRollout "t" "w" " Central " (Some 2) (Some 3) "ENFORCE" ["b"; " a "; "b"; ""] [] 0 [3; 2; 3] " ops " time_zero.
Definition sample_rollout_normal : AuthzPolicyRollout :=
  mkRollout "t" "w" "central" (Some 2) (Some 3) "enforce" ["a"; "b"] [] 100 [2; 3] "ops" 5.

Lemma NormalizeAuthzPolicyRolloutForWrite_wf_witness :
  NormalizeAuthzPolicyRolloutForWrite 5 sample_rollout = Ok sample_rollout_normal ∧
  rollout_normal sample_rollout_normal ∧
  NormalizeAuthzPolicyRolloutForWrite 9 sample_rollout_normal = Ok sample_rollout_normal.
Proof.
  split; [by vm_compute|].
  apply (NormalizeAuthzPolicyRolloutForWrite_wf 5 9 sample_rollout); by vm_compute.
Defined.
