(* ===== verification/AuthzStore.v ===== *)
(** * The in-memory authorization tables (internal/db/memory.go)

    [AuthzState] holds the seven authorization maps of [MemoryStore]; each
    method is a definition from a state to a new state or an error, run under
    the store's mutex, so each is one atomic step.  [now] is [time.Now().UTC()]
    and [fresh] the value of [uuid.NewString()]. *)
From S2P Require Import Prelude GoStrings GoCollections GoTime Scope AuthzRecords.

Record AuthzState := mkAuthzState {
  authzAttrs : gmap string AuthzEntityAttributes;
  authzRels : gmap string AuthzRelationship;
  authzSets : gmap string AuthzPolicySet;
  authzVersions : gmap string AuthzPolicyVersion;
  authzRollouts : gmap string AuthzPolicyRollout;
  authzEvents : gmap string (list AuthzPolicyEvent);
  authzEventIDs : gset string;
}.

Definition empty_authz_state : AuthzState := mkAuthzState ∅ ∅ ∅ ∅ ∅ ∅ ∅.

Definition with_authzAttrs m s :=
  mkAuthzState m (authzRels s) (authzSets s) (authzVersions s) (authzRollouts s) (authzEvents s) (authzEventIDs s).
Definition with_authzRels m s :=
  mkAuthzState (authzAttrs s) m (authzSets s) (authzVersions s) (authzRollouts s) (authzEvents s) (authzEventIDs s).
Definition with_authzSets m s :=
  mkAuthzState (authzAttrs s) (authzRels s) m (authzVersions s) (authzRollouts s) (authzEvents s) (authzEventIDs s).
Definition with_authzVersions m s :=
  mkAuthzState (authzAttrs s) (authzRels s) (authzSets s) m (authzRollouts s) (authzEvents s) (authzEventIDs s).
Definition with_authzRollouts m s :=
  mkAuthzState (authzAttrs s) (authzRels s) (authzSets s) (authzVersions s) m (authzEvents s) (authzEventIDs s).
Definition with_authzEvents m ids s :=
  mkAuthzState (authzAttrs s) (authzRels s) (authzSets s) (authzVersions s) (authzRollouts s) m ids.

(** ** Scope keys *)
Definition authzEntityScopeKey (scope : Scope) (entityKind entityType entityID : string) : string :=
  let normalized := Scope_Normalize scope in
  Scope_TenantID normalized +:+ "|" +:+ Scope_WorkspaceID normalized +:+ "|" +:+
  canon entityKind +:+ "|" +:+ canon entityType +:+ "|" +:+ TrimSpace entityID.

Definition authzRelationshipScopeKey (scope : Scope)
    (subjectType subjectID relation objectType objectID : string) : string :=
  let normalized := Scope_Normalize scope in
  Scope_TenantID normalized +:+ "|" +:+ Scope_WorkspaceID normalized +:+ "|" +:+
  canon subjectType +:+ "|" +:+ TrimSpace subjectID +:+ "|" +:+ canon relation +:+ "|" +:+
  canon objectType +:+ "|" +:+ TrimSpace objectID.

Definition authzPolicySetScopeKey (scope : Scope) (policySetID : string) : string :=
  let normalized := Scope_Normalize scope in
  Scope_TenantID normalized +:+ "|" +:+ Scope_WorkspaceID normalized +:+ "|" +:+ canon policySetID.

Definition authzPolicyVersionScopeKey (scope : Scope) (policySetID : string) (version : Z) : string :=
  authzPolicySetScopeKey scope policySetID +:+ "|" +:+ Itoa version.

Definition authzPolicyEventsScopeKey (scope : Scope) (policySetID : string) : string :=
  authzPolicySetScopeKey scope policySetID.

(** The key of a relationship within a scope. *)
Definition relationship_key (scope : Scope) (r : AuthzRelationship) : string :=
  authzRelationshipScopeKey scope (Rel_SubjectType r) (Rel_SubjectID r) (Rel_Relation r)
    (Rel_ObjectType r) (Rel_ObjectID r).

(** ** Stamping a normalized record with the scope of the call *)
Definition stamp_attributes (scope : Scope) (a : AuthzEntityAttributes) : AuthzEntityAttributes :=
  mkAttributes (Scope_TenantID scope) (Scope_WorkspaceID scope) (Attributes_EntityKind a)
    (Attributes_EntityType a) (Attributes_EntityID a) (Attributes_OwnerTeam a) (Attributes_Environment a)
    (Attributes_RiskTier a) (Attributes_Classification a) (Attributes_UpdatedAt a).
Definition stamp_relationship (scope : Scope) (createdAt : Z) (r : AuthzRelationship) : AuthzRelationship :=
  mkRelationship (Scope_TenantID scope) (Scope_WorkspaceID scope) (Rel_SubjectType r) (Rel_SubjectID r)
    (Rel_Relation r) (Rel_ObjectType r) (Rel_ObjectID r) (Rel_Source r) (Rel_ExpiresAt r) createdAt
    (Rel_UpdatedAt r).
Definition stamp_policy_set (scope : Scope) (createdAt : Z) (createdBy : string) (s : AuthzPolicySet) : AuthzPolicySet :=
  mkPolicySet (Scope_TenantID scope) (Scope_WorkspaceID scope) (Set_PolicySetID s) (Set_DisplayName s)
    (Set_Description s) createdBy createdAt (Set_UpdatedAt s).
Definition stamp_version (scope : Scope) (v : AuthzPolicyVersion) : AuthzPolicyVersion :=
  mkPolicyVersion (Scope_TenantID scope) (Scope_WorkspaceID scope) (Version_PolicySetID v) (Version_Version v)
    (Version_Bundle v) (Version_Checksum v) (Version_CreatedBy v) (Version_CreatedAt v).
Definition stamp_rollout (scope : Scope) (r : AuthzPolicyRollout) : AuthzPolicyRollout :=
  mkRollout (Scope_TenantID scope) (Scope_WorkspaceID scope) (Rollout_PolicySetID r) (Rollout_ActiveVersion r)
    (Rollout_CandidateVersion r) (Rollout_Mode r) (Rollout_TenantAllowlist r) (Rollout_WorkspaceAllowlist r)
    (Rollout_CanaryPercentage r) (Rollout_ValidatedVersions r) (Rollout_UpdatedBy r) (Rollout_UpdatedAt r).
Definition stamp_event (scope : Scope) (id : string) (e : AuthzPolicyEvent) : AuthzPolicyEvent :=
  mkPolicyEvent id (Scope_TenantID scope) (Scope_WorkspaceID scope) (Event_PolicySetID e) (Event_EventType e)
    (Event_FromVersion e) (Event_ToVersion e) (Event_Actor e) (Event_Message e) (Event_Metadata e)
    (Event_CreatedAt e).

(** ** Entity attributes *)
Definition UpsertAuthzEntityAttributes (ctx : Context) (now : Z) (attributes : AuthzEntityAttributes)
    (s : AuthzState) : result AuthzState :=
  normalized ← NormalizeAuthzEntityAttributesForWrite now attributes;
  scope ← RequireScope ctx;
  let scoped := Scope_Normalize scope in
  let key := authzEntityScopeKey scoped (Attributes_EntityKind normalized)
               (Attributes_EntityType normalized) (Attributes_EntityID normalized) in
  mret (with_authzAttrs (<[key := stamp_attributes scoped normalized]> (authzAttrs s)) s).

Definition GetAuthzEntityAttributes (ctx : Context) (now : Z) (entityKind entityType entityID : string)
    (s : AuthzState) : result AuthzEntityAttributes :=
  scope ← RequireScope ctx;
  lookup ← NormalizeAuthzEntityAttributesForWrite now
             (mkAttributes "" "" entityKind entityType entityID "" "" "" "" time_zero);
  let scoped := Scope_Normalize scope in
  match authzAttrs s !! authzEntityScopeKey scoped (Attributes_EntityKind lookup)
          (Attributes_EntityType lookup) (Attributes_EntityID lookup) with
  | None => Err ErrNotFound
  | Some record => mret record
  end.

(** ** Relationships *)
Definition UpsertAuthzRelationship (ctx : Context) (now : Z) (relationship : AuthzRelationship)
    (s : AuthzState) : result AuthzState :=
  normalized ← NormalizeAuthzRelationshipForWrite now relationship;
  scope ← RequireScope ctx;
  let scoped := Scope_Normalize scope in
  let key := relationship_key scoped normalized in
  let createdAt := match authzRels s !! key with
                   | Some existing => Rel_CreatedAt existing
                   | None => Rel_CreatedAt normalized
                   end in
  mret (with_authzRels (<[key := stamp_relationship scoped createdAt normalized]> (authzRels s)) s).

Definition DeleteAuthzRelationship (ctx : Context) (now : Z) (relationship : AuthzRelationship)
    (s : AuthzState) : result AuthzState :=
  normalized ← NormalizeAuthzRelationshipForWrite now relationship;
  scope ← RequireScope ctx;
  let key := relationship_key (Scope_Normalize scope) normalized in
  match authzRels s !! key with
  | None => Err ErrNotFound
  | Some _ => mret (with_authzRels (delete key (authzRels s)) s)
  end.

(** The order [ListAuthzRelationships] sorts by. *)
Definition relationship_compare (l r : AuthzRelationship) : comparison :=
  lex (compare_string (Rel_SubjectType l) (Rel_SubjectType r))
  (lex (compare_string (Rel_SubjectID l) (Rel_SubjectID r))
  (lex (compare_string (Rel_Relation l) (Rel_Relation r))
  (lex (compare_string (Rel_ObjectType l) (Rel_ObjectType r))
  (lex (compare_string (Rel_ObjectID l) (Rel_ObjectID r))
       (Z.compare (Rel_UpdatedAt r) (Rel_UpdatedAt l)))))).
Definition relationship_less : AuthzRelationship → AuthzRelationship → bool :=
  less_of relationship_compare.

(** [filter != "" && value != filter] does not hold. *)
Definition filter_matches (filter value : string) : bool :=
  bool_decide (filter = "") || bool_decide (value = filter).

Definition relationship_selected (scope : Scope) (now : Z) (filter : AuthzRelationshipFilter)
    (r : AuthzRelationship) : bool :=
  MatchScope scope (Rel_TenantID r) (Rel_WorkspaceID r) &&
  filter_matches (canon (Filter_SubjectType filter)) (Rel_SubjectType r) &&
  filter_matches (TrimSpace (Filter_SubjectID filter)) (Rel_SubjectID r) &&
  filter_matches (canon (Filter_Relation filter)) (Rel_Relation r) &&
  filter_matches (canon (Filter_ObjectType filter)) (Rel_ObjectType r) &&
  filter_matches (TrimSpace (Filter_ObjectID filter)) (Rel_ObjectID r) &&
  (Filter_IncludeExpired filter || match Rel_ExpiresAt r with None => true | Some t => After t now end).

(** The selected tuples, sorted. *)
Definition matching_relationships `{MapRange, SortSlice} (scope : Scope) (now : Z)
    (filter : AuthzRelationshipFilter) (s : AuthzState) : list AuthzRelationship :=
  sort_slice relationship_less
    (base.filter (λ r, relationship_selected scope now filter r = true) (map_range (authzRels s)).*2).

Definition ListAuthzRelationships `{MapRange, SortSlice} (ctx : Context) (now : Z)
    (filter : AuthzRelationshipFilter) (limit : Z) (s : AuthzState) : result (list AuthzRelationship) :=
  scope ← RequireScope ctx;
  let normalizedScope := Scope_Normalize scope in
  let relation := canon (Filter_Relation filter) in
  _ ← guard_err (bool_decide (relation = "") || bool_decide (relation ∈ validAuthzRelationships))
        (Errorf "invalid relation value");
  mret (truncate limit (matching_relationships normalizedScope now filter s)).

(** ** Policy sets *)
Definition UpsertAuthzPolicySet (ctx : Context) (now : Z) (policySet : AuthzPolicySet)
    (s : AuthzState) : result AuthzState :=
  normalized ← NormalizeAuthzPolicySetForWrite now policySet;
  scope ← RequireScope ctx;
  let scoped := Scope_Normalize scope in
  let key := authzPolicySetScopeKey scoped (Set_PolicySetID normalized) in
  let record := match authzSets s !! key with
                | Some existing =>
                    stamp_policy_set scoped (Set_CreatedAt existing) (Set_CreatedBy existing) normalized
                | None => stamp_policy_set scoped (Set_CreatedAt normalized) (Set_CreatedBy normalized) normalized
                end in
  mret (with_authzSets (<[key := record]> (authzSets s)) s).

Definition GetAuthzPolicySet (ctx : Context) (policySetID : string) (s : AuthzState) : result AuthzPolicySet :=
  scope ← RequireScope ctx;
  normalizedPolicySetID ← normalizeAuthzPolicySetID policySetID;
  match authzSets s !! authzPolicySetScopeKey (Scope_Normalize scope) normalizedPolicySetID with
  | None => Err ErrNotFound
  | Some record => mret record
  end.

(** ** Policy versions *)

(** One step of the scan for the next version number ([int] arithmetic). *)
Definition next_version_step (scoped : Scope) (policySetID : string) (nextVersion : Z)
    (candidate : AuthzPolicyVersion) : Z :=
  if negb (MatchScope scoped (Version_TenantID candidate) (Version_WorkspaceID candidate)) then nextVersion
  else if negb (bool_decide (Version_PolicySetID candidate = policySetID)) then nextVersion
  else if nextVersion <=? Version_Version candidate then wrap64 (Version_Version candidate + 1)
  else nextVersion.

Definition next_version (scoped : Scope) (policySetID : string) (candidates : list AuthzPolicyVersion) : Z :=
  foldl (next_version_step scoped policySetID) 1 candidates.

Definition with_version (n : Z) (v : AuthzPolicyVersion) : AuthzPolicyVersion :=
  mkPolicyVersion (Version_TenantID v) (Version_WorkspaceID v) (Version_PolicySetID v) n
    (Version_Bundle v) (Version_Checksum v) (Version_CreatedBy v) (Version_CreatedAt v).

Definition CreateAuthzPolicyVersion `{BundleCodec, MapRange} (ctx : Context) (now : Z)
    (version : AuthzPolicyVersion) (s : AuthzState) : result (AuthzState * AuthzPolicyVersion) :=
  scope ← RequireScope ctx;
  let scoped := Scope_Normalize scope in
  policySetID ← normalizeAuthzPolicySetID (Version_PolicySetID version);
  _ ← guard_err (bool_decide (is_Some (authzSets s !! authzPolicySetScopeKey scoped policySetID))) ErrNotFound;
  let version := if Version_Version version <=? 0
                 then with_version (next_version scoped policySetID (map_range (authzVersions s)).*2) version
                 else version in
  normalized ← NormalizeAuthzPolicyVersionForWrite now version;
  let normalized := stamp_version scoped normalized in
  let key := authzPolicyVersionScopeKey scoped (Version_PolicySetID normalized) (Version_Version normalized) in
  match authzVersions s !! key with
  | Some _ => Err (Errorf "authz policy version already exists")
  | None => mret (with_authzVersions (<[key := normalized]> (authzVersions s)) s, normalized)
  end.

Definition GetAuthzPolicyVersion (ctx : Context) (policySetID : string) (version : Z) (s : AuthzState)
    : result AuthzPolicyVersion :=
  scope ← RequireScope ctx;
  normalizedPolicySetID ← normalizeAuthzPolicySetID policySetID;
  _ ← guard_err (0 <? version) (Errorf "version must be greater than zero");
  match authzVersions s !! authzPolicyVersionScopeKey (Scope_Normalize scope) normalizedPolicySetID version with
  | None => Err ErrNotFound
  | Some record => mret record
  end.

(** Newest first. *)
Definition version_less (l r : AuthzPolicyVersion) : bool :=
  if decide (Version_Version l ≠ Version_Version r) then Version_Version r <? Version_Version l
  else After (Version_CreatedAt l) (Version_CreatedAt r).

Definition ListAuthzPolicyVersions `{MapRange, SortSlice} (ctx : Context) (policySetID : string) (limit : Z)
    (s : AuthzState) : result (list AuthzPolicyVersion) :=
  scope ← RequireScope ctx;
  normalizedPolicySetID ← normalizeAuthzPolicySetID policySetID;
  let scoped := Scope_Normalize scope in
  let records := filter (λ v, MatchScope scoped (Version_TenantID v) (Version_WorkspaceID v) = true ∧
                              Version_PolicySetID v = normalizedPolicySetID)
                   (map_range (authzVersions s)).*2 in
  mret (truncate limit (sort_slice version_less records)).

(** ** Rollouts *)

(** A version pointer is nil or names a stored version. *)
Definition version_exists (s : AuthzState) (scoped : Scope) (policySetID : string) (pointer : option Z) : bool :=
  pointer_ok (λ v, bool_decide (is_Some (authzVersions s !! authzPolicyVersionScopeKey scoped policySetID v))) pointer.

Definition UpsertAuthzPolicyRollout (ctx : Context) (now : Z) (rollout : AuthzPolicyRollout)
    (s : AuthzState) : result AuthzState :=
  normalized ← NormalizeAuthzPolicyRolloutForWrite now rollout;
  scope ← RequireScope ctx;
  let scoped := Scope_Normalize scope in
  let policySetID := Rollout_PolicySetID normalized in
  _ ← guard_err (bool_decide (is_Some (authzSets s !! authzPolicySetScopeKey scoped policySetID))) ErrNotFound;
  _ ← guard_err (version_exists s scoped policySetID (Rollout_ActiveVersion normalized)) ErrNotFound;
  _ ← guard_err (version_exists s scoped policySetID (Rollout_CandidateVersion normalized)) ErrNotFound;
  mret (with_authzRollouts
          (<[authzPolicySetScopeKey scoped policySetID := stamp_rollout scoped normalized]> (authzRollouts s)) s).

Definition GetAuthzPolicyRollout (ctx : Context) (policySetID : string) (s : AuthzState)
    : result AuthzPolicyRollout :=
  scope ← RequireScope ctx;
  normalizedPolicySetID ← normalizeAuthzPolicySetID policySetID;
  match authzRollouts s !! authzPolicySetScopeKey (Scope_Normalize scope) normalizedPolicySetID with
  | None => Err ErrNotFound
  | Some record => mret record
  end.

(** ** Policy events *)
Definition AppendAuthzPolicyEvent (ctx : Context) (now : Z) (fresh : string) (event : AuthzPolicyEvent)
    (s : AuthzState) : result AuthzState :=
  normalized ← NormalizeAuthzPolicyEventForWrite now event;
  scope ← RequireScope ctx;
  let scoped := Scope_Normalize scope in
  let policySetID := Event_PolicySetID normalized in
  _ ← guard_err (bool_decide (is_Some (authzSets s !! authzPolicySetScopeKey scoped policySetID))) ErrNotFound;
  let id := if decide (Event_ID normalized = "") then fresh else Event_ID normalized in
  _ ← guard_err (bool_decide (id ∉ authzEventIDs s)) (Errorf "authz policy event already exists");
  let key := authzPolicyEventsScopeKey scoped policySetID in
  mret (with_authzEvents
          (<[key := default [] (authzEvents s !! key) ++ [stamp_event scoped id normalized]]> (authzEvents s))
          ({[id]} ∪ authzEventIDs s) s).

Definition ListAuthzPolicyEvents `{SortSlice} (ctx : Context) (policySetID : string) (limit : Z) (s : AuthzState)
    : result (list AuthzPolicyEvent) :=
  scope ← RequireScope ctx;
  normalizedPolicySetID ← normalizeAuthzPolicySetID policySetID;
  let events := default [] (authzEvents s !! authzPolicyEventsScopeKey (Scope_Normalize scope) normalizedPolicySetID) in
  mret (truncate limit (sort_slice (λ l r, After (Event_CreatedAt l) (Event_CreatedAt r)) events)).

(** ** The tables' invariant *)

Definition rel_scope (r : AuthzRelationship) : Scope := mkScope (Rel_TenantID r) (Rel_WorkspaceID r).
Definition version_scope (v : AuthzPolicyVersion) : Scope := mkScope (Version_TenantID v) (Version_WorkspaceID v).
Definition rollout_scope (r : AuthzPolicyRollout) : Scope := mkScope (Rollout_TenantID r) (Rollout_WorkspaceID r).

Record version_normal `{BundleCodec} (v : AuthzPolicyVersion) : Prop := {
  vn_id : policy_set_id_normal (Version_PolicySetID v);
  vn_version : 0 < Version_Version v;
  vn_bundle : TrimSpace (Version_Bundle v) = Version_Bundle v ∧ Version_Bundle v ≠ "" ∧
    json_Valid (Version_Bundle v) = true;
}.

Record authz_wf `{BundleCodec} (s : AuthzState) : Prop := {
  wf_rels : ∀ k r, authzRels s !! k = Some r →
    k = relationship_key (rel_scope r) r ∧ scope_normal (rel_scope r) ∧ relationship_normal r;
  wf_versions : ∀ k v, authzVersions s !! k = Some v →
    k = authzPolicyVersionScopeKey (version_scope v) (Version_PolicySetID v) (Version_Version v) ∧
    scope_normal (version_scope v) ∧ version_normal v ∧
    is_Some (authzSets s !! authzPolicySetScopeKey (version_scope v) (Version_PolicySetID v));
  wf_rollouts : ∀ k r, authzRollouts s !! k = Some r →
    k = authzPolicySetScopeKey (rollout_scope r) (Rollout_PolicySetID r) ∧
    scope_normal (rollout_scope r) ∧ rollout_normal r ∧ is_Some (authzSets s !! k) ∧
    ∀ v, Rollout_ActiveVersion r = Some v ∨ Rollout_CandidateVersion r = Some v →
      is_Some (authzVersions s !! authzPolicyVersionScopeKey (rollout_scope r) (Rollout_PolicySetID r) v);
  wf_events : ∀ k l e, authzEvents s !! k = Some l → e ∈ l →
    is_Some (authzSets s !! k) ∧ Event_ID e ∈ authzEventIDs s;
}.

(** One call of a method that succeeds and changes the tables. *)
Inductive authz_step `{BundleCodec, MapRange} (s : AuthzState) : AuthzState → Prop :=
| step_UpsertAuthzEntityAttributes ctx now a s' :
    UpsertAuthzEntityAttributes ctx now a s = Ok s' → authz_step s s'
| step_UpsertAuthzRelationship ctx now r s' :
    UpsertAuthzRelationship ctx now r s = Ok s' → authz_step s s'
| step_DeleteAuthzRelationship ctx now r s' :
    DeleteAuthzRelationship ctx now r s = Ok s' → authz_step s s'
| step_UpsertAuthzPolicySet ctx now p s' :
    UpsertAuthzPolicySet ctx now p s = Ok s' → authz_step s s'
| step_CreateAuthzPolicyVersion ctx now v s' v' :
    CreateAuthzPolicyVersion ctx now v s = Ok (s', v') → authz_step s s'
| step_UpsertAuthzPolicyRollout ctx now r s' :
    UpsertAuthzPolicyRollout ctx now r s = Ok s' → authz_step s s'
| step_AppendAuthzPolicyEvent ctx now fresh e s' :
    AppendAuthzPolicyEvent ctx now fresh e s = Ok s' → authz_step s s'.

Section facts.
Context `{BundleCodec, MapRange}.
Implicit Types s : AuthzState.

Lemma empty_authz_wf : authz_wf empty_authz_state.
Proof. split; intros k x; cbn; rewrite lookup_empty; by intros. Qed.

(** Relationship keys only depend on the canonical fields. *)
Lemma relationship_key_stamp scope createdAt r :
  scope_normal scope →
  relationship_key (rel_scope (stamp_relationship scope createdAt r)) (stamp_relationship scope createdAt r) =
  relationship_key scope r.
Proof. by destruct scope. Qed.

Lemma UpsertAuthzRelationship_Ok ctx now r s s' :
  UpsertAuthzRelationship ctx now r s = Ok s' →
  ∃ scope n createdAt, RequireScope ctx = Ok scope ∧ scope_normal scope ∧
    NormalizeAuthzRelationshipForWrite now r = Ok n ∧ relationship_normal n ∧
    s' = with_authzRels
           (<[relationship_key scope n := stamp_relationship scope createdAt n]> (authzRels s)) s.
Proof.
  unfold UpsertAuthzRelationship. intros Hu.
  open_bind Hu n Hn. open_bind Hu scope Hs. injection Hu as <-.
  pose proof (RequireScope_normal _ _ Hs) as Hsn. rewrite (Scope_Normalize_id _ Hsn).
  eexists scope, n, _. split_and!; [done|done|done| |done].
  by eapply NormalizeAuthzRelationshipForWrite_Ok.
Qed.

Lemma UpsertAuthzRelationship_wf ctx now r s s' :
  authz_wf s → UpsertAuthzRelationship ctx now r s = Ok s' → authz_wf s'.
Proof.
  intros [Hr Hv Ho He] (scope & n & createdAt & _ & Hs & _ & Hn & ->)%UpsertAuthzRelationship_Ok.
  split; cbn; [|done..]. intros k x [[<- <-]|[_ Hx]]%lookup_insert_Some; [|by apply Hr].
  split_and!; [by rewrite relationship_key_stamp|by destruct scope|].
  destruct Hn; by split.
Qed.

Lemma DeleteAuthzRelationship_wf ctx now r s s' :
  authz_wf s → DeleteAuthzRelationship ctx now r s = Ok s' → authz_wf s'.
Proof.
  intros [Hr Hv Ho He] Hd. unfold DeleteAuthzRelationship in Hd. inv_ok.
  destruct (authzRels s !! _) eqn:E; [|done]. inv_ok.
  split; cbn; [|done..]. intros k y [_ Hy]%lookup_delete_Some. by apply Hr.
Qed.

Lemma UpsertAuthzEntityAttributes_wf ctx now a s s' :
  authz_wf s → UpsertAuthzEntityAttributes ctx now a s = Ok s' → authz_wf s'.
Proof. intros [] Hu. unfold UpsertAuthzEntityAttributes in Hu. inv_ok. by split. Qed.

Lemma is_Some_insert {A} (m : gmap string A) k j x : is_Some (m !! j) → is_Some (<[k := x]> m !! j).
Proof. intros. apply lookup_insert_is_Some'. by right. Qed.

Lemma UpsertAuthzPolicySet_wf ctx now p s s' :
  authz_wf s → UpsertAuthzPolicySet ctx now p s = Ok s' → authz_wf s'.
Proof.
  intros [Hr Hv Ho He] Hu. unfold UpsertAuthzPolicySet in Hu. inv_ok. split; cbn; [done| | |].
  - intros k v Hk. destruct (Hv k v Hk) as (? & ? & ? & ?). split_and!; auto using is_Some_insert.
  - intros k v Hk. destruct (Ho k v Hk) as (? & ? & ? & ? & ?). split_and!; auto using is_Some_insert.
  - intros k l e Hk Hl. destruct (He k l e Hk Hl) as [? ?]. auto using is_Some_insert.
Qed.

Lemma NormalizeAuthzPolicyVersionForWrite_Ok now v n :
  NormalizeAuthzPolicyVersionForWrite now v = Ok n →
  version_normal n ∧ Version_PolicySetID n = canon (Version_PolicySetID v) ∧
  Version_Version n = Version_Version v ∧ Version_Bundle n = TrimSpace (Version_Bundle v).
Proof.
  unfold NormalizeAuthzPolicyVersionForWrite. intros Hn.
  open_bind Hn id Hid. apply normalizeAuthzPolicySetID_Ok in Hid as [-> Hid].
  inv_ok. boolify. split_and!; try done. split; cbn; [done..|]. by rewrite TrimSpace_idemp.
Qed.

(** What a successful creation does: the set exists, the key is unused, and
    the stored record is the returned one. *)
Lemma CreateAuthzPolicyVersion_Ok ctx now v s s' n :
  CreateAuthzPolicyVersion ctx now v s = Ok (s', n) →
  ∃ scope, RequireScope ctx = Ok scope ∧ scope_normal scope ∧ version_normal n ∧
    version_scope n = scope ∧ Version_PolicySetID n = canon (Version_PolicySetID v) ∧
    Version_Version n =
      (if Version_Version v <=? 0
       then next_version scope (canon (Version_PolicySetID v)) (map_range (authzVersions s)).*2
       else Version_Version v) ∧
    Version_Bundle n = TrimSpace (Version_Bundle v) ∧
    is_Some (authzSets s !! authzPolicySetScopeKey scope (Version_PolicySetID n)) ∧
    let key := authzPolicyVersionScopeKey scope (Version_PolicySetID n) (Version_Version n) in
    authzVersions s !! key = None ∧ s' = with_authzVersions (<[key := n]> (authzVersions s)) s.
Proof.
  unfold CreateAuthzPolicyVersion. intros Hc.
  open_bind Hc scope Hs. pose proof (RequireScope_normal _ _ Hs) as Hsn.
  rewrite (Scope_Normalize_id _ Hsn) in Hc.
  open_bind Hc id Hid. apply normalizeAuthzPolicySetID_Ok in Hid as [-> Hid].
  open_bind Hc [] Hset. apply guard_err_Ok, bool_decide_eq_true in Hset.
  open_bind Hc m Hm. apply NormalizeAuthzPolicyVersionForWrite_Ok in Hm as (Hm & Hmid & Hmv & Hmb).
  destruct (authzVersions s !! _) eqn:Ek; [done|]. injection Hc as <- <-.
  assert (Version_PolicySetID m = canon (Version_PolicySetID v)) as Heq by (rewrite Hmid; by destruct (_ <=? 0)).
  exists scope. cbn. rewrite Heq. split_and!; try done; try by destruct scope.
  - by destruct Hm.
  - by destruct (_ <=? 0).
  - by rewrite Hmb; destruct (_ <=? 0).
  - by rewrite <-Heq.
Qed.

Lemma CreateAuthzPolicyVersion_wf ctx now v s s' n :
  authz_wf s → CreateAuthzPolicyVersion ctx now v s = Ok (s', n) → authz_wf s'.
Proof.
  intros [Hr Hv Ho He] (scope & _ & Hs & Hn & Hsc & _ & _ & _ & Hset & Hk & ->)%CreateAuthzPolicyVersion_Ok.
  split; cbn; [done| | |done].
  - intros k v' [[<- <-]|[_ Hv']]%lookup_insert_Some; [|by apply Hv]. by rewrite Hsc.
  - intros k r Hkr. destruct (Ho k r Hkr) as (? & ? & ? & ? & ?). split_and!; auto using is_Some_insert.
Qed.

Lemma version_exists_spec s scope id p :
  version_exists s scope id p = true ↔
  ∀ v, p = Some v → is_Some (authzVersions s !! authzPolicyVersionScopeKey scope id v).
Proof.
  unfold version_exists. rewrite pointer_ok_spec. by setoid_rewrite bool_decide_eq_true.
Qed.

Lemma UpsertAuthzPolicyRollout_Ok ctx now r s s' :
  UpsertAuthzPolicyRollout ctx now r s = Ok s' →
  ∃ scope n, RequireScope ctx = Ok scope ∧ scope_normal scope ∧
    NormalizeAuthzPolicyRolloutForWrite now r = Ok n ∧ rollout_normal n ∧
    let key := authzPolicySetScopeKey scope (Rollout_PolicySetID n) in
    is_Some (authzSets s !! key) ∧
    (∀ v, Rollout_ActiveVersion n = Some v ∨ Rollout_CandidateVersion n = Some v →
      is_Some (authzVersions s !! authzPolicyVersionScopeKey scope (Rollout_PolicySetID n) v)) ∧
    s' = with_authzRollouts (<[key := stamp_rollout scope n]> (authzRollouts s)) s.
Proof.
  unfold UpsertAuthzPolicyRollout. intros Hu.
  open_bind Hu n Hn. open_bind Hu scope Hs. pose proof (RequireScope_normal _ _ Hs) as Hsn.
  rewrite (Scope_Normalize_id _ Hsn) in Hu.
  open_bind Hu [] Hset. apply guard_err_Ok, bool_decide_eq_true in Hset.
  open_bind Hu [] Ha. apply guard_err_Ok in Ha. rewrite version_exists_spec in Ha.
  open_bind Hu [] Hc. apply guard_err_Ok in Hc. rewrite version_exists_spec in Hc.
  injection Hu as <-. exists scope, n.
  pose proof (NormalizeAuthzPolicyRolloutForWrite_normal _ _ _ Hn) as Hno.
  split_and!; try done. intros v [?|?]; auto.
Qed.

Lemma stamp_rollout_normal scope r : rollout_normal r → rollout_normal (stamp_rollout scope r).
Proof. intros []. by split. Qed.

Lemma UpsertAuthzPolicyRollout_wf ctx now r s s' :
  authz_wf s → UpsertAuthzPolicyRollout ctx now r s = Ok s' → authz_wf s'.
Proof.
  intros [Hr Hv Ho He] (scope & n & _ & Hs & _ & Hn & Hset & Hp & ->)%UpsertAuthzPolicyRollout_Ok.
  split; cbn; [done|done| |done]. intros k x [[<- <-]|[_ Hx]]%lookup_insert_Some; [|by apply Ho].
  destruct scope. split_and!; auto using stamp_rollout_normal.
Qed.

Lemma AppendAuthzPolicyEvent_wf ctx now fresh e s s' :
  authz_wf s → AppendAuthzPolicyEvent ctx now fresh e s = Ok s' → authz_wf s'.
Proof.
  intros [Hr Hv Ho He] Ha. unfold AppendAuthzPolicyEvent in Ha.
  open_bind Ha n Hn. open_bind Ha scope Hs.
  open_bind Ha [] Hset. apply guard_err_Ok, bool_decide_eq_true in Hset.
  open_bind Ha [] Hid. apply guard_err_Ok, bool_decide_eq_true in Hid. injection Ha as <-.
  split; cbn; [done..|]. intros k l x [[<- <-]|[_ Hl]]%lookup_insert_Some Hx.
  - rewrite elem_of_app, list_elem_of_singleton in Hx. destruct Hx as [Hx| ->].
    + destruct (authzEvents s !! _) as [l|] eqn:E; cbn in Hx; [|by apply not_elem_of_nil in Hx].
      destruct (He _ _ _ E Hx). split; [done|]. apply elem_of_union. by right.
    + split; [done|]. apply elem_of_union. left. by apply elem_of_singleton.
  - destruct (He _ _ _ Hl Hx). split; [done|]. apply elem_of_union. by right.
Qed.

Lemma authz_step_wf s s' : authz_wf s → authz_step s s' → authz_wf s'.
Proof.
  intros Hw [ctx now a s1 Hu|ctx now a s1 Hu|ctx now a s1 Hu|ctx now a s1 Hu|ctx now v s1 v' Hu
    |ctx now a s1 Hu|ctx now fresh a s1 Hu].
  - exact (UpsertAuthzEntityAttributes_wf _ _ _ _ _ Hw Hu).
  - exact (UpsertAuthzRelationship_wf _ _ _ _ _ Hw Hu).
  - exact (DeleteAuthzRelationship_wf _ _ _ _ _ Hw Hu).
  - exact (UpsertAuthzPolicySet_wf _ _ _ _ _ Hw Hu).
  - exact (CreateAuthzPolicyVersion_wf _ _ _ _ _ _ Hw Hu).
  - exact (UpsertAuthzPolicyRollout_wf _ _ _ _ _ Hw Hu).
  - exact (AppendAuthzPolicyEvent_wf _ _ _ _ _ _ Hw Hu).
Qed.

(** In every state the authorization tables can reach from the empty
    store, through any sequence of successful writes in any scopes, every
    relationship, version and rollout is well formed and stored under the key of
    its own scope; every rollout pointer references a stored version of its set
    (and a validated one under [enforce]); every event belongs to an existing
    policy set and its id is recorded. *)
Theorem authz_tables_invariant s
    (Hreach : reachable (λ s, s = empty_authz_state) authz_step s) : authz_wf s.
Proof.
  revert s Hreach. apply reachable_invariant.
  - intros s ->. apply empty_authz_wf.
  - intros s s' _. apply authz_step_wf.
Qed.

(** Stored versions are never changed or removed by a step. *)
Lemma authz_step_versions s s' : authz_step s s' → authzVersions s ⊆ authzVersions s'.
Proof.
  intros [ctx now a s1 Hu|ctx now a s1 Hu|ctx now a s1 Hu|ctx now a s1 Hu|ctx now v s1 v' Hu
    |ctx now a s1 Hu|ctx now fresh a s1 Hu].
  - unfold UpsertAuthzEntityAttributes in Hu. by inv_ok.
  - by apply UpsertAuthzRelationship_Ok in Hu as (? & ? & ? & _ & _ & _ & _ & ->).
  - unfold DeleteAuthzRelationship in Hu. open_bind Hu n Hn. open_bind Hu scope Hs.
    destruct (authzRels s !! _); [|done]. by injection Hu as <-.
  - unfold UpsertAuthzPolicySet in Hu. by inv_ok.
  - apply CreateAuthzPolicyVersion_Ok in Hu as (? & _ & _ & _ & _ & _ & _ & _ & _ & Hk & ->).
    by apply insert_subseteq.
  - by apply UpsertAuthzPolicyRollout_Ok in Hu as (? & ? & _ & _ & _ & _ & _ & _ & ->).
  - unfold AppendAuthzPolicyEvent in Hu. by inv_ok.
Qed.

(** ** Version numbers *)
Definition version_of_set (scope : Scope) (id : string) (v : AuthzPolicyVersion) : Prop :=
  MatchScope scope (Version_TenantID v) (Version_WorkspaceID v) = true ∧ Version_PolicySetID v = id.

#[export] Instance version_of_set_dec scope id v : Decision (version_of_set scope id v).
Proof. unfold version_of_set. solve_decision. Defined.

Lemma next_version_step_eq scope id n v :
  0 < Version_Version v < int64_max →
  next_version_step scope id n v =
  if decide (version_of_set scope id v ∧ n ≤ Version_Version v) then Version_Version v + 1 else n.
Proof.
  intros Hv. unfold next_version_step. case_decide as Hc.
  - destruct Hc as [[-> ->] Hle]. cbn. rewrite bool_decide_eq_true_2 by done. cbn.
    rewrite (proj2 (Z.leb_le _ _)) by done.
    apply wrap64_id. unfold in_int64, int64_min, int64_max in *. lia.
  - destruct (MatchScope scope _ _) eqn:Em; cbn; [|done].
    case_bool_decide as Eid; cbn; [|done].
    destruct (n <=? _) eqn:En; [|done]. boolify. by destruct Hc.
Qed.

Lemma next_version_spec scope id l :
  Forall (λ v, 0 < Version_Version v < int64_max) l →
  let n := next_version scope id l in
  1 ≤ n ≤ int64_max ∧ (∀ v, v ∈ l → version_of_set scope id v → Version_Version v < n) ∧
  (n = 1 ∨ ∃ v, v ∈ l ∧ version_of_set scope id v ∧ n = Version_Version v + 1).
Proof.
  intros Hl. induction l as [|v l IH] using rev_ind; cbn.
  { split_and!; [lia|done| |by left]. by intros v []%not_elem_of_nil. }
  apply Forall_app in Hl as [Hl Hv]. rewrite Forall_singleton in Hv.
  destruct (IH Hl) as (Hn & Hlt & Hex). clear IH.
  unfold next_version in *. rewrite foldl_app. cbn.
  set (n := foldl _ 1 l) in *. rewrite next_version_step_eq by exact Hv.
  setoid_rewrite elem_of_app. setoid_rewrite list_elem_of_singleton.
  case_decide as Hc.
  - destruct Hc as [Hm Hle]. split_and!; [lia..| |right; eauto].
    intros w [Hw| ->] Hwm; [specialize (Hlt w Hw Hwm)|]; lia.
  - split_and!; [lia..| |naive_solver].
    intros w [Hw| ->] Hwm; [by apply Hlt|]. destruct (Z.lt_ge_cases (Version_Version v) n); tauto.
Qed.

Lemma GetAuthzPolicyVersion_lookup ctx scope id raw n s v :
  RequireScope ctx = Ok scope → policy_set_id_normal id → canon raw = id → 0 < n →
  authzVersions s !! authzPolicyVersionScopeKey scope id n = Some v →
  GetAuthzPolicyVersion ctx raw n s = Ok v.
Proof.
  intros Hs Hid Hraw Hn Hv. unfold GetAuthzPolicyVersion. rewrite Hs; cbn.
  rewrite (proj2 (normalizeAuthzPolicySetID_Ok raw id)) by done; cbn.
  rewrite (proj2 (Z.ltb_lt 0 n)) by done; cbn.
  by rewrite (Scope_Normalize_id _ (RequireScope_normal _ _ Hs)), Hv.
Qed.

(** Policy versions are immutable and their numbers fresh: a successful
    creation stores exactly the record it returns under an unused key, from
    which it is read back, keeps every stored version as it is, and, when no
    number is requested, assigns a number greater than every version of the
    same set visible in the scope. *)
Theorem CreateAuthzPolicyVersion_immutable ctx now v s s' n
    (Hbound : ∀ k w, authzVersions s !! k = Some w → 0 < Version_Version w < int64_max)
    (Hok : CreateAuthzPolicyVersion ctx now v s = Ok (s', n)) :
  authzVersions s ⊆ authzVersions s' ∧
  GetAuthzPolicyVersion ctx (Version_PolicySetID v) (Version_Version n) s' = Ok n ∧
  GetAuthzPolicyVersion ctx (Version_PolicySetID v) (Version_Version n) s = Err ErrNotFound ∧
  (Version_Version v ≤ 0 → ∀ k w scope, RequireScope ctx = Ok scope → authzVersions s !! k = Some w →
     version_of_set scope (Version_PolicySetID n) w → Version_Version w < Version_Version n).
Proof.
  apply CreateAuthzPolicyVersion_Ok in Hok as
    (scope & Hs & Hsn & Hn & Hsc & Hid & Hnum & _ & _ & Hk & ->).
  assert (authzVersions s ⊆ <[authzPolicyVersionScopeKey scope (Version_PolicySetID n) (Version_Version n)
    := n]> (authzVersions s)) as Hsub by by apply insert_subseteq.
  destruct Hn as [Hnid Hpos _].
  split_and!; [done| | |].
  - eapply GetAuthzPolicyVersion_lookup; [done|exact Hnid|done|done|]. cbn. by rewrite lookup_insert_eq.
  - unfold GetAuthzPolicyVersion. rewrite Hs; cbn.
    rewrite (proj2 (normalizeAuthzPolicySetID_Ok _ (Version_PolicySetID n))) by done; cbn.
    rewrite (proj2 (Z.ltb_lt 0 _)) by done; cbn. by rewrite (Scope_Normalize_id _ Hsn), Hk.
  - intros Hle k w scope' Hs' Hw Hm. rewrite Hs in Hs'. injection Hs' as <-.
    rewrite (proj2 (Z.leb_le _ 0)) in Hnum by done. rewrite Hnum, <-Hid.
    eapply next_version_spec; [| |exact Hm].
    + apply Forall_forall. intros x Hx. apply list_elem_of_fmap in Hx as ([k' x'] & -> & Hx).
      apply elem_of_map_range in Hx. by eapply Hbound.
    + apply list_elem_of_fmap. exists (k, w). split; [done|]. by apply elem_of_map_range.
Qed.
End facts.

(** ** Listing relationships *)

(** The tuple is stored in the scope and has not expired. *)
Definition relationship_live (now : Z) (s : AuthzState) (scope : Scope) (r : AuthzRelationship) : Prop :=
  (∃ k, authzRels s !! k = Some r) ∧
  MatchScope scope (Rel_TenantID r) (Rel_WorkspaceID r) = true ∧
  ∀ t, Rel_ExpiresAt r = Some t → now < t.

(** The tuple agrees with every field the filter sets. *)
Definition filter_accepts (f : AuthzRelationshipFilter) (r : AuthzRelationship) : Prop :=
  (canon (Filter_SubjectType f) = "" ∨ Rel_SubjectType r = canon (Filter_SubjectType f)) ∧
  (TrimSpace (Filter_SubjectID f) = "" ∨ Rel_SubjectID r = TrimSpace (Filter_SubjectID f)) ∧
  (canon (Filter_Relation f) = "" ∨ Rel_Relation r = canon (Filter_Relation f)) ∧
  (canon (Filter_ObjectType f) = "" ∨ Rel_ObjectType r = canon (Filter_ObjectType f)) ∧
  (TrimSpace (Filter_ObjectID f) = "" ∨ Rel_ObjectID r = TrimSpace (Filter_ObjectID f)).

Definition filter_relation_ok (f : AuthzRelationshipFilter) : Prop :=
  canon (Filter_Relation f) = "" ∨ canon (Filter_Relation f) ∈ validAuthzRelationships.

Lemma filter_matches_true f v : filter_matches f v = true ↔ f = "" ∨ v = f.
Proof. unfold filter_matches. by rewrite orb_true_iff, !bool_decide_eq_true. Qed.

Lemma relationship_selected_true scope now f r :
  Filter_IncludeExpired f = false →
  relationship_selected scope now f r = true ↔
  MatchScope scope (Rel_TenantID r) (Rel_WorkspaceID r) = true ∧ filter_accepts f r ∧
  ∀ t, Rel_ExpiresAt r = Some t → now < t.
Proof.
  intros He. unfold relationship_selected, filter_accepts. rewrite He; cbn.
  rewrite !andb_true_iff, !filter_matches_true.
  assert (match Rel_ExpiresAt r with None => true | Some t => After t now end = true ↔
    ∀ t, Rel_ExpiresAt r = Some t → now < t) as ->; [|tauto].
  destruct (Rel_ExpiresAt r) as [t|]; [|naive_solver]. unfold After. rewrite Z.ltb_lt. naive_solver.
Qed.

Lemma relationship_compare_ok : compare_ok relationship_compare.
Proof.
  unfold relationship_compare.
  repeat (apply compare_ok_lex; [exact (compare_ok_on _ _ compare_ok_string)|]).
  exact (compare_ok_flip _ (compare_ok_on Rel_UpdatedAt _ compare_ok_Z)).
Qed.

Section listing.
Context `{MapRange, SortSlice}.

Lemma matching_relationships_sorted scope now f s :
  StronglySorted (λ x y, relationship_compare x y ≠ Gt) (matching_relationships scope now f s).
Proof. apply sort_slice_less_of, relationship_compare_ok. Qed.

Lemma elem_of_matching_relationships scope now f s r :
  Filter_IncludeExpired f = false →
  r ∈ matching_relationships scope now f s ↔ relationship_live now s scope r ∧ filter_accepts f r.
Proof.
  intros He. unfold matching_relationships, relationship_live.
  rewrite elem_of_sort_slice, list_elem_of_filter, relationship_selected_true, list_elem_of_fmap by done.
  assert ((∃ y : string * AuthzRelationship, r = y.2 ∧ y ∈ map_range (authzRels s)) ↔
    ∃ k, authzRels s !! k = Some r) as ->; [|tauto].
  split.
  - intros ([k r'] & -> & Hy%elem_of_map_range). by exists k.
  - intros [k Hk]. exists (k, r). by rewrite elem_of_map_range.
Qed.

Lemma ListAuthzRelationships_Ok ctx now f limit s scope :
  RequireScope ctx = Ok scope → filter_relation_ok f → Filter_IncludeExpired f = false →
  ListAuthzRelationships ctx now f limit s = Ok (truncate limit (matching_relationships scope now f s)).
Proof.
  intros Hs Hf He. unfold ListAuthzRelationships. rewrite Hs; cbn.
  rewrite (Scope_Normalize_id _ (RequireScope_normal _ _ Hs)).
  assert (bool_decide (canon (Filter_Relation f) = "") ||
    bool_decide (canon (Filter_Relation f) ∈ validAuthzRelationships) = true) as ->; [|done].
  rewrite orb_true_iff, !bool_decide_eq_true. exact Hf.
Qed.

Lemma ListAuthzRelationships_unscoped ctx now f limit s e :
  RequireScope ctx = Err e → ListAuthzRelationships ctx now f limit s = Err e.
Proof. unfold ListAuthzRelationships. by intros ->. Qed.

Lemma ListAuthzRelationships_bad_relation ctx now f limit s scope :
  RequireScope ctx = Ok scope → ¬ filter_relation_ok f →
  ListAuthzRelationships ctx now f limit s = Err (Errorf "invalid relation value").
Proof.
  intros Hs Hf. unfold ListAuthzRelationships. rewrite Hs; cbn.
  destruct (_ || _) eqn:E; [|done]. destruct Hf.
  by rewrite orb_true_iff, !bool_decide_eq_true in E.
Qed.
End listing.

(** The in-memory store implements the lookup contract the ReBAC evaluator
    relies on: without a scope it fails, with an unknown relation it fails, and
    otherwise it returns, sorted and cut at the limit, exactly the stored tuples
    of the caller's own scope that have not expired and agree with the filter. *)
Theorem memory_store_refines_contract `{MapRange, SortSlice} (s : AuthzState) (now : Z) (ctx : Context)
    (f : AuthzRelationshipFilter) (limit : Z) :
  match RequireScope ctx with
  | Err e => ListAuthzRelationships ctx now f limit s = Err e
  | Ok scope =>
      (¬ filter_relation_ok f →
         ListAuthzRelationships ctx now f limit s = Err (Errorf "invalid relation value")) ∧
      (filter_relation_ok f → Filter_IncludeExpired f = false →
         ∃ all, ListAuthzRelationships ctx now f limit s = Ok (truncate limit all) ∧
           StronglySorted (λ x y, relationship_compare x y ≠ Gt) all ∧
           ∀ r, r ∈ all ↔ relationship_live now s scope r ∧ filter_accepts f r)
  end.
Proof.
  destruct (RequireScope ctx) as [scope|e] eqn:Hs; [|by apply ListAuthzRelationships_unscoped].
  split; [by eapply ListAuthzRelationships_bad_relation|]. intros Hf He.
  exists (matching_relationships scope now f s). split_and!.
  - by apply ListAuthzRelationships_Ok.
  - apply matching_relationships_sorted.
  - intros r. by apply elem_of_matching_relationships.
Qed.

(** ** Rollouts round trip *)
Lemma GetAuthzPolicyRollout_lookup ctx scope raw s r :
  RequireScope ctx = Ok scope → policy_set_id_normal (canon raw) →
  authzRollouts s !! authzPolicySetScopeKey scope (canon raw) = Some r →
  GetAuthzPolicyRollout ctx raw s = Ok r.
Proof.
  intros Hs Hid Hr. unfold GetAuthzPolicyRollout. rewrite Hs; cbn.
  rewrite (proj2 (normalizeAuthzPolicySetID_Ok raw (canon raw))) by done; cbn.
  by rewrite (Scope_Normalize_id _ (RequireScope_normal _ _ Hs)), Hr.
Qed.

(** A rollout that was written is read back normalized and stamped with
    the scope of the call, under any spelling of its policy set id, whichever
    order the tables are visited in; the write changes no other table. *)
Theorem UpsertAuthzPolicyRollout_roundtrip ctx now r s s' raw
    (Hok : UpsertAuthzPolicyRollout ctx now r s = Ok s')
    (Hraw : canon raw = canon (Rollout_PolicySetID r)) :
  ∃ scope n, RequireScope ctx = Ok scope ∧ NormalizeAuthzPolicyRolloutForWrite now r = Ok n ∧
    GetAuthzPolicyRollout ctx raw s' = Ok (stamp_rollout scope n) ∧
    authzSets s' = authzSets s ∧ authzVersions s' = authzVersions s ∧ authzRels s' = authzRels s ∧
    authzEvents s' = authzEvents s.
Proof.
  apply UpsertAuthzPolicyRollout_Ok in Hok as (scope & n & Hs & _ & Hn & Hno & _ & _ & ->).
  exists scope, n. split_and!; try done.
  assert (Rollout_PolicySetID n = canon raw) as Hid.
  { unfold NormalizeAuthzPolicyRolloutForWrite in Hn. open_bind Hn id Hid.
    apply normalizeAuthzPolicySetID_Ok in Hid as [-> _]. inv_ok. done. }
  destruct Hno as [Hnid _ _ _ _ _ _ _ _]. rewrite Hid in Hnid.
  apply (GetAuthzPolicyRollout_lookup ctx scope); [done..|]. cbn. by rewrite Hid, lookup_insert_eq.
Qed.

(** ** Keys *)

(** The relationship key is not injective: ids are joined with an
    unescaped separator, so two different well-formed relationships of one scope
    share a key, and writing the second replaces the first in the store. *)
Theorem authzRelationshipScopeKey_collision :
  ∃ scope now r1 r2 s1 s2,
    relationship_normal r1 ∧ relationship_normal r2 ∧ Rel_SubjectID r1 ≠ Rel_SubjectID r2 ∧
    relationship_key scope r1 = relationship_key scope r2 ∧
    UpsertAuthzRelationship (Some scope) now r1 empty_authz_state = Ok s1 ∧
    UpsertAuthzRelationship (Some scope) now r2 s1 = Ok s2 ∧
    (∃ k, authzRels s1 !! k = Some r1) ∧ ¬ ∃ k, authzRels s2 !! k = Some r1.
Proof.
  set (r1 := mkRelationship "t" "w" "user" "a" "owns" "doc" "b|owns|doc|c" "manual" None 5 5).
  set (r2 := mkRelationship "t" "w" "user" "a|owns|doc|b" "owns" "doc" "c" "manual" None 5 5).
  exists (mkScope "t" "w"), 5, r1, r2.
  exists (with_authzRels {[relationship_key (mkScope "t" "w") r1 := r1]} empty_authz_state).
  exists (with_authzRels {[relationship_key (mkScope "t" "w") r2 := r2]} empty_authz_state).
  split_and!; try by vm_compute.
  - by apply (bool_decide_unpack _); vm_compute.
  - by apply (bool_decide_unpack _); vm_compute.
  - by exists (relationship_key (mkScope "t" "w") r1).
  - intros [k Hk]. cbn in Hk. by apply lookup_singleton_Some in Hk as [_ [=]].
Qed.

(** ** Witnesses *)
Definition sample_codec : BundleCodec :=
  {| sha256_hex := λ s, "digest of " +:+ s; json_Valid := λ s, HasPrefix s "{" |}.
Definition sample_ctx : Context := Some (mkScope "acme" "prod").
Definition sample_set : AuthzPolicySet := mkPolicySet "" "" "central" "Central" "" "ops" 1 1.
Definition sample_version : AuthzPolicyVersion := mkPolicyVersion "" "" " Central " 0 "{}" "" "ops" 1.
Definition sample_request : AuthzPolicyRollout :=
  mkRollout "" "" "central" (Some 1) (Some 2) "enforce" [] [] 25 [2; 1] "ops" 1.

Definition sample_create (s : AuthzState) : result (AuthzState * AuthzPolicyVersion) :=
  @CreateAuthzPolicyVersion sample_codec canonical_range sample_ctx 7 sample_version s.
Definition sample_state_1 : AuthzState :=
  ok_or empty_authz_state (UpsertAuthzPolicySet sample_ctx 7 sample_set empty_authz_state).
Definition sample_created_1 := ok_or (empty_authz_state, sample_version) (sample_create sample_state_1).
Definition sample_created_2 := ok_or (empty_authz_state, sample_version) (sample_create sample_created_1.1).
Definition sample_state_4 : AuthzState :=
  ok_or empty_authz_state (UpsertAuthzPolicyRollout sample_ctx 7 sample_request sample_created_2.1).

Lemma authz_tables_invariant_witness :
  size (authzVersions sample_state_4) = 2%nat ∧ size (authzRollouts sample_state_4) = 1%nat ∧
  @authz_wf sample_codec sample_state_4.
Proof.
  split; [by vm_compute|]. split; [by vm_compute|].
  apply (@authz_tables_invariant sample_codec canonical_range).
  eapply reachable_step; [eapply reachable_step; [eapply reachable_step; [eapply reachable_step;
    [by apply reachable_init|]|]|]|].
  - apply (step_UpsertAuthzPolicySet _ sample_ctx 7 sample_set sample_state_1). by vm_compute.
  - apply (step_CreateAuthzPolicyVersion _ sample_ctx 7 sample_version sample_created_1.1 sample_created_1.2).
    by vm_compute.
  - apply (step_CreateAuthzPolicyVersion _ sample_ctx 7 sample_version sample_created_2.1 sample_created_2.2).
    by vm_compute.
  - apply (step_UpsertAuthzPolicyRollout _ sample_ctx 7 sample_request). by vm_compute.
Defined.

Lemma CreateAuthzPolicyVersion_immutable_witness :
  Version_Version sample_created_2.2 = 2 ∧
  authzVersions sample_created_1.1 ⊆ authzVersions sample_created_2.1 ∧
  GetAuthzPolicyVersion sample_ctx " Central " 2 sample_created_2.1 = Ok sample_created_2.2 ∧
  GetAuthzPolicyVersion sample_ctx " Central " 2 sample_created_1.1 = Err ErrNotFound ∧
  (0 ≤ 0 → ∀ k w scope, RequireScope sample_ctx = Ok scope →
     authzVersions sample_created_1.1 !! k = Some w →
     version_of_set scope (Version_PolicySetID sample_created_2.2) w → Version_Version w < 2).
Proof.
  split; [by vm_compute|].
  apply (@CreateAuthzPolicyVersion_immutable sample_codec canonical_range sample_ctx 7 sample_version
    sample_created_1.1 sample_created_2.1 sample_created_2.2).
  - intros k w Hk.
    assert (authzVersions sample_created_1.1 = {[ "acme|prod|central|1" := sample_created_1.2 ]})
      as Heq by by vm_compute.
    rewrite Heq in Hk. apply lookup_singleton_Some in Hk as [_ <-]. by vm_compute.
  - by vm_compute.
Defined.

Lemma UpsertAuthzPolicyRollout_roundtrip_witness :
  ∃ scope n, RequireScope sample_ctx = Ok scope ∧
    NormalizeAuthzPolicyRolloutForWrite 7 sample_request = Ok n ∧
    GetAuthzPolicyRollout sample_ctx " CENTRAL" sample_state_4 = Ok (stamp_rollout scope n) ∧
    authzSets sample_state_4 = authzSets sample_created_2.1 ∧
    authzVersions sample_state_4 = authzVersions sample_created_2.1 ∧
    authzRels sample_state_4 = authzRels sample_created_2.1 ∧
    authzEvents sample_state_4 = authzEvents sample_created_2.1.
Proof.
  apply (UpsertAuthzPolicyRollout_roundtrip sample_ctx 7 sample_request); by vm_compute.
Defined.
