(* ===== verification/Rebac.v ===== *)
(** * ReBAC: relationship paths over a relationship store
    (internal/api/authz_evaluators.go)

    The evaluator is written against the interface [RelationshipStore], what
    it uses of [db.Store]; the in-memory tables implement it at the end. *)
From S2P Require Import Prelude GoStrings GoCollections GoTime Scope.
From S2P Require Import PolicyEngine PolicyEvaluators AuthzRecords AuthzStore.

(** ** The store's contract

    [rs_list] is [ListAuthzRelationships] for unexpired tuples.  It fails
    without a scope or on an unknown relation; otherwise it returns the matching
    live tuples of the scope, cut at a positive limit. *)
Class RelationshipStore (T : Type) := {
  rs_list : T → Context → AuthzRelationshipFilter → Z → result (list AuthzRelationship);
  rs_live : T → Scope → AuthzRelationship → Prop;
  rs_matching : T → Scope → AuthzRelationshipFilter → list AuthzRelationship;
  rs_matching_spec : ∀ t scope f r,
    Filter_IncludeExpired f = false → scope_normal scope →
    r ∈ rs_matching t scope f ↔ rs_live t scope r ∧ filter_accepts f r;
  rs_list_Ok : ∀ t ctx f limit scope,
    RequireScope ctx = Ok scope → filter_relation_ok f → Filter_IncludeExpired f = false →
    rs_list t ctx f limit = Ok (truncate limit (rs_matching t scope f));
  rs_list_unscoped : ∀ t ctx f limit e, RequireScope ctx = Err e → rs_list t ctx f limit = Err e;
}.

(** ** Policies *)
Record rebacRelationPath := mkRebacPath {
  Path_Relations : list string;
  Path_AllOf : list abacPredicate;
}.

(** [rebacActionPolicy.AnyOf]. *)
Record rebacActionPolicy := mkRebacPolicy { Rebac_AnyOf : list rebacRelationPath }.

Record rebacNode := mkRebacNode { Node_SubjectType : string; Node_SubjectID : string }.

#[export] Instance rebacRelationPath_eq_dec : EqDecision rebacRelationPath.
Proof. solve_decision. Defined.
#[export] Instance rebacActionPolicy_eq_dec : EqDecision rebacActionPolicy.
Proof. solve_decision. Defined.
#[export] Instance rebacNode_eq_dec : EqDecision rebacNode.
Proof. solve_decision. Defined.

Definition rebacDefaultLookupLimit : Z := 200.

Definition isSupportedReBACRelation (relation : string) : bool :=
  bool_decide (canon relation ∈ [AuthzRelationshipOwns; AuthzRelationshipManages;
                                 AuthzRelationshipDelegatedAdmin; AuthzRelationshipMemberOf]).

Definition normalizeReBACPath (path : rebacRelationPath) : rebacRelationPath :=
  let relations := canon <$> Path_Relations path in
  if forallb isSupportedReBACRelation relations
  then mkRebacPath relations (normalizeABACPredicate <$> Path_AllOf path)
  else mkRebacPath [] [].

(** The inner loop: the paths that keep some relation. *)
Definition normalize_paths (paths : list rebacRelationPath) : list rebacRelationPath :=
  filter (λ path, Path_Relations path ≠ []) (normalizeReBACPath <$> paths).

#[global] Arguments normalize_paths : simpl never.

Definition normalized_rebac_entry (entry : string * rebacActionPolicy) : option (string * rebacActionPolicy) :=
  let normalizedAction := canon entry.1 in
  if decide (normalizedAction = "") then None
  else let paths := normalize_paths (Rebac_AnyOf entry.2) in
       if decide (paths = []) then None else Some (normalizedAction, mkRebacPolicy paths).

Definition normalizeReBACPolicies `{MapRange} (policies : gmap string rebacActionPolicy)
    : gmap string rebacActionPolicy :=
  collect normalized_rebac_entry (map_range policies).

(** ** Evaluation *)
Fixpoint evaluateReBACPathConditions `{MapRange} (input : PolicyInput) (conditions : list abacPredicate)
    : bool * string :=
  match conditions with
  | [] => (true, "")
  | condition :: conditions =>
      match evaluateABACPredicate input condition with
      | (true, _) => evaluateReBACPathConditions input conditions
      | (false, reason) =>
          if blank reason then (false, "rebac condition failed")
          else (false, "rebac condition failed: " +:+ reason)
      end
  end.

Section evaluator.
Context `{MapRange} {T : Type} `{RelationshipStore T}.

Definition list_relationships (store : T) (ctx : Context) (filter : AuthzRelationshipFilter) (limit : Z)
    : result (list AuthzRelationship) :=
  match rs_list store ctx filter limit with
  | Ok tuples => Ok tuples
  | Err err => Err (Wrap "list rebac relationships" err)
  end.

(** The last hop: some node has a tuple to the object itself. *)
Fixpoint last_hop (store : T) (ctx : Context) (limit : Z) (relation objectType objectID : string)
    (nodes : list rebacNode) : result bool :=
  match nodes with
  | [] => mret false
  | node :: nodes =>
      tuples ← list_relationships store ctx
        (mkRelationshipFilter (Node_SubjectType node) (Node_SubjectID node) relation objectType objectID false)
        limit;
      if decide (tuples = []) then last_hop store ctx limit relation objectType objectID nodes
      else mret true
  end.

(** The node a tuple leads to, under its key in [nextNodes]. *)
Definition next_node (tuple : AuthzRelationship) : option (string * rebacNode) :=
  let nextType := canon (Rel_ObjectType tuple) in
  let nextID := TrimSpace (Rel_ObjectID tuple) in
  if decide (nextType = "" ∨ nextID = "") then None
  else Some (nextType +:+ "|" +:+ nextID, mkRebacNode nextType nextID).

(** An inner hop: the nodes reached from [nodes]. *)
Fixpoint next_hop (store : T) (ctx : Context) (limit : Z) (relation : string)
    (nextNodes : gmap string rebacNode) (nodes : list rebacNode) : result (gmap string rebacNode) :=
  match nodes with
  | [] => mret nextNodes
  | node :: nodes =>
      tuples ← list_relationships store ctx
        (mkRelationshipFilter (Node_SubjectType node) (Node_SubjectID node) relation "" "" false) limit;
      next_hop store ctx limit relation (collect_from next_node nextNodes tuples) nodes
  end.

(** The loop over a path's relations. *)
Fixpoint walk_path (store : T) (ctx : Context) (limit : Z) (objectType objectID : string)
    (nodes : list rebacNode) (relations : list string) : result bool :=
  match relations with
  | [] => mret false
  | [relation] => last_hop store ctx limit relation objectType objectID nodes
  | relation :: relations =>
      nextNodes ← next_hop store ctx limit relation ∅ nodes;
      if decide (nextNodes = ∅) then mret false
      else walk_path store ctx limit objectType objectID (map_range nextNodes).*2 relations
  end.

Definition evaluateReBACPath (store : T) (ctx : Context) (limit : Z) (start : rebacNode)
    (objectType objectID : string) (path : rebacRelationPath) : result bool :=
  walk_path store ctx limit objectType objectID [start] (Path_Relations path).

Definition rebac_deny_reason : string := "rebac relationship does not grant action".

(** The loop over a policy's paths. *)
Fixpoint evaluate_paths (store : T) (ctx : Context) (limit : Z) (input : PolicyInput) (start : rebacNode)
    (objectType objectID : string) (paths : list rebacRelationPath) (denyReason : string)
    : result (string * string) :=
  match paths with
  | [] => mret (PolicyOutcomeDeny, denyReason)
  | path :: paths =>
      match evaluateReBACPathConditions input (Path_AllOf path) with
      | (false, reason) =>
          evaluate_paths store ctx limit input start objectType objectID paths
            (if blank reason then denyReason else reason)
      | (true, _) =>
          matches ← evaluateReBACPath store ctx limit start objectType objectID path;
          if matches : bool then mret (PolicyOutcomeAllow, "rebac relationship grants action")
          else evaluate_paths store ctx limit input start objectType objectID paths rebac_deny_reason
      end
  end.

(** [rebacPolicyEvaluator.Evaluate]; a nil store is [None]. *)
Definition rebacPolicyEvaluator (store : option T) (actionPolicies : gmap string rebacActionPolicy)
    (lookupLimit : Z) : PolicyEvaluator := λ ctx input,
  match store with
  | None => Ok (PolicyOutcomeNoOpinion, "")
  | Some store =>
      if decide (actionPolicies = ∅) then Ok (PolicyOutcomeNoOpinion, "")
      else let action := canon (Input_Action input) in
        if decide (action = "") then Ok (PolicyOutcomeNoOpinion, "")
        else match actionPolicies !! action with
          | None => Ok (PolicyOutcomeNoOpinion, "")
          | Some policy =>
              if decide (Rebac_AnyOf policy = []) then Ok (PolicyOutcomeNoOpinion, "")
              else
                let subjectType := canon (Subject_Type (Input_Subject input)) in
                let subjectID := TrimSpace (Subject_ID (Input_Subject input)) in
                let objectType := canon (Resource_Type (Input_Resource input)) in
                let objectID := TrimSpace (Resource_ID (Input_Resource input)) in
                if decide (subjectType = "" ∨ subjectID = "" ∨ objectType = "" ∨ objectID = "")
                then Ok (PolicyOutcomeDeny, "rebac subject or resource identity is missing")
                else evaluate_paths store ctx lookupLimit input (mkRebacNode subjectType subjectID)
                       objectType objectID (Rebac_AnyOf policy) rebac_deny_reason
          end
  end.

Definition newReBACPolicyEvaluator (store : option T) (policies : gmap string rebacActionPolicy)
    : PolicyEvaluator :=
  rebacPolicyEvaluator store (normalizeReBACPolicies policies) rebacDefaultLookupLimit.
End evaluator.

(** ** Reference semantics: chains of live tuples *)
Section semantics.
Context `{MapRange} {T : Type} `{RelationshipStore T}.
Implicit Types (store : T) (scope : Scope) (node : rebacNode).

(** A live tuple of the node with the relation. *)
Definition node_tuple store scope relation node (r : AuthzRelationship) : Prop :=
  rs_live store scope r ∧ Rel_SubjectType r = Node_SubjectType node ∧
  Rel_SubjectID r = Node_SubjectID node ∧ Rel_Relation r = relation.

Definition hop store scope relation node node' : Prop :=
  ∃ r, node_tuple store scope relation node r ∧
    node' = mkRebacNode (canon (Rel_ObjectType r)) (TrimSpace (Rel_ObjectID r)) ∧
    Node_SubjectType node' ≠ "" ∧ Node_SubjectID node' ≠ "".

Definition direct store scope relation node (objectType objectID : string) : Prop :=
  ∃ r, node_tuple store scope relation node r ∧ Rel_ObjectType r = objectType ∧ Rel_ObjectID r = objectID.

(** The object is reached from the node by tuples with these relations in order. *)
Fixpoint path_grants store scope (objectType objectID : string) (relations : list string) node : Prop :=
  match relations with
  | [] => False
  | [relation] => direct store scope relation node objectType objectID
  | relation :: relations =>
      ∃ node', hop store scope relation node node' ∧
        path_grants store scope objectType objectID relations node'
  end.

Definition node_normal node : Prop :=
  canon (Node_SubjectType node) = Node_SubjectType node ∧ Node_SubjectType node ≠ "" ∧
  TrimSpace (Node_SubjectID node) = Node_SubjectID node ∧ Node_SubjectID node ≠ "".

Definition relation_normal (relation : string) : Prop :=
  canon relation = relation ∧ relation ≠ "" ∧ relation ∈ validAuthzRelationships.

Lemma hop_normal store scope relation node node' :
  hop store scope relation node node' → node_normal node'.
Proof.
  intros (r & _ & -> & ? & ?). unfold node_normal; cbn in *. by rewrite canon_idemp, TrimSpace_idemp.
Qed.

(** Filters of the two kinds of lookup. *)
Lemma filter_accepts_inner node relation r :
  node_normal node → relation_normal relation →
  filter_accepts (mkRelationshipFilter (Node_SubjectType node) (Node_SubjectID node) relation "" "" false) r ↔
  Rel_SubjectType r = Node_SubjectType node ∧ Rel_SubjectID r = Node_SubjectID node ∧
  Rel_Relation r = relation.
Proof.
  intros (Ht & Ht' & Hi & Hi') (Hr & Hr' & _). unfold filter_accepts; cbn.
  rewrite Ht, Hi, Hr. change (canon "") with "". change (TrimSpace "") with "". naive_solver.
Qed.

Lemma filter_accepts_last node relation objectType objectID r :
  node_normal node → relation_normal relation →
  canon objectType = objectType → objectType ≠ "" → TrimSpace objectID = objectID → objectID ≠ "" →
  filter_accepts (mkRelationshipFilter (Node_SubjectType node) (Node_SubjectID node) relation
    objectType objectID false) r ↔
  Rel_SubjectType r = Node_SubjectType node ∧ Rel_SubjectID r = Node_SubjectID node ∧
  Rel_Relation r = relation ∧ Rel_ObjectType r = objectType ∧ Rel_ObjectID r = objectID.
Proof.
  intros (Ht & Ht' & Hi & Hi') (Hr & Hr' & _) Ho Ho' Hj Hj'. unfold filter_accepts; cbn.
  rewrite Ht, Hi, Hr, Ho, Hj. naive_solver.
Qed.

Lemma relation_normal_filter relation st si ot oi :
  relation_normal relation → filter_relation_ok (mkRelationshipFilter st si relation ot oi false).
Proof. intros (Hr & ? & ?). right; cbn. by rewrite Hr. Qed.

Lemma list_relationships_Ok store ctx f limit scope :
  RequireScope ctx = Ok scope → filter_relation_ok f → Filter_IncludeExpired f = false →
  list_relationships store ctx f limit = Ok (truncate limit (rs_matching store scope f)).
Proof. intros. unfold list_relationships. by rewrite (rs_list_Ok _ _ _ _ scope). Qed.

Section scoped.
Context (store : T) (ctx : Context) (limit : Z) (scope : Scope).
Context (Hscope : RequireScope ctx = Ok scope).
Let Hnormal : scope_normal scope := RequireScope_normal ctx scope Hscope.

(** The last hop answers, and finds exactly the direct tuples: cutting a
    listing never empties it. *)
Lemma last_hop_spec relation objectType objectID nodes :
  Forall node_normal nodes → relation_normal relation →
  canon objectType = objectType → objectType ≠ "" → TrimSpace objectID = objectID → objectID ≠ "" →
  ∃ b, last_hop store ctx limit relation objectType objectID nodes = Ok b ∧
    (b = true ↔ Exists (λ node, direct store scope relation node objectType objectID) nodes).
Proof.
  intros Hn Hr Ho Ho' Hj Hj'. induction Hn as [|node nodes Hnode _ IH]; cbn.
  { exists false. split; [done|]. by rewrite Exists_nil. }
  rewrite (list_relationships_Ok _ _ _ _ scope) by auto using relation_normal_filter; cbn.
  set (f := mkRelationshipFilter _ _ _ _ _ _).
  assert (truncate limit (rs_matching store scope f) ≠ [] ↔
    direct store scope relation node objectType objectID) as Hd.
  { rewrite truncate_nil. unfold direct, node_tuple. split.
    - intros Hne. destruct (rs_matching store scope f) as [|r l] eqn:E; [done|].
      assert (r ∈ rs_matching store scope f) as Hin by (rewrite E; left).
      apply rs_matching_spec in Hin as [Hl Ha]; [|done..].
      apply filter_accepts_last in Ha; [|done..]. exists r. tauto.
    - intros (r & (Hl & H1 & H2 & H3) & H4 & H5) E.
      assert (r ∈ rs_matching store scope f) as Hin; [|rewrite E in Hin; by apply not_elem_of_nil in Hin].
      apply rs_matching_spec; [done..|]. split; [done|]. by apply filter_accepts_last. }
  setoid_rewrite Exists_cons. case_decide as E.
  - destruct IH as (b & -> & Hb). exists b. split; [done|]. rewrite Hb.
    split; [by right|]. intros [Hx|?]; [|done]. by apply Hd in Hx.
  - exists true. split; [done|]. split; [|done]. intros _. left. by apply Hd.
Qed.

Lemma next_node_Some r k node' :
  next_node r = Some (k, node') ↔
  node' = mkRebacNode (canon (Rel_ObjectType r)) (TrimSpace (Rel_ObjectID r)) ∧
  Node_SubjectType node' ≠ "" ∧ Node_SubjectID node' ≠ "" ∧
  k = Node_SubjectType node' +:+ "|" +:+ Node_SubjectID node'.
Proof. unfold next_node. case_decide; naive_solver. Qed.

(** Every node an inner hop collects is reached by a hop. *)
Lemma next_hop_sound relation nodes m :
  Forall node_normal nodes → relation_normal relation →
  ∃ m', next_hop store ctx limit relation m nodes = Ok m' ∧
    ∀ k node', m' !! k = Some node' →
      m !! k = Some node' ∨ ∃ node, node ∈ nodes ∧ hop store scope relation node node'.
Proof.
  intros Hn Hr. revert m. induction Hn as [|node nodes Hnode _ IH]; intros m; cbn.
  { exists m. split; [done|]. by left. }
  rewrite (list_relationships_Ok _ _ _ _ scope) by auto using relation_normal_filter; cbn.
  edestruct IH as (m' & -> & Hm'). exists m'. split; [done|]. intros k node' Hk.
  apply Hm' in Hk as [Hk|(n & Hn & Hh)]; [|right; exists n; split; [by right|done]].
  apply collect_from_Some in Hk as [Hk|(r & Hin & Hk)]; [by left|right].
  exists node. split; [left|]. apply elem_of_truncate in Hin.
  apply rs_matching_spec in Hin as [Hl Ha]; [|done..].
  apply filter_accepts_inner in Ha; [|done..]. apply next_node_Some in Hk.
  exists r. unfold node_tuple. naive_solver.
Qed.

(** A path answers, and only finds chains of live tuples. *)
Lemma walk_path_sound objectType objectID relations nodes :
  Forall node_normal nodes → Forall relation_normal relations →
  canon objectType = objectType → objectType ≠ "" → TrimSpace objectID = objectID → objectID ≠ "" →
  ∃ b, walk_path store ctx limit objectType objectID nodes relations = Ok b ∧
    (b = true → Exists (path_grants store scope objectType objectID relations) nodes).
Proof.
  intros Hn Hrs Ho Ho' Hj Hj'. revert nodes Hn.
  induction Hrs as [|relation relations Hr Hrs IH]; intros nodes Hn; [by exists false|].
  destruct relations as [|relation' relations].
  { destruct (last_hop_spec relation objectType objectID nodes) as (b & Hb & Hs); [done..|].
    exists b. split; [done|]. apply Hs. }
  cbn -[walk_path path_grants]. set (rest := relation' :: relations) in *.
  change (walk_path store ctx limit objectType objectID nodes (relation :: rest)) with
    (nextNodes ← next_hop store ctx limit relation ∅ nodes;
     if decide (nextNodes = ∅) then mret false
     else walk_path store ctx limit objectType objectID (map_range nextNodes).*2 rest).
  destruct (next_hop_sound relation nodes ∅) as (m & -> & Hm); [done..|]; cbn.
  case_decide as E; [by exists false|].
  assert (∀ n, n ∈ (map_range m).*2 → ∃ node, node ∈ nodes ∧ hop store scope relation node n) as Hhop.
  { intros n Hin. apply list_elem_of_fmap in Hin as ([k n'] & -> & Hin%elem_of_map_range).
    apply Hm in Hin as [Hin|?]; [by rewrite lookup_empty in Hin|done]. }
  destruct (IH (map_range m).*2) as (b & Hb & Hs).
  { apply Forall_forall. intros n Hin. destruct (Hhop n Hin) as (? & _ & Hh). by eapply hop_normal. }
  exists b. split; [done|]. intros ->. destruct (proj1 (Exists_exists _ _) (Hs eq_refl)) as (n & Hin & Hg).
  destruct (Hhop n Hin) as (node & Hnode & Hh). apply Exists_exists. exists node. split; [done|].
  exists n. by split.
Qed.

(** Nothing is cut, and node keys are not ambiguous. *)
Definition listings_complete : Prop :=
  ∀ f, Z.of_nat (length (rs_matching store scope f)) ≤ limit.
Definition types_unambiguous : Prop :=
  ∀ r, rs_live store scope r → no_byte "|" (canon (Rel_ObjectType r)).

(** Nodes are stored under their own keys. *)
Definition keyed (m : gmap string rebacNode) : Prop :=
  ∀ k n, m !! k = Some n →
    k = Node_SubjectType n +:+ "|" +:+ Node_SubjectID n ∧ no_byte "|" (Node_SubjectType n).

Lemma keyed_lookup m n :
  keyed m → no_byte "|" (Node_SubjectType n) →
  is_Some (m !! (Node_SubjectType n +:+ "|" +:+ Node_SubjectID n)) →
  m !! (Node_SubjectType n +:+ "|" +:+ Node_SubjectID n) = Some n.
Proof.
  intros Hk Hb [n' Hn']. destruct (Hk _ _ Hn') as [E Hb'].
  change ("|" +:+ ?x) with (String "|" x) in E. apply join_inj in E as [? ?]; [|done..].
  rewrite Hn'. by destruct n, n'; cbn in *; subst.
Qed.

Lemma next_hop_complete relation nodes m :
  listings_complete → types_unambiguous →
  Forall node_normal nodes → relation_normal relation → keyed m →
  ∃ m', next_hop store ctx limit relation m nodes = Ok m' ∧ keyed m' ∧
    (∀ k, is_Some (m !! k) → is_Some (m' !! k)) ∧
    ∀ node node', node ∈ nodes → hop store scope relation node node' →
      is_Some (m' !! (Node_SubjectType node' +:+ "|" +:+ Node_SubjectID node')).
Proof.
  intros Hlim Hbar Hn Hr. revert m. induction Hn as [|node nodes Hnode _ IH]; intros m Hkey; cbn.
  { exists m. split_and!; [done..|]. by intros ?? []%not_elem_of_nil. }
  rewrite (list_relationships_Ok _ _ _ _ scope) by auto using relation_normal_filter; cbn.
  rewrite truncate_id by apply Hlim.
  set (f := mkRelationshipFilter _ _ _ _ _ _).
  edestruct (IH (collect_from next_node m (rs_matching store scope f))) as (m' & -> & Hk' & Hmono & Hhop).
  { intros k n [Hk|(r & Hin & Hk)]%collect_from_Some; [by apply Hkey|].
    apply next_node_Some in Hk as (-> & ? & ? & ->). split; [done|]. apply Hbar.
    by apply rs_matching_spec in Hin as [? _]. }
  exists m'. split_and!; [done..| |].
  - intros k Hk. apply Hmono, collect_from_is_Some. by right.
  - intros n n' [->|Hin]%elem_of_cons Hh; [|by eapply Hhop].
    destruct Hh as (r & (Hl & ? & ? & ?) & Hn' & ? & ?). apply Hmono, collect_from_is_Some. left.
    exists r, n'. split; [|by apply next_node_Some]. apply rs_matching_spec; [done..|].
    split; [done|]. by apply filter_accepts_inner.
Qed.

Lemma walk_path_complete objectType objectID relations nodes :
  listings_complete → types_unambiguous →
  Forall node_normal nodes → Forall relation_normal relations →
  canon objectType = objectType → objectType ≠ "" → TrimSpace objectID = objectID → objectID ≠ "" →
  Exists (path_grants store scope objectType objectID relations) nodes →
  walk_path store ctx limit objectType objectID nodes relations = Ok true.
Proof.
  intros Hlim Hbar Hn Hrs Ho Ho' Hj Hj'. revert nodes Hn.
  induction Hrs as [|relation relations Hr Hrs IH]; intros nodes Hn Hex.
  { apply Exists_exists in Hex as (? & _ & []). }
  destruct relations as [|relation' relations].
  { destruct (last_hop_spec relation objectType objectID nodes) as (b & Hb & Hs); [done..|].
    rewrite (proj2 Hs) in Hb by exact Hex. exact Hb. }
  set (rest := relation' :: relations) in *.
  change (walk_path store ctx limit objectType objectID nodes (relation :: rest)) with
    (nextNodes ← next_hop store ctx limit relation ∅ nodes;
     if decide (nextNodes = ∅) then mret false
     else walk_path store ctx limit objectType objectID (map_range nextNodes).*2 rest).
  destruct (next_hop_complete relation nodes ∅) as (m & Hm & Hkey & _ & Hhop); [done..| |].
  { intros k n Hk. by rewrite lookup_empty in Hk. }
  apply Exists_exists in Hex as (node & Hnode & n & Hh & Hg).
  assert (m !! (Node_SubjectType n +:+ "|" +:+ Node_SubjectID n) = Some n) as Hl.
  { apply keyed_lookup; [done| |by eapply Hhop].
    destruct Hh as (r & (Hlive & _) & -> & _). by apply Hbar. }
  rewrite Hm; cbn. rewrite decide_False by (intros ->; by rewrite lookup_empty in Hl).
  destruct (next_hop_sound relation nodes ∅) as (m2 & Hm2 & Hsound); [done..|].
  rewrite Hm in Hm2. injection Hm2 as <-. apply IH.
  - apply Forall_forall. intros n2 Hin. apply list_elem_of_fmap in Hin as ([k2 n3] & -> & Hin%elem_of_map_range).
    apply Hsound in Hin as [Hin|(? & _ & Hh2)]; [by rewrite lookup_empty in Hin|by eapply hop_normal].
  - apply Exists_exists. exists n. split; [|done]. apply list_elem_of_fmap.
    eexists (_, n). split; [done|]. by apply elem_of_map_range.
Qed.
End scoped.
End semantics.

(** ** The evaluator's contract *)
Section contract.
Context `{MapRange} {T : Type} `{RelationshipStore T}.

Lemma evaluateReBACPathConditions_spec input conditions :
  (evaluateReBACPathConditions input conditions).1 = true ↔ Forall (predicate_holds input) conditions.
Proof.
  induction conditions as [|p l IH]; cbn; [done|]. rewrite Forall_cons, <-IH, <-evaluateABACPredicate_spec.
  destruct (evaluateABACPredicate input p) as [[] r]; cbn; [tauto|]. destruct (blank r); cbn; naive_solver.
Qed.

Definition path_normal (path : rebacRelationPath) : Prop :=
  Path_Relations path ≠ [] ∧ Forall relation_normal (Path_Relations path).

Lemma relation_normal_supported relation : isSupportedReBACRelation (canon relation) = true → relation_normal (canon relation).
Proof.
  unfold isSupportedReBACRelation, relation_normal. rewrite bool_decide_eq_true, canon_idemp.
  intros Hr. split_and!; [done| |done]. intros E. rewrite E in Hr. by apply (bool_decide_pack _) in Hr.
Qed.

Lemma normalizeReBACPath_normal path :
  Path_Relations (normalizeReBACPath path) ≠ [] → path_normal (normalizeReBACPath path).
Proof.
  unfold path_normal, normalizeReBACPath. destruct (forallb _ _) eqn:E; [|done].
  intros Hne. split; [done|]. cbn. rewrite forallb_forall in E. apply Forall_fmap, Forall_forall.
  intros r Hr. apply relation_normal_supported, E, list_elem_of_In, list_elem_of_fmap. by exists r.
Qed.

Lemma normalizeReBACPolicies_normal policies action policy :
  normalizeReBACPolicies policies !! action = Some policy →
  canon action = action ∧ action ≠ "" ∧ Rebac_AnyOf policy ≠ [] ∧ Forall path_normal (Rebac_AnyOf policy).
Proof.
  intros ((k & p) & _ & Hf)%collect_Some. unfold normalized_rebac_entry in Hf.
  repeat case_decide; simplify_eq/=. rewrite canon_idemp. split_and!; [done..|].
  apply Forall_forall. intros path [Hne Hin]%list_elem_of_filter.
  apply list_elem_of_fmap in Hin as (q & -> & _). by apply normalizeReBACPath_normal.
Qed.

(** The subject reaches the object along a path whose conditions hold. *)
Definition path_allows (store : T) (scope : Scope) (input : PolicyInput) (path : rebacRelationPath) : Prop :=
  Forall (predicate_holds input) (Path_AllOf path) ∧
  path_grants store scope (canon (Resource_Type (Input_Resource input)))
    (TrimSpace (Resource_ID (Input_Resource input))) (Path_Relations path)
    (mkRebacNode (canon (Subject_Type (Input_Subject input))) (TrimSpace (Subject_ID (Input_Subject input)))).

(** Subject and object are identified. *)
Definition identities_present (input : PolicyInput) : Prop :=
  canon (Subject_Type (Input_Subject input)) ≠ "" ∧ TrimSpace (Subject_ID (Input_Subject input)) ≠ "" ∧
  canon (Resource_Type (Input_Resource input)) ≠ "" ∧ TrimSpace (Resource_ID (Input_Resource input)) ≠ "".

Lemma evaluate_paths_spec store ctx limit scope input paths denyReason :
  RequireScope ctx = Ok scope → identities_present input → Forall path_normal paths →
  ∃ outcome reason,
    evaluate_paths store ctx limit input
      (mkRebacNode (canon (Subject_Type (Input_Subject input))) (TrimSpace (Subject_ID (Input_Subject input))))
      (canon (Resource_Type (Input_Resource input))) (TrimSpace (Resource_ID (Input_Resource input)))
      paths denyReason = Ok (outcome, reason) ∧
    (outcome = PolicyOutcomeAllow ∨ outcome = PolicyOutcomeDeny) ∧
    (outcome = PolicyOutcomeAllow → Exists (path_allows store scope input) paths) ∧
    (listings_complete store limit scope → types_unambiguous store scope →
     Exists (path_allows store scope input) paths → outcome = PolicyOutcomeAllow).
Proof.
  intros Hs (H1 & H2 & H3 & H4) Hp. revert denyReason.
  set (start := mkRebacNode _ _).
  assert (Forall node_normal [start]) as Hstart.
  { apply Forall_singleton. unfold node_normal; cbn. by rewrite canon_idemp, TrimSpace_idemp. }
  induction Hp as [|path paths [Hne Hrs] _ IH]; intros denyReason; cbn.
  { eexists _, _. split_and!; [done|by right|done|]. by intros _ _ ?%Exists_nil. }
  setoid_rewrite Exists_cons.
  pose proof (evaluateReBACPathConditions_spec input (Path_AllOf path)) as Hc.
  destruct (evaluateReBACPathConditions input (Path_AllOf path)) as [[] reason]; cbn in Hc.
  - destruct (walk_path_sound store ctx limit scope Hs (canon (Resource_Type (Input_Resource input)))
      (TrimSpace (Resource_ID (Input_Resource input))) (Path_Relations path) [start])
      as (b & Hb & Hsound); auto using canon_idemp, TrimSpace_idemp.
    unfold evaluateReBACPath. rewrite Hb; cbn. destruct b.
    + eexists _, _. split_and!; [done|by left| |done]. intros _. left. split; [by apply Hc|].
      specialize (Hsound eq_refl).
      rewrite Exists_cons, Exists_nil in Hsound. by destruct Hsound.
    + destruct (IH rebac_deny_reason) as (o & r & -> & Ho & Ha & Hcomp). exists o, r.
      split_and!; [done|done|by right; apply Ha|].
      intros Hl Ht [[_ Hg]|?]; [|by apply Hcomp].
      assert (walk_path store ctx limit (canon (Resource_Type (Input_Resource input)))
        (TrimSpace (Resource_ID (Input_Resource input))) [start] (Path_Relations path) = Ok true) as Ht'.
      { eapply walk_path_complete; eauto using canon_idemp, TrimSpace_idemp. }
      congruence.
  - destruct (IH (if blank reason then denyReason else reason)) as (o & r & -> & Ho & Ha & Hcomp).
    exists o, r. split_and!; [done|done|by right; apply Ha|].
    intros Hl Ht [[Hf _]|?]; [|by apply Hcomp]. by apply Hc in Hf.
Qed.

Lemma evaluate_paths_unscoped store ctx limit e input start objectType objectID paths denyReason outcome reason :
  RequireScope ctx = Err e → Forall path_normal paths →
  evaluate_paths store ctx limit input start objectType objectID paths denyReason = Ok (outcome, reason) →
  outcome = PolicyOutcomeDeny.
Proof.
  intros Hs Hp. revert denyReason. induction Hp as [|path paths [Hne _] _ IH]; intros denyReason; cbn.
  { by intros [= <- _]. }
  destruct (evaluateReBACPathConditions input (Path_AllOf path)) as [[] r]; [|apply IH].
  unfold evaluateReBACPath. destruct (Path_Relations path) as [|rel rels]; [done|].
  assert (∀ f, list_relationships store ctx f limit = Err (Wrap "list rebac relationships" e)) as Hl.
  { intros f. unfold list_relationships. by rewrite (rs_list_unscoped _ _ _ _ e). }
  destruct rels; cbn; by rewrite Hl.
Qed.

(** Why the evaluator allows, when it does. *)
Lemma rebacPolicyEvaluator_cases store policies limit ctx input :
  (∃ store' policy, store = Some store' ∧ canon (Input_Action input) ≠ "" ∧
     policies !! canon (Input_Action input) = Some policy ∧ Rebac_AnyOf policy ≠ [] ∧
     identities_present input ∧
     rebacPolicyEvaluator store policies limit ctx input =
       evaluate_paths store' ctx limit input
         (mkRebacNode (canon (Subject_Type (Input_Subject input))) (TrimSpace (Subject_ID (Input_Subject input))))
         (canon (Resource_Type (Input_Resource input))) (TrimSpace (Resource_ID (Input_Resource input)))
         (Rebac_AnyOf policy) rebac_deny_reason) ∨
  (∃ outcome reason, rebacPolicyEvaluator store policies limit ctx input = Ok (outcome, reason) ∧
     outcome ≠ PolicyOutcomeAllow).
Proof.
  unfold rebacPolicyEvaluator, identities_present.
  destruct store as [store|]; [|right; by eexists _, _].
  case_decide; [right; by eexists _, _|]. case_decide; [right; by eexists _, _|].
  destruct (policies !! _) as [policy|] eqn:E; [|right; by eexists _, _].
  case_decide; [right; by eexists _, _|]. case_decide as Hid; [right; by eexists _, _|].
  left. exists store, policy. split_and!; try done; intros Hx; apply Hid; tauto.
Qed.

(** ReBAC is sound: over any implementation of the store's contract, an
    allow means that the request carries a scope and that some path of the
    action's normalized policy has all its conditions satisfied and connects the
    subject to the resource by a chain of stored, unexpired relationships of that
    scope with exactly the path's relations, in order. *)
Theorem newReBACPolicyEvaluator_sound (store : option T) (policies : gmap string rebacActionPolicy)
    (ctx : Context) (input : PolicyInput) (reason : string)
    (Hallow : newReBACPolicyEvaluator store policies ctx input = Ok (PolicyOutcomeAllow, reason)) :
  ∃ s scope policy path,
    store = Some s ∧ RequireScope ctx = Ok scope ∧
    normalizeReBACPolicies policies !! canon (Input_Action input) = Some policy ∧
    path ∈ Rebac_AnyOf policy ∧ path_allows s scope input path.
Proof.
  unfold newReBACPolicyEvaluator in Hallow.
  destruct (rebacPolicyEvaluator_cases store (normalizeReBACPolicies policies) rebacDefaultLookupLimit ctx input)
    as [(s & policy & -> & _ & Hp & _ & Hid & E)|(o & r & E & Hne)]; rewrite E in Hallow; [|congruence].
  destruct (normalizeReBACPolicies_normal _ _ _ Hp) as (_ & _ & _ & Hpaths).
  destruct (RequireScope ctx) as [scope|e] eqn:Hs.
  - edestruct (evaluate_paths_spec s ctx) as (o & r & E2 & _ & Ha & _); [done..|].
    rewrite E2 in Hallow. injection Hallow as -> ->.
    destruct (proj1 (Exists_exists _ _) (Ha eq_refl)) as (path & ? & ?). by exists s, scope, policy, path.
  - eapply evaluate_paths_unscoped in Hallow; [done|exact Hs|done].
Qed.

(** ReBAC is complete when nothing is cut: with a scope, both identities
    present, at most 200 live tuples per lookup and object types free of the
    separator used in node keys, the evaluator never fails, and it allows exactly
    when some path of the action's policy allows. *)
Theorem newReBACPolicyEvaluator_complete (store : T) (policies : gmap string rebacActionPolicy)
    (ctx : Context) (input : PolicyInput) (scope : Scope) (policy : rebacActionPolicy)
    (Hscope : RequireScope ctx = Ok scope)
    (Hpolicy : normalizeReBACPolicies policies !! canon (Input_Action input) = Some policy)
    (Hid : identities_present input)
    (Hlimit : listings_complete store rebacDefaultLookupLimit scope)
    (Htypes : types_unambiguous store scope) :
  ∃ outcome reason,
    newReBACPolicyEvaluator (Some store) policies ctx input = Ok (outcome, reason) ∧
    (outcome = PolicyOutcomeAllow ∨ outcome = PolicyOutcomeDeny) ∧
    (outcome = PolicyOutcomeAllow ↔ ∃ path, path ∈ Rebac_AnyOf policy ∧ path_allows store scope input path).
Proof.
  unfold newReBACPolicyEvaluator.
  destruct (normalizeReBACPolicies_normal _ _ _ Hpolicy) as (_ & Hne & Hany & Hpaths).
  destruct (evaluate_paths_spec store ctx rebacDefaultLookupLimit scope input (Rebac_AnyOf policy)
    rebac_deny_reason) as (o & r & E & Ho & Ha & Hc); [done..|].
  exists o, r. split_and!; [|done|by rewrite <-Exists_exists; split; auto].
  unfold rebacPolicyEvaluator. rewrite decide_False by (intros Hx; by rewrite Hx, lookup_empty in Hpolicy).
  rewrite decide_False by done. rewrite Hpolicy. rewrite decide_False by done.
  destruct Hid as (? & ? & ? & ?). rewrite decide_False by tauto. exact E.
Qed.
End contract.

(** ** The in-memory tables implement the contract

    The store a request sees: the tables and the time of the lookup. *)
#[export] Instance memory_relationship_store `{MapRange, SortSlice} : RelationshipStore (AuthzState * Z).
Proof.
  refine {|
    rs_list := λ store ctx f limit, ListAuthzRelationships ctx store.2 f limit store.1;
    rs_live := λ store scope r, relationship_live store.2 store.1 scope r;
    rs_matching := λ store scope f, matching_relationships scope store.2 f store.1;
  |}.
  - intros [s now] scope f r He _. by apply elem_of_matching_relationships.
  - intros [s now] ctx f limit scope Hs Hf He. by apply ListAuthzRelationships_Ok.
  - intros [s now] ctx f limit e. apply ListAuthzRelationships_unscoped.
Defined.

(** ** Normalization is idempotent *)
Lemma normalizeReBACPath_idemp path :
  normalizeReBACPath (normalizeReBACPath path) = normalizeReBACPath path.
Proof.
  unfold normalizeReBACPath.
  destruct (forallb isSupportedReBACRelation (canon <$> Path_Relations path)) eqn:E; [|done].
  cbn [Path_Relations Path_AllOf].
  assert (canon <$> (canon <$> Path_Relations path) = canon <$> Path_Relations path) as ->.
  { rewrite <-list_fmap_compose. apply list_fmap_ext. intros; apply canon_idemp. }
  rewrite E. f_equal. rewrite <-list_fmap_compose. apply list_fmap_ext. intros; apply normalizeABACPredicate_idemp.
Qed.

Lemma normalize_paths_idemp paths : normalize_paths (normalize_paths paths) = normalize_paths paths.
Proof.
  unfold normalize_paths. induction paths as [|path paths IH]; [done|]. rewrite !fmap_cons, !filter_cons.
  case_decide; [|done]. by rewrite fmap_cons, filter_cons, normalizeReBACPath_idemp, decide_True, IH.
Qed.

Lemma normalizeReBACPolicies_lookup `{MapRange} policies action policy :
  normalizeReBACPolicies policies !! action = Some policy →
  normalized_rebac_entry (action, policy) = Some (action, policy).
Proof.
  intros ((k & p) & _ & Hf)%collect_Some. unfold normalized_rebac_entry in *. cbn in *.
  case_decide; [done|]. case_decide; [done|]. injection Hf as <- <-. cbn.
  by rewrite canon_idemp, normalize_paths_idemp, !decide_False.
Qed.

(** Normalizing the ABAC and ReBAC tables is idempotent: what an evaluator
    is built from is a fixed point of the normalizer, whatever the order in which
    the maps are visited. *)
Theorem normalize_tables_idempotent `{MapRange} (predicate : abacPredicate)
    (policies : gmap string abacActionPolicy) (paths : gmap string rebacActionPolicy) :
  normalizeABACPredicate (normalizeABACPredicate predicate) = normalizeABACPredicate predicate ∧
  normalizeABACPolicies (normalizeABACPolicies policies) = normalizeABACPolicies policies ∧
  normalizeReBACPolicies (normalizeReBACPolicies paths) = normalizeReBACPolicies paths.
Proof.
  split_and!; [apply normalizeABACPredicate_idemp| |]; apply collect_range_id.
  - intros k policy (Hk & Hne & raw & ->)%normalizeABACPolicies_lookup.
    apply normalized_abac_entry_Some; cbn. by rewrite normalizeABACPolicy_idemp.
  - intros k policy. apply normalizeReBACPolicies_lookup.
Qed.

(** ** Witnesses *)
Definition sample_tuples : AuthzState :=
  let scope := mkScope "acme" "prod" in
  let r1 := mkRelationship "acme" "prod" "user" "u1" "member_of" "team" "t1" "manual" None 1 1 in
  let r2 := mkRelationship "acme" "prod" "team" "t1" "owns" "doc" "d1" "manual" (Some 100) 1 1 in
  with_authzRels {[ relationship_key scope r1 := r1; relationship_key scope r2 := r2 ]} empty_authz_state.
Definition sample_paths : gmap string rebacActionPolicy :=
  {[ "Doc.Read " := mkRebacPolicy [mkRebacPath ["Member_Of"; "owns"] []; mkRebacPath ["friend_of"] []] ]}.
Definition sample_doc_input : PolicyInput :=
  mkPolicyInput (mkPolicySubject "User" "u1" "acme" "prod" [] [] ∅) "doc.read"
    (mkPolicyResource "doc" "d1" "acme" "prod" ∅) (mkPolicyContext "" "" 0 ∅).

#[local] Existing Instance canonical_range.
#[local] Existing Instance insertion_sort.

Lemma newReBACPolicyEvaluator_sound_witness :
  ∃ s scope policy path,
    Some (sample_tuples, 50) = Some s ∧ RequireScope sample_ctx = Ok scope ∧
    normalizeReBACPolicies sample_paths !! "doc.read" = Some policy ∧
    path ∈ Rebac_AnyOf policy ∧ path_allows s scope sample_doc_input path.
Proof.
  apply (newReBACPolicyEvaluator_sound (Some (sample_tuples, 50)) sample_paths sample_ctx sample_doc_input
    "rebac relationship grants action").
  by vm_compute.
Defined.

Lemma length_matching_relationships scope now f s :
  (length (matching_relationships scope now f s) ≤ size (authzRels s))%nat.
Proof.
  unfold matching_relationships. rewrite sort_slice_perm.
  transitivity (length (map_range (authzRels s)).*2); [apply length_filter|].
  by rewrite length_fmap, map_range_perm, length_map_to_list.
Qed.

Lemma newReBACPolicyEvaluator_complete_witness :
  ∃ outcome reason,
    newReBACPolicyEvaluator (Some (sample_tuples, 50)) sample_paths sample_ctx sample_doc_input =
      Ok (outcome, reason) ∧
    (outcome = PolicyOutcomeAllow ∨ outcome = PolicyOutcomeDeny) ∧
    (outcome = PolicyOutcomeAllow ↔
      ∃ path, path ∈ [mkRebacPath ["member_of"; "owns"] []] ∧
        path_allows (sample_tuples, 50) (mkScope "acme" "prod") sample_doc_input path).
Proof.
  apply (newReBACPolicyEvaluator_complete (sample_tuples, 50) sample_paths sample_ctx sample_doc_input
    (mkScope "acme" "prod") (mkRebacPolicy [mkRebacPath ["member_of"; "owns"] []])).
  - by vm_compute.
  - by vm_compute.
  - by apply (bool_decide_unpack _); vm_compute.
  - intros f. pose proof (length_matching_relationships (mkScope "acme" "prod") 50 f sample_tuples) as Hlen.
    assert (size (authzRels sample_tuples) = 2%nat) as E by by vm_compute. rewrite E in Hlen.
    unfold rebacDefaultLookupLimit, rs_matching; cbn in *. lia.
  - intros r [[k Hk] _]. revert k r Hk.
    change (map_Forall (λ _ r, no_byte "|" (canon (Rel_ObjectType r))) (authzRels sample_tuples)).
    by apply (bool_decide_unpack _); vm_compute.
Defined.
