(* ===== verification/PolicyBundle.v ===== *)
(** * Route policy bundles (internal/api/authz_policy_bundle_runtime.go)

    Validation, normalization and compilation of a policy bundle into the
    tables the engine is built from, and the compatibility overlay applied to
    persisted versions.  Decoding the stored JSON is a parameter. *)
From S2P Require Import Prelude GoStrings GoCollections Scope.
From S2P Require Import PolicyEngine PolicyEvaluators AuthzRecords AuthzStore Rebac.

Definition routeAuthorizationPolicyBundleSchemaV1 : string := "identrail.authz.route_policy_bundle.v1".
Definition defaultCentralPolicySetID : string := "central_authorization".
Definition errInvalidAuthzPolicyVersionBundle : error := Sentinel "invalid authz policy version bundle".

Record routePolicyDefinition := mkRouteDef {
  Def_Method : string;
  Def_Path : string;
  Def_Action : string;
  Def_ResourceType : string;
  Def_ResourceIDParam : string;
}.

Record routePolicy := mkRoutePolicy {
  Route_Action : string;
  Route_ResourceType : string;
  Route_ResourceIDParam : string;
}.

Abbreviation routePolicyRegistry := (gmap string routePolicy).

Record routeAuthorizationPolicyBundle := mkBundle {
  Bundle_SchemaVersion : string;
  Bundle_RoutePolicies : list routePolicyDefinition;
  Bundle_RBACActionRole : gmap string (list string);
  Bundle_ABACPolicies : gmap string abacActionPolicy;
  Bundle_ReBACPolicies : gmap string rebacActionPolicy;
}.

Record compiledRouteAuthorizationPolicy := mkCompiled {
  RouteRegistry : routePolicyRegistry;
  RBACActionRole : gmap string (list string);
  ABACPolicies : gmap string abacActionPolicy;
  ReBACPolicies : gmap string rebacActionPolicy;
}.

#[export] Instance routePolicy_eq_dec : EqDecision routePolicy.
Proof. solve_decision. Defined.
#[export] Instance compiledRouteAuthorizationPolicy_eq_dec : EqDecision compiledRouteAuthorizationPolicy.
Proof. solve_decision. Defined.

Definition emptyCompiledRouteAuthorizationPolicy : compiledRouteAuthorizationPolicy := mkCompiled ∅ ∅ ∅ ∅.

(** [json.Unmarshal] into a bundle. *)
Class BundleDecoder := { json_Unmarshal_bundle : string → result routeAuthorizationPolicyBundle }.

(** ** Routes *)
Definition validHTTPMethods : list string := ["GET"; "HEAD"; "POST"; "PUT"; "PATCH"; "DELETE"; "OPTIONS"].

Definition routePolicyKey (method fullPath : string) : string :=
  ToUpper (TrimSpace method) +:+ " " +:+ TrimSpace fullPath.

Definition registry_lookup (r : routePolicyRegistry) (method fullPath : string) : option routePolicy :=
  r !! routePolicyKey method fullPath.

Definition normalizeRoutePolicyDefinition (definition : routePolicyDefinition) : result routePolicyDefinition :=
  let method := ToUpper (TrimSpace (Def_Method definition)) in
  _ ← guard_err (bool_decide (method ≠ "")) (Errorf "route policy method is required");
  _ ← guard_err (bool_decide (method ∈ validHTTPMethods))
        (Errorf ("unsupported route policy method " +:+ Quote method));
  let path := TrimSpace (Def_Path definition) in
  _ ← guard_err (bool_decide (path ≠ "") && HasPrefix path "/") (Errorf "route policy path must be absolute");
  _ ← guard_err (HasPrefix path "/v1/") (Errorf "route policy path must target /v1 routes");
  let action := canon (Def_Action definition) in
  _ ← guard_err (bool_decide (action ≠ "")) (Errorf "route policy action is required");
  let resourceType := canon (Def_ResourceType definition) in
  _ ← guard_err (bool_decide (resourceType ≠ "")) (Errorf "route policy resource_type is required");
  let resourceIDParam := TrimSpace (Def_ResourceIDParam definition) in
  _ ← guard_err (bool_decide (resourceIDParam = "") || Contains path (":" +:+ resourceIDParam))
        (Errorf ("route policy resource_id_param " +:+ Quote resourceIDParam +:+
                 " is not present in path " +:+ Quote path));
  mret (mkRouteDef method path action resourceType resourceIDParam).

(** A set of actions ([map[string]struct{}]), ranged over below. *)
Abbreviation ActionSet := (gmap string unit).

Fixpoint compile_routes (definitions : list routePolicyDefinition) (registry : routePolicyRegistry)
    (actions : ActionSet) : result (routePolicyRegistry * ActionSet) :=
  match definitions with
  | [] => mret (registry, actions)
  | definition :: definitions =>
      normalized ← normalizeRoutePolicyDefinition definition;
      let key := routePolicyKey (Def_Method normalized) (Def_Path normalized) in
      _ ← guard_err (bool_decide (registry !! key = None))
            (Errorf ("duplicate route policy for " +:+ Def_Method normalized +:+ " " +:+ Def_Path normalized));
      compile_routes definitions
        (<[key := mkRoutePolicy (Def_Action normalized) (Def_ResourceType normalized)
                    (Def_ResourceIDParam normalized)]> registry)
        (<[Def_Action normalized := tt]> actions)
  end.

Definition compileRoutePolicies (definitions : list routePolicyDefinition)
    : result (routePolicyRegistry * ActionSet) :=
  _ ← guard_err (bool_decide (definitions ≠ [])) (Errorf "at least one route policy is required");
  compile_routes definitions ∅ ∅.

(** ** Role grants *)

(** The checks on one entry. *)
Definition check_grant (routeActions : ActionSet) (grant : string * list string) : result unit :=
  let normalizedAction := canon grant.1 in
  _ ← guard_err (bool_decide (normalizedAction ≠ "")) (Errorf "rbac action key is required");
  _ ← guard_err (bool_decide (is_Some (routeActions !! normalizedAction)))
        (Errorf ("rbac action " +:+ Quote normalizedAction +:+ " is not referenced by any route policy"));
  guard_err (bool_decide (nonempty_map canon grant.2 ≠ []))
    (Errorf ("rbac action " +:+ Quote normalizedAction +:+ " must include at least one role")).

(** The entry it writes: the set of normalized roles, sorted. *)
Definition compiled_grant (grant : string * list string) : option (string * list string) :=
  Some (canon grant.1, SortStrings (unique (nonempty_map canon grant.2))).

Definition compileRBACRoleGrants `{MapRange} (grants : gmap string (list string)) (routeActions : ActionSet)
    : result (gmap string (list string)) :=
  _ ← guard_err (bool_decide (grants ≠ ∅)) (Errorf "rbac_action_roles must not be empty");
  _ ← forM_ (check_grant routeActions) (map_range grants);
  let normalized := collect compiled_grant (map_range grants) in
  _ ← forM_ (λ entry, guard_err (bool_decide (is_Some (normalized !! entry.1)))
        (Errorf ("rbac action " +:+ Quote entry.1 +:+ " is required by route policy but missing")))
        (map_range routeActions);
  mret normalized.

(** ** Attribute policies *)
Definition valid_source (source : string) : bool :=
  bool_decide (source ∈ [abacAttributeSourceSubject; abacAttributeSourceResource; abacAttributeSourceContext]).

Definition validateABACPredicate (p : abacPredicate) : result unit :=
  let source := canon (Predicate_Source p) in
  _ ← guard_err (valid_source source) (Errorf ("invalid source " +:+ Quote (Predicate_Source p)));
  _ ← guard_err (negb (blank (Predicate_Key p))) (Errorf "key is required");
  let operator := canon (Predicate_Operator p) in
  let operator := if decide (operator = "") then abacOperatorEquals else operator in
  if decide (operator = abacOperatorEquals) then
    guard_err (negb (blank (Predicate_Value p))) (Errorf "equals operator requires value")
  else if decide (operator = abacOperatorOneOf) then
    guard_err (existsb (λ value, negb (blank value)) (Predicate_Values p)) (Errorf "one_of operator requires values")
  else if decide (operator = abacOperatorEqualsAttribute) then
    _ ← guard_err (valid_source (canon (Predicate_CompareSource p)))
          (Errorf "equals_attribute requires valid compare_source");
    guard_err (negb (blank (Predicate_CompareKey p))) (Errorf "equals_attribute requires compare_key")
  else Err (Errorf ("unsupported operator " +:+ Quote (Predicate_Operator p))).

(** [fmt.Errorf("%s: %w", path, err)] when the step fails. *)
Definition wrap_at (path : string) (r : result unit) : result unit :=
  match r with Ok u => Ok u | Err err => Err (Wrap path err) end.
Definition index (i : nat) : string := "[" +:+ Itoa (Z.of_nat i) +:+ "]".

Definition validateABACActionPolicy (policy : abacActionPolicy) (path : string) : result unit :=
  _ ← forM_i (λ clauseIndex clause,
        forM_i (λ predicateIndex predicate,
          wrap_at (path +:+ ".any_of" +:+ index clauseIndex +:+ ".all_of" +:+ index predicateIndex)
            (validateABACPredicate predicate)) 0 clause) 0 (Abac_AnyOf policy);
  let normalizedOnNoMatch := canon (Abac_OnNoMatch policy) in
  guard_err (bool_decide (normalizedOnNoMatch = "") ||
             bool_decide (normalizedOnNoMatch ∈ [PolicyOutcomeNoOpinion; PolicyOutcomeAllow; PolicyOutcomeDeny]))
    (Errorf (path +:+ ".on_no_match: invalid outcome " +:+ Quote (Abac_OnNoMatch policy))).

(** The checks on the key of one entry of a policy table. *)
Definition check_policy_action (kind : string) (routeActions : ActionSet) (action : string) : result unit :=
  let normalizedAction := canon action in
  _ ← guard_err (bool_decide (normalizedAction ≠ "")) (Errorf (kind +:+ " policy action key is required"));
  guard_err (bool_decide (is_Some (routeActions !! normalizedAction)))
    (Errorf (kind +:+ " policy action " +:+ Quote normalizedAction +:+ " is not referenced by any route policy")).

Definition compileABACPolicies `{MapRange} (policies : gmap string abacActionPolicy) (routeActions : ActionSet)
    : result (gmap string abacActionPolicy) :=
  _ ← guard_err (bool_decide (policies ≠ ∅)) (Errorf "abac_policies must not be empty");
  _ ← forM_ (λ entry, _ ← check_policy_action "abac" routeActions entry.1;
               validateABACActionPolicy entry.2 ("abac_policies." +:+ canon entry.1)) (map_range policies);
  let normalized := normalizeABACPolicies policies in
  _ ← forM_ (λ entry, guard_err (bool_decide (is_Some (normalized !! entry.1)))
        (Errorf ("abac policy for action " +:+ Quote entry.1 +:+ " is required"))) (map_range routeActions);
  mret normalized.

(** ** Relationship policies *)
Definition validateReBACActionPolicy (policy : rebacActionPolicy) (path : string) : result unit :=
  forM_i (λ pathIndex relationPath,
    let at_path := path +:+ ".any_of" +:+ index pathIndex in
    _ ← guard_err (bool_decide (Path_Relations relationPath ≠ [])) (Errorf (at_path +:+ ": relations are required"));
    _ ← forM_i (λ relationIndex relation,
          guard_err (isSupportedReBACRelation (canon relation))
            (Errorf (at_path +:+ ".relations" +:+ index relationIndex +:+ ": unsupported relation " +:+
                     Quote relation))) 0 (Path_Relations relationPath);
    forM_i (λ conditionIndex condition,
      wrap_at (at_path +:+ ".all_of" +:+ index conditionIndex) (validateABACPredicate condition)) 0
      (Path_AllOf relationPath)) 0 (Rebac_AnyOf policy).

Definition compileReBACPolicies `{MapRange} (policies : gmap string rebacActionPolicy) (routeActions : ActionSet)
    : result (gmap string rebacActionPolicy) :=
  if decide (policies = ∅) then mret ∅
  else
    _ ← forM_ (λ entry, _ ← check_policy_action "rebac" routeActions entry.1;
                 validateReBACActionPolicy entry.2 ("rebac_policies." +:+ canon entry.1)) (map_range policies);
    mret (normalizeReBACPolicies policies).

(** ** Compilation *)
Definition compileRouteAuthorizationPolicyBundle `{MapRange} (bundle : routeAuthorizationPolicyBundle)
    : result compiledRouteAuthorizationPolicy :=
  _ ← guard_err (bool_decide (TrimSpace (Bundle_SchemaVersion bundle) = routeAuthorizationPolicyBundleSchemaV1))
        (Errorf ("unsupported policy bundle schema version " +:+ Quote (Bundle_SchemaVersion bundle)));
  compiled ← compileRoutePolicies (Bundle_RoutePolicies bundle);
  let '(registry, actions) := compiled in
  rbac ← compileRBACRoleGrants (Bundle_RBACActionRole bundle) actions;
  abac ← compileABACPolicies (Bundle_ABACPolicies bundle) actions;
  rebac ← compileReBACPolicies (Bundle_ReBACPolicies bundle) actions;
  mret (mkCompiled registry rbac abac rebac).

Definition compileRouteAuthorizationPolicyBundleJSON `{MapRange, BundleDecoder} (raw : string)
    : result compiledRouteAuthorizationPolicy :=
  let trimmed := TrimSpace raw in
  _ ← guard_err (bool_decide (trimmed ≠ "")) (Errorf "policy bundle is empty");
  match json_Unmarshal_bundle trimmed with
  | Err err => Err (Wrap "decode policy bundle json" err)
  | Ok bundle => compileRouteAuthorizationPolicyBundle bundle
  end.

Definition newCentralPolicyEngineFromCompiled `{MapRange} {T} `{RelationshipStore T} (store : option T)
    (compiled : compiledRouteAuthorizationPolicy) : PolicyEngine :=
  NewPolicyEngine
    (Some tenantIsolationEvaluator)
    (Some (newRBACRequirementEvaluator (RBACActionRole compiled)))
    (Some (newABACPolicyEvaluator (ABACPolicies compiled)))
    (Some (newReBACPolicyEvaluator store (ReBACPolicies compiled))).

(** ** Upgrading and overlaying persisted bundles *)
Definition scopeRead : string := "read".
Definition scopeWrite : string := "write".
Definition scopeAdmin : string := "admin".
Definition policyActionFindingsRead : string := "findings.read".
Definition policyActionFindingsTriage : string := "findings.triage".
Definition policyActionGraphRead : string := "graph.read".

Definition sameRoleSet (l r : list string) : bool := bool_decide (SortStrings l = SortStrings r).

Definition legacyGrants : gmap string (list string) :=
  {[ policyActionFindingsRead := [scopeRead; scopeWrite; scopeAdmin];
     policyActionFindingsTriage := [scopeWrite; scopeAdmin];
     policyActionGraphRead := [scopeRead; scopeWrite; scopeAdmin] ]}.

(** The loop body over one legacy grant. *)
Definition upgrade_grant (fallback : compiledRouteAuthorizationPolicy)
    (roles : gmap string (list string)) (legacy : string * list string) : gmap string (list string) :=
  match roles !! legacy.1, RBACActionRole fallback !! legacy.1 with
  | Some currentRoles, Some fallbackRoles =>
      if sameRoleSet currentRoles legacy.2 then <[legacy.1 := fallbackRoles]> roles else roles
  | _, _ => roles
  end.

Definition upgradeLegacyDefaultRoleGrants `{MapRange} (base fallback : compiledRouteAuthorizationPolicy)
    : compiledRouteAuthorizationPolicy :=
  mkCompiled (RouteRegistry base)
    (foldl (upgrade_grant fallback) (RBACActionRole base) (map_range legacyGrants))
    (ABACPolicies base) (ReBACPolicies base).

(** Add an entry unless the key is present; a missing fallback entry reads as
    the zero value. *)
Definition add_missing {A} (zero : A) (action : string) (fallback m : gmap string A) : gmap string A :=
  match m !! action with
  | Some _ => m
  | None => <[action := default zero (fallback !! action)]> m
  end.

Definition overlay_route (fallback base : compiledRouteAuthorizationPolicy) (definition : routePolicyDefinition)
    : compiledRouteAuthorizationPolicy :=
  match normalizeRoutePolicyDefinition definition with
  | Err _ => base
  | Ok normalized =>
      let key := routePolicyKey (Def_Method normalized) (Def_Path normalized) in
      match RouteRegistry base !! key, RouteRegistry fallback !! key with
      | None, Some fallbackPolicy =>
          let action := Route_Action fallbackPolicy in
          mkCompiled (<[key := fallbackPolicy]> (RouteRegistry base))
            (add_missing [] action (RBACActionRole fallback) (RBACActionRole base))
            (add_missing (mkAbacActionPolicy [] "") action (ABACPolicies fallback) (ABACPolicies base))
            (add_missing (mkRebacPolicy []) action (ReBACPolicies fallback) (ReBACPolicies base))
      | _, _ => base
      end
  end.

Definition overlayRouteAuthorizationPolicyCompatibility (base fallback : compiledRouteAuthorizationPolicy)
    (definitions : list routePolicyDefinition) : compiledRouteAuthorizationPolicy :=
  foldl (overlay_route fallback) base definitions.

(** ** Well-formed compiled policies *)
Record compiled_wf (c : compiledRouteAuthorizationPolicy) : Prop := {
  cw_routes : ∀ k p, RouteRegistry c !! k = Some p →
    canon (Route_Action p) = Route_Action p ∧ Route_Action p ≠ "" ∧ is_Some (RBACActionRole c !! Route_Action p);
  cw_rbac : ∀ a roles, RBACActionRole c !! a = Some roles →
    canon a = a ∧ a ≠ "" ∧ roles ≠ [] ∧ Forall (λ r, canon r = r ∧ r ≠ "") roles ∧
    ∃ k p, RouteRegistry c !! k = Some p ∧ Route_Action p = a;
  cw_abac : ∀ a, is_Some (ABACPolicies c !! a) ↔ is_Some (RBACActionRole c !! a);
  cw_rebac : ∀ a, is_Some (ReBACPolicies c !! a) → is_Some (RBACActionRole c !! a);
}.

Lemma normalizeRoutePolicyDefinition_Ok d n :
  normalizeRoutePolicyDefinition d = Ok n →
  canon (Def_Action n) = Def_Action n ∧ Def_Action n ≠ "" ∧ Def_Method n ∈ validHTTPMethods ∧
  HasPrefix (Def_Path n) "/v1/" = true.
Proof.
  unfold normalizeRoutePolicyDefinition. intros Hn. inv_ok. boolify. cbn. by rewrite canon_idemp.
Qed.

(** The registry and the action set grow together. *)
Definition routes_ok (registry : routePolicyRegistry) (actions : ActionSet) : Prop :=
  (∀ k p, registry !! k = Some p →
     canon (Route_Action p) = Route_Action p ∧ Route_Action p ≠ "" ∧ is_Some (actions !! Route_Action p)) ∧
  (∀ a, is_Some (actions !! a) → ∃ k p, registry !! k = Some p ∧ Route_Action p = a).

Lemma compile_routes_ok definitions registry actions registry' actions' :
  routes_ok registry actions →
  compile_routes definitions registry actions = Ok (registry', actions') → routes_ok registry' actions'.
Proof.
  revert registry actions. induction definitions as [|d definitions IH]; intros registry actions Hok Hc; cbn in Hc.
  { by injection Hc as <- <-. }
  open_bind Hc n Hn. open_bind Hc [] Hdup. apply guard_err_Ok, bool_decide_eq_true in Hdup.
  apply normalizeRoutePolicyDefinition_Ok in Hn as (Hcan & Hne & _).
  eapply IH; [|exact Hc]. destruct Hok as [Hk Ha]. split.
  - intros k p [[<- <-]|[_ Hp]]%lookup_insert_Some; cbn.
    + split_and!; [done..|]. apply lookup_insert_is_Some. by left.
    + destruct (Hk k p Hp) as (? & ? & ?). split_and!; auto using is_Some_insert.
  - intros a [<-|[_ Hx]]%lookup_insert_is_Some.
    + eexists _, _. split; [apply lookup_insert_eq|done].
    + destruct (Ha a Hx) as (k & p & Hp & <-). exists k, p. split; [|done].
      rewrite lookup_insert_ne; [done|]. intros <-. by rewrite Hdup in Hp.
Qed.

Lemma compileRoutePolicies_ok definitions registry actions :
  compileRoutePolicies definitions = Ok (registry, actions) → routes_ok registry actions.
Proof.
  unfold compileRoutePolicies. intros Hc. open_bind Hc [] _. eapply compile_routes_ok; [|exact Hc].
  split; [intros k p|intros a [? Ha]]; by rewrite lookup_empty in *.
Qed.

Section compile.
Context `{MapRange}.
Implicit Types (actions : ActionSet).

Lemma check_grant_Ok actions grant :
  check_grant actions grant = Ok tt ↔
  canon grant.1 ≠ "" ∧ is_Some (actions !! canon grant.1) ∧ nonempty_map canon grant.2 ≠ [].
Proof.
  unfold check_grant. rewrite bind_Ok. split.
  - intros (? & ?%guard_err_Ok & Hr). inv_ok. by boolify.
  - intros (? & ? & ?). exists tt. rewrite !bool_decide_eq_true_2 by done. by cbn.
Qed.

Lemma compiled_roles_normal l :
  nonempty_map canon l ≠ [] →
  let roles := SortStrings (unique (nonempty_map canon l)) in
  roles ≠ [] ∧ Forall (λ r, canon r = r ∧ r ≠ "") roles.
Proof.
  intros Hne roles. split.
  - intros E. apply Hne. destruct (nonempty_map canon l) as [|x k] eqn:F; [done|]. exfalso.
    assert (x ∈ roles) as Hx; [|rewrite E in Hx; by apply not_elem_of_nil in Hx].
    unfold roles. rewrite SortStrings_perm, elem_of_unique. left.
  - unfold roles. rewrite SortStrings_perm. apply Forall_forall. intros r Hr. rewrite elem_of_unique in Hr.
    revert r Hr. apply Forall_forall, nonempty_map_Forall, canon_idemp.
Qed.

(** All checks of a loop over a map passed. *)
Lemma forM_range_Ok {A} (f : string * A → result unit) (m : gmap string A) :
  forM_ f (map_range m) = Ok tt ↔ ∀ k x, m !! k = Some x → f (k, x) = Ok tt.
Proof.
  rewrite forM_Ok, Forall_forall. split.
  - intros Hf k x Hk. apply Hf. by apply elem_of_map_range.
  - intros Hf [k x] Hk%elem_of_map_range. by apply Hf.
Qed.

Lemma compileRBACRoleGrants_Ok grants actions rbac :
  compileRBACRoleGrants grants actions = Ok rbac →
  (∀ a, is_Some (rbac !! a) ↔ is_Some (actions !! a)) ∧
  (∀ a roles, rbac !! a = Some roles →
     canon a = a ∧ a ≠ "" ∧ roles ≠ [] ∧ Forall (λ r, canon r = r ∧ r ≠ "") roles).
Proof.
  unfold compileRBACRoleGrants. intros Hc. open_bind Hc [] _.
  open_bind Hc [] Hchk. rewrite forM_range_Ok in Hchk.
  open_bind Hc [] Hall. rewrite forM_range_Ok in Hall. injection Hc as <-.
  assert (∀ a roles, collect compiled_grant (map_range grants) !! a = Some roles →
    is_Some (actions !! a) ∧ canon a = a ∧ a ≠ "" ∧ roles ≠ [] ∧ Forall (λ r, canon r = r ∧ r ≠ "") roles) as Hin.
  { intros a roles ([k l] & Hk%elem_of_map_range & Hf)%collect_Some.
    apply Hchk, check_grant_Ok in Hk as (? & ? & Hne). injection Hf as <- <-. cbn in *.
    rewrite canon_idemp. destruct (compiled_roles_normal l Hne). done. }
  split; [|intros a roles Ha; by apply Hin]. intros a. split.
  - intros [roles Ha]. by apply Hin in Ha as [? _].
  - intros [u Ha]. specialize (Hall a u Ha). by apply guard_err_Ok, bool_decide_eq_true in Hall.
Qed.

Lemma check_policy_action_Ok kind actions a :
  check_policy_action kind actions a = Ok tt → canon a ≠ "" ∧ is_Some (actions !! canon a).
Proof.
  unfold check_policy_action. intros Hc. open_bind Hc [] Hne.
  apply guard_err_Ok in Hc, Hne. by boolify.
Qed.

Lemma compileABACPolicies_Ok policies actions abac :
  compileABACPolicies policies actions = Ok abac → ∀ a, is_Some (abac !! a) ↔ is_Some (actions !! a).
Proof.
  unfold compileABACPolicies. intros Hc. open_bind Hc [] _.
  open_bind Hc [] Hchk. rewrite forM_range_Ok in Hchk.
  open_bind Hc [] Hall. rewrite forM_range_Ok in Hall. injection Hc as <-. intros a. split.
  - intros [policy ((k & raw) & Hk%elem_of_map_range & (-> & _ & _)%normalized_abac_entry_Some)%collect_Some].
    apply Hchk in Hk. open_bind Hk [] Hk'. by apply check_policy_action_Ok in Hk' as [_ ?].
  - intros [u Ha]. specialize (Hall a u Ha). by apply guard_err_Ok, bool_decide_eq_true in Hall.
Qed.

Lemma compileReBACPolicies_Ok policies actions rebac :
  compileReBACPolicies policies actions = Ok rebac → ∀ a, is_Some (rebac !! a) → is_Some (actions !! a).
Proof.
  unfold compileReBACPolicies. case_decide; intros Hc a Ha.
  { injection Hc as <-. rewrite lookup_empty in Ha. by destruct Ha. }
  open_bind Hc [] Hchk. rewrite forM_range_Ok in Hchk. injection Hc as <-.
  destruct Ha as [policy ((k & raw) & Hk%elem_of_map_range & Hf)%collect_Some].
  apply Hchk in Hk. open_bind Hk [] Hk'. apply check_policy_action_Ok in Hk' as [_ ?].
  unfold normalized_rebac_entry in Hf. cbn in *. repeat case_decide; by simplify_eq.
Qed.

Lemma compile_wf bundle c : compileRouteAuthorizationPolicyBundle bundle = Ok c → compiled_wf c.
Proof.
  unfold compileRouteAuthorizationPolicyBundle. intros Hc. open_bind Hc [] _.
  open_bind Hc [registry actions] Hroutes. apply compileRoutePolicies_ok in Hroutes as [Hr Ha].
  open_bind Hc rbac Hrbac. apply compileRBACRoleGrants_Ok in Hrbac as [Hdom Hroles].
  open_bind Hc abac Habac. pose proof (compileABACPolicies_Ok _ _ _ Habac) as Hab.
  open_bind Hc rebac Hrebac. pose proof (compileReBACPolicies_Ok _ _ _ Hrebac) as Hre.
  injection Hc as <-. split; cbn.
  - intros k p Hp. rewrite Hdom. by apply (Hr k p).
  - intros a roles Hl. destruct (Hroles a roles Hl) as (? & ? & ? & ?). split_and!; try done.
    apply Ha. rewrite <-Hdom. by exists roles.
  - intros a. by rewrite Hab, Hdom.
  - intros a Hx. rewrite Hdom. by apply Hre.
Qed.
End compile.

(** ** Upgrade and overlay keep compiled policies well formed *)
Lemma add_missing_is_Some {A} (zero : A) action fallback m a :
  is_Some (add_missing zero action fallback m !! a) ↔ a = action ∨ is_Some (m !! a).
Proof.
  unfold add_missing. destruct (m !! action) as [x|] eqn:E.
  - split; [by right|]. intros [->|?]; [by exists x|done].
  - rewrite lookup_insert_is_Some'. naive_solver.
Qed.

Lemma add_missing_lookup {A} (zero : A) action fallback m a x :
  add_missing zero action fallback m !! a = Some x →
  m !! a = Some x ∨ (a = action ∧ x = default zero (fallback !! action)).
Proof.
  unfold add_missing. destruct (m !! action) eqn:E; [by left|].
  intros [[<- <-]|[_ ?]]%lookup_insert_Some; [by right|by left].
Qed.

Lemma overlay_route_wf fallback base d :
  compiled_wf fallback → compiled_wf base → compiled_wf (overlay_route fallback base d).
Proof.
  intros Hf Hb. unfold overlay_route. destruct (normalizeRoutePolicyDefinition d) as [n|]; [|done].
  destruct (RouteRegistry base !! _) eqn:E; [done|].
  destruct (RouteRegistry fallback !! _) as [p|] eqn:F; [|done].
  destruct (cw_routes _ Hf _ _ F) as (Hcan & Hne & [froles Hfr]).
  destruct (cw_rbac _ Hf _ _ Hfr) as (_ & _ & Hfne & Hfn & _).
  destruct Hb as [Hr Hrb Hab Hre]. split; cbn.
  - intros k q [[<- <-]|[_ Hq]]%lookup_insert_Some; rewrite add_missing_is_Some.
    + split_and!; [done..|by left].
    + destruct (Hr k q Hq) as (? & ? & ?). split_and!; [done..|by right].
  - intros a roles [Ha|[-> ->]]%add_missing_lookup.
    + destruct (Hrb a roles Ha) as (? & ? & ? & ? & k & q & Hq & <-). split_and!; try done.
      exists k, q. split; [|done]. rewrite lookup_insert_ne; [done|]. intros <-. by rewrite E in Hq.
    + rewrite Hfr; cbn. split_and!; try done. eexists _, p. split; [apply lookup_insert_eq|done].
  - intros a. by rewrite !add_missing_is_Some, Hab.
  - intros a. rewrite !add_missing_is_Some. intros [?|?]; [by left|right; auto].
Qed.

Lemma upgrade_grant_wf fallback c legacy :
  compiled_wf fallback → compiled_wf c →
  compiled_wf (mkCompiled (RouteRegistry c) (upgrade_grant fallback (RBACActionRole c) legacy)
    (ABACPolicies c) (ReBACPolicies c)).
Proof.
  intros Hf Hc. destruct Hc as [Hr Hrb Hab Hre]. unfold upgrade_grant.
  destruct (RBACActionRole c !! legacy.1) as [cur|] eqn:E; [|by split].
  destruct (RBACActionRole fallback !! legacy.1) as [new|] eqn:F; [|by split].
  destruct (sameRoleSet cur legacy.2); [|by split].
  assert (∀ a, is_Some (<[legacy.1 := new]> (RBACActionRole c) !! a) ↔ is_Some (RBACActionRole c !! a)) as Hd.
  { intros a. rewrite lookup_insert_is_Some'. split; [|by right]. intros [<-|?]; [by exists cur|done]. }
  split; cbn; try (by intros; rewrite ?Hd; auto).
  - intros k p Hp. rewrite Hd. by apply (Hr k p).
  - intros a roles [[<- <-]|[_ Ha]]%lookup_insert_Some; [|by apply Hrb].
    destruct (cw_rbac _ Hf _ _ F) as (? & ? & ? & ? & _). destruct (Hrb _ _ E) as (_ & _ & _ & _ & ?).
    by split_and!.
Qed.

Lemma overlay_wf fallback base definitions :
  compiled_wf fallback → compiled_wf base →
  compiled_wf (overlayRouteAuthorizationPolicyCompatibility base fallback definitions).
Proof.
  intros Hf. unfold overlayRouteAuthorizationPolicyCompatibility. revert base.
  induction definitions as [|d definitions IH]; intros base Hb; cbn; [done|].
  by apply IH, overlay_route_wf.
Qed.

Lemma upgrade_wf `{MapRange} fallback base :
  compiled_wf fallback → compiled_wf base → compiled_wf (upgradeLegacyDefaultRoleGrants base fallback).
Proof.
  intros Hf. unfold upgradeLegacyDefaultRoleGrants. generalize (map_range legacyGrants). intros l.
  destruct base as [routes rbac abac rebac]; cbn. revert rbac.
  induction l as [|g l IH]; intros rbac Hb; cbn; [done|].
  apply IH. exact (upgrade_grant_wf fallback _ g Hf Hb).
Qed.

(** ** What the engine of a compiled policy allows *)
Section engine.
Context `{MapRange} {T : Type} `{RelationshipStore T}.

Lemma role_set_ne roles :
  roles ≠ [] → Forall (λ r, canon r = r ∧ r ≠ "") roles → normalize_role_set roles ≠ ∅.
Proof.
  intros Hne Hf E. destruct Hf as [|r l [Hc Hr] Hl]; [done|].
  assert (r ∈ normalize_role_set (r :: l)) as Hin; [|rewrite E in Hin; by apply not_elem_of_empty in Hin].
  apply elem_of_normalize_role_set. split; [done|]. exists r. split; [left|done].
Qed.

(** The evaluator's table has every granted action. *)
Lemma compiled_grants_lookup c a roles :
  compiled_wf c → RBACActionRole c !! a = Some roles →
  normalizeActionRoleGrants (RBACActionRole c) !! a = Some (normalize_role_set roles).
Proof.
  intros Hwf Ha. unfold normalizeActionRoleGrants. apply collect_lookup.
  - apply collect_range_consistent. intros k k' x y key b e Hx Hy
      (-> & _)%normalized_grant_Some (E & _)%normalized_grant_Some. cbn in E.
    destruct (cw_rbac _ Hwf _ _ Hx) as (Hk & _). destruct (cw_rbac _ Hwf _ _ Hy) as (Hk' & _). congruence.
  - exists (a, roles). split; [by apply elem_of_map_range|]. apply normalized_grant_Some; cbn.
    destruct (cw_rbac _ Hwf _ _ Ha) as (Hk & ? & ? & ? & _). split_and!; [done..|]. by apply role_set_ne.
Qed.

(** The role stage lets an action through only to the holder of a granted role. *)
Lemma requirement_abstains c a roles ctx input :
  compiled_wf c → RBACActionRole c !! a = Some roles → canon (Input_Action input) = a →
  abstains ctx input (PolicyStageRBAC, Some (newRBACRequirementEvaluator (RBACActionRole c))) = true →
  ∃ role, role ∈ Subject_Roles (Input_Subject input) ∧ canon role ∈ roles.
Proof.
  intros Hwf Ha Hact Habs. destruct (cw_rbac _ Hwf _ _ Ha) as (_ & Hne & _ & Hf & _).
  unfold abstains, newRBACRequirementEvaluator in Habs; cbn in Habs.
  rewrite (rbacRequirementEvaluator_denies _ ctx input (normalize_role_set roles)) in Habs
    by (rewrite Hact; first [done|by apply compiled_grants_lookup]).
  destruct (subjectHasAnyRole _ _) eqn:E; [|done].
  apply subjectHasAnyRole_spec in E as (role & Hin & _ & Hrole). exists role. split; [done|].
  apply elem_of_normalize_role_set in Hrole as (_ & r & Hr & ->).
  rewrite Forall_forall in Hf. by destruct (Hf r Hr) as [-> _].
Qed.

Lemma abac_allow_known c ctx input reason :
  newABACPolicyEvaluator (ABACPolicies c) ctx input = Ok (PolicyOutcomeAllow, reason) →
  ∃ k, is_Some (ABACPolicies c !! k) ∧ canon k = canon (Input_Action input).
Proof.
  unfold newABACPolicyEvaluator, abacPolicyEvaluator. case_decide; [done|]. case_decide; [done|].
  destruct (normalizeABACPolicies _ !! _) as [policy|] eqn:E; [|done]. intros _.
  apply collect_Some in E as ((k & raw) & Hk%elem_of_map_range & (Ha & _)%normalized_abac_entry_Some).
  exists k. split; [by exists raw|by rewrite Ha].
Qed.

Lemma rebac_allow_known store c ctx input reason :
  newReBACPolicyEvaluator store (ReBACPolicies c) ctx input = Ok (PolicyOutcomeAllow, reason) →
  ∃ k, is_Some (ReBACPolicies c !! k) ∧ canon k = canon (Input_Action input).
Proof.
  unfold newReBACPolicyEvaluator. intros Hr.
  destruct (rebacPolicyEvaluator_cases store (normalizeReBACPolicies (ReBACPolicies c))
    rebacDefaultLookupLimit ctx input) as [(s & policy & _ & _ & Hp & _)|(o & r & E & Hne)]; [|congruence].
  apply collect_Some in Hp as ((k & raw) & Hk%elem_of_map_range & Hf).
  unfold normalized_rebac_entry in Hf. cbn in Hf. repeat case_decide; simplify_eq.
  exists k. split; [by exists raw|done].
Qed.

Lemma compiled_engine_role (store : option T) (c : compiledRouteAuthorizationPolicy)
    (ctx : Context) (input : PolicyInput) (d : PolicyDecision)
    (Hwf : compiled_wf c)
    (Hdecide : Decide (Some (newCentralPolicyEngineFromCompiled store c)) ctx input = Ok d)
    (Hallowed : Decision_Allowed d = true) :
  ¬ scope_mismatch input ∧
  (∃ k p, RouteRegistry c !! k = Some p ∧ Route_Action p = canon (Input_Action input)) ∧
  ∃ roles role, RBACActionRole c !! canon (Input_Action input) = Some roles ∧
    role ∈ Subject_Roles (Input_Subject input) ∧ canon role ∈ roles.
Proof.
  split.
  { intros Hm.
    destruct (Decide_isolated (RBACEvaluator (newCentralPolicyEngineFromCompiled store c))
      (ABACEvaluator (newCentralPolicyEngineFromCompiled store c))
      (ReBACEvaluator (newCentralPolicyEngineFromCompiled store c)) ctx input) as [reason E].
    rewrite decide_True in E by done.
    assert (Ok d = Ok (denyDecision PolicyStageTenantIsolation reason)) as Hd by (rewrite <-Hdecide; exact E).
    injection Hd as ->. done. }
  destruct (Decide_allowed_stage _ _ _ _ Hdecide Hallowed) as (e & i & ev & reason & [= <-] & Hi & Hev & Hbefore).
  assert (abstains ctx input (PolicyStageRBAC, Some (newRBACRequirementEvaluator (RBACActionRole c))) = true ∧
    ∃ k, is_Some (RBACActionRole c !! k) ∧ canon k = canon (Input_Action input)) as [Habs (k & [roles Hk] & Hka)].
  { destruct i as [|[|[|[|i]]]]; cbn in Hi; try done; injection Hi as _ <-.
    - destruct (tenantIsolationEvaluator_outcome ctx input) as [r Hr]. rewrite Hr in Hev.
      by case_decide.
    - unfold newRBACRequirementEvaluator, rbacRequirementEvaluator in Hev.
      repeat case_decide; try done. destruct (normalizeActionRoleGrants _ !! _); [|done].
      by destruct (subjectHasAnyRole _ _).
    - split; [by apply (Hbefore 1%nat); [|lia]|]. apply abac_allow_known in Hev as (k & Hk & Hka).
      exists k. split; [|done]. by apply (cw_abac _ Hwf).
    - split; [by apply (Hbefore 1%nat); [|lia]|]. apply rebac_allow_known in Hev as (k & Hk & Hka).
      exists k. split; [|done]. by apply (cw_rebac _ Hwf). }
  destruct (cw_rbac _ Hwf _ _ Hk) as (Hcan & _ & _ & _ & Hroute). rewrite Hcan in Hka. subst k.
  split; [done|]. destruct (requirement_abstains c _ roles ctx input Hwf Hk eq_refl Habs) as (role & ? & ?).
  by exists roles, role.
Qed.

(** C2. End to end: in the engine built from a well-formed compiled bundle,
    over any relationship store, an allowed request targets an action some route
    of the bundle maps, stays within its tenant and workspace, and its subject
    holds a role granted to that action; so attribute and relationship policies
    can only narrow what roles grant. *)
Theorem compiled_engine_requires_role (store : option T) (c : compiledRouteAuthorizationPolicy)
    (ctx : Context) (input : PolicyInput) (d : PolicyDecision)
    (Hwf : compiled_wf c)
    (Hdecide : Decide (Some (newCentralPolicyEngineFromCompiled store c)) ctx input = Ok d)
    (Hallowed : Decision_Allowed d = true) :
  ¬ scope_mismatch input ∧
  (∃ k p, RouteRegistry c !! k = Some p ∧ Route_Action p = canon (Input_Action input)) ∧
  ∃ roles role, RBACActionRole c !! canon (Input_Action input) = Some roles ∧
    role ∈ Subject_Roles (Input_Subject input) ∧ canon role ∈ roles.
Proof. exact (compiled_engine_role store c ctx input d Hwf Hdecide Hallowed). Qed.
End engine.

(** Whatever a successful compilation returns is well formed: every route
    names a canonical action that has at least one granted canonical role; the
    actions with roles, the actions with an attribute policy and the actions of
    the routes are the same; relationship policies only exist for such actions;
    and upgrading legacy role grants and overlaying compatibility routes from a
    well-formed fallback keep all of this. *)
Theorem compileRouteAuthorizationPolicyBundle_wf `{MapRange} (bundle : routeAuthorizationPolicyBundle)
    (c fallback : compiledRouteAuthorizationPolicy) (definitions : list routePolicyDefinition)
    (Hfallback : compiled_wf fallback)
    (Hok : compileRouteAuthorizationPolicyBundle bundle = Ok c) :
  compiled_wf c ∧ compiled_wf (upgradeLegacyDefaultRoleGrants c fallback) ∧
  compiled_wf (overlayRouteAuthorizationPolicyCompatibility c fallback definitions).
Proof.
  apply compile_wf in Hok. split_and!; [done|by apply upgrade_wf|by apply overlay_wf].
Qed.

(** ** Iteration order *)
Section order.
Context (R R' : MapRange).

Lemma forM_range_order {A} (f : string * A → result unit) (m : gmap string A) :
  forM_ f (@map_range R _ m) = Ok tt ↔ forM_ f (@map_range R' _ m) = Ok tt.
Proof. by rewrite !forM_range_Ok. Qed.

(** A run of checks followed by a result. *)
Lemma checked_order {A B} (f : string * A → result unit) (m : gmap string A) (k k' : result B) b :
  (k = Ok b ↔ k' = Ok b) →
  (_ ← forM_ f (@map_range R _ m); k) = Ok b ↔ (_ ← forM_ f (@map_range R' _ m); k') = Ok b.
Proof.
  intros Hk. rewrite !bind_Ok. split; intros ([] & Hf & Hb); exists tt;
    (split; [by apply forM_range_order|by apply Hk]).
Qed.

Lemma bind_order {A B} (m m' : result A) (k k' : A → result B) b :
  (∀ x, m = Ok x ↔ m' = Ok x) → (∀ x, k x = Ok b ↔ k' x = Ok b) →
  (m ≫= k) = Ok b ↔ (m' ≫= k') = Ok b.
Proof.
  intros Hm Hk. rewrite !bind_Ok. split; intros (x & Hx & Hb); exists x;
    (split; [by apply Hm|by apply Hk]).
Qed.

Lemma guarded_order {B} ok e (k k' : result B) b :
  (k = Ok b ↔ k' = Ok b) → (_ ← guard_err ok e; k) = Ok b ↔ (_ ← guard_err ok e; k') = Ok b.
Proof. intros Hk. destruct ok; [exact Hk|done]. Qed.

Lemma normalizeReBACPolicies_range policies :
  canonical_keys policies → @normalizeReBACPolicies R policies = @normalizeReBACPolicies R' policies.
Proof.
  intros Hc. apply collect_range_irrelevant. intros k k' x y key b c Hx Hy Hf Hf'.
  unfold normalized_rebac_entry in Hf, Hf'. cbn in Hf, Hf'. repeat case_decide; simplify_eq. by apply Hc.
Qed.

Lemma compileRBACRoleGrants_order grants actions rbac :
  canonical_keys grants →
  @compileRBACRoleGrants R grants actions = Ok rbac ↔ @compileRBACRoleGrants R' grants actions = Ok rbac.
Proof.
  intros Hc. unfold compileRBACRoleGrants. apply guarded_order, checked_order.
  assert (collect compiled_grant (@map_range R _ grants) = collect compiled_grant (@map_range R' _ grants)) as ->.
  { apply collect_range_irrelevant. intros k k' x y key b c Hx Hy [= <- _] [= E _]. by apply Hc. }
  by apply checked_order.
Qed.

Lemma compileABACPolicies_order policies actions abac :
  canonical_keys policies →
  @compileABACPolicies R policies actions = Ok abac ↔ @compileABACPolicies R' policies actions = Ok abac.
Proof.
  intros Hc. unfold compileABACPolicies. apply guarded_order, checked_order.
  rewrite (normalizeABACPolicies_range R R') by done. by apply checked_order.
Qed.

Lemma compileReBACPolicies_order policies actions rebac :
  canonical_keys policies →
  @compileReBACPolicies R policies actions = Ok rebac ↔ @compileReBACPolicies R' policies actions = Ok rebac.
Proof.
  intros Hc. unfold compileReBACPolicies. case_decide; [done|]. apply checked_order.
  by rewrite normalizeReBACPolicies_range.
Qed.
End order.

Lemma compile_order (R R' : MapRange) (bundle : routeAuthorizationPolicyBundle)
    (c : compiledRouteAuthorizationPolicy)
    (Hrbac : canonical_keys (Bundle_RBACActionRole bundle))
    (Habac : canonical_keys (Bundle_ABACPolicies bundle))
    (Hrebac : canonical_keys (Bundle_ReBACPolicies bundle)) :
  @compileRouteAuthorizationPolicyBundle R bundle = Ok c ↔
  @compileRouteAuthorizationPolicyBundle R' bundle = Ok c.
Proof.
  unfold compileRouteAuthorizationPolicyBundle. apply guarded_order.
  destruct (compileRoutePolicies _) as [[registry actions]|]; [cbn|done].
  apply bind_order; [intros; by apply compileRBACRoleGrants_order|intros rbac].
  apply bind_order; [intros; by apply compileABACPolicies_order|intros abac].
  by apply bind_order; [intros; by apply compileReBACPolicies_order|intros rebac].
Qed.

(** Compilation is deterministic although it ranges over Go maps: when no
    two keys of a table have the same canonical form, a bundle compiles to a
    policy under one iteration order exactly when it compiles to the same policy
    under any other. *)
Theorem compileRouteAuthorizationPolicyBundle_order (R R' : MapRange) (bundle : routeAuthorizationPolicyBundle)
    (c : compiledRouteAuthorizationPolicy)
    (Hrbac : canonical_keys (Bundle_RBACActionRole bundle))
    (Habac : canonical_keys (Bundle_ABACPolicies bundle))
    (Hrebac : canonical_keys (Bundle_ReBACPolicies bundle)) :
  @compileRouteAuthorizationPolicyBundle R bundle = Ok c ↔
  @compileRouteAuthorizationPolicyBundle R' bundle = Ok c.
Proof. exact (compile_order R R' bundle c Hrbac Habac Hrebac). Qed.

(** ** Witnesses *)
#[local] Existing Instance canonical_range.
#[local] Existing Instance insertion_sort.

Definition sample_bundle : routeAuthorizationPolicyBundle :=
  mkBundle " identrail.authz.route_policy_bundle.v1"
    [mkRouteDef "get" "/v1/docs/:doc_id" "Docs.Read" "doc" "doc_id"]
    {[ "docs.read " := ["Owner"; "viewer"; " owner"] ]}
    {[ "docs.read" := mkAbacActionPolicy [[]] "" ]}
    {[ "DOCS.READ" := mkRebacPolicy [mkRebacPath ["owns"] []] ]}.
Definition sample_compiled : compiledRouteAuthorizationPolicy :=
  ok_or emptyCompiledRouteAuthorizationPolicy (compileRouteAuthorizationPolicyBundle sample_bundle).
Definition sample_viewer_input : PolicyInput :=
  mkPolicyInput (mkPolicySubject "user" "u1" "acme" "prod" [] ["Viewer"] ∅) "docs.read"
    (mkPolicyResource "doc" "d1" "acme" "prod" ∅) (mkPolicyContext "" "" 0 ∅).

Lemma sample_compiles : compileRouteAuthorizationPolicyBundle sample_bundle = Ok sample_compiled.
Proof. by vm_compute. Qed.

Lemma compiled_engine_requires_role_witness :
  ¬ scope_mismatch sample_viewer_input ∧
  (∃ k p, RouteRegistry sample_compiled !! k = Some p ∧ Route_Action p = "docs.read") ∧
  ∃ roles role, RBACActionRole sample_compiled !! "docs.read" = Some roles ∧
    role ∈ ["Viewer"] ∧ canon role ∈ roles.
Proof.
  apply (compiled_engine_requires_role (Some (sample_tuples, 50)) sample_compiled sample_ctx sample_viewer_input
    (mkPolicyDecision true PolicyStageABAC "abac policy grants action")).
  - apply (compile_wf sample_bundle), sample_compiles.
  - by vm_compute.
  - reflexivity.
Defined.

Lemma compileRouteAuthorizationPolicyBundle_wf_witness :
  compiled_wf sample_compiled ∧
  compiled_wf (upgradeLegacyDefaultRoleGrants sample_compiled sample_compiled) ∧
  compiled_wf (overlayRouteAuthorizationPolicyCompatibility sample_compiled sample_compiled []).
Proof.
  apply (compileRouteAuthorizationPolicyBundle_wf sample_bundle sample_compiled sample_compiled []).
  - apply (compile_wf sample_bundle), sample_compiles.
  - apply sample_compiles.
Defined.

Lemma canonical_keys_fixed {A} (m : gmap string A) :
  map_Forall (λ k _, canon k = k) m → canonical_keys m.
Proof.
  intros Hm k k' [x Hx] [y Hy]. rewrite map_Forall_lookup in Hm.
  by rewrite (Hm _ _ Hx), (Hm _ _ Hy).
Qed.

Lemma canonical_singleton {A} k (x : A) : canonical_keys ({[ k := x ]} : gmap string A).
Proof. intros k1 k2 [y H1] [z H2] _. by apply lookup_singleton_Some in H1 as [<- _], H2 as [<- _]. Qed.

Lemma compileRouteAuthorizationPolicyBundle_order_witness :
  @compileRouteAuthorizationPolicyBundle canonical_range sample_bundle = Ok sample_compiled ↔
  @compileRouteAuthorizationPolicyBundle reversed_range sample_bundle = Ok sample_compiled.
Proof.
  apply (compileRouteAuthorizationPolicyBundle_order canonical_range reversed_range sample_bundle);
    apply canonical_singleton.
Defined.
