(* ===== verification/BuiltinPolicy.v ===== *)
(** * The built-in route policy (internal/api/authz_middleware.go and
    internal/api/authz_policy_bundle_runtime.go)

    The route table, role grants, attribute policies and relationship policies
    shipped with the program, and what they compile to. *)
From S2P Require Import Prelude GoStrings GoCollections Scope.
From S2P Require Import PolicyEngine PolicyEvaluators AuthzRecords AuthzStore Rebac PolicyBundle.

Definition policyActionScansRead : string := "scans.read".
Definition policyActionScansRun : string := "scans.run".
Definition policyActionScansReplay : string := "scans.replay".
Definition policyActionRepoScansRead : string := "repo_scans.read".
Definition policyActionRepoScansRun : string := "repo_scans.run".
Definition policyActionAuthzSimulate : string := "authz.policies.simulate".
Definition policyActionAuthzRollback : string := "authz.policies.rollback".
Definition policyActionMeRead : string := "me.read".
Definition policyActionMeWrite : string := "me.write".
Definition policyActionOnboardingRead : string := "onboarding.read".
Definition policyActionOnboardingWrite : string := "onboarding.write".
Definition policyActionTenancyRead : string := "tenancy.read".
Definition policyActionTenancyWrite : string := "tenancy.write".
Definition policyActionTenancyOwner : string := "tenancy.owner".
Definition policyActionEnterpriseRead : string := "enterprise.read".
Definition policyActionEnterpriseWrite : string := "enterprise.write".

Definition policyContextABACSubjectAttrsLoadedKey : string := "abac.subject_attributes_loaded".
Definition policyContextABACResourceAttrsLoadedKey : string := "abac.resource_attributes_loaded".
Definition policyAttributeOwnerTeam : string := "owner_team".
Definition policyAttributeEnvironment : string := "env".
Definition policyAttributeRiskTier : string := "risk_tier".
Definition policyAttributeClassification : string := "classification".

(** ** Role grants *)
Definition defaultRouteActionRoleGrants : gmap string (list string) :=
  let tenancyReadRoles := [scopeRead; scopeWrite; scopeAdmin; "owner"; "admin"; "analyst"; "viewer"] in
  let tenancyWriteRoles := [scopeWrite; scopeAdmin; "owner"; "admin"] in
  let tenancyOwnerRoles := ["owner"] in
  let enterpriseReadRoles := [scopeRead; scopeWrite; scopeAdmin; "owner"; "admin"; "analyst"; "viewer"] in
  let enterpriseWriteRoles := [scopeWrite; scopeAdmin; "owner"; "admin"] in
  let authenticatedRoles :=
    ["authenticated"; scopeRead; scopeWrite; scopeAdmin; "owner"; "admin"; "analyst"; "viewer"] in
  list_to_map [
    (policyActionFindingsRead, tenancyReadRoles);
    (policyActionFindingsTriage, tenancyWriteRoles);
    (policyActionGraphRead, tenancyReadRoles);
    (policyActionScansRead, tenancyReadRoles);
    (policyActionScansRun, tenancyWriteRoles);
    (policyActionScansReplay, tenancyWriteRoles);
    (policyActionRepoScansRead, tenancyReadRoles);
    (policyActionRepoScansRun, tenancyWriteRoles);
    (policyActionAuthzSimulate, [scopeAdmin]);
    (policyActionAuthzRollback, [scopeAdmin]);
    (policyActionMeRead, authenticatedRoles);
    (policyActionMeWrite, authenticatedRoles);
    (policyActionOnboardingRead, authenticatedRoles);
    (policyActionOnboardingWrite, authenticatedRoles);
    (policyActionTenancyRead, tenancyReadRoles);
    (policyActionTenancyWrite, tenancyWriteRoles);
    (policyActionTenancyOwner, tenancyOwnerRoles);
    (policyActionEnterpriseRead, enterpriseReadRoles);
    (policyActionEnterpriseWrite, enterpriseWriteRoles)
  ].

(** ** Attribute policies *)
Definition attribute_loaded_false (key : string) : abacClause :=
  [mkAbacPredicate abacAttributeSourceContext key abacOperatorEquals "false" [] "" ""].
Definition resource_one_of (key : string) (values : list string) : abacPredicate :=
  mkAbacPredicate abacAttributeSourceResource key abacOperatorOneOf "" values "" "".

Definition findings_triage_policy : abacActionPolicy :=
  mkAbacActionPolicy
    [attribute_loaded_false policyContextABACSubjectAttrsLoadedKey;
     attribute_loaded_false policyContextABACResourceAttrsLoadedKey;
     [mkAbacPredicate abacAttributeSourceSubject policyAttributeOwnerTeam abacOperatorEqualsAttribute "" []
        abacAttributeSourceResource policyAttributeOwnerTeam;
      resource_one_of policyAttributeEnvironment ["prod"; "staging"; "dev"; "test"; "sandbox"];
      resource_one_of policyAttributeRiskTier ["low"; "medium"; "high"; "critical"];
      resource_one_of policyAttributeClassification ["public"; "internal"; "confidential"; "restricted"]]]
    PolicyOutcomeNoOpinion.

Definition defaultRouteActionABACPolicies : gmap string abacActionPolicy :=
  let passThroughPolicy := mkAbacActionPolicy [[]] "" in
  list_to_map [
    (policyActionFindingsRead, passThroughPolicy);
    (policyActionGraphRead, passThroughPolicy);
    (policyActionScansRead, passThroughPolicy);
    (policyActionScansRun, passThroughPolicy);
    (policyActionScansReplay, passThroughPolicy);
    (policyActionRepoScansRead, passThroughPolicy);
    (policyActionRepoScansRun, passThroughPolicy);
    (policyActionAuthzSimulate, passThroughPolicy);
    (policyActionAuthzRollback, passThroughPolicy);
    (policyActionMeRead, passThroughPolicy);
    (policyActionMeWrite, passThroughPolicy);
    (policyActionOnboardingRead, passThroughPolicy);
    (policyActionOnboardingWrite, passThroughPolicy);
    (policyActionTenancyRead, passThroughPolicy);
    (policyActionTenancyWrite, passThroughPolicy);
    (policyActionTenancyOwner, passThroughPolicy);
    (policyActionEnterpriseRead, passThroughPolicy);
    (policyActionEnterpriseWrite, passThroughPolicy);
    (policyActionFindingsTriage, findings_triage_policy)
  ].

(** ** Relationship policies *)
Definition defaultRouteActionReBACPolicies : gmap string rebacActionPolicy :=
  let memberDelegationConditions :=
    [resource_one_of policyAttributeEnvironment ["prod"; "staging"];
     resource_one_of policyAttributeRiskTier ["high"; "critical"];
     resource_one_of policyAttributeClassification ["confidential"; "restricted"]] in
  list_to_map [
    (policyActionFindingsTriage, mkRebacPolicy
      [mkRebacPath [AuthzRelationshipOwns] [];
       mkRebacPath [AuthzRelationshipManages] [];
       mkRebacPath [AuthzRelationshipDelegatedAdmin] [];
       mkRebacPath [AuthzRelationshipMemberOf; AuthzRelationshipOwns] memberDelegationConditions;
       mkRebacPath [AuthzRelationshipMemberOf; AuthzRelationshipManages] memberDelegationConditions;
       mkRebacPath [AuthzRelationshipMemberOf; AuthzRelationshipDelegatedAdmin] memberDelegationConditions])
  ].

(** ** Routes *)
Definition defaultBuiltInRoutePolicyDefinitions : list routePolicyDefinition := [
  mkRouteDef "GET" "/v1/findings" policyActionFindingsRead "finding" "";
  mkRouteDef "GET" "/v1/findings/:finding_id" policyActionFindingsRead "finding" "finding_id";
  mkRouteDef "GET" "/v1/findings/:finding_id/history" policyActionFindingsRead "finding_history" "finding_id";
  mkRouteDef "GET" "/v1/findings/:finding_id/exports" policyActionFindingsRead "finding_export" "finding_id";
  mkRouteDef "GET" "/v1/findings/baseline/export" policyActionFindingsRead "finding_baseline" "";
  mkRouteDef "POST" "/v1/findings/baseline/import" policyActionFindingsTriage "finding_baseline" "";
  mkRouteDef "GET" "/v1/findings/trends" policyActionFindingsRead "finding_trend" "";
  mkRouteDef "GET" "/v1/repo-findings/trends" policyActionRepoScansRead "finding_trend" "";
  mkRouteDef "GET" "/v1/findings/summary" policyActionFindingsRead "finding_summary" "";
  mkRouteDef "PATCH" "/v1/findings/:finding_id/triage" policyActionFindingsTriage "finding" "finding_id";
  mkRouteDef "GET" "/v1/identities" policyActionGraphRead "identity" "";
  mkRouteDef "GET" "/v1/relationships" policyActionGraphRead "relationship" "";
  mkRouteDef "GET" "/v1/ownership/signals" policyActionGraphRead "ownership_signal" "";
  mkRouteDef "GET" "/v1/scans" policyActionScansRead "scan" "";
  mkRouteDef "GET" "/v1/scans/:scan_id" policyActionScansRead "scan" "scan_id";
  mkRouteDef "GET" "/v1/scans/:scan_id/diff" policyActionScansRead "scan_diff" "scan_id";
  mkRouteDef "GET" "/v1/scans/:scan_id/events" policyActionScansRead "scan_event" "scan_id";
  mkRouteDef "POST" "/v1/scans" policyActionScansRun "scan" "";
  mkRouteDef "POST" "/v1/scans/:scan_id/replay" policyActionScansReplay "scan" "scan_id";
  mkRouteDef "GET" "/v1/repo-scans" policyActionRepoScansRead "repo_scan" "";
  mkRouteDef "GET" "/v1/repo-scans/:repo_scan_id" policyActionRepoScansRead "repo_scan" "repo_scan_id";
  mkRouteDef "DELETE" "/v1/repo-scans/:repo_scan_id" policyActionRepoScansRun "repo_scan" "repo_scan_id";
  mkRouteDef "GET" "/v1/repo-findings" policyActionRepoScansRead "repo_finding" "";
  mkRouteDef "POST" "/v1/repo-findings/bulk-delete" policyActionRepoScansRun "repo_finding_bulk_delete" "";
  mkRouteDef "DELETE" "/v1/repo-findings/:finding_id" policyActionRepoScansRun "repo_finding" "finding_id";
  mkRouteDef "POST" "/v1/repo-findings/:finding_id/remediation/preview" policyActionRepoScansRead "repo_finding" "finding_id";
  mkRouteDef "POST" "/v1/repo-findings/:finding_id/remediation/publish" policyActionRepoScansRun "repo_finding" "finding_id";
  mkRouteDef "GET" "/v1/repo-finding-clusters" policyActionRepoScansRead "repo_finding_cluster" "";
  mkRouteDef "GET" "/v1/repo-risk-graph" policyActionRepoScansRead "repo_risk_graph" "";
  mkRouteDef "POST" "/v1/repo-scans" policyActionRepoScansRun "repo_scan" "";
  mkRouteDef "POST" "/v1/repo-scans/:repo_scan_id/cancel" policyActionRepoScansRun "repo_scan" "repo_scan_id";
  mkRouteDef "POST" "/v1/authz/policies/simulate" policyActionAuthzSimulate "authz_policy" "";
  mkRouteDef "POST" "/v1/authz/policies/rollback" policyActionAuthzRollback "authz_policy" "";
  mkRouteDef "GET" "/v1/me" policyActionMeRead "user" "";
  mkRouteDef "PATCH" "/v1/me" policyActionMeWrite "user" "";
  mkRouteDef "GET" "/v1/me/sessions" policyActionMeRead "session" "";
  mkRouteDef "DELETE" "/v1/me/sessions/:session_id" policyActionMeWrite "session" "session_id";
  mkRouteDef "POST" "/v1/me/sessions/revoke-others" policyActionMeWrite "session" "";
  mkRouteDef "POST" "/v1/me/deactivate" policyActionMeWrite "user" "";
  mkRouteDef "POST" "/v1/me/reactivate" policyActionMeWrite "user" "";
  mkRouteDef "DELETE" "/v1/me" policyActionMeWrite "user" "";
  mkRouteDef "POST" "/v1/me/cancel-deletion" policyActionMeWrite "user" "";
  mkRouteDef "POST" "/v1/me/export" policyActionMeWrite "user_data_export" "";
  mkRouteDef "GET" "/v1/me/export" policyActionMeRead "user_data_export" "";
  mkRouteDef "GET" "/v1/me/export/:job_id" policyActionMeRead "user_data_export" "job_id";
  mkRouteDef "POST" "/v1/onboarding/start" policyActionOnboardingWrite "onboarding_state" "";
  mkRouteDef "GET" "/v1/onboarding/state" policyActionOnboardingRead "onboarding_state" "";
  mkRouteDef "POST" "/v1/onboarding/state" policyActionOnboardingWrite "onboarding_state" "";
  mkRouteDef "POST" "/v1/onboarding/complete" policyActionOnboardingWrite "onboarding_state" "";
  mkRouteDef "POST" "/v1/invitations" policyActionEnterpriseWrite "invitation" "";
  mkRouteDef "GET" "/v1/me/invitations" policyActionMeRead "invitation" "";
  mkRouteDef "POST" "/v1/orgs/:id/domains" policyActionEnterpriseWrite "verified_domain" "id";
  mkRouteDef "POST" "/v1/orgs/:id/domains/:domain_id/verify" policyActionEnterpriseWrite "verified_domain" "domain_id";
  mkRouteDef "GET" "/v1/orgs/:id/sso" policyActionEnterpriseRead "identity_connection" "id";
  mkRouteDef "POST" "/v1/enterprise/identity-connections/saml" policyActionEnterpriseWrite "identity_connection" "";
  mkRouteDef "GET" "/v1/enterprise/identity-connections/saml" policyActionEnterpriseRead "identity_connection" "";
  mkRouteDef "GET" "/v1/enterprise/identity-connections/saml/:id" policyActionEnterpriseRead "identity_connection" "id";
  mkRouteDef "PUT" "/v1/enterprise/identity-connections/saml/:id" policyActionEnterpriseWrite "identity_connection" "id";
  mkRouteDef "DELETE" "/v1/enterprise/identity-connections/saml/:id" policyActionEnterpriseWrite "identity_connection" "id";
  mkRouteDef "POST" "/v1/enterprise/identity-connections/saml/from-metadata" policyActionEnterpriseWrite "identity_connection" "";
  mkRouteDef "GET" "/v1/enterprise/reports/executive" policyActionEnterpriseRead "executive_report" "";
  mkRouteDef "GET" "/v1/whoami" policyActionTenancyRead "workspace_context" "";
  mkRouteDef "GET" "/v1/organizations/current" policyActionTenancyRead "organization" "";
  mkRouteDef "PUT" "/v1/organizations/current" policyActionTenancyWrite "organization" "";
  mkRouteDef "GET" "/v1/workspaces" policyActionTenancyRead "workspace" "";
  mkRouteDef "POST" "/v1/workspaces" policyActionTenancyWrite "workspace" "";
  mkRouteDef "POST" "/v1/workspaces/active" policyActionTenancyRead "workspace_context" "";
  mkRouteDef "GET" "/v1/workspaces/:workspace_id" policyActionTenancyRead "workspace" "workspace_id";
  mkRouteDef "DELETE" "/v1/workspaces/:workspace_id" policyActionTenancyOwner "workspace" "workspace_id";
  mkRouteDef "POST" "/v1/workspaces/:workspace_id/suspend" policyActionTenancyOwner "workspace" "workspace_id";
  mkRouteDef "POST" "/v1/workspaces/:workspace_id/reactivate" policyActionTenancyOwner "workspace" "workspace_id";
  mkRouteDef "POST" "/v1/workspaces/:workspace_id/cancel-deletion" policyActionTenancyOwner "workspace" "workspace_id";
  mkRouteDef "GET" "/v1/workspaces/:workspace_id/members" policyActionTenancyRead "workspace_member" "workspace_id";
  mkRouteDef "POST" "/v1/workspaces/:workspace_id/members" policyActionTenancyWrite "workspace_member" "workspace_id";
  mkRouteDef "GET" "/v1/workspaces/:workspace_id/members/:member_id" policyActionTenancyRead "workspace_member" "member_id";
  mkRouteDef "DELETE" "/v1/workspaces/:workspace_id/members/:member_id" policyActionTenancyWrite "workspace_member" "member_id";
  mkRouteDef "GET" "/v1/workspaces/:workspace_id/projects" policyActionTenancyRead "project" "workspace_id";
  mkRouteDef "POST" "/v1/workspaces/:workspace_id/projects" policyActionTenancyWrite "project" "workspace_id";
  mkRouteDef "GET" "/v1/workspaces/:workspace_id/projects/:project_id" policyActionTenancyRead "project" "project_id";
  mkRouteDef "DELETE" "/v1/workspaces/:workspace_id/projects/:project_id" policyActionTenancyWrite "project" "project_id";
  mkRouteDef "GET" "/v1/workspaces/:workspace_id/projects/:project_id/scan-policies" policyActionTenancyRead "scan_policy" "project_id";
  mkRouteDef "POST" "/v1/workspaces/:workspace_id/projects/:project_id/scan-policies" policyActionTenancyWrite "scan_policy" "project_id";
  mkRouteDef "GET" "/v1/workspaces/:workspace_id/projects/:project_id/scan-policies/:policy_id" policyActionTenancyRead "scan_policy" "policy_id";
  mkRouteDef "DELETE" "/v1/workspaces/:workspace_id/projects/:project_id/scan-policies/:policy_id" policyActionTenancyWrite "scan_policy" "policy_id";
  mkRouteDef "GET" "/v1/workspaces/:workspace_id/projects/:project_id/kubernetes/connection" policyActionTenancyRead "project" "project_id";
  mkRouteDef "POST" "/v1/workspaces/:workspace_id/projects/:project_id/kubernetes/connection" policyActionTenancyWrite "project" "project_id";
  mkRouteDef "POST" "/v1/connectors/aws" policyActionTenancyWrite "connector" "";
  mkRouteDef "POST" "/v1/connectors/aws/:connector_id/validate" policyActionTenancyWrite "connector" "connector_id";
  mkRouteDef "GET" "/v1/connectors/aws/:connector_id/poll" policyActionTenancyRead "connector" "connector_id";
  mkRouteDef "POST" "/v1/connectors/aws/:connector_id/disconnect" policyActionTenancyWrite "connector" "connector_id";
  mkRouteDef "POST" "/v1/connectors/aws/:connector_id/disable" policyActionTenancyWrite "connector" "connector_id";
  mkRouteDef "POST" "/v1/connectors/aws/:connector_id/enable" policyActionTenancyWrite "connector" "connector_id";
  mkRouteDef "POST" "/v1/connectors/aws/:connector_id/refresh-policy" policyActionTenancyWrite "connector" "connector_id";
  mkRouteDef "POST" "/v1/connectors/github" policyActionTenancyWrite "connector" "";
  mkRouteDef "GET" "/v1/connectors/github" policyActionTenancyRead "connector" "";
  mkRouteDef "POST" "/v1/connectors/github/complete" policyActionTenancyWrite "connector" "";
  mkRouteDef "POST" "/v1/connectors/github/pat" policyActionTenancyWrite "connector" "";
  mkRouteDef "GET" "/v1/connectors/github/:connector_id/repos" policyActionTenancyRead "connector" "connector_id";
  mkRouteDef "GET" "/v1/connectors/github/:connector_id/posture" policyActionTenancyRead "connector" "connector_id";
  mkRouteDef "POST" "/v1/connectors/k8s" policyActionTenancyWrite "connector" "";
  mkRouteDef "GET" "/v1/connectors/k8s" policyActionTenancyRead "connector" "";
  mkRouteDef "POST" "/v1/connectors/k8s/kubeconfig" policyActionTenancyWrite "connector" "";
  mkRouteDef "POST" "/v1/connectors/k8s/enroll" policyActionTenancyWrite "connector" "";
  mkRouteDef "POST" "/v1/connectors/k8s/heartbeat" policyActionTenancyWrite "connector" "";
  mkRouteDef "POST" "/v1/workspaces/:workspace_id/projects/:project_id/aws/connection" policyActionTenancyWrite "project" "project_id";
  mkRouteDef "GET" "/v1/workspaces/:workspace_id/projects/:project_id/aws/connection" policyActionTenancyRead "project" "project_id";
  mkRouteDef "GET" "/v1/workspaces/:workspace_id/projects/:project_id/aws/baseline" policyActionTenancyRead "project" "project_id";
  mkRouteDef "GET" "/v1/workspaces/:workspace_id/projects/:project_id/aws/dependency-index" policyActionTenancyRead "project" "project_id";
  mkRouteDef "GET" "/v1/workspaces/:workspace_id/projects/:project_id/aws/graph-explorer" policyActionTenancyRead "project" "project_id";
  mkRouteDef "GET" "/v1/workspaces/:workspace_id/projects/:project_id/aws/validation-harness" policyActionTenancyRead "project" "project_id";
  mkRouteDef "GET" "/v1/workspaces/:workspace_id/projects/:project_id/aws/collector-contract" policyActionTenancyRead "project" "project_id";
  mkRouteDef "GET" "/v1/workspaces/:workspace_id/projects/:project_id/aws/ec2-instance-profiles" policyActionTenancyRead "project" "project_id";
  mkRouteDef "GET" "/v1/workspaces/:workspace_id/projects/:project_id/aws/ecs-task-roles" policyActionTenancyRead "project" "project_id";
  mkRouteDef "GET" "/v1/workspaces/:workspace_id/projects/:project_id/aws/lambda-execution-roles" policyActionTenancyRead "project" "project_id";
  mkRouteDef "GET" "/v1/workspaces/:workspace_id/projects/:project_id/aws/codebuild-service-roles" policyActionTenancyRead "project" "project_id";
  mkRouteDef "GET" "/v1/workspaces/:workspace_id/projects/:project_id/aws/codepipeline-deployment-roles" policyActionTenancyRead "project" "project_id";
  mkRouteDef "GET" "/v1/workspaces/:workspace_id/projects/:project_id/aws/stepfunctions-state-machine-roles" policyActionTenancyRead "project" "project_id";
  mkRouteDef "GET" "/v1/workspaces/:workspace_id/projects/:project_id/aws/event-driven-roles" policyActionTenancyRead "project" "project_id";
  mkRouteDef "GET" "/v1/workspaces/:workspace_id/projects/:project_id/aws/managed-compute-roles" policyActionTenancyRead "project" "project_id";
  mkRouteDef "GET" "/v1/workspaces/:workspace_id/projects/:project_id/aws/sagemaker-workload-roles" policyActionTenancyRead "project" "project_id";
  mkRouteDef "GET" "/v1/workspaces/:workspace_id/projects/:project_id/aws/ai-agent-identities" policyActionTenancyRead "project" "project_id";
  mkRouteDef "GET" "/v1/workspaces/:workspace_id/projects/:project_id/aws/ai-agent-identities/:agent_id" policyActionTenancyRead "ai_agent_identity" "agent_id";
  mkRouteDef "GET" "/v1/workspaces/:workspace_id/projects/:project_id/aws/machine-identity-detail" policyActionTenancyRead "project" "project_id";
  mkRouteDef "GET" "/v1/workspaces/:workspace_id/projects/:project_id/aws/agent-identity-detail" policyActionTenancyRead "project" "project_id";
  mkRouteDef "GET" "/v1/workspaces/:workspace_id/projects/:project_id/aws/remediation-center" policyActionTenancyRead "project" "project_id";
  mkRouteDef "GET" "/v1/workspaces/:workspace_id/projects/:project_id/aws/bedrock-agents" policyActionTenancyRead "project" "project_id";
  mkRouteDef "GET" "/v1/workspaces/:workspace_id/projects/:project_id/aws/runtime-events" policyActionTenancyRead "project" "project_id";
  mkRouteDef "GET" "/v1/workspaces/:workspace_id/projects/:project_id/aws/secrets-kms-runtime-access" policyActionTenancyRead "project" "project_id";
  mkRouteDef "GET" "/v1/workspaces/:workspace_id/projects/:project_id/aws/s3-runtime-access" policyActionTenancyRead "project" "project_id";
  mkRouteDef "GET" "/v1/workspaces/:workspace_id/projects/:project_id/aws/agent-runtime-access" policyActionTenancyRead "project" "project_id";
  mkRouteDef "GET" "/v1/workspaces/:workspace_id/projects/:project_id/aws/ai-agent-risk" policyActionTenancyRead "project" "project_id";
  mkRouteDef "GET" "/v1/workspaces/:workspace_id/projects/:project_id/aws/remediation-cases" policyActionTenancyRead "project" "project_id";
  mkRouteDef "GET" "/v1/workspaces/:workspace_id/projects/:project_id/aws/iam-policy-diffs" policyActionTenancyRead "project" "project_id";
  mkRouteDef "GET" "/v1/workspaces/:workspace_id/projects/:project_id/aws/trust-policy-hardening" policyActionTenancyRead "project" "project_id";
  mkRouteDef "GET" "/v1/workspaces/:workspace_id/projects/:project_id/aws/permission-boundary-scp" policyActionTenancyRead "project" "project_id";
  mkRouteDef "GET" "/v1/workspaces/:workspace_id/projects/:project_id/aws/permission-boundary-executor" policyActionTenancyRead "project" "project_id";
  mkRouteDef "GET" "/v1/workspaces/:workspace_id/projects/:project_id/aws/scp-guardrail-executor" policyActionTenancyRead "project" "project_id";
  mkRouteDef "GET" "/v1/workspaces/:workspace_id/projects/:project_id/aws/secret-key-rotation" policyActionTenancyRead "project" "project_id";
  mkRouteDef "GET" "/v1/workspaces/:workspace_id/projects/:project_id/aws/access-key-quarantine" policyActionTenancyRead "project" "project_id";
  mkRouteDef "GET" "/v1/workspaces/:workspace_id/projects/:project_id/aws/iac-remediation-plans" policyActionTenancyRead "project" "project_id";
  mkRouteDef "GET" "/v1/workspaces/:workspace_id/projects/:project_id/aws/remediation-approval-queue" policyActionTenancyRead "project" "project_id";
  mkRouteDef "GET" "/v1/workspaces/:workspace_id/projects/:project_id/aws/remediation-dry-run" policyActionTenancyRead "project" "project_id";
  mkRouteDef "GET" "/v1/workspaces/:workspace_id/projects/:project_id/aws/low-risk-live-remediation" policyActionTenancyRead "project" "project_id";
  mkRouteDef "GET" "/v1/workspaces/:workspace_id/projects/:project_id/aws/trust-policy-hardening-executor" policyActionTenancyRead "project" "project_id";
  mkRouteDef "GET" "/v1/workspaces/:workspace_id/projects/:project_id/aws/post-remediation-verification" policyActionTenancyRead "project" "project_id";
  mkRouteDef "GET" "/v1/workspaces/:workspace_id/projects/:project_id/aws/advisory-authorization" policyActionTenancyRead "project" "project_id";
  mkRouteDef "GET" "/v1/workspaces/:workspace_id/projects/:project_id/aws/limited-enforcement" policyActionTenancyRead "project" "project_id";
  mkRouteDef "GET" "/v1/workspaces/:workspace_id/projects/:project_id/aws/limited-enforcement-pilot" policyActionTenancyRead "project" "project_id";
  mkRouteDef "GET" "/v1/workspaces/:workspace_id/projects/:project_id/aws/governance-audit-reporting" policyActionTenancyRead "project" "project_id";
  mkRouteDef "GET" "/v1/workspaces/:workspace_id/projects/:project_id/aws/executive-outcomes" policyActionTenancyRead "project" "project_id";
  mkRouteDef "GET" "/v1/workspaces/:workspace_id/projects/:project_id/aws/platform-observability" policyActionTenancyRead "project" "project_id";
  mkRouteDef "GET" "/v1/workspaces/:workspace_id/projects/:project_id/aws/ga-demo-hardening" policyActionTenancyRead "project" "project_id";
  mkRouteDef "GET" "/v1/workspaces/:workspace_id/projects/:project_id/aws/session-policy-recommendations" policyActionTenancyRead "project" "project_id";
  mkRouteDef "GET" "/v1/workspaces/:workspace_id/projects/:project_id/aws/agentcore-gateway-policy-advisory" policyActionTenancyRead "project" "project_id";
  mkRouteDef "GET" "/v1/workspaces/:workspace_id/projects/:project_id/aws/blast-radius" policyActionTenancyRead "project" "project_id";
  mkRouteDef "GET" "/v1/workspaces/:workspace_id/projects/:project_id/aws/least-privilege" policyActionTenancyRead "project" "project_id";
  mkRouteDef "GET" "/v1/workspaces/:workspace_id/projects/:project_id/aws/unused-dormant-access" policyActionTenancyRead "project" "project_id";
  mkRouteDef "GET" "/v1/workspaces/:workspace_id/projects/:project_id/aws/identity-sprawl" policyActionTenancyRead "project" "project_id";
  mkRouteDef "GET" "/v1/workspaces/:workspace_id/projects/:project_id/aws/privilege-escalation" policyActionTenancyRead "project" "project_id";
  mkRouteDef "GET" "/v1/workspaces/:workspace_id/projects/:project_id/aws/cross-account-trust" policyActionTenancyRead "project" "project_id";
  mkRouteDef "GET" "/v1/workspaces/:workspace_id/projects/:project_id/aws/secret-permission-equivalence" policyActionTenancyRead "project" "project_id";
  mkRouteDef "GET" "/v1/workspaces/:workspace_id/projects/:project_id/aws/iam-passrole-relationships" policyActionTenancyRead "project" "project_id";
  mkRouteDef "GET" "/v1/workspaces/:workspace_id/projects/:project_id/aws/s3-bucket-reachability" policyActionTenancyRead "project" "project_id";
  mkRouteDef "GET" "/v1/workspaces/:workspace_id/projects/:project_id/aws/kms-decrypt-reachability" policyActionTenancyRead "project" "project_id";
  mkRouteDef "GET" "/v1/workspaces/:workspace_id/projects/:project_id/aws/sqs-sns-reachability" policyActionTenancyRead "project" "project_id";
  mkRouteDef "GET" "/v1/workspaces/:workspace_id/projects/:project_id/aws/dynamodb-rds-reachability" policyActionTenancyRead "project" "project_id";
  mkRouteDef "GET" "/v1/workspaces/:workspace_id/projects/:project_id/aws/credential-references" policyActionTenancyRead "project" "project_id";
  mkRouteDef "GET" "/v1/workspaces/:workspace_id/projects/:project_id/aws/coverage-plan" policyActionTenancyRead "project" "project_id";
  mkRouteDef "GET" "/v1/workspaces/:workspace_id/projects/:project_id/aws/account-region-coverage" policyActionTenancyRead "project" "project_id";
  mkRouteDef "GET" "/v1/workspaces/:workspace_id/projects/:project_id/aws/fanout-execution" policyActionTenancyRead "project" "project_id";
  mkRouteDef "GET" "/v1/workspaces/:workspace_id/projects/:project_id/aws/organizations-topology" policyActionTenancyRead "project" "project_id";
  mkRouteDef "GET" "/v1/workspaces/:workspace_id/projects/:project_id/aws/stackset-onboarding" policyActionTenancyRead "project" "project_id";
  mkRouteDef "POST" "/v1/workspaces/:workspace_id/projects/:project_id/aws/rollouts" policyActionTenancyWrite "project" "project_id";
  mkRouteDef "GET" "/v1/workspaces/:workspace_id/projects/:project_id/aws/rollouts/:rollout_id" policyActionTenancyRead "project" "project_id";
  mkRouteDef "POST" "/v1/workspaces/:workspace_id/projects/:project_id/aws/rollouts/:rollout_id/reconcile" policyActionTenancyWrite "project" "project_id";
  mkRouteDef "POST" "/v1/workspaces/:workspace_id/projects/:project_id/aws/rollouts/:rollout_id/retry" policyActionTenancyWrite "project" "project_id";
  mkRouteDef "GET" "/v1/workspaces/:workspace_id/projects/:project_id/aws/secrets-manager-metadata" policyActionTenancyRead "project" "project_id";
  mkRouteDef "GET" "/v1/workspaces/:workspace_id/projects/:project_id/aws/ssm-parameter-metadata" policyActionTenancyRead "project" "project_id";
  mkRouteDef "GET" "/v1/workspaces/:workspace_id/projects/:project_id/aws/ecr-repository-metadata" policyActionTenancyRead "project" "project_id";
  mkRouteDef "GET" "/v1/workspaces/:workspace_id/projects/:project_id/aws/eks-workload-identities" policyActionTenancyRead "project" "project_id";
  mkRouteDef "POST" "/v1/workspaces/:workspace_id/projects/:project_id/aws/baseline" policyActionScansRun "project" "project_id";
  mkRouteDef "POST" "/v1/workspaces/:workspace_id/projects/:project_id/github/connect/start" policyActionTenancyWrite "project" "project_id";
  mkRouteDef "POST" "/v1/workspaces/:workspace_id/projects/:project_id/github/connect/complete" policyActionTenancyWrite "project" "project_id";
  mkRouteDef "GET" "/v1/workspaces/:workspace_id/projects/:project_id/github/connection" policyActionTenancyRead "project" "project_id";
  mkRouteDef "PUT" "/v1/workspaces/:workspace_id/projects/:project_id/github/repositories" policyActionTenancyWrite "project" "project_id";
  mkRouteDef "POST" "/v1/workspaces/:workspace_id/projects/:project_id/github/secret/rotate" policyActionTenancyWrite "project" "project_id"
].

Definition defaultBuiltInRouteAuthorizationPolicyBundle : routeAuthorizationPolicyBundle :=
  mkBundle routeAuthorizationPolicyBundleSchemaV1 defaultBuiltInRoutePolicyDefinitions
    defaultRouteActionRoleGrants defaultRouteActionABACPolicies defaultRouteActionReBACPolicies.

Definition compileBuiltInRouteAuthorizationPolicyBundle `{MapRange} : result compiledRouteAuthorizationPolicy :=
  compileRouteAuthorizationPolicyBundle defaultBuiltInRouteAuthorizationPolicyBundle.

(** [newRoutePolicyRegistry]. *)
Definition newRoutePolicyRegistry `{MapRange} : routePolicyRegistry :=
  match compileBuiltInRouteAuthorizationPolicyBundle with
  | Ok compiled => RouteRegistry compiled
  | Err _ => ∅
  end.

Definition newCentralPolicyEngine `{MapRange} {T} `{RelationshipStore T} (store : option T) : PolicyEngine :=
  newCentralPolicyEngineFromCompiled store
    (match compileBuiltInRouteAuthorizationPolicyBundle with
     | Ok compiled => compiled
     | Err _ => emptyCompiledRouteAuthorizationPolicy
     end).

(** The grants shipped before the workspace roles were added. *)
Definition legacyDefaultRouteAuthorizationPolicyBundle : routeAuthorizationPolicyBundle :=
  mkBundle routeAuthorizationPolicyBundleSchemaV1 defaultBuiltInRoutePolicyDefinitions
    (<[policyActionGraphRead := [scopeRead; scopeWrite; scopeAdmin]]>
     (<[policyActionFindingsTriage := [scopeWrite; scopeAdmin]]>
      (<[policyActionFindingsRead := [scopeRead; scopeWrite; scopeAdmin]]> defaultRouteActionRoleGrants)))
    defaultRouteActionABACPolicies defaultRouteActionReBACPolicies.

(** [reflect.DeepEqual] on compiled policies, whose maps and slices are never nil. *)
Definition isLegacyDefaultRouteAuthorizationPolicy `{MapRange} (compiled : compiledRouteAuthorizationPolicy) : bool :=
  match compileRouteAuthorizationPolicyBundle legacyDefaultRouteAuthorizationPolicyBundle with
  | Err _ => false
  | Ok legacy => bool_decide (compiled = legacy)
  end.

(** ** What the built-in bundle compiles to *)
Definition builtin_compiled : compiledRouteAuthorizationPolicy :=
  ok_or emptyCompiledRouteAuthorizationPolicy (@compileBuiltInRouteAuthorizationPolicyBundle canonical_range).

Lemma builtin_compiles_canonical :
  @compileBuiltInRouteAuthorizationPolicyBundle canonical_range = Ok builtin_compiled.
Proof. apply is_ok_or. by vm_compute. Qed.

Lemma builtin_compiles `{MapRange} : compileBuiltInRouteAuthorizationPolicyBundle = Ok builtin_compiled.
Proof.
  unfold compileBuiltInRouteAuthorizationPolicyBundle.
  apply (compile_order _ canonical_range);
    [apply canonical_keys_fixed..|apply builtin_compiles_canonical];
    by apply (bool_decide_unpack _); vm_compute.
Qed.

Lemma builtin_compiled_wf : compiled_wf builtin_compiled.
Proof.
  apply (@compile_wf canonical_range defaultBuiltInRouteAuthorizationPolicyBundle).
  apply builtin_compiles_canonical.
Qed.

(** The built-in bundle compiles, under every iteration order, to one and
    the same well-formed policy, with one registry entry for each of its 186
    routes; so the engine never falls back to the empty policy. *)
Theorem built_in_bundle_compiles `{MapRange} :
  compileBuiltInRouteAuthorizationPolicyBundle = Ok builtin_compiled ∧ compiled_wf builtin_compiled ∧
  size (RouteRegistry builtin_compiled) = length defaultBuiltInRoutePolicyDefinitions ∧
  length defaultBuiltInRoutePolicyDefinitions = 186%nat.
Proof.
  split_and!; [apply builtin_compiles|apply builtin_compiled_wf|by vm_compute|by vm_compute].
Qed.

(** The roles an action is granted to. *)
Lemma builtin_allowed `{MapRange} {T} `{RelationshipStore T} (store : option T) ctx input d roles :
  Decide (Some (newCentralPolicyEngine store)) ctx input = Ok d → Decision_Allowed d = true →
  RBACActionRole builtin_compiled !! canon (Input_Action input) = Some roles →
  ∃ role, role ∈ Subject_Roles (Input_Subject input) ∧ canon role ∈ roles.
Proof.
  unfold newCentralPolicyEngine. rewrite builtin_compiles. intros Hd Ha Hroles.
  destruct (compiled_engine_role store _ ctx input d builtin_compiled_wf Hd Ha)
    as (_ & _ & roles' & role & Hr & ? & ?).
  rewrite Hroles in Hr. injection Hr as Hr. subst roles'. exists role. split; assumption.
Qed.

(** Privileged actions of the built-in policy: over any store and
    iteration order, owner-only workspace actions are allowed to holders of the
    workspace role [owner] and no one else (an API-key scope never suffices),
    policy simulation and rollback to the [admin] role only, and every state
    changing action only to holders of [write], [admin] or [owner]. *)
Theorem built_in_privileged_actions `{MapRange} {T} `{RelationshipStore T} (store : option T)
    (ctx : Context) (input : PolicyInput) (d : PolicyDecision)
    (Hdecide : Decide (Some (newCentralPolicyEngine store)) ctx input = Ok d)
    (Hallowed : Decision_Allowed d = true) :
  let holds roles := ∃ role, role ∈ Subject_Roles (Input_Subject input) ∧ canon role ∈ roles in
  let action := canon (Input_Action input) in
  (action = policyActionTenancyOwner → holds ["owner"]) ∧
  (action ∈ [policyActionAuthzSimulate; policyActionAuthzRollback] → holds [scopeAdmin]) ∧
  (action ∈ [policyActionFindingsTriage; policyActionScansRun; policyActionScansReplay; policyActionRepoScansRun;
             policyActionTenancyWrite; policyActionEnterpriseWrite] → holds ["admin"; "owner"; scopeWrite]).
Proof.
  cbv zeta.
  split_and!; intros Ha; rewrite ?elem_of_cons, ?elem_of_nil in Ha; destruct_or? Ha; try done;
    (eapply builtin_allowed; [exact Hdecide|exact Hallowed|rewrite Ha; by vm_compute]).
Qed.

(** ** Witness *)
#[local] Existing Instance canonical_range.
#[local] Existing Instance insertion_sort.

Definition sample_owner_input : PolicyInput :=
  mkPolicyInput (mkPolicySubject "subject" "u1" "acme" "prod" [] ["authenticated"; "Owner"] ∅) "tenancy.owner"
    (mkPolicyResource "workspace" "prod" "acme" "prod" ∅) (mkPolicyContext "" "" 0 ∅).

Lemma built_in_privileged_actions_witness :
  let holds roles := ∃ role, role ∈ ["authenticated"; "Owner"] ∧ canon role ∈ roles in
  ("tenancy.owner" = policyActionTenancyOwner → holds ["owner"]) ∧
  ("tenancy.owner" ∈ [policyActionAuthzSimulate; policyActionAuthzRollback] → holds [scopeAdmin]) ∧
  ("tenancy.owner" ∈ [policyActionFindingsTriage; policyActionScansRun; policyActionScansReplay;
     policyActionRepoScansRun; policyActionTenancyWrite; policyActionEnterpriseWrite] →
   holds ["admin"; "owner"; scopeWrite]).
Proof.
  apply (built_in_privileged_actions (Some (sample_tuples, 50)) sample_ctx sample_owner_input
    (mkPolicyDecision true PolicyStageABAC "abac policy grants action")).
  - by vm_compute.
  - reflexivity.
Defined.
