(* ===== verification/PolicyRuntime.v ===== *)
(** * Resolving the policy that decides a request
    (internal/api/authz_policy_bundle_runtime.go, internal/api/authz_middleware.go)

    The store-backed resolver with its compiled-version cache, the rollout
    normalizer, and the rollout targeting rules. *)
From S2P Require Import Prelude GoStrings GoCollections GoTime Scope.
From S2P Require Import PolicyEngine PolicyEvaluators AuthzRecords AuthzStore Rebac PolicyBundle BuiltinPolicy.

(** ** What the resolver uses of [db.Store] *)
Class PolicyStore (T : Type) := {
  ps_relationships :: RelationshipStore T;
  ps_GetAuthzPolicyRollout : T → Context → string → result AuthzPolicyRollout;
  ps_GetAuthzPolicyVersion : T → Context → string → Z → result AuthzPolicyVersion;
}.

#[export] Instance memory_policy_store `{MapRange, SortSlice} : PolicyStore (AuthzState * Z) := {|
  ps_relationships := memory_relationship_store;
  ps_GetAuthzPolicyRollout := λ store ctx id, GetAuthzPolicyRollout ctx id store.1;
  ps_GetAuthzPolicyVersion := λ store ctx id version, GetAuthzPolicyVersion ctx id version store.1;
|}.

(** ** Rollouts as the runtime reads them *)
Definition normalizeRuntimeAllowlist (values : list string) : list string :=
  SortStrings (unique (nonempty_map TrimSpace values)).
Definition normalizeRuntimeValidatedVersions (values : list Z) : list Z :=
  SortInts (unique (filter (λ value, 0 < value) values)).

Definition normalizeRuntimeRollout (rollout : AuthzPolicyRollout) (policySetID : string) : AuthzPolicyRollout :=
  let id := canon policySetID in
  let mode := canon (Rollout_Mode rollout) in
  let mode := if decide (mode = "") then AuthzPolicyRolloutModeDisabled else mode in
  let canary := Rollout_CanaryPercentage rollout in
  let canary := if canary <=? 0 then 100 else canary in
  mkRollout (Rollout_TenantID rollout) (Rollout_WorkspaceID rollout)
    (if decide (id = "") then defaultCentralPolicySetID else id)
    (Rollout_ActiveVersion rollout) (Rollout_CandidateVersion rollout)
    (if decide (mode ∈ validAuthzPolicyRolloutModes) then mode else AuthzPolicyRolloutModeDisabled)
    (normalizeRuntimeAllowlist (Rollout_TenantAllowlist rollout))
    (normalizeRuntimeAllowlist (Rollout_WorkspaceAllowlist rollout))
    (if 100 <? canary then 100 else canary)
    (normalizeRuntimeValidatedVersions (Rollout_ValidatedVersions rollout))
    (Rollout_UpdatedBy rollout) (Rollout_UpdatedAt rollout).

(** ** The resolver *)
Record resolvedCentralPolicyRuntime := mkRuntime {
  Runtime_Engine : option PolicyEngine;
  Runtime_Registry : routePolicyRegistry;
  Runtime_Source : string;
  Runtime_PolicySetID : string;
  Runtime_Version : Z;
  Runtime_RolloutMode : string;
  Runtime_Rollout : AuthzPolicyRollout;
  Runtime_CandidateEngine : option PolicyEngine;
  Runtime_CandidateSource : string;
  Runtime_CandidateVersion : Z;
}.

(** [storeBackedCentralPolicyRuntimeResolver]; its [cacheByKey] is passed
    along separately. *)
Record policyResolver (T : Type) := mkResolver {
  Resolver_store : option T;
  Resolver_policySet : string;
  Resolver_fallback : compiledRouteAuthorizationPolicy;
  Resolver_initErr : option error;
}.
Arguments mkResolver {_} _ _ _ _.
Arguments Resolver_store {_} _.
Arguments Resolver_policySet {_} _.
Arguments Resolver_fallback {_} _.
Arguments Resolver_initErr {_} _.

Abbreviation versionCache := (gmap string compiledRouteAuthorizationPolicy).

Definition zero_rollout (policySet : string) : AuthzPolicyRollout :=
  mkRollout "" "" policySet None None AuthzPolicyRolloutModeDisabled [] [] 100 [] "" time_zero.

(** The compatibility routes added after bundles were persisted. *)
Definition compatibility_routes : list routePolicyDefinition := [
  mkRouteDef "GET" "/v1/scans/:scan_id" policyActionScansRead "scan" "scan_id";
  mkRouteDef "POST" "/v1/workspaces/:workspace_id/projects/:project_id/aws/rollouts/:rollout_id/reconcile"
    policyActionTenancyWrite "project" "project_id";
  mkRouteDef "POST" "/v1/workspaces/:workspace_id/projects/:project_id/aws/rollouts/:rollout_id/retry"
    policyActionTenancyWrite "project" "project_id"
].

Definition version_cache_key (version : AuthzPolicyVersion) : string :=
  canon (Version_PolicySetID version) +:+ "|" +:+ Itoa (Version_Version version) +:+ "|" +:+
  canon (Version_Checksum version).

Section resolver.
Context `{MapRange, BundleDecoder} {T : Type} `{PolicyStore T}.

Definition newCentralPolicyRuntimeResolverWithPolicySet (store : option T) (policySetID : string)
    : policyResolver T :=
  let policySet := TrimSpace policySetID in
  let policySet := if decide (policySet = "") then defaultCentralPolicySetID else policySet in
  match compileBuiltInRouteAuthorizationPolicyBundle with
  | Ok compiled => mkResolver store policySet compiled None
  | Err err => mkResolver store policySet emptyCompiledRouteAuthorizationPolicy
                 (Some (Wrap "compile built-in policy bundle" err))
  end.

Definition newCentralPolicyRuntimeResolver (store : option T) : policyResolver T :=
  newCentralPolicyRuntimeResolverWithPolicySet store defaultCentralPolicySetID.

(** Compiling one stored version, without the cache. *)
Definition compile_version (r : policyResolver T) (version : AuthzPolicyVersion)
    : result compiledRouteAuthorizationPolicy :=
  match compileRouteAuthorizationPolicyBundleJSON (Version_Bundle version) with
  | Err err => Err (Wrap ("compile policy version " +:+ Itoa (Version_Version version)) err)
  | Ok compiled =>
      let compiled :=
        if EqualFold (TrimSpace (Resolver_policySet r)) defaultCentralPolicySetID &&
           isLegacyDefaultRouteAuthorizationPolicy compiled
        then upgradeLegacyDefaultRoleGrants compiled (Resolver_fallback r) else compiled in
      Ok (overlayRouteAuthorizationPolicyCompatibility compiled (Resolver_fallback r) compatibility_routes)
  end.

Definition compiledVersion (r : policyResolver T) (version : AuthzPolicyVersion) (cache : versionCache)
    : result compiledRouteAuthorizationPolicy * versionCache :=
  let cacheKey := version_cache_key version in
  let cached := if decide (cacheKey ≠ "||") then cache !! cacheKey else None in
  match cached with
  | Some compiled => (Ok compiled, cache)
  | None =>
      match compile_version r version with
      | Err err => (Err err, cache)
      | Ok compiled => (Ok compiled, if decide (cacheKey ≠ "||") then <[cacheKey := compiled]> cache else cache)
      end
  end.

Definition fallbackRuntime (r : policyResolver T) : resolvedCentralPolicyRuntime :=
  mkRuntime (Some (newCentralPolicyEngineFromCompiled (Resolver_store r) (Resolver_fallback r)))
    (RouteRegistry (Resolver_fallback r)) "built_in_default" (Resolver_policySet r) 0
    AuthzPolicyRolloutModeDisabled (zero_rollout (Resolver_policySet r)) None "" 0.

Definition with_rollout (rollout : AuthzPolicyRollout) (rt : resolvedCentralPolicyRuntime) :=
  mkRuntime (Runtime_Engine rt) (Runtime_Registry rt) (Runtime_Source rt) (Runtime_PolicySetID rt)
    (Runtime_Version rt) (Rollout_Mode rollout) rollout (Runtime_CandidateEngine rt)
    (Runtime_CandidateSource rt) (Runtime_CandidateVersion rt).
Definition with_active (store : T) (compiled : compiledRouteAuthorizationPolicy) (version : Z)
    (rt : resolvedCentralPolicyRuntime) :=
  mkRuntime (Some (newCentralPolicyEngineFromCompiled (Some store) compiled)) (RouteRegistry compiled)
    "persisted_active_version" (Runtime_PolicySetID rt) version (Runtime_RolloutMode rt) (Runtime_Rollout rt)
    (Runtime_CandidateEngine rt) (Runtime_CandidateSource rt) (Runtime_CandidateVersion rt).
Definition with_candidate (store : T) (compiled : compiledRouteAuthorizationPolicy) (version : Z)
    (rt : resolvedCentralPolicyRuntime) :=
  mkRuntime (Runtime_Engine rt) (Runtime_Registry rt) (Runtime_Source rt) (Runtime_PolicySetID rt)
    (Runtime_Version rt) (Runtime_RolloutMode rt) (Runtime_Rollout rt)
    (Some (newCentralPolicyEngineFromCompiled (Some store) compiled)) "persisted_candidate_version" version.

(** One of the two version pointers: a missing version or one that does not
    compile leaves the runtime as it is; any other store error fails. *)
Definition resolve_pointer (r : policyResolver T) (store : T) (ctx : Context) (pointer : option Z)
    (what : string) (apply : compiledRouteAuthorizationPolicy → Z → resolvedCentralPolicyRuntime → resolvedCentralPolicyRuntime)
    (rt : resolvedCentralPolicyRuntime) (cache : versionCache)
    : result resolvedCentralPolicyRuntime * versionCache :=
  match pointer with
  | None => (Ok rt, cache)
  | Some v =>
      if 0 <? v then
        match ps_GetAuthzPolicyVersion store ctx (Resolver_policySet r) v with
        | Err err => if errors_is err ErrNotFound then (Ok rt, cache) else (Err (Wrap what err), cache)
        | Ok version =>
            match compiledVersion r version cache with
            | (Ok compiled, cache) => (Ok (apply compiled (Version_Version version) rt), cache)
            | (Err _, cache) => (Ok rt, cache)
            end
        end
      else (Ok rt, cache)
  end.

Definition Resolve (r : option (policyResolver T)) (ctx : Context) (cache : versionCache)
    : result resolvedCentralPolicyRuntime * versionCache :=
  match r with
  | None =>
      match compileBuiltInRouteAuthorizationPolicyBundle with
      | Err err => (Err (Wrap "compile built-in policy bundle" err), cache)
      | Ok compiled =>
          (Ok (mkRuntime (Some (newCentralPolicyEngineFromCompiled (None : option T) compiled)) (RouteRegistry compiled)
                 "built_in_default" defaultCentralPolicySetID 0 AuthzPolicyRolloutModeDisabled
                 (zero_rollout defaultCentralPolicySetID) None "" 0), cache)
      end
  | Some r =>
      match Resolver_initErr r with
      | Some err => (Err err, cache)
      | None =>
          match Resolver_store r with
          | None => (Ok (fallbackRuntime r), cache)
          | Some store =>
              match ps_GetAuthzPolicyRollout store ctx (Resolver_policySet r) with
              | Err err => if errors_is err ErrNotFound then (Ok (fallbackRuntime r), cache)
                           else (Err (Wrap "resolve policy rollout" err), cache)
              | Ok rollout =>
                  let rollout := normalizeRuntimeRollout rollout (Resolver_policySet r) in
                  match resolve_pointer r store ctx (Rollout_ActiveVersion rollout)
                          "resolve active policy version" (with_active store)
                          (with_rollout rollout (fallbackRuntime r)) cache with
                  | (Err err, cache) => (Err err, cache)
                  | (Ok rt, cache) =>
                      resolve_pointer r store ctx (Rollout_CandidateVersion rollout)
                        "resolve candidate policy version" (with_candidate store) rt cache
                  end
              end
          end
      end
  end.
End resolver.

(** ** Rollout targeting *)
Definition firstNonEmpty (primary fallback : string) : string :=
  if decide (TrimSpace primary ≠ "") then TrimSpace primary else TrimSpace fallback.

Definition deterministicCanaryBucket (seed : string) : Z := fnv1a_64 (TrimSpace seed) `mod` 100.

Definition containsStringExact (values : list string) (target : string) : bool :=
  existsb (λ candidate, bool_decide (TrimSpace candidate = TrimSpace target)) values.

Definition rolloutVersionValidated (rollout : AuthzPolicyRollout) (version : Z) : bool :=
  if version <=? 0 then false else bool_decide (version ∈ Rollout_ValidatedVersions rollout).

Definition request_tenant (input : PolicyInput) : string :=
  firstNonEmpty (Resource_TenantID (Input_Resource input))
    (firstNonEmpty (Subject_TenantID (Input_Subject input))
       (TrimSpace (attribute (Context_Attributes (Input_Context input)) policyContextTenantIDKey))).
Definition request_workspace (input : PolicyInput) : string :=
  firstNonEmpty (Resource_WorkspaceID (Input_Resource input))
    (firstNonEmpty (Subject_WorkspaceID (Input_Subject input))
       (TrimSpace (attribute (Context_Attributes (Input_Context input)) policyContextWorkspaceIDKey))).

(** What the bucket of a request is computed from. *)
Definition canary_seed (rollout : AuthzPolicyRollout) (input : PolicyInput) : string :=
  Join [TrimSpace (Rollout_PolicySetID rollout); request_tenant input; request_workspace input;
        TrimSpace (Subject_Type (Input_Subject input)); TrimSpace (Subject_ID (Input_Subject input));
        TrimSpace (Input_Action input);
        TrimSpace (Resource_Type (Input_Resource input)); TrimSpace (Resource_ID (Input_Resource input))] "|".

#[global] Arguments canary_seed : simpl never.
#[global] Arguments deterministicCanaryBucket : simpl never.

Definition allowlisted (allowlist : list string) (target : string) : bool :=
  bool_decide (allowlist = []) || containsStringExact allowlist target.

Definition shouldTargetRolloutRequest (rollout : AuthzPolicyRollout) (input : PolicyInput) : bool :=
  let canary := Rollout_CanaryPercentage rollout in
  if canary <=? 0 then false
  else
    let canary := if 100 <? canary then 100 else canary in
    if negb (allowlisted (Rollout_TenantAllowlist rollout) (request_tenant input)) then false
    else if negb (allowlisted (Rollout_WorkspaceAllowlist rollout) (request_workspace input)) then false
    else if 100 <=? canary then true
    else deterministicCanaryBucket (canary_seed rollout input) <? canary.

Definition policyDecisionsDiverge (current candidate : PolicyDecision) : bool :=
  negb (bool_decide (Decision_Allowed current = Decision_Allowed candidate)) ||
  negb (bool_decide (Decision_Stage current = Decision_Stage candidate)).

(** The candidate engine decides this request. *)
Definition enforces_candidate (rt : resolvedCentralPolicyRuntime) (input : PolicyInput) : bool :=
  bool_decide (Rollout_Mode (Runtime_Rollout rt) = AuthzPolicyRolloutModeEnforce) &&
  shouldTargetRolloutRequest (Runtime_Rollout rt) input &&
  bool_decide (is_Some (Runtime_CandidateEngine rt)) &&
  rolloutVersionValidated (Runtime_Rollout rt) (Runtime_CandidateVersion rt).

Definition decision_engine (rt : resolvedCentralPolicyRuntime) (input : PolicyInput) : option PolicyEngine :=
  if enforces_candidate rt input then Runtime_CandidateEngine rt else Runtime_Engine rt.

(** ** Facts: rollouts *)

Lemma deterministicCanaryBucket_range seed : 0 ≤ deterministicCanaryBucket seed < 100.
Proof. apply Z.mod_pos_bound. lia. Qed.

(** The rollout with another canary percentage. *)
Definition with_canary (percentage : Z) (r : AuthzPolicyRollout) : AuthzPolicyRollout :=
  mkRollout (Rollout_TenantID r) (Rollout_WorkspaceID r) (Rollout_PolicySetID r) (Rollout_ActiveVersion r)
    (Rollout_CandidateVersion r) (Rollout_Mode r) (Rollout_TenantAllowlist r) (Rollout_WorkspaceAllowlist r)
    percentage (Rollout_ValidatedVersions r) (Rollout_UpdatedBy r) (Rollout_UpdatedAt r).

Lemma shouldTargetRolloutRequest_spec rollout input :
  shouldTargetRolloutRequest rollout input = true ↔
  0 < Rollout_CanaryPercentage rollout ∧
  allowlisted (Rollout_TenantAllowlist rollout) (request_tenant input) = true ∧
  allowlisted (Rollout_WorkspaceAllowlist rollout) (request_workspace input) = true ∧
  deterministicCanaryBucket (canary_seed rollout input) < Rollout_CanaryPercentage rollout.
Proof.
  unfold shouldTargetRolloutRequest. cbv zeta.
  pose proof (deterministicCanaryBucket_range (canary_seed rollout input)) as Hb.
  destruct (Rollout_CanaryPercentage rollout <=? 0) eqn:E0; boolify; [split; [done|lia]|].
  destruct (allowlisted (Rollout_TenantAllowlist rollout) _); cbn; [|naive_solver].
  destruct (allowlisted (Rollout_WorkspaceAllowlist rollout) _); cbn; [|naive_solver].
  destruct (100 <? Rollout_CanaryPercentage rollout) eqn:E1; boolify; cbn;
    [split; [intros _; split_and!; first [lia|done]|done]|].
  destruct (100 <=? Rollout_CanaryPercentage rollout) eqn:E2; boolify.
  - split; [intros _; split_and!; first [lia|done]|done].
  - rewrite Z.ltb_lt. split; [intros; split_and!; first [lia|done]|tauto].
Qed.

(** Canary targeting is deterministic and monotone: a request's bucket
    lies in [0, 100) and does not depend on the percentage, a request is targeted
    exactly when the allowlists admit it and its bucket is below the percentage, so
    raising the percentage only ever adds requests, a percentage of zero or less
    targets none and one of 100 or more every admitted one. *)
Theorem canary_targeting (rollout : AuthzPolicyRollout) (input : PolicyInput) (p q : Z) :
  0 ≤ deterministicCanaryBucket (canary_seed rollout input) < 100 ∧
  (shouldTargetRolloutRequest (with_canary p rollout) input = true ↔
     0 < p ∧ allowlisted (Rollout_TenantAllowlist rollout) (request_tenant input) = true ∧
     allowlisted (Rollout_WorkspaceAllowlist rollout) (request_workspace input) = true ∧
     deterministicCanaryBucket (canary_seed rollout input) < p) ∧
  (p ≤ q → shouldTargetRolloutRequest (with_canary p rollout) input = true →
     shouldTargetRolloutRequest (with_canary q rollout) input = true) ∧
  (p ≤ 0 → shouldTargetRolloutRequest (with_canary p rollout) input = false) ∧
  (100 ≤ p → shouldTargetRolloutRequest (with_canary p rollout) input =
     allowlisted (Rollout_TenantAllowlist rollout) (request_tenant input) &&
     allowlisted (Rollout_WorkspaceAllowlist rollout) (request_workspace input)).
Proof.
  pose proof (deterministicCanaryBucket_range (canary_seed rollout input)) as Hb.
  pose proof (λ p, shouldTargetRolloutRequest_spec (with_canary p rollout) input) as Hs.
  change (canary_seed (with_canary _ rollout) input) with (canary_seed rollout input) in Hs. cbn in Hs.
  split_and!; [lia|lia|apply Hs| | |].
  - rewrite !Hs. intros. naive_solver lia.
  - intros Hp. destruct (shouldTargetRolloutRequest _ _) eqn:E; [|done]. apply Hs in E. lia.
  - intros Hp. apply eq_bool_prop_intro. rewrite !Is_true_true, Hs, andb_true_iff. naive_solver lia.
Qed.

Lemma normalizeRuntimeValidatedVersions_id l :
  NoDup l → StronglySorted (λ x y, (x <=? y) = true) l → Forall (λ v, 0 < v) l →
  normalizeRuntimeValidatedVersions l = l.
Proof.
  intros Hd Hs Hf. unfold normalizeRuntimeValidatedVersions.
  assert (filter (λ v, 0 < v) l = l) as ->.
  { clear Hd Hs. induction Hf as [|v l Hv _ IH]; [done|]. by rewrite filter_cons_True, IH. }
  by rewrite unique_id, SortInts_id.
Qed.

(** What the store accepted, the runtime reads unchanged. *)
Lemma normalizeRuntimeRollout_id r :
  rollout_normal r → normalizeRuntimeRollout r (Rollout_PolicySetID r) = r.
Proof.
  intros [(Hid & Hne & _) Hm Hc Ha Hcd Ht Hw (Hv1 & Hv2 & Hv3) He]. unfold normalizeRuntimeRollout.
  rewrite Hid, decide_False by done. destruct (rollout_mode_canon _ Hm) as [-> Hmne].
  rewrite (decide_False (P := Rollout_Mode r = "")), decide_True by done.
  rewrite (proj2 (Z.leb_gt (Rollout_CanaryPercentage r) 0)), (proj2 (Z.ltb_ge 100 _)) by lia.
  change normalizeRuntimeAllowlist with normalizeAuthzRolloutAllowlist.
  rewrite !normalizeAuthzRolloutAllowlist_id, normalizeRuntimeValidatedVersions_id by done.
  by destruct r.
Qed.

(** ** Facts: the resolver *)
Section resolver_facts.
Context `{MapRange, BundleDecoder} {T : Type} `{PolicyStore T}.
Implicit Types (r : policyResolver T) (cache : versionCache).

Definition cache_wf cache : Prop := map_Forall (λ _ c, compiled_wf c) cache.

Lemma compile_version_wf r version c :
  compiled_wf (Resolver_fallback r) → compile_version r version = Ok c → compiled_wf c.
Proof.
  intros Hf Hc. unfold compile_version in Hc.
  destruct (compileRouteAuthorizationPolicyBundleJSON _) as [compiled|] eqn:E; [|done].
  apply Ok_inj in Hc as <-. apply overlay_wf; [done|].
  assert (compiled_wf compiled) as Hw.
  { unfold compileRouteAuthorizationPolicyBundleJSON in E. open_bind E [] _.
    destruct (json_Unmarshal_bundle _) as [bundle|]; [|done]. by apply (compile_wf bundle). }
  destruct (_ && _); [by apply upgrade_wf|done].
Qed.

Lemma compiledVersion_wf r version cache res cache' :
  compiled_wf (Resolver_fallback r) → cache_wf cache → compiledVersion r version cache = (res, cache') →
  cache_wf cache' ∧ ∀ c, res = Ok c → compiled_wf c.
Proof.
  intros Hf Hcache. unfold compiledVersion.
  destruct (if decide (version_cache_key version ≠ "||") then _ else None) as [c|] eqn:E.
  { intros [= <- <-]. split; [done|]. intros c' [= <-]. case_decide; [|done]. exact (map_Forall_lookup_1 _ _ _ _ Hcache E). }
  destruct (compile_version r version) as [c|err] eqn:Ec; intros [= <- <-]; [|done].
  pose proof (compile_version_wf _ _ _ Hf Ec) as Hw. split; [|by intros c' [= <-]].
  case_decide; [|done]. by apply map_Forall_insert_2.
Qed.

(** Engines come from well-formed policies. *)
Definition engine_ok (store : option T) (e : option PolicyEngine) : Prop :=
  ∀ p, e = Some p → ∃ c, compiled_wf c ∧ p = newCentralPolicyEngineFromCompiled store c.
Definition runtime_ok (store : option T) (rt : resolvedCentralPolicyRuntime) : Prop :=
  engine_ok store (Runtime_Engine rt) ∧ engine_ok store (Runtime_CandidateEngine rt) ∧
  ∃ c, compiled_wf c ∧ Runtime_Registry rt = RouteRegistry c.

Lemma resolve_pointer_ok r store ctx pointer what apply rt cache res cache' :
  compiled_wf (Resolver_fallback r) → cache_wf cache → runtime_ok (Some store) rt →
  (∀ c v rt, compiled_wf c → runtime_ok (Some store) rt → runtime_ok (Some store) (apply c v rt)) →
  resolve_pointer r store ctx pointer what apply rt cache = (res, cache') →
  cache_wf cache' ∧ ∀ rt', res = Ok rt' → runtime_ok (Some store) rt'.
Proof.
  intros Hf Hcache Hrt Happly. unfold resolve_pointer.
  destruct pointer as [v|]; [|intros [= <- <-]; split; [done|by intros ? [= <-]]].
  destruct (0 <? v); [|intros [= <- <-]; split; [done|by intros ? [= <-]]].
  destruct (ps_GetAuthzPolicyVersion store ctx _ v) as [version|err].
  - destruct (compiledVersion r version cache) as [cres cache2] eqn:E.
    destruct (compiledVersion_wf _ _ _ _ _ Hf Hcache E) as [Hc2 Hres].
    destruct cres as [compiled|]; intros [= <- <-]; (split; [done|intros rt' [= <-]; auto]).
  - destruct (errors_is err ErrNotFound); intros [= <- <-]; (split; [done|by intros ? [= <-]]).
Qed.

Lemma with_active_ok store c v rt :
  compiled_wf c → runtime_ok (Some store) rt → runtime_ok (Some store) (with_active store c v rt).
Proof.
  intros Hc (_ & Hcand & _). split_and!; [|done|by exists c]. intros p [= <-]. by exists c.
Qed.
Lemma with_candidate_ok store c v rt :
  compiled_wf c → runtime_ok (Some store) rt → runtime_ok (Some store) (with_candidate store c v rt).
Proof. intros Hc (He & _ & Hreg). split_and!; [done| |done]. intros p [= <-]. by exists c. Qed.

Lemma new_resolver store id :
  ∃ policySet, newCentralPolicyRuntimeResolverWithPolicySet store id =
    mkResolver (T := T) store policySet builtin_compiled None ∧
    policySet = (if decide (TrimSpace id = "") then defaultCentralPolicySetID else TrimSpace id).
Proof.
  unfold newCentralPolicyRuntimeResolverWithPolicySet. rewrite builtin_compiles. by eexists.
Qed.

Lemma fallbackRuntime_ok r store :
  Resolver_store r = store → compiled_wf (Resolver_fallback r) → runtime_ok store (fallbackRuntime r).
Proof.
  intros <- Hf. split_and!; [|by intros p|by exists (Resolver_fallback r)].
  intros p [= <-]. by exists (Resolver_fallback r).
Qed.

Lemma Resolve_ok store id ctx cache rt cache' :
  cache_wf cache →
  Resolve (Some (newCentralPolicyRuntimeResolverWithPolicySet store id)) ctx cache = (Ok rt, cache') →
  cache_wf cache' ∧ runtime_ok store rt.
Proof.
  intros Hcache. destruct (new_resolver store id) as (policySet & -> & _).
  set (r := mkResolver store policySet builtin_compiled None).
  assert (compiled_wf (Resolver_fallback r)) as Hf by exact builtin_compiled_wf.
  pose proof (fallbackRuntime_ok r store eq_refl Hf) as Hrt.
  unfold Resolve. cbn [Resolver_initErr Resolver_store Resolver_policySet r].
  destruct store as [store|]; [|by intros [= <- <-]].
  destruct (ps_GetAuthzPolicyRollout store ctx policySet) as [rollout|err].
  - set (ro := normalizeRuntimeRollout rollout policySet).
    destruct (resolve_pointer r store ctx (Rollout_ActiveVersion ro) _ _ _ cache) as [res1 cache1] eqn:E1.
    assert (runtime_ok (Some store) (with_rollout ro (fallbackRuntime r))) as Hrt' by exact Hrt.
    destruct (resolve_pointer_ok _ _ _ _ _ _ _ _ _ _ Hf Hcache Hrt' (with_active_ok store) E1) as [Hc1 H1'].
    destruct res1 as [rt1|]; [|done]. intros E2.
    destruct (resolve_pointer_ok _ _ _ _ _ _ _ _ _ _ Hf Hc1 (H1' rt1 eq_refl) (with_candidate_ok store) E2)
      as [Hc2 H2']. auto.
  - destruct (errors_is err ErrNotFound); [by intros [= <- <-]|done].
Qed.

(** Whatever is persisted, the resolver only ever yields engines built from
    well-formed policies: for any store, policy set and cache of well-formed
    policies, any engine chosen for a request (active, candidate or built in) can
    allow only inside the request's tenant and workspace and only a holder of a
    role its policy grants for the action; the cache stays well formed. *)
Theorem Resolve_sound store id ctx cache rt cache' ctx' input d
    (Hcache : cache_wf cache)
    (Hresolve : Resolve (Some (newCentralPolicyRuntimeResolverWithPolicySet store id)) ctx cache = (Ok rt, cache'))
    (Hdecide : Decide (decision_engine rt input) ctx' input = Ok d)
    (Hallowed : Decision_Allowed d = true) :
  cache_wf cache' ∧ ¬ scope_mismatch input ∧
  ∃ c roles role, compiled_wf c ∧ RBACActionRole c !! canon (Input_Action input) = Some roles ∧
    role ∈ Subject_Roles (Input_Subject input) ∧ canon role ∈ roles.
Proof.
  destruct (Resolve_ok _ _ _ _ _ _ Hcache Hresolve) as [Hc' (He & Hcand & _)]. clear Hresolve.
  split; [exact Hc'|].
  assert (engine_ok store (decision_engine rt input)) as Hok by (unfold decision_engine; by destruct (enforces_candidate _ _)).
  destruct (decision_engine rt input) as [p|]; [|by injection Hdecide as <-].
  destruct (Hok p eq_refl) as (c & Hwf & ->).
  destruct (compiled_engine_role store c ctx' input d Hwf Hdecide Hallowed)
    as (Hm & _ & roles & role & ? & ? & ?).
  split; [exact Hm|]. exists c, roles, role. split_and!; assumption.
Qed.

(** ** The cache *)

(** What the cache holds for the versions of a universe is their own policy. *)
Definition cache_faithful r (V : AuthzPolicyVersion → Prop) cache : Prop :=
  ∀ v c, V v → cache !! version_cache_key v = Some c → compile_version r v = Ok c.

(** The version cache is transparent: as long as versions with the same
    cache key (policy set, number and checksum) have the same bundle, a cached
    lookup returns exactly what compiling the version returns, and keeps the
    cache so. *)
Theorem compiledVersion_transparent r (V : AuthzPolicyVersion → Prop) version cache
    (Hkeys : ∀ v w, V v → V w → version_cache_key v = version_cache_key w → Version_Bundle v = Version_Bundle w)
    (Hcache : cache_faithful r V cache) (Hin : V version) :
  (compiledVersion r version cache).1 = compile_version r version ∧
  cache_faithful r V (compiledVersion r version cache).2.
Proof.
  assert (version_cache_key version ≠ "||") as Hne.
  { unfold version_cache_key. intros E.
    apply (f_equal (λ x, (length (bytes x)))) in E. rewrite !bytes_app, !length_app in E. cbn in E.
    pose proof (Itoa_nonempty (Version_Version version)) as Hn.
    destruct (bytes (Itoa (Version_Version version))) as [|c l] eqn:F; [|cbn in E; lia].
    destruct Hn. apply bytes_inj. by rewrite F. }
  unfold compiledVersion. rewrite decide_True by done.
  destruct (cache !! version_cache_key version) as [c|] eqn:E.
  { split; [by rewrite (Hcache _ _ Hin E)|done]. }
  destruct (compile_version r version) as [c|err] eqn:Ec; [|done].
  rewrite decide_True by done. split; [done|].
  intros v c' Hv Hl. cbn in Hl.
  apply lookup_insert_Some in Hl as [[Hk <-]|[_ Hl]]; [|by apply (Hcache v)].
  unfold compile_version in *. rewrite <-(Hkeys version v Hin Hv Hk).
  destruct (compileRouteAuthorizationPolicyBundleJSON _); [exact Ec|discriminate Ec].
Qed.
End resolver_facts.

(** ** The resolver over the in-memory store *)
Section memory_resolver.
Context `{MapRange, SortSlice, BundleDecoder}.

Lemma resolve_pointer_total (r : policyResolver (AuthzState * Z)) store ctx scope pointer what apply rt cache :
  RequireScope ctx = Ok scope → policy_set_id_normal (canon (Resolver_policySet r)) →
  ∃ rt' cache', resolve_pointer r store ctx pointer what apply rt cache = (Ok rt', cache').
Proof.
  intros Hs Hid. unfold resolve_pointer. destruct pointer as [v|]; [|by eexists _, _].
  destruct (0 <? v) eqn:Hv; [|by eexists _, _]. cbn [ps_GetAuthzPolicyVersion memory_policy_store].
  unfold GetAuthzPolicyVersion. rewrite Hs; cbn.
  rewrite (proj2 (normalizeAuthzPolicySetID_Ok _ (canon (Resolver_policySet r)))) by (split; [reflexivity|exact Hid]).
  cbn. rewrite Hv; cbn.
  destruct (authzVersions _ !! _) as [version|]; [|by eexists _, _].
  cbn [mret result_ret]. destruct (compiledVersion r version cache) as [[compiled|] cache2]; by eexists _, _.
Qed.

(** With a scope and a valid policy set id, resolving over the in-memory
    tables never fails, whatever they hold: without a stored rollout it yields the
    built-in policy without a candidate, and a pointer to a missing version or to
    one that does not compile leaves the policy resolved so far in place. *)
Theorem Resolve_total (s : AuthzState) (now : Z) (ctx : Context) (scope : Scope) (id : string) (cache : versionCache)
    (Hscope : RequireScope ctx = Ok scope)
    (Hid : policy_set_id_normal (canon (if decide (TrimSpace id = "") then defaultCentralPolicySetID else id))) :
  ∃ rt cache',
    Resolve (Some (newCentralPolicyRuntimeResolverWithPolicySet (Some (s, now)) id)) ctx cache = (Ok rt, cache') ∧
    (authzRollouts s = ∅ → Runtime_Source rt = "built_in_default" ∧ Runtime_CandidateEngine rt = None ∧
       Runtime_Registry rt = RouteRegistry builtin_compiled).
Proof.
  destruct (new_resolver (Some (s, now)) id) as (policySet & -> & Hps).
  set (r := mkResolver (Some (s, now)) policySet builtin_compiled None).
  assert (policy_set_id_normal (canon (Resolver_policySet r))) as Hid'.
  { cbn. rewrite Hps. destruct (decide (TrimSpace id = "")); [exact Hid|]. by rewrite canon_TrimSpace. }
  unfold Resolve. cbn [Resolver_initErr Resolver_store Resolver_policySet r ps_GetAuthzPolicyRollout memory_policy_store fst].
  unfold GetAuthzPolicyRollout. rewrite Hscope; cbn [mbind result_bind].
  rewrite (proj2 (normalizeAuthzPolicySetID_Ok policySet (canon policySet))) by (split; [reflexivity|exact Hid']).
  cbn [mbind result_bind].
  destruct (authzRollouts s !! _) as [rollout|] eqn:E.
  - cbn [mret result_ret]. set (ro := normalizeRuntimeRollout rollout policySet).
    destruct (resolve_pointer_total r (s, now) ctx scope (Rollout_ActiveVersion ro)
      "resolve active policy version" (with_active (s, now)) (with_rollout ro (fallbackRuntime r)) cache Hscope Hid')
      as (rt1 & cache1 & E1).
    destruct (resolve_pointer_total r (s, now) ctx scope (Rollout_CandidateVersion ro)
      "resolve candidate policy version" (with_candidate (s, now)) rt1 cache1 Hscope Hid') as (rt2 & cache2 & E2).
    exists rt2, cache2. split.
    + rewrite E1. exact E2.
    + intros Hempty. rewrite Hempty, lookup_empty in E. discriminate E.
  - cbn [errors_is]. exists (fallbackRuntime r), cache. split; [reflexivity|]. intros _. by split_and!.
Qed.
End memory_resolver.

(** ** Witnesses *)
#[local] Existing Instance canonical_range.
#[local] Existing Instance insertion_sort.

Definition sample_decoder : BundleDecoder :=
  {| json_Unmarshal_bundle := λ s, if decide (s = "{}") then Ok sample_bundle else Err (Errorf "bad json") |}.
#[local] Existing Instance sample_decoder.

Definition sample_resolver : policyResolver (AuthzState * Z) :=
  newCentralPolicyRuntimeResolverWithPolicySet (Some (sample_state_4, 50)) "central".
Definition sample_resolved := Resolve (Some sample_resolver) sample_ctx ∅.
Definition sample_runtime : resolvedCentralPolicyRuntime :=
  ok_or (mkRuntime None ∅ "" "" 0 "" (zero_rollout "") None "" 0) sample_resolved.1.

Lemma pair_ok_or {A B} (d : A) (p : result A * B) : is_ok p.1 = true → p = (Ok (ok_or d p.1), p.2).
Proof. destruct p as [[a|e] b]; by cbn. Qed.

Lemma Resolve_sound_witness :
  Runtime_Source sample_runtime = "persisted_active_version" ∧
  cache_wf sample_resolved.2 ∧ ¬ scope_mismatch sample_viewer_input ∧
  ∃ c roles role, compiled_wf c ∧ RBACActionRole c !! "docs.read" = Some roles ∧
    role ∈ ["Viewer"] ∧ canon role ∈ roles.
Proof.
  split; [by vm_compute|].
  apply (Resolve_sound (T := AuthzState * Z) (Some (sample_state_4, 50)) "central" sample_ctx ∅
    sample_runtime sample_resolved.2 sample_ctx sample_viewer_input
    (mkPolicyDecision true PolicyStageABAC "abac policy grants action")).
  - apply map_Forall_empty.
  - apply pair_ok_or. by vm_compute.
  - by vm_compute.
  - reflexivity.
Defined.

Lemma compiledVersion_transparent_witness :
  (compiledVersion sample_resolver sample_created_1.2 ∅).1 = compile_version sample_resolver sample_created_1.2 ∧
  cache_faithful sample_resolver (λ v, v = sample_created_1.2)
    (compiledVersion sample_resolver sample_created_1.2 ∅).2.
Proof.
  apply (compiledVersion_transparent sample_resolver (λ v, v = sample_created_1.2)).
  - by intros v w -> ->.
  - intros v c _ Hl. by rewrite lookup_empty in Hl.
  - reflexivity.
Defined.

Lemma Resolve_total_witness :
  ∃ rt cache',
    Resolve (Some (newCentralPolicyRuntimeResolverWithPolicySet (Some (sample_state_4, 50)) "")) sample_ctx ∅ =
      (Ok rt, cache') ∧
    (authzRollouts sample_state_4 = ∅ → Runtime_Source rt = "built_in_default" ∧
       Runtime_CandidateEngine rt = None ∧ Runtime_Registry rt = RouteRegistry builtin_compiled).
Proof.
  apply (Resolve_total sample_state_4 50 sample_ctx (mkScope "acme" "prod")).
  - by vm_compute.
  - split_and!; by vm_compute.
Defined.
