(* ===== verification/TenancyRecords.v ===== *)
(** * Tenancy and account records (internal/db/store.go)

    Organizations, workspaces, members, projects, users, provider identities
    and browser sessions, with the [Normalize...ForWrite] functions their
    stores call.  [now] is [time.Now().UTC()] and [fresh] is
    [uuid.NewString()]. *)
From S2P Require Import Prelude GoStrings GoCollections GoTime Scope AuthzRecords.

Definition WorkspaceStatusActive : string := "active".
Definition WorkspaceStatusSuspended : string := "suspended".
Definition WorkspaceStatusDeleted : string := "deleted".
Definition WorkspaceDeletionGracePeriod : Z := 30 * 24 * Hour.
Definition UserDeletionGracePeriod : Z := 30 * 24 * Hour.
Definition SessionIdleTimeout : Z := 24 * Hour.

Definition validTenancyMemberRoles : list string := ["owner"; "admin"; "analyst"; "viewer"].
Definition validTenancyMemberStatuses : list string := ["invited"; "active"; "suspended"; "removed"].
Definition validUserStatuses : list string := ["active"; "deactivated"; "deleted"].
Definition validSessionAuthMethods : list string := ["workos"; "oidc"; "manual"; "saml"].

(** [tenancySlugPattern]: ^[a-z0-9]+(-[a-z0-9]+)*$. *)
Definition tenancySlugPattern (value : string) : bool :=
  forallb (λ part, negb (bool_decide (part = "")) && forallb (λ c, is_lower c || is_digit c) (bytes part))
    (Split value "-").

(** [uuid.Parse] of github.com/google/uuid accepts the text. *)
Class UUIDParser := { uuid_Parse : string → bool }.

Record TenancyOrganization := mkOrganization {
  Org_TenantID : string;
  Org_DisplayName : string;
  Org_Slug : string;
  Org_CreatedAt : Z;
  Org_UpdatedAt : Z;
}.

Record TenancyWorkspace := mkWorkspace {
  Workspace_TenantID : string;
  Workspace_WorkspaceID : string;
  Workspace_DisplayName : string;
  Workspace_Slug : string;
  Workspace_Status : string;
  Workspace_SuspendedAt : option Z;
  Workspace_DeletedAt : option Z;
  Workspace_CreatedAt : Z;
  Workspace_UpdatedAt : Z;
}.

Record TenancyWorkspaceMember := mkMember {
  Member_TenantID : string;
  Member_WorkspaceID : string;
  Member_MemberID : string;
  Member_UserID : string;
  Member_UserUUID : string;
  Member_Email : string;
  Member_Role : string;
  Member_Status : string;
  Member_JoinedAt : Z;
  Member_UpdatedAt : Z;
}.

Record TenancyProject := mkProject {
  Project_TenantID : string;
  Project_WorkspaceID : string;
  Project_ProjectID : string;
  Project_Name : string;
  Project_Slug : string;
  Project_Description : string;
  Project_ArchivedAt : option Z;
  Project_CreatedAt : Z;
  Project_UpdatedAt : Z;
}.

Record User := mkUser {
  User_ID : string;
  User_PrimaryEmail : string;
  User_DisplayName : string;
  User_AvatarURL : string;
  User_Status : string;
  User_CreatedAt : Z;
  User_UpdatedAt : Z;
  User_DeletedAt : option Z;
}.

Record UserIdentity := mkIdentity {
  Identity_ID : string;
  Identity_UserID : string;
  Identity_Provider : string;
  Identity_Subject : string;
  Identity_Email : string;
  Identity_EmailVerified : bool;
  Identity_RawClaims : string;
  Identity_LastAuthenticatedAt : Z;
  Identity_CreatedAt : Z;
}.

Record Session := mkSession {
  Session_ID : string;
  Session_UserID : string;
  Session_CurrentOrgID : string;
  Session_CurrentWorkspaceID : string;
  Session_CurrentProjectID : string;
  Session_AuthMethod : string;
  Session_IP : string;
  Session_UserAgent : string;
  Session_IdleExpiresAt : Z;
  Session_AbsoluteExpiresAt : Z;
  Session_LastSeenAt : Z;
  Session_RevokedAt : option Z;
  Session_CreatedAt : Z;
  Session_User : option User;
}.

#[export] Instance TenancyWorkspace_eq_dec : EqDecision TenancyWorkspace.
Proof. solve_decision. Defined.
#[export] Instance TenancyWorkspaceMember_eq_dec : EqDecision TenancyWorkspaceMember.
Proof. solve_decision. Defined.
#[export] Instance User_eq_dec : EqDecision User.
Proof. solve_decision. Defined.
#[export] Instance UserIdentity_eq_dec : EqDecision UserIdentity.
Proof. solve_decision. Defined.
#[export] Instance Session_eq_dec : EqDecision Session.
Proof. solve_decision. Defined.

(** ** Normalizers *)
Definition required (what value : string) : result unit :=
  guard_err (bool_decide (value ≠ "")) (Errorf (what +:+ " is required")).

Definition validateTenancySlug (value field : string) : result unit :=
  _ ← guard_err (Nat.leb (length (bytes value)) 63) (Errorf (field +:+ " must be 63 characters or fewer"));
  guard_err (tenancySlugPattern value) (Errorf (field +:+ " must match ^[a-z0-9]+(-[a-z0-9]+)*$")).

Definition NormalizeTenancyOrganizationForWrite (now : Z) (o : TenancyOrganization) : result TenancyOrganization :=
  let tenantID := TrimSpace (Org_TenantID o) in
  _ ← required "tenant id" tenantID;
  let displayName := TrimSpace (Org_DisplayName o) in
  _ ← required "display name" displayName;
  let slug := canon (Org_Slug o) in
  _ ← required "slug" slug;
  _ ← validateTenancySlug slug "slug";
  let createdAt := or_time (Org_CreatedAt o) now in
  mret (mkOrganization tenantID displayName slug createdAt (or_time (Org_UpdatedAt o) createdAt)).

Definition NormalizeTenancyWorkspaceForWrite (now : Z) (w : TenancyWorkspace) : result TenancyWorkspace :=
  let tenantID := TrimSpace (Workspace_TenantID w) in
  _ ← required "tenant id" tenantID;
  let workspaceID := TrimSpace (Workspace_WorkspaceID w) in
  _ ← required "workspace id" workspaceID;
  let displayName := TrimSpace (Workspace_DisplayName w) in
  _ ← required "display name" displayName;
  let slug := canon (Workspace_Slug w) in
  _ ← required "slug" slug;
  _ ← validateTenancySlug slug "slug";
  let status := TrimSpace (Workspace_Status w) in
  let status := if decide (status = "") then WorkspaceStatusActive else status in
  _ ← guard_err (bool_decide (status ∈ [WorkspaceStatusActive; WorkspaceStatusSuspended; WorkspaceStatusDeleted]))
        (Errorf ("workspace status " +:+ Quote status +:+ " is invalid"));
  let createdAt := or_time (Workspace_CreatedAt w) now in
  mret (mkWorkspace tenantID workspaceID displayName slug status (Workspace_SuspendedAt w) (Workspace_DeletedAt w)
          createdAt (or_time (Workspace_UpdatedAt w) createdAt)).

Definition NormalizeTenancyWorkspaceMemberForWrite (now : Z) (m : TenancyWorkspaceMember)
    : result TenancyWorkspaceMember :=
  let tenantID := TrimSpace (Member_TenantID m) in
  _ ← required "tenant id" tenantID;
  let workspaceID := TrimSpace (Member_WorkspaceID m) in
  _ ← required "workspace id" workspaceID;
  let memberID := TrimSpace (Member_MemberID m) in
  _ ← required "member id" memberID;
  let userID := TrimSpace (Member_UserID m) in
  _ ← required "user id" userID;
  let role := canon (Member_Role m) in
  _ ← guard_err (bool_decide (role ∈ validTenancyMemberRoles)) (Errorf "invalid member role");
  let status := canon (Member_Status m) in
  let status := if decide (status = "") then "invited" else status in
  _ ← guard_err (bool_decide (status ∈ validTenancyMemberStatuses)) (Errorf "invalid member status");
  let joinedAt := or_time (Member_JoinedAt m) now in
  mret (mkMember tenantID workspaceID memberID userID (TrimSpace (Member_UserUUID m)) (TrimSpace (Member_Email m))
          role status joinedAt (or_time (Member_UpdatedAt m) joinedAt)).

Definition NormalizeTenancyProjectForWrite (now : Z) (p : TenancyProject) : result TenancyProject :=
  let tenantID := TrimSpace (Project_TenantID p) in
  _ ← required "tenant id" tenantID;
  let workspaceID := TrimSpace (Project_WorkspaceID p) in
  _ ← required "workspace id" workspaceID;
  let projectID := TrimSpace (Project_ProjectID p) in
  _ ← required "project id" projectID;
  let name := TrimSpace (Project_Name p) in
  _ ← required "project name" name;
  let slug := canon (Project_Slug p) in
  _ ← required "project slug" slug;
  _ ← validateTenancySlug slug "project slug";
  let createdAt := or_time (Project_CreatedAt p) now in
  mret (mkProject tenantID workspaceID projectID name slug (TrimSpace (Project_Description p))
          (Project_ArchivedAt p) createdAt (or_time (Project_UpdatedAt p) createdAt)).

Definition NormalizeUserForWrite `{UUIDParser} (now : Z) (fresh : string) (u : User) : result User :=
  let trimmed := TrimSpace (User_ID u) in
  _ ← guard_err (bool_decide (trimmed = "") || uuid_Parse trimmed) (Errorf "invalid user id");
  let id := if decide (trimmed = "") then fresh else trimmed in
  let email := canon (User_PrimaryEmail u) in
  _ ← required "primary email" email;
  let status := canon (User_Status u) in
  let status := if decide (status = "") then "active" else status in
  _ ← guard_err (bool_decide (status ∈ validUserStatuses)) (Errorf "invalid user status");
  let createdAt := or_time (User_CreatedAt u) now in
  mret (mkUser id email (TrimSpace (User_DisplayName u)) (TrimSpace (User_AvatarURL u)) status
          createdAt (or_time (User_UpdatedAt u) createdAt) (User_DeletedAt u)).

Definition NormalizeUserIdentityForWrite `{UUIDParser, BundleCodec} (now : Z) (fresh : string) (i : UserIdentity)
    : result UserIdentity :=
  let trimmed := TrimSpace (Identity_ID i) in
  _ ← guard_err (bool_decide (trimmed = "") || uuid_Parse trimmed) (Errorf "invalid user identity id");
  let id := if decide (trimmed = "") then fresh else trimmed in
  let userID := TrimSpace (Identity_UserID i) in
  _ ← guard_err (uuid_Parse userID) (Errorf "invalid user id");
  let provider := canon (Identity_Provider i) in
  _ ← required "provider" provider;
  let subject := TrimSpace (Identity_Subject i) in
  _ ← required "subject" subject;
  let claims := if decide (Identity_RawClaims i = "") then "{}" else Identity_RawClaims i in
  _ ← guard_err (json_Valid claims) (Errorf "raw claims must be valid json");
  let lastAuthenticatedAt := or_time (Identity_LastAuthenticatedAt i) now in
  mret (mkIdentity id userID provider subject (canon (Identity_Email i)) (Identity_EmailVerified i) claims
          lastAuthenticatedAt (or_time (Identity_CreatedAt i) lastAuthenticatedAt)).

(** [ID] is the SHA-256 hash of the cookie, 32 bytes. *)
Definition NormalizeSessionForWrite `{UUIDParser} (now : Z) (s : Session) : result Session :=
  _ ← guard_err (Nat.eqb (length (bytes (Session_ID s))) 32) (Errorf "session id hash must be 32 bytes");
  let userID := TrimSpace (Session_UserID s) in
  _ ← guard_err (uuid_Parse userID) (Errorf "invalid user id");
  let authMethod := canon (Session_AuthMethod s) in
  _ ← guard_err (bool_decide (authMethod ∈ validSessionAuthMethods)) (Errorf "invalid auth method");
  let createdAt := or_time (Session_CreatedAt s) now in
  _ ← guard_err (negb (IsZero (Session_IdleExpiresAt s))) (Errorf "idle expiry is required");
  _ ← guard_err (negb (IsZero (Session_AbsoluteExpiresAt s))) (Errorf "absolute expiry is required");
  mret (mkSession (Session_ID s) userID (TrimSpace (Session_CurrentOrgID s)) (TrimSpace (Session_CurrentWorkspaceID s))
          (TrimSpace (Session_CurrentProjectID s)) authMethod (TrimSpace (Session_IP s))
          (TrimSpace (Session_UserAgent s)) (Session_IdleExpiresAt s) (Session_AbsoluteExpiresAt s)
          (or_time (Session_LastSeenAt s) createdAt) (Session_RevokedAt s) createdAt (Session_User s)).
