(* ===== verification/Tenancy.v ===== *)
(** * The in-memory tenancy tables (internal/db/memory_tenancy.go, memory_auth.go)

    [DirectoryState] holds the maps of [MemoryStore] that describe who belongs
    where: organizations, workspaces, members, projects, users, provider
    identities (with their lookup index) and sessions.  This file has the
    tenancy methods; each runs under the store's mutex, so each is one atomic
    step from a state to a new state or an error. *)
From S2P Require Import Prelude GoStrings GoCollections GoTime Scope AuthzRecords TenancyRecords.

Record DirectoryState := mkDirectory {
  organizations : gmap string TenancyOrganization;
  workspaces : gmap string TenancyWorkspace;
  members : gmap string TenancyWorkspaceMember;
  projects : gmap string TenancyProject;
  users : gmap string User;
  userIdentityByID : gmap string UserIdentity;
  userIdentityByProviderSubject : gmap string string;
  sessions : gmap string Session;
}.

Definition empty_directory : DirectoryState := mkDirectory ∅ ∅ ∅ ∅ ∅ ∅ ∅ ∅.

Definition with_organizations m s :=
  mkDirectory m (workspaces s) (members s) (projects s) (users s) (userIdentityByID s)
    (userIdentityByProviderSubject s) (sessions s).
Definition with_workspaces m s :=
  mkDirectory (organizations s) m (members s) (projects s) (users s) (userIdentityByID s)
    (userIdentityByProviderSubject s) (sessions s).
Definition with_members m s :=
  mkDirectory (organizations s) (workspaces s) m (projects s) (users s) (userIdentityByID s)
    (userIdentityByProviderSubject s) (sessions s).
Definition with_projects m s :=
  mkDirectory (organizations s) (workspaces s) (members s) m (users s) (userIdentityByID s)
    (userIdentityByProviderSubject s) (sessions s).

(** ** Keys *)
Fixpoint tenancyCompositeKey (parts : list string) : string :=
  match parts with
  | [] => ""
  | part :: parts =>
      Itoa (Z.of_nat (length (bytes part))) +:+ ":" +:+ part +:+ "|" +:+ tenancyCompositeKey parts
  end.

Definition tenancyWorkspaceKey (tenantID workspaceID : string) : string :=
  tenancyCompositeKey [TrimSpace tenantID; TrimSpace workspaceID].
Definition tenancyMemberKey (tenantID workspaceID memberID : string) : string :=
  tenancyCompositeKey [TrimSpace tenantID; TrimSpace workspaceID; TrimSpace memberID].
Definition tenancyProjectKey (tenantID workspaceID projectID : string) : string :=
  tenancyCompositeKey [TrimSpace tenantID; TrimSpace workspaceID; TrimSpace projectID].

(** The checks every scoped method starts with. *)
Definition scoped_workspace (ctx : Context) (workspaceID : string) : result (Scope * string) :=
  scope ← RequireScope ctx;
  resolved ← ResolveScopedWorkspaceID scope workspaceID;
  mret (scope, resolved).

(** ** Organizations *)
Definition stamp_organization (tenantID : string) (o : TenancyOrganization) : TenancyOrganization :=
  mkOrganization tenantID (Org_DisplayName o) (Org_Slug o) (Org_CreatedAt o) (Org_UpdatedAt o).

Definition UpsertOrganization (ctx : Context) (now : Z) (organization : TenancyOrganization) (s : DirectoryState)
    : result DirectoryState :=
  scope ← RequireScope ctx;
  normalized ← NormalizeTenancyOrganizationForWrite now (stamp_organization (Scope_TenantID scope) organization);
  mret (with_organizations (<[Org_TenantID normalized := normalized]> (organizations s)) s).

Definition GetOrganization (ctx : Context) (s : DirectoryState) : result TenancyOrganization :=
  scope ← RequireScope ctx;
  match organizations s !! Scope_TenantID scope with
  | None => Err ErrNotFound
  | Some organization => mret organization
  end.

(** ** Workspaces *)
Definition stamp_workspace (tenantID workspaceID : string) (w : TenancyWorkspace) : TenancyWorkspace :=
  mkWorkspace tenantID workspaceID (Workspace_DisplayName w) (Workspace_Slug w) (Workspace_Status w)
    (Workspace_SuspendedAt w) (Workspace_DeletedAt w) (Workspace_CreatedAt w) (Workspace_UpdatedAt w).

(** The lifecycle fields an upsert keeps from the stored row. *)
Definition keep_lifecycle (existing w : TenancyWorkspace) : TenancyWorkspace :=
  mkWorkspace (Workspace_TenantID w) (Workspace_WorkspaceID w) (Workspace_DisplayName w) (Workspace_Slug w)
    (Workspace_Status existing) (Workspace_SuspendedAt existing) (Workspace_DeletedAt existing)
    (Workspace_CreatedAt existing) (Workspace_UpdatedAt w).

Definition UpsertWorkspace (ctx : Context) (now : Z) (workspace : TenancyWorkspace) (s : DirectoryState)
    : result DirectoryState :=
  '(scope, resolved) ← scoped_workspace ctx (Workspace_WorkspaceID workspace);
  normalized ← NormalizeTenancyWorkspaceForWrite now (stamp_workspace (Scope_TenantID scope) resolved workspace);
  _ ← guard_err (bool_decide (is_Some (organizations s !! Workspace_TenantID normalized))) ErrNotFound;
  let key := tenancyWorkspaceKey (Workspace_TenantID normalized) (Workspace_WorkspaceID normalized) in
  let record := match workspaces s !! key with
                | Some existing => keep_lifecycle existing normalized
                | None => normalized
                end in
  mret (with_workspaces (<[key := record]> (workspaces s)) s).

Definition GetWorkspace (ctx : Context) (workspaceID : string) (s : DirectoryState) : result TenancyWorkspace :=
  '(scope, resolved) ← scoped_workspace ctx workspaceID;
  match workspaces s !! tenancyWorkspaceKey (Scope_TenantID scope) resolved with
  | None => Err ErrNotFound
  | Some workspace => mret workspace
  end.

Definition ListWorkspaces `{MapRange, SortSlice} (ctx : Context) (limit : Z) (s : DirectoryState)
    : result (list TenancyWorkspace) :=
  scope ← RequireScope ctx;
  let limit := if limit <=? 0 then 20 else limit in
  mret (truncate limit
    (sort_slice (λ l r, After (Workspace_CreatedAt l) (Workspace_CreatedAt r))
      (filter (λ w, Workspace_TenantID w = Scope_TenantID scope) (map_range (workspaces s)).*2))).

(** *** Lifecycle transitions of one row *)
Definition set_lifecycle (status : string) (suspendedAt deletedAt : option Z) (now : Z) (w : TenancyWorkspace)
    : TenancyWorkspace :=
  mkWorkspace (Workspace_TenantID w) (Workspace_WorkspaceID w) (Workspace_DisplayName w) (Workspace_Slug w)
    status suspendedAt deletedAt (Workspace_CreatedAt w) now.

(** [if p == nil { p = &now }]. *)
Definition or_stamp (p : option Z) (now : Z) : option Z := match p with None => Some now | Some t => Some t end.

Definition suspend_row (now : Z) (w : TenancyWorkspace) : result TenancyWorkspace :=
  if bool_decide (Workspace_Status w = WorkspaceStatusDeleted) || bool_decide (is_Some (Workspace_DeletedAt w))
  then Err ErrConflict
  else mret (set_lifecycle WorkspaceStatusSuspended (or_stamp (Workspace_SuspendedAt w) now)
               (Workspace_DeletedAt w) now w).

Definition reactivate_row (now : Z) (w : TenancyWorkspace) : result TenancyWorkspace :=
  if bool_decide (Workspace_Status w ≠ WorkspaceStatusSuspended) || bool_decide (is_Some (Workspace_DeletedAt w))
  then Err ErrConflict
  else mret (set_lifecycle WorkspaceStatusActive None (Workspace_DeletedAt w) now w).

Definition soft_delete_row (now : Z) (w : TenancyWorkspace) : result TenancyWorkspace :=
  mret (set_lifecycle WorkspaceStatusDeleted (Workspace_SuspendedAt w) (or_stamp (Workspace_DeletedAt w) now) now w).

Definition cancel_deletion_row (now : Z) (w : TenancyWorkspace) : result TenancyWorkspace :=
  mret (set_lifecycle WorkspaceStatusActive None None now w).

(** Loads the scoped row, applies a transition and stores the result. *)
Definition transition_workspace (f : TenancyWorkspace → result TenancyWorkspace) (ctx : Context)
    (workspaceID : string) (s : DirectoryState) : result (DirectoryState * TenancyWorkspace) :=
  '(scope, resolved) ← scoped_workspace ctx workspaceID;
  let key := tenancyWorkspaceKey (Scope_TenantID scope) resolved in
  match workspaces s !! key with
  | None => Err ErrNotFound
  | Some workspace =>
      workspace' ← f workspace;
      mret (with_workspaces (<[key := workspace']> (workspaces s)) s, workspace')
  end.

Definition SuspendWorkspace (ctx : Context) (workspaceID : string) (now : Z) :=
  transition_workspace (suspend_row now) ctx workspaceID.
Definition ReactivateWorkspace (ctx : Context) (workspaceID : string) (now : Z) :=
  transition_workspace (reactivate_row now) ctx workspaceID.
Definition SoftDeleteWorkspace (ctx : Context) (workspaceID : string) (now : Z) :=
  transition_workspace (soft_delete_row now) ctx workspaceID.
Definition CancelWorkspaceDeletion (ctx : Context) (workspaceID : string) (now : Z) :=
  transition_workspace (cancel_deletion_row now) ctx workspaceID.

(** Oldest deletion first, then by id. *)
Definition deleted_at (w : TenancyWorkspace) : Z := default 0 (Workspace_DeletedAt w).
Definition pending_less (l r : TenancyWorkspace) : bool :=
  if decide (deleted_at l = deleted_at r) then str_ltb (Workspace_WorkspaceID l) (Workspace_WorkspaceID r)
  else Before (deleted_at l) (deleted_at r).

Definition pending_hard_delete (cutoff : Z) (w : TenancyWorkspace) : bool :=
  bool_decide (Workspace_Status w = WorkspaceStatusDeleted) &&
  match Workspace_DeletedAt w with Some t => Before t cutoff | None => false end.

Definition ListWorkspacesPendingHardDelete `{MapRange, SortSlice} (deletedBefore : Z) (limit : Z)
    (s : DirectoryState) : list TenancyWorkspace :=
  let limit := if limit <=? 0 then 100 else limit in
  truncate limit (sort_slice pending_less
    (filter (λ w, pending_hard_delete deletedBefore w = true) (map_range (workspaces s)).*2)).

(** ** Members *)
Definition stamp_member (tenantID workspaceID : string) (m : TenancyWorkspaceMember) : TenancyWorkspaceMember :=
  mkMember tenantID workspaceID (Member_MemberID m) (Member_UserID m) (Member_UserUUID m) (Member_Email m)
    (Member_Role m) (Member_Status m) (Member_JoinedAt m) (Member_UpdatedAt m).

Definition UpsertWorkspaceMember (ctx : Context) (now : Z) (member : TenancyWorkspaceMember) (s : DirectoryState)
    : result DirectoryState :=
  '(scope, resolved) ← scoped_workspace ctx (Member_WorkspaceID member);
  normalized ← NormalizeTenancyWorkspaceMemberForWrite now (stamp_member (Scope_TenantID scope) resolved member);
  let tenant := Member_TenantID normalized in
  let workspace := Member_WorkspaceID normalized in
  _ ← guard_err (bool_decide (is_Some (workspaces s !! tenancyWorkspaceKey tenant workspace))) ErrNotFound;
  mret (with_members (<[tenancyMemberKey tenant workspace (Member_MemberID normalized) := normalized]> (members s)) s).

Definition GetWorkspaceMember (ctx : Context) (workspaceID memberID : string) (s : DirectoryState)
    : result TenancyWorkspaceMember :=
  '(scope, resolved) ← scoped_workspace ctx workspaceID;
  match members s !! tenancyMemberKey (Scope_TenantID scope) resolved memberID with
  | None => Err ErrNotFound
  | Some member => mret member
  end.

(** The members of a workspace, in the order a range over the map gives. *)
Definition workspace_members `{MapRange} (tenantID workspaceID : string) (s : DirectoryState)
    : list TenancyWorkspaceMember :=
  filter (λ m, Member_TenantID m = tenantID ∧ Member_WorkspaceID m = workspaceID) (map_range (members s)).*2.

Definition GetWorkspaceMemberByUserUUID `{MapRange} (ctx : Context) (workspaceID userUUID : string)
    (s : DirectoryState) : result TenancyWorkspaceMember :=
  '(scope, resolved) ← scoped_workspace ctx workspaceID;
  let normalizedUserUUID := TrimSpace userUUID in
  _ ← guard_err (bool_decide (is_Some (users s !! normalizedUserUUID))) ErrNotFound;
  match filter (λ m, Member_UserUUID m = normalizedUserUUID) (workspace_members (Scope_TenantID scope) resolved s) with
  | [] => Err ErrNotFound
  | [matched] => mret matched
  | _ => Err ErrConflict
  end.

Definition GetWorkspaceMemberByUserID `{MapRange} (ctx : Context) (workspaceID userID : string)
    (s : DirectoryState) : result TenancyWorkspaceMember :=
  '(scope, resolved) ← scoped_workspace ctx workspaceID;
  match filter (λ m, Member_UserID m = TrimSpace userID ∧ Member_UserUUID m = "")
          (workspace_members (Scope_TenantID scope) resolved s) with
  | [] => Err ErrNotFound
  | member :: _ => mret member
  end.

(** The two loops that keep the newest active membership of a user: [selected]
    starts as the zero record, whose empty [UserUUID] means "none yet". *)
Definition zero_member : TenancyWorkspaceMember := mkMember "" "" "" "" "" "" "" "" time_zero time_zero.

Definition select_newest (eligible : TenancyWorkspaceMember → bool) (selected member : TenancyWorkspaceMember)
    : TenancyWorkspaceMember :=
  if negb (eligible member) then selected
  else if bool_decide (Member_UserUUID selected = "") || After (Member_JoinedAt member) (Member_JoinedAt selected)
  then member else selected.

Definition newest_membership `{MapRange} (eligible : TenancyWorkspaceMember → bool) (s : DirectoryState)
    : result TenancyWorkspaceMember :=
  let selected := foldl (select_newest eligible) zero_member (map_range (members s)).*2 in
  if decide (Member_UserUUID selected = "") then Err ErrNotFound else mret selected.

Definition active_membership (userUUID : string) (m : TenancyWorkspaceMember) : bool :=
  bool_decide (Member_UserUUID m = TrimSpace userUUID) && bool_decide (Member_Status m = "active").

Definition active_tenant_membership (userUUID tenantID : string) (m : TenancyWorkspaceMember) : bool :=
  active_membership userUUID m && bool_decide (Member_TenantID m = TrimSpace tenantID).

Definition FindFirstWorkspaceMemberByUserUUID `{MapRange} (userUUID : string) :=
  newest_membership (active_membership userUUID).
Definition FindFirstWorkspaceMemberByUserUUIDAndTenantID `{MapRange} (userUUID tenantID : string) :=
  newest_membership (active_tenant_membership userUUID tenantID).

Definition ListWorkspaceMembershipsByUserUUIDAndTenantID `{MapRange, SortSlice} (userUUID tenantID : string)
    (s : DirectoryState) : list TenancyWorkspaceMember :=
  if blank userUUID || blank tenantID then []
  else sort_slice (λ l r, str_ltb (Member_WorkspaceID l) (Member_WorkspaceID r))
         (filter (λ m, active_tenant_membership userUUID tenantID m = true) (map_range (members s)).*2).

Definition ListWorkspaceMembershipsByUserUUID `{MapRange, SortSlice} (userUUID : string) (s : DirectoryState)
    : list TenancyWorkspaceMember :=
  if blank userUUID then []
  else sort_slice (λ l r, if decide (Member_TenantID l = Member_TenantID r)
                          then str_ltb (Member_WorkspaceID l) (Member_WorkspaceID r)
                          else str_ltb (Member_TenantID l) (Member_TenantID r))
         (filter (λ m, active_membership userUUID m = true) (map_range (members s)).*2).

Definition ListWorkspaceMembers `{MapRange, SortSlice} (ctx : Context) (workspaceID : string) (limit : Z)
    (s : DirectoryState) : result (list TenancyWorkspaceMember) :=
  '(scope, resolved) ← scoped_workspace ctx workspaceID;
  let limit := if limit <=? 0 then 100 else limit in
  let hidden m := negb (bool_decide (Member_UserUUID m = "")) &&
                  match users s !! Member_UserUUID m with
                  | Some user => negb (bool_decide (User_Status user = "active"))
                  | None => false
                  end in
  mret (truncate limit
    (sort_slice (λ l r, Before (Member_JoinedAt l) (Member_JoinedAt r))
      (filter (λ m, hidden m = false) (workspace_members (Scope_TenantID scope) resolved s)))).

Definition DeleteWorkspaceMember (ctx : Context) (workspaceID memberID : string) (s : DirectoryState)
    : result DirectoryState :=
  '(scope, resolved) ← scoped_workspace ctx workspaceID;
  let key := tenancyMemberKey (Scope_TenantID scope) resolved memberID in
  _ ← guard_err (bool_decide (is_Some (members s !! key))) ErrNotFound;
  mret (with_members (delete key (members s)) s).

(** *** Sole owners *)

(** The account behind a membership is active; a row without a user UUID has
    none to check. *)
Definition live_account (s : DirectoryState) (m : TenancyWorkspaceMember) : bool :=
  bool_decide (Member_UserUUID m = "") ||
  match users s !! Member_UserUUID m with
  | Some user => bool_decide (User_Status user = "active")
  | None => false
  end.

Definition live_member (s : DirectoryState) (m : TenancyWorkspaceMember) : bool :=
  bool_decide (Member_Status m = "active") && live_account s m.

Definition owned_by (userUUID : string) (m : TenancyWorkspaceMember) : bool :=
  bool_decide (Member_UserUUID m = userUUID) && bool_decide (Member_Role m = "owner").

Definition ListWorkspaceStrandedActiveMembers `{MapRange, SortSlice} (ctx : Context) (workspaceID userUUID : string)
    (s : DirectoryState) : result (list TenancyWorkspaceMember) :=
  let caller := TrimSpace userUUID in
  if decide (caller = "") then mret [] else
  '(scope, resolved) ← scoped_workspace ctx workspaceID;
  _ ← guard_err (bool_decide (is_Some (workspaces s !! tenancyWorkspaceKey (Scope_TenantID scope) resolved))) ErrNotFound;
  let live := filter (λ m, live_member s m = true) (workspace_members (Scope_TenantID scope) resolved s) in
  let callerIsOwner := existsb (owned_by caller) live in
  let otherActive := filter (λ m, Member_UserUUID m ≠ caller) live in
  let otherLiveOwners := length (filter (λ m, Member_Role m = "owner") otherActive) in
  if negb callerIsOwner || Nat.ltb 0 otherLiveOwners || Nat.eqb (length otherActive) 0 then mret []
  else mret (sort_slice (λ l r, str_ltb (Member_MemberID l) (Member_MemberID r)) otherActive).

Definition member_workspace_key (m : TenancyWorkspaceMember) : string :=
  tenancyWorkspaceKey (Member_TenantID m) (Member_WorkspaceID m).

Definition active_owner (m : TenancyWorkspaceMember) : bool :=
  bool_decide (Member_Status m = "active") && bool_decide (Member_Role m = "owner").

(** Another user's row counts as a live owner unless its account is known and
    not active. *)
Definition other_live_owner (s : DirectoryState) (caller : string) (m : TenancyWorkspaceMember) : bool :=
  active_owner m && negb (bool_decide (Member_UserUUID m = caller)) &&
  match users s !! Member_UserUUID m with
  | Some owner => bool_decide (User_Status owner = "active")
  | None => true
  end.

Definition live_workspace_row (w : TenancyWorkspace) : bool :=
  negb (bool_decide (Workspace_Status w = WorkspaceStatusDeleted)) && negb (bool_decide (is_Some (Workspace_DeletedAt w))).

Definition ListSoleOwnerWorkspaces `{MapRange, SortSlice} (userUUID : string) (s : DirectoryState)
    : list TenancyWorkspace :=
  let caller := TrimSpace userUUID in
  if decide (caller = "") then []
  else
    let rows := (map_range (members s)).*2 in
    let userOwns := unique (member_workspace_key <$> filter (λ m, active_owner m = true ∧ Member_UserUUID m = caller) rows) in
    let contested := member_workspace_key <$> filter (λ m, other_live_owner s caller m = true) rows in
    sort_slice (λ l r, str_ltb (Workspace_WorkspaceID l) (Workspace_WorkspaceID r))
      (filter (λ w, live_workspace_row w = true)
        (omap (λ key, workspaces s !! key) (filter (λ key, key ∉ contested) userOwns))).

(** ** Projects *)
Definition stamp_project (tenantID workspaceID : string) (p : TenancyProject) : TenancyProject :=
  mkProject tenantID workspaceID (Project_ProjectID p) (Project_Name p) (Project_Slug p) (Project_Description p)
    (Project_ArchivedAt p) (Project_CreatedAt p) (Project_UpdatedAt p).

Definition UpsertProject (ctx : Context) (now : Z) (project : TenancyProject) (s : DirectoryState)
    : result DirectoryState :=
  '(scope, resolved) ← scoped_workspace ctx (Project_WorkspaceID project);
  normalized ← NormalizeTenancyProjectForWrite now (stamp_project (Scope_TenantID scope) resolved project);
  let tenant := Project_TenantID normalized in
  let workspace := Project_WorkspaceID normalized in
  _ ← guard_err (bool_decide (is_Some (workspaces s !! tenancyWorkspaceKey tenant workspace))) ErrNotFound;
  mret (with_projects (<[tenancyProjectKey tenant workspace (Project_ProjectID normalized) := normalized]> (projects s)) s).

Definition GetProject (ctx : Context) (workspaceID projectID : string) (s : DirectoryState) : result TenancyProject :=
  '(scope, resolved) ← scoped_workspace ctx workspaceID;
  match projects s !! tenancyProjectKey (Scope_TenantID scope) resolved projectID with
  | None => Err ErrNotFound
  | Some project => mret project
  end.

Definition ListProjects `{MapRange, SortSlice} (ctx : Context) (workspaceID : string) (includeArchived : bool)
    (limit : Z) (s : DirectoryState) : result (list TenancyProject) :=
  '(scope, resolved) ← scoped_workspace ctx workspaceID;
  let limit := if limit <=? 0 then 100 else limit in
  mret (truncate limit
    (sort_slice (λ l r, After (Project_CreatedAt l) (Project_CreatedAt r))
      (filter (λ p, Project_TenantID p = Scope_TenantID scope ∧ Project_WorkspaceID p = resolved ∧
                    (includeArchived = true ∨ Project_ArchivedAt p = None)) (map_range (projects s)).*2))).

(** ** Composite keys *)
(** A key starts with another exactly when its parts do. *)
Lemma composite_key_prefix (parts parts' : list string) t :
  tenancyCompositeKey parts = tenancyCompositeKey parts' +:+ t → parts' `prefix_of` parts.
Proof.
  assert (∀ n, no_byte ":" (Itoa n)) as Hcolon by (intros n; by apply Itoa_no_byte).
  revert parts. induction parts' as [|p' ps' IH]; intros parts H; [apply prefix_nil|].
  destruct parts as [|p ps].
  - symmetry in H. apply append_nonempty in H; [done|]. apply append_nonempty, Itoa_nonempty.
  - cbn [tenancyCompositeKey] in H.
    replace (_ +:+ t) with (Itoa (Z.of_nat (length (bytes p'))) +:+
      String ":" (p' +:+ String "|" (tenancyCompositeKey ps' +:+ t))) in H by str_assoc.
    apply (join_inj ":") in H as [Hlen H]; [|done..].
    apply Itoa_inj in Hlen. apply (f_equal (λ x, bytes x)) in H. rewrite !bytes_app in H.
    apply app_inj_1 in H as [Hp H]; [|lia]. apply bytes_inj in Hp as ->. cbn in H. injection H as H.
    apply prefix_cons, IH. by apply bytes_inj.
Qed.

Lemma composite_key_app parts parts' :
  tenancyCompositeKey (parts ++ parts') = tenancyCompositeKey parts +:+ tenancyCompositeKey parts'.
Proof. induction parts as [|p ps IH]; [done|]. cbn [app tenancyCompositeKey]. rewrite IH. str_assoc. Qed.

Lemma HasPrefix_composite_key parts parts' :
  HasPrefix (tenancyCompositeKey parts) (tenancyCompositeKey parts') = true ↔ parts' `prefix_of` parts.
Proof.
  rewrite HasPrefix_spec. split.
  - intros [t H]. by eapply composite_key_prefix.
  - intros [k ->]. rewrite composite_key_app. eauto.
Qed.

Lemma composite_key_parts (parts parts' : list string) :
  tenancyCompositeKey parts = tenancyCompositeKey parts' → parts = parts'.
Proof.
  intros H. assert (HasPrefix (tenancyCompositeKey parts) (tenancyCompositeKey parts') = true ∧
                    HasPrefix (tenancyCompositeKey parts') (tenancyCompositeKey parts) = true) as [H1 H2].
  { rewrite H. split; apply HasPrefix_composite_key; done. }
  apply HasPrefix_composite_key in H1, H2. by apply (anti_symm prefix).
Qed.


(** The composite key of the tenancy tables determines its parts: every
    part is preceded by its length, so no choice of ids (whatever separators
    they contain) makes two different records share a key; two members share a
    key exactly when their trimmed tenant, workspace and member ids agree. *)
Theorem tenancyCompositeKey_inj :
  (∀ parts parts', tenancyCompositeKey parts = tenancyCompositeKey parts' → parts = parts') ∧
  (∀ t w m t' w' m', tenancyMemberKey t w m = tenancyMemberKey t' w' m' ↔
     TrimSpace t = TrimSpace t' ∧ TrimSpace w = TrimSpace w' ∧ TrimSpace m = TrimSpace m').
Proof.
  split; [exact composite_key_parts|]. intros t w m t' w' m'. unfold tenancyMemberKey. split.
  - intros H. by apply composite_key_parts in H as [= -> -> ->].
  - by intros (-> & -> & ->).
Qed.

(** ** The workspace lifecycle *)

(** What the three statuses mean for the two timestamps. *)
Definition lifecycle_ok (w : TenancyWorkspace) : Prop :=
  (Workspace_Status w = WorkspaceStatusActive ∧ Workspace_SuspendedAt w = None ∧ Workspace_DeletedAt w = None) ∨
  (Workspace_Status w = WorkspaceStatusSuspended ∧ is_Some (Workspace_SuspendedAt w) ∧ Workspace_DeletedAt w = None) ∨
  (Workspace_Status w = WorkspaceStatusDeleted ∧ is_Some (Workspace_DeletedAt w)).

#[export] Instance lifecycle_ok_dec w : Decision (lifecycle_ok w).
Proof. unfold lifecycle_ok. apply _. Defined.

Definition lifecycle_wf (s : DirectoryState) : Prop := map_Forall (λ _ w, lifecycle_ok w) (workspaces s).

(** A call of a lifecycle method. *)
Inductive workspace_op :=
| OpUpsertWorkspace (ctx : Context) (now : Z) (w : TenancyWorkspace)
| OpSuspendWorkspace (ctx : Context) (id : string) (now : Z)
| OpReactivateWorkspace (ctx : Context) (id : string) (now : Z)
| OpSoftDeleteWorkspace (ctx : Context) (id : string) (now : Z)
| OpCancelWorkspaceDeletion (ctx : Context) (id : string) (now : Z).

Definition run_workspace_op (op : workspace_op) (s : DirectoryState) : result DirectoryState :=
  match op with
  | OpUpsertWorkspace ctx now w => UpsertWorkspace ctx now w s
  | OpSuspendWorkspace ctx id now => fst <$> SuspendWorkspace ctx id now s
  | OpReactivateWorkspace ctx id now => fst <$> ReactivateWorkspace ctx id now s
  | OpSoftDeleteWorkspace ctx id now => fst <$> SoftDeleteWorkspace ctx id now s
  | OpCancelWorkspaceDeletion ctx id now => fst <$> CancelWorkspaceDeletion ctx id now s
  end.

(** A failed call leaves the tables as they are. *)
Definition after_workspace_op (s : DirectoryState) (op : workspace_op) : DirectoryState :=
  ok_or s (run_workspace_op op s).

(** Every caller of [UpsertWorkspace] leaves the lifecycle fields blank. *)
Definition blank_lifecycle (op : workspace_op) : Prop :=
  match op with
  | OpUpsertWorkspace _ _ w =>
      TrimSpace (Workspace_Status w) ∈ [""; WorkspaceStatusActive] ∧
      Workspace_SuspendedAt w = None ∧ Workspace_DeletedAt w = None
  | _ => True
  end.

Definition is_cancel (op : workspace_op) : bool :=
  match op with OpCancelWorkspaceDeletion _ _ _ => true | _ => false end.

(** What one call may do to one row. *)
Record row_step (cancel : bool) (w w' : TenancyWorkspace) : Prop := {
  rs_ok : lifecycle_ok w → lifecycle_ok w';
  rs_created : Workspace_CreatedAt w' = Workspace_CreatedAt w;
  rs_deadline : cancel = false → ∀ t, lifecycle_ok w → Workspace_DeletedAt w = Some t →
    Workspace_DeletedAt w' = Some t;
}.

Lemma transition_workspace_step c f ctx id s s' w' :
  (∀ w w', f w = Ok w' → row_step c w w') → transition_workspace f ctx id s = Ok (s', w') →
  ∃ k w, workspaces s !! k = Some w ∧ row_step c w w' ∧ workspaces s' = <[k := w']> (workspaces s).
Proof.
  intros Hf. unfold transition_workspace. intros H. open_bind H p Hp. destruct p as [scope resolved].
  destruct (workspaces s !! _) as [w|] eqn:E; [|discriminate H].
  open_bind H w1 Hw. injection H as <- <-. eexists _, w. split_and!; [exact E|by apply Hf|reflexivity].
Qed.

Lemma row_step_refl c w : row_step c w w.
Proof. by split. Qed.

Lemma row_step_trans c w1 w2 w3 : row_step c w1 w2 → row_step c w2 w3 → row_step c w1 w3.
Proof.
  intros [H1 H2 H3] [K1 K2 K3]. split; [auto|congruence|]. intros Hc t Hok Ht.
  apply K3; [done|by apply H1|by apply H3].
Qed.

Lemma or_stamp_Some p t : is_Some (or_stamp p t).
Proof. destruct p; cbn; eauto. Qed.

Lemma suspend_row_step now w w' : suspend_row now w = Ok w' → row_step false w w'.
Proof.
  unfold suspend_row. destruct (_ || _) eqn:E; [discriminate|]. intros [= <-]. boolify.
  assert (Workspace_DeletedAt w = None) as HD by by apply eq_None_not_Some.
  split; cbn; [|done|by intros _ t _ Ht; rewrite HD in Ht].
  intros _. right; left. split_and!; [done|apply or_stamp_Some|exact HD].
Qed.

Lemma reactivate_row_step now w w' : reactivate_row now w = Ok w' → row_step false w w'.
Proof.
  unfold reactivate_row. destruct (_ || _) eqn:E; [discriminate|]. intros [= <-]. boolify.
  assert (Workspace_DeletedAt w = None) as HD by by apply eq_None_not_Some.
  split; cbn; [|done|by intros _ t _ Ht; rewrite HD in Ht]. intros _. left. by rewrite HD.
Qed.

Lemma soft_delete_row_step now w w' : soft_delete_row now w = Ok w' → row_step false w w'.
Proof.
  intros [= <-]. split; cbn; [|done|by intros _ t _ ->].
  intros _. right; right. split; [done|apply or_stamp_Some].
Qed.

Lemma cancel_deletion_row_step now w w' : cancel_deletion_row now w = Ok w' → row_step true w w'.
Proof. intros [= <-]. split; cbn; [|done|done]. intros _. by left. Qed.

Lemma keep_lifecycle_step existing w : row_step false existing (keep_lifecycle existing w).
Proof. by split. Qed.

Lemma NormalizeTenancyWorkspaceForWrite_blank now w w' :
  NormalizeTenancyWorkspaceForWrite now w = Ok w' →
  TrimSpace (Workspace_Status w) ∈ [""; WorkspaceStatusActive] →
  Workspace_SuspendedAt w = None → Workspace_DeletedAt w = None → lifecycle_ok w'.
Proof.
  unfold NormalizeTenancyWorkspaceForWrite. intros H Hst Hs Hd. inv_ok. left. cbn. split_and!; [|done|done].
  rewrite !elem_of_cons, elem_of_nil in Hst. case_decide; tauto.
Qed.

(** The effect of a call: one row is written, and it steps. *)
Definition writes_row (c : bool) (s s' : DirectoryState) : Prop :=
  ∃ k w', workspaces s' = <[k := w']> (workspaces s) ∧ (lifecycle_wf s → lifecycle_ok w') ∧
    ∀ w, workspaces s !! k = Some w → row_step c w w'.

Lemma transition_writes_row c f ctx id s s' :
  (∀ w w', f w = Ok w' → row_step c w w') → fst <$> transition_workspace f ctx id s = Ok s' →
  writes_row c s s'.
Proof.
  intros Hf Hrun. apply fmap_Ok in Hrun as ([s1 w'] & Hrun & ->).
  apply (transition_workspace_step c) in Hrun as (k & w & Hk & Hst & Hm); [|exact Hf].
  exists k, w'. split_and!; [exact Hm|intros Hs; by apply (rs_ok _ _ _ Hst), (Hs k)|congruence].
Qed.

Lemma UpsertWorkspace_writes_row ctx now w s s' :
  blank_lifecycle (OpUpsertWorkspace ctx now w) → UpsertWorkspace ctx now w s = Ok s' → writes_row false s s'.
Proof.
  intros (Hst & Hs & Hd) Hrun. unfold UpsertWorkspace in Hrun. open_bind Hrun p Hp. destruct p as [scope resolved].
  open_bind Hrun n Hn. open_bind Hrun u Hu. injection Hrun as <-.
  eexists _, _. split; [reflexivity|].
  destruct (workspaces s !! _) as [existing|] eqn:E.
  - split; [|intros x [= <-]; apply keep_lifecycle_step].
    intros Hwf. apply (rs_ok _ _ _ (keep_lifecycle_step existing n)). by apply (Hwf _ _ E).
  - split; [|by intros x [=]]. intros _. by apply (NormalizeTenancyWorkspaceForWrite_blank _ _ _ Hn).
Qed.

Lemma run_workspace_op_writes op s s' :
  run_workspace_op op s = Ok s' → blank_lifecycle op → writes_row (is_cancel op) s s'.
Proof.
  destruct op; cbn -[blank_lifecycle]; intros Hrun Hblank.
  - by eapply UpsertWorkspace_writes_row.
  - eapply transition_writes_row; [apply suspend_row_step|exact Hrun].
  - eapply transition_writes_row; [apply reactivate_row_step|exact Hrun].
  - eapply transition_writes_row; [apply soft_delete_row_step|exact Hrun].
  - eapply transition_writes_row; [apply cancel_deletion_row_step|exact Hrun].
Qed.

(** One call, failed or not: every row steps, and a new row starts active. *)
Lemma after_workspace_op_step op s :
  blank_lifecycle op → lifecycle_wf s →
  lifecycle_wf (after_workspace_op s op) ∧
  ∀ k w, workspaces s !! k = Some w →
    ∃ w', workspaces (after_workspace_op s op) !! k = Some w' ∧ row_step (is_cancel op) w w'.
Proof.
  intros Hblank Hwf. unfold after_workspace_op.
  destruct (run_workspace_op op s) as [s'|e] eqn:Hrun; cbn.
  - apply run_workspace_op_writes in Hrun as (k & w' & Hm & Hok & Hstep); [|exact Hblank].
    unfold lifecycle_wf. rewrite Hm. split; [by apply map_Forall_insert_2; [apply Hok|]|].
    intros k0 w0 Hk0. destruct (decide (k = k0)) as [<-|Hne].
    + exists w'. rewrite lookup_insert_eq. auto.
    + exists w0. rewrite lookup_insert_ne by done. split; [exact Hk0|apply row_step_refl].
  - split; [exact Hwf|]. intros k w Hk. exists w. split; [exact Hk|apply row_step_refl].
Qed.

(** Along any sequence of lifecycle calls (upserts that leave the lifecycle
    fields blank, suspensions, reactivations, deletions, cancellations; failed
    ones included) the status of every workspace agrees with its timestamps and
    no row disappears or changes its creation time; and unless a cancellation is
    among them, a deleted workspace stays deleted with its first deletion time,
    so repeated deletions and renames cannot move the purge deadline. *)
Theorem workspace_lifecycle (ops : list workspace_op) (s : DirectoryState)
    (Hblank : Forall blank_lifecycle ops) (Hwf : lifecycle_wf s) :
  let s' := foldl after_workspace_op s ops in
  lifecycle_wf s' ∧
  ∀ k w, workspaces s !! k = Some w → ∃ w', workspaces s' !! k = Some w' ∧
    Workspace_CreatedAt w' = Workspace_CreatedAt w ∧
    (Forall (λ op, is_cancel op = false) ops → ∀ t, Workspace_DeletedAt w = Some t →
       Workspace_Status w' = WorkspaceStatusDeleted ∧ Workspace_DeletedAt w' = Some t).
Proof.
  cbn. revert s Hwf. induction Hblank as [|op ops Hop _ IH]; intros s Hwf; cbn.
  - split; [exact Hwf|]. intros k w Hk. exists w. split_and!; [exact Hk|done|]. intros _ t Ht.
    destruct (Hwf k w Hk) as [(_ & _ & ?)|[(_ & _ & ?)|[? _]]]; [congruence..|done].
  - destruct (after_workspace_op_step op s Hop Hwf) as [Hwf1 Hstep].
    destruct (IH _ Hwf1) as [Hwf2 Hrows]. split; [exact Hwf2|]. intros k w Hk.
    destruct (Hstep k w Hk) as (w1 & Hk1 & Hst). destruct (Hrows k w1 Hk1) as (w2 & Hk2 & Hc & Hd).
    exists w2. split_and!; [exact Hk2|rewrite Hc; apply Hst|].
    intros Hf t Ht. inversion_clear Hf as [|?? Hc1 Hf']. apply Hd; [exact Hf'|].
    by apply (rs_deadline _ _ _ Hst Hc1); [apply (Hwf k)|].
Qed.

(** ** Sole owners *)
Section stranded.
Context `{MapRange, SortSlice}.

Lemma elem_of_workspace_members t w s m :
  m ∈ workspace_members t w s ↔ (∃ k, members s !! k = Some m) ∧ Member_TenantID m = t ∧ Member_WorkspaceID m = w.
Proof.
  unfold workspace_members. rewrite list_elem_of_filter, list_elem_of_fmap. split.
  - intros (Hs & [k m'] & -> & Hin). apply elem_of_map_range in Hin. cbn. split; [by exists k|exact Hs].
  - intros ((k & Hk) & Hs). split; [exact Hs|]. exists (k, m). split; [done|]. by apply elem_of_map_range.
Qed.

(** A row of the workspace whose account can act. *)
Definition live_in (s : DirectoryState) (scope : Scope) (workspaceID : string) (m : TenancyWorkspaceMember) : Prop :=
  (∃ k, members s !! k = Some m) ∧ Member_TenantID m = Scope_TenantID scope ∧ Member_WorkspaceID m = workspaceID ∧
  live_member s m = true.

Lemma owned_by_true u m : owned_by u m = true ↔ Member_UserUUID m = u ∧ Member_Role m = "owner".
Proof. unfold owned_by. by rewrite andb_true_iff, !bool_decide_eq_true. Qed.

(** Asked for the members a caller's departure would strand, the store
    answers with exactly the other live members of the workspace when the caller
    is its only live owner, and with nobody otherwise: when the caller is not a
    live owner or another live owner remains. *)
Theorem ListWorkspaceStrandedActiveMembers_spec (ctx : Context) (workspaceID userUUID resolved : string)
    (scope : Scope) (s : DirectoryState)
    (Hscope : scoped_workspace ctx workspaceID = Ok (scope, resolved))
    (Hws : is_Some (workspaces s !! tenancyWorkspaceKey (Scope_TenantID scope) resolved))
    (Hcaller : TrimSpace userUUID ≠ "") :
  ∃ l, ListWorkspaceStrandedActiveMembers ctx workspaceID userUUID s = Ok l ∧
    ∀ m, m ∈ l ↔ live_in s scope resolved m ∧ Member_UserUUID m ≠ TrimSpace userUUID ∧
      (∃ o, live_in s scope resolved o ∧ Member_UserUUID o = TrimSpace userUUID ∧ Member_Role o = "owner") ∧
      (∀ o, live_in s scope resolved o → Member_Role o = "owner" → Member_UserUUID o = TrimSpace userUUID).
Proof.
  unfold ListWorkspaceStrandedActiveMembers. rewrite decide_False by exact Hcaller. rewrite Hscope; cbn [mbind result_bind].
  rewrite bool_decide_eq_true_2 by exact Hws. cbn [guard_err mbind result_bind].
  set (caller := TrimSpace userUUID).
  set (live := filter (λ m, live_member s m = true) (workspace_members (Scope_TenantID scope) resolved s)).
  set (others := filter (λ m, Member_UserUUID m ≠ caller) live).
  assert (∀ m, m ∈ live ↔ live_in s scope resolved m) as Hlive.
  { intros m. unfold live, live_in. rewrite list_elem_of_filter, elem_of_workspace_members. tauto. }
  assert (∀ m, m ∈ others ↔ live_in s scope resolved m ∧ Member_UserUUID m ≠ caller) as Hothers.
  { intros m. unfold others. rewrite list_elem_of_filter, Hlive. tauto. }
  assert (existsb (owned_by caller) live = true ↔
    ∃ o, live_in s scope resolved o ∧ Member_UserUUID o = caller ∧ Member_Role o = "owner") as Hown.
  { rewrite existsb_exists. split; intros (o & Ho & Hr); exists o.
    - apply owned_by_true in Hr. split; [by apply Hlive, list_elem_of_In|exact Hr].
    - split; [by apply list_elem_of_In, Hlive|by apply owned_by_true]. }
  destruct (existsb (owned_by caller) live) eqn:E1; cbn [negb orb]; [|eexists; split; [reflexivity|]].
  2: { intros m. split; [by intros ?%elem_of_nil|]. intros (_ & _ & Ho & _). by apply Hown in Ho. }
  destruct (filter (λ m, Member_Role m = "owner") others) as [|o l] eqn:E2; cbn.
  - destruct (length others =? 0)%nat eqn:E3; eexists; (split; [reflexivity|]); intros m.
    + apply Nat.eqb_eq, length_zero_iff_nil in E3. split; [by intros ?%elem_of_nil|].
      intros (Hm & Hne & _). assert (m ∈ others) as Hin by by apply Hothers. by rewrite E3 in Hin; apply elem_of_nil in Hin.
    + rewrite elem_of_sort_slice, Hothers. split; [|tauto]. intros [Hm Hne]. split_and!; [done|done|by apply Hown|].
      intros o Ho Hr. destruct (decide (Member_UserUUID o = caller)) as [|Hc]; [done|].
      assert (o ∈ filter (λ m, Member_Role m = "owner") others) as Hin
        by by apply list_elem_of_filter; split; [|apply Hothers].
      by rewrite E2 in Hin; apply elem_of_nil in Hin.
  - eexists; split; [reflexivity|]. intros m. split; [by intros ?%elem_of_nil|]. intros (_ & _ & _ & Hall).
    assert (o ∈ filter (λ m, Member_Role m = "owner") others) as Hin by (rewrite E2; left).
    apply list_elem_of_filter in Hin as [Hr Hin]. apply Hothers in Hin as [Ho Hne]. by destruct Hne; apply Hall.
Qed.
End stranded.

(** ** Witnesses *)
#[local] Existing Instance canonical_range.
#[local] Existing Instance insertion_sort.

Definition sample_tenancy_ctx : Context := Some (mkScope "acme" "prod").
Definition sample_workspace_input : TenancyWorkspace := mkWorkspace "" "" "Prod" "prod" "" None None time_zero time_zero.
Definition sample_member_input (id user uuid role status : string) : TenancyWorkspaceMember :=
  mkMember "" "" id user uuid "" role status 5 5.
Definition sample_directory_0 : DirectoryState :=
  mkDirectory {[ "acme" := mkOrganization "acme" "Acme" "acme" 1 1 ]} ∅ ∅ ∅
    {[ "u1" := mkUser "u1" "a@x" "" "" "active" 1 1 None; "u2" := mkUser "u2" "b@x" "" "" "active" 1 1 None ]} ∅ ∅ ∅.
Definition sample_directory : DirectoryState :=
  ok_or sample_directory_0
    (s ← UpsertWorkspace sample_tenancy_ctx 3 sample_workspace_input sample_directory_0;
     s ← UpsertWorkspaceMember sample_tenancy_ctx 4 (sample_member_input "m1" "sub1" "u1" "owner" "active") s;
     UpsertWorkspaceMember sample_tenancy_ctx 4 (sample_member_input "m2" "sub2" "u2" "viewer" "active") s).

Lemma workspace_lifecycle_witness :
  let s' := foldl after_workspace_op sample_directory
    [OpSoftDeleteWorkspace sample_tenancy_ctx "" 10; OpSoftDeleteWorkspace sample_tenancy_ctx "" 20;
     OpUpsertWorkspace sample_tenancy_ctx 30 sample_workspace_input] in
  lifecycle_wf s' ∧
  (∃ w, GetWorkspace sample_tenancy_ctx "" s' = Ok w ∧ Workspace_DeletedAt w = Some 10).
Proof.
  split; [|eexists; split; [by vm_compute|reflexivity]].
  refine (proj1 (workspace_lifecycle [OpSoftDeleteWorkspace sample_tenancy_ctx "" 10;
    OpSoftDeleteWorkspace sample_tenancy_ctx "" 20;
    OpUpsertWorkspace sample_tenancy_ctx 30 sample_workspace_input] sample_directory _ _)).
  - repeat constructor; cbn.
  - unfold lifecycle_wf. by apply (bool_decide_unpack _); vm_compute.
Defined.

Lemma ListWorkspaceStrandedActiveMembers_spec_witness :
  is_ok (ListWorkspaceStrandedActiveMembers sample_tenancy_ctx "" "u1" sample_directory) = true ∧
  ∃ l, ListWorkspaceStrandedActiveMembers sample_tenancy_ctx "" "u1" sample_directory = Ok l ∧
    ∀ m, m ∈ l ↔ live_in sample_directory (mkScope "acme" "prod") "prod" m ∧ Member_UserUUID m ≠ TrimSpace "u1" ∧
      (∃ o, live_in sample_directory (mkScope "acme" "prod") "prod" o ∧ Member_UserUUID o = TrimSpace "u1" ∧
            Member_Role o = "owner") ∧
      (∀ o, live_in sample_directory (mkScope "acme" "prod") "prod" o → Member_Role o = "owner" →
            Member_UserUUID o = TrimSpace "u1").
Proof.
  split; [by vm_compute|].
  apply (ListWorkspaceStrandedActiveMembers_spec sample_tenancy_ctx "" "u1" "prod" (mkScope "acme" "prod")).
  - by vm_compute.
  - by apply (bool_decide_unpack _); vm_compute.
  - by apply (bool_decide_unpack _); vm_compute.
Defined.
