(* ===== verification/Accounts.v ===== *)
(** * Accounts, provider identities and sessions (internal/db/memory_auth.go)

    The account methods of [MemoryStore] over [DirectoryState]; each runs under
    the store's mutex.  A session hash is a byte string. *)
From S2P Require Import Prelude GoStrings GoCollections GoTime Scope AuthzRecords TenancyRecords Tenancy.

Definition with_users m s :=
  mkDirectory (organizations s) (workspaces s) (members s) (projects s) m (userIdentityByID s)
    (userIdentityByProviderSubject s) (sessions s).
Definition with_identities m k s :=
  mkDirectory (organizations s) (workspaces s) (members s) (projects s) (users s) m k (sessions s).
Definition with_sessions m s :=
  mkDirectory (organizations s) (workspaces s) (members s) (projects s) (users s) (userIdentityByID s)
    (userIdentityByProviderSubject s) m.

(** [strings.ToLower(provider) + "\x00" + subject]. *)
Definition userIdentityLookupKey (provider subject : string) : string :=
  canon provider +:+ String "000"%char (TrimSpace subject).

(** [hex.EncodeToString]. *)
Fixpoint hex_bytes (l : list ascii) : list ascii :=
  match l with
  | [] => []
  | c :: l => hex_digit (code c / 16) :: hex_digit (code c `mod` 16) :: hex_bytes l
  end.
Definition sessionHashKey (hash : string) : string := of_bytes (hex_bytes (bytes hash)).

(** ** Users *)

(** Another account has the address. *)
Definition email_taken (email id : string) (s : DirectoryState) : bool :=
  bool_decide (map_Exists (λ id' u, User_PrimaryEmail u = email ∧ id' ≠ id) (users s)).

Definition UpsertUser `{UUIDParser} (now : Z) (fresh : string) (user : User) (s : DirectoryState)
    : result (DirectoryState * User) :=
  normalized ← NormalizeUserForWrite now fresh user;
  _ ← guard_err (negb (email_taken (User_PrimaryEmail normalized) (User_ID normalized) s)) ErrConflict;
  mret (with_users (<[User_ID normalized := normalized]> (users s)) s, normalized).

(** Stores the transformed row of an account and returns it. *)
Definition write_user (id : string) (user : User) (s : DirectoryState) : DirectoryState * User :=
  (with_users (<[id := user]> (users s)) s, user).

Definition UpdateUserProfile `{UUIDParser} (now : Z) (fresh : string) (user : User) (s : DirectoryState)
    : result (DirectoryState * User) :=
  normalized ← NormalizeUserForWrite now fresh user;
  match users s !! User_ID normalized with
  | None => Err ErrNotFound
  | Some existing =>
      _ ← guard_err (negb (email_taken (User_PrimaryEmail normalized) (User_ID normalized) s)) ErrConflict;
      mret (write_user (User_ID normalized)
        (mkUser (User_ID existing) (User_PrimaryEmail normalized) (User_DisplayName normalized)
           (User_AvatarURL normalized) (User_Status existing) (User_CreatedAt existing)
           (User_UpdatedAt normalized) (User_DeletedAt normalized)) s)
  end.

Definition UpdateCurrentUserProfile (userID : string) (displayName avatarURL : option string) (updatedAt : Z)
    (s : DirectoryState) : result (DirectoryState * User) :=
  let id := TrimSpace userID in
  match users s !! id with
  | None => Err ErrNotFound
  | Some existing =>
      if decide (User_Status existing ≠ "active") then Err ErrNotFound
      else mret (write_user id
        (mkUser (User_ID existing) (User_PrimaryEmail existing)
           (match displayName with Some v => TrimSpace v | None => User_DisplayName existing end)
           (match avatarURL with Some v => TrimSpace v | None => User_AvatarURL existing end)
           (User_Status existing) (User_CreatedAt existing) updatedAt (User_DeletedAt existing)) s)
  end.

Definition GetUser (userID : string) (s : DirectoryState) : result User :=
  match users s !! TrimSpace userID with None => Err ErrNotFound | Some user => mret user end.

Definition GetUserByPrimaryEmail `{MapRange} (email : string) (s : DirectoryState) : result User :=
  match filter (λ u, User_PrimaryEmail u = canon email) (map_range (users s)).*2 with
  | [] => Err ErrNotFound
  | user :: _ => mret user
  end.

Definition set_user_lifecycle (status : string) (deletedAt : option Z) (now : Z) (u : User) : User :=
  mkUser (User_ID u) (User_PrimaryEmail u) (User_DisplayName u) (User_AvatarURL u) status (User_CreatedAt u)
    now deletedAt.

Definition SetUserStatus (userID status : string) (now : Z) (s : DirectoryState) : result (DirectoryState * User) :=
  let normalizedStatus := canon status in
  _ ← guard_err (bool_decide (normalizedStatus ∈ validUserStatuses)) (Errorf "invalid user status");
  let id := TrimSpace userID in
  match users s !! id with
  | None => Err ErrNotFound
  | Some user => mret (write_user id (set_user_lifecycle normalizedStatus (User_DeletedAt user) now user) s)
  end.

Definition SoftDeleteUser (userID : string) (now : Z) (s : DirectoryState) : result (DirectoryState * User) :=
  let id := TrimSpace userID in
  match users s !! id with
  | None => Err ErrNotFound
  | Some user => mret (write_user id (set_user_lifecycle "deleted" (or_stamp (User_DeletedAt user) now) now user) s)
  end.

Definition CancelUserDeletion (userID : string) (now : Z) (s : DirectoryState) : result (DirectoryState * User) :=
  let id := TrimSpace userID in
  match users s !! id with
  | None => Err ErrNotFound
  | Some user => mret (write_user id (set_user_lifecycle "active" None now user) s)
  end.

Definition HardDeletedTombstoneEmail (userID : string) : string :=
  "deleted-user+" +:+ canon userID +:+ "@accounts.invalid".
Definition IsHardDeletedTombstoneEmailForUser (email userID : string) : bool :=
  EqualFold (TrimSpace email) (HardDeletedTombstoneEmail userID).

Definition user_deleted_at (u : User) : Z := default 0 (User_DeletedAt u).

Definition user_pending (cutoff : Z) (u : User) : bool :=
  bool_decide (User_Status u = "deleted") &&
  match User_DeletedAt u with Some t => Before t cutoff | None => false end &&
  negb (IsHardDeletedTombstoneEmailForUser (User_PrimaryEmail u) (User_ID u)).

Definition ListUsersPendingHardDelete `{MapRange, SortSlice} (deletedBefore limit : Z) (s : DirectoryState)
    : list User :=
  let limit := if limit <=? 0 then 100 else limit in
  truncate limit
    (sort_slice (λ l r, if decide (user_deleted_at l = user_deleted_at r) then str_ltb (User_ID l) (User_ID r)
                        else Before (user_deleted_at l) (user_deleted_at r))
      (filter (λ u, user_pending deletedBefore u = true) (map_range (users s)).*2)).

(** Removes the identities of an account and every index entry that names one. *)
Definition drop_user_identities (userID : string) (s : DirectoryState) : DirectoryState :=
  let dropped := filter (λ '(_, i), Identity_UserID i = userID) (userIdentityByID s) in
  with_identities (filter (λ '(_, i), Identity_UserID i ≠ userID) (userIdentityByID s))
    (filter (λ '(_, mapped), dropped !! mapped = None) (userIdentityByProviderSubject s)) s.

Definition HardDeleteUser (userID : string) (now : Z) (s : DirectoryState) : result (DirectoryState * User) :=
  let id := TrimSpace userID in
  match users s !! id with
  | None => Err ErrNotFound
  | Some user =>
      if negb (bool_decide (User_Status user = "deleted")) || bool_decide (User_DeletedAt user = None)
      then Err (Errorf ("hard delete: user " +:+ id +:+ " is not pending deletion (status=" +:+
                        Quote (User_Status user) +:+ ")"))
      else
        let user' := mkUser (User_ID user) (HardDeletedTombstoneEmail id) "" "" "deleted" (User_CreatedAt user)
                       now (User_DeletedAt user) in
        let s := with_users (<[id := user']> (users s)) s in
        let s := drop_user_identities id s in
        let s := with_sessions (filter (λ '(_, session), Session_UserID session ≠ id) (sessions s)) s in
        mret (with_members (filter (λ '(_, m), Member_UserUUID m ≠ id) (members s)) s, user')
  end.

(** ** Provider identities *)
Definition identity_key (i : UserIdentity) : string :=
  userIdentityLookupKey (Identity_Provider i) (Identity_Subject i).

Definition UpsertUserIdentity `{UUIDParser, BundleCodec} (now : Z) (fresh : string) (identity : UserIdentity)
    (s : DirectoryState) : result (DirectoryState * UserIdentity) :=
  normalized ← NormalizeUserIdentityForWrite now fresh identity;
  _ ← guard_err (bool_decide (is_Some (users s !! Identity_UserID normalized))) ErrNotFound;
  let lookupKey := identity_key normalized in
  let id := Identity_ID normalized in
  let byID := match userIdentityByProviderSubject s !! lookupKey with
              | Some existingID => if decide (existingID = id) then userIdentityByID s
                                   else delete existingID (userIdentityByID s)
              | None => userIdentityByID s
              end in
  let byKey := filter (λ '(key, existingID), ¬ (existingID = id ∧ key ≠ lookupKey))
                 (userIdentityByProviderSubject s) in
  mret (with_identities (<[id := normalized]> byID) (<[lookupKey := id]> byKey) s, normalized).

Definition GetUserIdentity (provider subject : string) (s : DirectoryState) : result UserIdentity :=
  match userIdentityByProviderSubject s !! userIdentityLookupKey provider subject with
  | None => Err ErrNotFound
  | Some id => match userIdentityByID s !! id with None => Err ErrNotFound | Some identity => mret identity end
  end.

Definition GetUserIdentityBySubject `{MapRange, SortSlice} (subject : string) (s : DirectoryState)
    : result UserIdentity :=
  let normalizedSubject := TrimSpace subject in
  if decide (normalizedSubject = "") then Err ErrNotFound else
  match sort_slice (λ l r, if decide (Identity_UserID l = Identity_UserID r)
                           then str_ltb (Identity_ID l) (Identity_ID r)
                           else str_ltb (Identity_UserID l) (Identity_UserID r))
          (filter (λ i, TrimSpace (Identity_Subject i) = normalizedSubject) (map_range (userIdentityByID s)).*2) with
  | [] => Err ErrNotFound
  | first :: rest =>
      if forallb (λ i, bool_decide (Identity_UserID i = Identity_UserID first)) rest then mret first
      else Err ErrConflict
  end.

Definition GetUserIdentityByProviderUserID `{MapRange} (provider userID : string) (s : DirectoryState)
    : result UserIdentity :=
  match filter (λ i, Identity_Provider i = canon provider ∧ Identity_UserID i = TrimSpace userID)
          (map_range (userIdentityByID s)).*2 with
  | [] => Err ErrNotFound
  | [match_] => mret match_
  | _ => Err ErrConflict
  end.

(** A non-positive limit keeps everything. *)
Definition limit_positive {A} (limit : Z) (l : list A) : list A := if 0 <? limit then truncate limit l else l.

Definition ListUserIdentitiesByProvider `{MapRange, SortSlice} (provider : string) (limit : Z) (s : DirectoryState)
    : list UserIdentity :=
  limit_positive limit
    (sort_slice (λ l r, After (Identity_CreatedAt l) (Identity_CreatedAt r))
      (filter (λ i, Identity_Provider i = canon provider) (map_range (userIdentityByID s)).*2)).

Definition DeleteUserIdentity (provider subject : string) (s : DirectoryState) : result DirectoryState :=
  match userIdentityByProviderSubject s !! userIdentityLookupKey provider subject with
  | None => Err ErrNotFound
  | Some id =>
      mret (with_identities (delete id (userIdentityByID s))
              (filter (λ '(_, mapped), mapped ≠ id) (userIdentityByProviderSubject s)) s)
  end.

(** ** Sessions *)
Definition account_active (u : User) : bool :=
  bool_decide (User_DeletedAt u = None) && bool_decide (User_Status u = "active").

Definition set_session_user (u : User) (x : Session) : Session :=
  mkSession (Session_ID x) (Session_UserID x) (Session_CurrentOrgID x) (Session_CurrentWorkspaceID x)
    (Session_CurrentProjectID x) (Session_AuthMethod x) (Session_IP x) (Session_UserAgent x)
    (Session_IdleExpiresAt x) (Session_AbsoluteExpiresAt x) (Session_LastSeenAt x) (Session_RevokedAt x)
    (Session_CreatedAt x) (Some u).

Definition CreateSession `{UUIDParser} (now : Z) (session : Session) (s : DirectoryState)
    : result (DirectoryState * Session) :=
  normalized ← NormalizeSessionForWrite now session;
  match users s !! Session_UserID normalized with
  | None => Err ErrNotFound
  | Some user =>
      if negb (account_active user) then Err ErrNotFound
      else
        let stored := set_session_user user normalized in
        mret (with_sessions (<[sessionHashKey (Session_ID normalized) := stored]> (sessions s)) s, stored)
  end.

(** Neither expiry has passed. *)
Definition session_unexpired (now : Z) (x : Session) : bool :=
  After (Session_IdleExpiresAt x) now && After (Session_AbsoluteExpiresAt x) now.

Definition session_usable (now : Z) (x : Session) : bool :=
  bool_decide (Session_RevokedAt x = None) && session_unexpired now x.

(** The sliding renewal: idle expiry moves to [now + SessionIdleTimeout], but
    never past the absolute expiry. *)
Definition renew_session (now : Z) (u : User) (x : Session) : Session :=
  let nextIdle := now + SessionIdleTimeout in
  let nextIdle := if After nextIdle (Session_AbsoluteExpiresAt x) then Session_AbsoluteExpiresAt x else nextIdle in
  mkSession (Session_ID x) (Session_UserID x) (Session_CurrentOrgID x) (Session_CurrentWorkspaceID x)
    (Session_CurrentProjectID x) (Session_AuthMethod x) (Session_IP x) (Session_UserAgent x)
    nextIdle (Session_AbsoluteExpiresAt x) now (Session_RevokedAt x) (Session_CreatedAt x) (Some u).

Definition touchSessionInternal (sessionIDHash : string) (now : Z) (allowPendingDeletion : bool)
    (s : DirectoryState) : result (DirectoryState * Session) :=
  let key := sessionHashKey sessionIDHash in
  match sessions s !! key with
  | None => Err ErrNotFound
  | Some session =>
      _ ← guard_err (session_usable now session) ErrNotFound;
      match users s !! Session_UserID session with
      | None => Err ErrNotFound
      | Some user =>
          _ ← guard_err (account_active user ||
                         (allowPendingDeletion && bool_decide (User_Status user = "deleted") &&
                          bool_decide (is_Some (User_DeletedAt user)))) ErrNotFound;
          let session := renew_session now user session in
          mret (with_sessions (<[key := session]> (sessions s)) s, session)
      end
  end.

Definition TouchSession (sessionIDHash : string) (now : Z) := touchSessionInternal sessionIDHash now false.
Definition TouchSessionAllowingPendingDeletion (sessionIDHash : string) (now : Z) :=
  touchSessionInternal sessionIDHash now true.

Definition set_session_context (orgID workspaceID projectID : string) (now : Z) (u : User) (x : Session) : Session :=
  mkSession (Session_ID x) (Session_UserID x) (TrimSpace orgID) (TrimSpace workspaceID) (TrimSpace projectID)
    (Session_AuthMethod x) (Session_IP x) (Session_UserAgent x) (Session_IdleExpiresAt x)
    (Session_AbsoluteExpiresAt x) now (Session_RevokedAt x) (Session_CreatedAt x) (Some u).

Definition UpdateSessionContext (userID sessionIDHash orgID workspaceID projectID : string) (now : Z)
    (s : DirectoryState) : result (DirectoryState * Session) :=
  let key := sessionHashKey sessionIDHash in
  match sessions s !! key with
  | None => Err ErrNotFound
  | Some session =>
      _ ← guard_err (bool_decide (Session_UserID session = TrimSpace userID) &&
                     bool_decide (Session_RevokedAt session = None)) ErrNotFound;
      _ ← guard_err (session_unexpired now session) ErrNotFound;
      match users s !! Session_UserID session with
      | None => Err ErrNotFound
      | Some user =>
          _ ← guard_err (account_active user) ErrNotFound;
          let session := set_session_context orgID workspaceID projectID now user session in
          mret (with_sessions (<[key := session]> (sessions s)) s, session)
      end
  end.

Definition ListUserSessions `{MapRange, SortSlice} (userID : string) (now limit : Z) (s : DirectoryState)
    : list Session :=
  let limit := if limit <=? 0 then 100 else limit in
  truncate limit
    (sort_slice (λ l r, After (Session_LastSeenAt l) (Session_LastSeenAt r))
      (filter (λ x, Session_UserID x = TrimSpace userID ∧ session_usable now x = true) (map_range (sessions s)).*2)).

Definition ListUserSessionHistory `{MapRange, SortSlice} (userID : string) (limit : Z) (s : DirectoryState)
    : list Session :=
  limit_positive limit
    (sort_slice (λ l r, After (Session_LastSeenAt l) (Session_LastSeenAt r))
      (filter (λ x, Session_UserID x = TrimSpace userID) (map_range (sessions s)).*2)).

Definition revoke (when : Z) (x : Session) : Session :=
  mkSession (Session_ID x) (Session_UserID x) (Session_CurrentOrgID x) (Session_CurrentWorkspaceID x)
    (Session_CurrentProjectID x) (Session_AuthMethod x) (Session_IP x) (Session_UserAgent x)
    (Session_IdleExpiresAt x) (Session_AbsoluteExpiresAt x) (Session_LastSeenAt x) (Some when)
    (Session_CreatedAt x) (Session_User x).

Definition RevokeUserSession (userID sessionIDHash : string) (revokedAt : Z) (s : DirectoryState)
    : result (DirectoryState * Session) :=
  let key := sessionHashKey sessionIDHash in
  match sessions s !! key with
  | None => Err ErrNotFound
  | Some session =>
      _ ← guard_err (bool_decide (Session_UserID session = TrimSpace userID) &&
                     bool_decide (Session_RevokedAt session = None)) ErrNotFound;
      mret (with_sessions (<[key := revoke revokedAt session]> (sessions s)) s, revoke revokedAt session)
  end.

(** Revokes the sessions a loop over the table selects, and counts them. *)
Definition revoke_selected (selected : Session → bool) (revokedAt : Z) (s : DirectoryState) : DirectoryState * Z :=
  (with_sessions ((λ x, if selected x then revoke revokedAt x else x) <$> sessions s) s,
   Z.of_nat (size (filter (λ '(_, x), selected x = true) (sessions s)))).

Definition owned_unrevoked (userID : string) (x : Session) : bool :=
  bool_decide (Session_UserID x = TrimSpace userID) && bool_decide (Session_RevokedAt x = None).

Definition RevokeOtherUserSessions (userID currentSessionIDHash : string) (revokedAt : Z) :=
  revoke_selected (λ x, owned_unrevoked userID x && negb (bool_decide (Session_ID x = currentSessionIDHash))) revokedAt.
Definition RevokeAllUserSessions (userID : string) (revokedAt : Z) :=
  revoke_selected (owned_unrevoked userID) revokedAt.

(** ** The identity index *)

(** Every identity is indexed under its provider and subject, every index entry
    names the identity it is the key of, and identities belong to accounts. *)
Record identity_wf (s : DirectoryState) : Prop := {
  iw_indexed : ∀ id i, userIdentityByID s !! id = Some i →
    Identity_ID i = id ∧ userIdentityByProviderSubject s !! identity_key i = Some id ∧
    is_Some (users s !! Identity_UserID i);
  iw_named : ∀ k id, userIdentityByProviderSubject s !! k = Some id →
    ∃ i, userIdentityByID s !! id = Some i ∧ identity_key i = k;
}.

(** A call of an account method that changes the tables. *)
Inductive account_op :=
| OpUpsertUser (now : Z) (fresh : string) (u : User)
| OpUpdateUserProfile (now : Z) (fresh : string) (u : User)
| OpUpdateCurrentUserProfile (id : string) (name avatar : option string) (now : Z)
| OpSetUserStatus (id status : string) (now : Z)
| OpSoftDeleteUser (id : string) (now : Z)
| OpCancelUserDeletion (id : string) (now : Z)
| OpHardDeleteUser (id : string) (now : Z)
| OpUpsertUserIdentity (now : Z) (fresh : string) (i : UserIdentity)
| OpDeleteUserIdentity (provider subject : string)
| OpCreateSession (now : Z) (x : Session)
| OpTouchSession (hash : string) (now : Z) (lenient : bool)
| OpUpdateSessionContext (id hash org workspace project : string) (now : Z)
| OpRevokeUserSession (id hash : string) (now : Z)
| OpRevokeOtherUserSessions (id hash : string) (now : Z)
| OpRevokeAllUserSessions (id : string) (now : Z).

Definition run_account_op `{UUIDParser, BundleCodec} (op : account_op) (s : DirectoryState) : result DirectoryState :=
  match op with
  | OpUpsertUser now fresh u => fst <$> UpsertUser now fresh u s
  | OpUpdateUserProfile now fresh u => fst <$> UpdateUserProfile now fresh u s
  | OpUpdateCurrentUserProfile id name avatar now => fst <$> UpdateCurrentUserProfile id name avatar now s
  | OpSetUserStatus id status now => fst <$> SetUserStatus id status now s
  | OpSoftDeleteUser id now => fst <$> SoftDeleteUser id now s
  | OpCancelUserDeletion id now => fst <$> CancelUserDeletion id now s
  | OpHardDeleteUser id now => fst <$> HardDeleteUser id now s
  | OpUpsertUserIdentity now fresh i => fst <$> UpsertUserIdentity now fresh i s
  | OpDeleteUserIdentity provider subject => DeleteUserIdentity provider subject s
  | OpCreateSession now x => fst <$> CreateSession now x s
  | OpTouchSession hash now lenient => fst <$> touchSessionInternal hash now lenient s
  | OpUpdateSessionContext id hash org workspace project now =>
      fst <$> UpdateSessionContext id hash org workspace project now s
  | OpRevokeUserSession id hash now => fst <$> RevokeUserSession id hash now s
  | OpRevokeOtherUserSessions id hash now => mret (RevokeOtherUserSessions id hash now s).1
  | OpRevokeAllUserSessions id now => mret (RevokeAllUserSessions id now s).1
  end.

Section account_facts.
Context `{UUIDParser, BundleCodec}.

Lemma identity_wf_frame s s' :
  userIdentityByID s' = userIdentityByID s → userIdentityByProviderSubject s' = userIdentityByProviderSubject s →
  (∀ id, is_Some (users s !! id) → is_Some (users s' !! id)) → identity_wf s → identity_wf s'.
Proof.
  intros E1 E2 Hu [H1 H2]. split; rewrite E1, E2.
  - intros id i Hi. destruct (H1 id i Hi) as (? & ? & ?). auto.
  - exact H2.
Qed.

Lemma insert_keeps {A} (m : gmap string A) k x id : is_Some (m !! id) → is_Some (<[k := x]> m !! id).
Proof. intros Hi. destruct (decide (k = id)) as [->|]; [by rewrite lookup_insert_eq|by rewrite lookup_insert_ne]. Qed.

Lemma write_user_wf id u s : identity_wf s → identity_wf (write_user id u s).1.
Proof. apply identity_wf_frame; [done..|]. intros id'. apply insert_keeps. Qed.

Lemma with_sessions_wf m s : identity_wf s → identity_wf (with_sessions m s).
Proof. by apply identity_wf_frame. Qed.

Lemma drop_user_identities_wf id s : identity_wf s → identity_wf (drop_user_identities id s).
Proof.
  intros [H1 H2]. split; cbn.
  - intros id' i Hi. apply map_lookup_filter_Some in Hi as [Hi Hne]. destruct (H1 _ _ Hi) as (E & Hk & Hu).
    split_and!; [exact E| |exact Hu]. apply map_lookup_filter_Some. split; [exact Hk|].
    apply map_lookup_filter_None. right. intros i' Hi'. assert (i' = i) as -> by congruence. exact Hne.
  - intros k id' Hk. apply map_lookup_filter_Some in Hk as [Hk Hdrop]. destruct (H2 _ _ Hk) as (i & Hi & Hki).
    exists i. split; [|exact Hki]. apply map_lookup_filter_Some. split; [exact Hi|].
    intros E. apply map_lookup_filter_None in Hdrop as [?|Hdrop]; [congruence|]. by apply (Hdrop i Hi).
Qed.

Lemma HardDeleteUser_wf id now s s' u : HardDeleteUser id now s = Ok (s', u) → identity_wf s → identity_wf s'.
Proof.
  unfold HardDeleteUser. destruct (users s !! TrimSpace id) as [user|]; [|discriminate].
  destruct (_ || _); [discriminate|]. intros [= <- <-] Hwf.
  eapply identity_wf_frame; [..|apply drop_user_identities_wf, (write_user_wf (TrimSpace id)), Hwf]; done.
Qed.

Lemma UpsertUserIdentity_wf now fresh i s s' n :
  UpsertUserIdentity now fresh i s = Ok (s', n) → identity_wf s → identity_wf s'.
Proof.
  unfold UpsertUserIdentity. intros E [H1 H2]. open_bind E n' Hn. open_bind E u Hu.
  apply guard_err_Ok, bool_decide_eq_true in Hu. injection E as <- <-.
  set (lk := identity_key n'). set (id := Identity_ID n').
  set (byID := match userIdentityByProviderSubject s !! lk with Some _ => _ | None => _ end).
  assert (∀ id' i', byID !! id' = Some i' ↔ userIdentityByID s !! id' = Some i' ∧
    ¬ (userIdentityByProviderSubject s !! lk = Some id' ∧ id' ≠ id)) as HbyID.
  { intros id' i'. unfold byID. destruct (userIdentityByProviderSubject s !! lk) as [ex|] eqn:E; [|naive_solver].
    case_decide as He; [naive_solver|]. rewrite lookup_delete_Some. naive_solver. }
  split; cbn.
  - intros id' i'. destruct (decide (id' = id)) as [->|Hne].
    + rewrite lookup_insert_eq. intros [= <-]. split_and!; [done|by rewrite lookup_insert_eq|exact Hu].
    + rewrite lookup_insert_ne by done. intros [Hi Hdel]%HbyID. destruct (H1 _ _ Hi) as (? & Hk & ?).
      split_and!; [done| |done]. rewrite lookup_insert_ne by (intros E; apply Hdel; rewrite <-E in Hk; done).
      apply map_lookup_filter_Some. split; [exact Hk|]. by intros [? _].
  - intros k id'. destruct (decide (k = lk)) as [->|Hne].
    + rewrite lookup_insert_eq. intros [= <-]. exists n'. by rewrite lookup_insert_eq.
    + rewrite lookup_insert_ne by done. intros [Hk Hid]%map_lookup_filter_Some.
      assert (id' ≠ id) as Hid' by (intros ->; by apply Hid). destruct (H2 _ _ Hk) as (i' & Hi & Hki).
      exists i'. rewrite lookup_insert_ne by done. split; [|exact Hki]. apply HbyID. split; [exact Hi|].
      intros [Hlk _]. destruct (H2 _ _ Hlk) as (i2 & Hi2 & Hk2). congruence.
Qed.

Lemma DeleteUserIdentity_wf p q s s' : DeleteUserIdentity p q s = Ok s' → identity_wf s → identity_wf s'.
Proof.
  unfold DeleteUserIdentity. destruct (_ !! _) as [id|] eqn:E; [|discriminate]. intros [= <-] [H1 H2].
  split; cbn.
  - intros id' i Hi. apply lookup_delete_Some in Hi as [Hne Hi]. destruct (H1 _ _ Hi) as (? & ? & ?).
    split_and!; [done| |done]. by apply map_lookup_filter_Some.
  - intros k id' Hk. apply map_lookup_filter_Some in Hk as [Hk Hne]. destruct (H2 _ _ Hk) as (i & Hi & ?).
    exists i. by rewrite lookup_delete_ne.
Qed.

(** Splits a successful run of a definition into its branches. *)
Ltac run_cases :=
  repeat first
    [ match goal with
      | H : mret (_, _) = Ok (_, _) |- _ => injection H as ? ?; subst
      | H : Ok (_, _) = Ok (_, _) |- _ => injection H as ? ?; subst
      end
    | progress inv_ok
    | match goal with
      | H : match ?m !! ?k with _ => _ end = Ok _ |- _ => destruct (m !! k) eqn:?
      | H : (if ?b then _ else _) = Ok _ |- _ => destruct b eqn:?
      end ].

(** What each method writes, besides the identity tables. *)
Inductive account_effect (s s' : DirectoryState) : Prop :=
| effect_user id u : s' = (write_user id u s).1 → account_effect s s'
| effect_sessions m : s' = with_sessions m s → account_effect s s'.

Tactic Notation "account_cases" hyp(Hr) reference(method) :=
  apply fmap_Ok in Hr as ([? ?] & Hr & ->); left; unfold method in Hr; run_cases;
  first [by eapply effect_user|by eapply effect_sessions].

Lemma run_account_op_effect op s s' :
  run_account_op op s = Ok s' →
  account_effect s s' ∨
  (∃ now fresh i n, UpsertUserIdentity now fresh i s = Ok (s', n)) ∨
  (∃ p q, DeleteUserIdentity p q s = Ok s') ∨
  (∃ id now u, HardDeleteUser id now s = Ok (s', u)).
Proof.
  destruct op; cbn; intros Hr.
  - account_cases Hr UpsertUser.
  - account_cases Hr UpdateUserProfile.
  - account_cases Hr UpdateCurrentUserProfile.
  - account_cases Hr SetUserStatus.
  - account_cases Hr SoftDeleteUser.
  - account_cases Hr CancelUserDeletion.
  - apply fmap_Ok in Hr as ([s1 r] & Hr & ->). right; right; right. by eexists _, _, _.
  - apply fmap_Ok in Hr as ([s1 r] & Hr & ->). right; left. by eexists _, _, _, _.
  - right; right; left. by eexists _, _.
  - account_cases Hr CreateSession.
  - account_cases Hr touchSessionInternal.
  - account_cases Hr UpdateSessionContext.
  - account_cases Hr RevokeUserSession.
  - injection Hr as <-. left. by eapply effect_sessions.
  - injection Hr as <-. left. by eapply effect_sessions.
Qed.

Lemma run_account_op_wf op s s' : run_account_op op s = Ok s' → identity_wf s → identity_wf s'.
Proof.
  intros Hr Hwf.
  apply run_account_op_effect in Hr as [[id u ->|m ->]|[(? & ? & ? & ? & Hr)|[(? & ? & Hr)|(? & ? & ? & Hr)]]].
  - by apply write_user_wf.
  - by apply with_sessions_wf.
  - by eapply UpsertUserIdentity_wf.
  - by eapply DeleteUserIdentity_wf.
  - by eapply HardDeleteUser_wf.
Qed.

(** Every account method keeps the provider-subject index and the identity
    table in step, purges and identities that move to another subject included;
    so in a reachable state a (provider, subject) lookup returns an identity
    exactly when it is the one stored under that provider and subject, and that
    identity belongs to a stored account. *)
Theorem identity_index_invariant (op : account_op) (s s' : DirectoryState)
    (Hwf : identity_wf s) (Hrun : run_account_op op s = Ok s') :
  identity_wf s' ∧
  ∀ provider subject i, GetUserIdentity provider subject s' = Ok i ↔
    userIdentityByID s' !! Identity_ID i = Some i ∧ identity_key i = userIdentityLookupKey provider subject.
Proof.
  assert (identity_wf s') as Hwf' by by eapply run_account_op_wf. split; [exact Hwf'|].
  destruct Hwf' as [H1 H2]. intros provider subject i. unfold GetUserIdentity. split.
  - destruct (userIdentityByProviderSubject s' !! _) as [id|] eqn:E; [|discriminate].
    destruct (userIdentityByID s' !! id) as [i'|] eqn:E'; [|discriminate]. intros [= <-].
    destruct (H1 _ _ E') as (Hid & _ & _). rewrite Hid. split; [exact E'|].
    destruct (H2 _ _ E) as (i2 & Hi2 & Hk). congruence.
  - intros [Hi Hk]. destruct (H1 _ _ Hi) as (_ & Hk' & _). rewrite Hk in Hk'. by rewrite Hk', Hi.
Qed.

(** ** Sessions: acceptance and revocation *)

(** The hash has no usable session: none is stored, or it is revoked. *)
Definition session_dead (hash : string) (s : DirectoryState) : Prop :=
  ∀ x, sessions s !! sessionHashKey hash = Some x → Session_RevokedAt x ≠ None.

Definition creates (hash : string) (op : account_op) : Prop :=
  match op with OpCreateSession _ x => sessionHashKey (Session_ID x) = sessionHashKey hash | _ => False end.

Lemma touch_dead hash now lenient s : session_dead hash s → touchSessionInternal hash now lenient s = Err ErrNotFound.
Proof.
  intros Hd. unfold touchSessionInternal. destruct (_ !! _) as [x|] eqn:E; [|done]. apply Hd in E.
  unfold session_usable. by rewrite bool_decide_eq_false_2.
Qed.

Lemma update_context_dead id hash org workspace project now s :
  session_dead hash s → UpdateSessionContext id hash org workspace project now s = Err ErrNotFound.
Proof.
  intros Hd. unfold UpdateSessionContext. destruct (_ !! _) as [x|] eqn:E; [|done]. apply Hd in E.
  by rewrite (bool_decide_eq_false_2 (Session_RevokedAt x = None)), andb_false_r.
Qed.

Lemma dead_insert hash key x s :
  (sessionHashKey hash = key → Session_RevokedAt x ≠ None) → session_dead hash s →
  session_dead hash (with_sessions (<[key := x]> (sessions s)) s).
Proof.
  intros Hx Hd y Hy. cbn in Hy. apply lookup_insert_Some in Hy as [[Hk <-]|[_ Hy]]; [by apply Hx|by apply Hd].
Qed.

Lemma dead_frame hash s s' : sessions s' = sessions s → session_dead hash s → session_dead hash s'.
Proof. unfold session_dead. by intros ->. Qed.

Lemma revoke_selected_dead hash selected now s :
  session_dead hash s → session_dead hash (revoke_selected selected now s).1.
Proof.
  intros Hd y Hy. cbn in Hy. rewrite lookup_fmap in Hy.
  destruct (sessions s !! _) as [x|] eqn:E; [|discriminate]. cbn in Hy. injection Hy as <-.
  destruct (selected x); [done|by apply Hd].
Qed.

(** A method that loads a live session under [key] writes no session of a dead hash. *)
Lemma dead_other_key hash h x s :
  session_dead hash s → sessions s !! sessionHashKey h = Some x → Session_RevokedAt x = None →
  sessionHashKey hash ≠ sessionHashKey h.
Proof. intros Hd Hx Hr E. rewrite <-E in Hx. by apply Hd in Hx. Qed.

Lemma run_account_op_dead hash op s s' :
  run_account_op op s = Ok s' → ¬ creates hash op → session_dead hash s → session_dead hash s'.
Proof.
  intros Hr Hc Hd.
  destruct op; cbn in Hr; try (apply fmap_Ok in Hr as ([s1 r] & Hr & ->)).
  - unfold UpsertUser in Hr. run_cases. by eapply dead_frame.
  - unfold UpdateUserProfile in Hr. run_cases. by eapply dead_frame.
  - unfold UpdateCurrentUserProfile in Hr. run_cases. by eapply dead_frame.
  - unfold SetUserStatus in Hr. run_cases. by eapply dead_frame.
  - unfold SoftDeleteUser in Hr. run_cases. by eapply dead_frame.
  - unfold CancelUserDeletion in Hr. run_cases. by eapply dead_frame.
  - unfold HardDeleteUser in Hr. run_cases. intros x Hx. cbn in Hx. apply map_lookup_filter_Some in Hx as [Hx _]. by apply Hd.
  - unfold UpsertUserIdentity in Hr. run_cases. by eapply dead_frame.
  - unfold DeleteUserIdentity in Hr. run_cases. by eapply dead_frame.
  - unfold CreateSession, NormalizeSessionForWrite in Hr. run_cases. apply dead_insert; [|exact Hd]. intros E. by destruct Hc.
  - unfold touchSessionInternal in Hr. run_cases. unfold session_usable in *. boolify. apply dead_insert; [|exact Hd].
    intros E. by destruct (dead_other_key _ _ _ _ Hd Heqo).
  - unfold UpdateSessionContext in Hr. run_cases. boolify. apply dead_insert; [|exact Hd].
    intros E. by destruct (dead_other_key _ _ _ _ Hd Heqo).
  - unfold RevokeUserSession in Hr. run_cases. by apply dead_insert.
  - injection Hr as <-. by apply revoke_selected_dead.
  - injection Hr as <-. by apply revoke_selected_dead.
Qed.

(** A failed call leaves the tables as they are. *)
Definition after_account_op (s : DirectoryState) (op : account_op) : DirectoryState := ok_or s (run_account_op op s).

Lemma account_ops_dead hash ops s :
  Forall (λ op, ¬ creates hash op) ops → session_dead hash s → session_dead hash (foldl after_account_op s ops).
Proof.
  intros Hops. revert s. induction Hops as [|op ops Hc _ IH]; intros s Hd; cbn; [exact Hd|].
  apply IH. unfold after_account_op. destruct (run_account_op op s) eqn:E; [|exact Hd].
  by eapply run_account_op_dead.
Qed.

(** C32. A session cookie is accepted only while its session is stored, not
    revoked and inside both expiries, and its account is stored and active (on
    the lenient route, also one pending deletion); accepting it moves the idle
    expiry to a day from now, capped by the absolute expiry, and changes neither
    the absolute expiry nor the revocation. *)
Theorem TouchSession_sound (hash : string) (now : Z) (lenient : bool) (s s' : DirectoryState) (x' : Session)
    (Hok : touchSessionInternal hash now lenient s = Ok (s', x')) :
  ∃ x u, sessions s !! sessionHashKey hash = Some x ∧ users s !! Session_UserID x = Some u ∧
    Session_RevokedAt x = None ∧ now < Session_IdleExpiresAt x ∧ now < Session_AbsoluteExpiresAt x ∧
    ((User_Status u = "active" ∧ User_DeletedAt u = None) ∨
     (lenient = true ∧ User_Status u = "deleted" ∧ is_Some (User_DeletedAt u))) ∧
    sessions s' = <[sessionHashKey hash := x']> (sessions s) ∧ users s' = users s ∧
    Session_IdleExpiresAt x' = Z.min (now + SessionIdleTimeout) (Session_AbsoluteExpiresAt x) ∧
    Session_AbsoluteExpiresAt x' = Session_AbsoluteExpiresAt x ∧ Session_RevokedAt x' = None.
Proof.
  unfold touchSessionInternal in Hok. run_cases. rename s0 into x. exists x, u.
  unfold session_usable, session_unexpired, After, account_active in *. boolify.
  split_and!; try done.
  - match goal with H : _ ∨ _ |- _ => destruct H as [?|?]; boolify; [left|right]; done end.
  - cbn. unfold After. destruct (Z.ltb_spec (Session_AbsoluteExpiresAt x) (now + SessionIdleTimeout)) as [Hlt|Hge]; lia.
Qed.

(** Revoking all sessions of an account is final: whatever account calls
    follow (profile, status, identity and session calls, logins under other
    cookies, failed calls), a cookie of a session the account had is never
    accepted again, not even on the lenient route, and never changes the session's
    workspace context, as long as no new session is created under its hash. *)
Theorem RevokeAllUserSessions_final (id hash : string) (when : Z) (s : DirectoryState) (x : Session)
    (ops : list account_op) (now : Z)
    (Hx : sessions s !! sessionHashKey hash = Some x) (Hid : Session_UserID x = TrimSpace id)
    (Hops : Forall (λ op, ¬ creates hash op) ops) :
  let s' := foldl after_account_op (RevokeAllUserSessions id when s).1 ops in
  TouchSession hash now s' = Err ErrNotFound ∧
  TouchSessionAllowingPendingDeletion hash now s' = Err ErrNotFound ∧
  ∀ user org workspace project, UpdateSessionContext user hash org workspace project now s' = Err ErrNotFound.
Proof.
  cbn zeta. assert (session_dead hash (foldl after_account_op (RevokeAllUserSessions id when s).1 ops)) as Hd.
  { apply account_ops_dead; [exact Hops|]. intros y Hy. cbn in Hy. rewrite lookup_fmap, Hx in Hy. cbn in Hy.
    injection Hy as <-. unfold owned_unrevoked. rewrite bool_decide_eq_true_2 by exact Hid.
    destruct (bool_decide (Session_RevokedAt x = None)) eqn:E; cbn; [done|]. by apply bool_decide_eq_false in E. }
  split_and!; [by apply touch_dead..|]. intros. by apply update_context_dead.
Qed.
End account_facts.

(** ** Witnesses *)
Definition sample_uuids : UUIDParser := {| uuid_Parse := λ s, bool_decide (s ∈ ["u1"; "u2"; "i1"; "i2"]) |}.
Definition sample_codec : BundleCodec := {| sha256_hex := λ s, s; json_Valid := λ _, true |}.
#[local] Existing Instance sample_uuids.
#[local] Existing Instance sample_codec.

Definition sample_hash : string := "0123456789abcdef0123456789abcdef".
Definition sample_session : Session :=
  mkSession sample_hash "u1" "" "" "" "oidc" "" "" 1000 2000 5 None 5 None.
Definition sample_identity : UserIdentity := mkIdentity "i1" "u1" "OIDC:idp" "sub" "" true "" 5 5.
Definition sample_accounts : DirectoryState :=
  foldl after_account_op sample_directory_0 [OpUpsertUserIdentity 5 "" sample_identity; OpCreateSession 5 sample_session].
Definition sample_touched : DirectoryState * Session :=
  ok_or (empty_directory, sample_session) (TouchSession sample_hash 900 sample_accounts).

Lemma identity_wf_no_identities s :
  userIdentityByID s = ∅ → userIdentityByProviderSubject s = ∅ → identity_wf s.
Proof. intros E1 E2. split; rewrite ?E1, ?E2; intros ? ? Hl; by rewrite lookup_empty in Hl. Qed.

Lemma identity_index_invariant_witness :
  GetUserIdentity "oidc:idp" " sub " sample_accounts = Ok (ok_or sample_identity (GetUserIdentity "oidc:idp" "sub" sample_accounts)) ∧
  identity_wf (ok_or empty_directory (run_account_op (OpUpsertUserIdentity 5 "" sample_identity) sample_directory_0)).
Proof.
  split; [by vm_compute|].
  apply (identity_index_invariant (OpUpsertUserIdentity 5 "" sample_identity) sample_directory_0).
  - by apply identity_wf_no_identities.
  - apply is_ok_or. by vm_compute.
Defined.

Lemma TouchSession_sound_witness :
  Session_IdleExpiresAt sample_touched.2 = 2000 ∧
  ∃ x, sessions sample_accounts !! sessionHashKey sample_hash = Some x ∧ Session_RevokedAt x = None.
Proof.
  split; [by vm_compute|].
  pose proof (TouchSession_sound sample_hash 900 false sample_accounts sample_touched.1 sample_touched.2) as Hsound.
  assert (touchSessionInternal sample_hash 900 false sample_accounts = Ok (sample_touched.1, sample_touched.2)) as Hok.
  { rewrite <-surjective_pairing. apply is_ok_or. by vm_compute. }
  destruct (Hsound Hok) as (x & u & Hx & _ & Hr & _). exists x. split; [exact Hx|exact Hr].
Defined.

Lemma RevokeAllUserSessions_final_witness :
  is_ok (TouchSession sample_hash 900 sample_accounts) = true ∧
  TouchSession sample_hash 900
    (foldl after_account_op (RevokeAllUserSessions "u1" 800 sample_accounts).1
       [OpSetUserStatus "u1" "active" 850; OpTouchSession sample_hash 860 true]) = Err ErrNotFound.
Proof.
  split; [by vm_compute|].
  refine (proj1 (RevokeAllUserSessions_final "u1" sample_hash 800 sample_accounts
    (set_session_user (mkUser "u1" "a@x" "" "" "active" 1 1 None) sample_session)
    [OpSetUserStatus "u1" "active" 850; OpTouchSession sample_hash 860 true] 900 _ _ _)).
  - by vm_compute.
  - by vm_compute.
  - constructor; [|constructor; [|constructor]]; by intros [].
Defined.
