(* ===== verification/RequestRoles.v ===== *)
(** * Who a request acts as (internal/api/authz_middleware.go, router.go, service.go)

    The request context the authentication middleware fills, the lookups that
    resolve a subject to a workspace membership, the roles a request carries and
    the trusted attributes loaded for it.  Store access goes through the
    interface [DirectoryStore], which the in-memory tables implement. *)
From S2P Require Import Prelude GoStrings GoCollections GoTime Scope PolicyEngine PolicyEvaluators.
From S2P Require Import AuthzRecords AuthzStore PolicyBundle BuiltinPolicy PolicyRuntime TenancyRecords Tenancy Accounts.

(** ** The request *)

(** A value stored by [gin.Context.Set]. *)
Inductive GinValue :=
| GinString (s : string)
| GinStrings (l : list string)
| GinAnys (l : list any)
| GinScopeSet (scopes : gset string)
| GinOther.

Record RequestContext := mkRequest {
  Req_FullPath : string;
  Req_Method : string;
  Req_Params : gmap string string;
  Req_Keys : gmap string GinValue;
  Req_Scope : Context;
  Req_SubjectSource : string;
  Req_SubjectIssuer : string;
}.

(** [c.Param(name)]: the empty string when there is none. *)
Definition Param (c : RequestContext) (name : string) : string := default "" (Req_Params c !! name).

Definition authContextString (c : RequestContext) (key : string) : string :=
  match Req_Keys c !! key with Some (GinString text) => TrimSpace text | _ => "" end.

(** [SubjectSource] and [SubjectIssuer] of internal/api/auth/session.go. *)
Definition SubjectSourceSession : string := "session".
Definition SubjectSource (c : RequestContext) : string := canon (Req_SubjectSource c).
Definition SubjectIssuer (c : RequestContext) : string := TrimSpace (Req_SubjectIssuer c).

Definition hasAuthContext (c : RequestContext) : bool :=
  bool_decide (is_Some (Req_Keys c !! "auth.scope_set")) ||
  negb (bool_decide (authContextString c "auth.api_key" = "")) ||
  negb (bool_decide (authContextString c "auth.subject" = "")).

Definition inferPrincipalType (c : RequestContext) : string :=
  if decide (authContextString c "auth.subject" ≠ "") then "subject"
  else if decide (authContextString c "auth.api_key" ≠ "") then "api_key" else "".
Definition inferPrincipalID (c : RequestContext) : string :=
  if decide (authContextString c "auth.subject" ≠ "") then authContextString c "auth.subject"
  else if decide (authContextString c "auth.api_key" ≠ "") then authContextString c "auth.api_key" else "".

Definition hasWorkspaceScope (c : RequestContext) : bool :=
  let scope := ScopeFromContext (Req_Scope c) in
  negb (bool_decide (TrimSpace (Scope_TenantID scope) = "")) &&
  negb (bool_decide (TrimSpace (Scope_WorkspaceID scope) = "")).

(** The strings of a dynamic list; other elements are skipped. *)
Definition any_strings (l : list any) : list string :=
  omap (λ x, match x with AnyString s => Some s | _ => None end) l.

Definition authClaimRoles (c : RequestContext) : list string :=
  match Req_Keys c !! "auth.roles" with
  | Some (GinStrings l) => l
  | Some (GinAnys l) => any_strings l
  | _ => []
  end.

(** ** Scope sets and keys *)
Definition newScopeSet (scopes : list string) : gset string := list_to_set (nonempty_map canon scopes).

Definition has (s : gset string) (required : string) : bool :=
  bool_decide (scopeAdmin ∈ s) ||
  (bool_decide (required = scopeRead) && bool_decide (scopeWrite ∈ s)) ||
  bool_decide (required ∈ s).

(** What an OIDC token's scopes grant; [overrides] are the configured write
    scopes. *)
Definition token_scope (overrides : gset string) (set : gset string) (scope : string) : gset string :=
  let normalized := canon scope in
  if decide (normalized = "") then set
  else
    let set :=
      if decide (normalized ∈ [scopeAdmin; "identrail.admin"]) then {[scopeAdmin; scopeWrite; scopeRead]} ∪ set
      else if decide (normalized ∈ [scopeWrite; "identrail.write"]) then {[scopeWrite]} ∪ set
      else if decide (normalized ∈ [scopeRead; "identrail.read"]) then {[scopeRead]} ∪ set
      else set in
    if decide (normalized ∈ overrides) then {[scopeWrite]} ∪ set else set.
Definition scopeSetFromOIDCToken (scopes : list string) (overrides : gset string) : gset string :=
  foldl (token_scope overrides) ∅ scopes.

(** [secureKeyEquals] compares in constant time; its result is equality. *)
Definition keyInList (keys : list string) (candidate : string) : bool := bool_decide (candidate ∈ keys).
Definition normalizeKeyList (keys : list string) : list string := nonempty_map TrimSpace keys.

(** ** What the middleware uses of [db.Store] *)
Class DirectoryStore (T : Type) := {
  ds_GetWorkspace : T → Context → string → result TenancyWorkspace;
  ds_GetWorkspaceMemberByUserUUID : T → Context → string → string → result TenancyWorkspaceMember;
  ds_GetWorkspaceMemberByUserID : T → Context → string → string → result TenancyWorkspaceMember;
  ds_GetUser : T → string → result User;
  ds_GetUserIdentity : T → string → string → result UserIdentity;
  ds_GetUserIdentityBySubject : T → string → result UserIdentity;
  ds_GetAuthzEntityAttributes : T → Context → string → string → string → result AuthzEntityAttributes;
}.

(** The in-memory store: the directory, the authorization tables and the clock. *)
#[export] Instance memory_directory_store `{MapRange, SortSlice} : DirectoryStore (DirectoryState * (AuthzState * Z)) := {|
  ds_GetWorkspace := λ t ctx id, GetWorkspace ctx id t.1;
  ds_GetWorkspaceMemberByUserUUID := λ t ctx ws uuid, GetWorkspaceMemberByUserUUID ctx ws uuid t.1;
  ds_GetWorkspaceMemberByUserID := λ t ctx ws id, GetWorkspaceMemberByUserID ctx ws id t.1;
  ds_GetUser := λ t id, GetUser id t.1;
  ds_GetUserIdentity := λ t provider subject, GetUserIdentity provider subject t.1;
  ds_GetUserIdentityBySubject := λ t subject, GetUserIdentityBySubject subject t.1;
  ds_GetAuthzEntityAttributes := λ t ctx kind type id, GetAuthzEntityAttributes ctx t.2.2 kind type id t.2.1;
|}.

Section roles.
Context {T : Type} `{DirectoryStore T}.

Definition set_member_status (status : string) (m : TenancyWorkspaceMember) : TenancyWorkspaceMember :=
  mkMember (Member_TenantID m) (Member_WorkspaceID m) (Member_MemberID m) (Member_UserID m) (Member_UserUUID m)
    (Member_Email m) (Member_Role m) status (Member_JoinedAt m) (Member_UpdatedAt m).
Definition set_member_uuid (uuid : string) (m : TenancyWorkspaceMember) : TenancyWorkspaceMember :=
  mkMember (Member_TenantID m) (Member_WorkspaceID m) (Member_MemberID m) (Member_UserID m) uuid
    (Member_Email m) (Member_Role m) (Member_Status m) (Member_JoinedAt m) (Member_UpdatedAt m).

Definition workspaceMemberAccountIsActive (store : T) (member : TenancyWorkspaceMember) : result bool :=
  if negb (bool_decide (canon (Member_Status member) = "active")) || blank (Member_UserUUID member) then Ok false
  else match ds_GetUser store (Member_UserUUID member) with
       | Err err => if errors_is err ErrNotFound then Ok false else Err err
       | Ok user => Ok (EqualFold (TrimSpace (User_Status user)) "active")
       end.

Definition trustedMembershipAccountIsActive (store : T) (member : TenancyWorkspaceMember) : bool :=
  match workspaceMemberAccountIsActive store member with Ok active => active | Err _ => false end.

Definition lookupUserIdentityBySubject (c : RequestContext) (store : T) (subject : string) : result UserIdentity :=
  if decide (SubjectIssuer c ≠ "") then ds_GetUserIdentity store ("oidc:" +:+ SubjectIssuer c) subject
  else ds_GetUserIdentityBySubject store subject.

(** The membership of a resolved account: [(member, found, err)] is
    [result (option member)]. *)
Definition lookupWorkspaceMemberForIdentity (ctx : Context) (store : T) (workspaceID subject userUUID : string)
    : result (option TenancyWorkspaceMember) :=
  match ds_GetWorkspaceMemberByUserUUID store ctx workspaceID userUUID with
  | Ok member =>
      (λ active : bool, Some (if active then member else set_member_status "suspended" member))
        <$> workspaceMemberAccountIsActive store member
  | Err err =>
      if negb (errors_is err ErrNotFound) then Err err
      else
        let legacy_lookup : result (option TenancyWorkspaceMember) :=
          match ds_GetWorkspaceMemberByUserID store ctx workspaceID subject with
          | Err legacyErr => if errors_is legacyErr ErrNotFound then Ok None else Err legacyErr
          | Ok legacy =>
              match ds_GetUser store userUUID with
              | Err userErr => if errors_is userErr ErrNotFound then Ok (Some (set_member_status "suspended" legacy))
                               else Err userErr
              | Ok user =>
                  let legacy' := set_member_uuid (User_ID user) legacy in
                  if negb (EqualFold (TrimSpace (User_Status user)) "active") ||
                     negb (bool_decide (canon (Member_Status legacy) = "active"))
                  then Ok (Some (set_member_status "suspended" legacy'))
                  else Ok (Some legacy')
              end
          end in
        match ds_GetUserIdentityBySubject store subject with
        | Err identityErr =>
            if errors_is identityErr ErrConflict then Ok None
            else if negb (errors_is identityErr ErrNotFound) then Err identityErr
            else legacy_lookup
        | Ok _ => legacy_lookup
        end
  end.

Definition trustedWorkspaceMembership (c : RequestContext) (store : option T) : result (option TenancyWorkspaceMember) :=
  match store with
  | None => Ok None
  | Some store =>
      let subject := authContextString c "auth.subject" in
      let scope := ScopeFromContext (Req_Scope c) in
      if decide (subject = "") then Ok None
      else if blank (Scope_TenantID scope) || blank (Scope_WorkspaceID scope) then Ok None
      else
        let scopedCtx := WithScope (Req_Scope c) scope in
        if decide (SubjectSource c = SubjectSourceSession) then
          match ds_GetWorkspaceMemberByUserUUID store scopedCtx (Scope_WorkspaceID scope) subject with
          | Ok member =>
              Ok (Some (if trustedMembershipAccountIsActive store member then member
                        else set_member_status "suspended" member))
          | Err err => if errors_is err ErrNotFound then Ok None else Err err
          end
        else
          match lookupUserIdentityBySubject c store subject with
          | Ok identity =>
              lookupWorkspaceMemberForIdentity scopedCtx store (Scope_WorkspaceID scope) subject (Identity_UserID identity)
          | Err err =>
              if errors_is err ErrConflict then Ok None
              else if negb (errors_is err ErrNotFound) then Err err
              else Ok None
          end
  end.

(** ** Roles *)

(** The scope roles of the request's scope set. *)
Definition scope_roles (c : RequestContext) : gset string :=
  match Req_Keys c !! "auth.scope_set" with
  | Some (GinScopeSet scopes) =>
      list_to_set (filter (λ role, has scopes role = true) [scopeAdmin; scopeWrite; scopeRead])
  | _ => ∅
  end.

Definition claimable_roles : list string :=
  ["authenticated"; "owner"; "admin"; "analyst"; "viewer"; scopeRead; scopeWrite].
Definition claim_roles (c : RequestContext) : gset string :=
  list_to_set (filter (λ role, role ∈ claimable_roles) (canon <$> authClaimRoles c)).

(** The role of an active membership row. *)
Definition membership_roles (member : TenancyWorkspaceMember) : gset string :=
  let role := canon (Member_Role member) in
  if EqualFold (TrimSpace (Member_Status member)) "active" && negb (bool_decide (role = "")) then {[role]} else ∅.

Definition legacy_key_roles (c : RequestContext) (writeKeys : list string) (scopedKeys : gmap string (list string))
    : list string :=
  let legacyKey := authContextString c "auth.api_key" in
  if decide (legacyKey = "") then []
  else if negb (bool_decide (scopedKeys = ∅)) then []
  else scopeRead :: (if keyInList writeKeys legacyKey then [scopeWrite] else []).

Definition policyRolesFromAuthWithStore (c : RequestContext) (writeKeys : list string)
    (scopedKeys : gmap string (list string)) (store : option T) : list string :=
  let roles := scope_roles c ∪ claim_roles c in
  match trustedWorkspaceMembership c store with
  | Err _ => ["authenticated"]
  | Ok membership =>
      let roles :=
        match membership with
        | Some member =>
            (roles ∖ list_to_set ["owner"; "admin"; "analyst"; "viewer"; scopeRead; scopeWrite; scopeAdmin])
              ∪ {["authenticated"]} ∪ membership_roles member
        | None =>
            if bool_decide (is_Some store) && negb (bool_decide (authContextString c "auth.subject" = "")) &&
               hasWorkspaceScope c
            then (roles ∪ {["authenticated"]}) ∖ list_to_set ["owner"; "admin"; "analyst"; "viewer"]
            else roles
        end in
      if bool_decide (roles ≠ ∅) then SortStrings (elements roles) else legacy_key_roles c writeKeys scopedKeys
  end.
End roles.

(** ** Trusted attributes and the policy input *)
Section input.
Context {T : Type} `{DirectoryStore T}.

(** A record's attribute, when it is not blank. *)
Definition put_attribute (key value : string) (attributes : gmap string string) : gmap string string :=
  if decide (TrimSpace value ≠ "") then <[key := TrimSpace value]> attributes else attributes.

Definition entity_attributes (record : AuthzEntityAttributes) : gmap string string :=
  put_attribute policyAttributeClassification (Attributes_Classification record)
    (put_attribute policyAttributeRiskTier (Attributes_RiskTier record)
      (put_attribute policyAttributeEnvironment (Attributes_Environment record)
        (put_attribute policyAttributeOwnerTeam (Attributes_OwnerTeam record) ∅))).

Definition trustedAttributesFromStore (ctx : Context) (now : Z) (store : option T)
    (entityKind entityType entityID : string) : result (gmap string string) :=
  match store with
  | None => Ok ∅
  | Some store =>
      let normalizedType := canon entityType in
      let normalizedID := TrimSpace entityID in
      if bool_decide (normalizedType = "") || bool_decide (normalizedID = "") then Ok ∅
      else
        match ds_GetAuthzEntityAttributes store ctx entityKind normalizedType normalizedID with
        | Err err => if errors_is err ErrNotFound then Ok ∅ else Err err
        | Ok record =>
            normalized ← NormalizeAuthzEntityAttributesForWrite now
              (mkAttributes "" "" entityKind normalizedType normalizedID (Attributes_OwnerTeam record)
                 (Attributes_Environment record) (Attributes_RiskTier record) (Attributes_Classification record)
                 (Attributes_UpdatedAt record));
            mret (entity_attributes normalized)
        end
  end.

Definition set_context_attribute (key value : string) (input : PolicyInput) : PolicyInput :=
  let x := Input_Context input in
  mkPolicyInput (Input_Subject input) (Input_Action input) (Input_Resource input)
    (mkPolicyContext (Context_RequestPath x) (Context_RequestMethod x) (Context_Now x)
       (<[key := value]> (Context_Attributes x))).
Definition set_subject_attributes (attrs : gmap string string) (input : PolicyInput) : PolicyInput :=
  let x := Input_Subject input in
  mkPolicyInput (mkPolicySubject (Subject_Type x) (Subject_ID x) (Subject_TenantID x) (Subject_WorkspaceID x)
    (Subject_Groups x) (Subject_Roles x) attrs) (Input_Action input) (Input_Resource input) (Input_Context input).
Definition set_resource_attributes (attrs : gmap string string) (input : PolicyInput) : PolicyInput :=
  let x := Input_Resource input in
  mkPolicyInput (Input_Subject input) (Input_Action input)
    (mkPolicyResource (Resource_Type x) (Resource_ID x) (Resource_TenantID x) (Resource_WorkspaceID x) attrs)
    (Input_Context input).

Definition loadTrustedPolicyAttributes (ctx : Context) (now : Z) (store : option T) (input : PolicyInput)
    : result PolicyInput :=
  match store with
  | None => Ok input
  | Some _ =>
      subjectAttrs ← trustedAttributesFromStore ctx now store AuthzEntityKindSubject
        (Subject_Type (Input_Subject input)) (Subject_ID (Input_Subject input));
      resourceAttrs ← trustedAttributesFromStore ctx now store AuthzEntityKindResource
        (Resource_Type (Input_Resource input)) (Resource_ID (Input_Resource input));
      let input := if decide (subjectAttrs ≠ ∅)
        then set_context_attribute policyContextABACSubjectAttrsLoadedKey "true" (set_subject_attributes subjectAttrs input)
        else input in
      mret (if decide (resourceAttrs ≠ ∅)
        then set_context_attribute policyContextABACResourceAttrsLoadedKey "true" (set_resource_attributes resourceAttrs input)
        else input)
  end.

Definition buildPolicyInputFromGinContext (c : RequestContext) (now : Z) (policy : routePolicy)
    (writeKeys : list string) (scopedKeys : gmap string (list string)) (store : option T) : result PolicyInput :=
  let scope := ScopeFromContext (Req_Scope c) in
  let tenantID := TrimSpace (Scope_TenantID scope) in
  let workspaceID := TrimSpace (Scope_WorkspaceID scope) in
  let resourceID := if blank (Route_ResourceIDParam policy) then ""
                    else TrimSpace (Param c (Route_ResourceIDParam policy)) in
  loadTrustedPolicyAttributes (Req_Scope c) now store
    (mkPolicyInput
      (mkPolicySubject
        (firstNonEmpty (authContextString c "auth.principal_type") (inferPrincipalType c))
        (firstNonEmpty (authContextString c "auth.principal_id") (inferPrincipalID c))
        (firstNonEmpty (authContextString c "auth.tenant_id") tenantID)
        (firstNonEmpty (authContextString c "auth.workspace_id") workspaceID)
        [] (policyRolesFromAuthWithStore c writeKeys scopedKeys store) ∅)
      (canon (Route_Action policy))
      (mkPolicyResource (TrimSpace (Route_ResourceType policy)) resourceID tenantID workspaceID ∅)
      (mkPolicyContext (TrimSpace (Req_FullPath c)) (ToUpper (TrimSpace (Req_Method c))) now
        (<[policyContextTenantIDKey := tenantID]> (<[policyContextWorkspaceIDKey := workspaceID]>
          {[ policyContextABACSubjectAttrsLoadedKey := "false"; policyContextABACResourceAttrsLoadedKey := "false" ]})))).












End input.

(** ** A claimed write role *)
#[local] Existing Instance canonical_range.
#[local] Existing Instance insertion_sort.

(** A user subject of no workspace, whose token carries the role claim "write"
    and no scope. *)
Definition claimed_write_request : RequestContext :=
  mkRequest "/v1/workspaces/:workspace_id/members" "POST" {[ "workspace_id" := "prod" ]}
    {[ "auth.subject" := GinString "stranger"; "auth.scope_set" := GinScopeSet ∅;
       "auth.roles" := GinStrings ["write"; "viewer"] ]}
    (Some (mkScope "acme" "prod")) "oidc" "https://idp".

Definition empty_store : DirectoryState * (AuthzState * Z) := (empty_directory, (empty_authz_state, 7)).

Definition claimed_write_decision : result PolicyDecision :=
  input ← buildPolicyInputFromGinContext claimed_write_request 7
            (mkRoutePolicy policyActionTenancyWrite "workspace_member" "") [] ∅ (Some empty_store);
  Decide (Some (newCentralPolicyEngine (Some (empty_authz_state, 7)))) (Req_Scope claimed_write_request) input.

(** A subject without a membership row keeps the read and write roles its
    identity provider claims, so a provider claim "write" alone (no scope, no
    membership, no record at all in the store) is granted the tenancy write
    action by the built-in policy. *)
Theorem claimed_write_role_is_granted :
  trustedWorkspaceMembership claimed_write_request (Some empty_store) = Ok None ∧
  scope_roles claimed_write_request = ∅ ∧
  policyRolesFromAuthWithStore claimed_write_request [] ∅ (Some empty_store) = ["authenticated"; "write"] ∧
  (Decision_Allowed <$> claimed_write_decision) = Ok true.
Proof. split_and!; by vm_compute. Qed.
