(* ===== verification/AuthzMiddleware.v ===== *)
(** * The authorization middleware (internal/api/authz_middleware.go)

    One request through [requireCentralPolicyMiddleware]: resolve the policy,
    look the route up, decide, record the shadow evaluation and the audit
    decision, and check that the workspace is active.  The state kept between
    requests is the resolver's cache, the two shadow counters and the decision
    metric. *)
From S2P Require Import Prelude GoStrings GoCollections GoTime GoCrypto Scope PolicyEngine PolicyEvaluators AuthzRecords AuthzStore Rebac.
From S2P Require Import PolicyBundle BuiltinPolicy PolicyRuntime TenancyRecords Tenancy Accounts RequestRoles.

(** Labels of one increment of the decision counter: version, source, mode,
    allowed. *)
Definition decisionLabels : Type := string * string * string * string.

Record middlewareState := mkMiddlewareState {
  MW_Cache : versionCache;
  MW_ShadowEvalCount : Z;
  MW_ShadowDivergenceCount : Z;
  MW_Decisions : list decisionLabels;
}.

Definition with_cache (cache : versionCache) (st : middlewareState) : middlewareState :=
  mkMiddlewareState cache (MW_ShadowEvalCount st) (MW_ShadowDivergenceCount st) (MW_Decisions st).

(** ** Audit decisions *)
Record AuditAuthzInputSummary := mkAuditInput {
  Audit_SubjectType : string;
  Audit_SubjectIDHash : string;
  Audit_Action : string;
  Audit_ResourceType : string;
  Audit_ResourceIDHash : string;
  Audit_TenantID : string;
  Audit_WorkspaceID : string;
}.

Record AuditAuthzDecision := mkAuditDecision {
  Audit_PolicySetID : string;
  Audit_PolicySource : string;
  Audit_RolloutMode : string;
  Audit_PolicyVersion : option Z;
  Audit_Allowed : bool;
  Audit_Stage : string;
  Audit_Reason : string;
  Audit_Input : AuditAuthzInputSummary;
}.

(** ** Identifier fingerprints (internal/audit/audit_sink.go) *)

(** [*audit.Fingerprinter]: nil, or the HMAC key. *)
Definition Fingerprinter : Type := option string.

Definition hmacFingerprint `{HMAC} (key raw : string) : string :=
  let trimmed := TrimSpace raw in
  if decide (trimmed = "") then ""
  else "hmac256:" +:+ of_bytes (take 24 (bytes (hmac_sha256_hex key trimmed))).

Definition legacyFingerprintAuditIdentifier (raw : string) : string :=
  let trimmed := TrimSpace raw in
  if decide (trimmed = "") then ""
  else "fnv64a:" +:+ of_bytes (hex_digits 12 (Z.land (fnv1a_64 trimmed) 0xFFFFFFFFFFFF)).

Definition fingerprintIdentifierWith `{HMAC} (fingerprinter : Fingerprinter) (raw : string) : string :=
  match fingerprinter with
  | Some key => hmacFingerprint key raw
  | None => legacyFingerprintAuditIdentifier raw
  end.

Definition or_default (value fallback : string) : string :=
  if decide (TrimSpace value = "") then fallback else TrimSpace value.

Definition auditDecision `{HMAC} (fingerprinter : Fingerprinter) (policySetID : string) (policyVersion : Z)
    (policySource rolloutMode : string) (decision : PolicyDecision) (input : PolicyInput) : AuditAuthzDecision :=
  mkAuditDecision (or_default policySetID defaultCentralPolicySetID) (or_default policySource "unknown")
    (or_default rolloutMode AuthzPolicyRolloutModeDisabled)
    (if 0 <? policyVersion then Some policyVersion else None)
    (Decision_Allowed decision) (TrimSpace (Decision_Stage decision)) (TrimSpace (Decision_Reason decision))
    (mkAuditInput (TrimSpace (Subject_Type (Input_Subject input)))
       (fingerprintIdentifierWith fingerprinter (Subject_ID (Input_Subject input)))
       (TrimSpace (Input_Action input)) (TrimSpace (Resource_Type (Input_Resource input)))
       (fingerprintIdentifierWith fingerprinter (Resource_ID (Input_Resource input)))
       (request_tenant input) (request_workspace input)).

(** [recordPolicyDecisionMetric]. *)
Definition decision_labels (version : Z) (source rolloutMode : string) (allowed : bool) : decisionLabels :=
  (if 0 <? version then Itoa version else "built_in", or_default source "unknown",
   or_default rolloutMode AuthzPolicyRolloutModeDisabled, if allowed then "true" else "false").

Definition recordPolicyDecisionMetric (version : Z) (source rolloutMode : string) (allowed : bool)
    (st : middlewareState) : middlewareState :=
  mkMiddlewareState (MW_Cache st) (MW_ShadowEvalCount st) (MW_ShadowDivergenceCount st)
    (decision_labels version source rolloutMode allowed :: MW_Decisions st).

(** ** Shadow evaluation *)

(** The candidate is evaluated in the shadow of this request. *)
Definition shadows_candidate (rt : resolvedCentralPolicyRuntime) (targeted : bool) : bool :=
  bool_decide (Rollout_Mode (Runtime_Rollout rt) = AuthzPolicyRolloutModeShadow) && targeted &&
  bool_decide (is_Some (Runtime_CandidateEngine rt)) &&
  rolloutVersionValidated (Runtime_Rollout rt) (Runtime_CandidateVersion rt).

Definition recordPolicyShadowEvaluation (ctx : Context) (rt : resolvedCentralPolicyRuntime) (targeted : bool)
    (input : PolicyInput) (decision : PolicyDecision) (st : middlewareState) : middlewareState :=
  if negb (shadows_candidate rt targeted) then st
  else
    let diverges := match Decide (Runtime_CandidateEngine rt) ctx input with
                    | Ok candidateDecision => policyDecisionsDiverge decision candidateDecision
                    | Err _ => false
                    end in
    mkMiddlewareState (MW_Cache st) (wrapu64 (MW_ShadowEvalCount st + 1))
      (if diverges then wrapu64 (MW_ShadowDivergenceCount st + 1) else MW_ShadowDivergenceCount st)
      (MW_Decisions st).

(** ** Inactive workspaces *)
Definition requiresActiveWorkspace (policy : routePolicy) : bool :=
  let action := TrimSpace (Route_Action policy) in
  bool_decide (action ∈ [policyActionFindingsTriage; policyActionScansRun; policyActionScansReplay;
                         policyActionRepoScansRun]) ||
  (bool_decide (action = policyActionTenancyWrite) &&
   bool_decide (TrimSpace (Route_ResourceType policy) ∈ ["connector"; "project"; "scan_policy"; "workspace_member"])).

Definition usesBodyAwareAuthorization (policy : routePolicy) : bool :=
  bool_decide (TrimSpace (Route_ResourceType policy) = "repo_finding_bulk_delete").

Definition workspace_active (w : TenancyWorkspace) : bool :=
  bool_decide (Workspace_Status w = WorkspaceStatusActive) && bool_decide (Workspace_DeletedAt w = None).

(** [(blocked, workspace, err)]: the workspace that blocks the request, if any. *)
Definition inactiveWorkspaceBlock {T} `{DirectoryStore T} (c : RequestContext) (policy : routePolicy) (store : option T)
    : result (option TenancyWorkspace) :=
  match store with
  | None => Ok None
  | Some store =>
      if negb (requiresActiveWorkspace policy) then Ok None
      else
        let scope := ScopeFromContext (Req_Scope c) in
        let workspaceID := TrimSpace (Param c "workspace_id") in
        let workspaceID := if decide (workspaceID = "") then TrimSpace (Scope_WorkspaceID scope) else workspaceID in
        if bool_decide (workspaceID = "") || blank (Scope_TenantID scope) then Ok None
        else
          match ResolveScopedWorkspaceID scope workspaceID with
          | Err _ => Ok None
          | Ok resolved =>
              let scopedCtx := WithScope (Req_Scope c) (mkScope (Scope_TenantID scope) resolved) in
              match ds_GetWorkspace store scopedCtx resolved with
              | Err err => if errors_is err ErrNotFound then Ok None else Err err
              | Ok workspace => Ok (if workspace_active workspace then None else Some workspace)
              end
          end
  end.

(** ** The middleware *)

(** What the request does next: run the handlers, or answer a status with an
    error code. *)
Inductive outcome := Next | Abort (status : Z) (code : string).

#[export] Instance outcome_eq_dec : EqDecision outcome.
Proof. solve_decision. Defined.

Definition authorization_failed : outcome := Abort 500 "authorization failed".
Definition forbidden : outcome := Abort 403 "forbidden".

(** The outcome, the audit decision stored in the request and the new state. *)
Definition middlewareResult : Type := outcome * option AuditAuthzDecision * middlewareState.

Section middleware.
Context `{MapRange, SortSlice, BundleDecoder, HMAC} {T : Type} `{PolicyStore T, DirectoryStore T}.

Definition policyInputForMissingRoutePolicy (c : RequestContext) (now : Z) (fullPath : string)
    (writeKeys : list string) (scopedKeys : gmap string (list string)) : PolicyInput :=
  match buildPolicyInputFromGinContext (T := T) c now (mkRoutePolicy (routePolicyKey (Req_Method c) fullPath) "route" "")
          writeKeys scopedKeys None with
  | Ok input => input
  | Err _ => mkPolicyInput (mkPolicySubject "" "" "" "" [] [] ∅) "" (mkPolicyResource "" "" "" "" ∅)
               (mkPolicyContext "" "" time_zero ∅)
  end.

(** The source and version reported for a decision. *)
Definition decision_source (rt : resolvedCentralPolicyRuntime) (input : PolicyInput) : string :=
  if enforces_candidate rt input then Runtime_CandidateSource rt else Runtime_Source rt.
Definition decision_version (rt : resolvedCentralPolicyRuntime) (input : PolicyInput) : Z :=
  if enforces_candidate rt input then Runtime_CandidateVersion rt else Runtime_Version rt.

(** The last step: an inactive workspace blocks, otherwise the handlers run. *)
Definition active_or_blocked (c : RequestContext) (policy : routePolicy) (store : option T) : outcome :=
  match inactiveWorkspaceBlock c policy store with
  | Err _ => authorization_failed
  | Ok (Some _) => Abort 409 "workspace_inactive"
  | Ok None => Next
  end.

(** Decides one request on a registered route. *)
Definition decide_request (c : RequestContext) (now : Z) (rt : resolvedCentralPolicyRuntime) (policy : routePolicy)
    (writeKeys : list string) (scopedKeys : gmap string (list string)) (store : option T)
    (fingerprinter : Fingerprinter) (st : middlewareState) : middlewareResult :=
  match buildPolicyInputFromGinContext c now policy writeKeys scopedKeys store with
  | Err _ => (authorization_failed, None, st)
  | Ok input =>
      match Decide (decision_engine rt input) (Req_Scope c) input with
      | Err _ => (authorization_failed, None, st)
      | Ok decision =>
          let version := decision_version rt input in
          let source := decision_source rt input in
          let st := recordPolicyDecisionMetric version source (Runtime_RolloutMode rt) (Decision_Allowed decision) st in
          let targeted := shouldTargetRolloutRequest (Runtime_Rollout rt) input in
          let st := recordPolicyShadowEvaluation (Req_Scope c) rt targeted input decision st in
          let audit := auditDecision fingerprinter (Runtime_PolicySetID rt) version source (Runtime_RolloutMode rt)
                         decision input in
          if Decision_Allowed decision then (active_or_blocked c policy store, Some audit, st)
          else (forbidden, Some audit, st)
      end
  end.

Definition requireCentralPolicyMiddleware (resolver : option (policyResolver T)) (writeKeys : list string)
    (scopedKeys : gmap string (list string)) (store : option T) (fingerprinter : Fingerprinter)
    (c : RequestContext) (now : Z) (st : middlewareState) : middlewareResult :=
  let normalizedWriteKeys := normalizeKeyList writeKeys in
  let resolver := match resolver with Some r => Some r | None => Some (newCentralPolicyRuntimeResolver store) end in
  let fullPath := TrimSpace (Req_FullPath c) in
  if decide (fullPath = "") then (Next, None, st)
  else if negb (hasAuthContext c) then (Next, None, st)
  else
    match Resolve resolver (Req_Scope c) (MW_Cache st) with
    | (Err _, cache) => (authorization_failed, None, with_cache cache st)
    | (Ok rt, cache) =>
        let st := with_cache cache st in
        match registry_lookup (Runtime_Registry rt) (Req_Method c) fullPath with
        | None =>
            let decision := denyDecision PolicyStageDefaultDeny "route authorization policy missing" in
            let input := policyInputForMissingRoutePolicy c now fullPath normalizedWriteKeys scopedKeys in
            let st := recordPolicyDecisionMetric (Runtime_Version rt) (Runtime_Source rt) (Runtime_RolloutMode rt)
                        (Decision_Allowed decision) st in
            (forbidden,
             Some (auditDecision fingerprinter (Runtime_PolicySetID rt) (Runtime_Version rt) (Runtime_Source rt)
                     (Runtime_RolloutMode rt) decision input), st)
        | Some policy =>
            if usesBodyAwareAuthorization policy then (active_or_blocked c policy store, None, st)
            else decide_request c now rt policy normalizedWriteKeys scopedKeys store fingerprinter st
        end
    end.
End middleware.

(** ** Bulk deletion of repository findings

    These routes leave the decision to the handler, which asks per target. *)
Record RepoFindingDeleteTarget := mkDeleteTarget { Target_FindingID : string; Target_RepoScanID : string }.

Section delete_targets.
Context `{MapRange, SortSlice, BundleDecoder, HMAC} {T : Type} `{PolicyStore T, DirectoryStore T}.

(** The input of one target: the resource is the finding, with no attributes yet. *)
Definition target_input (target : RepoFindingDeleteTarget) (input : PolicyInput) : PolicyInput :=
  let r := Input_Resource input in
  set_context_attribute "repo_scan_id" (TrimSpace (Target_RepoScanID target))
    (set_context_attribute policyContextABACResourceAttrsLoadedKey "false"
      (mkPolicyInput (Input_Subject input) (Input_Action input)
        (mkPolicyResource (Resource_Type r) (TrimSpace (Target_FindingID target)) (Resource_TenantID r)
           (Resource_WorkspaceID r) ∅) (Input_Context input))).

(** [(allowed, err)], the audit decision and the new state. *)
Fixpoint authorize_targets (c : RequestContext) (now : Z) (rt : resolvedCentralPolicyRuntime) (policy : routePolicy)
    (writeKeys : list string) (scopedKeys : gmap string (list string)) (store : option T)
    (fingerprinter : Fingerprinter) (targets : list RepoFindingDeleteTarget) (audit : option AuditAuthzDecision)
    (st : middlewareState) : result bool * option AuditAuthzDecision * middlewareState :=
  match targets with
  | [] => (Ok true, audit, st)
  | target :: targets =>
      match (input ← buildPolicyInputFromGinContext c now policy writeKeys scopedKeys store;
             input ← loadTrustedPolicyAttributes (Req_Scope c) now store (target_input target input);
             decision ← Decide (decision_engine rt input) (Req_Scope c) input;
             mret (input, decision)) with
      | Err err => (Err err, None, st)
      | Ok (input, decision) =>
          let version := decision_version rt input in
          let source := decision_source rt input in
          let st := recordPolicyDecisionMetric version source (Runtime_RolloutMode rt) (Decision_Allowed decision) st in
          let targeted := shouldTargetRolloutRequest (Runtime_Rollout rt) input in
          let st := recordPolicyShadowEvaluation (Req_Scope c) rt targeted input decision st in
          let audit := auditDecision fingerprinter (Runtime_PolicySetID rt) version source (Runtime_RolloutMode rt)
                         decision input in
          if Decision_Allowed decision
          then authorize_targets c now rt policy writeKeys scopedKeys store fingerprinter targets (Some audit) st
          else (Ok false, Some audit, st)
      end
  end.

Definition target_action (c : RequestContext) (rt : resolvedCentralPolicyRuntime) : string :=
  match registry_lookup (Runtime_Registry rt) (Req_Method c) (Req_FullPath c) with
  | Some policy =>
      if usesBodyAwareAuthorization policy && negb (blank (Route_Action policy)) then TrimSpace (Route_Action policy)
      else policyActionRepoScansRun
  | None => policyActionRepoScansRun
  end.

Definition authorizeRepoFindingDeleteTargets (resolver : option (policyResolver T)) (writeKeys : list string)
    (scopedKeys : gmap string (list string)) (store : option T) (fingerprinter : Fingerprinter)
    (targets : list RepoFindingDeleteTarget) (c : RequestContext) (now : Z) (st : middlewareState)
    : result bool * option AuditAuthzDecision * middlewareState :=
  if negb (hasAuthContext c) then (Ok true, None, st)
  else
    let resolver := match resolver with Some r => Some r | None => Some (newCentralPolicyRuntimeResolver store) end in
    match Resolve resolver (Req_Scope c) (MW_Cache st) with
    | (Err err, cache) => (Err err, None, with_cache cache st)
    | (Ok rt, cache) =>
        authorize_targets c now rt (mkRoutePolicy (target_action c rt) "repo_finding" "") (normalizeKeyList writeKeys)
          scopedKeys store fingerprinter targets None (with_cache cache st)
    end.
End delete_targets.

(** ** Facts *)
Section facts.
Context `{MapRange, SortSlice, BundleDecoder, HMAC} {T : Type} `{PolicyStore T, DirectoryStore T}.

(** Loading attributes changes neither who acts nor what is asked for. *)
Definition same_request (i j : PolicyInput) : Prop :=
  Input_Action i = Input_Action j ∧
  Subject_Roles (Input_Subject i) = Subject_Roles (Input_Subject j) ∧
  Subject_TenantID (Input_Subject i) = Subject_TenantID (Input_Subject j) ∧
  Subject_WorkspaceID (Input_Subject i) = Subject_WorkspaceID (Input_Subject j) ∧
  Resource_Type (Input_Resource i) = Resource_Type (Input_Resource j) ∧
  Resource_ID (Input_Resource i) = Resource_ID (Input_Resource j) ∧
  Resource_TenantID (Input_Resource i) = Resource_TenantID (Input_Resource j) ∧
  Resource_WorkspaceID (Input_Resource i) = Resource_WorkspaceID (Input_Resource j).

Lemma loadTrustedPolicyAttributes_same ctx now (store : option T) input input' :
  loadTrustedPolicyAttributes ctx now store input = Ok input' → same_request input' input.
Proof.
  unfold loadTrustedPolicyAttributes. destruct store as [store|]; [|by intros [= <-]].
  intros E. open_bind E sa Hsa. open_bind E ra Hra. injection E as <-. unfold same_request.
  by repeat case_decide.
Qed.

Lemma buildPolicyInput_request c now policy wk sk (store : option T) input :
  buildPolicyInputFromGinContext c now policy wk sk store = Ok input →
  Input_Action input = canon (Route_Action policy) ∧
  Subject_Roles (Input_Subject input) = policyRolesFromAuthWithStore c wk sk store.
Proof. intros E. by apply loadTrustedPolicyAttributes_same in E as (Ha & Hr & _). Qed.

Lemma active_or_blocked_Next c policy (store : option T) :
  active_or_blocked c policy store = Next → inactiveWorkspaceBlock c policy store = Ok None.
Proof. unfold active_or_blocked. by destruct (inactiveWorkspaceBlock _ _ _) as [[?|]|?]. Qed.

(** An allowed decision of the engine a runtime picks for a request. *)
Lemma decision_engine_sound (store : option T) rt ctx input d :
  runtime_ok store rt → Decide (decision_engine rt input) ctx input = Ok d → Decision_Allowed d = true →
  ¬ scope_mismatch input ∧
  ∃ compiled roles role, compiled_wf compiled ∧ decision_engine rt input = Some (newCentralPolicyEngineFromCompiled store compiled) ∧
    RBACActionRole compiled !! canon (Input_Action input) = Some roles ∧
    role ∈ Subject_Roles (Input_Subject input) ∧ canon role ∈ roles.
Proof.
  intros (He & Hc & _) Hd Ha.
  assert (engine_ok store (decision_engine rt input)) as Hok by (unfold decision_engine; by destruct (enforces_candidate _ _)).
  destruct (decision_engine rt input) as [p|]; [|by injection Hd as <-].
  destruct (Hok p eq_refl) as (compiled & Hwf & ->).
  destruct (compiled_engine_role store compiled ctx input d Hwf Hd Ha) as (Hm & _ & roles & role & ? & ? & ?).
  split; [exact Hm|]. exists compiled, roles, role. split_and!; done.
Qed.

(** What a granted request looks like. *)
Definition granted (c : RequestContext) (now : Z) (rt : resolvedCentralPolicyRuntime) (policy : routePolicy)
    (writeKeys : list string) (scopedKeys : gmap string (list string)) (store : option T)
    (fingerprinter : Fingerprinter) (audit : option AuditAuthzDecision) : Prop :=
  ∃ input d compiled roles role,
    buildPolicyInputFromGinContext c now policy writeKeys scopedKeys store = Ok input ∧
    Decide (decision_engine rt input) (Req_Scope c) input = Ok d ∧ Decision_Allowed d = true ∧
    ¬ scope_mismatch input ∧
    compiled_wf compiled ∧ decision_engine rt input = Some (newCentralPolicyEngineFromCompiled store compiled) ∧
    RBACActionRole compiled !! canon (Route_Action policy) = Some roles ∧
    role ∈ policyRolesFromAuthWithStore c writeKeys scopedKeys store ∧ canon role ∈ roles ∧
    audit = Some (auditDecision fingerprinter (Runtime_PolicySetID rt) (decision_version rt input)
                    (decision_source rt input) (Runtime_RolloutMode rt) d input).

Lemma decide_request_Next c now rt policy wk sk (store : option T) fp st audit st' :
  runtime_ok store rt → decide_request c now rt policy wk sk store fp st = (Next, audit, st') →
  MW_Cache st' = MW_Cache st ∧ inactiveWorkspaceBlock c policy store = Ok None ∧
  granted c now rt policy wk sk store fp audit.
Proof.
  intros Hrt. unfold decide_request.
  destruct (buildPolicyInputFromGinContext c now policy wk sk store) as [input|] eqn:Ei; [|done].
  destruct (Decide _ _ _) as [d|] eqn:Ed; [|done].
  destruct (Decision_Allowed d) eqn:Ea; [|done]. intros E. injection E as Ho <- <-.
  destruct (decision_engine_sound store rt (Req_Scope c) input d Hrt Ed Ea) as (Hm & compiled & roles & role & Hwf & Heng & Hr & Hin & Hc).
  destruct (buildPolicyInput_request _ _ _ _ _ _ _ Ei) as [Haction Hroles].
  rewrite Haction, canon_idemp in Hr. rewrite Hroles in Hin.
  split; [unfold recordPolicyShadowEvaluation; by destruct (negb _)|].
  split; [by apply active_or_blocked_Next|]. exists input, d, compiled, roles, role. by split_and!.
Qed.

(** C1. No request of an authenticated caller reaches a handler unauthorized:
    on a routed path the middleware calls the handlers only when the policy
    runtime that the resolver yields for this request, from the store and the
    cache at that moment, registers the route, no inactive workspace blocks it,
    and (unless the route's handler authorizes each target itself) the engine
    that runtime chooses for the request, built from a well-formed policy,
    allowed it, within the caller's tenant and workspace and for a role that this
    policy grants the action and the caller's credentials carry; that same
    decision is the one audited. *)
Theorem requireCentralPolicyMiddleware_sound (store : option T) (id : string) (writeKeys : list string)
    (scopedKeys : gmap string (list string)) (fingerprinter : Fingerprinter) (c : RequestContext) (now : Z)
    (st st' : middlewareState) (audit : option AuditAuthzDecision)
    (Hcache : cache_wf (MW_Cache st))
    (Hpath : TrimSpace (Req_FullPath c) ≠ "") (Hauth : hasAuthContext c = true)
    (Hnext : requireCentralPolicyMiddleware (Some (newCentralPolicyRuntimeResolverWithPolicySet store id))
               writeKeys scopedKeys store fingerprinter c now st = (Next, audit, st')) :
  cache_wf (MW_Cache st') ∧
  ∃ rt policy,
    Resolve (Some (newCentralPolicyRuntimeResolverWithPolicySet store id)) (Req_Scope c) (MW_Cache st) = (Ok rt, MW_Cache st') ∧
    registry_lookup (Runtime_Registry rt) (Req_Method c) (TrimSpace (Req_FullPath c)) = Some policy ∧
    inactiveWorkspaceBlock c policy store = Ok None ∧
    (usesBodyAwareAuthorization policy = true ∨
     granted c now rt policy (normalizeKeyList writeKeys) scopedKeys store fingerprinter audit).
Proof.
  unfold requireCentralPolicyMiddleware in Hnext. rewrite decide_False in Hnext by exact Hpath.
  rewrite Hauth in Hnext. cbn [negb] in Hnext.
  destruct (Resolve _ _ _) as [[rt|err] cache] eqn:Er; [|done].
  destruct (Resolve_ok _ _ _ _ _ _ Hcache Er) as [Hc' Hrt].
  destruct (registry_lookup _ _ _) as [policy|] eqn:El; [|done].
  destruct (usesBodyAwareAuthorization policy) eqn:Eb.
  - injection Hnext as Ho <- <-. split; [exact Hc'|]. exists rt, policy.
    split_and!; [done|exact El|by apply active_or_blocked_Next|by left].
  - destruct (decide_request_Next _ _ _ _ _ _ _ _ _ _ _ Hrt Hnext) as (Hst & Hactive & Hg).
    split; [by rewrite Hst|]. exists rt, policy. split_and!; [by rewrite Hst|exact El|exact Hactive|by right].
Qed.

(** ** The candidate in the shadow *)
Definition without_candidate (rt : resolvedCentralPolicyRuntime) : resolvedCentralPolicyRuntime :=
  mkRuntime (Runtime_Engine rt) (Runtime_Registry rt) (Runtime_Source rt) (Runtime_PolicySetID rt)
    (Runtime_Version rt) (Runtime_RolloutMode rt) (Runtime_Rollout rt) None "" 0.

(** The counters a shadow evaluation may change. *)
Definition same_decisions (st st' : middlewareState) : Prop :=
  MW_Cache st = MW_Cache st' ∧ MW_Decisions st = MW_Decisions st'.

Lemma recordPolicyShadowEvaluation_same ctx rt targeted input d st :
  same_decisions (recordPolicyShadowEvaluation ctx rt targeted input d st) st.
Proof. unfold recordPolicyShadowEvaluation. by destruct (negb _). Qed.

Lemma not_enforcing rt input :
  Rollout_Mode (Runtime_Rollout rt) ≠ AuthzPolicyRolloutModeEnforce → enforces_candidate rt input = false.
Proof. intros Hm. unfold enforces_candidate. by rewrite bool_decide_eq_false_2. Qed.

(** Outside the enforce mode a candidate policy is only watched: with and
    without it every request gets the same outcome, the same audit decision and
    the same decision metric; and the shadow counters move only in the shadow
    mode, for a targeted request, when the candidate is a validated version. *)
Theorem shadow_candidate_never_decides (c : RequestContext) (now : Z) (rt : resolvedCentralPolicyRuntime)
    (policy : routePolicy) (writeKeys : list string) (scopedKeys : gmap string (list string)) (store : option T)
    (fingerprinter : Fingerprinter) (st : middlewareState)
    (Hmode : Rollout_Mode (Runtime_Rollout rt) ≠ AuthzPolicyRolloutModeEnforce) :
  let with_ := decide_request c now rt policy writeKeys scopedKeys store fingerprinter st in
  let without := decide_request c now (without_candidate rt) policy writeKeys scopedKeys store fingerprinter st in
  with_.1 = without.1 ∧ same_decisions with_.2 without.2 ∧
  MW_ShadowEvalCount without.2 = MW_ShadowEvalCount st ∧
  (MW_ShadowEvalCount with_.2 = MW_ShadowEvalCount st ∨
   ∃ input, buildPolicyInputFromGinContext c now policy writeKeys scopedKeys store = Ok input ∧
     shadows_candidate rt (shouldTargetRolloutRequest (Runtime_Rollout rt) input) = true ∧
     MW_ShadowEvalCount with_.2 = wrapu64 (MW_ShadowEvalCount st + 1)).
Proof.
  cbn zeta. unfold decide_request.
  destruct (buildPolicyInputFromGinContext c now policy writeKeys scopedKeys store) as [input|];
    [|split_and!; try done; by left].
  assert (∀ i, enforces_candidate (without_candidate rt) i = false) as Hw by (intros i; by apply not_enforcing).
  unfold decision_engine, decision_version, decision_source.
  rewrite Hw, (not_enforcing _ input Hmode). cbn [without_candidate Runtime_Engine Runtime_Version Runtime_Source
    Runtime_RolloutMode Runtime_PolicySetID Runtime_Rollout].
  destruct (Decide (Runtime_Engine rt) (Req_Scope c) input) as [d|]; [|split_and!; try done; by left].
  set (st1 := recordPolicyDecisionMetric _ _ _ _ st).
  set (targeted := shouldTargetRolloutRequest (Runtime_Rollout rt) input).
  assert (recordPolicyShadowEvaluation (Req_Scope c) (without_candidate rt) targeted input d st1 = st1) as ->.
  { unfold recordPolicyShadowEvaluation, shadows_candidate. cbn.
    by rewrite !andb_false_r. }
  pose proof (recordPolicyShadowEvaluation_same (Req_Scope c) rt targeted input d st1) as Hs.
  assert (MW_ShadowEvalCount (recordPolicyShadowEvaluation (Req_Scope c) rt targeted input d st1) = MW_ShadowEvalCount st ∨
    shadows_candidate rt targeted = true ∧
    MW_ShadowEvalCount (recordPolicyShadowEvaluation (Req_Scope c) rt targeted input d st1) =
      wrapu64 (MW_ShadowEvalCount st + 1)) as Hcount.
  { unfold recordPolicyShadowEvaluation. destruct (shadows_candidate rt targeted); [by right|by left]. }
  destruct (Decision_Allowed d); cbn [fst snd]; (split_and!; [done|exact Hs|done|]);
    (destruct Hcount as [Hn|[Hsh Hn]]; [by left|right; exists input; by split_and!]).
Qed.
End facts.

(** ** The in-memory store as a whole *)
#[export] Instance memory_full_relationship_store `{MapRange, SortSlice} :
  RelationshipStore (DirectoryState * (AuthzState * Z)).
Proof.
  refine {|
    rs_list := λ t ctx f limit, rs_list t.2 ctx f limit;
    rs_live := λ t scope r, rs_live t.2 scope r;
    rs_matching := λ t scope f, rs_matching t.2 scope f;
  |}.
  - intros t. apply rs_matching_spec.
  - intros t. apply rs_list_Ok.
  - intros t. apply rs_list_unscoped.
Defined.

#[export] Instance memory_full_policy_store `{MapRange, SortSlice} : PolicyStore (DirectoryState * (AuthzState * Z)) := {|
  ps_relationships := memory_full_relationship_store;
  ps_GetAuthzPolicyRollout := λ t ctx id, GetAuthzPolicyRollout ctx id t.2.1;
  ps_GetAuthzPolicyVersion := λ t ctx id version, GetAuthzPolicyVersion ctx id version t.2.1;
|}.

(** ** Witnesses *)
#[local] Existing Instance canonical_range.
#[local] Existing Instance insertion_sort.
#[local] Existing Instance sample_decoder.

Definition sample_hmac : HMAC.
Proof. refine {| hmac_sha256_hex := λ _ _, of_bytes (repeat "0"%char 64) |}. by intros. Defined.
#[local] Existing Instance sample_hmac.

(** The owner of the sample workspace, in a browser session. *)
Definition sample_request (method path : string) : RequestContext :=
  mkRequest path method {[ "workspace_id" := "prod" ]}
    {[ "auth.subject" := GinString "u1"; "auth.roles" := GinStrings ["viewer"] ]}
    sample_tenancy_ctx "session" "".
Definition sample_full_store : DirectoryState * (AuthzState * Z) := (sample_directory, (empty_authz_state, 9)).
Definition sample_mw_state : middlewareState := mkMiddlewareState ∅ 0 0 [].
Definition sample_write_request : RequestContext := sample_request "DELETE" "/v1/workspaces/:workspace_id/members/:member_id".
Definition sample_run : middlewareResult :=
  requireCentralPolicyMiddleware (Some (newCentralPolicyRuntimeResolverWithPolicySet (Some sample_full_store) ""))
    [] ∅ (Some sample_full_store) None sample_write_request 9 sample_mw_state.

Lemma requireCentralPolicyMiddleware_sound_witness :
  sample_run.1.1 = Next ∧ length (MW_Decisions sample_run.2) = 1%nat ∧
  ∃ rt policy,
    (Resolve (Some (newCentralPolicyRuntimeResolverWithPolicySet (Some sample_full_store) "")) sample_tenancy_ctx ∅).1 = Ok rt ∧
    registry_lookup (Runtime_Registry rt) "DELETE" "/v1/workspaces/:workspace_id/members/:member_id" = Some policy ∧
    inactiveWorkspaceBlock sample_write_request policy (Some sample_full_store) = Ok None.
Proof.
  split; [by vm_compute|]. split; [by vm_compute|].
  pose proof (requireCentralPolicyMiddleware_sound (Some sample_full_store) "" [] ∅ None sample_write_request 9
    sample_mw_state sample_run.2 sample_run.1.2) as Hsound.
  assert (sample_run = (Next, sample_run.1.2, sample_run.2)) as Hrun.
  { rewrite (surjective_pairing sample_run) at 1. rewrite (surjective_pairing sample_run.1) at 1.
    f_equal; f_equal; by vm_compute. }
  destruct (Hsound) as (_ & rt & policy & Hres & Hl & Hi & _).
  - apply map_Forall_empty.
  - by apply (bool_decide_unpack _); vm_compute.
  - by vm_compute.
  - exact Hrun.
  - exists rt, policy. split; [exact (f_equal fst Hres)|]. split; [exact Hl|exact Hi].
Defined.

Lemma shadow_candidate_never_decides_witness :
  shadows_candidate (with_candidate sample_full_store sample_compiled 2
    (with_rollout (mkRollout "acme" "prod" "central" (Some 1) (Some 2) "shadow" [] [] 100 [2] "" 7) (fallbackRuntime
      (newCentralPolicyRuntimeResolverWithPolicySet (Some sample_full_store) "")))) true = true ∧
  (decide_request sample_write_request 9 (with_candidate sample_full_store sample_compiled 2
    (with_rollout (mkRollout "acme" "prod" "central" (Some 1) (Some 2) "shadow" [] [] 100 [2] "" 7) (fallbackRuntime
      (newCentralPolicyRuntimeResolverWithPolicySet (Some sample_full_store) ""))))
    (mkRoutePolicy "tenancy.write" "workspace_member" "member_id") [] ∅ (Some sample_full_store) None sample_mw_state).1 =
  (decide_request sample_write_request 9 (without_candidate (with_candidate sample_full_store sample_compiled 2
    (with_rollout (mkRollout "acme" "prod" "central" (Some 1) (Some 2) "shadow" [] [] 100 [2] "" 7) (fallbackRuntime
      (newCentralPolicyRuntimeResolverWithPolicySet (Some sample_full_store) "")))))
    (mkRoutePolicy "tenancy.write" "workspace_member" "member_id") [] ∅ (Some sample_full_store) None sample_mw_state).1.
Proof.
  split; [by vm_compute|].
  refine (proj1 (shadow_candidate_never_decides sample_write_request 9 _
    (mkRoutePolicy "tenancy.write" "workspace_member" "member_id") [] ∅ (Some sample_full_store) None sample_mw_state _)).
  by apply (bool_decide_unpack _); vm_compute.
Defined.
