(* ===== verification/AuthzHandlers.v ===== *)
(** * Rolling back and simulating policies
    (internal/api/authz_policy_rollback.go, authz_simulation.go,
    authz_policy_bundle_runtime.go)

    The two policy administration handlers and the activation checks.  A
    handler maps a decoded body ([None] when it does not decode) and the store
    to an HTTP status with its payload and the new tables; [now] is the time of
    the call and [fresh] the id drawn for the event. *)
From S2P Require Import Prelude GoStrings GoCollections GoTime GoCrypto Scope PolicyEngine PolicyEvaluators AuthzRecords AuthzStore.
From S2P Require Import Rebac PolicyBundle BuiltinPolicy PolicyRuntime TenancyRecords Tenancy Accounts RequestRoles AuthzMiddleware.

(** ** Activation checks *)
Section activation.
Context `{MapRange, BundleDecoder} {T : Type} `{PolicyStore T}.

Definition validateAuthzPolicyVersionBundle (ctx : Context) (store : T) (policySetID : string) (version : Z)
    : result unit :=
  if version <=? 0 then Err (Errorf "version must be greater than zero")
  else
    record ← ps_GetAuthzPolicyVersion store ctx policySetID version;
    match compileRouteAuthorizationPolicyBundleJSON (Version_Bundle record) with
    | Err err => Err (WrapSuffix errInvalidAuthzPolicyVersionBundle (error_string err))
    | Ok _ => Ok tt
    end.

Definition hasValidatedVersion (values : list Z) (version : Z) : bool := bool_decide (version ∈ values).

(** One version pointer of a rollout: nil, or naming a version whose bundle
    compiles. *)
Definition validate_pointer (ctx : Context) (store : T) (policySetID what : string) (pointer : option Z) : result unit :=
  match pointer with
  | None => Ok tt
  | Some version =>
      match validateAuthzPolicyVersionBundle ctx store policySetID version with
      | Err err => Err (Wrap (what +:+ " version validation failed") err)
      | Ok _ => Ok tt
      end
  end.

Definition validateAuthzPolicyRolloutActivation (ctx : Context) (store : option T) (policySetID : string)
    (rollout : AuthzPolicyRollout) : result unit :=
  match store with
  | None => Err (Errorf "policy store is required")
  | Some store =>
      let normalizedPolicySetID := canon policySetID in
      _ ← guard_err (negb (bool_decide (normalizedPolicySetID = ""))) (Errorf "policy set id is required");
      _ ← validate_pointer ctx store normalizedPolicySetID "active" (Rollout_ActiveVersion rollout);
      _ ← validate_pointer ctx store normalizedPolicySetID "candidate" (Rollout_CandidateVersion rollout);
      let enforced := bool_decide (canon (Rollout_Mode rollout) = AuthzPolicyRolloutModeEnforce) in
      let validated := hasValidatedVersion (Rollout_ValidatedVersions rollout) in
      _ ← guard_err (negb enforced || pointer_ok validated (Rollout_ActiveVersion rollout))
            (Errorf "active version must exist in validated_versions for enforce mode");
      guard_err (negb enforced || pointer_ok validated (Rollout_CandidateVersion rollout))
        (Errorf "candidate version must exist in validated_versions for enforce mode")
  end.
End activation.

(** ** Rollback *)
Record authzPolicyRollbackRequest := mkRollbackRequest {
  Rollback_PolicySetID : string;
  Rollback_TargetVersion : Z;
  Rollback_Actor : string;
}.

Record authzPolicyRollbackResponse := mkRollbackResponse {
  RollbackResponse_PolicySetID : string;
  RollbackResponse_PreviousEffective : option Z;
  RollbackResponse_PreviousActiveVersion : option Z;
  RollbackResponse_PreviousCandidateVersion : option Z;
  RollbackResponse_ActiveVersion : Z;
  RollbackResponse_RolloutMode : string;
  RollbackResponse_UpdatedAt : Z;
}.

(** An HTTP answer: the payload, or an error status and message. *)
Inductive answer (A : Type) := Answer (payload : A) | Failure (status : Z) (message : string).
Arguments Answer {_} _.
Arguments Failure {_} _ _.

Definition effectiveVersionBeforeRollback (rollout : AuthzPolicyRollout) : option Z :=
  match Rollout_CandidateVersion rollout with
  | Some v =>
      if bool_decide (Rollout_Mode rollout = AuthzPolicyRolloutModeEnforce) && rolloutVersionValidated rollout v
      then Some v else Rollout_ActiveVersion rollout
  | None => Rollout_ActiveVersion rollout
  end.

Definition appendValidatedVersion (existing : list Z) (target : Z) : list Z :=
  let versions := existing ++ (if 0 <? target then [target] else []) in
  SortInts (unique (filter (λ version, 0 < version) versions)).

Section handlers.
Context `{MapRange, SortSlice, BundleDecoder, HMAC}.

Definition triageActorFromContext (c : RequestContext) (fingerprinter : Fingerprinter) : string :=
  if decide (authContextString c "auth.subject" ≠ "")
  then "subject:" +:+ fingerprintIdentifierWith fingerprinter (authContextString c "auth.subject")
  else if decide (authContextString c "auth.api_key" ≠ "")
  then "api_key:" +:+ fingerprintIdentifierWith fingerprinter (authContextString c "auth.api_key")
  else "unknown".

Definition effectiveRollbackActor (c : RequestContext) (explicit : string) (fingerprinter : Fingerprinter) : string :=
  if decide (TrimSpace explicit ≠ "") then TrimSpace explicit else triageActorFromContext c fingerprinter.

Definition any_version (v : option Z) : any := match v with Some n => AnyInt n | None => AnyNil end.

(** The rollout a rollback writes and the event it appends. *)
Definition rollback_rollout (policySetID : string) (target : Z) (previous : AuthzPolicyRollout) (actor : string)
    (now : Z) : AuthzPolicyRollout :=
  mkRollout "" "" policySetID (Some target) None AuthzPolicyRolloutModeDisabled [] [] 100
    (appendValidatedVersion (Rollout_ValidatedVersions previous) target) actor now.
Definition rollback_event (policySetID : string) (target : Z) (previous : AuthzPolicyRollout) (actor : string)
    (now : Z) : AuthzPolicyEvent :=
  mkPolicyEvent "" "" "" policySetID "rollback" (effectiveVersionBeforeRollback previous) (Some target) actor
    "rolled back active policy version"
    (<["previous_active_version" := any_version (Rollout_ActiveVersion previous)]>
      (<["previous_candidate_version" := any_version (Rollout_CandidateVersion previous)]>
        {[ "target_version" := AnyInt target ]})) now.

(** The rollout in force before the rollback. *)
Definition previous_rollout (ctx : Context) (policySetID : string) (s : AuthzState) : result AuthzPolicyRollout :=
  match GetAuthzPolicyRollout ctx policySetID s with
  | Err err =>
      if errors_is err ErrNotFound
      then Ok (mkRollout "" "" policySetID None None AuthzPolicyRolloutModeDisabled [] [] 100 [] "" time_zero)
      else Err err
  | Ok rollout => Ok rollout
  end.

Definition authzPolicyRollbackHandler `{BundleCodec} (fingerprinter : Fingerprinter) (now : Z) (fresh : string)
    (c : RequestContext) (body : option authzPolicyRollbackRequest) (s : AuthzState)
    : answer authzPolicyRollbackResponse * AuthzState :=
  match body with
  | None => (Failure 400 "invalid request body", s)
  | Some request =>
      let target := Rollback_TargetVersion request in
      if target <=? 0 then (Failure 400 "target_version must be greater than zero", s)
      else
        let policySetID := if decide (TrimSpace (Rollback_PolicySetID request) = "") then defaultCentralPolicySetID
                           else TrimSpace (Rollback_PolicySetID request) in
        match validateAuthzPolicyVersionBundle (Req_Scope c) (s, now) policySetID target with
        | Err err =>
            if errors_is err ErrNotFound then (Failure 404 "target policy version not found", s)
            else if errors_is err errInvalidAuthzPolicyVersionBundle
            then (Failure 400 "target policy version is not valid", s)
            else (Failure 500 "failed to rollback policy", s)
        | Ok _ =>
            match previous_rollout (Req_Scope c) policySetID s with
            | Err _ => (Failure 500 "failed to rollback policy", s)
            | Ok previous =>
                let actor := effectiveRollbackActor c (Rollback_Actor request) fingerprinter in
                match UpsertAuthzPolicyRollout (Req_Scope c) now (rollback_rollout policySetID target previous actor now) s with
                | Err err =>
                    if errors_is err ErrNotFound then (Failure 404 "policy set or version not found", s)
                    else (Failure 500 "failed to rollback policy", s)
                | Ok s' =>
                    (* a failed append is only logged *)
                    let s'' := ok_or s' (AppendAuthzPolicyEvent (Req_Scope c) now fresh
                                           (rollback_event policySetID target previous actor now) s') in
                    (Answer (mkRollbackResponse policySetID (effectiveVersionBeforeRollback previous)
                       (Rollout_ActiveVersion previous) (Rollout_CandidateVersion previous) target
                       AuthzPolicyRolloutModeDisabled now), s'')
                end
            end
        end
  end.
End handlers.

(** ** Facts: rollback *)
Lemma appendValidatedVersion_spec existing target :
  NoDup (appendValidatedVersion existing target) ∧
  StronglySorted (λ x y, (x <=? y) = true) (appendValidatedVersion existing target) ∧
  Forall (λ v, 0 < v) (appendValidatedVersion existing target) ∧
  (0 < target → target ∈ appendValidatedVersion existing target).
Proof.
  unfold appendValidatedVersion. split_and!.
  - rewrite SortInts_perm. apply NoDup_unique.
  - apply SortInts_sorted.
  - rewrite SortInts_perm. apply Forall_forall. intros v Hv. apply (proj1 (elem_of_unique _ _)) in Hv.
    by apply list_elem_of_filter in Hv as [? _].
  - intros Ht. rewrite SortInts_perm, elem_of_unique, list_elem_of_filter, (proj2 (Z.ltb_lt 0 target) Ht).
    split; [exact Ht|]. apply elem_of_app. right. by left.
Qed.

Lemma allowlist_normal_nil : allowlist_normal [].
Proof. split_and!; constructor. Qed.

Lemma NormalizeAuthzPolicyRolloutForWrite_rollback id target previous actor now :
  policy_set_id_normal (canon id) → 0 < target →
  ∃ n, NormalizeAuthzPolicyRolloutForWrite now (rollback_rollout id target previous actor now) = Ok n ∧
    Rollout_PolicySetID n = canon id ∧ Rollout_ActiveVersion n = Some target ∧ Rollout_CandidateVersion n = None ∧
    Rollout_Mode n = AuthzPolicyRolloutModeDisabled ∧ target ∈ Rollout_ValidatedVersions n.
Proof.
  intros Hid Ht. destruct (appendValidatedVersion_spec (Rollout_ValidatedVersions previous) target) as (Hd & Hs & Hf & Hin).
  unfold NormalizeAuthzPolicyRolloutForWrite, rollback_rollout. cbn.
  rewrite (proj2 (normalizeAuthzPolicySetID_Ok id (canon id)) (conj eq_refl Hid)). cbn.
  rewrite (proj2 (Z.ltb_lt 0 target) Ht). cbn.
  rewrite (normalizeAuthzRolloutValidatedVersions_id _ Hd Hs Hf). cbn.
  eexists. split; [reflexivity|]. split_and!; [done|done|done|done|exact (Hin Ht)].
Qed.

Section rollback_store.
Context `{BundleCodec}.

Lemma version_key_inj scope scope' id id' n n' :
  authzPolicyVersionScopeKey scope id n = authzPolicyVersionScopeKey scope' id' n' →
  authzPolicySetScopeKey scope id = authzPolicySetScopeKey scope' id' ∧ n = n'.
Proof.
  unfold authzPolicyVersionScopeKey. intros E. apply (join_inj_r "|") in E as [E En].
  - split; [exact E|by apply Itoa_inj].
  - by apply Itoa_no_byte.
  - by apply Itoa_no_byte.
Qed.

(** A version that is read has the number asked for, and its set is stored. *)
Lemma GetAuthzPolicyVersion_Ok ctx raw n s v :
  authz_wf s → GetAuthzPolicyVersion ctx raw n s = Ok v →
  ∃ scope, RequireScope ctx = Ok scope ∧ policy_set_id_normal (canon raw) ∧ Version_Version v = n ∧
    authzVersions s !! authzPolicyVersionScopeKey scope (canon raw) n = Some v ∧
    is_Some (authzSets s !! authzPolicySetScopeKey scope (canon raw)).
Proof.
  intros [_ Hv _ _] Hg. unfold GetAuthzPolicyVersion in Hg.
  open_bind Hg scope Hs. open_bind Hg id Hid. apply normalizeAuthzPolicySetID_Ok in Hid as [-> Hid].
  open_bind Hg u Hn. rewrite (Scope_Normalize_id _ (RequireScope_normal _ _ Hs)) in Hg.
  destruct (authzVersions s !! _) as [v'|] eqn:E; [|discriminate Hg]. injection Hg as <-.
  destruct (Hv _ _ E) as (Hk & _ & _ & Hset). apply version_key_inj in Hk as [Hk <-].
  exists scope. rewrite <-Hk in Hset. by split_and!.
Qed.

(** Under the tables' invariant a rollback's write is accepted. *)
Lemma UpsertAuthzPolicyRollout_rollback ctx raw target previous actor now s v :
  authz_wf s → GetAuthzPolicyVersion ctx raw target s = Ok v → 0 < target →
  ∃ scope n, RequireScope ctx = Ok scope ∧ rollout_normal n ∧
    UpsertAuthzPolicyRollout ctx now (rollback_rollout raw target previous actor now) s =
      Ok (with_authzRollouts (<[authzPolicySetScopeKey scope (canon raw) := stamp_rollout scope n]> (authzRollouts s)) s) ∧
    Rollout_PolicySetID n = canon raw ∧ Rollout_ActiveVersion n = Some target ∧ Rollout_CandidateVersion n = None ∧
    Rollout_Mode n = AuthzPolicyRolloutModeDisabled ∧ target ∈ Rollout_ValidatedVersions n.
Proof.
  intros Hwf Hg Ht. destruct (GetAuthzPolicyVersion_Ok _ _ _ _ _ Hwf Hg) as (scope & Hs & Hid & _ & Hv & Hset).
  destruct (NormalizeAuthzPolicyRolloutForWrite_rollback raw target previous actor now Hid Ht)
    as (n & Hn & Hnid & Ha & Hc & Hm & Hin).
  exists scope, n. pose proof (NormalizeAuthzPolicyRolloutForWrite_normal _ _ _ Hn) as Hno.
  split_and!; try done. unfold UpsertAuthzPolicyRollout. rewrite Hn, Hs. cbn.
  rewrite (Scope_Normalize_id _ (RequireScope_normal _ _ Hs)), Hnid, Ha, Hc.
  rewrite (bool_decide_eq_true_2 _ Hset). cbn -[version_exists].
  rewrite (proj2 (version_exists_spec s scope (canon raw) (Some target))) by (intros x [= <-]; by eexists).
  reflexivity.
Qed.
End rollback_store.

Lemma AppendAuthzPolicyEvent_frame ctx now fresh e s :
  let s' := ok_or s (AppendAuthzPolicyEvent ctx now fresh e s) in
  authzVersions s' = authzVersions s ∧ authzSets s' = authzSets s ∧ authzRollouts s' = authzRollouts s.
Proof.
  cbn zeta. destruct (AppendAuthzPolicyEvent ctx now fresh e s) as [s'|] eqn:E; [|done].
  unfold AppendAuthzPolicyEvent in E. open_bind E n Hn. open_bind E scope Hs.
  open_bind E u1 H1. open_bind E u2 H2. by injection E as <-.
Qed.

Section rollback_facts.
Context `{MapRange, SortSlice, BundleDecoder, HMAC, BundleCodec}.

Lemma normalizeRuntimeRollout_canon r id : normalizeRuntimeRollout r id = normalizeRuntimeRollout r (canon id).
Proof. unfold normalizeRuntimeRollout. by rewrite canon_idemp. Qed.

(** The effective policy set id of a request. *)
Definition rollback_policy_set (request : authzPolicyRollbackRequest) : string :=
  if decide (TrimSpace (Rollback_PolicySetID request) = "") then defaultCentralPolicySetID
  else TrimSpace (Rollback_PolicySetID request).

Lemma rollback_policy_set_trimmed request :
  TrimSpace (rollback_policy_set request) = rollback_policy_set request ∧ rollback_policy_set request ≠ "".
Proof. unfold rollback_policy_set. case_decide; [done|by rewrite TrimSpace_idemp]. Qed.

(** A stored rollout with an active version and no candidate resolves to that
    version's policy. *)
Lemma Resolve_active_only s later ctx scope id n target v :
  RequireScope ctx = Ok scope → TrimSpace id = id → id ≠ "" → policy_set_id_normal (canon id) → rollout_normal n →
  Rollout_PolicySetID n = canon id → Rollout_ActiveVersion n = Some target → Rollout_CandidateVersion n = None →
  authzRollouts s !! authzPolicySetScopeKey scope (canon id) = Some (stamp_rollout scope n) →
  GetAuthzPolicyVersion ctx id target s = Ok v → 0 < target →
  is_ok (compileRouteAuthorizationPolicyBundleJSON (Version_Bundle v)) = true →
  ∃ rt cache,
    Resolve (Some (newCentralPolicyRuntimeResolverWithPolicySet (Some (s, later)) id)) ctx ∅ = (Ok rt, cache) ∧
    Runtime_Version rt = Version_Version v ∧ Runtime_Source rt = "persisted_active_version" ∧
    Runtime_CandidateEngine rt = None ∧ Runtime_RolloutMode rt = Rollout_Mode n ∧
    ∃ compiled, compile_version (newCentralPolicyRuntimeResolverWithPolicySet (Some (s, later)) id) v = Ok compiled ∧
      Runtime_Engine rt = Some (newCentralPolicyEngineFromCompiled (Some (s, later)) compiled).
Proof.
  intros Hs Htrim Hne Hid Hno Hnid Ha Hc Hr Hv Ht Hok.
  destruct (new_resolver (Some (s, later)) id) as (policySet & -> & Hps).
  rewrite Htrim, decide_False in Hps by exact Hne. subst policySet.
  set (r := mkResolver (Some (s, later)) id builtin_compiled None).
  assert (∃ compiled, compile_version r v = Ok compiled) as [compiled Hcomp].
  { unfold compile_version. destruct (compileRouteAuthorizationPolicyBundleJSON _); [|discriminate Hok]. by eexists. }
  assert (normalizeRuntimeRollout (stamp_rollout scope n) id = stamp_rollout scope n) as Hnorm.
  { rewrite normalizeRuntimeRollout_canon, <-Hnid. exact (normalizeRuntimeRollout_id _ (stamp_rollout_normal scope n Hno)). }
  unfold Resolve. cbn [Resolver_initErr Resolver_store Resolver_policySet r ps_GetAuthzPolicyRollout memory_policy_store fst].
  rewrite (GetAuthzPolicyRollout_lookup ctx scope id s _ Hs Hid Hr), Hnorm. cbn [stamp_rollout Rollout_ActiveVersion Rollout_CandidateVersion].
  rewrite Ha, Hc. unfold resolve_pointer. rewrite (proj2 (Z.ltb_lt 0 target) Ht).
  cbn [ps_GetAuthzPolicyVersion memory_policy_store fst Resolver_policySet r]. rewrite Hv.
  unfold compiledVersion. rewrite lookup_empty. rewrite Hcomp.
  destruct (decide (version_cache_key v ≠ "||")); eexists _, _; (split; [reflexivity|]);
    (split_and!; [reflexivity..|]); exists compiled; (split; reflexivity).
Qed.

(** A rollback is all or nothing and takes effect: a refused rollback
    leaves every table as it was; and when the tables are well formed, the
    requested version is stored and its bundle compiles, the rollback succeeds,
    no version or policy set changes, the answer reports the rollout that was in
    force, and from then on the resolver of that policy set decides with exactly
    the requested version and no candidate. *)
Theorem authzPolicyRollbackHandler_correct (fingerprinter : Fingerprinter) (now : Z) (fresh : string)
    (c : RequestContext) (request : authzPolicyRollbackRequest) (s : AuthzState) (Hwf : authz_wf s) :
  let id := rollback_policy_set request in
  let target := Rollback_TargetVersion request in
  let run := authzPolicyRollbackHandler fingerprinter now fresh c (Some request) s in
  (∀ status message, run.1 = Failure status message → run.2 = s) ∧
  ∀ v previous, 0 < target → GetAuthzPolicyVersion (Req_Scope c) id target s = Ok v →
    is_ok (compileRouteAuthorizationPolicyBundleJSON (Version_Bundle v)) = true →
    previous_rollout (Req_Scope c) id s = Ok previous →
    run.1 = Answer (mkRollbackResponse id (effectiveVersionBeforeRollback previous) (Rollout_ActiveVersion previous)
              (Rollout_CandidateVersion previous) target AuthzPolicyRolloutModeDisabled now) ∧
    authzVersions run.2 = authzVersions s ∧ authzSets run.2 = authzSets s ∧
    ∀ later, ∃ rt cache,
      Resolve (Some (newCentralPolicyRuntimeResolverWithPolicySet (Some (run.2, later)) id)) (Req_Scope c) ∅ = (Ok rt, cache) ∧
      Runtime_Version rt = target ∧ Runtime_Source rt = "persisted_active_version" ∧
      Runtime_CandidateEngine rt = None ∧ Runtime_RolloutMode rt = AuthzPolicyRolloutModeDisabled.
Proof.
  cbn zeta. split.
  { intros status message. unfold authzPolicyRollbackHandler.
    repeat case_match; cbn; congruence. }
  intros v previous Ht Hv Hok Hprev. unfold authzPolicyRollbackHandler. fold (rollback_policy_set request).
  set (id := rollback_policy_set request) in *. set (target := Rollback_TargetVersion request) in *.
  rewrite (proj2 (Z.leb_gt target 0) Ht).
  assert (validateAuthzPolicyVersionBundle (Req_Scope c) (s, now) id target = Ok tt) as ->.
  { unfold validateAuthzPolicyVersionBundle. rewrite (proj2 (Z.leb_gt target 0) Ht).
    cbn [ps_GetAuthzPolicyVersion memory_policy_store fst]. rewrite Hv. cbn [mbind result_bind].
    destruct (compileRouteAuthorizationPolicyBundleJSON _); [reflexivity|discriminate Hok]. }
  rewrite Hprev. set (actor := effectiveRollbackActor c (Rollback_Actor request) fingerprinter).
  destruct (UpsertAuthzPolicyRollout_rollback (Req_Scope c) id target previous actor now s v Hwf Hv Ht)
    as (scope & n & Hs & Hno & -> & Hnid & Ha & Hc & Hm & Hin).
  set (s1 := with_authzRollouts _ s).
  destruct (GetAuthzPolicyVersion_Ok _ _ _ _ _ Hwf Hv) as (scope' & Hs' & Hid & Hvn & Hlook & _).
  assert (scope' = scope) as -> by (rewrite Hs in Hs'; by injection Hs').
  assert (∀ s2, authzVersions s2 = authzVersions s → authzRollouts s2 = authzRollouts s1 → ∀ later, ∃ rt cache,
      Resolve (Some (newCentralPolicyRuntimeResolverWithPolicySet (Some (s2, later)) id)) (Req_Scope c) ∅ = (Ok rt, cache) ∧
      Runtime_Version rt = target ∧ Runtime_Source rt = "persisted_active_version" ∧
      Runtime_CandidateEngine rt = None ∧ Runtime_RolloutMode rt = AuthzPolicyRolloutModeDisabled) as Hfin.
  { intros s2 Ev Er later. destruct (rollback_policy_set_trimmed request) as [Htrim Hne].
    assert (authzRollouts s2 !! authzPolicySetScopeKey scope (canon id) = Some (stamp_rollout scope n)) as Hr
      by (rewrite Er; apply lookup_insert_eq).
    rewrite <-Ev in Hlook. pose proof (GetAuthzPolicyVersion_lookup _ scope (canon id) id target s2 v Hs Hid eq_refl Ht Hlook) as Hv2.
    destruct (Resolve_active_only s2 later (Req_Scope c) scope id n target v Hs Htrim Hne Hid Hno Hnid Ha Hc Hr Hv2 Ht Hok)
      as (rt & cache & E & E1 & E2 & E3 & E4 & _).
    exists rt, cache. rewrite Hvn in E1. rewrite Hm in E4. split_and!; assumption. }
  destruct (AppendAuthzPolicyEvent_frame (Req_Scope c) now fresh (rollback_event id target previous actor now) s1)
    as (Ev & Es & Er).
  split; [reflexivity|]. split; [exact Ev|]. split; [exact Es|]. exact (Hfin _ Ev Er).
Qed.
End rollback_facts.

(** ** Simulation *)
Record policySimulationSubjectInput := mkSimSubject {
  SimSubject_Type : string;
  SimSubject_ID : string;
  SimSubject_TenantID : string;
  SimSubject_WorkspaceID : string;
  SimSubject_Groups : list string;
  SimSubject_Roles : list string;
  SimSubject_Attributes : gmap string string;
}.

Record policySimulationResourceInput := mkSimResource {
  SimResource_Type : string;
  SimResource_ID : string;
  SimResource_TenantID : string;
  SimResource_WorkspaceID : string;
  SimResource_Attributes : gmap string string;
}.

Record policySimulationContextInput := mkSimContext {
  SimContext_RequestPath : string;
  SimContext_RequestMethod : string;
  SimContext_Attributes : gmap string string;
}.

Record authzPolicySimulationRequest := mkSimRequest {
  Sim_Subject : policySimulationSubjectInput;
  Sim_Action : string;
  Sim_Resource : policySimulationResourceInput;
  Sim_Context : policySimulationContextInput;
  Sim_PolicySetID : string;
  Sim_TargetVersion : option Z;
  Sim_AuditEvent : bool;
}.

Record authzPolicySimulationPolicyResponse := mkSimPolicy {
  SimPolicy_Source : string;
  SimPolicy_PolicySetID : string;
  SimPolicy_Version : Z;
  SimPolicy_RolloutMode : string;
  SimPolicy_TargetVersion : option Z;
}.

Record authzPolicySimulationResponse := mkSimResponse {
  SimResponse_Decision : PolicyDecision;
  SimResponse_Trace : list PolicyTraceStep;
  SimResponse_Policy : authzPolicySimulationPolicyResponse;
}.

Definition normalizeSimulationList (values : list string) (lower : bool) : list string :=
  SortStrings (unique (nonempty_map (if lower then canon else TrimSpace) values)).

Section simulation.
Context `{MapRange, SortSlice, BundleDecoder} {T : Type} `{PolicyStore T}.

(** Keys that agree once normalized collapse, the last one visited winning. *)
Definition normalizeSimulationAttributes (attributes : gmap string string) : gmap string string :=
  collect (λ '(key, value), if blank key || blank value then None else Some (canon key, TrimSpace value))
    (map_range attributes).

(** [attributes[key] = firstNonEmpty(attributes[key], fallback)]. *)
Definition default_attribute (key fallback : string) (attributes : gmap string string) : gmap string string :=
  <[key := firstNonEmpty (attribute attributes key) fallback]> attributes.

Definition toSimulationPolicyInput (c : RequestContext) (now : Z) (request : authzPolicySimulationRequest) : PolicyInput :=
  let scope := ScopeFromContext (Req_Scope c) in
  let tenantID := Scope_TenantID scope in
  let workspaceID := Scope_WorkspaceID scope in
  let subject := Sim_Subject request in
  let resource := Sim_Resource request in
  let context := Sim_Context request in
  mkPolicyInput
    (mkPolicySubject (canon (SimSubject_Type subject)) (TrimSpace (SimSubject_ID subject))
       (firstNonEmpty (SimSubject_TenantID subject) tenantID)
       (firstNonEmpty (SimSubject_WorkspaceID subject) workspaceID)
       (normalizeSimulationList (SimSubject_Groups subject) false)
       (normalizeSimulationList (SimSubject_Roles subject) true)
       (normalizeSimulationAttributes (SimSubject_Attributes subject)))
    (canon (Sim_Action request))
    (mkPolicyResource (canon (SimResource_Type resource)) (TrimSpace (SimResource_ID resource))
       (firstNonEmpty (SimResource_TenantID resource) tenantID)
       (firstNonEmpty (SimResource_WorkspaceID resource) workspaceID)
       (normalizeSimulationAttributes (SimResource_Attributes resource)))
    (mkPolicyContext (TrimSpace (SimContext_RequestPath context))
       (ToUpper (TrimSpace (SimContext_RequestMethod context))) now
       (default_attribute policyContextWorkspaceIDKey workspaceID
         (default_attribute policyContextTenantIDKey tenantID
           (normalizeSimulationAttributes (SimContext_Attributes context))))).

(** The runtime of one stored version, compiled by the resolver. *)
Definition target_runtime (store : T) (r : policyResolver T) (ctx : Context) (policySetID : string)
    (version : AuthzPolicyVersion) (cache : versionCache) : result resolvedCentralPolicyRuntime * versionCache :=
  match compiledVersion r version cache with
  | (Err err, cache) => (Err (Wrap "compile target policy version" err), cache)
  | (Ok compiled, cache) =>
      let mode := match ps_GetAuthzPolicyRollout store ctx policySetID with
                  | Ok rollout => TrimSpace (Rollout_Mode rollout)
                  | Err _ => AuthzPolicyRolloutModeDisabled
                  end in
      (Ok (mkRuntime (Some (newCentralPolicyEngineFromCompiled (Some store) compiled)) (RouteRegistry compiled)
             "persisted_target_version" policySetID (Version_Version version) mode (zero_rollout "") None "" 0), cache)
  end.

Definition resolveSimulationRuntime (ctx : Context) (store : option T) (resolver : option (policyResolver T))
    (policySetID : string) (targetVersion : option Z) (cache : versionCache)
    : result resolvedCentralPolicyRuntime * versionCache :=
  let r := match resolver with Some r => r | None => newCentralPolicyRuntimeResolverWithPolicySet store policySetID end in
  match targetVersion with
  | None => Resolve (Some r) ctx cache
  | Some target =>
      match store with
      | None => (Err (Errorf "policy store is not configured"), cache)
      | Some store =>
          match ps_GetAuthzPolicyVersion store ctx policySetID target with
          | Err err => (Err err, cache)
          | Ok version => target_runtime store r ctx policySetID version cache
          end
      end
  end.

(** The audit record of a simulation is written to the sink after the answer. *)
Definition authzPolicySimulationHandler (store : option T) (resolver : option (policyResolver T))
    (c : RequestContext) (now : Z) (body : option authzPolicySimulationRequest) (cache : versionCache)
    : answer authzPolicySimulationResponse * versionCache :=
  match body with
  | None => (Failure 400 "invalid request body", cache)
  | Some request =>
      let policySetID := if blank (Sim_PolicySetID request) then defaultCentralPolicySetID
                         else TrimSpace (Sim_PolicySetID request) in
      if negb (pointer_ok (λ v, 0 <? v) (Sim_TargetVersion request))
      then (Failure 400 "target_version must be greater than zero", cache)
      else
        let input := toSimulationPolicyInput c now request in
        if blank (Input_Action input) then (Failure 400 "action is required", cache)
        else
          match resolveSimulationRuntime (Req_Scope c) store resolver policySetID (Sim_TargetVersion request) cache with
          | (Err err, cache) =>
              if errors_is err ErrNotFound then (Failure 404 "policy version not found", cache)
              else (Failure 500 "failed to resolve policy runtime", cache)
          | (Ok rt, cache) =>
              match DecideWithTrace (Runtime_Engine rt) (Req_Scope c) input with
              | (_, _, Some _) => (Failure 500 "failed to simulate policy decision", cache)
              | (decision, trace, None) =>
                  (Answer (mkSimResponse decision trace
                     (mkSimPolicy (Runtime_Source rt) (Runtime_PolicySetID rt) (Runtime_Version rt)
                        (Runtime_RolloutMode rt) (Sim_TargetVersion request))), cache)
              end
          end
  end.
End simulation.

(** ** Witnesses *)
#[local] Existing Instance canonical_range.
#[local] Existing Instance insertion_sort.
#[local] Existing Instance sample_decoder.
#[local] Existing Instance sample_hmac.
#[local] Existing Instance AuthzStore.sample_codec.

Definition sample_rollback : authzPolicyRollbackRequest := mkRollbackRequest " central " 1 "".
Definition sample_rollback_run :=
  authzPolicyRollbackHandler None 60 "e1" (AuthzMiddleware.sample_request "POST" "/v1/authz/policies/rollback")
    (Some sample_rollback) sample_state_4.

Lemma sample_state_4_wf : authz_wf sample_state_4.
Proof.
  apply (UpsertAuthzPolicyRollout_wf sample_ctx 7 AuthzStore.sample_request sample_created_2.1).
  2: apply is_ok_or; by vm_compute.
  apply (CreateAuthzPolicyVersion_wf sample_ctx 7 sample_version sample_created_1.1 _ sample_created_2.2).
  2: rewrite <-surjective_pairing; apply is_ok_or; by vm_compute.
  apply (CreateAuthzPolicyVersion_wf sample_ctx 7 sample_version sample_state_1 _ sample_created_1.2).
  2: rewrite <-surjective_pairing; apply is_ok_or; by vm_compute.
  apply (UpsertAuthzPolicySet_wf sample_ctx 7 sample_set empty_authz_state).
  2: apply is_ok_or; by vm_compute.
  apply empty_authz_wf.
Qed.

Lemma authzPolicyRollbackHandler_correct_witness :
  let run := authzPolicyRollbackHandler None 60 "e1" (AuthzMiddleware.sample_request "POST" "/v1/authz/policies/rollback")
               (Some sample_rollback) sample_state_4 in
  (∃ r, run.1 = Answer r ∧ RollbackResponse_ActiveVersion r = 1 ∧ RollbackResponse_PreviousEffective r = Some 2) ∧
  (∀ status message, run.1 = Failure status message → run.2 = sample_state_4).
Proof.
  split.
  - eexists. split; [by vm_compute|by vm_compute].
  - refine (proj1 (authzPolicyRollbackHandler_correct None 60 "e1"
      (AuthzMiddleware.sample_request "POST" "/v1/authz/policies/rollback") sample_rollback sample_state_4 sample_state_4_wf)).
Defined.
