(* ===== verification/OneShot.v ===== *)
(** * One-shot login records and the webhook ledger
    (internal/db/memory_enterprise_auth.go)

    SAML relay states and OAuth transactions are consumed at most once; webhook
    deliveries are claimed so that one handler at a time applies an event.  Each
    method runs under the store's mutex. *)
From S2P Require Import Prelude GoStrings GoCollections GoTime Runs Scope AuthzRecords TenancyRecords.

(** ** Records *)
Record IdentityConnection := mkConnection {
  Connection_ID : string;
  Connection_OrgID : string;
  Connection_Provider : string;
  Connection_Type : string;
  Connection_WorkOSConnectionID : string;
  Connection_Status : string;
  Connection_GroupRoleMap : gmap string string;
  Connection_SSORequired : bool;
  Connection_JITProvisioningEnabled : bool;
  Connection_EntityID : string;
  Connection_SSOURL : string;
  Connection_CertificatePEM : string;
  Connection_AttributeMapping : gmap string string;
  Connection_SCIMBearerTokenHash : string;
  Connection_CreatedAt : Z;
  Connection_UpdatedAt : Z;
}.

Record SAMLRelayState := mkRelay {
  Relay_Handle : string;
  Relay_ConnectionID : string;
  Relay_SAMLRequestID : string;
  Relay_ReturnTo : string;
  Relay_Intent : string;
  Relay_ExpiresAt : Z;
  Relay_CreatedAt : Z;
  Relay_ConsumedAt : option Z;
}.

Record OAuthTransaction := mkTxn {
  Txn_Nonce : string;
  Txn_CookieToken : string;
  Txn_Intent : string;
  Txn_ReturnTo : string;
  Txn_ExpectedUserID : string;
  Txn_ExpectedSessionID : string;
  Txn_ExpiresAt : Z;
  Txn_CreatedAt : Z;
  Txn_ConsumedAt : option Z;
}.

Record WebhookEvent := mkWebhookEvent {
  Webhook_Provider : string;
  Webhook_EventID : string;
  Webhook_EventType : string;
  Webhook_ReceivedAt : Z;
}.

Inductive WebhookEventStatus := WebhookEventClaimed | WebhookEventProcessing | WebhookEventProcessed.

#[export] Instance WebhookEventStatus_eq_dec : EqDecision WebhookEventStatus.
Proof. solve_decision. Defined.

Definition WebhookProcessingReclaimAfter : Z := 5 * Minute.
Definition WebhookEventRetention : Z := 30 * 24 * Hour.

Record webhookEventRecord := mkWebhookRecord {
  record_event : WebhookEvent;
  record_status : WebhookEventStatus;
  record_claimToken : string;
  record_claimedAt : Z;
}.

Record OneShotState := mkOneShot {
  identityConnections : gmap string IdentityConnection;
  samlRelayStates : gmap string SAMLRelayState;
  oauthTransactions : gmap string OAuthTransaction;
  webhookEvents : gmap string webhookEventRecord;
}.

Definition with_relays m s := mkOneShot (identityConnections s) m (oauthTransactions s) (webhookEvents s).
Definition with_txns m s := mkOneShot (identityConnections s) (samlRelayStates s) m (webhookEvents s).
Definition with_webhooks m s := mkOneShot (identityConnections s) (samlRelayStates s) (oauthTransactions s) m.

(** ** SAML relay states *)
Definition CreateSAMLRelayState (now : Z) (state : SAMLRelayState) (s : OneShotState)
    : result (OneShotState * SAMLRelayState) :=
  let handle := TrimSpace (Relay_Handle state) in
  _ ← guard_err (bool_decide (handle ≠ "")) (Errorf "saml relay handle is required");
  let connectionID := TrimSpace (Relay_ConnectionID state) in
  let requestID := TrimSpace (Relay_SAMLRequestID state) in
  _ ← guard_err (bool_decide (connectionID ≠ "") && bool_decide (requestID ≠ ""))
        (Errorf "saml relay state requires connection_id and saml_request_id");
  _ ← guard_err (negb (IsZero (Relay_ExpiresAt state))) (Errorf "saml relay state requires expires_at");
  let stored := mkRelay handle connectionID requestID (Relay_ReturnTo state) (Relay_Intent state)
                  (Relay_ExpiresAt state) (or_time (Relay_CreatedAt state) now) (Relay_ConsumedAt state) in
  _ ← guard_err (bool_decide (samlRelayStates s !! handle = None)) ErrConflict;
  match size (filter (λ '(_, c), Connection_ID c = connectionID) (identityConnections s)) with
  | 0%nat => Err ErrNotFound
  | 1%nat => mret (with_relays (<[handle := stored]> (samlRelayStates s)) s, stored)
  | _ => Err ErrConflict
  end.

(** The outcome and the state: expired entries are swept either way. *)
Definition ConsumeSAMLRelayState (rawHandle : string) (now : Z) (s : OneShotState)
    : result SAMLRelayState * OneShotState :=
  let handle := TrimSpace rawHandle in
  if decide (handle = "") then (Err ErrNotFound, s)
  else
    let swept := filter (λ '(_, x), After (Relay_ExpiresAt x) now = true) (samlRelayStates s) in
    let s := with_relays swept s in
    match swept !! handle with
    | None => (Err ErrNotFound, s)
    | Some state =>
        match Relay_ConsumedAt state with
        | Some _ => (Err ErrNotFound, s)
        | None =>
            (Ok (mkRelay (Relay_Handle state) (Relay_ConnectionID state) (Relay_SAMLRequestID state)
                   (Relay_ReturnTo state) (Relay_Intent state) (Relay_ExpiresAt state) (Relay_CreatedAt state)
                   (Some now)),
             with_relays (delete handle swept) s)
        end
    end.

(** ** OAuth transactions *)
Definition CreateOAuthTransaction (now : Z) (txn : OAuthTransaction) (s : OneShotState)
    : result (OneShotState * OAuthTransaction) :=
  let nonce := TrimSpace (Txn_Nonce txn) in
  _ ← guard_err (bool_decide (nonce ≠ "")) (Errorf "oauth transaction nonce is required");
  let cookieToken := TrimSpace (Txn_CookieToken txn) in
  _ ← guard_err (bool_decide (cookieToken ≠ "")) (Errorf "oauth transaction cookie token is required");
  _ ← guard_err (negb (IsZero (Txn_ExpiresAt txn))) (Errorf "oauth transaction requires expires_at");
  let stored := mkTxn nonce cookieToken (TrimSpace (Txn_Intent txn)) (Txn_ReturnTo txn) (Txn_ExpectedUserID txn)
                  (Txn_ExpectedSessionID txn) (Txn_ExpiresAt txn) (or_time (Txn_CreatedAt txn) now) None in
  _ ← guard_err (bool_decide (oauthTransactions s !! nonce = None)) ErrConflict;
  mret (with_txns (<[nonce := stored]> (oauthTransactions s)) s, stored).

Definition ConsumeOAuthTransaction (rawNonce rawCookieToken : string) (now : Z) (s : OneShotState)
    : result OAuthTransaction * OneShotState :=
  let nonce := TrimSpace rawNonce in
  let cookieToken := TrimSpace rawCookieToken in
  if bool_decide (nonce = "") || bool_decide (cookieToken = "") then (Err ErrNotFound, s)
  else
    let swept := filter (λ '(_, x), After (Txn_ExpiresAt x) now = true) (oauthTransactions s) in
    let s := with_txns swept s in
    match swept !! nonce with
    | None => (Err ErrNotFound, s)
    | Some txn =>
        if bool_decide (is_Some (Txn_ConsumedAt txn)) then (Err ErrNotFound, s)
        else if negb (bool_decide (Txn_CookieToken txn = cookieToken)) then (Err ErrNotFound, s)
        else
          (Ok (mkTxn (Txn_Nonce txn) (Txn_CookieToken txn) (Txn_Intent txn) (Txn_ReturnTo txn)
                 (Txn_ExpectedUserID txn) (Txn_ExpectedSessionID txn) (Txn_ExpiresAt txn) (Txn_CreatedAt txn)
                 (Some now)),
           with_txns (delete nonce swept) s)
    end.

(** ** Webhook deliveries *)
Definition webhookEventKey (provider eventID : string) : string := provider +:+ String "000"%char eventID.

(** [fresh] is the token [newWebhookClaimToken] draws, or [None] when it fails;
    [clock] is [time.Now().UTC()]. *)
Definition BeginWebhookEvent (clock : Z) (fresh : option string) (event : WebhookEvent) (now : Z) (s : OneShotState)
    : result (WebhookEventStatus * string) * OneShotState :=
  let provider := TrimSpace (Webhook_Provider event) in
  let eventID := TrimSpace (Webhook_EventID event) in
  if bool_decide (provider = "") || bool_decide (eventID = "")
  then (Err (Errorf "webhook event requires provider and event_id"), s)
  else
    let now := or_time now clock in
    let key := webhookEventKey provider eventID in
    let existing := webhookEvents s !! key in
    let processed := match existing with Some r => bool_decide (record_status r = WebhookEventProcessed) | None => false end in
    let in_flight := match existing with
                     | Some r => now - record_claimedAt r <? WebhookProcessingReclaimAfter
                     | None => false
                     end in
    if processed then (Ok (WebhookEventProcessed, ""), s)
    else if in_flight then (Ok (WebhookEventProcessing, ""), s)
    else
      match fresh with
      | None => (Err (Errorf "webhook claim token"), s)
      | Some claimToken =>
          let record := mkWebhookRecord (mkWebhookEvent provider eventID (TrimSpace (Webhook_EventType event)) now)
                          WebhookEventProcessing claimToken now in
          let cutoff := now - WebhookEventRetention in
          let events := filter (λ '(_, r), Before (record_claimedAt r) cutoff = false)
                          (<[key := record]> (webhookEvents s)) in
          (Ok (WebhookEventClaimed, claimToken), with_webhooks events s)
      end.

(** The claim of a key, when the token is its current one. *)
Definition held_claim (provider eventID claimToken : string) (s : OneShotState) : option (string * webhookEventRecord) :=
  let provider := TrimSpace provider in
  let eventID := TrimSpace eventID in
  if bool_decide (provider = "") || bool_decide (eventID = "") || bool_decide (claimToken = "") then None
  else
    let key := webhookEventKey provider eventID in
    match webhookEvents s !! key with
    | Some r => if decide (record_claimToken r = claimToken) then Some (key, r) else None
    | None => None
    end.

Definition CompleteWebhookEvent (provider eventID claimToken : string) (s : OneShotState) : OneShotState :=
  match held_claim provider eventID claimToken s with
  | None => s
  | Some (key, r) =>
      with_webhooks (<[key := mkWebhookRecord (record_event r) WebhookEventProcessed (record_claimToken r)
                                (record_claimedAt r)]> (webhookEvents s)) s
  end.

Definition DeleteWebhookEvent (provider eventID claimToken : string) (s : OneShotState) : OneShotState :=
  match held_claim provider eventID claimToken s with
  | None => s
  | Some (key, _) => with_webhooks (delete key (webhookEvents s)) s
  end.

(** ** Consumed at most once *)
Inductive login_op :=
| OpCreateTxn (now : Z) (txn : OAuthTransaction)
| OpConsumeTxn (nonce cookieToken : string) (now : Z)
| OpCreateRelay (now : Z) (state : SAMLRelayState)
| OpConsumeRelay (handle : string) (now : Z).

Definition login_step (s : OneShotState) (op : login_op) : OneShotState :=
  match op with
  | OpCreateTxn now txn => match CreateOAuthTransaction now txn s with Ok (s', _) => s' | Err _ => s end
  | OpConsumeTxn nonce cookie now => (ConsumeOAuthTransaction nonce cookie now s).2
  | OpCreateRelay now state => match CreateSAMLRelayState now state s with Ok (s', _) => s' | Err _ => s end
  | OpConsumeRelay handle now => (ConsumeSAMLRelayState handle now s).2
  end.

(** The call creates, or successfully consumes, the transaction [nonce]. *)
Definition creates_txn (nonce : string) (op : login_op) (s : OneShotState) : bool :=
  match op with
  | OpCreateTxn now txn => bool_decide (TrimSpace (Txn_Nonce txn) = nonce) && is_ok (CreateOAuthTransaction now txn s)
  | _ => false
  end.
Definition consumes_txn (nonce : string) (op : login_op) (s : OneShotState) : bool :=
  match op with
  | OpConsumeTxn raw cookie now =>
      bool_decide (TrimSpace raw = nonce) && is_ok (ConsumeOAuthTransaction raw cookie now s).1
  | _ => false
  end.
Definition creates_relay (handle : string) (op : login_op) (s : OneShotState) : bool :=
  match op with
  | OpCreateRelay now state => bool_decide (TrimSpace (Relay_Handle state) = handle) && is_ok (CreateSAMLRelayState now state s)
  | _ => false
  end.
Definition consumes_relay (handle : string) (op : login_op) (s : OneShotState) : bool :=
  match op with
  | OpConsumeRelay raw now => bool_decide (TrimSpace raw = handle) && is_ok (ConsumeSAMLRelayState raw now s).1
  | _ => false
  end.

Definition present {A} (m : gmap string A) (k : string) : nat := count (bool_decide (is_Some (m !! k))).

Lemma present_le {A} (m m' : gmap string A) k :
  (∀ x, m !! k = Some x → is_Some (m' !! k)) → (present m k ≤ present m' k)%nat.
Proof.
  intros Hm. unfold present. destruct (m !! k) as [x|] eqn:E; cbn; [|lia].
  destruct (Hm x eq_refl) as [y ->]. cbn. lia.
Qed.

Lemma present_filter {A} (P : string * A → Prop) `{∀ x, Decision (P x)} (m : gmap string A) k :
  (present (filter P m) k ≤ present m k)%nat.
Proof. apply present_le. intros x Hx. apply map_lookup_filter_Some in Hx as [Hx _]. by eexists. Qed.

Lemma present_delete {A} (m : gmap string A) k : present (delete k m) k = 0%nat.
Proof. unfold present. by rewrite lookup_delete_eq. Qed.
Lemma present_delete_le {A} (m : gmap string A) k j : (present (delete j m) k ≤ present m k)%nat.
Proof. apply present_le. intros x Hx. apply lookup_delete_Some in Hx as [_ Hx]. by eexists. Qed.
Lemma present_insert {A} (m : gmap string A) k x : present (<[k := x]> m) k = 1%nat.
Proof. unfold present. by rewrite lookup_insert_eq. Qed.
Lemma present_insert_ne {A} (m : gmap string A) k j x : j ≠ k → present (<[j := x]> m) k = present m k.
Proof. intros Hne. unfold present. by rewrite lookup_insert_ne. Qed.
Lemma present_Some {A} (m : gmap string A) k x : m !! k = Some x → present m k = 1%nat.
Proof. unfold present. by intros ->. Qed.

Lemma ConsumeOAuthTransaction_Ok raw cookie now s x s' :
  ConsumeOAuthTransaction raw cookie now s = (Ok x, s') →
  ∃ y, oauthTransactions s !! TrimSpace raw = Some y ∧ now < Txn_ExpiresAt y ∧ Txn_ConsumedAt y = None ∧
    Txn_CookieToken y = TrimSpace cookie ∧ TrimSpace raw ≠ "" ∧ TrimSpace cookie ≠ "" ∧
    x = mkTxn (Txn_Nonce y) (Txn_CookieToken y) (Txn_Intent y) (Txn_ReturnTo y) (Txn_ExpectedUserID y)
          (Txn_ExpectedSessionID y) (Txn_ExpiresAt y) (Txn_CreatedAt y) (Some now) ∧
    oauthTransactions s' !! TrimSpace raw = None.
Proof.
  unfold ConsumeOAuthTransaction. destruct (_ || _) eqn:E0; [done|]. boolify.
  destruct (filter _ (oauthTransactions s) !! TrimSpace raw) as [y|] eqn:E; [|done].
  apply map_lookup_filter_Some in E as [E Ha]. case_bool_decide as Hc; [done|].
  destruct (negb _) eqn:Hn; [done|]. boolify. intros [= <- <-]. exists y.
  split_and!; try done; [by apply Z.ltb_lt|by apply eq_None_not_Some|].
  cbn. by rewrite lookup_delete_eq.
Qed.

Lemma CreateOAuthTransaction_Ok now txn s s' x :
  CreateOAuthTransaction now txn s = Ok (s', x) →
  oauthTransactions s !! TrimSpace (Txn_Nonce txn) = None ∧ TrimSpace (Txn_Nonce txn) ≠ "" ∧
  x = mkTxn (TrimSpace (Txn_Nonce txn)) (TrimSpace (Txn_CookieToken txn)) (TrimSpace (Txn_Intent txn))
        (Txn_ReturnTo txn) (Txn_ExpectedUserID txn) (Txn_ExpectedSessionID txn) (Txn_ExpiresAt txn)
        (or_time (Txn_CreatedAt txn) now) None ∧
  s' = with_txns (<[TrimSpace (Txn_Nonce txn) := x]> (oauthTransactions s)) s.
Proof. unfold CreateOAuthTransaction. intros H. inv_ok. boolify. done. Qed.

(** The rows the creating calls store. *)
Definition created_txn (now : Z) (txn : OAuthTransaction) : OAuthTransaction :=
  mkTxn (TrimSpace (Txn_Nonce txn)) (TrimSpace (Txn_CookieToken txn)) (TrimSpace (Txn_Intent txn)) (Txn_ReturnTo txn) (Txn_ExpectedUserID txn)
    (Txn_ExpectedSessionID txn) (Txn_ExpiresAt txn) (if IsZero (Txn_CreatedAt txn) then now else Txn_CreatedAt txn) None.
Definition created_relay (now : Z) (state : SAMLRelayState) : SAMLRelayState :=
  mkRelay (TrimSpace (Relay_Handle state)) (TrimSpace (Relay_ConnectionID state)) (TrimSpace (Relay_SAMLRequestID state)) (Relay_ReturnTo state)
    (Relay_Intent state) (Relay_ExpiresAt state) (if IsZero (Relay_CreatedAt state) then now else Relay_CreatedAt state) (Relay_ConsumedAt state).
(** The records the consuming calls return. *)
Definition consumed_txn (now : Z) (y : OAuthTransaction) : OAuthTransaction :=
  mkTxn (Txn_Nonce y) (Txn_CookieToken y) (Txn_Intent y) (Txn_ReturnTo y) (Txn_ExpectedUserID y) (Txn_ExpectedSessionID y) (Txn_ExpiresAt y)
    (Txn_CreatedAt y) (Some now).
Definition consumed_relay (now : Z) (y : SAMLRelayState) : SAMLRelayState :=
  mkRelay (Relay_Handle y) (Relay_ConnectionID y) (Relay_SAMLRequestID y) (Relay_ReturnTo y) (Relay_Intent y) (Relay_ExpiresAt y)
    (Relay_CreatedAt y) (Some now).

Lemma CreateSAMLRelayState_Ok now state s s' x :
  CreateSAMLRelayState now state s = Ok (s', x) →
  samlRelayStates s !! TrimSpace (Relay_Handle state) = None ∧ x = created_relay now state ∧
  s' = with_relays (<[TrimSpace (Relay_Handle state) := x]> (samlRelayStates s)) s.
Proof.
  unfold CreateSAMLRelayState. intros H. inv_ok. boolify.
  repeat case_match; try discriminate. by inv_ok.
Qed.

Lemma ConsumeSAMLRelayState_Ok raw now s x s' :
  ConsumeSAMLRelayState raw now s = (Ok x, s') →
  ∃ y, samlRelayStates s !! TrimSpace raw = Some y ∧ now < Relay_ExpiresAt y ∧ Relay_ConsumedAt y = None ∧ TrimSpace raw ≠ "" ∧
    x = mkRelay (Relay_Handle y) (Relay_ConnectionID y) (Relay_SAMLRequestID y) (Relay_ReturnTo y)
          (Relay_Intent y) (Relay_ExpiresAt y) (Relay_CreatedAt y) (Some now) ∧
    samlRelayStates s' !! TrimSpace raw = None.
Proof.
  unfold ConsumeSAMLRelayState. destruct (decide _); [done|].
  destruct (filter _ (samlRelayStates s) !! TrimSpace raw) as [y|] eqn:E; [|done].
  apply map_lookup_filter_Some in E as [E Ha]. destruct (Relay_ConsumedAt y) eqn:Hc; [done|].
  intros [= <- <-]. exists y. split_and!; try done; [by apply Z.ltb_lt|].
  cbn. by rewrite lookup_delete_eq.
Qed.

Definition redeemable_txn (raw cookie : string) (now : Z) (s : OneShotState) (y : OAuthTransaction) : Prop :=
  oauthTransactions s !! TrimSpace raw = Some y ∧ now < Txn_ExpiresAt y ∧ Txn_ConsumedAt y = None ∧
  Txn_CookieToken y = TrimSpace cookie ∧ TrimSpace raw ≠ "" ∧ TrimSpace cookie ≠ "".
Definition redeemable_relay (raw : string) (now : Z) (s : OneShotState) (y : SAMLRelayState) : Prop :=
  samlRelayStates s !! TrimSpace raw = Some y ∧ now < Relay_ExpiresAt y ∧ Relay_ConsumedAt y = None ∧
  TrimSpace raw ≠ "".

Lemma ConsumeOAuthTransaction_redeems raw cookie now s y :
  redeemable_txn raw cookie now s y → ∃ x s', ConsumeOAuthTransaction raw cookie now s = (Ok x, s').
Proof.
  intros (Hy & Hlt & Hc & Hk & Hr & Hck). unfold ConsumeOAuthTransaction.
  rewrite (bool_decide_eq_false_2 _ Hr), (bool_decide_eq_false_2 _ Hck). cbn.
  rewrite (map_lookup_filter_Some_2 _ _ _ y Hy) by (by apply Z.ltb_lt). rewrite Hc. cbn.
  rewrite (bool_decide_eq_true_2 (Txn_CookieToken y = _)) by assumption. by do 2 eexists.
Qed.
Lemma ConsumeSAMLRelayState_redeems raw now s y :
  redeemable_relay raw now s y → ∃ x s', ConsumeSAMLRelayState raw now s = (Ok x, s').
Proof.
  intros (Hy & Hlt & Hc & Hr). unfold ConsumeSAMLRelayState. rewrite decide_False by assumption.
  cbn. rewrite (map_lookup_filter_Some_2 _ _ _ y Hy) by (by apply Z.ltb_lt). rewrite Hc. by do 2 eexists.
Qed.

(** What a consuming call leaves of the entry is at most what was there. *)
Lemma consume_txn_present raw cookie now s nonce :
  (present (oauthTransactions (ConsumeOAuthTransaction raw cookie now s).2) nonce ≤
   present (oauthTransactions s) nonce)%nat.
Proof.
  unfold ConsumeOAuthTransaction. repeat case_match; cbn; try lia; try apply present_filter.
  etransitivity; [apply present_delete_le|apply present_filter].
Qed.
Lemma consume_relay_present raw now s handle :
  (present (samlRelayStates (ConsumeSAMLRelayState raw now s).2) handle ≤ present (samlRelayStates s) handle)%nat.
Proof.
  unfold ConsumeSAMLRelayState. repeat case_match; cbn; try lia; try apply present_filter.
  etransitivity; [apply present_delete_le|apply present_filter].
Qed.

Lemma consume_txn_relays raw cookie now s :
  samlRelayStates (ConsumeOAuthTransaction raw cookie now s).2 = samlRelayStates s.
Proof. unfold ConsumeOAuthTransaction. by repeat case_match. Qed.
Lemma consume_relay_txns raw now s :
  oauthTransactions (ConsumeSAMLRelayState raw now s).2 = oauthTransactions s.
Proof. unfold ConsumeSAMLRelayState. by repeat case_match. Qed.

Lemma txn_step nonce op s :
  (count (consumes_txn nonce op s) + present (oauthTransactions (login_step s op)) nonce ≤
   count (creates_txn nonce op s) + present (oauthTransactions s) nonce)%nat.
Proof.
  destruct op as [now txn|raw cookie now|now state|raw now]; cbn.
  - destruct (CreateOAuthTransaction now txn s) as [[s' x]|] eqn:E; cbn; [|lia].
    apply CreateOAuthTransaction_Ok in E as (_ & _ & _ & ->). cbn. case_bool_decide as Hn; cbn.
    + subst nonce. rewrite present_insert. lia.
    + by rewrite present_insert_ne.
  - destruct (ConsumeOAuthTransaction raw cookie now s) as [r s'] eqn:E.
    pose proof (consume_txn_present raw cookie now s nonce) as Hle. rewrite E in Hle. cbn in Hle |- *.
    destruct r as [x|]; cbn; [|by rewrite andb_false_r].
    apply ConsumeOAuthTransaction_Ok in E as (y & Hy & _ & _ & _ & _ & _ & _ & Hnone).
    case_bool_decide as Hn; cbn; [|lia]. rewrite Hn in Hy, Hnone. rewrite (present_Some _ _ _ Hy).
    unfold present. rewrite Hnone. cbn. lia.
  - destruct (CreateSAMLRelayState now state s) as [[s' x]|] eqn:E; [|lia].
    by apply CreateSAMLRelayState_Ok in E as (_ & _ & ->).
  - by rewrite consume_relay_txns.
Qed.

Lemma relay_step handle op s :
  (count (consumes_relay handle op s) + present (samlRelayStates (login_step s op)) handle ≤
   count (creates_relay handle op s) + present (samlRelayStates s) handle)%nat.
Proof.
  destruct op as [now txn|raw cookie now|now state|raw now]; cbn.
  - destruct (CreateOAuthTransaction now txn s) as [[s' x]|] eqn:E; [|lia].
    by apply CreateOAuthTransaction_Ok in E as (_ & _ & _ & ->).
  - by rewrite consume_txn_relays.
  - destruct (CreateSAMLRelayState now state s) as [[s' x]|] eqn:E; cbn; [|rewrite andb_false_r; cbn; lia].
    apply CreateSAMLRelayState_Ok in E as (_ & _ & ->). cbn. case_bool_decide as Hn; cbn.
    + subst handle. rewrite present_insert. lia.
    + by rewrite present_insert_ne.
  - destruct (ConsumeSAMLRelayState raw now s) as [r s'] eqn:E.
    pose proof (consume_relay_present raw now s handle) as Hle. rewrite E in Hle. cbn in Hle |- *.
    destruct r as [x|]; cbn; [|by rewrite andb_false_r].
    apply ConsumeSAMLRelayState_Ok in E as (y & Hy & _ & _ & _ & _ & Hnone).
    case_bool_decide as Hn; cbn; [|lia]. rewrite Hn in Hy, Hnone. rewrite (present_Some _ _ _ Hy).
    unfold present. rewrite Hnone. cbn. lia.
Qed.

(** A row of a run was there at the start, or was created in the run. *)
Lemma txn_step_origin nonce op s y : oauthTransactions (login_step s op) !! nonce = Some y →
  oauthTransactions s !! nonce = Some y ∨ ∃ t txn, op = OpCreateTxn t txn ∧ TrimSpace (Txn_Nonce txn) = nonce ∧ y = created_txn t txn.
Proof.
  destruct op as [t txn|raw cookie t|t state|raw t]; cbn.
  - destruct (CreateOAuthTransaction t txn s) as [[s' x]|] eqn:E; [|by left]. apply CreateOAuthTransaction_Ok in E as (_ & _ & -> & ->). cbn.
    intros [[<- <-]|[_ Hy]]%lookup_insert_Some; [right; by exists t, txn|by left].
  - unfold ConsumeOAuthTransaction. intros Hy. left. revert Hy. repeat case_match; cbn; try done; rewrite ?lookup_delete_Some, ?map_lookup_filter_Some; tauto.
  - destruct (CreateSAMLRelayState t state s) as [[s' x]|] eqn:E; [|by left]. apply CreateSAMLRelayState_Ok in E as (_ & _ & ->). by left.
  - rewrite consume_relay_txns. by left.
Qed.
Lemma relay_step_origin handle op s y : samlRelayStates (login_step s op) !! handle = Some y →
  samlRelayStates s !! handle = Some y ∨ ∃ t state, op = OpCreateRelay t state ∧ TrimSpace (Relay_Handle state) = handle ∧ y = created_relay t state.
Proof.
  destruct op as [t txn|raw cookie t|t state|raw t]; cbn.
  - destruct (CreateOAuthTransaction t txn s) as [[s' x]|] eqn:E; [|by left]. apply CreateOAuthTransaction_Ok in E as (_ & _ & -> & ->). by left.
  - rewrite consume_txn_relays. by left.
  - destruct (CreateSAMLRelayState t state s) as [[s' x]|] eqn:E; [|by left]. apply CreateSAMLRelayState_Ok in E as (_ & -> & ->). cbn.
    intros [[<- <-]|[_ Hy]]%lookup_insert_Some; [right; by exists t, state|by left].
  - unfold ConsumeSAMLRelayState. intros Hy. left. revert Hy. repeat case_match; cbn; try done; rewrite ?lookup_delete_Some, ?map_lookup_filter_Some; tauto.
Qed.
Lemma txn_origin nonce y ops : ∀ s, oauthTransactions (run login_step ops s) !! nonce = Some y →
  oauthTransactions s !! nonce = Some y ∨ ∃ t txn, OpCreateTxn t txn ∈ ops ∧ TrimSpace (Txn_Nonce txn) = nonce ∧ y = created_txn t txn.
Proof.
  induction ops as [|op ops IH]; intros s Hy; [by left|]. destruct (IH _ Hy) as [[?|(t & txn & -> & ?)]%txn_step_origin|(t & txn & ? & ?)]; [by left| |];
    right; exists t, txn; (split; [set_solver|done]).
Qed.
Lemma relay_origin handle y ops : ∀ s, samlRelayStates (run login_step ops s) !! handle = Some y →
  samlRelayStates s !! handle = Some y ∨ ∃ t state, OpCreateRelay t state ∈ ops ∧ TrimSpace (Relay_Handle state) = handle ∧ y = created_relay t state.
Proof.
  induction ops as [|op ops IH]; intros s Hy; [by left|]. destruct (IH _ Hy) as [[?|(t & state & -> & ?)]%relay_step_origin|(t & state & ? & ?)]; [by left| |];
    right; exists t, state; (split; [set_solver|done]).
Qed.

(** C33.  In any run of login calls, the SAML handle or OAuth nonce is redeemed
    at most once per successful creation of it (once more if the store already
    held it at the start).  A redemption returns, with every field, the record
    that was created in the run (or held at the start), only before it expires,
    only while it is unconsumed and, for OAuth, only against the browser token it
    was created with, and takes it from the store; every other attempt, and no
    such one, is [ErrNotFound]. *)
Theorem login_records_are_one_shot ops s key raw cookie now :
  let s1 := run login_step ops s in
  (tally login_step (consumes_txn key) ops s ≤ tally login_step (creates_txn key) ops s + present (oauthTransactions s) key)%nat ∧
  (tally login_step (consumes_relay key) ops s ≤ tally login_step (creates_relay key) ops s + present (samlRelayStates s) key)%nat ∧
  match ConsumeOAuthTransaction raw cookie now s1 with
  | (Ok x, s') =>
      ∃ y, redeemable_txn raw cookie now s1 y ∧ x = consumed_txn now y ∧ oauthTransactions s' !! TrimSpace raw = None ∧
        (oauthTransactions s !! TrimSpace raw = Some y ∨
         ∃ t txn, OpCreateTxn t txn ∈ ops ∧ TrimSpace (Txn_Nonce txn) = TrimSpace raw ∧
           TrimSpace (Txn_CookieToken txn) = TrimSpace cookie ∧ y = created_txn t txn)
  | (Err e, _) => e = ErrNotFound ∧ ∀ y, ¬ redeemable_txn raw cookie now s1 y
  end ∧
  match ConsumeSAMLRelayState raw now s1 with
  | (Ok x, s') =>
      ∃ y, redeemable_relay raw now s1 y ∧ x = consumed_relay now y ∧ samlRelayStates s' !! TrimSpace raw = None ∧
        (samlRelayStates s !! TrimSpace raw = Some y ∨
         ∃ t state, OpCreateRelay t state ∈ ops ∧ TrimSpace (Relay_Handle state) = TrimSpace raw ∧ y = created_relay t state)
  | (Err e, _) => e = ErrNotFound ∧ ∀ y, ¬ redeemable_relay raw now s1 y
  end.
Proof.
  cbv zeta. split_and!.
  - pose proof (tally_le login_step (λ _, True) (λ _, True) (λ s, present (oauthTransactions s) key) (consumes_txn key)
      (creates_txn key) ltac:(auto) ltac:(auto using txn_step) ops s (Forall_true _ _ (λ _, I)) I) as H. cbn beta in H. lia.
  - pose proof (tally_le login_step (λ _, True) (λ _, True) (λ s, present (samlRelayStates s) key) (consumes_relay key)
      (creates_relay key) ltac:(auto) ltac:(auto using relay_step) ops s (Forall_true _ _ (λ _, I)) I) as H. cbn beta in H. lia.
  - destruct (ConsumeOAuthTransaction raw cookie now _) as [[x|e] s'] eqn:E.
    + apply ConsumeOAuthTransaction_Ok in E as (y & Hy & ? & ? & Hc & ? & ? & -> & ?). exists y. split; [done|]. split; [done|]. split; [done|].
      destruct (txn_origin _ _ _ _ Hy) as [?|(t & txn & ? & ? & ->)]; [by left|]. right. by exists t, txn.
    + split; [unfold ConsumeOAuthTransaction in E; repeat case_match; congruence|].
      intros y Hy. apply ConsumeOAuthTransaction_redeems in Hy as (x & s'' & Hy). congruence.
  - destruct (ConsumeSAMLRelayState raw now _) as [[x|e] s'] eqn:E.
    + apply ConsumeSAMLRelayState_Ok in E as (y & Hy & ? & ? & ? & -> & ?). exists y. split; [done|]. split; [done|]. split; [done|].
      by apply relay_origin.
    + split; [unfold ConsumeSAMLRelayState in E; repeat case_match; congruence|].
      intros y Hy. apply ConsumeSAMLRelayState_redeems in Hy as (x & s'' & Hy). congruence.
Qed.

(** ** Webhook claims *)
Definition event_key (provider eventID : string) : string := webhookEventKey (TrimSpace provider) (TrimSpace eventID).
Definition deliverable (event : WebhookEvent) (key : string) : Prop :=
  TrimSpace (Webhook_Provider event) ≠ "" ∧ TrimSpace (Webhook_EventID event) ≠ "" ∧
  event_key (Webhook_Provider event) (Webhook_EventID event) = key.

Inductive webhook_op :=
| OpBegin (clock : Z) (fresh : option string) (event : WebhookEvent) (now : Z)
| OpComplete (provider eventID claimToken : string)
| OpDelete (provider eventID claimToken : string).

Definition webhook_step (s : OneShotState) (op : webhook_op) : OneShotState :=
  match op with
  | OpBegin clock fresh event now => (BeginWebhookEvent clock fresh event now s).2
  | OpComplete provider eventID token => CompleteWebhookEvent provider eventID token s
  | OpDelete provider eventID token => DeleteWebhookEvent provider eventID token s
  end.

(** The call claims the key. *)
Definition claims_key (key : string) (op : webhook_op) (s : OneShotState) : bool :=
  match op with
  | OpBegin clock fresh event now =>
      bool_decide (event_key (Webhook_Provider event) (Webhook_EventID event) = key) &&
      match (BeginWebhookEvent clock fresh event now s).1 with
      | Ok (status, _) => bool_decide (status = WebhookEventClaimed)
      | Err _ => false
      end
  | _ => false
  end.
(** The calls that leave a claim of [key] by [token] at [t] alone: deliveries
    before the claim is stale (of other keys: before it is past retention), and
    no roll-back by the claim's own holder. *)
Definition undisturbed (key token : string) (t : Z) (op : webhook_op) : Prop :=
  match op with
  | OpBegin clock _ event now =>
      or_time now clock ≤ t + WebhookEventRetention ∧
      (event_key (Webhook_Provider event) (Webhook_EventID event) = key →
       or_time now clock < t + WebhookProcessingReclaimAfter)
  | OpComplete _ _ _ => True
  | OpDelete provider eventID k => event_key provider eventID = key → k ≠ token
  end.

Definition claim_held (key token : string) (t : Z) (s : OneShotState) : Prop :=
  ∃ r, webhookEvents s !! key = Some r ∧ record_claimToken r = token ∧ record_claimedAt r = t.

(** The three outcomes of a delivery, by what the ledger holds. *)
Lemma Begin_processed clock fresh event now s key r :
  deliverable event key → webhookEvents s !! key = Some r → record_status r = WebhookEventProcessed →
  BeginWebhookEvent clock fresh event now s = (Ok (WebhookEventProcessed, ""), s).
Proof.
  intros (Hp & Hi & <-) Hr Hst. unfold BeginWebhookEvent, event_key in *.
  rewrite (bool_decide_eq_false_2 _ Hp), (bool_decide_eq_false_2 _ Hi). cbn.
  rewrite Hr. by rewrite bool_decide_eq_true_2.
Qed.

Lemma Begin_in_flight clock fresh event now s key r :
  deliverable event key → webhookEvents s !! key = Some r →
  or_time now clock < record_claimedAt r + WebhookProcessingReclaimAfter →
  ∃ status, status ≠ WebhookEventClaimed ∧ BeginWebhookEvent clock fresh event now s = (Ok (status, ""), s).
Proof.
  intros (Hp & Hi & <-) Hr Hlt. unfold BeginWebhookEvent, event_key in *.
  rewrite bool_decide_eq_false_2, bool_decide_eq_false_2 by assumption. cbn. rewrite Hr.
  case_bool_decide; [by exists WebhookEventProcessed|].
  rewrite (proj2 (Z.ltb_lt _ _)) by lia. by exists WebhookEventProcessing.
Qed.

Lemma Begin_claims clock token event now s key :
  deliverable event key →
  (∀ r, webhookEvents s !! key = Some r →
    record_status r ≠ WebhookEventProcessed ∧
    record_claimedAt r + WebhookProcessingReclaimAfter ≤ or_time now clock) →
  ∃ s', BeginWebhookEvent clock (Some token) event now s = (Ok (WebhookEventClaimed, token), s').
Proof.
  intros (Hp & Hi & <-) Hr. unfold BeginWebhookEvent, event_key in *.
  rewrite (bool_decide_eq_false_2 _ Hp), (bool_decide_eq_false_2 _ Hi). cbn.
  destruct (webhookEvents s !! _) as [r|]; [|by eexists].
  destruct (Hr r eq_refl) as [Hst Ht]. rewrite bool_decide_eq_false_2 by assumption.
  rewrite (proj2 (Z.ltb_ge _ _)) by lia. by eexists.
Qed.

(** A delivery that is not of the key leaves the key's row, up to retention. *)
Lemma Begin_other clock fresh event now s key token t :
  or_time now clock ≤ t + WebhookEventRetention →
  event_key (Webhook_Provider event) (Webhook_EventID event) ≠ key →
  claim_held key token t s → claim_held key token t (BeginWebhookEvent clock fresh event now s).2.
Proof.
  intros Ht Hne (r & Hr & Hk & Hc). unfold BeginWebhookEvent.
  assert (claim_held key token t s) as Hheld by (by exists r).
  repeat case_match; try exact Hheld; exists r; (split; [|by split]);
    (apply map_lookup_filter_Some_2; [by rewrite lookup_insert_ne|]); apply Z.ltb_ge; lia.
Qed.

Lemma finish_held key token t s s' :
  claim_held key token t s →
  (∀ r, webhookEvents s !! key = Some r → ∃ r', webhookEvents s' !! key = Some r' ∧
     record_claimToken r' = record_claimToken r ∧ record_claimedAt r' = record_claimedAt r) →
  claim_held key token t s'.
Proof. intros (r & Hr & <- & <-) H. destruct (H r Hr) as (r' & ? & ? & ?). by exists r'. Qed.

Lemma held_claim_Some provider eventID token s key r :
  held_claim provider eventID token s = Some (key, r) →
  key = event_key provider eventID ∧ webhookEvents s !! key = Some r ∧ record_claimToken r = token.
Proof.
  unfold held_claim. destruct (_ || _); [done|].
  destruct (webhookEvents s !! _) as [r'|] eqn:E; [|done]. destruct (decide _); [|done]. by intros [= <- <-].
Qed.

Lemma Complete_held provider eventID k s key token t :
  claim_held key token t s → claim_held key token t (CompleteWebhookEvent provider eventID k s).
Proof.
  intros Hh. unfold CompleteWebhookEvent. destruct (held_claim _ _ _ _) as [[j r]|] eqn:E; [|done].
  apply held_claim_Some in E as (_ & Hr & _). apply (finish_held _ _ _ _ _ Hh). intros r' Hr'. cbn.
  destruct (decide (j = key)) as [->|Hne].
  - rewrite lookup_insert_eq. eexists. split; [done|]. cbn. by simplify_eq.
  - rewrite lookup_insert_ne by done. by exists r'.
Qed.

Lemma Delete_held provider eventID k s key token t :
  (event_key provider eventID = key → k ≠ token) →
  claim_held key token t s → claim_held key token t (DeleteWebhookEvent provider eventID k s).
Proof.
  intros Hk Hh. unfold DeleteWebhookEvent. destruct (held_claim _ _ _ _) as [[j r]|] eqn:E; [|done].
  apply held_claim_Some in E as (Hj & Hr & Ht). apply (finish_held _ _ _ _ _ Hh). intros r' Hr'. cbn.
  destruct Hh as (r'' & Hr'' & Htok & _). rewrite lookup_delete_ne; [by exists r'|].
  intros ->. apply Hk; congruence.
Qed.

(** A handler whose token is not the current one changes nothing. *)
Lemma fenced_noop provider eventID k token t s :
  claim_held (event_key provider eventID) token t s → k ≠ token →
  CompleteWebhookEvent provider eventID k s = s ∧ DeleteWebhookEvent provider eventID k s = s.
Proof.
  intros (r & Hr & Ht & _) Hne. unfold CompleteWebhookEvent, DeleteWebhookEvent.
  destruct (held_claim _ _ _ _) as [[j r']|] eqn:E; [|done].
  apply held_claim_Some in E as (-> & Hr' & Ht'). congruence.
Qed.

(** Fresh claims are held from the start. *)
Lemma Begin_Claimed clock fresh event now s token s' :
  BeginWebhookEvent clock fresh event now s = (Ok (WebhookEventClaimed, token), s') →
  fresh = Some token ∧ TrimSpace (Webhook_Provider event) ≠ "" ∧ TrimSpace (Webhook_EventID event) ≠ "" ∧
  claim_held (event_key (Webhook_Provider event) (Webhook_EventID event)) token (or_time now clock) s'.
Proof.
  unfold BeginWebhookEvent. destruct (_ || _) eqn:E0; [done|]. boolify.
  destruct (match webhookEvents s !! _ with Some r => bool_decide _ | None => _ end); [done|].
  destruct (match webhookEvents s !! _ with Some r => _ | None => _ end); [done|].
  destruct fresh as [k|]; [|done]. intros [= <- <-]. split_and!; [done..|].
  exists (mkWebhookRecord (mkWebhookEvent (TrimSpace (Webhook_Provider event)) (TrimSpace (Webhook_EventID event))
            (TrimSpace (Webhook_EventType event)) (or_time now clock)) WebhookEventProcessing k (or_time now clock)).
  split; [|done]. apply map_lookup_filter_Some_2; [by apply lookup_insert_eq|].
  apply Z.ltb_ge. assert (0 ≤ WebhookEventRetention) by (by apply (bool_decide_unpack _); vm_compute). cbn. lia.
Qed.

Lemma undisturbed_step key token t op s :
  undisturbed key token t op → claim_held key token t s →
  claims_key key op s = false ∧ claim_held key token t (webhook_step s op).
Proof.
  intros Hop Hh. destruct op as [clock fresh event now|p i k|p i k]; cbn in Hop |- *.
  - destruct Hop as [Hret Hstale]. case_bool_decide as Hkey; cbn; [|split; [done|by apply Begin_other]].
    destruct Hh as (r & Hr & Htok & Ht).
    destruct (decide (TrimSpace (Webhook_Provider event) = "" ∨ TrimSpace (Webhook_EventID event) = "")) as [Hbad|Hgood].
    + unfold BeginWebhookEvent.
      assert (bool_decide (TrimSpace (Webhook_Provider event) = "") ||
              bool_decide (TrimSpace (Webhook_EventID event) = "") = true) as -> by (by rewrite orb_true_iff, !bool_decide_eq_true).
      split; [done|by exists r].
    + assert (deliverable event key) as Hd by (unfold deliverable; tauto).
      destruct (Begin_in_flight clock fresh event now s key r Hd Hr) as (st & Hst & ->); [rewrite Ht; auto|].
      cbn. split; [by apply bool_decide_eq_false_2|by exists r].
  - split; [done|by apply Complete_held].
  - split; [done|by apply Delete_held].
Qed.

Lemma undisturbed_run key token t ops s :
  Forall (undisturbed key token t) ops → claim_held key token t s →
  tally webhook_step (claims_key key) ops s = 0%nat ∧ claim_held key token t (run webhook_step ops s).
Proof. apply (tally_zero _ (claim_held key token t)). intros op s'. apply undisturbed_step. Qed.

(** C37.  Once a delivery claims a webhook event, then throughout any run of
    deliveries within the reclaim window, completions, and roll-backs by other
    holders: nobody else claims the event; a handler with another token can
    neither complete nor roll it back; once the holder completes it every
    redelivery is answered [Processed]; and while it is not completed, a
    delivery after the reclaim window takes the claim over. *)
Theorem webhook_claim_exclusive clock fresh event now s token s1 ops
    (Hclaim : BeginWebhookEvent clock fresh event now s = (Ok (WebhookEventClaimed, token), s1))
    (Htoken : fresh ≠ Some "")
    (Hrun : Forall (undisturbed (event_key (Webhook_Provider event) (Webhook_EventID event)) token (or_time now clock)) ops) :
  let key := event_key (Webhook_Provider event) (Webhook_EventID event) in
  let s' := run webhook_step ops s1 in
  tally webhook_step (claims_key key) ops s1 = 0%nat ∧
  (∀ provider eventID other, event_key provider eventID = key → other ≠ token →
     CompleteWebhookEvent provider eventID other s' = s' ∧ DeleteWebhookEvent provider eventID other s' = s') ∧
  (∀ clock' fresh' event' now', deliverable event' key →
     (BeginWebhookEvent clock' fresh' event' now'
        (CompleteWebhookEvent (Webhook_Provider event) (Webhook_EventID event) token s')).1 =
     Ok (WebhookEventProcessed, "")) ∧
  (∀ clock' token' event' now', deliverable event' key →
     (∀ r, webhookEvents s' !! key = Some r → record_status r ≠ WebhookEventProcessed) →
     or_time now clock + WebhookProcessingReclaimAfter ≤ or_time now' clock' →
     (BeginWebhookEvent clock' (Some token') event' now' s').1 = Ok (WebhookEventClaimed, token')).
Proof.
  cbn zeta. apply Begin_Claimed in Hclaim as (Hfresh & Hp & Hi & Hheld).
  destruct (undisturbed_run _ _ _ _ _ Hrun Hheld) as [Hnone Hheld'].
  set (key := event_key _ _) in *. set (s' := run _ _ _) in *. split_and!; [done|..].
  - intros provider eventID other Hkey Hne. rewrite <- Hkey in Hheld'. by apply (fenced_noop _ _ _ _ _ _ Hheld').
  - intros clock' fresh' event' now' Hd. destruct Hheld' as (r & Hr & Htok & _).
    unfold CompleteWebhookEvent, held_claim. rewrite (bool_decide_eq_false_2 _ Hp), (bool_decide_eq_false_2 _ Hi).
    rewrite (bool_decide_eq_false_2 (token = "")) by congruence. cbn. change (webhookEventKey _ _) with key.
    rewrite Hr, decide_True by done. cbn.
    by erewrite Begin_processed; [|exact Hd|apply lookup_insert_eq|].
  - intros clock' token' event' now' Hd Hst Ht.
    destruct (Begin_claims clock' token' event' now' s' key Hd) as [s'' ->]; [|done].
    intros r Hr. split; [by apply Hst|]. destruct Hheld' as (r' & Hr' & _ & Hc). simplify_eq. lia.
Qed.

Definition witness_event (id : string) : WebhookEvent := mkWebhookEvent "workos" id "user.updated" time_zero.
Definition empty_oneshot : OneShotState := mkOneShot ∅ ∅ ∅ ∅.
Definition claimed_state : OneShotState := (BeginWebhookEvent 0 (Some "k1") (witness_event "evt_1") (10 * Second) empty_oneshot).2.

Lemma webhook_claim_exclusive_witness :
  tally webhook_step (claims_key (event_key "workos" "evt_1"))
    [OpBegin 0 (Some "k2") (witness_event " evt_1 ") (20 * Second);
     OpDelete "workos" "evt_1" "k2";
     OpBegin 0 (Some "k3") (witness_event "evt_2") (25 * Second);
     OpComplete "workos" "evt_1" "k1"] claimed_state = 0%nat.
Proof.
  refine (proj1 (webhook_claim_exclusive 0 (Some "k1") (witness_event "evt_1") (10 * Second) empty_oneshot "k1"
                   claimed_state _ _ _ _)).
  - by vm_compute.
  - done.
  - repeat constructor; try (by vm_compute); cbn; intros; done.
Defined.
