(* ===== verification/GoParse.v ===== *)
(** * Reading back printed text

    Splitting, trimming and parsing of strings built from plain bytes: what
    [strings.Split], [strings.Fields], [strings.TrimSpace], [strings.Contains]
    and [strconv.Atoi] return on text put together by [strings.Join] and
    [strconv.Itoa]. *)
From S2P Require Import Prelude GoStrings.

#[global] Arguments Contains : simpl never.

(** ** Plain text: no white space and no multi-byte rune *)
Definition graphic (c : ascii) : bool := between 33 126 (code c).
Definition plain (s : string) : Prop := Forall (λ c, graphic c = true) (bytes s).

Lemma graphic_not_space c :
  graphic c = true → space1 c = false ∧ (∀ b, space2 c b = false) ∧ (∀ b d, space3 c b d = false) ∧
  (∀ b, space2 b c = false) ∧ (∀ b d, space3 b d c = false).
Proof.
  unfold graphic, between. intros H. apply andb_true_iff in H as [Hlo Hhi].
  apply N.leb_le in Hlo, Hhi.
  assert (∀ n, (n >= 127)%N → (code c =? n)%N = false) as Hne by (intros n Hn; apply N.eqb_neq; lia).
  assert (between 128 138 (code c) = false) as Hb.
  { unfold between. apply andb_false_iff. left. apply N.leb_gt. lia. }
  unfold space1, space2, space3, between. repeat split.
  - apply orb_false_iff. split; [apply andb_false_iff; right; apply N.leb_gt; lia|apply N.eqb_neq; lia].
  - intros b. by rewrite Hne by lia.
  - intros b d. by rewrite !Hne by lia.
  - intros b. rewrite !Hne by lia. by rewrite andb_false_r.
  - intros b d. unfold between in Hb. rewrite !Hne by lia. rewrite Hb. by rewrite !andb_false_r.
Qed.

Lemma plain_app s t : plain (s +:+ t) ↔ plain s ∧ plain t.
Proof. unfold plain. by rewrite bytes_app, Forall_app. Qed.

(** [strings.TrimSpace] leaves text alone whose first and last bytes are
    graphic. *)
Lemma drop_space_graphic s2 s3 a l :
  graphic a = true → (∀ b, s2 a b = false) → (∀ b c, s3 a b c = false) → drop_space s2 s3 (a :: l) = a :: l.
Proof.
  intros Ha H2 H3. apply drop_space_id. destruct (graphic_not_space a Ha) as (H1 & _). cbn. rewrite H1. cbn.
  destruct l as [|b [|c l]]; [done|by rewrite H2|by rewrite H2, H3].
Qed.

Lemma TrimSpace_edges s a l k b :
  bytes s = a :: l → bytes s = k ++ [b] → graphic a = true → graphic b = true → TrimSpace s = s.
Proof.
  intros Hl Hk Ha Hb. destruct (graphic_not_space a Ha) as (_ & Ha2 & Ha3 & _).
  destruct (graphic_not_space b Hb) as (_ & _ & _ & Hb2 & Hb3).
  unfold TrimSpace, trim_left, trim_right. rewrite Hl, drop_space_graphic by done. rewrite <-Hl, Hk, rev_app_distr.
  cbn [rev app]. rewrite drop_space_graphic by done.
  change (b :: rev k) with (rev [b] ++ rev k). rewrite <-rev_app_distr, rev_involutive, <-Hk. apply of_bytes_bytes.
Qed.

Lemma plain_edges s :
  plain s → s ≠ "" → (∃ a l, bytes s = a :: l ∧ graphic a = true) ∧ (∃ k b, bytes s = k ++ [b] ∧ graphic b = true).
Proof.
  unfold plain. intros Hs Hne. split.
  - destruct (bytes s) as [|a l] eqn:E; [by destruct s|]. apply Forall_cons in Hs as [Ha _]. by exists a, l.
  - destruct (bytes s) as [|b k _] eqn:E using rev_ind; [by destruct s|].
    apply Forall_app in Hs as [_ Hb]. rewrite Forall_singleton in Hb. by exists k, b.
Qed.

Lemma TrimSpace_plain s : plain s → TrimSpace s = s.
Proof.
  intros Hs. destruct (decide (s = "")) as [->|Hne]; [done|].
  destruct (plain_edges s Hs Hne) as [(a & l & Hl & Ha) (k & b & Hk & Hb)]. by eapply TrimSpace_edges.
Qed.

(** Plain words around anything. *)
Lemma TrimSpace_between x m y :
  plain x → x ≠ "" → plain y → y ≠ "" → TrimSpace (x +:+ m +:+ y) = x +:+ m +:+ y.
Proof.
  intros Hx Hx' Hy Hy'. destruct (plain_edges x Hx Hx') as [(a & l & Hl & Ha) _].
  destruct (plain_edges y Hy Hy') as [_ (k & b & Hk & Hb)].
  apply (TrimSpace_edges _ a (l ++ bytes m ++ bytes y) (bytes x ++ bytes m ++ k) b); [| |done|done].
  - by rewrite !bytes_app, Hl.
  - by rewrite !bytes_app, Hk, <-!app_assoc.
Qed.

(** Trimmed text after a graphic byte, in text that starts with a plain word. *)
Lemma graphic_not_middle b c d : graphic c = true → space3 b c d = false.
Proof.
  unfold graphic, between. intros H. apply andb_true_iff in H as [Hlo Hhi]. apply N.leb_le in Hlo, Hhi.
  assert (∀ n, (n >= 127)%N → (code c =? n)%N = false) as Hne by (intros n Hn; apply N.eqb_neq; lia).
  unfold space3, between. rewrite !Hne by lia. by rewrite ?andb_false_r.
Qed.
Lemma starts_space_before_graphic l g k :
  graphic g = true → l ≠ [] → starts_space (λ b a, space2 a b) (λ c b a, space3 a b c) l = false →
  starts_space (λ b a, space2 a b) (λ c b a, space3 a b c) (l ++ g :: k) = false.
Proof.
  intros Hg Hne. destruct (graphic_not_space g Hg) as (_ & Hg2 & Hg3 & _).
  destruct l as [|a [|b [|c l]]]; [done| | |done]; cbn; rewrite ?orb_false_iff.
  - intros [Ha _]. split; [done|]. rewrite Hg2. destruct k; [done|]. split; [done|]. by apply graphic_not_middle.
  - intros (Ha & Hb & _). rewrite Ha, Hb. split; [done|]. by rewrite Hg3.
Qed.
Lemma TrimSpace_tail x m g s :
  plain x → x ≠ "" → graphic g = true → TrimSpace s = s → s ≠ "" → TrimSpace (x +:+ m +:+ String g s) = x +:+ m +:+ String g s.
Proof.
  intros Hx Hx' Hg Hs Hne. destruct (plain_edges x Hx Hx') as [(a & l & Hl & Ha) _].
  assert (bytes (x +:+ m +:+ String g s) = a :: l ++ bytes m ++ g :: bytes s) as Hb by (rewrite !bytes_app, Hl; done).
  unfold TrimSpace. rewrite Hb. destruct (graphic_not_space a Ha) as (_ & Ha2 & Ha3 & _).
  unfold trim_left, trim_right. rewrite drop_space_graphic by done.
  assert (rev (a :: l ++ bytes m ++ g :: bytes s) = rev (bytes s) ++ g :: rev (a :: l ++ bytes m)) as ->.
  { assert (a :: l ++ bytes m ++ g :: bytes s = (a :: l ++ bytes m) ++ (g :: bytes s)) as -> by (cbn; by rewrite <-app_assoc).
    rewrite rev_app_distr. change (rev (g :: bytes s)) with (rev (bytes s) ++ [g]). by rewrite <-app_assoc. }
  rewrite drop_space_id.
  - rewrite rev_app_distr, rev_involutive. change (rev (g :: rev (a :: l ++ bytes m))) with (rev (rev (a :: l ++ bytes m)) ++ [g]).
    rewrite rev_involutive, <-app_assoc. change ((a :: l ++ bytes m) ++ [g] ++ bytes s) with (a :: (l ++ bytes m) ++ g :: bytes s).
    rewrite <-app_assoc, <-Hb. apply of_bytes_bytes.
  - apply starts_space_before_graphic; [done| |].
    + intros E. apply Hne. apply (f_equal (@rev ascii)) in E. rewrite rev_involutive in E. by destruct s.
    + unfold TrimSpace in Hs. apply (f_equal bytes) in Hs. rewrite bytes_of_bytes in Hs. rewrite <-Hs. unfold trim_right.
      rewrite rev_involutive. apply drop_space_starts.
Qed.

(** ** [strings.Contains] and [strings.Split] by one byte *)
Lemma Contains_byte s c : Contains s (String c "") = true ↔ c ∈ bytes s.
Proof.
  unfold Contains. cbn [bytes]. induction (bytes s) as [|a l IH]; cbn.
  { split; [done|by intros ?%elem_of_nil]. }
  rewrite orb_true_iff, elem_of_cons, andb_true_r, bool_decide_eq_true. by rewrite <-IH.
Qed.

Lemma Split_Join (l : list string) (sep : ascii) :
  l ≠ [] → Forall (no_byte sep) l → Split (Join l (String sep "")) sep = l.
Proof.
  intros Hne Hl. unfold Split. destruct l as [|x l]; [done|]. clear Hne. revert x Hl.
  induction l as [|y l IH]; intros x Hl; apply Forall_cons in Hl as [Hx Hl].
  - cbn. rewrite split_bytes_none by done. cbn. by rewrite of_bytes_bytes.
  - change (Join (x :: y :: l) (String sep "")) with (x +:+ String sep "" +:+ Join (y :: l) (String sep "")).
    rewrite !bytes_app. cbn [bytes app]. rewrite split_bytes_app by done.
    rewrite fmap_cons, IH by done. by rewrite of_bytes_bytes.
Qed.

Lemma Split_pair (s t : string) (sep : ascii) :
  no_byte sep s → no_byte sep t → Split (s +:+ String sep t) sep = [s; t].
Proof.
  intros Hs Ht. apply (Split_Join [s; t] sep); [done|]. by repeat constructor.
Qed.

(** ** [strings.Fields] of plain words separated by single spaces *)
Lemma fields_bytes_word w l cur :
  Forall (λ c, graphic c = true) w →
  fields_bytes cur (w ++ l) = fields_bytes (rev w ++ cur) l.
Proof.
  intros Hw. revert cur. induction Hw as [|a w Ha _ IH]; intros cur; [done|].
  destruct (graphic_not_space a Ha) as (H1 & H2 & H3 & _).
  transitivity (fields_bytes (a :: cur) (w ++ l)).
  - cbn. rewrite H1. destruct (w ++ l) as [|b [|c k]]; [done|by rewrite H2|]. by rewrite H2, H3.
  - rewrite IH. cbn. by rewrite <-app_assoc.
Qed.

Definition space : ascii := ascii_of_N 32.

Lemma fields_bytes_space cur l : cur ≠ [] → fields_bytes cur (space :: l) = rev cur :: fields_bytes [] l.
Proof. intros Hc. cbn. by destruct cur. Qed.

Lemma Fields_Join l :
  Forall (λ w, plain w ∧ w ≠ "") l → Fields (Join l (String space "")) = l.
Proof.
  intros Hl. unfold Fields. destruct l as [|x l]; [done|]. revert x Hl.
  assert (∀ w, w ≠ "" → rev (bytes w) ≠ []) as Hrev.
  { intros w Hw E. apply Hw. rewrite <-(of_bytes_bytes w), <-(rev_involutive (bytes w)), E. done. }
  induction l as [|y l IH]; intros x Hl; apply Forall_cons in Hl as [[Hx Hne] Hl].
  - cbn [Join]. rewrite <-(app_nil_r (bytes x)), fields_bytes_word by done. rewrite app_nil_r. cbn.
    destruct (rev (bytes x)) eqn:E; [by destruct (Hrev x Hne)|]. rewrite <-E, rev_involutive. cbn.
    by rewrite of_bytes_bytes.
  - change (Join (x :: y :: l) (String space "")) with (x +:+ String space "" +:+ Join (y :: l) (String space "")).
    rewrite !bytes_app, fields_bytes_word by done. rewrite app_nil_r. cbn [bytes app].
    rewrite fields_bytes_space by auto. rewrite rev_involutive, fmap_cons, IH by done. by rewrite of_bytes_bytes.
Qed.

(** ** [strconv.Atoi] reads [strconv.Itoa] back *)
Lemma digits_value_app l k acc : digits_value acc (l ++ k) = v ← digits_value acc l; digits_value v k.
Proof.
  revert acc. induction l as [|c l IH]; intros acc; cbn; [done|].
  destruct (digit_value c) as [d|]; cbn; [apply IH|done].
Qed.

Lemma digit_value_pretty n : (n < 10)%N → digit_value (pretty_N_char n) = Some (Z.of_N n).
Proof.
  intros Hn. assert (n ∈ [0; 1; 2; 3; 4; 5; 6; 7; 8; 9]%N) as Hin.
  { rewrite !elem_of_cons, elem_of_nil. lia. }
  rewrite !elem_of_cons, elem_of_nil in Hin. destruct_or? Hin; by subst.
Qed.

Lemma pretty_N_go_value x s :
  ∃ t, bytes (pretty_N_go x s) = t ++ bytes s ∧ digits_value 0 t = Some (Z.of_N x).
Proof.
  revert s. induction (N.lt_wf_0 x) as [x _ IH]; intros s.
  destruct (decide (x = 0%N)) as [->|Hx]; [exists []; by rewrite pretty_N_go_0|].
  rewrite pretty_N_go_step by lia.
  destruct (IH (x `div` 10)%N (N.div_lt x 10 ltac:(lia) ltac:(lia))
    (String (pretty_N_char (x `mod` 10)) s)) as (t & Ht & Hv).
  exists (t ++ [pretty_N_char (x `mod` 10)]). rewrite Ht, <-app_assoc. split; [done|].
  rewrite digits_value_app, Hv. cbn. rewrite digit_value_pretty by (apply N.mod_lt; lia). cbn. f_equal.
  rewrite N2Z.inj_div, N2Z.inj_mod. pose proof (Z.div_mod (Z.of_N x) 10). lia.
Qed.

Lemma Atoi_Itoa z : 0 ≤ z ≤ int64_max → Atoi (Itoa z) = Some z.
Proof.
  intros Hz. destruct (Itoa_digits z) as (t & Ht & Hne & Hd).
  rewrite (proj2 (Z.ltb_ge z 0)) in Ht by lia.
  assert (digits_value 0 t = Some z) as Hv.
  { destruct z as [|p|p]; [|  |lia].
    - cbn -[bytes] in Ht. by rewrite <-Ht.
    - destruct (pretty_N_go_value (N.pos p) "") as (t' & Ht' & Hv). rewrite app_nil_r in Ht'.
      assert (t = t') as -> by (rewrite <-Ht; exact Ht'). done. }
  unfold Atoi. rewrite Ht. destruct t as [|c t]; [done|].
  apply Forall_cons in Hd as [Hc _].
  rewrite decide_False by (intros ->; done). rewrite decide_False by (intros ->; done).
  rewrite Hv. cbn. rewrite decide_True; [done|]. unfold int64_min. lia.
Qed.

Lemma digit_graphic c : is_digit c = true → graphic c = true.
Proof. unfold is_digit, graphic, between. rewrite !andb_true_iff, !N.leb_le. lia. Qed.

Lemma Itoa_plain z : plain (Itoa z).
Proof.
  unfold plain. destruct (Itoa_digits z) as (t & -> & _ & Hf).
  assert (Forall (λ c, graphic c = true) t) as Ht by (eapply Forall_impl; [exact Hf|apply digit_graphic]).
  destruct (z <? 0); [|done]. by constructor.
Qed.

(** Non-negative numerals have no sign. *)
Lemma Itoa_no_minus z : 0 ≤ z → no_byte "-" (Itoa z).
Proof.
  intros Hz Hin. destruct (Itoa_digits z) as (t & Ht & _ & Hf). rewrite Ht in Hin.
  rewrite (proj2 (Z.ltb_ge z 0)) in Hin by lia.
  rewrite Forall_forall in Hf. by apply Hf in Hin.
Qed.
