(* ===== verification/GoText.v ===== *)
(** * More of Go's [strings] and [net/url], at the level of bytes

    Searching ([Index], [LastIndex], [SplitN], [TrimPrefix], [Trim]) and the
    query escaping of [net/url]: [QueryEscape], [QueryUnescape] and the fact
    that unescaping undoes escaping. *)
From S2P Require Import Prelude GoStrings GoParse.

(** ** Searching *)

(** [strings.Index(s, p)], as bytes. *)
Fixpoint index_bytes (l p : list ascii) : option nat :=
  if prefix_bytes p l then Some O
  else match l with [] => None | _ :: l => S <$> index_bytes l p end.
Definition Index (s p : string) : option nat := index_bytes (bytes s) (bytes p).

(** [strings.LastIndex(s, c)] for a one-byte pattern. *)
Fixpoint last_index_bytes (l : list ascii) (c : ascii) : option nat :=
  match l with
  | [] => None
  | a :: l =>
      match last_index_bytes l c with
      | Some i => Some (S i)
      | None => if decide (a = c) then Some O else None
      end
  end.
Definition LastIndex (s : string) (c : ascii) : option nat := last_index_bytes (bytes s) c.

(** [strings.IndexAny(s, chars)] for ASCII [chars]. *)
Fixpoint index_any_bytes (l : list ascii) (chars : list ascii) : option nat :=
  match l with
  | [] => None
  | a :: l => if decide (a ∈ chars) then Some O else S <$> index_any_bytes l chars
  end.
Definition IndexAny (s chars : string) : option nat := index_any_bytes (bytes s) (bytes chars).

(** [s[:i]] and [s[i:]], for [i <= len(s)]. *)
Definition str_take (i : nat) (s : string) : string := of_bytes (take i (bytes s)).
Definition str_drop (i : nat) (s : string) : string := of_bytes (drop i (bytes s)).
(** [len(s)]. *)
Definition str_len (s : string) : nat := length (bytes s).

(** [strings.TrimPrefix(s, p)]. *)
Definition TrimPrefix (s p : string) : string := if HasPrefix s p then str_drop (str_len p) s else s.

(** [strings.TrimSuffix(s, p)]. *)
Definition TrimSuffix (s p : string) : string := if HasSuffix s p then str_take (str_len s - str_len p) s else s.

(** [strings.ReplaceAll(s, old, new)] for a nonempty [old]: [skip] bytes of a
    match are still to be left out. *)
Fixpoint replace_bytes (skip : nat) (old new l : list ascii) : list ascii :=
  match l with
  | [] => []
  | a :: l' =>
      match skip with
      | S skip => replace_bytes skip old new l'
      | O => if prefix_bytes old l then (new ++ replace_bytes (length old - 1) old new l')%list
             else a :: replace_bytes 0 old new l'
      end
  end.
Definition ReplaceAll (s old new : string) : string :=
  of_bytes (replace_bytes 0 (bytes old) (bytes new) (bytes s)).

(** [strings.Trim(s, c)] for a one-byte cutset. *)
Fixpoint drop_byte (c : ascii) (l : list ascii) : list ascii :=
  match l with
  | a :: l' => if decide (a = c) then drop_byte c l' else l
  | [] => []
  end.
Definition TrimByte (s : string) (c : ascii) : string :=
  of_bytes (rev (drop_byte c (rev (drop_byte c (bytes s))))).

(** [strings.Count(s, c)] for a one-byte pattern. *)
Definition CountByte (s : string) (c : ascii) : nat := length (filter (.= c) (bytes s)).

(** [strings.SplitN(s, sep, n)] for [n >= 1] and a one-byte separator: at most
    [n] parts, the last one the unsplit rest. *)
Fixpoint splitn_bytes (n : nat) (sep : ascii) (cur l : list ascii) : list (list ascii) :=
  match l with
  | [] => [rev cur]
  | a :: l' =>
      match n with
      | S (S _ as n') =>
          if decide (a = sep) then rev cur :: splitn_bytes n' sep [] l'
          else splitn_bytes n sep (a :: cur) l'
      | _ => [rev cur ++ l]
      end
  end.
Definition SplitN (s : string) (sep : ascii) (n : nat) : list string :=
  of_bytes <$> splitn_bytes n sep [] (bytes s).

Example replace_ex : (ReplaceAll "aaabab" "aa" "-", ReplaceAll "token=x, x" "x" "[r]", TrimSuffix "app.git" ".git") =
  ("-abab", "token=[r], [r]", "app").
Proof. reflexivity. Qed.

Example index_ex : (Index "arn:aws:ssm:r:a:parameter/x" ":parameter/", LastIndex "a/b/c" "/",
                    IndexAny "repo@sha" ":@") = (Some 15%nat, Some 3%nat, Some 4%nat).
Proof. reflexivity. Qed.
Example splitn_ex :
  SplitN "a:b:c:d" ":" 3 = ["a"; "b"; "c:d"] ∧ SplitN "a" ":" 2 = ["a"] ∧ SplitN "a:" ":" 2 = ["a"; ""].
Proof. repeat split; reflexivity. Qed.
Example trim_ex : (TrimPrefix "arn:x" "arn:", TrimByte "//a/b/" "/", CountByte "a/b/c" "/") = ("x", "a/b", 2%nat).
Proof. reflexivity. Qed.

(** Two parts: split at the first separator. *)
Lemma splitn_bytes_two sep cur l k :
  sep ∉ l → splitn_bytes 2 sep cur (l ++ sep :: k) = [rev cur ++ l; k]%list.
Proof.
  revert cur. induction l as [|a l IH]; intros cur Hl; cbn.
  - rewrite decide_True by done. rewrite app_nil_r. by destruct k.
  - apply not_elem_of_cons in Hl as [Ha Hl]. rewrite decide_False by done.
    rewrite IH by done. cbn. by rewrite <-app_assoc.
Qed.
Lemma SplitN_two s t sep :
  no_byte sep s → SplitN (s +:+ String sep t) sep 2 = [s; t].
Proof.
  intros Hs. unfold SplitN. rewrite bytes_app.
  change (bytes (String sep t)) with (sep :: bytes t).
  rewrite (splitn_bytes_two sep [] (bytes s)) by done. cbn. by autorewrite with identrail.
Qed.

Lemma HasPrefix_app p s : HasPrefix (p +:+ s) p = true.
Proof. apply HasPrefix_spec. by exists s. Qed.
Lemma TrimPrefix_app p s : TrimPrefix (p +:+ s) p = s.
Proof.
  unfold TrimPrefix, str_drop, str_len. rewrite HasPrefix_app, bytes_app, drop_app_length.
  by autorewrite with identrail.
Qed.
#[export] Hint Rewrite HasPrefix_app TrimPrefix_app : identrail.

(** ** [url.QueryEscape] and [url.QueryUnescape] *)
Definition unreserved (c : ascii) : bool :=
  is_lower c || is_upper c || is_digit c || is_one_of "-_.~" c.
(** An upper-case hexadecimal digit. *)
Definition upper_hex (n : N) : ascii :=
  if (n <? 10)%N then ascii_of_N (48 + n) else ascii_of_N (55 + n).
Definition escape_byte (c : ascii) : list ascii :=
  if unreserved c then [c]
  else if decide (c = " "%char) then ["+"%char]
  else ["%"%char; upper_hex (code c / 16); upper_hex (code c mod 16)].
Definition QueryEscape (s : string) : string := of_bytes (bytes s ≫= escape_byte).

(** [unhex], on the digits [ishex] accepts. *)
Definition unhex (c : ascii) : option N :=
  let n := code c in
  if between 48 57 n then Some (n - 48)%N
  else if between 97 102 n then Some (n - 87)%N
  else if between 65 70 n then Some (n - 55)%N
  else None.
Fixpoint unescape_bytes (l : list ascii) : option (list ascii) :=
  match l with
  | [] => Some []
  | a :: l' =>
      if decide (a = "%"%char) then
        match l' with
        | x :: y :: l'' =>
            hi ← unhex x; lo ← unhex y; r ← unescape_bytes l'';
            Some (ascii_of_N (hi * 16 + lo) :: r)
        | _ => None
        end
      else r ← unescape_bytes l'; Some ((if decide (a = "+"%char) then " "%char else a) :: r)
  end.
Definition QueryUnescape (s : string) : option string := of_bytes <$> unescape_bytes (bytes s).

Example query_escape_ex : QueryEscape "s3:Get *" = "s3%3AGet+%2A".
Proof. reflexivity. Qed.
Example query_unescape_ex :
  QueryUnescape "a%2Fb+c" = Some "a/b c" ∧ QueryUnescape "50%" = None ∧ QueryUnescape "%zz" = None.
Proof. repeat split; reflexivity. Qed.

Lemma for_all_bytes (f : ascii → bool) :
  forallb (λ n, f (ascii_of_N (N.of_nat n))) (seq 0 256) = true → ∀ c, f c = true.
Proof.
  intros H c. rewrite forallb_forall in H. specialize (H (N.to_nat (code c))).
  rewrite N2Nat.id in H. unfold code in H. rewrite ascii_N_embedding in H. apply H, in_seq.
  pose proof (N_ascii_bounded c). lia.
Qed.

Lemma unescape_escape_byte c l : unescape_bytes (escape_byte c ++ l) = (c ::.) <$> unescape_bytes l.
Proof.
  assert (H : match escape_byte c with
    | [a] => negb (bool_decide (a = "%"%char)) &&
             bool_decide ((if decide (a = "+"%char) then " "%char else a) = c)
    | [p; x; y] => bool_decide (p = "%"%char) &&
        match unhex x, unhex y with
        | Some hi, Some lo => bool_decide (ascii_of_N (hi * 16 + lo) = c)
        | _, _ => false
        end
    | _ => false
    end = true) by (revert c; by apply for_all_bytes).
  destruct (escape_byte c) as [|a [|x [|y [|? ?]]]]; try discriminate H; cbn [app unescape_bytes].
  - boolify. rewrite (decide_False (P := a = _)) by done. destruct (unescape_bytes l); [|done].
    cbn. by f_equal; f_equal.
  - apply andb_true_iff in H as [H1 H]. apply bool_decide_eq_true in H1. rewrite decide_True by done.
    destruct (unhex x) as [hi|]; [|done]. destruct (unhex y) as [lo|]; [|done].
    apply bool_decide_eq_true in H. destruct (unescape_bytes l); [|done]. cbn. by rewrite <-H.
Qed.

Lemma QueryUnescape_QueryEscape s : QueryUnescape (QueryEscape s) = Some s.
Proof.
  unfold QueryUnescape, QueryEscape. rewrite bytes_of_bytes.
  enough (unescape_bytes (bytes s ≫= escape_byte) = Some (bytes s)) as ->.
  { cbn. by autorewrite with identrail. }
  induction (bytes s) as [|c l IH]; [done|]. change ((c :: l) ≫= escape_byte) with (escape_byte c ++ (l ≫= escape_byte))%list.
  rewrite unescape_escape_byte, IH. done.
Qed.

(** Escaped text is printable and has no byte that the code uses as a
    separator. *)
Lemma escape_byte_clean c x :
  x ∈ escape_byte c → graphic x = true ∧ unreserved x || bool_decide (x = "+"%char) || bool_decide (x = "%"%char) = true.
Proof.
  intros Hx.
  assert (H : forallb (λ x, graphic x && (unreserved x || bool_decide (x = "+"%char) || bool_decide (x = "%"%char)))
    (escape_byte c) = true) by (revert c Hx; intros c _; revert c; by apply for_all_bytes).
  rewrite forallb_forall in H. apply list_elem_of_In in Hx. apply H in Hx. by apply andb_true_iff in Hx.
Qed.
Lemma QueryEscape_plain s : plain (QueryEscape s).
Proof.
  unfold plain, QueryEscape. rewrite bytes_of_bytes. apply Forall_forall. intros x Hx.
  apply list_elem_of_bind in Hx as (c & Hx & _). by apply escape_byte_clean in Hx as [? _].
Qed.
Lemma QueryEscape_no_byte c s :
  unreserved c || bool_decide (c = "+"%char) || bool_decide (c = "%"%char) = false → no_byte c (QueryEscape s).
Proof.
  intros Hc Hin. unfold QueryEscape in Hin. rewrite bytes_of_bytes in Hin.
  apply list_elem_of_bind in Hin as (b & Hx & _). apply escape_byte_clean in Hx as [_ Hx]. by rewrite Hx in Hc.
Qed.

#[global] Arguments Index : simpl never.
#[global] Arguments LastIndex : simpl never.
#[global] Arguments IndexAny : simpl never.
#[global] Arguments TrimPrefix : simpl never.
#[global] Arguments TrimByte : simpl never.
#[global] Arguments SplitN : simpl never.
#[global] Arguments str_take : simpl never.
#[global] Arguments str_drop : simpl never.
#[global] Arguments QueryEscape : simpl never.
#[global] Arguments QueryUnescape : simpl never.

(** ** [strings.FieldsFunc] for a predicate on ASCII characters *)
Fixpoint fields_func (p : ascii → bool) (cur l : list ascii) : list (list ascii) :=
  match l with
  | [] => match cur with [] => [] | _ => [rev cur] end
  | a :: l =>
      if p a then match cur with [] => fields_func p [] l | _ => rev cur :: fields_func p [] l end
      else fields_func p (a :: cur) l
  end.
Definition FieldsFunc (p : ascii → bool) (s : string) : list string := of_bytes <$> fields_func p [] (bytes s).

Lemma fields_func_word p w cur l :
  Forall (λ c, p c = false) w → fields_func p cur (w ++ l) = fields_func p (rev w ++ cur) l.
Proof.
  intros Hw. revert cur. induction Hw as [|a w Ha _ IH]; intros cur; [done|].
  cbn. rewrite Ha, IH. cbn. by rewrite <-app_assoc.
Qed.

Lemma FieldsFunc_Join p (sep : ascii) (l : list string) :
  p sep = true → Forall (λ s, s ≠ "" ∧ Forall (λ c, p c = false) (bytes s)) l →
  FieldsFunc p (Join l (String sep "")) = l.
Proof.
  intros Hsep. unfold FieldsFunc. induction 1 as [|s l [Hne Hs] Hl IH]; [done|].
  assert (rev (bytes s) ≠ []) as Hrev.
  { intros H. apply (f_equal (@rev _)) in H. rewrite rev_involutive in H. cbn in H. apply Hne.
    by rewrite <-(of_bytes_bytes s), H. }
  destruct l as [|t l].
  - cbn [Join]. rewrite <-(app_nil_r (bytes s)), fields_func_word, !app_nil_r by done.
    cbn. destruct (rev (bytes s)) eqn:E; [done|]. rewrite <-E, rev_involutive. cbn. by rewrite of_bytes_bytes.
  - change (Join (s :: t :: l) (String sep "")) with (s +:+ String sep "" +:+ Join (t :: l) (String sep "")).
    rewrite !bytes_app, fields_func_word, app_nil_r by done. cbn [app bytes fields_func].
    change (bytes (String sep "")) with [sep]. cbn [app fields_func]. rewrite Hsep.
    destruct (rev (bytes s)) eqn:E; [done|]. rewrite <-E, rev_involutive. cbn [fmap list_fmap].
    by rewrite of_bytes_bytes, IH.
Qed.
