(* ===== verification/Wildcard.v ===== *)
(** * IAM action patterns

    [iamActionPatternMatches] of [internal/providers/aws/passrole_policy.go]:
    an iterative matcher for patterns with ["*"] and ["?"] that remembers the
    last ["*"] and backtracks to it.  It is compared with the declarative
    meaning of a pattern. *)
From S2P Require Import Prelude GoStrings GoText.

(** ** The matcher

    The loop's variables: the positions in the pattern and in the target, and
    the last ["*"] with the target position it was last tried at ([starPi] is
    [-1] before the first one). *)
Record match_state := MatchState { m_pi : nat; m_ti : nat; m_star : option (nat * nat) }.

(** One iteration of the loop: go on, or return. *)
Definition pattern_step (p t : list ascii) (s : match_state) : match_state + bool :=
  match t !! m_ti s with
  | Some d =>
      let backtrack :=
        match m_star s with
        | Some (sp, st) => inl (MatchState (S sp) (S st) (Some (sp, S st)))
        | None => inr false
        end in
      match p !! m_pi s with
      | Some c =>
          if bool_decide (c = "?"%char) || bool_decide (c = d)
          then inl (MatchState (S (m_pi s)) (S (m_ti s)) (m_star s))
          else if bool_decide (c = "*"%char)
          then inl (MatchState (S (m_pi s)) (m_ti s) (Some (m_pi s, m_ti s)))
          else backtrack
      | None => backtrack
      end
  | None => inr (forallb (λ c, bool_decide (c = "*"%char)) (drop (m_pi s) p))
  end.

Fixpoint pattern_loop (fuel : nat) (p t : list ascii) (s : match_state) : option bool :=
  match fuel with
  | O => None
  | S fuel =>
      match pattern_step p t s with
      | inl s => pattern_loop fuel p t s
      | inr b => Some b
      end
  end.

(** Enough iterations: between two moves of the last ["*"] the pattern
    position only grows. *)
Definition pattern_fuel (p t : list ascii) : nat := (length t + 2) * (length p + 1).
Definition pattern_run (pattern target : string) : option bool :=
  pattern_loop (pattern_fuel (bytes pattern) (bytes target)) (bytes pattern) (bytes target)
    (MatchState 0 0 None).
Definition iamActionPatternMatches (pattern target : string) : bool :=
  default false (pattern_run pattern target).

Example pattern_ex :
  (iamActionPatternMatches "sts:*" "sts:assumerole", iamActionPatternMatches "*:ass?me*e" "sts:assumerole",
   iamActionPatternMatches "sts:*x" "sts:assumerole", iamActionPatternMatches "" "")
  = (true, true, false, true).
Proof. reflexivity. Qed.

(** ** What a pattern means *)
Inductive glob : list ascii → list ascii → Prop :=
| glob_nil : glob [] []
| glob_star p t1 t2 : glob p t2 → glob ("*"%char :: p) (t1 ++ t2)
| glob_any p c t : glob p t → glob ("?"%char :: p) (c :: t)
| glob_char p c t : c ≠ "*"%char → c ≠ "?"%char → glob p t → glob (c :: p) (c :: t).
#[local] Hint Constructors glob : core.

Lemma glob_nil_r p : glob p [] ↔ Forall (.= "*"%char) p.
Proof.
  split.
  - remember [] as t eqn:E. induction 1 as [|p t1 t2 _ IH| |]; try done.
    apply app_eq_nil in E as [-> ->]. by constructor; [|apply IH].
  - induction 1 as [|c p -> _ IH]; [done|]. by apply (glob_star p [] []).
Qed.
Lemma glob_nil_l t : glob [] t ↔ t = [].
Proof. split; [by inversion 1|by intros ->]. Qed.
Lemma glob_star_iff p t : glob ("*"%char :: p) t ↔ ∃ k, (k ≤ length t)%nat ∧ glob p (drop k t).
Proof.
  split.
  - inversion 1; subst; [|done]. exists (length t1). rewrite length_app, drop_app_length. split; [lia|done].
  - intros (k & _ & H). rewrite <-(take_drop k t). by constructor.
Qed.
Lemma glob_step_iff p t c d :
  c ≠ "*"%char → glob (c :: p) (d :: t) ↔ (c = "?"%char ∨ c = d) ∧ glob p t.
Proof.
  intros Hc. split.
  - inversion 1; subst; auto. done.
  - intros [[->| ->] H]; [by constructor|]. destruct (decide (d = "?"%char)) as [->|]; by constructor.
Qed.

(** A prefix of the pattern without ["*"] consumes exactly its length. *)
Lemma glob_app_inv q p t :
  "*"%char ∉ q → glob (q ++ p) t → (length q ≤ length t)%nat ∧ glob p (drop (length q) t).
Proof.
  revert t. induction q as [|c q IH]; intros t Hq H; cbn in *; [split; [lia|done]|].
  apply not_elem_of_cons in Hq as [Hc Hq]. destruct t as [|d t].
  { apply glob_nil_r in H. inversion H; subst. done. }
  apply glob_step_iff in H as [_ H]; [|done]. apply IH in H as [? ?]; [|done]. cbn. split; [lia|done].
Qed.

Section matcher.
Context (p t : list ascii) (Ht : "*"%char ∉ t).

(** The text can still be matched: from here, or after moving the last
    ["*"] further. *)
Definition retry (star : option (nat * nat)) : Prop :=
  match star with
  | Some (sp, st) => ∃ k, (st < k ≤ length t)%nat ∧ glob (drop (S sp) p) (drop k t)
  | None => False
  end.
Definition hope (s : match_state) : Prop := glob (drop (m_pi s) p) (drop (m_ti s) t) ∨ retry (m_star s).

Definition match_wf (s : match_state) : Prop :=
  (m_pi s ≤ length p)%nat ∧ (m_ti s ≤ length t)%nat ∧
  match m_star s with
  | Some (sp, st) =>
      (st ≤ m_ti s)%nat ∧
      ∃ q, "*"%char ∉ q ∧ length q = (m_ti s - st)%nat ∧ drop (S sp) p = (q ++ drop (m_pi s) p)%list
        ∧ m_pi s = (S sp + length q)%nat
  | None => True
  end.

Lemma match_wf_backtrack s sp st d :
  match_wf s → m_star s = Some (sp, st) → t !! m_ti s = Some d →
  match_wf (MatchState (S sp) (S st) (Some (sp, S st))).
Proof.
  intros (Hp & Htl & Hs) E Hd. rewrite E in Hs. destruct Hs as (Hst & q & Hq & Hl & Hdrop & Hpi).
  apply lookup_lt_Some in Hd. repeat split; cbn; try lia.
  exists []. split; [by apply not_elem_of_nil|]. cbn. repeat split; lia.
Qed.

Lemma hope_backtrack s sp st :
  ¬ glob (drop (m_pi s) p) (drop (m_ti s) t) → m_star s = Some (sp, st) →
  (st < length t)%nat → hope s ↔ hope (MatchState (S sp) (S st) (Some (sp, S st))).
Proof.
  intros Hno E Hst. unfold hope. rewrite E. cbn [m_pi m_ti m_star retry]. split.
  - intros [?|(k & Hk & H)]; [done|].
    destruct (decide (k = S st)) as [->|]; [by left|right; exists k; split; [lia|done]].
  - intros [H|(k & Hk & H)]; right; [exists (S st)|exists k]; split; (lia || done).
Qed.

(** Greedy is enough: with a newer ["*"] the older one need not move. *)
Lemma older_star_redundant s p' :
  match_wf s → drop (m_pi s) p = "*"%char :: p' → retry (m_star s) →
  glob ("*"%char :: p') (drop (m_ti s) t).
Proof.
  intros (_ & _ & Hs) Hp' Hr. destruct (m_star s) as [[sp st]|]; [|done].
  destruct Hs as (Hst & q & Hq & Hl & Hd & _), Hr as (k & Hk & H).
  rewrite Hd, Hp' in H. apply glob_app_inv in H as [Hlen H]; [|done].
  rewrite drop_drop, length_drop in *. apply glob_star_iff in H as (j & Hj & H).
  rewrite drop_drop, length_drop in *. apply glob_star_iff.
  exists (k + length q + j - m_ti s)%nat. rewrite length_drop, drop_drop. split; [lia|].
  by replace (m_ti s + (k + length q + j - m_ti s))%nat with (k + length q + j)%nat by lia.
Qed.

Lemma match_wf_star s c :
  match_wf s → p !! m_pi s = Some c → match_wf (MatchState (S (m_pi s)) (m_ti s) (Some (m_pi s, m_ti s))).
Proof.
  intros (Hp & Htl & _) Hc. apply lookup_lt_Some in Hc. repeat split; cbn; try lia.
  exists []. split; [by apply not_elem_of_nil|]. cbn. repeat split; lia.
Qed.

Lemma match_wf_char s c d :
  match_wf s → p !! m_pi s = Some c → t !! m_ti s = Some d → c ≠ "*"%char →
  match_wf (MatchState (S (m_pi s)) (S (m_ti s)) (m_star s)).
Proof.
  intros (Hp & Htl & Hs) Hc Hd Hne. pose proof (lookup_lt_Some _ _ _ Hc). pose proof (lookup_lt_Some _ _ _ Hd).
  repeat split; cbn; try lia. destruct (m_star s) as [[sp st]|]; [|done].
  destruct Hs as (Hst & q & Hq & Hl & Hdrop & Hpi). split; [lia|]. exists (q ++ [c])%list.
  rewrite length_app, not_elem_of_app, not_elem_of_cons. cbn.
  repeat split; auto; try lia; [by apply not_elem_of_nil|].
  rewrite Hdrop, (drop_S _ _ _ Hc), <-app_assoc. done.
Qed.

(** Every iteration keeps the invariant and what can still be matched. *)
Lemma pattern_step_inl s s' :
  match_wf s → pattern_step p t s = inl s' → match_wf s' ∧ (hope s ↔ hope s').
Proof.
  intros Hwf. unfold pattern_step. destruct (t !! m_ti s) as [d|] eqn:Ed; [|done].
  assert (Hdt : d ≠ "*"%char) by (intros ->; by apply list_elem_of_lookup_2 in Ed).
  assert (Hback : ¬ glob (drop (m_pi s) p) (drop (m_ti s) t) →
    match m_star s with
    | Some (sp, st) => inl (MatchState (S sp) (S st) (Some (sp, S st)))
    | None => inr false
    end = inl s' → match_wf s' ∧ (hope s ↔ hope s')).
  { intros Hno H. destruct (m_star s) as [[sp st]|] eqn:E; [|done]. injection H as <-.
    split; [by eapply match_wf_backtrack|]. apply hope_backtrack; try done.
    destruct Hwf as (_ & _ & Hs). rewrite E in Hs. apply lookup_lt_Some in Ed. lia. }
  pose proof (drop_S _ _ _ Ed) as Edr.
  destruct (p !! m_pi s) as [c|] eqn:Ec.
  2: { apply Hback. rewrite drop_ge by by apply lookup_ge_None. rewrite glob_nil_l, Edr. done. }
  pose proof (drop_S _ _ _ Ec) as Ecr.
  destruct (_ || _) eqn:E1.
  - intros [= <-]. assert (c ≠ "*"%char) as Hc by (apply orb_true_iff in E1 as [?|?]; boolify; congruence).
    split; [by eapply match_wf_char|]. unfold hope. cbn [m_pi m_ti m_star]. rewrite Ecr, Edr.
    rewrite glob_step_iff by done. apply orb_true_iff in E1. rewrite !bool_decide_eq_true in E1. naive_solver.
  - destruct (bool_decide (c = "*"%char)) eqn:E2.
    + intros [= <-]. apply bool_decide_eq_true in E2 as ->. split; [by eapply match_wf_star|].
      pose proof (older_star_redundant s _ Hwf Ecr) as Hold. unfold hope in *. cbn [m_pi m_ti m_star retry].
      rewrite Ecr. rewrite glob_star_iff in Hold |- *. rewrite length_drop in *. setoid_rewrite drop_drop.
      setoid_rewrite drop_drop in Hold. clear Hback. split.
      * intros H. assert (∃ k, (k ≤ length t - m_ti s)%nat ∧ glob (drop (S (m_pi s)) p) (drop (m_ti s + k) t))
          as (k & Hk & Hg) by (destruct H; auto).
        destruct k as [|k]; [left; by rewrite Nat.add_0_r in Hg|right].
        exists (m_ti s + S k)%nat. split; [lia|done].
      * intros [H|(k & Hk & H)]; left; [exists O|exists (k - m_ti s)%nat].
        -- rewrite Nat.add_0_r. split; [lia|done].
        -- replace (m_ti s + (k - m_ti s))%nat with k by lia. split; [lia|done].
    + apply Hback. rewrite Ecr, Edr, glob_step_iff by by apply bool_decide_eq_false in E2.
      apply orb_false_iff in E1 as [??]. boolify. naive_solver.
Qed.

Lemma stars_spec l : forallb (λ c, bool_decide (c = "*"%char)) l = true ↔ glob l [].
Proof.
  rewrite glob_nil_r, forallb_forall, Forall_forall. setoid_rewrite bool_decide_eq_true.
  setoid_rewrite <-list_elem_of_In. done.
Qed.

(** The loop's answer is what was still possible. *)
Lemma pattern_step_inr s b : match_wf s → pattern_step p t s = inr b → b = true ↔ hope s.
Proof.
  intros Hwf. unfold pattern_step. destruct (t !! m_ti s) as [d|] eqn:Ed.
  - pose proof (drop_S _ _ _ Ed) as Edr. unfold hope.
    destruct (p !! m_pi s) as [c|] eqn:Ec.
    + destruct (_ || _) eqn:E1; [done|]. destruct (bool_decide (c = "*"%char)) eqn:E2; [done|].
      destruct (m_star s) as [[??]|]; [done|]. intros [= <-]. split; [by intros|]. intros [H|H]; [|done].
      rewrite (drop_S _ _ _ Ec), Edr, glob_step_iff in H by by apply bool_decide_eq_false in E2.
      apply orb_false_iff in E1 as [??]. boolify. naive_solver.
    + destruct (m_star s) as [[??]|]; [done|]. intros [= <-]. split; [done|]. intros [H|[]].
      rewrite drop_ge, glob_nil_l, Edr in H by by apply lookup_ge_None. done.
  - intros [= <-]. rewrite stars_spec. apply lookup_ge_None in Ed. unfold hope.
    rewrite (drop_ge t) by done. split; [by left|]. intros [?|Hr]; [done|exfalso].
    destruct Hwf as (_ & _ & Hs). destruct (m_star s) as [[sp st]|]; [|done].
    destruct Hs as (Hst & q & Hq & Hl & Hd & _), Hr as (k & Hk & H).
    rewrite Hd in H. apply glob_app_inv in H as [Hlen _]; [|done]. rewrite length_drop in Hlen. lia.
Qed.

(** ** Termination *)
Definition star_position (s : match_state) : nat := match m_star s with Some (_, st) => st | None => 0 end.
Definition pattern_measure (s : match_state) : nat :=
  (length t + 1 - star_position s) * (length p + 1) + (length p - m_pi s).
End matcher.

(** Positions stay in bounds, whatever the target contains. *)
Definition in_bounds (p t : list ascii) (s : match_state) : Prop :=
  (m_pi s ≤ length p)%nat ∧ (star_position s ≤ m_ti s ≤ length t)%nat ∧
  match m_star s with Some (sp, _) => (sp < length p)%nat | None => True end.

Lemma pattern_step_measure p t s s' :
  in_bounds p t s → pattern_step p t s = inl s' →
  in_bounds p t s' ∧ (pattern_measure p t s' < pattern_measure p t s)%nat.
Proof.
  unfold in_bounds, pattern_measure, star_position, pattern_step. intros (Hp & Htl & Hs) H.
  destruct (t !! m_ti s) as [d|] eqn:Ed; [|done]. apply lookup_lt_Some in Ed.
  destruct (p !! m_pi s) as [c|] eqn:Ec; [apply lookup_lt_Some in Ec|];
    split_hyp H; try done; injection H as <-; destruct s as [i j [[sp st]|]]; cbn in *; simplify_eq;
    (split; [repeat split; lia|nia]).
Qed.

Lemma pattern_loop_total p t fuel s :
  in_bounds p t s → (pattern_measure p t s < fuel)%nat → ∃ b, pattern_loop fuel p t s = Some b.
Proof.
  revert s. induction fuel as [|fuel IH]; intros s Hs Hf; [lia|]. cbn.
  destruct (pattern_step p t s) as [s'|b] eqn:E; [|by eexists].
  apply pattern_step_measure in E as [??]; [|done]. apply IH; [done|lia].
Qed.

Lemma pattern_run_total pattern target : ∃ b, pattern_run pattern target = Some b.
Proof.
  apply pattern_loop_total; unfold in_bounds, pattern_measure, star_position, pattern_fuel; cbn; [lia|nia].
Qed.

Lemma pattern_loop_sound p t fuel s b :
  "*"%char ∉ t → match_wf p t s → pattern_loop fuel p t s = Some b → b = true ↔ hope p t s.
Proof.
  intros Ht. revert s. induction fuel as [|fuel IH]; intros s Hs H; [done|]. cbn in H.
  destruct (pattern_step p t s) as [s'|b'] eqn:E.
  - apply pattern_step_inl in E as [Hs' ->]; [|done..]. by apply IH.
  - injection H as ->. by eapply pattern_step_inr.
Qed.

(** C36. The matcher ends within its iteration bound on every pattern and target, and for a target without a literal asterisk (the action names the callers test are such) it answers exactly whether the pattern, with an asterisk for any run of characters and a question mark for any one, matches the whole target: remembering only the last asterisk loses no match. *)
Theorem iamActionPatternMatches_correct pattern target :
  pattern_run pattern target = Some (iamActionPatternMatches pattern target) ∧
  (no_byte "*" target →
   iamActionPatternMatches pattern target = true ↔ glob (bytes pattern) (bytes target)).
Proof.
  unfold iamActionPatternMatches. destruct (pattern_run_total pattern target) as [b Hb].
  rewrite Hb. split; [done|]. intros Ht. cbn.
  assert (Hwf : match_wf (bytes pattern) (bytes target) (MatchState 0 0 None)) by (repeat split; cbn; lia).
  rewrite (pattern_loop_sound _ _ _ _ b Ht Hwf Hb). unfold hope. cbn. rewrite !drop_0. naive_solver.
Qed.

Lemma iamActionPatternMatches_correct_witness :
  iamActionPatternMatches "sts:*Role" "sts:AssumeRole" = true ↔ glob (bytes "sts:*Role") (bytes "sts:AssumeRole").
Proof.
  apply (iamActionPatternMatches_correct "sts:*Role" "sts:AssumeRole").
  apply (bool_decide_unpack (no_byte "*" "sts:AssumeRole")). reflexivity.
Defined.
