(* ===== verification/ScanDomain.v ===== *)
(** * The scan graph's records

    [internal/domain/types.go], [relationship_contract.go] and [validation.go]:
    identities, workloads, policies, resources, credentials, agents, runtime
    events, relationships and findings, their [Validate] methods and the
    catalogue of relationship semantics; and [NormalizedBundle] and
    [PermissionTuple] of [internal/providers/interfaces.go]. *)
From S2P Require Import Prelude GoStrings GoCollections GoTime.

(** ** Go's [any]

    The values a decoded JSON document, a policy's normalized payload, a
    resource's metadata or a finding's evidence can hold.  A [map[string]any]
    is a list of entries whose order is the order [range] visits it in; a
    [float64] is in hundredths (the code only writes two-decimal constants). *)
Inductive any :=
| ANil
| ABool (b : bool)
| AInt (z : Z)
| AFloat (hundredths : Z)
| AString (s : string)
| AStrings (l : list string)
| AList (l : list any)
| AMap (m : list (string * any))
| AMaps (l : list (list (string * any)))
| AStringMaps (l : list (list (string * string))).

(** [encoding/json]'s parser: the tree of a document, members in order. *)
Class JSON := { json_parse : string → option any }.

(** [m[key]]; a missing key gives the zero value [nil]. *)
Fixpoint map_get (m : list (string * any)) (key : string) : any :=
  match m with
  | [] => ANil
  | (k, v) :: m => if decide (k = key) then v else map_get m key
  end.
(** [s, _ := v.(string)]. *)
Definition as_string (v : any) : string := match v with AString s => s | _ => "" end.
(** [m, ok := v.(map[string]any)]. *)
Definition as_map (v : any) : option (list (string * any)) := match v with AMap m => Some m | _ => None end.

(** ** Relationships *)
Inductive RelationshipType :=
| CanAssume | AttachedPolicy | AttachedTo | BoundTo | CanAccess | CanImpersonate | RunsAs | UsesSecret
| UsesImage | CanDecrypt | CanPassRole | Invokes | CallsTool | ActsForUser | RuntimeSession | ObservedAction
| OtherRelationship (name : string).
#[export] Instance RelationshipType_eq_dec : EqDecision RelationshipType.
Proof. solve_decision. Defined.

Definition relationship_type_string (t : RelationshipType) : string :=
  match t with
  | CanAssume => "can_assume" | AttachedPolicy => "attached_policy" | AttachedTo => "attached_to"
  | BoundTo => "bound_to" | CanAccess => "can_access" | CanImpersonate => "can_impersonate"
  | RunsAs => "runs_as" | UsesSecret => "uses_secret" | UsesImage => "uses_image"
  | CanDecrypt => "can_decrypt" | CanPassRole => "can_pass_role" | Invokes => "invokes"
  | CallsTool => "calls_tool" | ActsForUser => "acts_for_user" | RuntimeSession => "has_runtime_session"
  | ObservedAction => "observed_action" | OtherRelationship s => s
  end.

Record Relationship := mkRelationship {
  rel_ID : string; rel_Type : RelationshipType; rel_FromNodeID : string; rel_ToNodeID : string;
  rel_EvidenceRef : string; rel_DiscoveredAt : Z }.

(** The catalogue: for every semantic, the kinds its two ends must have. *)
Record RelationshipContract := { rc_From : string; rc_To : string }.
Definition RelationshipContractFor (t : RelationshipType) : option RelationshipContract :=
  let rc f t := Some {| rc_From := f; rc_To := t |} in
  match t with
  | CanAssume => rc "identity_or_aws_principal" "identity"
  | AttachedPolicy => rc "identity" "policy"
  | AttachedTo => rc "workload" "identity"
  | BoundTo => rc "workload" "identity"
  | CanAccess => rc "identity" "access"
  | CanImpersonate => rc "identity_or_workload" "identity"
  | RunsAs => rc "workload" "identity"
  | UsesSecret => rc "identity_workload_or_agent" "secret"
  | UsesImage => rc "identity_workload_or_agent" "image_repository"
  | CanDecrypt => rc "identity" "kms_key"
  | CanPassRole => rc "identity" "role_identity"
  | Invokes => rc "identity_workload_or_agent" "invocable"
  | CallsTool => rc "identity_workload_or_agent" "tool"
  | ActsForUser => rc "identity_workload_or_agent" "user_identity"
  | RuntimeSession => rc "identity_workload_or_agent" "runtime_session"
  | ObservedAction => rc "identity_workload_agent_or_runtime_session" "observed_action_target"
  | OtherRelationship _ => None
  end.
Definition IsSupportedRelationshipType (t : RelationshipType) : bool :=
  match RelationshipContractFor t with Some _ => true | None => false end.

Definition nonempty (s : string) : bool := negb (bool_decide (s = "")).
(** [strings.TrimSpace(s) != ""]. *)
Definition present (s : string) : bool := negb (blank s).

Definition Relationship_Validate (r : Relationship) : bool :=
  nonempty (rel_ID r) && IsSupportedRelationshipType (rel_Type r) &&
  nonempty (rel_FromNodeID r) && nonempty (rel_ToNodeID r).

(** ** Nodes *)
Record Identity := mkIdentity {
  id_ID : string; id_Provider : string; id_Type : string; id_IdentityKind : string; id_ManagedBy : string;
  id_Name : string; id_ARN : string; id_OwnerHint : string; id_CreatedAt : Z; id_LastUsedAt : option Z }.
Definition Identity_Validate (i : Identity) : bool :=
  nonempty (id_ID i) && nonempty (id_Provider i) && nonempty (id_Type i) && present (id_Name i).

Record Workload := mkWorkload {
  wl_ID : string; wl_Provider : string; wl_Type : string; wl_Name : string; wl_RawRef : string }.

Record Policy := mkPolicy {
  pol_ID : string; pol_Provider : string; pol_Name : string; pol_Document : string;
  pol_Normalized : list (string * any); pol_RawRef : string }.

Record Resource := mkResource {
  res_ID : string; res_Provider : string; res_Type : string; res_Name : string; res_ARN : string;
  res_Region : string; res_AccountID : string; res_Metadata : list (string * any);
  res_RawRef : string; res_SourceEntityID : string }.
Definition Resource_Validate (r : Resource) : bool :=
  present (res_ID r) && present (res_Provider r) && present (res_Type r) && present (res_Name r).

Record Credential := mkCredential {
  cred_ID : string; cred_Provider : string; cred_Type : string; cred_Name : string; cred_OwnerID : string;
  cred_ResourceID : string; cred_Reference : string; cred_RawRef : string; cred_RawValue : string }.
Definition Credential_Validate (c : Credential) : bool :=
  present (cred_ID c) && present (cred_Provider c) && present (cred_Type c) && present (cred_Name c).

Record Agent := mkAgent {
  ag_ID : string; ag_Provider : string; ag_Type : string; ag_Name : string; ag_OwnerID : string;
  ag_RawRef : string; ag_Metadata : list (string * any) }.
Definition Agent_Validate (a : Agent) : bool :=
  present (ag_ID a) && present (ag_Provider a) && present (ag_Type a) && present (ag_Name a).

Record RuntimeEvent := mkRuntimeEvent {
  ev_ID : string; ev_Provider : string; ev_Type : string; ev_ActorID : string; ev_TargetID : string;
  ev_CredentialID : string; ev_SourceRef : string; ev_ObservedAt : Z }.
Definition RuntimeEvent_Validate (e : RuntimeEvent) : bool :=
  present (ev_ID e) && present (ev_Provider e) && present (ev_Type e) && present (ev_ActorID e) &&
  present (ev_SourceRef e) && negb (IsZero (ev_ObservedAt e)).

(** ** [NormalizedBundle] and [PermissionTuple] *)
Record NormalizedBundle := mkBundle {
  b_Identities : list Identity; b_Workloads : list Workload; b_Policies : list Policy;
  b_Resources : list Resource; b_Credentials : list Credential; b_Agents : list Agent;
  b_RuntimeEvents : list RuntimeEvent }.

Record PermissionTuple := mkPermission {
  perm_IdentityID : string; perm_Action : string; perm_Resource : string; perm_Effect : string }.

(** ** Findings *)
Inductive FindingSeverity := SeverityCritical | SeverityHigh | SeverityMedium | SeverityLow | SeverityInfo.
Inductive FindingType :=
| FindingOverPrivileged | FindingEscalationPath | FindingStaleIdentity | FindingOwnerless
| FindingRiskyTrustPolicy | FindingSecretExposure | FindingRepoMisconfig.
#[export] Instance FindingSeverity_eq_dec : EqDecision FindingSeverity.
Proof. solve_decision. Defined.
#[export] Instance FindingType_eq_dec : EqDecision FindingType.
Proof. solve_decision. Defined.
Definition finding_type_string (t : FindingType) : string :=
  match t with
  | FindingOverPrivileged => "overprivileged_identity"
  | FindingEscalationPath => "escalation_path"
  | FindingStaleIdentity => "stale_identity"
  | FindingOwnerless => "ownerless_identity"
  | FindingRiskyTrustPolicy => "risky_trust_policy"
  | FindingSecretExposure => "secret_exposure"
  | FindingRepoMisconfig => "repo_misconfiguration"
  end.

(** A finding; the fields of repository findings are not set by the AWS rules
    and not modelled. *)
Record Finding := mkFinding {
  f_ID : string; f_Type : FindingType; f_Severity : FindingSeverity; f_ConfidenceScore : Z;
  f_Actionability : string; f_Exploitability : string; f_EvidenceCompleteness : string;
  f_Provenance : string; f_Title : string; f_HumanSummary : string; f_Path : list string;
  f_AdapterSource : string; f_ConfidenceState : string; f_EvidenceVersion : string;
  f_Evidence : list (string * any); f_Remediation : string; f_CreatedAt : Z }.

(** ** Names of resource types the graph looks at *)
Definition ResourceTypeSecretsManager := "secrets_manager_secret".
Definition ResourceTypeSSMParameter := "ssm_parameter".
Definition ResourceTypeECRRepository := "ecr_repository".
Definition ResourceTypeCredentialReference := "credential_reference".
Definition ResourceTypeBedrockAgentCore := "bedrock_agentcore".
Definition ResourceTypeTool := "tool".
Definition ResourceTypeKMSKey := "kms_key".
Definition ResourceTypeLambdaFunction := "lambda_function".

Lemma relationship_type_string_inj t u :
  IsSupportedRelationshipType t = true → IsSupportedRelationshipType u = true →
  relationship_type_string t = relationship_type_string u → t = u.
Proof. destruct t, u; done. Qed.

(** A blank string is not a node id. *)
Lemma present_nonempty s : present s = true → s ≠ "".
Proof. unfold present. intros H ->. discriminate H. Qed.
Lemma nonempty_true s : nonempty s = true ↔ s ≠ "".
Proof. unfold nonempty. by rewrite negb_true_iff, bool_decide_eq_false. Qed.
Lemma present_true s : present s = true ↔ TrimSpace s ≠ "".
Proof. unfold present. by rewrite negb_true_iff, blank_false. Qed.
#[export] Hint Rewrite nonempty_true present_true : identrail.
