(* ===== verification/GraphContract.v ===== *)
(** * The contracts between the stages of a scan

    [internal/providers/contracts.go] ([ValidateNormalizedBundle]) and
    [graph_contract.go] ([ValidateGraphContract]): what a normalizer must
    produce and what the edges of a relationship resolver must look like.  The
    second is compared with the catalogue of relationship semantics. *)
From S2P Require Import Prelude GoStrings GoCollections GoTime ScanDomain.

(** ** Loops that collect ids

    [for i, x := range l { if !valid(x) { return bad(i) }; if seen[x.ID] {
    return dup(x.ID) }; seen[x.ID] = {}; more }]: the loop of every section of
    the bundle check; [more] sees the ids collected so far, [x]'s included. *)
Section check_ids.
Context {A : Type} (valid : A → bool) (id : A → string) (bad : nat → error) (dup : string → error)
  (more : gset string → A → result unit).

Fixpoint check_ids (i : nat) (seen : gset string) (l : list A) : result (gset string) :=
  match l with
  | [] => Ok seen
  | x :: l =>
      if negb (valid x) then Err (bad i)
      else if decide (id x ∈ seen) then Err (dup (id x))
      else
        let seen := {[id x]} ∪ seen in
        _ ← more seen x;
        check_ids (S i) seen l
  end.

Lemma check_ids_Ok i seen l s :
  check_ids i seen l = Ok s →
  s = seen ∪ list_to_set (id <$> l) ∧ NoDup (id <$> l) ∧ (∀ x, x ∈ l → id x ∉ seen ∧ valid x = true) ∧
  (∀ x, x ∈ l → ∃ seen', seen' ⊆ s ∧ id x ∈ seen' ∧ more seen' x = Ok tt).
Proof.
  revert i seen. induction l as [|x l IH]; intros i seen H; cbn in H.
  - injection H as <-. cbn. split; [set_solver|]. split; [constructor|].
    split; intros y Hy; by apply elem_of_nil in Hy.
  - destruct (valid x) eqn:Ev; [|done]. cbn in H. destruct (decide (id x ∈ seen)) as [|Hn]; [done|].
    apply bind_Ok in H as ([] & Hm & H). apply IH in H as (-> & Hnd & Hv & Hmore). cbn. split; [set_solver|].
    split; [|split].
    + constructor; [|done]. intros (y & E & Hy)%list_elem_of_fmap. destruct (Hv y Hy) as [Hf _].
      rewrite <-E in Hf. set_solver.
    + intros y [->|Hy]%elem_of_cons; [done|]. destruct (Hv y Hy) as [? ?]. split; [set_solver|done].
    + intros y [->|Hy]%elem_of_cons; [|by apply Hmore].
      exists ({[id x]} ∪ seen). split; [set_solver|]. split; [set_solver|done].
Qed.

Lemma check_ids_total i seen l :
  (∀ x, x ∈ l → valid x = true ∧ id x ∉ seen) → NoDup (id <$> l) → (∀ seen' x, x ∈ l → more seen' x = Ok tt) →
  check_ids i seen l = Ok (seen ∪ list_to_set (id <$> l)).
Proof.
  revert i seen. induction l as [|x l IH]; intros i seen Hv Hnd Hmore; cbn; [by rewrite (right_id_L ∅ (∪))|].
  destruct (Hv x) as [-> Hx]; [by left|]. cbn. rewrite decide_False, Hmore by (done || by left). cbn.
  apply NoDup_cons in Hnd as [Hn Hnd]. rewrite IH; [f_equal; set_solver| |done|].
  - intros y Hy. destruct (Hv y) as [? Hyn]; [by right|]. split; [done|]. rewrite elem_of_union, elem_of_singleton.
    intros [E|?]; [|done]. apply Hn. rewrite <-E. by apply list_elem_of_fmap_2.
  - intros seen' y Hy. apply Hmore. by right.
Qed.
End check_ids.

(** ** [ValidateNormalizedBundle] *)

(** [%T]. *)
Definition go_type (v : any) : string :=
  match v with
  | ANil => "<nil>" | ABool _ => "bool" | AInt _ => "int" | AFloat _ => "float64" | AString _ => "string"
  | AStrings _ => "[]string" | AList _ => "[]interface {}" | AMap _ => "map[string]interface {}"
  | AMaps _ => "[]map[string]interface {}" | AStringMaps _ => "[]map[string]string"
  end.

Definition extractStringSlice (raw : any) : list string :=
  match raw with
  | AStrings values => SortStrings (unique (nonempty_map TrimSpace values))
  | AList values => SortStrings (unique (nonempty_map TrimSpace (as_string <$> values)))
  | _ => []
  end.

Definition validateStatement (statement : list (string * any)) : result unit :=
  _ ← guard_err (negb (blank (as_string (map_get statement "effect")))) (Errorf "statement missing effect");
  _ ← guard_err (negb (is_nil (extractStringSlice (map_get statement "actions")))) (Errorf "statement missing actions");
  guard_err (negb (is_nil (extractStringSlice (map_get statement "resources")))) (Errorf "statement missing resources").

Definition validate_raw_statement (raw : any) : result unit :=
  match as_map raw with
  | Some statement => validateStatement statement
  | None => Err (Errorf ("invalid statement type " +:+ go_type raw))
  end.

Definition validatePolicyNormalized (normalized : list (string * any)) (identityIDs : gset string) : result unit :=
  _ ← guard_err (negb (is_nil normalized)) (Errorf "missing normalized payload");
  let policyType := canon (as_string (map_get normalized "policy_type")) in
  _ ← guard_err (bool_decide (policyType = "permission") || bool_decide (policyType = "trust"))
        (Errorf ("unsupported policy_type " +:+ Quote policyType));
  let identityID := TrimSpace (as_string (map_get normalized "identity_id")) in
  _ ← guard_err (nonempty identityID) (Errorf "missing identity_id");
  _ ← guard_err (bool_decide (identityID ∈ identityIDs)) (Errorf ("unknown identity_id " +:+ Quote identityID));
  if decide (policyType = "permission") then
    match map_get normalized "statements" with
    | AMaps ((_ :: _) as statements) => forM_ validateStatement statements
    | AList ((_ :: _) as rawStatements) => forM_ validate_raw_statement rawStatements
    | _ => Err (Errorf "missing permission statements")
    end
  else
    guard_err (negb (is_nil (extractStringSlice (map_get normalized "principals"))) ||
               negb (is_nil (extractStringSlice (map_get normalized "service_principals"))))
      (Errorf "missing trust principals").

Definition synthetic_prefixes : list string :=
  ["aws:access:"; "k8s:access:"; "aws:secret:"; "k8s:secret:"; "secret:"; "kms:"; "aws:kms:"; "action:";
   "aws:action:"; "k8s:action:"; "invocable:"; "aws:lambda:"; "aws:service:"; "aws:resource:"; "k8s:workload:";
   "tool:"; "mcp:tool:"; "agent:"; "session:"; "runtime:session:"; "aws:session:"; "k8s:session:"].
Definition isSyntheticNodeID (nodeID : string) : bool :=
  bool_decide (nodeID = "") || existsb (HasPrefix nodeID) synthetic_prefixes.

Definition invalid_at (kind : string) (i : nat) : error := Errorf ("invalid " +:+ kind +:+ " at index " +:+ Itoa (Z.of_nat i)).
Definition duplicate_id (kind id : string) : error := Errorf ("duplicate " +:+ kind +:+ " id " +:+ Quote id).
Definition about (kind id what : string) : error := Errorf (kind +:+ " " +:+ Quote id +:+ " " +:+ what).

Definition workload_valid (w : Workload) : bool :=
  present (wl_ID w) && present (wl_Provider w) && present (wl_Type w) && present (wl_Name w).
Definition policy_valid (p : Policy) : bool :=
  present (pol_ID p) && present (pol_Provider p) && present (pol_Name p) && present (pol_RawRef p).

Definition validate_policy (identityIDs : gset string) (_ : gset string) (p : Policy) : result unit :=
  match validatePolicyNormalized (pol_Normalized p) identityIDs with
  | Ok _ => Ok tt
  | Err e => Err (Wrap ("invalid policy " +:+ Quote (pol_ID p) +:+ " normalized payload") e)
  end.

Definition validate_agent (identityIDs workloadIDs resourceIDs agentIDs : gset string) (a : Agent) : result unit :=
  _ ← guard_err (present (ag_RawRef a)) (about "agent" (ag_ID a) "missing raw_ref");
  guard_err (bool_decide (ag_OwnerID a = "") ||
             bool_decide (ag_OwnerID a ∈ identityIDs ∪ workloadIDs ∪ agentIDs ∪ resourceIDs))
    (about "agent" (ag_ID a) ("unknown owner_id " +:+ Quote (ag_OwnerID a))).

Definition validate_credential (entities resourceIDs : gset string) (_ : gset string) (c : Credential) : result unit :=
  let say := about "credential" (cred_ID c) in
  _ ← guard_err (present (cred_RawRef c)) (say "missing raw_ref");
  _ ← guard_err (present (cred_Reference c) || present (cred_ResourceID c)) (say "missing reference");
  _ ← guard_err (present (cred_Reference c) || present (cred_OwnerID c)) (say "missing owner_id");
  _ ← guard_err (bool_decide (cred_OwnerID c = "") || bool_decide (cred_OwnerID c ∈ entities))
        (say ("unknown owner_id " +:+ Quote (cred_OwnerID c)));
  _ ← guard_err (bool_decide (cred_ResourceID c = "") || bool_decide (cred_ResourceID c ∈ resourceIDs))
        (say ("unknown resource_id " +:+ Quote (cred_ResourceID c)));
  guard_err (bool_decide (cred_RawValue c = "")) (say "contains unredacted raw value").

Definition validate_runtime_event (nodes credentialIDs : gset string) (_ : gset string) (e : RuntimeEvent) : result unit :=
  let say := about "runtime event" (ev_ID e) in
  _ ← guard_err (bool_decide (ev_ActorID e ∈ nodes) || isSyntheticNodeID (ev_ActorID e))
        (say ("unknown actor_id " +:+ Quote (ev_ActorID e)));
  _ ← guard_err (bool_decide (ev_CredentialID e = "") || bool_decide (ev_CredentialID e ∈ credentialIDs))
        (say ("unknown credential_id " +:+ Quote (ev_CredentialID e)));
  guard_err (bool_decide (ev_TargetID e = "") || bool_decide (ev_TargetID e ∈ nodes) || isSyntheticNodeID (ev_TargetID e))
    (say ("unknown target_id " +:+ Quote (ev_TargetID e))).

Definition no_more {A} (_ : gset string) (_ : A) : result unit := Ok tt.

Definition ValidateNormalizedBundle (bundle : NormalizedBundle) : result unit :=
  identityIDs ← check_ids Identity_Validate id_ID (invalid_at "identity") (duplicate_id "identity") no_more
                  0 ∅ (b_Identities bundle);
  workloadIDs ← check_ids workload_valid wl_ID (invalid_at "workload") (duplicate_id "workload") no_more
                  0 ∅ (b_Workloads bundle);
  _ ← check_ids policy_valid pol_ID (invalid_at "policy") (duplicate_id "policy") (validate_policy identityIDs)
        0 ∅ (b_Policies bundle);
  resourceIDs ← check_ids Resource_Validate res_ID (invalid_at "resource") (duplicate_id "resource") no_more
                  0 ∅ (b_Resources bundle);
  agentIDs ← check_ids Agent_Validate ag_ID (invalid_at "agent") (duplicate_id "agent")
               (validate_agent identityIDs workloadIDs resourceIDs) 0 ∅ (b_Agents bundle);
  let entities := identityIDs ∪ workloadIDs ∪ agentIDs ∪ resourceIDs in
  credentialIDs ← check_ids Credential_Validate cred_ID (invalid_at "credential") (duplicate_id "credential")
                    (validate_credential entities resourceIDs) 0 ∅ (b_Credentials bundle);
  _ ← check_ids RuntimeEvent_Validate ev_ID (invalid_at "runtime event") (duplicate_id "runtime event")
        (validate_runtime_event (entities ∪ credentialIDs) credentialIDs) 0 ∅ (b_RuntimeEvents bundle);
  Ok tt.

(** What the later stages rely on. *)
Lemma ValidateNormalizedBundle_ids bundle :
  ValidateNormalizedBundle bundle = Ok tt →
  NoDup (id_ID <$> b_Identities bundle) ∧ NoDup (wl_ID <$> b_Workloads bundle) ∧
  NoDup (pol_ID <$> b_Policies bundle) ∧ NoDup (res_ID <$> b_Resources bundle) ∧
  NoDup (ag_ID <$> b_Agents bundle) ∧
  (∀ i, i ∈ b_Identities bundle → Identity_Validate i = true) ∧
  (∀ w, w ∈ b_Workloads bundle → workload_valid w = true) ∧
  (∀ p, p ∈ b_Policies bundle → policy_valid p = true) ∧
  (∀ r, r ∈ b_Resources bundle → Resource_Validate r = true) ∧
  (∀ a, a ∈ b_Agents bundle → Agent_Validate a = true) ∧
  (∀ p, p ∈ b_Policies bundle →
    validatePolicyNormalized (pol_Normalized p) (list_to_set (id_ID <$> b_Identities bundle)) = Ok tt).
Proof.
  intros H. unfold ValidateNormalizedBundle in H.
  open_bind H s1 H1. open_bind H s2 H2. open_bind H s3 H3. open_bind H s4 H4. open_bind H s5 H5. clear H.
  apply check_ids_Ok in H1 as (-> & N1 & V1 & _), H2 as (_ & N2 & V2 & _), H3 as (_ & N3 & V3 & M3),
    H4 as (_ & N4 & V4 & _), H5 as (_ & N5 & V5 & _).
  repeat split; try done; intros x Hx;
    try solve [by apply V1|by apply V2|by apply V3|by apply V4|by apply V5].
  apply M3 in Hx as (s & _ & _ & Hx). unfold validate_policy in Hx. rewrite (left_id_L ∅ (∪)) in Hx.
  by destruct (validatePolicyNormalized _ _) as [[]|].
Qed.

Lemma validatePolicyNormalized_identity n ids :
  validatePolicyNormalized n ids = Ok tt → TrimSpace (as_string (map_get n "identity_id")) ∈ ids.
Proof. unfold validatePolicyNormalized. intros H. inv_ok. by boolify. Qed.

(** ** [ValidateGraphContract] *)

(** The indexes built before the loop over the edges. *)
Record graph_nodes := GraphNodes {
  g_identityTypes : gmap string string; g_workloads : gset string; g_policies : gset string;
  g_resourceTypes : gmap string string; g_agents : gset string; g_sessions : gset string }.
Definition nodes_of (bundle : NormalizedBundle) : graph_nodes :=
  {| g_identityTypes := collect (λ i, Some (id_ID i, id_Type i)) (b_Identities bundle);
     g_workloads := list_to_set (wl_ID <$> b_Workloads bundle);
     g_policies := list_to_set (pol_ID <$> b_Policies bundle);
     g_resourceTypes := collect (λ r, Some (res_ID r, res_Type r)) (b_Resources bundle);
     g_agents := list_to_set (ag_ID <$> b_Agents bundle);
     g_sessions := list_to_set (ev_ID <$> filter (λ e, ev_Type e = "runtime_session") (b_RuntimeEvents bundle)) |}.

Section endpoints.
Context (g : graph_nodes).

Definition has_prefix_of (l : list string) (id : string) : bool := existsb (HasPrefix id) l.

Definition hasIdentity (id : string) : bool := bool_decide (is_Some (g_identityTypes g !! id)).
Definition hasWorkload (id : string) : bool := bool_decide (id ∈ g_workloads g).
Definition hasPolicy (id : string) : bool := bool_decide (id ∈ g_policies g).
Definition hasIdentityType (id t : string) : bool := bool_decide (g_identityTypes g !! id = Some t).
Definition hasResourceType (id t : string) : bool := bool_decide (g_resourceTypes g !! id = Some t).
Definition hasAgent (id : string) : bool :=
  bool_decide (id ∈ g_agents g) || has_prefix_of ["agent:"; "ai:agent:"; "aws:agent:"] id.
Definition hasActor (id : string) : bool := hasIdentity id || hasWorkload id || hasAgent id.
Definition hasAccessNode (id : string) : bool := has_prefix_of ["aws:access:"; "k8s:access:"] id.
Definition hasActionNode (id : string) : bool :=
  hasAccessNode id || has_prefix_of ["action:"; "aws:action:"; "k8s:action:"] id.
Definition hasSecretNode (id : string) : bool :=
  has_prefix_of ["secret:"; "aws:secret:"; "k8s:secret:"] id ||
  hasResourceType id ResourceTypeSSMParameter || hasResourceType id ResourceTypeSecretsManager ||
  hasResourceType id ResourceTypeCredentialReference.
Definition hasKMSKeyNode (id : string) : bool :=
  has_prefix_of ["kms:"; "aws:kms:"] id || hasResourceType id ResourceTypeKMSKey.
Definition hasRuntimeSession (id : string) : bool :=
  bool_decide (id ∈ g_sessions g) ||
  has_prefix_of ["session:"; "runtime:session:"; "aws:session:"; "k8s:session:"] id.
Definition hasInvocable (id : string) : bool :=
  hasWorkload id || hasResourceType id ResourceTypeLambdaFunction || hasResourceType id ResourceTypeTool ||
  has_prefix_of ["invocable:"; "aws:lambda:"; "aws:service:"; "aws:resource:"; "k8s:workload:"] id || hasAgent id.
Definition hasTool (id : string) : bool :=
  has_prefix_of ["tool:"; "mcp:tool:"; "agent:tool:"] id || hasResourceType id ResourceTypeTool.

Definition endpoint_error (r : Relationship) (what id : string) : error :=
  Errorf (relationship_type_string (rel_Type r) +:+ " relationship " +:+ Quote (rel_ID r) +:+ " has " +:+ what
          +:+ " " +:+ Quote id).

Definition validateRelationshipEndpoints (r : Relationship) : result unit :=
  let from := rel_FromNodeID r in
  let to := rel_ToNodeID r in
  let need (ok : bool) (what id : string) := guard_err ok (endpoint_error r what id) in
  match rel_Type r with
  | AttachedPolicy =>
      _ ← need (hasIdentity from) "unknown identity" from; need (hasPolicy to) "unknown policy" to
  | AttachedTo =>
      _ ← need (hasWorkload from) "unknown workload" from; need (hasIdentity to) "unknown identity" to
  | BoundTo =>
      _ ← need (hasWorkload from) "unknown workload" from; need (hasIdentity to) "unknown identity" to
  | CanAssume =>
      _ ← need (hasIdentity to) "unknown target identity" to;
      need (hasIdentity from || HasPrefix from "aws:principal:") "unknown source" from
  | CanImpersonate =>
      _ ← need (hasIdentity to) "unknown target identity" to;
      need (hasIdentity from || hasWorkload from) "unknown source" from
  | CanAccess =>
      _ ← need (hasIdentity from) "unknown source identity" from;
      need (hasAccessNode to) "invalid access node" to
  | RunsAs =>
      _ ← need (hasWorkload from || hasAgent from) "unknown workload or agent" from;
      need (hasIdentity to) "unknown target identity" to
  | UsesSecret =>
      _ ← need (hasActor from) "unknown source actor" from; need (hasSecretNode to) "invalid secret node" to
  | CanDecrypt =>
      _ ← need (hasIdentity from) "unknown source identity" from; need (hasKMSKeyNode to) "invalid key node" to
  | CanPassRole =>
      _ ← need (hasIdentity from) "unknown source identity" from;
      need (hasIdentityType to "role") "unknown target role identity" to
  | Invokes =>
      _ ← need (hasActor from) "unknown source actor" from; need (hasInvocable to) "invalid invocable node" to
  | CallsTool =>
      _ ← need (hasActor from) "unknown source actor" from; need (hasTool to) "invalid tool node" to
  | ActsForUser =>
      _ ← need (hasActor from) "unknown source actor" from;
      need (hasIdentityType to "user") "unknown target user identity" to
  | RuntimeSession =>
      _ ← need (hasActor from) "unknown source actor" from;
      need (hasRuntimeSession to) "invalid runtime session node" to
  | ObservedAction =>
      _ ← need (hasActor from || hasRuntimeSession from) "unknown source actor or runtime session" from;
      need (hasActionNode to) "invalid action node" to
  | _ => Err (Errorf ("unsupported relationship type " +:+ Quote (relationship_type_string (rel_Type r))))
  end.
End endpoints.
#[global] Arguments has_prefix_of : simpl never.
#[global] Arguments HasPrefix : simpl never.

(** [strings.Join([]string{type, from, to}, "|")]. *)
Definition semanticKey (r : Relationship) : string :=
  Join [relationship_type_string (rel_Type r); rel_FromNodeID r; rel_ToNodeID r] "|".

Fixpoint validate_edges (g : graph_nodes) (i : nat) (seenIDs seenSemantics : gset string)
    (l : list Relationship) : result unit :=
  match l with
  | [] => Ok tt
  | r :: l =>
      _ ← guard_err (Relationship_Validate r) (invalid_at "relationship" i);
      _ ← guard_err (negb (IsZero (rel_DiscoveredAt r))) (about "relationship" (rel_ID r) "missing discovered_at");
      _ ← guard_err (bool_decide (rel_ID r ∉ seenIDs)) (duplicate_id "relationship" (rel_ID r));
      _ ← guard_err (bool_decide (semanticKey r ∉ seenSemantics))
            (Errorf ("duplicate relationship semantic " +:+ Quote (semanticKey r)));
      _ ← validateRelationshipEndpoints g r;
      validate_edges g (S i) ({[rel_ID r]} ∪ seenIDs) ({[semanticKey r]} ∪ seenSemantics) l
  end.

Definition ValidateGraphContract (bundle : NormalizedBundle) (relationships : list Relationship) : result unit :=
  validate_edges (nodes_of bundle) 0 ∅ ∅ relationships.

(** ** What it accepts *)

(** One edge, by itself. *)
Definition edge_ok (g : graph_nodes) (r : Relationship) : Prop :=
  Relationship_Validate r = true ∧ IsZero (rel_DiscoveredAt r) = false ∧ validateRelationshipEndpoints g r = Ok tt.

Lemma guard_Ok_tt b e : guard_err b e = Ok tt ↔ b = true.
Proof. apply guard_err_Ok. Qed.

Lemma validate_edges_Ok g i ids sems l :
  validate_edges g i ids sems l = Ok tt ↔
  Forall (edge_ok g) l ∧ NoDup (rel_ID <$> l) ∧ NoDup (semanticKey <$> l) ∧
  (∀ r, r ∈ l → rel_ID r ∉ ids ∧ semanticKey r ∉ sems).
Proof.
  revert i ids sems. induction l as [|r l IH]; intros i ids sems; cbn.
  { split; [|done]. intros _. repeat split; try constructor; by apply elem_of_nil in H. }
  transitivity (edge_ok g r ∧ (rel_ID r ∉ ids ∧ semanticKey r ∉ sems) ∧
    validate_edges g (S i) ({[rel_ID r]} ∪ ids) ({[semanticKey r]} ∪ sems) l = Ok tt).
  { unfold edge_ok. split.
    - intros H. inv_ok. boolify. auto.
    - intros ((E1 & E2 & E3) & (? & ?) & Hl). rewrite E1, E2, E3, !bool_decide_true by done. done. }
  rewrite IH, !NoDup_cons, Forall_cons, !list_elem_of_fmap. split.
  - intros (Hok & [H1 H2] & Hall & N1 & N2 & Hfresh). split; [done|]. split; [|split].
    + split; [|done]. intros (y & E & Hy). apply Hfresh in Hy as [Hy _]. rewrite <-E in Hy. set_solver.
    + split; [|done]. intros (y & E & Hy). apply Hfresh in Hy as [_ Hy]. rewrite <-E in Hy. set_solver.
    + intros y [->|Hy]%elem_of_cons; [done|]. apply Hfresh in Hy as [??]. set_solver.
  - intros ([Hok Hall] & [D1 N1] & [D2 N2] & Hfresh). split; [done|]. split; [by apply Hfresh; left|].
    split; [done|]. split; [done|]. split; [done|]. intros y Hy. destruct (Hfresh y) as [??]; [by right|].
    split; intros [E|?]%elem_of_union; try done; apply elem_of_singleton in E; [apply D1|apply D2]; by exists y.
Qed.

Lemma ValidateGraphContract_Ok bundle l :
  ValidateGraphContract bundle l = Ok tt ↔
  Forall (edge_ok (nodes_of bundle)) l ∧ NoDup (rel_ID <$> l) ∧ NoDup (semanticKey <$> l).
Proof. unfold ValidateGraphContract. rewrite validate_edges_Ok. set_solver. Qed.

(** The kinds of node the catalogue names, over the nodes of a bundle. *)
Definition node_of_kind (g : graph_nodes) (kind id : string) : Prop :=
  match kind with
  | "identity" => is_Some (g_identityTypes g !! id)
  | "identity_or_aws_principal" => is_Some (g_identityTypes g !! id) ∨ HasPrefix id "aws:principal:" = true
  | "identity_or_workload" => is_Some (g_identityTypes g !! id) ∨ id ∈ g_workloads g
  | "workload" => id ∈ g_workloads g
  | "policy" => id ∈ g_policies g
  | "access" => hasAccessNode id = true
  | "secret" => hasSecretNode g id = true
  | "kms_key" => hasKMSKeyNode g id = true
  | "role_identity" => g_identityTypes g !! id = Some "role"
  | "identity_workload_or_agent" => is_Some (g_identityTypes g !! id) ∨ id ∈ g_workloads g ∨ hasAgent g id = true
  | "invocable" => hasInvocable g id = true
  | "tool" => hasTool g id = true
  | "user_identity" => g_identityTypes g !! id = Some "user"
  | "runtime_session" => hasRuntimeSession g id = true
  | "identity_workload_agent_or_runtime_session" =>
      is_Some (g_identityTypes g !! id) ∨ id ∈ g_workloads g ∨ hasAgent g id = true ∨ hasRuntimeSession g id = true
  | "observed_action_target" => hasActionNode id = true
  | _ => False
  end.

(** The ends of an edge against its catalogue entry.  The validator departs
    from the catalogue twice: an agent may run as an identity, and no
    [uses_image] edge is accepted, whatever its ends. *)
Definition ends_match (g : graph_nodes) (r : Relationship) (rc : RelationshipContract) : Prop :=
  match rel_Type r with
  | UsesImage => False
  | RunsAs => rel_FromNodeID r ∈ g_workloads g ∨ hasAgent g (rel_FromNodeID r) = true
  | _ => node_of_kind g (rc_From rc) (rel_FromNodeID r)
  end ∧ node_of_kind g (rc_To rc) (rel_ToNodeID r).

Lemma endpoints_catalogue g r rc :
  RelationshipContractFor (rel_Type r) = Some rc →
  validateRelationshipEndpoints g r = Ok tt ↔ ends_match g r rc.
Proof.
  unfold ends_match, validateRelationshipEndpoints. intros H. destruct (rel_Type r); cbn in H; simplify_eq;
    cbn [rc_From rc_To node_of_kind]; unfold hasActor, hasIdentity, hasWorkload, hasPolicy, hasIdentityType.
  9: { split; [done|by intros [[] _]]. }
  all: rewrite ?bind_Ok; split;
    [ intros H; repeat match goal with
        | H : ∃ u : unit, _ |- _ => destruct H as ([] & H1 & H)
        | H : guard_err _ _ = Ok _ |- _ => apply guard_err_Ok in H
        | H : _ ∧ _ |- _ => destruct H
        end; rewrite ?orb_true_iff, ?bool_decide_eq_true in *; naive_solver
    | intros [H1 H2]; try exists tt; rewrite ?guard_err_Ok, ?orb_true_iff, ?bool_decide_eq_true; naive_solver].
Qed.

(** An edge list passes the contract exactly when its ids and its (type, from, to) triples are distinct and every edge has an id, ends and a discovery time, a type the relationship catalogue lists, and ends of the kinds the catalogue names for that type, with two departures: agents too may be the source of a runs_as edge, and a uses_image edge never passes although the catalogue lists it. *)
Theorem ValidateGraphContract_catalogue bundle l :
  ValidateGraphContract bundle l = Ok tt ↔
  NoDup (rel_ID <$> l) ∧ NoDup (semanticKey <$> l) ∧
  ∀ r, r ∈ l →
    rel_ID r ≠ "" ∧ rel_FromNodeID r ≠ "" ∧ rel_ToNodeID r ≠ "" ∧ IsZero (rel_DiscoveredAt r) = false ∧
    ∃ rc, RelationshipContractFor (rel_Type r) = Some rc ∧ ends_match (nodes_of bundle) r rc.
Proof.
  rewrite ValidateGraphContract_Ok, Forall_forall.
  assert (Hedge : ∀ r, edge_ok (nodes_of bundle) r ↔
    rel_ID r ≠ "" ∧ rel_FromNodeID r ≠ "" ∧ rel_ToNodeID r ≠ "" ∧ IsZero (rel_DiscoveredAt r) = false ∧
    ∃ rc, RelationshipContractFor (rel_Type r) = Some rc ∧ ends_match (nodes_of bundle) r rc).
  { intros r. unfold edge_ok, Relationship_Validate, IsSupportedRelationshipType.
    rewrite !andb_true_iff, !nonempty_true. destruct (RelationshipContractFor (rel_Type r)) as [rc|] eqn:E.
    - rewrite (endpoints_catalogue _ _ rc E). naive_solver.
    - naive_solver. }
  setoid_rewrite Hedge. naive_solver.
Qed.

(** One resolved container image is enough for the whole edge list to be
    refused. *)
Theorem uses_image_rejected bundle l r :
  r ∈ l → rel_Type r = UsesImage → ValidateGraphContract bundle l ≠ Ok tt.
Proof.
  rewrite ValidateGraphContract_Ok, Forall_forall. intros Hr Ht (H & _).
  destruct (H r Hr) as (_ & _ & He). unfold validateRelationshipEndpoints in He. by rewrite Ht in He.
Qed.

(** Every statement is looked at, the first included. *)
Example first_statement_checked :
  validatePolicyNormalized
    [("policy_type", AString "permission"); ("identity_id", AString "i"); ("statements", AMaps [[("effect", AString " ")]])]
    {["i"]} = Err (Errorf "statement missing effect").
Proof. vm_compute. reflexivity. Qed.

(** ** Showing that edges satisfy the contract *)
Section nodes.
Context (bundle : NormalizedBundle).

Lemma hasIdentity_nodes id : id ∈ id_ID <$> b_Identities bundle → hasIdentity (nodes_of bundle) id = true.
Proof.
  intros (i & -> & Hi)%list_elem_of_fmap. apply bool_decide_eq_true, collect_is_Some. by exists i, (id_Type i).
Qed.
Lemma hasWorkload_nodes w : w ∈ b_Workloads bundle → hasWorkload (nodes_of bundle) (wl_ID w) = true.
Proof. intros Hw. apply bool_decide_eq_true, elem_of_list_to_set. by apply list_elem_of_fmap_2. Qed.
Lemma hasPolicy_nodes p : p ∈ b_Policies bundle → hasPolicy (nodes_of bundle) (pol_ID p) = true.
Proof. intros Hw. apply bool_decide_eq_true, elem_of_list_to_set. by apply list_elem_of_fmap_2. Qed.
Lemma hasAgent_nodes a : a ∈ b_Agents bundle → hasAgent (nodes_of bundle) (ag_ID a) = true.
Proof.
  intros Hw. apply orb_true_iff. left. apply bool_decide_eq_true, elem_of_list_to_set. by apply list_elem_of_fmap_2.
Qed.
Lemma hasResourceType_nodes r :
  NoDup (res_ID <$> b_Resources bundle) → r ∈ b_Resources bundle →
  hasResourceType (nodes_of bundle) (res_ID r) (res_Type r) = true.
Proof.
  intros Hnd Hr. apply bool_decide_eq_true. apply collect_lookup; [|by exists r].
  intros x y k b c Hx Hy E1 E2. simplify_eq. f_equal.
  apply list_elem_of_lookup in Hx as [i Hx], Hy as [j Hy].
  assert (i = j) as ->; [|congruence].
  eapply NoDup_lookup; [apply Hnd|..]; rewrite list_lookup_fmap; [by rewrite Hx|rewrite Hy; cbn; congruence].
Qed.
End nodes.
#[export] Hint Resolve hasIdentity_nodes hasWorkload_nodes hasPolicy_nodes hasAgent_nodes hasResourceType_nodes : identrail.

Lemma endpoints_supported g r : validateRelationshipEndpoints g r = Ok tt → IsSupportedRelationshipType (rel_Type r) = true.
Proof. unfold validateRelationshipEndpoints. by destruct (rel_Type r). Qed.

Lemma ValidateGraphContract_intro bundle l :
  (∀ r, r ∈ l → rel_ID r ≠ "" ∧ rel_FromNodeID r ≠ "" ∧ rel_ToNodeID r ≠ "" ∧ IsZero (rel_DiscoveredAt r) = false ∧
     validateRelationshipEndpoints (nodes_of bundle) r = Ok tt) →
  NoDup (rel_ID <$> l) →
  (∀ r s, r ∈ l → s ∈ l → semanticKey r = semanticKey s → rel_ID r = rel_ID s) →
  ValidateGraphContract bundle l = Ok tt.
Proof.
  intros Hok Hnd Hkey. apply ValidateGraphContract_Ok. split; [|split; [done|]].
  - apply Forall_forall. intros r Hr. destruct (Hok r Hr) as (? & ? & ? & ? & He). split; [|done].
    unfold Relationship_Validate. rewrite (endpoints_supported _ _ He), !andb_true_iff, !nonempty_true. done.
  - clear Hok. induction l as [|r l IH]; cbn in *; [constructor|]. apply NoDup_cons in Hnd as [Hr Hnd]. constructor.
    + intros (s & E & Hs)%list_elem_of_fmap. apply Hr, list_elem_of_fmap. exists s. split; [|done].
      apply Hkey; [by left|by right|done].
    + apply IH; [done|]. intros s t Hs Ht. apply Hkey; by right.
Qed.
