(* ===== verification/AwsPolicies.v ===== *)
(** * AWS policy payloads and the permissions they grant

    [internal/providers/aws/model.go] (policy documents, principals, string
    lists) and [permissions.go] (the permission resolver).  [encoding/json]'s
    parser is a parameter: the code depends on the tree it returns. *)
From S2P Require Import Prelude GoStrings GoCollections GoText ScanDomain.

(** ** String lists *)
Definition dedupeStrings (items : list string) : list string := unique (nonempty_map TrimSpace items).
Definition sortedUniqueStrings (values : list string) : list string := SortStrings (dedupeStrings values).

Definition parseStringList (value : any) : list string :=
  match value with
  | AString s => if blank s then [] else [s]
  | AList l => filter (λ s, blank s = false) (omap (λ v, match v with AString s => Some s | _ => None end) l)
  | AStrings l => l
  | _ => []
  end.

(** [firstNonEmptyAWSValue]: the first non-blank value, trimmed. *)
Fixpoint firstNonEmptyAWSValue (values : list string) : string :=
  match values with
  | [] => ""
  | v :: values => if blank v then firstNonEmptyAWSValue values else TrimSpace v
  end.

Definition normalizeStringList (values : list string) : list string := unique (nonempty_map TrimSpace values).

Lemma elem_of_dedupeStrings l x : x ∈ dedupeStrings l ↔ x ≠ "" ∧ ∃ y, y ∈ l ∧ TrimSpace y = x.
Proof. unfold dedupeStrings. rewrite elem_of_unique, elem_of_nonempty_map. naive_solver. Qed.
Lemma elem_of_sortedUniqueStrings l x : x ∈ sortedUniqueStrings l ↔ x ≠ "" ∧ ∃ y, y ∈ l ∧ TrimSpace y = x.
Proof. unfold sortedUniqueStrings. by rewrite SortStrings_perm, elem_of_dedupeStrings. Qed.

(** ** Policy documents *)
Record iamPolicyStatement := {
  st_Effect : string; st_Action : any; st_NotAction : any; st_Resource : any; st_NotResource : any;
  st_Principal : any; st_Condition : list (string * any) }.
Record iamPolicyDocument := { doc_Version : string; doc_Statement : list iamPolicyStatement }.
Definition empty_document : iamPolicyDocument := {| doc_Version := ""; doc_Statement := [] |}.
Definition zero_statement : iamPolicyStatement :=
  {| st_Effect := ""; st_Action := ANil; st_NotAction := ANil; st_Resource := ANil; st_NotResource := ANil;
     st_Principal := ANil; st_Condition := [] |}.

(** [encoding/json] stores an object's member in the field whose name it equals
    up to case; of several such members the last one wins. *)
Definition json_field (m : list (string * any)) (name : string) : any :=
  foldl (λ found kv, if EqualFold kv.1 name then kv.2 else found) ANil m.
Definition decode_string (v : any) : option string :=
  match v with AString s => Some s | ANil => Some "" | _ => None end.
Definition decode_map (v : any) : option (list (string * any)) :=
  match v with AMap m => Some m | ANil => Some [] | _ => None end.

Definition decode_statement (v : any) : option iamPolicyStatement :=
  match v with
  | ANil => Some zero_statement
  | AMap m =>
      effect ← decode_string (json_field m "Effect");
      condition ← decode_map (json_field m "Condition");
      Some {| st_Effect := effect; st_Action := json_field m "Action"; st_NotAction := json_field m "NotAction";
              st_Resource := json_field m "Resource"; st_NotResource := json_field m "NotResource";
              st_Principal := json_field m "Principal"; st_Condition := condition |}
  | _ => None
  end.

(** [iamPolicyStatements.UnmarshalJSON]: one statement with an effect, or a
    list of statements. *)
Definition UnmarshalStatements (data : any) : option (list iamPolicyStatement) :=
  match data with
  | ANil => Some []
  | _ =>
      match decode_statement data with
      | Some single =>
          if nonempty (st_Effect single) then Some [single] else None
      | None => match data with AList l => mapM decode_statement l | _ => None end
      end
  end.
Definition decode_document (v : any) : option iamPolicyDocument :=
  match v with
  | ANil => Some empty_document
  | AMap m =>
      version ← decode_string (json_field m "Version");
      statements ← UnmarshalStatements (json_field m "Statement");
      Some {| doc_Version := version; doc_Statement := statements |}
  | _ => None
  end.

Definition parsePolicyDocument `{JSON} (raw : string) : result iamPolicyDocument :=
  let trimmed := TrimSpace raw in
  if decide (trimmed = "") then Ok empty_document
  else
    let decoded :=
      if Contains trimmed "%" then default trimmed (QueryUnescape trimmed) else trimmed in
    match json_parse decoded ≫= decode_document with
    | Some doc => Ok doc
    | None => Err (Wrap "parse policy document" (Errorf "invalid JSON"))
    end.

Definition canonicalEffect (effect : string) : option string :=
  let e := canon effect in
  if decide (e = "allow") then Some "Allow"
  else if decide (e = "deny") then Some "Deny"
  else None.

Definition normalizedStatement (effect : string) (actions resources : list string) : option (list (string * any)) :=
  canonical ← canonicalEffect effect;
  Some [("effect", AString canonical); ("actions", AStrings (dedupeStrings actions));
        ("resources", AStrings (dedupeStrings resources))].

Definition parseAWSPrincipals (principal : any) : list string :=
  match principal with
  | AString star => if decide (star = "*") then ["*"] else []
  | AMap m => dedupeStrings (parseStringList (map_get m "AWS"))
  | _ => []
  end.

Fixpoint first_fold_key (m : list (string * any)) (name : string) : option any :=
  match m with
  | [] => None
  | (k, v) :: m => if EqualFold (TrimSpace k) name then Some v else first_fold_key m name
  end.
Definition parsePrincipalType (principal : any) (principalType : string) : list string :=
  match principal with
  | AMap m =>
      match first_fold_key m principalType with
      | Some v => dedupeStrings (parseStringList v)
      | None => []
      end
  | _ => []
  end.

(** ** Permissions *)
Definition policyTypePerm := "permission".
Definition policyTypeTrust := "trust".
Definition policy_type (p : Policy) : string := as_string (map_get (pol_Normalized p) "policy_type").
Definition policy_identity (p : Policy) : string := as_string (map_get (pol_Normalized p) "identity_id").

Definition parseNormalizedStatements (raw : any) : result (list (list (string * any))) :=
  match raw with
  | AMaps l => Ok l
  | AList l =>
      foldr (λ item acc,
        match as_map item with
        | Some statement => rest ← acc; Ok (statement :: rest)
        | None => Err (Errorf "statement has unexpected type")
        end) (Ok []) l
  | _ => Err (Errorf "expected statement array")
  end.

Definition statement_tuples (identityID : string) (statement : list (string * any)) : list PermissionTuple :=
  let effect := as_string (map_get statement "effect") in
  action ← parseStringList (map_get statement "actions");
  resource ← parseStringList (map_get statement "resources");
  [{| perm_IdentityID := identityID; perm_Action := action; perm_Resource := resource; perm_Effect := effect |}].

Definition tuple_key (t : PermissionTuple) : string :=
  perm_IdentityID t +:+ "|" +:+ perm_Action t +:+ "|" +:+ perm_Resource t +:+ "|" +:+ perm_Effect t.

(** The tuples of one policy, duplicates included. *)
Definition policy_tuples (policy : Policy) : result (list PermissionTuple) :=
  if decide (policy_type policy = policyTypePerm) then
    let identityID := policy_identity policy in
    _ ← guard_err (nonempty identityID) (Errorf ("policy " +:+ pol_ID policy +:+ " missing identity_id"));
    match parseNormalizedStatements (map_get (pol_Normalized policy) "statements") with
    | Ok statements => Ok (statements ≫= statement_tuples identityID)
    | Err e => Err (Wrap ("policy " +:+ pol_ID policy +:+ " invalid statements") e)
    end
  else Ok [].

Definition ResolvePermissions (bundle : NormalizedBundle) : result (list PermissionTuple) :=
  tuples ← concat_results policy_tuples (b_Policies bundle);
  Ok (dedup_by tuple_key tuples).

(** *** What the resolver computes *)

(** A permission policy of [id] has a statement with this effect, action and
    resource. *)
Definition grants (bundle : NormalizedBundle) (id effect action resource : string) : Prop :=
  ∃ policy statements statement,
    policy ∈ b_Policies bundle ∧ policy_type policy = policyTypePerm ∧ policy_identity policy = id ∧
    parseNormalizedStatements (map_get (pol_Normalized policy) "statements") = Ok statements ∧
    statement ∈ statements ∧ as_string (map_get statement "effect") = effect ∧
    action ∈ parseStringList (map_get statement "actions") ∧
    resource ∈ parseStringList (map_get statement "resources").

Lemma elem_of_statement_tuples id st t :
  t ∈ statement_tuples id st ↔
  perm_IdentityID t = id ∧ perm_Effect t = as_string (map_get st "effect") ∧
  perm_Action t ∈ parseStringList (map_get st "actions") ∧
  perm_Resource t ∈ parseStringList (map_get st "resources").
Proof.
  unfold statement_tuples. rewrite list_elem_of_bind. split.
  - intros (a & (r & Ht & Hr)%list_elem_of_bind & Ha). apply list_elem_of_singleton in Ht as ->. done.
  - destruct t as [i a r e]; cbn. intros (<- & -> & Ha & Hr). exists a. split; [|done].
    apply list_elem_of_bind. exists r. split; [by left|done].
Qed.

Lemma elem_of_policy_tuples bundle policy ts t :
  policy ∈ b_Policies bundle → policy_tuples policy = Ok ts →
  t ∈ ts → grants bundle (perm_IdentityID t) (perm_Effect t) (perm_Action t) (perm_Resource t).
Proof.
  intros Hp. unfold policy_tuples. destruct (decide _) as [Hty|]; intros H Ht.
  - apply bind_Ok in H as (? & _ & H). destruct (parseNormalizedStatements _) as [sts|] eqn:Es; [|done].
    injection H as <-. apply list_elem_of_bind in Ht as (st & Ht & Hst).
    apply elem_of_statement_tuples in Ht as (? & ? & ? & ?). by exists policy, sts, st.
  - injection H as <-. by apply elem_of_nil in Ht.
Qed.

Lemma policy_tuples_complete policy ts sts st id e a r :
  policy_tuples policy = Ok ts → policy_type policy = policyTypePerm → policy_identity policy = id →
  parseNormalizedStatements (map_get (pol_Normalized policy) "statements") = Ok sts →
  st ∈ sts → as_string (map_get st "effect") = e →
  a ∈ parseStringList (map_get st "actions") → r ∈ parseStringList (map_get st "resources") →
  mkPermission id a r e ∈ ts.
Proof.
  intros H Hty Hid Hsts Hst He Ha Hr. unfold policy_tuples in H. rewrite decide_True in H by done.
  apply bind_Ok in H as (? & _ & H). rewrite Hsts in H. injection H as <-.
  apply list_elem_of_bind. exists st. split; [|done]. apply elem_of_statement_tuples. cbn. auto.
Qed.

Lemma ResolvePermissions_sound bundle ts t :
  ResolvePermissions bundle = Ok ts → t ∈ ts →
  grants bundle (perm_IdentityID t) (perm_Effect t) (perm_Action t) (perm_Resource t).
Proof.
  unfold ResolvePermissions. intros H Ht. open_bind H l Hl. injection H as <-.
  apply elem_of_dedup_by in Ht. apply (elem_of_concat_results _ _ _ t Hl) in Ht as (p & ys & Hp & Hys & Ht).
  by eapply elem_of_policy_tuples.
Qed.

Lemma grants_tuples bundle l id e a r :
  concat_results policy_tuples (b_Policies bundle) = Ok l → grants bundle id e a r → mkPermission id a r e ∈ l.
Proof.
  intros Hl (p & sts & st & Hp & Hty & Hid & Hsts & Hst & He & Ha & Hr).
  destruct (concat_results_each _ _ _ p Hl Hp) as [ys Hys]. apply (elem_of_concat_results _ _ _ _ Hl).
  exists p, ys. repeat split; try done. by eapply policy_tuples_complete.
Qed.

(** Nothing granted is lost, except that two grants whose joined keys coincide
    count as one. *)
Lemma ResolvePermissions_complete bundle ts id e a r :
  ResolvePermissions bundle = Ok ts → grants bundle id e a r →
  ∃ t, t ∈ ts ∧ tuple_key t = tuple_key (mkPermission id a r e).
Proof.
  unfold ResolvePermissions. intros H Hg. open_bind H l Hl. injection H as <-.
  apply dedup_by_complete. by apply (grants_tuples _ _ _ _ _ _ Hl).
Qed.

(** Granted permissions that the joined key keeps apart: no separator in the
    identity, the action and the resource. *)
Lemma tuple_key_inj t u :
  no_byte "|" (perm_IdentityID t) → no_byte "|" (perm_Action t) → no_byte "|" (perm_Resource t) →
  no_byte "|" (perm_IdentityID u) → no_byte "|" (perm_Action u) → no_byte "|" (perm_Resource u) →
  tuple_key t = tuple_key u → t = u.
Proof.
  destruct t as [i a r e], u as [i' a' r' e']; unfold tuple_key; cbn. intros ?????? E.
  apply (join_inj "|") in E as [-> E]; [|done..]. apply (join_inj "|") in E as [-> E]; [|done..].
  apply (join_inj "|") in E as [-> ->]; done.
Qed.
