(* ===== verification/AwsReferences.v ===== *)
(** * References from workloads to secrets, parameters and provider keys

    The lookup keys of Secrets Manager secrets
    ([secrets_manager_metadata_collector.go]), SSM parameters
    ([ssm_parameter_metadata_collector.go]) and ECR repositories
    ([ecr_repository_metadata_collector.go], [graph.go]), and the credential
    reference mapper ([credential_reference_mapper.go]), all under
    [internal/providers/aws]. *)
From S2P Require Import Prelude GoStrings GoCollections GoTime GoText ScanDomain AwsPolicies.

(** [hex.EncodeToString(sum[:16])] of a SHA-256 sum. *)
Class SHA256 := { sha256_hex16 : string → string }.

(** [idx > 0] for the result of [strings.Index]. *)
Definition positive_index (o : option nat) : option nat := match o with Some (S i) => Some (S i) | _ => None end.

(** ** Secrets *)
Definition secretNameFromARN (arn : string) : string :=
  match SplitN (TrimSpace arn) ":" 7 with
  | [_; _; _; _; _; _; last] =>
      let resource := TrimPrefix last "secret:" in
      let resource :=
        match positive_index (Index resource ":") with Some i => str_take i resource | None => resource end in
      match positive_index (LastIndex resource "-") with
      | Some i => if decide (str_len resource - i = 7)%nat then str_take i resource else resource
      | None => resource
      end
  | _ => ""
  end.

Definition secretsManagerReferenceKeys (secretARN secretName : string) : list string :=
  let arn := TrimSpace secretARN in
  let name := TrimSpace secretName in
  dedupeStrings
    ((if nonempty arn then arn :: (if nonempty (secretNameFromARN arn) then [secretNameFromARN arn] else []) else [])
     ++ (if nonempty name then [name] else [])).

(** The forms a workload's reference can be read as: the whole reference, what
    follows its last ["="], and what follows a source prefix of either.  The
    flag tells whether a ["name:suffix"] form may be cut at the colon. *)
Definition add_prefixed (candidates : list (string * bool)) (prefix : string) : list (string * bool) :=
  candidates ++ omap (λ c, if HasPrefix c.1 prefix then Some (TrimSpace (TrimPrefix c.1 prefix), true) else None) candidates.
Definition reference_candidates (prefixes : list string) (trimmed : string) : list (string * bool) :=
  let assigned :=
    match LastIndex trimmed "=" with
    | Some i => if decide (i < str_len trimmed - 1)%nat then [(TrimSpace (str_drop (S i) trimmed), true)] else []
    | None => []
    end in
  foldl add_prefixed ((trimmed, false) :: assigned) prefixes.

Definition secretsManagerReferenceBase (ref : string) (allowNameBase : bool) : string :=
  let trimmed := TrimSpace ref in
  let marker := ":secret:" in
  if Contains trimmed ":secretsmanager:" && Contains trimmed marker then
    match Index trimmed marker with
    | Some i =>
        let resource := TrimSpace (str_drop (i + str_len marker) trimmed) in
        let resource :=
          match positive_index (Index resource ":") with Some j => str_take j resource | None => resource end in
        str_take i trimmed +:+ marker +:+ resource
    | None => trimmed
    end
  else
    match positive_index (Index trimmed ":") with
    | Some i => if allowNameBase then TrimSpace (str_take i trimmed) else trimmed
    | None => trimmed
    end.

Definition secret_candidate_keys (c : string * bool) : list string :=
  let value := TrimSpace c.1 in
  if decide (value = "") then []
  else
    let base := secretsManagerReferenceBase value c.2 in
    let cut := nonempty base && negb (bool_decide (base = value)) in
    let last := if cut then base else value in
    value :: (if cut then [base] else []) ++
    (if Contains last ":secretsmanager:" then [secretNameFromARN last] else []).

Definition secretsManagerReferenceKeysFromRef (ref : string) : list string :=
  let trimmed := TrimSpace ref in
  if decide (trimmed = "") then []
  else dedupeStrings
    (reference_candidates ["SECRETS_MANAGER:"; "secretsmanager:"; "SecretsManager:"] trimmed ≫= secret_candidate_keys).

(** ** Parameters *)
Definition ssmParameterNameFromARN (arn : string) : string :=
  match SplitN (TrimSpace arn) ":" 6 with
  | [_; _; service; _; _; resource] =>
      if negb (EqualFold service "ssm") then ""
      else if negb (HasPrefix resource "parameter/") then ""
      else
        let name := TrimPrefix resource "parameter" in
        if decide (CountByte (TrimByte name "/") "/" = 0)%nat then TrimPrefix name "/" else name
  | _ => ""
  end.

Definition slash_variants (key : string) : list string := [TrimPrefix key "/"; "/" +:+ TrimPrefix key "/"].

Definition ssmParameterReferenceKeys (parameterARN parameterName : string) : list string :=
  let arn := TrimSpace parameterARN in
  let name := TrimSpace parameterName in
  let keys :=
    (if nonempty arn
     then arn :: (if nonempty (ssmParameterNameFromARN arn) then [ssmParameterNameFromARN arn] else []) else [])
    ++ (if nonempty name then [name] else []) in
  dedupeStrings (keys ++ (keys ≫= λ key, if HasPrefix key "arn:" then [] else slash_variants key)).

Definition ssmParameterReferenceBase (ref : string) (allowNameBase : bool) : string :=
  let trimmed := TrimSpace ref in
  let marker := ":parameter/" in
  match Index trimmed marker with
  | Some i =>
      let start := (i + str_len marker)%nat in
      let resource := str_drop start trimmed in
      match positive_index (Index resource ":") with
      | Some j => str_take start trimmed +:+ str_take j resource
      | None => trimmed
      end
  | None =>
      if allowNameBase && negb (HasPrefix trimmed "arn:") then
        match positive_index (Index trimmed ":") with
        | Some i => TrimSpace (str_take i trimmed)
        | None => trimmed
        end
      else trimmed
  end.

Definition parameter_candidate_keys (c : string * bool) : list string :=
  let value := TrimSpace c.1 in
  if decide (value = "") then []
  else
    let base := ssmParameterReferenceBase value c.2 in
    let cut := nonempty base && negb (bool_decide (base = value)) in
    let last := if cut then base else value in
    let name := ssmParameterNameFromARN last in
    value :: (if cut then [base] else []) ++
    (if nonempty name then [name; TrimPrefix name "/"]
     else if negb (HasPrefix last "arn:") then slash_variants last else []).

Definition ssmParameterReferenceKeysFromRef (ref : string) : list string :=
  let trimmed := TrimSpace ref in
  if decide (trimmed = "") then []
  else dedupeStrings
    (reference_candidates ["PARAMETER_STORE:"; "parameter_store:"; "ParameterStore:"; "ssm:"; "SSM:"] trimmed
       ≫= parameter_candidate_keys).

(** ** Image repositories *)
Definition ecrRepositoryNameFromARN (arn : string) : string :=
  match SplitN (TrimSpace arn) ":" 6 with
  | [_; _; _; _; _; resource] => TrimPrefix resource "repository/"
  | _ => ""
  end.
(** [strings.SplitN(strings.TrimSpace(uri), "/", 2)[0]]. *)
Definition uri_host (uri : string) : string := default "" (head (SplitN (TrimSpace uri) "/" 2)).
Definition ecrAccountIDFromURI (uri : string) : string :=
  let account := default "" (head (Split (uri_host uri) ".")) in
  if decide (str_len account = 12)%nat then account else "".
Definition ecrRegionFromURI (uri : string) : string :=
  match Split (uri_host uri) "." with
  | _ :: dkr :: ecr :: region :: _ =>
      if bool_decide (dkr = "dkr") && bool_decide (ecr = "ecr") then region else ""
  | _ => ""
  end.
Definition ecrRepositoryNameFromURI (uri : string) : string :=
  match SplitN (TrimSpace uri) "/" 2 with
  | [_; repository] =>
      TrimSpace (match positive_index (IndexAny repository ":@") with
                 | Some i => str_take i repository
                 | None => repository
                 end)
  | _ => ""
  end.

(** [fmt.Sprint(v)]: lists in brackets, maps by increasing key. *)
Definition sprint_hundredths (z : Z) : string :=
  let fraction := Z.abs z `mod` 100 in
  (if z <? 0 then "-" else "") +:+ Itoa (Z.abs z / 100) +:+
  (if fraction =? 0 then ""
   else if fraction `mod` 10 =? 0 then "." +:+ Itoa (fraction / 10)
   else if fraction <? 10 then ".0" +:+ Itoa fraction else "." +:+ Itoa fraction).
Definition sprint_list (l : list string) : string := "[" +:+ Join l " " +:+ "]".
Definition sprint_map (m : list (string * string)) : string :=
  "map[" +:+ Join ((λ kv, kv.1 +:+ ":" +:+ kv.2) <$> isort (λ x y, str_leb x.1 y.1) m) " " +:+ "]".
Fixpoint Sprint (v : any) : string :=
  match v with
  | ANil => "<nil>"
  | ABool b => if b then "true" else "false"
  | AInt z => Itoa z
  | AFloat z => sprint_hundredths z
  | AString s => s
  | AStrings l => sprint_list l
  | AList l => sprint_list (List.map Sprint l)
  | AMap m => sprint_map (List.map (λ '(k, v), (k, Sprint v)) m)
  | AMaps l => sprint_list (List.map (λ m, sprint_map (List.map (λ '(k, v), (k, Sprint v)) m)) l)
  | AStringMaps l => sprint_list (List.map sprint_map l)
  end.
Definition sprint_set (v : any) : option string :=
  let s := TrimSpace (Sprint v) in
  if nonempty s && negb (bool_decide (s = "<nil>")) then Some s else None.

Definition ecrRepositoryReferenceKeys (repositoryARN repositoryName : string) (repositoryURI : any) : list string :=
  let arn := TrimSpace repositoryARN in
  let name := TrimSpace repositoryName in
  dedupeStrings
    ((if nonempty arn then [arn; ecrRepositoryNameFromARN arn] else [])
     ++ (if nonempty name then [name] else [])
     ++ match sprint_set repositoryURI with Some uri => [uri; ecrRepositoryNameFromURI uri] | None => [] end).

Definition isECRImageURI (uri : string) : bool :=
  let host := uri_host uri in
  nonempty host && nonempty (ecrAccountIDFromURI host) && nonempty (ecrRegionFromURI host).

Definition ecrRepositoryReferenceKeysFromRef (ref : string) : list string :=
  let trimmed := TrimSpace ref in
  if decide (trimmed = "") then []
  else
    let trimmed := match Index trimmed "=" with Some i => TrimSpace (str_drop (S i) trimmed) | None => trimmed end in
    let withoutDigest :=
      match positive_index (Index trimmed "@") with Some i => str_take i trimmed | None => trimmed end in
    let withoutTag :=
      match LastIndex withoutDigest ":" with
      | Some colon =>
          match LastIndex withoutDigest "/" with
          | Some slash => if decide (slash < colon)%nat then str_take colon withoutDigest else withoutDigest
          | None => str_take colon withoutDigest
          end
      | None => withoutDigest
      end in
    dedupeStrings (trimmed :: withoutDigest :: (if isECRImageURI withoutTag then [withoutTag] else [])).

Definition imageRefsFromResource (resource : Resource) : list string :=
  dedupeStrings
    (parseStringList (map_get (res_Metadata resource) "container_images")
     ++ parseStringList (map_get (res_Metadata resource) "image_uris")
     ++ match sprint_set (map_get (res_Metadata resource) "image") with Some image => [image] | None => [] end).

(** ** Indexes: lower-case key to resource id, the last resource winning *)
Definition resource_index (type : string) (keys : Resource → list string) (resources : list Resource) : gmap string string :=
  collect (λ kr, Some (ToLower kr.1, res_ID kr.2))
    (resources ≫= λ r, if decide (res_Type r = type) then (λ k, (k, r)) <$> keys r else []).
Definition secretsManagerResourceIndex : list Resource → gmap string string :=
  resource_index ResourceTypeSecretsManager (λ r, secretsManagerReferenceKeys (res_ARN r) (res_Name r)).
Definition ssmParameterResourceIndex : list Resource → gmap string string :=
  resource_index ResourceTypeSSMParameter (λ r, ssmParameterReferenceKeys (res_ARN r) (res_Name r)).
Definition ecrRepositoryResourceIndex : list Resource → gmap string string :=
  resource_index ResourceTypeECRRepository
    (λ r, ecrRepositoryReferenceKeys (res_ARN r) (res_Name r) (map_get (res_Metadata r) "repository_uri")).

(** The first key of the reference that is indexed; [""] when none is. *)
Fixpoint first_indexed (index : gmap string string) (keys : list string) : string :=
  match keys with
  | [] => ""
  | k :: keys =>
      let id := default "" (index !! ToLower k) in
      if nonempty id then id else first_indexed index keys
  end.
Definition matchSecretsManagerReference (ref : string) (index : gmap string string) : string :=
  first_indexed index (secretsManagerReferenceKeysFromRef ref).
Definition matchSSMParameterReference (ref : string) (index : gmap string string) : string :=
  first_indexed index (ssmParameterReferenceKeysFromRef ref).
Definition matchECRImageReference (ref : string) (index : gmap string string) : string :=
  first_indexed index (ecrRepositoryReferenceKeysFromRef ref).

(** A match is a resource of the indexed type. *)
Lemma first_indexed_spec type keys resources ks id :
  first_indexed (resource_index type keys resources) ks = id → id ≠ "" →
  ∃ r, r ∈ resources ∧ res_Type r = type ∧ res_ID r = id.
Proof.
  intros <-. induction ks as [|k ks IH]; [done|]. cbn.
  destruct (resource_index _ _ _ !! ToLower k) as [id'|] eqn:E; cbn; [|done].
  destruct (nonempty id') eqn:En; [|done]. intros _.
  apply collect_Some in E as ([k' r] & Hin & [= _ <-]).
  apply list_elem_of_bind in Hin as (r' & Hin & Hr'). destruct (decide _) as [Ht|]; [|by apply elem_of_nil in Hin].
  apply list_elem_of_fmap in Hin as (k'' & E & _). injection E as _ ->. by exists r'.
Qed.

Example secret_reference_ex :
  secretsManagerReferenceKeysFromRef "DB=arn:aws:secretsmanager:eu:1:secret:db-AbCdEf:password::" =
  ["DB=arn:aws:secretsmanager:eu:1:secret:db-AbCdEf:password::";
   "DB=arn:aws:secretsmanager:eu:1:secret:db-AbCdEf"; "db";
   "arn:aws:secretsmanager:eu:1:secret:db-AbCdEf:password::";
   "arn:aws:secretsmanager:eu:1:secret:db-AbCdEf"].
Proof. vm_compute. reflexivity. Qed.
Example parameter_reference_ex :
  ssmParameterReferenceKeysFromRef "K=PARAMETER_STORE:/pay/db:3" =
  ["K=PARAMETER_STORE:/pay/db:3"; "/K=PARAMETER_STORE:/pay/db:3"; "PARAMETER_STORE:/pay/db:3";
   "PARAMETER_STORE"; "/PARAMETER_STORE"; "/pay/db:3"; "/pay/db"; "pay/db"].
Proof. vm_compute. reflexivity. Qed.

(** ** The credential reference mapper *)
Record CredentialReference := mkCredentialReference {
  cr_AccountID : string; cr_Region : string; cr_WorkloadID : string; cr_WorkloadType : string;
  cr_WorkloadName : string; cr_ResourceID : string; cr_ResourceType : string; cr_SourceService : string;
  cr_Reference : string; cr_ReferenceName : string; cr_ReferenceKind : string; cr_Provider : string;
  cr_ProviderConfidence : Z; cr_Sensitivity : string; cr_Resolved : bool; cr_Unresolved : bool;
  cr_TargetNodeID : string; cr_Source : string; cr_EvidenceRef : string; cr_Confidence : Z }.

Definition containsAnyToken (haystack : string) (tokens : list string) : bool :=
  existsb (λ t, nonempty t && Contains haystack t) tokens.

(** [splitCredentialReference]: the name and the source. *)
Definition splitCredentialReference (ref : string) : string * string :=
  match positive_index (Index ref "=") with
  | Some i => (TrimSpace (str_take i ref), TrimSpace (str_drop (S i) ref))
  | None => if negb (Contains ref ":") && negb (Contains ref "/") then (ref, "") else ("", ref)
  end.

Definition isAgentCoreCredentialProviderReference (raw : string) : bool :=
  let '(name, source) := splitCredentialReference (TrimSpace raw) in
  let probe := canon source in
  blank name && Contains probe "bedrock-agentcore" &&
  existsb (Contains probe) [":oauth/"; "/oauth/"; ":api-key/"; "/api-key/"; ":apikey/"; "/apikey/"; ":api_key/"; "/api_key/"].

Definition classifyCredentialReferenceKind (name source : string) : string :=
  let probe := ToLower source in
  if Contains probe ":secretsmanager:" || HasPrefix probe "secrets_manager:" then "secrets_manager"
  else if Contains probe ":ssm:" || Contains probe ":parameter/" || HasPrefix probe "parameter_store:" then "ssm_parameter"
  else if EqualFold (TrimSpace name) "repository_credentials" then "repository_credentials"
  else "environment_variable".

Definition credentialLooksLikeDatabase (probe : string) : bool :=
  containsAnyToken probe ["database_url"; "database_password"; "db_password"; "db_user"; "db_host"; "postgres";
    "postgresql"; "mysql"; "mariadb"; "mongodb"; "mongo_uri"; "redis_url"; "rds"; "_dsn"; "connection_string"; "conn_string"].

(** The provider, its sensitivity and the detection confidence. *)
Definition classifyCredentialProvider (name source referenceKind : string) : string * string * Z :=
  let probe := ToLower (name +:+ " " +:+ source) in
  if containsAnyToken probe ["openai"; "open_ai"; "gpt_"] then ("openai", "ai_provider_api_key", 90)
  else if containsAnyToken probe ["anthropic"; "claude"] then ("anthropic", "ai_provider_api_key", 90)
  else if containsAnyToken probe ["bedrock"] then ("bedrock", "ai_provider_api_key", 85)
  else if containsAnyToken probe ["github"; "gh_token"; "gh_pat"; "ghp_"] then ("github", "source_control_token", 88)
  else if containsAnyToken probe ["slack"; "xoxb"; "xoxp"] then ("slack", "messaging_token", 85)
  else if credentialLooksLikeDatabase probe then ("database", "database_credential", 80)
  else if containsAnyToken probe ["webhook"; "hook_url"; "_hook"] then ("webhook", "webhook_url", 80)
  else if decide (referenceKind = "secrets_manager") then ("aws_secrets_manager", "aws_managed_secret", 70)
  else if decide (referenceKind = "ssm_parameter") then ("aws_ssm", "aws_managed_secret", 70)
  else ("generic", "generic_secret", 60).

Definition credentialSuggestiveName (name : string) : bool :=
  let probe := canon name in
  nonempty probe &&
  containsAnyToken probe ["secret"; "token"; "api_key"; "apikey"; "password"; "passwd"; "credential"; "private_key";
    "access_key"; "client_secret"; "openai"; "anthropic"; "claude"; "bedrock"; "github"; "slack"; "webhook";
    "database_url"; "db_password"; "connection_string"].

Definition credentialProviderIsExternal (provider : string) : bool :=
  bool_decide (provider ∈ ["openai"; "anthropic"; "bedrock"; "github"; "slack"; "database"; "webhook"]).

Definition credentialReferenceConfidence (resolved : bool) (provider : string) (providerConfidence : Z) : Z :=
  if resolved then (if 90 <? providerConfidence then 95 else 90)
  else if decide (provider = "generic") then 60
  else providerConfidence.

Definition credentialReferenceNodePrefix := "aws:resource:credential-reference:".
Definition credentialReferenceNodeID (workloadID provider name source : string) : string :=
  credentialReferenceNodePrefix +:+
  Join (normalizeStringList [canon workloadID; provider; canon name; canon source]) "|".

(** [credentialWorkloadNodeID]: the source entity, or else the resource. *)
Definition credentialWorkloadNodeID (resource : Resource) : string :=
  if blank (res_SourceEntityID resource) then TrimSpace (res_ID resource) else TrimSpace (res_SourceEntityID resource).

Definition credentialSourceService (resourceType : string) : string :=
  if bool_decide (resourceType ∈ ["ecs_service"; "ecs_task"]) then "ecs"
  else if bool_decide (resourceType = ResourceTypeLambdaFunction) then "lambda"
  else if bool_decide (resourceType = "codebuild_project") then "codebuild"
  else if bool_decide (resourceType = "stepfunctions_state_machine") then "stepfunctions"
  else if bool_decide (resourceType ∈ ["ec2_instance"; "ec2_instance_profile"]) then "ec2"
  else
    match positive_index (Index resourceType "_") with
    | Some i => str_take i resourceType
    | None => if decide (resourceType = "") then "aws" else resourceType
    end.

Definition credentialCandidateRefs (resource : Resource) : list string :=
  let refs := parseStringList (map_get (res_Metadata resource) "secret_refs") in
  let sourced : gset string :=
    list_to_set (ToLower <$> filter (.≠ "") ((λ ref, (splitCredentialReference (TrimSpace ref)).1) <$> refs)) in
  refs ++ filter (λ key, credentialSuggestiveName key = true ∧ canon key ∉ sourced)
    (parseStringList (map_get (res_Metadata resource) "environment_keys")).

Definition classifyCredentialReference (raw : string) (resource : Resource) (sourceService : string)
    (secretIndex parameterIndex : gmap string string) : option CredentialReference :=
  let trimmed := TrimSpace raw in
  if decide (trimmed = "") then None
  else
    let '(name, source) := splitCredentialReference trimmed in
    let resolveTarget := TrimSpace source in
    let secretID := if nonempty resolveTarget then matchSecretsManagerReference resolveTarget secretIndex else "" in
    let parameterID :=
      if nonempty resolveTarget && negb (nonempty secretID)
      then matchSSMParameterReference resolveTarget parameterIndex else "" in
    let resolved := nonempty secretID || nonempty parameterID in
    let kind :=
      if nonempty secretID then "secrets_manager"
      else if nonempty parameterID then "ssm_parameter"
      else if nonempty resolveTarget then classifyCredentialReferenceKind name source
      else "environment_variable" in
    let '(provider, sensitivity, confidence) := classifyCredentialProvider name source kind in
    Some {| cr_AccountID := ""; cr_Region := ""; cr_WorkloadID := ""; cr_WorkloadType := res_Type resource;
            cr_WorkloadName := ""; cr_ResourceID := ""; cr_ResourceType := ""; cr_SourceService := sourceService;
            cr_Reference := trimmed; cr_ReferenceName := name; cr_ReferenceKind := kind; cr_Provider := provider;
            cr_ProviderConfidence := confidence; cr_Sensitivity := sensitivity; cr_Resolved := resolved;
            cr_Unresolved := negb resolved;
            cr_TargetNodeID :=
              if nonempty secretID then secretID
              else if nonempty parameterID then parameterID
              else if credentialProviderIsExternal provider
              then credentialReferenceNodeID (credentialWorkloadNodeID resource) provider name source else "";
            cr_Source := sourceService +:+ "_workload_reference"; cr_EvidenceRef := trimmed;
            cr_Confidence := credentialReferenceConfidence resolved provider confidence |}.

Section mapper.
Context `{SHA256}.

Definition relationshipID (t : RelationshipType) (fromNodeID toNodeID : string) : string :=
  "aws:rel:" +:+ sha256_hex16 (relationship_type_string t +:+ "|" +:+ fromNodeID +:+ "|" +:+ toNodeID).

(** The references of one resource, in the order of its candidates, with the
    workload they belong to filled in. *)
Definition place_reference (resource : Resource) (resourceID type : string) (workloadType : option string)
    (ref : CredentialReference) : CredentialReference :=
  {| cr_AccountID := TrimSpace (res_AccountID resource); cr_Region := TrimSpace (res_Region resource);
     cr_WorkloadID := credentialWorkloadNodeID resource;
     cr_WorkloadType := default (cr_WorkloadType ref) workloadType;
     cr_WorkloadName := TrimSpace (res_Name resource); cr_ResourceID := resourceID; cr_ResourceType := type;
     cr_SourceService := cr_SourceService ref; cr_Reference := cr_Reference ref;
     cr_ReferenceName := cr_ReferenceName ref; cr_ReferenceKind := cr_ReferenceKind ref;
     cr_Provider := cr_Provider ref; cr_ProviderConfidence := cr_ProviderConfidence ref;
     cr_Sensitivity := cr_Sensitivity ref; cr_Resolved := cr_Resolved ref; cr_Unresolved := cr_Unresolved ref;
     cr_TargetNodeID := cr_TargetNodeID ref; cr_Source := cr_Source ref; cr_EvidenceRef := cr_EvidenceRef ref;
     cr_Confidence := cr_Confidence ref |}.

Definition references_of (secretIndex parameterIndex : gmap string string) (resource : Resource)
    (resourceID type sourceService : string) (workloadType : option string) : list CredentialReference :=
  omap (λ raw,
    if isAgentCoreCredentialProviderReference raw then None
    else place_reference resource resourceID type workloadType <$>
           classifyCredentialReference raw resource sourceService secretIndex parameterIndex)
    (credentialCandidateRefs resource).

Definition stringMetadata (metadata : list (string * any)) (key : string) : string :=
  TrimSpace (as_string (map_get metadata key)).

(** An agent's references are read from a resource built for it. *)
Definition agent_resource (agent : Agent) (candidates : list string) : Resource :=
  {| res_ID := ag_ID agent; res_Provider := "aws"; res_Type := ResourceTypeCredentialReference;
     res_Name := ag_Name agent; res_ARN := ""; res_Region := stringMetadata (ag_Metadata agent) "region";
     res_AccountID := stringMetadata (ag_Metadata agent) "account_id";
     res_Metadata := [("secret_refs", AStrings candidates)]; res_RawRef := ""; res_SourceEntityID := "" |}.

Definition agent_references (secretIndex parameterIndex : gmap string string) (agent : Agent) : list CredentialReference :=
  let candidates := parseStringList (map_get (ag_Metadata agent) "credential_reference_refs") in
  if is_nil candidates then []
  else references_of secretIndex parameterIndex (agent_resource agent candidates) (ag_ID agent) (ag_Type agent)
         (firstNonEmptyAWSValue [stringMetadata (ag_Metadata agent) "source"; "ai_agent"]) (Some (ag_Type agent)).

Definition bundle_references (bundle : NormalizedBundle) : list CredentialReference :=
  let secretIndex := secretsManagerResourceIndex (b_Resources bundle) in
  let parameterIndex := ssmParameterResourceIndex (b_Resources bundle) in
  (b_Resources bundle ≫= λ r,
     references_of secretIndex parameterIndex r (res_ID r) (res_Type r) (credentialSourceService (res_Type r)) None)
  ++ (b_Agents bundle ≫= agent_references secretIndex parameterIndex).

Definition reference_edge (ref : CredentialReference) : option Relationship :=
  if nonempty (cr_TargetNodeID ref) then
    Some {| rel_ID := relationshipID UsesSecret (cr_WorkloadID ref) (cr_TargetNodeID ref); rel_Type := UsesSecret;
            rel_FromNodeID := cr_WorkloadID ref; rel_ToNodeID := cr_TargetNodeID ref;
            rel_EvidenceRef := cr_Reference ref; rel_DiscoveredAt := time_zero |}
  else None.

Definition reference_less (a b : CredentialReference) : bool :=
  if bool_decide (cr_WorkloadID a = cr_WorkloadID b) then str_ltb (cr_Reference a) (cr_Reference b)
  else str_ltb (cr_WorkloadID a) (cr_WorkloadID b).

Definition MapBundleCredentialReferences (bundle : NormalizedBundle) : list CredentialReference * list Relationship :=
  let refs := bundle_references bundle in
  (sort_stable reference_less (dedup_by (λ r, Join [cr_WorkloadID r; cr_Reference r] "|") refs),
   sort_stable (λ a b, str_ltb (rel_ID a) (rel_ID b))
     (dedup_by (λ r, Join [rel_FromNodeID r; rel_ToNodeID r] "|") (omap reference_edge refs))).

Definition credentialReferenceNodes (references : list CredentialReference) : list Resource :=
  let synthesized ref :=
    negb (cr_Resolved ref) && nonempty (cr_TargetNodeID ref) &&
    HasPrefix (cr_TargetNodeID ref) credentialReferenceNodePrefix in
  let node ref :=
    {| res_ID := cr_TargetNodeID ref; res_Provider := "aws"; res_Type := ResourceTypeCredentialReference;
       res_Name := firstNonEmptyAWSValue [cr_ReferenceName ref; cr_Reference ref]; res_ARN := "";
       res_Region := cr_Region ref; res_AccountID := cr_AccountID ref;
       res_Metadata := [("provider", AString (cr_Provider ref)); ("sensitivity", AString (cr_Sensitivity ref));
                        ("reference_kind", AString (cr_ReferenceKind ref)); ("unresolved", ABool true)];
       res_RawRef := ""; res_SourceEntityID := "" |} in
  sort_stable (λ a b, str_ltb (res_ID a) (res_ID b))
    (dedup_by res_ID (node <$> filter (λ ref, synthesized ref = true) references)).

Definition set_resources (bundle : NormalizedBundle) (resources : list Resource) : NormalizedBundle :=
  {| b_Identities := b_Identities bundle; b_Workloads := b_Workloads bundle; b_Policies := b_Policies bundle;
     b_Resources := resources; b_Credentials := b_Credentials bundle; b_Agents := b_Agents bundle;
     b_RuntimeEvents := b_RuntimeEvents bundle |}.

Definition appendCredentialReferenceNodes (bundle : NormalizedBundle) (resourceSeen : gset string) : NormalizedBundle :=
  let nodes := credentialReferenceNodes (MapBundleCredentialReferences bundle).1 in
  set_resources bundle (b_Resources bundle ++ dedup_from res_ID resourceSeen nodes).
End mapper.
