(* ===== verification/AwsGraph.v ===== *)
(** * The relationship builder

    [internal/providers/aws/graph.go] and the node ids of [ids.go]: the edges of
    the permission graph, from the normalized bundle and its permissions.  The
    main theorem is the composition with [GraphContract]: what the builder
    returns passes the graph contract whenever the bundle's references are
    closed.  The call's context is taken not to be cancelled. *)
From S2P Require Import Prelude GoStrings GoCollections GoParse GoTime GoText ScanDomain GraphContract AwsPolicies AwsReferences.

(** ** Node ids *)
Definition principalNodeID (principalARN : string) (arnToIdentity : gmap string string) : string :=
  let principal := TrimSpace principalARN in
  if decide (principal = "") then ""
  else match arnToIdentity !! principal with
       | Some mapped => mapped
       | None => "aws:principal:" +:+ principal
       end.
Definition access_prefix : string := "aws:access:".
Definition accessNodeID (action resource : string) : string :=
  access_prefix +:+ QueryEscape (TrimSpace action) +:+ String ":" (QueryEscape (TrimSpace resource)).
(** [parseAccessNode] of [rules.go], its inverse. *)
Definition unescape_or (s : string) : string := default s (QueryUnescape s).
Definition parseAccessNode (nodeID : string) : option (string * string) :=
  if negb (HasPrefix nodeID access_prefix) then None
  else match SplitN (TrimPrefix nodeID access_prefix) ":" 2 with
       | [action; resource] => Some (unescape_or (TrimSpace action), unescape_or (TrimSpace resource))
       | _ => None
       end.

Lemma parse_access a r : parseAccessNode (accessNodeID a r) = Some (TrimSpace a, TrimSpace r).
Proof.
  unfold parseAccessNode, accessNodeID. autorewrite with identrail. cbn [negb].
  rewrite SplitN_two by by apply QueryEscape_no_byte.
  rewrite !(TrimSpace_plain (QueryEscape _)) by apply QueryEscape_plain.
  unfold unescape_or. by rewrite !QueryUnescape_QueryEscape.
Qed.

(** An access node names its action and resource: parsing the node's id gives them back without their surrounding white space, whatever bytes they contain, so that separators inside an ARN or a wildcard never move from one to the other; and two grants share a node exactly when they agree on both. *)
Theorem accessNodeID_roundtrip a r :
  parseAccessNode (accessNodeID a r) = Some (TrimSpace a, TrimSpace r) ∧
  ∀ a' r', accessNodeID a r = accessNodeID a' r' ↔ TrimSpace a = TrimSpace a' ∧ TrimSpace r = TrimSpace r'.
Proof.
  split; [apply parse_access|]. intros a' r'. split.
  - intros E. pose proof (parse_access a r) as H1. rewrite E, parse_access in H1. by injection H1.
  - unfold accessNodeID. by intros [-> ->].
Qed.

(** ** The builder *)
Definition workloadRelationshipType (workloadType : string) : RelationshipType :=
  let normalized := canon workloadType in
  if bool_decide (normalized = "ec2_launch_template") then AttachedTo
  else if Contains normalized "execution_role" || Contains normalized "access_role" then AttachedTo
  else RunsAs.

Section builder.
Context `{SHA256}.

Definition edge (t : RelationshipType) (timestamp : Z) (from to evidence : string) : Relationship :=
  {| rel_ID := relationshipID t from to; rel_Type := t; rel_FromNodeID := from; rel_ToNodeID := to;
     rel_EvidenceRef := evidence; rel_DiscoveredAt := timestamp |}.

Definition agent_edges (identityIDs : gset string) (timestamp : Z) (agent : Agent) : list Relationship :=
  let identityID := TrimSpace (ag_OwnerID agent) in
  if nonempty identityID && bool_decide (identityID ∈ identityIDs)
  then [edge RunsAs timestamp (ag_ID agent) identityID (ag_RawRef agent)] else [].

Definition workload_edges (identityIDs : gset string) (timestamp : Z) (workload : Workload) : list Relationship :=
  let identityID := TrimSpace (wl_RawRef workload) in
  if nonempty identityID && bool_decide (identityID ∈ identityIDs)
  then [edge (workloadRelationshipType (wl_Type workload)) timestamp (wl_ID workload) identityID (wl_ID workload)]
  else [].

(** The node a resource's references start from. *)
Definition reference_source (resource : Resource) : string :=
  let from := TrimSpace (res_SourceEntityID resource) in
  if decide (from = "") then res_ID resource else from.

Definition secret_edge (secretIndex parameterIndex : gmap string string) (timestamp : Z) (resource : Resource)
    (ref : string) : option Relationship :=
  let secretID := matchSecretsManagerReference ref secretIndex in
  let secretID := if nonempty secretID then secretID else matchSSMParameterReference ref parameterIndex in
  if nonempty secretID
  then Some (edge UsesSecret timestamp (reference_source resource) secretID (TrimSpace ref)) else None.
Definition image_edge (imageIndex : gmap string string) (timestamp : Z) (resource : Resource)
    (ref : string) : option Relationship :=
  let repositoryID := matchECRImageReference ref imageIndex in
  if nonempty repositoryID
  then Some (edge UsesImage timestamp (reference_source resource) repositoryID (TrimSpace ref)) else None.

Definition resource_edges (secretIndex parameterIndex imageIndex : gmap string string) (timestamp : Z)
    (resource : Resource) : list Relationship :=
  let sourced := present (res_SourceEntityID resource) in
  (if bool_decide (res_Type resource = ResourceTypeBedrockAgentCore) && sourced
   then [edge Invokes timestamp (res_SourceEntityID resource) (res_ID resource) (res_RawRef resource)] else [])
  ++ (if bool_decide (res_Type resource = ResourceTypeTool) && sourced
      then [edge CallsTool timestamp (res_SourceEntityID resource) (res_ID resource) (res_RawRef resource)] else [])
  ++ omap (secret_edge secretIndex parameterIndex timestamp resource)
       (parseStringList (map_get (res_Metadata resource) "secret_refs"))
  ++ omap (image_edge imageIndex timestamp resource) (imageRefsFromResource resource).

Definition at_time (timestamp : Z) (r : Relationship) : Relationship :=
  {| rel_ID := rel_ID r; rel_Type := rel_Type r; rel_FromNodeID := rel_FromNodeID r; rel_ToNodeID := rel_ToNodeID r;
     rel_EvidenceRef := rel_EvidenceRef r; rel_DiscoveredAt := timestamp |}.

Definition policy_edges (arnToIdentity : gmap string string) (timestamp : Z) (policy : Policy) : list Relationship :=
  let identityID := policy_identity policy in
  if decide (identityID = "") then []
  else if decide (policy_type policy = policyTypePerm) then
    [edge AttachedPolicy timestamp identityID (pol_ID policy) (pol_RawRef policy)]
  else if decide (policy_type policy = policyTypeTrust) then
    omap (λ principal,
        let fromNodeID := principalNodeID principal arnToIdentity in
        if nonempty fromNodeID then Some (edge CanAssume timestamp fromNodeID identityID (pol_RawRef policy)) else None)
      (parseStringList (map_get (pol_Normalized policy) "principals"))
  else [].

Definition permission_edges (timestamp : Z) (permission : PermissionTuple) : list Relationship :=
  if decide (perm_Effect permission = "Allow") then
    [edge CanAccess timestamp (perm_IdentityID permission)
       (accessNodeID (perm_Action permission) (perm_Resource permission)) (perm_Action permission)]
  else [].

(** Every edge the loops offer, in order. *)
Definition offered_edges (timestamp : Z) (bundle : NormalizedBundle) (perms : list PermissionTuple) : list Relationship :=
  let arnToIdentity := collect (λ i, Some (id_ARN i, id_ID i)) (b_Identities bundle) in
  let identityIDs : gset string := list_to_set (id_ID <$> b_Identities bundle) in
  let secretIndex := secretsManagerResourceIndex (b_Resources bundle) in
  let parameterIndex := ssmParameterResourceIndex (b_Resources bundle) in
  let imageIndex := ecrRepositoryResourceIndex (b_Resources bundle) in
  (b_Agents bundle ≫= agent_edges identityIDs timestamp)
  ++ (b_Workloads bundle ≫= workload_edges identityIDs timestamp)
  ++ (b_Resources bundle ≫= resource_edges secretIndex parameterIndex imageIndex timestamp)
  ++ (at_time timestamp <$> (MapBundleCredentialReferences bundle).2)
  ++ (b_Policies bundle ≫= policy_edges arnToIdentity timestamp)
  ++ (perms ≫= permission_edges timestamp).

(** [appendRelationship], over the offered edges: both ends, and an id not
    seen before. *)
Definition appendRelationship (offered : list Relationship) : list Relationship :=
  dedup_by rel_ID (filter (λ r, nonempty (rel_FromNodeID r) = true ∧ nonempty (rel_ToNodeID r) = true) offered).

Definition ResolveRelationships (timestamp : Z) (bundle : NormalizedBundle) (perms : list PermissionTuple)
  : list Relationship :=
  appendRelationship (offered_edges timestamp bundle perms).

(** *** Ids are determined by the triple, so distinct ids are distinct triples *)
Definition id_of_triple (r : Relationship) : Prop :=
  rel_ID r = relationshipID (rel_Type r) (rel_FromNodeID r) (rel_ToNodeID r).

Lemma id_of_triple_key r s : id_of_triple r → id_of_triple s → semanticKey r = semanticKey s → rel_ID r = rel_ID s.
Proof.
  unfold id_of_triple, semanticKey, relationshipID. intros -> -> E. cbn in E. by rewrite E.
Qed.

Lemma elem_of_appendRelationship l r :
  r ∈ appendRelationship l → r ∈ l ∧ rel_FromNodeID r ≠ "" ∧ rel_ToNodeID r ≠ "".
Proof. intros Hr%elem_of_dedup_by. by apply list_elem_of_filter in Hr as [[?%nonempty_true ?%nonempty_true] ?]. Qed.

(** No offered edge is lost: an edge with the same id is kept. *)
Lemma appendRelationship_complete l r :
  r ∈ l → rel_FromNodeID r ≠ "" → rel_ToNodeID r ≠ "" → ∃ s, s ∈ appendRelationship l ∧ rel_ID s = rel_ID r.
Proof. intros. apply dedup_by_complete, list_elem_of_filter. by rewrite !nonempty_true. Qed.
End builder.

(** ** The edges satisfy the graph contract *)

(** What the graph contract needs of a bundle beyond its own validation: ids
    written without surrounding white space, references only on resources of a
    known actor, the unresolved provider keys' nodes in place, and no
    reference to a collected image repository. *)
Record closed_bundle `{SHA256} (bundle : NormalizedBundle) : Prop := {
  cb_valid : ValidateNormalizedBundle bundle = Ok tt;
  cb_policies : ∀ p, p ∈ b_Policies bundle → TrimSpace (policy_identity p) = policy_identity p;
  cb_agents : ∀ a, a ∈ b_Agents bundle → TrimSpace (ag_ID a) = ag_ID a;
  cb_sources : ∀ r, r ∈ b_Resources bundle → credentialCandidateRefs r ≠ [] →
    TrimSpace (res_SourceEntityID r) ≠ "" ∧ hasActor (nodes_of bundle) (TrimSpace (res_SourceEntityID r)) = true;
  cb_tools : ∀ r, r ∈ b_Resources bundle → TrimSpace (res_SourceEntityID r) ≠ "" →
    res_Type r = ResourceTypeBedrockAgentCore ∨ res_Type r = ResourceTypeTool →
    hasActor (nodes_of bundle) (res_SourceEntityID r) = true ∧
    (res_Type r = ResourceTypeBedrockAgentCore → HasPrefix (res_ID r) "aws:resource:" = true);
  cb_images : ∀ r ref, r ∈ b_Resources bundle → ref ∈ imageRefsFromResource r →
    matchECRImageReference ref (ecrRepositoryResourceIndex (b_Resources bundle)) = "";
  cb_nodes : ∀ ref, ref ∈ bundle_references bundle → cr_Resolved ref = false → cr_TargetNodeID ref ≠ "" →
    ∃ r, r ∈ b_Resources bundle ∧ res_ID r = cr_TargetNodeID ref ∧ res_Type r = ResourceTypeCredentialReference;
}.

Section contract.
Context `{SHA256} (bundle : NormalizedBundle) (Hb : closed_bundle bundle) (timestamp : Z).
Notation g := (nodes_of bundle).

(** An offered edge the contract takes. *)
Definition edge_fine (r : Relationship) : Prop :=
  id_of_triple r ∧ rel_DiscoveredAt r = timestamp ∧ validateRelationshipEndpoints g r = Ok tt.

Lemma resources_NoDup : NoDup (res_ID <$> b_Resources bundle).
Proof. by destruct (ValidateNormalizedBundle_ids bundle (cb_valid _ Hb)) as (_ & _ & _ & ? & _). Qed.

Lemma agent_edges_fine r a ids :
  a ∈ b_Agents bundle → ids = list_to_set (id_ID <$> b_Identities bundle) → r ∈ agent_edges ids timestamp a → edge_fine r.
Proof.
  intros Ha -> Hr. unfold agent_edges in Hr. destruct (_ && _) eqn:E; [|by apply elem_of_nil in Hr].
  apply list_elem_of_singleton in Hr as ->. apply andb_true_iff in E as [_ E%bool_decide_eq_true%elem_of_list_to_set].
  split; [done|]. split; [done|]. unfold validateRelationshipEndpoints. cbn.
  by rewrite (hasAgent_nodes bundle a), orb_true_r, hasIdentity_nodes.
Qed.

Lemma workload_edges_fine r w ids :
  w ∈ b_Workloads bundle → ids = list_to_set (id_ID <$> b_Identities bundle) →
  r ∈ workload_edges ids timestamp w → edge_fine r.
Proof.
  intros Hw -> Hr. unfold workload_edges in Hr. destruct (_ && _) eqn:E; [|by apply elem_of_nil in Hr].
  apply list_elem_of_singleton in Hr as ->. apply andb_true_iff in E as [_ E%bool_decide_eq_true%elem_of_list_to_set].
  split; [done|]. split; [done|]. unfold validateRelationshipEndpoints. cbn.
  unfold workloadRelationshipType.
  destruct (bool_decide _); [|destruct (_ || _)]; cbn; by rewrite hasWorkload_nodes, hasIdentity_nodes.
Qed.

Lemma has_prefix_of_intro p l id : p ∈ l → HasPrefix id p = true → has_prefix_of l id = true.
Proof. intros Hp Hi. apply existsb_exists. exists p. split; [by apply list_elem_of_In|done]. Qed.

Lemma hasActor_identity id : hasIdentity g id = true → hasActor g id = true.
Proof. unfold hasActor. by intros ->. Qed.

Lemma secret_target_fine id r :
  r ∈ b_Resources bundle → res_ID r = id →
  res_Type r = ResourceTypeSecretsManager ∨ res_Type r = ResourceTypeSSMParameter ∨
  res_Type r = ResourceTypeCredentialReference → hasSecretNode g id = true.
Proof.
  intros Hr <- Ht. pose proof (hasResourceType_nodes bundle r resources_NoDup Hr) as Hn. unfold hasSecretNode.
  destruct Ht as [Ht|[Ht|Ht]]; rewrite Ht in Hn; rewrite Hn; by rewrite !orb_true_r.
Qed.

(** A secret or parameter match is a node of the right type. *)
Lemma match_secret_fine ref id :
  matchSecretsManagerReference ref (secretsManagerResourceIndex (b_Resources bundle)) = id →
  id ≠ "" → hasSecretNode g id = true.
Proof.
  intros E Hne. destruct (first_indexed_spec _ _ _ _ _ E Hne) as (r & Hr & Ht & Hid).
  eapply secret_target_fine; eauto.
Qed.
Lemma match_parameter_fine ref id :
  matchSSMParameterReference ref (ssmParameterResourceIndex (b_Resources bundle)) = id →
  id ≠ "" → hasSecretNode g id = true.
Proof.
  intros E Hne. destruct (first_indexed_spec _ _ _ _ _ E Hne) as (r & Hr & Ht & Hid).
  eapply secret_target_fine; eauto.
Qed.

Lemma uses_secret_fine from to evidence :
  hasActor g from = true → hasSecretNode g to = true → edge_fine (edge UsesSecret timestamp from to evidence).
Proof.
  intros H1 H2. split; [done|]. split; [done|]. unfold validateRelationshipEndpoints. cbn. by rewrite H1, H2.
Qed.

Lemma resource_edges_fine r x :
  x ∈ b_Resources bundle →
  r ∈ resource_edges (secretsManagerResourceIndex (b_Resources bundle)) (ssmParameterResourceIndex (b_Resources bundle))
        (ecrRepositoryResourceIndex (b_Resources bundle)) timestamp x → edge_fine r.
Proof.
  intros Hx Hr. pose proof (hasResourceType_nodes bundle x resources_NoDup Hx) as Hn.
  unfold resource_edges in Hr. rewrite !elem_of_app in Hr. destruct Hr as [Hr|[Hr|[Hr|Hr]]].
  - destruct (_ && _) eqn:E; [|by apply elem_of_nil in Hr]. apply list_elem_of_singleton in Hr as ->.
    apply andb_true_iff in E as [Et%bool_decide_eq_true Es%present_true].
    destruct (cb_tools _ Hb x Hx Es) as [Ha Hp]; [by left|].
    split; [done|]. split; [done|]. unfold validateRelationshipEndpoints. cbn. rewrite Ha. cbn.
    unfold hasInvocable. rewrite (has_prefix_of_intro "aws:resource:") by (auto || set_solver).
    by rewrite !orb_true_r.
  - destruct (_ && _) eqn:E; [|by apply elem_of_nil in Hr]. apply list_elem_of_singleton in Hr as ->.
    apply andb_true_iff in E as [Et%bool_decide_eq_true Es%present_true].
    destruct (cb_tools _ Hb x Hx Es) as [Ha _]; [by right|]. rewrite Et in Hn.
    split; [done|]. split; [done|]. unfold validateRelationshipEndpoints. cbn. rewrite Ha. cbn.
    unfold hasTool. by rewrite Hn, orb_true_r.
  - apply list_elem_of_omap in Hr as (ref & Href & Hr). unfold secret_edge in Hr.
    destruct (cb_sources _ Hb x Hx) as [Hs Ha].
    { unfold credentialCandidateRefs. intros [E _]%app_nil. rewrite E in Href. by apply elem_of_nil in Href. }
    destruct (nonempty (matchSecretsManagerReference _ _)) eqn:E1;
      [|destruct (nonempty (matchSSMParameterReference _ _)) eqn:E2]; try done.
    all: rewrite ?E1, ?E2 in Hr; injection Hr as <-; unfold reference_source; rewrite decide_False by done.
    all: apply uses_secret_fine; [done|].
    + apply nonempty_true in E1. by eapply match_secret_fine.
    + apply nonempty_true in E2. by eapply match_parameter_fine.
  - apply list_elem_of_omap in Hr as (ref & Href & Hr). unfold image_edge in Hr.
    by rewrite (cb_images _ Hb x ref Hx Href) in Hr.
Qed.

(** *** Credential references *)
Lemma classify_target raw x service ref :
  classifyCredentialReference raw x service (secretsManagerResourceIndex (b_Resources bundle))
    (ssmParameterResourceIndex (b_Resources bundle)) = Some ref →
  cr_TargetNodeID ref ≠ "" → cr_Resolved ref = false ∨ hasSecretNode g (cr_TargetNodeID ref) = true.
Proof.
  unfold classifyCredentialReference. destruct (decide _) as [|_]; [done|].
  destruct (splitCredentialReference _) as [name source]. set (target := TrimSpace source).
  destruct (nonempty target); cbn [andb]; [|destruct (classifyCredentialProvider _ _ _) as [[??]?]; intros [= <-]; by left].
  destruct (nonempty (matchSecretsManagerReference target _)) eqn:E1; cbn [negb orb];
    [|destruct (nonempty (matchSSMParameterReference target _)) eqn:E2];
    destruct (classifyCredentialProvider _ _ _) as [[??]?]; intros [= <-]; cbn; rewrite ?E1, ?E2; intros Hne.
  - right. by eapply match_secret_fine.
  - right. by eapply match_parameter_fine.
  - by left.
Qed.

Lemma references_of_spec x id type service wt ref :
  ref ∈ references_of (secretsManagerResourceIndex (b_Resources bundle))
    (ssmParameterResourceIndex (b_Resources bundle)) x id type service wt →
  credentialCandidateRefs x ≠ [] ∧ cr_WorkloadID ref = credentialWorkloadNodeID x ∧
  (cr_TargetNodeID ref ≠ "" → cr_Resolved ref = false ∨ hasSecretNode g (cr_TargetNodeID ref) = true).
Proof.
  intros (raw & Hraw & Hr)%list_elem_of_omap.
  split; [intros E; rewrite E in Hraw; by apply elem_of_nil in Hraw|].
  destruct (isAgentCoreCredentialProviderReference raw); [done|].
  destruct (classifyCredentialReference _ _ _ _ _) as [ref'|] eqn:E; [|done]. injection Hr as <-. split; [done|].
  cbn. by eapply classify_target.
Qed.

Lemma bundle_references_fine ref :
  ref ∈ bundle_references bundle → cr_TargetNodeID ref ≠ "" →
  hasActor g (cr_WorkloadID ref) = true ∧ hasSecretNode g (cr_TargetNodeID ref) = true.
Proof.
  intros Hin Hne. split.
  - unfold bundle_references in Hin. apply elem_of_app in Hin as [Hin|Hin];
      apply list_elem_of_bind in Hin as (x & Hin & Hx).
    + apply references_of_spec in Hin as (Hc & -> & _). destruct (cb_sources _ Hb x Hx Hc) as [Hs Ha].
      unfold credentialWorkloadNodeID. rewrite (proj2 (blank_false _) Hs). done.
    + unfold agent_references in Hin. destruct (is_nil _); [by apply elem_of_nil in Hin|].
      apply references_of_spec in Hin as (_ & -> & _). unfold credentialWorkloadNodeID. cbn.
      change (blank "") with true. rewrite (cb_agents _ Hb x Hx). unfold hasActor. by rewrite hasAgent_nodes, orb_true_r.
  - assert (cr_Resolved ref = false ∨ hasSecretNode g (cr_TargetNodeID ref) = true) as [Hr|]; [| |done].
    + unfold bundle_references in Hin. apply elem_of_app in Hin as [Hin|Hin];
        apply list_elem_of_bind in Hin as (x & Hin & Hx); [by apply references_of_spec in Hin as (_ & _ & ?); auto|].
      unfold agent_references in Hin. destruct (is_nil _); [by apply elem_of_nil in Hin|].
      apply references_of_spec in Hin as (_ & _ & ?); auto.
    + destruct (cb_nodes _ Hb ref Hin Hr Hne) as (r & Hrr & Hid & Ht). eapply secret_target_fine; eauto.
Qed.

Lemma credential_edges_fine r :
  r ∈ at_time timestamp <$> (MapBundleCredentialReferences bundle).2 → edge_fine r.
Proof.
  intros (e & -> & He)%list_elem_of_fmap. cbn in He. rewrite sort_stable_perm in He.
  apply elem_of_dedup_by, list_elem_of_omap in He as (ref & Href & He).
  unfold reference_edge in He. destruct (nonempty _) eqn:E; [|done]. injection He as <-.
  apply nonempty_true in E. destruct (bundle_references_fine ref Href E) as [H1 H2].
  split; [done|]. split; [done|]. unfold validateRelationshipEndpoints. cbn. by rewrite H1, H2.
Qed.

(** *** Policies and permissions *)
Lemma policy_identity_known p :
  p ∈ b_Policies bundle → policy_identity p ∈ id_ID <$> b_Identities bundle.
Proof.
  intros Hp. destruct (ValidateNormalizedBundle_ids bundle (cb_valid _ Hb)) as (_&_&_&_&_&_&_&_&_&_& Hn).
  pose proof (validatePolicyNormalized_identity _ _ (Hn p Hp)) as Hid.
  fold (policy_identity p) in Hid. rewrite (cb_policies _ Hb p Hp) in Hid. by apply elem_of_list_to_set in Hid.
Qed.

Lemma principal_fine principal m :
  m = collect (λ i, Some (id_ARN i, id_ID i)) (b_Identities bundle) → principalNodeID principal m ≠ "" →
  hasIdentity g (principalNodeID principal m) || HasPrefix (principalNodeID principal m) "aws:principal:" = true.
Proof.
  intros ->. unfold principalNodeID. destruct (decide _); [done|]. intros Hne.
  destruct (collect _ _ !! _) as [id|] eqn:E; [|by autorewrite with identrail; rewrite orb_true_r].
  apply collect_Some in E as (i & Hi & [= _ <-]). rewrite hasIdentity_nodes; [done|]. by apply list_elem_of_fmap_2.
Qed.

Lemma policy_edges_fine r p m :
  p ∈ b_Policies bundle → m = collect (λ i, Some (id_ARN i, id_ID i)) (b_Identities bundle) →
  r ∈ policy_edges m timestamp p → edge_fine r.
Proof.
  intros Hp -> Hr. pose proof (policy_identity_known p Hp) as Hid. unfold policy_edges in Hr.
  destruct (decide _); [by apply elem_of_nil in Hr|]. destruct (decide _); [|destruct (decide _)].
  - apply list_elem_of_singleton in Hr as ->. split; [done|]. split; [done|].
    unfold validateRelationshipEndpoints. cbn. by rewrite hasIdentity_nodes, hasPolicy_nodes.
  - apply list_elem_of_omap in Hr as (principal & _ & Hr). destruct (nonempty _) eqn:E; [|done].
    injection Hr as <-. apply nonempty_true in E. split; [done|]. split; [done|].
    unfold validateRelationshipEndpoints. cbn. rewrite (hasIdentity_nodes bundle (policy_identity p)) by done. cbn.
    by rewrite principal_fine.
  - by apply elem_of_nil in Hr.
Qed.

Lemma permission_edges_fine r t perms :
  ResolvePermissions bundle = Ok perms → t ∈ perms → r ∈ permission_edges timestamp t → edge_fine r.
Proof.
  intros Hperms Ht Hr. destruct (ResolvePermissions_sound _ _ _ Hperms Ht) as (p & _ & _ & Hp & _ & Hid & _).
  unfold permission_edges in Hr. destruct (decide _); [|by apply elem_of_nil in Hr].
  apply list_elem_of_singleton in Hr as ->. split; [done|]. split; [done|].
  unfold validateRelationshipEndpoints. cbn. rewrite hasIdentity_nodes by (rewrite <-Hid; by apply policy_identity_known).
  cbn. unfold hasAccessNode, accessNodeID. rewrite (has_prefix_of_intro access_prefix); [done|set_solver|].
  by autorewrite with identrail.
Qed.
End contract.

Lemma offered_edges_fine `{SHA256} bundle timestamp perms r :
  closed_bundle bundle → ResolvePermissions bundle = Ok perms →
  r ∈ offered_edges timestamp bundle perms → edge_fine bundle timestamp r.
Proof.
  intros Hb Hperms Hr. unfold offered_edges in Hr. rewrite !elem_of_app in Hr.
  destruct Hr as [Hr|[Hr|[Hr|[Hr|[Hr|Hr]]]]]; try (apply list_elem_of_bind in Hr as (x & Hr & Hx)).
  - by eapply agent_edges_fine.
  - by eapply workload_edges_fine.
  - by eapply resource_edges_fine.
  - by apply credential_edges_fine.
  - by eapply policy_edges_fine.
  - by eapply permission_edges_fine.
Qed.

Lemma resolved_edges_contract `{SHA256} bundle perms timestamp :
  closed_bundle bundle → ResolvePermissions bundle = Ok perms → IsZero timestamp = false →
  ValidateGraphContract bundle (ResolveRelationships timestamp bundle perms) = Ok tt.
Proof.
  intros Hb Hperms Ht. unfold ResolveRelationships. set (offered := offered_edges timestamp bundle perms).
  assert (Hfine : ∀ r, r ∈ appendRelationship offered → edge_fine bundle timestamp r ∧ rel_FromNodeID r ≠ "" ∧ rel_ToNodeID r ≠ "").
  { intros r (Hr & Hne)%elem_of_appendRelationship. split; [by eapply offered_edges_fine|done]. }
  apply ValidateGraphContract_intro; [|apply NoDup_dedup_by|].
  - intros r Hr. destruct (Hfine r Hr) as ((Hid & Hd & He) & Hf & Hto). by rewrite Hid, Hd.
  - intros r s Hr Hs. by apply id_of_triple_key; apply Hfine.
Qed.

(** C22. For a valid bundle whose references are closed and that refers to no collected image repository, the relationship builder's edges pass the graph contract of the next stage whatever the hash function: every edge has both ends among the bundle's nodes and the kinds its type requires, and no edge or triple occurs twice. *)
Theorem ResolveRelationships_contract `{SHA256} bundle perms timestamp :
  closed_bundle bundle → ResolvePermissions bundle = Ok perms → IsZero timestamp = false →
  ValidateGraphContract bundle (ResolveRelationships timestamp bundle perms) = Ok tt.
Proof. apply resolved_edges_contract. Qed.

(** ** Which access and assume edges there are *)

(** A trust policy of [id] names the principal. *)
Definition trusts (bundle : NormalizedBundle) (id principal : string) : Prop :=
  ∃ policy, policy ∈ b_Policies bundle ∧ policy_type policy = policyTypeTrust ∧ policy_identity policy = id ∧
    principal ∈ parseStringList (map_get (pol_Normalized policy) "principals").
Definition arn_index (bundle : NormalizedBundle) : gmap string string :=
  collect (λ i, Some (id_ARN i, id_ID i)) (b_Identities bundle).

(** No two different edges of the scan share a (truncated) hash. *)
Definition ids_faithful (l : list Relationship) : Prop :=
  ∀ r s, r ∈ l → s ∈ l → rel_ID r = rel_ID s →
    rel_Type r = rel_Type s ∧ rel_FromNodeID r = rel_FromNodeID s ∧ rel_ToNodeID r = rel_ToNodeID s.
(** No separator in what is granted. *)
Definition grants_bar_free (bundle : NormalizedBundle) : Prop :=
  ∀ id e a r, grants bundle id e a r → no_byte "|" id ∧ no_byte "|" a ∧ no_byte "|" r.

Lemma resource_edges_type `{SHA256} si pi ii ts x r :
  r ∈ resource_edges si pi ii ts x → rel_Type r ∈ [Invokes; CallsTool; UsesSecret; UsesImage].
Proof.
  unfold resource_edges. rewrite !elem_of_app. intros [Hr|[Hr|[Hr|Hr]]].
  - destruct (_ && _); [apply list_elem_of_singleton in Hr as ->; set_solver|by apply elem_of_nil in Hr].
  - destruct (_ && _); [apply list_elem_of_singleton in Hr as ->; set_solver|by apply elem_of_nil in Hr].
  - apply list_elem_of_omap in Hr as (ref & _ & Hr). unfold secret_edge in Hr.
    repeat case_match; simplify_eq; cbn; set_solver.
  - apply list_elem_of_omap in Hr as (ref & _ & Hr). unfold image_edge in Hr.
    destruct (nonempty _); [injection Hr as <-; set_solver|done].
Qed.
Lemma policy_edges_type `{SHA256} m ts p r :
  r ∈ policy_edges m ts p → rel_Type r ∈ [AttachedPolicy; CanAssume].
Proof.
  unfold policy_edges. destruct (decide _); [by intros ?%elem_of_nil|]. destruct (decide _); [|destruct (decide _)].
  - intros ->%list_elem_of_singleton. set_solver.
  - intros (q & _ & Hr)%list_elem_of_omap. destruct (nonempty _); [injection Hr as <-; set_solver|done].
  - by intros ?%elem_of_nil.
Qed.
Lemma node_edges_type `{SHA256} ids ts r :
  (∃ a, r ∈ agent_edges ids ts a) ∨ (∃ w, r ∈ workload_edges ids ts w) → rel_Type r ∈ [RunsAs; AttachedTo].
Proof.
  intros [[a Hr]|[w Hr]].
  - unfold agent_edges in Hr. destruct (_ && _); [apply list_elem_of_singleton in Hr as ->; set_solver|by apply elem_of_nil in Hr].
  - unfold workload_edges in Hr. destruct (_ && _); [apply list_elem_of_singleton in Hr as ->|by apply elem_of_nil in Hr].
    cbn. unfold workloadRelationshipType. destruct (bool_decide _); [|destruct (_ || _)]; set_solver.
Qed.
Lemma mapped_edges_type `{SHA256} bundle ts r :
  r ∈ at_time ts <$> (MapBundleCredentialReferences bundle).2 → rel_Type r = UsesSecret.
Proof.
  intros (e & -> & He)%list_elem_of_fmap. cbn in *. rewrite sort_stable_perm in He.
  apply elem_of_dedup_by, list_elem_of_omap in He as (ref & _ & He). unfold reference_edge in He.
  destruct (nonempty _); [by simplify_eq|done].
Qed.

(** The access edges come from permissions, the assume edges from policies. *)
Lemma offered_by_type `{SHA256} ts bundle perms r :
  r ∈ offered_edges ts bundle perms → rel_Type r = CanAccess ∨ rel_Type r = CanAssume →
  (∃ p, p ∈ b_Policies bundle ∧ r ∈ policy_edges (arn_index bundle) ts p) ∨
  (∃ t, t ∈ perms ∧ r ∈ permission_edges ts t).
Proof.
  intros Hr Ht. unfold offered_edges in Hr. rewrite !elem_of_app in Hr.
  assert (Hno : ∀ l : list RelationshipType, rel_Type r ∈ l → CanAccess ∉ l → CanAssume ∉ l → False)
    by (intros l Hl H1 H2; destruct Ht as [E|E]; by rewrite E in Hl).
  destruct Hr as [Hr|[Hr|[Hr|[Hr|[Hr|Hr]]]]]; try (apply list_elem_of_bind in Hr as (x & Hr & Hx)).
  - exfalso. eapply (Hno [RunsAs; AttachedTo]); [by eapply node_edges_type; left; eexists|set_solver..].
  - exfalso. eapply (Hno [RunsAs; AttachedTo]); [by eapply node_edges_type; right; eexists|set_solver..].
  - exfalso. eapply Hno; [by eapply resource_edges_type|set_solver..].
  - exfalso. apply mapped_edges_type in Hr. destruct Ht; congruence.
  - left. by exists x.
  - right. by exists x.
Qed.

Section access.
Context `{SHA256} (timestamp : Z) (bundle : NormalizedBundle) (perms : list PermissionTuple)
  (Hperms : ResolvePermissions bundle = Ok perms)
  (Hfaith : ids_faithful (offered_edges timestamp bundle perms)).

Lemma offered_kept r :
  r ∈ offered_edges timestamp bundle perms → rel_FromNodeID r ≠ "" → rel_ToNodeID r ≠ "" →
  ∃ s, s ∈ ResolveRelationships timestamp bundle perms ∧ rel_Type s = rel_Type r ∧
    rel_FromNodeID s = rel_FromNodeID r ∧ rel_ToNodeID s = rel_ToNodeID r.
Proof.
  intros Hr Hf Ht. destruct (appendRelationship_complete _ r Hr Hf Ht) as (s & Hs & E).
  exists s. split; [done|]. apply Hfaith; [|done|done]. by apply elem_of_appendRelationship in Hs as [? _].
Qed.

(** The access edges of an identity are its allowed grants. *)
Lemma access_edges_spec (Hbar : grants_bar_free bundle) from to :
  from ≠ "" →
  (∃ r, r ∈ ResolveRelationships timestamp bundle perms ∧ rel_Type r = CanAccess ∧ rel_FromNodeID r = from ∧
     rel_ToNodeID r = to) ↔
  ∃ a s, grants bundle from "Allow" a s ∧ to = accessNodeID a s.
Proof.
  intros Hne. split.
  - intros (r & Hr & Ht & <- & <-). apply elem_of_appendRelationship in Hr as [Hr _].
    apply offered_by_type in Hr as [(p & _ & Hp)|(t & Hin & Hp)]; [| |by left].
    { apply policy_edges_type in Hp. rewrite Ht in Hp. set_solver. }
    unfold permission_edges in Hp. destruct (decide _) as [He|]; [|by apply elem_of_nil in Hp].
    apply list_elem_of_singleton in Hp as ->. exists (perm_Action t), (perm_Resource t). split; [|done].
    cbn. rewrite <-He. by apply (ResolvePermissions_sound _ _ _ Hperms).
  - intros (a & s & Hg & ->). destruct (ResolvePermissions_complete _ _ _ _ _ _ Hperms Hg) as (t & Ht & E).
    pose proof (ResolvePermissions_sound _ _ _ Hperms Ht) as Hg'.
    destruct (Hbar _ _ _ _ Hg) as (? & ? & ?), (Hbar _ _ _ _ Hg') as (? & ? & ?).
    apply tuple_key_inj in E as ->; try done.
    destruct (offered_kept (edge CanAccess timestamp from (accessNodeID a s) a)) as (k & Hk & ? & ? & ?);
      [|done|done|by exists k].
    unfold offered_edges. rewrite !elem_of_app. do 5 right. apply list_elem_of_bind. eexists. split; [|exact Ht].
    unfold permission_edges. cbn. by left.
Qed.

(** The assume edges of an identity are its trusted principals. *)
Lemma assume_edges_spec from to :
  from ≠ "" → to ≠ "" →
  (∃ r, r ∈ ResolveRelationships timestamp bundle perms ∧ rel_Type r = CanAssume ∧ rel_FromNodeID r = from ∧
     rel_ToNodeID r = to) ↔
  ∃ principal, trusts bundle to principal ∧ principalNodeID principal (arn_index bundle) = from.
Proof.
  intros Hf Hto. split.
  - intros (r & Hr & Ht & <- & <-). apply elem_of_appendRelationship in Hr as [Hr _].
    apply offered_by_type in Hr as [(p & Hin & Hp)|(t & _ & Hp)]; [| |by right].
    2: { unfold permission_edges in Hp. destruct (decide _); [apply list_elem_of_singleton in Hp as ->|by apply elem_of_nil in Hp].
      discriminate Ht. }
    unfold policy_edges in Hp. destruct (decide _); [by apply elem_of_nil in Hp|].
    destruct (decide _); [apply list_elem_of_singleton in Hp as ->; discriminate Ht|].
    destruct (decide _); [|by apply elem_of_nil in Hp].
    apply list_elem_of_omap in Hp as (q & Hq & Hp). destruct (nonempty _); [|done]. injection Hp as <-.
    exists q. split; [by exists p|done].
  - intros (q & (p & Hp & Hty & Hid & Hq) & E).
    destruct (offered_kept (edge CanAssume timestamp from to (pol_RawRef p))) as (k & Hk & ? & ? & ?);
      [|done|done|by exists k].
    unfold offered_edges. rewrite !elem_of_app. do 4 right. left. apply list_elem_of_bind. exists p. split; [|done].
    unfold policy_edges. rewrite Hid, Hty, decide_False by done. rewrite decide_False, decide_True by done.
    apply list_elem_of_omap. exists q. split; [done|]. fold (arn_index bundle). rewrite E.
    unfold nonempty. by rewrite bool_decide_false.
Qed.
End access.

(** ** A concrete bundle

    A function with a secret and a provider key, running as a role that anyone
    may assume and that may pass any role. *)
Definition plain_sha : SHA256 := {| sha256_hex16 := λ s, s |}.
Definition sample_role : string := "aws:identity:arn:aws:iam::111122223333:role/app".
Definition sample_identity : Identity :=
  mkIdentity sample_role "aws" "role" "standard" "customer" "app" "arn:aws:iam::111122223333:role/app" "" (5 * Hour) None.
Definition sample_secret : string := "arn:aws:secretsmanager:eu-west-1:111122223333:secret:db-AbCdEf".
Definition base_bundle : NormalizedBundle :=
  {| b_Identities := [sample_identity];
     b_Workloads := [mkWorkload "aws:workload:lambda:1:eu:function/pay" "aws" "lambda_function" "pay" sample_role];
     b_Policies :=
       [mkPolicy (sample_role +:+ ":policy:trust") "aws" "trust" ""
          [("policy_type", AString "trust"); ("identity_id", AString sample_role); ("principals", AStrings ["*"])] "raw:1";
        mkPolicy (sample_role +:+ ":policy:deploy") "aws" "deploy" ""
          [("policy_type", AString "permission"); ("identity_id", AString sample_role);
           ("statements", AMaps [[("effect", AString "Allow"); ("actions", AStrings ["iam:PassRole"; "s3:GetObject"]);
                                  ("resources", AStrings ["*"])]])] "raw:2"];
     b_Resources :=
       [mkResource "aws:resource:secrets-manager-secret:db" "aws" ResourceTypeSecretsManager "db" sample_secret "eu-west-1"
          "111122223333" [] "raw:3" "";
        mkResource "aws:resource:lambda-function:pay" "aws" ResourceTypeLambdaFunction "pay" "" "eu-west-1" "111122223333"
          [("secret_refs", AStrings ["DB=" +:+ sample_secret]); ("environment_keys", AStrings ["OPENAI_API_KEY"; "HOME"])]
          "raw:4" "aws:workload:lambda:1:eu:function/pay"];
     b_Credentials := []; b_Agents := []; b_RuntimeEvents := [] |}.
Definition sample_bundle : NormalizedBundle :=
  @appendCredentialReferenceNodes plain_sha base_bundle (list_to_set (res_ID <$> b_Resources base_bundle)).
Definition sample_time : Z := 60 * Hour.

Lemma Forall_check {A} (P : A → Prop) (f : A → bool) l :
  (∀ x, f x = true → P x) → forallb f l = true → ∀ x, x ∈ l → P x.
Proof. intros Hf Hl x Hx. rewrite forallb_forall in Hl. apply Hf, Hl. by apply list_elem_of_In. Qed.

Lemma sample_closed : @closed_bundle plain_sha sample_bundle.
Proof.
  split.
  - vm_compute. reflexivity.
  - refine (Forall_check _ (λ p, bool_decide (TrimSpace (policy_identity p) = policy_identity p)) _ _ _);
      [intros p; apply bool_decide_eq_true|by vm_compute].
  - refine (Forall_check _ (λ a, bool_decide (TrimSpace (ag_ID a) = ag_ID a)) _ _ _);
      [intros p; apply bool_decide_eq_true|by vm_compute].
  - refine (Forall_check _ (λ r, is_nil (credentialCandidateRefs r) ||
      present (res_SourceEntityID r) && hasActor (nodes_of sample_bundle) (TrimSpace (res_SourceEntityID r))) _ _ _); [|by vm_compute].
    intros r [Hn|[Hp%present_true Ha]%andb_true_iff]%orb_true_iff Hne; [|done].
    by destruct (credentialCandidateRefs r).
  - refine (Forall_check _ (λ r, negb (bool_decide (res_Type r = ResourceTypeBedrockAgentCore)) &&
      negb (bool_decide (res_Type r = ResourceTypeTool))) _ _ _); [|by vm_compute].
    intros r [H1 H2]%andb_true_iff _. boolify. naive_solver.
  - intros r ref Hr. revert ref. revert r Hr.
    refine (Forall_check _ (λ r, is_nil (imageRefsFromResource r)) _ _ _); [|by vm_compute].
    intros r Hn ref Href. destruct (imageRefsFromResource r); [by apply elem_of_nil in Href|done].
  - refine (Forall_check _ (λ ref, cr_Resolved ref || existsb (λ r, bool_decide (res_ID r = cr_TargetNodeID ref) &&
      bool_decide (res_Type r = ResourceTypeCredentialReference)) (b_Resources sample_bundle)) _ _ _); [|by vm_compute].
    intros ref [Hr|Hr]%orb_true_iff Hres _; [congruence|]. apply existsb_exists in Hr as (r & Hin & Hr).
    exists r. apply list_elem_of_In in Hin. apply andb_true_iff in Hr as [H1 H2]. boolify. done.
Qed.
Definition sample_perms : list PermissionTuple :=
  [mkPermission sample_role "iam:PassRole" "*" "Allow"; mkPermission sample_role "s3:GetObject" "*" "Allow"].
Lemma sample_perms_ok : ResolvePermissions sample_bundle = Ok sample_perms.
Proof. vm_compute. reflexivity. Qed.

Lemma ResolveRelationships_contract_witness :
  @closed_bundle plain_sha sample_bundle ∧
  ValidateGraphContract sample_bundle (@ResolveRelationships plain_sha sample_time sample_bundle sample_perms) = Ok tt.
Proof.
  split; [apply sample_closed|].
  apply (@ResolveRelationships_contract plain_sha sample_bundle sample_perms sample_time);
    [apply sample_closed|apply sample_perms_ok|reflexivity].
Defined.

(** Its seven edges. *)
Example sample_edges :
  (λ r, (rel_Type r, rel_ToNodeID r)) <$> @ResolveRelationships plain_sha sample_time sample_bundle sample_perms =
  [(RunsAs, sample_role); (UsesSecret, "aws:resource:secrets-manager-secret:db");
   (UsesSecret, "aws:resource:credential-reference:aws:workload:lambda:1:eu:function/pay|openai|openai_api_key");
   (CanAssume, sample_role); (AttachedPolicy, sample_role +:+ ":policy:deploy");
   (CanAccess, "aws:access:iam%3APassRole:%2A"); (CanAccess, "aws:access:s3%3AGetObject:%2A")].
Proof. vm_compute. reflexivity. Qed.
