(* ===== verification/AwsRules.v ===== *)
(** * Role classification and the AWS risk rules

    [internal/providers/aws/role_classification.go] and [rules.go]: which
    identities are the product's own connector or an AWS service-linked role
    and whether they drifted, and the findings for every other identity.
    [encoding/json] and SHA-256 are parameters; the order of a map iteration
    and of [sort.Slice] are the interfaces of [GoCollections].  The call's
    context is taken not to be cancelled. *)
From S2P Require Import Prelude GoStrings GoCollections GoTime GoText ScanDomain GraphContract AwsPolicies AwsReferences AwsGraph Wildcard.

(** ** Role classification *)
Definition identrailConnectorRoleName := "IdentrailReadOnly".
Definition awsFindingProvenance := "aws_iam_inventory".
Definition awsFindingAdapterSource := "aws_iam_rule_engine".
Definition awsFindingEvidenceVersion := "aws-finding-v2".

Record serviceLinkedRoleExpectation := mkServiceRole { slr_RoleName : string; slr_ServicePrincipal : string }.
Definition expectedServiceLinkedRoles : list (string * serviceLinkedRoleExpectation) :=
  [("awsserviceroleforamazonsecuritylake", mkServiceRole "AWSServiceRoleForAmazonSecurityLake" "securitylake.amazonaws.com");
   ("awsserviceroleforsupport", mkServiceRole "AWSServiceRoleForSupport" "support.amazonaws.com");
   ("awsservicerolefortrustedadvisor", mkServiceRole "AWSServiceRoleForTrustedAdvisor" "trustedadvisor.amazonaws.com");
   ("awsservicerolefororganizations", mkServiceRole "AWSServiceRoleForOrganizations" "organizations.amazonaws.com")].

Record ConnectorRoleExpectation := mkConnector {
  ce_RoleARN : string; ce_AccountID : string; ce_TrustedAccountID : string; ce_ExternalID : string }.

Definition accountIDFromARN (arn : string) : string :=
  match Split (TrimSpace arn) ":" with
  | _ :: _ :: _ :: _ :: account :: _ :: _ =>
      let accountID := TrimSpace account in
      if decide (str_len accountID = 12)%nat then accountID else ""
  | _ => ""
  end.

Definition isServiceLinkedRoleARN (roleARN : string) : bool :=
  match Split (TrimSpace roleARN) ":" with
  | [_; _; service; _; _; resource] => bool_decide (service = "iam") && HasPrefix resource "role/aws-service-role/"
  | _ => false
  end.

(** [isIdentrailConnectorRole]: by name, or by a tag key of the connector. *)
Definition isIdentrailConnectorRole (name : string) (tags : list string) : bool :=
  EqualFold (TrimSpace name) identrailConnectorRoleName ||
  existsb (λ key, EqualFold (TrimSpace key) "IdentrailConnectorMode") tags.
(** The kind, the manager and the actionability of a role; [tags] are its tag
    keys. *)
Definition classifyIAMRoleIdentity (name arn : string) (tags : list string) : string * string * string :=
  if isIdentrailConnectorRole (TrimSpace name) tags then ("connector", "identrail_connector", "review")
  else if isServiceLinkedRoleARN arn then ("service_linked", "aws_service", "observe_only")
  else ("standard", "customer", "action_required").

Definition matchesExpectedServiceLinkedRoleARN (roleARN : string) (e : serviceLinkedRoleExpectation) : bool :=
  match Split (TrimSpace roleARN) ":" with
  | [_; _; service; _; account; resource] =>
      bool_decide (service = "iam") && negb (blank account) &&
      bool_decide (resource = "role/aws-service-role/" +:+ slr_ServicePrincipal e +:+ "/" +:+ slr_RoleName e)
  | _ => false
  end.

Fixpoint assoc {A} (l : list (string * A)) (key : string) : option A :=
  match l with
  | [] => None
  | (k, v) :: l => if decide (k = key) then Some v else assoc l key
  end.
Definition expectedServiceLinkedRole (identity : Identity) : option serviceLinkedRoleExpectation :=
  match assoc expectedServiceLinkedRoles (canon (id_Name identity)) with
  | Some e => if matchesExpectedServiceLinkedRoleARN (id_ARN identity) e then Some e else None
  | None => None
  end.

Definition isExpectedAWSManagedPolicyARN (policyARN : string) : bool :=
  match Split (TrimSpace policyARN) ":" with
  | _ :: _ :: service :: _ :: account :: resource :: _ =>
      bool_decide (service = "iam") && bool_decide (account = "aws") &&
      HasPrefix (ToLower resource) "policy/aws-service-role/"
  | _ => false
  end.

Definition permissionPoliciesForIdentity (bundle : NormalizedBundle) (identityID : string) : list Policy :=
  filter (λ p, policy_type p = policyTypePerm ∧ policy_identity p = identityID) (b_Policies bundle).
Definition trustPolicyForIdentity (bundle : NormalizedBundle) (identityID : string) : option Policy :=
  head (filter (λ p, policy_type p = policyTypeTrust ∧ policy_identity p = identityID) (b_Policies bundle)).

(** *** Trust policies *)
Record trustAssumeRoleBinding := mkBinding {
  tb_Actions : list string; tb_NotActions : list string; tb_AWSPrincipals : list string;
  tb_ServicePrincipals : list string; tb_OtherPrincipals : list string;
  tb_ExternalIDEquals : list string; tb_HasOtherExternalIDOperator : bool }.
Record trustPolicyFacts := mkFacts {
  tf_AWSPrincipals : list string; tf_ServicePrincipals : list string; tf_OtherPrincipals : list string;
  tf_AllowsAssumeRole : bool; tf_Bindings : list trustAssumeRoleBinding }.
Definition no_facts : trustPolicyFacts := mkFacts [] [] [] false [].

Definition names_assume_role (action : string) : bool := iamActionPatternMatches (canon action) "sts:assumerole".
Definition actionsAllowAssumeRole (actions : list string) : bool := existsb names_assume_role actions.
Definition statementAllowsAssumeRole (actions notActions : list string) : bool :=
  if actionsAllowAssumeRole actions then true
  else negb (is_nil notActions) && negb (existsb names_assume_role notActions).

(** [inspectExternalIDConditions]: the values [StringEquals] asks for, and
    whether another operator is used on the external id. *)
Definition external_id_key (kv : string * any) : bool := EqualFold (TrimSpace kv.1) "sts:ExternalId".
Definition condition_keys (condition : list (string * any)) (equals : bool) : list (string * any) :=
  ov ← condition;
  if Bool.eqb (EqualFold (TrimSpace ov.1) "StringEquals") equals
  then match as_map ov.2 with Some m => filter (λ kv, external_id_key kv = true) m | None => [] end
  else [].
Definition inspectExternalIDConditions (condition : list (string * any)) : list string * bool :=
  (sortedUniqueStrings (condition_keys condition true ≫= λ kv, parseStringList kv.2),
   negb (is_nil (condition_keys condition false))).

Definition statement_binding (st : iamPolicyStatement) : option trustAssumeRoleBinding :=
  if negb (EqualFold (TrimSpace (st_Effect st)) "allow") then None
  else
    let actions := sortedUniqueStrings (parseStringList (st_Action st)) in
    let notActions := sortedUniqueStrings (parseStringList (st_NotAction st)) in
    if negb (statementAllowsAssumeRole actions notActions) then None
    else
      let '(externalIDEquals, other) := inspectExternalIDConditions (st_Condition st) in
      Some {| tb_Actions := actions; tb_NotActions := notActions;
              tb_AWSPrincipals := sortedUniqueStrings (parseAWSPrincipals (st_Principal st));
              tb_ServicePrincipals := sortedUniqueStrings (parsePrincipalType (st_Principal st) "Service");
              tb_OtherPrincipals := sortedUniqueStrings
                (parsePrincipalType (st_Principal st) "Federated" ++ parsePrincipalType (st_Principal st) "CanonicalUser");
              tb_ExternalIDEquals := externalIDEquals; tb_HasOtherExternalIDOperator := other |}.

(** The facts of a policy are those of its assume-role statements. *)
Definition inspectTrustPolicy `{JSON} (policy : option Policy) : trustPolicyFacts :=
  match policy with
  | None => no_facts
  | Some policy =>
      match parsePolicyDocument (pol_Document policy) with
      | Err _ => no_facts
      | Ok doc =>
          let bindings := omap statement_binding (doc_Statement doc) in
          {| tf_AWSPrincipals := sortedUniqueStrings (bindings ≫= tb_AWSPrincipals);
             tf_ServicePrincipals := sortedUniqueStrings (bindings ≫= tb_ServicePrincipals);
             tf_OtherPrincipals := sortedUniqueStrings (bindings ≫= tb_OtherPrincipals);
             tf_AllowsAssumeRole := negb (is_nil bindings);
             tf_Bindings := bindings |}
      end
  end.

(** *** Drift signals *)
Definition expectedServiceLinkedRoleSignals `{JSON} (bundle : NormalizedBundle) (identity : Identity)
    (e : serviceLinkedRoleExpectation) (hasBroadAccess : bool) : list string :=
  let facts := inspectTrustPolicy (trustPolicyForIdentity bundle (id_ID identity)) in
  let trust_ok :=
    tf_AllowsAssumeRole facts &&
    match tf_ServicePrincipals facts with [p] => EqualFold p (slr_ServicePrincipal e) | _ => false end &&
    is_nil (tf_AWSPrincipals facts) && is_nil (tf_OtherPrincipals facts) in
  let managed p :=
    isExpectedAWSManagedPolicyARN (as_string (map_get (pol_Normalized p) "policy_arn")) &&
    EqualFold (TrimSpace (as_string (map_get (pol_Normalized p) "attachment_type"))) "managed" in
  let customerPolicy := negb (forallb managed (permissionPoliciesForIdentity bundle (id_ID identity))) in
  sortedUniqueStrings
    ((if trust_ok then [] else ["unexpected_trust"])
     ++ (if customerPolicy
         then "customer_added_policy" :: (if hasBroadAccess then ["unexpected_permission_reachability"] else [])
         else [])).

Definition isAccountRootPrincipal (principal accountID : string) : bool :=
  match Split (TrimSpace principal) ":" with
  | [arn; _; service; _; account; root] =>
      bool_decide (arn = "arn") && bool_decide (service = "iam") && bool_decide (account = TrimSpace accountID) &&
      bool_decide (root = "root")
  | _ => false
  end.

(** Whether the trust is valid, and whether the external id is. *)
Definition connectorTrustBindingStatus (facts : trustPolicyFacts) (trustedAccountID externalID : string) : bool * bool :=
  match tf_Bindings facts with
  | [b] =>
      (match tb_Actions b with [a] => EqualFold a "sts:AssumeRole" | _ => false end && is_nil (tb_NotActions b) &&
       match tb_AWSPrincipals b with [p] => isAccountRootPrincipal p trustedAccountID | _ => false end &&
       is_nil (tb_ServicePrincipals b) && is_nil (tb_OtherPrincipals b),
       match tb_ExternalIDEquals b with [v] => bool_decide (v = externalID) | _ => false end &&
       negb (tb_HasOtherExternalIDOperator b))
  | _ => (false, false)
  end.

Definition connector_actions : list string :=
  ["iam:GetAccountSummary"; "iam:GetInstanceProfile"; "iam:GetPolicy"; "iam:GetPolicyVersion"; "iam:GetRole";
   "iam:GetRolePolicy"; "iam:ListAccountAliases"; "iam:ListAttachedRolePolicies"; "iam:ListRolePolicies";
   "iam:ListRoles"; "iam:SimulatePrincipalPolicy"; "ec2:DescribeIamInstanceProfileAssociations";
   "ec2:DescribeInstances"; "ec2:DescribeLaunchTemplateVersions"; "ec2:DescribeLaunchTemplates";
   "ec2:DescribeRegions"; "ecs:DescribeServices"; "ecs:DescribeTaskDefinition"; "ecs:ListClusters";
   "ecs:ListServices"; "ecs:ListTaskDefinitions"; "codebuild:BatchGetProjects"; "codebuild:ListProjects";
   "lambda:ListFunctions"; "lambda:ListEventSourceMappings"; "lambda:ListAliases";
   "lambda:ListVersionsByFunction"; "lambda:ListTags"; "codepipeline:ListPipelines";
   "codepipeline:GetPipeline"; "codepipeline:GetPipelineState"; "states:ListStateMachines";
   "states:DescribeStateMachine"; "states:ListTagsForResource"; "events:ListEventBuses"; "events:ListRules";
   "events:ListTargetsByRule"; "events:ListTagsForResource"; "scheduler:ListSchedules";
   "scheduler:GetSchedule"; "pipes:ListPipes"; "pipes:DescribePipe"; "apprunner:ListServices";
   "apprunner:DescribeService"; "batch:DescribeComputeEnvironments"; "batch:DescribeJobDefinitions";
   "glue:GetJobs"; "glue:GetCrawlers"; "elasticmapreduce:ListClusters"; "elasticmapreduce:DescribeCluster";
   "eks:DescribeCluster"; "eks:DescribeFargateProfile"; "eks:DescribeNodegroup";
   "eks:DescribePodIdentityAssociation"; "eks:ListClusters"; "eks:ListFargateProfiles"; "eks:ListNodegroups";
   "eks:ListPodIdentityAssociations"; "sagemaker:DescribeDomain"; "sagemaker:DescribeEndpoint";
   "sagemaker:DescribeEndpointConfig"; "sagemaker:DescribeModel"; "sagemaker:DescribeNotebookInstance";
   "sagemaker:DescribePipeline"; "sagemaker:DescribeProcessingJob"; "sagemaker:DescribeTrainingJob";
   "sagemaker:DescribeTransformJob"; "sagemaker:ListDomains"; "sagemaker:ListEndpoints";
   "sagemaker:ListModels"; "sagemaker:ListNotebookInstances"; "sagemaker:ListPipelines";
   "sagemaker:ListProcessingJobs"; "sagemaker:ListTrainingJobs"; "sagemaker:ListTransformJobs";
   "s3:GetBucketAcl"; "s3:GetBucketLocation"; "s3:GetBucketOwnershipControls"; "s3:GetBucketPolicy";
   "s3:GetBucketPublicAccessBlock"; "s3:GetBucketTagging"; "s3:GetEncryptionConfiguration";
   "s3:ListAccessPoints"; "s3:ListAllMyBuckets"; "ecr:DescribeImages"; "ecr:DescribeRepositories";
   "ecr:GetLifecyclePolicy"; "ecr:GetRepositoryPolicy"; "ecr:GetRegistryScanningConfiguration";
   "ecr:ListTagsForResource"; "kms:DescribeKey"; "kms:GetKeyPolicy"; "kms:GetKeyRotationStatus";
   "kms:ListAliases"; "kms:ListGrants"; "kms:ListKeys"; "kms:ListResourceTags"; "sqs:GetQueueAttributes";
   "sqs:ListQueues"; "sqs:ListQueueTags"; "sns:GetSubscriptionAttributes"; "sns:GetTopicAttributes";
   "sns:ListSubscriptionsByTopic"; "sns:ListTagsForResource"; "sns:ListTopics"; "dynamodb:ListTables";
   "dynamodb:DescribeTable"; "dynamodb:ListTagsOfResource"; "dynamodb:GetResourcePolicy";
   "rds:DescribeDBInstances"; "rds:DescribeDBClusters"; "rds:DescribeDBProxies"; "rds:ListTagsForResource";
   "secretsmanager:ListSecrets"; "secretsmanager:DescribeSecret"; "secretsmanager:GetResourcePolicy";
   "secretsmanager:ListSecretVersionIds"; "ssm:DescribeParameters"; "ssm:ListTagsForResource";
   "bedrock-agentcore:ListAgentRuntimes"; "bedrock-agentcore:GetAgentRuntime";
   "bedrock-agentcore:ListAgentRuntimeEndpoints"; "bedrock-agentcore:ListGateways";
   "bedrock-agentcore:GetGateway"; "bedrock-agentcore:ListGatewayTargets";
   "bedrock-agentcore:GetGatewayTarget"; "bedrock-agentcore:ListMemories"; "bedrock-agentcore:GetMemory";
   "bedrock-agentcore:ListBrowsers"; "bedrock-agentcore:GetBrowser"; "bedrock-agentcore:ListCodeInterpreters";
   "bedrock-agentcore:GetCodeInterpreter"; "sts:GetCallerIdentity"; "organizations:DescribeOrganization";
   "organizations:ListAccountsForParent"; "organizations:ListDelegatedAdministrators";
   "organizations:ListDelegatedServicesForAccount"; "organizations:ListOrganizationalUnitsForParent";
   "organizations:ListRoots"; "cloudformation:ListStackInstances"].
Definition expectedConnectorPermissionActions : gset string := list_to_set (ToLower <$> connector_actions).

Definition allows (statement : list (string * any)) : bool := EqualFold (as_string (map_get statement "effect")) "Allow".
Definition policy_statements (policy : Policy) : result (list (list (string * any))) :=
  parseNormalizedStatements (map_get (pol_Normalized policy) "statements").
Definition canonical_actions (statement : list (string * any)) : list string :=
  canon <$> parseStringList (map_get statement "actions").

Definition statement_expands (statement : list (string * any)) : bool :=
  allows statement &&
  (negb (is_nil (parseStringList (map_get statement "not_actions"))) ||
   negb (is_nil (parseStringList (map_get statement "not_resources"))) ||
   existsb (λ a, negb (bool_decide (a ∈ expectedConnectorPermissionActions))) (canonical_actions statement)).
Definition connectorPermissionScopeExpanded (policies : list Policy) : bool :=
  existsb (λ p, match policy_statements p with Err _ => true | Ok sts => existsb statement_expands sts end) policies.

(** Policies in order: an unreadable one reports missing actions, a wildcard
    reports none. *)
Fixpoint actions_missing (observed : gset string) (policies : list Policy) : bool :=
  match policies with
  | [] => negb (bool_decide (expectedConnectorPermissionActions ⊆ observed))
  | p :: policies =>
      match policy_statements p with
      | Err _ => true
      | Ok sts =>
          let actions := filter (λ st, allows st = true) sts ≫= canonical_actions in
          if bool_decide ("*" ∈ actions) then false
          else actions_missing (list_to_set actions ∪ observed) policies
      end
  end.
Definition connectorPermissionActionsMissing : list Policy → bool := actions_missing ∅.

Definition signal (b : bool) (name : string) : list string := if b then [name] else [].

(** The signals and whether any evidence was missing. *)
Definition connectorRoleSignals `{JSON} (bundle : NormalizedBundle) (identity : Identity) (e : ConnectorRoleExpectation)
  : list string * bool :=
  let expectedARN := TrimSpace (ce_RoleARN e) in
  let expectedAccount := TrimSpace (ce_AccountID e) in
  let trusted := TrimSpace (ce_TrustedAccountID e) in
  let external := TrimSpace (ce_ExternalID e) in
  let policy := trustPolicyForIdentity bundle (id_ID identity) in
  let '(trustValid, externalIDValid) := connectorTrustBindingStatus (inspectTrustPolicy policy) trusted external in
  let has_trust := bool_decide (is_Some policy) in
  let permissions := permissionPoliciesForIdentity bundle (id_ID identity) in
  (sortedUniqueStrings
    (signal (nonempty expectedARN && negb (EqualFold (TrimSpace (id_ARN identity)) expectedARN)) "connector_role_mismatch"
     ++ signal (nonempty expectedAccount && negb (bool_decide (accountIDFromARN (id_ARN identity) = expectedAccount)))
          "connector_account_mismatch"
     ++ signal (negb has_trust) "trust_evidence_missing"
     ++ signal (has_trust && negb (nonempty trusted)) "trusted_account_expectation_missing"
     ++ signal (has_trust && nonempty trusted && negb trustValid) "unexpected_trust"
     ++ signal (has_trust && negb (nonempty external)) "external_id_expectation_missing"
     ++ signal (has_trust && nonempty external && negb externalIDValid) "external_id_mismatch"
     ++ signal (is_nil permissions) "permission_evidence_missing"
     ++ signal (negb (is_nil permissions) && connectorPermissionScopeExpanded permissions) "permission_scope_expanded"
     ++ signal (negb (is_nil permissions) && connectorPermissionActionsMissing permissions) "permission_scope_incomplete"),
   has_trust && nonempty trusted && nonempty external && negb (is_nil permissions)).

(** ** The risk rules *)
Record accessRisk := mkRisk { ar_Action : string; ar_Resource : string; ar_NodeID : string; ar_Escalates : bool }.
Record RuleSet := mkRules { rs_now : Z; rs_staleAfter : Z; rs_connectorExpectation : ConnectorRoleExpectation }.
Definition defaultStaleAfter : Z := 90 * 24 * Hour.
(** [WithStaleAfter], [WithConnectorRoleExpectation] and [NewRuleSet]. *)
Definition WithStaleAfter (staleAfter : Z) (r : RuleSet) : RuleSet :=
  if 0 <? staleAfter then mkRules (rs_now r) staleAfter (rs_connectorExpectation r) else r.
Definition WithConnectorRoleExpectation (e : ConnectorRoleExpectation) (r : RuleSet) : RuleSet :=
  mkRules (rs_now r) (rs_staleAfter r)
    (mkConnector (TrimSpace (ce_RoleARN e)) (TrimSpace (ce_AccountID e)) (TrimSpace (ce_TrustedAccountID e))
       (TrimSpace (ce_ExternalID e))).
Definition NewRuleSet (now : Z) (opts : list (RuleSet → RuleSet)) : RuleSet :=
  foldl (λ r opt, opt r) (mkRules now defaultStaleAfter (mkConnector "" "" "" "")) opts.

Definition adminActions : list string :=
  ["*"; "iam:*"; "sts:*"; "kms:*"; "ec2:*"; "organizations:*"; "iam:passrole"; "iam:attachrolepolicy";
   "iam:putrolepolicy"; "iam:createpolicyversion"; "sts:assumerole"].
Definition isEscalationAction (action : string) : bool := bool_decide (canon action ∈ adminActions).
Definition isOverprivilegedPermission (action resource : string) : bool :=
  bool_decide (canon action = "*") || HasSuffix (canon action) ":*" || bool_decide (TrimSpace resource = "*") ||
  isEscalationAction action.
Definition hasEscalationRisk (risks : list accessRisk) : bool := existsb ar_Escalates risks.

Definition isRiskyPrincipal (fromNodeID targetAccount : string) (identityByID : gmap string Identity) : bool :=
  let principal := TrimSpace fromNodeID in
  if decide (principal = "") then false
  else if decide (principal = "aws:principal:*") then true
  else
    match (if HasPrefix principal "aws:identity:" then identityByID !! principal else None) with
    | Some identity => negb (bool_decide (accountIDFromARN (id_ARN identity) = targetAccount))
    | None =>
        let principal := TrimPrefix (TrimPrefix principal "aws:identity:") "aws:principal:" in
        if decide (principal = "*") then true
        else
          let principalAccount := accountIDFromARN principal in
          bool_decide (principalAccount = "") || bool_decide (targetAccount = "") ||
          negb (bool_decide (principalAccount = targetAccount))
    end.

Definition isConnectorRole (r : RuleSet) (identity : Identity) : bool :=
  let expectedARN := TrimSpace (ce_RoleARN (rs_connectorExpectation r)) in
  let expectedAccountID := TrimSpace (ce_AccountID (rs_connectorExpectation r)) in
  nonempty expectedARN && nonempty expectedAccountID && EqualFold (TrimSpace (id_ARN identity)) expectedARN &&
  bool_decide (accountIDFromARN (id_ARN identity) = expectedAccountID).

Definition isIdentityOwnerless (identity : Identity) : bool := blank (id_OwnerHint identity).
(** [t.Sub(u)] saturates at the ends of a 64-bit duration. *)
Definition time_Sub (t u : Z) : Z := Z.max int64_min (Z.min int64_max (t - u)).
Definition isIdentityStale (identity : Identity) (now staleAfter : Z) : bool :=
  match id_LastUsedAt identity with
  | Some used => staleAfter <? time_Sub now used
  | None => if IsZero (id_CreatedAt identity) then false else staleAfter <? time_Sub now (id_CreatedAt identity)
  end.

(** [sortAccessRisks]: escalations first, then by action, resource and node. *)
Definition compare_risk (x y : accessRisk) : comparison :=
  lex (Z.compare (if ar_Escalates x then 0 else 1) (if ar_Escalates y then 0 else 1))
    (lex (compare_string (ar_Action x) (ar_Action y))
      (lex (compare_string (ar_Resource x) (ar_Resource y)) (compare_string (ar_NodeID x) (ar_NodeID y)))).
Definition sortAccessRisks `{SortSlice} (risks : list accessRisk) : list accessRisk := sort_slice (less_of compare_risk) risks.
Definition sortedIdentities `{SortSlice} (identities : list Identity) : list Identity :=
  sort_slice (less_of (λ x y, compare_string (id_ID x) (id_ID y))) identities.

Definition severityRank (s : FindingSeverity) : Z :=
  match s with SeverityCritical => 0 | SeverityHigh => 1 | SeverityMedium => 2 | SeverityLow => 3 | SeverityInfo => 4 end.

(** *** Findings *)

(** [m[key] = v]. *)
Fixpoint map_set (m : list (string * any)) (key : string) (v : any) : list (string * any) :=
  match m with
  | [] => [(key, v)]
  | (k, w) :: m => if decide (k = key) then (k, v) :: m else (k, w) :: map_set m key v
  end.
Definition map_update (m : list (string * any)) (entries : list (string * any)) : list (string * any) :=
  foldl (λ m kv, map_set m kv.1 kv.2) m entries.

Definition displayIdentity (identity : Identity) : string :=
  if present (id_Name identity) then id_Name identity else id_ARN identity.

Section findings.
Context `{SHA256}.

Definition findingID (t : FindingType) (identityID salt : string) : string :=
  "aws:finding:" +:+ sha256_hex16 (finding_type_string t +:+ "|" +:+ identityID +:+ "|" +:+ salt).

(** The fields the plain rules set; the rest is filled in by
    [decorateAWSFinding]. *)
Definition plain_finding (t : FindingType) (severity : FindingSeverity) (identity : Identity) (salt title summary : string)
    (path : list string) (evidence : list (string * any)) (remediation : string) (now : Z) : Finding :=
  {| f_ID := findingID t (id_ID identity) salt; f_Type := t; f_Severity := severity; f_ConfidenceScore := 0;
     f_Actionability := ""; f_Exploitability := ""; f_EvidenceCompleteness := ""; f_Provenance := "";
     f_Title := title +:+ ": " +:+ displayIdentity identity; f_HumanSummary := summary; f_Path := path;
     f_AdapterSource := ""; f_ConfidenceState := ""; f_EvidenceVersion := "";
     f_Evidence := ("identity_id", AString (id_ID identity)) :: ("identity_arn", AString (id_ARN identity)) :: evidence;
     f_Remediation := remediation; f_CreatedAt := now |}.

Definition overprivilegedFinding (identity : Identity) (risks : list accessRisk) (now : Z) : Finding :=
  plain_finding FindingOverPrivileged SeverityHigh identity (Itoa (Z.of_nat (length risks))) "Overprivileged identity"
    "This identity can perform broad or high-impact actions that materially increase blast radius."
    (dedupeStrings (id_ID identity :: (ar_NodeID <$> risks)))
    [("permissions", AStringMaps ((λ r, [("action", ar_Action r); ("resource", ar_Resource r)]) <$> risks))]
    "Scope permissions to least privilege and remove wildcard or admin-level actions not required by workload behavior."
    now.

Definition riskyTrustFinding (identity : Identity) (principals : list string) (now : Z) : Finding :=
  plain_finding FindingRiskyTrustPolicy SeverityHigh identity (Join principals ",") "Risky trust policy"
    "This role can be assumed by wildcard or cross-account principals, increasing takeover risk."
    (id_ID identity :: principals)
    [("risky_principals", AStrings principals); ("target_account_id", AString (accountIDFromARN (id_ARN identity)))]
    "Restrict trust policy principals to explicitly approved identities and remove wildcard or unnecessary cross-account trust."
    now.

Definition escalationFinding (identity : Identity) (principals : list string) (risk : accessRisk) (now : Z) : Finding :=
  let principal := default "unknown" (head principals) in
  plain_finding FindingEscalationPath SeverityCritical identity (principal +:+ "|" +:+ ar_Action risk)
    "Escalation path detected"
    "A risky trust path reaches an identity with high-impact permissions, enabling likely privilege escalation."
    [principal; id_ID identity; ar_NodeID risk]
    [("principal", AString principal); ("escalation_action", AString (ar_Action risk)); ("resource", AString (ar_Resource risk))]
    "Constrain trust and remove escalation-capable permissions. Require scoped assume-role conditions and least-privilege action/resource constraints."
    now.

Definition staleFinding (identity : Identity) (now staleAfter : Z) : Finding :=
  let reference := Format_RFC3339 (default (id_CreatedAt identity) (id_LastUsedAt identity)) in
  plain_finding FindingStaleIdentity SeverityMedium identity reference "Stale identity"
    "This identity appears inactive beyond the staleness threshold and should be reviewed or decommissioned."
    [id_ID identity]
    [("reference_timestamp", AString reference); ("stale_threshold_days", AInt (staleAfter ÷ (24 * Hour)))]
    "Validate current workload usage, then disable or remove stale identity permissions if no active dependency exists."
    now.

Definition ownerlessFinding (identity : Identity) (now : Z) : Finding :=
  plain_finding FindingOwnerless SeverityMedium identity "ownerless" "Ownerless identity"
    "No ownership signal was detected for this identity, creating response and accountability gaps."
    [id_ID identity] []
    "Assign a clear owner via tags or ownership registry and enforce ownership metadata on new identities."
    now.

Definition or_default (value fallback : string) : string := if decide (value = "") then fallback else value.

Definition decorateAWSFinding (f : Finding) (identity : Identity) (signals : list string) (now : Z) : Finding :=
  let confidence := if f_ConfidenceScore f =? 0 then 90 else f_ConfidenceScore f in
  let actionability := or_default (f_Actionability f) "action_required" in
  let exploitability := or_default (f_Exploitability f) "unknown" in
  let completeness := or_default (f_EvidenceCompleteness f) "complete" in
  let provenance := or_default (f_Provenance f) awsFindingProvenance in
  {| f_ID := f_ID f; f_Type := f_Type f; f_Severity := f_Severity f; f_ConfidenceScore := confidence;
     f_Actionability := actionability; f_Exploitability := exploitability; f_EvidenceCompleteness := completeness;
     f_Provenance := provenance; f_Title := f_Title f; f_HumanSummary := f_HumanSummary f; f_Path := f_Path f;
     f_AdapterSource := awsFindingAdapterSource; f_ConfidenceState := "inventory_backed";
     f_EvidenceVersion := awsFindingEvidenceVersion;
     f_Evidence := map_update (f_Evidence f)
       ([("account_id", AString (accountIDFromARN (id_ARN identity))); ("region", AString "global");
         ("source", AString awsFindingAdapterSource); ("observed_at", AString (Format_RFC3339 now));
         ("provenance", AString provenance); ("confidence", AFloat confidence);
         ("identity_kind", AString (or_default (id_IdentityKind identity) "standard"));
         ("managed_by", AString (or_default (id_ManagedBy identity) "customer"));
         ("actionability", AString actionability); ("exploitability", AString exploitability);
         ("evidence_completeness", AString completeness);
         ("evidence_boundary", AString "IAM role inventory, trust policy, and collected permission policies")]
        ++ (if is_nil signals then [] else [("contributing_signals", AStrings (sortedUniqueStrings signals))]));
     f_Remediation := f_Remediation f; f_CreatedAt := f_CreatedAt f |}.

Definition managedRoleAnomalyFinding (identity : Identity) (e : serviceLinkedRoleExpectation) (signals : list string)
    (now : Z) : Finding :=
  decorateAWSFinding
    {| f_ID := findingID FindingRiskyTrustPolicy (id_ID identity) (Join signals ","); f_Type := FindingRiskyTrustPolicy;
       f_Severity := SeverityHigh; f_ConfidenceScore := 95; f_Actionability := "review"; f_Exploitability := "plausible";
       f_EvidenceCompleteness := "complete"; f_Provenance := awsFindingProvenance;
       f_Title := "AWS-managed role anomaly: " +:+ displayIdentity identity;
       f_HumanSummary := "This expected AWS service-linked role differs from its managed trust or policy boundary and needs investigation without directly editing the role.";
       f_Path := [id_ID identity]; f_AdapterSource := ""; f_ConfidenceState := ""; f_EvidenceVersion := "";
       f_Evidence := [("identity_id", AString (id_ID identity)); ("identity_arn", AString (id_ARN identity));
                      ("expected_service_principal", AString (slr_ServicePrincipal e)); ("contributing_signals", AStrings signals)];
       f_Remediation := "Review the owning AWS service configuration and CloudTrail history. Restore the service-linked role through the AWS service workflow instead of editing it directly.";
       f_CreatedAt := now |} identity signals now.

Definition missing_signal (s : string) : bool := HasSuffix s "_missing".
Definition connectorTrustReviewFinding (identity : Identity) (signals : list string) (complete : bool) (now : Z) : Finding :=
  let invalid := negb (forallb missing_signal signals) in
  let uncertain := negb invalid && negb (is_nil signals) in
  let pick (clean unsure bad : string) := if invalid then bad else if uncertain then unsure else clean in
  decorateAWSFinding
    {| f_ID := findingID FindingRiskyTrustPolicy (id_ID identity) ("connector-review|" +:+ Join signals ",");
       f_Type := FindingRiskyTrustPolicy;
       f_Severity := if invalid then SeverityHigh else SeverityInfo;
       f_ConfidenceScore := if negb invalid && negb complete then 72 else 95;
       f_Actionability := pick "observe_only" "review" "action_required";
       f_Exploitability := pick "none_observed" "unknown" "plausible";
       f_EvidenceCompleteness := if complete then "complete" else "partial"; f_Provenance := awsFindingProvenance;
       f_Title := (if invalid then "Connector role configuration drift: " else "Connector trust review: ") +:+ displayIdentity identity;
       f_HumanSummary := pick
         "The Identrail connector role matches the expected account, external-ID trust condition, and read-only permission boundary."
         "The role is recognized as the Identrail connector, but available evidence is insufficient to prove that every trust and read-only policy invariant still matches."
         "The Identrail connector role no longer matches its expected account, external-ID trust, or read-only permission boundary.";
       f_Path := [id_ID identity]; f_AdapterSource := ""; f_ConfidenceState := ""; f_EvidenceVersion := "";
       f_Evidence := [("identity_id", AString (id_ID identity)); ("identity_arn", AString (id_ARN identity));
                      ("external_id_condition_valid", ABool
                        (negb (bool_decide ("external_id_expectation_missing" ∈ signals)) &&
                         negb (bool_decide ("external_id_mismatch" ∈ signals))));
                      ("contributing_signals", AStrings signals)];
       f_Remediation := pick
         "No direct AWS change is recommended. Continue monitoring the connector trust and read-only policy for drift."
         "Refresh connector validation and the IAM policy inventory before treating the role as safe."
         "Restore the connector trust and collector policy from the Identrail onboarding template. Do not add permissions or weaken the external-ID condition.";
       f_CreatedAt := now |} identity signals now.
End findings.

(** *** [Evaluate] *)
Definition access_risk (r : Relationship) : option (string * accessRisk) :=
  match rel_Type r with
  | CanAccess =>
      match parseAccessNode (rel_ToNodeID r) with
      | Some (action, resource) =>
          if isOverprivilegedPermission action resource then
            Some (rel_FromNodeID r,
              {| ar_Action := action; ar_Resource := resource; ar_NodeID := rel_ToNodeID r;
                 ar_Escalates := isEscalationAction action |})
          else None
      | None => None
      end
  | _ => None
  end.
Definition trust_risk (identityByID : gmap string Identity) (r : Relationship) : option (string * string) :=
  match rel_Type r with
  | CanAssume =>
      match identityByID !! rel_ToNodeID r with
      | Some identity =>
          if isRiskyPrincipal (rel_FromNodeID r) (accountIDFromARN (id_ARN identity)) identityByID
          then Some (rel_ToNodeID r, rel_FromNodeID r) else None
      | None => None
      end
  | _ => None
  end.
Definition identities_by_id (bundle : NormalizedBundle) : gmap string Identity :=
  collect (λ i, Some (id_ID i, i)) (b_Identities bundle).

Section evaluate.
Context `{SHA256, JSON, MapRange, SortSlice}.

Definition is_special (rules : RuleSet) (identity : Identity) : bool :=
  isConnectorRole rules identity || bool_decide (is_Some (expectedServiceLinkedRole identity)).

(** The findings of one identity in the first loop. *)
Definition identity_findings (rules : RuleSet) (bundle : NormalizedBundle) (broad risky : bool) (identity : Identity)
  : list Finding :=
  let now := rs_now rules in
  if isConnectorRole rules identity then
    let '(signals, complete) := connectorRoleSignals bundle identity (rs_connectorExpectation rules) in
    let expanded := broad && connectorPermissionScopeExpanded (permissionPoliciesForIdentity bundle (id_ID identity)) in
    [connectorTrustReviewFinding identity
       (sortedUniqueStrings (signals ++ signal expanded "unexpected_permission_reachability")) complete now]
  else
    match expectedServiceLinkedRole identity with
    | Some expectation =>
        let signals := expectedServiceLinkedRoleSignals bundle identity expectation broad
                         ++ signal risky "unexpected_external_trust" in
        if is_nil signals then []
        else [managedRoleAnomalyFinding identity expectation (sortedUniqueStrings signals) now]
    | None =>
        (if isIdentityOwnerless identity then [ownerlessFinding identity now] else [])
        ++ (if isIdentityStale identity now (rs_staleAfter rules)
            then [staleFinding identity now (rs_staleAfter rules)] else [])
    end.

(** The last loop over the findings. *)
Definition decorate (identityByID : gmap string Identity) (now : Z) (f : Finding) : Finding :=
  match identityByID !! as_string (map_get (f_Evidence f) "identity_id") with
  | None => f
  | Some identity =>
      let signals :=
        match map_get (f_Evidence f) "contributing_signals" with
        | AStrings existing => existing
        | _ => [finding_type_string (f_Type f)]
        end in
      let exploitability :=
        match f_Type f with
        | FindingEscalationPath => "confirmed"
        | FindingOverPrivileged | FindingRiskyTrustPolicy => or_default (f_Exploitability f) "plausible"
        | _ => f_Exploitability f
        end in
      decorateAWSFinding
        {| f_ID := f_ID f; f_Type := f_Type f; f_Severity := f_Severity f; f_ConfidenceScore := f_ConfidenceScore f;
           f_Actionability := f_Actionability f; f_Exploitability := exploitability;
           f_EvidenceCompleteness := f_EvidenceCompleteness f; f_Provenance := f_Provenance f; f_Title := f_Title f;
           f_HumanSummary := f_HumanSummary f; f_Path := f_Path f; f_AdapterSource := f_AdapterSource f;
           f_ConfidenceState := f_ConfidenceState f; f_EvidenceVersion := f_EvidenceVersion f;
           f_Evidence := f_Evidence f; f_Remediation := f_Remediation f; f_CreatedAt := f_CreatedAt f |}
        identity signals now
  end.

Definition compare_finding (x y : Finding) : comparison :=
  lex (Z.compare (severityRank (f_Severity x)) (severityRank (f_Severity y)))
    (lex (compare_string (finding_type_string (f_Type x)) (finding_type_string (f_Type y)))
      (compare_string (f_ID x) (f_ID y))).

(** The ids the first loop marks, and the reports of the later loops over the
    grouped risks, which skip them. *)
Definition special_ids (rules : RuleSet) (bundle : NormalizedBundle) : gset string :=
  list_to_set (id_ID <$> filter (λ i, is_special rules i = true) (b_Identities bundle)).
Definition reported {A} (identityByID : gmap string Identity) (special : gset string)
    (report : Identity → A → option Finding) (entry : string * A) : option Finding :=
  if decide (entry.1 ∈ special) then None
  else identity ← identityByID !! entry.1; report identity entry.2.
Definition overprivileged_report (now : Z) (i : Identity) (risks : list accessRisk) : option Finding :=
  Some (overprivilegedFinding i (sortAccessRisks risks) now).
Definition trust_report (now : Z) (i : Identity) (principals : list string) : option Finding :=
  Some (riskyTrustFinding i (dedupeStrings principals) now).
Definition escalation_report (overprivileged : gmap string (list accessRisk)) (now : Z) (i : Identity)
    (principals : list string) : option Finding :=
  match sortAccessRisks (default [] (overprivileged !! id_ID i)) with
  | (risk :: _) as risks =>
      if hasEscalationRisk risks then Some (escalationFinding i (dedupeStrings principals) risk now) else None
  | [] => None
  end.

(** The findings before sorting: four loops, over the sorted identities, over
    the overprivileged ones, and twice over the riskily trusted ones. *)
Definition identity_loop (rules : RuleSet) (bundle : NormalizedBundle) (overprivileged : gmap string (list accessRisk))
    (riskyTrust : gmap string (list string)) : list Finding :=
  sortedIdentities (b_Identities bundle) ≫= λ i,
    identity_findings rules bundle (negb (is_nil (default [] (overprivileged !! id_ID i))))
      (negb (is_nil (default [] (riskyTrust !! id_ID i)))) i.
Definition raw_findings (rules : RuleSet) (bundle : NormalizedBundle) (relationships : list Relationship) : list Finding :=
  let now := rs_now rules in
  let identityByID := identities_by_id bundle in
  let overprivileged := group access_risk relationships in
  let riskyTrust := group (trust_risk identityByID) relationships in
  let special := special_ids rules bundle in
  identity_loop rules bundle overprivileged riskyTrust
  ++ omap (reported identityByID special (overprivileged_report now)) (map_range overprivileged)
  ++ omap (reported identityByID special (trust_report now)) (map_range riskyTrust)
  ++ omap (reported identityByID special (escalation_report overprivileged now)) (map_range riskyTrust).

Definition Evaluate (rules : RuleSet) (bundle : NormalizedBundle) (relationships : list Relationship) : list Finding :=
  sort_slice (less_of compare_finding)
    (decorate (identities_by_id bundle) (rs_now rules) <$> raw_findings rules bundle relationships).
End evaluate.

(** ** What is reported *)
Definition finding_identity (f : Finding) : string := as_string (map_get (f_Evidence f) "identity_id").

Lemma map_get_set m k v key : map_get (map_set m k v) key = if decide (k = key) then v else map_get m key.
Proof.
  induction m as [|[k' w] m IH]; cbn; [done|]. destruct (decide (k' = k)) as [->|]; cbn.
  - by destruct (decide (k = key)).
  - rewrite IH. destruct (decide (k' = key)) as [->|], (decide (k = key)) as [->|]; done.
Qed.
Lemma map_get_update m entries key : key ∉ entries.*1 → map_get (map_update m entries) key = map_get m key.
Proof.
  unfold map_update. revert m. induction entries as [|[k v] entries IH]; intros m Hk; [done|]. cbn in *.
  apply not_elem_of_cons in Hk as [Hne Hk]. rewrite IH by done. rewrite map_get_set. by rewrite decide_False.
Qed.

Section reported.
Context `{SHA256, JSON, MapRange, SortSlice}.

Lemma decorateAWSFinding_identity f i signals now :
  finding_identity (decorateAWSFinding f i signals now) = finding_identity f.
Proof.
  unfold finding_identity, decorateAWSFinding. cbn [f_Evidence]. rewrite map_get_update; [done|].
  rewrite fmap_app, not_elem_of_app. split; [|destruct (is_nil signals)]; cbn; apply (bool_decide_unpack _); reflexivity.
Qed.
Lemma decorate_finding m now f :
  finding_identity (decorate m now f) = finding_identity f ∧ f_Type (decorate m now f) = f_Type f.
Proof.
  unfold decorate. destruct (m !! _) as [i|]; [|done]. by rewrite decorateAWSFinding_identity.
Qed.

Lemma identities_by_id_lookup bundle k i :
  NoDup (id_ID <$> b_Identities bundle) →
  identities_by_id bundle !! k = Some i ↔ i ∈ b_Identities bundle ∧ id_ID i = k.
Proof.
  intros Hnd. unfold identities_by_id. rewrite collect_lookup; [naive_solver|].
  intros x y k' b c Hx Hy E1 E2. simplify_eq.
  apply list_elem_of_lookup in Hx as [n Hx], Hy as [p Hy].
  assert (n = p) as ->; [|congruence].
  eapply NoDup_lookup; [apply Hnd|..]; rewrite list_lookup_fmap; [by rewrite Hx|rewrite Hy; cbn; congruence].
Qed.

Lemma identity_findings_identity rules bundle broad risky i f :
  f ∈ identity_findings rules bundle broad risky i → finding_identity f = id_ID i.
Proof.
  unfold identity_findings. destruct (isConnectorRole rules i).
  { destruct (connectorRoleSignals _ _ _) as [signals complete]. intros ->%list_elem_of_singleton.
    unfold connectorTrustReviewFinding. by rewrite decorateAWSFinding_identity. }
  destruct (expectedServiceLinkedRole i) as [e|].
  { destruct (is_nil _); [by intros ?%elem_of_nil|]. intros ->%list_elem_of_singleton.
    unfold managedRoleAnomalyFinding. by rewrite decorateAWSFinding_identity. }
  intros [Hf|Hf]%elem_of_app; [destruct (isIdentityOwnerless i)|destruct (isIdentityStale _ _ _)];
    apply list_elem_of_singleton in Hf || apply elem_of_nil in Hf; by subst.
Qed.

(** The conditions under which an identity of the customer's own has a finding
    of each type. *)
Definition risky_edge (bundle : NormalizedBundle) (relationships : list Relationship) (i : Identity) : Prop :=
  ∃ r, r ∈ relationships ∧ rel_Type r = CanAssume ∧ rel_ToNodeID r = id_ID i ∧
    isRiskyPrincipal (rel_FromNodeID r) (accountIDFromARN (id_ARN i)) (identities_by_id bundle) = true.
Definition access_edge (relationships : list Relationship) (i : Identity) (test : string → string → bool) : Prop :=
  ∃ r action resource, r ∈ relationships ∧ rel_Type r = CanAccess ∧ rel_FromNodeID r = id_ID i ∧
    parseAccessNode (rel_ToNodeID r) = Some (action, resource) ∧ test action resource = true.

Definition raises (rules : RuleSet) (bundle : NormalizedBundle) (relationships : list Relationship) (i : Identity)
    (t : FindingType) : Prop :=
  match t with
  | FindingOwnerless => blank (id_OwnerHint i) = true
  | FindingStaleIdentity => isIdentityStale i (rs_now rules) (rs_staleAfter rules) = true
  | FindingOverPrivileged => access_edge relationships i isOverprivilegedPermission
  | FindingRiskyTrustPolicy => risky_edge bundle relationships i
  | FindingEscalationPath =>
      risky_edge bundle relationships i ∧ access_edge relationships i (λ action _, isEscalationAction action)
  | FindingSecretExposure | FindingRepoMisconfig => False
  end.

Lemma access_risk_Some r k x :
  access_risk r = Some (k, x) ↔
  rel_Type r = CanAccess ∧ rel_FromNodeID r = k ∧ ar_NodeID x = rel_ToNodeID r ∧
  ar_Escalates x = isEscalationAction (ar_Action x) ∧
  parseAccessNode (rel_ToNodeID r) = Some (ar_Action x, ar_Resource x) ∧
  isOverprivilegedPermission (ar_Action x) (ar_Resource x) = true.
Proof.
  unfold access_risk. destruct x as [a s n e]; cbn.
  destruct (rel_Type r); try (by split; [intros|intros (? & _)]).
  destruct (parseAccessNode _) as [[a' s']|]; [|by split; [|intros (_&_&_&_&?&_)]].
  destruct (isOverprivilegedPermission a' s') eqn:E; split; try done.
  - intros [= <- <- <- <- <-]. done.
  - intros (_ & <- & -> & -> & [= -> ->] & _). done.
  - intros (_ & _ & _ & _ & [= -> ->] & ?). congruence.
Qed.

Lemma escalation_overprivileged a s : isEscalationAction a = true → isOverprivilegedPermission a s = true.
Proof. unfold isOverprivilegedPermission. intros ->. by rewrite !orb_true_r. Qed.

Lemma members_access relationships i :
  members access_risk (id_ID i) relationships ≠ [] ↔ access_edge relationships i isOverprivilegedPermission.
Proof.
  unfold access_edge. split.
  - destruct (members _ _ _) as [|x l] eqn:E; [done|]. intros _.
    assert (x ∈ members access_risk (id_ID i) relationships) as Hx by (rewrite E; by left).
    apply elem_of_members in Hx as (r & Hr & (Ht & Hf & _ & _ & Hp & Ho)%access_risk_Some).
    by exists r, (ar_Action x), (ar_Resource x).
  - intros (r & a & s & Hr & Ht & Hf & Hp & Ho) E.
    apply (not_elem_of_nil (mkRisk a s (rel_ToNodeID r) (isEscalationAction a))). rewrite <-E.
    apply elem_of_members. exists r. split; [done|]. by apply access_risk_Some.
Qed.

Lemma hasEscalationRisk_members relationships i :
  hasEscalationRisk (members access_risk (id_ID i) relationships) = true ↔
  access_edge relationships i (λ action _, isEscalationAction action).
Proof.
  unfold hasEscalationRisk, access_edge. rewrite existsb_exists. setoid_rewrite <-list_elem_of_In. split.
  - intros (x & (r & Hr & (Ht & Hf & _ & He & Hp & Ho)%access_risk_Some)%elem_of_members & Hx).
    exists r, (ar_Action x), (ar_Resource x). by rewrite <-He.
  - intros (r & a & s & Hr & Ht & Hf & Hp & Ho). exists (mkRisk a s (rel_ToNodeID r) (isEscalationAction a)).
    split; [|done]. apply elem_of_members. exists r. split; [done|]. apply access_risk_Some.
    cbn. repeat split; auto using escalation_overprivileged.
Qed.

Lemma members_trust bundle relationships i :
  identities_by_id bundle !! id_ID i = Some i →
  members (trust_risk (identities_by_id bundle)) (id_ID i) relationships ≠ [] ↔ risky_edge bundle relationships i.
Proof.
  intros Hi. unfold risky_edge. split.
  - destruct (members _ _ _) as [|x l] eqn:E; [done|]. intros _.
    assert (x ∈ members (trust_risk (identities_by_id bundle)) (id_ID i) relationships) as Hx by (rewrite E; by left).
    apply elem_of_members in Hx as (r & Hr & Hx). unfold trust_risk in Hx.
    destruct (rel_Type r) eqn:Ht; try done. destruct (identities_by_id bundle !! rel_ToNodeID r) as [j|] eqn:Ej; [|done].
    destruct (isRiskyPrincipal _ _ _) eqn:Er; [|done]. injection Hx as Hto _. rewrite Hto in Ej. simplify_eq.
    by exists r.
  - intros (r & Hr & Ht & Hto & Hrisk) E. apply (not_elem_of_nil (rel_FromNodeID r)). rewrite <-E.
    apply elem_of_members. exists r. split; [done|]. unfold trust_risk. by rewrite Ht, Hto, Hi, Hrisk.
Qed.

(** Membership in the unsorted list, loop by loop. *)
Section one_identity.
Context (rules : RuleSet) (bundle : NormalizedBundle) (relationships : list Relationship) (i : Identity)
  (Hnd : NoDup (id_ID <$> b_Identities bundle)) (Hi : i ∈ b_Identities bundle) (Hs : is_special rules i = false).

Lemma identities_by_id_self : identities_by_id bundle !! id_ID i = Some i.
Proof. by apply identities_by_id_lookup. Qed.

Lemma not_special : id_ID i ∉ special_ids rules bundle.
Proof.
  unfold special_ids. rewrite elem_of_list_to_set.
  intros (j & E & [Hj Hin]%list_elem_of_filter)%list_elem_of_fmap.
  assert (identities_by_id bundle !! id_ID i = Some j) as Ej by by apply identities_by_id_lookup.
  rewrite identities_by_id_self in Ej. congruence.
Qed.

Lemma elem_of_reported {A} (m : gmap string (list A)) (report : Identity → list A → option Finding) f :
  (∀ j x g, report j x = Some g → finding_identity g = id_ID j) → finding_identity f = id_ID i →
  f ∈ omap (reported (identities_by_id bundle) (special_ids rules bundle) report) (map_range m) ↔
  ∃ x, m !! id_ID i = Some x ∧ report i x = Some f.
Proof.
  intros Hrep Hf. rewrite list_elem_of_omap. split.
  - intros ([k x] & Hm & Hr). rewrite elem_of_map_range in Hm. unfold reported in Hr. cbn in Hr.
    destruct (decide _); [done|]. destruct (identities_by_id bundle !! k) as [j|] eqn:Ej; [|done]. cbn in Hr.
    assert (k = id_ID i) as ->.
    { apply (identities_by_id_lookup _ _ _ Hnd) in Ej as [Hj Hk]. by rewrite <-Hf, (Hrep _ _ _ Hr). }
    exists x. split; [done|]. rewrite identities_by_id_self in Ej. by simplify_eq.
  - intros (x & Hm & Hr). exists (id_ID i, x). rewrite elem_of_map_range. split; [done|]. unfold reported. cbn.
    rewrite decide_False by apply not_special. by rewrite identities_by_id_self.
Qed.

Lemma elem_of_identity_loop over risky f :
  finding_identity f = id_ID i →
  f ∈ identity_loop rules bundle over risky ↔
  (isIdentityOwnerless i = true ∧ f = ownerlessFinding i (rs_now rules)) ∨
  (isIdentityStale i (rs_now rules) (rs_staleAfter rules) = true ∧
   f = staleFinding i (rs_now rules) (rs_staleAfter rules)).
Proof.
  intros Hf. pose proof Hs as Hspecial. unfold is_special in Hspecial.
  apply orb_false_iff in Hspecial as [Hc He%bool_decide_eq_false].
  transitivity (f ∈ identity_findings rules bundle false false i).
  - assert (Hany : ∀ b b', identity_findings rules bundle b b' i = identity_findings rules bundle false false i).
    { intros. unfold identity_findings. rewrite Hc. destruct (expectedServiceLinkedRole i); [by destruct He|done]. }
    unfold identity_loop, sortedIdentities. rewrite list_elem_of_bind. setoid_rewrite elem_of_sort_slice. split.
    + intros (j & Hin & Hj). pose proof (identity_findings_identity _ _ _ _ _ _ Hin) as E.
      assert (identities_by_id bundle !! id_ID i = Some j) as Ej by (apply identities_by_id_lookup; [done|]; split; congruence).
      rewrite identities_by_id_self in Ej. simplify_eq. by rewrite Hany in Hin.
    + intros Hin. exists i. by rewrite Hany.
  - unfold identity_findings. rewrite Hc. destruct (expectedServiceLinkedRole i); [by destruct He|].
    rewrite elem_of_app. destruct (isIdentityOwnerless i), (isIdentityStale i _ _);
      rewrite ?list_elem_of_singleton, ?elem_of_nil; naive_solver.
Qed.

Lemma hasEscalationRisk_sort risks : hasEscalationRisk (sortAccessRisks risks) = hasEscalationRisk risks.
Proof.
  apply eq_true_iff_eq. unfold hasEscalationRisk. rewrite !existsb_exists. setoid_rewrite <-list_elem_of_In.
  unfold sortAccessRisks. setoid_rewrite elem_of_sort_slice. done.
Qed.

Lemma escalation_report_Some over now j principals f :
  escalation_report over now j principals = Some f ↔
  ∃ risk, head (sortAccessRisks (default [] (over !! id_ID j))) = Some risk ∧
    hasEscalationRisk (default [] (over !! id_ID j)) = true ∧
    f = escalationFinding j (dedupeStrings principals) risk now.
Proof.
  unfold escalation_report. rewrite <-hasEscalationRisk_sort.
  destruct (sortAccessRisks _) as [|risk l]; cbn [head].
  { split; [done|]. by intros (? & ? & _). }
  destruct (hasEscalationRisk (risk :: l)) eqn:E; split.
  - intros [= <-]. by exists risk.
  - by intros (? & [= <-] & _ & ->).
  - done.
  - by intros (? & _ & ? & _).
Qed.

Lemma elem_of_raw_findings f :
  finding_identity f = id_ID i →
  let now := rs_now rules in
  let risks := members access_risk (id_ID i) relationships in
  let principals := members (trust_risk (identities_by_id bundle)) (id_ID i) relationships in
  f ∈ raw_findings rules bundle relationships ↔
  ((isIdentityOwnerless i = true ∧ f = ownerlessFinding i now) ∨
   (isIdentityStale i now (rs_staleAfter rules) = true ∧ f = staleFinding i now (rs_staleAfter rules))) ∨
  (risks ≠ [] ∧ f = overprivilegedFinding i (sortAccessRisks risks) now) ∨
  (principals ≠ [] ∧ f = riskyTrustFinding i (dedupeStrings principals) now) ∨
  (principals ≠ [] ∧ ∃ risk, head (sortAccessRisks risks) = Some risk ∧ hasEscalationRisk risks = true ∧
     f = escalationFinding i (dedupeStrings principals) risk now).
Proof.
  intros Hf now risks principals. unfold raw_findings.
  rewrite !elem_of_app, elem_of_identity_loop by done.
  rewrite !elem_of_reported; try done.
  - setoid_rewrite group_Some. setoid_rewrite escalation_report_Some. rewrite group_default.
    unfold overprivileged_report, trust_report. fold now risks principals. naive_solver.
  - intros j x g Hg. apply escalation_report_Some in Hg as (risk & _ & _ & ->). done.
  - by intros j x g [= <-].
  - by intros j x g [= <-].
Qed.
End one_identity.
End reported.

Lemma reported_iff_raised `{SHA256, JSON, MapRange, SortSlice} rules bundle relationships i t :
  NoDup (id_ID <$> b_Identities bundle) → i ∈ b_Identities bundle → is_special rules i = false →
  (∃ f, f ∈ Evaluate rules bundle relationships ∧ f_Type f = t ∧ finding_identity f = id_ID i) ↔
  raises rules bundle relationships i t.
Proof.
  intros Hnd Hi Hs. transitivity
    (∃ f, f ∈ raw_findings rules bundle relationships ∧ f_Type f = t ∧ finding_identity f = id_ID i).
  { unfold Evaluate. setoid_rewrite elem_of_sort_slice. setoid_rewrite list_elem_of_fmap. split.
    - intros (f & (g & -> & Hg) & Ht & Hid). exists g.
      destruct (decorate_finding (identities_by_id bundle) (rs_now rules) g) as [E1 E2]. by rewrite <-E1, <-E2.
    - intros (g & Hg & Ht & Hid). exists (decorate (identities_by_id bundle) (rs_now rules) g).
      destruct (decorate_finding (identities_by_id bundle) (rs_now rules) g) as [-> ->]. eauto. }
  pose proof (members_access relationships i) as Hover.
  pose proof (hasEscalationRisk_members relationships i) as Hesc.
  pose proof (members_trust bundle relationships i (identities_by_id_self bundle i Hnd Hi)) as Htrust.
  pose proof (elem_of_raw_findings rules bundle relationships i Hnd Hi Hs) as Hraw. cbn zeta in Hraw. split.
  - intros (f & Hf & <- & Hid). apply Hraw in Hf; [|done].
    destruct Hf as [[[Ho ->]|[Ho ->]]|[[Ho ->]|[[Ho ->]|(Ho & risk & _ & He & ->)]]]; cbn; tauto.
  - assert (Hmk : ∀ f, finding_identity f = id_ID i → f_Type f = t → f ∈ raw_findings rules bundle relationships →
      ∃ f, f ∈ raw_findings rules bundle relationships ∧ f_Type f = t ∧ finding_identity f = id_ID i) by eauto.
    destruct t; cbn [raises]; intros Hr; try done.
    + eapply Hmk; [..|apply Hraw; [|right; left; split; [by apply Hover|reflexivity]]]; done.
    + destruct Hr as [Hr%Htrust He%Hesc].
      assert (∃ risk, head (sortAccessRisks (members access_risk (id_ID i) relationships)) = Some risk) as [risk Hrisk].
      { rewrite <-hasEscalationRisk_sort in He. destruct (sortAccessRisks _); [done|by eexists]. }
      eapply Hmk; [..|apply Hraw; [|do 3 right; split; [done|exists risk; split; [done|split; [done|reflexivity]]]]]; done.
    + eapply Hmk; [..|apply Hraw; [|left; right; split; [done|reflexivity]]]; done.
    + eapply Hmk; [..|apply Hraw; [|left; left; split; [done|reflexivity]]]; done.
    + eapply Hmk; [..|apply Hraw; [|do 2 right; left; split; [by apply Htrust|reflexivity]]]; done.
Qed.

(** C23. For an identity that is neither the connector nor an expected service-linked role, whatever order maps are visited in and whatever sort is used, the rules report a finding of a given type exactly when its condition holds: no owner hint; unused for longer than the threshold; an edge granting a wildcard, all-resources or administrative permission; an assume edge from a wildcard, cross-account or unidentifiable principal; and, for an escalation path, both an assume edge of that kind and an administrative permission. *)
Theorem Evaluate_findings `{SHA256, JSON, MapRange, SortSlice} rules bundle relationships i t :
  NoDup (id_ID <$> b_Identities bundle) → i ∈ b_Identities bundle → is_special rules i = false →
  (∃ f, f ∈ Evaluate rules bundle relationships ∧ f_Type f = t ∧ finding_identity f = id_ID i) ↔
  raises rules bundle relationships i t.
Proof. apply reported_iff_raised. Qed.

(** ** Determinism *)

Lemma compare_risk_ok : compare_ok compare_risk.
Proof.
  repeat apply compare_ok_lex.
  - apply (compare_ok_on (λ x, if ar_Escalates x then 0 else 1)), compare_ok_Z.
  - apply (compare_ok_on ar_Action), compare_ok_string.
  - apply (compare_ok_on ar_Resource), compare_ok_string.
  - apply (compare_ok_on ar_NodeID), compare_ok_string.
Qed.
Lemma compare_risk_Eq x y : compare_risk x y = Eq → x = y.
Proof.
  unfold compare_risk. rewrite !lex_Eq, !compare_string_Eq, Z.compare_eq_iff.
  destruct x as [? ? ? []], y as [? ? ? []]; cbn; intros (? & ? & ? & ?); by simplify_eq.
Qed.
Lemma compare_finding_ok : compare_ok compare_finding.
Proof.
  repeat apply compare_ok_lex.
  - apply (compare_ok_on (λ x, severityRank (f_Severity x))), compare_ok_Z.
  - apply (compare_ok_on (λ x, finding_type_string (f_Type x))), compare_ok_string.
  - apply (compare_ok_on f_ID), compare_ok_string.
Qed.
Lemma compare_finding_ID x y : compare_finding x y = Eq → f_ID x = f_ID y.
Proof. unfold compare_finding. rewrite !lex_Eq, !compare_string_Eq. tauto. Qed.

Section determinism.
Context `{SHA256, JSON} (R1 R2 : MapRange) (S1 S2 : SortSlice).

Lemma sortAccessRisks_unique risks : @sortAccessRisks S1 risks = @sortAccessRisks S2 risks.
Proof. apply sort_slice_unique; [apply compare_risk_ok|auto using compare_risk_Eq|done]. Qed.

Lemma escalation_report_unique over now i principals :
  @escalation_report _ S1 over now i principals = @escalation_report _ S2 over now i principals.
Proof. unfold escalation_report. by rewrite sortAccessRisks_unique. Qed.

Lemma reported_perm {A} (m : gmap string A) ids special (report1 report2 : Identity → A → option Finding) :
  (∀ i x, report1 i x = report2 i x) →
  omap (reported ids special report1) (@map_range R1 A m) ≡ₚ omap (reported ids special report2) (@map_range R2 A m).
Proof.
  intros Hr. transitivity (omap (reported ids special report1) (@map_range R2 A m)).
  - apply omap_Permutation. by rewrite (@map_range_perm R1), (@map_range_perm R2).
  - assert (∀ l, omap (reported ids special report1) l = omap (reported ids special report2) l) as ->; [|done].
    induction l as [|[k x] l IH]; [done|]. cbn. rewrite IH.
    assert (reported ids special report1 (k, x) = reported ids special report2 (k, x)) as ->; [|done].
    unfold reported. cbn. destruct (decide _); [done|]. destruct (ids !! k); [apply Hr|done].
Qed.

Lemma raw_findings_perm rules bundle relationships :
  @raw_findings _ _ R1 S1 rules bundle relationships ≡ₚ @raw_findings _ _ R2 S2 rules bundle relationships.
Proof.
  unfold raw_findings. apply Permutation_app; [|apply Permutation_app; [|apply Permutation_app]].
  - unfold identity_loop, sortedIdentities. apply bind_Permutation. by rewrite (@sort_slice_perm S1), (@sort_slice_perm S2).
  - apply reported_perm. intros i risks. unfold overprivileged_report. by rewrite sortAccessRisks_unique.
  - by apply reported_perm.
  - apply reported_perm. intros. apply escalation_report_unique.
Qed.
End determinism.

Lemma decorate_ID ids now f : f_ID (decorate ids now f) = f_ID f.
Proof. unfold decorate. by destruct (ids !! _). Qed.

(** The rules are deterministic: when no two findings of the run share an id, the list reported, its order included, does not depend on the order in which Go visits maps nor on how its unstable sort treats equal elements. *)
Theorem Evaluate_deterministic `{SHA256, JSON} (R1 R2 : MapRange) (S1 S2 : SortSlice) rules bundle relationships :
  NoDup (f_ID <$> @raw_findings _ _ R1 S1 rules bundle relationships) →
  @Evaluate _ _ R1 S1 rules bundle relationships = @Evaluate _ _ R2 S2 rules bundle relationships.
Proof.
  intros Hnd. unfold Evaluate. apply sort_slice_unique; [apply compare_finding_ok| |by rewrite (raw_findings_perm R1 R2 S1 S2)].
  intros x y (f & -> & Hf)%list_elem_of_fmap (h & -> & Hg)%list_elem_of_fmap E%compare_finding_ID.
  rewrite !decorate_ID in E. f_equal.
  apply list_elem_of_lookup in Hf as [n Hn], Hg as [p Hp].
  assert (n = p) as ->; [|congruence].
  eapply NoDup_lookup; [apply Hnd|..]; rewrite list_lookup_fmap; [by rewrite Hn|rewrite Hp; cbn; congruence].
Qed.

(** ** A clean connector review *)

(** The actions the [Allow] statements of the policies name. *)
Definition allowed_statements (p : Policy) : list (list (string * any)) :=
  filter (λ st, allows st = true) (ok_or [] (policy_statements p)).
Definition granted_actions (policies : list Policy) : gset string :=
  list_to_set (policies ≫= λ p, allowed_statements p ≫= canonical_actions).
(** A policy that can be read and excludes nothing. *)
Definition readable (p : Policy) : Prop :=
  is_ok (policy_statements p) = true ∧
  ∀ st, st ∈ allowed_statements p →
    parseStringList (map_get st "not_actions") = [] ∧ parseStringList (map_get st "not_resources") = [].

Lemma is_nil_true {A} (l : list A) : is_nil l = true ↔ l = [].
Proof. by destruct l. Qed.

Lemma star_not_expected : "*" ∉ expectedConnectorPermissionActions.
Proof. apply (bool_decide_unpack _). vm_compute. reflexivity. Qed.
#[local] Opaque expectedConnectorPermissionActions.

Lemma existsb_false {A} (f : A → bool) l : existsb f l = false ↔ ∀ x, x ∈ l → f x = false.
Proof.
  induction l as [|x l IH]; cbn; [by split; [intros _ y ?%elem_of_nil|]|].
  rewrite orb_false_iff, IH. split.
  - intros [Hx Hl] y [->|Hy]%elem_of_cons; auto.
  - intros Hl. split; [apply Hl; by left|intros y Hy; apply Hl; by right].
Qed.

Lemma statement_expands_false st :
  statement_expands st = false ↔
  (allows st = true → parseStringList (map_get st "not_actions") = [] ∧ parseStringList (map_get st "not_resources") = [] ∧
   ∀ a, a ∈ canonical_actions st → a ∈ expectedConnectorPermissionActions).
Proof.
  unfold statement_expands. destruct (allows st); cbn [andb]; [|by split].
  rewrite !orb_false_iff, !negb_false_iff, !is_nil_true, existsb_false.
  setoid_rewrite negb_false_iff. setoid_rewrite bool_decide_eq_true. tauto.
Qed.

Lemma policy_expands_false p :
  match policy_statements p with Err _ => true | Ok sts => existsb statement_expands sts end = false ↔
  readable p ∧ ∀ a, a ∈ allowed_statements p ≫= canonical_actions → a ∈ expectedConnectorPermissionActions.
Proof.
  unfold readable, allowed_statements. destruct (policy_statements p) as [sts|]; cbn [is_ok ok_or];
    [|by split; [|intros [[? _] _]]].
  rewrite existsb_false. setoid_rewrite statement_expands_false. split.
  - intros Hsts. split; [split; [done|]|].
    + intros st [Ha Hst]%list_elem_of_filter. by destruct (Hsts st Hst Ha) as (? & ? & _).
    + intros a (st & Ha & [Hall Hst]%list_elem_of_filter)%list_elem_of_bind. by apply (Hsts st Hst Hall).
  - intros [[_ Hn] Ha] st Hst Hall. assert (st ∈ filter (λ st, allows st = true) sts) as Hin by by apply list_elem_of_filter.
    destruct (Hn st Hin). repeat split; [done..|]. intros a Hin'. apply Ha, list_elem_of_bind. by exists st.
Qed.

Lemma granted_actions_cons p ps :
  granted_actions (p :: ps) = list_to_set (allowed_statements p ≫= canonical_actions) ∪ granted_actions ps.
Proof. unfold granted_actions. cbn. by rewrite list_to_set_app_L. Qed.

Lemma scope_not_expanded ps :
  connectorPermissionScopeExpanded ps = false ↔
  Forall readable ps ∧ granted_actions ps ⊆ expectedConnectorPermissionActions.
Proof.
  unfold connectorPermissionScopeExpanded. induction ps as [|p ps IH].
  { split; [|done]. intros _. split; [constructor|]. unfold granted_actions. set_solver. }
  cbn [existsb]. rewrite orb_false_iff, IH, Forall_cons, granted_actions_cons, policy_expands_false.
  rewrite union_subseteq, (elem_of_subseteq (list_to_set _)). setoid_rewrite elem_of_list_to_set. tauto.
Qed.

Lemma actions_missing_spec observed ps :
  Forall (λ p, is_ok (policy_statements p) = true) ps → "*" ∉ granted_actions ps →
  actions_missing observed ps = false ↔ expectedConnectorPermissionActions ⊆ observed ∪ granted_actions ps.
Proof.
  intros Hok. revert observed. induction Hok as [|p ps Hp _ IH]; intros observed Hstar; cbn [actions_missing].
  - unfold granted_actions. cbn. rewrite (right_id_L ∅ (∪)), negb_false_iff, bool_decide_eq_true. done.
  - rewrite granted_actions_cons in *. unfold allowed_statements in *. destruct (policy_statements p) as [sts|]; [|done]. cbn [ok_or] in *.
    apply not_elem_of_union in Hstar as [H1 H2]. rewrite elem_of_list_to_set in H1.
    rewrite bool_decide_false by done. rewrite IH by done. by rewrite (assoc_L (∪)), (comm_L (∪) observed).
Qed.

Lemma connector_actions_exact ps :
  connectorPermissionScopeExpanded ps = false ∧ connectorPermissionActionsMissing ps = false ↔
  Forall readable ps ∧ granted_actions ps = expectedConnectorPermissionActions.
Proof.
  rewrite scope_not_expanded. unfold connectorPermissionActionsMissing.
  pose proof star_not_expected as Hstar.
  assert (Hok : Forall readable ps → Forall (λ p, is_ok (policy_statements p) = true) ps)
    by (intros Hr; eapply Forall_impl; [apply Hr|by intros p [? _]]).
  split.
  - intros [[Hr Hsub] Hm]. split; [done|]. apply (anti_symm (⊆)); [done|].
    apply actions_missing_spec in Hm; [by rewrite (left_id_L ∅ (∪)) in Hm|by apply Hok|].
    intros Hin. by apply Hstar, Hsub.
  - intros [Hr E]. split; [by rewrite E|]. apply actions_missing_spec; [by apply Hok|by rewrite E|].
    by rewrite E, (left_id_L ∅ (∪)).
Qed.

(** A trust policy that lets exactly the account's root principal assume the
    role, under exactly one external id. *)
Definition exact_trust `{JSON} (policy : Policy) (trusted external : string) : Prop :=
  ∃ b action principal, tf_Bindings (inspectTrustPolicy (Some policy)) = [b] ∧
    tb_Actions b = [action] ∧ EqualFold action "sts:AssumeRole" = true ∧ tb_NotActions b = [] ∧
    tb_AWSPrincipals b = [principal] ∧ isAccountRootPrincipal principal trusted = true ∧
    tb_ServicePrincipals b = [] ∧ tb_OtherPrincipals b = [] ∧
    tb_ExternalIDEquals b = [external] ∧ tb_HasOtherExternalIDOperator b = false.

Lemma connectorTrustBindingStatus_exact `{JSON} policy trusted external :
  connectorTrustBindingStatus (inspectTrustPolicy (Some policy)) trusted external = (true, true) ↔
  exact_trust policy trusted external.
Proof.
  unfold connectorTrustBindingStatus, exact_trust. destruct (tf_Bindings _) as [|b [|b' l]]; [naive_solver| |naive_solver].
  destruct b as [actions nots aws services others ids op]; cbn. split.
  - intros [= H1 H2]. rewrite !andb_true_iff, ?is_nil_true in H1.
    rewrite andb_true_iff, negb_true_iff in H2. destruct H1 as ((((H1 & H3) & H4) & H5) & H6), H2 as (H7 & H8).
    destruct actions as [|a [|]], aws as [|p [|]], ids as [|v [|]]; try done.
    apply bool_decide_eq_true in H7 as ->. by eexists _, a, p.
  - intros (b' & a & p & [= <-] & E). cbn in E. destruct E as (-> & -> & -> & -> & -> & -> & -> & -> & ->).
    by rewrite bool_decide_true.
Qed.

Lemma sortedUniqueStrings_nil l : Forall (λ s, TrimSpace s ≠ "") l → sortedUniqueStrings l = [] ↔ l = [].
Proof.
  intros Hl. split; [|by intros ->]. intros E. destruct l as [|s l]; [done|]. exfalso.
  apply (not_elem_of_nil (TrimSpace s)). rewrite <-E, elem_of_sortedUniqueStrings.
  apply Forall_cons in Hl as [Hs _]. split; [done|]. exists s. split; [by left|done].
Qed.
Lemma signal_nil b s : signal b s = [] ↔ b = false.
Proof. by destruct b. Qed.
Lemma signal_Forall b s : TrimSpace s ≠ "" → Forall (λ s, TrimSpace s ≠ "") (signal b s).
Proof. intros. destruct b; repeat constructor; done. Qed.

(** The connector's review is clean, with no drift signal and complete evidence, exactly when the identity is the expected role in the expected account, its trust policy lets only the root principal of the trusted account assume it, by sts:AssumeRole alone and under exactly the expected external id, and its readable permission policies allow exactly the actions of the connector's contract, none more and none less, without NotAction or NotResource. *)
Theorem connector_review_clean `{JSON} bundle identity e :
  let arn := TrimSpace (ce_RoleARN e) in
  let account := TrimSpace (ce_AccountID e) in
  let trusted := TrimSpace (ce_TrustedAccountID e) in
  let external := TrimSpace (ce_ExternalID e) in
  let permissions := permissionPoliciesForIdentity bundle (id_ID identity) in
  connectorRoleSignals bundle identity e = ([], true) ↔
  (arn = "" ∨ EqualFold (TrimSpace (id_ARN identity)) arn = true) ∧
  (account = "" ∨ accountIDFromARN (id_ARN identity) = account) ∧
  trusted ≠ "" ∧ external ≠ "" ∧
  (∃ policy, trustPolicyForIdentity bundle (id_ID identity) = Some policy ∧ exact_trust policy trusted external) ∧
  permissions ≠ [] ∧ Forall readable permissions ∧ granted_actions permissions = expectedConnectorPermissionActions.
Proof.
  intros arn account trusted external permissions. unfold connectorRoleSignals. fold arn account trusted external permissions.
  destruct (trustPolicyForIdentity _ _) as [policy|] eqn:Ep.
  - pose proof (connectorTrustBindingStatus_exact policy trusted external) as Ht.
    destruct (connectorTrustBindingStatus _ _ _) as [tv ev].
    rewrite <-connector_actions_exact. rewrite (bool_decide_true (is_Some (Some policy))) by by eexists. cbn [negb andb].
    transitivity ((arn = "" ∨ EqualFold (TrimSpace (id_ARN identity)) arn = true) ∧
      (account = "" ∨ accountIDFromARN (id_ARN identity) = account) ∧
      trusted ≠ "" ∧ external ≠ "" ∧ (tv, ev) = (true, true) ∧ permissions ≠ [] ∧
      connectorPermissionScopeExpanded permissions = false ∧ connectorPermissionActionsMissing permissions = false).
    2: { rewrite Ht. split; [intros (?&?&?&?&?&?)|intros (?&?&?&?&(? & [= <-] & ?)&?)]; repeat split; try tauto. by exists policy. }
    rewrite pair_equal_spec, sortedUniqueStrings_nil
      by (repeat apply Forall_app_2; apply signal_Forall; by vm_compute).
    rewrite !app_nil, !signal_nil. unfold nonempty.
    destruct permissions as [|p ps]; cbn [is_nil negb andb].
    + rewrite !andb_false_r. split; [by intros [_ ?]|by intros (_&_&_&_&_&? & _)].
    + rewrite !andb_true_iff, !andb_false_iff, !negb_true_iff, !negb_false_iff, !bool_decide_eq_true, !bool_decide_eq_false.
      rewrite !negb_true_iff, !bool_decide_eq_false, pair_equal_spec. clearbody trusted external arn account. clear.
      assert (p :: ps ≠ []) by done. destruct tv, ev; intuition congruence.
  - destruct (connectorTrustBindingStatus _ _ _) as [tv ev].
    rewrite (bool_decide_false (is_Some (@None Policy))) by (by intros [? ?]). cbn [andb].
    split; [by intros [= _]|]. by intros (_&_&_&_&(? & ? & _)&_).
Qed.

(** ** The concrete bundle of [AwsGraph] *)
Definition no_json : JSON := {| json_parse := λ _, None |}.
Definition sample_rules : RuleSet := NewRuleSet (100 * 24 * Hour) [WithStaleAfter (30 * 24 * Hour)].
Definition sample_relationships : list Relationship :=
  @ResolveRelationships plain_sha sample_time sample_bundle sample_perms.

(** A role anyone may assume that may pass roles: ownerless, stale,
    overprivileged, riskily trusted, and an escalation path, which comes
    first. *)
Example sample_findings :
  (λ f, (f_Type f, f_Exploitability f)) <$>
    @Evaluate plain_sha no_json canonical_range insertion_sort sample_rules sample_bundle sample_relationships =
  [(FindingEscalationPath, "confirmed"); (FindingOverPrivileged, "plausible"); (FindingRiskyTrustPolicy, "plausible");
   (FindingOwnerless, "unknown"); (FindingStaleIdentity, "unknown")].
Proof. vm_compute. reflexivity. Qed.

Lemma Evaluate_findings_witness :
  is_special sample_rules sample_identity = false ∧
  ∃ f, f ∈ @Evaluate plain_sha no_json canonical_range insertion_sort sample_rules sample_bundle sample_relationships ∧
    f_Type f = FindingEscalationPath ∧ finding_identity f = id_ID sample_identity.
Proof.
  split; [vm_compute; reflexivity|].
  apply (@Evaluate_findings plain_sha no_json canonical_range insertion_sort sample_rules sample_bundle
    sample_relationships sample_identity FindingEscalationPath).
  - apply (bool_decide_unpack _). vm_compute. reflexivity.
  - by left.
  - vm_compute. reflexivity.
  - split.
    + eexists. split; [apply (list_elem_of_lookup_2 _ 3); vm_compute; reflexivity|]. repeat split; vm_compute; reflexivity.
    + eexists _, "iam:PassRole", "*". split; [apply (list_elem_of_lookup_2 _ 5); vm_compute; reflexivity|].
      repeat split; vm_compute; reflexivity.
Defined.

Lemma Evaluate_deterministic_witness :
  @Evaluate plain_sha no_json canonical_range insertion_sort sample_rules sample_bundle sample_relationships =
  @Evaluate plain_sha no_json reversed_range insertion_sort sample_rules sample_bundle sample_relationships.
Proof.
  apply (@Evaluate_deterministic plain_sha no_json canonical_range reversed_range insertion_sort insertion_sort).
  apply (bool_decide_unpack _). vm_compute. reflexivity.
Defined.
