(* ===== verification/Scanner.v ===== *)
(** * The scan pipeline

    [Scanner.RunWithPhase] of [internal/app/app.go]: collect, normalize,
    resolve permissions and relationships, evaluate the risk rules, with the
    two contract checks in between.  The stages are arguments; [ScanPipeline]
    and [K8sScan] plug those of a provider in.  Tracing is not modelled, and
    the context is taken not to be cancelled. *)
From S2P Require Import Prelude GoStrings GoCollections GoTime ScanDomain GraphContract.

Record RawAsset := mkRawAsset { ra_Kind : string; ra_SourceID : string; ra_Payload : string; ra_Collected : string }.
Record SourceError := mkSourceError {
  se_Collector : string; se_SourceID : string; se_Code : string; se_Message : string; se_Retryable : bool }.
Record ScanResult := mkScanResult {
  sr_Assets : nat; sr_RawAssets : list RawAsset; sr_SourceErrors : list SourceError; sr_Bundle : NormalizedBundle;
  sr_Permissions : list PermissionTuple; sr_Relationships : list Relationship; sr_Findings : list Finding;
  sr_Completed : Z }.

(** The injected stages.  A collector without diagnostics reports no source
    errors. *)
Record Scanner := mkScanner {
  sc_Collector : result (list RawAsset * list SourceError);
  sc_Normalizer : list RawAsset → result NormalizedBundle;
  sc_PermissionResolver : NormalizedBundle → result (list PermissionTuple);
  sc_RelationshipResolver : NormalizedBundle → list PermissionTuple → result (list Relationship);
  sc_RiskRuleSet : NormalizedBundle → list Relationship → result (list Finding) }.

(** The phases reported to the callback, and the result. *)
Definition RunWithPhase (s : Scanner) (now : Z) : list string * result ScanResult :=
  match sc_Collector s with
  | Err e => ([], Err e)
  | Ok (raw, sourceErrors) =>
      (["analyzing"],
       bundle ← sc_Normalizer s raw;
       _ ← ValidateNormalizedBundle bundle;
       permissions ← sc_PermissionResolver s bundle;
       relationships ← sc_RelationshipResolver s bundle permissions;
       _ ← ValidateGraphContract bundle relationships;
       findings ← sc_RiskRuleSet s bundle relationships;
       Ok {| sr_Assets := length raw; sr_RawAssets := raw; sr_SourceErrors := sourceErrors; sr_Bundle := bundle;
             sr_Permissions := permissions; sr_Relationships := relationships; sr_Findings := findings;
             sr_Completed := now |})
  end.
Definition Run (s : Scanner) (now : Z) : result ScanResult := (RunWithPhase s now).2.

(** A result satisfies both contracts and consists of its stages' outputs. *)
Theorem RunWithPhase_contracts s now phases r :
  RunWithPhase s now = (phases, Ok r) →
  phases = ["analyzing"] ∧ sc_Collector s = Ok (sr_RawAssets r, sr_SourceErrors r) ∧
  sc_Normalizer s (sr_RawAssets r) = Ok (sr_Bundle r) ∧ ValidateNormalizedBundle (sr_Bundle r) = Ok tt ∧
  sc_PermissionResolver s (sr_Bundle r) = Ok (sr_Permissions r) ∧
  sc_RelationshipResolver s (sr_Bundle r) (sr_Permissions r) = Ok (sr_Relationships r) ∧
  ValidateGraphContract (sr_Bundle r) (sr_Relationships r) = Ok tt ∧
  sc_RiskRuleSet s (sr_Bundle r) (sr_Relationships r) = Ok (sr_Findings r).
Proof.
  unfold RunWithPhase. destruct (sc_Collector s) as [[raw errs]|e]; [|done]. intros [= <- H].
  open_bind H b Hb. open_bind H u Hv. open_bind H p Hp. open_bind H e He. open_bind H u' Hg. open_bind H f Hf.
  injection H as <-. destruct u, u'. done.
Qed.
