(* ===== verification/GoBase64.v ===== *)
(** * Go's [encoding/base64]

    [StdEncoding] (padded with "=") and [RawStdEncoding] (no padding), with the
    decoder's leniency: carriage returns and newlines are skipped and the unused
    low bits of the last digit are ignored.  Decoding undoes encoding. *)
From S2P Require Import Prelude GoStrings GoParse.

(** A digit's value, and the digit of a value below 64. *)
Definition b64_value (c : ascii) : option N :=
  let n := code c in
  if between 65 90 n then Some (n - 65)%N
  else if between 97 122 n then Some (n - 71)%N
  else if between 48 57 n then Some (n + 4)%N
  else if (n =? 43)%N then Some 62%N
  else if (n =? 47)%N then Some 63%N
  else None.
Definition b64_digit (v : N) : ascii :=
  ascii_of_N (if (v <? 26)%N then v + 65 else if (v <? 52)%N then v + 71 else if (v <? 62)%N then v - 4
              else if (v =? 62)%N then 43 else 47).

(** The three bytes of a group of four digits. *)
Definition byte1 (a b : N) : ascii := ascii_of_N (a * 4 + b / 16).
Definition byte2 (b c : N) : ascii := ascii_of_N ((b mod 16) * 16 + c / 4).
Definition byte3 (c d : N) : ascii := ascii_of_N ((c mod 4) * 64 + d).

Fixpoint decode_groups (padded : bool) (l : list ascii) : option (list ascii) :=
  match l with
  | [] => Some []
  | a :: b :: l =>
      a ← b64_value a; b ← b64_value b;
      match l with
      | [] => if padded then None else Some [byte1 a b]
      | c :: l =>
          if padded && bool_decide (c = "="%char)
          then if decide (l = ["="%char]) then Some [byte1 a b] else None
          else
            c ← b64_value c;
            match l with
            | [] => if padded then None else Some [byte1 a b; byte2 b c]
            | d :: l =>
                if padded && bool_decide (d = "="%char)
                then if decide (l = []) then Some [byte1 a b; byte2 b c] else None
                else d ← b64_value d; r ← decode_groups padded l; Some (byte1 a b :: byte2 b c :: byte3 c d :: r)
            end
      end
  | _ => None
  end.

Definition is_newline (c : ascii) : bool := (code c =? 10)%N || (code c =? 13)%N.
Definition DecodeString (padded : bool) (s : string) : option string :=
  of_bytes <$> decode_groups padded (List.filter (λ c, negb (is_newline c)) (bytes s)).

(** [EncodeToString]. *)
Fixpoint encode_groups (padded : bool) (l : list ascii) : list ascii :=
  let pad := λ p, if padded then p else [] in
  match l with
  | [] => []
  | [x] => let x := code x in
      [b64_digit (x / 4); b64_digit ((x mod 4) * 16)] ++ pad ["="; "="]%char
  | [x; y] => let x := code x in let y := code y in
      [b64_digit (x / 4); b64_digit ((x mod 4) * 16 + y / 16); b64_digit ((y mod 16) * 4)] ++ pad ["="%char]
  | x :: y :: z :: l => let x := code x in let y := code y in let z := code z in
      b64_digit (x / 4) :: b64_digit ((x mod 4) * 16 + y / 16) :: b64_digit ((y mod 16) * 4 + z / 64) ::
      b64_digit (z mod 64) :: encode_groups padded l
  end%N%list.
Definition EncodeToString (padded : bool) (s : string) : string := of_bytes (encode_groups padded (bytes s)).

Example base64_ex :
  (EncodeToString true "any carnal pleas", EncodeToString false "any carnal pleas") =
  ("YW55IGNhcm5hbCBwbGVhcw==", "YW55IGNhcm5hbCBwbGVhcw") ∧
  (DecodeString true "YW55IGNhcm5hbCBwbGVhcw==", DecodeString false "YW55IGNhcm5hbCBwbGVhcw==",
   DecodeString true "YW55IGNhcm5hbCBwbGVhcw", DecodeString true "YW=5") = (Some "any carnal pleas", None, None, None).
Proof. split; reflexivity. Qed.

(** ** Decoding undoes encoding *)
Lemma below_64 (P : N → bool) (v : N) : forallb P (N.of_nat <$> seq 0 64) = true → (v < 64)%N → P v = true.
Proof.
  intros H Hv. rewrite forallb_forall in H. apply H, list_elem_of_In, list_elem_of_fmap.
  exists (N.to_nat v). split; [by rewrite N2Nat.id|]. apply elem_of_seq. lia.
Qed.

Lemma b64_value_digit v : (v < 64)%N → b64_value (b64_digit v) = Some v.
Proof.
  intros Hv. pose (P := λ v, bool_decide (b64_value (b64_digit v) = Some v)).
  assert (P v = true) as H by by apply (below_64 P). by apply bool_decide_eq_true in H.
Qed.
Lemma b64_digit_plain v :
  (v < 64)%N → graphic (b64_digit v) = true ∧ b64_digit v ≠ "="%char ∧ is_one_of ",;" (b64_digit v) = false.
Proof.
  intros Hv. pose (P := λ v, graphic (b64_digit v) && negb (bool_decide (b64_digit v = "="%char)) &&
                             negb (is_one_of ",;" (b64_digit v))).
  assert (P v = true) as H by by apply (below_64 P). unfold P in H. by boolify.
Qed.

Lemma code_bound c : (code c < 256)%N.
Proof. apply N_ascii_bounded. Qed.
Lemma ascii_of_code c n : n = code c → ascii_of_N n = c.
Proof. intros ->. apply ascii_N_embedding. Qed.

Ltac bits := intros; repeat match goal with c : ascii |- _ => pose proof (code_bound c); generalize dependent (code c); clear c end;
  intros; zify; Z.to_euclidean_division_equations; lia.

(** The digits of a byte string and the bytes of its digits. *)
Lemma digit1 x : (code x / 4 < 64)%N. Proof. bits. Qed.
Lemma digit2 x (n : N) : (n < 16)%N → ((code x mod 4) * 16 + n < 64)%N. Proof. bits. Qed.
Lemma digit3 y (n : N) : (n < 4)%N → ((code y mod 16) * 4 + n < 64)%N. Proof. bits. Qed.
Lemma digit4 z : (code z mod 64 < 64)%N. Proof. bits. Qed.
Lemma high_nibble y : (code y / 16 < 16)%N. Proof. bits. Qed.
Lemma high_bits z : (code z / 64 < 4)%N. Proof. bits. Qed.

Lemma byte1_digits x n : (n < 16)%N → byte1 (code x / 4) ((code x mod 4) * 16 + n) = x.
Proof. intros Hn. apply ascii_of_code. bits. Qed.
Lemma byte2_digits x y n : (n < 4)%N → byte2 ((code x mod 4) * 16 + code y / 16) ((code y mod 16) * 4 + n) = y.
Proof. intros Hn. apply ascii_of_code. bits. Qed.
Lemma byte3_digits y z : byte3 ((code y mod 16) * 4 + code z / 64) (code z mod 64) = z.
Proof. apply ascii_of_code. bits. Qed.

#[local] Hint Resolve digit1 digit2 digit3 digit4 high_nibble high_bits : identrail.

(** Lists by groups of three. *)
Lemma list_ind3 {A} (P : list A → Prop) :
  P [] → (∀ x, P [x]) → (∀ x y, P [x; y]) → (∀ x y z l, P l → P (x :: y :: z :: l)) → ∀ l, P l.
Proof. intros H0 H1 H2 H3. fix IH 1. intros [|x [|y [|z l]]]; [apply H0|apply H1|apply H2|apply H3, IH]. Qed.

Lemma digit2_last x : ((code x mod 4) * 16 < 64)%N.
Proof. bits. Qed.
Lemma digit3_last y : ((code y mod 16) * 4 < 64)%N.
Proof. bits. Qed.
#[local] Hint Resolve digit2_last digit3_last : identrail.

(** [digit]: the next digit of the text has its value. *)
Ltac digit := rewrite b64_value_digit by auto with identrail; cbn [mbind option_bind].
Ltac not_pad v :=
  rewrite (bool_decide_eq_false_2 (b64_digit v = "="%char)), andb_false_r
    by (apply b64_digit_plain; auto with identrail).

Lemma decode_encode_groups padded l : decode_groups padded (encode_groups padded l) = Some l.
Proof.
  induction l as [|x|x y|x y z l IH] using list_ind3; cbn [encode_groups app].
  - done.
  - pose proof (byte1_digits x 0 ltac:(lia)) as H1. rewrite N.add_0_r in H1.
    destruct padded; cbn [app decode_groups]; do 2 digit; cbn; by rewrite H1.
  - pose proof (byte1_digits x _ (high_nibble y)) as H1.
    pose proof (byte2_digits x y 0 ltac:(lia)) as H2. rewrite N.add_0_r in H2.
    destruct padded; cbn [app decode_groups]; do 2 digit.
    + not_pad ((code y mod 16) * 4)%N. digit. cbn. by rewrite H1, H2.
    + cbn [andb]. digit. cbn. by rewrite H1, H2.
  - cbn [decode_groups]. do 2 digit. not_pad ((code y mod 16) * 4 + code z / 64)%N. digit.
    not_pad (code z mod 64)%N. digit. rewrite IH. cbn.
    by rewrite byte1_digits, byte2_digits, byte3_digits by auto with identrail.
Qed.

(** The padded decoder misreads no unpadded text: it fails or agrees. *)
Lemma decode_unpadded l k : decode_groups true (encode_groups false l) = Some k → k = l.
Proof.
  revert k. induction l as [|x|x y|x y z l IH] using list_ind3; intros k; cbn [encode_groups app].
  - by intros [= <-].
  - cbn [decode_groups]. by do 2 digit.
  - cbn [decode_groups]. do 2 digit. not_pad ((code y mod 16) * 4)%N. by digit.
  - cbn [decode_groups]. do 2 digit. not_pad ((code y mod 16) * 4 + code z / 64)%N. digit.
    not_pad (code z mod 64)%N. digit.
    destruct (decode_groups true (encode_groups false l)) as [r|] eqn:E; [|done].
    rewrite (IH r) by done. cbn. intros [= <-].
    by rewrite byte1_digits, byte2_digits, byte3_digits by auto with identrail.
Qed.

(** The text of an encoding: graphic characters, none of them a separator. *)
Lemma encode_groups_chars padded l :
  Forall (λ c, graphic c = true ∧ is_one_of ",;" c = false) (encode_groups padded l).
Proof.
  assert (∀ v, (v < 64)%N → graphic (b64_digit v) = true ∧ is_one_of ",;" (b64_digit v) = false) as Hd.
  { intros v Hv. by apply b64_digit_plain in Hv as (? & _ & ?). }
  induction l as [|x|x y|x y z l IH] using list_ind3; cbn [encode_groups].
  - done.
  - destruct padded; repeat constructor; auto with identrail; apply Hd; auto with identrail.
  - destruct padded; repeat constructor; auto with identrail; apply Hd; auto with identrail.
  - repeat (constructor; [apply Hd; auto with identrail|]). exact IH.
Qed.

Lemma encode_plain padded s : plain (EncodeToString padded s).
Proof.
  unfold plain, EncodeToString. rewrite bytes_of_bytes.
  eapply Forall_impl; [apply encode_groups_chars|]. by intros c [].
Qed.

Lemma encode_no_newline padded l :
  List.filter (λ c, negb (is_newline c)) (encode_groups padded l) = encode_groups padded l.
Proof.
  generalize (encode_groups_chars padded l). generalize (encode_groups padded l).
  induction 1 as [|c k [Hc _] _ IH]; [done|]. cbn. rewrite IH.
  unfold graphic, between in Hc. apply andb_true_iff in Hc as [Hc _]. apply N.leb_le in Hc. unfold is_newline.
  rewrite (proj2 (N.eqb_neq _ 10)), (proj2 (N.eqb_neq _ 13)) by lia. done.
Qed.

Lemma DecodeString_EncodeToString padded s : DecodeString padded (EncodeToString padded s) = Some s.
Proof.
  unfold DecodeString, EncodeToString. rewrite bytes_of_bytes, encode_no_newline, decode_encode_groups.
  cbn. by rewrite of_bytes_bytes.
Qed.
Lemma DecodeString_unpadded s k : DecodeString true (EncodeToString false s) = Some k → k = s.
Proof.
  unfold DecodeString, EncodeToString. rewrite bytes_of_bytes, encode_no_newline.
  destruct (decode_groups _ _) as [r|] eqn:E; [|done]. apply decode_unpadded in E as ->.
  intros [= <-]. by rewrite of_bytes_bytes.
Qed.
