(* ===== verification/SecretStore.v ===== *)
(** * Connector secret envelopes (internal/secretstore/envelope.go)

    A [Manager] holds versioned 256-bit keys; secrets are sealed with AES-256-GCM
    under the newest one, and an envelope names the key that sealed it, so that
    keys can be rotated without re-encrypting.  The cipher ([crypto/cipher]'s
    GCM) and the random nonce are parameters: a nonce is an argument of
    [Encrypt], and [io.ReadFull] either fills its 12 bytes or fails. *)
From S2P Require Import Prelude GoStrings GoCollections GoCrypto GoParse GoText GoBase64.

Definition AlgorithmAES256GCM : string := "AES-256-GCM".
Definition envelopeVersion : Z := 1.
Definition aes256KeySize : nat := 32.
Definition gcmNonceSize : nat := 12.
Definition ephemeralVersion : string := "ephemeral-v1".

(** [crypto/cipher]'s GCM with its 12-byte nonce and 16-byte tag, for a 32-byte
    key: opening accepts exactly what sealing the result gives. *)
Class AEAD := {
  gcm_Seal : string → string → string → string → string;
  gcm_Open : string → string → string → string → option string;
  gcm_Open_Seal : ∀ key nonce ciphertext plaintext ad,
    length (bytes key) = aes256KeySize → length (bytes nonce) = gcmNonceSize →
    gcm_Open key nonce ciphertext ad = Some plaintext ↔ ciphertext = gcm_Seal key nonce plaintext ad;
  gcm_Seal_length : ∀ key nonce plaintext ad,
    length (bytes key) = aes256KeySize →
    length (bytes (gcm_Seal key nonce plaintext ad)) = (length (bytes plaintext) + 16)%nat;
}.

Record KeyMaterial := mkKey { Key_Version : string; Key_Key : string }.

Record Envelope := mkEnvelope {
  Envelope_Version : Z;
  Envelope_Algorithm : string;
  Envelope_KeyVersion : string;
  Envelope_Nonce : string;
  Envelope_Ciphertext : string;
}.

#[export] Instance Envelope_eq_dec : EqDecision Envelope.
Proof. solve_decision. Defined.

Record Manager := mkManager { activeVersion : string; manager_keys : gmap string string }.

(** [keyVersionPattern]: ^[A-Za-z0-9][A-Za-z0-9._:-]{0,63}$. *)
Definition alphanumeric (c : ascii) : bool := is_lower c || is_upper c || is_digit c.
Definition keyVersionPattern : string → bool :=
  match_ident alphanumeric (λ c, alphanumeric c || is_one_of "._:-" c) 63.

(** ** Building a manager: the loop of [NewManager] *)
Fixpoint add_keys (materials : list KeyMaterial) (m : Manager) : result Manager :=
  match materials with
  | [] => mret m
  | material :: rest =>
      let version := TrimSpace (Key_Version material) in
      _ ← guard_err (keyVersionPattern version) (Errorf "connector secret key version is invalid");
      _ ← guard_err (bool_decide (length (bytes (Key_Key material)) = aes256KeySize))
            (Errorf "connector secret keys must be 32 bytes");
      _ ← guard_err (bool_decide (manager_keys m !! version = None))
            (Errorf "connector secret key versions must be unique");
      add_keys rest (mkManager version (<[version := Key_Key material]> (manager_keys m)))
  end.

Definition NewManager (materials : list KeyMaterial) : result Manager :=
  _ ← guard_err (negb (is_nil materials)) (Errorf "connector secret keyset must include at least one key");
  add_keys materials (mkManager "" ∅).

Definition NewEphemeralManager (key : string) : result Manager := NewManager [mkKey ephemeralVersion key].

(** ** [ParseKeySet]: entries "version:base64-key" separated by "," or ";" *)
Definition parse_entry (trimmed : string) : result KeyMaterial :=
  match SplitN trimmed ":" 2 with
  | [version; encoded] =>
      let encoded := TrimSpace encoded in
      match DecodeString true encoded with
      | Some key => mret (mkKey (TrimSpace version) key)
      | None =>
          match DecodeString false encoded with
          | Some key => mret (mkKey (TrimSpace version) key)
          | None => Err (Errorf "connector secret key material must be base64")
          end
      end
  | _ => Err (Errorf "connector secret key entries must use version:base64-key format")
  end.

Fixpoint parse_entries (fields : list string) : result (list KeyMaterial) :=
  match fields with
  | [] => mret []
  | field :: fields =>
      let trimmed := TrimSpace field in
      if decide (trimmed = "") then parse_entries fields
      else material ← parse_entry trimmed; materials ← parse_entries fields; mret (material :: materials)
  end.

Definition ParseKeySet (raw : string) : result (list KeyMaterial) :=
  let normalized := TrimSpace raw in
  if decide (normalized = "") then mret []
  else parse_entries (FieldsFunc (is_one_of ",;") normalized).

(** ** Methods: a nil [*Manager] is [None] *)
Definition ActiveKeyVersion (m : option Manager) : string :=
  match m with None => "" | Some m => activeVersion m end.

(** [m.keys[version]], the nil slice when there is none. *)
Definition key_of (m : Manager) (version : string) : string := default "" (manager_keys m !! version).

Definition DeriveDigest `{HMACBytes} (m : option Manager) (keyVersion purpose value : string) : result string :=
  match m with
  | None => Err (Errorf "connector secret manager is not configured")
  | Some m =>
      let key := key_of m (TrimSpace keyVersion) in
      _ ← guard_err (bool_decide (length (bytes key) = aes256KeySize))
            (Errorf "connector secret key version is unavailable");
      let purpose := TrimSpace purpose in
      _ ← guard_err (bool_decide (purpose ≠ "")) (Errorf "connector secret derivation purpose is required");
      mret (hmac_sha256 key (purpose +:+ String "000"%char value))
  end.

Definition Encrypt `{AEAD} (m : option Manager) (nonce : result string) (plaintext associatedData : string)
    : result Envelope :=
  match m with
  | None => Err (Errorf "connector secret manager is not configured")
  | Some m =>
      let activeKey := key_of m (activeVersion m) in
      _ ← guard_err (bool_decide (length (bytes activeKey) = aes256KeySize))
            (Errorf "active connector secret key is unavailable");
      match nonce with
      | Err e => Err (Wrap "generate connector secret nonce" e)
      | Ok nonce =>
          mret (mkEnvelope envelopeVersion AlgorithmAES256GCM (activeVersion m) nonce
                  (gcm_Seal activeKey nonce plaintext associatedData))
      end
  end.

(** [errOpen]: the error [gcm.Open] reports. *)
Definition errOpen : error := Sentinel "cipher: message authentication failed".

Definition Decrypt `{AEAD} (m : option Manager) (envelope : Envelope) (associatedData : string) : result string :=
  match m with
  | None => Err (Errorf "connector secret manager is not configured")
  | Some m =>
      _ ← guard_err (bool_decide (Envelope_Version envelope = envelopeVersion) &&
                     bool_decide (Envelope_Algorithm envelope = AlgorithmAES256GCM))
            (Errorf "unsupported connector secret envelope");
      let key := key_of m (TrimSpace (Envelope_KeyVersion envelope)) in
      _ ← guard_err (bool_decide (length (bytes key) = aes256KeySize))
            (Errorf "connector secret key version is unavailable");
      _ ← guard_err (bool_decide (length (bytes (Envelope_Nonce envelope)) = gcmNonceSize) &&
                     bool_decide (Envelope_Ciphertext envelope ≠ ""))
            (Errorf "connector secret envelope is invalid");
      match gcm_Open key (Envelope_Nonce envelope) (Envelope_Ciphertext envelope) associatedData with
      | None => Err (Wrap "decrypt connector secret envelope" errOpen)
      | Some plaintext => mret plaintext
      end
  end.

Definition NeedsRotation (m : option Manager) (envelope : Envelope) : bool :=
  match m with
  | None => true
  | Some m => bool_decide (TrimSpace (Envelope_KeyVersion envelope) ≠ TrimSpace (activeVersion m))
  end.

(** ** Key sets *)

(** A usable key: a version the pattern accepts, 256 bits. *)
Definition material_ok (k : KeyMaterial) : Prop :=
  keyVersionPattern (Key_Version k) = true ∧ length (bytes (Key_Key k)) = aes256KeySize.

(** The documented text of a key set: versions have no colon. *)
Definition render_entry (padded : bool) (k : KeyMaterial) : string :=
  Key_Version k +:+ String ":" (EncodeToString padded (Key_Key k)).
Definition render_keys (padded : bool) (ks : list KeyMaterial) : string := Join (render_entry padded <$> ks) ",".

Definition version_char (c : ascii) : bool := alphanumeric c || is_one_of "._:-" c.

Lemma version_char_ok c : version_char c = true → graphic c = true ∧ is_one_of ",;" c = false.
Proof. destruct c as [[] [] [] [] [] [] [] []]; vm_compute; auto. Qed.

Lemma version_chars v :
  keyVersionPattern v = true → v ≠ "" ∧ Forall (λ c, graphic c = true ∧ is_one_of ",;" c = false) (bytes v).
Proof.
  unfold keyVersionPattern, match_ident. intros H. destruct (bytes v) as [|c l] eqn:E; [done|].
  split; [by intros ->|]. apply andb_true_iff in H as [H _]. apply andb_true_iff in H as [Hc Hl].
  constructor.
  - apply version_char_ok. unfold version_char. by rewrite Hc.
  - rewrite forallb_forall in Hl. apply Forall_forall. intros x Hx. apply version_char_ok, Hl. by apply list_elem_of_In.
Qed.

Lemma version_plain v : keyVersionPattern v = true → plain v.
Proof. intros H. apply version_chars in H as [_ H]. eapply Forall_impl; [exact H|]. by intros c []. Qed.
Lemma version_trimmed v : keyVersionPattern v = true → TrimSpace v = v.
Proof. intros H. by apply TrimSpace_plain, version_plain. Qed.

Lemma render_entry_chars padded k :
  material_ok k → Forall (λ c, graphic c = true ∧ is_one_of ",;" c = false) (bytes (render_entry padded k)).
Proof.
  intros [Hv _]. unfold render_entry. rewrite bytes_app. apply Forall_app. split; [by apply version_chars|].
  constructor; [by vm_compute|]. unfold EncodeToString. rewrite bytes_of_bytes. apply encode_groups_chars.
Qed.
Lemma render_entry_plain padded k : material_ok k → plain (render_entry padded k).
Proof. intros H. eapply Forall_impl; [by apply render_entry_chars|]. by intros c []. Qed.
Lemma render_entry_nonempty padded k : render_entry padded k ≠ "".
Proof. unfold render_entry. destruct (Key_Version k); done. Qed.

Lemma parse_entry_render padded k :
  material_ok k → no_byte ":" (Key_Version k) → parse_entry (render_entry padded k) = Ok k.
Proof.
  intros [Hv _] Hcolon. unfold parse_entry, render_entry. rewrite SplitN_two by done.
  rewrite TrimSpace_plain by apply encode_plain. rewrite version_trimmed by done.
  pose proof (DecodeString_EncodeToString padded (Key_Key k)) as Hd.
  destruct (DecodeString true (EncodeToString padded (Key_Key k))) as [key|] eqn:E.
  - destruct padded; [rewrite E in Hd; injection Hd as ->|apply DecodeString_unpadded in E as ->]; by destruct k.
  - destruct padded; [congruence|]. rewrite Hd. by destruct k.
Qed.

Lemma ParseKeySet_render padded ks :
  Forall material_ok ks → Forall (λ k, no_byte ":" (Key_Version k)) ks →
  ParseKeySet (render_keys padded ks) = Ok ks.
Proof.
  intros Hks Hcolon. unfold ParseKeySet.
  assert (plain (render_keys padded ks)) as Hplain.
  { unfold render_keys. clear Hcolon. induction Hks as [|k ks Hk _ IH]; [by constructor|].
    destruct ks as [|k' ks]; [by apply render_entry_plain|].
    cbn [fmap list_fmap Join] in *. rewrite !plain_app. split; [by apply render_entry_plain|].
    split; [by repeat constructor|exact IH]. }
  rewrite TrimSpace_plain by done. case_decide as Hempty.
  - destruct ks as [|k ks]; [done|]. exfalso. revert Hempty. unfold render_keys. cbn [fmap list_fmap Join].
    destruct (render_entry padded <$> ks); [apply render_entry_nonempty|apply append_nonempty, render_entry_nonempty].
  - unfold render_keys. rewrite FieldsFunc_Join; [|done|].
    + clear Hplain Hempty. induction Hks as [|k ks Hk _ IH]; [done|]. inversion Hcolon; subst.
      cbn [fmap list_fmap parse_entries]. rewrite TrimSpace_plain by by apply render_entry_plain.
      rewrite decide_False by apply render_entry_nonempty. rewrite parse_entry_render by done. cbn.
      by rewrite IH.
    + apply Forall_fmap. eapply Forall_impl; [exact Hks|]. intros k Hk. cbn.
      split; [apply render_entry_nonempty|]. eapply Forall_impl; [by apply render_entry_chars|]. by intros c [].
Qed.

(** ** Managers *)
Lemma add_keys_ok ks m :
  Forall material_ok ks → NoDup (Key_Version <$> ks) →
  Forall (λ k, manager_keys m !! Key_Version k = None) ks →
  ∃ m', add_keys ks m = Ok m' ∧ manager_keys m ⊆ manager_keys m' ∧
    Forall (λ k, manager_keys m' !! Key_Version k = Some (Key_Key k)) ks ∧
    activeVersion m' = default (activeVersion m) (Key_Version <$> last ks).
Proof.
  intros Hks. revert m. induction Hks as [|k ks [Hv Hlen] _ IH]; intros m Hnd Hfree; [by exists m|].
  cbn [fmap list_fmap] in Hnd. apply NoDup_cons in Hnd as [Hk Hnd]. inversion Hfree as [|? ? Hk0 Hfree']; subst.
  pose (m1 := mkManager (Key_Version k) (<[Key_Version k := Key_Key k]> (manager_keys m))).
  destruct (IH m1 Hnd) as (m' & Hm' & Hsub & Hall & Hact).
  { apply Forall_forall. intros k' Hk'. cbn. rewrite lookup_insert_ne.
    - by eapply Forall_forall in Hfree'.
    - intros E. apply Hk. rewrite E. by apply list_elem_of_fmap_2. }
  exists m'. split_and!.
  - cbn [add_keys]. rewrite version_trimmed, Hv by done. rewrite !bool_decide_eq_true_2 by done. exact Hm'.
  - etransitivity; [|exact Hsub]. by apply insert_subseteq.
  - constructor; [|done]. apply (lookup_weaken _ _ _ _ (lookup_insert_eq _ _ _) Hsub).
  - rewrite Hact, last_cons. by destruct (last ks).
Qed.

Definition keyset_ok (ks : list KeyMaterial) : Prop :=
  ks ≠ [] ∧ Forall material_ok ks ∧ NoDup (Key_Version <$> ks).

Lemma NewManager_ok ks :
  keyset_ok ks → ∃ m k, NewManager ks = Ok m ∧ last ks = Some k ∧ activeVersion m = Key_Version k ∧
    Forall (λ k, manager_keys m !! Key_Version k = Some (Key_Key k)) ks.
Proof.
  intros (Hne & Hks & Hnd).
  destruct (add_keys_ok ks (mkManager "" ∅)) as (m & Hm & _ & Hall & Hact); [done..| |].
  { apply Forall_forall. intros k _. apply lookup_empty. }
  assert (is_Some (last ks)) as [k Hk] by by apply last_is_Some. rewrite Hk in Hact.
  exists m, k. split_and!; [|done|done|done]. unfold NewManager. by destruct ks.
Qed.

Lemma key_of_lookup m k : manager_keys m !! Key_Version k = Some (Key_Key k) → key_of m (Key_Version k) = Key_Key k.
Proof. unfold key_of. by intros ->. Qed.

Section envelopes.
Context `{AEAD}.

Lemma Encrypt_active m k nonce plaintext ad :
  activeVersion m = Key_Version k → manager_keys m !! Key_Version k = Some (Key_Key k) → material_ok k →
  Encrypt (Some m) (Ok nonce) plaintext ad =
    Ok (mkEnvelope 1 AlgorithmAES256GCM (Key_Version k) nonce (gcm_Seal (Key_Key k) nonce plaintext ad)).
Proof.
  intros Ha Hk [_ Hlen]. cbn [Encrypt]. rewrite Ha, (key_of_lookup m k) by done.
  by rewrite bool_decide_eq_true_2 by done.
Qed.

Lemma Seal_nonempty key nonce plaintext ad :
  length (bytes key) = aes256KeySize → gcm_Seal key nonce plaintext ad ≠ "".
Proof. intros Hlen E. pose proof (gcm_Seal_length key nonce plaintext ad Hlen) as Hl. rewrite E in Hl. cbn in Hl. lia. Qed.

(** What opens: exactly the envelopes [Encrypt] could have produced. *)
Lemma Decrypt_exact m env ad plaintext :
  Decrypt (Some m) env ad = Ok plaintext ↔
  Envelope_Version env = 1 ∧ Envelope_Algorithm env = AlgorithmAES256GCM ∧
  length (bytes (Envelope_Nonce env)) = gcmNonceSize ∧
  ∃ key, key = key_of m (TrimSpace (Envelope_KeyVersion env)) ∧ length (bytes key) = aes256KeySize ∧
    Envelope_Ciphertext env = gcm_Seal key (Envelope_Nonce env) plaintext ad.
Proof.
  cbn [Decrypt]. split.
  - intros Hd. inv_ok. boolify. split_and!; [done|done|done|].
    eexists. split_and!; [done|done|]. apply gcm_Open_Seal; [done|done|].
    by destruct (gcm_Open _ _ _ _); inv_ok.
  - intros (Hv & Halg & Hn & key & -> & Hlen & Hc).
    assert (Envelope_Ciphertext env ≠ "") by (rewrite Hc; by apply Seal_nonempty).
    rewrite !bool_decide_eq_true_2 by done.
    cbn. by rewrite (proj2 (gcm_Open_Seal _ _ _ plaintext ad Hlen Hn) Hc).
Qed.

Lemma Decrypt_sealed m k nonce plaintext ad :
  manager_keys m !! Key_Version k = Some (Key_Key k) → material_ok k → length (bytes nonce) = gcmNonceSize →
  Decrypt (Some m) (mkEnvelope 1 AlgorithmAES256GCM (Key_Version k) nonce (gcm_Seal (Key_Key k) nonce plaintext ad)) ad
    = Ok plaintext.
Proof.
  intros Hk [Hv Hlen] Hn. apply Decrypt_exact. cbn. split_and!; [done..|].
  exists (Key_Key k). rewrite version_trimmed, (key_of_lookup m k) by done. done.
Qed.
End envelopes.

(** ** Configured keys and their rotation *)

(** C34. Let a deployment configure keys in the documented format, then append more
    keys to the list ([ks'] may be empty), separated by commas and with versions
    that hold no colon.  Both texts parse to the keys
    written, both key sets are accepted, a secret sealed before the rotation
    opens after it with its associated data to the same plaintext, and the
    envelope is reported as needing rotation exactly when keys were appended. *)
Theorem secret_rotation `{AEAD} padded ks ks' nonce plaintext ad
    (Hks : keyset_ok (ks ++ ks')) (Hne : ks ≠ [])
    (Hcolon : Forall (λ k, no_byte ":" (Key_Version k)) (ks ++ ks'))
    (Hnonce : length (bytes nonce) = gcmNonceSize) :
  ParseKeySet (render_keys padded ks) = Ok ks ∧
  ParseKeySet (render_keys padded (ks ++ ks')) = Ok (ks ++ ks')%list ∧
  ∃ m m' env, NewManager ks = Ok m ∧ NewManager (ks ++ ks') = Ok m' ∧
    Encrypt (Some m) (Ok nonce) plaintext ad = Ok env ∧
    Decrypt (Some m') env ad = Ok plaintext ∧
    NeedsRotation (Some m') env = negb (is_nil ks').
Proof.
  destruct Hks as (_ & Hok & Hnd). pose proof Hok as [Hok1 _]%Forall_app. pose proof Hcolon as [Hc1 _]%Forall_app.
  pose proof Hnd as Hnd'. rewrite fmap_app in Hnd'. apply NoDup_app in Hnd' as (Hnd1 & Hdisj & Hnd2).
  split; [by apply ParseKeySet_render|]. split; [by apply ParseKeySet_render|].
  destruct (NewManager_ok ks) as (m & k & Hm & Hlast & Hact & Hall); [done|].
  destruct (NewManager_ok (ks ++ ks')) as (m' & k' & Hm' & Hlast' & Hact' & Hall').
  { split_and!; [by destruct ks|done..]. }
  assert (k ∈ ks) as Hin by by apply last_Some_elem_of.
  assert (material_ok k) as Hk by by eapply Forall_forall in Hok1.
  assert (manager_keys m !! Key_Version k = Some (Key_Key k)) as Hlk by by eapply Forall_forall in Hall.
  assert (manager_keys m' !! Key_Version k = Some (Key_Key k)) as Hlk'.
  { eapply Forall_forall in Hall'; [exact Hall'|]. apply elem_of_app. by left. }
  eexists m, m', _. split_and!; [done|done|by apply Encrypt_active|by apply Decrypt_sealed|].
  cbn [NeedsRotation Envelope_KeyVersion]. rewrite Hact', last_app in *.
  destruct (last ks') as [k2|] eqn:E.
  - injection Hlast' as ->. assert (k' ∈ ks') as Hin' by by apply last_Some_elem_of.
    rewrite bool_decide_eq_true_2; [by destruct ks'|].
    rewrite !version_trimmed; [|eapply Forall_forall in Hok as [Hv _]; [exact Hv|]; apply elem_of_app; by right|by destruct Hk].
    intros Heq. apply (Hdisj (Key_Version k)); [by apply list_elem_of_fmap_2|].
    rewrite Heq. by apply list_elem_of_fmap_2.
  - rewrite Hlast in Hlast'. injection Hlast' as ->. apply last_None in E as ->.
    by rewrite bool_decide_eq_false_2 by naive_solver.
Qed.

(** A cipher with the two laws: the plaintext and a tag made of the key. *)
Definition key_tag (key : string) : list ascii := take 16 (bytes key).
Definition tag_seal (key _ plaintext _ : string) : string := of_bytes (bytes plaintext ++ key_tag key).
Definition tag_open (key _ ciphertext _ : string) : option string :=
  let n := (length (bytes ciphertext) - 16)%nat in
  if decide (drop n (bytes ciphertext) = key_tag key) then Some (of_bytes (take n (bytes ciphertext))) else None.

Lemma tag_length key : length (bytes key) = aes256KeySize → length (key_tag key) = 16%nat.
Proof. intros H. unfold key_tag. rewrite length_take, H. done. Qed.

Program Definition tag_cipher : AEAD := {| gcm_Seal := tag_seal; gcm_Open := tag_open |}.
Next Obligation.
  intros key nonce c p ad Hk _. cbn. unfold tag_open, tag_seal. pose proof (tag_length key Hk) as Ht. split.
  - case_decide as Hd; [|done]. intros [= <-]. rewrite bytes_of_bytes, <-Hd, take_drop. by rewrite of_bytes_bytes.
  - intros ->. rewrite bytes_of_bytes, length_app, Ht, Nat.add_sub, drop_app_length, take_app_length.
    by rewrite decide_True, of_bytes_bytes.
Qed.
Next Obligation.
  intros key nonce p ad Hk. cbn. unfold tag_seal. by rewrite bytes_of_bytes, length_app, tag_length.
Qed.

Definition sample_key (version : string) (c : ascii) : KeyMaterial := mkKey version (of_bytes (repeat c 32)).
Definition sample_nonce : string := of_bytes (repeat "n"%char 12).

Example sample_key_text :
  render_keys true [sample_key "v1" "a"; sample_key "v2" "b"] =
  "v1:YWFhYWFhYWFhYWFhYWFhYWFhYWFhYWFhYWFhYWFhYWE=,v2:YmJiYmJiYmJiYmJiYmJiYmJiYmJiYmJiYmJiYmJiYmI=".
Proof. by vm_compute. Qed.

(** A version with a colon, which [keyVersionPattern] accepts, cannot be
    configured: the entry is cut at its first colon. *)
Example colon_version_unconfigurable :
  keyVersionPattern "kms:v1" = true ∧
  ParseKeySet (render_keys true [sample_key "kms:v1" "a"]) = Err (Errorf "connector secret key material must be base64").
Proof. split; by vm_compute. Qed.

Lemma secret_rotation_witness :
  ∃ m m' env, NewManager [sample_key "v1" "a"] = Ok m ∧ NewManager [sample_key "v1" "a"; sample_key "v2" "b"] = Ok m' ∧
    Encrypt (H := tag_cipher) (Some m) (Ok sample_nonce) "token" "tenant" = Ok env ∧
    Decrypt (H := tag_cipher) (Some m') env "tenant" = Ok "token" ∧ NeedsRotation (Some m') env = true.
Proof.
  destruct (secret_rotation (H := tag_cipher) true [sample_key "v1" "a"] [sample_key "v2" "b"] sample_nonce "token" "tenant")
    as (_ & _ & m & m' & env & ? & ? & ? & ? & ?).
  - split_and!; [done| |].
    + repeat constructor.
    + apply (bool_decide_unpack _). by vm_compute.
  - done.
  - apply (bool_decide_unpack _). by vm_compute.
  - done.
  - exists m, m', env. done.
Defined.
