(* ===== verification/ConnectorRecords.v ===== *)
(** * Connector records (internal/db/store.go)

    Source connectors, their observed state, their encrypted secrets, AWS
    onboarding attempts and AWS organization rollouts with their targets, and
    the functions that validate and canonicalize them before a write
    ([Normalize...ForWrite] of store.go, [normalize...] of the AWS memory
    stores).  [now] is [time.Now().UTC()].  A [map[string]any] is a finite map,
    so cloning one is the identity. *)
From S2P Require Import Prelude GoStrings GoCollections GoTime Scope AuthzRecords TenancyRecords Tenancy ScanDomain SecretStore.

Definition ConnectorTypeGitHub : string := "github".
Definition ConnectorTypeAWS : string := "aws".
Definition ConnectorTypeKubernetes : string := "kubernetes".
Definition ConnectorStatusPending : string := "pending".
Definition ConnectorStatusActive : string := "active".
Definition ConnectorStatusDegraded : string := "degraded".
Definition ConnectorStatusDisconnected : string := "disconnected".

Record TenancyConnector := mkConnector {
  Connector_TenantID : string;
  Connector_WorkspaceID : string;
  Connector_ProjectID : string;
  Connector_ConnectorID : string;
  Connector_Type : string;
  Connector_DisplayName : string;
  Connector_Status : string;
  Connector_Disabled : bool;
  Connector_LifecycleGeneration : Z;
  Connector_SecretProvider : string;
  Connector_SecretRefID : string;
  Connector_SecretRefVersion : string;
  Connector_SecretLastRotatedAt : option Z;
  Connector_ConfigChecksum : string;
  Connector_LastSyncAt : option Z;
  Connector_CreatedAt : Z;
  Connector_UpdatedAt : Z;
}.

Record TenancyConnectorState := mkConnState {
  ConnState_TenantID : string;
  ConnState_WorkspaceID : string;
  ConnState_ProjectID : string;
  ConnState_ConnectorID : string;
  ConnState_HealthStatus : string;
  ConnState_SyncCursor : string;
  ConnState_LastSuccessfulSyncAt : option Z;
  ConnState_LastErrorCode : string;
  ConnState_LastErrorMessage : string;
  ConnState_Metadata : gmap string any;
  ConnState_ObservedAt : Z;
  ConnState_UpdatedAt : Z;
}.

(** The zero state a map lookup without an entry gives. *)
Definition zero_conn_state : TenancyConnectorState := mkConnState "" "" "" "" "" "" None "" "" ∅ time_zero time_zero.

Record TenancyConnectorWithState := mkWithState {
  With_Connector : TenancyConnector;
  With_State : TenancyConnectorState;
}.

Record TenancyConnectorSecretEnvelope := mkSecret {
  Secret_TenantID : string;
  Secret_WorkspaceID : string;
  Secret_ProjectID : string;
  Secret_ConnectorID : string;
  Secret_SecretName : string;
  Secret_EnvelopeVersion : Z;
  Secret_Envelope : Envelope;
  Secret_SecretRefID : string;
  Secret_RotatedAt : Z;
  Secret_RotationDueAt : option Z;
  Secret_CreatedAt : Z;
  Secret_UpdatedAt : Z;
}.

(** ** Normalizers *)
Definition NormalizeTenancyConnectorForWrite (now : Z) (c : TenancyConnector) : result TenancyConnector :=
  let tenantID := TrimSpace (Connector_TenantID c) in
  _ ← required "tenant id" tenantID;
  let workspaceID := TrimSpace (Connector_WorkspaceID c) in
  _ ← required "workspace id" workspaceID;
  let projectID := TrimSpace (Connector_ProjectID c) in
  _ ← required "project id" projectID;
  let connectorID := TrimSpace (Connector_ConnectorID c) in
  _ ← required "connector id" connectorID;
  let type := canon (Connector_Type c) in
  _ ← guard_err (bool_decide (type ∈ [ConnectorTypeGitHub; ConnectorTypeAWS; ConnectorTypeKubernetes]))
        (Errorf "invalid connector type");
  let displayName := TrimSpace (Connector_DisplayName c) in
  _ ← required "connector display name" displayName;
  let status := canon (Connector_Status c) in
  let status := if decide (status = "") then ConnectorStatusPending else status in
  _ ← guard_err (bool_decide (status ∈ [ConnectorStatusPending; ConnectorStatusActive; ConnectorStatusDegraded;
                                        ConnectorStatusDisconnected]))
        (Errorf "invalid connector status");
  _ ← guard_err (negb (Connector_LifecycleGeneration c <? 0))
        (Errorf "connector lifecycle generation cannot be negative");
  let provider := TrimSpace (Connector_SecretProvider c) in
  let refID := TrimSpace (Connector_SecretRefID c) in
  _ ← guard_err (Bool.eqb (bool_decide (provider = "")) (bool_decide (refID = "")))
        (Errorf "secret provider and secret ref id must be set together");
  let createdAt := or_time (Connector_CreatedAt c) now in
  mret (mkConnector tenantID workspaceID projectID connectorID type displayName status (Connector_Disabled c)
          (Connector_LifecycleGeneration c) provider refID (TrimSpace (Connector_SecretRefVersion c))
          (Connector_SecretLastRotatedAt c) (TrimSpace (Connector_ConfigChecksum c)) (Connector_LastSyncAt c)
          createdAt (or_time (Connector_UpdatedAt c) createdAt)).

Definition NormalizeTenancyConnectorStateForWrite (now : Z) (s : TenancyConnectorState) : result TenancyConnectorState :=
  let tenantID := TrimSpace (ConnState_TenantID s) in
  _ ← required "tenant id" tenantID;
  let workspaceID := TrimSpace (ConnState_WorkspaceID s) in
  _ ← required "workspace id" workspaceID;
  let projectID := TrimSpace (ConnState_ProjectID s) in
  _ ← required "project id" projectID;
  let connectorID := TrimSpace (ConnState_ConnectorID s) in
  _ ← required "connector id" connectorID;
  let health := canon (ConnState_HealthStatus s) in
  let health := if decide (health = "") then "unknown" else health in
  _ ← guard_err (bool_decide (health ∈ ["unknown"; "healthy"; "warning"; "error"]))
        (Errorf "invalid connector health status");
  let observedAt := or_time (ConnState_ObservedAt s) now in
  mret (mkConnState tenantID workspaceID projectID connectorID health (TrimSpace (ConnState_SyncCursor s))
          (ConnState_LastSuccessfulSyncAt s) (TrimSpace (ConnState_LastErrorCode s))
          (TrimSpace (ConnState_LastErrorMessage s)) (ConnState_Metadata s)
          observedAt (or_time (ConnState_UpdatedAt s) observedAt)).

Definition NormalizeTenancyConnectorSecretEnvelopeForWrite (now : Z) (s : TenancyConnectorSecretEnvelope)
    : result TenancyConnectorSecretEnvelope :=
  let tenantID := TrimSpace (Secret_TenantID s) in
  _ ← required "tenant id" tenantID;
  let workspaceID := TrimSpace (Secret_WorkspaceID s) in
  _ ← required "workspace id" workspaceID;
  let projectID := TrimSpace (Secret_ProjectID s) in
  _ ← required "project id" projectID;
  let connectorID := TrimSpace (Secret_ConnectorID s) in
  _ ← required "connector id" connectorID;
  let secretName := TrimSpace (Secret_SecretName s) in
  _ ← required "secret name" secretName;
  let version := if Secret_EnvelopeVersion s <=? 0 then 1 else Secret_EnvelopeVersion s in
  let e := Secret_Envelope s in
  let envelope := mkEnvelope version (TrimSpace (Envelope_Algorithm e)) (TrimSpace (Envelope_KeyVersion e))
                    (Envelope_Nonce e) (Envelope_Ciphertext e) in
  _ ← guard_err (bool_decide (Envelope_Algorithm envelope = AlgorithmAES256GCM))
        (Errorf "invalid connector secret envelope algorithm");
  _ ← required "connector secret envelope key version" (Envelope_KeyVersion envelope);
  _ ← guard_err (bool_decide (length (bytes (Envelope_Nonce envelope)) = 12%nat))
        (Errorf "connector secret envelope nonce is invalid");
  _ ← required "connector secret envelope ciphertext" (Envelope_Ciphertext envelope);
  let rotatedAt := or_time (Secret_RotatedAt s) now in
  mret (mkSecret tenantID workspaceID projectID connectorID secretName version envelope
          (TrimSpace (Secret_SecretRefID s)) rotatedAt (Secret_RotationDueAt s)
          (or_time (Secret_CreatedAt s) rotatedAt) (or_time (Secret_UpdatedAt s) rotatedAt)).

(** ** AWS organization rollouts *)
Definition ErrInvalidAWSOrganizationRollout : error := Sentinel "invalid aws organization rollout".
Definition ErrInvalidAWSOrganizationRolloutTarget : error := Sentinel "invalid aws organization rollout target".

Definition AWSOrganizationRolloutControllingManagement : string := "management".
Definition AWSOrganizationRolloutControllingDelegatedAdmin : string := "delegated_admin".
Definition AWSOrganizationRolloutDeploymentServiceManaged : string := "service_managed".
Definition AWSOrganizationRolloutDeploymentSelfManaged : string := "self_managed".
Definition AWSOrganizationRolloutStatusCreated : string := "created".
Definition AWSOrganizationRolloutStatusLaunching : string := "launching".
Definition AWSOrganizationRolloutStatusInProgress : string := "in_progress".
Definition AWSOrganizationRolloutStatusReconciling : string := "reconciling".
Definition AWSOrganizationRolloutStatusCompleted : string := "completed".
Definition AWSOrganizationRolloutStatusPartial : string := "partial".
Definition AWSOrganizationRolloutStatusFailed : string := "failed".
Definition AWSOrganizationRolloutStatusExpired : string := "expired".
Definition AWSOrganizationRolloutStatusCanceled : string := "canceled".
Definition AWSOrganizationRolloutTargetPending : string := "pending".
Definition AWSOrganizationRolloutTargetDeploying : string := "deploying".
Definition AWSOrganizationRolloutTargetRegistering : string := "registering".
Definition AWSOrganizationRolloutTargetValidating : string := "validating".
Definition AWSOrganizationRolloutTargetConnected : string := "connected".
Definition AWSOrganizationRolloutTargetPartial : string := "partial".
Definition AWSOrganizationRolloutTargetFailed : string := "failed".
Definition AWSOrganizationRolloutTargetExcluded : string := "excluded".
Definition AWSOrganizationRolloutTargetSuspended : string := "suspended".
Definition AWSOrganizationRolloutTargetRemoved : string := "removed".

Record AWSOrganizationRollout := mkOrgRollout {
  OrgRollout_RolloutID : string;
  OrgRollout_TenantID : string;
  OrgRollout_WorkspaceID : string;
  OrgRollout_ProjectID : string;
  OrgRollout_ControllingConnectorID : string;
  OrgRollout_LifecycleGeneration : Z;
  OrgRollout_ControllingRole : string;
  OrgRollout_OrganizationID : string;
  OrgRollout_ManagementAccountID : string;
  OrgRollout_Partition : string;
  OrgRollout_DeploymentMode : string;
  OrgRollout_StackSetName : string;
  OrgRollout_ExpectedRoleName : string;
  OrgRollout_TemplateVersion : string;
  OrgRollout_TemplateChecksum : string;
  OrgRollout_RegistrationSecretHash : string;
  OrgRollout_RegistrationSecretKeyVersion : string;
  OrgRollout_SelectedOUIDs : list string;
  OrgRollout_SelectedAccountIDs : list string;
  OrgRollout_ExcludedAccountIDs : list string;
  OrgRollout_TargetRegions : list string;
  OrgRollout_AutoDeployNewAccounts : bool;
  OrgRollout_Status : string;
  OrgRollout_FailureCode : string;
  OrgRollout_FailureMessage : string;
  OrgRollout_ExpiresAt : Z;
  OrgRollout_CreatedAt : Z;
  OrgRollout_UpdatedAt : Z;
  OrgRollout_Version : Z;
}.

Record AWSOrganizationRolloutTarget := mkOrgTarget {
  OrgTarget_RolloutID : string;
  OrgTarget_AccountID : string;
  OrgTarget_Region : string;
  OrgTarget_TenantID : string;
  OrgTarget_WorkspaceID : string;
  OrgTarget_ProjectID : string;
  OrgTarget_AccountName : string;
  OrgTarget_OUPath : string;
  OrgTarget_IsManagement : bool;
  OrgTarget_State : string;
  OrgTarget_StackInstanceID : string;
  OrgTarget_StackID : string;
  OrgTarget_RoleARN : string;
  OrgTarget_FailureCode : string;
  OrgTarget_FailureMessage : string;
  OrgTarget_Retryable : bool;
  OrgTarget_EvidenceRef : string;
  OrgTarget_RegisterRequestID : string;
  OrgTarget_LastTransitionAt : Z;
  OrgTarget_LastValidationAt : option Z;
  OrgTarget_CreatedAt : Z;
  OrgTarget_UpdatedAt : Z;
  OrgTarget_Version : Z;
}.

(** [awsAccountIDPattern]: ^[0-9]{12}$. *)
Definition awsAccountIDPattern (value : string) : bool :=
  bool_decide (length (bytes value) = 12%nat) && forallb is_digit (bytes value).

Definition awsOrganizationRolloutControllingRoleValid (role : string) : bool :=
  bool_decide (role ∈ [AWSOrganizationRolloutControllingManagement; AWSOrganizationRolloutControllingDelegatedAdmin]).
Definition awsOrganizationRolloutDeploymentModeValid (mode : string) : bool :=
  bool_decide (mode ∈ [AWSOrganizationRolloutDeploymentServiceManaged; AWSOrganizationRolloutDeploymentSelfManaged]).

(** The statuses of a running rollout; those that ended short of completion. *)
Definition active_statuses : list string :=
  [AWSOrganizationRolloutStatusCreated; AWSOrganizationRolloutStatusLaunching;
   AWSOrganizationRolloutStatusInProgress; AWSOrganizationRolloutStatusReconciling].
Definition unfinished_statuses : list string :=
  [AWSOrganizationRolloutStatusPartial; AWSOrganizationRolloutStatusFailed].

Definition awsOrganizationRolloutStatusValid (status : string) : bool :=
  bool_decide (status ∈ active_statuses ++ AWSOrganizationRolloutStatusCompleted :: unfinished_statuses ++
                 [AWSOrganizationRolloutStatusExpired; AWSOrganizationRolloutStatusCanceled])%list.
Definition awsOrganizationRolloutActive (status : string) : bool := bool_decide (status ∈ active_statuses).
Definition awsOrganizationRolloutTargetMutationAllowed (status : string) : bool :=
  bool_decide (status ∈ active_statuses ++ AWSOrganizationRolloutStatusCompleted :: unfinished_statuses)%list.
Definition awsOrganizationRolloutMonitored (status : string) : bool :=
  bool_decide (status ∈ active_statuses ++ AWSOrganizationRolloutStatusCompleted :: unfinished_statuses)%list.
Definition awsOrganizationRolloutCancelableOnLifecycleChange (status : string) : bool :=
  bool_decide (status ∈ active_statuses ++ unfinished_statuses)%list.
Definition awsOrganizationRolloutRetryableStatus (status : string) : bool :=
  bool_decide (status ∈ active_statuses ++ unfinished_statuses)%list.

Definition terminal_states : list string :=
  [AWSOrganizationRolloutTargetConnected; AWSOrganizationRolloutTargetFailed; AWSOrganizationRolloutTargetPartial;
   AWSOrganizationRolloutTargetSuspended; AWSOrganizationRolloutTargetRemoved; AWSOrganizationRolloutTargetExcluded].
Definition awsOrganizationRolloutTargetStateTerminal (state : string) : bool := bool_decide (state ∈ terminal_states).
Definition awsOrganizationRolloutTargetStateAdvances (from to : string) : bool :=
  bool_decide (from = to) || negb (awsOrganizationRolloutTargetStateTerminal from) ||
  bool_decide (to = AWSOrganizationRolloutTargetDeploying) || awsOrganizationRolloutTargetStateTerminal to.
Definition awsOrganizationRolloutTargetStateValid (state : string) : bool :=
  bool_decide (state ∈ [AWSOrganizationRolloutTargetPending; AWSOrganizationRolloutTargetDeploying;
                        AWSOrganizationRolloutTargetRegistering; AWSOrganizationRolloutTargetValidating] ++ terminal_states)%list.

Definition trimAndDedupeStringSlice (values : list string) : list string := unique (nonempty_map TrimSpace values).
Definition trimAndLowerDedupeStringSlice (values : list string) : list string := unique (nonempty_map canon values).

(** [sha256.Size]. *)
Definition sha256_Size : nat := 32.

(** The condition of the validation's [if], negated. *)
Definition org_rollout_valid (r : AWSOrganizationRollout) : bool :=
  bool_decide (OrgRollout_RolloutID r ≠ "") && bool_decide (OrgRollout_ProjectID r ≠ "") &&
  bool_decide (OrgRollout_ControllingConnectorID r ≠ "") && bool_decide (OrgRollout_OrganizationID r ≠ "") &&
  awsAccountIDPattern (OrgRollout_ManagementAccountID r) && bool_decide (OrgRollout_Partition r ≠ "") &&
  bool_decide (OrgRollout_StackSetName r ≠ "") && bool_decide (OrgRollout_ExpectedRoleName r ≠ "") &&
  bool_decide (OrgRollout_TemplateVersion r ≠ "") && bool_decide (OrgRollout_TemplateChecksum r ≠ "") &&
  bool_decide (length (bytes (OrgRollout_RegistrationSecretHash r)) = sha256_Size) &&
  bool_decide (OrgRollout_RegistrationSecretKeyVersion r ≠ "") &&
  awsOrganizationRolloutControllingRoleValid (OrgRollout_ControllingRole r) &&
  awsOrganizationRolloutDeploymentModeValid (OrgRollout_DeploymentMode r) &&
  awsOrganizationRolloutStatusValid (OrgRollout_Status r) && negb (IsZero (OrgRollout_ExpiresAt r)) &&
  negb (is_nil (OrgRollout_TargetRegions r)).

(** The trimmed fields, under a tenant and a workspace. *)
Definition trim_org_rollout (tenantID workspaceID : string) (r : AWSOrganizationRollout) : AWSOrganizationRollout :=
  mkOrgRollout (TrimSpace (OrgRollout_RolloutID r)) tenantID workspaceID (TrimSpace (OrgRollout_ProjectID r))
    (TrimSpace (OrgRollout_ControllingConnectorID r)) (OrgRollout_LifecycleGeneration r)
    (TrimSpace (OrgRollout_ControllingRole r)) (TrimSpace (OrgRollout_OrganizationID r))
    (TrimSpace (OrgRollout_ManagementAccountID r)) (TrimSpace (OrgRollout_Partition r))
    (TrimSpace (OrgRollout_DeploymentMode r)) (TrimSpace (OrgRollout_StackSetName r))
    (TrimSpace (OrgRollout_ExpectedRoleName r)) (TrimSpace (OrgRollout_TemplateVersion r))
    (TrimSpace (OrgRollout_TemplateChecksum r)) (OrgRollout_RegistrationSecretHash r)
    (TrimSpace (OrgRollout_RegistrationSecretKeyVersion r)) (trimAndDedupeStringSlice (OrgRollout_SelectedOUIDs r))
    (trimAndDedupeStringSlice (OrgRollout_SelectedAccountIDs r))
    (trimAndDedupeStringSlice (OrgRollout_ExcludedAccountIDs r))
    (trimAndLowerDedupeStringSlice (OrgRollout_TargetRegions r)) (OrgRollout_AutoDeployNewAccounts r)
    (TrimSpace (OrgRollout_Status r)) (OrgRollout_FailureCode r) (OrgRollout_FailureMessage r)
    (OrgRollout_ExpiresAt r) (OrgRollout_CreatedAt r) (OrgRollout_UpdatedAt r) (OrgRollout_Version r).

(** Record updates the stores perform. *)
Definition with_rollout_times (createdAt updatedAt version : Z) (r : AWSOrganizationRollout) : AWSOrganizationRollout :=
  mkOrgRollout (OrgRollout_RolloutID r) (OrgRollout_TenantID r) (OrgRollout_WorkspaceID r) (OrgRollout_ProjectID r)
    (OrgRollout_ControllingConnectorID r) (OrgRollout_LifecycleGeneration r) (OrgRollout_ControllingRole r)
    (OrgRollout_OrganizationID r) (OrgRollout_ManagementAccountID r) (OrgRollout_Partition r)
    (OrgRollout_DeploymentMode r) (OrgRollout_StackSetName r) (OrgRollout_ExpectedRoleName r)
    (OrgRollout_TemplateVersion r) (OrgRollout_TemplateChecksum r) (OrgRollout_RegistrationSecretHash r)
    (OrgRollout_RegistrationSecretKeyVersion r) (OrgRollout_SelectedOUIDs r) (OrgRollout_SelectedAccountIDs r)
    (OrgRollout_ExcludedAccountIDs r) (OrgRollout_TargetRegions r) (OrgRollout_AutoDeployNewAccounts r)
    (OrgRollout_Status r) (OrgRollout_FailureCode r) (OrgRollout_FailureMessage r) (OrgRollout_ExpiresAt r)
    createdAt updatedAt version.
Definition with_rollout_generation (g : Z) (r : AWSOrganizationRollout) : AWSOrganizationRollout :=
  mkOrgRollout (OrgRollout_RolloutID r) (OrgRollout_TenantID r) (OrgRollout_WorkspaceID r) (OrgRollout_ProjectID r)
    (OrgRollout_ControllingConnectorID r) g (OrgRollout_ControllingRole r)
    (OrgRollout_OrganizationID r) (OrgRollout_ManagementAccountID r) (OrgRollout_Partition r)
    (OrgRollout_DeploymentMode r) (OrgRollout_StackSetName r) (OrgRollout_ExpectedRoleName r)
    (OrgRollout_TemplateVersion r) (OrgRollout_TemplateChecksum r) (OrgRollout_RegistrationSecretHash r)
    (OrgRollout_RegistrationSecretKeyVersion r) (OrgRollout_SelectedOUIDs r) (OrgRollout_SelectedAccountIDs r)
    (OrgRollout_ExcludedAccountIDs r) (OrgRollout_TargetRegions r) (OrgRollout_AutoDeployNewAccounts r)
    (OrgRollout_Status r) (OrgRollout_FailureCode r) (OrgRollout_FailureMessage r) (OrgRollout_ExpiresAt r)
    (OrgRollout_CreatedAt r) (OrgRollout_UpdatedAt r) (OrgRollout_Version r).
Definition with_rollout_outcome (status code message : string) (updatedAt version : Z) (r : AWSOrganizationRollout)
    : AWSOrganizationRollout :=
  mkOrgRollout (OrgRollout_RolloutID r) (OrgRollout_TenantID r) (OrgRollout_WorkspaceID r) (OrgRollout_ProjectID r)
    (OrgRollout_ControllingConnectorID r) (OrgRollout_LifecycleGeneration r) (OrgRollout_ControllingRole r)
    (OrgRollout_OrganizationID r) (OrgRollout_ManagementAccountID r) (OrgRollout_Partition r)
    (OrgRollout_DeploymentMode r) (OrgRollout_StackSetName r) (OrgRollout_ExpectedRoleName r)
    (OrgRollout_TemplateVersion r) (OrgRollout_TemplateChecksum r) (OrgRollout_RegistrationSecretHash r)
    (OrgRollout_RegistrationSecretKeyVersion r) (OrgRollout_SelectedOUIDs r) (OrgRollout_SelectedAccountIDs r)
    (OrgRollout_ExcludedAccountIDs r) (OrgRollout_TargetRegions r) (OrgRollout_AutoDeployNewAccounts r)
    status code message (OrgRollout_ExpiresAt r) (OrgRollout_CreatedAt r) updatedAt version.

Definition normalizeAWSOrganizationRollout (now : Z) (ctx : Context) (rollout : AWSOrganizationRollout)
    : result AWSOrganizationRollout :=
  '(scope, workspaceID) ← scoped_workspace ctx (OrgRollout_WorkspaceID rollout);
  let r := trim_org_rollout (Scope_TenantID scope) workspaceID rollout in
  _ ← guard_err (negb (OrgRollout_LifecycleGeneration r <? 0)) ErrInvalidAWSOrganizationRollout;
  _ ← guard_err (org_rollout_valid r) ErrInvalidAWSOrganizationRollout;
  let createdAt := or_time (OrgRollout_CreatedAt r) now in
  mret (with_rollout_times createdAt (or_time (OrgRollout_UpdatedAt r) createdAt)
          (if OrgRollout_Version r <=? 0 then 1 else OrgRollout_Version r) r).

Definition org_target_valid (t : AWSOrganizationRolloutTarget) : bool :=
  bool_decide (OrgTarget_RolloutID t ≠ "") && bool_decide (OrgTarget_ProjectID t ≠ "") &&
  awsAccountIDPattern (OrgTarget_AccountID t) && bool_decide (OrgTarget_Region t ≠ "") &&
  awsOrganizationRolloutTargetStateValid (OrgTarget_State t).

Definition normalizeAWSOrganizationRolloutTarget (ctx : Context) (t : AWSOrganizationRolloutTarget)
    : result AWSOrganizationRolloutTarget :=
  '(scope, workspaceID) ← scoped_workspace ctx (OrgTarget_WorkspaceID t);
  let r := mkOrgTarget (TrimSpace (OrgTarget_RolloutID t)) (TrimSpace (OrgTarget_AccountID t))
             (canon (OrgTarget_Region t)) (Scope_TenantID scope) workspaceID (TrimSpace (OrgTarget_ProjectID t))
             (OrgTarget_AccountName t) (OrgTarget_OUPath t) (OrgTarget_IsManagement t) (TrimSpace (OrgTarget_State t))
             (OrgTarget_StackInstanceID t) (OrgTarget_StackID t) (OrgTarget_RoleARN t) (OrgTarget_FailureCode t)
             (OrgTarget_FailureMessage t) (OrgTarget_Retryable t) (OrgTarget_EvidenceRef t)
             (OrgTarget_RegisterRequestID t) (OrgTarget_LastTransitionAt t) (OrgTarget_LastValidationAt t)
             (OrgTarget_CreatedAt t) (OrgTarget_UpdatedAt t) (OrgTarget_Version t) in
  _ ← guard_err (org_target_valid r) ErrInvalidAWSOrganizationRolloutTarget;
  mret r.

(** ** AWS onboarding attempts *)
Definition ErrInvalidAWSConnectorOnboardingAttempt : error := Sentinel "invalid aws connector onboarding attempt".

Definition AWSConnectorOnboardingAttemptWaiting : string := "waiting_for_aws".
Definition AWSConnectorOnboardingAttemptRegistering : string := "registering".
Definition AWSConnectorOnboardingAttemptValidating : string := "validating".
Definition AWSConnectorOnboardingAttemptConnected : string := "connected".
Definition AWSConnectorOnboardingAttemptNeedsFix : string := "needs_fix".
Definition AWSConnectorOnboardingAttemptExpired : string := "expired".
Definition AWSConnectorOnboardingAttemptFailed : string := "failed".

Record AWSConnectorOnboardingAttempt := mkAttempt {
  Attempt_AttemptID : string;
  Attempt_TenantID : string;
  Attempt_WorkspaceID : string;
  Attempt_ProjectID : string;
  Attempt_ConnectorID : string;
  Attempt_Status : string;
  Attempt_TokenHash : string;
  Attempt_TokenKeyVersion : string;
  Attempt_ProviderTopicARN : string;
  Attempt_TemplateVersion : string;
  Attempt_TemplateChecksum : string;
  Attempt_DeploymentRegion : string;
  Attempt_StackID : string;
  Attempt_AWSAccountID : string;
  Attempt_AWSPartition : string;
  Attempt_RoleARN : string;
  Attempt_BootstrapRequestID : string;
  Attempt_RegisterRequestID : string;
  Attempt_FailureCode : string;
  Attempt_FailureMessage : string;
  Attempt_ExpiresAt : Z;
  Attempt_RegisteredAt : option Z;
  Attempt_ValidatedAt : option Z;
  Attempt_CreatedAt : Z;
  Attempt_UpdatedAt : Z;
  Attempt_Version : Z;
}.

Definition active_attempt_statuses : list string :=
  [AWSConnectorOnboardingAttemptWaiting; AWSConnectorOnboardingAttemptRegistering;
   AWSConnectorOnboardingAttemptValidating].
Definition awsOnboardingAttemptActive (status : string) : bool := bool_decide (status ∈ active_attempt_statuses).
Definition awsOnboardingAttemptStatusValid (status : string) : bool :=
  bool_decide (status ∈ active_attempt_statuses ++
    [AWSConnectorOnboardingAttemptConnected; AWSConnectorOnboardingAttemptNeedsFix;
     AWSConnectorOnboardingAttemptExpired; AWSConnectorOnboardingAttemptFailed])%list.

Definition awsOnboardingAttemptHasBoundStack (a : AWSConnectorOnboardingAttempt) : bool :=
  bool_decide (Attempt_Status a ∈ [AWSConnectorOnboardingAttemptConnected; AWSConnectorOnboardingAttemptNeedsFix]) &&
  negb (blank (Attempt_StackID a)) && negb (blank (Attempt_BootstrapRequestID a)) &&
  negb (blank (Attempt_RegisterRequestID a)).

Definition attempt_valid (a : AWSConnectorOnboardingAttempt) : bool :=
  bool_decide (Attempt_AttemptID a ≠ "") && bool_decide (Attempt_ProjectID a ≠ "") &&
  bool_decide (Attempt_ConnectorID a ≠ "") && awsOnboardingAttemptStatusValid (Attempt_Status a) &&
  bool_decide (length (bytes (Attempt_TokenHash a)) = sha256_Size) && bool_decide (Attempt_TokenKeyVersion a ≠ "") &&
  bool_decide (Attempt_ProviderTopicARN a ≠ "") && bool_decide (Attempt_TemplateVersion a ≠ "") &&
  bool_decide (Attempt_TemplateChecksum a ≠ "") && bool_decide (Attempt_DeploymentRegion a ≠ "") &&
  negb (IsZero (Attempt_ExpiresAt a)).

Definition trim_attempt (tenantID workspaceID : string) (a : AWSConnectorOnboardingAttempt) : AWSConnectorOnboardingAttempt :=
  mkAttempt (TrimSpace (Attempt_AttemptID a)) tenantID workspaceID (TrimSpace (Attempt_ProjectID a))
    (TrimSpace (Attempt_ConnectorID a)) (TrimSpace (Attempt_Status a)) (Attempt_TokenHash a)
    (TrimSpace (Attempt_TokenKeyVersion a)) (TrimSpace (Attempt_ProviderTopicARN a))
    (TrimSpace (Attempt_TemplateVersion a)) (TrimSpace (Attempt_TemplateChecksum a))
    (TrimSpace (Attempt_DeploymentRegion a)) (Attempt_StackID a) (Attempt_AWSAccountID a) (Attempt_AWSPartition a)
    (Attempt_RoleARN a) (Attempt_BootstrapRequestID a) (Attempt_RegisterRequestID a) (Attempt_FailureCode a)
    (Attempt_FailureMessage a) (Attempt_ExpiresAt a) (Attempt_RegisteredAt a) (Attempt_ValidatedAt a)
    (Attempt_CreatedAt a) (Attempt_UpdatedAt a) (Attempt_Version a).

Definition with_attempt_times (createdAt updatedAt version : Z) (a : AWSConnectorOnboardingAttempt)
    : AWSConnectorOnboardingAttempt :=
  mkAttempt (Attempt_AttemptID a) (Attempt_TenantID a) (Attempt_WorkspaceID a) (Attempt_ProjectID a)
    (Attempt_ConnectorID a) (Attempt_Status a) (Attempt_TokenHash a) (Attempt_TokenKeyVersion a)
    (Attempt_ProviderTopicARN a) (Attempt_TemplateVersion a) (Attempt_TemplateChecksum a)
    (Attempt_DeploymentRegion a) (Attempt_StackID a) (Attempt_AWSAccountID a) (Attempt_AWSPartition a)
    (Attempt_RoleARN a) (Attempt_BootstrapRequestID a) (Attempt_RegisterRequestID a) (Attempt_FailureCode a)
    (Attempt_FailureMessage a) (Attempt_ExpiresAt a) (Attempt_RegisteredAt a) (Attempt_ValidatedAt a)
    createdAt updatedAt version.

Definition normalizeAWSConnectorOnboardingAttempt (now : Z) (ctx : Context) (attempt : AWSConnectorOnboardingAttempt)
    : result AWSConnectorOnboardingAttempt :=
  '(scope, workspaceID) ← scoped_workspace ctx (Attempt_WorkspaceID attempt);
  let a := trim_attempt (Scope_TenantID scope) workspaceID attempt in
  _ ← guard_err (attempt_valid a) ErrInvalidAWSConnectorOnboardingAttempt;
  let createdAt := or_time (Attempt_CreatedAt a) now in
  mret (with_attempt_times createdAt (or_time (Attempt_UpdatedAt a) createdAt)
          (if Attempt_Version a <=? 0 then 1 else Attempt_Version a) a).

(** ** The tables *)
Record ConnectorTables := mkTables {
  connectors : gmap string TenancyConnector;
  connStates : gmap string TenancyConnectorState;
  connSecrets : gmap string TenancyConnectorSecretEnvelope;
  awsOrgRollouts : gmap string AWSOrganizationRollout;
  awsOrgRolloutTargets : gmap string AWSOrganizationRolloutTarget;
  awsOnboardingAttempts : gmap string AWSConnectorOnboardingAttempt;
}.
Definition empty_tables : ConnectorTables := mkTables ∅ ∅ ∅ ∅ ∅ ∅.

Definition with_connector_row (key : string) (c : TenancyConnector) (st : TenancyConnectorState) (s : ConnectorTables)
    : ConnectorTables :=
  mkTables (<[key := c]> (connectors s)) (<[key := st]> (connStates s)) (connSecrets s) (awsOrgRollouts s)
    (awsOrgRolloutTargets s) (awsOnboardingAttempts s).
Definition with_connSecrets m s : ConnectorTables :=
  mkTables (connectors s) (connStates s) m (awsOrgRollouts s) (awsOrgRolloutTargets s) (awsOnboardingAttempts s).
Definition with_awsOrgRollouts m s : ConnectorTables :=
  mkTables (connectors s) (connStates s) (connSecrets s) m (awsOrgRolloutTargets s) (awsOnboardingAttempts s).
Definition with_awsOrgRolloutTargets m s : ConnectorTables :=
  mkTables (connectors s) (connStates s) (connSecrets s) (awsOrgRollouts s) m (awsOnboardingAttempts s).
Definition with_awsOnboardingAttempts m s : ConnectorTables :=
  mkTables (connectors s) (connStates s) (connSecrets s) (awsOrgRollouts s) (awsOrgRolloutTargets s) m.

Definition tenancyConnectorKey (tenantID workspaceID projectID connectorID : string) : string :=
  tenancyCompositeKey [TrimSpace tenantID; TrimSpace workspaceID; TrimSpace projectID; TrimSpace connectorID].
Definition tenancyConnectorSecretKey (tenantID workspaceID projectID connectorID secretName : string) : string :=
  tenancyCompositeKey [TrimSpace tenantID; TrimSpace workspaceID; TrimSpace projectID; TrimSpace connectorID;
                       TrimSpace secretName].

(** [m.connStates[key]] of a key without an entry is the zero state. *)
Definition state_of (key : string) (s : ConnectorTables) : TenancyConnectorState := default zero_conn_state (connStates s !! key).
#[global] Arguments tenancyConnectorKey : simpl never.
#[global] Arguments tenancyConnectorSecretKey : simpl never.
