(* ===== verification/Connectors.v ===== *)
(** * Connectors and their lifecycle (internal/db/memory_tenancy.go, connector_lifecycle.go)

    The connector methods of [MemoryStore], each one atomic under the store's
    mutex, over the tables of ConnectorRecords; the project table they only
    read is an argument.  [now] is the instant [time.Now()] gives during the
    call.  Audit records written after the lock is released are not part of the
    state. *)
From S2P Require Import Prelude GoStrings GoCollections GoTime Runs Scope AuthzRecords TenancyRecords Tenancy ScanDomain SecretStore ConnectorRecords.

(** ** Writing a connector and its state *)
Definition stamp_connector (tenantID workspaceID : string) (c : TenancyConnector) : TenancyConnector :=
  mkConnector tenantID workspaceID (Connector_ProjectID c) (Connector_ConnectorID c) (Connector_Type c)
    (Connector_DisplayName c) (Connector_Status c) (Connector_Disabled c) (Connector_LifecycleGeneration c)
    (Connector_SecretProvider c) (Connector_SecretRefID c) (Connector_SecretRefVersion c)
    (Connector_SecretLastRotatedAt c) (Connector_ConfigChecksum c) (Connector_LastSyncAt c) (Connector_CreatedAt c)
    (Connector_UpdatedAt c).
Definition stamp_conn_state (tenantID workspaceID projectID connectorID : string) (s : TenancyConnectorState)
    : TenancyConnectorState :=
  mkConnState tenantID workspaceID projectID connectorID (ConnState_HealthStatus s) (ConnState_SyncCursor s)
    (ConnState_LastSuccessfulSyncAt s) (ConnState_LastErrorCode s) (ConnState_LastErrorMessage s)
    (ConnState_Metadata s) (ConnState_ObservedAt s) (ConnState_UpdatedAt s).
Definition stamp_secret (tenantID workspaceID projectID connectorID secretName : string)
    (e : TenancyConnectorSecretEnvelope) : TenancyConnectorSecretEnvelope :=
  mkSecret tenantID workspaceID projectID connectorID secretName (Secret_EnvelopeVersion e) (Secret_Envelope e)
    (Secret_SecretRefID e) (Secret_RotatedAt e) (Secret_RotationDueAt e) (Secret_CreatedAt e) (Secret_UpdatedAt e).

(** The connector and the state in canonical form, under the caller's scope. *)
Definition normalize_pair (now : Z) (scope : Scope) (resolved : string) (connector : TenancyConnector)
    (state : TenancyConnectorState) : result (TenancyConnector * TenancyConnectorState) :=
  c ← NormalizeTenancyConnectorForWrite now (stamp_connector (Scope_TenantID scope) resolved connector);
  st ← NormalizeTenancyConnectorStateForWrite now
         (stamp_conn_state (Scope_TenantID scope) resolved (Connector_ProjectID connector)
            (Connector_ConnectorID connector) state);
  mret (c, st).

Definition connector_key (c : TenancyConnector) : string :=
  tenancyConnectorKey (Connector_TenantID c) (Connector_WorkspaceID c) (Connector_ProjectID c) (Connector_ConnectorID c).
Definition secret_key (e : TenancyConnectorSecretEnvelope) : string :=
  tenancyConnectorSecretKey (Secret_TenantID e) (Secret_WorkspaceID e) (Secret_ProjectID e) (Secret_ConnectorID e)
    (Secret_SecretName e).
Definition project_exists (d : DirectoryState) (tenantID workspaceID projectID : string) : bool :=
  bool_decide (is_Some (projects d !! tenancyProjectKey tenantID workspaceID projectID)).
Definition connector_project_exists (d : DirectoryState) (c : TenancyConnector) : bool :=
  project_exists d (Connector_TenantID c) (Connector_WorkspaceID c) (Connector_ProjectID c).

Definition with_created_at (t : Z) (c : TenancyConnector) : TenancyConnector :=
  mkConnector (Connector_TenantID c) (Connector_WorkspaceID c) (Connector_ProjectID c) (Connector_ConnectorID c)
    (Connector_Type c) (Connector_DisplayName c) (Connector_Status c) (Connector_Disabled c)
    (Connector_LifecycleGeneration c) (Connector_SecretProvider c) (Connector_SecretRefID c)
    (Connector_SecretRefVersion c) (Connector_SecretLastRotatedAt c) (Connector_ConfigChecksum c)
    (Connector_LastSyncAt c) t (Connector_UpdatedAt c).

(** The fenced write shared by the upserts. *)
Definition write_connector (d : DirectoryState) (createdAtWasZero : bool) (c : TenancyConnector)
    (st : TenancyConnectorState) (s : ConnectorTables) : result ConnectorTables :=
  _ ← guard_err (connector_project_exists d c) ErrNotFound;
  let key := connector_key c in
  match connectors s !! key with
  | Some existing =>
      _ ← guard_err (bool_decide (Connector_LifecycleGeneration existing = Connector_LifecycleGeneration c)) ErrConflict;
      let c := if createdAtWasZero then with_created_at (Connector_CreatedAt existing) c else c in
      mret (with_connector_row key c st s)
  | None => mret (with_connector_row key c st s)
  end.

Definition UpsertTenancyConnector (d : DirectoryState) (now : Z) (ctx : Context) (connector : TenancyConnector)
    (state : TenancyConnectorState) (s : ConnectorTables) : result ConnectorTables :=
  '(scope, resolved) ← scoped_workspace ctx (Connector_WorkspaceID connector);
  '(c, st) ← normalize_pair now scope resolved connector state;
  write_connector d (IsZero (Connector_CreatedAt connector)) c st s.

Definition UpsertTenancyConnectorAndSecretEnvelope (d : DirectoryState) (now : Z) (ctx : Context)
    (connector : TenancyConnector) (state : TenancyConnectorState) (secretName : string)
    (envelope : option TenancyConnectorSecretEnvelope) (s : ConnectorTables) : result ConnectorTables :=
  '(scope, resolved) ← scoped_workspace ctx (Connector_WorkspaceID connector);
  let secretName := TrimSpace secretName in
  _ ← required "secret name" secretName;
  '(c, st) ← normalize_pair now scope resolved connector state;
  normalizedEnvelope ←
    match envelope with
    | None => mret None
    | Some envelope =>
        Some <$> NormalizeTenancyConnectorSecretEnvelopeForWrite now
          (stamp_secret (Scope_TenantID scope) resolved (Connector_ProjectID connector)
             (Connector_ConnectorID connector) secretName envelope)
    end;
  s ← write_connector d (IsZero (Connector_CreatedAt connector)) c st s;
  let secretKey := tenancyConnectorSecretKey (Connector_TenantID c) (Connector_WorkspaceID c) (Connector_ProjectID c)
                     (Connector_ConnectorID c) secretName in
  mret (with_connSecrets (match normalizedEnvelope with
                          | None => delete secretKey (connSecrets s)
                          | Some e => <[secretKey := e]> (connSecrets s)
                          end) s).

Definition CreateTenancyConnectorWithSecretEnvelopeIfAbsent (d : DirectoryState) (now : Z) (ctx : Context)
    (connector : TenancyConnector) (state : TenancyConnectorState) (envelope : TenancyConnectorSecretEnvelope)
    (s : ConnectorTables) : result (ConnectorTables * (TenancyConnectorWithState * bool)) :=
  '(scope, resolved) ← scoped_workspace ctx (Connector_WorkspaceID connector);
  '(c, st) ← normalize_pair now scope resolved connector state;
  e ← NormalizeTenancyConnectorSecretEnvelopeForWrite now
        (stamp_secret (Scope_TenantID scope) resolved (Connector_ProjectID connector) (Connector_ConnectorID connector)
           (Secret_SecretName envelope) envelope);
  match connectors s !! connector_key c with
  | Some existing => mret (s, (mkWithState existing (state_of (connector_key c) s), false))
  | None =>
      _ ← guard_err (connector_project_exists d c) ErrNotFound;
      let s := with_connector_row (connector_key c) c st s in
      mret (with_connSecrets (<[secret_key e := e]> (connSecrets s)) s, (mkWithState c st, true))
  end.

(** ** Reading *)
Definition scoped_connector_key (ctx : Context) (workspaceID projectID connectorID : string) : result (Scope * string * string) :=
  '(scope, resolved) ← scoped_workspace ctx workspaceID;
  mret (scope, resolved, tenancyConnectorKey (Scope_TenantID scope) resolved (TrimSpace projectID) (TrimSpace connectorID)).

Definition GetTenancyConnector (ctx : Context) (workspaceID projectID connectorID : string) (s : ConnectorTables)
    : result TenancyConnectorWithState :=
  '(_, _, key) ← scoped_connector_key ctx workspaceID projectID connectorID;
  match connectors s !! key with
  | None => Err ErrNotFound
  | Some connector => mret (mkWithState connector (state_of key s))
  end.

(** The rows a list method selects, most recently updated first. *)
Definition list_connectors `{MapRange, SortSlice} (matches : TenancyConnector → bool) (limit : Z) (s : ConnectorTables)
    : list TenancyConnectorWithState :=
  let rows := (λ '(key, c), mkWithState c (state_of key s)) <$>
                filter (λ '(_, c), matches c = true) (map_range (connectors s)) in
  let rows := sort_slice (λ l r, After (Connector_UpdatedAt (With_Connector l)) (Connector_UpdatedAt (With_Connector r))) rows in
  if 0 <? limit then truncate limit rows else rows.

Definition type_matches (connectorType : string) (c : TenancyConnector) : bool :=
  bool_decide (canon connectorType = "") || bool_decide (Connector_Type c = canon connectorType).
Definition scope_matches (scope : Scope) (resolved projectID : string) (c : TenancyConnector) : bool :=
  bool_decide (Connector_TenantID c = Scope_TenantID scope) && bool_decide (Connector_WorkspaceID c = resolved) &&
  (bool_decide (TrimSpace projectID = "") || bool_decide (Connector_ProjectID c = TrimSpace projectID)).

Definition listTenancyConnectors `{MapRange, SortSlice} (ctx : Context) (workspaceID projectID connectorType : string)
    (limit : Z) (s : ConnectorTables) : result (list TenancyConnectorWithState) :=
  '(scope, resolved) ← scoped_workspace ctx workspaceID;
  mret (list_connectors (λ c, scope_matches scope resolved projectID c && type_matches connectorType c) limit s).
Definition ListTenancyConnectors `{MapRange, SortSlice} ctx workspaceID projectID connectorType limit s :=
  listTenancyConnectors ctx workspaceID projectID connectorType (if limit <=? 0 then 100 else limit) s.
Definition listTenancyConnectorsUnscoped `{MapRange, SortSlice} (connectorType : string) (limit : Z) (s : ConnectorTables)
    : list TenancyConnectorWithState := list_connectors (type_matches connectorType) limit s.
Definition ListTenancyConnectorsUnscoped `{MapRange, SortSlice} connectorType limit s :=
  listTenancyConnectorsUnscoped connectorType (if limit <=? 0 then 100 else limit) s.

Definition eligible (c : TenancyConnector) : bool :=
  negb (Connector_Disabled c) && negb (bool_decide (Connector_Status c = ConnectorStatusDisconnected)).
Definition take_eligible (limit : Z) (items : list TenancyConnectorWithState) : list TenancyConnectorWithState :=
  let items := filter (λ x, eligible (With_Connector x) = true) items in
  if 0 <? limit then truncate limit items else items.
Definition ListEligibleTenancyConnectors `{MapRange, SortSlice} ctx workspaceID projectID connectorType limit s :=
  items ← listTenancyConnectors ctx workspaceID projectID connectorType (-1) s;
  mret (take_eligible limit items).
Definition ListEligibleTenancyConnectorsUnscoped `{MapRange, SortSlice} connectorType limit s :=
  take_eligible limit (listTenancyConnectorsUnscoped connectorType (-1) s).
Definition ListAllTenancyConnectorsByType `{MapRange, SortSlice} connectorType limit s :=
  ListTenancyConnectorsUnscoped connectorType limit s.

(** ** Kubernetes enrollment *)
Definition enrollment_open (expectedHash : string) (metadata : gmap string any) : bool :=
  match metadata !! "enrollment_token_sha256" with
  | Some (AString currentHash) =>
      bool_decide (TrimSpace currentHash = TrimSpace expectedHash) &&
      bool_decide (metadata !! "enrollment_token_used_at" = None)
  | _ => false
  end.

Definition with_status (status : string) (updatedAt : Z) (c : TenancyConnector) : TenancyConnector :=
  mkConnector (Connector_TenantID c) (Connector_WorkspaceID c) (Connector_ProjectID c) (Connector_ConnectorID c)
    (Connector_Type c) (Connector_DisplayName c) status (Connector_Disabled c)
    (Connector_LifecycleGeneration c) (Connector_SecretProvider c) (Connector_SecretRefID c)
    (Connector_SecretRefVersion c) (Connector_SecretLastRotatedAt c) (Connector_ConfigChecksum c)
    (Connector_LastSyncAt c) (Connector_CreatedAt c) updatedAt.
Definition with_observation (health errorCode errorMessage : string) (metadata : gmap string any)
    (observedAt updatedAt : Z) (st : TenancyConnectorState) : TenancyConnectorState :=
  mkConnState (ConnState_TenantID st) (ConnState_WorkspaceID st) (ConnState_ProjectID st) (ConnState_ConnectorID st)
    health (ConnState_SyncCursor st) (ConnState_LastSuccessfulSyncAt st) errorCode errorMessage metadata observedAt updatedAt.

Definition ClaimKubernetesEnrollmentToken (ctx : Context) (workspaceID projectID connectorID expectedHash : string)
    (updatedMetadata : gmap string any) (status health lastErrorCode lastErrorMessage : string)
    (observedAt updatedAt : Z) (s : ConnectorTables) : result (ConnectorTables * bool) :=
  '(_, _, key) ← scoped_connector_key ctx workspaceID projectID connectorID;
  match connStates s !! key with
  | None => Err ErrNotFound
  | Some state =>
      if negb (enrollment_open expectedHash (ConnState_Metadata state)) then mret (s, false)
      else
        match connectors s !! key with
        | None => Err ErrNotFound
        | Some conn =>
            let state := with_observation (TrimSpace health) (TrimSpace lastErrorCode) (TrimSpace lastErrorMessage)
                           updatedMetadata observedAt updatedAt state in
            mret (with_connector_row key (with_status status updatedAt conn) state s, true)
        end
  end.

(** ** Secrets *)

(** The envelope in canonical form, under the caller's scope. *)
Definition scoped_secret (now : Z) (ctx : Context) (e : TenancyConnectorSecretEnvelope)
    : result TenancyConnectorSecretEnvelope :=
  '(scope, resolved) ← scoped_workspace ctx (Secret_WorkspaceID e);
  NormalizeTenancyConnectorSecretEnvelopeForWrite now
    (stamp_secret (Scope_TenantID scope) resolved (Secret_ProjectID e) (Secret_ConnectorID e) (Secret_SecretName e) e).
Definition secret_connector_key (e : TenancyConnectorSecretEnvelope) : string :=
  tenancyConnectorKey (Secret_TenantID e) (Secret_WorkspaceID e) (Secret_ProjectID e) (Secret_ConnectorID e).

(** The lifecycle fence of the [AtGeneration] methods. *)
Definition at_generation (key : string) (expectedGeneration : Z) (s : ConnectorTables) : result unit :=
  match connectors s !! key with
  | None => Err ErrNotFound
  | Some c => guard_err (bool_decide (Connector_LifecycleGeneration c = expectedGeneration) && eligible c) ErrConflict
  end.
Definition connector_exists (key : string) (s : ConnectorTables) : result unit :=
  guard_err (bool_decide (is_Some (connectors s !! key))) ErrNotFound.

(** Keep an existing envelope, or store the new one. *)
Definition create_secret (e : TenancyConnectorSecretEnvelope) (s : ConnectorTables)
    : ConnectorTables * (TenancyConnectorSecretEnvelope * bool) :=
  match connSecrets s !! secret_key e with
  | Some existing => (s, (existing, false))
  | None => (with_connSecrets (<[secret_key e := e]> (connSecrets s)) s, (e, true))
  end.

Definition CreateTenancyConnectorSecretEnvelopeIfAbsent (now : Z) (ctx : Context) (envelope : TenancyConnectorSecretEnvelope)
    (s : ConnectorTables) : result (ConnectorTables * (TenancyConnectorSecretEnvelope * bool)) :=
  e ← scoped_secret now ctx envelope;
  _ ← connector_exists (secret_connector_key e) s;
  mret (create_secret e s).
Definition CreateTenancyConnectorSecretEnvelopeIfAbsentAtGeneration (now : Z) (ctx : Context)
    (envelope : TenancyConnectorSecretEnvelope) (expectedGeneration : Z) (s : ConnectorTables)
    : result (ConnectorTables * (TenancyConnectorSecretEnvelope * bool)) :=
  e ← scoped_secret now ctx envelope;
  _ ← at_generation (secret_connector_key e) expectedGeneration s;
  mret (create_secret e s).

Definition UpsertTenancyConnectorSecretEnvelopeAtGeneration (now : Z) (ctx : Context)
    (envelope : TenancyConnectorSecretEnvelope) (expectedGeneration : Z) (s : ConnectorTables) : result ConnectorTables :=
  e ← scoped_secret now ctx envelope;
  _ ← at_generation (secret_connector_key e) expectedGeneration s;
  mret (with_connSecrets (<[secret_key e := e]> (connSecrets s)) s).

Definition keep_secret_created (existing e : TenancyConnectorSecretEnvelope) : TenancyConnectorSecretEnvelope :=
  mkSecret (Secret_TenantID e) (Secret_WorkspaceID e) (Secret_ProjectID e) (Secret_ConnectorID e) (Secret_SecretName e)
    (Secret_EnvelopeVersion e) (Secret_Envelope e) (Secret_SecretRefID e) (Secret_RotatedAt e) (Secret_RotationDueAt e)
    (Secret_CreatedAt existing) (Secret_UpdatedAt e).
Definition UpsertTenancyConnectorSecretEnvelope (now : Z) (ctx : Context) (envelope : TenancyConnectorSecretEnvelope)
    (s : ConnectorTables) : result ConnectorTables :=
  e ← scoped_secret now ctx envelope;
  _ ← connector_exists (secret_connector_key e) s;
  let e := match connSecrets s !! secret_key e with Some existing => keep_secret_created existing e | None => e end in
  mret (with_connSecrets (<[secret_key e := e]> (connSecrets s)) s).

Definition scoped_secret_key (ctx : Context) (workspaceID projectID connectorID secretName : string) : result string :=
  '(scope, resolved) ← scoped_workspace ctx workspaceID;
  mret (tenancyConnectorSecretKey (Scope_TenantID scope) resolved (TrimSpace projectID) (TrimSpace connectorID)
          (TrimSpace secretName)).

Definition DeleteTenancyConnectorSecretEnvelopeAtGeneration (ctx : Context)
    (workspaceID projectID connectorID secretName : string) (expectedGeneration : Z) (s : ConnectorTables)
    : result ConnectorTables :=
  '(_, _, key) ← scoped_connector_key ctx workspaceID projectID connectorID;
  _ ← at_generation key expectedGeneration s;
  secretKey ← scoped_secret_key ctx workspaceID projectID connectorID secretName;
  mret (with_connSecrets (delete secretKey (connSecrets s)) s).

Definition GetTenancyConnectorSecretEnvelope (ctx : Context) (workspaceID projectID connectorID secretName : string)
    (s : ConnectorTables) : result TenancyConnectorSecretEnvelope :=
  key ← scoped_secret_key ctx workspaceID projectID connectorID secretName;
  match connSecrets s !! key with
  | None => Err ErrNotFound
  | Some secret => mret secret
  end.

Definition DeleteTenancyConnectorSecretEnvelope (ctx : Context) (workspaceID projectID connectorID secretName : string)
    (s : ConnectorTables) : result ConnectorTables :=
  key ← scoped_secret_key ctx workspaceID projectID connectorID secretName;
  _ ← guard_err (bool_decide (is_Some (connSecrets s !! key))) ErrNotFound;
  mret (with_connSecrets (delete key (connSecrets s)) s).

(** ** The lifecycle (connector_lifecycle.go) *)
Definition connectorLifecycleNow (clock now : Z) : Z := or_time now clock.

Definition controlled_by (tenantID workspaceID projectID connectorID : string) (r : AWSOrganizationRollout) : bool :=
  bool_decide (OrgRollout_TenantID r = tenantID) && bool_decide (OrgRollout_WorkspaceID r = workspaceID) &&
  bool_decide (OrgRollout_ProjectID r = projectID) && bool_decide (OrgRollout_ControllingConnectorID r = connectorID).

Definition cancel_rollout (now : Z) (r : AWSOrganizationRollout) : AWSOrganizationRollout :=
  with_rollout_outcome AWSOrganizationRolloutStatusCanceled "controlling_connector_lifecycle_changed"
    "The controlling AWS connector was paused or disconnected." now (wrap64 (OrgRollout_Version r + 1)) r.
Definition cancelAWSOrganizationRolloutsLocked (tenantID workspaceID projectID connectorID : string) (now : Z)
    (s : ConnectorTables) : ConnectorTables :=
  with_awsOrgRollouts
    ((λ r, if controlled_by tenantID workspaceID projectID connectorID r &&
              awsOrganizationRolloutCancelableOnLifecycleChange (OrgRollout_Status r)
           then cancel_rollout now r else r) <$> awsOrgRollouts s) s.

(** The connector after a lifecycle decision: the next generation. *)
Definition with_lifecycle (status : string) (disabled : bool) (now : Z) (c : TenancyConnector) : TenancyConnector :=
  mkConnector (Connector_TenantID c) (Connector_WorkspaceID c) (Connector_ProjectID c) (Connector_ConnectorID c)
    (Connector_Type c) (Connector_DisplayName c) status disabled (wrap64 (Connector_LifecycleGeneration c + 1))
    (Connector_SecretProvider c) (Connector_SecretRefID c) (Connector_SecretRefVersion c)
    (Connector_SecretLastRotatedAt c) (Connector_ConfigChecksum c) (Connector_LastSyncAt c) (Connector_CreatedAt c) now.

Definition disconnected_metadata (now : Z) (m : gmap string any) : gmap string any :=
  delete "external_id"
    (<["external_id_configured" := ABool false]> (<["cleanup_required" := ABool true]>
      (<["cleanup_status" := AString "pending"]> (<["lifecycle_at" := AString (Format_RFC3339Nano now)]>
        (<["lifecycle_state" := AString "disconnected"]> m))))).

Definition DisconnectTenancyConnector (clock : Z) (ctx : Context) (workspaceID projectID connectorID : string) (now : Z)
    (s : ConnectorTables) : result (ConnectorTables * TenancyConnectorWithState) :=
  '(scope, resolved, key) ← scoped_connector_key ctx workspaceID projectID connectorID;
  match connectors s !! key with
  | None => Err ErrNotFound
  | Some connector =>
      let now := connectorLifecycleNow clock now in
      let cancel := cancelAWSOrganizationRolloutsLocked (Scope_TenantID scope) resolved (TrimSpace projectID)
                      (TrimSpace connectorID) now in
      let state := state_of key s in
      if decide (Connector_Status connector = ConnectorStatusDisconnected)
      then mret (cancel s, mkWithState connector state)
      else
        let connector := with_lifecycle ConnectorStatusDisconnected false now connector in
        let state := with_observation "error" "connector_disconnected" "Connector disconnected by an operator."
                       (disconnected_metadata now (ConnState_Metadata state)) now now state in
        let s := with_connector_row key connector state s in
        let s := with_connSecrets (filter (λ '(secretKey, _), HasPrefix secretKey key = false) (connSecrets s)) s in
        mret (cancel s, mkWithState connector state)
  end.

Definition lifecycle_metadata (action : string) (now : Z) (m : gmap string any) : gmap string any :=
  <["lifecycle_at" := AString (Format_RFC3339Nano now)]> (<["lifecycle_state" := AString action]> m).

Definition SetTenancyConnectorDisabled (clock : Z) (ctx : Context) (workspaceID projectID connectorID : string)
    (disabled : bool) (now : Z) (s : ConnectorTables) : result (ConnectorTables * TenancyConnectorWithState) :=
  '(scope, resolved, key) ← scoped_connector_key ctx workspaceID projectID connectorID;
  match connectors s !! key with
  | None => Err ErrNotFound
  | Some connector =>
      let now := connectorLifecycleNow clock now in
      let cancel := λ s, if disabled : bool
        then cancelAWSOrganizationRolloutsLocked (Scope_TenantID scope) resolved (TrimSpace projectID)
               (TrimSpace connectorID) now s
        else s in
      let state := state_of key s in
      _ ← guard_err (negb (bool_decide (Connector_Status connector = ConnectorStatusDisconnected))) ErrConflict;
      if decide (Connector_Disabled connector = disabled) then mret (cancel s, mkWithState connector state)
      else
        let connector := with_lifecycle (Connector_Status connector) disabled now connector in
        let action := if disabled then "disabled" else "enabled" in
        let state := with_observation (ConnState_HealthStatus state) (ConnState_LastErrorCode state)
                       (ConnState_LastErrorMessage state) (lifecycle_metadata action now (ConnState_Metadata state))
                       now now state in
        mret (cancel (with_connector_row key connector state s), mkWithState connector state)
  end.
