(* ===== verification/AwsRollouts.v ===== *)
(** * AWS organization rollouts (internal/db/memory_aws_organization_rollout.go)

    A rollout covers the accounts of an AWS organization on behalf of one
    connector; each of its targets (account and region) has its own state.  The
    methods of [MemoryStore], then the transition system they form with the
    connector methods: one active rollout per connector, rollouts fenced by the
    connector's lifecycle generation, targets that are only promoted. *)
From S2P Require Import Prelude GoStrings GoCollections GoTime Runs Scope AuthzRecords TenancyRecords Tenancy ScanDomain SecretStore ConnectorRecords Connectors.

(** ** Rollouts *)
Definition rollout_connector_key (r : AWSOrganizationRollout) : string :=
  tenancyConnectorKey (OrgRollout_TenantID r) (OrgRollout_WorkspaceID r) (OrgRollout_ProjectID r)
    (OrgRollout_ControllingConnectorID r).

(** The controlling connector accepts the rollout's generation. *)
Definition connector_accepts (r : AWSOrganizationRollout) (c : TenancyConnector) : bool :=
  bool_decide (Connector_Type c = ConnectorTypeAWS) && negb (Connector_Disabled c) &&
  bool_decide (Connector_Status c = ConnectorStatusActive) &&
  bool_decide (Connector_LifecycleGeneration c = OrgRollout_LifecycleGeneration r).

(** Two rollouts of one connector. *)
Definition same_connector (r r' : AWSOrganizationRollout) : bool :=
  controlled_by (OrgRollout_TenantID r) (OrgRollout_WorkspaceID r) (OrgRollout_ProjectID r)
    (OrgRollout_ControllingConnectorID r) r'.
(** Another rollout than [id] that is active for the connector of [r]. *)
Definition active_rival (id : option string) (r : AWSOrganizationRollout) (s : ConnectorTables) : bool :=
  bool_decide (map_Exists (λ id' r', id ≠ Some id' ∧ same_connector r r' = true ∧
                                     awsOrganizationRolloutActive (OrgRollout_Status r') = true) (awsOrgRollouts s)).

Definition put_rollout (r : AWSOrganizationRollout) (s : ConnectorTables) : ConnectorTables :=
  with_awsOrgRollouts (<[OrgRollout_RolloutID r := r]> (awsOrgRollouts s)) s.

Definition CreateAWSOrganizationRollout (now : Z) (ctx : Context) (rollout : AWSOrganizationRollout) (s : ConnectorTables)
    : result (ConnectorTables * AWSOrganizationRollout) :=
  r ← normalizeAWSOrganizationRollout now ctx rollout;
  _ ← guard_err (bool_decide (awsOrgRollouts s !! OrgRollout_RolloutID r = None)) ErrConflict;
  match connectors s !! rollout_connector_key r with
  | None => Err ErrNotFound
  | Some connector =>
      _ ← guard_err (connector_accepts r connector) ErrConflict;
      _ ← guard_err (negb (active_rival None r s)) ErrConflict;
      mret (put_rollout r s, r)
  end.

Definition GetAWSOrganizationRollout (ctx : Context) (workspaceID projectID rolloutID : string) (s : ConnectorTables)
    : result AWSOrganizationRollout :=
  '(scope, resolved) ← scoped_workspace ctx workspaceID;
  match awsOrgRollouts s !! TrimSpace rolloutID with
  | None => Err ErrNotFound
  | Some rollout =>
      _ ← guard_err (bool_decide (OrgRollout_TenantID rollout = Scope_TenantID scope) &&
                     bool_decide (OrgRollout_WorkspaceID rollout = resolved) &&
                     bool_decide (OrgRollout_ProjectID rollout = TrimSpace projectID)) ErrNotFound;
      mret rollout
  end.

Definition GetAWSOrganizationRolloutAnyScope (rolloutID : string) (s : ConnectorTables) : result AWSOrganizationRollout :=
  match awsOrgRollouts s !! TrimSpace rolloutID with
  | None => Err ErrNotFound
  | Some rollout => mret rollout
  end.

Definition effective_limit (limit : Z) : Z := if (limit <=? 0) || (200 <? limit) then 50 else limit.

Definition ListAWSOrganizationRollouts `{MapRange, SortSlice} (ctx : Context) (workspaceID projectID connectorID : string)
    (limit : Z) (s : ConnectorTables) : result (list AWSOrganizationRollout) :=
  '(scope, resolved) ← scoped_workspace ctx workspaceID;
  let selected r :=
    bool_decide (OrgRollout_TenantID r = Scope_TenantID scope) && bool_decide (OrgRollout_WorkspaceID r = resolved) &&
    bool_decide (OrgRollout_ProjectID r = TrimSpace projectID) &&
    (bool_decide (TrimSpace connectorID = "") ||
     bool_decide (OrgRollout_ControllingConnectorID r = TrimSpace connectorID)) in
  mret (truncate (effective_limit limit)
    (sort_slice (λ l r, After (OrgRollout_CreatedAt l) (OrgRollout_CreatedAt r))
       (filter (λ r, selected r = true) (map_range (awsOrgRollouts s)).*2))).

(** The loop over the rows that keeps the newest monitored rollout of each
    connector. *)
Definition newer_rollout (r latest : AWSOrganizationRollout) : bool :=
  After (OrgRollout_CreatedAt r) (OrgRollout_CreatedAt latest) ||
  (OrgRollout_CreatedAt r =? OrgRollout_CreatedAt latest) &&
  str_ltb (OrgRollout_RolloutID latest) (OrgRollout_RolloutID r).
Definition keep_latest (latest : gmap string AWSOrganizationRollout) (r : AWSOrganizationRollout)
    : gmap string AWSOrganizationRollout :=
  if awsOrganizationRolloutMonitored (OrgRollout_Status r) then
    match latest !! rollout_connector_key r with
    | Some l => if newer_rollout r l then <[rollout_connector_key r := r]> latest else latest
    | None => <[rollout_connector_key r := r]> latest
    end
  else latest.
Definition ListMonitoredAWSOrganizationRollouts `{MapRange, SortSlice} (limit : Z) (s : ConnectorTables)
    : list AWSOrganizationRollout :=
  let latestByConnector := foldl keep_latest ∅ (map_range (awsOrgRollouts s)).*2 in
  truncate (effective_limit limit)
    (sort_slice (λ l r, Before (OrgRollout_UpdatedAt l) (OrgRollout_UpdatedAt r)) (map_range latestByConnector).*2).

Definition UpdateAWSOrganizationRollout (now : Z) (ctx : Context) (rollout : AWSOrganizationRollout) (expectedVersion : Z)
    (s : ConnectorTables) : result (ConnectorTables * AWSOrganizationRollout) :=
  normalized ← normalizeAWSOrganizationRollout now ctx rollout;
  match awsOrgRollouts s !! OrgRollout_RolloutID normalized with
  | None => Err ErrNotFound
  | Some existing =>
      _ ← guard_err (same_connector normalized existing) ErrNotFound;
      _ ← guard_err (OrgRollout_Version existing =? expectedVersion) ErrConflict;
      let normalized := with_rollout_generation (OrgRollout_LifecycleGeneration existing) normalized in
      _ ← guard_err
            (negb (awsOrganizationRolloutTargetMutationAllowed (OrgRollout_Status normalized)) ||
             match connectors s !! rollout_connector_key existing with
             | None => false
             | Some connector => connector_accepts existing connector
             end) ErrConflict;
      _ ← guard_err
            (negb (awsOrganizationRolloutActive (OrgRollout_Status normalized) &&
                   active_rival (Some (OrgRollout_RolloutID normalized)) normalized s)) ErrConflict;
      let normalized := with_rollout_times (OrgRollout_CreatedAt existing) (OrgRollout_UpdatedAt normalized)
                          (wrap64 (OrgRollout_Version existing + 1)) normalized in
      mret (put_rollout normalized s, normalized)
  end.

(** ** Targets *)
Definition awsOrganizationRolloutTargetKey (rolloutID accountID region : string) : string :=
  rolloutID +:+ String "000"%char (accountID +:+ String "000"%char region).
Definition target_key (t : AWSOrganizationRolloutTarget) : string :=
  awsOrganizationRolloutTargetKey (OrgTarget_RolloutID t) (OrgTarget_AccountID t) (OrgTarget_Region t).
Definition put_target (t : AWSOrganizationRolloutTarget) (s : ConnectorTables) : ConnectorTables :=
  with_awsOrgRolloutTargets (<[target_key t := t]> (awsOrgRolloutTargets s)) s.

(** [if x == "" { x = existing }]. *)
Definition or_str (x existing : string) : string := if decide (x = "") then existing else x.
Definition or_opt {A} (x existing : option A) : option A := match x with None => existing | _ => x end.

(** The target's new row: its identity and outcome from [t], the evidence [t]
    does not carry from [existing]. *)
Definition merge_target (t existing : AWSOrganizationRolloutTarget) (state code message : string) (retryable : bool)
    (lastTransitionAt : Z) (lastValidationAt : option Z) (now : Z) : AWSOrganizationRolloutTarget :=
  mkOrgTarget (OrgTarget_RolloutID t) (OrgTarget_AccountID t) (OrgTarget_Region t) (OrgTarget_TenantID t)
    (OrgTarget_WorkspaceID t) (OrgTarget_ProjectID t) (or_str (OrgTarget_AccountName t) (OrgTarget_AccountName existing))
    (or_str (OrgTarget_OUPath t) (OrgTarget_OUPath existing)) (OrgTarget_IsManagement t) state
    (or_str (OrgTarget_StackInstanceID t) (OrgTarget_StackInstanceID existing))
    (or_str (OrgTarget_StackID t) (OrgTarget_StackID existing)) (or_str (OrgTarget_RoleARN t) (OrgTarget_RoleARN existing))
    code message retryable (or_str (OrgTarget_EvidenceRef t) (OrgTarget_EvidenceRef existing))
    (or_str (OrgTarget_RegisterRequestID t) (OrgTarget_RegisterRequestID existing)) lastTransitionAt lastValidationAt
    (OrgTarget_CreatedAt existing) now (wrap64 (OrgTarget_Version existing + 1)).

Definition updated_target (now : Z) (existing t : AWSOrganizationRolloutTarget) : AWSOrganizationRolloutTarget :=
  let '(state, lastTransitionAt) :=
    if negb (awsOrganizationRolloutTargetStateAdvances (OrgTarget_State existing) (OrgTarget_State t))
    then (OrgTarget_State existing, OrgTarget_LastTransitionAt existing)
    else if decide (OrgTarget_State t ≠ OrgTarget_State existing)
    then (OrgTarget_State t, or_time (OrgTarget_LastTransitionAt t) now)
    else (OrgTarget_State t, or_time (OrgTarget_LastTransitionAt t) (OrgTarget_LastTransitionAt existing)) in
  merge_target t existing state (OrgTarget_FailureCode t) (OrgTarget_FailureMessage t) (OrgTarget_Retryable t)
    lastTransitionAt (or_opt (OrgTarget_LastValidationAt t) (OrgTarget_LastValidationAt existing)) now.

Definition new_target (now : Z) (t : AWSOrganizationRolloutTarget) : AWSOrganizationRolloutTarget :=
  mkOrgTarget (OrgTarget_RolloutID t) (OrgTarget_AccountID t) (OrgTarget_Region t) (OrgTarget_TenantID t)
    (OrgTarget_WorkspaceID t) (OrgTarget_ProjectID t) (OrgTarget_AccountName t) (OrgTarget_OUPath t)
    (OrgTarget_IsManagement t) (OrgTarget_State t) (OrgTarget_StackInstanceID t) (OrgTarget_StackID t)
    (OrgTarget_RoleARN t) (OrgTarget_FailureCode t) (OrgTarget_FailureMessage t) (OrgTarget_Retryable t)
    (OrgTarget_EvidenceRef t) (OrgTarget_RegisterRequestID t) (or_time (OrgTarget_LastTransitionAt t) now)
    (OrgTarget_LastValidationAt t) (or_time (OrgTarget_CreatedAt t) now) now 1.

(** The parent rollout of a target, in the target's tenant, workspace and project. *)
Definition parent_rollout (t : AWSOrganizationRolloutTarget) (s : ConnectorTables) : result AWSOrganizationRollout :=
  match awsOrgRollouts s !! OrgTarget_RolloutID t with
  | None => Err ErrNotFound
  | Some parent =>
      _ ← guard_err (bool_decide (OrgRollout_TenantID parent = OrgTarget_TenantID t) &&
                     bool_decide (OrgRollout_WorkspaceID parent = OrgTarget_WorkspaceID t) &&
                     bool_decide (OrgRollout_ProjectID parent = OrgTarget_ProjectID t)) ErrNotFound;
      mret parent
  end.
(** The parent's connector must still accept it. *)
Definition parent_accepted (parent : AWSOrganizationRollout) (s : ConnectorTables) : result unit :=
  guard_err (match connectors s !! rollout_connector_key parent with
             | None => false
             | Some connector => connector_accepts parent connector
             end) ErrConflict.

Definition UpsertAWSOrganizationRolloutTarget (now : Z) (ctx : Context) (target : AWSOrganizationRolloutTarget)
    (s : ConnectorTables) : result (ConnectorTables * AWSOrganizationRolloutTarget) :=
  normalized ← normalizeAWSOrganizationRolloutTarget ctx target;
  parent ← parent_rollout normalized s;
  _ ← guard_err (awsOrganizationRolloutTargetMutationAllowed (OrgRollout_Status parent)) ErrConflict;
  _ ← parent_accepted parent s;
  let t := match awsOrgRolloutTargets s !! target_key normalized with
           | Some existing => updated_target now existing normalized
           | None => new_target now normalized
           end in
  mret (put_target t s, t).

Definition ResetAWSOrganizationRolloutTarget (now : Z) (ctx : Context) (target : AWSOrganizationRolloutTarget)
    (expectedVersion : Z) (s : ConnectorTables) : result (ConnectorTables * AWSOrganizationRolloutTarget) :=
  normalized ← normalizeAWSOrganizationRolloutTarget ctx target;
  parent ← parent_rollout normalized s;
  _ ← guard_err (awsOrganizationRolloutRetryableStatus (OrgRollout_Status parent) &&
                 Before now (OrgRollout_ExpiresAt parent)) ErrConflict;
  _ ← parent_accepted parent s;
  match awsOrgRolloutTargets s !! target_key normalized with
  | None => Err ErrNotFound
  | Some existing =>
      _ ← guard_err ((OrgTarget_Version existing =? expectedVersion) && OrgTarget_Retryable existing &&
                     bool_decide (OrgTarget_State existing ∈ [AWSOrganizationRolloutTargetFailed;
                                                             AWSOrganizationRolloutTargetPartial])) ErrConflict;
      let state := if bool_decide (OrgTarget_RoleARN normalized ≠ "") || bool_decide (OrgTarget_RoleARN existing ≠ "")
                   then AWSOrganizationRolloutTargetValidating else AWSOrganizationRolloutTargetPending in
      let t := merge_target normalized existing state "" "" true now (OrgTarget_LastValidationAt existing) now in
      mret (put_target t s, t)
  end.

Definition GetAWSOrganizationRolloutTarget (rolloutID accountID region : string) (s : ConnectorTables)
    : result AWSOrganizationRolloutTarget :=
  match awsOrgRolloutTargets s !! awsOrganizationRolloutTargetKey (TrimSpace rolloutID) (TrimSpace accountID) (canon region) with
  | None => Err ErrNotFound
  | Some target => mret target
  end.

Definition target_less (l r : AWSOrganizationRolloutTarget) : bool :=
  if decide (OrgTarget_AccountID l = OrgTarget_AccountID r) then str_ltb (OrgTarget_Region l) (OrgTarget_Region r)
  else str_ltb (OrgTarget_AccountID l) (OrgTarget_AccountID r).

Definition ListAWSOrganizationRolloutTargets `{MapRange, SortSlice} (ctx : Context)
    (workspaceID projectID rolloutID : string) (s : ConnectorTables) : result (list AWSOrganizationRolloutTarget) :=
  rollout ← GetAWSOrganizationRollout ctx workspaceID projectID rolloutID s;
  mret (sort_slice target_less
    (filter (λ t, OrgTarget_RolloutID t = OrgRollout_RolloutID rollout) (map_range (awsOrgRolloutTargets s)).*2)).
