(* ===== verification/AwsOnboarding.v ===== *)
(** * AWS onboarding attempts (internal/db/memory_aws_onboarding.go)

    An attempt is the registration contract of one CloudFormation launch for a
    connector.  The methods of [MemoryStore] over [awsOnboardingAttempts]; at
    most one attempt of a connector is active. *)
From S2P Require Import Prelude GoStrings GoCollections GoTime Runs Scope AuthzRecords TenancyRecords Tenancy ScanDomain SecretStore ConnectorRecords.

Definition attempt_connector_key (a : AWSConnectorOnboardingAttempt) : string :=
  tenancyConnectorKey (Attempt_TenantID a) (Attempt_WorkspaceID a) (Attempt_ProjectID a) (Attempt_ConnectorID a).

Definition attempt_of (tenantID workspaceID projectID connectorID : string) (a : AWSConnectorOnboardingAttempt) : bool :=
  bool_decide (Attempt_TenantID a = tenantID) && bool_decide (Attempt_WorkspaceID a = workspaceID) &&
  bool_decide (Attempt_ProjectID a = projectID) && bool_decide (Attempt_ConnectorID a = connectorID).
(** Two attempts for one connector. *)
Definition same_attempt_connector (a a' : AWSConnectorOnboardingAttempt) : bool :=
  attempt_of (Attempt_TenantID a) (Attempt_WorkspaceID a) (Attempt_ProjectID a) (Attempt_ConnectorID a) a'.
(** Another attempt than [id] that is active for the connector of [a]. *)
Definition active_attempt_rival (id : option string) (a : AWSConnectorOnboardingAttempt) (s : ConnectorTables) : bool :=
  bool_decide (map_Exists (λ id' a', id ≠ Some id' ∧ same_attempt_connector a a' = true ∧
                                     awsOnboardingAttemptActive (Attempt_Status a') = true) (awsOnboardingAttempts s)).

Definition put_attempt (a : AWSConnectorOnboardingAttempt) (s : ConnectorTables) : ConnectorTables :=
  with_awsOnboardingAttempts (<[Attempt_AttemptID a := a]> (awsOnboardingAttempts s)) s.

Definition CreateAWSConnectorOnboardingAttempt (now : Z) (ctx : Context) (attempt : AWSConnectorOnboardingAttempt)
    (s : ConnectorTables) : result (ConnectorTables * AWSConnectorOnboardingAttempt) :=
  a ← normalizeAWSConnectorOnboardingAttempt now ctx attempt;
  _ ← guard_err (bool_decide (awsOnboardingAttempts s !! Attempt_AttemptID a = None)) ErrConflict;
  _ ← guard_err (bool_decide (is_Some (connectors s !! attempt_connector_key a))) ErrNotFound;
  _ ← guard_err (negb (active_attempt_rival None a s)) ErrConflict;
  mret (put_attempt a s, a).

Definition GetAWSConnectorOnboardingAttempt (ctx : Context) (workspaceID projectID attemptID : string)
    (s : ConnectorTables) : result AWSConnectorOnboardingAttempt :=
  '(scope, resolved) ← scoped_workspace ctx workspaceID;
  match awsOnboardingAttempts s !! TrimSpace attemptID with
  | None => Err ErrNotFound
  | Some a =>
      _ ← guard_err (bool_decide (Attempt_TenantID a = Scope_TenantID scope) &&
                     bool_decide (Attempt_WorkspaceID a = resolved) &&
                     bool_decide (Attempt_ProjectID a = TrimSpace projectID)) ErrNotFound;
      mret a
  end.

Definition GetAWSConnectorOnboardingAttemptAnyScope (attemptID : string) (s : ConnectorTables)
    : result AWSConnectorOnboardingAttempt :=
  match awsOnboardingAttempts s !! TrimSpace attemptID with
  | None => Err ErrNotFound
  | Some a => mret a
  end.

(** The loop that keeps the newest selected attempt; [newest.AttemptID == ""]
    is no attempt yet. *)
Definition keep_newest (selected : AWSConnectorOnboardingAttempt → bool)
    (newer : AWSConnectorOnboardingAttempt → AWSConnectorOnboardingAttempt → bool)
    (newest : option AWSConnectorOnboardingAttempt) (a : AWSConnectorOnboardingAttempt)
    : option AWSConnectorOnboardingAttempt :=
  if selected a then
    match newest with
    | None => Some a
    | Some n => if bool_decide (Attempt_AttemptID n = "") || newer a n then Some a else newest
    end
  else newest.
Definition newest_attempt `{MapRange} selected newer (s : ConnectorTables) : result AWSConnectorOnboardingAttempt :=
  match foldl (keep_newest selected newer) None (map_range (awsOnboardingAttempts s)).*2 with
  | Some n => if decide (Attempt_AttemptID n = "") then Err ErrNotFound else mret n
  | None => Err ErrNotFound
  end.

Definition created_later (a n : AWSConnectorOnboardingAttempt) : bool := After (Attempt_CreatedAt a) (Attempt_CreatedAt n).
Definition later (a n : AWSConnectorOnboardingAttempt) : bool :=
  created_later a n || (Attempt_CreatedAt a =? Attempt_CreatedAt n) && After (Attempt_UpdatedAt a) (Attempt_UpdatedAt n).

Definition GetActiveAWSConnectorOnboardingAttempt `{MapRange} (ctx : Context) (workspaceID projectID connectorID : string)
    (s : ConnectorTables) : result AWSConnectorOnboardingAttempt :=
  '(scope, resolved) ← scoped_workspace ctx workspaceID;
  newest_attempt (λ a, attempt_of (Scope_TenantID scope) resolved (TrimSpace projectID) (TrimSpace connectorID) a &&
                       awsOnboardingAttemptActive (Attempt_Status a)) created_later s.

Definition GetLatestAWSConnectorOnboardingAttempt `{MapRange} (ctx : Context) (workspaceID projectID connectorID : string)
    (s : ConnectorTables) : result AWSConnectorOnboardingAttempt :=
  '(scope, resolved) ← scoped_workspace ctx workspaceID;
  newest_attempt (attempt_of (Scope_TenantID scope) resolved (TrimSpace projectID) (TrimSpace connectorID)) later s.

Definition GetLatestResumableAWSConnectorOnboardingAttempt `{MapRange} (ctx : Context)
    (workspaceID projectID connectorID providerTopicARN region : string) (s : ConnectorTables)
    : result AWSConnectorOnboardingAttempt :=
  '(scope, resolved) ← scoped_workspace ctx workspaceID;
  newest_attempt (λ a, attempt_of (Scope_TenantID scope) resolved (TrimSpace projectID) (TrimSpace connectorID) a &&
                       bool_decide (Attempt_ProviderTopicARN a = TrimSpace providerTopicARN) &&
                       bool_decide (Attempt_DeploymentRegion a = canon region) && awsOnboardingAttemptHasBoundStack a)
    later s.

Definition UpdateAWSConnectorOnboardingAttempt (now : Z) (ctx : Context) (attempt : AWSConnectorOnboardingAttempt)
    (expectedVersion : Z) (s : ConnectorTables) : result (ConnectorTables * AWSConnectorOnboardingAttempt) :=
  normalized ← normalizeAWSConnectorOnboardingAttempt now ctx attempt;
  match awsOnboardingAttempts s !! Attempt_AttemptID normalized with
  | None => Err ErrNotFound
  | Some existing =>
      _ ← guard_err (same_attempt_connector normalized existing) ErrNotFound;
      _ ← guard_err (Attempt_Version existing =? expectedVersion) ErrConflict;
      _ ← guard_err (negb (awsOnboardingAttemptActive (Attempt_Status normalized) &&
                           active_attempt_rival (Some (Attempt_AttemptID normalized)) normalized s)) ErrConflict;
      let normalized := with_attempt_times (Attempt_CreatedAt existing) (Attempt_UpdatedAt normalized)
                          (wrap64 (Attempt_Version existing + 1)) normalized in
      mret (put_attempt normalized s, normalized)
  end.
