(* ===== verification/ConnectorLifecycle.v ===== *)
(** * Connectors, rollouts and attempts as a transition system

    Every call of Connectors, AwsRollouts and AwsOnboarding that writes is a
    [connector_op]; a failed call leaves the tables as they are.  Each
    successful call is classified by its [effect] on the tables, and the
    theorems are proved over the effects: stale writers are fenced by the
    connector's lifecycle generation, a shut down connector freezes its
    rollouts for good, and the tables keep their invariant. *)
From S2P Require Import Prelude GoStrings GoCollections GoTime Runs Scope AuthzRecords TenancyRecords Tenancy ScanDomain SecretStore ConnectorRecords Connectors AwsRollouts AwsOnboarding.

Inductive connector_op :=
| OpCreateConnector (d : DirectoryState) (now : Z) (ctx : Context) (c : TenancyConnector) (st : TenancyConnectorState)
    (e : TenancyConnectorSecretEnvelope)
| OpUpsertConnector (d : DirectoryState) (now : Z) (ctx : Context) (c : TenancyConnector) (st : TenancyConnectorState)
| OpUpsertConnectorSecret (d : DirectoryState) (now : Z) (ctx : Context) (c : TenancyConnector)
    (st : TenancyConnectorState) (name : string) (e : option TenancyConnectorSecretEnvelope)
| OpClaimEnrollment (ctx : Context) (w p c hash : string) (metadata : gmap string any)
    (status health code message : string) (observedAt updatedAt : Z)
| OpCreateSecret (now : Z) (ctx : Context) (e : TenancyConnectorSecretEnvelope)
| OpCreateSecretAt (now : Z) (ctx : Context) (e : TenancyConnectorSecretEnvelope) (generation : Z)
| OpUpsertSecret (now : Z) (ctx : Context) (e : TenancyConnectorSecretEnvelope)
| OpUpsertSecretAt (now : Z) (ctx : Context) (e : TenancyConnectorSecretEnvelope) (generation : Z)
| OpDeleteSecret (ctx : Context) (w p c name : string)
| OpDeleteSecretAt (ctx : Context) (w p c name : string) (generation : Z)
| OpDisconnect (clock : Z) (ctx : Context) (w p c : string) (now : Z)
| OpSetDisabled (clock : Z) (ctx : Context) (w p c : string) (disabled : bool) (now : Z)
| OpCreateRollout (now : Z) (ctx : Context) (r : AWSOrganizationRollout)
| OpUpdateRollout (now : Z) (ctx : Context) (r : AWSOrganizationRollout) (version : Z)
| OpUpsertTarget (now : Z) (ctx : Context) (t : AWSOrganizationRolloutTarget)
| OpResetTarget (now : Z) (ctx : Context) (t : AWSOrganizationRolloutTarget) (version : Z)
| OpCreateAttempt (now : Z) (ctx : Context) (a : AWSConnectorOnboardingAttempt)
| OpUpdateAttempt (now : Z) (ctx : Context) (a : AWSConnectorOnboardingAttempt) (version : Z).

Definition call (op : connector_op) (s : ConnectorTables) : result ConnectorTables :=
  match op with
  | OpCreateConnector d now ctx c st e =>
      fst <$> CreateTenancyConnectorWithSecretEnvelopeIfAbsent d now ctx c st e s
  | OpUpsertConnector d now ctx c st => UpsertTenancyConnector d now ctx c st s
  | OpUpsertConnectorSecret d now ctx c st name e => UpsertTenancyConnectorAndSecretEnvelope d now ctx c st name e s
  | OpClaimEnrollment ctx w p c hash m status health code message observed updated =>
      fst <$> ClaimKubernetesEnrollmentToken ctx w p c hash m status health code message observed updated s
  | OpCreateSecret now ctx e => fst <$> CreateTenancyConnectorSecretEnvelopeIfAbsent now ctx e s
  | OpCreateSecretAt now ctx e g => fst <$> CreateTenancyConnectorSecretEnvelopeIfAbsentAtGeneration now ctx e g s
  | OpUpsertSecret now ctx e => UpsertTenancyConnectorSecretEnvelope now ctx e s
  | OpUpsertSecretAt now ctx e g => UpsertTenancyConnectorSecretEnvelopeAtGeneration now ctx e g s
  | OpDeleteSecret ctx w p c name => DeleteTenancyConnectorSecretEnvelope ctx w p c name s
  | OpDeleteSecretAt ctx w p c name g => DeleteTenancyConnectorSecretEnvelopeAtGeneration ctx w p c name g s
  | OpDisconnect clock ctx w p c now => fst <$> DisconnectTenancyConnector clock ctx w p c now s
  | OpSetDisabled clock ctx w p c b now => fst <$> SetTenancyConnectorDisabled clock ctx w p c b now s
  | OpCreateRollout now ctx r => fst <$> CreateAWSOrganizationRollout now ctx r s
  | OpUpdateRollout now ctx r v => fst <$> UpdateAWSOrganizationRollout now ctx r v s
  | OpUpsertTarget now ctx t => fst <$> UpsertAWSOrganizationRolloutTarget now ctx t s
  | OpResetTarget now ctx t v => fst <$> ResetAWSOrganizationRolloutTarget now ctx t v s
  | OpCreateAttempt now ctx a => fst <$> CreateAWSConnectorOnboardingAttempt now ctx a s
  | OpUpdateAttempt now ctx a v => fst <$> UpdateAWSConnectorOnboardingAttempt now ctx a v s
  end.
Definition connector_step (s : ConnectorTables) (op : connector_op) : ConnectorTables := ok_or s (call op s).

(** ** Effects *)
Notation generation := Connector_LifecycleGeneration.

(** The tables a connector write leaves alone. *)
Definition same_rollouts (s s' : ConnectorTables) : Prop :=
  awsOrgRollouts s' = awsOrgRollouts s ∧ awsOrgRolloutTargets s' = awsOrgRolloutTargets s ∧
  awsOnboardingAttempts s' = awsOnboardingAttempts s.

Inductive effect (s s' : ConnectorTables) : Prop :=
| effect_none : s' = s → effect s s'
| effect_row key c' :
    connectors s' = <[key := c']> (connectors s) →
    (∀ c, connectors s !! key = Some c → generation c' = generation c) →
    same_rollouts s s' → effect s s'
| effect_lifecycle key c s1 status disabled now :
    connectors s !! key = Some c →
    connectors s1 = <[key := with_lifecycle status disabled now c]> (connectors s) → same_rollouts s s1 →
    (s' = s1 ∨ ∃ t w p id now, s' = cancelAWSOrganizationRolloutsLocked t w p id now s1) → effect s s'
| effect_cancel t w p id now : s' = cancelAWSOrganizationRolloutsLocked t w p id now s → effect s s'
| effect_secrets m : s' = with_connSecrets m s → effect s s'
| effect_create r c :
    awsOrgRollouts s !! OrgRollout_RolloutID r = None → connectors s !! rollout_connector_key r = Some c →
    connector_accepts r c = true → active_rival None r s = false → org_rollout_valid r = true →
    0 ≤ OrgRollout_LifecycleGeneration r → s' = put_rollout r s → effect s s'
| effect_update r existing :
    awsOrgRollouts s !! OrgRollout_RolloutID r = Some existing → same_connector r existing = true →
    OrgRollout_LifecycleGeneration r = OrgRollout_LifecycleGeneration existing →
    (awsOrganizationRolloutTargetMutationAllowed (OrgRollout_Status r) = true →
     ∃ c, connectors s !! rollout_connector_key existing = Some c ∧ connector_accepts existing c = true) →
    (awsOrganizationRolloutActive (OrgRollout_Status r) = true →
     active_rival (Some (OrgRollout_RolloutID r)) r s = false) →
    org_rollout_valid r = true → OrgRollout_Version r = wrap64 (OrgRollout_Version existing + 1) →
    s' = put_rollout r s → effect s s'
| effect_target t parent c :
    awsOrgRollouts s !! OrgTarget_RolloutID t = Some parent →
    connectors s !! rollout_connector_key parent = Some c → connector_accepts parent c = true →
    s' = put_target t s → effect s s'
| effect_attempt a :
    attempt_valid a = true →
    (∀ existing, awsOnboardingAttempts s !! Attempt_AttemptID a = Some existing →
       same_attempt_connector a existing = true) →
    (awsOnboardingAttemptActive (Attempt_Status a) = true →
     active_attempt_rival (Some (Attempt_AttemptID a)) a s = false) →
    s' = put_attempt a s → effect s s'.

(** ** Each call has an effect *)
Lemma write_connector_row d z c st s s' :
  write_connector d z c st s = Ok s' →
  (∃ c', connectors s' = <[connector_key c := c']> (connectors s) ∧ connector_key c' = connector_key c ∧
         generation c' = generation c) ∧
  (∀ existing, connectors s !! connector_key c = Some existing → generation existing = generation c) ∧
  same_rollouts s s' ∧ connSecrets s' = connSecrets s.
Proof.
  unfold write_connector. intros H. inv_ok. destruct (connectors s !! connector_key c) as [existing|] eqn:E; inv_ok.
  - boolify. split; [|split; [by intros ? [= <-]|by repeat split]].
    eexists. split_and!; [done|by destruct z|by destruct z].
  - split; [by exists c|split; [done|by repeat split]].
Qed.

Lemma write_connector_effect d z c st s s' m :
  write_connector d z c st s = Ok s' → effect s (with_connSecrets m s').
Proof.
  intros ((c' & Hc' & _ & Hg) & Hold & Hsame & _)%write_connector_row.
  apply (effect_row s _ (connector_key c) c'); [done| |done]. intros c0 Hc0. rewrite Hg. symmetry. by apply Hold.
Qed.

Lemma with_connSecrets_same s : with_connSecrets (connSecrets s) s = s.
Proof. by destruct s. Qed.

Lemma create_connector_effect d now ctx c st e s s' r :
  CreateTenancyConnectorWithSecretEnvelopeIfAbsent d now ctx c st e s = Ok (s', r) → effect s s'.
Proof.
  unfold CreateTenancyConnectorWithSecretEnvelopeIfAbsent. intros H.
  open_bind H [scope resolved] _. open_bind H [c' st'] _. open_bind H e' _.
  destruct (connectors s !! connector_key c') as [existing|] eqn:E; inv_ok; [by apply effect_none|].
  apply (effect_row s _ (connector_key c') c'); [done| |done]. congruence.
Qed.

Lemma claim_effect ctx w p c h m status health code msg o u s s' b :
  ClaimKubernetesEnrollmentToken ctx w p c h m status health code msg o u s = Ok (s', b) → effect s s'.
Proof.
  unfold ClaimKubernetesEnrollmentToken. intros H. open_bind H [[scope resolved] key] _.
  destruct (connStates s !! key) as [st|]; [|done].
  destruct (negb _); inv_ok; [by apply effect_none|].
  destruct (connectors s !! key) as [conn|] eqn:E; inv_ok.
  apply (effect_row s _ key (with_status status u conn)); [done| |done]. rewrite E. by intros ? [= <-].
Qed.

Lemma create_secret_effect e s : effect s (create_secret e s).1.
Proof.
  unfold create_secret. destruct (connSecrets s !! secret_key e); cbn; [by apply effect_none|by eapply effect_secrets].
Qed.

Lemma disconnect_effect clock ctx w p c now s s' r :
  DisconnectTenancyConnector clock ctx w p c now s = Ok (s', r) → effect s s'.
Proof.
  unfold DisconnectTenancyConnector. intros H. open_bind H [[scope resolved] key] _.
  destruct (connectors s !! key) as [conn|] eqn:E; [|done]. case_decide; inv_ok; [by eapply effect_cancel|].
  eapply (effect_lifecycle s _ key conn); [done| | |right; by repeat eexists]; done.
Qed.

Lemma set_disabled_effect clock ctx w p c b now s s' r :
  SetTenancyConnectorDisabled clock ctx w p c b now s = Ok (s', r) → effect s s'.
Proof.
  unfold SetTenancyConnectorDisabled. intros H. open_bind H [[scope resolved] key] _.
  destruct (connectors s !! key) as [conn|] eqn:E; [|done]. open_bind H [] _. case_decide; inv_ok.
  - destruct (Connector_Disabled conn); [by eapply effect_cancel|by apply effect_none].
  - destruct b.
    + eapply (effect_lifecycle s _ key conn); [done| | |right; by repeat eexists]; done.
    + eapply (effect_lifecycle s _ key conn); [done| | |by left]; done.
Qed.

Lemma normalized_rollout now ctx r r' :
  normalizeAWSOrganizationRollout now ctx r = Ok r' →
  org_rollout_valid r' = true ∧ OrgRollout_RolloutID r' = TrimSpace (OrgRollout_RolloutID r) ∧
  0 ≤ OrgRollout_LifecycleGeneration r'.
Proof.
  unfold normalizeAWSOrganizationRollout. intros H. open_bind H [scope resolved] _. inv_ok. boolify.
  split_and!; [done|done|]. cbn in *. lia.
Qed.

Lemma create_rollout_effect now ctx r s s' o :
  CreateAWSOrganizationRollout now ctx r s = Ok (s', o) → effect s s'.
Proof.
  unfold CreateAWSOrganizationRollout. intros H. open_bind H r' Hr'. apply normalized_rollout in Hr' as (Hv & _ & H0).
  open_bind H [] Hfree. destruct (connectors s !! rollout_connector_key r') as [c|] eqn:E; [|done]. inv_ok. boolify.
  by eapply (effect_create s _ o c).
Qed.

Lemma update_rollout_effect now ctx r v s s' o :
  UpdateAWSOrganizationRollout now ctx r v s = Ok (s', o) → effect s s'.
Proof.
  unfold UpdateAWSOrganizationRollout. intros H. open_bind H r' Hr'. apply normalized_rollout in Hr' as (Hv & _).
  destruct (awsOrgRollouts s !! OrgRollout_RolloutID r') as [existing|] eqn:E; [|done].
  open_bind H [] Hsame. open_bind H [] Hver. open_bind H [] Hgen. open_bind H [] Hrival. inv_ok.
  match goal with |- effect _ (put_rollout ?r _) => eapply (effect_update s _ r existing) end; try done.
  - intros Hm. cbn [with_rollout_times with_rollout_generation OrgRollout_Status] in Hm, Hgen. rewrite Hm in Hgen. cbn [negb orb] in Hgen.
    destruct (connectors s !! rollout_connector_key existing) as [c|] eqn:Ec; [|done]. by exists c.
  - intros Ha. cbn [with_rollout_times with_rollout_generation OrgRollout_Status] in Ha, Hrival. rewrite Ha in Hrival.
    apply negb_true_iff in Hrival. exact Hrival.
Qed.

Lemma parent_rollout_Ok t s parent :
  parent_rollout t s = Ok parent → awsOrgRollouts s !! OrgTarget_RolloutID t = Some parent.
Proof. unfold parent_rollout. intros H. destruct (awsOrgRollouts s !! _) eqn:E; [|done]. by inv_ok. Qed.
Lemma parent_accepted_Ok parent s u :
  parent_accepted parent s = Ok u →
  ∃ c, connectors s !! rollout_connector_key parent = Some c ∧ connector_accepts parent c = true.
Proof.
  unfold parent_accepted. intros H%guard_err_Ok. destruct (connectors s !! _) as [c|] eqn:E; [by exists c|done].
Qed.

Lemma put_target_effect t t' parent s u :
  parent_rollout t s = Ok parent → parent_accepted parent s = Ok u → OrgTarget_RolloutID t' = OrgTarget_RolloutID t →
  effect s (put_target t' s).
Proof.
  intros Hp%parent_rollout_Ok (c & Hc & Ha)%parent_accepted_Ok Hid.
  apply (effect_target s _ t' parent c); [by rewrite Hid|done..].
Qed.

Lemma updated_target_ids now existing t :
  OrgTarget_RolloutID (updated_target now existing t) = OrgTarget_RolloutID t ∧
  target_key (updated_target now existing t) = target_key t.
Proof.
  unfold updated_target. destruct (negb _); [done|]. by case_decide.
Qed.

Lemma upsert_target_effect now ctx t s s' o :
  UpsertAWSOrganizationRolloutTarget now ctx t s = Ok (s', o) → effect s s'.
Proof.
  unfold UpsertAWSOrganizationRolloutTarget. intros H. open_bind H t' _. open_bind H parent Hp. open_bind H [] _.
  open_bind H [] Ha. inv_ok. eapply put_target_effect; [done..|].
  destruct (awsOrgRolloutTargets s !! _); [apply updated_target_ids|done].
Qed.

Lemma reset_target_effect now ctx t v s s' o :
  ResetAWSOrganizationRolloutTarget now ctx t v s = Ok (s', o) → effect s s'.
Proof.
  unfold ResetAWSOrganizationRolloutTarget. intros H. open_bind H t' _. open_bind H parent Hp. open_bind H [] _.
  open_bind H [] Ha. destruct (awsOrgRolloutTargets s !! _); [|done]. inv_ok. by eapply put_target_effect.
Qed.

Lemma normalized_attempt now ctx a a' :
  normalizeAWSConnectorOnboardingAttempt now ctx a = Ok a' → attempt_valid a' = true.
Proof. unfold normalizeAWSConnectorOnboardingAttempt. intros H. open_bind H [scope resolved] _. by inv_ok. Qed.

Lemma create_attempt_effect now ctx a s s' o :
  CreateAWSConnectorOnboardingAttempt now ctx a s = Ok (s', o) → effect s s'.
Proof.
  unfold CreateAWSConnectorOnboardingAttempt. intros H. open_bind H a' Ha. apply normalized_attempt in Ha.
  open_bind H [] Hfree. open_bind H [] _. open_bind H [] Hrival. apply guard_err_Ok in Hfree, Hrival. inv_ok. boolify.
  apply (effect_attempt s _ o); [done|congruence| |done].
  intros _. apply bool_decide_eq_false. unfold active_attempt_rival in Hrival. boolify.
  intros (id & r & Hr & _ & Hs). apply Hrival. by exists id, r.
Qed.

Lemma update_attempt_effect now ctx a v s s' o :
  UpdateAWSConnectorOnboardingAttempt now ctx a v s = Ok (s', o) → effect s s'.
Proof.
  unfold UpdateAWSConnectorOnboardingAttempt. intros H. open_bind H a' Ha. apply normalized_attempt in Ha.
  destruct (awsOnboardingAttempts s !! Attempt_AttemptID a') as [existing|] eqn:E; [|done].
  open_bind H [] Hsame. open_bind H [] Hver. open_bind H [] Hrival. apply guard_err_Ok in Hsame, Hrival. inv_ok.
  match goal with |- effect _ (put_attempt ?r _) => apply (effect_attempt s _ r) end; [done| | |done].
  - cbn. rewrite E. by intros ? [= <-].
  - cbn. intros Hact. rewrite Hact in Hrival. apply negb_true_iff in Hrival. exact Hrival.
Qed.

#[local] Hint Resolve create_connector_effect claim_effect disconnect_effect set_disabled_effect create_rollout_effect
  update_rollout_effect upsert_target_effect reset_target_effect create_attempt_effect update_attempt_effect : identrail.

Lemma call_effect op s s' : call op s = Ok s' → effect s s'.
Proof.
  destruct op; cbn [call]; intros H;
    try (apply fmap_Ok in H as ([s1 out] & H & ->); cbn [fst]; by eauto with identrail).
  - unfold UpsertTenancyConnector in H. open_bind H [scope resolved] _. open_bind H [c' st'] _.
    rewrite <-(with_connSecrets_same s'). by eapply write_connector_effect.
  - unfold UpsertTenancyConnectorAndSecretEnvelope in H. open_bind H [scope resolved] _. open_bind H [] _.
    open_bind H [c' st'] _. open_bind H e' _. open_bind H s1 Hw. inv_ok. by eapply write_connector_effect.
  - apply fmap_Ok in H as ([s1 out] & H & ->). unfold CreateTenancyConnectorSecretEnvelopeIfAbsent in H.
    open_bind H e' _. open_bind H [] _. apply Ok_inj in H. pose proof (create_secret_effect e' s) as He. by rewrite H in He.
  - apply fmap_Ok in H as ([s1 out] & H & ->). unfold CreateTenancyConnectorSecretEnvelopeIfAbsentAtGeneration in H.
    open_bind H e' _. open_bind H [] _. apply Ok_inj in H. pose proof (create_secret_effect e' s) as He. by rewrite H in He.
  - unfold UpsertTenancyConnectorSecretEnvelope in H. inv_ok. by eapply effect_secrets.
  - unfold UpsertTenancyConnectorSecretEnvelopeAtGeneration in H. inv_ok. by eapply effect_secrets.
  - unfold DeleteTenancyConnectorSecretEnvelope in H. inv_ok. by eapply effect_secrets.
  - unfold DeleteTenancyConnectorSecretEnvelopeAtGeneration in H. open_bind H [[scope resolved] key] _. inv_ok.
    by eapply effect_secrets.
Qed.

Lemma step_effect s op : effect s (connector_step s op).
Proof.
  unfold connector_step. destruct (call op s) as [s'|e] eqn:E; [by apply call_effect in E|by apply effect_none].
Qed.

(** ** The generation only grows *)
Lemma same_rollouts_connectors t w p id now s :
  connectors (cancelAWSOrganizationRolloutsLocked t w p id now s) = connectors s.
Proof. done. Qed.

Lemma effect_generation s s' key c :
  effect s s' → connectors s !! key = Some c →
  ∃ c', connectors s' !! key = Some c' ∧ (generation c' = generation c ∨ generation c' = wrap64 (generation c + 1)).
Proof.
  intros He Hc. destruct He as [->|k c' Hs' Hg _|k c0 s1 status b now Hk Hs1 _ Hs'| | | | | |]; subst; try by exists c; auto.
  - rewrite Hs'. destruct (decide (k = key)) as [->|]; [|rewrite lookup_insert_ne by done; by exists c; auto].
    rewrite lookup_insert_eq. exists c'. auto.
  - assert (connectors s' = connectors s1) as -> by by destruct Hs' as [->|(? & ? & ? & ? & ? & ->)].
    rewrite Hs1. destruct (decide (k = key)) as [->|]; [|rewrite lookup_insert_ne by done; by exists c; auto].
    rewrite lookup_insert_eq. simplify_eq. eexists. split; [done|]. by right.
Qed.

Lemma run_generation ops s key c :
  connectors s !! key = Some c → 0 ≤ generation c → generation c + Z.of_nat (length ops) ≤ int64_max →
  ∃ c', connectors (run connector_step ops s) !! key = Some c' ∧
    generation c ≤ generation c' ≤ generation c + Z.of_nat (length ops).
Proof.
  revert s c. induction ops as [|op ops IH]; intros s c Hc H0 Hmax; cbn [length run foldl] in *.
  { exists c. split; [done|lia]. }
  destruct (effect_generation _ _ _ _ (step_effect s op) Hc) as (c1 & Hc1 & Hg).
  rewrite wrap64_id in Hg by (unfold in_int64, int64_min, int64_max in *; lia).
  destruct (IH _ _ Hc1) as (c' & Hc' & Hle); [lia..|]. exists c'. split; [done|lia].
Qed.

(** A connector whose generation has moved on never comes back to it. *)
Lemma generation_moved_on op ops s key c c1 :
  connectors s !! key = Some c → connectors (connector_step s op) !! key = Some c1 → generation c1 ≠ generation c →
  0 ≤ generation c → generation c + Z.of_nat (length ops) < int64_max →
  ∃ c', connectors (run connector_step ops (connector_step s op)) !! key = Some c' ∧ generation c < generation c'.
Proof.
  intros Hc Hc1 Hne H0 Hmax.
  destruct (effect_generation _ _ _ _ (step_effect s op) Hc) as (c1' & Hc1' & Hg). simplify_eq.
  rewrite wrap64_id in Hg by (unfold in_int64, int64_min, int64_max in *; lia). destruct Hg as [|Hg]; [done|].
  destruct (run_generation ops _ _ _ Hc1) as (c' & Hc' & Hle); [lia..|]. exists c'. split; [done|lia].
Qed.

(** *** The fence *)
Lemma tenancyConnectorKey_trim t w p c :
  tenancyConnectorKey (TrimSpace t) (TrimSpace w) (TrimSpace p) (TrimSpace c) = tenancyConnectorKey t w p c.
Proof. unfold tenancyConnectorKey. by rewrite !TrimSpace_idemp. Qed.

Lemma tenancyConnectorKey_trim_ids t w p c :
  tenancyConnectorKey t w (TrimSpace p) (TrimSpace c) = tenancyConnectorKey t w p c.
Proof. unfold tenancyConnectorKey. by rewrite !TrimSpace_idemp. Qed.

Lemma normalize_pair_key now scope w connector state c st :
  normalize_pair now scope w connector state = Ok (c, st) →
  connector_key c = tenancyConnectorKey (Scope_TenantID scope) w (Connector_ProjectID connector) (Connector_ConnectorID connector) ∧
  generation c = generation connector.
Proof.
  unfold normalize_pair. intros H. open_bind H c' Hc. open_bind H st' _. apply Ok_inj in H as [= <- <-].
  unfold NormalizeTenancyConnectorForWrite in Hc. inv_ok.
  split; [|done]. unfold connector_key. cbn. by rewrite tenancyConnectorKey_trim.
Qed.

Lemma write_connector_fenced d z c st s existing :
  connectors s !! connector_key c = Some existing → generation existing ≠ generation c →
  is_ok (write_connector d z c st s) = false.
Proof.
  intros He Hg. destruct (write_connector d z c st s) as [s'|] eqn:E; [|done].
  apply write_connector_row in E as (_ & Hold & _). by apply Hold in He.
Qed.

Lemma not_ok {A} (r : result A) : (∀ a, r = Ok a → False) → is_ok r = false.
Proof. destruct r; [|done]. intros H. by destruct (H a). Qed.

(** The caller's view: the key its scope and ids resolve to. *)
Definition addresses (ctx : Context) (workspaceID projectID connectorID key : string) : Prop :=
  ∃ scope w, scoped_workspace ctx workspaceID = Ok (scope, w) ∧
             tenancyConnectorKey (Scope_TenantID scope) w projectID connectorID = key.

Section fence.
Context (s : ConnectorTables) (key : string) (current : TenancyConnector) (stale : Z).
Context (Hcurrent : connectors s !! key = Some current) (Hstale : generation current ≠ stale).

Lemma upsert_fenced d now ctx connector state name e :
  addresses ctx (Connector_WorkspaceID connector) (Connector_ProjectID connector) (Connector_ConnectorID connector) key →
  generation connector = stale →
  is_ok (UpsertTenancyConnector d now ctx connector state s) = false ∧
  is_ok (UpsertTenancyConnectorAndSecretEnvelope d now ctx connector state name e s) = false.
Proof.
  intros (scope & w & Hscope & Hkey) Hg. split; apply not_ok; intros s' H.
  - unfold UpsertTenancyConnector in H. rewrite Hscope in H. open_bind H [scope' w'] [= <- <-].
    open_bind H [c st] [Hk Hgc]%normalize_pair_key.
    pose proof (write_connector_fenced d (IsZero (Connector_CreatedAt connector)) c st s current) as Hf.
    rewrite H in Hf. cbn in Hf. rewrite Hk, Hkey, Hgc, Hg in Hf. by discriminate (Hf Hcurrent Hstale).
  - unfold UpsertTenancyConnectorAndSecretEnvelope in H. rewrite Hscope in H. open_bind H [scope' w'] [= <- <-].
    open_bind H [] _. open_bind H [c st] [Hk Hgc]%normalize_pair_key. open_bind H e' _. open_bind H s1 Hw.
    pose proof (write_connector_fenced d (IsZero (Connector_CreatedAt connector)) c st s current) as Hf.
    rewrite Hw in Hf. cbn in Hf. rewrite Hk, Hkey, Hgc, Hg in Hf. by discriminate (Hf Hcurrent Hstale).
Qed.

Lemma at_generation_fenced : is_ok (at_generation key stale s) = false.
Proof. unfold at_generation. rewrite Hcurrent. by rewrite bool_decide_eq_false_2. Qed.

Lemma scoped_secret_key_of now ctx e e' :
  addresses ctx (Secret_WorkspaceID e) (Secret_ProjectID e) (Secret_ConnectorID e) key →
  scoped_secret now ctx e = Ok e' → secret_connector_key e' = key.
Proof.
  intros (scope & w & Hscope & Hkey) H. unfold scoped_secret in H. rewrite Hscope in H. open_bind H [scope' w'] [= <- <-].
  unfold NormalizeTenancyConnectorSecretEnvelopeForWrite in H. inv_ok.
  unfold secret_connector_key. cbn. by rewrite tenancyConnectorKey_trim.
Qed.

Lemma secret_write_fenced now ctx e :
  addresses ctx (Secret_WorkspaceID e) (Secret_ProjectID e) (Secret_ConnectorID e) key →
  is_ok (CreateTenancyConnectorSecretEnvelopeIfAbsentAtGeneration now ctx e stale s) = false ∧
  is_ok (UpsertTenancyConnectorSecretEnvelopeAtGeneration now ctx e stale s) = false.
Proof.
  intros Haddr. pose proof at_generation_fenced as Hf. split; apply not_ok; intros a H.
  - unfold CreateTenancyConnectorSecretEnvelopeIfAbsentAtGeneration in H. open_bind H e' He. open_bind H [] Hat.
    apply (scoped_secret_key_of _ _ _ _ Haddr) in He. by rewrite He, Hat in *.
  - unfold UpsertTenancyConnectorSecretEnvelopeAtGeneration in H. open_bind H e' He. open_bind H [] Hat.
    apply (scoped_secret_key_of _ _ _ _ Haddr) in He. by rewrite He, Hat in *.
Qed.

Lemma secret_delete_fenced ctx w p c name :
  addresses ctx w p c key →
  is_ok (DeleteTenancyConnectorSecretEnvelopeAtGeneration ctx w p c name stale s) = false.
Proof.
  intros (scope & w' & Hscope & Hkey). pose proof at_generation_fenced as Hf. apply not_ok. intros a H.
  unfold DeleteTenancyConnectorSecretEnvelopeAtGeneration, scoped_connector_key in H. rewrite Hscope in H.
  cbn [mbind result_bind] in H. open_bind H [[scope' w''] k] [= <- <- <-]. open_bind H [] Hat.
  rewrite tenancyConnectorKey_trim_ids, Hkey in Hat. by rewrite Hat in Hf.
Qed.
End fence.

(** C21. The lifecycle generation fences stale asynchronous work: once any
    call has moved a connector's generation on (an operator disconnected,
    disabled or enabled it), then whatever calls follow, no connector upsert and
    no fenced secret write that carries the generation observed before can
    succeed again. *)
Theorem stale_lifecycle_writes_rejected key c c1 op ops s
    (Hc : connectors s !! key = Some c) (Hc1 : connectors (connector_step s op) !! key = Some c1)
    (Hchange : generation c1 ≠ generation c)
    (Hrange : 0 ≤ generation c) (Hbound : generation c + Z.of_nat (length ops) < int64_max) :
  let s2 := run connector_step ops (connector_step s op) in
  (∀ d now ctx connector state name e,
     addresses ctx (Connector_WorkspaceID connector) (Connector_ProjectID connector) (Connector_ConnectorID connector) key →
     generation connector = generation c →
     is_ok (UpsertTenancyConnector d now ctx connector state s2) = false ∧
     is_ok (UpsertTenancyConnectorAndSecretEnvelope d now ctx connector state name e s2) = false) ∧
  (∀ now ctx e,
     addresses ctx (Secret_WorkspaceID e) (Secret_ProjectID e) (Secret_ConnectorID e) key →
     is_ok (CreateTenancyConnectorSecretEnvelopeIfAbsentAtGeneration now ctx e (generation c) s2) = false ∧
     is_ok (UpsertTenancyConnectorSecretEnvelopeAtGeneration now ctx e (generation c) s2) = false) ∧
  (∀ ctx w p cid name, addresses ctx w p cid key →
     is_ok (DeleteTenancyConnectorSecretEnvelopeAtGeneration ctx w p cid name (generation c) s2) = false).
Proof.
  intros s2. destruct (generation_moved_on op ops s key c c1) as (c2 & Hc2 & Hlt); [done..|].
  assert (generation c2 ≠ generation c) as Hne by lia. split_and!.
  - intros. by eapply upsert_fenced.
  - intros. by eapply secret_write_fenced.
  - intros. by eapply secret_delete_fenced.
Qed.

(** ** The invariant of the tables *)

(** A table in which at most one row of each group is active. *)
Section one_active.
Context {A : Type} (same : A → A → bool) (active : A → bool).

Definition one_active (m : gmap string A) : Prop :=
  ∀ i x j y, m !! i = Some x → m !! j = Some y → same x y = true → active x = true → active y = true → i = j.

Lemma one_active_insert m i x :
  (∀ x y, same x y = same y x) → one_active m →
  (active x = true → ∀ j y, m !! j = Some y → j ≠ i → same x y = true → active y = false) →
  one_active (<[i := x]> m).
Proof.
  intros Hsym Hm Hx j y k z. rewrite !lookup_insert_Some.
  intros [[<- <-]|[Hj Hy]] [[<- <-]|[Hk Hz]] Hsame Ha Ha'; try done.
  - by rewrite (Hx Ha k z) in Ha'.
  - rewrite Hsym in Hsame. by rewrite (Hx Ha' j y) in Ha.
  - eauto.
Qed.

Lemma one_active_fmap f m :
  (∀ x, active (f x) = true → active x = true) → (∀ x y, same (f x) (f y) = same x y) →
  one_active m → one_active (f <$> m).
Proof.
  intros Ha Hs Hm i x j y. rewrite !lookup_fmap_Some. intros (x0 & <- & Hx) (y0 & <- & Hy). rewrite Hs. eauto.
Qed.
End one_active.

Definition rollout_active (r : AWSOrganizationRollout) : bool := awsOrganizationRolloutActive (OrgRollout_Status r).
Definition attempt_active (a : AWSConnectorOnboardingAttempt) : bool := awsOnboardingAttemptActive (Attempt_Status a).

Record tables_ok (s : ConnectorTables) : Prop := {
  rollouts_keyed : map_Forall (λ id r, OrgRollout_RolloutID r = id ∧ org_rollout_valid r = true) (awsOrgRollouts s);
  one_active_rollout : one_active same_connector rollout_active (awsOrgRollouts s);
  (** a rollout's connector exists, and its generation is not ahead *)
  rollout_generation : map_Forall (λ _ r, ∃ c, connectors s !! rollout_connector_key r = Some c ∧
    0 ≤ OrgRollout_LifecycleGeneration r ≤ generation c) (awsOrgRollouts s);
  (** a target is stored under its own key, and its rollout exists *)
  targets_keyed : map_Forall (λ k t, k = target_key t ∧ is_Some (awsOrgRollouts s !! OrgTarget_RolloutID t))
    (awsOrgRolloutTargets s);
  attempts_keyed : map_Forall (λ id a, Attempt_AttemptID a = id ∧ attempt_valid a = true) (awsOnboardingAttempts s);
  one_active_attempt : one_active same_attempt_connector attempt_active (awsOnboardingAttempts s);
}.

Lemma same_connector_spec r r' :
  same_connector r r' = true ↔
  OrgRollout_TenantID r' = OrgRollout_TenantID r ∧ OrgRollout_WorkspaceID r' = OrgRollout_WorkspaceID r ∧
  OrgRollout_ProjectID r' = OrgRollout_ProjectID r ∧ OrgRollout_ControllingConnectorID r' = OrgRollout_ControllingConnectorID r.
Proof. unfold same_connector, controlled_by. rewrite !andb_true_iff, !bool_decide_eq_true. tauto. Qed.
Lemma same_attempt_connector_spec a a' :
  same_attempt_connector a a' = true ↔
  Attempt_TenantID a' = Attempt_TenantID a ∧ Attempt_WorkspaceID a' = Attempt_WorkspaceID a ∧
  Attempt_ProjectID a' = Attempt_ProjectID a ∧ Attempt_ConnectorID a' = Attempt_ConnectorID a.
Proof. unfold same_attempt_connector, attempt_of. rewrite !andb_true_iff, !bool_decide_eq_true. tauto. Qed.
Lemma same_connector_key r r' : same_connector r r' = true → rollout_connector_key r' = rollout_connector_key r.
Proof. rewrite same_connector_spec. unfold rollout_connector_key. by intros (-> & -> & -> & ->). Qed.

Lemma rival_false id r s id' r' :
  active_rival id r s = false → awsOrgRollouts s !! id' = Some r' → id ≠ Some id' → same_connector r r' = true →
  awsOrganizationRolloutActive (OrgRollout_Status r') = false.
Proof.
  unfold active_rival. rewrite bool_decide_eq_false. intros Hn Hr' Hid Hs. apply not_true_is_false. intros Ha.
  apply Hn. by exists id', r'.
Qed.
Lemma attempt_rival_false id a s id' a' :
  active_attempt_rival id a s = false → awsOnboardingAttempts s !! id' = Some a' → id ≠ Some id' →
  same_attempt_connector a a' = true → awsOnboardingAttemptActive (Attempt_Status a') = false.
Proof.
  unfold active_attempt_rival. rewrite bool_decide_eq_false. intros Hn Ha' Hid Hs. apply not_true_is_false. intros Ha.
  apply Hn. by exists id', a'.
Qed.

Lemma same_connector_sym r r' : same_connector r r' = same_connector r' r.
Proof. apply eq_true_iff_eq. rewrite !same_connector_spec. naive_solver. Qed.
Lemma same_attempt_connector_sym a a' : same_attempt_connector a a' = same_attempt_connector a' a.
Proof. apply eq_true_iff_eq. rewrite !same_attempt_connector_spec. naive_solver. Qed.

(** What a lifecycle cancellation does to one row. *)
Definition cancel_row (t w p id : string) (now : Z) (r : AWSOrganizationRollout) : AWSOrganizationRollout :=
  if controlled_by t w p id r && awsOrganizationRolloutCancelableOnLifecycleChange (OrgRollout_Status r)
  then cancel_rollout now r else r.
Lemma cancel_rollouts t w p id now s :
  awsOrgRollouts (cancelAWSOrganizationRolloutsLocked t w p id now s) = cancel_row t w p id now <$> awsOrgRollouts s.
Proof. done. Qed.
Lemma cancel_row_ids t w p id now r :
  OrgRollout_RolloutID (cancel_row t w p id now r) = OrgRollout_RolloutID r ∧
  rollout_connector_key (cancel_row t w p id now r) = rollout_connector_key r ∧
  OrgRollout_LifecycleGeneration (cancel_row t w p id now r) = OrgRollout_LifecycleGeneration r.
Proof. unfold cancel_row. by destruct (_ && _). Qed.
Lemma cancel_row_same t w p id now r r' :
  same_connector (cancel_row t w p id now r) (cancel_row t w p id now r') = same_connector r r'.
Proof. unfold cancel_row. destruct (_ && _), (_ && _); done. Qed.
Lemma cancel_row_active t w p id now r : rollout_active (cancel_row t w p id now r) = true → rollout_active r = true.
Proof. unfold cancel_row. destruct (_ && _); done. Qed.
Lemma cancel_row_valid t w p id now r : org_rollout_valid r = true → org_rollout_valid (cancel_row t w p id now r) = true.
Proof.
  unfold cancel_row. destruct (_ && _); [|done]. unfold org_rollout_valid. rewrite !andb_true_iff. tauto.
Qed.

Definition generations_below_max (s : ConnectorTables) : Prop :=
  map_Forall (λ _ c, generation c < int64_max) (connectors s).

Lemma effect_generation_le s s' key c n :
  effect s s' → generations_below_max s → connectors s !! key = Some c → 0 ≤ n ≤ generation c →
  ∃ c', connectors s' !! key = Some c' ∧ 0 ≤ n ≤ generation c'.
Proof.
  intros He Hmax Hc Hn. pose proof (Hmax _ _ Hc) as Hb. cbn in Hb.
  destruct (effect_generation _ _ _ _ He Hc) as (c' & Hc' & Hg). exists c'. split; [done|].
  rewrite wrap64_id in Hg by (unfold in_int64, int64_min, int64_max in *; lia). lia.
Qed.

(** The rollouts an effect leaves: unchanged, one lifecycle cancellation, or
    one row written. *)
Lemma effect_rollouts s s' :
  effect s s' →
  awsOrgRollouts s' = awsOrgRollouts s ∨
  (∃ t w p id now, awsOrgRollouts s' = cancel_row t w p id now <$> awsOrgRollouts s) ∨
  (∃ r, s' = put_rollout r s ∧ org_rollout_valid r = true ∧
     ((∃ c, connectors s !! rollout_connector_key r = Some c ∧ connector_accepts r c = true) ∧
        0 ≤ OrgRollout_LifecycleGeneration r ∧ awsOrgRollouts s !! OrgRollout_RolloutID r = None ∨
      ∃ existing, awsOrgRollouts s !! OrgRollout_RolloutID r = Some existing ∧ same_connector r existing = true ∧
        OrgRollout_LifecycleGeneration r = OrgRollout_LifecycleGeneration existing ∧
        (awsOrganizationRolloutTargetMutationAllowed (OrgRollout_Status r) = true →
         ∃ c, connectors s !! rollout_connector_key existing = Some c ∧ connector_accepts existing c = true)) ∧
     (rollout_active r = true → active_rival (Some (OrgRollout_RolloutID r)) r s = false)).
Proof.
  intros [->|k c' Hs' Hg (Hr & _)|k c0 s1 status b now Hk Hs1 (Hr & _) Hs'|t w p id now ->|m ->|r c Hid Hc Ha Hriv Hv H0 ->
         |r e He Hsame Hg Hm Hriv Hv Hver ->|t parent c _ _ _ ->|a _ _ _ ->]; try by left.
  - destruct Hs' as [->|(t & w & p & id & now' & ->)]; [by left|]. right; left. exists t, w, p, id, now'.
    by rewrite cancel_rollouts, Hr.
  - right; left. by exists t, w, p, id, now.
  - right; right. exists r. split_and!; [done|done|left; eauto|]. intros _. unfold active_rival in *.
    apply bool_decide_eq_false in Hriv. apply bool_decide_eq_false. intros (id' & r' & Hr' & _ & Hs). apply Hriv.
    by exists id', r'.
  - right; right. exists r. split_and!; [done|done|right; by exists e|done].
Qed.

(** The generation a rollout is written with is not ahead of its connector's. *)
Lemma accepted_generation r c : connector_accepts r c = true → generation c = OrgRollout_LifecycleGeneration r.
Proof. unfold connector_accepts. intros H. by boolify. Qed.

Lemma effect_attempts s s' :
  effect s s' →
  awsOnboardingAttempts s' = awsOnboardingAttempts s ∨
  ∃ a, s' = put_attempt a s ∧ attempt_valid a = true ∧
    (attempt_active a = true → active_attempt_rival (Some (Attempt_AttemptID a)) a s = false).
Proof.
  intros [->|? ? _ _ (_ & _ & Ha)|? ? s1 ? ? ? _ _ (_ & _ & Ha) Hs'|? ? ? ? ? ->|? ->|? ? _ _ _ _ _ _ ->
    |? ? _ _ _ _ _ _ _ ->|? ? ? _ _ _ ->|a Hv _ Hriv ->]; try by left.
  - left. by destruct Hs' as [->|(? & ? & ? & ? & ? & ->)].
  - right. by exists a.
Qed.

Lemma effect_targets s s' :
  effect s s' →
  awsOrgRolloutTargets s' = awsOrgRolloutTargets s ∨
  ∃ t parent c, awsOrgRollouts s !! OrgTarget_RolloutID t = Some parent ∧
    connectors s !! rollout_connector_key parent = Some c ∧ connector_accepts parent c = true ∧ s' = put_target t s.
Proof.
  intros [->|? ? _ _ (_ & Ht & _)|? ? s1 ? ? ? _ _ (_ & Ht & _) Hs'|? ? ? ? ? ->|? ->|? ? _ _ _ _ _ _ ->
    |? ? _ _ _ _ _ _ _ ->|t parent c Hp Hc Ha ->|a _ _ _ ->]; try by left.
  - left. by destruct Hs' as [->|(? & ? & ? & ? & ? & ->)].
  - right. by exists t, parent, c.
Qed.

Lemma effect_rollout_stays s s' id : effect s s' → is_Some (awsOrgRollouts s !! id) → is_Some (awsOrgRollouts s' !! id).
Proof.
  intros He. destruct (effect_rollouts s s' He) as [->|[(t & w & p & i & now & ->)|(r & -> & _)]]; [done| |].
  - rewrite lookup_fmap. by rewrite fmap_is_Some.
  - intros Hid. cbn. destruct (decide (OrgRollout_RolloutID r = id)) as [->|]; [by rewrite lookup_insert_eq|].
    by rewrite lookup_insert_ne.
Qed.

Lemma effect_tables_ok s s' : effect s s' → generations_below_max s → tables_ok s → tables_ok s'.
Proof.
  intros He Hmax [Hk H1 Hg Ht Ha H2]. constructor.
  - destruct (effect_rollouts s s' He) as [->|[(t & w & p & id & now & ->)|(r & -> & Hv & _)]]; [done| |].
    + apply map_Forall_fmap. eapply map_Forall_impl; [exact Hk|]. intros i r [Hid Hv]. cbn.
      split; [by rewrite (proj1 (cancel_row_ids _ _ _ _ _ r))|by apply cancel_row_valid].
    + by apply map_Forall_insert_2.
  - destruct (effect_rollouts s s' He) as [->|[(t & w & p & id & now & ->)|(r & -> & _ & _ & Hriv)]]; [done| |].
    + apply one_active_fmap; [apply cancel_row_active|apply cancel_row_same|done].
    + apply one_active_insert; [apply same_connector_sym|done|]. intros Hact j y Hy Hj Hs.
      eapply rival_false; [by apply Hriv|done| |done]. congruence.
  - assert (∀ r, (∃ c, connectors s !! rollout_connector_key r = Some c ∧
                       0 ≤ OrgRollout_LifecycleGeneration r ≤ generation c) →
                 ∃ c, connectors s' !! rollout_connector_key r = Some c ∧
                       0 ≤ OrgRollout_LifecycleGeneration r ≤ generation c) as Hup.
    { intros r (c & Hc & Hle). by eapply effect_generation_le. }
    destruct (effect_rollouts s s' He) as [->|[(t & w & p & id & now & ->)|(r & Hs' & Hv & Hold & _)]].
    + eapply map_Forall_impl; [exact Hg|]. auto.
    + apply map_Forall_fmap. eapply map_Forall_impl; [exact Hg|]. intros i r Hr. cbn.
      pose proof (cancel_row_ids t w p id now r) as (_ & -> & ->). auto.
    + assert (awsOrgRollouts s' = <[OrgRollout_RolloutID r := r]> (awsOrgRollouts s)) as -> by by rewrite Hs'.
      apply map_Forall_insert_2; [|eapply map_Forall_impl; [exact Hg|]; auto]. apply Hup.
      destruct Hold as [((c & Hc & Hacc) & H0 & _)|(e & He' & Hsame & Hge & _)].
      * exists c. rewrite (accepted_generation r c Hacc). split; [done|lia].
      * rewrite Hge, <-(same_connector_key r e Hsame). exact (Hg _ _ He').
  - pose proof (λ id, effect_rollout_stays s s' id He) as Hup.
    destruct (effect_targets s s' He) as [->|(t & parent & c & Hp & _ & _ & ->)].
    + eapply map_Forall_impl; [exact Ht|]. intros k t [Hkey Hs]. auto.
    + apply map_Forall_insert_2; [split; [done|by exists parent]|]. eapply map_Forall_impl; [exact Ht|].
      intros k t' [Hkey Hs]. auto.
  - destruct (effect_attempts s s' He) as [->|(a & -> & Hv & _)]; [done|]. by apply map_Forall_insert_2.
  - destruct (effect_attempts s s' He) as [->|(a & -> & _ & Hriv)]; [done|].
    apply one_active_insert; [apply same_attempt_connector_sym|done|]. intros Hact j y Hy Hj Hs.
    eapply attempt_rival_false; [by apply Hriv|done| |done]. congruence.
Qed.

Lemma empty_tables_ok : tables_ok empty_tables.
Proof. constructor; try apply map_Forall_empty; by intros ?. Qed.

Lemma run_tables_ok ops s :
  always connector_step generations_below_max ops s → tables_ok s → tables_ok (run connector_step ops s).
Proof.
  apply always_invariant. intros s0 op Hmax Hok. eapply effect_tables_ok; [apply step_effect|done..].
Qed.

(** C35. Whatever sequence of calls runs against empty tables (while no
    generation reaches the largest int64), every stored rollout and onboarding
    attempt is well formed and stored under its own id, every rollout's
    connector exists with a generation the rollout is not ahead of, every target
    is stored under its own key beside its rollout, and no connector has two active rollouts or two active onboarding attempts. *)
Theorem connector_tables_invariant ops :
  always connector_step generations_below_max ops empty_tables → tables_ok (run connector_step ops empty_tables).
Proof. intros H. apply run_tables_ok; [done|apply empty_tables_ok]. Qed.

(** ** Targets *)
Definition is_target_op (op : connector_op) : bool :=
  match op with OpUpsertTarget _ _ _ | OpResetTarget _ _ _ _ => true | _ => false end.

Create HintDb connector_calls.
#[local] Hint Unfold CreateTenancyConnectorWithSecretEnvelopeIfAbsent UpsertTenancyConnector
  UpsertTenancyConnectorAndSecretEnvelope write_connector ClaimKubernetesEnrollmentToken create_secret
  CreateTenancyConnectorSecretEnvelopeIfAbsent CreateTenancyConnectorSecretEnvelopeIfAbsentAtGeneration
  UpsertTenancyConnectorSecretEnvelope UpsertTenancyConnectorSecretEnvelopeAtGeneration
  DeleteTenancyConnectorSecretEnvelope DeleteTenancyConnectorSecretEnvelopeAtGeneration DisconnectTenancyConnector
  SetTenancyConnectorDisabled CreateAWSOrganizationRollout UpdateAWSOrganizationRollout
  CreateAWSConnectorOnboardingAttempt UpdateAWSConnectorOnboardingAttempt : connector_calls.

(** The branches of a successful call. *)
Ltac branches H :=
  repeat match type of H with
  | (_ ≫= _) = Ok _ => apply bind_Ok in H as (? & _ & H)
  | Ok _ = Ok _ => injection H as H; subst
  | mret _ = Ok _ => injection H as H; subst
  | Err _ = Ok _ => discriminate H
  | context [match ?x with _ => _ end] => destruct x
  end.

Lemma call_keeps_targets op s s' :
  call op s = Ok s' → is_target_op op = false → awsOrgRolloutTargets s' = awsOrgRolloutTargets s.
Proof.
  intros H Hop. destruct op; try discriminate Hop; cbn [call] in H;
    try (apply fmap_Ok in H as ([s1 out] & H & ->); cbn [fst]).
  3: { unfold UpsertTenancyConnectorAndSecretEnvelope in H. open_bind H [scope w] _. open_bind H [] _.
       open_bind H [c' st'] _. open_bind H e' _. open_bind H s1 Hw. inv_ok.
       by apply write_connector_row in Hw as (_ & _ & (_ & Ht & _) & _). }
  all: repeat autounfold with connector_calls in H; branches H; simplify_eq; try done; by case_match.
Qed.

(** What an update may do to the evidence a target has collected: refresh it,
    never blank it. *)
Definition evidence : list (AWSOrganizationRolloutTarget → string) :=
  [OrgTarget_AccountName; OrgTarget_OUPath; OrgTarget_StackInstanceID; OrgTarget_StackID; OrgTarget_RoleARN;
   OrgTarget_EvidenceRef; OrgTarget_RegisterRequestID].
Definition keeps_evidence (t t' : AWSOrganizationRolloutTarget) : Prop :=
  Forall (λ field, field t ≠ "" → field t' ≠ "") evidence.

Record successor (t t' : AWSOrganizationRolloutTarget) : Prop := {
  successor_version : OrgTarget_Version t' = wrap64 (OrgTarget_Version t + 1);
  successor_created : OrgTarget_CreatedAt t' = OrgTarget_CreatedAt t;
  successor_evidence : keeps_evidence t t';
}.

Lemma or_str_kept x existing : existing ≠ "" → or_str x existing ≠ "".
Proof. unfold or_str. by case_decide. Qed.
#[local] Hint Resolve or_str_kept : identrail.

Lemma merge_target_successor t existing state code msg retryable lt lv now :
  successor existing (merge_target t existing state code msg retryable lt lv now).
Proof. constructor; [done..|]. repeat constructor; cbn; auto with identrail. Qed.

(** One update of a target by [op]. *)
Definition promoted (op : connector_op) (t t' : AWSOrganizationRolloutTarget) : Prop :=
  (∃ now ctx tgt, op = OpUpsertTarget now ctx tgt) ∧
  awsOrganizationRolloutTargetStateAdvances (OrgTarget_State t) (OrgTarget_State t') = true.
Definition reset (op : connector_op) (t t' : AWSOrganizationRolloutTarget) : Prop :=
  (∃ now ctx tgt, op = OpResetTarget now ctx tgt (OrgTarget_Version t)) ∧ OrgTarget_Retryable t = true ∧
  OrgTarget_State t ∈ [AWSOrganizationRolloutTargetFailed; AWSOrganizationRolloutTargetPartial] ∧
  OrgTarget_State t' = (if decide (OrgTarget_RoleARN t' = "") then AWSOrganizationRolloutTargetPending
                        else AWSOrganizationRolloutTargetValidating).

Lemma advances_refl st : awsOrganizationRolloutTargetStateAdvances st st = true.
Proof. unfold awsOrganizationRolloutTargetStateAdvances. by rewrite bool_decide_eq_true_2. Qed.

Lemma updated_target_promoted now existing t :
  successor existing (updated_target now existing t) ∧
  awsOrganizationRolloutTargetStateAdvances (OrgTarget_State existing) (OrgTarget_State (updated_target now existing t)) = true.
Proof.
  unfold updated_target. destruct (awsOrganizationRolloutTargetStateAdvances _ _) eqn:E; cbn [negb].
  - case_decide; (split; [apply merge_target_successor|exact E]).
  - split; [apply merge_target_successor|apply advances_refl].
Qed.

Lemma put_target_lookup t s k t0 :
  awsOrgRolloutTargets s !! k = Some t0 →
  awsOrgRolloutTargets (put_target t s) !! k = Some t0 ∨
  k = target_key t ∧ awsOrgRolloutTargets (put_target t s) !! k = Some t.
Proof.
  intros Hk. cbn. destruct (decide (target_key t = k)) as [<-|].
  - right. split; [done|by apply lookup_insert_eq].
  - left. by rewrite lookup_insert_ne.
Qed.

(** Every stored target, under every successful call: it is left as it is,
    or it becomes a successor (the next version, its creation time and every
    piece of evidence it had kept) by an upsert that advances its state, so a
    settled state is only replaced by another settled state or by "deploying",
    or by a reset, which names the version it read, needs a retryable failed or
    partial target, and restarts it. *)
Theorem target_transitions op s s' k t
    (Hcall : call op s = Ok s') (Ht : awsOrgRolloutTargets s !! k = Some t) :
  ∃ t', awsOrgRolloutTargets s' !! k = Some t' ∧
    (t' = t ∨ successor t t' ∧ (promoted op t t' ∨ reset op t t')).
Proof.
  destruct (is_target_op op) eqn:Hop; [|exists t; rewrite (call_keeps_targets op s s'); auto].
  destruct op as [| | | | | | | | | | | | | |now ctx tgt|now ctx tgt v| |]; try discriminate Hop; cbn [call] in Hcall;
    apply fmap_Ok in Hcall as ([s1 out] & H & ->); cbn [fst].
  - unfold UpsertAWSOrganizationRolloutTarget in H. open_bind H n _. open_bind H parent _. open_bind H [] _.
    open_bind H [] _. inv_ok. destruct (awsOrgRolloutTargets s !! target_key n) as [e|] eqn:He.
    + destruct (put_target_lookup (updated_target now e n) s k t Ht) as [Hl|[Hk Hl]]; [by eauto|].
      rewrite (proj2 (updated_target_ids now e n)) in Hk. subst k. simplify_eq.
      destruct (updated_target_promoted now t n) as [Hs Ha]. eexists. split; [exact Hl|]. right. split; [done|].
      left. split; [by eexists _, _, _|done].
    + destruct (put_target_lookup (new_target now n) s k t Ht) as [Hl|[Hk Hl]]; [by eauto|].
      change (target_key (new_target now n)) with (target_key n) in Hk. congruence.
  - unfold ResetAWSOrganizationRolloutTarget in H. open_bind H n _. open_bind H parent _. open_bind H [] _.
    open_bind H [] _. destruct (awsOrgRolloutTargets s !! target_key n) as [e|] eqn:He; [|done]. inv_ok. boolify.
    match goal with |- context [put_target ?x _] => set (t1 := x) end.
    destruct (put_target_lookup t1 s k t Ht) as [Hl|[Hk Hl]]; [by eauto|].
    change (target_key t1) with (target_key n) in Hk. subst k. simplify_eq.
    eexists. split; [exact Hl|]. right. split; [apply merge_target_successor|]. right.
    split; [by eexists _, _, _|]. split_and!; [done..|]. cbn. unfold or_str.
    repeat case_decide; repeat case_bool_decide; done.
Qed.

(** ** Shutting a connector down *)

(** Rollout ids hold no NUL byte, the separator of target keys. *)
Definition NUL : ascii := "000"%char.
Definition plain_ids (s : ConnectorTables) : Prop := map_Forall (λ id _, no_byte NUL id) (awsOrgRollouts s).
Definition plain_state (s : ConnectorTables) : Prop := generations_below_max s ∧ plain_ids s.

Definition targets_of (id : string) (s : ConnectorTables) : gmap string AWSOrganizationRolloutTarget :=
  filter (λ '(_, t), OrgTarget_RolloutID t = id) (awsOrgRolloutTargets s).

Definition retired_statuses : list string :=
  [AWSOrganizationRolloutStatusExpired; AWSOrganizationRolloutStatusCanceled].

(** The rollout [r], stored under [id], has lost its connector: its generation
    is behind, it is retired or keeps its status, and its targets are [ts]. *)
Definition frozen (id : string) (r : AWSOrganizationRollout) (ts : gmap string AWSOrganizationRolloutTarget)
    (s : ConnectorTables) : Prop :=
  (∃ c, connectors s !! rollout_connector_key r = Some c ∧ 0 ≤ OrgRollout_LifecycleGeneration r < generation c) ∧
  (∃ r', awsOrgRollouts s !! id = Some r' ∧ rollout_connector_key r' = rollout_connector_key r ∧
     OrgRollout_LifecycleGeneration r' = OrgRollout_LifecycleGeneration r ∧
     (OrgRollout_Status r' = OrgRollout_Status r ∨ OrgRollout_Status r' ∈ retired_statuses)) ∧
  targets_of id s = ts.

Lemma target_key_inj t t' :
  no_byte NUL (OrgTarget_RolloutID t) → no_byte NUL (OrgTarget_RolloutID t') → target_key t = target_key t' →
  OrgTarget_RolloutID t = OrgTarget_RolloutID t'.
Proof. intros H H' E. by apply (join_inj NUL) in E as [E _]. Qed.

Lemma put_target_elsewhere id t s :
  tables_ok s → plain_ids s → is_Some (awsOrgRollouts s !! OrgTarget_RolloutID t) → OrgTarget_RolloutID t ≠ id →
  targets_of id (put_target t s) = targets_of id s.
Proof.
  intros Hok Hplain [r Hr] Hne. unfold targets_of. cbn. apply map_filter_insert_not'; [done|].
  intros t0 Ht0 Hid. pose proof (targets_keyed s Hok _ _ Ht0) as [Hkey [r0 Hr0]].
  apply Hne. rewrite <-Hid. apply target_key_inj; [exact (Hplain _ _ Hr)|exact (Hplain _ _ Hr0)|done].
Qed.

Lemma not_accepted r c :
  OrgRollout_LifecycleGeneration r < generation c → connector_accepts r c = true → False.
Proof. intros Hlt Ha. apply accepted_generation in Ha. lia. Qed.

Lemma retired_status r :
  org_rollout_valid r = true → awsOrganizationRolloutTargetMutationAllowed (OrgRollout_Status r) = false →
  OrgRollout_Status r ∈ retired_statuses.
Proof.
  unfold org_rollout_valid. intros Hv Hm. boolify. unfold awsOrganizationRolloutStatusValid in *. boolify.
  match goal with H : OrgRollout_Status r ∈ _ |- _ => revert H end.
  unfold awsOrganizationRolloutTargetMutationAllowed in Hm. boolify. revert Hm. unfold retired_statuses.
  repeat (rewrite elem_of_app || rewrite elem_of_cons). tauto.
Qed.

Lemma effect_frozen id r ts s s' :
  effect s s' → tables_ok s → plain_state s → frozen id r ts s → frozen id r ts s'.
Proof.
  intros He Hok [Hmax Hplain] ((c & Hc & Hlt) & (r1 & Hr1 & Hkey & Hg & Hst) & Hts). split; [|split].
  - destruct (effect_generation _ _ _ _ He Hc) as (c' & Hc' & Hg'). exists c'. split; [done|].
    pose proof (Hmax _ _ Hc) as Hb. cbn in Hb.
    rewrite wrap64_id in Hg' by (unfold in_int64, int64_min, int64_max in *; lia). lia.
  - destruct (effect_rollouts s s' He) as [->|[(t & w & p & i & now & ->)|(r2 & -> & Hv & Hold & _)]].
    + by exists r1.
    + exists (cancel_row t w p i now r1). rewrite lookup_fmap, Hr1.
      pose proof (cancel_row_ids t w p i now r1) as (_ & -> & ->). split_and!; [done..|].
      unfold cancel_row. destruct (_ && _); [|done]. right. right. by left.
    + cbn. destruct (decide (OrgRollout_RolloutID r2 = id)) as [E|E]; [|rewrite lookup_insert_ne by done; by exists r1].
      rewrite E, lookup_insert_eq in *. exists r2.
      destruct Hold as [(_ & _ & Hnone)|(e & He2 & Hsame & Hge & Hallowed)]; [congruence|].
      assert (e = r1) as -> by congruence. pose proof (same_connector_key _ _ Hsame) as Hkk. split_and!; [done|congruence|congruence|].
      right. apply retired_status; [done|]. apply not_true_is_false. intros Hm.
      destruct (Hallowed Hm) as (c2 & Hc2 & Ha). rewrite Hkey in Hc2. simplify_eq.
      eapply not_accepted; [|done]. lia.
  - destruct (effect_targets s s' He) as [Ht|(t & parent & c2 & Hp & Hc2 & Ha & ->)].
    + unfold targets_of in *. by rewrite Ht.
    + rewrite put_target_elsewhere; [done|done|done|by exists parent|]. intros E. rewrite E in Hp. simplify_eq.
      rewrite Hkey in Hc2. simplify_eq. eapply not_accepted; [|done]. lia.
Qed.

Lemma run_frozen ops s id r ts :
  always connector_step plain_state ops s → tables_ok s → frozen id r ts s →
  frozen id r ts (run connector_step ops s).
Proof.
  intros Hplain Hok Hf.
  cut (tables_ok (run connector_step ops s) ∧ frozen id r ts (run connector_step ops s)); [by intros []|].
  apply (always_invariant connector_step plain_state (λ s, tables_ok s ∧ frozen id r ts s)); [|done|done].
  intros s0 op Hs0 [Hok0 Hf0]. split.
  - eapply effect_tables_ok; [apply step_effect|apply Hs0|done].
  - eapply effect_frozen; [apply step_effect|done..].
Qed.

(** A lifecycle cancellation retires every rollout that was not completed. *)
Lemma cancel_row_retires t w p cid now r :
  org_rollout_valid r = true → controlled_by t w p cid r = true →
  OrgRollout_Status (cancel_row t w p cid now r) ∈ retired_statuses ∨
  OrgRollout_Status (cancel_row t w p cid now r) = AWSOrganizationRolloutStatusCompleted ∧
  OrgRollout_Status r = AWSOrganizationRolloutStatusCompleted.
Proof.
  intros Hv Hctl. unfold cancel_row. rewrite Hctl. cbn [andb].
  destruct (awsOrganizationRolloutCancelableOnLifecycleChange (OrgRollout_Status r)) eqn:Hcan; [left; right; left|].
  destruct (awsOrganizationRolloutTargetMutationAllowed (OrgRollout_Status r)) eqn:Hm; [|left; by apply retired_status].
  right. unfold awsOrganizationRolloutCancelableOnLifecycleChange, awsOrganizationRolloutTargetMutationAllowed in *.
  boolify. revert Hcan Hm. repeat (rewrite elem_of_app || rewrite elem_of_cons). tauto.
Qed.

(** The operator decisions that shut down a connector: disconnecting it, or
    disabling it while it is enabled. *)
Inductive shuts_down (ctx : Context) (w p cid : string) (c : TenancyConnector) : connector_op → Prop :=
| shut_disconnect clock now : shuts_down ctx w p cid c (OpDisconnect clock ctx w p cid now)
| shut_disable clock now : Connector_Disabled c = false → shuts_down ctx w p cid c (OpSetDisabled clock ctx w p cid true now).

Lemma scoped_key ctx w p cid scope resolved :
  scoped_workspace ctx w = Ok (scope, resolved) →
  scoped_connector_key ctx w p cid = Ok (scope, resolved, tenancyConnectorKey (Scope_TenantID scope) resolved p cid).
Proof. intros H. unfold scoped_connector_key. rewrite H. cbn. by rewrite tenancyConnectorKey_trim_ids. Qed.

Lemma shutdown_call ctx w p cid scope resolved c op s :
  scoped_workspace ctx w = Ok (scope, resolved) →
  connectors s !! tenancyConnectorKey (Scope_TenantID scope) resolved p cid = Some c →
  Connector_Status c ≠ ConnectorStatusDisconnected → shuts_down ctx w p cid c op →
  ∃ s1 c1 now, call op s = Ok s1 ∧
    connectors s1 !! tenancyConnectorKey (Scope_TenantID scope) resolved p cid = Some c1 ∧
    generation c1 = wrap64 (generation c + 1) ∧
    awsOrgRollouts s1 =
      cancel_row (Scope_TenantID scope) resolved (TrimSpace p) (TrimSpace cid) now <$> awsOrgRollouts s ∧
    awsOrgRolloutTargets s1 = awsOrgRolloutTargets s.
Proof.
  intros Hscope Hc Hst Hop. destruct Hop as [clock now|clock now Hd]; cbn [call].
  - unfold DisconnectTenancyConnector. rewrite (scoped_key _ _ _ _ _ _ Hscope). cbn [mbind result_bind].
    rewrite Hc, decide_False by done. eexists _, _, (connectorLifecycleNow clock now). split; [done|].
    split; [by apply lookup_insert_eq|done].
  - unfold SetTenancyConnectorDisabled. rewrite (scoped_key _ _ _ _ _ _ Hscope). cbn [mbind result_bind].
    rewrite Hc, bool_decide_eq_false_2 by done. cbn [negb guard_err mbind result_bind].
    rewrite decide_False by by rewrite Hd. eexists _, _, (connectorLifecycleNow clock now). split; [done|].
    split; [by apply lookup_insert_eq|done].
Qed.

Lemma controlled_key r t w p cid :
  controlled_by t w (TrimSpace p) (TrimSpace cid) r = true → rollout_connector_key r = tenancyConnectorKey t w p cid.
Proof.
  unfold controlled_by, rollout_connector_key. intros H. boolify.
  repeat match goal with E : _ = _ |- _ => rewrite E; clear E end. apply tenancyConnectorKey_trim_ids.
Qed.

(** C20. When an operator disconnects a connector, or disables an enabled one,
    the call succeeds, and from then on, whatever calls follow (the connector
    may be enabled or connected again), each of its AWS organization rollouts
    is expired or canceled, or was completed before and stays so; no target of
    it is added or changed any more.  The tables are well-formed to begin with,
    and throughout no rollout id holds a NUL byte and no generation is at its
    maximum. *)
Theorem shutdown_freezes_rollouts ctx w p cid scope resolved c op ops s id r
    (Hok : tables_ok s) (Hplain : always connector_step plain_state (op :: ops) s)
    (Hscope : scoped_workspace ctx w = Ok (scope, resolved))
    (Hc : connectors s !! tenancyConnectorKey (Scope_TenantID scope) resolved p cid = Some c)
    (Hst : Connector_Status c ≠ ConnectorStatusDisconnected) (Hop : shuts_down ctx w p cid c op)
    (Hr : awsOrgRollouts s !! id = Some r)
    (Hctl : controlled_by (Scope_TenantID scope) resolved (TrimSpace p) (TrimSpace cid) r = true) :
  is_ok (call op s) = true ∧
  let s2 := run connector_step (op :: ops) s in
  (∃ r2, awsOrgRollouts s2 !! id = Some r2 ∧
     (OrgRollout_Status r2 ∈ retired_statuses ∨
      OrgRollout_Status r2 = AWSOrganizationRolloutStatusCompleted ∧
      OrgRollout_Status r = AWSOrganizationRolloutStatusCompleted)) ∧
  targets_of id s2 = targets_of id s.
Proof.
  destruct (shutdown_call ctx w p cid scope resolved c op s) as (s1 & c1 & now & Hcall & Hc1 & Hg1 & Hrs & Hts); [done..|].
  split; [by rewrite Hcall|]. intros s2. cbn [always] in Hplain. destruct Hplain as [[Hmax Hids] Hplain].
  assert (connector_step s op = s1) as Hstep by (unfold connector_step; by rewrite Hcall).
  rewrite Hstep in Hplain. change s2 with (run connector_step ops (connector_step s op)). rewrite Hstep. clear s2.
  pose (r1 := cancel_row (Scope_TenantID scope) resolved (TrimSpace p) (TrimSpace cid) now r).
  pose proof (cancel_row_ids (Scope_TenantID scope) resolved (TrimSpace p) (TrimSpace cid) now r) as (_ & Hk & Hg).
  fold r1 in Hk, Hg. assert (OrgRollout_Status r1 ∈ retired_statuses ∨ OrgRollout_Status r1 = AWSOrganizationRolloutStatusCompleted ∧
          OrgRollout_Status r = AWSOrganizationRolloutStatusCompleted) as Hst1.
  { apply cancel_row_retires; [by eapply rollouts_keyed|done]. }
  assert (frozen id r1 (targets_of id s) s1) as Hf.
  { split; [|split].
    - exists c1. rewrite Hk, (controlled_key _ _ _ _ _ Hctl). split; [done|]. rewrite Hg, Hg1.
      destruct (rollout_generation s Hok _ _ Hr) as (c0 & Hc0 & Hle).
      rewrite (controlled_key _ _ _ _ _ Hctl) in Hc0. simplify_eq. pose proof (Hmax _ _ Hc) as Hb. cbn in Hb.
      rewrite wrap64_id by (unfold in_int64, int64_min, int64_max in *; lia). lia.
    - exists r1. rewrite Hrs, lookup_fmap, Hr. split_and!; auto.
    - unfold targets_of. by rewrite Hts. }
  assert (tables_ok s1) as Hok1.
  { rewrite <-Hstep. eapply effect_tables_ok; [apply step_effect|done..]. }
  destruct (run_frozen ops s1 id r1 (targets_of id s)) as (_ & (r2 & Hr2 & _ & _ & Hst2) & Hts2); [done..|].
  split; [|done]. exists r2. split; [done|]. destruct Hst2 as [->|]; [done|by left].
Qed.

(** ** Examples *)
Definition sample_conn_ctx : Context := Some (mkScope "acme" "prod").
Definition sample_conn_directory : DirectoryState :=
  with_projects {[tenancyProjectKey "acme" "prod" "p1" := mkProject "acme" "prod" "p1" "P1" "p1" "" None 0 0]}
    empty_directory.
Definition sample_connector (id type status : string) (gen : Z) : TenancyConnector :=
  mkConnector "" "" "p1" id type "Source" status false gen "" "" "" None "" None time_zero time_zero.
Definition sample_conn_state (metadata : gmap string any) : TenancyConnectorState :=
  mkConnState "" "" "" "" "healthy" "" None "" "" metadata time_zero time_zero.
Definition sample_rollout (status : string) (version : Z) : AWSOrganizationRollout :=
  mkOrgRollout "r1" "" "" "p1" "aws-1" 0 "management" "o-1" "123456789012" "aws" "service_managed" "stack" "role" "v1"
    "sum" (of_bytes (repeat "h"%char 32)) "k1" [] [] [] ["us-east-1"] true status "" "" 1000 time_zero time_zero version.
Definition sample_target (state : string) : AWSOrganizationRolloutTarget :=
  mkOrgTarget "r1" "210987654321" "us-east-1" "" "" "p1" "" "" false state "" "" "" "" "" false "" "" time_zero None
    time_zero time_zero 0.
Definition sample_secret (name : string) : TenancyConnectorSecretEnvelope :=
  mkSecret "" "" "p1" "aws-1" name 0 (mkEnvelope 1 AlgorithmAES256GCM "v1" sample_nonce "sealed") "" time_zero None
    time_zero time_zero.

(** A connected AWS connector with a rollout, one of its targets and a secret. *)
Definition sample_setup : list connector_op :=
  [OpUpsertConnector sample_conn_directory 1 sample_conn_ctx (sample_connector "aws-1" "aws" "active" 0) (sample_conn_state ∅);
   OpUpsertSecret 1 sample_conn_ctx (sample_secret "external_id");
   OpCreateRollout 2 sample_conn_ctx (sample_rollout "in_progress" 0);
   OpUpsertTarget 3 sample_conn_ctx (sample_target "deploying")].
Definition sample_tables : ConnectorTables := run connector_step sample_setup empty_tables.
(** What a late callback and an operator may do afterwards. *)
Definition sample_after : list connector_op :=
  [OpUpsertConnector sample_conn_directory 5 sample_conn_ctx (sample_connector "aws-1" "aws" "active" 0) (sample_conn_state ∅);
   OpUpsertConnector sample_conn_directory 6 sample_conn_ctx (sample_connector "aws-1" "aws" "active" 1) (sample_conn_state ∅);
   OpUpdateRollout 7 sample_conn_ctx (sample_rollout "in_progress" 0) 2;
   OpUpsertTarget 8 sample_conn_ctx (sample_target "connected")].
Definition sample_disconnect : connector_op := OpDisconnect 4 sample_conn_ctx "" "p1" "aws-1" 4.
Definition sample_conn_key : string := tenancyConnectorKey "acme" "prod" "p1" "aws-1".

Example sample_connector_run :
  let s := run connector_step (sample_disconnect :: sample_after) sample_tables in
  (Connector_Status <$> connectors s !! sample_conn_key, generation <$> connectors s !! sample_conn_key,
   OrgRollout_Status <$> awsOrgRollouts s !! "r1", size (connSecrets s),
   OrgTarget_State <$> awsOrgRolloutTargets s !! target_key (sample_target "")) =
  (Some "active", Some 1, Some "canceled", 0%nat, Some "deploying").
Proof. by vm_compute. Qed.

Ltac decide_now := apply (bool_decide_unpack _); by vm_compute.

Lemma stale_lifecycle_writes_rejected_witness :
  let s2 := run connector_step sample_after (connector_step sample_tables sample_disconnect) in
  is_ok (CreateTenancyConnectorSecretEnvelopeIfAbsentAtGeneration 9 sample_conn_ctx (sample_secret "external_id") 0 s2) = false ∧
  is_ok (UpsertTenancyConnectorSecretEnvelopeAtGeneration 9 sample_conn_ctx (sample_secret "external_id") 0 s2) = false.
Proof.
  destruct (connectors sample_tables !! sample_conn_key) as [c|] eqn:Hc; [|by vm_compute in Hc].
  destruct (connectors (connector_step sample_tables sample_disconnect) !! sample_conn_key) as [c1|] eqn:Hc1;
    [|by vm_compute in Hc1].
  assert (generation c = 0) as Hg by (vm_compute in Hc; by injection Hc as <-).
  assert (generation c1 = 1) as Hg1 by (vm_compute in Hc1; by injection Hc1 as <-).
  destruct (stale_lifecycle_writes_rejected sample_conn_key c c1 sample_disconnect sample_after sample_tables)
    as (_ & Hs & _); [done|done|lia|lia|rewrite Hg; by vm_compute|].
  rewrite Hg in Hs. apply Hs. exists (mkScope "acme" "prod"), "prod". split; by vm_compute.
Defined.

Lemma connector_tables_invariant_witness : tables_ok sample_tables.
Proof.
  apply (connector_tables_invariant sample_setup). repeat (split; [decide_now|]). done.
Defined.

Lemma shutdown_freezes_rollouts_witness :
  is_ok (call sample_disconnect sample_tables) = true ∧
  targets_of "r1" (run connector_step (sample_disconnect :: sample_after) sample_tables) = targets_of "r1" sample_tables.
Proof.
  destruct (connectors sample_tables !! tenancyConnectorKey (Scope_TenantID (mkScope "acme" "prod")) "prod" "p1" "aws-1")
    as [c|] eqn:Hc; [|by vm_compute in Hc].
  destruct (awsOrgRollouts sample_tables !! "r1") as [r|] eqn:Hr; [|by vm_compute in Hr].
  destruct (shutdown_freezes_rollouts sample_conn_ctx "" "p1" "aws-1" (mkScope "acme" "prod") "prod" c
              sample_disconnect sample_after sample_tables "r1" r) as (H1 & _ & H2).
  - apply run_tables_ok; [repeat (split; [decide_now|]); done|apply empty_tables_ok].
  - repeat (split; [split; decide_now|]). done.
  - by vm_compute.
  - exact Hc.
  - vm_compute in Hc. by injection Hc as <-.
  - apply shut_disconnect.
  - exact Hr.
  - vm_compute in Hr. by injection Hr as <-.
  - split; [exact H1|exact H2].
Defined.

(** *** Secrets *)
Lemma secret_key_prefix t w p c n t' w' p' c' :
  HasPrefix (tenancyConnectorSecretKey t w p c n) (tenancyConnectorKey t' w' p' c') = true ↔
  tenancyConnectorKey t w p c = tenancyConnectorKey t' w' p' c'.
Proof.
  unfold tenancyConnectorSecretKey, tenancyConnectorKey. rewrite HasPrefix_composite_key. split.
  - intros [k Hk]. by injection Hk as -> -> -> -> _.
  - intros H%composite_key_parts. injection H as -> -> -> ->. by exists [TrimSpace n].
Qed.

Lemma scoped_secret_key_Ok ctx w p cid name scope resolved :
  scoped_workspace ctx w = Ok (scope, resolved) →
  scoped_secret_key ctx w p cid name =
    Ok (tenancyConnectorSecretKey (Scope_TenantID scope) resolved (TrimSpace p) (TrimSpace cid) (TrimSpace name)).
Proof. intros H. unfold scoped_secret_key. by rewrite H. Qed.

(** Disconnecting a connected connector erases exactly its own secrets:
    the entries of every other connector (of any tenant, whatever characters
    the ids hold) are untouched, and reading any secret of the connector then
    reports that there is none.  Its row is marked disconnected under the next
    generation; the rows of the other connectors are untouched. *)
Theorem disconnect_erases_own_secrets clock ctx w p cid now scope resolved c s
    (Hscope : scoped_workspace ctx w = Ok (scope, resolved))
    (Hc : connectors s !! tenancyConnectorKey (Scope_TenantID scope) resolved p cid = Some c)
    (Hst : Connector_Status c ≠ ConnectorStatusDisconnected) :
  let key := tenancyConnectorKey (Scope_TenantID scope) resolved p cid in
  ∃ s' out, DisconnectTenancyConnector clock ctx w p cid now s = Ok (s', out) ∧
    (∀ name, GetTenancyConnectorSecretEnvelope ctx w p cid name s' = Err ErrNotFound) ∧
    (∀ t' w' p' c' name, tenancyConnectorKey t' w' p' c' ≠ key →
       connSecrets s' !! tenancyConnectorSecretKey t' w' p' c' name =
       connSecrets s !! tenancyConnectorSecretKey t' w' p' c' name) ∧
    (∀ k, k ≠ key → connectors s' !! k = connectors s !! k) ∧
    ∃ c', connectors s' !! key = Some c' ∧ Connector_Status c' = ConnectorStatusDisconnected ∧
      generation c' = wrap64 (generation c + 1).
Proof.
  cbv zeta. set (key := tenancyConnectorKey (Scope_TenantID scope) resolved p cid) in *. unfold DisconnectTenancyConnector. rewrite (scoped_key _ _ _ _ _ _ Hscope). cbn [mbind result_bind].
  fold key. rewrite Hc, decide_False by done. eexists _, _. split; [done|]. split_and!.
  - intros name. unfold GetTenancyConnectorSecretEnvelope. rewrite (scoped_secret_key_Ok _ _ _ _ _ _ _ Hscope).
    cbn [mbind result_bind connSecrets cancelAWSOrganizationRolloutsLocked with_awsOrgRollouts with_connSecrets].
    rewrite map_lookup_filter_None_2; [done|]. right. intros e _. cbn. apply not_false_iff_true.
    apply secret_key_prefix, tenancyConnectorKey_trim_ids.
  - intros t' w' p' c' name Hne. cbn [connSecrets cancelAWSOrganizationRolloutsLocked with_awsOrgRollouts with_connSecrets].
    rewrite map_lookup_filter. cbn [connSecrets with_connector_row].
    destruct (connSecrets s !! _) as [e|]; [|done]. cbn [mbind option_bind].
    rewrite option_guard_True; [done|]. apply not_true_is_false. unfold key. by rewrite secret_key_prefix.
  - intros k Hk. by apply lookup_insert_ne.
  - eexists. split; [by apply lookup_insert_eq|done].
Qed.

Lemma disconnect_erases_own_secrets_witness :
  ∃ s' out, DisconnectTenancyConnector 4 sample_conn_ctx "" "p1" "aws-1" 4 sample_tables = Ok (s', out) ∧
    GetTenancyConnectorSecretEnvelope sample_conn_ctx "" "p1" "aws-1" "external_id" s' = Err ErrNotFound.
Proof.
  destruct (connectors sample_tables !! tenancyConnectorKey (Scope_TenantID (mkScope "acme" "prod")) "prod" "p1" "aws-1")
    as [c|] eqn:Hc; [|by vm_compute in Hc].
  destruct (disconnect_erases_own_secrets 4 sample_conn_ctx "" "p1" "aws-1" 4 (mkScope "acme" "prod") "prod" c sample_tables)
    as (s' & out & Hd & Hnone & _).
  - by vm_compute.
  - exact Hc.
  - vm_compute in Hc. by injection Hc as <-.
  - exists s', out. split; [exact Hd|apply Hnone].
Defined.

(** *** Enrollment does not look at the lifecycle

    An enrollment token issued before an operator disconnected a Kubernetes
    connector still works afterwards: claiming it makes the connector active
    again, without the lifecycle decision the generation stands for. *)
Definition enrolling_metadata : gmap string any := {["enrollment_token_sha256" := AString "digest"]}.
Definition enrollment_run : list connector_op :=
  [OpUpsertConnector sample_conn_directory 1 sample_conn_ctx (sample_connector "k8s-1" "kubernetes" "pending" 0)
     (sample_conn_state enrolling_metadata);
   OpDisconnect 2 sample_conn_ctx "" "p1" "k8s-1" 2;
   OpClaimEnrollment sample_conn_ctx "" "p1" "k8s-1" "digest" ∅ "active" "healthy" "" "" 3 3].
Definition k8s_row (n : nat) : option (string * Z) :=
  (λ c, (Connector_Status c, generation c)) <$>
    connectors (run connector_step (take n enrollment_run) empty_tables) !! tenancyConnectorKey "acme" "prod" "p1" "k8s-1".

Example enrollment_revives_disconnected : k8s_row 2 = Some ("disconnected", 1) ∧ k8s_row 3 = Some ("active", 1).
Proof. split; by vm_compute. Qed.

Lemma target_transitions_witness :
  ∃ s' t', call (OpUpsertTarget 9 sample_conn_ctx (sample_target "connected")) sample_tables = Ok s' ∧
    awsOrgRolloutTargets s' !! target_key (sample_target "") = Some t' ∧ OrgTarget_State t' = "connected".
Proof.
  destruct (awsOrgRolloutTargets sample_tables !! target_key (sample_target "")) as [t|] eqn:Ht; [|by vm_compute in Ht].
  destruct (call (OpUpsertTarget 9 sample_conn_ctx (sample_target "connected")) sample_tables) as [s'|] eqn:Hs;
    [|by vm_compute in Hs].
  destruct (target_transitions _ _ _ _ _ Hs Ht) as (t' & Ht' & _). exists s', t'.
  split; [done|]. split; [exact Ht'|]. vm_compute in Hs. injection Hs as <-. vm_compute in Ht'. by injection Ht' as <-.
Defined.
