(* ===== verification/K8sNormalizer.v ===== *)
(** * Normalizing Kubernetes objects

    [internal/providers/kubernetes/model.go] and [normalizer.go]: service
    accounts, pods, role bindings and roles, decoded from their JSON payloads,
    become identities, workloads and permission policies.  The JSON parser is a
    parameter; the call's context is taken not to be cancelled. *)
From S2P Require Import Prelude GoStrings GoCollections GoTime GoText ScanDomain GraphContract Scanner.

(** ** The objects *)
Record ObjectMeta := mkMeta { om_Name : string; om_Namespace : string; om_Labels : gmap string string }.
Record ServiceAccount := mkServiceAccount { sa_Kind : string; sa_Metadata : ObjectMeta }.
Record RoleRef := mkRoleRef { rr_Kind : string; rr_Name : string }.
Record Subject := mkSubject { sub_Kind : string; sub_Name : string; sub_Namespace : string }.
Record RoleBinding := mkRoleBinding {
  rb_Kind : string; rb_Metadata : ObjectMeta; rb_RoleRef : RoleRef; rb_Subjects : list Subject }.
Record Pod := mkPod { pod_Kind : string; pod_Metadata : ObjectMeta; pod_ServiceAccountName : string }.
Record PolicyRule := mkPolicyRule {
  pr_APIGroups : list string; pr_Resources : list string; pr_Verbs : list string; pr_NonResourceURLs : list string }.
Record RBACRole := mkRole { role_Kind : string; role_Metadata : ObjectMeta; role_Rules : list PolicyRule }.

(** *** Decoding

    [json.Unmarshal] visits an object's members in order and stores each in the
    field whose name it equals up to case; [null] changes nothing in a string
    or a struct and empties a list or a map.  A member no field is named after
    is skipped.  [None] is a value of the wrong type. *)
Definition json_fields {A} (set : string → any → A → option A) (init : A) (v : any) : option A :=
  match v with
  | ANil => Some init
  | AMap m => foldl (λ acc kv, acc ≫= set kv.1 kv.2) (Some init) m
  | _ => None
  end.
Definition json_string (old : string) (v : any) : option string :=
  match v with AString s => Some s | ANil => Some old | _ => None end.
Definition json_list {A} (decode : any → option A) (v : any) : option (list A) :=
  match v with AList l => mapM decode l | ANil => Some [] | _ => None end.
Definition json_labels (old : gmap string string) (v : any) : option (gmap string string) :=
  match v with
  | ANil => Some ∅
  | AMap m => foldl (λ acc kv, labels ← acc; s ← json_string "" kv.2; Some (<[kv.1 := s]> labels)) (Some old) m
  | _ => None
  end.

Definition zero_meta : ObjectMeta := mkMeta "" "" ∅.
Definition decode_meta (old : ObjectMeta) : any → option ObjectMeta :=
  json_fields (λ k v m,
    if EqualFold k "name" then s ← json_string (om_Name m) v; Some (mkMeta s (om_Namespace m) (om_Labels m))
    else if EqualFold k "namespace" then s ← json_string (om_Namespace m) v; Some (mkMeta (om_Name m) s (om_Labels m))
    else if EqualFold k "labels" then l ← json_labels (om_Labels m) v; Some (mkMeta (om_Name m) (om_Namespace m) l)
    else Some m) old.
Definition decode_service_account : any → option ServiceAccount :=
  json_fields (λ k v x,
    if EqualFold k "kind" then s ← json_string (sa_Kind x) v; Some (mkServiceAccount s (sa_Metadata x))
    else if EqualFold k "metadata" then m ← decode_meta (sa_Metadata x) v; Some (mkServiceAccount (sa_Kind x) m)
    else Some x) (mkServiceAccount "" zero_meta).
Definition decode_pod : any → option Pod :=
  json_fields (λ k v x,
    if EqualFold k "kind" then s ← json_string (pod_Kind x) v; Some (mkPod s (pod_Metadata x) (pod_ServiceAccountName x))
    else if EqualFold k "metadata" then
      m ← decode_meta (pod_Metadata x) v; Some (mkPod (pod_Kind x) m (pod_ServiceAccountName x))
    else if EqualFold k "spec" then
      s ← json_fields (λ k v old, if EqualFold k "serviceAccountName" then json_string old v else Some old)
            (pod_ServiceAccountName x) v;
      Some (mkPod (pod_Kind x) (pod_Metadata x) s)
    else Some x) (mkPod "" zero_meta "").
Definition decode_role_ref (old : RoleRef) : any → option RoleRef :=
  json_fields (λ k v x,
    if EqualFold k "kind" then s ← json_string (rr_Kind x) v; Some (mkRoleRef s (rr_Name x))
    else if EqualFold k "name" then s ← json_string (rr_Name x) v; Some (mkRoleRef (rr_Kind x) s)
    else Some x) old.
Definition decode_subject : any → option Subject :=
  json_fields (λ k v x,
    if EqualFold k "kind" then s ← json_string (sub_Kind x) v; Some (mkSubject s (sub_Name x) (sub_Namespace x))
    else if EqualFold k "name" then s ← json_string (sub_Name x) v; Some (mkSubject (sub_Kind x) s (sub_Namespace x))
    else if EqualFold k "namespace" then s ← json_string (sub_Namespace x) v; Some (mkSubject (sub_Kind x) (sub_Name x) s)
    else Some x) (mkSubject "" "" "").
Definition decode_role_binding : any → option RoleBinding :=
  json_fields (λ k v x,
    if EqualFold k "kind" then
      s ← json_string (rb_Kind x) v; Some (mkRoleBinding s (rb_Metadata x) (rb_RoleRef x) (rb_Subjects x))
    else if EqualFold k "metadata" then
      m ← decode_meta (rb_Metadata x) v; Some (mkRoleBinding (rb_Kind x) m (rb_RoleRef x) (rb_Subjects x))
    else if EqualFold k "roleRef" then
      r ← decode_role_ref (rb_RoleRef x) v; Some (mkRoleBinding (rb_Kind x) (rb_Metadata x) r (rb_Subjects x))
    else if EqualFold k "subjects" then
      l ← json_list decode_subject v; Some (mkRoleBinding (rb_Kind x) (rb_Metadata x) (rb_RoleRef x) l)
    else Some x) (mkRoleBinding "" zero_meta (mkRoleRef "" "") []).
Definition json_strings : any → option (list string) := json_list (json_string "").
Definition decode_rule : any → option PolicyRule :=
  json_fields (λ k v x,
    if EqualFold k "apiGroups" then
      l ← json_strings v; Some (mkPolicyRule l (pr_Resources x) (pr_Verbs x) (pr_NonResourceURLs x))
    else if EqualFold k "resources" then
      l ← json_strings v; Some (mkPolicyRule (pr_APIGroups x) l (pr_Verbs x) (pr_NonResourceURLs x))
    else if EqualFold k "verbs" then
      l ← json_strings v; Some (mkPolicyRule (pr_APIGroups x) (pr_Resources x) l (pr_NonResourceURLs x))
    else if EqualFold k "nonResourceURLs" then
      l ← json_strings v; Some (mkPolicyRule (pr_APIGroups x) (pr_Resources x) (pr_Verbs x) l)
    else Some x) (mkPolicyRule [] [] [] []).
Definition decode_role : any → option RBACRole :=
  json_fields (λ k v x,
    if EqualFold k "kind" then s ← json_string (role_Kind x) v; Some (mkRole s (role_Metadata x) (role_Rules x))
    else if EqualFold k "metadata" then m ← decode_meta (role_Metadata x) v; Some (mkRole (role_Kind x) m (role_Rules x))
    else if EqualFold k "rules" then l ← json_list decode_rule v; Some (mkRole (role_Kind x) (role_Metadata x) l)
    else Some x) (mkRole "" zero_meta []).

(** [if err := json.Unmarshal(asset.Payload, &x); err != nil { return ...,
    fmt.Errorf("decode <what> asset[%d]: %w", i, err) }]. *)
Definition unmarshal `{JSON} {A} (decode : any → option A) (what : string) (i : nat) (asset : RawAsset) : result A :=
  match json_parse (ra_Payload asset) ≫= decode with
  | Some x => Ok x
  | None => Err (Wrap ("decode " +:+ what +:+ " asset[" +:+ Itoa (Z.of_nat i) +:+ "]") (Errorf "invalid JSON"))
  end.

(** ** Node ids *)
Definition serviceAccountID (namespace name : string) : string :=
  "k8s:identity:sa:" +:+ TrimSpace namespace +:+ String ":" (TrimSpace name).
Definition workloadID (namespace name : string) : string :=
  "k8s:workload:pod:" +:+ TrimSpace namespace +:+ String ":" (TrimSpace name).
Definition policyID (scope name identityID : string) : string :=
  "k8s:policy:" +:+ ToLower (TrimSpace scope) +:+ String ":" (TrimSpace name +:+ String ":" (TrimSpace identityID)).
Definition roleRuleKey (kind namespace name : string) : string :=
  let k := ToLower (TrimSpace kind) in
  let n := ToLower (TrimSpace name) in
  let ns := ToLower (TrimSpace namespace) in
  if decide (n = "") then ""
  else if decide (k = "clusterrole") then "cluster::" +:+ n
  else if decide (ns = "") then ""
  else "namespace::" +:+ ns +:+ "::" +:+ n.
Definition label (labels : gmap string string) (key : string) : string := default "" (labels !! key).
Definition ownerHint (labels : gmap string string) : string :=
  default "" (head (nonempty_map TrimSpace [label labels "owner"; label labels "team"; label labels "service"])).

(** ** Statements *)
Definition normalizeRuleValues (values : list string) : list string := unique (nonempty_map canon values).
Definition allow_statement (actions resources : list string) : list (string * any) :=
  [("effect", AString "Allow"); ("actions", AStrings actions); ("resources", AStrings resources)].
Definition rule_statement (rule : PolicyRule) : option (list (string * any)) :=
  let actions := normalizeRuleValues (pr_Verbs rule) in
  let resources := normalizeRuleValues (pr_Resources rule ++ pr_NonResourceURLs rule) in
  if is_nil actions || is_nil resources then None else Some (allow_statement actions resources).
Definition statementsForPolicyRules (rules : list PolicyRule) : list (list (string * any)) := omap rule_statement rules.
Definition statementsForRole (roleName : string) : list (list (string * any)) :=
  let normalized := ToLower (TrimSpace roleName) in
  if bool_decide (normalized ∈ ["cluster-admin"; "admin"]) then [allow_statement ["*"] ["*"]]
  else if bool_decide (normalized ∈ ["view"; "read"; "reader"]) then [allow_statement ["get"; "list"; "watch"] ["*"]]
  else if bool_decide (normalized = "edit") then
    [allow_statement ["get"; "list"; "watch"; "create"; "update"; "patch"] ["*"]]
  else [].

Abbreviation role_table := (gmap string (list (list (string * any)))).
Definition resolveBindingStatements (binding : RoleBinding) (roleStatements : role_table) : list (list (string * any)) :=
  let roleKind := TrimSpace (rr_Kind (rb_RoleRef binding)) in
  let roleName := TrimSpace (rr_Name (rb_RoleRef binding)) in
  let roleNamespace := if EqualFold roleKind "Role" then TrimSpace (om_Namespace (rb_Metadata binding)) else "" in
  let key := roleRuleKey roleKind roleNamespace roleName in
  let found := if nonempty key then default [] (roleStatements !! key) else [] in
  if is_nil found then statementsForRole roleName else found.

(** ** [Normalize] *)

(** The entry a role adds to the table, if any. *)
Definition role_entry (role : RBACRole) : option (string * list (list (string * any))) :=
  let key := roleRuleKey (role_Kind role) (om_Namespace (role_Metadata role)) (om_Name (role_Metadata role)) in
  let statements := statementsForPolicyRules (role_Rules role) in
  if bool_decide (key = "") || is_nil statements then None else Some (key, statements).

Inductive entity := EIdentity (i : Identity) | EWorkload (w : Workload) | EPolicy (p : Policy).

Definition service_account_entity (asset : RawAsset) (sa : ServiceAccount) : list entity :=
  let ns := TrimSpace (om_Namespace (sa_Metadata sa)) in
  let name := TrimSpace (om_Name (sa_Metadata sa)) in
  if bool_decide (ns = "") || bool_decide (name = "") then []
  else
    let identityID := serviceAccountID ns name in
    [EIdentity {| id_ID := identityID; id_Provider := "kubernetes"; id_Type := "service_account"; id_IdentityKind := "";
                  id_ManagedBy := ""; id_Name := ns +:+ "/" +:+ name; id_ARN := identityID;
                  id_OwnerHint := ownerHint (om_Labels (sa_Metadata sa)); id_CreatedAt := time_zero; id_LastUsedAt := None |}].
Definition pod_entity (pod : Pod) : list entity :=
  let ns := TrimSpace (om_Namespace (pod_Metadata pod)) in
  let name := TrimSpace (om_Name (pod_Metadata pod)) in
  let saName := TrimSpace (pod_ServiceAccountName pod) in
  if bool_decide (ns = "") || bool_decide (name = "") then []
  else
    let saName := if decide (saName = "") then "default" else saName in
    [EWorkload {| wl_ID := workloadID ns name; wl_Provider := "kubernetes"; wl_Type := "pod"; wl_Name := ns +:+ "/" +:+ name;
                  wl_RawRef := serviceAccountID ns saName |}].

(** The namespace and name of the service account a subject means, if it means
    one. *)
Definition subject_account (binding : RoleBinding) (subject : Subject) : option (string * string) :=
  if negb (EqualFold (TrimSpace (sub_Kind subject)) "ServiceAccount") then None
  else
    let ns := TrimSpace (sub_Namespace subject) in
    let ns := if decide (ns = "") then TrimSpace (om_Namespace (rb_Metadata binding)) else ns in
    let name := TrimSpace (sub_Name subject) in
    if bool_decide (ns = "") || bool_decide (name = "") then None else Some (ns, name).
Definition binding_scope (binding : RoleBinding) : string :=
  let scope := TrimSpace (om_Namespace (rb_Metadata binding)) in
  if decide (scope = "") then "cluster" else scope.
Definition subject_policy (asset : RawAsset) (binding : RoleBinding) (statements : list (list (string * any)))
    (account : string * string) : Policy :=
  let bindingName := TrimSpace (om_Name (rb_Metadata binding)) in
  let identityID := serviceAccountID account.1 account.2 in
  {| pol_ID := policyID (binding_scope binding) bindingName identityID; pol_Provider := "kubernetes"; pol_Name := bindingName;
     pol_Document := ra_Payload asset;
     pol_Normalized := [("policy_type", AString "permission"); ("identity_id", AString identityID); ("statements", AMaps statements)];
     pol_RawRef := ra_SourceID asset |}.
Definition binding_entities (roleStatements : role_table) (asset : RawAsset) (binding : RoleBinding) : list entity :=
  let statements := resolveBindingStatements binding roleStatements in
  if bool_decide (TrimSpace (om_Name (rb_Metadata binding)) = "") || is_nil statements then []
  else EPolicy ∘ subject_policy asset binding statements <$> omap (subject_account binding) (rb_Subjects binding).

Section normalize.
Context `{JSON}.

(** [for i, asset := range raw] with the results appended. *)
Fixpoint each_asset {A} (f : nat → RawAsset → result (list A)) (i : nat) (raw : list RawAsset) : result (list A) :=
  match raw with
  | [] => Ok []
  | asset :: raw => r ← f i asset; rest ← each_asset f (S i) raw; Ok (r ++ rest)
  end.

Definition asset_roles (i : nat) (asset : RawAsset) : result (list RBACRole) :=
  if decide (ra_Kind asset = "k8s_role") then role ← unmarshal decode_role "role" i asset; Ok [role] else Ok [].
Definition asset_entities (roleStatements : role_table) (i : nat) (asset : RawAsset) : result (list entity) :=
  if decide (ra_Kind asset = "k8s_service_account") then
    sa ← unmarshal decode_service_account "service account" i asset; Ok (service_account_entity asset sa)
  else if decide (ra_Kind asset = "k8s_pod") then pod ← unmarshal decode_pod "pod" i asset; Ok (pod_entity pod)
  else if decide (ra_Kind asset = "k8s_role_binding") then
    binding ← unmarshal decode_role_binding "role binding" i asset; Ok (binding_entities roleStatements asset binding)
  else Ok [].

(** Identities and policies whose id was already seen are skipped; workloads
    are not. *)
Definition bundle_of (entities : list entity) : NormalizedBundle :=
  {| b_Identities := dedup_by id_ID (omap (λ e, match e with EIdentity i => Some i | _ => None end) entities);
     b_Workloads := omap (λ e, match e with EWorkload w => Some w | _ => None end) entities;
     b_Policies := dedup_by pol_ID (omap (λ e, match e with EPolicy p => Some p | _ => None end) entities);
     b_Resources := []; b_Credentials := []; b_Agents := []; b_RuntimeEvents := [] |}.

Definition Normalize (raw : list RawAsset) : result NormalizedBundle :=
  roles ← each_asset asset_roles 0 raw;
  entities ← each_asset (asset_entities (collect role_entry roles)) 0 raw;
  Ok (bundle_of entities).
End normalize.
