(* ===== verification/K8sGraph.v ===== *)
(** * Permissions, graph and risk rules of a Kubernetes cluster

    [internal/providers/kubernetes/permissions.go], [graph.go] and [rules.go],
    over the normalized bundle.  SHA-256 is a parameter, the order of
    [sort.Slice] an interface; the call's context is taken not to be
    cancelled. *)
From S2P Require Import Prelude GoStrings GoCollections GoTime GoText GoParse ScanDomain GraphContract K8sNormalizer.

(** ** Permissions *)
Definition policy_type (p : Policy) : string := as_string (map_get (pol_Normalized p) "policy_type").
Definition policy_identity (p : Policy) : string := as_string (map_get (pol_Normalized p) "identity_id").

Definition parseStatements (raw : any) : result (list (list (string * any))) :=
  match raw with
  | AMaps l => Ok l
  | AList l =>
      mapM (λ item, match as_map item with
                    | Some statement => Ok statement
                    | None => Err (Errorf ("statement has unexpected type " +:+ go_type item))
                    end) l
  | _ => Err (Errorf ("expected statement array, got " +:+ go_type raw))
  end.
Definition parseStringList (raw : any) : list string :=
  match raw with
  | AStrings l => l
  | AList l => omap (λ v, match v with AString s => if decide (s = "") then None else Some s | _ => None end) l
  | AString s => if decide (s = "") then [] else [s]
  | _ => []
  end.

Definition statement_tuples (identityID : string) (statement : list (string * any)) : list PermissionTuple :=
  action ← parseStringList (map_get statement "actions");
  resource ← parseStringList (map_get statement "resources");
  [mkPermission identityID action resource (as_string (map_get statement "effect"))].
Definition policy_tuples (policy : Policy) : result (list PermissionTuple) :=
  if decide (policy_type policy = "permission") then
    let identityID := policy_identity policy in
    _ ← guard_err (nonempty identityID) (Errorf ("policy " +:+ pol_ID policy +:+ " missing identity_id"));
    match parseStatements (map_get (pol_Normalized policy) "statements") with
    | Ok statements => Ok (statements ≫= statement_tuples identityID)
    | Err e => Err (Wrap ("policy " +:+ pol_ID policy +:+ " invalid statements") e)
    end
  else Ok [].
Definition tuple_key (t : PermissionTuple) : string :=
  perm_IdentityID t +:+ String "|" (perm_Action t +:+ String "|" (perm_Resource t +:+ String "|" (perm_Effect t))).
Definition ResolvePermissions (bundle : NormalizedBundle) : result (list PermissionTuple) :=
  tuples ← concat_results policy_tuples (b_Policies bundle);
  Ok (dedup_by tuple_key tuples).

(** ** Relationships *)
Definition access_prefix : string := "k8s:access:".
Definition accessNodeID (action resource : string) : string :=
  access_prefix +:+ TrimSpace action +:+ String ":" (TrimSpace resource).
Definition edge (t : RelationshipType) (timestamp : Z) (from to evidence : string) : Relationship :=
  {| rel_ID := "k8s:rel:" +:+ relationship_type_string t +:+ String ":" (from +:+ String ":" to); rel_Type := t;
     rel_FromNodeID := from; rel_ToNodeID := to; rel_EvidenceRef := evidence; rel_DiscoveredAt := timestamp |}.

Definition workload_edges (identityIDs : gset string) (timestamp : Z) (workload : Workload) : list Relationship :=
  let identityID := wl_RawRef workload in
  if nonempty identityID && bool_decide (identityID ∈ identityIDs)
  then [edge BoundTo timestamp (wl_ID workload) identityID (wl_RawRef workload)] else [].
Definition policy_edges (timestamp : Z) (policy : Policy) : list Relationship :=
  let identityID := policy_identity policy in
  if bool_decide (policy_type policy = "permission") && nonempty identityID
  then [edge AttachedPolicy timestamp identityID (pol_ID policy) (pol_RawRef policy)] else [].
Definition permission_edges (timestamp : Z) (permission : PermissionTuple) : list Relationship :=
  if decide (perm_Effect permission = "Allow") then
    [edge CanAccess timestamp (perm_IdentityID permission)
       (accessNodeID (perm_Action permission) (perm_Resource permission)) (perm_Action permission)]
  else [].
Definition offered_edges (timestamp : Z) (bundle : NormalizedBundle) (perms : list PermissionTuple) : list Relationship :=
  (b_Workloads bundle ≫= workload_edges (list_to_set (id_ID <$> b_Identities bundle)) timestamp)
  ++ (b_Policies bundle ≫= policy_edges timestamp)
  ++ (perms ≫= permission_edges timestamp).
(** [appendRelationship], over the offered edges. *)
Definition appendRelationship (offered : list Relationship) : list Relationship :=
  dedup_by rel_ID (filter (λ r, nonempty (rel_FromNodeID r) = true ∧ nonempty (rel_ToNodeID r) = true) offered).
Definition ResolveRelationships (timestamp : Z) (bundle : NormalizedBundle) (perms : list PermissionTuple)
  : list Relationship :=
  appendRelationship (offered_edges timestamp bundle perms).

(** ** Risk rules *)
Definition parseAccessNode (nodeID : string) : option (string * string) :=
  if negb (HasPrefix nodeID access_prefix) then None
  else match SplitN (TrimPrefix nodeID access_prefix) ":" 2 with
       | [action; resource] =>
           let action := TrimSpace action in
           let resource := TrimSpace resource in
           if bool_decide (action = "") || bool_decide (resource = "") then None else Some (action, resource)
       | _ => None
       end.

Definition escalation_verbs : list string := ["create"; "update"; "patch"; "delete"; "escalate"; "bind"; "impersonate"].
Definition isEscalationPermission (action resource : string) : bool :=
  let a := canon action in
  let r := canon resource in
  if decide (a = "*") then true
  else if bool_decide (r = "*") && bool_decide (a ∈ escalation_verbs) then true
  else bool_decide (r ∈ ["clusterrolebindings"; "rolebindings"; "clusterroles"; "roles"; "secrets"]) &&
       bool_decide (a ∈ escalation_verbs).
Definition isOverprivilegedPermission (action resource : string) : bool :=
  let a := canon action in
  let r := canon resource in
  if bool_decide (a = "*") || bool_decide (r = "*") then true
  else if HasSuffix a "*" then true
  else isEscalationPermission action resource.

Record accessRisk := mkRisk { ar_Action : string; ar_Resource : string; ar_NodeID : string; ar_Escalates : bool }.
Definition hasEscalationRisk (risks : list accessRisk) : bool := existsb ar_Escalates risks.
Definition compare_risk (x y : accessRisk) : comparison :=
  lex (Z.compare (if ar_Escalates x then 0 else 1) (if ar_Escalates y then 0 else 1))
    (lex (compare_string (ar_Action x) (ar_Action y))
      (lex (compare_string (ar_Resource x) (ar_Resource y)) (compare_string (ar_NodeID x) (ar_NodeID y)))).
Definition sortAccessRisks `{SortSlice} (risks : list accessRisk) : list accessRisk := sort_slice (less_of compare_risk) risks.
Definition sortedIdentities `{SortSlice} (identities : list Identity) : list Identity :=
  sort_slice (less_of (λ x y, compare_string (id_ID x) (id_ID y))) identities.
Definition dedupeStrings (values : list string) : list string := SortStrings (unique (nonempty_map TrimSpace values)).
Definition severityRank (s : FindingSeverity) : Z :=
  match s with SeverityCritical => 0 | SeverityHigh => 1 | SeverityMedium => 2 | SeverityLow => 3 | SeverityInfo => 4 end.

Definition access_risk (r : Relationship) : option (string * accessRisk) :=
  match rel_Type r with
  | CanAccess =>
      match parseAccessNode (rel_ToNodeID r) with
      | Some (action, resource) =>
          if isOverprivilegedPermission action resource then
            Some (rel_FromNodeID r, {| ar_Action := action; ar_Resource := resource; ar_NodeID := rel_ToNodeID r;
                                       ar_Escalates := isEscalationPermission action resource |})
          else None
      | None => None
      end
  | _ => None
  end.
Definition bound_workload (r : Relationship) : option (string * string) :=
  match rel_Type r with BoundTo => Some (rel_ToNodeID r, rel_FromNodeID r) | _ => None end.

Class SHA256Hex := { sha256_hex : string → string }.

Section findings.
Context `{SHA256Hex}.

Definition findingID (parts : list string) : string := "k8s:finding:" +:+ sha256_hex (Join parts "|").

(** The fields these rules set. *)
Definition k8s_finding (id : string) (t : FindingType) (severity : FindingSeverity) (title summary : string)
    (path : list string) (evidence : list (string * any)) (remediation : string) (now : Z) : Finding :=
  {| f_ID := id; f_Type := t; f_Severity := severity; f_ConfidenceScore := 0; f_Actionability := ""; f_Exploitability := "";
     f_EvidenceCompleteness := ""; f_Provenance := ""; f_Title := title; f_HumanSummary := summary; f_Path := path;
     f_AdapterSource := ""; f_ConfidenceState := ""; f_EvidenceVersion := ""; f_Evidence := evidence;
     f_Remediation := remediation; f_CreatedAt := now |}.

Definition ownerlessFinding (identity : Identity) (now : Z) : Finding :=
  k8s_finding (findingID ["ownerless_identity"; id_ID identity; "ownerless"]) FindingOwnerless SeverityMedium
    ("Service account " +:+ id_Name identity +:+ " has no owner metadata")
    "This service account is missing owner labels, making incident response and remediation slower."
    [id_ID identity] [("identity_id", AString (id_ID identity)); ("provider", AString (id_Provider identity))]
    "Add `owner` or `team` labels to the service account and enforce owner-label policy in CI." now.

Definition overprivilegedFinding (identity : Identity) (top : accessRisk) (count : nat) (now : Z) : Finding :=
  k8s_finding (findingID ["overprivileged_identity"; id_ID identity; ar_NodeID top]) FindingOverPrivileged SeverityHigh
    ("Service account " +:+ id_Name identity +:+ " is broadly privileged")
    "This service account can perform broad actions that expand blast radius across the cluster."
    [id_ID identity; ar_NodeID top]
    [("identity_id", AString (id_ID identity)); ("risk_count", AInt (Z.of_nat count));
     ("sample", AMap [("action", AString (ar_Action top)); ("resource", AString (ar_Resource top))])]
    "Replace broad ClusterRole/Role bindings with least-privilege roles scoped to required namespaces and verbs." now.

(** The first risk that escalates, or the first. *)
Definition critical_risk (top : accessRisk) (risks : list accessRisk) : accessRisk :=
  default top (head (filter (λ r, ar_Escalates r = true) risks)).
Definition escalationFinding (identity : Identity) (workloadID : string) (criticalRisk : accessRisk) (now : Z) : Finding :=
  k8s_finding (findingID ["escalation_path"; id_ID identity; workloadID; ar_NodeID criticalRisk]) FindingEscalationPath
    SeverityCritical ("Workload " +:+ workloadID +:+ " can escalate via " +:+ id_Name identity)
    "A workload is bound to a highly privileged service account with escalation-capable permissions."
    [workloadID; id_ID identity; ar_NodeID criticalRisk]
    [("workload_id", AString workloadID); ("identity_id", AString (id_ID identity));
     ("action", AString (ar_Action criticalRisk)); ("resource", AString (ar_Resource criticalRisk))]
    "Use dedicated service accounts per workload and remove escalation verbs (`bind`, `escalate`, wildcard permissions)." now.

Context `{SortSlice}.

Definition identity_findings (risks : list accessRisk) (workloads : list string) (now : Z) (identity : Identity) : list Finding :=
  (if blank (id_OwnerHint identity) then [ownerlessFinding identity now] else [])
  ++ match sortAccessRisks risks with
     | [] => []
     | (top :: _) as sorted =>
         overprivilegedFinding identity top (length sorted) now ::
         (if hasEscalationRisk risks then
            (λ workloadID, escalationFinding identity workloadID (critical_risk top sorted) now) <$> dedupeStrings workloads
          else [])
     end.

Definition compare_finding (x y : Finding) : comparison :=
  lex (Z.compare (severityRank (f_Severity x)) (severityRank (f_Severity y)))
    (lex (compare_string (finding_type_string (f_Type x)) (finding_type_string (f_Type y)))
      (compare_string (f_ID x) (f_ID y))).

Definition raw_findings (now : Z) (bundle : NormalizedBundle) (relationships : list Relationship) : list Finding :=
  let identityWorkloads := group bound_workload relationships in
  let identityRisks := group access_risk relationships in
  sortedIdentities (b_Identities bundle) ≫= λ i,
    identity_findings (default [] (identityRisks !! id_ID i)) (default [] (identityWorkloads !! id_ID i)) now i.
Definition Evaluate (now : Z) (bundle : NormalizedBundle) (relationships : list Relationship) : list Finding :=
  sort_slice (less_of compare_finding) (raw_findings now bundle relationships).
End findings.
