(* ===== verification/K8sScan.v ===== *)
(** * Scanning a Kubernetes cluster, end to end

    The scan pipeline of [Scanner] with the Kubernetes normalizer, permission
    resolver, relationship resolver and rule set plugged in: when a scan of the
    collected objects completes, and what it reports, in terms of the decoded
    service accounts, pods, roles and bindings alone. *)
From S2P Require Import Prelude GoStrings GoCollections GoTime GoText GoParse ScanDomain GraphContract Scanner K8sNormalizer K8sGraph.

Definition k8s_scanner `{JSON, SHA256Hex, SortSlice} (collector : result (list RawAsset * list SourceError))
    (timestamp now : Z) : Scanner :=
  {| sc_Collector := collector; sc_Normalizer := Normalize; sc_PermissionResolver := ResolvePermissions;
     sc_RelationshipResolver := λ bundle perms, Ok (ResolveRelationships timestamp bundle perms);
     sc_RiskRuleSet := λ bundle relationships, Ok (Evaluate now bundle relationships) |}.

(** ** The collected objects *)
Section collected.
Context `{JSON} (raw : list RawAsset).

Definition decoded {A} (decode : any → option A) (asset : RawAsset) : option A :=
  json_parse (ra_Payload asset) ≫= decode.
(** [asset] is a collected object of the kind, and decodes to [x]. *)
Definition collected {A} (kind : string) (decode : any → option A) (asset : RawAsset) (x : A) : Prop :=
  asset ∈ raw ∧ ra_Kind asset = kind ∧ decoded decode asset = Some x.

(** A service account, by namespace and name. *)
Definition account (ns name : string) : Prop :=
  ns ≠ "" ∧ name ≠ "" ∧ ∃ asset sa, collected "k8s_service_account" decode_service_account asset sa ∧
    TrimSpace (om_Namespace (sa_Metadata sa)) = ns ∧ TrimSpace (om_Name (sa_Metadata sa)) = name.
(** A pod running as a service account of its namespace; a pod that names none
    runs as [default]. *)
Definition runs_as (ns name sa : string) : Prop :=
  ns ≠ "" ∧ name ≠ "" ∧ ∃ asset pod, collected "k8s_pod" decode_pod asset pod ∧
    TrimSpace (om_Namespace (pod_Metadata pod)) = ns ∧ TrimSpace (om_Name (pod_Metadata pod)) = name ∧
    sa = (let s := TrimSpace (pod_ServiceAccountName pod) in if decide (s = "") then "default" else s).
(** The statements of the collected roles. *)
Definition role_table_of : role_table :=
  collect role_entry (omap (λ a, if decide (ra_Kind a = "k8s_role") then decoded decode_role a else None) raw).
(** A named binding gives a service account some statements. *)
Definition bound (asset : RawAsset) (binding : RoleBinding) (ns name : string) (statements : list (list (string * any))) : Prop :=
  collected "k8s_role_binding" decode_role_binding asset binding ∧ TrimSpace (om_Name (rb_Metadata binding)) ≠ "" ∧
  statements = resolveBindingStatements binding role_table_of ∧ statements ≠ [] ∧
  (∃ subject, subject ∈ rb_Subjects binding ∧ subject_account binding subject = Some (ns, name)).
(** What a service account may do, by its bindings. *)
Definition may (ns name action resource : string) : Prop :=
  ∃ asset binding statements statement, bound asset binding ns name statements ∧ statement ∈ statements ∧
    action ∈ parseStringList (map_get statement "actions") ∧ resource ∈ parseStringList (map_get statement "resources").
End collected.

(** ** What [Normalize] returns *)
Section normalized.
Context `{JSON}.

Lemma elem_of_each_asset {A} (f : nat → RawAsset → result (list A)) i raw l y :
  each_asset f i raw = Ok l → y ∈ l ↔ ∃ j asset ys, raw !! j = Some asset ∧ f (i + j)%nat asset = Ok ys ∧ y ∈ ys.
Proof.
  revert i l. induction raw as [|asset raw IH]; intros i l Hl; cbn in Hl.
  { injection Hl as <-. split; [by intros ?%elem_of_nil|by intros (j & a & ys & [=] & _)]. }
  open_bind Hl r Hr. open_bind Hl rest Hrest. injection Hl as <-. rewrite elem_of_app, (IH _ _ Hrest). split.
  - intros [Hy|(j & a & ys & Hj & Hf & Hy)].
    + exists 0%nat, asset, r. by rewrite Nat.add_0_r.
    + exists (S j), a, ys. by rewrite <-Nat.add_succ_comm.
  - intros ([|j] & a & ys & Hj & Hf & Hy); cbn in Hj.
    + simplify_eq. rewrite Nat.add_0_r in Hf. left. congruence.
    + right. exists j, a, ys. by rewrite Nat.add_succ_comm.
Qed.

Lemma each_asset_each {A} (f : nat → RawAsset → result (list A)) i raw l asset :
  each_asset f i raw = Ok l → asset ∈ raw → ∃ j ys, raw !! j = Some asset ∧ f (i + j)%nat asset = Ok ys.
Proof.
  revert i l. induction raw as [|a raw IH]; intros i l Hl Ha; cbn in Hl; [by apply elem_of_nil in Ha|].
  open_bind Hl r Hr. open_bind Hl rest Hrest. apply elem_of_cons in Ha as [->|Ha].
  - exists 0%nat, r. by rewrite Nat.add_0_r.
  - destruct (IH _ _ Hrest Ha) as (j & ys & Hj & Hf). exists (S j), ys. by rewrite <-Nat.add_succ_comm.
Qed.

Lemma each_asset_roles i raw roles :
  each_asset asset_roles i raw = Ok roles →
  roles = omap (λ a, if decide (ra_Kind a = "k8s_role") then decoded decode_role a else None) raw.
Proof.
  revert i roles. induction raw as [|a raw IH]; intros i roles Hl; cbn in Hl; [by injection Hl as <-|].
  open_bind Hl r Hr. open_bind Hl rest Hrest. injection Hl as <-. apply IH in Hrest as ->.
  unfold asset_roles in Hr. cbn. destruct (decide _); [|by injection Hr as <-].
  open_bind Hr x Hx. injection Hr as <-. unfold unmarshal in Hx. fold (decoded decode_role a) in Hx.
  destruct (decoded decode_role a); by simplify_eq.
Qed.

Lemma unmarshal_Ok {A} (decode : any → option A) what i asset x :
  unmarshal decode what i asset = Ok x ↔ decoded decode asset = Some x.
Proof. unfold unmarshal, decoded. destruct (_ ≫= _); naive_solver. Qed.

Context (raw : list RawAsset) (b : NormalizedBundle) (Hb : Normalize raw = Ok b).

(** The entities the collected objects stand for. *)
Definition comes_from (e : entity) : Prop :=
  (∃ asset sa, collected raw "k8s_service_account" decode_service_account asset sa ∧ e ∈ service_account_entity asset sa) ∨
  (∃ asset pod, collected raw "k8s_pod" decode_pod asset pod ∧ e ∈ pod_entity pod) ∨
  (∃ asset binding, collected raw "k8s_role_binding" decode_role_binding asset binding ∧
     e ∈ binding_entities (role_table_of raw) asset binding).

Lemma Normalize_entities :
  ∃ entities, b = bundle_of entities ∧
    ∀ e, e ∈ entities ↔ comes_from e.
Proof.
  pose proof Hb as E. unfold Normalize in E. open_bind E roles Hroles. open_bind E entities He. injection E as <-.
  apply each_asset_roles in Hroles as ->. fold (role_table_of raw) in He. exists entities. split; [done|]. intros e.
  rewrite (elem_of_each_asset _ _ _ _ _ He). unfold asset_entities, comes_from, collected. split.
  - intros (j & asset & ys & Hj & Hf & Hy). apply list_elem_of_lookup_2 in Hj.
    repeat destruct (decide _);
      [open_bind Hf x Hx; apply unmarshal_Ok in Hx; injection Hf as <-..|injection Hf as <-; by apply elem_of_nil in Hy].
    + left. by exists asset, x.
    + right. left. by exists asset, x.
    + right. right. by exists asset, x.
  - intros Hcase.
    assert (∃ asset ys, asset ∈ raw ∧ e ∈ ys ∧ ∀ i zs, asset_entities (role_table_of raw) i asset = Ok zs → zs = ys)
      as (asset & ys & Ha & Hy & Huniq).
    { destruct Hcase as [(a & x & (Ha & Hk & Hx) & Hy)|[(a & x & (Ha & Hk & Hx) & Hy)|(a & x & (Ha & Hk & Hx) & Hy)]];
        exists a; eexists; (split; [done|split; [exact Hy|]]); intros i zs Hz; unfold asset_entities in Hz; rewrite Hk in Hz;
        cbn in Hz; open_bind Hz x' Hx'; apply unmarshal_Ok in Hx'; injection Hz as <-; congruence. }
    destruct (each_asset_each _ _ _ _ _ He Ha) as (j & zs & Hj & Hf). exists j, asset, zs.
    rewrite (Huniq _ _ Hf). split; [done|]. split; [|done]. by rewrite <-(Huniq _ _ Hf).
Qed.

Lemma Normalize_identities i :
  i ∈ b_Identities b →
  ∃ ns name, account raw ns name ∧ id_ID i = serviceAccountID ns name ∧ id_Name i = ns +:+ "/" +:+ name ∧
    id_Provider i = "kubernetes" ∧ id_Type i = "service_account".
Proof.
  destruct Normalize_entities as (entities & -> & He). intros Hi%elem_of_dedup_by.
  apply list_elem_of_omap in Hi as (e & Hin & Hi). destruct e as [i'| |]; simplify_eq.
  apply He in Hin as [(asset & sa & Hc & Hin)|[(asset & p & _ & Hin)|(asset & rb & _ & Hin)]].
  - unfold service_account_entity in Hin. destruct (bool_decide _ || _) eqn:E; [by apply elem_of_nil in Hin|].
    apply list_elem_of_singleton in Hin as [= ->]. apply orb_false_iff in E as [E1%bool_decide_eq_false E2%bool_decide_eq_false].
    eexists _, _. split; [|done]. split; [exact E1|]. split; [exact E2|]. by exists asset, sa.
  - unfold pod_entity in Hin. destruct (_ || _); [by apply elem_of_nil in Hin|]. by apply list_elem_of_singleton in Hin.
  - unfold binding_entities in Hin. destruct (_ || _); [by apply elem_of_nil in Hin|].
    by apply list_elem_of_fmap in Hin as (? & ? & _).
Qed.

Lemma account_collected ns name : account raw ns name → ∃ i, i ∈ b_Identities b ∧ id_ID i = serviceAccountID ns name.
Proof.
  destruct Normalize_entities as (entities & -> & He). intros (Hns & Hname & asset & sa & Hc & <- & <-).
  assert (∃ i, EIdentity i ∈ entities ∧
    id_ID i = serviceAccountID (TrimSpace (om_Namespace (sa_Metadata sa))) (TrimSpace (om_Name (sa_Metadata sa)))) as (i & Hi & <-).
  { eexists. split; [apply He; left; exists asset, sa; split; [done|]|].
    - unfold service_account_entity. rewrite !bool_decide_false by done. by left.
    - reflexivity. }
  apply (dedup_by_complete id_ID), list_elem_of_omap. by exists (EIdentity i).
Qed.

Lemma Normalize_workloads w :
  w ∈ b_Workloads b ↔
  ∃ ns name sa, runs_as raw ns name sa ∧
    w = mkWorkload (workloadID ns name) "kubernetes" "pod" (ns +:+ "/" +:+ name) (serviceAccountID ns sa).
Proof.
  destruct Normalize_entities as (entities & -> & He). cbn. rewrite list_elem_of_omap. split.
  - intros (e & Hin & Hw). destruct e as [|w'|]; simplify_eq.
    apply He in Hin as [(asset & sa & _ & Hin)|[(asset & p & Hc & Hin)|(asset & rb & _ & Hin)]].
    + unfold service_account_entity in Hin. destruct (_ || _); [by apply elem_of_nil in Hin|]. by apply list_elem_of_singleton in Hin.
    + unfold pod_entity in Hin. destruct (bool_decide _ || _) eqn:E; [by apply elem_of_nil in Hin|].
      apply list_elem_of_singleton in Hin as [= ->]. apply orb_false_iff in E as [E1%bool_decide_eq_false E2%bool_decide_eq_false].
      eexists _, _, _. split; [|reflexivity]. split; [exact E1|]. split; [exact E2|]. by exists asset, p.
    + unfold binding_entities in Hin. destruct (_ || _); [by apply elem_of_nil in Hin|].
      by apply list_elem_of_fmap in Hin as (? & ? & _).
  - intros (ns & name & sa & (Hns & Hname & asset & pod & Hc & <- & <- & ->) & ->).
    eexists (EWorkload _). split; [|reflexivity]. apply He. right. left. exists asset, pod. split; [done|].
    unfold pod_entity. rewrite !bool_decide_false by done. by left.
Qed.

Lemma Normalize_offered_policy (entities : list entity) p :
  (∀ e, e ∈ entities ↔ comes_from e) →
  EPolicy p ∈ entities ↔
  ∃ asset binding ns name statements, bound raw asset binding ns name statements ∧
    p = subject_policy asset binding statements (ns, name).
Proof.
  intros He. rewrite He. unfold comes_from. split.
  - intros [(asset & sa & _ & Hin)|[(asset & pod & _ & Hin)|(asset & rb & Hc & Hin)]].
    + unfold service_account_entity in Hin. destruct (_ || _); [by apply elem_of_nil in Hin|]. by apply list_elem_of_singleton in Hin.
    + unfold pod_entity in Hin. destruct (_ || _); [by apply elem_of_nil in Hin|]. by apply list_elem_of_singleton in Hin.
    + unfold binding_entities in Hin. destruct (bool_decide _ || _) eqn:E; [by apply elem_of_nil in Hin|].
      apply orb_false_iff in E as [E1%bool_decide_eq_false E2].
      apply list_elem_of_fmap in Hin as ([ns name] & [= ->] & (subject & Hs & Ha)%list_elem_of_omap).
      exists asset, rb, ns, name, (resolveBindingStatements rb (role_table_of raw)). split; [|done].
      split; [done|]. split; [done|]. split; [done|]. split; [by destruct (resolveBindingStatements _ _)|]. by exists subject.
  - intros (asset & rb & ns & name & sts & (Hc & Hn & -> & Hne & subject & Hs & Ha) & ->). right. right. exists asset, rb.
    split; [done|]. unfold binding_entities. rewrite bool_decide_false by done.
    destruct (resolveBindingStatements rb (role_table_of raw)) as [|st sts] eqn:E; [done|]. cbn [is_nil orb]. apply list_elem_of_fmap.
    exists (ns, name). split; [done|]. apply list_elem_of_omap. by exists subject.
Qed.

Lemma Normalize_policies p :
  p ∈ b_Policies b →
  ∃ asset binding ns name statements, bound raw asset binding ns name statements ∧
    p = subject_policy asset binding statements (ns, name).
Proof.
  destruct Normalize_entities as (entities & -> & He). intros Hp%elem_of_dedup_by.
  apply list_elem_of_omap in Hp as (e & Hin & Hp). destruct e as [| |p']; simplify_eq. by eapply Normalize_offered_policy.
Qed.
Lemma bound_collected asset binding ns name statements :
  bound raw asset binding ns name statements →
  ∃ p, p ∈ b_Policies b ∧ pol_ID p = pol_ID (subject_policy asset binding statements (ns, name)).
Proof.
  destruct Normalize_entities as (entities & -> & He). intros Hbd. apply dedup_by_complete, list_elem_of_omap.
  eexists (EPolicy _). split; [|reflexivity]. apply (Normalize_offered_policy _ _ He). by eexists _, _, _, _, _.
Qed.
End normalized.

(** The pods, by namespace and name, in order. *)
Definition pod_names `{JSON} (raw : list RawAsset) : list (string * string) :=
  raw ≫= λ a,
    if decide (ra_Kind a = "k8s_pod") then
      match decoded decode_pod a with
      | Some pod =>
          let ns := TrimSpace (om_Namespace (pod_Metadata pod)) in
          let name := TrimSpace (om_Name (pod_Metadata pod)) in
          if bool_decide (ns = "") || bool_decide (name = "") then [] else [(ns, name)]
      | None => []
      end
    else [].

Lemma each_asset_workloads `{JSON} roles i raw entities :
  each_asset (asset_entities roles) i raw = Ok entities →
  wl_ID <$> omap (λ e, match e with EWorkload w => Some w | _ => None end) entities =
  (λ x, workloadID x.1 x.2) <$> pod_names raw.
Proof.
  revert i entities. induction raw as [|a raw IH]; intros i entities Hl; cbn in Hl; [by injection Hl as <-|].
  open_bind Hl ys Hys. open_bind Hl rest Hrest. injection Hl as <-. rewrite omap_app, fmap_app, (IH _ _ Hrest).
  unfold pod_names. rewrite bind_cons, fmap_app. f_equal. clear IH Hrest.
  unfold asset_entities in Hys. destruct (decide (ra_Kind a = "k8s_service_account")) as [E|].
  { open_bind Hys sa Hsa. injection Hys as <-. rewrite E. cbn. unfold service_account_entity. by destruct (_ || _). }
  destruct (decide (ra_Kind a = "k8s_pod")) as [E|].
  { open_bind Hys pod Hpod. injection Hys as <-. apply unmarshal_Ok in Hpod as ->. unfold pod_entity. by destruct (_ || _). }
  destruct (decide (ra_Kind a = "k8s_role_binding")) as [E|]; [|by injection Hys as <-].
  open_bind Hys rb Hrb. injection Hys as <-. unfold binding_entities. destruct (_ || _); [done|].
  by induction (omap (subject_account rb) (rb_Subjects rb)).
Qed.

Lemma elem_of_pod_names `{JSON} raw ns name : (ns, name) ∈ pod_names raw → ∃ sa, runs_as raw ns name sa.
Proof.
  intros (a & Hx & Ha)%list_elem_of_bind. destruct (decide _) as [E|]; [|by apply elem_of_nil in Hx].
  destruct (decoded decode_pod a) as [pod|] eqn:D; [|by apply elem_of_nil in Hx].
  cbn in Hx. destruct (_ || _) eqn:F; [by apply elem_of_nil in Hx|]. apply list_elem_of_singleton in Hx as [= -> ->].
  apply orb_false_iff in F as [?%bool_decide_eq_false ?%bool_decide_eq_false].
  eexists. split; [done|]. split; [done|]. by exists a, pod.
Qed.

(** ** Names

    Kubernetes restricts the names of namespaces, pods and service accounts to
    DNS labels and subdomains; printable ASCII without [':'] and ['|'] is all
    that matters here.  Binding names are not restricted (many contain a
    colon). *)
Definition k8s_name (s : string) : Prop := plain s ∧ no_byte ":" s ∧ no_byte "|" s.

Record well_named `{JSON} (raw : list RawAsset) : Prop := {
  wn_account : ∀ ns name, account raw ns name → k8s_name ns ∧ k8s_name name;
  wn_pod : ∀ ns name sa, runs_as raw ns name sa → k8s_name ns ∧ k8s_name name ∧ k8s_name sa;
  wn_bound : ∀ asset binding ns name statements, bound raw asset binding ns name statements →
    k8s_name ns ∧ k8s_name name ∧ no_byte ":" (binding_scope binding);
  wn_may : ∀ ns name action resource, may raw ns name action resource →
    no_byte ":" action ∧ no_byte "|" action ∧ no_byte "|" resource;
}.

(** No two collected bindings share the scope and the name: so it is in a
    cluster, where names are unique, unless there is a namespace called
    "cluster" ([cluster_namespace_collision]). *)
Definition distinct_bindings `{JSON} (raw : list RawAsset) : Prop :=
  ∀ asset binding ns name statements asset' binding' ns' name' statements',
    bound raw asset binding ns name statements → bound raw asset' binding' ns' name' statements' →
    ToLower (binding_scope binding) = ToLower (binding_scope binding') →
    TrimSpace (om_Name (rb_Metadata binding)) = TrimSpace (om_Name (rb_Metadata binding')) → asset = asset'.

Lemma no_byte_app c s t : no_byte c (s +:+ t) ↔ no_byte c s ∧ no_byte c t.
Proof. unfold no_byte. by rewrite bytes_app, not_elem_of_app. Qed.
Lemma no_byte_cons c a t : no_byte c (String a t) ↔ c ≠ a ∧ no_byte c t.
Proof. unfold no_byte. cbn. by rewrite not_elem_of_cons. Qed.

Section names.
Context (ns name ns' name' : string) (Hns : k8s_name ns) (Hname : k8s_name name) (Hns' : k8s_name ns') (Hname' : k8s_name name').

Lemma TrimSpace_name : TrimSpace ns = ns.
Proof. destruct Hns. by apply TrimSpace_plain. Qed.
Lemma TrimSpace_pair p : plain p → p ≠ "" → name ≠ "" → TrimSpace (p +:+ ns +:+ String ":" name) = p +:+ ns +:+ String ":" name.
Proof.
  intros Hp Hp' Hne. assert (E : ns +:+ String ":" name = (ns +:+ ":") +:+ name) by str_assoc.
  rewrite E. apply TrimSpace_between; [done|done|by destruct Hname|done].
Qed.
Lemma pair_inj p : p +:+ ns +:+ String ":" name = p +:+ ns' +:+ String ":" name' → ns = ns' ∧ name = name'.
Proof.
  intros E%(inj (String.append p)). destruct Hns as (_ & ? & _), Hns' as (_ & ? & _).
  by apply join_inj in E as [-> ->].
Qed.
Lemma pair_tail_inj p t t' :
  (p +:+ ns +:+ String ":" name) +:+ String ":" t = (p +:+ ns' +:+ String ":" name') +:+ String ":" t' →
  ns = ns' ∧ name = name' ∧ t = t'.
Proof.
  intros E. assert (E' : p +:+ (ns +:+ String ":" (name +:+ String ":" t)) = p +:+ (ns' +:+ String ":" (name' +:+ String ":" t'))).
  { apply bytes_inj. apply (f_equal bytes) in E. rewrite !bytes_app in *. cbn in *. rewrite !bytes_app. by rewrite <-!app_assoc in E. }
  apply (inj (String.append p)) in E'. destruct Hns as (_ & ? & _), Hns' as (_ & ? & _), Hname as (_ & ? & _), Hname' as (_ & ? & _).
  apply join_inj in E' as [-> E']; [|done..]. by apply join_inj in E' as [-> ->].
Qed.
End names.

Lemma plain_sa : plain "k8s:identity:sa:".
Proof. unfold plain. by apply (bool_decide_unpack _). Qed.
Lemma plain_pod : plain "k8s:workload:pod:".
Proof. unfold plain. by apply (bool_decide_unpack _). Qed.

Lemma serviceAccountID_name ns name :
  k8s_name ns → k8s_name name → serviceAccountID ns name = "k8s:identity:sa:" +:+ ns +:+ String ":" name.
Proof. intros. unfold serviceAccountID. by rewrite !TrimSpace_name. Qed.
Lemma workloadID_name ns name :
  k8s_name ns → k8s_name name → workloadID ns name = "k8s:workload:pod:" +:+ ns +:+ String ":" name.
Proof. intros. unfold workloadID. by rewrite !TrimSpace_name. Qed.
Lemma TrimSpace_serviceAccountID ns name :
  k8s_name ns → k8s_name name → name ≠ "" →
  TrimSpace (serviceAccountID ns name) = "k8s:identity:sa:" +:+ ns +:+ String ":" name.
Proof. intros. rewrite serviceAccountID_name by done. apply TrimSpace_pair; (done || apply plain_sa). Qed.
Lemma pair_no_bar p ns name : no_byte "|" p → k8s_name ns → k8s_name name → no_byte "|" (p +:+ ns +:+ String ":" name).
Proof. intros Hp (_ & _ & ?) (_ & _ & ?). by rewrite !no_byte_app, no_byte_cons. Qed.

Lemma lower_byte_colon c : lower_byte c = ":"%char → c = ":"%char.
Proof.
  assert (H : ∀ c, bool_decide (lower_byte c = ":"%char → c = ":"%char) = true) by (apply for_all_bytes; by vm_compute).
  specialize (H c). by apply bool_decide_eq_true in H.
Qed.
Lemma no_colon_ToLower s : no_byte ":" s → no_byte ":" (ToLower s).
Proof.
  unfold no_byte, ToLower. rewrite bytes_of_bytes. intros Hs Hin. apply list_elem_of_In, in_map_iff in Hin as (c & E & Hc).
  apply lower_byte_colon in E as ->. by apply Hs, list_elem_of_In.
Qed.

(** Two bindings of service accounts with the same policy id agree on the
    scope, the name and the account. *)
Lemma policyID_inj scope name ns sa scope' name' ns' sa' :
  no_byte ":" (TrimSpace scope) → no_byte ":" (TrimSpace scope') →
  k8s_name ns → k8s_name sa → k8s_name ns' → k8s_name sa' → sa ≠ "" → sa' ≠ "" →
  policyID scope name (serviceAccountID ns sa) = policyID scope' name' (serviceAccountID ns' sa') →
  ToLower (TrimSpace scope) = ToLower (TrimSpace scope') ∧ TrimSpace name = TrimSpace name' ∧ ns = ns' ∧ sa = sa'.
Proof.
  intros Hs Hs' Hns Hsa Hns' Hsa' Hne Hne' E. unfold policyID in E.
  rewrite !serviceAccountID_name, !TrimSpace_pair in E by (done || apply plain_sa).
  apply (inj (String.append _)) in E. apply join_inj in E as [E1 E]; [|by apply no_colon_ToLower..]. split; [done|].
  set (N := TrimSpace name) in *. set (N' := TrimSpace name') in *.
  assert (Hre : ∀ N ns sa, N +:+ String ":" ("k8s:identity:sa:" +:+ ns +:+ String ":" sa) =
    ((N +:+ ":k8s:identity:sa") +:+ String ":" ns) +:+ String ":" sa).
  { intros. str_assoc. }
  rewrite !Hre in E. destruct Hns as (_ & ? & _), Hns' as (_ & ? & _), Hsa as (_ & ? & _), Hsa' as (_ & ? & _).
  apply join_inj_r in E as [E ->]; [|done..]. apply join_inj_r in E as [E ->]; [|done..].
  split; [|done]. apply bytes_inj. apply (f_equal bytes) in E. rewrite !bytes_app in E. by apply app_inv_tail in E.
Qed.

(** ** Statements and permissions *)
Definition good_statement (st : list (string * any)) : Prop :=
  ∃ actions resources, st = allow_statement actions resources ∧ actions ≠ [] ∧ resources ≠ [] ∧
    Forall (λ s, canon s = s ∧ s ≠ "") (actions ++ resources).

Lemma normalizeRuleValues_good l : Forall (λ s, canon s = s ∧ s ≠ "") (normalizeRuleValues l).
Proof.
  apply Forall_forall. intros s Hs. unfold normalizeRuleValues in Hs. rewrite elem_of_unique, elem_of_nonempty_map in Hs.
  destruct Hs as (? & y & _ & ->). by rewrite canon_idemp.
Qed.
Lemma rule_statement_good rule st : rule_statement rule = Some st → good_statement st.
Proof.
  unfold rule_statement. destruct (is_nil _ || is_nil _) eqn:E; [done|]. intros [= <-]. apply orb_false_iff in E as [E1 E2].
  eexists _, _. split; [reflexivity|]. split; [by intros E; rewrite E in E1|]. split; [by intros E; rewrite E in E2|].
  apply Forall_app. split; apply normalizeRuleValues_good.
Qed.
Lemma statementsForRole_good name st : st ∈ statementsForRole name → good_statement st.
Proof.
  assert (Hg : ∀ actions resources, bool_decide (actions ≠ [] ∧ resources ≠ [] ∧
    Forall (λ s, canon s = s ∧ s ≠ "") (actions ++ resources)) = true → good_statement (allow_statement actions resources)).
  { intros a r H. apply bool_decide_eq_true in H. by exists a, r. }
  unfold statementsForRole. repeat case_match; intros Hst; try (apply list_elem_of_singleton in Hst as ->);
    try (by apply elem_of_nil in Hst); apply Hg; by vm_compute.
Qed.

Section permissions.
Context `{JSON} (raw : list RawAsset).

Lemma bound_statement_good asset binding ns name statements st :
  bound raw asset binding ns name statements → st ∈ statements → good_statement st.
Proof.
  intros (_ & _ & -> & _) Hst. unfold resolveBindingStatements in Hst.
  set (found := if nonempty _ then _ else _) in Hst.
  assert (Hf : ∀ st, st ∈ found → good_statement st).
  { intros x Hx. subst found. destruct (nonempty _); [|by apply elem_of_nil in Hx].
    destruct (role_table_of raw !! _) as [l|] eqn:E; cbn in Hx; [|by apply elem_of_nil in Hx].
    apply collect_Some in E as (role & _ & E). unfold role_entry in E. destruct (_ || _); [done|]. injection E as _ <-.
    apply list_elem_of_omap in Hx as (rule & _ & Hx). by eapply rule_statement_good. }
  destruct (is_nil found); [by eapply statementsForRole_good|auto].
Qed.

Lemma may_good ns name action resource :
  may raw ns name action resource →
  canon action = action ∧ action ≠ "" ∧ canon resource = resource ∧ resource ≠ "".
Proof.
  intros (asset & rb & sts & st & Hbd & Hst & Ha & Hr).
  destruct (bound_statement_good _ _ _ _ _ _ Hbd Hst) as (acts & ress & -> & _ & _ & Hg).
  cbn in Ha, Hr. rewrite Forall_forall in Hg. setoid_rewrite elem_of_app in Hg.
  destruct (Hg action) as [??]; [by left|]. destruct (Hg resource) as [??]; [by right|]. done.
Qed.

Lemma subject_policy_type asset rb sts a : policy_type (subject_policy asset rb sts a) = "permission".
Proof. done. Qed.
Lemma subject_policy_identity asset rb sts a : policy_identity (subject_policy asset rb sts a) = serviceAccountID a.1 a.2.
Proof. done. Qed.
Lemma subject_policy_tuples asset rb sts a :
  policy_tuples (subject_policy asset rb sts a) = Ok (sts ≫= statement_tuples (serviceAccountID a.1 a.2)).
Proof. done. Qed.

Lemma k8s_elem_of_statement_tuples id st t :
  t ∈ statement_tuples id st ↔
  ∃ a r, t = mkPermission id a r (as_string (map_get st "effect")) ∧
    a ∈ parseStringList (map_get st "actions") ∧ r ∈ parseStringList (map_get st "resources").
Proof.
  unfold statement_tuples. rewrite list_elem_of_bind. split.
  - intros (a & (r & Ht & Hr)%list_elem_of_bind & Ha). apply list_elem_of_singleton in Ht as ->. by exists a, r.
  - intros (a & r & -> & Ha & Hr). exists a. split; [|done]. apply list_elem_of_bind. exists r. split; [by left|done].
Qed.

Lemma bound_nonempty asset binding ns name statements :
  bound raw asset binding ns name statements → ns ≠ "" ∧ name ≠ "".
Proof.
  intros (_ & _ & _ & _ & subject & _ & Ha). unfold subject_account in Ha. destruct (negb _); [done|].
  destruct (bool_decide _ || _) eqn:E; [done|]. injection Ha as <- <-.
  by apply orb_false_iff in E as [?%bool_decide_eq_false ?%bool_decide_eq_false].
Qed.
Lemma TrimSpace_binding_scope binding : TrimSpace (binding_scope binding) = binding_scope binding.
Proof. unfold binding_scope. destruct (decide _); [done|]. by rewrite TrimSpace_idemp. Qed.

Lemma serviceAccountID_no_bar ns name : k8s_name ns → k8s_name name → no_byte "|" (serviceAccountID ns name).
Proof.
  intros. rewrite serviceAccountID_name by done. apply pair_no_bar; [|done..]. unfold no_byte. by apply (bool_decide_unpack _).
Qed.
Lemma workloadID_no_bar ns name : k8s_name ns → k8s_name name → no_byte "|" (workloadID ns name).
Proof.
  intros. rewrite workloadID_name by done. apply pair_no_bar; [|done..]. unfold no_byte. by apply (bool_decide_unpack _).
Qed.
Lemma serviceAccountID_inj ns name ns' name' :
  k8s_name ns → k8s_name name → k8s_name ns' → k8s_name name' →
  serviceAccountID ns name = serviceAccountID ns' name' → ns = ns' ∧ name = name'.
Proof. intros ????. rewrite !serviceAccountID_name by done. by apply pair_inj. Qed.
Lemma workloadID_inj ns name ns' name' :
  k8s_name ns → k8s_name name → k8s_name ns' → k8s_name name' →
  workloadID ns name = workloadID ns' name' → ns = ns' ∧ name = name'.
Proof. intros ????. rewrite !workloadID_name by done. by apply pair_inj. Qed.

Lemma bound_same asset binding ns name sts asset' binding' ns' name' sts' :
  well_named raw → distinct_bindings raw →
  bound raw asset binding ns name sts → bound raw asset' binding' ns' name' sts' →
  pol_ID (subject_policy asset binding sts (ns, name)) = pol_ID (subject_policy asset' binding' sts' (ns', name')) →
  sts = sts' ∧ ns = ns' ∧ name = name'.
Proof.
  intros Hn Hd Hbd Hbd' E. destruct (wn_bound _ Hn _ _ _ _ _ Hbd) as (? & ? & ?), (wn_bound _ Hn _ _ _ _ _ Hbd') as (? & ? & ?).
  destruct (bound_nonempty _ _ _ _ _ Hbd), (bound_nonempty _ _ _ _ _ Hbd').
  cbn in E. apply policyID_inj in E as (E1 & E2 & -> & ->); rewrite ?TrimSpace_binding_scope in *; try done.
  rewrite !TrimSpace_idemp in E2. pose proof (Hd _ _ _ _ _ _ _ _ _ _ Hbd Hbd' E1 E2) as <-.
  destruct Hbd as ((_ & _ & D) & _ & -> & _), Hbd' as ((_ & _ & D') & _ & -> & _). rewrite D in D'. by injection D' as <-.
Qed.

Context (b : NormalizedBundle) (Hb : Normalize raw = Ok b) (Hn : well_named raw).

Lemma permissions_resolved :
  ∃ perms, ResolvePermissions b = Ok perms ∧
    (∀ t, t ∈ perms → ∃ ns name a r, t = mkPermission (serviceAccountID ns name) a r "Allow" ∧ may raw ns name a r) ∧
    (distinct_bindings raw → ∀ ns name a r, may raw ns name a r → mkPermission (serviceAccountID ns name) a r "Allow" ∈ perms).
Proof.
  destruct (concat_results_total policy_tuples (b_Policies b)) as [l Hl].
  { intros p (asset & rb & ns & name & sts & _ & ->)%(Normalize_policies raw b Hb). by eexists. }
  assert (Hall : ∀ t, t ∈ l → ∃ ns name a r, t = mkPermission (serviceAccountID ns name) a r "Allow" ∧ may raw ns name a r).
  { intros t (p & ys & Hp & Hys & Ht)%(elem_of_concat_results _ _ _ _ Hl).
    apply (Normalize_policies raw b Hb) in Hp as (asset & rb & ns & name & sts & Hbd & ->).
    rewrite subject_policy_tuples in Hys. injection Hys as <-. apply list_elem_of_bind in Ht as (st & Ht & Hst).
    apply k8s_elem_of_statement_tuples in Ht as (a & r & -> & Ha & Hr). exists ns, name, a, r. split.
    - destruct (bound_statement_good _ _ _ _ _ _ Hbd Hst) as (? & ? & -> & _). done.
    - by exists asset, rb, sts, st. }
  unfold ResolvePermissions. rewrite Hl. cbn. eexists. split; [done|]. split.
  { intros t Ht%elem_of_dedup_by. by apply Hall. }
  intros Hd ns name a r Hmay. pose proof Hmay as (asset & rb & sts & st & Hbd & Hst & Ha & Hr).
  destruct (bound_collected raw b Hb _ _ _ _ _ Hbd) as (p & Hp & E).
  pose proof Hp as (asset' & rb' & ns' & name' & sts' & Hbd' & ->)%(Normalize_policies raw b Hb).
  destruct (bound_same _ _ _ _ _ _ _ _ _ _ Hn Hd Hbd' Hbd E) as (-> & -> & ->).
  apply dedup_by_complete_inj.
  - intros t (ns1 & name1 & a1 & r1 & -> & Hmay1)%Hall Et. unfold tuple_key in Et. cbn in Et.
    destruct (wn_may _ Hn _ _ _ _ Hmay) as (_ & ? & ?), (wn_may _ Hn _ _ _ _ Hmay1) as (_ & ? & ?).
    destruct Hmay1 as (? & ? & ? & ? & Hbd1 & _).
    destruct (wn_bound _ Hn _ _ _ _ _ Hbd) as (? & ? & _), (wn_bound _ Hn _ _ _ _ _ Hbd1) as (? & ? & _).
    apply join_inj in Et as [-> Et]; [|by apply serviceAccountID_no_bar..].
    apply join_inj in Et as [-> Et]; [|done..]. by apply join_inj in Et as [-> _].
  - apply (elem_of_concat_results _ _ _ _ Hl). eexists _, _. split; [exact Hp|]. split; [apply subject_policy_tuples|].
    apply list_elem_of_bind. exists st. split; [|done]. apply k8s_elem_of_statement_tuples. exists a, r. split; [|done].
    by destruct (bound_statement_good _ _ _ _ _ _ Hbd Hst) as (? & ? & -> & _).
Qed.
End permissions.

(** ** When a normalized bundle is accepted *)

(** Every account that a binding gives statements to was collected. *)
Definition bound_accounts_collected `{JSON} (raw : list RawAsset) : Prop :=
  ∀ asset binding ns name statements, bound raw asset binding ns name statements → account raw ns name.

Lemma path_trimmed ns name :
  plain ns → plain name → ns ≠ "" → name ≠ "" → TrimSpace (ns +:+ "/" +:+ name) = ns +:+ String "/" name.
Proof. intros. by rewrite TrimSpace_between. Qed.
Lemma app_nonempty x y : x ≠ "" → x +:+ y ≠ "".
Proof. intros Hx E. apply (f_equal bytes) in E. rewrite bytes_app in E. by destruct x. Qed.
Lemma cons_nonempty x a y : x +:+ String a y ≠ "".
Proof. intros E. apply (f_equal bytes) in E. rewrite bytes_app in E. by destruct (bytes x). Qed.

Section validation.
Context `{JSON} (raw : list RawAsset) (b : NormalizedBundle) (Hb : Normalize raw = Ok b) (Hn : well_named raw).

Lemma identity_valid i : i ∈ b_Identities b → Identity_Validate i = true.
Proof.
  intros (ns & name & Ha & E1 & E2 & E3 & E4)%(Normalize_identities raw b Hb). destruct (wn_account _ Hn _ _ Ha) as [[Hns _] [Hname _]].
  destruct Ha as (? & ? & _). unfold Identity_Validate. rewrite E1, E2, E3, E4. cbn. apply present_true.
  rewrite path_trimmed by done. apply cons_nonempty.
Qed.
Lemma workload_ok w : w ∈ b_Workloads b → workload_valid w = true.
Proof.
  intros (ns & name & sa & Hr & ->)%(Normalize_workloads raw b Hb). destruct (wn_pod _ Hn _ _ _ Hr) as (Hns & Hname & _).
  destruct Hr as (? & ? & _). unfold workload_valid. cbn [wl_ID wl_Provider wl_Type wl_Name].
  rewrite !andb_true_iff, !present_true, workloadID_name, TrimSpace_pair by (done || apply plain_pod).
  rewrite path_trimmed by (done || apply Hns || apply Hname). split; [|apply cons_nonempty]. done.
Qed.

Lemma workloads_distinct : NoDup (wl_ID <$> b_Workloads b) ↔ NoDup (pod_names raw).
Proof.
  pose proof Hb as E. unfold Normalize in E. open_bind E roles Hroles. open_bind E entities He. injection E as <-.
  cbn. rewrite (each_asset_workloads _ _ _ _ He). split; [apply NoDup_fmap_1|]. apply NoDup_fmap_2_strong.
  intros [ns name] [ns' name'] [sa Hx]%elem_of_pod_names [sa' Hy]%elem_of_pod_names E. cbn in E.
  destruct (wn_pod _ Hn _ _ _ Hx) as (? & ? & _), (wn_pod _ Hn _ _ _ Hy) as (? & ? & _).
  by apply workloadID_inj in E as [-> ->].
Qed.

Lemma elem_of_extractStringSlice l x : x ∈ extractStringSlice (AStrings l) ↔ x ≠ "" ∧ ∃ y, y ∈ l ∧ x = TrimSpace y.
Proof. unfold extractStringSlice. by rewrite SortStrings_perm, elem_of_unique, elem_of_nonempty_map. Qed.
Lemma extractStringSlice_nonempty l : l ≠ [] → Forall (λ s, canon s = s ∧ s ≠ "") l → is_nil (extractStringSlice (AStrings l)) = false.
Proof.
  intros Hl Hc. destruct l as [|x l]; [done|]. apply Forall_cons in Hc as [[Hx Hne] _].
  assert (Hin : x ∈ extractStringSlice (AStrings (x :: l))).
  { apply elem_of_extractStringSlice. split; [done|]. exists x. split; [by left|]. by rewrite <-Hx, TrimSpace_canon. }
  by destruct (extractStringSlice _); [apply elem_of_nil in Hin|].
Qed.
Lemma good_statement_valid st : good_statement st → validateStatement st = Ok tt.
Proof.
  intros (actions & resources & -> & Ha & Hr & [Hca Hcr]%Forall_app). unfold validateStatement.
  change (map_get (allow_statement actions resources) "actions") with (AStrings actions).
  change (map_get (allow_statement actions resources) "resources") with (AStrings resources).
  by rewrite !extractStringSlice_nonempty.
Qed.

Lemma validate_bound asset binding ns name statements ids seen :
  bound raw asset binding ns name statements →
  validate_policy ids seen (subject_policy asset binding statements (ns, name)) = Ok tt ↔ serviceAccountID ns name ∈ ids.
Proof.
  intros Hbd. destruct (wn_bound _ Hn _ _ _ _ _ Hbd) as (Hns & Hname & _). destruct (bound_nonempty _ _ _ _ _ _ Hbd).
  assert (Htrim : TrimSpace (serviceAccountID ns name) = serviceAccountID ns name).
  { by rewrite TrimSpace_serviceAccountID, serviceAccountID_name. }
  assert (Hst : forM_ validateStatement statements = Ok tt).
  { apply forM_Ok, Forall_forall. intros st Hst. by eapply good_statement_valid, bound_statement_good. }
  unfold validate_policy, validatePolicyNormalized. set (n := pol_Normalized _).
  change (as_string (map_get n "policy_type")) with "permission".
  change (as_string (map_get n "identity_id")) with (serviceAccountID ns name).
  change (map_get n "statements") with (AMaps statements).
  rewrite Htrim. destruct Hbd as (_ & _ & _ & Hne & _). destruct statements as [|st sts]; [done|].
  destruct (bool_decide_reflect (serviceAccountID ns name ∈ ids)) as [Hin|Hin].
  - split; [done|]. intros _. cbn -[forM_]. by rewrite Hst.
  - split; [|done]. cbn. done.
Qed.

Lemma identity_ids ns name :
  k8s_name ns → k8s_name name → serviceAccountID ns name ∈ id_ID <$> b_Identities b ↔ account raw ns name.
Proof.
  intros Hns Hname. rewrite list_elem_of_fmap. split.
  - intros (i & E & (ns' & name' & Ha & E' & _)%(Normalize_identities raw b Hb)). rewrite E' in E.
    destruct (wn_account _ Hn _ _ Ha). by apply serviceAccountID_inj in E as [-> ->].
  - intros (i & Hi & E)%(account_collected raw b Hb). by exists i.
Qed.

Lemma Normalize_identities_NoDup : NoDup (id_ID <$> b_Identities b).
Proof. destruct (Normalize_entities raw b Hb) as (l & -> & _). apply NoDup_dedup_by. Qed.
Lemma Normalize_policies_NoDup : NoDup (pol_ID <$> b_Policies b).
Proof. destruct (Normalize_entities raw b Hb) as (l & -> & _). apply NoDup_dedup_by. Qed.
Lemma Normalize_rest :
  b_Resources b = [] ∧ b_Agents b = [] ∧ b_Credentials b = [] ∧ b_RuntimeEvents b = [].
Proof. by destruct (Normalize_entities raw b Hb) as (l & -> & _). Qed.

Lemma policy_ok p :
  (∀ asset, asset ∈ raw → present (ra_SourceID asset) = true) → p ∈ b_Policies b → policy_valid p = true.
Proof.
  intros Hsrc (asset & rb & ns & name & sts & Hbd & ->)%(Normalize_policies raw b Hb). unfold policy_valid.
  destruct (wn_bound _ Hn _ _ _ _ _ Hbd) as (Hns & Hname & _). destruct (bound_nonempty _ _ _ _ _ _ Hbd).
  destruct Hbd as ((Hin & _) & Hnm & _). cbn [pol_ID pol_Provider pol_Name pol_RawRef subject_policy].
  rewrite (Hsrc asset Hin), !andb_true_iff. repeat split; apply present_true.
  - cbn [fst snd]. unfold policyID. rewrite TrimSpace_serviceAccountID by done.
    set (mid := ToLower _). set (nm := TrimSpace (TrimSpace (om_Name _))).
    assert (E : "k8s:policy:" +:+ mid +:+ String ":" (nm +:+ String ":" ("k8s:identity:sa:" +:+ ns +:+ String ":" name)) =
      "k8s:policy:" +:+ (mid +:+ String ":" (nm +:+ String ":" ("k8s:identity:sa:" +:+ ns +:+ ":"))) +:+ name).
    { str_assoc. }
    rewrite E, TrimSpace_between; try done; [unfold plain; by apply (bool_decide_unpack _)|apply Hname].
  - by rewrite TrimSpace_idemp.
Qed.

Lemma bundle_accepted_accounts : ValidateNormalizedBundle b = Ok tt → bound_accounts_collected raw.
Proof.
  intros Hv. destruct (ValidateNormalizedBundle_ids b Hv) as (_ & _ & _ & _ & _ & _ & _ & _ & _ & _ & Hp).
  intros asset rb ns name sts Hbd. destruct (bound_collected raw b Hb _ _ _ _ _ Hbd) as (p & Hin & E).
  pose proof Hin as (asset' & rb' & ns' & name' & sts' & Hbd' & ->)%(Normalize_policies raw b Hb).
  destruct (wn_bound _ Hn _ _ _ _ _ Hbd) as (? & ? & ?), (wn_bound _ Hn _ _ _ _ _ Hbd') as (? & ? & ?).
  destruct (bound_nonempty _ _ _ _ _ _ Hbd), (bound_nonempty _ _ _ _ _ _ Hbd').
  cbn in E. apply policyID_inj in E as (_ & _ & -> & ->); rewrite ?TrimSpace_binding_scope in *; try done.
  apply identity_ids; [done|done|]. apply (elem_of_list_to_set (C:=gset string)).
  eapply (validate_bound _ _ _ _ _ _ ∅ Hbd'). unfold validate_policy. by rewrite (Hp _ Hin).
Qed.

(** The normalized bundle is accepted exactly when no two pods share a name and
    every bound account was collected. *)
Lemma bundle_accepted :
  (∀ asset, asset ∈ raw → present (ra_SourceID asset) = true) →
  ValidateNormalizedBundle b = Ok tt ↔ NoDup (pod_names raw) ∧ bound_accounts_collected raw.
Proof.
  intros Hsrc. rewrite <-workloads_distinct. split.
  - intros Hv. split; [by apply ValidateNormalizedBundle_ids in Hv as (_ & ? & _)|by apply bundle_accepted_accounts].
  - intros [Hw Hacc]. unfold ValidateNormalizedBundle. destruct Normalize_rest as (-> & -> & -> & ->).
    rewrite (check_ids_total _ id_ID); [|intros x Hx; split; [by apply identity_valid|set_solver]|apply Normalize_identities_NoDup|done].
    cbn [mbind result_bind].
    rewrite (check_ids_total _ wl_ID); [|intros x Hx; split; [by apply workload_ok|set_solver]|done|done].
    cbn [mbind result_bind].
    rewrite (check_ids_total _ pol_ID); [done|intros x Hx; split; [by apply policy_ok|set_solver]|apply Normalize_policies_NoDup|].
    intros seen p (asset & rb & ns & name & sts & Hbd & ->)%(Normalize_policies raw b Hb).
    apply (validate_bound _ _ _ _ _ _ _ Hbd). rewrite (left_id_L ∅ (∪)), elem_of_list_to_set.
    destruct (wn_bound _ Hn _ _ _ _ _ Hbd) as (? & ? & _). apply identity_ids; [done|done|]. by eapply Hacc.
Qed.
End validation.

(** ** The edges *)
Section edges.
Context `{JSON} (raw : list RawAsset) (b : NormalizedBundle) (Hb : Normalize raw = Ok b) (Hn : well_named raw).
Context (perms : list PermissionTuple) (timestamp : Z).
Hypothesis Hperms : ∀ t, t ∈ perms →
  ∃ ns name a r, t = mkPermission (serviceAccountID ns name) a r "Allow" ∧ may raw ns name a r.

(** The three kinds of edge that are offered. *)
Lemma offered_edge r :
  r ∈ offered_edges timestamp b perms ↔
  (∃ ns name sa, runs_as raw ns name sa ∧ serviceAccountID ns sa ∈ id_ID <$> b_Identities b ∧
     r = edge BoundTo timestamp (workloadID ns name) (serviceAccountID ns sa) (serviceAccountID ns sa)) ∨
  (∃ p, p ∈ b_Policies b ∧ r = edge AttachedPolicy timestamp (policy_identity p) (pol_ID p) (pol_RawRef p)) ∨
  (∃ t, t ∈ perms ∧ r = edge CanAccess timestamp (perm_IdentityID t) (accessNodeID (perm_Action t) (perm_Resource t)) (perm_Action t)).
Proof.
  unfold offered_edges. rewrite !elem_of_app, !list_elem_of_bind. f_equiv; [|f_equiv].
  - split.
    + intros (w & Hr & (ns & name & sa & Hrun & ->)%(Normalize_workloads raw b Hb)). unfold workload_edges in Hr. cbn in Hr.
      destruct (_ && _) eqn:E; [|by apply elem_of_nil in Hr]. apply list_elem_of_singleton in Hr as ->.
      apply andb_true_iff in E as [_ E%bool_decide_eq_true%(elem_of_list_to_set (C:=gset string))]. by exists ns, name, sa.
    + intros (ns & name & sa & Hrun & Hid & ->). eexists. split; [|by apply (Normalize_workloads raw b Hb); eexists _, _, _].
      unfold workload_edges. cbn. rewrite bool_decide_true by by apply elem_of_list_to_set.
      assert (nonempty (serviceAccountID ns sa) = true) as -> by by apply nonempty_true, app_nonempty. by left.
  - split.
    + intros (p & Hr & Hp). exists p. split; [done|]. unfold policy_edges in Hr.
      destruct (_ && _); [by apply list_elem_of_singleton in Hr|by apply elem_of_nil in Hr].
    + intros (p & Hp & ->). exists p. split; [|done]. apply (Normalize_policies raw b Hb) in Hp as (asset & rb & ns & name & sts & _ & ->).
      unfold policy_edges. assert (nonempty (policy_identity (subject_policy asset rb sts (ns, name))) = true) as ->
        by by apply nonempty_true, app_nonempty. by left.
  - split.
    + intros (t & Hr & Ht). exists t. split; [done|]. unfold permission_edges in Hr.
      destruct (decide _); [by apply list_elem_of_singleton in Hr|by apply elem_of_nil in Hr].
    + intros (t & Ht & ->). exists t. split; [|done]. destruct (Hperms t Ht) as (ns & name & a & r & -> & _).
      unfold permission_edges. by left.
Qed.

(** Where an offered edge starts determines its id. *)
Definition from_prefix (t : RelationshipType) : string :=
  match t with BoundTo => "k8s:workload:pod:" | _ => "k8s:identity:sa:" end.
Lemma offered_shape r :
  r ∈ offered_edges timestamp b perms →
  rel_Type r ∈ [BoundTo; AttachedPolicy; CanAccess] ∧
  (∃ ns name, k8s_name ns ∧ k8s_name name ∧ rel_FromNodeID r = from_prefix (rel_Type r) +:+ ns +:+ String ":" name) ∧
  rel_ID r = "k8s:rel:" +:+ relationship_type_string (rel_Type r) +:+ String ":" (rel_FromNodeID r +:+ String ":" (rel_ToNodeID r)) ∧
  rel_DiscoveredAt r = timestamp ∧ rel_ToNodeID r ≠ "".
Proof.
  intros [(ns & name & sa & Hrun & _ & ->)|[(p & Hp & ->)|(t & Ht & ->)]]%offered_edge.
  - destruct (wn_pod _ Hn _ _ _ Hrun) as (? & ? & _). split; [set_solver|]. split; [|split; [done|split; [done|by apply app_nonempty]]].
    exists ns, name. cbn. by rewrite workloadID_name.
  - apply (Normalize_policies raw b Hb) in Hp as (asset & rb & ns & name & sts & Hbd & ->).
    destruct (wn_bound _ Hn _ _ _ _ _ Hbd) as (? & ? & _). split; [set_solver|].
    split; [|split; [done|split; [done|by apply app_nonempty]]].
    exists ns, name. cbn. change (policy_identity _) with (serviceAccountID ns name). by rewrite serviceAccountID_name.
  - destruct (Hperms t Ht) as (ns & name & a & s & -> & asset & rb & sts & st & Hbd & _).
    destruct (wn_bound _ Hn _ _ _ _ _ Hbd) as (? & ? & _). split; [set_solver|].
    split; [|split; [done|split; [done|by apply app_nonempty]]]. exists ns, name. cbn. by rewrite serviceAccountID_name.
Qed.

Lemma type_plain t c : t ∈ [BoundTo; AttachedPolicy; CanAccess] → c ∈ [":"%char; "|"%char] → no_byte c (relationship_type_string t).
Proof.
  intros Ht Hc. unfold no_byte.
  assert (H' : Forall (λ t, Forall (λ c, c ∉ bytes (relationship_type_string t)) [":"%char; "|"%char]) [BoundTo; AttachedPolicy; CanAccess])
    by (apply (bool_decide_unpack _); by vm_compute).
  rewrite Forall_forall in H'. specialize (H' t Ht). rewrite Forall_forall in H'. by apply H'.
Qed.

Lemma offered_id_inj r s :
  r ∈ offered_edges timestamp b perms → s ∈ offered_edges timestamp b perms → rel_ID r = rel_ID s →
  rel_Type r = rel_Type s ∧ rel_FromNodeID r = rel_FromNodeID s ∧ rel_ToNodeID r = rel_ToNodeID s.
Proof.
  intros (Tr & (ns & name & ? & ? & Fr) & Ir & _)%offered_shape (Ts & (ns' & name' & ? & ? & Fs) & Is & _)%offered_shape E.
  rewrite Ir, Is in E. apply (inj (String.append _)) in E.
  apply join_inj in E as [Et E]; [|apply type_plain; [done|set_solver]..].
  apply relationship_type_string_inj in Et;
    [|by destruct (rel_Type r); try (exfalso; set_solver)|by destruct (rel_Type s); try (exfalso; set_solver)].
  rewrite Fr, Fs, Et in E. apply pair_tail_inj in E as (-> & -> & ->); [|done..]. by rewrite Fr, Fs, Et.
Qed.

Lemma offered_key r s :
  r ∈ offered_edges timestamp b perms → s ∈ offered_edges timestamp b perms → semanticKey r = semanticKey s →
  rel_ID r = rel_ID s.
Proof.
  intros (Tr & (ns & name & Hns & Hname & Fr) & Ir & _)%offered_shape (Ts & (ns' & name' & Hns' & Hname' & Fs) & Is & _)%offered_shape E.
  unfold semanticKey in E. cbn in E. apply join_inj in E as [Et E]; [|apply type_plain; [done|set_solver]..].
  assert (Hbar : ∀ t ns name, k8s_name ns → k8s_name name → no_byte "|" (from_prefix t +:+ ns +:+ String ":" name)).
  { intros t n m Hn' Hm. apply pair_no_bar; [|done..]. unfold no_byte. destruct t; by apply (bool_decide_unpack _). }
  apply join_inj in E as [Ef Eto]; [|rewrite ?Fr, ?Fs; by apply Hbar..]. by rewrite Ir, Is, Ef, Et, Eto.
Qed.

Lemma k8s_elem_of_appendRelationship l r :
  r ∈ appendRelationship l → r ∈ l ∧ rel_FromNodeID r ≠ "" ∧ rel_ToNodeID r ≠ "".
Proof. intros Hr%elem_of_dedup_by. by apply list_elem_of_filter in Hr as [[?%nonempty_true ?%nonempty_true] ?]. Qed.

(** Nothing offered is lost. *)
Lemma elem_of_relationships r :
  (∃ s, s ∈ ResolveRelationships timestamp b perms ∧ rel_Type s = rel_Type r ∧ rel_FromNodeID s = rel_FromNodeID r ∧
     rel_ToNodeID s = rel_ToNodeID r) ↔
  (∃ s, s ∈ offered_edges timestamp b perms ∧ rel_Type s = rel_Type r ∧ rel_FromNodeID s = rel_FromNodeID r ∧
     rel_ToNodeID s = rel_ToNodeID r).
Proof.
  split.
  - intros (s & [Hs _]%k8s_elem_of_appendRelationship & E). by exists s.
  - intros (s & Hs & <- & <- & <-). pose proof (offered_shape _ Hs) as (_ & (ns & name & _ & _ & Hf) & _ & _ & Ht).
    destruct (dedup_by_complete rel_ID (filter (λ r, nonempty (rel_FromNodeID r) = true ∧ nonempty (rel_ToNodeID r) = true)
      (offered_edges timestamp b perms)) s) as (k & Hk & E).
    { apply list_elem_of_filter. rewrite !nonempty_true, Hf. split; [|done]. split; [|done]. by apply app_nonempty; destruct (rel_Type s). }
    exists k. split; [done|]. apply offered_id_inj; [by apply k8s_elem_of_appendRelationship in Hk as [? _]|done|done].
Qed.

Lemma edges_accepted :
  ValidateNormalizedBundle b = Ok tt → IsZero timestamp = false →
  ValidateGraphContract b (ResolveRelationships timestamp b perms) = Ok tt.
Proof.
  intros Hv Hts. apply ValidateGraphContract_intro; [|apply NoDup_dedup_by|].
  2: { intros r s [Hr _]%k8s_elem_of_appendRelationship [Hs _]%k8s_elem_of_appendRelationship. by apply offered_key. }
  intros r (Hr & Hf & Ht)%k8s_elem_of_appendRelationship. pose proof (offered_shape _ Hr) as (_ & _ & Hid & Hd & _).
  split; [rewrite Hid; by apply app_nonempty|]. split; [done|]. split; [done|]. split; [by rewrite Hd|].
  apply (bundle_accepted_accounts raw b Hb Hn) in Hv as Hacc.
  apply offered_edge in Hr as [(ns & name & sa & Hrun & Hin & ->)|[(p & Hp & ->)|(t & Ht' & ->)]];
    unfold validateRelationshipEndpoints; cbn [rel_Type edge rel_FromNodeID rel_ToNodeID].
  - rewrite (hasIdentity_nodes b) by done.
    assert (∃ w, w ∈ b_Workloads b ∧ wl_ID w = workloadID ns name) as (w & Hw & <-).
    { eexists. split; [by apply (Normalize_workloads raw b Hb); eexists _, _, _|done]. }
    by rewrite (hasWorkload_nodes b).
  - rewrite (hasPolicy_nodes b p Hp).
    apply (Normalize_policies raw b Hb) in Hp as (asset & rb & ns & name & sts & Hbd & ->).
    destruct (wn_bound _ Hn _ _ _ _ _ Hbd) as (? & ? & _). rewrite (hasIdentity_nodes b); [done|].
    apply (identity_ids raw b Hb Hn); [done|done|]. by eapply Hacc.
  - destruct (Hperms t Ht') as (ns & name & a & s & -> & asset & rb & sts & st & Hbd & _). cbn.
    destruct (wn_bound _ Hn _ _ _ _ _ Hbd) as (? & ? & _). rewrite (hasIdentity_nodes b); [done|].
    apply (identity_ids raw b Hb Hn); [done|done|]. by eapply Hacc.
Qed.
End edges.

(** ** The findings *)
Lemma k8s_elem_of_dedupeStrings l x : x ∈ dedupeStrings l ↔ x ≠ "" ∧ ∃ y, y ∈ l ∧ x = TrimSpace y.
Proof. unfold dedupeStrings. by rewrite SortStrings_perm, elem_of_unique, elem_of_nonempty_map. Qed.

Lemma k8s_escalation_overprivileged a r : isEscalationPermission a r = true → isOverprivilegedPermission a r = true.
Proof. unfold isOverprivilegedPermission. intros ->. by repeat case_match. Qed.

Section findings.
Context `{SHA256Hex, SortSlice} (now : Z) (bundle : NormalizedBundle) (relationships : list Relationship).

(** An escalation edge of an identity: a grant whose node parses to an
    escalating permission. *)
Definition escalates (iid : string) : Prop :=
  ∃ r a s, r ∈ relationships ∧ rel_Type r = CanAccess ∧ rel_FromNodeID r = iid ∧
    parseAccessNode (rel_ToNodeID r) = Some (a, s) ∧ isEscalationPermission a s = true.

Lemma k8s_hasEscalationRisk_members iid : hasEscalationRisk (members access_risk iid relationships) = true ↔ escalates iid.
Proof.
  unfold hasEscalationRisk, escalates. rewrite existsb_exists. setoid_rewrite <-list_elem_of_In.
  setoid_rewrite elem_of_members. unfold access_risk. split.
  - intros (x & (r & Hr & E) & Hx). destruct (rel_Type r) eqn:Ht; try done.
    destruct (parseAccessNode (rel_ToNodeID r)) as [[a s]|] eqn:Hp; [|done].
    destruct (isOverprivilegedPermission a s); [|done]. injection E as <- <-. by exists r, a, s.
  - intros (r & a & s & Hr & Ht & Hf & Hp & He). exists (mkRisk a s (rel_ToNodeID r) true). split; [|done]. exists r. split; [done|].
    by rewrite Ht, Hp, k8s_escalation_overprivileged, Hf, He by done.
Qed.

Lemma escalation_reported wid iid :
  (∃ f node, f ∈ Evaluate now bundle relationships ∧ f_Type f = FindingEscalationPath ∧ f_Path f = [wid; iid; node]) ↔
  iid ∈ id_ID <$> b_Identities bundle ∧ escalates iid ∧ wid ≠ "" ∧
  ∃ r, r ∈ relationships ∧ rel_Type r = BoundTo ∧ rel_ToNodeID r = iid ∧ wid = TrimSpace (rel_FromNodeID r).
Proof.
  transitivity (iid ∈ id_ID <$> b_Identities bundle ∧ escalates iid ∧ wid ∈ dedupeStrings (members bound_workload iid relationships)).
  2: { rewrite k8s_elem_of_dedupeStrings. setoid_rewrite elem_of_members. unfold bound_workload. f_equiv. f_equiv. f_equiv. split.
    - intros (y & (r & Hr & E) & ->). destruct (rel_Type r) eqn:Ht; try done. injection E as <- <-. by exists r.
    - intros (r & Hr & Ht & <- & ->). eexists. split; [|done]. exists r. by rewrite Ht. }
  rewrite <-k8s_hasEscalationRisk_members, list_elem_of_fmap. unfold Evaluate. setoid_rewrite elem_of_sort_slice.
  unfold raw_findings. setoid_rewrite list_elem_of_bind. setoid_rewrite group_default. unfold identity_findings. split.
  - intros (f & node & (i & Hf & Hi) & Ht & Hp). unfold sortedIdentities in Hi. rewrite elem_of_sort_slice in Hi.
    apply elem_of_app in Hf as [Hf|Hf].
    { destruct (blank _); [apply list_elem_of_singleton in Hf as ->|by apply elem_of_nil in Hf]. done. }
    destruct (sortAccessRisks _) as [|top l]; [by apply elem_of_nil in Hf|].
    apply elem_of_cons in Hf as [->|Hf]; [done|]. destruct (hasEscalationRisk _) eqn:E; [|by apply elem_of_nil in Hf].
    apply list_elem_of_fmap in Hf as (w & -> & Hw). injection Hp as <- <- _. split; [by exists i|done].
  - intros ((i & -> & Hi) & E & Hw).
    destruct (sortAccessRisks (members access_risk (id_ID i) relationships)) as [|top l] eqn:Es.
    { exfalso. assert (Hp : [] ≡ₚ members access_risk (id_ID i) relationships) by (rewrite <-Es; apply sort_slice_perm).
      apply Permutation_nil_l in Hp. by rewrite <-Hp in E. }
    eexists _, _. split.
    + exists i. split; [|by unfold sortedIdentities; rewrite elem_of_sort_slice]. apply elem_of_app. right. rewrite Es, E. right.
      apply list_elem_of_fmap. by exists wid.
    + done.
Qed.
End findings.

(** ** The whole scan *)
Lemma k8s_parse_access a r :
  canon a = a → a ≠ "" → no_byte ":" a → canon r = r → r ≠ "" → parseAccessNode (accessNodeID a r) = Some (a, r).
Proof.
  intros Ha Hne Hc Hr Hne'.
  assert (TrimSpace a = a) as Ea by (rewrite <-Ha; apply TrimSpace_canon).
  assert (TrimSpace r = r) as Er by (rewrite <-Hr; apply TrimSpace_canon).
  unfold parseAccessNode, accessNodeID. rewrite HasPrefix_app, TrimPrefix_app, Ea, Er. cbn [negb].
  rewrite SplitN_two, Ea, Er by done. by rewrite !bool_decide_false.
Qed.

Section scan.
Context `{JSON, SHA256Hex, SortSlice} (raw : list RawAsset) (b : NormalizedBundle).
Context (Hb : Normalize raw = Ok b) (Hn : well_named raw).
Context (Hsrc : ∀ asset, asset ∈ raw → present (ra_SourceID asset) = true).
Context (collector : result (list RawAsset * list SourceError)) (errs : list SourceError) (timestamp rules_now now : Z).
Context (Hc : collector = Ok (raw, errs)) (Hts : IsZero timestamp = false).

Lemma scan_of_accepted :
  ValidateNormalizedBundle b = Ok tt →
  ∃ r, Run (k8s_scanner collector timestamp rules_now) now = Ok r ∧ ResolvePermissions b = Ok (sr_Permissions r) ∧
    sr_Findings r = Evaluate rules_now b (ResolveRelationships timestamp b (sr_Permissions r)).
Proof.
  intros Hv. destruct (permissions_resolved raw b Hb Hn) as (perms & Hperms & Hall & _).
  pose proof (edges_accepted raw b Hb Hn perms timestamp Hall Hv Hts) as Hg.
  unfold Run, RunWithPhase, k8s_scanner. cbn. rewrite Hc. cbn. rewrite Hb. cbn. rewrite Hv. cbn. rewrite Hperms. cbn. rewrite Hg. cbn.
  by eexists.
Qed.

Lemma scan_completes :
  (∃ r, Run (k8s_scanner collector timestamp rules_now) now = Ok r) ↔ NoDup (pod_names raw) ∧ bound_accounts_collected raw.
Proof.
  rewrite <-(bundle_accepted raw b Hb Hn Hsrc). split.
  - intros [r Hr]. unfold Run in Hr. destruct (RunWithPhase _ _) as [phases res] eqn:E. cbn in Hr. subst res.
    apply RunWithPhase_contracts in E as (_ & Ec & En & Hv & _). cbn in Ec, En. rewrite Hc in Ec. injection Ec as E1 _.
    rewrite <-E1, Hb in En. by injection En as ->.
  - intros Hv. destruct (scan_of_accepted Hv) as (r & Hr & _). by exists r.
Qed.

Lemma escalates_may perms ns sa :
  ResolvePermissions b = Ok perms → distinct_bindings raw → k8s_name ns → k8s_name sa →
  escalates (ResolveRelationships timestamp b perms) (serviceAccountID ns sa) ↔
  ∃ a s, may raw ns sa a s ∧ isEscalationPermission a s = true.
Proof.
  intros Hperms Hd Hns Hsa. destruct (permissions_resolved raw b Hb Hn) as (perms' & Hperms' & Hall & Hcomplete).
  rewrite Hperms in Hperms'. injection Hperms' as <-. unfold escalates. split.
  - intros (r & a & s & Hr & Ht & Hf & Hp & He). apply k8s_elem_of_appendRelationship in Hr as [Hr _].
    apply (offered_edge raw b Hb perms timestamp Hall) in Hr as [(? & ? & ? & _ & _ & ->)|[(? & _ & ->)|(t & Hin & ->)]]; try done.
    cbn in Hf, Hp. destruct (Hall t Hin) as (ns' & sa' & a' & s' & -> & Hm). cbn in Hf, Hp.
    destruct (may_good raw _ _ _ _ Hm) as (? & ? & ? & ?), (wn_may _ Hn _ _ _ _ Hm) as (? & _).
    rewrite k8s_parse_access in Hp by done. injection Hp as <- <-.
    pose proof Hm as (asset & rb & sts & st & Hbd & _). destruct (wn_bound _ Hn _ _ _ _ _ Hbd) as (? & ? & _).
    apply serviceAccountID_inj in Hf as [-> ->]; [|done..]. by exists a', s'.
  - intros (a & s & Hm & He). destruct (may_good raw _ _ _ _ Hm) as (? & ? & ? & ?), (wn_may _ Hn _ _ _ _ Hm) as (? & _).
    destruct (elem_of_relationships raw b Hb Hn perms timestamp Hall
      (edge CanAccess timestamp (serviceAccountID ns sa) (accessNodeID a s) a)) as [_ (r & Hr & Ht & Hf & Hto)].
    { exists (edge CanAccess timestamp (serviceAccountID ns sa) (accessNodeID a s) a). split; [|done].
      apply (offered_edge raw b Hb perms timestamp Hall). right. right. eexists. split; [by apply (Hcomplete Hd)|done]. }
    exists r, a, s. rewrite Hto. cbn [rel_ToNodeID edge]. by rewrite k8s_parse_access.
Qed.

Lemma bound_to_runs perms ns pod sa :
  ResolvePermissions b = Ok perms → k8s_name ns → k8s_name pod → k8s_name sa →
  (serviceAccountID ns sa ∈ id_ID <$> b_Identities b ∧ workloadID ns pod ≠ "" ∧
   ∃ r, r ∈ ResolveRelationships timestamp b perms ∧ rel_Type r = BoundTo ∧ rel_ToNodeID r = serviceAccountID ns sa ∧
     workloadID ns pod = TrimSpace (rel_FromNodeID r)) ↔
  runs_as raw ns pod sa ∧ account raw ns sa.
Proof.
  intros Hperms Hns Hpod Hsa. destruct (permissions_resolved raw b Hb Hn) as (perms' & Hperms' & Hall & _).
  rewrite Hperms in Hperms'. injection Hperms' as <-. rewrite (identity_ids raw b Hb Hn) by done. split.
  - intros (Ha & _ & r & Hr & Ht & Hto & Hf). split; [|done]. apply k8s_elem_of_appendRelationship in Hr as [Hr _].
    apply (offered_edge raw b Hb perms timestamp Hall) in Hr as [(ns' & pod' & sa' & Hrun & _ & ->)|[(? & _ & ->)|(t & _ & ->)]]; try done.
    cbn in Hto, Hf. destruct (wn_pod _ Hn _ _ _ Hrun) as (? & ? & ?). apply serviceAccountID_inj in Hto as [-> ->]; [|done..].
    pose proof Hrun as (? & ? & _).
    rewrite (workloadID_name ns pod'), TrimSpace_pair, workloadID_name in Hf by (done || apply plain_pod).
    by apply pair_inj in Hf as [_ ->].
  - intros [Hrun Ha]. split; [done|]. split; [by apply app_nonempty|].
    destruct (elem_of_relationships raw b Hb Hn perms timestamp Hall
      (edge BoundTo timestamp (workloadID ns pod) (serviceAccountID ns sa) (serviceAccountID ns sa))) as [_ (r & Hr & Ht & Hf & Hto)].
    { eexists. split; [|split; [done|done]]. apply (offered_edge raw b Hb perms timestamp Hall). left. exists ns, pod, sa.
      split; [done|]. split; [by apply (identity_ids raw b Hb Hn)|done]. }
    exists r. rewrite Hf, Hto. cbn. split; [done|]. split; [done|]. split; [done|]. pose proof Hrun as (? & ? & _).
    rewrite workloadID_name, TrimSpace_pair by (done || apply plain_pod). done.
Qed.
End scan.

(** A scan of the collected objects completes exactly when no two pods share a namespace and name and every service account that a binding grants something was collected itself; the stages after the bundle check never fail. *)
Theorem k8s_scan_completes `{JSON, SHA256Hex, SortSlice} raw b errs timestamp rules_now now :
  Normalize raw = Ok b → well_named raw → (∀ asset, asset ∈ raw → present (ra_SourceID asset) = true) →
  IsZero timestamp = false →
  (∃ r, Run (k8s_scanner (Ok (raw, errs)) timestamp rules_now) now = Ok r) ↔
  NoDup (pod_names raw) ∧ bound_accounts_collected raw.
Proof. intros. by eapply scan_completes. Qed.

(** From the collected objects to the finding: a scan that completes reports an escalation path for a pod and a service account exactly when the pod was collected, runs as that account of its namespace (as [default] when it names none), the account was collected, and some binding gives the account, through a role's rules or the built-in meaning of the role's name, an action on a resource that is an escalation; bindings are taken to be told apart by scope and name, and names to be free of the separators of the ids. *)
Theorem k8s_scan_reports_escalation `{JSON, SHA256Hex, SortSlice} raw b errs timestamp rules_now now r :
  Normalize raw = Ok b → well_named raw → distinct_bindings raw →
  (∀ asset, asset ∈ raw → present (ra_SourceID asset) = true) → IsZero timestamp = false →
  Run (k8s_scanner (Ok (raw, errs)) timestamp rules_now) now = Ok r →
  ∀ ns pod sa, k8s_name ns → k8s_name pod → k8s_name sa →
  (∃ f node, f ∈ sr_Findings r ∧ f_Type f = FindingEscalationPath ∧
     f_Path f = [workloadID ns pod; serviceAccountID ns sa; node]) ↔
  runs_as raw ns pod sa ∧ account raw ns sa ∧ ∃ action resource, may raw ns sa action resource ∧
    isEscalationPermission action resource = true.
Proof.
  intros Hb Hn Hd Hsrc Hts Hr ns pod sa Hns Hpod Hsa.
  assert (Hv : ValidateNormalizedBundle b = Ok tt).
  { apply (bundle_accepted raw b Hb Hn Hsrc), (scan_completes raw b Hb Hn Hsrc _ errs timestamp rules_now now eq_refl Hts). by exists r. }
  destruct (scan_of_accepted raw b Hb Hn _ errs timestamp rules_now now eq_refl Hts Hv) as (r' & Hr' & Hperms & Hf).
  rewrite Hr in Hr'. injection Hr' as <-. rewrite Hf, escalation_reported.
  pose proof (bound_to_runs raw b Hb Hn timestamp _ ns pod sa Hperms Hns Hpod Hsa) as Hbound.
  rewrite (escalates_may raw b Hb Hn timestamp _ ns sa) by done. tauto.
Qed.

(** ** A concrete cluster

    A pod whose service account may create secrets through a cluster role. *)
Definition sample_documents : list (string * any) :=
  [("account", AMap [("kind", AString "ServiceAccount"); ("metadata", AMap [("name", AString "deployer"); ("namespace", AString "ci")])]);
   ("pod", AMap [("kind", AString "Pod"); ("metadata", AMap [("name", AString "runner"); ("namespace", AString "ci")]);
                 ("spec", AMap [("serviceAccountName", AString "deployer")])]);
   ("role", AMap [("kind", AString "ClusterRole"); ("metadata", AMap [("name", AString "deploy")]);
                  ("rules", AList [AMap [("apiGroups", AList [AString ""]); ("resources", AList [AString "secrets"]);
                                         ("verbs", AList [AString "Create"])]])]);
   ("binding", AMap [("kind", AString "ClusterRoleBinding"); ("metadata", AMap [("name", AString "deploy")]);
                     ("roleRef", AMap [("kind", AString "ClusterRole"); ("name", AString "deploy")]);
                     ("subjects", AList [AMap [("kind", AString "ServiceAccount"); ("name", AString "deployer"); ("namespace", AString "ci")]])]);
   ("reader", AMap [("kind", AString "RoleBinding"); ("metadata", AMap [("name", AString "deploy"); ("namespace", AString "cluster")]);
                    ("roleRef", AMap [("kind", AString "ClusterRole"); ("name", AString "view")]);
                    ("subjects", AList [AMap [("kind", AString "ServiceAccount"); ("name", AString "deployer"); ("namespace", AString "ci")]])])].
Definition sample_json : JSON :=
  {| json_parse := λ s, match map_get sample_documents s with ANil => None | v => Some v end |}.
Definition sample_sha : SHA256Hex := {| sha256_hex := λ s, s |}.
Definition sample_asset (kind payload : string) : RawAsset := mkRawAsset kind ("cluster/" +:+ payload) payload "".
Definition sample_raw : list RawAsset :=
  [sample_asset "k8s_service_account" "account"; sample_asset "k8s_pod" "pod"; sample_asset "k8s_role" "role";
   sample_asset "k8s_role_binding" "binding"].
Definition sample_scan (raw : list RawAsset) : result ScanResult :=
  Run (@k8s_scanner sample_json sample_sha insertion_sort (Ok (raw, [])) (5 * Hour) (5 * Hour)) 0.
Definition sample_bundle : NormalizedBundle := ok_or (mkBundle [] [] [] [] [] [] []) (@Normalize sample_json sample_raw).

Example k8s_sample_findings :
  (λ fs, (λ f, (f_Type f, f_Path f)) <$> fs) <$> (sr_Findings <$> sample_scan sample_raw) =
  Ok [(FindingEscalationPath, ["k8s:workload:pod:ci:runner"; "k8s:identity:sa:ci:deployer"; "k8s:access:create:secrets"]);
      (FindingOverPrivileged, ["k8s:identity:sa:ci:deployer"; "k8s:access:create:secrets"]);
      (FindingOwnerless, ["k8s:identity:sa:ci:deployer"])].
Proof. vm_compute. reflexivity. Qed.

(** A binding to an account that does not exist (Kubernetes allows it) fails the
    whole scan. *)
Example dangling_binding_fails :
  sample_scan [sample_asset "k8s_role" "role"; sample_asset "k8s_role_binding" "binding"] =
  Err (Wrap ("invalid policy " +:+ Quote "k8s:policy:cluster:deploy:k8s:identity:sa:ci:deployer" +:+ " normalized payload")
         (Errorf ("unknown identity_id " +:+ Quote "k8s:identity:sa:ci:deployer"))).
Proof. vm_compute. reflexivity. Qed.

(** A read-only role binding in a namespace called "cluster" hides the cluster
    role binding of the same name: the escalation is not reported. *)
Example cluster_namespace_collision :
  (λ fs, (λ f, (f_Type f, f_Path f)) <$> fs) <$>
    (sr_Findings <$> sample_scan (sample_asset "k8s_role_binding" "reader" :: sample_raw)) =
  Ok [(FindingOverPrivileged, ["k8s:identity:sa:ci:deployer"; "k8s:access:get:*"]);
      (FindingOwnerless, ["k8s:identity:sa:ci:deployer"])].
Proof. vm_compute. reflexivity. Qed.

Lemma elem_of_sample_raw asset :
  asset ∈ sample_raw → asset = sample_asset "k8s_service_account" "account" ∨ asset = sample_asset "k8s_pod" "pod" ∨
    asset = sample_asset "k8s_role" "role" ∨ asset = sample_asset "k8s_role_binding" "binding".
Proof. unfold sample_raw. set_solver. Qed.
Lemma sample_name_dec s :
  bool_decide (Forall (λ c, graphic c = true) (bytes s) ∧ ":"%char ∉ bytes s ∧ "|"%char ∉ bytes s) = true → k8s_name s.
Proof. intros H. by apply bool_decide_eq_true in H. Qed.

Lemma sample_bound asset binding ns name statements :
  @bound sample_json sample_raw asset binding ns name statements →
  asset = sample_asset "k8s_role_binding" "binding" ∧ ns = "ci" ∧ name = "deployer" ∧ binding_scope binding = "cluster" ∧
  statements = [allow_statement ["create"] ["secrets"]].
Proof.
  intros ((Hin & Hk & D) & _ & Hs & _ & subject & Hsub & Ha). apply elem_of_sample_raw in Hin as [->|[->|[->| ->]]]; try done.
  vm_compute in D. injection D as <-. vm_compute in Hs. subst statements. cbn [rb_Subjects] in Hsub.
  apply list_elem_of_singleton in Hsub as ->. vm_compute in Ha. by injection Ha as <- <-.
Qed.

Lemma sample_well_named : @well_named sample_json sample_raw.
Proof.
  split.
  - intros ns name (_ & _ & asset & sa & (Hin & Hk & D) & <- & <-). apply elem_of_sample_raw in Hin as [->|[->|[->| ->]]]; try done.
    vm_compute in D. injection D as <-. split; apply sample_name_dec; by vm_compute.
  - intros ns name sa (_ & _ & asset & pod & (Hin & Hk & D) & <- & <- & ->). apply elem_of_sample_raw in Hin as [->|[->|[->| ->]]]; try done.
    vm_compute in D. injection D as <-. split; [|split]; apply sample_name_dec; by vm_compute.
  - intros asset binding ns name statements (_ & -> & -> & -> & _)%sample_bound.
    split; [|split]; [by apply sample_name_dec; vm_compute..|]. unfold no_byte. by apply (bool_decide_unpack _).
  - intros ns name action resource (asset & rb & sts & st & (_ & _ & _ & _ & ->)%sample_bound & ->%list_elem_of_singleton & Ha & Hr).
    vm_compute in Ha, Hr. apply list_elem_of_singleton in Ha as ->, Hr as ->. unfold no_byte. repeat split; by apply (bool_decide_unpack _).
Qed.
Lemma sample_sourced asset : asset ∈ sample_raw → present (ra_SourceID asset) = true.
Proof. by intros [->|[->|[->| ->]]]%elem_of_sample_raw. Qed.

Lemma k8s_scan_completes_witness :
  (∃ r, sample_scan sample_raw = Ok r) ↔ NoDup (@pod_names sample_json sample_raw) ∧ @bound_accounts_collected sample_json sample_raw.
Proof.
  apply (@k8s_scan_completes sample_json sample_sha insertion_sort sample_raw sample_bundle [] (5 * Hour) (5 * Hour) 0);
    [vm_compute; reflexivity|apply sample_well_named|apply sample_sourced|reflexivity].
Defined.

Lemma k8s_scan_reports_escalation_witness :
  ∃ r, sample_scan sample_raw = Ok r ∧
    ((∃ f node, f ∈ sr_Findings r ∧ f_Type f = FindingEscalationPath ∧
       f_Path f = [workloadID "ci" "runner"; serviceAccountID "ci" "deployer"; node]) ↔
     @runs_as sample_json sample_raw "ci" "runner" "deployer" ∧ @account sample_json sample_raw "ci" "deployer" ∧
     ∃ action resource, @may sample_json sample_raw "ci" "deployer" action resource ∧ isEscalationPermission action resource = true).
Proof.
  destruct (sample_scan sample_raw) as [r|] eqn:E; [|vm_compute in E; discriminate E]. exists r. split; [reflexivity|].
  apply (@k8s_scan_reports_escalation sample_json sample_sha insertion_sort sample_raw sample_bundle [] (5 * Hour) (5 * Hour) 0 r).
  - vm_compute. reflexivity.
  - apply sample_well_named.
  - intros asset ? ? ? ? asset' ? ? ? ? [-> _]%sample_bound [-> _]%sample_bound _ _. reflexivity.
  - apply sample_sourced.
  - reflexivity.
  - exact E.
  - apply sample_name_dec. by vm_compute.
  - apply sample_name_dec. by vm_compute.
  - apply sample_name_dec. by vm_compute.
Defined.
