(* ===== verification/ScanPipeline.v ===== *)
(** * AWS scans

    What a scan ([Scanner]) reports when its stages are the AWS permission
    resolver, relationship builder and rule set. *)
From S2P Require Import Prelude GoStrings GoCollections GoTime ScanDomain GraphContract Scanner AwsPolicies AwsReferences AwsGraph AwsRules.

(** The permission resolver never fails on a validated bundle. *)
Lemma foldr_statements_Ok raws :
  forM_ validate_raw_statement raws = Ok tt → ∃ sts, parseNormalizedStatements (AList raws) = Ok sts.
Proof.
  unfold parseNormalizedStatements. induction raws as [|v raws IH]; intros H; cbn in *; [by eexists|].
  open_bind H u Hu. unfold validate_raw_statement in Hu. destruct (as_map v); [|done].
  destruct (IH H) as [sts ->]. cbn. by eexists.
Qed.
Lemma ResolvePermissions_total bundle :
  ValidateNormalizedBundle bundle = Ok tt → ∃ perms, ResolvePermissions bundle = Ok perms.
Proof.
  intros Hv. destruct (ValidateNormalizedBundle_ids bundle Hv) as (_&_&_&_&_&_&_&_&_&_& Hn).
  unfold ResolvePermissions. destruct (concat_results_total policy_tuples (b_Policies bundle)) as [ts ->];
    [|by eexists]. intros p Hp. specialize (Hn p Hp). unfold policy_tuples, policy_type, policy_identity.
  destruct (decide _) as [Ht|]; [|by eexists]. unfold validatePolicyNormalized in Hn. rewrite Ht in Hn.
  open_bind Hn u1 H1. open_bind Hn u2 H2. open_bind Hn u3 H3. open_bind Hn u4 H4.
  apply guard_err_Ok, nonempty_true in H3.
  assert (nonempty (as_string (map_get (pol_Normalized p) "identity_id")) = true) as ->.
  { apply nonempty_true. intros E. by rewrite E in H3. }
  cbn [guard_err mbind result_bind]. rewrite decide_True in Hn by done.
  destruct (map_get (pol_Normalized p) "statements") as [| | | | | |l| |l|]; try done; destruct l as [|x l]; try done.
  - destruct (foldr_statements_Ok _ Hn) as [sts ->]. by eexists.
  - cbn. by eexists.
Qed.

(** ** An AWS scan *)
Section aws.
Context `{SHA256, JSON, MapRange, SortSlice}.

Definition aws_scanner (collector : result (list RawAsset * list SourceError))
    (normalizer : list RawAsset → result NormalizedBundle) (timestamp : Z) (rules : RuleSet) : Scanner :=
  {| sc_Collector := collector; sc_Normalizer := normalizer; sc_PermissionResolver := ResolvePermissions;
     sc_RelationshipResolver := λ bundle perms, Ok (ResolveRelationships timestamp bundle perms);
     sc_RiskRuleSet := λ bundle relationships, Ok (Evaluate rules bundle relationships) |}.

Definition assumable (bundle : NormalizedBundle) (i : Identity) : Prop :=
  ∃ principal, trusts bundle (id_ID i) principal ∧
    isRiskyPrincipal (principalNodeID principal (arn_index bundle)) (accountIDFromARN (id_ARN i))
      (identities_by_id bundle) = true.
Definition administrative (bundle : NormalizedBundle) (i : Identity) : Prop :=
  ∃ action resource, grants bundle (id_ID i) "Allow" action resource ∧ isEscalationAction action = true.

Lemma isRiskyPrincipal_nonempty from account ids : isRiskyPrincipal from account ids = true → from ≠ "".
Proof. intros Hr ->. done. Qed.
Lemma isEscalationAction_TrimSpace a : isEscalationAction (TrimSpace a) = isEscalationAction a.
Proof. unfold isEscalationAction. by rewrite canon_TrimSpace. Qed.
End aws.

Section escalation.
Context `{SHA256, JSON, MapRange, SortSlice} (timestamp : Z) (bundle : NormalizedBundle) (perms : list PermissionTuple)
  (i : Identity).
Hypothesis Hperms : ResolvePermissions bundle = Ok perms.
Hypothesis Hfaith : ids_faithful (offered_edges timestamp bundle perms).
Hypothesis Hbar : grants_bar_free bundle.
Hypothesis Hne : id_ID i ≠ "".
Notation relationships := (ResolveRelationships timestamp bundle perms).

Lemma risky_edge_assumable : risky_edge bundle relationships i ↔ assumable bundle i.
Proof.
  unfold risky_edge, assumable. split.
  - intros (r & Hr & Ht & Hto & Hrisk). destruct (assume_edges_spec timestamp bundle perms Hfaith (rel_FromNodeID r) (id_ID i))
      as [Hiff _]; [by eapply isRiskyPrincipal_nonempty|done|].
    destruct Hiff as (q & Hq & E); [by exists r|]. exists q. by rewrite E.
  - intros (q & Hq & Hrisk). set (from := principalNodeID q (arn_index bundle)) in *.
    destruct (assume_edges_spec timestamp bundle perms Hfaith from (id_ID i)) as [_ Hiff];
      [by eapply isRiskyPrincipal_nonempty|done|].
    destruct Hiff as (r & Hr & Ht & Hf & Hto); [by exists q|]. exists r. by rewrite Hf.
Qed.

Lemma access_edge_administrative :
  access_edge relationships i (λ action _, isEscalationAction action) ↔ administrative bundle i.
Proof.
  unfold access_edge, administrative. split.
  - intros (r & a & s & Hr & Ht & Hf & Hp & He).
    destruct (access_edges_spec timestamp bundle perms Hperms Hfaith Hbar (id_ID i) (rel_ToNodeID r) Hne) as [Hiff _].
    destruct Hiff as (a' & s' & Hg & E); [by exists r|]. rewrite E, parse_access in Hp. injection Hp as <- <-.
    exists a', s'. by rewrite isEscalationAction_TrimSpace in He.
  - intros (a & s & Hg & He).
    destruct (access_edges_spec timestamp bundle perms Hperms Hfaith Hbar (id_ID i) (accessNodeID a s) Hne) as [_ Hiff].
    destruct Hiff as (r & Hr & Ht & Hf & Hto); [by exists a, s|].
    exists r, (TrimSpace a), (TrimSpace s). rewrite Hto, parse_access, isEscalationAction_TrimSpace. done.
Qed.
End escalation.

(** C4. An AWS scan of a closed bundle completes, and for an identity of the customer's own it reports an escalation path exactly when some trust policy of that identity names a wildcard, cross-account or unidentifiable principal and some permission policy of it allows an administrative action: nothing between the policies and the finding is lost or made up, provided no two edges share a hash and no granted name contains the separator of the permission keys. *)
Theorem scan_reports_escalation `{SHA256, JSON, MapRange, SortSlice} collector normalizer timestamp rules now raw errs bundle i :
  collector = Ok (raw, errs) → normalizer raw = Ok bundle → closed_bundle bundle → IsZero timestamp = false →
  (∀ perms, ResolvePermissions bundle = Ok perms → ids_faithful (offered_edges timestamp bundle perms)) →
  grants_bar_free bundle → i ∈ b_Identities bundle → is_special rules i = false →
  ∃ r, Run (aws_scanner collector normalizer timestamp rules) now = Ok r ∧
    ((∃ f, f ∈ sr_Findings r ∧ f_Type f = FindingEscalationPath ∧ finding_identity f = id_ID i) ↔
     assumable bundle i ∧ administrative bundle i).
Proof.
  intros -> Hn Hb Ht Hfaith Hbar Hi Hs. pose proof (cb_valid _ Hb) as Hv.
  destruct (ResolvePermissions_total bundle Hv) as [perms Hperms].
  destruct (ValidateNormalizedBundle_ids bundle Hv) as (Hnd & _ & _ & _ & _ & Hvalid & _).
  pose proof (resolved_edges_contract bundle perms timestamp Hb Hperms Ht) as Hg.
  unfold Run, RunWithPhase, aws_scanner. cbn. rewrite Hn. cbn. rewrite Hv. cbn. rewrite Hperms. cbn. rewrite Hg. cbn.
  eexists. split; [reflexivity|]. cbn [sr_Findings].
  rewrite (reported_iff_raised rules bundle _ i FindingEscalationPath Hnd Hi Hs). cbn [raises].
  assert (id_ID i ≠ "") as Hne.
  { specialize (Hvalid i Hi). unfold Identity_Validate in Hvalid. rewrite !andb_true_iff in Hvalid.
    by destruct Hvalid as [[[?%nonempty_true _] _] _]. }
  by rewrite risky_edge_assumable, access_edge_administrative by auto.
Qed.

Lemma scan_reports_escalation_witness :
  ∃ r, Run (@aws_scanner plain_sha no_json canonical_range insertion_sort (Ok ([], [])) (λ _, Ok sample_bundle)
              sample_time sample_rules) 0 = Ok r ∧
    ((∃ f, f ∈ sr_Findings r ∧ f_Type f = FindingEscalationPath ∧ finding_identity f = id_ID sample_identity) ↔
     assumable sample_bundle sample_identity ∧ administrative sample_bundle sample_identity).
Proof.
  apply (@scan_reports_escalation plain_sha no_json canonical_range insertion_sort (Ok ([], [])) (λ _, Ok sample_bundle)
    sample_time sample_rules 0 [] [] sample_bundle sample_identity); try reflexivity.
  - apply sample_closed.
  - intros perms Hperms. rewrite sample_perms_ok in Hperms. injection Hperms as <-.
    assert (H : Forall (λ r, Forall (λ s, rel_ID r = rel_ID s → rel_Type r = rel_Type s ∧
        rel_FromNodeID r = rel_FromNodeID s ∧ rel_ToNodeID r = rel_ToNodeID s)
      (@offered_edges plain_sha sample_time sample_bundle sample_perms))
      (@offered_edges plain_sha sample_time sample_bundle sample_perms))
      by (apply (bool_decide_unpack _); vm_compute; reflexivity).
    rewrite Forall_forall in H. intros r s Hr Hs. apply H in Hr. rewrite Forall_forall in Hr. by apply Hr.
  - intros id e a s Hg. assert (Hl : concat_results policy_tuples (b_Policies sample_bundle) = Ok sample_perms)
      by (vm_compute; reflexivity).
    apply (grants_tuples _ _ _ _ _ _ Hl) in Hg.
    assert (H : Forall (λ t, no_byte "|" (perm_IdentityID t) ∧ no_byte "|" (perm_Action t) ∧ no_byte "|" (perm_Resource t))
      sample_perms) by (apply (bool_decide_unpack _); vm_compute; reflexivity).
    rewrite Forall_forall in H. by apply H in Hg.
  - by left.
Defined.

(** A scan whose function runs a collected container image does not complete:
    the edge the builder adds for the image is refused. *)
Definition image_bundle : NormalizedBundle :=
  set_resources base_bundle
    [mkResource "aws:resource:ecr-repository:pay" "aws" ResourceTypeECRRepository "pay"
       "arn:aws:ecr:eu-west-1:111122223333:repository/pay" "eu-west-1" "111122223333"
       [("repository_uri", AString "111122223333.dkr.ecr.eu-west-1.amazonaws.com/pay")] "raw:5" "";
     mkResource "aws:resource:lambda-function:pay" "aws" ResourceTypeLambdaFunction "pay" "" "eu-west-1" "111122223333"
       [("image_uris", AStrings ["111122223333.dkr.ecr.eu-west-1.amazonaws.com/pay:v1"])] "raw:4" "aws:workload:lambda:1:eu:function/pay"].
Example image_scan_fails :
  ValidateNormalizedBundle image_bundle = Ok tt ∧
  Run (@aws_scanner plain_sha no_json canonical_range insertion_sort (Ok ([], [])) (λ _, Ok image_bundle)
         sample_time sample_rules) 0 = Err (Errorf ("unsupported relationship type " +:+ Quote "uses_image")).
Proof. split; vm_compute; reflexivity. Qed.
