(* ===== verification/Cron.v ===== *)
(** * Cron schedules of scan policies (internal/scheduler/cron.go)

    A five-field matcher: parsing into sets of values, matching a minute, and
    the search for the latest tick.  [map[int]bool] sets, whose entries are all
    [true], are [gset Z]; [int] is 64 bits wide and its additions wrap. *)
From S2P Require Import Prelude GoStrings GoTime GoParse.

Definition cronSearchLimit : nat := N.to_nat (366 * 24 * 60).
#[global] Arguments cronSearchLimit : simpl never.
#[global] Opaque cronSearchLimit.

Record CronSchedule := mkCron {
  Cron_minutes : gset Z;
  Cron_hours : gset Z;
  Cron_monthDays : gset Z;
  Cron_monthDaysAny : bool;
  Cron_months : gset Z;
  Cron_weekDays : gset Z;
  Cron_weekDaysAny : bool;
}.

(** ** Parsing *)
Definition invalid (what part : string) : error := Errorf ("invalid " +:+ what +:+ " " +:+ Quote part).
Definition outside (what part : string) (min max : Z) : error :=
  Errorf (what +:+ " " +:+ Quote part +:+ " outside " +:+ Itoa min +:+ "-" +:+ Itoa max).

(** [strings.Split(s, sep)] into exactly two non-empty pieces. *)
Definition two_pieces (s : string) (sep : ascii) : option (string * string) :=
  match Split s sep with
  | [a; b] => if bool_decide (a = "") || bool_decide (b = "") then None else Some (a, b)
  | _ => None
  end.

Definition atoi_or (s : string) (e : error) : result Z :=
  match Atoi s with Some z => Ok z | None => Err e end.

(** The step suffix of a part: the base and the step. *)
Definition parse_step (part : string) : result (string * Z) :=
  if Contains part "/" then
    match two_pieces part "/" with
    | None => Err (invalid "step" part)
    | Some (base, raw) =>
        step ← atoi_or raw (invalid "step" part);
        _ ← guard_err (0 <? step) (invalid "step" part);
        mret (base, step)
    end
  else mret (part, 1).

Definition parseCronPart (part : string) (min max : Z) : result (Z * Z * Z) :=
  '(base, step) ← parse_step part;
  if decide (base = "*") then mret (min, max, step)
  else if Contains base "-" then
    match two_pieces base "-" with
    | None => Err (invalid "range" part)
    | Some (a, b) =>
        start ← atoi_or a (invalid "range start" part);
        end_ ← atoi_or b (invalid "range end" part);
        _ ← guard_err (negb ((start <? min) || (max <? end_) || (end_ <? start))) (outside "range" part min max);
        mret (start, end_, step)
    end
  else
    value ← atoi_or base (invalid "value" part);
    _ ← guard_err (negb ((value <? min) || (max <? value))) (outside "value" part min max);
    mret (value, value, step).

(** [for value := start; value <= end; value += step]: the values visited, or
    [None] when the fuel runs out. *)
Fixpoint cron_values (fuel : nat) (value end_ step : Z) : option (list Z) :=
  match fuel with
  | O => None
  | S fuel =>
      if value <=? end_
      then cons value <$> cron_values fuel (wrap64 (value + step)) end_ step
      else Some []
  end.
Definition cron_fuel : nat := 64.

(** One comma-separated part, added to the values so far.  The loop always ends
    within [cron_fuel] iterations ([cron_values_terminate]). *)
Definition parse_part_into (min max : Z) (values : gset Z) (raw : string) : result (gset Z) :=
  let part := TrimSpace raw in
  _ ← guard_err (bool_decide (part ≠ "")) (Errorf "empty cron field part");
  '(start, end_, step) ← parseCronPart part min max;
  mret (values ∪ list_to_set (default [] (cron_values cron_fuel start end_ step))).

Fixpoint parse_parts (min max : Z) (values : gset Z) (parts : list string) : result (gset Z) :=
  match parts with
  | [] => mret values
  | part :: parts => values ← parse_part_into min max values part; parse_parts min max values parts
  end.

Definition parseCronField (raw : string) (min max : Z) : result (gset Z) :=
  values ← parse_parts min max ∅ (Split raw ",");
  _ ← guard_err (bool_decide (values ≠ ∅)) (Errorf "no cron values");
  mret values.

Definition in_field {A} (name : string) (r : result A) : result A :=
  match r with Ok x => Ok x | Err e => Err (Wrap (name +:+ " field") e) end.

Definition ParseCronSchedule (expr : string) : result CronSchedule :=
  match Fields (TrimSpace expr) with
  | [f0; f1; f2; f3; f4] =>
      minutes ← in_field "minute" (parseCronField f0 0 59);
      hours ← in_field "hour" (parseCronField f1 0 23);
      monthDays ← in_field "day-of-month" (parseCronField f2 1 31);
      months ← in_field "month" (parseCronField f3 1 12);
      weekDays ← in_field "day-of-week" (parseCronField f4 0 7);
      let weekDays := if decide (7 ∈ weekDays) then ({[0]} ∪ weekDays) ∖ {[7]} else weekDays in
      mret (mkCron minutes hours monthDays (bool_decide (TrimSpace f2 = "*")) months weekDays
              (bool_decide (TrimSpace f4 = "*")))
  | _ => Err (Errorf "cron expression must contain 5 fields")
  end.

(** ** Matching *)
Definition matches (s : CronSchedule) (t : Z) : bool :=
  let monthDayMatches := bool_decide (time_Day t ∈ Cron_monthDays s) in
  let weekDayMatches := bool_decide (time_Weekday t ∈ Cron_weekDays s) in
  let dayMatches :=
    if Cron_monthDaysAny s && Cron_weekDaysAny s then true
    else if Cron_monthDaysAny s then weekDayMatches
    else if Cron_weekDaysAny s then monthDayMatches
    else monthDayMatches || weekDayMatches in
  bool_decide (time_Minute t ∈ Cron_minutes s) && bool_decide (time_Hour t ∈ Cron_hours s) &&
  bool_decide (time_Month t ∈ Cron_months s) && dayMatches.

(** The search loop, [n] iterations left. *)
Fixpoint latest_loop (s : CronSchedule) (n : nat) (cursor boundary : Z) : option Z :=
  match n with
  | O => None
  | S n =>
      if After cursor boundary then
        if matches s cursor then Some cursor else latest_loop s n (cursor - Minute) boundary
      else None
  end.

Definition LatestAfter (s : CronSchedule) (after now : Z) : option Z :=
  latest_loop s cronSearchLimit (TruncateMinute now) after.

(** The program's own test cases. *)
Example cron_ex :
  match ParseCronSchedule "*/15 8 * * *" with
  | Ok s => LatestAfter s (time_Date 2026 5 17 8 0 0) (time_Date 2026 5 17 8 37 12) = Some (time_Date 2026 5 17 8 30 0)
  | Err _ => False
  end.
Proof. by vm_compute. Qed.
Example cron_error_ex :
  (error_string <$> match ParseCronSchedule "* 25 * * *" with Err e => Some e | Ok _ => None end) =
  Some ("hour field: value " +:+ Quote "25" +:+ " outside 0-23").
Proof. by vm_compute. Qed.

(** ** The value loop *)

(** The largest step whose additions cannot wrap. *)
Definition safe_step (step : Z) : Prop := 1 ≤ step ≤ int64_max - 59.

Lemma cron_values_spec fuel value end_ step :
  0 ≤ value → end_ ≤ 59 → safe_step step → end_ - value + 1 < Z.of_nat fuel → (0 < fuel)%nat →
  ∃ l, cron_values fuel value end_ step = Some l ∧
       ∀ x, x ∈ l ↔ ∃ k, 0 ≤ k ∧ x = value + k * step ∧ x ≤ end_.
Proof.
  unfold safe_step, int64_max. intros Hv He Hs. revert value Hv.
  induction fuel as [|fuel IH]; intros value Hv Hf Hpos; [lia|]. cbn.
  destruct (value <=? end_) eqn:E; boolify.
  - rewrite wrap64_id by (unfold in_int64, int64_min, int64_max; lia).
    destruct (IH (value + step)) as (l & -> & Hl); [lia..|].
    eexists. split; [done|]. intros x. rewrite elem_of_cons, Hl. split.
    + intros [->|(k & Hk & -> & Hx)]; [exists 0; lia|exists (k + 1); lia].
    + intros (k & Hk & -> & Hx). destruct (decide (k = 0)) as [->|]; [left; lia|right; exists (k - 1); lia].
  - eexists. split; [done|]. intros x. rewrite elem_of_nil. split; [done|]. intros (k & Hk & -> & Hx). nia.
Qed.

Lemma cron_values_exit fuel value end_ step :
  (0 < fuel)%nat → end_ < value → cron_values fuel value end_ step = Some [].
Proof. intros Hf He. destruct fuel as [|fuel]; [lia|]. cbn. by rewrite (proj2 (Z.leb_gt _ _)). Qed.

Lemma cron_values_next fuel value end_ step :
  (0 < fuel)%nat → (value ≤ end_ → is_Some (cron_values (fuel - 1) (wrap64 (value + step)) end_ step)) →
  is_Some (cron_values fuel value end_ step).
Proof.
  intros Hf H. destruct (decide (end_ < value)); [by rewrite cron_values_exit|].
  destruct fuel as [|fuel]; [lia|]. cbn.
  rewrite (proj2 (Z.leb_le _ _)) by lia. rewrite Nat.sub_succ, Nat.sub_0_r in H.
  destruct H as [l ->]; [lia|by eexists].
Qed.

Lemma wrap64_over z : int64_max < z → z ≤ int64_max + 2 ^ 63 → wrap64 z = z - 2 ^ 64.
Proof.
  unfold int64_max, wrap64. intros H1 H2. replace (z + 2 ^ 63) with (z - 2 ^ 63 + 1 * 2 ^ 64) by lia.
  rewrite Z.mod_add by done. rewrite Z.mod_small by lia. lia.
Qed.

(** The loop ends for every step, wrapping ones included: two wrapping
    additions lower the value by at least 2. *)
Lemma cron_values_wrapping fuel value end_ step :
  0 ≤ value ≤ 59 → end_ ≤ 59 → int64_max - 59 < step ≤ int64_max → value + 4 ≤ Z.of_nat fuel →
  is_Some (cron_values fuel value end_ step).
Proof.
  intros Hv He Hs. revert value Hv. induction (lt_wf fuel) as [fuel _ IH]. intros value Hv Hf.
  apply cron_values_next; [lia|]. intros _. unfold int64_max in *.
  destruct (decide (value + step ≤ 2 ^ 63 - 1)).
  { rewrite wrap64_id by (unfold in_int64, int64_min, int64_max; lia). rewrite cron_values_exit by lia. by eexists. }
  rewrite wrap64_over by (unfold int64_max; lia).
  apply cron_values_next; [lia|]. intros _.
  rewrite wrap64_id by (unfold in_int64, int64_min, int64_max; lia).
  destruct (decide (0 ≤ value + step - 2 ^ 64 + step)); [apply IH; lia|].
  apply cron_values_next; [lia|]. intros _.
  rewrite wrap64_id by (unfold in_int64, int64_min, int64_max; lia).
  rewrite cron_values_exit by lia. by eexists.
Qed.

Lemma cron_values_terminate start end_ step :
  0 ≤ start ≤ 59 → end_ ≤ 59 → 1 ≤ step ≤ int64_max → is_Some (cron_values cron_fuel start end_ step).
Proof.
  intros Hstart Hend Hstep. destruct (decide (step ≤ int64_max - 59)).
  - destruct (cron_values_spec cron_fuel start end_ step) as (vs & -> & _);
      [lia|lia|unfold safe_step; lia|unfold cron_fuel; lia|unfold cron_fuel; lia|by eexists].
  - apply cron_values_wrapping; unfold cron_fuel; lia.
Qed.

#[global] Arguments cron_values : simpl never.

(** ** What an expression means

    The portable cron forms as syntax, their text and their meaning. *)
Inductive cron_range := CronAny | CronAt (n : Z) | CronRange (a b : Z).
Record cron_item := mkItem { item_range : cron_range; item_step : option Z }.

Definition render_range (r : cron_range) : string :=
  match r with
  | CronAny => "*"
  | CronAt n => Itoa n
  | CronRange a b => Itoa a +:+ "-" +:+ Itoa b
  end.
Definition render_item (i : cron_item) : string :=
  match item_step i with
  | None => render_range (item_range i)
  | Some s => render_range (item_range i) +:+ "/" +:+ Itoa s
  end.
Definition render_field (f : list cron_item) : string := Join (render_item <$> f) ",".

Definition range_lo (lo : Z) (r : cron_range) : Z := match r with CronAny => lo | CronAt n => n | CronRange a _ => a end.
Definition range_hi (hi : Z) (r : cron_range) : Z := match r with CronAny => hi | CronAt n => n | CronRange _ b => b end.
Definition step_of (i : cron_item) : Z := default 1 (item_step i).

Definition item_ok (lo hi : Z) (i : cron_item) : Prop :=
  lo ≤ range_lo lo (item_range i) ∧ range_lo lo (item_range i) ≤ range_hi hi (item_range i) ≤ hi ∧ safe_step (step_of i).
Definition field_ok (lo hi : Z) (f : list cron_item) : Prop := f ≠ [] ∧ Forall (item_ok lo hi) f.

(** The values a field denotes: those reached from the start of one of its
    ranges by steps, up to its end. *)
Definition denotes (lo hi : Z) (f : list cron_item) (v : Z) : Prop :=
  ∃ i k, i ∈ f ∧ 0 ≤ k ∧ v = range_lo lo (item_range i) + k * step_of i ∧ v ≤ range_hi hi (item_range i).

(** ** Parsing an item's text *)
Lemma range_plain r : plain (render_range r).
Proof.
  destruct r; cbn; [by repeat constructor|apply Itoa_plain|].
  rewrite !plain_app. split_and!; [apply Itoa_plain|by repeat constructor|apply Itoa_plain].
Qed.
Lemma range_nonempty r : render_range r ≠ "".
Proof.
  destruct r as [|n|a b]; cbn; [done|apply Itoa_nonempty|]. intros E.
  apply (f_equal bytes) in E. rewrite bytes_app in E. by apply app_nil in E as [_ ?].
Qed.
Lemma range_no_byte c r :
  is_digit c = false → c ≠ "-"%char → c ≠ "*"%char → no_byte c (render_range r).
Proof.
  intros Hd Hm Hs. destruct r; cbn.
  - unfold no_byte. cbn. rewrite list_elem_of_singleton. done.
  - by apply Itoa_no_byte.
  - unfold no_byte. rewrite !bytes_app, !elem_of_app. cbn. rewrite list_elem_of_singleton.
    intros [H|[H|H]]; [|done|]; by apply Itoa_no_byte in H.
Qed.
Lemma item_plain i : plain (render_item i) ∧ render_item i ≠ "".
Proof.
  unfold render_item. destruct (item_step i); [|split; [apply range_plain|apply range_nonempty]]. split.
  - rewrite !plain_app. split_and!; [apply range_plain|by repeat constructor|apply Itoa_plain].
  - intros E. apply (f_equal bytes) in E. rewrite bytes_app in E. apply app_nil in E as [E _].
    by apply (range_nonempty (item_range i)), bytes_inj.
Qed.
Lemma item_no_comma i : no_byte "," (render_item i).
Proof.
  unfold render_item. destruct (item_step i); [|by apply range_no_byte].
  unfold no_byte. rewrite !bytes_app, !elem_of_app. cbn. rewrite list_elem_of_singleton.
  intros [H|[H|H]]; [by apply range_no_byte in H|done|by apply Itoa_no_byte in H].
Qed.

Lemma two_pieces_pair s t sep :
  no_byte sep s → no_byte sep t → s ≠ "" → t ≠ "" → two_pieces (s +:+ String sep "" +:+ t) sep = Some (s, t).
Proof.
  intros Hs Ht Hs' Ht'. unfold two_pieces. change (String sep "" +:+ t) with (String sep t). rewrite Split_pair by done.
  by rewrite (bool_decide_eq_false_2 _ Hs'), (bool_decide_eq_false_2 _ Ht').
Qed.

Lemma Contains_false s c : no_byte c s → Contains s (String c "") = false.
Proof. intros H. destruct (Contains s _) eqn:E; [|done]. by apply Contains_byte in E. Qed.
Lemma Contains_mid s c t : Contains (s +:+ String c "" +:+ t) (String c "") = true.
Proof. apply Contains_byte. rewrite bytes_app, elem_of_app. right. cbn. by left. Qed.

Lemma parse_step_render i :
  safe_step (step_of i) → parse_step (render_item i) = Ok (render_range (item_range i), step_of i).
Proof.
  unfold safe_step, step_of, parse_step, render_item. destruct (item_step i) as [s|]; intros Hs; cbn in Hs |- *.
  - rewrite Contains_mid. rewrite two_pieces_pair; [|by apply range_no_byte|by apply Itoa_no_byte|
      apply range_nonempty|apply Itoa_nonempty].
    unfold atoi_or. rewrite Atoi_Itoa by lia. cbn. by rewrite (proj2 (Z.ltb_lt _ _)) by lia.
  - by rewrite Contains_false by (by apply range_no_byte).
Qed.

Lemma Itoa_not_star n : Itoa n ≠ "*".
Proof.
  intros E. apply (Itoa_no_byte "*" n); [done|done|]. rewrite E. cbn. by left.
Qed.

Lemma parseCronPart_render lo hi i :
  0 ≤ lo → hi ≤ 59 → item_ok lo hi i →
  parseCronPart (render_item i) lo hi = Ok (range_lo lo (item_range i), range_hi hi (item_range i), step_of i).
Proof.
  intros Hlo Hhi (H1 & H2 & Hs). unfold parseCronPart. rewrite parse_step_render by done. cbn.
  destruct (item_range i) as [|n|a b]; cbn in *.
  - done.
  - rewrite decide_False by apply Itoa_not_star.
    rewrite Contains_false by (apply Itoa_no_minus; lia).
    unfold atoi_or. rewrite Atoi_Itoa by (unfold int64_max; lia). cbn.
    rewrite (proj2 (Z.ltb_ge n lo)), (proj2 (Z.ltb_ge hi n)) by lia. done.
  - rewrite decide_False.
    2: { intros E. apply (f_equal (λ x, Contains x "-")) in E. by rewrite Contains_mid in E. }
    rewrite Contains_mid, two_pieces_pair; [|apply Itoa_no_minus; lia|apply Itoa_no_minus; lia|apply Itoa_nonempty..].
    unfold atoi_or. rewrite !Atoi_Itoa by (unfold int64_max; lia). cbn.
    rewrite (proj2 (Z.ltb_ge a lo)), (proj2 (Z.ltb_ge hi b)), (proj2 (Z.ltb_ge b a)) by lia. done.
Qed.

Lemma parse_part_into_render lo hi values i :
  0 ≤ lo → hi ≤ 59 → item_ok lo hi i →
  ∃ values', parse_part_into lo hi values (render_item i) = Ok values' ∧
    ∀ v, v ∈ values' ↔ v ∈ values ∨ denotes lo hi [i] v.
Proof.
  intros Hlo Hhi Hok. destruct (item_plain i) as [Hp Hne]. unfold parse_part_into.
  rewrite TrimSpace_plain by done. rewrite bool_decide_eq_true_2 by done. cbn.
  rewrite parseCronPart_render by done. cbn. destruct Hok as (H1 & H2 & Hs).
  destruct (cron_values_spec cron_fuel (range_lo lo (item_range i)) (range_hi hi (item_range i)) (step_of i))
    as (l & -> & Hl); [lia|lia|done|unfold cron_fuel; lia|unfold cron_fuel; lia|].
  eexists. split; [done|]. intros v. cbn. rewrite elem_of_union, elem_of_list_to_set, Hl. unfold denotes.
  setoid_rewrite list_elem_of_singleton. naive_solver.
Qed.

Lemma denotes_cons lo hi i f v : denotes lo hi (i :: f) v ↔ denotes lo hi [i] v ∨ denotes lo hi f v.
Proof.
  unfold denotes. split.
  - intros (j & k & [->|Hj]%elem_of_cons & H); [left; exists i, k; split; [by left|done]|right; by exists j, k].
  - intros [(j & k & Hj%list_elem_of_singleton & H)|(j & k & Hj & H)]; exists j, k; (split; [|done]).
    + subst. by left.
    + by right.
Qed.

Lemma parse_parts_render lo hi f values :
  0 ≤ lo → hi ≤ 59 → Forall (item_ok lo hi) f →
  ∃ values', parse_parts lo hi values (render_item <$> f) = Ok values' ∧
    ∀ v, v ∈ values' ↔ v ∈ values ∨ denotes lo hi f v.
Proof.
  intros Hlo Hhi Hf. revert values. induction Hf as [|i f Hi _ IH]; intros values; cbn.
  - exists values. split; [done|]. intros v. split; [by left|intros [?|(i & k & Hin & _)]; [done|by apply elem_of_nil in Hin]].
  - destruct (parse_part_into_render lo hi values i Hlo Hhi Hi) as (values1 & -> & Hv1). cbn.
    destruct (IH values1) as (values2 & -> & Hv2). exists values2. split; [done|].
    intros v. rewrite Hv2, Hv1, (denotes_cons _ _ i f). tauto.
Qed.

Lemma parseCronField_render lo hi f :
  0 ≤ lo → hi ≤ 59 → field_ok lo hi f →
  ∃ values, parseCronField (render_field f) lo hi = Ok values ∧ ∀ v, v ∈ values ↔ denotes lo hi f v.
Proof.
  intros Hlo Hhi [Hne Hf]. unfold parseCronField, render_field.
  rewrite Split_Join.
  2: { by destruct f. }
  2: { apply Forall_fmap, Forall_forall. intros i _. apply item_no_comma. }
  destruct (parse_parts_render lo hi f ∅ Hlo Hhi Hf) as (values & -> & Hv). cbn.
  assert (∀ v, v ∈ values ↔ denotes lo hi f v) as Hv'.
  { intros v. rewrite Hv. split; [intros [H|H]; [by apply not_elem_of_empty in H|done]|by right]. }
  rewrite bool_decide_eq_true_2; [by exists values|]. intros ->.
  destruct f as [|i f]; [done|]. apply Forall_cons in Hf as [(H1 & H2 & _) _].
  apply (not_elem_of_empty (C := gset Z) (range_lo lo (item_range i))), Hv'.
  exists i, 0. split_and!; [by left|done|lia|lia].
Qed.

(** ** Meaning of an expression *)
Record cron_expr := mkExpr {
  expr_minutes : list cron_item;
  expr_hours : list cron_item;
  expr_monthDays : list cron_item;
  expr_months : list cron_item;
  expr_weekDays : list cron_item;
}.
Definition render_expr (e : cron_expr) : string :=
  Join (render_field <$> [expr_minutes e; expr_hours e; expr_monthDays e; expr_months e; expr_weekDays e]) " ".
Definition expr_ok (e : cron_expr) : Prop :=
  field_ok 0 59 (expr_minutes e) ∧ field_ok 0 23 (expr_hours e) ∧ field_ok 1 31 (expr_monthDays e) ∧
  field_ok 1 12 (expr_months e) ∧ field_ok 0 7 (expr_weekDays e).

Definition is_any (f : list cron_item) : Prop := f = [mkItem CronAny None].

(** 7 is a second name of Sunday; a restricted day of month and a restricted day
    of week are alternatives. *)
Definition weekday_due (e : cron_expr) (t : Z) : Prop :=
  denotes 0 7 (expr_weekDays e) (time_Weekday t) ∨ (time_Weekday t = 0 ∧ denotes 0 7 (expr_weekDays e) 7).
Definition monthday_due (e : cron_expr) (t : Z) : Prop := denotes 1 31 (expr_monthDays e) (time_Day t).
Definition due (e : cron_expr) (t : Z) : Prop :=
  denotes 0 59 (expr_minutes e) (time_Minute t) ∧ denotes 0 23 (expr_hours e) (time_Hour t) ∧
  denotes 1 12 (expr_months e) (time_Month t) ∧
  (is_any (expr_monthDays e) ∧ is_any (expr_weekDays e) ∨
   is_any (expr_monthDays e) ∧ weekday_due e t ∨
   is_any (expr_weekDays e) ∧ monthday_due e t ∨
   ¬ is_any (expr_monthDays e) ∧ ¬ is_any (expr_weekDays e) ∧ (monthday_due e t ∨ weekday_due e t)).

Lemma Join_plain l sep : plain sep → Forall plain l → plain (Join l sep).
Proof.
  intros Hsep Hl. destruct l as [|x l]; [by constructor|]. revert x Hl.
  induction l as [|y l IH]; intros x Hl; apply Forall_cons in Hl as [Hx Hl]; [done|].
  change (Join (x :: y :: l) sep) with (x +:+ sep +:+ Join (y :: l) sep).
  rewrite !plain_app. split_and!; [done|done|by apply IH].
Qed.

Lemma render_field_plain f : f ≠ [] → plain (render_field f) ∧ render_field f ≠ "".
Proof.
  intros Hne. unfold render_field. split.
  - apply Join_plain; [by repeat constructor|]. apply Forall_fmap, Forall_forall. intros i _. apply item_plain.
  - destruct f as [|i [|j f]]; [done|apply item_plain|]. cbn. intros E. apply (f_equal bytes) in E.
    rewrite bytes_app in E. apply app_nil in E as [E _]. by apply (proj2 (item_plain i)), bytes_inj.
Qed.

Lemma render_field_any f : f ≠ [] → render_field f = "*" ↔ is_any f.
Proof.
  intros Hne. split; [|by intros ->]. unfold render_field, is_any. intros E.
  assert (∀ s c t, c ≠ "*"%char → s +:+ String c "" +:+ t ≠ "*") as Hno.
  { intros s c t Hc Es. apply (f_equal (λ x, Contains x (String c ""))) in Es. rewrite Contains_mid in Es.
    rewrite Contains_false in Es; [done|]. unfold no_byte. cbn. by rewrite list_elem_of_singleton. }
  destruct f as [|i [|j f]]; [done| |].
  2: { by destruct (Hno (render_item i) ","%char (Join (render_item <$> j :: f) ",") ltac:(done) E). }
  destruct i as [[|n|a b] [s|]]; cbn in E; [|done|..].
  - by destruct (Hno "*" "/"%char (Itoa s) ltac:(done) E).
  - by destruct (Hno (Itoa n) "/"%char (Itoa s) ltac:(done) E).
  - by apply Itoa_not_star in E.
  - by destruct (Hno (Itoa a +:+ "-" +:+ Itoa b) "/"%char (Itoa s) ltac:(done) E).
  - by destruct (Hno (Itoa a) "-"%char (Itoa b) ltac:(done) E).
Qed.

Lemma render_expr_fields e : expr_ok e → Fields (TrimSpace (render_expr e)) =
  render_field <$> [expr_minutes e; expr_hours e; expr_monthDays e; expr_months e; expr_weekDays e].
Proof.
  intros ([H0 _] & [H1 _] & [H2 _] & [H3 _] & [H4 _]). unfold render_expr. cbn [fmap list_fmap].
  destruct (render_field_plain _ H0) as [P0 N0]. destruct (render_field_plain _ H4) as [P4 N4].
  replace (TrimSpace _) with (Join (render_field <$> [expr_minutes e; expr_hours e; expr_monthDays e; expr_months e;
    expr_weekDays e]) (String space "")).
  - apply Fields_Join. repeat (apply Forall_cons; split; [by apply render_field_plain|]). by constructor.
  - symmetry. cbn [Join fmap list_fmap].
    pose proof (TrimSpace_between (render_field (expr_minutes e))
      (" " +:+ render_field (expr_hours e) +:+ " " +:+ render_field (expr_monthDays e) +:+ " " +:+
       render_field (expr_months e) +:+ " ") (render_field (expr_weekDays e)) P0 N0 P4 N4) as Ht.
    assert (∀ x y z, (x +:+ y) +:+ z = x +:+ (y +:+ z)) as Hassoc
      by (intros; apply bytes_inj; by rewrite !bytes_app, app_assoc).
    by rewrite !Hassoc in Ht.
Qed.

(** Sunday's alias. *)
Lemma weekdays_alias (w : gset Z) v :
  0 ≤ v < 7 → v ∈ (if decide (7 ∈ w) then ({[0]} ∪ w) ∖ {[7]} else w) ↔ v ∈ w ∨ (v = 0 ∧ 7 ∈ w).
Proof. intros Hv. destruct (decide (7 ∈ w)); set_unfold; naive_solver lia. Qed.

Lemma matches_true s t :
  matches s t = true ↔
  time_Minute t ∈ Cron_minutes s ∧ time_Hour t ∈ Cron_hours s ∧ time_Month t ∈ Cron_months s ∧
  (if Cron_monthDaysAny s && Cron_weekDaysAny s then True
   else if Cron_monthDaysAny s then time_Weekday t ∈ Cron_weekDays s
   else if Cron_weekDaysAny s then time_Day t ∈ Cron_monthDays s
   else time_Day t ∈ Cron_monthDays s ∨ time_Weekday t ∈ Cron_weekDays s).
Proof.
  unfold matches. rewrite !andb_true_iff, !bool_decide_eq_true.
  destruct (Cron_monthDaysAny s), (Cron_weekDaysAny s); cbn;
    rewrite ?orb_true_iff, ?bool_decide_eq_true; tauto.
Qed.

Lemma matches_due e s t (W : gset Z) :
  (∀ v, v ∈ Cron_minutes s ↔ denotes 0 59 (expr_minutes e) v) →
  (∀ v, v ∈ Cron_hours s ↔ denotes 0 23 (expr_hours e) v) →
  (∀ v, v ∈ Cron_monthDays s ↔ denotes 1 31 (expr_monthDays e) v) →
  (∀ v, v ∈ Cron_months s ↔ denotes 1 12 (expr_months e) v) →
  (∀ v, v ∈ W ↔ denotes 0 7 (expr_weekDays e) v) →
  Cron_weekDays s = (if decide (7 ∈ W) then ({[0]} ∪ W) ∖ {[7]} else W) →
  (Cron_monthDaysAny s = true ↔ is_any (expr_monthDays e)) →
  (Cron_weekDaysAny s = true ↔ is_any (expr_weekDays e)) →
  matches s t = true ↔ due e t.
Proof.
  intros H0 H1 H2 H3 H4 HW Hm Hw. rewrite matches_true, H0, H1, H3. unfold due.
  assert (time_Weekday t ∈ Cron_weekDays s ↔ weekday_due e t) as Hweek.
  { rewrite HW, weekdays_alias by apply time_Weekday_range. unfold weekday_due. by rewrite !H4. }
  assert (time_Day t ∈ Cron_monthDays s ↔ monthday_due e t) as Hmonth by apply H2.
  assert (true = true) as Htrue by done. assert (¬ false = true) as Hfalse by done.
  destruct (Cron_monthDaysAny s), (Cron_weekDaysAny s); cbn; rewrite <-Hm, <-Hw, ?Hweek, ?Hmonth; clear - Htrue Hfalse; tauto.
Qed.

(** C38.  A schedule written in the portable forms parses, and the parsed
    schedule fires exactly at the minutes the expression denotes: each field
    by its comma-separated values, ranges and steps, 7 naming Sunday, and
    restricted day-of-month and day-of-week fields being alternatives. *)
Theorem cron_expression_meaning e (Hok : expr_ok e) :
  ∃ s, ParseCronSchedule (render_expr e) = Ok s ∧ ∀ t, matches s t = true ↔ due e t.
Proof.
  pose proof (render_expr_fields e Hok) as Hf. destruct Hok as (H0 & H1 & H2 & H3 & H4).
  unfold ParseCronSchedule. rewrite Hf. cbn [fmap list_fmap].
  destruct (parseCronField_render 0 59 _ ltac:(lia) ltac:(lia) H0) as (v0 & -> & E0). cbn.
  destruct (parseCronField_render 0 23 _ ltac:(lia) ltac:(lia) H1) as (v1 & -> & E1). cbn.
  destruct (parseCronField_render 1 31 _ ltac:(lia) ltac:(lia) H2) as (v2 & -> & E2). cbn.
  destruct (parseCronField_render 1 12 _ ltac:(lia) ltac:(lia) H3) as (v3 & -> & E3). cbn.
  destruct (parseCronField_render 0 7 _ ltac:(lia) ltac:(lia) H4) as (v4 & -> & E4). cbn.
  eexists. split; [done|]. intros t. apply (matches_due e _ t v4); [done..| |]; cbn.
  - rewrite bool_decide_eq_true, TrimSpace_plain by (apply render_field_plain, H2). apply render_field_any, H2.
  - rewrite bool_decide_eq_true, TrimSpace_plain by (apply render_field_plain, H4). apply render_field_any, H4.
Qed.

Definition witness_expr : cron_expr :=
  mkExpr [mkItem (CronRange 1 10) (Some 3)] [mkItem (CronAt 4) None; mkItem (CronAt 8) None] [mkItem CronAny None]
    [mkItem CronAny None] [mkItem (CronAt 7) None].
Lemma cron_expression_meaning_witness :
  render_expr witness_expr = "1-10/3 4,8 * * 7" ∧
  ∃ s, ParseCronSchedule (render_expr witness_expr) = Ok s ∧ ∀ t, matches s t = true ↔ due witness_expr t.
Proof.
  split; [by vm_compute|]. refine (cron_expression_meaning witness_expr _).
  split_and!; (split; [done|]); repeat constructor; cbn; unfold int64_max; lia.
Defined.

(** ** The latest tick *)
Lemma minute_below u cursor : is_minute u → is_minute cursor → u < cursor → u ≤ cursor - Minute.
Proof.
  unfold is_minute. intros Hu Hc Hlt. assert (0 < Minute) by (by vm_compute).
  apply Z.div_exact in Hu, Hc; [|lia..]. set (q := u / Minute) in *. set (p := cursor / Minute) in *.
  assert (q < p) by nia. nia.
Qed.

Lemma latest_loop_spec s n cursor boundary :
  is_minute cursor →
  match latest_loop s n cursor boundary with
  | Some t => matches s t = true ∧ is_minute t ∧ boundary < t ≤ cursor ∧
      (∀ u, is_minute u → t < u ≤ cursor → matches s u = false)
  | None => ∀ u, is_minute u → boundary < u ≤ cursor → cursor - Z.of_nat n * Minute < u → matches s u = false
  end.
Proof.
  assert (0 < Minute) by (by vm_compute).
  revert cursor. induction n as [|n IH]; intros cursor Hc; cbn [latest_loop]; [intros; lia|].
  destruct (After cursor boundary) eqn:Ha; [apply Z.ltb_lt in Ha|apply Z.ltb_ge in Ha; intros; lia].
  destruct (matches s cursor) eqn:E; [split_and!; [done|done|lia|lia|intros; lia]|].
  assert (is_minute (cursor - Minute)) as Hc'.
  { unfold is_minute in *. by rewrite <-(Z.mod_add _ 1), Z.mul_1_l, Z.sub_add. }
  specialize (IH _ Hc'). assert (∀ u, is_minute u → u ≤ cursor → u = cursor ∨ u ≤ cursor - Minute) as Hcase.
  { intros u Hu Hle. destruct (decide (u = cursor)); [by left|right]. apply minute_below; [done|done|lia]. }
  destruct (latest_loop s n (cursor - Minute) boundary) as [t|].
  - destruct IH as (? & ? & ? & IH). split_and!; [done|done|lia|lia|]. intros u Hu Hr.
    destruct (Hcase u Hu) as [->|]; [lia|done|]. apply IH; [done|lia].
  - intros u Hu Hr Hn. destruct (Hcase u Hu) as [->|]; [lia|done|]. apply IH; [done|lia|lia].
Qed.

(** The tick found is the latest matching minute after the boundary and
    not after now; none is reported only when no minute of that interval
    matches within the search limit of 366 days before now. *)
Theorem LatestAfter_latest s after now :
  match LatestAfter s after now with
  | Some t => matches s t = true ∧ is_minute t ∧ after < t ≤ now ∧
      (∀ u, is_minute u → t < u ≤ now → matches s u = false)
  | None => ∀ u, is_minute u → after < u ≤ now → now - Z.of_nat cronSearchLimit * Minute < u → matches s u = false
  end.
Proof.
  unfold LatestAfter.
  pose proof (latest_loop_spec s cronSearchLimit (TruncateMinute now) after (TruncateMinute_minute now)) as H.
  pose proof (TruncateMinute_le now). pose proof (TruncateMinute_gt now).
  assert (∀ u, is_minute u → u ≤ now → u ≤ TruncateMinute now) as Htrunc.
  { intros u Hu Hle. destruct (decide (u ≤ TruncateMinute now)); [done|].
    pose proof (minute_below (TruncateMinute now) u (TruncateMinute_minute now) Hu). lia. }
  destruct (latest_loop _ _ _ _) as [t|].
  - destruct H as (? & ? & ? & H). split_and!; [done|done|lia|lia|]. intros u Hu Hr.
    apply H; [done|]. split; [lia|]. apply Htrunc; [done|lia].
  - intros u Hu Hr Hn. apply H; [done| |lia]. split; [lia|]. apply Htrunc; [done|lia].
Qed.

(** ** The step loop on machine integers *)
Lemma atoi_or_Ok s e z : atoi_or s e = Ok z → in_int64 z.
Proof.
  unfold atoi_or. destruct (Atoi s) as [y|] eqn:E; [|done]. intros [= <-]. unfold Atoi in E.
  destruct (match bytes s with [] => _ | _ => _ end) as [neg [|c l]]; [done|].
  apply bind_Some in E as (v & _ & E). destruct (decide _) as [Hr|]; [|done]. by injection E as <-.
Qed.

Lemma parse_step_bounds part base step : parse_step part = Ok (base, step) → 1 ≤ step ≤ int64_max.
Proof.
  unfold parse_step. intros H. destruct (Contains part "/"); [|injection H as <- <-; unfold int64_max; lia].
  destruct (two_pieces part "/") as [[a b]|]; [|done]. apply bind_Ok in H as (z & Hz & H).
  apply bind_Ok in H as ([] & Hpos & H). apply guard_err_Ok, Z.ltb_lt in Hpos. injection H as <- <-.
  apply atoi_or_Ok in Hz. unfold in_int64 in Hz. lia.
Qed.

Lemma parseCronPart_bounds part lo hi start end_ step :
  lo ≤ hi → parseCronPart part lo hi = Ok (start, end_, step) →
  lo ≤ start ∧ start ≤ end_ ≤ hi ∧ 1 ≤ step ≤ int64_max.
Proof.
  unfold parseCronPart. intros Hle H. apply bind_Ok in H as ([base s] & Hs & H). apply parse_step_bounds in Hs.
  destruct (decide (base = "*")); [injection H as <- <- <-; lia|].
  destruct (Contains base "-").
  - destruct (two_pieces base "-") as [[a b]|]; [|done]. inv_ok. boolify. lia.
  - inv_ok. boolify. lia.
Qed.

(** A part the parser accepts has its start and end within the field's
    range; the loop that collects its values ends within the fuel, whatever
    the step; for every step but those within 59 of the largest [int] it
    collects exactly the values reached from the start up to the end. *)
Theorem cron_part_loop part lo hi start end_ step
    (Hlo : 0 ≤ lo) (Hle : lo ≤ hi) (Hhi : hi ≤ 59) (Hparse : parseCronPart part lo hi = Ok (start, end_, step)) :
  lo ≤ start ∧ start ≤ end_ ≤ hi ∧
  ∃ l, cron_values cron_fuel start end_ step = Some l ∧
    (safe_step step → ∀ v, v ∈ l ↔ ∃ k, 0 ≤ k ∧ v = start + k * step ∧ v ≤ end_).
Proof.
  apply parseCronPart_bounds in Hparse as (H1 & H2 & H3); [|done]. split_and!; [lia..|].
  destruct (cron_values_terminate start end_ step) as [l Hl]; [lia..|]. exists l. split; [done|]. intros Hs.
  destruct (cron_values_spec cron_fuel start end_ step) as (l' & Hl' & Hv);
    [lia|lia|done|unfold cron_fuel; lia|unfold cron_fuel; lia|]. by simplify_eq.
Qed.

Lemma cron_part_loop_witness :
  ∃ l, cron_values cron_fuel 59 59 int64_max = Some l.
Proof.
  destruct (proj2 (proj2 (cron_part_loop "59/9223372036854775807" 0 59 59 59 int64_max
    ltac:(lia) ltac:(lia) ltac:(lia) ltac:(by vm_compute)))) as (l & Hl & _).
  by exists l.
Defined.

(** The excluded steps: the addition wraps below zero, the loop goes on, and the
    minute field [59/9223372036854775807], which names the single minute 59,
    matches 57, 55, ..., 1 as well. *)
Example cron_step_overflow :
  match parseCronField "59/9223372036854775807" 0 59, parseCronField "59/60" 0 59 with
  | Ok wrapped, Ok plain =>
      (filter (λ v, 0 ≤ v) wrapped : gset Z) =
        list_to_set [1; 3; 5; 7; 9; 11; 13; 15; 17; 19; 21; 23; 25; 27; 29; 31; 33; 35; 37; 39; 41; 43; 45; 47; 49; 51;
                     53; 55; 57; 59] ∧
      plain = {[59]}
  | _, _ => False
  end.
Proof. vm_compute. split; reflexivity. Qed.
