(* ===== verification/ScanQueue.v ===== *)
(** * The scan queue (internal/db/memory.go)

    Scans are rows of a table, in the order they were created; a row moves
    through "queued", "running", "succeeded" and "failed".  Each method runs
    under the store's mutex.  [uuid.NewString], the clock and the trace context
    of the request are arguments. *)
From S2P Require Import Prelude GoStrings GoTime Runs Scope.

Definition ErrQueueLimitReached : error := Sentinel "queue limit reached".
Definition ErrPendingScanExists : error := Sentinel "pending scan already exists".
Definition DefaultScanMaxRetryCount : Z := 3.

Record ScanRecord := mkScan {
  Scan_ID : string;
  Scan_TenantID : string;
  Scan_WorkspaceID : string;
  Scan_ProjectID : string;
  Scan_ConnectorID : string;
  Scan_Provider : string;
  Scan_Status : string;
  Scan_StartedAt : Z;
  Scan_FinishedAt : option Z;
  Scan_AssetCount : Z;
  Scan_FindingCount : Z;
  Scan_ErrorMessage : string;
  Scan_RetryCount : Z;
  Scan_MaxRetryCount : Z;
  Scan_FailureCategory : string;
  Scan_NextRetryAt : option Z;
  Scan_DeadLettered : bool;
  Scan_DeadLetteredAt : option Z;
  Scan_TraceParent : string;
  Scan_TraceState : string;
}.

#[export] Instance ScanRecord_eq_dec : EqDecision ScanRecord.
Proof. solve_decision. Defined.

(** The zero [ScanRecord]. *)
Definition zero_scan : ScanRecord :=
  mkScan "" "" "" "" "" "" "" time_zero None 0 0 "" 0 0 "" None false None "" "".

Record ScanSource := mkSource { Source_ProjectID : string; Source_ConnectorID : string }.

#[export] Instance ScanSource_eq_dec : EqDecision ScanSource.
Proof. solve_decision. Defined.

Definition ScanSource_Normalize (s : ScanSource) : ScanSource :=
  mkSource (TrimSpace (Source_ProjectID s)) (TrimSpace (Source_ConnectorID s)).
Definition ScanSource_Empty (s : ScanSource) : bool :=
  let normalized := ScanSource_Normalize s in
  bool_decide (Source_ProjectID normalized = "") && bool_decide (Source_ConnectorID normalized = "").
Definition no_source : ScanSource := mkSource "" "".

Record QueueState := mkQueue { scans : gmap string ScanRecord; scanIDs : list string }.
Definition empty_queue : QueueState := mkQueue ∅ [].

(** [m.scans[id] = record]. *)
Definition put_scan (id : string) (record : ScanRecord) (s : QueueState) : QueueState :=
  mkQueue (<[id := record]> (scans s)) (scanIDs s).

(** ** Selecting rows *)
Definition scanSourceMatches (record : ScanRecord) (source : ScanSource) : bool :=
  let normalized := ScanSource_Normalize source in
  (bool_decide (Source_ProjectID normalized = "") ||
   bool_decide (TrimSpace (Scan_ProjectID record) = Source_ProjectID normalized)) &&
  (bool_decide (Source_ConnectorID normalized = "") ||
   bool_decide (TrimSpace (Scan_ConnectorID record) = Source_ConnectorID normalized)).

Definition provider_matches (provider : string) (record : ScanRecord) : bool :=
  let normalizedProvider := TrimSpace provider in
  bool_decide (normalizedProvider = "") || bool_decide (TrimSpace (Scan_Provider record) = normalizedProvider).

Definition in_scope (scope : Scope) (record : ScanRecord) : bool :=
  MatchScope scope (Scan_TenantID record) (Scan_WorkspaceID record).

Definition is_queued (record : ScanRecord) : bool :=
  bool_decide (Scan_Status record = "queued") && negb (Scan_DeadLettered record).
Definition is_pending (record : ScanRecord) : bool :=
  negb (Scan_DeadLettered record) &&
  (bool_decide (Scan_Status record = "queued") || bool_decide (Scan_Status record = "running")).

(** The rows of the counting loops. *)
Definition queued_in (scope : Scope) (provider : string) (source : ScanSource) (record : ScanRecord) : bool :=
  in_scope scope record && is_queued record && provider_matches provider record && scanSourceMatches record source.
Definition pending_in (scope : Scope) (provider : string) (source : ScanSource) (record : ScanRecord) : bool :=
  in_scope scope record && is_pending record && provider_matches provider record && scanSourceMatches record source.

Definition count_scans (f : ScanRecord → bool) (s : QueueState) : Z :=
  Z.of_nat (size (filter (λ '(_, r), f r = true) (scans s))).

(** ** Creating rows *)
Definition new_scan (newID : string) (scope : Scope) (provider : string) (source : ScanSource) (status : string)
    (startedAt : Z) : ScanRecord :=
  let normalizedScope := Scope_Normalize scope in
  let normalizedSource := ScanSource_Normalize source in
  mkScan newID (Scope_TenantID normalizedScope) (Scope_WorkspaceID normalizedScope) (Source_ProjectID normalizedSource)
    (Source_ConnectorID normalizedSource) (TrimSpace provider) (TrimSpace status) startedAt None 0 0 "" 0
    DefaultScanMaxRetryCount "" None false None "" "".

Definition createScanLocked (newID : string) (scope : Scope) (provider : string) (source : ScanSource)
    (status : string) (startedAt : Z) (s : QueueState) : QueueState * ScanRecord :=
  let record := new_scan newID scope provider source status startedAt in
  (mkQueue (<[newID := record]> (scans s)) (scanIDs s ++ [newID]), record).

Definition with_trace (trace : string * string) (r : ScanRecord) : ScanRecord :=
  mkScan (Scan_ID r) (Scan_TenantID r) (Scan_WorkspaceID r) (Scan_ProjectID r) (Scan_ConnectorID r) (Scan_Provider r)
    (Scan_Status r) (Scan_StartedAt r) (Scan_FinishedAt r) (Scan_AssetCount r) (Scan_FindingCount r)
    (Scan_ErrorMessage r) (Scan_RetryCount r) (Scan_MaxRetryCount r) (Scan_FailureCategory r) (Scan_NextRetryAt r)
    (Scan_DeadLettered r) (Scan_DeadLetteredAt r) trace.1 trace.2.

(** The tail of the queueing methods: create the row, then stamp its trace. *)
Definition enqueue (newID : string) (trace : string * string) (scope : Scope) (provider : string) (source : ScanSource)
    (queuedAt : Z) (s : QueueState) : QueueState * ScanRecord :=
  let '(s, record) := createScanLocked newID scope provider source "queued" queuedAt s in
  let record := with_trace trace record in
  (put_scan (Scan_ID record) record s, record).

Definition CreateScan (newID : string) (ctx : Context) (provider : string) (startedAt : Z) (s : QueueState)
    : result (QueueState * ScanRecord) :=
  scope ← RequireScope ctx;
  mret (createScanLocked newID scope provider no_source "running" startedAt s).

Definition CreateQueuedScanWithSource (newID : string) (trace : string * string) (ctx : Context) (provider : string)
    (source : ScanSource) (queuedAt : Z) (s : QueueState) : result (QueueState * ScanRecord) :=
  scope ← RequireScope ctx;
  mret (enqueue newID trace scope provider source queuedAt s).
Definition CreateQueuedScan newID trace ctx provider queuedAt s :=
  CreateQueuedScanWithSource newID trace ctx provider no_source queuedAt s.

Definition CreateQueuedScanWithinLimitWithSource (newID : string) (trace : string * string) (ctx : Context)
    (provider : string) (source : ScanSource) (queuedAt maxPending : Z) (s : QueueState)
    : result (QueueState * ScanRecord) :=
  scope ← RequireScope ctx;
  let maxPending := if maxPending <=? 0 then 1 else maxPending in
  let normalizedSource := ScanSource_Normalize source in
  let queued := count_scans (queued_in scope provider normalizedSource) s in
  _ ← guard_err (queued <? maxPending) ErrQueueLimitReached;
  mret (enqueue newID trace scope provider normalizedSource queuedAt s).
Definition CreateQueuedScanWithinLimit newID trace ctx provider queuedAt maxPending s :=
  CreateQueuedScanWithinLimitWithSource newID trace ctx provider no_source queuedAt maxPending s.

Definition CreateQueuedScanIfNoPendingWithSource (newID : string) (trace : string * string) (ctx : Context)
    (provider : string) (source : ScanSource) (queuedAt : Z) (s : QueueState) : result (QueueState * ScanRecord) :=
  scope ← RequireScope ctx;
  let normalizedSource := ScanSource_Normalize source in
  _ ← guard_err (bool_decide (filter (λ '(_, r), pending_in scope provider normalizedSource r = true) (scans s) = ∅))
        ErrPendingScanExists;
  mret (enqueue newID trace scope provider normalizedSource queuedAt s).
Definition CreateQueuedScanIfNoPending newID trace ctx provider queuedAt s :=
  CreateQueuedScanIfNoPendingWithSource newID trace ctx provider no_source queuedAt s.

(** ** Claiming *)

(** The row can be claimed at [clock]. *)
Definition claimable (clock : Z) (scope : option Scope) (provider : string) (record : ScanRecord) : bool :=
  match scope with Some scope => in_scope scope record | None => true end &&
  is_queued record && provider_matches provider record &&
  match Scan_NextRetryAt record with Some t => negb (After t clock) | None => true end.

(** One iteration of the selection loop; [best] is [bestRecord] when [found]. *)
Definition better (ok : ScanRecord → bool) (best : option ScanRecord) (record : ScanRecord) : option ScanRecord :=
  if ok record then
    match best with
    | None => Some record
    | Some b => if Before (Scan_StartedAt record) (Scan_StartedAt b) then Some record else best
    end
  else best.

Definition claimed (r : ScanRecord) : ScanRecord :=
  mkScan (Scan_ID r) (Scan_TenantID r) (Scan_WorkspaceID r) (Scan_ProjectID r) (Scan_ConnectorID r) (Scan_Provider r)
    "running" (Scan_StartedAt r) None (Scan_AssetCount r) (Scan_FindingCount r) "" (Scan_RetryCount r)
    (Scan_MaxRetryCount r) "" None (Scan_DeadLettered r) (Scan_DeadLetteredAt r) (Scan_TraceParent r)
    (Scan_TraceState r).

(** The rows in creation order; a missing id reads as the zero row. *)
Definition ordered_scans (s : QueueState) : list ScanRecord :=
  (λ id, default zero_scan (scans s !! id)) <$> scanIDs s.

Definition claimNextQueuedScanLocked (clock : Z) (scope : option Scope) (provider : string) (s : QueueState)
    : result (QueueState * ScanRecord) :=
  match foldl (better (claimable clock scope provider)) None (ordered_scans s) with
  | None => Err ErrNotFound
  | Some bestRecord =>
      let bestRecord := claimed bestRecord in
      mret (put_scan (Scan_ID bestRecord) bestRecord s, bestRecord)
  end.

Definition ClaimNextQueuedScan (clock : Z) (ctx : Context) (provider : string) (s : QueueState)
    : result (QueueState * ScanRecord) :=
  scope ← RequireScope ctx;
  claimNextQueuedScanLocked clock (Some scope) provider s.
Definition ClaimNextQueuedScanAnyScope (clock : Z) (provider : string) (s : QueueState)
    : result (QueueState * ScanRecord) :=
  claimNextQueuedScanLocked clock None provider s.

(** ** Counting and reading *)
Definition CountQueuedScansWithSource (ctx : Context) (provider : string) (source : ScanSource) (s : QueueState)
    : result Z :=
  scope ← RequireScope ctx;
  mret (count_scans (queued_in scope provider (ScanSource_Normalize source)) s).
Definition CountQueuedScans ctx provider s := CountQueuedScansWithSource ctx provider no_source s.

Definition CountPendingScansWithSource (ctx : Context) (provider : string) (source : ScanSource) (s : QueueState)
    : result Z :=
  scope ← RequireScope ctx;
  mret (count_scans (pending_in scope provider (ScanSource_Normalize source)) s).

Definition CountQueuedScansAnyScope (provider : string) (s : QueueState) : Z :=
  count_scans (λ r, is_queued r && provider_matches provider r) s.

(** The row [scanID], when it is in the caller's scope. *)
Definition scoped_scan (ctx : Context) (scanID : string) (s : QueueState) : result ScanRecord :=
  scope ← RequireScope ctx;
  match scans s !! scanID with
  | None => Err ErrNotFound
  | Some record => if in_scope scope record then mret record else Err ErrNotFound
  end.

Definition GetScan (ctx : Context) (scanID : string) (s : QueueState) : result ScanRecord := scoped_scan ctx scanID s.

(** ** Moving rows *)
Definition bound (scope : Scope) (source : ScanSource) (r : ScanRecord) : ScanRecord :=
  mkScan (Scan_ID r) (Scope_TenantID scope) (Scope_WorkspaceID scope) (Source_ProjectID source)
    (Source_ConnectorID source) (Scan_Provider r) (Scan_Status r) (Scan_StartedAt r) (Scan_FinishedAt r)
    (Scan_AssetCount r) (Scan_FindingCount r) (Scan_ErrorMessage r) (Scan_RetryCount r) (Scan_MaxRetryCount r)
    (Scan_FailureCategory r) (Scan_NextRetryAt r) (Scan_DeadLettered r) (Scan_DeadLetteredAt r) (Scan_TraceParent r)
    (Scan_TraceState r).

Definition BindScanSource (ctx : Context) (scanID : string) (source : ScanSource) (s : QueueState)
    : result (QueueState * ScanRecord) :=
  scope ← RequireScope ctx;
  let normalizedSource := ScanSource_Normalize source in
  _ ← guard_err (negb (ScanSource_Empty normalizedSource)) ErrNotFound;
  match scans s !! scanID with
  | None => Err ErrNotFound
  | Some record =>
      if is_pending record then
        let record := bound scope normalizedSource record in
        mret (put_scan scanID record s, record)
      else Err ErrNotFound
  end.

Definition completed (status : string) (finished assetCount findingCount : Z) (errorMessage : string) (r : ScanRecord)
    : ScanRecord :=
  mkScan (Scan_ID r) (Scan_TenantID r) (Scan_WorkspaceID r) (Scan_ProjectID r) (Scan_ConnectorID r) (Scan_Provider r)
    status (Scan_StartedAt r) (Some finished) assetCount findingCount errorMessage (Scan_RetryCount r)
    (Scan_MaxRetryCount r) "" None false None (Scan_TraceParent r) (Scan_TraceState r).

Definition CompleteScan (ctx : Context) (scanID status : string) (finishedAt assetCount findingCount : Z)
    (errorMessage : string) (s : QueueState) : result QueueState :=
  record ← scoped_scan ctx scanID s;
  mret (put_scan scanID (completed status finishedAt assetCount findingCount errorMessage record) s).

Definition requeued (queuedAt retryCount maxRetryCount : Z) (failureCategory errorMessage : string) (nextRetryAt : Z)
    (r : ScanRecord) : ScanRecord :=
  mkScan (Scan_ID r) (Scan_TenantID r) (Scan_WorkspaceID r) (Scan_ProjectID r) (Scan_ConnectorID r) (Scan_Provider r)
    "queued" queuedAt None (Scan_AssetCount r) (Scan_FindingCount r) errorMessage retryCount maxRetryCount
    (TrimSpace failureCategory) (Some nextRetryAt) false None (Scan_TraceParent r) (Scan_TraceState r).

Definition ScheduleScanRetry (ctx : Context) (scanID : string) (queuedAt retryCount maxRetryCount : Z)
    (failureCategory errorMessage : string) (nextRetryAt : Z) (s : QueueState) : result QueueState :=
  record ← scoped_scan ctx scanID s;
  mret (put_scan scanID (requeued queuedAt retryCount maxRetryCount failureCategory errorMessage nextRetryAt record) s).

Definition dead_lettered (finished retryCount maxRetryCount assetCount findingCount : Z)
    (failureCategory errorMessage : string) (r : ScanRecord) : ScanRecord :=
  mkScan (Scan_ID r) (Scan_TenantID r) (Scan_WorkspaceID r) (Scan_ProjectID r) (Scan_ConnectorID r) (Scan_Provider r)
    "failed" (Scan_StartedAt r) (Some finished) assetCount findingCount errorMessage retryCount maxRetryCount
    (TrimSpace failureCategory) None true (Some finished) (Scan_TraceParent r) (Scan_TraceState r).

Definition DeadLetterScan (ctx : Context) (scanID : string)
    (finishedAt retryCount maxRetryCount assetCount findingCount : Z) (failureCategory errorMessage : string)
    (s : QueueState) : result QueueState :=
  record ← scoped_scan ctx scanID s;
  mret (put_scan scanID
    (dead_lettered finishedAt retryCount maxRetryCount assetCount findingCount failureCategory errorMessage record) s).

(** ** Well-formed tables: every row is stored under its id, and the order lists
    each id once. *)
Definition queue_wf (s : QueueState) : Prop :=
  (∀ id r, scans s !! id = Some r → Scan_ID r = id) ∧ NoDup (scanIDs s) ∧
  ∀ id, id ∈ scanIDs s ↔ is_Some (scans s !! id).

Lemma empty_queue_wf : queue_wf empty_queue.
Proof.
  split_and!; [done|constructor|]. intros id. cbn. split; [by intros ?%elem_of_nil|by intros [? ?]].
Qed.

Lemma put_scan_wf id r s :
  queue_wf s → is_Some (scans s !! id) → Scan_ID r = id → queue_wf (put_scan id r s).
Proof.
  intros (Hid & Hnd & Hdom) Hin Hr. split_and!; [|done|].
  - cbn. intros j r' [[<- <-]|[Hne Hj]]%lookup_insert_Some; [done|by apply Hid].
  - intros j. cbn. rewrite Hdom. destruct (decide (id = j)) as [->|Hne].
    + rewrite lookup_insert_eq. split; [by eexists|done].
    + by rewrite lookup_insert_ne.
Qed.

Lemma createScanLocked_wf newID scope provider source status startedAt s :
  queue_wf s → scans s !! newID = None → queue_wf (createScanLocked newID scope provider source status startedAt s).1.
Proof.
  intros (Hid & Hnd & Hdom) Hnew. split_and!; cbn.
  - intros j r [[<- <-]|[Hne Hj]]%lookup_insert_Some; [done|by apply Hid].
  - apply NoDup_app. split_and!; [done| |apply NoDup_singleton].
    intros j Hj ->%list_elem_of_singleton. apply Hdom in Hj. rewrite Hnew in Hj. by destruct Hj.
  - intros j. rewrite elem_of_app, list_elem_of_singleton, Hdom. destruct (decide (newID = j)) as [->|Hne].
    + rewrite lookup_insert_eq. split; [by eexists|by right].
    + rewrite lookup_insert_ne by done. naive_solver.
Qed.

Lemma enqueue_wf newID trace scope provider source queuedAt s :
  queue_wf s → scans s !! newID = None → queue_wf (enqueue newID trace scope provider source queuedAt s).1.
Proof.
  intros Hwf Hnew. cbn. apply (put_scan_wf newID _ (createScanLocked newID scope provider source "queued" queuedAt s).1).
  - by apply createScanLocked_wf.
  - cbn. rewrite lookup_insert_eq. by eexists.
  - done.
Qed.

Lemma ordered_scans_elem s r : queue_wf s → r ∈ ordered_scans s ↔ scans s !! Scan_ID r = Some r.
Proof.
  intros (Hid & Hnd & Hdom). unfold ordered_scans. rewrite list_elem_of_fmap. split.
  - intros (id & -> & [r' Hr']%Hdom). rewrite Hr'. cbn. by rewrite (Hid _ _ Hr').
  - intros Hr. exists (Scan_ID r). rewrite Hr. split; [done|]. apply Hdom. by eexists.
Qed.

(** The selection loop keeps the earliest eligible row, the first of equals. *)
Definition is_best (ok : ScanRecord → bool) (l : list ScanRecord) (best : option ScanRecord) : Prop :=
  match best with
  | None => ∀ r, r ∈ l → ok r = false
  | Some b => ∃ l1 l2, l = l1 ++ b :: l2 ∧ ok b = true ∧
      (∀ r, r ∈ l1 → ok r = true → Scan_StartedAt b < Scan_StartedAt r) ∧
      (∀ r, r ∈ l2 → ok r = true → Scan_StartedAt b ≤ Scan_StartedAt r)
  end.

Lemma better_best ok l best r : is_best ok l best → is_best ok (l ++ [r]) (better ok best r).
Proof.
  unfold better. intros H. destruct (ok r) eqn:Hr.
  - destruct best as [b|]; cbn in H |- *.
    + destruct H as (l1 & l2 & -> & Hb & H1 & H2).
      destruct (Before (Scan_StartedAt r) (Scan_StartedAt b)) eqn:Hlt; [apply Z.ltb_lt in Hlt|apply Z.ltb_ge in Hlt].
      * exists (l1 ++ b :: l2), []. split_and!; [done|done| |by intros ? ?%elem_of_nil].
        intros r' [H'|[->|H']%elem_of_cons]%elem_of_app Hok; [|lia|].
        -- specialize (H1 r' H' Hok). lia.
        -- specialize (H2 r' H' Hok). lia.
      * exists l1, (l2 ++ [r]). split_and!; [by rewrite <-app_assoc|done|done|].
        intros r' [H'| ->%list_elem_of_singleton]%elem_of_app Hok; [by apply H2|lia].
    + exists l, []. split_and!; [done|done| |by intros ? ?%elem_of_nil].
      intros r' H' Hok. rewrite (H r' H') in Hok. done.
  - destruct best as [b|]; cbn in H |- *.
    + destruct H as (l1 & l2 & -> & Hb & H1 & H2). exists l1, (l2 ++ [r]).
      split_and!; [by rewrite <-app_assoc|done|done|].
      intros r' [H'| ->%list_elem_of_singleton]%elem_of_app Hok; [by apply H2|congruence].
    + intros r' [H'| ->%list_elem_of_singleton]%elem_of_app; [by apply H|done].
Qed.

Lemma foldl_better ok l : is_best ok l (foldl (better ok) None l).
Proof.
  induction l as [|r l IH] using rev_ind; [by intros r ?%elem_of_nil|].
  rewrite foldl_app. cbn. by apply better_best.
Qed.

Lemma zero_scan_not_claimable clock scope provider : claimable clock scope provider zero_scan = false.
Proof. unfold claimable, is_queued. by destruct scope; rewrite ?andb_false_r. Qed.

(** What a claim selects. *)
Lemma claim_inv clock scope provider s s' r' :
  claimNextQueuedScanLocked clock scope provider s = Ok (s', r') →
  ∃ r l1 l2, ordered_scans s = l1 ++ r :: l2 ∧ claimable clock scope provider r = true ∧ r' = claimed r ∧
    s' = put_scan (Scan_ID r) (claimed r) s ∧
    (∀ q, q ∈ l1 → claimable clock scope provider q = true → Scan_StartedAt r < Scan_StartedAt q) ∧
    (∀ q, q ∈ l2 → claimable clock scope provider q = true → Scan_StartedAt r ≤ Scan_StartedAt q).
Proof.
  unfold claimNextQueuedScanLocked. pose proof (foldl_better (claimable clock scope provider) (ordered_scans s)) as Hb.
  destruct (foldl _ None _) as [r|]; [|done]. destruct Hb as (l1 & l2 & Hl & Hok & H1 & H2).
  intros [= <- <-]. by exists r, l1, l2.
Qed.

(** A claim takes, among the rows it may take (queued, not dead-lettered,
    of the provider and scope, with no retry delay pending), one that has waited
    longest, the first created of equals; it marks that row running and changes
    no other; and it reports [ErrNotFound] exactly when there is none. *)
Theorem claimNextQueuedScan_fifo clock scope provider s (Hwf : queue_wf s) :
  match claimNextQueuedScanLocked clock scope provider s with
  | Ok (s', r') =>
      ∃ r l1 l2, ordered_scans s = l1 ++ r :: l2 ∧ scans s !! Scan_ID r = Some r ∧
        claimable clock scope provider r = true ∧ r' = claimed r ∧
        (∀ q, q ∈ l1 → claimable clock scope provider q = true → Scan_StartedAt r < Scan_StartedAt q) ∧
        (∀ q, q ∈ l2 → claimable clock scope provider q = true → Scan_StartedAt r ≤ Scan_StartedAt q) ∧
        scans s' !! Scan_ID r = Some r' ∧ (∀ id, id ≠ Scan_ID r → scans s' !! id = scans s !! id) ∧ queue_wf s'
  | Err e => e = ErrNotFound ∧ ∀ id r, scans s !! id = Some r → claimable clock scope provider r = false
  end.
Proof.
  destruct (claimNextQueuedScanLocked clock scope provider s) as [[s' r']|e] eqn:E.
  - apply claim_inv in E as (r & l1 & l2 & Hl & Hok & -> & -> & H1 & H2).
    assert (scans s !! Scan_ID r = Some r) as Hr.
    { apply ordered_scans_elem; [done|]. rewrite Hl. apply elem_of_app. right. by left. }
    exists r, l1, l2. split_and!; try done; cbn.
    + by rewrite lookup_insert_eq.
    + intros id Hne. by rewrite lookup_insert_ne.
    + apply put_scan_wf; [done|by eexists|done].
  - unfold claimNextQueuedScanLocked in E.
    pose proof (foldl_better (claimable clock scope provider) (ordered_scans s)) as Hb.
    destruct (foldl _ None _) as [r|]; [done|]. split; [congruence|]. intros id r Hr. apply Hb.
    apply ordered_scans_elem; [done|]. by rewrite (proj1 Hwf _ _ Hr).
Qed.

(** ** Admission *)
Lemma count_scans_insert f id r s :
  scans s !! id = None → f r = true → count_scans f (mkQueue (<[id := r]> (scans s)) (scanIDs s ++ [id])) = count_scans f s + 1.
Proof.
  intros Hn Hf. unfold count_scans. cbn [scans]. rewrite map_filter_insert_True by done.
  rewrite map_size_insert_None by (apply map_lookup_filter_None; by left). lia.
Qed.

Definition queued_row newID trace scope provider source queuedAt : ScanRecord :=
  with_trace trace (new_scan newID scope provider source "queued" queuedAt).

Lemma enqueue_eq newID trace scope provider source queuedAt s :
  enqueue newID trace scope provider source queuedAt s =
  (mkQueue (<[newID := queued_row newID trace scope provider source queuedAt]> (scans s)) (scanIDs s ++ [newID]),
   queued_row newID trace scope provider source queuedAt).
Proof. unfold enqueue. cbn. unfold put_scan. cbn. by rewrite insert_insert_eq. Qed.

Lemma new_scan_queued newID trace scope provider source queuedAt :
  queued_in scope provider source
    (queued_row newID trace scope provider (ScanSource_Normalize source) queuedAt) = true.
Proof.
  unfold queued_row, queued_in, in_scope, is_queued, provider_matches, scanSourceMatches. cbn.
  rewrite !andb_true_iff. split_and!; [|by vm_compute|done| | |].
  - by apply MatchScope_stamped.
  - rewrite TrimSpace_idemp. apply orb_true_iff. right. by apply bool_decide_eq_true.
  - rewrite !TrimSpace_idemp. apply orb_true_iff. right. by apply bool_decide_eq_true.
  - rewrite !TrimSpace_idemp. apply orb_true_iff. right. by apply bool_decide_eq_true.
Qed.

Lemma queued_pending scope provider source r : queued_in scope provider source r = true → pending_in scope provider source r = true.
Proof.
  unfold queued_in, pending_in, is_queued, is_pending. rewrite !andb_true_iff, orb_true_iff. tauto.
Qed.

(** Admission.  Within a limit: a request is refused exactly when the
    queue of its scope, provider and source already holds as many rows as the
    limit (at least 1), and an accepted request adds the one row it returns, so
    that the limit is never exceeded.  If none pending: refused exactly when
    one is queued or running; an accepted row is then the only pending one. *)
Theorem queue_admission newID trace ctx scope provider source queuedAt maxPending s
    (Hscope : RequireScope ctx = Ok scope) (Hfresh : scans s !! newID = None) :
  let queued := count_scans (queued_in scope provider (ScanSource_Normalize source)) in
  let pending := count_scans (pending_in scope provider (ScanSource_Normalize source)) in
  match CreateQueuedScanWithinLimitWithSource newID trace ctx provider source queuedAt maxPending s with
  | Ok (s', r) => queued s < Z.max 1 maxPending ∧ queued s' = queued s + 1 ∧
      scans s' = <[newID := r]> (scans s) ∧ scanIDs s' = scanIDs s ++ [newID] ∧
      queued_in scope provider (ScanSource_Normalize source) r = true
  | Err e => e = ErrQueueLimitReached ∧ Z.max 1 maxPending ≤ queued s
  end ∧
  match CreateQueuedScanIfNoPendingWithSource newID trace ctx provider source queuedAt s with
  | Ok (s', r) => pending s = 0 ∧ pending s' = 1 ∧ scans s' = <[newID := r]> (scans s) ∧
      scanIDs s' = scanIDs s ++ [newID] ∧ pending_in scope provider (ScanSource_Normalize source) r = true
  | Err e => e = ErrPendingScanExists ∧ pending s ≠ 0
  end.
Proof.
  cbn zeta. unfold CreateQueuedScanWithinLimitWithSource, CreateQueuedScanIfNoPendingWithSource.
  rewrite Hscope. cbn [mbind result_bind].
  pose proof (new_scan_queued newID trace scope provider (ScanSource_Normalize source) queuedAt) as Hq.
  assert (ScanSource_Normalize (ScanSource_Normalize source) = ScanSource_Normalize source) as Hnorm
    by (unfold ScanSource_Normalize; cbn; by rewrite !TrimSpace_idemp).
  rewrite Hnorm in Hq. split.
  - assert ((if maxPending <=? 0 then 1 else maxPending) = Z.max 1 maxPending) as ->
      by (destruct (Z.leb_spec maxPending 0); lia).
    destruct (_ <? _) eqn:E; cbn [guard_err]; boolify; cbn [mbind result_bind mret result_ret]; [|split; [done|lia]].
    rewrite enqueue_eq. split_and!; [done|by apply count_scans_insert|done|done|done].
  - apply queued_pending in Hq. destruct (bool_decide _) eqn:E; cbn [guard_err]; boolify;
      cbn [mbind result_bind mret result_ret].
    + rewrite enqueue_eq. assert (count_scans (pending_in scope provider (ScanSource_Normalize source)) s = 0) as H0.
      { unfold count_scans. rewrite E. by rewrite map_size_empty. }
      split_and!; [done|by rewrite count_scans_insert, H0|done|done|done].
    + split; [done|]. unfold count_scans. intros H0. apply E, map_size_empty_iff. lia.
Qed.

Lemma queue_admission_witness :
  is_ok (CreateQueuedScanIfNoPendingWithSource "s1" ("", "") (WithScope None (mkScope "t" "w")) "aws" no_source 5 empty_queue) = true ∧
  let '(s', _) := ok_or (empty_queue, zero_scan)
    (CreateQueuedScanWithinLimitWithSource "s1" ("", "") (WithScope None (mkScope "t" "w")) "aws" no_source 5 1 empty_queue) in
  CreateQueuedScanWithinLimitWithSource "s2" ("", "") (WithScope None (mkScope "t" "w")) "aws" no_source 6 1 s' =
    Err ErrQueueLimitReached ∧
  count_scans (queued_in (mkScope "t" "w") "aws" no_source) s' = 1.
Proof.
  pose proof (queue_admission "s1" ("", "") (WithScope None (mkScope "t" "w")) (mkScope "t" "w") "aws" no_source 5 1
    empty_queue ltac:(by vm_compute) ltac:(done)) as [H _].
  split; [by vm_compute|]. by split; vm_compute.
Defined.

(** Two queued scans, the second started earlier. *)
Definition sample_queue : QueueState :=
  (enqueue "a" ("", "") (mkScope "t" "w") "aws" no_source 3
     (enqueue "b" ("", "") (mkScope "t" "w") "aws" no_source 5 empty_queue).1).1.

Lemma sample_queue_wf : queue_wf sample_queue.
Proof. apply enqueue_wf; [apply enqueue_wf; [apply empty_queue_wf|done]|by vm_compute]. Qed.

Lemma claimNextQueuedScan_fifo_witness :
  match claimNextQueuedScanLocked 10 None "aws" sample_queue with
  | Ok (s', r) => Scan_ID r = "a" ∧ Scan_Status r = "running" ∧ queue_wf s'
  | Err _ => False
  end.
Proof.
  assert (match claimNextQueuedScanLocked 10 None "aws" sample_queue with
          | Ok (_, r) => Scan_ID r = "a" ∧ Scan_Status r = "running" | Err _ => False end) as Hrun
    by (vm_compute; split; reflexivity).
  pose proof (claimNextQueuedScan_fifo 10 None "aws" sample_queue sample_queue_wf) as H.
  destruct (claimNextQueuedScanLocked 10 None "aws" sample_queue) as [[s' r]|e]; [|exact Hrun].
  destruct H as (r0 & l1 & l2 & _ & _ & _ & _ & _ & _ & _ & _ & Hwf').
  split; [exact (proj1 Hrun)|split; [exact (proj2 Hrun)|exact Hwf']].
Defined.

(** ** Runs of the queue *)
Inductive queue_op :=
| QCreate (newID : string) (ctx : Context) (provider : string) (startedAt : Z)
| QEnqueue (newID : string) (trace : string * string) (ctx : Context) (provider : string) (source : ScanSource) (queuedAt : Z)
| QEnqueueWithinLimit (newID : string) (trace : string * string) (ctx : Context) (provider : string)
    (source : ScanSource) (queuedAt maxPending : Z)
| QEnqueueIfNoPending (newID : string) (trace : string * string) (ctx : Context) (provider : string)
    (source : ScanSource) (queuedAt : Z)
| QClaim (clock : Z) (ctx : Context) (provider : string)
| QClaimAny (clock : Z) (provider : string)
| QBind (ctx : Context) (scanID : string) (source : ScanSource)
| QComplete (ctx : Context) (scanID status : string) (finishedAt assetCount findingCount : Z) (errorMessage : string)
| QRetry (ctx : Context) (scanID : string) (queuedAt retryCount maxRetryCount : Z)
    (failureCategory errorMessage : string) (nextRetryAt : Z)
| QDeadLetter (ctx : Context) (scanID : string) (finishedAt retryCount maxRetryCount assetCount findingCount : Z)
    (failureCategory errorMessage : string).

(** The outcome of a call: the next state and the row it returns, if any. *)
Definition queue_call (op : queue_op) (s : QueueState) : result (QueueState * option ScanRecord) :=
  let with_row := λ '(s, r), (s, Some r) in
  let without_row := λ s, (s, None) in
  match op with
  | QCreate newID ctx provider at_ => with_row <$> CreateScan newID ctx provider at_ s
  | QEnqueue newID trace ctx provider source at_ => with_row <$> CreateQueuedScanWithSource newID trace ctx provider source at_ s
  | QEnqueueWithinLimit newID trace ctx provider source at_ max =>
      with_row <$> CreateQueuedScanWithinLimitWithSource newID trace ctx provider source at_ max s
  | QEnqueueIfNoPending newID trace ctx provider source at_ =>
      with_row <$> CreateQueuedScanIfNoPendingWithSource newID trace ctx provider source at_ s
  | QClaim clock ctx provider => with_row <$> ClaimNextQueuedScan clock ctx provider s
  | QClaimAny clock provider => with_row <$> ClaimNextQueuedScanAnyScope clock provider s
  | QBind ctx id source => with_row <$> BindScanSource ctx id source s
  | QComplete ctx id status at_ assets findings msg => without_row <$> CompleteScan ctx id status at_ assets findings msg s
  | QRetry ctx id at_ n max category msg next => without_row <$> ScheduleScanRetry ctx id at_ n max category msg next s
  | QDeadLetter ctx id at_ n max assets findings category msg =>
      without_row <$> DeadLetterScan ctx id at_ n max assets findings category msg s
  end.
Definition queue_step (s : QueueState) (op : queue_op) : QueueState :=
  match queue_call op s with Ok (s', _) => s' | Err _ => s end.

(** The call hands the scan [id] to a worker. *)
Definition claims_scan (id : string) (op : queue_op) (s : QueueState) : bool :=
  match op with
  | QClaim _ _ _ | QClaimAny _ _ =>
      match queue_call op s with Ok (_, Some r) => bool_decide (Scan_ID r = id) | _ => false end
  | _ => false
  end.
(** The call puts the scan [id] in the queue: creates it there, completes it
    with that status, or schedules its retry. *)
Definition queues_scan (id : string) (op : queue_op) (s : QueueState) : bool :=
  is_ok (queue_call op s) &&
  match op with
  | QEnqueue newID _ _ _ _ _ | QEnqueueWithinLimit newID _ _ _ _ _ _ | QEnqueueIfNoPending newID _ _ _ _ _ =>
      bool_decide (newID = id)
  | QComplete _ scanID status _ _ _ _ => bool_decide (scanID = id) && bool_decide (status = "queued")
  | QRetry _ scanID _ _ _ _ _ _ => bool_decide (scanID = id)
  | _ => false
  end.

Definition queued_at (id : string) (s : QueueState) : nat :=
  count (match scans s !! id with Some r => is_queued r | None => false end).

(** Every row is stored under its id. *)
Definition ids_ok (s : QueueState) : Prop := ∀ id r, scans s !! id = Some r → Scan_ID r = id.

Lemma scoped_scan_Ok ctx id s r : scoped_scan ctx id s = Ok r → scans s !! id = Some r.
Proof.
  unfold scoped_scan. intros H. open_bind H scope Hscope. destruct (scans s !! id) as [r'|]; [|done].
  destruct (in_scope scope r'); [|done]. by injection H as <-.
Qed.

Lemma claim_stored clock scope provider s s' r' :
  ids_ok s → claimNextQueuedScanLocked clock scope provider s = Ok (s', r') →
  ∃ r, scans s !! Scan_ID r = Some r ∧ is_queued r = true ∧ r' = claimed r ∧ scans s' = <[Scan_ID r := r']> (scans s).
Proof.
  intros Hids H. apply claim_inv in H as (r & l1 & l2 & Hl & Hok & -> & -> & _). exists r.
  assert (r ∈ ordered_scans s) as Hr by (rewrite Hl; apply elem_of_app; right; by left).
  unfold ordered_scans in Hr. apply list_elem_of_fmap in Hr as (id & Hrid & _).
  destruct (scans s !! id) as [q|] eqn:E; cbn in Hrid; subst; [|by rewrite zero_scan_not_claimable in Hok].
  split_and!; [by rewrite (Hids _ _ E)| |done|done].
  unfold claimable in Hok. boolify. by destruct_and?.
Qed.

(** What a successful call stores: a claim turns a queued row into one that is
    not; any other call stores a queued row only where it queues it, or where
    there was one. *)
Definition stores (op : queue_op) (s s' : QueueState) : Prop :=
  ∃ id r, scans s' = <[id := r]> (scans s) ∧ Scan_ID r = id ∧
    match op with
    | QClaim _ _ _ | QClaimAny _ _ =>
        (∀ j, claims_scan j op s = bool_decide (id = j)) ∧ queued_at id s = 1%nat ∧ is_queued r = false
    | _ => is_queued r = true → queues_scan id op s = true ∨ queued_at id s = 1%nat
    end.

Lemma count_le b : (count b ≤ 1)%nat.
Proof. destruct b; cbn; lia. Qed.

Definition claims_op (op : queue_op) : bool :=
  match op with QClaim _ _ _ | QClaimAny _ _ => true | _ => false end.

Lemma queued_at_Some id s r : scans s !! id = Some r → queued_at id s = count (is_queued r).
Proof. unfold queued_at. by intros ->. Qed.

Lemma CompleteScan_Ok ctx id status at_ assets findings msg s s' :
  CompleteScan ctx id status at_ assets findings msg s = Ok s' →
  ∃ r, scans s !! id = Some r ∧ s' = put_scan id (completed status at_ assets findings msg r) s.
Proof. unfold CompleteScan. intros H. open_bind H r Hr. exists r. split; [by eapply scoped_scan_Ok|by injection H as <-]. Qed.
Lemma ScheduleScanRetry_Ok ctx id at_ n max category msg next s s' :
  ScheduleScanRetry ctx id at_ n max category msg next s = Ok s' →
  ∃ r, scans s !! id = Some r ∧ s' = put_scan id (requeued at_ n max category msg next r) s.
Proof. unfold ScheduleScanRetry. intros H. open_bind H r Hr. exists r. split; [by eapply scoped_scan_Ok|by injection H as <-]. Qed.
Lemma DeadLetterScan_Ok ctx id at_ n max assets findings category msg s s' :
  DeadLetterScan ctx id at_ n max assets findings category msg s = Ok s' →
  ∃ r, scans s !! id = Some r ∧ s' = put_scan id (dead_lettered at_ n max assets findings category msg r) s.
Proof. unfold DeadLetterScan. intros H. open_bind H r Hr. exists r. split; [by eapply scoped_scan_Ok|by injection H as <-]. Qed.
Lemma BindScanSource_Ok ctx id source s s' r' :
  BindScanSource ctx id source s = Ok (s', r') →
  ∃ scope r, scans s !! id = Some r ∧ is_pending r = true ∧ r' = bound scope (ScanSource_Normalize source) r ∧
    s' = put_scan id r' s.
Proof.
  unfold BindScanSource. intros H. open_bind H scope Hscope. open_bind H u Hu.
  destruct (scans s !! id) as [r|]; [|done]. destruct (is_pending r) eqn:E; [|done]. injection H as <- <-.
  by exists scope, r.
Qed.

Lemma enqueued newID trace scope provider source at_ s s' r :
  enqueue newID trace scope provider source at_ s = (s', r) → scans s' = <[newID := r]> (scans s) ∧ Scan_ID r = newID.
Proof. rewrite enqueue_eq. by intros [= <- <-]. Qed.

Lemma queue_call_stores op s s' row : ids_ok s → queue_call op s = Ok (s', row) → stores op s s'.
Proof.
  intros Hids Hcall. pose proof Hcall as Hok. unfold stores, queues_scan, claims_scan. rewrite Hok. cbn [is_ok andb].
  destruct op; cbn [queue_call] in Hcall; apply fmap_Ok in Hcall as (x & Hx & Hs); try destruct x as [q r];
    injection Hs as -> ->.
  - unfold CreateScan in Hx. open_bind Hx scope Hscope. injection Hx as <- <-.
    do 2 eexists. split; [done|split; [done|]]. by vm_compute.
  - unfold CreateQueuedScanWithSource in Hx. open_bind Hx scope Hscope. apply Ok_inj in Hx.
    apply enqueued in Hx as [-> Hr]. exists newID, r. split; [done|split; [done|]]. left. by apply bool_decide_eq_true.
  - unfold CreateQueuedScanWithinLimitWithSource in Hx. open_bind Hx scope Hscope. open_bind Hx u Hu. apply Ok_inj in Hx.
    apply enqueued in Hx as [-> Hr]. exists newID, r. split; [done|split; [done|]]. left. by apply bool_decide_eq_true.
  - unfold CreateQueuedScanIfNoPendingWithSource in Hx. open_bind Hx scope Hscope. open_bind Hx u Hu. apply Ok_inj in Hx.
    apply enqueued in Hx as [-> Hr]. exists newID, r. split; [done|split; [done|]]. left. by apply bool_decide_eq_true.
  - unfold ClaimNextQueuedScan in Hx. open_bind Hx scope Hscope.
    apply claim_stored in Hx as (r0 & Hr0 & Hq & -> & ->); [|done]. exists (Scan_ID r0), (claimed r0).
    split_and!; [done|done|done|by rewrite (queued_at_Some _ _ _ Hr0), Hq|done].
  - apply claim_stored in Hx as (r0 & Hr0 & Hq & -> & ->); [|done]. exists (Scan_ID r0), (claimed r0).
    split_and!; [done|done|done|by rewrite (queued_at_Some _ _ _ Hr0), Hq|done].
  - apply BindScanSource_Ok in Hx as (scope & r0 & Hr0 & Hp & -> & ->). exists scanID, (bound scope (ScanSource_Normalize source) r0).
    split; [done|split; [by apply Hids in Hr0|]]. intros Hq. right. rewrite (queued_at_Some _ _ _ Hr0).
    change (is_queued _) with (is_queued r0) in Hq. by rewrite Hq.
  - apply CompleteScan_Ok in Hx as (r0 & Hr0 & ->). do 2 eexists. split; [done|split; [by apply Hids in Hr0|]].
    intros Hq. left. apply andb_true_iff in Hq as [Hq _]. rewrite bool_decide_eq_true_2 by done. exact Hq.
  - apply ScheduleScanRetry_Ok in Hx as (r0 & Hr0 & ->). do 2 eexists. split; [done|split; [by apply Hids in Hr0|]].
    intros _. left. by apply bool_decide_eq_true.
  - apply DeadLetterScan_Ok in Hx as (r0 & Hr0 & ->). do 2 eexists. split; [done|split; [by apply Hids in Hr0|]].
    by vm_compute.
Qed.

Lemma queue_step_ids_ok s op : ids_ok s → ids_ok (queue_step s op).
Proof.
  intros Hids. unfold queue_step. destruct (queue_call op s) as [[s' row]|e] eqn:E; [|done].
  apply queue_call_stores in E as (id & r & Hs & Hr & _); [|done].
  intros j q. rewrite Hs, lookup_insert_Some. intros [[<- <-]|[_ Hq]]; [done|by apply Hids].
Qed.

Lemma queue_step_claims id op s :
  ids_ok s →
  (count (claims_scan id op s) + queued_at id (queue_step s op) ≤ count (queues_scan id op s) + queued_at id s)%nat.
Proof.
  intros Hids. unfold queue_step. destruct (queue_call op s) as [[s' row]|e] eqn:E.
  - apply queue_call_stores in E as (j & r & Hs & Hr & Hop); [|done].
    assert (queued_at id s' = if decide (j = id) then count (is_queued r) else queued_at id s) as Hq.
    { unfold queued_at. rewrite Hs. destruct (decide (j = id)) as [->|Hne]; [by rewrite lookup_insert_eq|by rewrite lookup_insert_ne]. }
    assert (queued_at id s ≤ 1)%nat as Hle by apply count_le.
    pose proof (count_le (is_queued r)) as Hle'. rewrite Hq.
    assert (claims_op op = true ∨ claims_op op = false) as [Hc|Hc] by (destruct (claims_op op); auto).
    + assert ((∀ k, claims_scan k op s = bool_decide (j = k)) ∧ queued_at j s = 1%nat ∧ is_queued r = false)
        as (Hcl & Hj & Hnq) by (by destruct op).
      rewrite Hcl, Hnq. destruct (decide (j = id)) as [<-|Hne].
      * rewrite bool_decide_eq_true_2 by done. cbn. lia.
      * rewrite bool_decide_eq_false_2 by done. cbn. lia.
    + assert (claims_scan id op s = false) as -> by (by destruct op).
      assert (is_queued r = true → queues_scan j op s = true ∨ queued_at j s = 1%nat) as Hst by (by destruct op).
      destruct (decide (j = id)) as [<-|Hne]; cbn; [|lia].
      destruct (is_queued r); cbn; [|lia]. destruct (Hst eq_refl) as [->|Hj]; cbn; lia.
  - assert (claims_scan id op s = false) as -> by (unfold claims_scan; rewrite E; by destruct op). cbn. lia.
Qed.

(** C28.  In any run of the queue's methods, a scan is handed to a worker at
    most once for each time it is put in the queue (once more if it was queued
    at the start): no two workers get the same scan, across claims of either
    kind, and a scan that was completed or dead-lettered is not handed out
    unless it is queued again. *)
Theorem claimed_once_per_queueing id ops s (Hids : ids_ok s) :
  (tally queue_step (claims_scan id) ops s ≤ tally queue_step (queues_scan id) ops s + queued_at id s)%nat.
Proof.
  pose proof (tally_le queue_step ids_ok (λ _, True) (queued_at id) (claims_scan id) (queues_scan id)
    (λ s op _, queue_step_ids_ok s op) (λ op s _, queue_step_claims id op s) ops s (Forall_true _ _ (λ _, I)) Hids) as H. cbn beta in H. lia.
Qed.

Definition sample_run : list queue_op :=
  [QEnqueue "a" ("", "") (WithScope None (mkScope "t" "w")) "aws" no_source 3; QClaimAny 4 "aws"; QClaimAny 4 "aws";
   QRetry (WithScope None (mkScope "t" "w")) "a" 5 1 3 "throttle" "slow" 20; QClaimAny 6 "aws"; QClaimAny 30 "aws"].
Lemma claimed_once_per_queueing_witness :
  tally queue_step (claims_scan "a") sample_run empty_queue = 2%nat ∧
  (tally queue_step (claims_scan "a") sample_run empty_queue ≤
   tally queue_step (queues_scan "a") sample_run empty_queue + queued_at "a" empty_queue)%nat.
Proof. split; [by vm_compute|]. refine (claimed_once_per_queueing "a" sample_run empty_queue _). by intros id r. Defined.
