(* ===== verification/Scheduler.v ===== *)
(** * Locks and retried triggers (internal/scheduler)

    The keyed in-memory lock (lock.go), as a state machine over its leases; the
    interface every locker offers the runner; and one pass of a runner
    (runner.go): the lock, the attempts, the backoff between them and the
    dead-letter callback. *)
From S2P Require Import Prelude GoStrings GoTime Runs.

(** ** The in-memory locker

    [TryAcquire] returns a closure over the key and a [released] flag of its
    own; the state keeps the flags of the closures handed out, in order. *)
Record LockerState := mkLocker {
  locks : gmap string bool;
  leases : list (string * bool);
}.
Definition NewInMemoryLocker : LockerState := mkLocker ∅ [].

Definition lock_name (key : string) : string := if decide (key = "") then "default" else key.

(** The lease granted, by its index, or [None] when the lock is held. *)
Definition TryAcquire (rawKey : string) (l : LockerState) : option (nat * LockerState) :=
  let key := lock_name rawKey in
  if default false (locks l !! key) then None
  else Some (length (leases l), mkLocker (<[key := true]> (locks l)) (leases l ++ [(key, false)])).

(** Calling the release function of a lease. *)
Definition Release (lease : nat) (l : LockerState) : LockerState :=
  match leases l !! lease with
  | Some (key, released) =>
      if released : bool then l
      else mkLocker (delete key (locks l)) (<[lease := (key, true)]> (leases l))
  | None => l
  end.

(** Leases of a key that have not been released. *)
Definition live (key : string) (l : LockerState) : list (string * bool) :=
  filter (λ x, x = (key, false)) (leases l).
Definition held (key : string) (l : LockerState) : bool := default false (locks l !! key).

(** A lock is set exactly while one lease of its key is live. *)
Definition locker_wf (l : LockerState) : Prop :=
  ∀ key, length (live key l) = if held key l then 1%nat else 0%nat.

Lemma NewInMemoryLocker_wf : locker_wf NewInMemoryLocker.
Proof. intros key. unfold held. cbn. by rewrite lookup_empty. Qed.

Lemma TryAcquire_wf key l lease l' : locker_wf l → TryAcquire key l = Some (lease, l') → locker_wf l'.
Proof.
  unfold TryAcquire. intros Hwf H k. destruct (default false (locks l !! lock_name key)) eqn:E; [done|].
  injection H as <- <-. specialize (Hwf k). unfold live, held in *. cbn.
  rewrite filter_app, length_app, Hwf. destruct (decide (k = lock_name key)) as [->|Hne].
  - rewrite lookup_insert_eq, E. by rewrite filter_cons_True.
  - rewrite lookup_insert_ne by done. rewrite filter_cons_False by congruence. cbn. lia.
Qed.

Lemma live_release lease key l k :
  leases l !! lease = Some (key, false) →
  length (filter (λ x, x = (k, false)) (<[lease := (key, true)]> (leases l))) =
  (length (live k l) - if decide (k = key) then 1 else 0)%nat.
Proof.
  intros Hl. unfold live. rewrite (insert_take_drop _ lease) by (by eapply lookup_lt_Some).
  rewrite <-(take_drop_middle (leases l) lease (key, false) Hl) at 3.
  rewrite !filter_app, !length_app, filter_cons_False by congruence.
  destruct (decide (k = key)) as [->|Hne].
  - rewrite (filter_cons_True _ (key, false)) by done. cbn. lia.
  - rewrite (filter_cons_False _ (key, false)) by congruence. lia.
Qed.

Lemma Release_wf lease l : locker_wf l → locker_wf (Release lease l).
Proof.
  intros Hwf k. unfold Release. destruct (leases l !! lease) as [[key released]|] eqn:E; [|apply Hwf].
  destruct released; [apply Hwf|]. unfold live at 1. cbn. rewrite (live_release lease key l k E), Hwf.
  unfold held. cbn. destruct (decide (k = key)) as [->|Hne].
  - rewrite lookup_delete_eq. destruct (default false (locks l !! key)); cbn; lia.
  - rewrite lookup_delete_ne by done. destruct (default false (locks l !! k)); cbn; lia.
Qed.

(** Runs of the locker by any callers. *)
Inductive locker_op := LAcquire (key : string) | LRelease (lease : nat).
Definition locker_step (l : LockerState) (op : locker_op) : LockerState :=
  match op with
  | LAcquire key => match TryAcquire key l with Some (_, l') => l' | None => l end
  | LRelease lease => Release lease l
  end.

Lemma locker_step_wf l op : locker_wf l → locker_wf (locker_step l op).
Proof.
  intros Hwf. destruct op as [key|lease]; cbn; [|by apply Release_wf].
  destruct (TryAcquire key l) as [[lease l']|] eqn:E; [|done]. by eapply TryAcquire_wf.
Qed.

Lemma locker_run_wf ops : locker_wf (run locker_step ops NewInMemoryLocker).
Proof.
  apply (run_invariant _ locker_wf (λ _, True)); [intros l op _; apply locker_step_wf|by apply Forall_true|].
  apply NewInMemoryLocker_wf.
Qed.

(** A released lease stays released. *)
Lemma released_step lease k l op :
  leases l !! lease = Some (k, true) → leases (locker_step l op) !! lease = Some (k, true).
Proof.
  intros Hl. destruct op as [key|j]; cbn.
  - unfold TryAcquire. destruct (default false _); [done|]. cbn. apply lookup_app_l_Some. exact Hl.
  - unfold Release. destruct (leases l !! j) as [[key released]|] eqn:E; [|done]. destruct released; [done|]. cbn.
    destruct (decide (j = lease)) as [->|Hne]; [congruence|]. by rewrite list_lookup_insert_ne.
Qed.
Lemma released_run lease k ops l :
  leases l !! lease = Some (k, true) → leases (run locker_step ops l) !! lease = Some (k, true).
Proof.
  intros Hl. apply (run_invariant locker_step (λ l, leases l !! lease = Some (k, true)) (λ _, True));
    [intros; by apply released_step|by apply Forall_true|done].
Qed.
Lemma Release_released lease k l : leases l !! lease = Some (k, true) → Release lease l = l.
Proof. unfold Release. by intros ->. Qed.

(** C39.  Mutual exclusion: after any interleaving of acquisitions and releases,
    each key has at most one lease that is not released; an acquisition
    succeeds exactly when its key has none, and then holds it; and a lease that
    was released once releases nothing again, however often the key has been
    acquired since. *)
Theorem locker_mutual_exclusion ops :
  let l := run locker_step ops NewInMemoryLocker in
  (∀ key, (length (live key l) ≤ 1)%nat) ∧
  (∀ key, match TryAcquire key l with
          | Some (lease, l') => live (lock_name key) l = [] ∧ live (lock_name key) l' = [(lock_name key, false)] ∧
              leases l' !! lease = Some (lock_name key, false)
          | None => live (lock_name key) l ≠ []
          end) ∧
  (∀ lease more, let l' := run locker_step more (Release lease l) in
     is_Some (leases l !! lease) → Release lease l' = l').
Proof.
  cbn zeta. pose proof (locker_run_wf ops) as Hwf. set (l := run _ _ _) in *. split_and!.
  - intros key. rewrite Hwf. destruct (held key l); lia.
  - intros key. specialize (Hwf (lock_name key)). unfold held in Hwf. unfold TryAcquire.
    destruct (default false (locks l !! lock_name key)).
    + by destruct (live (lock_name key) l).
    + apply nil_length_inv in Hwf. split; [done|]. split.
      * unfold live in *. cbn. rewrite filter_app, Hwf. by rewrite filter_cons_True.
      * cbn. by rewrite lookup_app_r, Nat.sub_diag by lia.
  - intros lease more [[k released] Hl]. apply (Release_released _ k), released_run. unfold Release. rewrite Hl.
    destruct released; [done|]. cbn. apply list_lookup_insert_eq. by eapply lookup_lt_Some.
Qed.

(** ** What a locker promises

    The runner uses a locker through this interface: an acquisition returns a
    lease and, for a lease just granted, acquiring the same key again fails
    until its release, after which every key is held or free as it was before
    the acquisition. *)
Class Locker (L : Type) := {
  try_acquire : string → L → option (nat * L);
  release : nat → L → L;
  is_held : string → L → bool;
  try_acquire_spec key l :
    match try_acquire key l with
    | Some (lease, l') => is_held key l = false ∧ is_held key l' = true ∧ is_held key (release lease l') = false
    | None => is_held key l = true
    end;
  release_restores key l lease l' : try_acquire key l = Some (lease, l') → ∀ key', is_held key' (release lease l') = is_held key' l;
}.

Lemma TryAcquire_spec key l :
  match TryAcquire key l with
  | Some (lease, l') => held (lock_name key) l = false ∧ held (lock_name key) l' = true ∧
      held (lock_name key) (Release lease l') = false
  | None => held (lock_name key) l = true
  end.
Proof.
  unfold TryAcquire, held. destruct (default false (locks l !! lock_name key)) eqn:E; [done|].
  split; [done|]. cbn. rewrite lookup_insert_eq. split; [done|]. unfold Release. cbn.
  rewrite lookup_app_r, Nat.sub_diag by lia. cbn. by rewrite lookup_delete_eq.
Qed.

Lemma Release_restores key l lease l' : TryAcquire key l = Some (lease, l') → ∀ key', held (lock_name key') (Release lease l') = held (lock_name key') l.
Proof.
  unfold TryAcquire. destruct (default false (locks l !! lock_name key)) eqn:E; [done|]. intros [= <- <-] key'. unfold Release, held. cbn.
  rewrite lookup_app_r, Nat.sub_diag by lia. cbn. destruct (decide (lock_name key' = lock_name key)) as [->|Hne].
  - by rewrite lookup_delete_eq, E.
  - by rewrite lookup_delete_ne, lookup_insert_ne by done.
Qed.

#[export] Instance InMemoryLocker : Locker LockerState :=
  {| try_acquire := TryAcquire; release := Release; is_held := λ key, held (lock_name key);
     try_acquire_spec := TryAcquire_spec; release_restores := Release_restores |}.

(** The key of a lock in the service's name space. *)
Definition namespaced_key (namespace key : string) : string :=
  let normalizedKey := TrimSpace key in
  let namespace := TrimSpace namespace in
  if decide (namespace = "") then normalizedKey
  else if decide (normalizedKey = "") then namespace
  else namespace +:+ ":" +:+ normalizedKey.

(** ** One pass of a runner *)
Definition ErrAlreadyRunning : error := Sentinel "scan already running".
Definition Canceled : error := Sentinel "context canceled".
Definition DeadlineExceeded : error := Sentinel "context deadline exceeded".

(** What one pass did: the error returned, the locker and the world after it,
    the trigger calls made, the timers started and the dead-letter report. *)
Record pass (L W : Type) := mkPass {
  pass_err : option error;
  pass_locker : L;
  pass_world : W;
  pass_calls : nat;
  pass_waits : list Z;
  pass_dead : option error;
}.
Arguments mkPass {L W} _ _ _ _ _ _.
Arguments pass_err {L W} _.
Arguments pass_locker {L W} _.
Arguments pass_world {L W} _.
Arguments pass_calls {L W} _.
Arguments pass_waits {L W} _.
Arguments pass_dead {L W} _.

Section runner.
Context {L W : Type} `{Locker L}.

(** The runner's fields; the callbacks act on the world (the stores, the logs),
    and the trigger may take other locks.  [waited n] is the [ctx.Err()] of a
    context that is done before the timer after attempt [n] fires, or [None]. *)
Record Runner := mkRunner {
  Interval : Z;
  Key : string;
  HasLocker : bool;
  Trigger : option (L → W → (L * W) * option error);
  MaxAttempts : Z;
  RetryBackoff : Z;
  OnDeadLetter : option (error → W → W);
  OnError : option (error → W → W);
}.

Definition runner_key (r : Runner) : string := if decide (Key r = "") then "scan" else Key r.

Definition next_backoff (backoff : Z) : Z :=
  let next := wrap64 (backoff * 2) in
  if 30 * Second <? next then 30 * Second else next.

(** The attempts: [more] of them after this one, which is number [attempt]. *)
Fixpoint attempt_loop (trigger : L → W → (L * W) * option error) (waited : nat → option error)
    (dead_letter : option (error → W → W)) (more attempt : nat) (backoff : Z) (waits : list Z) (l : L) (w : W)
    : pass L W :=
  let '((l, w), outcome) := trigger l w in
  match outcome with
  | None => mkPass None l w attempt waits None
  | Some lastErr =>
      match more with
      | O =>
          match dead_letter with
          | Some f => mkPass (Some lastErr) l (f lastErr w) attempt waits (Some lastErr)
          | None => mkPass (Some lastErr) l w attempt waits None
          end
      | S more =>
          match waited attempt with
          | Some ctxErr => mkPass (Some ctxErr) l w attempt (waits ++ [backoff]) None
          | None =>
              attempt_loop trigger waited dead_letter more (S attempt) (next_backoff backoff) (waits ++ [backoff]) l w
          end
      end
  end.

Definition effective_attempts (r : Runner) : nat := Z.to_nat (if MaxAttempts r <=? 0 then 1 else MaxAttempts r).
Definition effective_backoff (r : Runner) : Z := if RetryBackoff r <=? 0 then 1 * Second else RetryBackoff r.

Definition attempts_of (r : Runner) (trigger : L → W → (L * W) * option error) (waited : nat → option error)
    (l : L) (w : W) : pass L W :=
  attempt_loop trigger waited (OnDeadLetter r) (effective_attempts r - 1) 1 (effective_backoff r) [] l w.

Definition RunOnce (r : Runner) (waited : nat → option error) (l : L) (w : W) : pass L W :=
  match Trigger r with
  | None => mkPass (Some (Errorf "runner trigger is required")) l w 0 [] None
  | Some trigger =>
      if HasLocker r then
        match try_acquire (runner_key r) l with
        | None => mkPass (Some ErrAlreadyRunning) l w 0 [] None
        | Some (lease, l) =>
            let p := attempts_of r trigger waited l w in
            mkPass (pass_err p) (release lease (pass_locker p)) (pass_world p) (pass_calls p) (pass_waits p) (pass_dead p)
        end
      else attempts_of r trigger waited l w
  end.

(** [Start]: what the loop does with the error of a pass.  [Some e] ends the
    loop with [e]. *)
Definition after_tick (r : Runner) (err : option error) (w : W) : option error * W :=
  match err with
  | None => (None, w)
  | Some e =>
      if errors_is e ErrAlreadyRunning then (None, w)
      else if errors_is e Canceled || errors_is e DeadlineExceeded then (Some e, w)
      else match OnError r with
           | Some f => (None, f e w)
           | None => (Some e, w)
           end
  end.

(** The loop over its ticks, each with the cancellations of its pass; [None]
    while it is still running when the ticks end. *)
Fixpoint start_loop (r : Runner) (ticks : list (nat → option error)) (l : L) (w : W) : option error * (L * W) :=
  match ticks with
  | [] => (None, (l, w))
  | waited :: ticks =>
      let p := RunOnce r waited l w in
      match after_tick r (pass_err p) (pass_world p) with
      | (Some e, w) => (Some e, (pass_locker p, w))
      | (None, w) => start_loop r ticks (pass_locker p) w
      end
  end.
Definition Start (r : Runner) (ticks : list (nat → option error)) (l : L) (w : W) : option error * (L * W) :=
  if Interval r <=? 0 then (Some (Errorf "runner interval must be greater than zero"), (l, w))
  else match Trigger r with
       | None => (Some (Errorf "runner trigger is required"), (l, w))
       | Some _ => start_loop r ticks l w
       end.

(** *** What the attempts do *)

(** The [n]th call of the trigger, counting from 0, when the calls follow each
    other. *)
Fixpoint nth_call (trigger : L → W → (L * W) * option error) (n : nat) (l : L) (w : W) : (L * W) * option error :=
  match n with
  | O => trigger l w
  | S n => let '((l, w), _) := trigger l w in nth_call trigger n l w
  end.

Fixpoint backoffs (n : nat) (backoff : Z) : list Z :=
  match n with O => [] | S n => backoff :: backoffs n (next_backoff backoff) end.

Definition loop_outcome trigger waited (dead_letter : option (error → W → W)) (more attempt : nat) backoff waits l w
    (p : pass L W) : Prop :=
  ∃ k, (k ≤ more)%nat ∧ pass_calls p = (attempt + k)%nat ∧
    (∀ i, (i < k)%nat → is_Some (nth_call trigger i l w).2 ∧ waited (attempt + i)%nat = None) ∧
    let '((l', w'), outcome) := nth_call trigger k l w in
    pass_locker p = l' ∧
    match outcome with
    | None => pass_err p = None ∧ pass_world p = w' ∧ pass_dead p = None ∧ pass_waits p = waits ++ backoffs k backoff
    | Some e =>
        (k = more ∧ pass_err p = Some e ∧ pass_waits p = waits ++ backoffs k backoff ∧
         match dead_letter with
         | Some f => pass_world p = f e w' ∧ pass_dead p = Some e
         | None => pass_world p = w' ∧ pass_dead p = None
         end) ∨
        ((k < more)%nat ∧ is_Some (waited (attempt + k)%nat) ∧ pass_err p = waited (attempt + k)%nat ∧
         pass_world p = w' ∧ pass_dead p = None ∧ pass_waits p = waits ++ backoffs (S k) backoff)
    end.

Lemma attempt_loop_outcome trigger waited dead_letter more attempt backoff waits l w :
  loop_outcome trigger waited dead_letter more attempt backoff waits l w
    (attempt_loop trigger waited dead_letter more attempt backoff waits l w).
Proof.
  revert attempt backoff waits l w. induction more as [|more IH]; intros attempt backoff waits l w; cbn [attempt_loop];
    destruct (trigger l w) as [[l1 w1] outcome] eqn:Et; destruct outcome as [e|].
  - exists 0%nat. cbn [nth_call]. rewrite Et. destruct dead_letter; cbn; rewrite ?Nat.add_0_r, ?app_nil_r;
      (split_and!; [lia|done|intros; lia|done|]); left; by rewrite ?app_nil_r.
  - exists 0%nat. cbn [nth_call]. rewrite Et. cbn. rewrite Nat.add_0_r, app_nil_r. split_and!; try done. intros; lia.
  - destruct (waited attempt) as [c|] eqn:Ew.
    + exists 0%nat. cbn [nth_call]. rewrite Et. cbn. rewrite Nat.add_0_r, Ew. split_and!; [lia|done|intros; lia|done|].
      right. split_and!; [lia|by eexists|done..].
    + destruct (IH (S attempt) (next_backoff backoff) (waits ++ [backoff]) l1 w1) as (k & Hk & Hc & Hi & Hend).
      exists (S k). cbn [nth_call]. rewrite Et. split_and!; [lia|lia| |].
      * intros [|i] Hlt; cbn [nth_call]; rewrite Et; [rewrite Nat.add_0_r; split; [by eexists|done]|].
        destruct (Hi i ltac:(lia)) as [Hs Hw]. split; [done|]. by rewrite <-Nat.add_succ_comm.
      * destruct (nth_call trigger k l1 w1) as [[l2 w2] o]. destruct Hend as [-> Hend]. split; [done|].
        rewrite <-!app_assoc in Hend. cbn [app] in Hend. rewrite <-Nat.add_succ_comm.
        destruct o as [e'|]; [|exact Hend]. destruct Hend as [(-> & Hend)|(Hlt & Hend)]; [left; split; [done|exact Hend]|].
        right. split; [lia|exact Hend].
  - exists 0%nat. cbn [nth_call]. rewrite Et. cbn. rewrite Nat.add_0_r, app_nil_r. split_and!; try done; [lia|intros; lia].
Qed.

(** The delays in closed form. *)
Lemma next_backoff_min b : 0 < b ≤ 2 ^ 62 - 1 → next_backoff b = Z.min (30 * Second) (b * 2).
Proof.
  intros Hb. unfold next_backoff. rewrite wrap64_id by (unfold in_int64, int64_min, int64_max; lia).
  destruct (Z.ltb_spec (30 * Second) (b * 2)); lia.
Qed.

Definition delay (base : Z) (i : nat) : Z :=
  if decide (i = 0%nat) then base else Z.min (30 * Second) (base * 2 ^ Z.of_nat i).

Lemma backoffs_delay n b i d : 0 < b ≤ 2 ^ 62 - 1 → backoffs n b !! i = Some d → d = delay b i.
Proof.
  revert b i. induction n as [|n IH]; intros b i Hb Hd; [done|]. destruct i as [|i]; [by injection Hd as <-|].
  cbn in Hd. assert (0 < 30 * Second < 2 ^ 62 - 1) as Hs by (by vm_compute).
  rewrite next_backoff_min in Hd by done. apply IH in Hd as ->; [|lia]. unfold delay.
  rewrite (decide_False (P := S i = 0%nat)) by lia. rewrite Nat2Z.inj_succ, Z.pow_succ_r by lia.
  assert (0 < 2 ^ Z.of_nat i) by (apply Z.pow_pos_nonneg; lia). destruct (decide (i = 0%nat)) as [->|Hne]; [cbn; lia|]. nia.
Qed.

Lemma backoffs_length n b : length (backoffs n b) = n.
Proof. revert b. induction n as [|n IH]; intros b; cbn; [done|]. by rewrite IH. Qed.

Lemma effective_attempts_spec r : Z.of_nat (effective_attempts r) = Z.max 1 (MaxAttempts r).
Proof. unfold effective_attempts. destruct (Z.leb_spec (MaxAttempts r) 0); lia. Qed.

(** What [RunOnce] promises of a pass that ran its trigger from [l]. *)
Definition pass_ok (r : Runner) (trigger : L → W → (L * W) * option error) (waited : nat → option error) (l : L) (w : W)
    (p : pass L W) : Prop :=
  ∃ k l' w' outcome, pass_calls p = S k ∧ Z.of_nat (S k) ≤ Z.max 1 (MaxAttempts r) ∧
    (∀ i, (i < k)%nat → is_Some (nth_call trigger i l w).2 ∧ waited (S i) = None) ∧
    nth_call trigger k l w = (l', w', outcome) ∧ pass_locker p = l' ∧
    (∀ i d, pass_waits p !! i = Some d → d = delay (effective_backoff r) i) ∧
    match outcome with
    | None => pass_err p = None ∧ pass_world p = w' ∧ pass_dead p = None ∧ length (pass_waits p) = k
    | Some e =>
        (Z.of_nat (S k) = Z.max 1 (MaxAttempts r) ∧ pass_err p = Some e ∧ length (pass_waits p) = k ∧
         match OnDeadLetter r with
         | Some f => pass_world p = f e w' ∧ pass_dead p = Some e
         | None => pass_world p = w' ∧ pass_dead p = None
         end) ∨
        (is_Some (waited (S k)) ∧ pass_err p = waited (S k) ∧ pass_world p = w' ∧ pass_dead p = None ∧
         length (pass_waits p) = S k)
    end.

Lemma attempts_of_ok r trigger waited l w :
  effective_backoff r ≤ 2 ^ 62 - 1 → pass_ok r trigger waited l w (attempts_of r trigger waited l w).
Proof.
  intros Hb. unfold attempts_of. set (p := attempt_loop _ _ _ _ _ _ _ _ _).
  destruct (attempt_loop_outcome trigger waited (OnDeadLetter r) (effective_attempts r - 1) 1 (effective_backoff r) [] l w)
    as (k & Hk & Hc & Hi & Hend). fold p in Hc, Hend.
  destruct (nth_call trigger k l w) as [[l' w'] outcome] eqn:En. destruct Hend as [Hl Hend].
  pose proof (effective_attempts_spec r) as Ha.
  assert (0 < effective_backoff r ≤ 2 ^ 62 - 1) as Hb'.
  { split; [|done]. unfold effective_backoff. destruct (Z.leb_spec (RetryBackoff r) 0); [by vm_compute|lia]. }
  exists k, l', w', outcome. split_and!; [done|lia|done|done|done| |].
  - intros i d Hd. destruct outcome as [e|].
    + destruct Hend as [(_ & _ & Hw & _)|(_ & _ & _ & _ & _ & Hw)]; rewrite Hw in Hd; by eapply backoffs_delay.
    + destruct Hend as (_ & _ & _ & Hw). rewrite Hw in Hd. by eapply backoffs_delay.
  - destruct outcome as [e|].
    + destruct Hend as [(Hke & He & Hw & Hd)|(Hlt & Hs & He & Hw & Hd & Hws)].
      * left. rewrite Hw. cbn [app]. rewrite backoffs_length. split_and!; [lia|done|done|done].
      * right. rewrite Hws. cbn [app]. by rewrite backoffs_length.
    + destruct Hend as (He & Hw & Hd & Hws). rewrite Hws. cbn [app]. by rewrite backoffs_length.
Qed.

(** A trigger that leaves the locks alone. *)
Lemma nth_call_locker trigger n l w :
  (∀ l w, (trigger l w).1.1 = l) → (nth_call trigger n l w).1.1 = l.
Proof.
  intros Ht. revert l w. induction n as [|n IH]; intros l w; cbn [nth_call]; [apply Ht|].
  specialize (Ht l w). destruct (trigger l w) as [[l1 w1] o]. cbn in Ht. subst. apply IH.
Qed.

(**  One pass of a runner: while another holder has its lock, the trigger
    is not called and the pass reports it is already running; otherwise the
    trigger is called at most [MaxAttempts] times (at least once), each call
    after a failed one and its backoff (doubling, at most 30 s), until it
    succeeds, the context ends or the attempts are used up, which alone calls
    the dead-letter callback, once, with the last error; and the lock is free
    after the pass, whatever its outcome. *)
Theorem RunOnce_correct r trigger waited l w
    (Htrigger : Trigger r = Some trigger) (Hbackoff : RetryBackoff r ≤ 2 ^ 62 - 1) :
  let p := RunOnce r waited l w in
  if HasLocker r then
    match try_acquire (runner_key r) l with
    | None => is_held (runner_key r) l = true ∧ p = mkPass (Some ErrAlreadyRunning) l w 0 [] None
    | Some (lease, l1) =>
        is_held (runner_key r) l = false ∧ is_held (runner_key r) l1 = true ∧
        (∃ q, pass_ok r trigger waited l1 w q ∧
          p = mkPass (pass_err q) (release lease (pass_locker q)) (pass_world q) (pass_calls q) (pass_waits q) (pass_dead q)) ∧
        ((∀ l w, (trigger l w).1.1 = l) → is_held (runner_key r) (pass_locker p) = false)
    end
  else pass_ok r trigger waited l w p.
Proof.
  cbn zeta. unfold RunOnce. rewrite Htrigger.
  assert (effective_backoff r ≤ 2 ^ 62 - 1) as Hb.
  { unfold effective_backoff. destruct (RetryBackoff r <=? 0); [by vm_compute|done]. }
  destruct (HasLocker r); [|by apply attempts_of_ok].
  pose proof (try_acquire_spec (runner_key r) l) as Hspec.
  destruct (try_acquire (runner_key r) l) as [[lease l1]|]; [|by split].
  destruct Hspec as (H1 & H2 & H3). pose proof (attempts_of_ok r trigger waited l1 w Hb) as Hok.
  split_and!; [done|done|by eexists|]. intros Ht. cbn.
  destruct Hok as (k & l' & w' & o & _ & _ & _ & Hn & Hl & _). rewrite Hl.
  pose proof (nth_call_locker trigger k l1 w Ht) as Hl'. rewrite Hn in Hl'. cbn in Hl'. rewrite Hl'. exact H3.
Qed.
End runner.

(** A trigger that fails twice, on the in-memory locker. *)
Definition flaky (l : LockerState) (w : nat) : (LockerState * nat) * option error :=
  ((l, S w), if decide (w < 2)%nat then Some (Errorf "boom") else None).
Definition flaky_runner : Runner (L := LockerState) (W := nat) :=
  mkRunner Minute "" true (Some flaky) 3 Second None None.

Lemma RunOnce_correct_witness :
  let p := RunOnce flaky_runner (λ _, None) NewInMemoryLocker 0%nat in
  pass_err p = None ∧ pass_calls p = 3%nat ∧ pass_waits p = [Second; 2 * Second] ∧
  is_held "scan" (pass_locker p) = false.
Proof.
  pose proof (RunOnce_correct flaky_runner flaky (λ _, None) NewInMemoryLocker 0%nat eq_refl
    ltac:(by vm_compute)) as (_ & _ & _ & Hfree).
  split_and!; [by vm_compute..|]. apply Hfree. done.
Defined.
