(* ===== verification/ScanWorker.v ===== *)
(** * Running queued scans (internal/api/service.go)

    The service's side of the scan queue: admission and replay, one worker pass
    (lock, claim, workspace gate, execution, terminal write), and what becomes
    of a failed attempt: retry with backoff or the dead-letter queue.

    The scanner, the AWS connector checks and the stores of artifacts and
    findings are arguments; events and metrics are not modelled. *)
From S2P Require Import Prelude GoStrings GoCollections GoTime Runs Scope TenancyRecords Tenancy ScanQueue Scheduler.

(** ** Failure policy *)
Definition defaultScanRetryBaseDelay : Z := 30 * Second.
Definition defaultScanRetryMaxDelay : Z := 15 * Minute.

Definition scanLifecycleFailed : string := "failed".

Definition scanFailureStageConnectorSetup : string := "connector_setup".
Definition scanFailureStageExecution : string := "execution".
Definition scanFailureStageArtifactsStore : string := "artifacts_persist".
Definition scanFailureStageFindingsStore : string := "findings_persist".
Definition scanFailureStageFinalize : string := "finalize".
Definition scanFailureCategoryConnector : string := "connector_setup".
Definition scanFailureCategoryProviderAuth : string := "provider_auth".
Definition scanFailureCategoryThrottle : string := "provider_throttle".
Definition scanFailureCategoryTransient : string := "provider_transient".
Definition scanFailureCategoryConfig : string := "provider_configuration".
Definition scanFailureCategoryExecution : string := "provider_execution".
Definition scanFailureCategoryPersistence : string := "persistence".
Definition scanFailureCategoryFinalize : string := "finalization".

Record scanFailurePolicy := mkPolicy { Policy_Category : string; Policy_Retryable : bool }.

Definition containsFailureToken (message : string) (values : list string) : bool :=
  existsb (λ value, Contains message (ToLower (TrimSpace value))) values.

Definition classifyScanFailure (stage : string) (failure : option error) : scanFailurePolicy :=
  match failure with
  | None => mkPolicy scanFailureCategoryExecution false
  | Some failure =>
      let message := ToLower (TrimSpace (error_string failure)) in
      if bool_decide (stage = scanFailureStageArtifactsStore) || bool_decide (stage = scanFailureStageFindingsStore)
      then mkPolicy scanFailureCategoryPersistence false
      else if bool_decide (stage = scanFailureStageFinalize) then mkPolicy scanFailureCategoryFinalize false
      else if containsFailureToken message ["rate limit"; "too many requests"; "throttle"; "throttl"]
      then mkPolicy scanFailureCategoryThrottle true
      else if containsFailureToken message
        ["access denied"; "forbidden"; "unauthorized"; "expired token"; "invalid credentials"; "assume role"; "permission denied"]
      then mkPolicy scanFailureCategoryProviderAuth false
      else if containsFailureToken message
        ["timeout"; "deadline exceeded"; "temporary"; "temporarily"; "connection reset"; "connection refused"; "i/o timeout";
         "eof"; "service unavailable"; "unavailable"]
      then mkPolicy scanFailureCategoryTransient true
      else if containsFailureToken message
        ["invalid"; "malformed"; "unsupported"; "not configured"; "missing"; "not found"; "nil scanner"]
      then mkPolicy scanFailureCategoryConfig false
      else if bool_decide (stage = scanFailureStageConnectorSetup) then mkPolicy scanFailureCategoryConnector false
      else mkPolicy scanFailureCategoryExecution true
  end.

Definition effectiveScanRetryLimit (record : ScanRecord) : Z :=
  if Scan_MaxRetryCount record <? 0 then 0
  else if Scan_MaxRetryCount record =? 0 then DefaultScanMaxRetryCount
  else Scan_MaxRetryCount record.

(** The doubling loop: [n] iterations left. *)
Fixpoint backoff_loop (n : nat) (backoff : Z) : Z :=
  match n with
  | O => if defaultScanRetryMaxDelay <? backoff then defaultScanRetryMaxDelay else backoff
  | S n =>
      let backoff := wrap64 (backoff * 2) in
      if defaultScanRetryMaxDelay <=? backoff then defaultScanRetryMaxDelay else backoff_loop n backoff
  end.
Definition scanRetryBackoff (retryCount : Z) : Z :=
  if retryCount <=? 0 then defaultScanRetryBaseDelay
  else backoff_loop (Z.to_nat (retryCount - 1)) defaultScanRetryBaseDelay.

Definition shouldRetryTerminalWrite (err : option error) : bool :=
  match err with Some e => errors_is e Canceled || errors_is e DeadlineExceeded | None => false end.

Definition ErrScanInProgress : error := Sentinel "scan already in progress".
Definition ErrScanQueueFull : error := Sentinel "scan queue is full".
Definition ErrScanReplayUnavailable : error := Sentinel "scan replay is unavailable".

(** What the scanner reports: assets, findings and source errors, by number. *)
Record ScanOutcome := mkOutcome { Outcome_Assets : Z; Outcome_Findings : Z; Outcome_SourceErrors : Z }.

(** ** The service *)
Section service.
(** A scanner and what a run of it returns; the connection a scanner is built
    from; the stores of artifacts and findings. *)
Context {Scanner Connection : Type} (run_scanner : Scanner → ScanRecord → result ScanOutcome)
  (upsert_artifacts upsert_findings : ScanRecord → ScanOutcome → option error).

(** The AWS connector checks of a claimed scan (aws_connect.go):
    [refreshAWSScanRecordConnection], [activeAWSConnectionForScan] and
    [AWSScannerFactory]. *)
Context (refresh_connection : Context → ScanRecord → ScanSource * Scope * option error)
  (active_connection : Context → ScanRecord → result (option Connection)).

Record Service := mkService {
  Provider : string;
  DefaultScope : Scope;
  DefaultScanner : Scanner;
  AWSScannerFactory : option (Context → Connection → result (option Scanner));
  ScanQueueMaxPending : Z;
  LockNamespace : string;
  ServiceLocked : bool;
}.

Record WorkerState (L : Type) := mkWorker { wk_queue : QueueState; wk_directory : DirectoryState; wk_locker : L }.
Arguments mkWorker {L} _ _ _.
Arguments wk_queue {L} _.
Arguments wk_directory {L} _.
Arguments wk_locker {L} _.

Definition scopeContext (s : Service) (ctx : Context) : Context := WithDefaultScope ctx (DefaultScope s).
Definition terminalWriteContext (s : Service) (ctx : Context) : Context :=
  WithScope None (ScopeFromContext (scopeContext s ctx)).

Definition lockKey (s : Service) (key : string) : string := namespaced_key (LockNamespace s) key.

(** A terminal write, retried on a fresh context when the request's was
    cancelled; [ctxErr] is [ctx.Err()]. *)
Definition terminal_write (s : Service) (ctxErr : option error) (ctx : Context) (write : Context → result QueueState)
    : result QueueState :=
  let writeCtx := if shouldRetryTerminalWrite ctxErr then terminalWriteContext s ctx else ctx in
  match write writeCtx with
  | Ok q => Ok q
  | Err e => if shouldRetryTerminalWrite (Some e) then write (terminalWriteContext s ctx) else Err e
  end.
Definition completeScanTerminal s ctxErr ctx scanID status finishedAt assets findings msg (q : QueueState) :=
  terminal_write s ctxErr ctx (λ ctx, CompleteScan ctx scanID status finishedAt assets findings msg q).
Definition scheduleScanRetry s ctxErr ctx scanID queuedAt retryCount max category msg nextRetryAt (q : QueueState) :=
  terminal_write s ctxErr ctx (λ ctx, ScheduleScanRetry ctx scanID queuedAt retryCount max category msg nextRetryAt q).
Definition deadLetterQueuedScan s ctxErr ctx scanID finishedAt retryCount max assets findings category msg (q : QueueState) :=
  terminal_write s ctxErr ctx (λ ctx, DeadLetterScan ctx scanID finishedAt retryCount max assets findings category msg q).

(** *** A failed attempt *)
Definition handleScanFailure (s : Service) (ctxErr : option error) (now : Z) (ctx : Context) (record : ScanRecord)
    (allowRetry : bool) (stage : string) (assetCount findingCount : Z) (failure : error) (q : QueueState)
    : result QueueState :=
  let policy := classifyScanFailure stage (Some failure) in
  if negb allowRetry then
    completeScanTerminal s ctxErr ctx (Scan_ID record) scanLifecycleFailed now assetCount findingCount (error_string failure) q
  else
    let maxRetryCount := effectiveScanRetryLimit record in
    if Policy_Retryable policy && (Scan_RetryCount record <? maxRetryCount) then
      let nextRetryCount := Scan_RetryCount record + 1 in
      let nextRetryAt := now + scanRetryBackoff nextRetryCount in
      scheduleScanRetry s ctxErr ctx (Scan_ID record) now nextRetryCount maxRetryCount (Policy_Category policy)
        (error_string failure) nextRetryAt q
    else
      deadLetterQueuedScan s ctxErr ctx (Scan_ID record) now (Scan_RetryCount record) maxRetryCount assetCount findingCount
        (Policy_Category policy) (error_string failure) q.

(** *** Choosing the scanner *)
Definition with_source (source : ScanSource) (r : ScanRecord) : ScanRecord :=
  bound (mkScope (Scan_TenantID r) (Scan_WorkspaceID r)) source r.

(** The record and context to go on with, the queue, and the error. *)
Definition bindAWSScanRecordSource (ctx : Context) (record : ScanRecord) (source : ScanSource) (q : QueueState)
    : (ScanRecord * Context * option error) * QueueState :=
  let normalizedSource := ScanSource_Normalize source in
  if ScanSource_Empty normalizedSource then ((record, ctx, None), q)
  else
    let scope := ScopeFromContext ctx in
    let needsBinding :=
      bool_decide (Scan_ProjectID record ≠ Source_ProjectID normalizedSource) ||
      bool_decide (Scan_ConnectorID record ≠ Source_ConnectorID normalizedSource) ||
      negb (MatchScope scope (Scan_TenantID record) (Scan_WorkspaceID record)) in
    let record := bound scope normalizedSource record in
    if negb needsBinding || bool_decide (TrimSpace (Scan_ID record) = "") then ((record, ctx, None), q)
    else match BindScanSource ctx (Scan_ID record) normalizedSource q with
         | Err e => ((record, ctx, Some (Wrap "bind aws scan source" e)), q)
         | Ok (q, bound) =>
             ((bound, WithScope ctx (mkScope (Scan_TenantID bound) (Scan_WorkspaceID bound)), None), q)
         end.

(** The scanner or the error, the record bound to its connector, the queue. *)
Definition scannerForScan (s : Service) (ctx : Context) (record : ScanRecord) (q : QueueState)
    : (result Scanner * ScanRecord) * QueueState :=
  let provider := ToLower (TrimSpace (Scan_Provider record)) in
  let provider := if decide (provider = "") then ToLower (TrimSpace (Provider s)) else provider in
  match (if decide (provider = "aws") then AWSScannerFactory s else None) with
  | None => ((Ok (DefaultScanner s), record), q)
  | Some factory =>
      let '(refreshedSource, selectedScope, refreshErr) := refresh_connection ctx record in
      let '((boundRecord, selectedCtx, err), q) :=
        bindAWSScanRecordSource (WithScope ctx selectedScope) record refreshedSource q in
      match err with
      | Some e => ((Err e, boundRecord), q)
      | None =>
          match refreshErr with
          | Some e => ((Err e, boundRecord), q)
          | None =>
              let boundRecord := with_source refreshedSource boundRecord in
              match active_connection selectedCtx boundRecord with
              | Err e => ((Err e, boundRecord), q)
              | Ok None => ((Ok (DefaultScanner s), boundRecord), q)
              | Ok (Some connection) =>
                  match factory selectedCtx connection with
                  | Err e => ((Err (Wrap "initialize aws connector scanner" e), boundRecord), q)
                  | Ok None => ((Err (Errorf "aws connector scanner factory returned nil scanner"), boundRecord), q)
                  | Ok (Some scanner) => ((Ok scanner, boundRecord), q)
                  end
              end
          end
      end
  end.

(** *** Executing a scan *)

(** The end of a failed attempt: the error of the terminal write, else [nil]
    when the scan may be retried, else the failure. *)
Definition fail_scan (s : Service) (ctxErr : option error) (now : Z) (ctx : Context) (record : ScanRecord)
    (allowRetry : bool) (stage : string) (assets findings : Z) (failure reported : error) (q : QueueState)
    : option error * QueueState :=
  match handleScanFailure s ctxErr now ctx record allowRetry stage assets findings failure q with
  | Err e => (Some e, q)
  | Ok q => (if allowRetry then None else Some reported, q)
  end.

Definition runScanWithRecord (s : Service) (ctxErr : option error) (now : Z) (ctx : Context) (record : ScanRecord)
    (allowRetry : bool) (q : QueueState) : option error * QueueState :=
  let ctx := scopeContext s ctx in
  let '((scanner, record), q) := scannerForScan s ctx record q in
  let ctx := WithScope ctx (mkScope (Scan_TenantID record) (Scan_WorkspaceID record)) in
  let fail := fail_scan s ctxErr now ctx record allowRetry in
  match scanner with
  | Err e => fail scanFailureStageConnectorSetup 0 0 e e q
  | Ok scanner =>
      match run_scanner scanner record with
      | Err e => fail scanFailureStageExecution 0 0 e e q
      | Ok result =>
          match upsert_artifacts record result with
          | Some e => fail scanFailureStageArtifactsStore (Outcome_Assets result) 0 e (Wrap "persist artifacts" e) q
          | None =>
              match upsert_findings record result with
              | Some e => fail scanFailureStageFindingsStore (Outcome_Assets result) 0 e (Wrap "persist findings" e) q
              | None =>
                  match completeScanTerminal s ctxErr ctx (Scan_ID record) "succeeded" now (Outcome_Assets result)
                          (Outcome_Findings result) "" q with
                  | Ok q => (None, q)
                  | Err e =>
                      fail scanFailureStageFinalize (Outcome_Assets result) (Outcome_Findings result) e
                        (Wrap "complete scan record" e) q
                  end
              end
          end
      end
  end.

(** *** The workspace gate *)

(** Whether the claimed scan was refused, the queue after it. *)
Definition skipScanIfWorkspaceInactive (s : Service) (ctxErr : option error) (now : Z) (ctx : Context)
    (record : ScanRecord) (d : DirectoryState) (q : QueueState) : result (bool * QueueState) :=
  let workspaceID := TrimSpace (Scan_WorkspaceID record) in
  let tenantID := TrimSpace (Scan_TenantID record) in
  if bool_decide (workspaceID = "") || bool_decide (tenantID = "") then Ok (false, q)
  else match GetWorkspace ctx workspaceID d with
       | Err e => if errors_is e ErrNotFound then Ok (false, q) else Err (Wrap "workspace lifecycle gate" e)
       | Ok workspace =>
           if bool_decide (Workspace_Status workspace = WorkspaceStatusActive) &&
              bool_decide (Workspace_DeletedAt workspace = None) then Ok (false, q)
           else
             let reason := "workspace lifecycle is " +:+ Workspace_Status workspace +:+ "; scan refused (see #1420)" in
             match completeScanTerminal s ctxErr ctx (Scan_ID record) scanLifecycleFailed now 0 0 reason q with
             | Err e => Err (Wrap "mark scan failed for inactive workspace" e)
             | Ok q => Ok (true, q)
             end
       end.

(** *** One worker pass *)

(** The claimed part: what happens to [record] once it is claimed. *)
Definition process_claimed (s : Service) (ctxErr : option error) (now : Z) (ctx : Context) (record : ScanRecord)
    (d : DirectoryState) (q : QueueState) : (bool * option error) * QueueState :=
  let recordScopeCtx := WithScope ctx (mkScope (Scan_TenantID record) (Scan_WorkspaceID record)) in
  match skipScanIfWorkspaceInactive s ctxErr now recordScopeCtx record d q with
  | Err e => ((true, Some e), q)
  | Ok (true, q) => ((true, None), q)
  | Ok (false, q) =>
      let '(err, q) := runScanWithRecord s ctxErr now recordScopeCtx record true q in
      ((true, err), q)
  end.

Definition process_queue (s : Service) (ctxErr : option error) (clock now : Z) (ctx : Context) (d : DirectoryState)
    (q : QueueState) : (bool * option error) * QueueState :=
  match ClaimNextQueuedScanAnyScope clock (Provider s) q with
  | Err e => if errors_is e ErrNotFound then ((false, None), q) else ((false, Some (Wrap "claim queued scan" e)), q)
  | Ok (q, record) => process_claimed s ctxErr now ctx record d q
  end.

Definition ProcessNextQueuedScan `{Locker L} (s : Service) (ctxErr : option error) (clock now : Z) (ctx : Context)
    (w : WorkerState L) : (bool * option error) * WorkerState L :=
  let ctx := scopeContext s ctx in
  if ServiceLocked s then
    match try_acquire (lockKey s ("scan:" +:+ Provider s)) (wk_locker w) with
    | None => ((false, None), w)
    | Some (lease, l) =>
        let '(outcome, q) := process_queue s ctxErr clock now ctx (wk_directory w) (wk_queue w) in
        (outcome, mkWorker q (wk_directory w) (release lease l))
    end
  else
    let '(outcome, q) := process_queue s ctxErr clock now ctx (wk_directory w) (wk_queue w) in
    (outcome, mkWorker q (wk_directory w) (wk_locker w)).

(** [RunScan]: a scan outside the queue, under the same lock. *)
Definition RunScan `{Locker L} (s : Service) (ctxErr : option error) (newID : string) (now : Z) (ctx : Context)
    (w : WorkerState L) : option error * WorkerState L :=
  let ctx := scopeContext s ctx in
  let body q :=
    match CreateScan newID ctx (Provider s) now q with
    | Err e => (Some e, q)
    | Ok (q, record) => runScanWithRecord s ctxErr now ctx record false q
    end in
  if ServiceLocked s then
    match try_acquire (lockKey s ("scan:" +:+ Provider s)) (wk_locker w) with
    | None => (Some ErrScanInProgress, w)
    | Some (lease, l) =>
        let '(err, q) := body (wk_queue w) in (err, mkWorker q (wk_directory w) (release lease l))
    end
  else let '(err, q) := body (wk_queue w) in (err, mkWorker q (wk_directory w) (wk_locker w)).

(** *** Admission and replay

    [resolve] is the source of the request after [resolveScanSource] and
    [ensureAWSPlatformBaselineReadyForScan]. *)
Definition admit_scan (s : Service) (newID : string) (trace : string * string) (prefix : string) (ctx : Context)
    (provider : string) (source : ScanSource) (now : Z) (q : QueueState) : result (QueueState * ScanRecord) :=
  let maxPending := if ScanQueueMaxPending s <=? 0 then 1 else ScanQueueMaxPending s in
  if maxPending =? 1 then
    match CreateQueuedScanIfNoPendingWithSource newID trace ctx provider source now q with
    | Ok r => Ok r
    | Err e => if errors_is e ErrPendingScanExists then Err ErrScanInProgress else Err (Wrap prefix e)
    end
  else
    match CreateQueuedScanWithinLimitWithSource newID trace ctx provider source now maxPending q with
    | Ok r => Ok r
    | Err e => if errors_is e ErrQueueLimitReached then Err ErrScanQueueFull else Err (Wrap prefix e)
    end.

Definition EnqueueScan (s : Service) (newID : string) (trace : string * string) (resolve : Context → result ScanSource)
    (now : Z) (ctx : Context) (q : QueueState) : result (QueueState * ScanRecord) :=
  let ctx := scopeContext s ctx in
  source ← resolve ctx;
  admit_scan s newID trace "enqueue scan" ctx (Provider s) source now q.

Definition ReplayScan (s : Service) (newID : string) (trace : string * string)
    (ready : Context → string → ScanSource → result ScanSource) (now : Z) (ctx : Context) (scanID : string)
    (q : QueueState) : result (QueueState * ScanRecord) :=
  let ctx := scopeContext s ctx in
  source ← GetScan ctx scanID q;
  _ ← guard_err (Scan_DeadLettered source || bool_decide (Scan_Status source = scanLifecycleFailed))
        ErrScanReplayUnavailable;
  sourceContext ← ready ctx (Scan_Provider source) (mkSource (Scan_ProjectID source) (Scan_ConnectorID source));
  admit_scan s newID trace "replay scan" ctx (Scan_Provider source) sourceContext now q.

(** ** Terminal writes *)

(** A context that carries a scope, so that the scope of the writes made on a
    fresh context is the same. *)
Lemma RequireScope_terminal s ctx : is_Some ctx → RequireScope (terminalWriteContext s ctx) = RequireScope ctx.
Proof.
  intros [sc ->]. unfold terminalWriteContext. rewrite RequireScope_WithScope.
  unfold ScopeFromContext, scopeContext, WithDefaultScope, RequireScope. cbn. by rewrite !Scope_Normalize_idemp.
Qed.

(** A write that depends on its context by the scope alone. *)
Lemma terminal_write_eq s ctxErr ctx write f :
  is_Some ctx → (∀ c, write c = f (RequireScope c)) → terminal_write s ctxErr ctx write = write ctx.
Proof.
  intros Hctx Hf. unfold terminal_write. pose proof (RequireScope_terminal s ctx Hctx) as Ht.
  assert (write (terminalWriteContext s ctx) = write ctx) as Hw by by rewrite !Hf, Ht.
  destruct (shouldRetryTerminalWrite ctxErr); rewrite ?Hw; destruct (write ctx) as [q|e]; try done;
    by destruct (shouldRetryTerminalWrite (Some e)).
Qed.

(** ** Rows in flight *)

(** The scope of a row, as the store compares it. *)
Definition row_scope (r : ScanRecord) : Scope := mkScope (Scan_TenantID r) (Scan_WorkspaceID r).

(** Stored rows carry normal scopes, non-blank ids and retry counts from 0. *)
Definition rows_ok (q : QueueState) : Prop :=
  ∀ id r, scans q !! id = Some r →
    Scan_ID r = id ∧ scope_normal (row_scope r) ∧ TrimSpace id ≠ "" ∧ 0 ≤ Scan_RetryCount r.

Lemma rows_ok_put id r q :
  rows_ok q → Scan_ID r = id → scope_normal (row_scope r) → TrimSpace id ≠ "" → 0 ≤ Scan_RetryCount r →
  rows_ok (put_scan id r q).
Proof.
  intros Hq H1 H2 H3 H4 j x. cbn. rewrite lookup_insert_Some. intros [[<- <-]|[_ Hx]]; [done|by apply Hq].
Qed.

(** The row [id] is pending, retried [n] times of [max], and visible in [ctx]. *)
Definition in_flight (ctx : Context) (id : string) (n max : Z) (q : QueueState) : Prop :=
  is_Some ctx ∧ ∃ r, scans q !! id = Some r ∧ is_pending r = true ∧ Scan_RetryCount r = n ∧
    effectiveScanRetryLimit r = max ∧ RequireScope ctx = Ok (row_scope r).

Lemma in_scope_normal r : scope_normal (row_scope r) → in_scope (row_scope r) r = true.
Proof.
  intros Hn. unfold in_scope. apply MatchScope_true. rewrite (Scope_Normalize_id _ Hn).
  destruct Hn as (H1 & _ & H2 & _). split; [exact H1|exact H2].
Qed.

Lemma in_flight_scoped ctx id n max q :
  rows_ok q → in_flight ctx id n max q →
  ∃ r, scans q !! id = Some r ∧ Scan_RetryCount r = n ∧ effectiveScanRetryLimit r = max ∧ scoped_scan ctx id q = Ok r.
Proof.
  intros Hq (_ & r & Hr & _ & Hn & Hm & Hscope). exists r. split_and!; try done.
  unfold scoped_scan. rewrite Hscope. cbn. rewrite Hr. rewrite in_scope_normal; [done|]. by eapply Hq.
Qed.

(** The three terminal writes of a row in flight succeed. *)
Lemma complete_in_flight s ctxErr ctx id n max status at_ assets findings msg q :
  rows_ok q → in_flight ctx id n max q →
  ∃ r, scans q !! id = Some r ∧
    completeScanTerminal s ctxErr ctx id status at_ assets findings msg q =
    Ok (put_scan id (completed status at_ assets findings msg r) q).
Proof.
  intros Hq Hf. destruct (in_flight_scoped _ _ _ _ _ Hq Hf) as (r & Hr & _ & _ & Hs). exists r. split; [done|].
  unfold completeScanTerminal. rewrite (terminal_write_eq _ _ _ _ (λ sc, record ← (scope ← sc;
    match scans q !! id with None => Err ErrNotFound | Some record => if in_scope scope record then mret record else Err ErrNotFound end);
    mret (put_scan id (completed status at_ assets findings msg record) q))); [|apply Hf|done].
  unfold CompleteScan. by rewrite Hs.
Qed.
Lemma retry_in_flight s ctxErr ctx id n max at_ count limit category msg next q :
  rows_ok q → in_flight ctx id n max q →
  ∃ r, scans q !! id = Some r ∧
    scheduleScanRetry s ctxErr ctx id at_ count limit category msg next q =
    Ok (put_scan id (requeued at_ count limit category msg next r) q).
Proof.
  intros Hq Hf. destruct (in_flight_scoped _ _ _ _ _ Hq Hf) as (r & Hr & _ & _ & Hs). exists r. split; [done|].
  unfold scheduleScanRetry. rewrite (terminal_write_eq _ _ _ _ (λ sc, record ← (scope ← sc;
    match scans q !! id with None => Err ErrNotFound | Some record => if in_scope scope record then mret record else Err ErrNotFound end);
    mret (put_scan id (requeued at_ count limit category msg next record) q))); [|apply Hf|done].
  unfold ScheduleScanRetry. by rewrite Hs.
Qed.
Lemma dead_in_flight s ctxErr ctx id n max at_ count limit assets findings category msg q :
  rows_ok q → in_flight ctx id n max q →
  ∃ r, scans q !! id = Some r ∧
    deadLetterQueuedScan s ctxErr ctx id at_ count limit assets findings category msg q =
    Ok (put_scan id (dead_lettered at_ count limit assets findings category msg r) q).
Proof.
  intros Hq Hf. destruct (in_flight_scoped _ _ _ _ _ Hq Hf) as (r & Hr & _ & _ & Hs). exists r. split; [done|].
  unfold deadLetterQueuedScan. rewrite (terminal_write_eq _ _ _ _ (λ sc, record ← (scope ← sc;
    match scans q !! id with None => Err ErrNotFound | Some record => if in_scope scope record then mret record else Err ErrNotFound end);
    mret (put_scan id (dead_lettered at_ count limit assets findings category msg record) q))); [|apply Hf|done].
  unfold DeadLetterScan. by rewrite Hs.
Qed.

(** ** What an attempt leaves *)

(** The row [id] after an attempt of a scan retried [n] of [max] times: finished,
    or queued again with one more retry on the count, within the limit. *)
Definition attempted (id : string) (n max : Z) (q q' : QueueState) : Prop :=
  rows_ok q' ∧ (∀ j, j ≠ id → scans q' !! j = scans q !! j) ∧
  ∃ r, scans q' !! id = Some r ∧
    ((Scan_Status r = "succeeded" ∨ Scan_Status r = "failed") ∨
     (Scan_Status r = "queued" ∧ Scan_RetryCount r = n + 1 ∧ n < max ∧ effectiveScanRetryLimit r = max)).

Lemma put_attempted id n max r q q0 :
  rows_ok q → (∀ j, j ≠ id → scans q !! j = scans q0 !! j) →
  Scan_ID r = id → scope_normal (row_scope r) → TrimSpace id ≠ "" → 0 ≤ Scan_RetryCount r →
  ((Scan_Status r = "succeeded" ∨ Scan_Status r = "failed") ∨
   (Scan_Status r = "queued" ∧ Scan_RetryCount r = n + 1 ∧ n < max ∧ effectiveScanRetryLimit r = max)) →
  attempted id n max q0 (put_scan id r q).
Proof.
  intros Hq Ho H1 H2 H3 H4 Hst. split_and!; [by apply rows_ok_put| |].
  - intros j Hj. cbn. rewrite lookup_insert_ne by done. by apply Ho.
  - exists r. cbn. by rewrite lookup_insert_eq.
Qed.

Lemma effective_limit_requeued at_ n limit category msg next r :
  0 < limit → effectiveScanRetryLimit (requeued at_ n limit category msg next r) = limit.
Proof.
  intros Hl. unfold effectiveScanRetryLimit. cbn.
  rewrite (proj2 (Z.ltb_ge limit 0)) by lia. by rewrite (proj2 (Z.eqb_neq limit 0)) by lia.
Qed.

(** A queued scan whose attempt fails. *)
Lemma handleScanFailure_attempted s ctxErr now ctx record stage assets findings failure q q0 :
  rows_ok q → (∀ j, j ≠ Scan_ID record → scans q !! j = scans q0 !! j) →
  in_flight ctx (Scan_ID record) (Scan_RetryCount record) (effectiveScanRetryLimit record) q →
  ∃ q', handleScanFailure s ctxErr now ctx record true stage assets findings failure q = Ok q' ∧
    attempted (Scan_ID record) (Scan_RetryCount record) (effectiveScanRetryLimit record) q0 q'.
Proof.
  intros Hq Ho Hf. pose proof Hf as (_ & r0 & Hr0 & _ & Hn & Hm & _).
  destruct (Hq _ _ Hr0) as (Hid & Hsc & Hne & Hpos). unfold handleScanFailure. cbn [negb].
  destruct (_ && _) eqn:E.
  - apply andb_true_iff in E as [_ Hlt%Z.ltb_lt].
    edestruct retry_in_flight as (r & Hr & ->); [done|exact Hf|]. simplify_eq. eexists. split; [done|].
    apply put_attempted; try done; cbn; [lia|]. right. split_and!; [done|done|lia|].
    apply effective_limit_requeued. lia.
  - edestruct dead_in_flight as (r & Hr & ->); [done|exact Hf|]. simplify_eq. eexists. split; [done|].
    apply put_attempted; try done; cbn; [lia|]. left. by right.
Qed.
(** The record the worker goes on with, after its row was claimed: the same scan,
    in flight in the record's own scope. *)
Definition carries (id : string) (n max : Z) (q q' : QueueState) (record : ScanRecord) : Prop :=
  rows_ok q' ∧ (∀ j, j ≠ id → scans q' !! j = scans q !! j) ∧ Scan_ID record = id ∧ Scan_RetryCount record = n ∧
  effectiveScanRetryLimit record = max ∧ ∀ ctx, in_flight (WithScope ctx (row_scope record)) id n max q'.

Lemma in_flight_own ctx r id q :
  scans q !! id = Some r → is_pending r = true → scope_normal (row_scope r) →
  in_flight (WithScope ctx (row_scope r)) id (Scan_RetryCount r) (effectiveScanRetryLimit r) q.
Proof.
  intros Hr Hp Hn. split; [by eexists|]. exists r. split_and!; try done.
  by rewrite RequireScope_WithScope, Scope_Normalize_id.
Qed.

Lemma carries_self q r : rows_ok q → scans q !! Scan_ID r = Some r → is_pending r = true →
  carries (Scan_ID r) (Scan_RetryCount r) (effectiveScanRetryLimit r) q q r.
Proof.
  intros Hq Hr Hp. split_and!; try done. intros ctx. apply in_flight_own; [done|done|]. by eapply Hq.
Qed.

(** Changing the source of the record alone keeps that. *)
Lemma carries_source id n max q q' r source : carries id n max q q' r → carries id n max q q' (with_source source r).
Proof. done. Qed.

Lemma bindAWS_carries ctx r source q :
  is_Some ctx → rows_ok q → scans q !! Scan_ID r = Some r → is_pending r = true →
  match bindAWSScanRecordSource ctx r source q with
  | ((record, _, err), q') =>
      err = None ∧ carries (Scan_ID r) (Scan_RetryCount r) (effectiveScanRetryLimit r) q q' record
  end.
Proof.
  intros [sc ->] Hq Hr Hp. pose proof (Hq _ _ Hr) as (_ & Hsc & Hid & Hpos). unfold bindAWSScanRecordSource.
  destruct (ScanSource_Empty _) eqn:Hempty; [split; [done|by apply carries_self]|].
  assert (ScopeFromContext (Some sc) = Scope_Normalize sc) as -> by done.
  assert (RequireScope (Some sc) = Ok (Scope_Normalize sc)) as Hreq
    by (unfold RequireScope; cbn; by rewrite Scope_Normalize_idemp).
  set (scope := Scope_Normalize sc) in *.
  assert (scope_normal scope) as Hscn by apply Scope_Normalize_normal.
  destruct (negb (_ || _ || _)) eqn:Hneed; cbn [orb].
  - split; [done|]. boolify. assert (row_scope (bound scope (ScanSource_Normalize source) r) = row_scope r) as Hrow.
    { assert (MatchScope scope (Scan_TenantID r) (Scan_WorkspaceID r) = true) as Hm by assumption.
      apply MatchScope_true in Hm as [Ht Hw]. rewrite (Scope_Normalize_id _ Hscn) in Ht, Hw.
      destruct Hsc as (Et & _ & Ew & _). 
      change (mkScope (Scope_TenantID scope) (Scope_WorkspaceID scope) = mkScope (Scan_TenantID r) (Scan_WorkspaceID r)).
      f_equal; [exact (eq_trans (eq_sym Ht) Et)|exact (eq_trans (eq_sym Hw) Ew)]. }
    destruct (carries_self q r Hq Hr Hp) as (? & ? & ? & ? & ? & Hfl). split_and!; try done.
    intros ctx. rewrite Hrow. apply Hfl.
  - rewrite (bool_decide_eq_false_2 _ Hid). unfold BindScanSource. rewrite Hreq. cbn [mbind result_bind].
    assert (ScanSource_Normalize (ScanSource_Normalize source) = ScanSource_Normalize source) as Hnn
      by (unfold ScanSource_Normalize; cbn; by rewrite !TrimSpace_idemp).
    rewrite Hnn, Hempty. cbn [negb guard_err mbind result_bind]. change (Scan_ID (bound _ _ r)) with (Scan_ID r).
    rewrite Hr, Hp. cbn [mret result_ret]. split; [done|].
    set (r' := bound scope (ScanSource_Normalize source) r).
    assert (scope_normal (row_scope r')) as Hn' by exact Hscn.
    split_and!; [by apply rows_ok_put| |done|done|done|].
    + intros j Hj. cbn. by rewrite lookup_insert_ne.
    + intros ctx. apply (in_flight_own ctx r'); [cbn; by rewrite lookup_insert_eq|done|done].
Qed.

Lemma scannerForScan_carries s ctx r q :
  rows_ok q → scans q !! Scan_ID r = Some r → is_pending r = true →
  match scannerForScan s ctx r q with
  | ((_, record), q') => carries (Scan_ID r) (Scan_RetryCount r) (effectiveScanRetryLimit r) q q' record
  end.
Proof.
  intros Hq Hr Hp. unfold scannerForScan.
  destruct (if decide _ then AWSScannerFactory s else None) as [factory|]; [|by apply carries_self].
  destruct (refresh_connection ctx r) as [[source selected] refreshErr].
  pose proof (bindAWS_carries (WithScope ctx selected) r source q ltac:(by eexists) Hq Hr Hp) as Hb.
  destruct (bindAWSScanRecordSource _ r source q) as [[[record ctx'] err] q']. destruct Hb as [-> Hc].
  destruct refreshErr; [done|]. apply (carries_source _ _ _ _ _ _ source) in Hc.
  destruct (active_connection _ _) as [[connection|]|]; [|done|done].
  by destruct (factory _ _) as [[scanner|]|].
Qed.

Lemma runScanWithRecord_attempted s ctxErr now ctx r q :
  rows_ok q → scans q !! Scan_ID r = Some r → is_pending r = true →
  attempted (Scan_ID r) (Scan_RetryCount r) (effectiveScanRetryLimit r) q
    (runScanWithRecord s ctxErr now ctx r true q).2.
Proof.
  intros Hq Hr Hp. unfold runScanWithRecord.
  pose proof (scannerForScan_carries s (scopeContext s ctx) r q Hq Hr Hp) as Hc.
  destruct (scannerForScan s (scopeContext s ctx) r q) as [[scanner record] q1].
  destruct Hc as (Hq1 & Ho & Hid & Hn & Hm & Hfl). specialize (Hfl (scopeContext s ctx)).
  rewrite <-Hid, <-Hn, <-Hm in Hfl |- *. rewrite <-Hid in Ho.
  set (rctx := WithScope _ _) in Hfl |- *.
  assert (∀ stage assets findings failure reported,
    attempted (Scan_ID record) (Scan_RetryCount record) (effectiveScanRetryLimit record) q
      (fail_scan s ctxErr now rctx record true stage assets findings failure reported q1).2) as Hfail.
  { intros stage assets findings failure reported. unfold fail_scan.
    destruct (handleScanFailure_attempted s ctxErr now rctx record stage assets findings failure q1 q Hq1 Ho Hfl)
      as (q2 & -> & Hq2). exact Hq2. }
  destruct scanner as [scanner|e]; [|apply Hfail].
  destruct (run_scanner scanner record) as [outcome|e]; [|apply Hfail].
  destruct (upsert_artifacts record outcome); [apply Hfail|].
  destruct (upsert_findings record outcome); [apply Hfail|].
  edestruct complete_in_flight as (r1 & Hr1 & ->); [exact Hq1|exact Hfl|]. cbn.
  destruct (Hq1 _ _ Hr1) as (Hid1 & Hsc1 & Hne1 & Hpos1). apply put_attempted; try done. left. by left.
Qed.
(** *** One pass *)
Lemma NotFound_is_NotFound : errors_is ErrNotFound ErrNotFound = true.
Proof. by vm_compute. Qed.

Lemma GetWorkspace_error sc workspaceID d e : GetWorkspace (WithScope None sc) workspaceID d = Err e → e = ErrNotFound.
Proof.
  unfold GetWorkspace, scoped_workspace. rewrite RequireScope_WithScope. cbn [mbind result_bind].
  destruct (ResolveScopedWorkspaceID _ _) as [w|e'] eqn:E; cbn.
  - destruct (workspaces d !! _); [done|]. by intros [= <-].
  - unfold ResolveScopedWorkspaceID in E. destruct (decide (_ ≠ _)); [|done]. intros [= <-]. by injection E as <-.
Qed.

Lemma process_claimed_attempted s ctxErr now ctx r d q :
  rows_ok q → scans q !! Scan_ID r = Some r → is_pending r = true →
  attempted (Scan_ID r) (Scan_RetryCount r) (effectiveScanRetryLimit r) q (process_claimed s ctxErr now ctx r d q).2.
Proof.
  intros Hq Hr Hp. unfold process_claimed, skipScanIfWorkspaceInactive. set (rctx := WithScope ctx _).
  assert (attempted (Scan_ID r) (Scan_RetryCount r) (effectiveScanRetryLimit r) q
    (runScanWithRecord s ctxErr now rctx r true q).2) as Hrun by by apply runScanWithRecord_attempted.
  destruct (_ || _); [revert Hrun; by destruct (runScanWithRecord _ _ _ _ _ _ _)|].
  destruct (GetWorkspace rctx (TrimSpace (Scan_WorkspaceID r)) d) as [w|e] eqn:E.
  - destruct (_ && _); [revert Hrun; by destruct (runScanWithRecord _ _ _ _ _ _ _)|].
    destruct (Hq _ _ Hr) as (Hid & Hsc & Hne & Hpos).
    edestruct complete_in_flight as (r1 & Hr1 & ->); [exact Hq|apply (in_flight_own ctx r _ q Hr Hp Hsc)|].
    cbn. simplify_eq. apply put_attempted; try done. left. by right.
  - apply GetWorkspace_error in E as ->. rewrite NotFound_is_NotFound. revert Hrun. by destruct (runScanWithRecord _ _ _ _ _ _ _).
Qed.

Lemma claimed_pending r : is_queued r = true → is_pending (claimed r) = true.
Proof. unfold is_queued, is_pending. rewrite andb_true_iff. cbn. by intros [_ ->]. Qed.

Lemma rows_ids_ok q : rows_ok q → ids_ok q.
Proof. intros Hq id r Hr. by apply Hq. Qed.

(** A pass over the queue leaves it alone, or attempts the scan it claims. *)
Lemma process_queue_spec s ctxErr clock now ctx d q :
  rows_ok q →
  match ClaimNextQueuedScanAnyScope clock (Provider s) q with
  | Err _ => process_queue s ctxErr clock now ctx d q = ((false, None), q)
  | Ok (_, r') => ∃ r, r' = claimed r ∧ scans q !! Scan_ID r = Some r ∧ is_queued r = true ∧
      (process_queue s ctxErr clock now ctx d q).1.1 = true ∧
      attempted (Scan_ID r) (Scan_RetryCount r) (effectiveScanRetryLimit r) q
        (process_queue s ctxErr clock now ctx d q).2
  end.
Proof.
  intros Hq. unfold process_queue. destruct (ClaimNextQueuedScanAnyScope clock (Provider s) q) as [[q1 r']|e] eqn:E.
  - pose proof (claim_stored _ _ _ _ _ _ (rows_ids_ok q Hq) E) as (r & Hr & Hqd & -> & Hs1).
    exists r. destruct (Hq _ _ Hr) as (Hid & Hsc & Hne & Hpos).
    assert (rows_ok q1) as Hq1.
    { intros j x. rewrite Hs1, lookup_insert_Some. intros [[<- <-]|[_ Hx]]; [done|by apply Hq]. }
    assert (scans q1 !! Scan_ID (claimed r) = Some (claimed r)) as Hr1 by (rewrite Hs1; apply lookup_insert_eq).
    pose proof (process_claimed_attempted s ctxErr now ctx (claimed r) d q1 Hq1 Hr1 (claimed_pending r Hqd))
      as (Hq2 & Ho & Hrow).
    split_and!; [done|done|done| |split_and!; [exact Hq2| |exact Hrow]].
    + unfold process_claimed. destruct (skipScanIfWorkspaceInactive _ _ _ _ _ _ _) as [[[] ?]|]; [done| |done].
      by destruct (runScanWithRecord _ _ _ _ _ _ _).
    + intros j Hj. rewrite Ho by done. rewrite Hs1. by rewrite lookup_insert_ne.
  - unfold ClaimNextQueuedScanAnyScope, claimNextQueuedScanLocked in E.
    destruct (foldl _ _ _); [done|]. injection E as <-. by rewrite NotFound_is_NotFound.
Qed.
(** ** Runs of worker passes *)
Record pass_input := mkInput { in_ctxErr : option error; in_clock : Z; in_now : Z; in_ctx : Context }.

Section passes.
Context `{Locker L} (s : Service).

Definition worker_pass (p : pass_input) (w : WorkerState L) : (bool * option error) * WorkerState L :=
  ProcessNextQueuedScan s (in_ctxErr p) (in_clock p) (in_now p) (in_ctx p) w.
Definition worker_step (w : WorkerState L) (p : pass_input) : WorkerState L := (worker_pass p w).2.

Definition lock_free (w : WorkerState L) : bool :=
  negb (ServiceLocked s) || negb (is_held (lockKey s ("scan:" +:+ Provider s)) (wk_locker w)).

(** The pass executes the scan [id]. *)
Definition attempts (id : string) (p : pass_input) (w : WorkerState L) : bool :=
  lock_free w &&
  match ClaimNextQueuedScanAnyScope (in_clock p) (Provider s) (wk_queue w) with
  | Ok (_, r) => bool_decide (Scan_ID r = id)
  | Err _ => false
  end.

(** The attempts a scan has left. *)
Definition attempts_left (id : string) (w : WorkerState L) : nat :=
  match scans (wk_queue w) !! id with
  | Some r => if is_queued r then Z.to_nat (1 + Z.max 0 (effectiveScanRetryLimit r - Scan_RetryCount r)) else 0
  | None => 0
  end.

Lemma worker_pass_queue p w :
  if lock_free w then
    ∃ ctx, let '(outcome, q) := process_queue s (in_ctxErr p) (in_clock p) (in_now p) ctx (wk_directory w) (wk_queue w) in
      (worker_pass p w).1 = outcome ∧ wk_queue (worker_step w p) = q
  else (worker_pass p w).1 = (false, None) ∧ wk_queue (worker_step w p) = wk_queue w.
Proof.
  unfold lock_free, worker_step, worker_pass, ProcessNextQueuedScan. set (ctx := scopeContext s _).
  destruct (ServiceLocked s); cbn [negb orb].
  - pose proof (try_acquire_spec (lockKey s ("scan:" +:+ Provider s)) (wk_locker w)) as Hl.
    destruct (try_acquire _ (wk_locker w)) as [[lease l]|].
    + destruct Hl as (-> & _). cbn [negb]. exists ctx. by destruct (process_queue _ _ _ _ _ _ _).
    + by rewrite Hl.
  - exists ctx. by destruct (process_queue _ _ _ _ _ _ _).
Qed.

(** The state of a scan between passes: finished, or queued for an attempt. *)
Definition settled (id : string) (w : WorkerState L) : Prop :=
  rows_ok (wk_queue w) ∧ ∃ r, scans (wk_queue w) !! id = Some r ∧ Scan_Status r ∈ ["queued"; "succeeded"; "failed"].

Lemma worker_step_settled id p w : settled id w → settled id (worker_step w p) ∧
  (count (attempts id p w) + attempts_left id (worker_step w p) ≤ attempts_left id w)%nat.
Proof.
  intros (Hq & r & Hr & Hst). pose proof (worker_pass_queue p w) as Hp. unfold attempts.
  destruct (lock_free w) eqn:Hfree.
  2: { destruct Hp as [_ Hp]. unfold settled, attempts_left. rewrite Hp. split; [by split; [|exists r]|]. cbn. lia. }
  destruct Hp as [ctx Hp]. cbn [andb].
  pose proof (process_queue_spec s (in_ctxErr p) (in_clock p) (in_now p) ctx (wk_directory w) (wk_queue w) Hq) as Hs.
  destruct (process_queue s (in_ctxErr p) (in_clock p) (in_now p) ctx (wk_directory w) (wk_queue w)) as [outcome q'].
  destruct Hp as [_ Hp]. unfold settled, attempts_left. rewrite Hp.
  destruct (ClaimNextQueuedScanAnyScope (in_clock p) (Provider s) (wk_queue w)) as [[q1 r']|e].
  2: { injection Hs as _ ->. split; [by split; [|exists r]|]. cbn. lia. }
  destruct Hs as (rc & -> & Hrc & Hqd & _ & Hq' & Ho & r2 & Hr2 & Hst2). cbn [snd] in Hq', Ho, Hr2.
  change (Scan_ID (claimed rc)) with (Scan_ID rc). destruct (decide (Scan_ID rc = id)) as [Hid|Hne].
  - rewrite Hid in Hrc, Hr2. rewrite bool_decide_eq_true_2 by done. rewrite Hrc, Hr2, Hqd. simplify_eq.
    split; [split; [done|exists r2; split; [done|]]|].
    + rewrite !elem_of_cons, elem_of_nil. destruct Hst2 as [[?|?]|(? & _)]; auto.
    + destruct Hst2 as [Hfin|(_ & Hn & Hlt & Hlim)].
      * assert (is_queued r2 = false) as ->; [|cbn; lia].
        unfold is_queued. apply andb_false_iff. left. apply bool_decide_eq_false. destruct Hfin as [-> | ->]; done.
      * rewrite Hlim, Hn. destruct (is_queued r2); cbn; lia.
  - rewrite bool_decide_eq_false_2 by done. rewrite Ho by done. split; [split; [done|by exists r]|]. cbn. lia.
Qed.

(** C11.  However the attempts of a queued scan end, it is executed at most
    once plus its retry limit; between passes it is queued, succeeded or
    failed, never left running; once its attempts are used up it is finished;
    and a pass that finds the lock free and a claimable scan executes one. *)
Theorem queued_scan_attempts id r w passes
    (Hrows : rows_ok (wk_queue w)) (Hid : scans (wk_queue w) !! id = Some r) (Hqueued : is_queued r = true) :
  let limit := Z.max 0 (effectiveScanRetryLimit r - Scan_RetryCount r) in
  let n := tally worker_step (attempts id) passes w in
  Z.of_nat n ≤ 1 + limit ∧
  (∃ r', scans (wk_queue (run worker_step passes w)) !! id = Some r' ∧
    Scan_Status r' ∈ ["queued"; "succeeded"; "failed"] ∧
    (Z.of_nat n = 1 + limit → is_queued r' = false)) ∧
  (∀ p r', lock_free w = true → scans (wk_queue w) !! Scan_ID r' = Some r' → Scan_ID r' ∈ scanIDs (wk_queue w) →
    claimable (in_clock p) None (Provider s) r' = true → (worker_pass p w).1.1 = true).
Proof.
  cbn zeta. assert (settled id w) as Hset.
  { split; [done|]. exists r. split; [done|]. unfold is_queued in Hqueued.
    apply andb_true_iff in Hqueued as [->%bool_decide_eq_true _]. by left. }
  pose proof (tally_le worker_step (settled id) (λ _, True) (attempts_left id) (attempts id) (λ _ _, false)
    (λ w p _ Hw, proj1 (worker_step_settled id p w Hw))
    (λ p w _ Hw, proj2 (worker_step_settled id p w Hw)) passes w (Forall_true _ _ (λ _, I)) Hset) as Hle.
  pose proof (run_invariant worker_step (settled id) (λ _, True)
    (λ w p _ Hw, proj1 (worker_step_settled id p w Hw)) passes w (Forall_true _ _ (λ _, I)) Hset) as [_ (r' & Hr' & Hst)].
  assert (tally worker_step (λ _ _, false) passes w = 0%nat) as Hzero.
  { clear. revert w. induction passes as [|p passes IH]; intros w; cbn; [done|apply IH]. }
  rewrite Hzero in Hle. unfold attempts_left in Hle at 2. rewrite Hid, Hqueued in Hle.
  split_and!; [lia| |].
  - exists r'. split_and!; [done|done|]. intros Hall. unfold attempts_left in Hle. rewrite Hr' in Hle.
    destruct (is_queued r'); [lia|done].
  - intros p x Hfree Hx Hin Hc. pose proof (worker_pass_queue p w) as Hp. rewrite Hfree in Hp. destruct Hp as [ctx Hp].
    pose proof (process_queue_spec s (in_ctxErr p) (in_clock p) (in_now p) ctx (wk_directory w) (wk_queue w) Hrows) as Hs.
    destruct (process_queue _ _ _ _ _ _ _) as [outcome q']. destruct Hp as [-> _].
    unfold ClaimNextQueuedScanAnyScope, claimNextQueuedScanLocked in Hs.
    pose proof (foldl_better (claimable (in_clock p) None (Provider s)) (ordered_scans (wk_queue w))) as Hbest.
    destruct (foldl _ None _) as [b|]; [destruct Hs as (? & _ & _ & _ & Hdone & _); exact Hdone|].
    assert (x ∈ ordered_scans (wk_queue w)) as Hxo.
    { unfold ordered_scans. apply list_elem_of_fmap. exists (Scan_ID x). by rewrite Hx. }
    by rewrite (Hbest x Hxo) in Hc.
Qed.
End passes.

(** ** The disposition of a failed attempt *)
Lemma backoff_loop_min n b :
  0 < b ≤ defaultScanRetryMaxDelay → backoff_loop n b = Z.min defaultScanRetryMaxDelay (b * 2 ^ Z.of_nat n).
Proof.
  revert b. induction n as [|n IH]; intros b Hb; cbn [backoff_loop].
  - destruct (Z.ltb_spec defaultScanRetryMaxDelay b); cbn; lia.
  - assert (defaultScanRetryMaxDelay < 2 ^ 62) as Hmax by (by vm_compute).
    rewrite wrap64_id by (unfold in_int64, int64_min, int64_max; lia).
    rewrite Nat2Z.inj_succ, Z.pow_succ_r by lia.
    assert (0 < 2 ^ Z.of_nat n) by (apply Z.pow_pos_nonneg; lia).
    destruct (Z.leb_spec defaultScanRetryMaxDelay (b * 2)); [nia|]. rewrite IH by lia. f_equal. lia.
Qed.

Lemma scanRetryBackoff_min n :
  scanRetryBackoff n = Z.min defaultScanRetryMaxDelay (defaultScanRetryBaseDelay * 2 ^ Z.max 0 (n - 1)).
Proof.
  assert (0 < defaultScanRetryBaseDelay ≤ defaultScanRetryMaxDelay) as Hbase by (by vm_compute).
  unfold scanRetryBackoff. destruct (Z.leb_spec n 0).
  - rewrite Z.max_l by lia. rewrite Z.pow_0_r. lia.
  - rewrite backoff_loop_min by done. by rewrite Z2Nat.id, Z.max_r by lia.
Qed.

(** C40.  A failed attempt of a scan the queue holds is requeued exactly when
    its failure is retryable and it has retries left: with one more retry on
    its count, the failure as its reason, and not claimable before a delay of
    30 s doubled for each earlier retry, at most 15 min; otherwise it is failed
    and dead-lettered, and not claimable again; failures to persist or to
    finalize are never retried. *)
Theorem failed_attempt_disposition s ctxErr now ctx record stage assets findings failure q
    (Hrows : rows_ok q)
    (Hflight : in_flight ctx (Scan_ID record) (Scan_RetryCount record) (effectiveScanRetryLimit record) q) :
  let policy := classifyScanFailure stage (Some failure) in
  let delay := Z.min (15 * Minute) (30 * Second * 2 ^ Scan_RetryCount record) in
  (stage ∈ [scanFailureStageArtifactsStore; scanFailureStageFindingsStore; scanFailureStageFinalize] →
   Policy_Retryable policy = false) ∧
  ∃ q' r, handleScanFailure s ctxErr now ctx record true stage assets findings failure q = Ok q' ∧
    scans q' !! Scan_ID record = Some r ∧ Scan_ErrorMessage r = error_string failure ∧
    if Policy_Retryable policy && (Scan_RetryCount record <? effectiveScanRetryLimit record) then
      is_queued r = true ∧ Scan_RetryCount r = Scan_RetryCount record + 1 ∧ Scan_NextRetryAt r = Some (now + delay) ∧
      (∀ clock scope provider, clock < now + delay → claimable clock scope provider r = false)
    else
      Scan_Status r = "failed" ∧ Scan_DeadLettered r = true ∧ Scan_DeadLetteredAt r = Some now ∧
      (∀ clock scope provider, claimable clock scope provider r = false).
Proof.
  cbn zeta. pose proof Hflight as (_ & r0 & Hr0 & _ & Hn & _). destruct (Hrows _ _ Hr0) as (_ & _ & _ & Hpos).
  rewrite Hn in Hpos. split.
  { rewrite !elem_of_cons, elem_of_nil. by intros [->|[->|[->|[]]]]. }
  unfold handleScanFailure. cbn [negb]. destruct (_ && _) eqn:E.
  - edestruct retry_in_flight as (r & Hr & ->); [done|exact Hflight|]. eexists _, _. split; [done|].
    cbn [scans put_scan]. rewrite lookup_insert_eq. split; [done|]. split; [done|].
    rewrite scanRetryBackoff_min, Z.max_r, Z.add_simpl_r by lia.
    split_and!; [by vm_compute|done|done|]. intros clock scope provider Hlt. unfold claimable. cbn [Scan_NextRetryAt requeued].
    apply andb_false_iff. right. apply negb_false_iff, Z.ltb_lt. exact Hlt.
  - edestruct dead_in_flight as (r & Hr & ->); [done|exact Hflight|]. eexists _, _. split; [done|].
    cbn [scans put_scan]. rewrite lookup_insert_eq. split_and!; try done. intros clock scope provider. unfold claimable.
    apply andb_false_iff. left. apply andb_false_iff. left. apply andb_false_iff. by right.
Qed.
End service.

(** A scanner that always times out. *)
Definition timing_out (_ : unit) (_ : ScanRecord) : result ScanOutcome := Err (Errorf "i/o timeout").
Definition stored (_ : ScanRecord) (_ : ScanOutcome) : option error := None.
Definition no_refresh (_ : Context) (r : ScanRecord) : ScanSource * Scope * option error := (no_source, row_scope r, None).
Definition no_connection (_ : Context) (_ : ScanRecord) : result (option unit) := Ok None.
Definition sample_service : Service (Scanner := unit) (Connection := unit) :=
  mkService "aws" (mkScope "t" "w") tt None 1 "identrail" true.
Definition sample_row : ScanRecord := queued_row "s1" ("", "") (mkScope "t" "w") "aws" no_source 3.
Definition sample_worker : WorkerState LockerState :=
  mkWorker _ (mkQueue {["s1" := sample_row]} ["s1"]) empty_directory NewInMemoryLocker.
(** A pass every half hour. *)
Definition sample_passes : list pass_input :=
  (λ i, mkInput None (i * 30 * Minute) (i * 30 * Minute) None) <$> [1; 2; 3; 4; 5; 6].

Lemma sample_rows_ok : rows_ok (wk_queue _ sample_worker).
Proof.
  intros id r Hr. cbn in Hr. apply lookup_singleton_Some in Hr as [<- <-].
  split_and!; [done|by apply (bool_decide_unpack _); vm_compute|by vm_compute|by vm_compute].
Qed.

Lemma queued_scan_attempts_witness :
  let step := worker_step timing_out stored stored no_refresh no_connection sample_service in
  let attempt := attempts sample_service "s1" in
  tally step attempt sample_passes sample_worker = 4%nat ∧
  ∃ r, scans (wk_queue _ (run step sample_passes sample_worker)) !! "s1" = Some r ∧
    Scan_Status r ∈ ["queued"; "succeeded"; "failed"] ∧ is_queued r = false.
Proof.
  cbn zeta. pose proof (queued_scan_attempts timing_out stored stored no_refresh no_connection sample_service "s1" sample_row
    sample_worker sample_passes sample_rows_ok ltac:(by vm_compute) ltac:(by vm_compute)) as (_ & (r & Hr & Hst & Hq) & _).
  assert (tally (worker_step timing_out stored stored no_refresh no_connection sample_service)
    (attempts sample_service "s1") sample_passes sample_worker = 4%nat) as Hn by (by vm_compute).
  split; [exact Hn|]. exists r. split; [exact Hr|split; [exact Hst|]]. apply Hq. rewrite Hn. by vm_compute.
Defined.

Definition running_row : ScanRecord := claimed sample_row.
Lemma failed_attempt_disposition_witness :
  let q := mkQueue {["s1" := running_row]} ["s1"] in
  ∃ q' r, handleScanFailure sample_service None 100 (WithScope None (mkScope "t" "w")) running_row true
    scanFailureStageExecution 0 0 (Errorf "access denied") q = Ok q' ∧ scans q' !! "s1" = Some r ∧
    Scan_DeadLettered r = true.
Proof.
  cbn zeta. set (q := mkQueue _ _).
  assert (rows_ok q) as Hq.
  { intros id r Hr. cbn in Hr. apply lookup_singleton_Some in Hr as [<- <-].
    split_and!; [done|by apply (bool_decide_unpack _); vm_compute|by vm_compute|by vm_compute]. }
  assert (in_flight (WithScope None (mkScope "t" "w")) (Scan_ID running_row) (Scan_RetryCount running_row)
            (effectiveScanRetryLimit running_row) q) as Hf.
  { split; [by eexists|]. exists running_row. split_and!; by vm_compute. }
  destruct (failed_attempt_disposition sample_service None 100 (WithScope None (mkScope "t" "w")) running_row
    scanFailureStageExecution 0 0 (Errorf "access denied") q Hq Hf) as (_ & q' & r & Hq' & Hr & _ & Hd).
  exists q', r. split; [exact Hq'|split; [exact Hr|]].
  assert (Policy_Retryable (classifyScanFailure scanFailureStageExecution (Some (Errorf "access denied"))) = false) as Hp
    by (by vm_compute).
  rewrite Hp in Hd. exact (proj1 (proj2 Hd)).
Defined.
