(* ===== verification/RepoFindings.v ===== *)
(** * Repository findings (internal/domain/repo_finding_metadata.go, types.go)

    A finding keeps its repository metadata twice: in fields, and in its
    evidence map, which is what older rows have.  [NormalizeRepoFindingMetadata]
    brings the two in line.  The lifecycle key is the identity of a finding
    across scans. *)
From S2P Require Import Prelude GoStrings GoTime GoFloat GoText.

(** ** Evidence

    The dynamic types the code tells apart in a [map[string]any].  A value of
    the type [RepoFindingLifecycleStatus] is not a [string]; [EvOther] is any
    value of another type. *)
Inductive evidence :=
| EvString (s : string)
| EvBool (b : bool)
| EvInt (z : Z)
| EvInt32 (z : Z)
| EvInt64 (z : Z)
| EvFloat64 (f : float64)
| EvFloat32 (f : float64)
| EvNumber (text : string)
| EvTime (t : Z)
| EvStatus (s : string)
| EvOther.
#[export] Instance evidence_eq_dec : EqDecision evidence.
Proof. solve_decision. Defined.

(** [json.Number.Float64], which is [strconv.ParseFloat]. *)
Class FloatParser := { parse_float : string → option float64 }.

(** [m[key]] on a possibly nil map. *)
Definition lookup_evidence (m : option (gmap string evidence)) (key : string) : option evidence :=
  m ← m; m !! key.

Definition stringFromAny (v : option evidence) : string := match v with Some (EvString s) => s | _ => "" end.
Definition boolFromAny (v : option evidence) : option bool := match v with Some (EvBool b) => Some b | _ => None end.
Definition floatFromAny `{FloatParser} (v : option evidence) : option float64 :=
  match v with
  | Some (EvFloat64 f) | Some (EvFloat32 f) => Some f
  | Some (EvInt z) | Some (EvInt32 z) | Some (EvInt64 z) => Some (float_of_int z)
  | Some (EvNumber text) => parse_float text
  | _ => None
  end.
Definition timeFromAny (v : option evidence) : option Z :=
  match v with
  | Some (EvTime t) => Some t
  | Some (EvString s) => if decide (TrimSpace s = "") then None else Parse_RFC3339 (TrimSpace s)
  | _ => None
  end.

Definition MaxInt32 : Z := 2 ^ 31 - 1.
Definition boundedEvidenceLineNumber (value : Z) : Z := if (value <? 0) || (MaxInt32 <? value) then 0 else value.
Definition boundedEvidenceLineNumberFloat (value : float64) : Z :=
  match float_to_int value with Some z => boundedEvidenceLineNumber z | None => 0 end.
(** [strconv.ParseInt(s, 10, 32)]. *)
Definition ParseInt32 (s : string) : option Z :=
  z ← Atoi s; if (- 2 ^ 31 <=? z) && (z <=? MaxInt32) then Some z else None.
Definition EvidenceLineNumberFromAny (v : option evidence) : Z :=
  match v with
  | Some (EvInt z) | Some (EvInt32 z) | Some (EvInt64 z) => boundedEvidenceLineNumber z
  | Some (EvFloat64 f) => boundedEvidenceLineNumberFloat f
  | Some (EvNumber text) => match ParseInt32 text with Some z => boundedEvidenceLineNumber z | None => 0 end
  | Some (EvString s) => match ParseInt32 (TrimSpace s) with Some z => boundedEvidenceLineNumber z | None => 0 end
  | _ => 0
  end.

(** ** The record *)
Definition RepoFindingLifecycleOpen : string := "open".
Definition RepoFindingLifecycleFixed : string := "fixed".
Definition RepoFindingLifecycleReopened : string := "reopened".
Definition RepoFindingLifecycleSuppressed : string := "suppressed".
Definition RepoFindingLifecycleRiskAccepted : string := "risk_accepted".
Definition RepoFindingLifecycleFalsePositive : string := "false_positive".
Definition lifecycle_statuses : list string :=
  [RepoFindingLifecycleOpen; RepoFindingLifecycleFixed; RepoFindingLifecycleReopened; RepoFindingLifecycleSuppressed;
   RepoFindingLifecycleRiskAccepted; RepoFindingLifecycleFalsePositive].
Definition FindingSecretExposure : string := "secret_exposure".
Definition FindingRepoMisconfig : string := "repo_misconfiguration".

Definition FindingLifecycleOpen : string := "open".
Definition FindingLifecycleAck : string := "ack".
Definition FindingLifecycleSuppressed : string := "suppressed".
Definition FindingLifecycleResolved : string := "resolved".

Record FindingTriage := mkTriage {
  Triage_Status : string;
  Triage_Assignee : string;
  Triage_SuppressionExpiresAt : option Z;
  Triage_ResolvedAt : option Z;
  Triage_UpdatedAt : option Z;
  Triage_UpdatedBy : string;
}.

(** [Finding], with the fields of repository findings; a nil [Evidence] map is
    [None]. *)
Record RepoFinding := mkRF {
  RF_ID : string;
  RF_ScanID : string;
  RF_Type : string;
  RF_Severity : string;
  RF_ConfidenceScore : float64;
  RF_Actionability : string;
  RF_Exploitability : string;
  RF_EvidenceCompleteness : string;
  RF_Provenance : string;
  RF_Title : string;
  RF_HumanSummary : string;
  RF_Path : list string;
  RF_Repository : string;
  RF_Commit : string;
  RF_FilePath : string;
  RF_LineNumber : Z;
  RF_Detector : string;
  RF_LineSnippet : string;
  RF_LineSnippetRedacted : option bool;
  RF_SourceURL : string;
  RF_LifecycleKey : string;
  RF_LifecycleStatus : string;
  RF_Owner : string;
  RF_FirstSeenAt : option Z;
  RF_LastSeenAt : option Z;
  RF_FixedAt : option Z;
  RF_ReopenedAt : option Z;
  RF_DismissedAt : option Z;
  RF_SuppressionExpiresAt : option Z;
  RF_RuleVersion : string;
  RF_DetectorVersion : string;
  RF_AdapterSource : string;
  RF_ConfidenceState : string;
  RF_VerificationStatus : string;
  RF_ScanMode : string;
  RF_EvidenceVersion : string;
  RF_Evidence : option (gmap string evidence);
  RF_Remediation : string;
  RF_CreatedAt : Z;
  RF_Triage : FindingTriage;
}.

(** ** Normalization *)
Definition or_string (s t : string) : string := if decide (s = "") then t else s.
Definition or_time_pointer (p q : option Z) : option Z := match p with Some _ => p | None => q end.

(** The first of the keys with a non-empty string. *)
Fixpoint first_evidence_string (m : option (gmap string evidence)) (keys : list string) : string :=
  match keys with
  | [] => ""
  | key :: keys => or_string (stringFromAny (lookup_evidence m key)) (first_evidence_string m keys)
  end.

(** [firstNonEmptyString]: the first value that is not blank, trimmed. *)
Fixpoint firstNonEmptyString (values : list string) : string :=
  match values with
  | [] => ""
  | value :: values => or_string (TrimSpace value) (firstNonEmptyString values)
  end.

Definition evidence_keys : list string :=
  ["commit"; "file_path"; "line_number"; "detector"; "line_snippet"; "line_snippet_redacted"; "redacted_line_snip";
   "match_snippet"; "lifecycle_key"; "lifecycle_status"; "owner"; "first_seen_at"; "last_seen_at"; "fixed_at";
   "reopened_at"; "dismissed_at"; "suppression_expires_at"; "rule_version"; "detector_version"; "adapter_source";
   "confidence_state"; "verification_status"; "scan_mode"; "evidence_version"].
Definition hasRepoFindingEvidence (m : option (gmap string evidence)) : bool :=
  existsb (λ key, bool_decide (is_Some (lookup_evidence m key))) evidence_keys.

Definition isset {A} (p : option A) : bool := match p with Some _ => true | None => false end.
Definition nonempty_string (s : string) : bool := negb (bool_decide (s = "")).
Definition has_fields (f : RepoFinding) : bool :=
  existsb nonempty_string
    [RF_Repository f; RF_Commit f; RF_FilePath f; RF_Detector f; RF_LineSnippet f; RF_LifecycleKey f;
     RF_LifecycleStatus f; RF_Owner f; RF_RuleVersion f; RF_DetectorVersion f; RF_AdapterSource f;
     RF_ConfidenceState f; RF_VerificationStatus f; RF_ScanMode f; RF_EvidenceVersion f] ||
  (0 <? RF_LineNumber f) || isset (RF_LineSnippetRedacted f) ||
  existsb isset [RF_FirstSeenAt f; RF_LastSeenAt f; RF_FixedAt f; RF_ReopenedAt f; RF_DismissedAt f;
                 RF_SuppressionExpiresAt f].

Definition NormalizeRepoFindingLifecycleStatus (raw : string) : string :=
  if bool_decide (canon raw ∈ lifecycle_statuses) then canon raw else "".

Definition fill_line_number (f : RepoFinding) : Z :=
  let n := boundedEvidenceLineNumber (RF_LineNumber f) in
  if n =? 0 then EvidenceLineNumberFromAny (lookup_evidence (RF_Evidence f) "line_number") else n.
Definition fill_file_path (f : RepoFinding) : string :=
  let path := or_string (RF_FilePath f) (stringFromAny (lookup_evidence (RF_Evidence f) "file_path")) in
  or_string path (match RF_Path f with [p] => p | _ => "" end).
Definition fill_snippet (f : RepoFinding) : string :=
  or_string (RF_LineSnippet f)
    (first_evidence_string (RF_Evidence f) ["line_snippet"; "redacted_line_snip"; "match_snippet"]).
Definition fill_redacted (f : RepoFinding) : option bool :=
  match RF_LineSnippetRedacted f with
  | Some b => Some b
  | None =>
      match boolFromAny (lookup_evidence (RF_Evidence f) "line_snippet_redacted") with
      | Some b => Some b
      | None =>
          if nonempty_string (stringFromAny (lookup_evidence (RF_Evidence f) "redacted_line_snip")) then Some true
          else if nonempty_string (fill_snippet f) then Some false else None
      end
  end.

(** Empty fields take the value the evidence has for them. *)
Definition fill_fields `{FloatParser} (f : RepoFinding) : RepoFinding :=
  let text := λ s key, or_string s (stringFromAny (lookup_evidence (RF_Evidence f) key)) in
  let time := λ p key, or_time_pointer p (timeFromAny (lookup_evidence (RF_Evidence f) key)) in
  mkRF (RF_ID f) (RF_ScanID f) (RF_Type f) (RF_Severity f)
    (if float_is_zero (RF_ConfidenceScore f)
     then default (RF_ConfidenceScore f) (floatFromAny (lookup_evidence (RF_Evidence f) "confidence_score"))
     else RF_ConfidenceScore f)
    (RF_Actionability f) (RF_Exploitability f) (RF_EvidenceCompleteness f) (RF_Provenance f) (RF_Title f)
    (RF_HumanSummary f) (RF_Path f) (text (RF_Repository f) "repository") (text (RF_Commit f) "commit")
    (fill_file_path f) (fill_line_number f) (text (RF_Detector f) "detector") (fill_snippet f) (fill_redacted f)
    (RF_SourceURL f) (text (RF_LifecycleKey f) "lifecycle_key")
    (or_string (RF_LifecycleStatus f)
       (NormalizeRepoFindingLifecycleStatus (stringFromAny (lookup_evidence (RF_Evidence f) "lifecycle_status"))))
    (or_string (RF_Owner f)
       (first_evidence_string (RF_Evidence f) ["owner"; "owner_hint"; "owner_team"; "codeowners"; "assignee"]))
    (time (RF_FirstSeenAt f) "first_seen_at") (time (RF_LastSeenAt f) "last_seen_at") (time (RF_FixedAt f) "fixed_at")
    (time (RF_ReopenedAt f) "reopened_at") (time (RF_DismissedAt f) "dismissed_at")
    (time (RF_SuppressionExpiresAt f) "suppression_expires_at") (text (RF_RuleVersion f) "rule_version")
    (text (RF_DetectorVersion f) "detector_version") (text (RF_AdapterSource f) "adapter_source")
    (text (RF_ConfidenceState f) "confidence_state") (text (RF_VerificationStatus f) "verification_status")
    (text (RF_ScanMode f) "scan_mode") (text (RF_EvidenceVersion f) "evidence_version") (RF_Evidence f)
    (RF_Remediation f) (RF_CreatedAt f) (RF_Triage f).

(** The identity of a finding across scans. *)
Definition unit_separator : string := String (ascii_of_N 31) "".
Definition RepoFindingLifecycleKey (f : RepoFinding) : string :=
  let ev := λ key, stringFromAny (lookup_evidence (RF_Evidence f) key) in
  let repository := canon (firstNonEmptyString [RF_Repository f; ev "repository"]) in
  let detector := canon (firstNonEmptyString [RF_Detector f; ev "detector"]) in
  let filePath := canon (firstNonEmptyString [RF_FilePath f; ev "file_path"]) in
  let fingerprint := canon (firstNonEmptyString [ev "secret_fingerprint"; ev "match_fingerprint";
                                                 ev "finding_fingerprint"; ev "fingerprint"]) in
  let parts := ["repo_finding"; repository; RF_Type f; detector] in
  if decide (fingerprint = "") then
    let lineNumber := if RF_LineNumber f =? 0
      then EvidenceLineNumberFromAny (lookup_evidence (RF_Evidence f) "line_number") else RF_LineNumber f in
    if nonempty_string filePath || (0 <? lineNumber) || nonempty_string detector
    then Join (parts ++ [filePath; Itoa lineNumber; canon (RF_Title f)]) unit_separator
    else Join (parts ++ [TrimSpace (RF_ID f)]) unit_separator
  else Join (parts ++ ["fingerprint"; fingerprint; filePath]) unit_separator.

(** The defaults of the fields still empty. *)
Definition complete_fields (f : RepoFinding) : RepoFinding :=
  let path := match RF_Path f with [] => if nonempty_string (RF_FilePath f) then [RF_FilePath f] else [] | p => p end in
  let status := or_string (RF_LifecycleStatus f) RepoFindingLifecycleOpen in
  let key := or_string (RF_LifecycleKey f) (RepoFindingLifecycleKey f) in
  let created := if IsZero (RF_CreatedAt f) then None else Some (RF_CreatedAt f) in
  mkRF (RF_ID f) (RF_ScanID f) (RF_Type f) (RF_Severity f) (RF_ConfidenceScore f) (RF_Actionability f)
    (RF_Exploitability f) (RF_EvidenceCompleteness f) (RF_Provenance f) (RF_Title f) (RF_HumanSummary f) path
    (RF_Repository f) (RF_Commit f) (RF_FilePath f) (RF_LineNumber f) (RF_Detector f) (RF_LineSnippet f)
    (RF_LineSnippetRedacted f) (RF_SourceURL f) key status (RF_Owner f) (or_time_pointer (RF_FirstSeenAt f) created)
    (or_time_pointer (RF_LastSeenAt f) created) (RF_FixedAt f)
    (RF_ReopenedAt f) (RF_DismissedAt f) (RF_SuppressionExpiresAt f) (RF_RuleVersion f) (RF_DetectorVersion f)
    (RF_AdapterSource f) (RF_ConfidenceState f) (RF_VerificationStatus f) (RF_ScanMode f) (RF_EvidenceVersion f)
    (RF_Evidence f) (RF_Remediation f) (RF_CreatedAt f) (RF_Triage f).

(** *** Writing the fields back *)
Definition put_evidence (key : string) (v : option evidence) (m : gmap string evidence) : gmap string evidence :=
  match v with Some v => <[key := v]> m | None => m end.
Definition text_evidence (s : string) : option evidence := if decide (s = "") then None else Some (EvString s).
Definition time_evidence (p : option Z) : option evidence :=
  match p with
  | Some t => if IsZero t then None else Some (EvString (Format_RFC3339 t))
  | None => None
  end.
(** The writes, in order; [line_number] is removed when it is not positive. *)
Definition evidence_writes (f : RepoFinding) : list (string * option evidence) :=
  [("repository", text_evidence (RF_Repository f)); ("commit", text_evidence (RF_Commit f));
   ("file_path", text_evidence (RF_FilePath f));
   ("line_number", if 0 <? RF_LineNumber f then Some (EvInt (RF_LineNumber f)) else None);
   ("detector", text_evidence (RF_Detector f));
   ("confidence_score", if float_ltb float_zero (RF_ConfidenceScore f) then Some (EvFloat64 (RF_ConfidenceScore f)) else None);
   ("lifecycle_key", text_evidence (RF_LifecycleKey f));
   ("lifecycle_status", if decide (RF_LifecycleStatus f = "") then None else Some (EvStatus (RF_LifecycleStatus f)));
   ("owner", text_evidence (RF_Owner f)); ("first_seen_at", time_evidence (RF_FirstSeenAt f));
   ("last_seen_at", time_evidence (RF_LastSeenAt f)); ("fixed_at", time_evidence (RF_FixedAt f));
   ("reopened_at", time_evidence (RF_ReopenedAt f)); ("dismissed_at", time_evidence (RF_DismissedAt f));
   ("suppression_expires_at", time_evidence (RF_SuppressionExpiresAt f));
   ("rule_version", text_evidence (RF_RuleVersion f)); ("detector_version", text_evidence (RF_DetectorVersion f));
   ("adapter_source", text_evidence (RF_AdapterSource f)); ("confidence_state", text_evidence (RF_ConfidenceState f));
   ("verification_status", text_evidence (RF_VerificationStatus f)); ("scan_mode", text_evidence (RF_ScanMode f));
   ("evidence_version", text_evidence (RF_EvidenceVersion f)); ("line_snippet", text_evidence (RF_LineSnippet f));
   ("redacted_line_snip", match RF_LineSnippetRedacted f with Some true => text_evidence (RF_LineSnippet f) | _ => None end);
   ("line_snippet_redacted", EvBool <$> RF_LineSnippetRedacted f)].
Definition write_evidence (f : RepoFinding) (m : gmap string evidence) : gmap string evidence :=
  foldl (λ m '(key, v), put_evidence key v m) (delete "line_number" m) (evidence_writes f).

Definition with_evidence (m : option (gmap string evidence)) (f : RepoFinding) : RepoFinding :=
  mkRF (RF_ID f) (RF_ScanID f) (RF_Type f) (RF_Severity f) (RF_ConfidenceScore f) (RF_Actionability f)
    (RF_Exploitability f) (RF_EvidenceCompleteness f) (RF_Provenance f) (RF_Title f) (RF_HumanSummary f) (RF_Path f)
    (RF_Repository f) (RF_Commit f) (RF_FilePath f) (RF_LineNumber f) (RF_Detector f) (RF_LineSnippet f)
    (RF_LineSnippetRedacted f) (RF_SourceURL f) (RF_LifecycleKey f) (RF_LifecycleStatus f) (RF_Owner f)
    (RF_FirstSeenAt f) (RF_LastSeenAt f) (RF_FixedAt f) (RF_ReopenedAt f) (RF_DismissedAt f)
    (RF_SuppressionExpiresAt f) (RF_RuleVersion f) (RF_DetectorVersion f)
    (RF_AdapterSource f) (RF_ConfidenceState f) (RF_VerificationStatus f) (RF_ScanMode f) (RF_EvidenceVersion f)
    m (RF_Remediation f) (RF_CreatedAt f) (RF_Triage f).
Definition sync_evidence (hadFields : bool) (f : RepoFinding) : RepoFinding :=
  match RF_Evidence f with
  | Some m => with_evidence (Some (write_evidence f m)) f
  | None =>
      if hadFields || nonempty_string (RF_FilePath f) || nonempty_string (RF_LineSnippet f)
      then with_evidence (Some (write_evidence f ∅)) f else f
  end.

(** The finding has repository metadata, or a type that must have some. *)
Definition is_repo_finding (f : RepoFinding) : bool :=
  has_fields f || hasRepoFindingEvidence (RF_Evidence f) || bool_decide (RF_Type f = FindingSecretExposure) ||
  bool_decide (RF_Type f = FindingRepoMisconfig).
Definition NormalizeRepoFindingMetadata `{FloatParser} (f : RepoFinding) : RepoFinding :=
  if is_repo_finding f then sync_evidence (has_fields f) (complete_fields (fill_fields f)) else f.

(** ** The operator's triage over the scanner's lifecycle *)
Definition with_lifecycle (status owner : string) (firstSeenAt lastSeenAt fixedAt reopenedAt dismissedAt expiresAt : option Z)
    (f : RepoFinding) : RepoFinding :=
  mkRF (RF_ID f) (RF_ScanID f) (RF_Type f) (RF_Severity f) (RF_ConfidenceScore f) (RF_Actionability f)
    (RF_Exploitability f) (RF_EvidenceCompleteness f) (RF_Provenance f) (RF_Title f) (RF_HumanSummary f) (RF_Path f)
    (RF_Repository f) (RF_Commit f) (RF_FilePath f) (RF_LineNumber f) (RF_Detector f) (RF_LineSnippet f)
    (RF_LineSnippetRedacted f) (RF_SourceURL f) (RF_LifecycleKey f) status owner firstSeenAt lastSeenAt fixedAt
    reopenedAt dismissedAt expiresAt (RF_RuleVersion f) (RF_DetectorVersion f)
    (RF_AdapterSource f) (RF_ConfidenceState f) (RF_VerificationStatus f) (RF_ScanMode f) (RF_EvidenceVersion f)
    (RF_Evidence f) (RF_Remediation f) (RF_CreatedAt f) (RF_Triage f).

Definition ApplyRepoFindingTriageToLifecycle (f : RepoFinding) : RepoFinding :=
  let triage := RF_Triage f in
  let owner := or_string (RF_Owner f) (TrimSpace (Triage_Assignee triage)) in
  if decide (Triage_Status triage = FindingLifecycleSuppressed) then
    with_lifecycle RepoFindingLifecycleSuppressed owner (RF_FirstSeenAt f) (RF_LastSeenAt f) (RF_FixedAt f)
      (RF_ReopenedAt f) (or_time_pointer (RF_DismissedAt f) (Triage_UpdatedAt triage))
      (Triage_SuppressionExpiresAt triage) f
  else if decide (Triage_Status triage = FindingLifecycleResolved) then
    let status := if bool_decide (RF_LifecycleStatus f ∈ [""; RepoFindingLifecycleOpen; RepoFindingLifecycleReopened])
      then RepoFindingLifecycleFixed else RF_LifecycleStatus f in
    with_lifecycle status owner (RF_FirstSeenAt f) (RF_LastSeenAt f)
      (or_time_pointer (RF_FixedAt f) (Triage_ResolvedAt triage)) (RF_ReopenedAt f) (RF_DismissedAt f)
      (RF_SuppressionExpiresAt f) f
  else
    with_lifecycle (RF_LifecycleStatus f) owner (RF_FirstSeenAt f) (RF_LastSeenAt f) (RF_FixedAt f) (RF_ReopenedAt f)
      (RF_DismissedAt f) (RF_SuppressionExpiresAt f) f.

(** ** Facts *)

(** What the writes leave in the map. *)
Lemma lookup_writes (ws : list (string * option evidence)) m key :
  NoDup ws.*1 →
  foldl (λ m '(key, v), put_evidence key v m) m ws !! key =
  match snd <$> list_find (λ kv, kv.1 = key) ws with Some (_, Some v) => Some v | _ => m !! key end.
Proof.
  revert m. induction ws as [|[k v] ws IH]; intros m Hnd; [done|]. cbn in Hnd. apply NoDup_cons in Hnd as [Hk Hnd].
  cbn [foldl list_find fst]. rewrite (IH _ Hnd). case_decide as E; cbn.
  - subst k. destruct (list_find _ ws) as [[i [k' v']]|] eqn:F; cbn.
    + apply list_find_Some in F as (F & E & _). cbn in E. subst k'. destruct Hk.
      apply list_elem_of_fmap. exists (key, v'). split; [done|]. by eapply list_elem_of_lookup_2.
    + destruct v; cbn; [apply lookup_insert_eq|done].
  - destruct (list_find _ ws) as [[i [k' [v'|]]]|] eqn:F; cbn; try done; destruct v; cbn; by rewrite ?lookup_insert_ne.
Qed.

Lemma evidence_writes_NoDup f : NoDup (evidence_writes f).*1.
Proof. apply (bool_decide_unpack _). by vm_compute. Qed.

(** What is written under a key, if the key is one the code writes. *)
Definition write_of (f : RepoFinding) (key : string) : option (option evidence) :=
  (λ x, x.2.2) <$> list_find (λ kv, kv.1 = key) (evidence_writes f).
Lemma lookup_write_evidence f m key :
  write_evidence f m !! key =
  match write_of f key with
  | Some (Some v) => Some v
  | _ => if decide (key = "line_number") then None else m !! key
  end.
Proof.
  unfold write_evidence, write_of. rewrite lookup_writes by apply evidence_writes_NoDup.
  destruct (list_find _ _) as [[i [k [v|]]]|]; cbn; try done.
  all: case_decide as E; [subst key; apply lookup_delete_eq|by rewrite lookup_delete_ne by done].
Qed.

Lemma write_evidence_idemp f m : write_evidence f (write_evidence f m) = write_evidence f m.
Proof.
  apply map_eq. intros key. rewrite !lookup_write_evidence. destruct (write_of f key) as [[v|]|]; try done; by case_decide.
Qed.

Lemma or_string_nonempty s t : s ≠ "" → or_string s t = s.
Proof. unfold or_string. by case_decide. Qed.
Lemma or_string_empty s t : or_string s t = "" → s = "" ∧ t = "".
Proof. unfold or_string. by case_decide. Qed.
Lemma or_time_Some p q t : p = Some t → or_time_pointer p q = Some t.
Proof. by intros ->. Qed.

Lemma RepoFindingLifecycleKey_nonempty f : RepoFindingLifecycleKey f ≠ "".
Proof. unfold RepoFindingLifecycleKey. repeat case_decide; repeat case_match; by cbn [app Join]; intros [=]. Qed.

Lemma bounded_range z : 0 ≤ boundedEvidenceLineNumber z ≤ MaxInt32.
Proof. unfold boundedEvidenceLineNumber, MaxInt32. destruct (_ || _) eqn:E; boolify; lia. Qed.
Lemma bounded_id z : 0 ≤ z ≤ MaxInt32 → boundedEvidenceLineNumber z = z.
Proof. unfold boundedEvidenceLineNumber, MaxInt32. intros. destruct (_ || _) eqn:E; [|done]. apply orb_true_iff in E as [E|E]; boolify; lia. Qed.
Lemma EvidenceLineNumber_range v : 0 ≤ EvidenceLineNumberFromAny v ≤ MaxInt32.
Proof.
  assert (0 ≤ 0 ≤ MaxInt32) by (unfold MaxInt32; lia).
  destruct v as [[]|]; cbn; try done; try apply bounded_range.
  - destruct (ParseInt32 _); [apply bounded_range|done].
  - unfold boundedEvidenceLineNumberFloat. destruct (float_to_int f); [apply bounded_range|done].
  - destruct (ParseInt32 _); [apply bounded_range|done].
Qed.
Lemma fill_line_number_range f : 0 ≤ fill_line_number f ≤ MaxInt32.
Proof. unfold fill_line_number. case_match; [apply EvidenceLineNumber_range|apply bounded_range]. Qed.

(** *** Normalizing twice

    A field that is empty after normalization found nothing in the evidence, and
    nothing is written under its key; so it stays empty. *)
Section idempotence.
Context `{FloatParser}.

Lemma keep_text (m0 : option (gmap string evidence)) (m : gmap string evidence) s key :
  let s' := or_string s (stringFromAny (lookup_evidence m0 key)) in
  (s' = "" → m !! key = lookup_evidence m0 key) → or_string s' (stringFromAny (m !! key)) = s'.
Proof.
  intros s' Hm. unfold or_string at 1. case_decide as E; [|done]. rewrite (Hm E).
  subst s'. apply or_string_empty in E as [-> E]. by rewrite E.
Qed.
Lemma keep_time_default (m0 : option (gmap string evidence)) (m : gmap string evidence) p q key :
  let p' := or_time_pointer (or_time_pointer p (timeFromAny (lookup_evidence m0 key))) q in
  (p' = None → m !! key = lookup_evidence m0 key) → or_time_pointer p' (timeFromAny (m !! key)) = p'.
Proof.
  intros p' Hm. destruct p' as [t|] eqn:E; [done|]. cbn. rewrite (Hm eq_refl).
  subst p'. by destruct p; [|destruct (timeFromAny _)].
Qed.
Lemma keep_time (m0 : option (gmap string evidence)) (m : gmap string evidence) p key :
  let p' := or_time_pointer p (timeFromAny (lookup_evidence m0 key)) in
  (p' = None → m !! key = lookup_evidence m0 key) → or_time_pointer p' (timeFromAny (m !! key)) = p'.
Proof.
  intros p' Hm. destruct p' as [t|] eqn:E; [done|]. cbn. rewrite (Hm eq_refl). by destruct p.
Qed.

(** The evidence map the writes start from. *)
Definition base_evidence (f : RepoFinding) : gmap string evidence := default ∅ (RF_Evidence f).
Lemma lookup_base f key : base_evidence f !! key = lookup_evidence (RF_Evidence f) key.
Proof. unfold lookup_evidence, base_evidence. by destruct (RF_Evidence f); cbn; [|rewrite lookup_empty]. Qed.

Lemma unwritten f g key :
  (write_of g key = None ∨ write_of g key = Some None) → key ≠ "line_number" →
  write_evidence g (base_evidence f) !! key = lookup_evidence (RF_Evidence f) key.
Proof. intros [Hw|Hw] Hk; by rewrite lookup_write_evidence, Hw, decide_False, lookup_base. Qed.

Definition settled (f : RepoFinding) : RepoFinding :=
  let g := complete_fields (fill_fields f) in with_evidence (Some (write_evidence g (base_evidence f))) g.

(** Nothing is written under the key of an empty field. *)
Lemma not_written g key (v : option evidence) :
  write_of g key = Some v → v = None → write_of g key = None ∨ write_of g key = Some None.
Proof. intros -> ->. by right. Qed.
Lemma text_evidence_empty s : s = "" → text_evidence s = None.
Proof. by intros ->. Qed.
Lemma time_evidence_nil p : p = None → time_evidence p = None.
Proof. by intros ->. Qed.

Ltac keep_field f m Hm :=
  match goal with
  | |- or_string (?X ?g) (stringFromAny (lookup_evidence (Some m) ?key)) = _ =>
      apply (keep_text (RF_Evidence f) m (X f) key); intros E; apply Hm; [|done];
      apply (not_written g key (text_evidence (X g))); [reflexivity|apply text_evidence_empty, E]
  | |- or_time_pointer (?X ?g) (timeFromAny (lookup_evidence (Some m) ?key)) = _ =>
      first [apply (keep_time (RF_Evidence f) m (X f) key)
            |apply (keep_time_default (RF_Evidence f) m (X f) (if IsZero (RF_CreatedAt f) then None else Some (RF_CreatedAt f)) key)];
      intros E; apply Hm; [|done];
      apply (not_written g key (time_evidence (X g))); [reflexivity|apply time_evidence_nil, E]
  end.

(** The evidence [m] has what [f]'s had, but for what was written into it. *)
Definition agrees (f : RepoFinding) (m : gmap string evidence) : Prop :=
  let g := complete_fields (fill_fields f) in
  (∀ key, write_of g key = None ∨ write_of g key = Some None → key ≠ "line_number" → m !! key = lookup_evidence (RF_Evidence f) key) ∧
  (write_of g "line_number" = Some None → m !! "line_number" = None).
Lemma write_evidence_agrees f : agrees f (write_evidence (complete_fields (fill_fields f)) (base_evidence f)).
Proof.
  split; [intros; by apply unwritten|]. intros E. by rewrite lookup_write_evidence, E.
Qed.

Lemma confidence_stable s v :
  let c := if float_is_zero s then default s (floatFromAny v) else s in
  float_is_zero c = true → default c (floatFromAny v) = c.
Proof. intros c. subst c. destruct (float_is_zero s) eqn:E; [by destruct (floatFromAny v)|by rewrite E]. Qed.

Ltac unwritten_key := eapply not_written; [reflexivity|].

Section kept.
Context (f : RepoFinding) (m : gmap string evidence) (Hagrees : agrees f m).
Let g := complete_fields (fill_fields f).
Let g' := with_evidence (Some m) g.
Let Hm := proj1 Hagrees.

Lemma keep_confidence :
  (if float_is_zero (RF_ConfidenceScore g)
   then default (RF_ConfidenceScore g) (floatFromAny (lookup_evidence (Some m) "confidence_score"))
   else RF_ConfidenceScore g) = RF_ConfidenceScore g.
Proof.
  destruct (float_is_zero (RF_ConfidenceScore g)) eqn:E; [|done].
  change (lookup_evidence (Some m) "confidence_score") with (m !! "confidence_score"). rewrite Hm; [| |done].
  - by apply confidence_stable.
  - unwritten_key. apply float_is_zero_spec in E as [s E].
    change (RF_ConfidenceScore (complete_fields (fill_fields f))) with (RF_ConfidenceScore g). rewrite E. by destruct s.
Qed.

Lemma keep_file_path : fill_file_path g' = RF_FilePath g.
Proof.
  unfold fill_file_path. change (RF_FilePath g') with (RF_FilePath g).
  destruct (decide (RF_FilePath g = "")) as [E|E]; [|by rewrite !(or_string_nonempty (RF_FilePath g)) by done].
  change (lookup_evidence (RF_Evidence g') "file_path") with (m !! "file_path"). rewrite Hm; [| |done].
  - change (RF_FilePath g) with (fill_file_path f) in *. change (RF_Path g') with (RF_Path g). rewrite E.
    unfold fill_file_path in E. apply or_string_empty in E as [[E1 E2]%or_string_empty E3]. rewrite E2.
    cbn. destruct (RF_Path f) as [|p [|]] eqn:F; cbn in *; try done.
    change (fill_file_path f) with (or_string (or_string (RF_FilePath f) (stringFromAny (lookup_evidence (RF_Evidence f) "file_path")))
      (match RF_Path f with [p] => p | _ => "" end)). by rewrite E1, E2, F.
  - unwritten_key. by apply text_evidence_empty.
Qed.

Lemma keep_line_number : fill_line_number g' = RF_LineNumber g.
Proof.
  unfold fill_line_number at 1. change (RF_LineNumber g') with (fill_line_number f).
  change (RF_LineNumber g) with (fill_line_number f). rewrite bounded_id by apply fill_line_number_range.
  destruct (fill_line_number f =? 0) eqn:E; [|done]. apply Z.eqb_eq in E. rewrite E.
  change (lookup_evidence (RF_Evidence g') "line_number") with (m !! "line_number").
  rewrite (proj2 Hagrees); [done|]. change (RF_LineNumber g) with (fill_line_number f).
  transitivity (Some (if 0 <? fill_line_number f then Some (EvInt (fill_line_number f)) else None)); [reflexivity|].
  by rewrite E.
Qed.

Lemma keep_strings keys :
  Forall (λ key, write_of g key = None ∨ write_of g key = Some None) keys → "line_number" ∉ keys →
  first_evidence_string (Some m) keys = first_evidence_string (RF_Evidence f) keys.
Proof.
  induction 1 as [|key keys Hk _ IH]; intros Hnot; [done|]. apply not_elem_of_cons in Hnot as [Hne Hnot].
  cbn [first_evidence_string]. rewrite (IH Hnot). by rewrite <-(Hm key Hk (not_eq_sym Hne)).
Qed.

Lemma keep_snippet : fill_snippet g' = RF_LineSnippet g.
Proof.
  unfold fill_snippet at 1. change (RF_LineSnippet g') with (RF_LineSnippet g).
  destruct (decide (RF_LineSnippet g = "")) as [E|E]; [|by apply or_string_nonempty].
  change (RF_Evidence g') with (Some m). rewrite keep_strings.
  - rewrite E. change (RF_LineSnippet g) with (fill_snippet f) in E. by apply or_string_empty in E as [_ ->].
  - rewrite !Forall_cons, Forall_nil. split; [unwritten_key|split; [unwritten_key|split; [by left|done]]].
    + by apply text_evidence_empty.
    + change (RF_LineSnippet (complete_fields (fill_fields f))) with (RF_LineSnippet g).
      rewrite E. by destruct (RF_LineSnippetRedacted _) as [[]|].
  - by apply (bool_decide_unpack _).
Qed.

Lemma keep_redacted : fill_redacted g' = RF_LineSnippetRedacted g.
Proof.
  unfold fill_redacted at 1. rewrite keep_snippet. change (RF_LineSnippetRedacted g') with (RF_LineSnippetRedacted g).
  destruct (RF_LineSnippetRedacted g) eqn:E; [done|].
  change (RF_Evidence g') with (Some m).
  change (lookup_evidence (Some m) "line_snippet_redacted") with (m !! "line_snippet_redacted").
  change (lookup_evidence (Some m) "redacted_line_snip") with (m !! "redacted_line_snip").
  rewrite !Hm; [|unwritten_key|done|unwritten_key|done].
  - change (RF_LineSnippetRedacted g) with (fill_redacted f) in E. change (RF_LineSnippet g) with (fill_snippet f).
    unfold fill_redacted in E. destruct (RF_LineSnippetRedacted f); [done|]. exact E.
  - change (RF_LineSnippetRedacted (complete_fields (fill_fields f))) with (RF_LineSnippetRedacted g). by rewrite E.
  - change (RF_LineSnippetRedacted (complete_fields (fill_fields f))) with (RF_LineSnippetRedacted g). by rewrite E.
Qed.

Lemma keep_owner :
  or_string (RF_Owner g) (first_evidence_string (Some m) ["owner"; "owner_hint"; "owner_team"; "codeowners"; "assignee"])
  = RF_Owner g.
Proof.
  destruct (decide (RF_Owner g = "")) as [E|E]; [|by apply or_string_nonempty].
  rewrite keep_strings, E.
  - change (RF_Owner g) with (or_string (RF_Owner f) (first_evidence_string (RF_Evidence f)
      ["owner"; "owner_hint"; "owner_team"; "codeowners"; "assignee"])) in E. by apply or_string_empty in E as [_ ->].
  - rewrite !Forall_cons, Forall_nil. split; [unwritten_key; by apply text_evidence_empty|]. split_and!; [by left..|done].
  - by apply (bool_decide_unpack _).
Qed.
End kept.

Lemma fill_settled f : fill_fields (settled f) = settled f.
Proof.
  unfold settled. pose proof (write_evidence_agrees f) as Ha. pose proof (proj1 Ha) as Hm.
  set (g := complete_fields (fill_fields f)) in *. set (m := write_evidence g (base_evidence f)) in *.
  clearbody m. unfold fill_fields, with_evidence. f_equal.
  all: cbn [RF_Repository RF_Commit RF_FilePath RF_Evidence RF_ConfidenceScore RF_Detector RF_LifecycleKey
    RF_LifecycleStatus RF_Owner RF_FirstSeenAt RF_LastSeenAt RF_FixedAt RF_ReopenedAt RF_DismissedAt
    RF_SuppressionExpiresAt RF_RuleVersion RF_DetectorVersion RF_AdapterSource RF_ConfidenceState RF_VerificationStatus
    RF_ScanMode RF_EvidenceVersion].
  all: try keep_field f m Hm.
  all: try by apply (keep_confidence f m Ha).
  all: try by apply (keep_file_path f m Ha).
  all: try by apply (keep_line_number f m Ha).
  - by apply (keep_snippet f m Ha).
  - by apply (keep_redacted f m Ha).
  - apply or_string_nonempty. unfold g, complete_fields. cbn [RF_LifecycleKey]. unfold or_string at 1.
    case_decide; [apply RepoFindingLifecycleKey_nonempty|done].
  - apply or_string_nonempty. unfold g, complete_fields. cbn [RF_LifecycleStatus]. unfold or_string at 1.
    by case_decide.
  - by apply (keep_owner f m Ha).
Qed.

Lemma complete_complete f m :
  complete_fields (with_evidence m (complete_fields f)) = with_evidence m (complete_fields f).
Proof.
  unfold complete_fields at 1 3, with_evidence. f_equal.
  - cbn. destruct (RF_Path f); [|done]. by destruct (nonempty_string (RF_FilePath f)).
  - cbn [RF_LifecycleKey complete_fields]. apply or_string_nonempty. unfold or_string. case_decide; [apply RepoFindingLifecycleKey_nonempty|done].
  - cbn. apply or_string_nonempty. unfold or_string. by case_decide.
  - cbn. by destruct (RF_FirstSeenAt f), (IsZero (RF_CreatedAt f)).
  - cbn. by destruct (RF_LastSeenAt f), (IsZero (RF_CreatedAt f)).
Qed.

Lemma complete_settled f : complete_fields (settled f) = settled f.
Proof. apply complete_complete. Qed.

(** What normalization gives a finding with metadata. *)
Lemma normalize_settled f :
  has_fields f || hasRepoFindingEvidence (RF_Evidence f) = true → NormalizeRepoFindingMetadata f = settled f.
Proof.
  intros Hf. unfold NormalizeRepoFindingMetadata, is_repo_finding. rewrite Hf. cbn [orb]. unfold sync_evidence, settled.
  change (RF_Evidence (complete_fields (fill_fields f))) with (RF_Evidence f). unfold base_evidence.
  destruct (RF_Evidence f) eqn:E; [done|]. cbn [default].
  destruct (has_fields f); [done|]. exfalso. revert Hf. by vm_compute.
Qed.
Lemma settled_has_fields f : has_fields (settled f) = true.
Proof.
  unfold has_fields. apply orb_true_iff. left. apply orb_true_iff. left. apply orb_true_iff. left. apply existsb_exists. exists (RF_LifecycleStatus (settled f)).
  split; [cbn -[settled]; tauto|]. unfold nonempty_string. apply negb_true_iff, bool_decide_eq_false.
  unfold settled, with_evidence, complete_fields. cbn [RF_LifecycleStatus]. unfold or_string at 1. by case_decide.
Qed.

(** Normalizing a finding that has any repository metadata is idempotent: a
    row read back and normalized again is the row that was stored.  (A finding
    with none, but of a repository type, only gets its metadata the first
    time and its evidence the second.) *)
Theorem NormalizeRepoFindingMetadata_idemp f
    (Hmetadata : has_fields f || hasRepoFindingEvidence (RF_Evidence f) = true) :
  NormalizeRepoFindingMetadata (NormalizeRepoFindingMetadata f) = NormalizeRepoFindingMetadata f.
Proof.
  rewrite (normalize_settled f) by done. rewrite normalize_settled by (by rewrite settled_has_fields).
  unfold settled at 1. rewrite fill_settled, complete_settled.
  change (base_evidence (settled f)) with (write_evidence (settled f) (base_evidence f)).
  rewrite write_evidence_idemp. done.
Qed.

(** *** Fields normalization keeps *)
Lemma normalize_ID f : RF_ID (NormalizeRepoFindingMetadata f) = RF_ID f.
Proof. unfold NormalizeRepoFindingMetadata, sync_evidence. repeat case_match; reflexivity. Qed.
Lemma normalize_ScanID f : RF_ScanID (NormalizeRepoFindingMetadata f) = RF_ScanID f.
Proof. unfold NormalizeRepoFindingMetadata, sync_evidence. repeat case_match; reflexivity. Qed.
Lemma normalize_CreatedAt f : RF_CreatedAt (NormalizeRepoFindingMetadata f) = RF_CreatedAt f.
Proof. unfold NormalizeRepoFindingMetadata, sync_evidence. repeat case_match; reflexivity. Qed.
Lemma normalize_Repository f : RF_Repository f ≠ "" → RF_Repository (NormalizeRepoFindingMetadata f) = RF_Repository f.
Proof.
  intros Hf. unfold NormalizeRepoFindingMetadata, sync_evidence. repeat case_match; cbn; try done; by apply or_string_nonempty.
Qed.
Lemma normalize_LifecycleKey f : RF_LifecycleKey f ≠ "" → RF_LifecycleKey (NormalizeRepoFindingMetadata f) = RF_LifecycleKey f.
Proof.
  intros Hf. unfold NormalizeRepoFindingMetadata, sync_evidence.
  repeat case_match; cbn; try done; by rewrite !(or_string_nonempty (RF_LifecycleKey f)).
Qed.
Lemma normalize_LifecycleStatus f :
  RF_LifecycleStatus f ≠ "" → RF_LifecycleStatus (NormalizeRepoFindingMetadata f) = RF_LifecycleStatus f.
Proof.
  intros Hf. unfold NormalizeRepoFindingMetadata, sync_evidence.
  repeat case_match; cbn; try done; by rewrite !(or_string_nonempty (RF_LifecycleStatus f)).
Qed.
Lemma normalize_FirstSeenAt f t :
  RF_FirstSeenAt f = Some t → RF_FirstSeenAt (NormalizeRepoFindingMetadata f) = Some t.
Proof. intros Hf. unfold NormalizeRepoFindingMetadata, sync_evidence. repeat case_match; cbn; by rewrite Hf. Qed.
Lemma normalize_LastSeenAt f t :
  RF_LastSeenAt f = Some t → RF_LastSeenAt (NormalizeRepoFindingMetadata f) = Some t.
Proof. intros Hf. unfold NormalizeRepoFindingMetadata, sync_evidence. repeat case_match; cbn; by rewrite Hf. Qed.
Lemma normalize_FixedAt f t : RF_FixedAt f = Some t → RF_FixedAt (NormalizeRepoFindingMetadata f) = Some t.
Proof. intros Hf. unfold NormalizeRepoFindingMetadata, sync_evidence. repeat case_match; cbn; by rewrite Hf. Qed.
Lemma normalize_AdapterSource f :
  RF_AdapterSource f ≠ "" → RF_AdapterSource (NormalizeRepoFindingMetadata f) = RF_AdapterSource f.
Proof.
  intros Hf. unfold NormalizeRepoFindingMetadata, sync_evidence. repeat case_match; cbn; try done; by apply or_string_nonempty.
Qed.

(** A finding with a key has metadata. *)
Lemma keyed_metadata f : RF_LifecycleKey f ≠ "" → has_fields f = true.
Proof.
  intros Hf. unfold has_fields. cbn [existsb]. unfold nonempty_string.
  by rewrite (bool_decide_eq_false_2 _ Hf), !orb_true_r.
Qed.

(** Normalization finds no later time in what a first one left. *)
Lemma normalize_LastSeenAt_again f h :
  RF_LifecycleKey (NormalizeRepoFindingMetadata f) ≠ "" →
  RF_LastSeenAt h = RF_LastSeenAt (NormalizeRepoFindingMetadata f) →
  RF_Evidence h = RF_Evidence (NormalizeRepoFindingMetadata f) → RF_CreatedAt h = RF_CreatedAt f →
  RF_LastSeenAt (NormalizeRepoFindingMetadata h) = RF_LastSeenAt (NormalizeRepoFindingMetadata f).
Proof.
  intros Hkey Hlast Hev Hcreated. destruct (RF_LastSeenAt (NormalizeRepoFindingMetadata f)) as [t|] eqn:E.
  { by apply normalize_LastSeenAt. }
  assert (timeFromAny (lookup_evidence (RF_Evidence h) "last_seen_at") = None ∧ IsZero (RF_CreatedAt h) = true) as [Ht Hz].
  { rewrite Hev, Hcreated. unfold NormalizeRepoFindingMetadata in *. destruct (is_repo_finding f) eqn:Hf.
    2: { exfalso. apply keyed_metadata in Hkey. unfold is_repo_finding in Hf. by rewrite Hkey in Hf. }
    set (g := complete_fields (fill_fields f)) in *. assert (RF_LastSeenAt g = None) as Hg.
    { revert E. unfold sync_evidence. by repeat case_match. }
    assert (timeFromAny (lookup_evidence (RF_Evidence f) "last_seen_at") = None ∧ IsZero (RF_CreatedAt f) = true) as [Hf0 ?].
    { unfold g, complete_fields, fill_fields in Hg. cbn in Hg.
      destruct (RF_LastSeenAt f), (timeFromAny _), (IsZero _); done. }
    split; [|done]. unfold sync_evidence. change (RF_Evidence g) with (RF_Evidence f).
    assert (timeFromAny (write_evidence g (base_evidence f) !! "last_seen_at") = None) as Hw.
    { rewrite unwritten; [done| |done]. eapply not_written; [reflexivity|]. by rewrite Hg. }
    unfold base_evidence in Hw. destruct (RF_Evidence f) eqn:Ev; [exact Hw|]. destruct (_ || _); [exact Hw|].
    change (RF_Evidence g) with (RF_Evidence f). by rewrite Ev. }
  unfold NormalizeRepoFindingMetadata, sync_evidence.
  repeat case_match; cbn; rewrite ?Hlast, ?Ht, ?Hz; done.
Qed.
End idempotence.

Lemma NormalizeRepoFindingMetadata_idemp_witness :
  let parse := {| parse_float _ := None |} in
  let f := mkRF "a" "r1" "secret_exposure" "high" float_zero "" "" "" "" "t" "" [] " acme/app " "" "config.yml" 0 "detector" "" None
    "" " key " "" "" None None None None None None "" "" "" "" "" "" "" (Some {["branch" := EvString "main"]}) "" 5
    (mkTriage "" "" None None None "") in
  let g := @NormalizeRepoFindingMetadata parse f in
  @NormalizeRepoFindingMetadata parse g = g ∧ g ≠ f.
Proof.
  intros parse f g. split.
  - apply (@NormalizeRepoFindingMetadata_idemp parse f). by vm_compute.
  - intros E. apply (f_equal RF_LifecycleStatus) in E. by vm_compute in E.
Defined.
