(* ===== verification/RepoScanRecords.v ===== *)
(** * Records of repository scans (internal/db/store.go)

    Scans of a repository, the context of an incremental scan, how completely a
    scan could read its sources, and the cursors successful scans leave; with
    the normalizers of each and the rules for when the absence of a finding
    means it was fixed. *)
From S2P Require Import Prelude GoStrings GoCollections GoText GoTime RepoFindings.

Definition ErrPendingRepoScanExists : error := Sentinel "pending repo scan exists".

Definition RepoScanModeDeep : string := "deep".
Definition RepoScanModeDelta : string := "delta".
Definition RepoScanModeQuick : string := "quick".
Definition validRepoScanModes : list string := [RepoScanModeDeep; RepoScanModeDelta; RepoScanModeQuick].

(** ** Source health *)
Definition RepoScanSourceHealthComplete : string := "complete".
Definition RepoScanSourceHealthPartial : string := "partial".
Definition RepoScanSourceHealthPermissionLimited : string := "permission_limited".
Definition RepoScanSourceHealthRateLimited : string := "rate_limited".
Definition RepoScanSourceHealthUnavailable : string := "unavailable".
Definition RepoScanSourceHealthUnknown : string := "unknown".

Record RepoScanSourceHealth := mkHealth {
  Health_Source : string;
  Health_Status : string;
  Health_Code : string;
  Health_Message : string;
  Health_Retryable : bool;
}.
#[export] Instance RepoScanSourceHealth_eq_dec : EqDecision RepoScanSourceHealth.
Proof. solve_decision. Defined.

Definition source_health_statuses : list string :=
  [RepoScanSourceHealthComplete; RepoScanSourceHealthPartial; RepoScanSourceHealthPermissionLimited;
   RepoScanSourceHealthRateLimited; RepoScanSourceHealthUnavailable; RepoScanSourceHealthUnknown].
Definition normalizeRepoScanSourceHealthStatus (status : string) : string :=
  if bool_decide (canon status ∈ source_health_statuses) then canon status else "".

Definition repoScanSourceHealthRank (status : string) : Z :=
  let status := normalizeRepoScanSourceHealthStatus status in
  if decide (status = RepoScanSourceHealthPartial) then 5
  else if decide (status = RepoScanSourceHealthPermissionLimited) then 4
  else if decide (status = RepoScanSourceHealthRateLimited) then 3
  else if decide (status = RepoScanSourceHealthUnavailable) then 2
  else if decide (status = RepoScanSourceHealthUnknown) then 1 else 0.

Definition mergeRepoScanSourceHealth (existing incoming : RepoScanSourceHealth) : RepoScanSourceHealth :=
  mkHealth (Health_Source existing)
    (if repoScanSourceHealthRank (Health_Status existing) <? repoScanSourceHealthRank (Health_Status incoming)
     then Health_Status incoming else Health_Status existing)
    (or_string (Health_Code existing) (Health_Code incoming))
    (or_string (Health_Message existing) (Health_Message incoming))
    (Health_Retryable existing || Health_Retryable incoming).

Definition normalize_detail (detail : RepoScanSourceHealth) : RepoScanSourceHealth :=
  mkHealth (or_string (canon (Health_Source detail)) "unknown")
    (or_string (normalizeRepoScanSourceHealthStatus (Health_Status detail)) RepoScanSourceHealthUnknown)
    (canon (Health_Code detail)) (TrimSpace (Health_Message detail)) (Health_Retryable detail).
(** Merge the entry into the one with its source, or add it at the end. *)
Fixpoint merge_detail (item : RepoScanSourceHealth) (normalized : list RepoScanSourceHealth) : list RepoScanSourceHealth :=
  match normalized with
  | [] => [item]
  | d :: normalized =>
      if decide (Health_Source d = Health_Source item) then mergeRepoScanSourceHealth d item :: normalized
      else d :: merge_detail item normalized
  end.
Definition normalizeRepoScanSourceHealthDetails (details : list RepoScanSourceHealth) : list RepoScanSourceHealth :=
  foldl (λ normalized detail, merge_detail (normalize_detail detail) normalized) [] details.

Definition detail_status (detail : RepoScanSourceHealth) : string :=
  or_string (normalizeRepoScanSourceHealthStatus (Health_Status detail)) RepoScanSourceHealthUnknown.
Definition worse_status (worst status : string) : string :=
  if repoScanSourceHealthRank worst <? repoScanSourceHealthRank status then status else worst.
Definition deriveRepoScanSourceHealth (details : list RepoScanSourceHealth) : string :=
  let statuses := detail_status <$> details in
  let worst := foldl worse_status RepoScanSourceHealthComplete statuses in
  let hasComplete := bool_decide (RepoScanSourceHealthComplete ∈ statuses) in
  let distinctDegraded := unique (filter (.≠ RepoScanSourceHealthComplete) statuses) in
  match distinctDegraded with
  | [] => RepoScanSourceHealthComplete
  | [_] => if hasComplete then RepoScanSourceHealthPartial else worst
  | _ => RepoScanSourceHealthPartial
  end.

Definition NormalizeRepoScanSourceHealth (status : string) (details : list RepoScanSourceHealth)
    : string * list RepoScanSourceHealth :=
  let normalizedDetails := normalizeRepoScanSourceHealthDetails details in
  (or_string (normalizeRepoScanSourceHealthStatus status) (deriveRepoScanSourceHealth normalizedDetails), normalizedDetails).

(** ** The context of a scan *)
Record RepoScanContext := mkRepoContext {
  Context_ScanMode : string;
  Context_BaseRevision : string;
  Context_HeadRevision : string;
  Context_CursorBefore : string;
  Context_CursorAfter : string;
  Context_ChangedPaths : list string;
  Context_InconclusiveLifecycleKeys : list string;
  Context_PartialSourceRun : bool;
  Context_SourceHealth : string;
  Context_SourceDetails : list RepoScanSourceHealth;
}.
Definition zero_repo_context : RepoScanContext := mkRepoContext "" "" "" "" "" [] [] false "" [].

Definition valid_mode (mode : string) : string :=
  if bool_decide (canon mode ∈ validRepoScanModes) then canon mode else RepoScanModeDeep.

Definition normalizeRepoScanLifecycleKeys (keys : list string) : list string :=
  SortStrings (unique (nonempty_map TrimSpace keys)).

(** [strings.ReplaceAll(path, "\\", "/")]. *)
Definition backslash : ascii := ascii_of_N 92.
Definition forward_slashes (path : string) : string :=
  of_bytes ((λ c, if decide (c = backslash) then "/"%char else c) <$> bytes path).
(** The path inside the repository, or nothing for one that leaves it. *)
Definition clean_path (path : string) : string :=
  let item := TrimPrefix (TrimPrefix (TrimSpace (forward_slashes path)) "/") "./" in
  if Contains item (String (ascii_of_N 0) "") || HasPrefix item "../" || Contains item "/../" then "" else item.
Definition normalizeRepoScanChangedPaths (paths : list string) : list string :=
  SortStrings (unique (nonempty_map clean_path paths)).

Definition NormalizeRepoScanContext (c : RepoScanContext) : RepoScanContext :=
  let '(health, details) := NormalizeRepoScanSourceHealth (Context_SourceHealth c) (Context_SourceDetails c) in
  mkRepoContext (valid_mode (Context_ScanMode c)) (TrimSpace (Context_BaseRevision c))
    (TrimSpace (Context_HeadRevision c)) (TrimSpace (Context_CursorBefore c)) (TrimSpace (Context_CursorAfter c))
    (normalizeRepoScanChangedPaths (Context_ChangedPaths c))
    (normalizeRepoScanLifecycleKeys (Context_InconclusiveLifecycleKeys c)) (Context_PartialSourceRun c) health details.

(** ** Sources and cursors *)
Record RepoScanSource := mkRepoSource {
  RepoSource_Provider : string;
  RepoSource_ProjectID : string;
  RepoSource_ConnectorID : string;
  RepoSource_InstallationID : Z;
}.
#[export] Instance RepoScanSource_eq_dec : EqDecision RepoScanSource.
Proof. solve_decision. Defined.
Definition no_repo_source : RepoScanSource := mkRepoSource "" "" "" 0.
Definition RepoScanSource_Normalize (s : RepoScanSource) : RepoScanSource :=
  mkRepoSource (canon (RepoSource_Provider s)) (TrimSpace (RepoSource_ProjectID s))
    (TrimSpace (RepoSource_ConnectorID s)) (RepoSource_InstallationID s).
Definition RepoScanSource_Empty (s : RepoScanSource) : bool :=
  bool_decide (RepoScanSource_Normalize s = no_repo_source).

Record RepoScanCursor := mkCursor {
  Cursor_TenantID : string;
  Cursor_WorkspaceID : string;
  Cursor_Repository : string;
  Cursor_Source : RepoScanSource;
  Cursor_LastScannedRevision : string;
  Cursor_LastDeepScannedAt : option Z;
  Cursor_LastScanID : string;
  Cursor_LastScanMode : string;
  Cursor_LastScanCompletedAt : Z;
  Cursor_UpdatedAt : Z;
}.
Definition RepoScanCursor_Normalize (c : RepoScanCursor) : RepoScanCursor :=
  let completed := if IsZero (Cursor_LastScanCompletedAt c) then Cursor_UpdatedAt c else Cursor_LastScanCompletedAt c in
  let updated := if IsZero (Cursor_UpdatedAt c) then completed else Cursor_UpdatedAt c in
  mkCursor (TrimSpace (Cursor_TenantID c)) (TrimSpace (Cursor_WorkspaceID c)) (TrimSpace (Cursor_Repository c))
    (RepoScanSource_Normalize (Cursor_Source c)) (TrimSpace (Cursor_LastScannedRevision c))
    (Cursor_LastDeepScannedAt c) (TrimSpace (Cursor_LastScanID c)) (valid_mode (Cursor_LastScanMode c))
    completed updated.

(** ** Scans *)
Record RepoScanRecord := mkRepoScan {
  RepoScan_ID : string;
  RepoScan_TenantID : string;
  RepoScan_WorkspaceID : string;
  RepoScan_Repository : string;
  RepoScan_Status : string;
  RepoScan_StartedAt : Z;
  RepoScan_FinishedAt : option Z;
  RepoScan_CommitsScanned : Z;
  RepoScan_FilesScanned : Z;
  RepoScan_FindingCount : Z;
  RepoScan_Truncated : bool;
  RepoScan_SourceHealth : string;
  RepoScan_SourceHealthDetails : list RepoScanSourceHealth;
  RepoScan_ScanMode : string;
  RepoScan_BaseRevision : string;
  RepoScan_HeadRevision : string;
  RepoScan_CursorBefore : string;
  RepoScan_CursorAfter : string;
  RepoScan_ChangedPaths : list string;
  RepoScan_ErrorMessage : string;
  RepoScan_HistoryLimit : Z;
  RepoScan_MaxFindings : Z;
  RepoScan_Source : RepoScanSource;
  RepoScan_TraceParent : string;
  RepoScan_TraceState : string;
}.
#[export] Instance RepoScanRecord_eq_dec : EqDecision RepoScanRecord.
Proof. solve_decision. Defined.

(** ** When a missing finding counts as fixed *)
Definition succeeded (status : string) : bool := bool_decide (canon status ∈ ["succeeded"; "completed"]).

(** [firstNonEmptyRepoScanSourceHealth]: the first value that is not blank, as
    it is. *)
Fixpoint firstNonEmptyRepoScanSourceHealth (values : list string) : string :=
  match values with
  | [] => ""
  | value :: values => if blank value then firstNonEmptyRepoScanSourceHealth values else value
  end.

Definition repoScanClosureEligible (status : string) (truncated : bool) (scanContext : RepoScanContext) : bool :=
  let normalizedContext := NormalizeRepoScanContext scanContext in
  succeeded status && negb truncated && bool_decide (Context_ScanMode normalizedContext = "deep") &&
  is_nil (Context_ChangedPaths normalizedContext).
Definition shouldCloseMissingRepoFindings (status : string) (truncated : bool) (scanContext : RepoScanContext) : bool :=
  repoScanClosureEligible status truncated scanContext &&
  negb (Context_PartialSourceRun (NormalizeRepoScanContext scanContext)).
Definition shouldCloseMissingPostureRepoFindings (status : string) (truncated : bool) (scanContext : RepoScanContext) : bool :=
  repoScanClosureEligible status truncated scanContext.

Definition repoFindingPostureCollectionSource (adapterSource : string) : string :=
  if decide (canon adapterSource = "github_posture") then "github_repository_posture"
  else if decide (canon adapterSource = "github_org_posture") then "github_organization_posture"
  else "".

(** The first entry of the source decides. *)
Fixpoint repoScanSourceCollectedComplete (details : list RepoScanSourceHealth) (source : string) : bool :=
  match details with
  | [] => false
  | detail :: details =>
      if EqualFold (TrimSpace (Health_Source detail)) source
      then bool_decide (Health_Status detail = RepoScanSourceHealthComplete)
      else repoScanSourceCollectedComplete details source
  end.

Definition repoScanCompletionSourceHealth (status : string) (c : RepoScanContext) : string * list RepoScanSourceHealth :=
  if negb (succeeded status) then NormalizeRepoScanSourceHealth RepoScanSourceHealthUnavailable (Context_SourceDetails c)
  else if Context_PartialSourceRun c then
    NormalizeRepoScanSourceHealth (or_string (TrimSpace (Context_SourceHealth c)) RepoScanSourceHealthPartial)
      (Context_SourceDetails c)
  else
    NormalizeRepoScanSourceHealth
      (firstNonEmptyRepoScanSourceHealth [Context_SourceHealth c; RepoScanSourceHealthComplete])
      (Context_SourceDetails c).

(** ** How an earlier observation carries over to a new one *)
Definition repoFindingDismissalExpired (now : Z) (snapshot : RepoFinding) (observedAt : Z) : bool :=
  match RF_SuppressionExpiresAt snapshot with
  | None => false
  | Some t =>
      if IsZero t then false
      else negb (After t (if IsZero observedAt then now else observedAt))
  end.

Definition dismissed_statuses : list string :=
  [RepoFindingLifecycleSuppressed; RepoFindingLifecycleRiskAccepted; RepoFindingLifecycleFalsePositive].

(** The finding with its lifecycle instants, and its status. *)
Definition applyRepoFindingLifecycleSnapshot (now : Z) (f snapshot : RepoFinding) (observedAt : Z) : RepoFinding * string :=
  let instants := λ reopenedAt dismissedAt expiresAt,
    with_lifecycle (RF_LifecycleStatus f) (RF_Owner f) (RF_FirstSeenAt f) (RF_LastSeenAt f) (RF_FixedAt f) reopenedAt
      dismissedAt expiresAt f in
  if decide (RF_LifecycleStatus snapshot = RepoFindingLifecycleFixed) then
    (instants (Some observedAt) (RF_DismissedAt f) (RF_SuppressionExpiresAt f), RepoFindingLifecycleReopened)
  else if bool_decide (RF_LifecycleStatus snapshot ∈ dismissed_statuses) then
    if repoFindingDismissalExpired now snapshot observedAt
    then (instants (Some observedAt) None None, RepoFindingLifecycleReopened)
    else (instants (RF_ReopenedAt f) (RF_DismissedAt snapshot) (RF_SuppressionExpiresAt snapshot), RF_LifecycleStatus snapshot)
  else if decide (RF_LifecycleStatus snapshot = RepoFindingLifecycleReopened) then
    (instants (RF_ReopenedAt snapshot) (RF_DismissedAt f) (RF_SuppressionExpiresAt f), RepoFindingLifecycleReopened)
  else (f, RepoFindingLifecycleOpen).

(** [NormalizeFindingTriage]. *)
Definition triage_statuses : list string :=
  [FindingLifecycleOpen; FindingLifecycleAck; FindingLifecycleSuppressed; FindingLifecycleResolved].
Definition NormalizeFindingTriage (t : FindingTriage) (now : Z) : FindingTriage :=
  let status := if bool_decide (Triage_Status t ∈ triage_statuses) then Triage_Status t else FindingLifecycleOpen in
  let expired := bool_decide (status = FindingLifecycleSuppressed) &&
    match Triage_SuppressionExpiresAt t with Some e => negb (After e now) | None => false end in
  let status := if expired then FindingLifecycleOpen else status in
  mkTriage status (Triage_Assignee t)
    (if decide (status = FindingLifecycleSuppressed) then Triage_SuppressionExpiresAt t else None)
    (if decide (status = FindingLifecycleResolved) then Triage_ResolvedAt t else None)
    (Triage_UpdatedAt t) (Triage_UpdatedBy t).
