(* ===== verification/RepoScanStore.v ===== *)
(** * The tables of repository scans (internal/db/memory.go)

    Scans of repositories are rows that move through "queued" and "running" to
    "succeeded" or "failed"; their findings are rows of their own, keyed by scan
    and finding.  Each method runs under the store's mutex.  [uuid.NewString],
    the clock and the trace context of the request are arguments. *)
From S2P Require Import Prelude GoStrings GoCollections GoTime GoFloat GoText Runs Scope ScanQueue RepoFindings RepoScanRecords.

Record RepoScanTables := mkRepoTables {
  repoScans : gmap string RepoScanRecord;
  repoScanIDs : list string;
  repoFindings : gmap string RepoFinding;
  repoFindingIDs : gmap string (list string);
  repoCursors : gmap string RepoScanCursor;
}.
Definition empty_repo_tables : RepoScanTables := mkRepoTables ∅ [] ∅ ∅ ∅.

(** [m.repoScans[id] = record]. *)
Definition put_repo_scan (id : string) (record : RepoScanRecord) (s : RepoScanTables) : RepoScanTables :=
  mkRepoTables (<[id := record]> (repoScans s)) (repoScanIDs s) (repoFindings s) (repoFindingIDs s) (repoCursors s).
Definition with_findings (rows : gmap string RepoFinding) (ids : gmap string (list string)) (s : RepoScanTables)
    : RepoScanTables :=
  mkRepoTables (repoScans s) (repoScanIDs s) rows ids (repoCursors s).

(** The zero [RepoScanRecord]. *)
Definition zero_repo_scan : RepoScanRecord :=
  mkRepoScan "" "" "" "" "" time_zero None 0 0 0 false "" [] "" "" "" "" "" [] "" 0 0 no_repo_source "" "".

(** ** Selecting rows *)
Definition repo_in_scope (scope : Scope) (r : RepoScanRecord) : bool :=
  MatchScope scope (RepoScan_TenantID r) (RepoScan_WorkspaceID r).
Definition status_is (status : string) (r : RepoScanRecord) : bool := bool_decide (RepoScan_Status r = status).
Definition repo_pending (r : RepoScanRecord) : bool := status_is "queued" r || status_is "running" r.

(** The scan [id], when it is in the scope. *)
Definition scoped_repo_scan (scope : Scope) (id : string) (s : RepoScanTables) : result RepoScanRecord :=
  match repoScans s !! id with
  | None => Err ErrNotFound
  | Some r => if repo_in_scope scope r then mret r else Err ErrNotFound
  end.
Definition count_repo_scans (f : RepoScanRecord → bool) (s : RepoScanTables) : Z :=
  Z.of_nat (size (filter (λ '(_, r), f r = true) (repoScans s))).

(** ** Creating rows *)
Definition new_repo_scan (newID : string) (scope : Scope) (repository : string) (source : RepoScanSource)
    (scanContext : RepoScanContext) (status : string) (historyLimit maxFindings startedAt : Z) : RepoScanRecord :=
  let normalizedScope := Scope_Normalize scope in
  let normalizedContext := NormalizeRepoScanContext scanContext in
  mkRepoScan newID (Scope_TenantID normalizedScope) (Scope_WorkspaceID normalizedScope) (TrimSpace repository)
    (TrimSpace status) startedAt None 0 0 0 false RepoScanSourceHealthUnknown [] (Context_ScanMode normalizedContext)
    (Context_BaseRevision normalizedContext) (Context_HeadRevision normalizedContext)
    (Context_CursorBefore normalizedContext) (Context_CursorAfter normalizedContext)
    (Context_ChangedPaths normalizedContext) "" historyLimit maxFindings (RepoScanSource_Normalize source) "" "".
Definition createRepoScanLocked (newID : string) (scope : Scope) (repository : string) (source : RepoScanSource)
    (scanContext : RepoScanContext) (status : string) (historyLimit maxFindings startedAt : Z) (s : RepoScanTables)
    : RepoScanTables * RepoScanRecord :=
  let record := new_repo_scan newID scope repository source scanContext status historyLimit maxFindings startedAt in
  (mkRepoTables (<[newID := record]> (repoScans s)) (repoScanIDs s ++ [newID]) (repoFindings s) (repoFindingIDs s)
     (repoCursors s), record).

Definition with_repo_trace (trace : string * string) (r : RepoScanRecord) : RepoScanRecord :=
  mkRepoScan (RepoScan_ID r) (RepoScan_TenantID r) (RepoScan_WorkspaceID r) (RepoScan_Repository r)
    (RepoScan_Status r) (RepoScan_StartedAt r) (RepoScan_FinishedAt r) (RepoScan_CommitsScanned r)
    (RepoScan_FilesScanned r) (RepoScan_FindingCount r) (RepoScan_Truncated r) (RepoScan_SourceHealth r)
    (RepoScan_SourceHealthDetails r) (RepoScan_ScanMode r) (RepoScan_BaseRevision r) (RepoScan_HeadRevision r)
    (RepoScan_CursorBefore r) (RepoScan_CursorAfter r) (RepoScan_ChangedPaths r) (RepoScan_ErrorMessage r)
    (RepoScan_HistoryLimit r) (RepoScan_MaxFindings r) (RepoScan_Source r) trace.1 trace.2.
(** The tail of the queueing methods: create the row, then stamp its trace. *)
Definition enqueue_repo_scan (newID : string) (trace : string * string) (scope : Scope) (repository : string)
    (source : RepoScanSource) (scanContext : RepoScanContext) (historyLimit maxFindings queuedAt : Z)
    (s : RepoScanTables) : RepoScanTables * RepoScanRecord :=
  let '(s, record) := createRepoScanLocked newID scope (TrimSpace repository) source scanContext "queued" historyLimit
                        maxFindings queuedAt s in
  let record := with_repo_trace trace record in
  (put_repo_scan (RepoScan_ID record) record s, record).

Definition CreateRepoScan (newID : string) (ctx : Context) (repository : string) (source : RepoScanSource)
    (scanContext : RepoScanContext) (startedAt : Z) (s : RepoScanTables) : result (RepoScanTables * RepoScanRecord) :=
  scope ← RequireScope ctx;
  mret (createRepoScanLocked newID scope (TrimSpace repository) source scanContext "running" 0 0 startedAt s).
Definition CreateQueuedRepoScan (newID : string) (trace : string * string) (ctx : Context) (repository : string)
    (source : RepoScanSource) (scanContext : RepoScanContext) (historyLimit maxFindings queuedAt : Z)
    (s : RepoScanTables) : result (RepoScanTables * RepoScanRecord) :=
  scope ← RequireScope ctx;
  mret (enqueue_repo_scan newID trace scope repository source scanContext historyLimit maxFindings queuedAt s).

(** The rows the admission loop looks at. *)
Definition repo_busy (scope : Scope) (repository : string) (r : RepoScanRecord) : bool :=
  repo_in_scope scope r && EqualFold (RepoScan_Repository r) repository && repo_pending r.
Definition repo_queued (scope : Scope) (r : RepoScanRecord) : bool := repo_in_scope scope r && status_is "queued" r.

Definition CreateQueuedRepoScanWithinLimit (newID : string) (trace : string * string) (ctx : Context)
    (repository : string) (source : RepoScanSource) (scanContext : RepoScanContext)
    (historyLimit maxFindings queuedAt maxPending : Z) (s : RepoScanTables)
    : result (RepoScanTables * RepoScanRecord) :=
  scope ← RequireScope ctx;
  let maxPending := if maxPending <=? 0 then 1 else maxPending in
  let normalizedRepository := TrimSpace repository in
  _ ← guard_err (count_repo_scans (repo_busy scope normalizedRepository) s =? 0) ErrPendingRepoScanExists;
  _ ← guard_err (count_repo_scans (repo_queued scope) s <? maxPending) ErrQueueLimitReached;
  mret (enqueue_repo_scan newID trace scope normalizedRepository source scanContext historyLimit maxFindings queuedAt s).

(** ** Claiming *)
Definition with_run (status : string) (startedAt : Z) (r : RepoScanRecord) : RepoScanRecord :=
  mkRepoScan (RepoScan_ID r) (RepoScan_TenantID r) (RepoScan_WorkspaceID r) (RepoScan_Repository r) status
    startedAt None (RepoScan_CommitsScanned r) (RepoScan_FilesScanned r) (RepoScan_FindingCount r)
    (RepoScan_Truncated r) (RepoScan_SourceHealth r) (RepoScan_SourceHealthDetails r) (RepoScan_ScanMode r)
    (RepoScan_BaseRevision r) (RepoScan_HeadRevision r) (RepoScan_CursorBefore r) (RepoScan_CursorAfter r)
    (RepoScan_ChangedPaths r) "" (RepoScan_HistoryLimit r) (RepoScan_MaxFindings r) (RepoScan_Source r)
    (RepoScan_TraceParent r) (RepoScan_TraceState r).
(** The rows in creation order; a missing id reads as the zero row. *)
Definition ordered_repo_scans (s : RepoScanTables) : list RepoScanRecord :=
  (λ id, default zero_repo_scan (repoScans s !! id)) <$> repoScanIDs s.
Definition repo_started (l r : RepoScanRecord) : comparison := Z.compare (RepoScan_StartedAt l) (RepoScan_StartedAt r).
Definition repo_claimable (scope : option Scope) (r : RepoScanRecord) : bool :=
  match scope with Some scope => repo_in_scope scope r | None => true end && status_is "queued" r.

(** The stored row starts now; the caller gets the instant it was queued. *)
Definition claimNextQueuedRepoScanLocked (now : Z) (scope : option Scope) (s : RepoScanTables)
    : result (RepoScanTables * RepoScanRecord) :=
  match select_best (less_of repo_started) (filter (λ r, repo_claimable scope r = true) (ordered_repo_scans s)) with
  | None => Err ErrNotFound
  | Some claimed =>
      mret (put_repo_scan (RepoScan_ID claimed) (with_run "running" now claimed) s,
            with_run "running" (RepoScan_StartedAt claimed) claimed)
  end.
Definition ClaimNextQueuedRepoScan (now : Z) (ctx : Context) (s : RepoScanTables) : result (RepoScanTables * RepoScanRecord) :=
  scope ← RequireScope ctx;
  claimNextQueuedRepoScanLocked now (Some scope) s.
Definition ClaimNextQueuedRepoScanAnyScope (now : Z) (s : RepoScanTables) : result (RepoScanTables * RepoScanRecord) :=
  claimNextQueuedRepoScanLocked now None s.

(** ** Counting and reading *)
Definition CountQueuedRepoScans (ctx : Context) (s : RepoScanTables) : result Z :=
  scope ← RequireScope ctx;
  mret (count_repo_scans (repo_queued scope) s).
Definition CountQueuedRepoScansAnyScope (s : RepoScanTables) : Z := count_repo_scans (status_is "queued") s.
Definition CountPendingRepoScansByRepository (ctx : Context) (repository : string) (s : RepoScanTables) : result Z :=
  scope ← RequireScope ctx;
  let normalizedRepository := TrimSpace repository in
  if decide (normalizedRepository = "") then mret 0
  else mret (count_repo_scans (λ r, repo_in_scope scope r && EqualFold (TrimSpace (RepoScan_Repository r)) normalizedRepository
                                     && repo_pending r) s).
Definition GetRepoScan (ctx : Context) (repoScanID : string) (s : RepoScanTables) : result RepoScanRecord :=
  scope ← RequireScope ctx; scoped_repo_scan scope repoScanID s.
Definition ListRepoScans `{SortSlice} (ctx : Context) (limit : Z) (s : RepoScanTables) : result (list RepoScanRecord) :=
  scope ← RequireScope ctx;
  mret (truncate limit (sort_slice (λ l r, After (RepoScan_StartedAt l) (RepoScan_StartedAt r))
    (filter (λ r, repo_in_scope scope r = true) (ordered_repo_scans s)))).
Definition HasSuccessfulRepoScan (ctx : Context) (s : RepoScanTables) : result bool :=
  scope ← RequireScope ctx;
  mret (negb (count_repo_scans (λ r, repo_in_scope scope r && succeeded (RepoScan_Status r)) s =? 0)).

(** ** Moving rows *)
Definition with_health (health : string) (details : list RepoScanSourceHealth) (r : RepoScanRecord) : RepoScanRecord :=
  mkRepoScan (RepoScan_ID r) (RepoScan_TenantID r) (RepoScan_WorkspaceID r) (RepoScan_Repository r)
    (RepoScan_Status r) (RepoScan_StartedAt r) (RepoScan_FinishedAt r) (RepoScan_CommitsScanned r)
    (RepoScan_FilesScanned r) (RepoScan_FindingCount r) (RepoScan_Truncated r) health details
    (RepoScan_ScanMode r) (RepoScan_BaseRevision r) (RepoScan_HeadRevision r) (RepoScan_CursorBefore r)
    (RepoScan_CursorAfter r) (RepoScan_ChangedPaths r) (RepoScan_ErrorMessage r) (RepoScan_HistoryLimit r)
    (RepoScan_MaxFindings r) (RepoScan_Source r) (RepoScan_TraceParent r) (RepoScan_TraceState r).
Definition RequeueRepoScan (now : Z) (ctx : Context) (repoScanID : string) (s : RepoScanTables) : result RepoScanTables :=
  scope ← RequireScope ctx;
  record ← scoped_repo_scan scope repoScanID s;
  _ ← guard_err (status_is "running" record) ErrNotFound;
  mret (put_repo_scan repoScanID (with_health RepoScanSourceHealthUnknown [] (with_run "queued" now record)) s).

(** A failed row: its one source is the scanner itself. *)
Definition with_failure (finishedAt : Z) (errorMessage : string) (details : list RepoScanSourceHealth) (r : RepoScanRecord) : RepoScanRecord :=
  mkRepoScan (RepoScan_ID r) (RepoScan_TenantID r) (RepoScan_WorkspaceID r) (RepoScan_Repository r) "failed"
    (RepoScan_StartedAt r) (Some finishedAt) (RepoScan_CommitsScanned r) (RepoScan_FilesScanned r)
    (RepoScan_FindingCount r) (RepoScan_Truncated r) RepoScanSourceHealthUnavailable details
    (RepoScan_ScanMode r) (RepoScan_BaseRevision r) (RepoScan_HeadRevision r) (RepoScan_CursorBefore r)
    (RepoScan_CursorAfter r) (RepoScan_ChangedPaths r) errorMessage (RepoScan_HistoryLimit r)
    (RepoScan_MaxFindings r) (RepoScan_Source r) (RepoScan_TraceParent r) (RepoScan_TraceState r).
Definition scanner_health (code message : string) : list RepoScanSourceHealth :=
  [mkHealth "identrail_repo_scanner" RepoScanSourceHealthUnavailable code message false].

Definition repo_stale (cutoff : Z) (r : RepoScanRecord) : bool :=
  status_is "running" r && Before (RepoScan_StartedAt r) cutoff.
Definition fail_stale (now : Z) (errorMessage : string) (r : RepoScanRecord) : RepoScanRecord :=
  with_failure now (TrimSpace errorMessage)
    (scanner_health "stale_running_scan"
       (firstNonEmptyRepoScanSourceHealth [TrimSpace errorMessage; "repository scan exceeded its processing window"])) r.
Definition FailStaleRepoScansAnyScope `{SortSlice} (now staleBefore limit : Z) (errorMessage : string) (s : RepoScanTables)
    : RepoScanTables * Z :=
  if limit <=? 0 then (s, 0)
  else
    let candidates := sort_slice (λ l r, Before (RepoScan_StartedAt l) (RepoScan_StartedAt r))
                        (filter (λ r, repo_stale staleBefore r = true) (ordered_repo_scans s)) in
    let candidates := truncate limit candidates in
    (foldl (λ s r, put_repo_scan (RepoScan_ID r) (fail_stale now errorMessage r) s) s candidates,
     Z.of_nat (length candidates)).

Definition CancelRepoScan (ctx : Context) (repoScanID : string) (finishedAt : Z) (errorMessage : string)
    (s : RepoScanTables) : result (RepoScanTables * RepoScanRecord) :=
  scope ← RequireScope ctx;
  record ← scoped_repo_scan scope repoScanID s;
  _ ← guard_err (repo_pending record) ErrConflict;
  let record := with_failure finishedAt (TrimSpace errorMessage) (scanner_health "scan_canceled" (TrimSpace errorMessage)) record in
  mret (put_repo_scan repoScanID record s, record).

Definition DeleteRepoScan (ctx : Context) (repoScanID : string) (s : RepoScanTables) : result RepoScanTables :=
  scope ← RequireScope ctx;
  _ ← scoped_repo_scan scope repoScanID s;
  mret (mkRepoTables (delete repoScanID (repoScans s)) (filter (.≠ repoScanID) (repoScanIDs s))
          (foldl (λ m key, delete key m) (repoFindings s) (default [] (repoFindingIDs s !! repoScanID)))
          (delete repoScanID (repoFindingIDs s)) (repoCursors s)).
