(* ===== verification/RepoFindingStore.v ===== *)
(** * Findings of repository scans (internal/db/memory.go)

    What a scan found is stored under the scan; the lifecycle of a finding runs
    across scans, along its lifecycle key: the latest earlier row with the key
    says what a new observation is, and a complete scan of the whole repository
    closes the open rows it did not see again. *)
From S2P Require Import Prelude GoStrings GoCollections GoTime GoFloat GoText Scope RepoFindings RepoScanRecords RepoScanStore.

Section store.
Context `{MapRange, SortSlice, FloatParser}.

(** ** The latest row of a lifecycle key *)

(** [timeValue]. *)
Definition timeValue (value : option Z) (fallback : Z) : Z :=
  match value with Some t => if IsZero t then fallback else t | None => fallback end.
Definition repoFindingObservedAt (f : RepoFinding) : Z := timeValue (RF_LastSeenAt f) (RF_CreatedAt f).
Definition row_key (f : RepoFinding) : string := RF_ScanID f +:+ "|" +:+ RF_ID f.
Definition repoFindingNewer (left right : RepoFinding) : bool :=
  if negb (repoFindingObservedAt left =? repoFindingObservedAt right)
  then After (repoFindingObservedAt left) (repoFindingObservedAt right)
  else if negb (RF_CreatedAt left =? RF_CreatedAt right) then After (RF_CreatedAt left) (RF_CreatedAt right)
  else str_ltb (row_key right) (row_key left).

Definition with_repository (repository : string) (f : RepoFinding) : RepoFinding :=
  mkRF (RF_ID f) (RF_ScanID f) (RF_Type f) (RF_Severity f) (RF_ConfidenceScore f) (RF_Actionability f)
    (RF_Exploitability f) (RF_EvidenceCompleteness f) (RF_Provenance f) (RF_Title f) (RF_HumanSummary f)
    (RF_Path f) repository (RF_Commit f) (RF_FilePath f) (RF_LineNumber f) (RF_Detector f) (RF_LineSnippet f)
    (RF_LineSnippetRedacted f) (RF_SourceURL f) (RF_LifecycleKey f) (RF_LifecycleStatus f) (RF_Owner f)
    (RF_FirstSeenAt f) (RF_LastSeenAt f) (RF_FixedAt f) (RF_ReopenedAt f) (RF_DismissedAt f)
    (RF_SuppressionExpiresAt f) (RF_RuleVersion f) (RF_DetectorVersion f) (RF_AdapterSource f)
    (RF_ConfidenceState f) (RF_VerificationStatus f) (RF_ScanMode f) (RF_EvidenceVersion f) (RF_Evidence f)
    (RF_Remediation f) (RF_CreatedAt f) (RF_Triage f).
(** A stored row as the loops read it: with its scan's repository if it has
    none, in canonical form. *)
Definition read_row (repository : string) (f : RepoFinding) : RepoFinding :=
  NormalizeRepoFindingMetadata (if decide (RF_Repository f = "") then with_repository repository f else f).

(** The row's scan is another one than [excluded], of the same repository, in the scope. *)
Definition other_scan (scope : Scope) (repository excluded : string) (s : RepoScanTables) (f : RepoFinding)
    : option RepoScanRecord :=
  if decide (TrimSpace (RF_ScanID f) = TrimSpace excluded) then None
  else
    record ← repoScans s !! RF_ScanID f;
    if repo_in_scope scope record && EqualFold (TrimSpace (RepoScan_Repository record)) (TrimSpace repository)
    then Some record else None.
Definition lifecycle_candidate (scope : Scope) (repository lifecycleKey excluded : string) (s : RepoScanTables)
    (f : RepoFinding) : option RepoFinding :=
  record ← other_scan scope repository excluded s f;
  let candidate := read_row (RepoScan_Repository record) f in
  if decide (TrimSpace (RF_LifecycleKey candidate) = lifecycleKey) then Some candidate else None.
Definition latestRepoFindingLifecycleLocked (scope : Scope) (repository lifecycleKey excludeRepoScanID : string)
    (s : RepoScanTables) : option RepoFinding :=
  let lifecycleKey := TrimSpace lifecycleKey in
  if decide (lifecycleKey = "") then None
  else select_best repoFindingNewer
         (omap (lifecycle_candidate scope repository lifecycleKey excludeRepoScanID s) (map_range (repoFindings s)).*2).

(** ** Storing what a scan observed *)
Definition with_key (key : string) (f : RepoFinding) : RepoFinding :=
  mkRF (RF_ID f) (RF_ScanID f) (RF_Type f) (RF_Severity f) (RF_ConfidenceScore f) (RF_Actionability f)
    (RF_Exploitability f) (RF_EvidenceCompleteness f) (RF_Provenance f) (RF_Title f) (RF_HumanSummary f)
    (RF_Path f) (RF_Repository f) (RF_Commit f) (RF_FilePath f) (RF_LineNumber f) (RF_Detector f)
    (RF_LineSnippet f) (RF_LineSnippetRedacted f) (RF_SourceURL f) key (RF_LifecycleStatus f) (RF_Owner f)
    (RF_FirstSeenAt f) (RF_LastSeenAt f) (RF_FixedAt f) (RF_ReopenedAt f) (RF_DismissedAt f)
    (RF_SuppressionExpiresAt f) (RF_RuleVersion f) (RF_DetectorVersion f) (RF_AdapterSource f)
    (RF_ConfidenceState f) (RF_VerificationStatus f) (RF_ScanMode f) (RF_EvidenceVersion f) (RF_Evidence f)
    (RF_Remediation f) (RF_CreatedAt f) (RF_Triage f).

(** When the finding was first seen, given the latest earlier row. *)
Definition first_seen (previous : RepoFinding) (observedAt : Z) : Z :=
  timeValue (RF_FirstSeenAt previous) (if IsZero (RF_CreatedAt previous) then observedAt else RF_CreatedAt previous).
Definition carry_over (now : Z) (previous : option RepoFinding) (f : RepoFinding) (observedAt : Z) : RepoFinding :=
  let '(f, status, firstSeen, owner) :=
    match previous with
    | None => (f, RepoFindingLifecycleOpen, observedAt, RF_Owner f)
    | Some previous =>
        let '(f, status) := applyRepoFindingLifecycleSnapshot now f previous observedAt in
        (f, status, first_seen previous observedAt, or_string (RF_Owner f) (RF_Owner previous))
    end in
  NormalizeRepoFindingMetadata
    (with_lifecycle status owner (Some firstSeen) (Some observedAt) None (RF_ReopenedAt f) (RF_DismissedAt f)
       (RF_SuppressionExpiresAt f) f).
Definition identified (f : RepoFinding) : RepoFinding :=
  if decide (RF_LifecycleKey f = "") then with_key (RepoFindingLifecycleKey f) f else f.
Definition applyRepoFindingLifecycleLocked (now : Z) (scope : Scope) (repoScan : RepoScanRecord) (f : RepoFinding)
    (observedAt : Z) (s : RepoScanTables) : RepoFinding :=
  let f := identified f in
  carry_over now
    (latestRepoFindingLifecycleLocked scope (TrimSpace (RepoScan_Repository repoScan)) (RF_LifecycleKey f)
       (RepoScan_ID repoScan) s) f observedAt.

Definition observed_finding (scanID repository scanMode : string) (observedAt : Z) (f : RepoFinding) : RepoFinding :=
  mkRF (RF_ID f) scanID (RF_Type f) (RF_Severity f) (RF_ConfidenceScore f) (RF_Actionability f)
    (RF_Exploitability f) (RF_EvidenceCompleteness f) (RF_Provenance f) (RF_Title f) (RF_HumanSummary f)
    (RF_Path f) repository (RF_Commit f) (RF_FilePath f) (RF_LineNumber f) (RF_Detector f) (RF_LineSnippet f)
    (RF_LineSnippetRedacted f) (RF_SourceURL f) (RF_LifecycleKey f) (RF_LifecycleStatus f) (RF_Owner f)
    (RF_FirstSeenAt f) (RF_LastSeenAt f) (RF_FixedAt f) (RF_ReopenedAt f) (RF_DismissedAt f)
    (RF_SuppressionExpiresAt f) (RF_RuleVersion f) (RF_DetectorVersion f) (RF_AdapterSource f)
    (RF_ConfidenceState f) (RF_VerificationStatus f) scanMode (RF_EvidenceVersion f) (RF_Evidence f)
    (RF_Remediation f) observedAt (RF_Triage f).
Definition observed_at (now : Z) (repoScan : RepoScanRecord) (f : RepoFinding) : Z :=
  if negb (IsZero (RF_CreatedAt f)) then RF_CreatedAt f
  else if negb (IsZero (RepoScan_StartedAt repoScan)) then RepoScan_StartedAt repoScan else now.
(** The finding as the scan observed it, before its lifecycle is known. *)
Definition observe (now : Z) (repoScanID : string) (repoScan : RepoScanRecord) (f : RepoFinding) : RepoFinding :=
  NormalizeRepoFindingMetadata
    (observed_finding repoScanID (or_string (RF_Repository f) (TrimSpace (RepoScan_Repository repoScan)))
       (or_string (RF_ScanMode f) (TrimSpace (RepoScan_ScanMode repoScan))) (observed_at now repoScan f) f).

(** One iteration of the loop. *)
Definition put_finding (repoScanID : string) (f : RepoFinding) (s : RepoScanTables) : RepoScanTables :=
  let key := repoScanID +:+ "|" +:+ RF_ID f in
  with_findings (<[key := f]> (repoFindings s))
    (<[repoScanID := append_unique (default [] (repoFindingIDs s !! repoScanID)) key]> (repoFindingIDs s)) s.
Definition upsert_finding (now : Z) (scope : Scope) (repoScanID : string) (repoScan : RepoScanRecord)
    (s : RepoScanTables) (f : RepoFinding) : RepoScanTables :=
  let f := observe now repoScanID repoScan f in
  put_finding repoScanID (applyRepoFindingLifecycleLocked now scope repoScan f (RF_CreatedAt f) s) s.
Definition UpsertRepoFindings (now : Z) (ctx : Context) (repoScanID : string) (findings : list RepoFinding)
    (s : RepoScanTables) : result RepoScanTables :=
  scope ← RequireScope ctx;
  repoScan ← scoped_repo_scan scope repoScanID s;
  _ ← guard_err (repo_pending repoScan) ErrConflict;
  mret (foldl (upsert_finding now scope repoScanID repoScan) s findings).

(** ** Closing what a complete scan did not see *)

(** The lifecycle keys the scan observed. *)
Definition current_keys (repoScanID : string) (s : RepoScanTables) : gset string :=
  list_to_set (filter (.≠ "")
    ((λ f, RF_LifecycleKey (NormalizeRepoFindingMetadata f)) <$>
       omap (λ key, repoFindings s !! key) (default [] (repoFindingIDs s !! repoScanID)))).

(** The guards of the loop, but for the last: the row [f], as read, may be closed. *)
Definition closable (repoScan : RepoScanRecord) (closeNonPostureFindings : bool) (inconclusive current : gset string)
    (f : RepoFinding) : bool :=
  nonempty_string (RF_LifecycleKey f) && negb (bool_decide (RF_LifecycleKey f ∈ current)) &&
  negb (bool_decide (RF_LifecycleKey f ∈ inconclusive)) &&
  bool_decide (RF_LifecycleStatus f ∈ [RepoFindingLifecycleOpen; RepoFindingLifecycleReopened]) &&
  let postureSource := repoFindingPostureCollectionSource (RF_AdapterSource f) in
  if nonempty_string postureSource then repoScanSourceCollectedComplete (RepoScan_SourceHealthDetails repoScan) postureSource
  else closeNonPostureFindings.
(** The row is still the latest of its key. *)
Definition is_latest (scope : Scope) (repoScan : RepoScanRecord) (f : RepoFinding) (s : RepoScanTables) : bool :=
  match latestRepoFindingLifecycleLocked scope (RepoScan_Repository repoScan) (RF_LifecycleKey f) (RepoScan_ID repoScan) s with
  | Some latest => bool_decide (RF_ScanID latest = RF_ScanID f) && bool_decide (RF_ID latest = RF_ID f)
  | None => false
  end.
Definition closed_finding (fixedAt : Z) (f : RepoFinding) : RepoFinding :=
  NormalizeRepoFindingMetadata
    (with_lifecycle RepoFindingLifecycleFixed (RF_Owner f) (RF_FirstSeenAt f) (RF_LastSeenAt f) (Some fixedAt)
       (RF_ReopenedAt f) (RF_DismissedAt f) (RF_SuppressionExpiresAt f) f).

(** One iteration: the row under [key] was [f] when the iteration began. *)
Definition mark_missing (scope : Scope) (repoScan : RepoScanRecord) (fixedAt : Z) (closeNonPostureFindings : bool)
    (inconclusive current : gset string) (s : RepoScanTables) (row : string * RepoFinding) : RepoScanTables :=
  let '(key, f) := row in
  match other_scan scope (RepoScan_Repository repoScan) (RepoScan_ID repoScan) s f with
  | None => s
  | Some record =>
      let f := read_row (RepoScan_Repository record) f in
      if closable repoScan closeNonPostureFindings inconclusive current f && is_latest scope repoScan f s
      then with_findings (<[key := closed_finding fixedAt f]> (repoFindings s)) (repoFindingIDs s) s
      else s
  end.
Definition markMissingRepoFindingsFixedLocked (scope : Scope) (repoScan : RepoScanRecord) (fixedAt : Z)
    (closeNonPostureFindings : bool) (inconclusiveLifecycleKeys : list string) (s : RepoScanTables) : RepoScanTables :=
  foldl (mark_missing scope repoScan fixedAt closeNonPostureFindings (list_to_set inconclusiveLifecycleKeys)
           (current_keys (RepoScan_ID repoScan) s)) s (map_range (repoFindings s)).

(** [if len(paths) > 0 { ... }]. *)
Definition or_paths (paths kept : list string) : list string := match paths with [] => kept | _ => paths end.
Definition completed_repo_scan (status : string) (finishedAt commitsScanned filesScanned findingCount : Z) (truncated : bool)
    (health : string * list RepoScanSourceHealth) (c : RepoScanContext) (errorMessage : string) (r : RepoScanRecord) : RepoScanRecord :=
  mkRepoScan (RepoScan_ID r) (RepoScan_TenantID r) (RepoScan_WorkspaceID r) (RepoScan_Repository r) status
    (RepoScan_StartedAt r) (Some finishedAt) commitsScanned filesScanned findingCount truncated health.1
    health.2 (RepoScan_ScanMode r) (or_string (Context_BaseRevision c) (RepoScan_BaseRevision r))
    (or_string (Context_HeadRevision c) (RepoScan_HeadRevision r)) (RepoScan_CursorBefore r)
    (Context_CursorAfter c) (or_paths (Context_ChangedPaths c) (RepoScan_ChangedPaths r)) errorMessage
    (RepoScan_HistoryLimit r) (RepoScan_MaxFindings r) (RepoScan_Source r) (RepoScan_TraceParent r)
    (RepoScan_TraceState r).
Definition CompleteRepoScan (ctx : Context) (repoScanID status : string)
    (finishedAt commitsScanned filesScanned findingCount : Z) (truncated : bool) (scanContext : RepoScanContext)
    (errorMessage : string) (s : RepoScanTables) : result RepoScanTables :=
  scope ← RequireScope ctx;
  record ← scoped_repo_scan scope repoScanID s;
  _ ← guard_err (repo_pending record) ErrConflict;
  let normalizedContext := NormalizeRepoScanContext scanContext in
  let health := repoScanCompletionSourceHealth (TrimSpace status) normalizedContext in
  let record := completed_repo_scan (TrimSpace status) finishedAt commitsScanned filesScanned findingCount truncated
                  health normalizedContext (TrimSpace errorMessage) record in
  let s := put_repo_scan repoScanID record s in
  mret (if shouldCloseMissingPostureRepoFindings (RepoScan_Status record) truncated normalizedContext
        then markMissingRepoFindingsFixedLocked scope record finishedAt
               (shouldCloseMissingRepoFindings (RepoScan_Status record) truncated normalizedContext)
               (Context_InconclusiveLifecycleKeys normalizedContext) s
        else s).

(** ** Deleting findings *)
Definition with_finding_count (count : Z) (r : RepoScanRecord) : RepoScanRecord :=
  mkRepoScan (RepoScan_ID r) (RepoScan_TenantID r) (RepoScan_WorkspaceID r) (RepoScan_Repository r)
    (RepoScan_Status r) (RepoScan_StartedAt r) (RepoScan_FinishedAt r) (RepoScan_CommitsScanned r)
    (RepoScan_FilesScanned r) count (RepoScan_Truncated r) (RepoScan_SourceHealth r)
    (RepoScan_SourceHealthDetails r) (RepoScan_ScanMode r) (RepoScan_BaseRevision r) (RepoScan_HeadRevision r)
    (RepoScan_CursorBefore r) (RepoScan_CursorAfter r) (RepoScan_ChangedPaths r) (RepoScan_ErrorMessage r)
    (RepoScan_HistoryLimit r) (RepoScan_MaxFindings r) (RepoScan_Source r) (RepoScan_TraceParent r)
    (RepoScan_TraceState r).

Definition DeleteRepoFindings (ctx : Context) (repoScanID : string) (s : RepoScanTables) : result RepoScanTables :=
  scope ← RequireScope ctx;
  repoScan ← scoped_repo_scan scope repoScanID s;
  mret (put_repo_scan repoScanID (with_finding_count 0 repoScan)
    (with_findings (foldl (λ m key, delete key m) (repoFindings s) (default [] (repoFindingIDs s !! repoScanID)))
       (delete repoScanID (repoFindingIDs s)) s)).

Record RepoFindingDeleteTarget := mkTarget { Target_RepoScanID : string; Target_FindingID : string }.
#[export] Instance RepoFindingDeleteTarget_eq_dec : EqDecision RepoFindingDeleteTarget.
Proof. solve_decision. Defined.

(** The row a target names, when it is one the caller may delete. *)
Definition trim_target (t : RepoFindingDeleteTarget) : RepoFindingDeleteTarget :=
  mkTarget (TrimSpace (Target_RepoScanID t)) (TrimSpace (Target_FindingID t)).
Definition finding_key (t : RepoFindingDeleteTarget) : string := Target_RepoScanID t +:+ "|" +:+ Target_FindingID t.
Definition target_key (t : RepoFindingDeleteTarget) : string := Target_RepoScanID t +:+ "::" +:+ Target_FindingID t.
Definition target_row (scope : Scope) (s : RepoScanTables) (t : RepoFindingDeleteTarget)
    : option (RepoScanRecord * RepoFinding) :=
  if negb (nonempty_string (Target_RepoScanID t)) || negb (nonempty_string (Target_FindingID t)) then None
  else
    repoScan ← repoScans s !! Target_RepoScanID t;
    if repo_in_scope scope repoScan then f ← repoFindings s !! finding_key t; Some (repoScan, f) else None.

(** The first loop: the rows go, and what went is remembered by scan. *)
Definition delete_target (scope : Scope)
    (acc : RepoScanTables * (list RepoFindingDeleteTarget * gmap string (gset string))) (target : RepoFindingDeleteTarget)
    : RepoScanTables * (list RepoFindingDeleteTarget * gmap string (gset string)) :=
  let '(s, (deleted, byScan)) := acc in
  let t := trim_target target in
  match target_row scope s t with
  | None => acc
  | Some _ =>
      (with_findings (delete (finding_key t) (repoFindings s)) (repoFindingIDs s) s,
       (if bool_decide (target_key t ∈ target_key <$> deleted) then deleted else deleted ++ [t],
        <[Target_RepoScanID t := {[finding_key t]} ∪ default ∅ (byScan !! Target_RepoScanID t)]> byScan))
  end.
(** The second: the lists of keys and the counts of the scans. *)
Definition forget_keys (s : RepoScanTables) (entry : string * gset string) : RepoScanTables :=
  let '(repoScanID, keysToDelete) := entry in
  let nextKeys := filter (.∉ keysToDelete) (default [] (repoFindingIDs s !! repoScanID)) in
  let ids := if is_nil nextKeys then delete repoScanID (repoFindingIDs s)
             else <[repoScanID := nextKeys]> (repoFindingIDs s) in
  put_repo_scan repoScanID
    (with_finding_count (Z.of_nat (length nextKeys)) (default zero_repo_scan (repoScans s !! repoScanID)))
    (with_findings (repoFindings s) ids s).
Definition DeleteRepoFindingTargets (ctx : Context) (targets : list RepoFindingDeleteTarget) (s : RepoScanTables)
    : result (RepoScanTables * list RepoFindingDeleteTarget) :=
  scope ← RequireScope ctx;
  let '(s, (deleted, byScan)) := foldl (delete_target scope) (s, ([], ∅)) targets in
  mret (foldl forget_keys s (map_range byScan), deleted).
Definition DeleteRepoFinding (ctx : Context) (repoScanID findingID : string) (s : RepoScanTables) : result RepoScanTables :=
  '(s, deleted) ← DeleteRepoFindingTargets ctx [mkTarget repoScanID findingID] s;
  match deleted with [] => Err ErrNotFound | _ => mret s end.

(** A deletion takes every row of the finding's lifecycle along. *)
Definition lifecycle_rows (scope : Scope) (s : RepoScanTables) (lifecycleKey repositoryKey : string)
    : list RepoFindingDeleteTarget :=
  omap (λ '(candidateKey, candidate),
    candidateScan ← repoScans s !! RF_ScanID candidate;
    if negb (repo_in_scope scope candidateScan) then None
    else
      let read := read_row (RepoScan_Repository candidateScan) candidate in
      if bool_decide (TrimSpace (RF_LifecycleKey read) = lifecycleKey) &&
         EqualFold (TrimSpace (RF_Repository read)) repositoryKey
      then match SplitN candidateKey "|" 2 with
           | [_; findingID] => Some (mkTarget (RF_ScanID candidate) findingID)
           | _ => None
           end
      else None) (map_range (repoFindings s)).
Definition expand_target (scope : Scope) (s : RepoScanTables) (target : RepoFindingDeleteTarget)
    : list RepoFindingDeleteTarget :=
  let t := trim_target target in
  match target_row scope s t with
  | None => []
  | Some (repoScan, f) =>
      let f := read_row (RepoScan_Repository repoScan) f in
      let lifecycleKey := TrimSpace (RF_LifecycleKey f) in
      t :: if decide (lifecycleKey = "") then []
           else lifecycle_rows scope s lifecycleKey (canon (RF_Repository f))
  end.
Definition target_less (l r : RepoFindingDeleteTarget) : bool :=
  if decide (Target_RepoScanID l = Target_RepoScanID r) then str_ltb (Target_FindingID l) (Target_FindingID r)
  else str_ltb (Target_RepoScanID l) (Target_RepoScanID r).
Definition ExpandRepoFindingDeleteTargets (ctx : Context) (targets : list RepoFindingDeleteTarget) (s : RepoScanTables)
    : result (list RepoFindingDeleteTarget) :=
  scope ← RequireScope ctx;
  mret (sort_slice target_less (dedup_by target_key (targets ≫= expand_target scope s))).

(** ** Cursors *)
Definition repoScanCursorKey (scope : Scope) (repository : string) (source : RepoScanSource) : string :=
  let normalizedScope := Scope_Normalize scope in
  let normalizedSource := RepoScanSource_Normalize source in
  Join [Scope_TenantID normalizedScope; Scope_WorkspaceID normalizedScope; canon repository;
        RepoSource_Provider normalizedSource; RepoSource_ProjectID normalizedSource;
        RepoSource_ConnectorID normalizedSource; Itoa (RepoSource_InstallationID normalizedSource)]
    (String (ascii_of_N 0) "").
Definition GetRepoScanCursor (ctx : Context) (repository : string) (source : RepoScanSource) (s : RepoScanTables)
    : result RepoScanCursor :=
  scope ← RequireScope ctx;
  match repoCursors s !! repoScanCursorKey scope repository source with
  | None => Err ErrNotFound
  | Some cursor => mret cursor
  end.
Definition stamp_cursor (scope : Scope) (c : RepoScanCursor) : RepoScanCursor :=
  mkCursor (Scope_TenantID scope) (Scope_WorkspaceID scope) (Cursor_Repository c) (Cursor_Source c)
    (Cursor_LastScannedRevision c) (Cursor_LastDeepScannedAt c) (Cursor_LastScanID c) (Cursor_LastScanMode c)
    (Cursor_LastScanCompletedAt c) (Cursor_UpdatedAt c).
Definition UpsertRepoScanCursor (ctx : Context) (cursor : RepoScanCursor) (s : RepoScanTables) : result RepoScanTables :=
  scope ← RequireScope ctx;
  let normalized := stamp_cursor (Scope_Normalize scope) (RepoScanCursor_Normalize cursor) in
  _ ← guard_err (nonempty_string (TrimSpace (Cursor_Repository normalized)) &&
                 nonempty_string (TrimSpace (Cursor_LastScannedRevision normalized))) ErrNotFound;
  mret (mkRepoTables (repoScans s) (repoScanIDs s) (repoFindings s) (repoFindingIDs s)
          (<[repoScanCursorKey scope (Cursor_Repository normalized) (Cursor_Source normalized) := normalized]> (repoCursors s))).
End store.
