(* ===== verification/RepoLifecycle.v ===== *)
(** * The lifecycle of repository findings

    What a completed scan closes, what a new observation makes of an earlier
    row, and what never changes once a scan is over: the theorems about the
    tables of RepoScanStore and RepoFindingStore. *)
From S2P Require Import Prelude GoStrings GoCollections GoTime GoFloat GoText Runs Scope ScanQueue RepoFindings RepoScanRecords RepoScanStore RepoFindingStore.

(** ** The order on rows *)
Section order.
Context `{MapRange, FloatParser}.

Definition row_order (l r : RepoFinding) : comparison :=
  lex (Z.compare (repoFindingObservedAt r) (repoFindingObservedAt l))
    (lex (Z.compare (RF_CreatedAt r) (RF_CreatedAt l)) (compare_string (row_key r) (row_key l))).
Lemma row_order_ok : compare_ok row_order.
Proof.
  apply (compare_ok_lex (λ l r, Z.compare (repoFindingObservedAt r) (repoFindingObservedAt l))).
  - apply (compare_ok_on repoFindingObservedAt (λ x y, Z.compare y x)), compare_ok_flip, compare_ok_Z.
  - apply (compare_ok_lex (λ l r, Z.compare (RF_CreatedAt r) (RF_CreatedAt l))).
    + apply (compare_ok_on RF_CreatedAt (λ x y, Z.compare y x)), compare_ok_flip, compare_ok_Z.
    + apply (compare_ok_on row_key (λ x y, compare_string y x)), compare_ok_flip, compare_ok_string.
Qed.

Lemma repoFindingNewer_order l r : repoFindingNewer l r = less_of row_order l r.
Proof.
  unfold repoFindingNewer, less_of, row_order, After, str_ltb.
  destruct (Z.compare_spec (repoFindingObservedAt r) (repoFindingObservedAt l)) as [E|E|E]; cbn.
  - rewrite (proj2 (Z.eqb_eq _ _) (eq_sym E)). cbn.
    destruct (Z.compare_spec (RF_CreatedAt r) (RF_CreatedAt l)) as [F|F|F]; cbn.
    + by rewrite (proj2 (Z.eqb_eq _ _) (eq_sym F)).
    + rewrite (proj2 (Z.eqb_neq _ _)) by lia. cbn. by apply Z.ltb_lt.
    + rewrite (proj2 (Z.eqb_neq _ _)) by lia. cbn. apply Z.ltb_ge. lia.
  - rewrite (proj2 (Z.eqb_neq _ _)) by lia. cbn. by apply Z.ltb_lt.
  - rewrite (proj2 (Z.eqb_neq _ _)) by lia. cbn. apply Z.ltb_ge. lia.
Qed.

Lemma newer_select_best l : select_best repoFindingNewer l = select_best (less_of row_order) l.
Proof.
  unfold select_best. generalize (@None RepoFinding). induction l as [|x l IH]; intros b; [done|]. cbn. rewrite IH. f_equal.
  destruct b; cbn; [by rewrite repoFindingNewer_order|done].
Qed.

Lemma row_order_Eq l r : row_order l r = Eq → row_key l = row_key r.
Proof. unfold row_order. rewrite !lex_Eq. intros (_ & _ & E%compare_string_Eq). done. Qed.

(** Only the observation instant, the creation instant and the key matter. *)
Lemma row_order_ext l l' r r' :
  repoFindingObservedAt l = repoFindingObservedAt l' → RF_CreatedAt l = RF_CreatedAt l' → row_key l = row_key l' →
  repoFindingObservedAt r = repoFindingObservedAt r' → RF_CreatedAt r = RF_CreatedAt r' → row_key r = row_key r' →
  row_order l r = row_order l' r'.
Proof. unfold row_order. by intros -> -> -> -> -> ->. Qed.

(** ** Rows *)

(** Every row is stored under its scan and its id. *)
Definition rows_wf (s : RepoScanTables) : Prop := ∀ key f, repoFindings s !! key = Some f → row_key f = key.

Lemma read_row_key repository f : row_key (read_row repository f) = row_key f.
Proof. unfold row_key, read_row. rewrite normalize_ScanID, normalize_ID. by case_decide. Qed.
Lemma read_row_ScanID repository f : RF_ScanID (read_row repository f) = RF_ScanID f.
Proof. unfold read_row. rewrite normalize_ScanID. by case_decide. Qed.
Lemma read_row_ID repository f : RF_ID (read_row repository f) = RF_ID f.
Proof. unfold read_row. rewrite normalize_ID. by case_decide. Qed.
Lemma read_row_CreatedAt repository f : RF_CreatedAt (read_row repository f) = RF_CreatedAt f.
Proof. unfold read_row. rewrite normalize_CreatedAt. by case_decide. Qed.

(** The candidates for the latest row of a key. *)
Definition candidates (scope : Scope) (repository lifecycleKey excluded : string) (s : RepoScanTables) (g : RepoFinding) : Prop :=
  ∃ f, repoFindings s !! row_key f = Some f ∧ lifecycle_candidate scope repository lifecycleKey excluded s f = Some g.

Lemma candidate_row_key scope repository lifecycleKey excluded s f g :
  lifecycle_candidate scope repository lifecycleKey excluded s f = Some g →
  ∃ record, other_scan scope repository excluded s f = Some record ∧ g = read_row (RepoScan_Repository record) f ∧
    TrimSpace (RF_LifecycleKey g) = lifecycleKey.
Proof.
  unfold lifecycle_candidate. intros (record & Hr & Hg)%bind_Some. case_decide; [|done]. simplify_eq. by exists record.
Qed.

Lemma elem_of_candidates scope repository lifecycleKey excluded s g :
  rows_wf s →
  g ∈ omap (lifecycle_candidate scope repository lifecycleKey excluded s) (map_range (repoFindings s)).*2 ↔
  candidates scope repository lifecycleKey excluded s g.
Proof.
  intros Hwf. rewrite list_elem_of_omap. split.
  - intros (f & ([key f'] & -> & Hin)%list_elem_of_fmap & Hg). apply elem_of_map_range in Hin. cbn in *.
    exists f'. by rewrite (Hwf _ _ Hin).
  - intros (f & Hf & Hg). exists f. split; [|done]. apply list_elem_of_fmap. exists (row_key f, f). split; [done|].
    by apply elem_of_map_range.
Qed.

(** The latest row: a candidate no other one is newer than. *)
Lemma latest_spec scope repository lifecycleKey excluded s :
  rows_wf s → TrimSpace lifecycleKey ≠ "" →
  match latestRepoFindingLifecycleLocked scope repository lifecycleKey excluded s with
  | None => ∀ g, ¬ candidates scope repository (TrimSpace lifecycleKey) excluded s g
  | Some b => candidates scope repository (TrimSpace lifecycleKey) excluded s b ∧
      ∀ g, candidates scope repository (TrimSpace lifecycleKey) excluded s g → row_order b g ≠ Gt
  end.
Proof.
  intros Hwf Hk. unfold latestRepoFindingLifecycleLocked. rewrite decide_False by done.
  set (l := omap _ _). rewrite newer_select_best.
  pose proof (select_best_spec row_order l row_order_ok) as Hbest.
  destruct (select_best _ l) as [b|].
  - destruct Hbest as [Hb Hall]. split; [by apply (elem_of_candidates _ _ _ _ s)|].
    intros g Hg. apply Hall. by apply elem_of_candidates.
  - intros g Hg. apply elem_of_candidates in Hg; [|done]. fold l in Hg. rewrite Hbest in Hg. by apply elem_of_nil in Hg.
Qed.

(** Two candidates with the same key are one row. *)
Lemma candidates_inj scope repository lifecycleKey excluded s g h :
  candidates scope repository lifecycleKey excluded s g → candidates scope repository lifecycleKey excluded s h →
  row_key g = row_key h → g = h.
Proof.
  intros (f & Hf & Hg) (f' & Hf' & Hh) E. destruct (candidate_row_key _ _ _ _ _ _ _ Hg) as (r & _ & -> & _).
  destruct (candidate_row_key _ _ _ _ _ _ _ Hh) as (r' & _ & -> & _). rewrite !read_row_key in E.
  rewrite E, Hf' in Hf. injection Hf as ->. congruence.
Qed.

Definition latest_row (scope : Scope) (repoScan : RepoScanRecord) (f : RepoFinding) (s : RepoScanTables) : Prop :=
  let cands := candidates scope (RepoScan_Repository repoScan) (TrimSpace (RF_LifecycleKey f)) (RepoScan_ID repoScan) s in
  TrimSpace (RF_LifecycleKey f) ≠ "" ∧
  ∃ g, cands g ∧ RF_ScanID g = RF_ScanID f ∧ RF_ID g = RF_ID f ∧ ∀ h, cands h → row_order g h ≠ Gt.

Lemma is_latest_spec scope repoScan f s : rows_wf s → is_latest scope repoScan f s = true ↔ latest_row scope repoScan f s.
Proof.
  intros Hwf. unfold is_latest, latest_row. destruct (decide (TrimSpace (RF_LifecycleKey f) = "")) as [E|E].
  { unfold latestRepoFindingLifecycleLocked. rewrite decide_True by done. split; [done|]. by intros []. }
  pose proof (latest_spec scope (RepoScan_Repository repoScan) (RF_LifecycleKey f) (RepoScan_ID repoScan) s Hwf E) as Hl.
  destruct (latestRepoFindingLifecycleLocked _ _ _ _ _) as [b|].
  - destruct Hl as [Hb Hall]. rewrite andb_true_iff, !bool_decide_eq_true. split.
    + intros [? ?]. split; [done|]. by exists b.
    + intros (_ & g & Hg & <- & <- & Hmin). assert (b = g) as ->; [|done].
      apply (candidates_inj _ _ _ _ _ _ _ Hb Hg), row_order_Eq. pose proof (Hall g Hg) as Hbg. pose proof (Hmin b Hb) as Hgb.
      rewrite (co_antisym _ row_order_ok b g) in Hgb. by destruct (row_order b g).
  - split; [done|]. intros (_ & g & Hg & _). by destruct (Hl g).
Qed.
End order.

(** ** Closing a row does not move it in the order *)
Section closing.
Context `{MapRange, FloatParser}.

(** What the order and the candidates look at. *)
Definition same_place (f g : RepoFinding) : Prop :=
  repoFindingObservedAt f = repoFindingObservedAt g ∧ RF_CreatedAt f = RF_CreatedAt g ∧ RF_ScanID f = RF_ScanID g ∧
  RF_ID f = RF_ID g ∧ RF_LifecycleKey f = RF_LifecycleKey g.
Lemma same_place_sym f g : same_place f g → same_place g f.
Proof. unfold same_place. naive_solver. Qed.
Lemma same_place_order f f' g g' : same_place f f' → same_place g g' → row_order f g = row_order f' g'.
Proof.
  intros (? & ? & Hs & Hi & _) (? & ? & Ht & Hj & _). apply row_order_ext; try done; unfold row_key; by rewrite ?Hs, ?Hi, ?Ht, ?Hj.
Qed.

Lemma same_place_intro f g :
  RF_LastSeenAt f = RF_LastSeenAt g → RF_CreatedAt f = RF_CreatedAt g → RF_ScanID f = RF_ScanID g → RF_ID f = RF_ID g →
  RF_LifecycleKey f = RF_LifecycleKey g → same_place f g.
Proof. intros El Ec ???. split_and!; try done. unfold repoFindingObservedAt. by rewrite El, Ec. Qed.

(** A canonical finding, changed in nothing that matters, and normalized. *)
Lemma normalize_place x h :
  let f := NormalizeRepoFindingMetadata x in
  RF_LifecycleKey f ≠ "" → RF_LifecycleKey h = RF_LifecycleKey f → RF_LastSeenAt h = RF_LastSeenAt f →
  RF_Evidence h = RF_Evidence f → RF_CreatedAt h = RF_CreatedAt f → RF_ScanID h = RF_ScanID f → RF_ID h = RF_ID f →
  same_place (NormalizeRepoFindingMetadata h) f.
Proof.
  intros f Hk Hkey Hlast Hev Hcreated Hscan Hid. apply same_place_intro.
  - apply normalize_LastSeenAt_again; try done. by rewrite Hcreated; unfold f; rewrite normalize_CreatedAt.
  - by rewrite normalize_CreatedAt.
  - by rewrite normalize_ScanID.
  - by rewrite normalize_ID.
  - rewrite normalize_LifecycleKey; congruence.
Qed.

Lemma closed_place repository t x :
  let g := NormalizeRepoFindingMetadata x in
  RF_LifecycleKey g ≠ "" → same_place (read_row repository (closed_finding t g)) g.
Proof.
  intros g Hk.
  set (h := with_lifecycle RepoFindingLifecycleFixed (RF_Owner g) (RF_FirstSeenAt g) (RF_LastSeenAt g) (Some t)
    (RF_ReopenedAt g) (RF_DismissedAt g) (RF_SuppressionExpiresAt g) g).
  change (closed_finding t g) with (NormalizeRepoFindingMetadata h). set (c := NormalizeRepoFindingMetadata h).
  assert (RF_LastSeenAt c = RF_LastSeenAt g) as El.
  { apply (normalize_LastSeenAt_again x h Hk eq_refl eq_refl). change (RF_CreatedAt h) with (RF_CreatedAt g).
    apply normalize_CreatedAt. }
  assert (same_place c g) as Hcg by (by apply (normalize_place x h)).
  pose proof Hcg as (_ & Ec & Es & Ei & Ek).
  assert (same_place (read_row repository c) c) as Hp.
  { unfold read_row. apply (normalize_place h); [change (RF_LifecycleKey c ≠ ""); by rewrite Ek|by case_decide..]. }
  destruct Hp as (Ho & Hc & Hs & Hi & Hkey). split_and!; try congruence.
  rewrite Ho. apply Hcg.
Qed.

(** [s'] is [s] with some rows closed. *)
Definition some_closed (t : Z) (s s' : RepoScanTables) : Prop :=
  repoScans s' = repoScans s ∧
  ∀ key, repoFindings s' !! key = repoFindings s !! key ∨
    ∃ f record, repoFindings s !! key = Some f ∧ repoScans s !! RF_ScanID f = Some record ∧
      RF_LifecycleKey (read_row (RepoScan_Repository record) f) ≠ "" ∧
      repoFindings s' !! key = Some (closed_finding t (read_row (RepoScan_Repository record) f)).

Lemma other_scan_ScanID scope repository excluded s s' f f' :
  repoScans s' = repoScans s → RF_ScanID f' = RF_ScanID f →
  other_scan scope repository excluded s' f' = other_scan scope repository excluded s f.
Proof. unfold other_scan. by intros -> ->. Qed.
Lemma other_scan_record scope repository excluded s f record :
  other_scan scope repository excluded s f = Some record → repoScans s !! RF_ScanID f = Some record.
Proof. unfold other_scan. case_decide; [done|]. intros (r & -> & Hr)%bind_Some. by case_match; simplify_eq. Qed.

Lemma closed_finding_ScanID t f : RF_ScanID (closed_finding t f) = RF_ScanID f.
Proof. unfold closed_finding. by rewrite normalize_ScanID. Qed.
Lemma closed_finding_ID t f : RF_ID (closed_finding t f) = RF_ID f.
Proof. unfold closed_finding. by rewrite normalize_ID. Qed.
Lemma closed_finding_key t f : row_key (closed_finding t f) = row_key f.
Proof. unfold row_key. by rewrite closed_finding_ScanID, closed_finding_ID. Qed.

Lemma some_closed_wf t s s' : some_closed t s s' → rows_wf s → rows_wf s'.
Proof.
  intros [_ Hrows] Hwf key g Hg. destruct (Hrows key) as [E|(f & record & Hf & _ & _ & E)]; [apply Hwf; congruence|].
  rewrite E in Hg. injection Hg as <-. rewrite closed_finding_key, read_row_key. by apply Hwf.
Qed.

Lemma lifecycle_candidate_place scope repository lifecycleKey excluded s s' f f' record g :
  repoScans s' = repoScans s → RF_ScanID f' = RF_ScanID f → repoScans s !! RF_ScanID f = Some record →
  same_place (read_row (RepoScan_Repository record) f') (read_row (RepoScan_Repository record) f) →
  lifecycle_candidate scope repository lifecycleKey excluded s f = Some g →
  ∃ g', lifecycle_candidate scope repository lifecycleKey excluded s' f' = Some g' ∧ same_place g g'.
Proof.
  intros Hs Hid Hrec Hplace Hg. destruct (candidate_row_key _ _ _ _ _ _ _ Hg) as (r & Hr & -> & Hk).
  assert (r = record) as -> by (apply other_scan_record in Hr; congruence).
  exists (read_row (RepoScan_Repository record) f'). split; [|by apply same_place_sym].
  unfold lifecycle_candidate. rewrite (other_scan_ScanID _ _ _ s s' f f') by done. rewrite Hr. cbn.
  destruct Hplace as (_ & _ & _ & _ & ->). by rewrite decide_True.
Qed.

(** The candidates before and after are in the same places. *)
Lemma some_closed_candidates t scope repository lifecycleKey excluded s s' :
  rows_wf s → some_closed t s s' →
  (∀ g, candidates scope repository lifecycleKey excluded s g →
    ∃ g', candidates scope repository lifecycleKey excluded s' g' ∧ same_place g g') ∧
  (∀ g', candidates scope repository lifecycleKey excluded s' g' →
    ∃ g, candidates scope repository lifecycleKey excluded s g ∧ same_place g g').
Proof.
  intros Hwf Hc. pose proof (some_closed_wf _ _ _ Hc Hwf) as Hwf'. destruct Hc as [Hs Hrows].
  assert (∀ f, repoFindings s !! row_key f = Some f → ∃ f', repoFindings s' !! row_key f' = Some f' ∧ (f' = f ∨
    (∃ record, repoScans s !! RF_ScanID f = Some record ∧ RF_ScanID f' = RF_ScanID f ∧
      same_place (read_row (RepoScan_Repository record) f') (read_row (RepoScan_Repository record) f)))) as Hfw.
  { intros f Hf. destruct (Hrows (row_key f)) as [E|(f0 & record & Hf0 & Hrec & Hk & E)].
    - exists f. rewrite E. auto.
    - rewrite Hf in Hf0. injection Hf0 as <-. eexists. split; [|right; exists record].
      + by rewrite closed_finding_key, read_row_key.
      + rewrite closed_finding_ScanID, read_row_ScanID. split_and!; [done..|]. by apply closed_place. }
  split.
  - intros g (f & Hf & Hg). destruct (Hfw f Hf) as (f' & Hf' & [->|(record & Hrec & Hid & Hp)]).
    + exists g. split; [|by apply same_place_intro]. exists f. split; [done|]. unfold lifecycle_candidate.
      by rewrite (other_scan_ScanID _ _ _ s s' f f).
    + destruct (lifecycle_candidate_place scope repository lifecycleKey excluded s s' f f' record g) as (g' & Hg' & ?); try done.
      exists g'. split; [|done]. by exists f'.
  - intros g' (f' & Hf' & Hg'). destruct (Hrows (row_key f')) as [E|(f & record & Hf & Hrec & Hk & E)].
    + exists g'. split; [|by apply same_place_intro]. exists f'. rewrite <-E. split; [done|]. unfold lifecycle_candidate in *.
      by rewrite <-(other_scan_ScanID _ _ _ s s' f' f').
    + rewrite Hf' in E. injection E as E. assert (row_key f = row_key f') as Hkey by (by apply Hwf).
      destruct (lifecycle_candidate_place scope repository lifecycleKey excluded s' s f' f record g') as (g & Hg & ?); try done.
      * by rewrite E, closed_finding_ScanID, read_row_ScanID.
      * by rewrite Hs, E, closed_finding_ScanID, read_row_ScanID.
      * rewrite E. by apply same_place_sym, closed_place.
      * exists g. split; [|by apply same_place_sym]. exists f. by rewrite Hkey.
Qed.

Lemma some_closed_latest t scope repoScan f s s' :
  rows_wf s → some_closed t s s' → is_latest scope repoScan f s' = is_latest scope repoScan f s.
Proof.
  intros Hwf Hc. pose proof (some_closed_wf _ _ _ Hc Hwf) as Hwf'.
  destruct (some_closed_candidates t scope (RepoScan_Repository repoScan) (TrimSpace (RF_LifecycleKey f)) (RepoScan_ID repoScan) s s' Hwf Hc)
    as [Hto Hfrom].
  apply eq_true_iff_eq. rewrite !is_latest_spec by done. unfold latest_row. split; intros (Hk & g & Hg & Es & Ei & Hmin).
  - destruct (Hfrom g Hg) as (g0 & Hg0 & Hp). split; [done|]. exists g0. split; [done|].
    destruct (Hp) as (_ & _ & E1 & E2 & _). split_and!; [congruence..|]. intros h Hh.
    destruct (Hto h Hh) as (h' & Hh' & Hp'). rewrite (same_place_order _ g _ h') by done. by apply Hmin.
  - destruct (Hto g Hg) as (g0 & Hg0 & Hp). split; [done|]. exists g0. split; [done|].
    destruct (Hp) as (_ & _ & E1 & E2 & _). split_and!; [congruence..|]. intros h Hh.
    destruct (Hfrom h Hh) as (h' & Hh' & Hp'). rewrite (same_place_order g0 g h h') by (by apply same_place_sym). by apply Hmin.
Qed.

(** ** Closing, row by row

    The loop changes the table it ranges over, and decides each row by the
    latest row of its key in the table as it then is; the outcome is as if every
    row had been decided on the table the loop started from, in any order. *)
Section mark.
Context (scope : Scope) (repoScan : RepoScanRecord) (t : Z) (closeNonPosture : bool) (inconclusive current : gset string).

Definition closing (s : RepoScanTables) (f : RepoFinding) : RepoFinding :=
  match other_scan scope (RepoScan_Repository repoScan) (RepoScan_ID repoScan) s f with
  | None => f
  | Some record =>
      let g := read_row (RepoScan_Repository record) f in
      if closable repoScan closeNonPosture inconclusive current g && is_latest scope repoScan g s
      then closed_finding t g else f
  end.

Lemma closable_key f : closable repoScan closeNonPosture inconclusive current f = true → RF_LifecycleKey f ≠ "".
Proof. unfold closable, nonempty_string. rewrite !andb_true_iff, negb_true_iff, bool_decide_eq_false. tauto. Qed.

(** The state when the rows [done] have been visited. *)
Definition marked (s s' : RepoScanTables) (done : list string) : Prop :=
  some_closed t s s' ∧ repoScanIDs s' = repoScanIDs s ∧ repoFindingIDs s' = repoFindingIDs s ∧
  repoCursors s' = repoCursors s ∧
  ∀ key, repoFindings s' !! key = (if decide (key ∈ done) then closing s <$> repoFindings s !! key else repoFindings s !! key).

Lemma mark_missing_step s s' done key f :
  rows_wf s → marked s s' done → key ∉ done → repoFindings s !! key = Some f →
  marked s (mark_missing scope repoScan t closeNonPosture inconclusive current s' (key, f)) (key :: done).
Proof.
  intros Hwf (Hc & Hids & Hfids & Hcur & Hrows) Hnot Hf.
  assert (other_scan scope (RepoScan_Repository repoScan) (RepoScan_ID repoScan) s' f =
          other_scan scope (RepoScan_Repository repoScan) (RepoScan_ID repoScan) s f) as Ho.
  { apply other_scan_ScanID; [apply Hc|done]. }
  assert (∀ s'', repoFindings s'' !! key = Some (closing s f) →
    (∀ k, k ≠ key → repoFindings s'' !! k = repoFindings s' !! k) →
    ∀ k, repoFindings s'' !! k = (if decide (k ∈ key :: done) then closing s <$> repoFindings s !! k else repoFindings s !! k)) as Hnext.
  { intros s'' Hk Hother k. destruct (decide (k = key)) as [->|Hne].
    - rewrite decide_True by (by left). by rewrite Hk, Hf.
    - rewrite Hother, Hrows by done. apply decide_ext. rewrite elem_of_cons. naive_solver. }
  assert (repoFindings s' !! key = Some f) as Hf' by (by rewrite Hrows, decide_False).
  unfold mark_missing. rewrite Ho. unfold closing in Hnext at 1.
  destruct (other_scan _ _ _ s f) as [record|] eqn:Hr.
  2: { split_and!; try done; [apply Hc..|]. apply Hnext; done. }
  set (g := read_row (RepoScan_Repository record) f) in *. rewrite (some_closed_latest t scope repoScan g s s') by done.
  destruct (closable _ _ _ _ g && is_latest scope repoScan g s) eqn:E.
  2: { split_and!; try done; [apply Hc..|]. apply Hnext; done. }
  apply andb_true_iff in E as [Hcl _]. apply closable_key in Hcl. split_and!; try done.
  - split; [apply Hc|]. intros k. cbn. destruct (decide (k = key)) as [->|Hne].
    + right. exists f, record. rewrite lookup_insert_eq. split_and!; try done. by apply other_scan_record in Hr.
    + rewrite lookup_insert_ne by done. apply Hc.
  - apply Hnext; cbn; [by rewrite lookup_insert_eq|]. intros k Hne. by rewrite lookup_insert_ne.
Qed.

Lemma mark_missing_list s l : ∀ s' done,
  rows_wf s → marked s s' done → NoDup l.*1 → (∀ key f, (key, f) ∈ l → key ∉ done ∧ repoFindings s !! key = Some f) →
  ∃ done', marked s (foldl (mark_missing scope repoScan t closeNonPosture inconclusive current) s' l) done' ∧
    ∀ key, key ∈ done' ↔ key ∈ done ∨ key ∈ l.*1.
Proof.
  induction l as [|[key f] l IH]; intros s' done Hwf Hm Hnd Hl.
  - exists done. split; [done|]. intros k. cbn. rewrite elem_of_nil. tauto.
  - cbn in Hnd. apply NoDup_cons in Hnd as [Hk Hnd]. destruct (Hl key f) as [Hnot Hf]; [by left|].
    destruct (IH (mark_missing scope repoScan t closeNonPosture inconclusive current s' (key, f)) (key :: done))
      as (done' & Hm' & Hd); try done.
    + by apply mark_missing_step.
    + intros k g Hin. split; [|by apply Hl; right]. rewrite not_elem_of_cons. split; [|by eapply Hl; right].
      intros ->. apply Hk, list_elem_of_fmap. by exists (key, g).
    + exists done'. split; [done|]. intros k. cbn. rewrite Hd, !elem_of_cons. tauto.
Qed.

Lemma mark_missing_all s :
  rows_wf s →
  foldl (mark_missing scope repoScan t closeNonPosture inconclusive current) s (map_range (repoFindings s)) =
  with_findings (closing s <$> repoFindings s) (repoFindingIDs s) s.
Proof.
  intros Hwf. destruct (mark_missing_list s (map_range (repoFindings s)) s []) as (done' & Hm & Hd); try done.
  - split_and!; try done. split; [done|]. intros key. by left.
  - apply NoDup_map_range.
  - intros key f Hin%elem_of_map_range. split; [apply not_elem_of_nil|done].
  - destruct Hm as (Hc & Hids & Hfids & Hcur & Hrows).
    destruct (foldl _ _ _) as [sc si rows fi cu] eqn:E. cbn in *. unfold with_findings.
    assert (rows = closing s <$> repoFindings s) as ->.
    { apply map_eq. intros key. rewrite Hrows, lookup_fmap. case_decide as Hin; [done|].
      destruct (repoFindings s !! key) as [f|] eqn:Hf; [|done]. exfalso. apply Hin, Hd. right.
      apply list_elem_of_fmap. exists (key, f). split; [done|]. by apply elem_of_map_range. }
    destruct Hc as [Hs _]. cbn in Hs. by rewrite Hs, Hids, Hfids, Hcur.
Qed.
End mark.
End closing.

(** ** What a completed scan closes *)
Section complete.
Context `{MapRange, FloatParser}.

(** The scan covered the whole repository, to the end: a deep scan that
    succeeded, was not truncated and was not limited to changed paths ([c] is its
    context, normalized as the code does). *)
Definition covers_repository (status : string) (truncated : bool) (c : RepoScanContext) : Prop :=
  succeeded status = true ∧ truncated = false ∧ Context_ScanMode c = RepoScanModeDeep ∧ Context_ChangedPaths c = [].

(** The source a finding comes from was read completely: its posture
    collection if it has one, every source otherwise. *)
Definition source_complete (scan : RepoScanRecord) (c : RepoScanContext) (f : RepoFinding) : Prop :=
  let postureSource := repoFindingPostureCollectionSource (RF_AdapterSource f) in
  (postureSource ≠ "" → repoScanSourceCollectedComplete (RepoScan_SourceHealthDetails scan) postureSource = true) ∧
  (postureSource = "" → Context_PartialSourceRun c = false).

(** [f], an earlier row of the repository as it is read, counts as fixed: it is
    the latest row of its key and was open, the scan could have seen it again and
    did not. *)
Record counts_as_fixed (scope : Scope) (scan : RepoScanRecord) (c : RepoScanContext) (s : RepoScanTables) (f : RepoFinding) : Prop := {
  fixed_open : RF_LifecycleStatus f ∈ [RepoFindingLifecycleOpen; RepoFindingLifecycleReopened];
  fixed_keyed : RF_LifecycleKey f ≠ "";
  fixed_unseen : ∀ key g, key ∈ default [] (repoFindingIDs s !! RepoScan_ID scan) → repoFindings s !! key = Some g →
    RF_LifecycleKey (NormalizeRepoFindingMetadata g) ≠ RF_LifecycleKey f;
  fixed_conclusive : RF_LifecycleKey f ∉ normalizeRepoScanLifecycleKeys (Context_InconclusiveLifecycleKeys c);
  fixed_source : source_complete scan (NormalizeRepoScanContext (NormalizeRepoScanContext c)) f;
  fixed_latest : latest_row scope scan f s;
}.

Lemma closable_spec scan c s f :
  RF_LifecycleKey f ≠ "" →
  closable scan (negb (Context_PartialSourceRun (NormalizeRepoScanContext (NormalizeRepoScanContext c))))
    (list_to_set (normalizeRepoScanLifecycleKeys (Context_InconclusiveLifecycleKeys c))) (current_keys (RepoScan_ID scan) s) f = true ↔
  RF_LifecycleStatus f ∈ [RepoFindingLifecycleOpen; RepoFindingLifecycleReopened] ∧
  (∀ key g, key ∈ default [] (repoFindingIDs s !! RepoScan_ID scan) → repoFindings s !! key = Some g →
    RF_LifecycleKey (NormalizeRepoFindingMetadata g) ≠ RF_LifecycleKey f) ∧
  RF_LifecycleKey f ∉ normalizeRepoScanLifecycleKeys (Context_InconclusiveLifecycleKeys c) ∧
  source_complete scan (NormalizeRepoScanContext (NormalizeRepoScanContext c)) f.
Proof.
  intros Hk. unfold closable, source_complete, nonempty_string.
  rewrite (bool_decide_eq_false_2 (RF_LifecycleKey f = "")) by done. cbn [negb andb].
  rewrite !andb_true_iff, !negb_true_iff, !bool_decide_eq_false, bool_decide_eq_true, elem_of_list_to_set.
  assert (RF_LifecycleKey f ∉ current_keys (RepoScan_ID scan) s ↔
    ∀ key g, key ∈ default [] (repoFindingIDs s !! RepoScan_ID scan) → repoFindings s !! key = Some g →
    RF_LifecycleKey (NormalizeRepoFindingMetadata g) ≠ RF_LifecycleKey f) as ->.
  { unfold current_keys. rewrite elem_of_list_to_set, list_elem_of_filter, list_elem_of_fmap. split.
    - intros Hno key g Hkey Hg E. apply Hno. split; [done|]. exists g. split; [done|]. apply list_elem_of_omap. by exists key.
    - intros Hall [_ (g & E & (key & Hkey & Hg)%list_elem_of_omap)]. by eapply Hall. }
  destruct (decide (repoFindingPostureCollectionSource (RF_AdapterSource f) = "")) as [E|E].
  - rewrite (bool_decide_eq_true_2 _ E). cbn. rewrite negb_true_iff. naive_solver.
  - rewrite (bool_decide_eq_false_2 _ E). cbn. naive_solver.
Qed.

Lemma scoped_repo_scan_Ok scope id s scan :
  scoped_repo_scan scope id s = Ok scan ↔ repoScans s !! id = Some scan ∧ repo_in_scope scope scan = true.
Proof.
  unfold scoped_repo_scan. destruct (repoScans s !! id) as [r|]; [|naive_solver].
  destruct (repo_in_scope scope r) eqn:E; split; [intros [= <-]; done|by intros [[= ->] ?]|done|].
  intros [[= ->] F]. congruence.
Qed.

(** C19. Completing a scan closes exactly the rows that count as fixed: an earlier
    row of the same repository and scope is rewritten as fixed when the scan
    covered the whole repository and the row counts as fixed, and is left as it
    is otherwise, as are all other rows; this does not depend on the order in
    which the loop, which changes the table it ranges over, visits it. *)
Theorem CompleteRepoScan_closes_missing ctx scope id status finishedAt commits files count truncated c message s s'
    (Hscope : RequireScope ctx = Ok scope) (Hwf : rows_wf s)
    (Hok : CompleteRepoScan ctx id status finishedAt commits files count truncated c message s = Ok s') :
  ∃ scan, repoScans s' !! id = Some scan ∧ ∀ key row, repoFindings s !! key = Some row →
    let covers := covers_repository status truncated (NormalizeRepoScanContext (NormalizeRepoScanContext c)) in
    let read := λ record, read_row (RepoScan_Repository record) row in
    let earlier := other_scan scope (RepoScan_Repository scan) (RepoScan_ID scan) (put_repo_scan id scan s) row in
    (∀ record, covers → earlier = Some record → counts_as_fixed scope scan c (put_repo_scan id scan s) (read record) →
      repoFindings s' !! key = Some (closed_finding finishedAt (read record))) ∧
    (¬ (covers ∧ ∃ record, earlier = Some record ∧ counts_as_fixed scope scan c (put_repo_scan id scan s) (read record)) →
      repoFindings s' !! key = Some row).
Proof.
  unfold CompleteRepoScan in Hok. rewrite Hscope in Hok. cbn [mbind result_bind] in Hok.
  open_bind Hok record0 Hrecord. open_bind Hok u _. set (c1 := NormalizeRepoScanContext c) in *.
  match type of Hok with context [put_repo_scan id ?r s] => set (scan := r) in * end.
  assert (RepoScan_Status scan = TrimSpace status) as Hstatus by reflexivity. clearbody scan.
  set (s1 := put_repo_scan id scan s) in *.
  assert (rows_wf s1) as Hwf1 by exact Hwf.
  assert (repoScans s1 !! id = Some scan) as Hscan by (apply lookup_insert_eq).
  assert (∀ st, succeeded (TrimSpace st) = succeeded st) as Hst.
  { intros st. unfold succeeded. by rewrite canon_TrimSpace. }
  assert (repoScanClosureEligible (TrimSpace status) truncated c1 = true ↔
    covers_repository status truncated (NormalizeRepoScanContext c1)) as Helig.
  { unfold repoScanClosureEligible, covers_repository. rewrite !andb_true_iff, negb_true_iff, bool_decide_eq_true, Hst.
    unfold RepoScanModeDeep. destruct (Context_ChangedPaths (NormalizeRepoScanContext c1)); cbn; naive_solver. }
  unfold shouldCloseMissingPostureRepoFindings in Hok. rewrite Hstatus in Hok.
  destruct (repoScanClosureEligible (TrimSpace status) truncated c1) eqn:E; injection Hok as <-; exists scan.
  2: { split; [exact Hscan|]. intros key row Hrow covers read earlier. split; [|done].
       intros record Hc. apply Helig in Hc. discriminate Hc. }
  unfold markMissingRepoFindingsFixedLocked, shouldCloseMissingRepoFindings. rewrite E. cbn [andb].
  rewrite mark_missing_all by done. split; [exact Hscan|]. intros key row Hrow. fold s1.
  set (read := λ record, read_row (RepoScan_Repository record) row).
  set (earlier := other_scan scope (RepoScan_Repository scan) (RepoScan_ID scan) s1 row).
  set (covers := covers_repository status truncated (NormalizeRepoScanContext c1)).
  assert covers as Hcov by (by apply Helig).
  change (repoFindings (with_findings (closing scope scan finishedAt
    (negb (Context_PartialSourceRun (NormalizeRepoScanContext c1))) (list_to_set (normalizeRepoScanLifecycleKeys (Context_InconclusiveLifecycleKeys c)))
    (current_keys (RepoScan_ID scan) s1) s1 <$> repoFindings s1) (repoFindingIDs s1) s1)) with
    (closing scope scan finishedAt (negb (Context_PartialSourceRun (NormalizeRepoScanContext c1)))
      (list_to_set (normalizeRepoScanLifecycleKeys (Context_InconclusiveLifecycleKeys c)))
      (current_keys (RepoScan_ID scan) s1) s1 <$> repoFindings s1).
  rewrite lookup_fmap. change (repoFindings s1) with (repoFindings s). rewrite Hrow. cbn [fmap option_fmap option_map].
  unfold closing. fold earlier. destruct earlier as [record|]; [|by split].
  assert (RF_LifecycleKey (read record) ≠ "" → closable scan (negb (Context_PartialSourceRun (NormalizeRepoScanContext c1)))
    (list_to_set (normalizeRepoScanLifecycleKeys (Context_InconclusiveLifecycleKeys c))) (current_keys (RepoScan_ID scan) s1)
    (read record) && is_latest scope scan (read record) s1 = true ↔ counts_as_fixed scope scan c s1 (read record)) as Hiff.
  { intros Hk. pose proof (closable_spec scan c s1 (read record) Hk) as Hcs. fold c1 in Hcs.
    rewrite andb_true_iff, Hcs, is_latest_spec by done. split; [|by intros []].
    intros [(? & ? & ? & ?) ?]. by constructor. }
  fold (read record). split.
  - intros r _ [= <-] Hfix. rewrite (proj2 (Hiff (fixed_keyed _ _ _ _ _ Hfix)) Hfix). done.
  - intros Hnot. destruct (closable _ _ _ _ _ && _) eqn:Ec; [|done]. exfalso. apply Hnot. split; [done|].
    exists record. split; [done|]. apply Hiff; [|done]. apply andb_true_iff in Ec as [Ec _]. by apply closable_key in Ec.
Qed.
End complete.

(** ** What a new observation makes of an earlier row *)

(** Well-formed tables: scans under their ids (UUIDs, without a bar), in
    creation order; findings under their scan and id, and listed there once. *)
Record tables_wf (s : RepoScanTables) : Prop := {
  wf_scans : ∀ id r, repoScans s !! id = Some r → RepoScan_ID r = id ∧ no_byte "|" id;
  wf_order : NoDup (repoScanIDs s) ∧ ∀ id, id ∈ repoScanIDs s ↔ is_Some (repoScans s !! id);
  wf_rows : ∀ key f, repoFindings s !! key = Some f →
    row_key f = key ∧ is_Some (repoScans s !! RF_ScanID f) ∧ key ∈ default [] (repoFindingIDs s !! RF_ScanID f);
  wf_keys : ∀ id, NoDup (default [] (repoFindingIDs s !! id)) ∧
    ∀ key, key ∈ default [] (repoFindingIDs s !! id) → ∃ f, repoFindings s !! key = Some f ∧ RF_ScanID f = id;
}.
Lemma tables_rows_wf s : tables_wf s → rows_wf s.
Proof. intros Hwf key f Hf. by apply (wf_rows _ Hwf). Qed.

Lemma row_key_inj f g : no_byte "|" (RF_ScanID f) → no_byte "|" (RF_ScanID g) → row_key f = row_key g →
  RF_ScanID f = RF_ScanID g ∧ RF_ID f = RF_ID g.
Proof.
  intros Hf Hg E. unfold row_key in E.
  change (RF_ScanID f +:+ String "|" "" +:+ RF_ID f = RF_ScanID g +:+ String "|" "" +:+ RF_ID g) in E.
  by apply join_inj in E.
Qed.

Section observation.
Context `{MapRange, FloatParser}.

Lemma latest_ext scope repository lifecycleKey excluded s s' :
  rows_wf s → rows_wf s' →
  (∀ g, candidates scope repository (TrimSpace lifecycleKey) excluded s g ↔
        candidates scope repository (TrimSpace lifecycleKey) excluded s' g) →
  latestRepoFindingLifecycleLocked scope repository lifecycleKey excluded s =
  latestRepoFindingLifecycleLocked scope repository lifecycleKey excluded s'.
Proof.
  intros Hwf Hwf' Hiff. destruct (decide (TrimSpace lifecycleKey = "")) as [E|E].
  { unfold latestRepoFindingLifecycleLocked. by rewrite !decide_True. }
  pose proof (latest_spec scope repository lifecycleKey excluded s Hwf E) as H1.
  pose proof (latest_spec scope repository lifecycleKey excluded s' Hwf' E) as H2.
  destruct (latestRepoFindingLifecycleLocked scope repository lifecycleKey excluded s) as [b|],
    (latestRepoFindingLifecycleLocked scope repository lifecycleKey excluded s') as [b'|]; try done.
  - f_equal. destruct H1 as [Hb Hmin], H2 as [Hb' Hmin']. apply Hiff in Hb'.
    apply (candidates_inj _ _ _ _ _ _ _ Hb Hb'), row_order_Eq.
    pose proof (Hmin b' Hb') as Hle. pose proof (Hmin' b (proj1 (Hiff b) Hb)) as Hge.
    rewrite (co_antisym _ row_order_ok b b') in Hge. by destruct (row_order b b').
  - destruct H1 as [Hb _]. by destruct (H2 b (proj1 (Hiff b) Hb)).
  - destruct H2 as [Hb _]. by destruct (H1 b' (proj2 (Hiff b') Hb)).
Qed.

(** Rows of the scan itself are no candidates. *)
Lemma candidates_own scope repository lifecycleKey id f s :
  tables_wf s → no_byte "|" id → RF_ScanID f = id →
  ∀ g, candidates scope repository lifecycleKey id s g ↔ candidates scope repository lifecycleKey id (put_finding id f s) g.
Proof.
  intros Hwf Hid Hscan g. unfold candidates.
  assert (∀ x, lifecycle_candidate scope repository lifecycleKey id (put_finding id f s) x =
    lifecycle_candidate scope repository lifecycleKey id s x) as Hsame by done.
  assert (∀ x y, lifecycle_candidate scope repository lifecycleKey id s x = Some y → RF_ScanID x ≠ id) as Hne.
  { intros x y (r & Hr & _)%candidate_row_key E. unfold other_scan in Hr. by rewrite E, decide_True in Hr. }
  assert (row_key f = id +:+ "|" +:+ RF_ID f) as Hkey by (unfold row_key; by rewrite Hscan).
  split; intros (x & Hx & Hc); exists x; split; try done; rewrite ?Hsame in *; cbn in *; rewrite <-Hkey in *.
  - rewrite lookup_insert_ne; [done|]. intros E. destruct (wf_rows _ Hwf _ _ Hx) as (_ & [r Hr] & _).
    apply row_key_inj in E as [E _]; [|by rewrite Hscan|by apply (wf_scans _ Hwf _ _ Hr)].
    apply (Hne _ _ Hc). congruence.
  - apply lookup_insert_Some in Hx as [[E <-]|[_ Hx]]; [|done]. by destruct (Hne _ _ Hc).
Qed.

Lemma elem_of_append_unique l x y : x ∈ append_unique l y ↔ x ∈ l ∨ x = y.
Proof.
  unfold append_unique. case_bool_decide as E; [split; [by left|by intros [?| ->]]|].
  by rewrite elem_of_app, list_elem_of_singleton.
Qed.
Lemma NoDup_append_unique l y : NoDup l → NoDup (append_unique l y).
Proof.
  intros Hl. unfold append_unique. case_bool_decide as E; [done|]. apply NoDup_app. split_and!; [done| |apply NoDup_singleton].
  by intros x Hx ->%list_elem_of_singleton.
Qed.

Lemma put_finding_wf f s :
  tables_wf s → is_Some (repoScans s !! RF_ScanID f) → tables_wf (put_finding (RF_ScanID f) f s).
Proof.
  intros Hwf [r Hr]. pose proof (proj2 (wf_scans _ Hwf _ _ Hr)) as Hbar.
  assert (∀ key g, repoFindings s !! key = Some g → row_key f = key → RF_ScanID g = RF_ScanID f) as Hsame.
  { intros key g Hg E. destruct (wf_rows _ Hwf _ _ Hg) as (Ek & [r' Hr'] & _). symmetry.
    apply (row_key_inj f g); [done|by apply (wf_scans _ Hwf _ _ Hr')|by rewrite Ek]. }
  split.
  - apply (wf_scans _ Hwf).
  - apply (wf_order _ Hwf).
  - intros key g Hg. cbn in Hg. change (RF_ScanID f +:+ "|" +:+ RF_ID f) with (row_key f) in Hg.
    apply lookup_insert_Some in Hg as [[<- <-]|[Hne Hg]].
    + split_and!; [done|by eexists|]. cbn. rewrite lookup_insert_eq. cbn. apply elem_of_append_unique. by right.
    + destruct (wf_rows _ Hwf _ _ Hg) as (Ek & Hs & Hin). split_and!; [done..|]. cbn.
      destruct (decide (RF_ScanID f = RF_ScanID g)) as [E|E].
      * rewrite E, lookup_insert_eq. cbn. apply elem_of_append_unique. by left.
      * by rewrite lookup_insert_ne.
  - intros id. destruct (wf_keys _ Hwf id) as [Hnd Hin]. cbn. change (RF_ScanID f +:+ "|" +:+ RF_ID f) with (row_key f).
    destruct (decide (RF_ScanID f = id)) as [<-|E].
    + rewrite lookup_insert_eq. cbn. split; [by apply NoDup_append_unique|]. intros key [Hkey| ->]%elem_of_append_unique.
      * destruct (decide (row_key f = key)) as [<-|Hne]; [exists f; by rewrite lookup_insert_eq|].
        destruct (Hin key Hkey) as (g & Hg & Hs). exists g. by rewrite lookup_insert_ne.
      * exists f. by rewrite lookup_insert_eq.
    + rewrite lookup_insert_ne by done. split; [done|]. intros key Hkey. destruct (Hin key Hkey) as (g & Hg & Hs).
      exists g. split; [|done]. rewrite lookup_insert_ne; [done|]. intros Ek. apply E. by rewrite <-Hs, (Hsame key g).
Qed.

(** The earlier rows of a lifecycle key: as they are read, from other scans of
    the same repository in the scope. *)
Definition earlier_row (scope : Scope) (repository lifecycleKey id : string) (s : RepoScanTables) (g : RepoFinding) : Prop :=
  TrimSpace lifecycleKey ≠ "" ∧ ∃ f record,
    repoFindings s !! row_key f = Some f ∧ repoScans s !! RF_ScanID f = Some record ∧
    TrimSpace (RF_ScanID f) ≠ TrimSpace id ∧ repo_in_scope scope record = true ∧
    EqualFold (TrimSpace (RepoScan_Repository record)) (TrimSpace repository) = true ∧
    g = read_row (RepoScan_Repository record) f ∧ TrimSpace (RF_LifecycleKey g) = TrimSpace lifecycleKey.
(** The latest of them, by the instants they were last seen and created. *)
Definition latest_earlier (scope : Scope) (repository lifecycleKey id : string) (s : RepoScanTables) (previous : option RepoFinding) : Prop :=
  match previous with
  | None => ∀ g, ¬ earlier_row scope repository lifecycleKey id s g
  | Some p => earlier_row scope repository lifecycleKey id s p ∧
      ∀ g, earlier_row scope repository lifecycleKey id s g → row_order p g ≠ Gt
  end.
Lemma earlier_row_candidates scope repository lifecycleKey id s g : TrimSpace lifecycleKey ≠ "" →
  candidates scope repository (TrimSpace lifecycleKey) id s g ↔ earlier_row scope repository lifecycleKey id s g.
Proof.
  intros Hk. unfold earlier_row, candidates, lifecycle_candidate, other_scan. split.
  - intros (f & Hf & Hg). split; [done|]. case_decide as Hid; [done|]. destruct (repoScans s !! RF_ScanID f) as [record|] eqn:Er; [|done].
    cbn in Hg. destruct (_ && _) eqn:Ein; [|done]. apply andb_true_iff in Ein as [? ?]. cbn in Hg. case_decide; [|done]. injection Hg as <-.
    by exists f, record.
  - intros (_ & f & record & Hf & Hr & Hid & Hin & Hrep & -> & Hkey). exists f. split; [done|].
    rewrite decide_False, Hr by done. cbn. rewrite Hin, Hrep. cbn. by rewrite decide_True.
Qed.
Lemma latest_is_latest scope repository lifecycleKey id s : rows_wf s →
  latest_earlier scope repository lifecycleKey id s (latestRepoFindingLifecycleLocked scope repository lifecycleKey id s).
Proof.
  intros Hwf. destruct (decide (TrimSpace lifecycleKey = "")) as [E|E].
  { unfold latestRepoFindingLifecycleLocked. rewrite decide_True by done. by intros g []. }
  pose proof (latest_spec scope repository lifecycleKey id s Hwf E) as Hl. unfold latest_earlier.
  destruct (latestRepoFindingLifecycleLocked _ _ _ _ _) as [b|].
  - destruct Hl as [Hb Hmin]. split; [by apply earlier_row_candidates|]. intros g Hg. by apply Hmin, earlier_row_candidates.
  - intros g Hg. by apply (Hl g), earlier_row_candidates.
Qed.

(** The status of an observation, from that of the latest earlier row: a
    dismissal is over when it has an expiry and that is not after the
    observation. *)
Definition dismissal_over (now : Z) (p : RepoFinding) (observedAt : Z) : bool :=
  match RF_SuppressionExpiresAt p with
  | Some t => negb (IsZero t) && (t <=? if IsZero observedAt then now else observedAt)
  | None => false
  end.
Definition next_status (previous : option RepoFinding) (now observedAt : Z) : string :=
  match previous with
  | None => "open"
  | Some p =>
      if bool_decide (RF_LifecycleStatus p ∈ ["fixed"; "reopened"]) then "reopened"
      else if bool_decide (RF_LifecycleStatus p ∈ ["suppressed"; "risk_accepted"; "false_positive"]) then
        if dismissal_over now p observedAt then "reopened" else RF_LifecycleStatus p
      else "open"
  end.
(** When the finding was first seen: what the latest earlier row says or, if it
    does not say, when that row was created. *)
Definition next_first_seen (previous : option RepoFinding) (observedAt : Z) : Z :=
  match previous with
  | None => observedAt
  | Some p => match RF_FirstSeenAt p with
              | Some t => if IsZero t then (if IsZero (RF_CreatedAt p) then observedAt else RF_CreatedAt p) else t
              | None => if IsZero (RF_CreatedAt p) then observedAt else RF_CreatedAt p
              end
  end.

Lemma next_status_nonempty previous now observedAt : next_status previous now observedAt ≠ "".
Proof.
  unfold next_status. destruct previous as [p|]; [|done]. case_bool_decide; [done|]. case_bool_decide as E; [|done]. destruct (dismissal_over _ _ _); [done|].
  intros E'. rewrite E' in E. set_unfold in E. naive_solver.
Qed.
Lemma next_first_seen_Some p observedAt : next_first_seen (Some p) observedAt = first_seen p observedAt.
Proof. unfold next_first_seen, first_seen, timeValue. by destruct (RF_FirstSeenAt p). Qed.
Lemma dismissal_over_expired now p observedAt : repoFindingDismissalExpired now p observedAt = dismissal_over now p observedAt.
Proof.
  unfold repoFindingDismissalExpired, dismissal_over, After. destruct (RF_SuppressionExpiresAt p) as [t|]; [|done]. destruct (IsZero t); [done|]. cbn. by rewrite <-Z.leb_antisym.
Qed.

Lemma snapshot_status now f p observedAt :
  (applyRepoFindingLifecycleSnapshot now f p observedAt).2 = next_status (Some p) now observedAt.
Proof.
  unfold applyRepoFindingLifecycleSnapshot, next_status. rewrite dismissal_over_expired. case_decide as Ef; [by rewrite Ef|]. unfold dismissed_statuses.
  change [RepoFindingLifecycleSuppressed; RepoFindingLifecycleRiskAccepted; RepoFindingLifecycleFalsePositive]
    with ["suppressed"; "risk_accepted"; "false_positive"].
  destruct (bool_decide (_ ∈ ["suppressed"; "risk_accepted"; "false_positive"])) eqn:Ed.
  - rewrite bool_decide_eq_false_2; [by destruct (dismissal_over _ _ _)|]. apply bool_decide_eq_true in Ed. intros Er.
    apply elem_of_cons in Er as [Er|Er]; [|apply list_elem_of_singleton in Er]; rewrite Er in Ed; revert Ed; apply (bool_decide_unpack _); by vm_compute.
  - destruct (decide (_ = RepoFindingLifecycleReopened)) as [Er|Er]; [by rewrite Er|]. rewrite bool_decide_eq_false_2; [done|]. intros E. set_unfold in E. naive_solver.
Qed.
Lemma snapshot_keeps now f p observedAt :
  RF_LifecycleKey (applyRepoFindingLifecycleSnapshot now f p observedAt).1 = RF_LifecycleKey f ∧
  RF_ScanID (applyRepoFindingLifecycleSnapshot now f p observedAt).1 = RF_ScanID f ∧
  RF_ID (applyRepoFindingLifecycleSnapshot now f p observedAt).1 = RF_ID f.
Proof.
  unfold applyRepoFindingLifecycleSnapshot. case_decide; [done|]. case_bool_decide; [by case_match|by case_decide].
Qed.

(** The row an observation leaves. *)
Lemma carry_over_spec now previous f observedAt :
  RF_LifecycleKey f ≠ "" →
  let row := carry_over now previous f observedAt in
  RF_LifecycleStatus row = next_status previous now observedAt ∧
  RF_FirstSeenAt row = Some (next_first_seen previous observedAt) ∧ RF_LastSeenAt row = Some observedAt ∧
  RF_LifecycleKey row = RF_LifecycleKey f ∧ RF_ScanID row = RF_ScanID f ∧ RF_ID row = RF_ID f.
Proof.
  intros Hk row. unfold row, carry_over. destruct previous as [p|].
  - destruct (applyRepoFindingLifecycleSnapshot now f p observedAt) as [f' status] eqn:E.
    pose proof (snapshot_status now f p observedAt) as Hs. destruct (snapshot_keeps now f p observedAt) as (Ek & Es & Ei).
    rewrite E in *. cbn [fst snd] in Hs, Ek, Es, Ei. subst status. cbv zeta. split_and!.
    + rewrite normalize_LifecycleStatus; [done|]. exact (next_status_nonempty (Some p) now observedAt).
    + rewrite next_first_seen_Some. by apply normalize_FirstSeenAt.
    + by apply normalize_LastSeenAt.
    + rewrite normalize_LifecycleKey; [done|]. cbn. congruence.
    + rewrite normalize_ScanID. done.
    + rewrite normalize_ID. done.
  - split_and!; [by rewrite normalize_LifecycleStatus|by apply normalize_FirstSeenAt|by apply normalize_LastSeenAt|
      by rewrite normalize_LifecycleKey|by rewrite normalize_ScanID|by rewrite normalize_ID].
Qed.

Lemma identified_key f : RF_LifecycleKey (identified f) ≠ "".
Proof. unfold identified. case_decide; [apply RepoFindingLifecycleKey_nonempty|done]. Qed.
Lemma identified_keeps f :
  RF_ScanID (identified f) = RF_ScanID f ∧ RF_ID (identified f) = RF_ID f.
Proof. unfold identified. by case_decide. Qed.

(** The row the loop stores for [f]. *)
Definition observation_row (now : Z) (scope : Scope) (id : string) (scan : RepoScanRecord) (s : RepoScanTables) (f : RepoFinding)
    : RepoFinding :=
  let seen := identified (observe now id scan f) in
  carry_over now
    (latestRepoFindingLifecycleLocked scope (TrimSpace (RepoScan_Repository scan)) (RF_LifecycleKey seen) id s)
    seen (observed_at now scan f).
Lemma upsert_finding_row now scope id scan s f :
  RepoScan_ID scan = id → upsert_finding now scope id scan s f = put_finding id (observation_row now scope id scan s f) s.
Proof.
  intros Hid. unfold upsert_finding, applyRepoFindingLifecycleLocked, observation_row. rewrite Hid.
  assert (RF_CreatedAt (observe now id scan f) = observed_at now scan f) as -> by (unfold observe; by rewrite normalize_CreatedAt).
  done.
Qed.
Lemma observation_row_spec now scope id scan s f :
  let row := observation_row now scope id scan s f in
  let seen := identified (observe now id scan f) in
  let observedAt := observed_at now scan f in
  let previous := latestRepoFindingLifecycleLocked scope (TrimSpace (RepoScan_Repository scan)) (RF_LifecycleKey seen) id s in
  RF_LifecycleStatus row = next_status previous now observedAt ∧
  RF_FirstSeenAt row = Some (next_first_seen previous observedAt) ∧ RF_LastSeenAt row = Some observedAt ∧
  RF_LifecycleKey row = RF_LifecycleKey seen ∧ RF_ScanID row = id ∧ RF_ID row = RF_ID f.
Proof.
  intros row seen observedAt previous.
  destruct (carry_over_spec now previous seen observedAt (identified_key _)) as (H1 & H2 & H3 & H4 & H5 & H6).
  destruct (identified_keeps (observe now id scan f)) as [Es Ei].
  change (row) with (carry_over now previous seen observedAt). split_and!; try done.
  - rewrite H5. unfold seen. rewrite Es. unfold observe. by rewrite normalize_ScanID.
  - rewrite H6. unfold seen. rewrite Ei. unfold observe. by rewrite normalize_ID.
Qed.

(** The rows of one upsert do not see each other. *)
Lemma upsert_loop now scope id scan s0 : ∀ findings s,
  RepoScan_ID scan = id → repoScans s0 !! id = Some scan → tables_wf s0 → tables_wf s → repoScans s = repoScans s0 →
  (∀ repository key, latestRepoFindingLifecycleLocked scope repository key id s =
                     latestRepoFindingLifecycleLocked scope repository key id s0) →
  NoDup (RF_ID <$> findings) →
  let s' := foldl (upsert_finding now scope id scan) s findings in
  tables_wf s' ∧ repoScans s' = repoScans s0 ∧
  (∀ key, key ∉ (λ f, id +:+ "|" +:+ RF_ID f) <$> findings → repoFindings s' !! key = repoFindings s !! key) ∧
  ∀ f, f ∈ findings → repoFindings s' !! (id +:+ "|" +:+ RF_ID f) = Some (observation_row now scope id scan s0 f).
Proof.
  induction findings as [|f findings IH]; intros s Hid Hscan Hwf0 Hwf Hscans Hlatest Hnd; cbn [foldl].
  { split_and!; [done..|]. by intros ? ?%elem_of_nil. }
  cbn [fmap list_fmap] in Hnd. apply NoDup_cons in Hnd as [Hf Hnd].
  rewrite upsert_finding_row by done.
  assert (observation_row now scope id scan s f = observation_row now scope id scan s0 f) as ->.
  { unfold observation_row. by rewrite Hlatest. }
  set (row := observation_row now scope id scan s0 f).
  destruct (observation_row_spec now scope id scan s0 f) as (_ & _ & _ & _ & Hrow & Hrowid). fold row in Hrow, Hrowid.
  pose proof (proj2 (wf_scans _ Hwf0 _ _ Hscan)) as Hbar.
  assert (tables_wf (put_finding id row s)) as Hwf1.
  { pose proof (put_finding_wf row s Hwf) as Hp. rewrite Hrow in Hp. apply Hp. rewrite Hscans, Hscan. by eexists. }
  destruct (IH (put_finding id row s)) as (Hw & Hs & Hother & Hrows); try done.
  { intros repository key. rewrite <-Hlatest. symmetry. apply latest_ext; try by apply tables_rows_wf.
    by apply candidates_own. }
  split_and!; [done..| |].
  - intros key [Hne Hkey]%not_elem_of_cons. rewrite Hother by done. cbn. rewrite Hrowid. by apply lookup_insert_ne.
  - intros x [->|Hx]%elem_of_cons; [|by apply Hrows]. rewrite Hother.
    + cbn. rewrite Hrowid. apply lookup_insert_eq.
    + intros (y & E & Hy)%list_elem_of_fmap. apply Hf, list_elem_of_fmap. exists y. split; [|done].
      by apply (inj (String.append id)) in E; apply (inj (String.append "|")) in E.
Qed.

(** C24. Storing what a scan found: each finding becomes a row whose status
    follows from the latest earlier row of its lifecycle key, that is the row of
    another scan of the repository that was last seen last (a fixed finding is
    reopened, a dismissed one stays dismissed until the dismissal expires, a new
    one is open), that keeps the instant the finding was first seen, and was last
    seen when the finding says it was made or, if it does not say, when the scan
    started; the findings of one call do not affect each other, and no other row
    changes. *)
Theorem UpsertRepoFindings_lifecycle now ctx scope id findings s s'
    (Hscope : RequireScope ctx = Ok scope) (Hwf : tables_wf s) (Hids : NoDup (RF_ID <$> findings))
    (Hok : UpsertRepoFindings now ctx id findings s = Ok s') :
  ∃ scan, repoScans s !! id = Some scan ∧ repo_pending scan = true ∧
    (∀ f, f ∈ findings →
      let seen := identified (observe now id scan f) in
      let observedAt := if negb (IsZero (RF_CreatedAt f)) then RF_CreatedAt f
                        else if negb (IsZero (RepoScan_StartedAt scan)) then RepoScan_StartedAt scan else now in
      ∃ previous row, latest_earlier scope (TrimSpace (RepoScan_Repository scan)) (RF_LifecycleKey seen) id s previous ∧
        repoFindings s' !! (id +:+ "|" +:+ RF_ID f) = Some row ∧ RF_LifecycleKey row = RF_LifecycleKey seen ∧
        RF_LifecycleStatus row = next_status previous now observedAt ∧
        RF_FirstSeenAt row = Some (next_first_seen previous observedAt) ∧ RF_LastSeenAt row = Some observedAt) ∧
    ∀ key, key ∉ (λ f, id +:+ "|" +:+ RF_ID f) <$> findings → repoFindings s' !! key = repoFindings s !! key.
Proof.
  unfold UpsertRepoFindings in Hok. rewrite Hscope in Hok. cbn [mbind result_bind] in Hok.
  open_bind Hok scan Hscan. open_bind Hok u Hpend. apply guard_err_Ok in Hpend. injection Hok as <-.
  apply scoped_repo_scan_Ok in Hscan as [Hscan _].
  destruct (upsert_loop now scope id scan s findings s) as (_ & _ & Hother & Hrows); try done.
  { by apply (wf_scans _ Hwf). }
  exists scan. split_and!; [done..| |done]. intros f Hf seen observedAt. change observedAt with (observed_at now scan f). clear observedAt.
  eexists _, (observation_row now scope id scan s f). split; [apply latest_is_latest; by apply tables_rows_wf|]. split; [by apply Hrows|].
  destruct (observation_row_spec now scope id scan s f) as (? & ? & ? & ? & _). done.
Qed.
End observation.

(** ** Examples *)
#[local] Existing Instance canonical_range.
#[local] Existing Instance insertion_sort.
Definition no_floats : FloatParser := {| parse_float _ := None |}.
#[local] Existing Instance no_floats.

Definition sample_repo_ctx : Context := Some (mkScope "acme" "prod").
Definition sample_repo_finding (id key : string) : RepoFinding :=
  mkRF id "" "secret_exposure" "high" float_zero "" "" "" "" id "" [] "" "" "config.yml" 0 "detector" "" None "" key ""
    "" None None None None None None "" "" "" "" "" "" "" None "" time_zero (mkTriage "" "" None None None "").
Definition sample_deep : RepoScanContext := mkRepoContext RepoScanModeDeep "" "" "" "" [] [] false "" [].

(** The first scan finds two secrets, the second one sees only the first of them again. *)
Definition first_repo_scan : result RepoScanTables :=
  s ← CreateRepoScan "r1" sample_repo_ctx "acme/app" no_repo_source sample_deep 10 empty_repo_tables;
  s ← UpsertRepoFindings 11 sample_repo_ctx "r1" [sample_repo_finding "a" "k1"; sample_repo_finding "b" "k2"] s.1;
  s ← CompleteRepoScan sample_repo_ctx "r1" "succeeded" 12 1 1 2 false sample_deep "" s;
  fst <$> CreateRepoScan "r2" sample_repo_ctx "acme/app" no_repo_source sample_deep 20 s.
Definition repo_tables_one : RepoScanTables := ok_or empty_repo_tables first_repo_scan.
Definition second_repo_scan : result RepoScanTables :=
  UpsertRepoFindings 21 sample_repo_ctx "r2" [sample_repo_finding "c" "k1"] repo_tables_one.
Definition repo_tables_two : RepoScanTables := ok_or empty_repo_tables second_repo_scan.
Definition third_repo_scan : result RepoScanTables :=
  CompleteRepoScan sample_repo_ctx "r2" "succeeded" 22 1 1 1 false sample_deep "" repo_tables_two.
Definition repo_tables_three : RepoScanTables := ok_or empty_repo_tables third_repo_scan.

Example sample_repo_run :
  is_ok first_repo_scan && is_ok second_repo_scan && is_ok third_repo_scan = true ∧
  ((λ f, (RF_LifecycleStatus f, RF_FirstSeenAt f, RF_FixedAt f)) <$> repoFindings repo_tables_three) =
    {["r1|a" := ("open", Some 10, None); "r1|b" := ("fixed", Some 10, Some 22); "r2|c" := ("open", Some 10, None)]}.
Proof. by vm_compute. Qed.

(** Well-formedness of given tables can be computed. *)
#[export] Instance no_byte_dec b s : Decision (no_byte b s).
Proof. unfold no_byte. apply _. Defined.
Definition tables_wfb (s : RepoScanTables) : bool :=
  bool_decide (map_Forall (λ id r, RepoScan_ID r = id ∧ no_byte "|" id) (repoScans s)) &&
  bool_decide (NoDup (repoScanIDs s)) && bool_decide (list_to_set (repoScanIDs s) =@{gset string} dom (repoScans s)) &&
  bool_decide (map_Forall (λ key f, row_key f = key ∧ RF_ScanID f ∈ dom (repoScans s) ∧
    key ∈ default [] (repoFindingIDs s !! RF_ScanID f)) (repoFindings s)) &&
  bool_decide (map_Forall (λ id keys, NoDup keys ∧ Forall (λ key, RF_ScanID <$> repoFindings s !! key = Some id) keys)
    (repoFindingIDs s)).
Lemma tables_wfb_ok s : tables_wfb s = true → tables_wf s.
Proof.
  unfold tables_wfb. rewrite !andb_true_iff, !bool_decide_eq_true. intros [[[[Hscans Hnd] Hdom] Hrows] Hkeys]. split.
  - intros id r Hr. by apply (Hscans id r).
  - split; [done|]. intros id. by rewrite <-elem_of_dom, <-Hdom, elem_of_list_to_set.
  - intros key f Hf. destruct (Hrows key f Hf) as (? & ?%elem_of_dom & ?). done.
  - intros id. destruct (repoFindingIDs s !! id) as [keys|] eqn:E; cbn; [|split; [constructor|by intros ? ?%elem_of_nil]].
    destruct (Hkeys id keys E) as [? Hall]. split; [done|]. intros key Hkey. rewrite Forall_forall in Hall.
    specialize (Hall key Hkey). apply fmap_Some in Hall as (f & Hf & ->). by exists f.
Qed.

Lemma UpsertRepoFindings_lifecycle_witness :
  ∃ previous row, latest_earlier (mkScope "acme" "prod") "acme/app" "k1" "r2" repo_tables_one (Some previous) ∧
    repoFindings repo_tables_two !! "r2|c" = Some row ∧ RF_LastSeenAt row = Some 20 ∧
    RF_LifecycleStatus row = next_status (Some previous) 21 20 ∧ RF_FirstSeenAt row = Some (next_first_seen (Some previous) 20).
Proof.
  destruct (UpsertRepoFindings_lifecycle 21 sample_repo_ctx (mkScope "acme" "prod") "r2" [sample_repo_finding "c" "k1"]
    repo_tables_one repo_tables_two) as (scan & Hscan & _ & Hrows & _).
  - by vm_compute.
  - apply tables_wfb_ok. by vm_compute.
  - apply NoDup_singleton.
  - by vm_compute.
  - destruct (Hrows _ ltac:(left)) as (previous & row & Hp & Hrow & _ & Hst & Hf & Hl). clear Hrows.
    assert (scan = default zero_repo_scan (repoScans repo_tables_one !! "r2")) as -> by (rewrite Hscan; reflexivity).
    assert (RF_FirstSeenAt <$> repoFindings repo_tables_two !! "r2|c" = Some (Some 10)) as E by by vm_compute.
    change ("r2" +:+ "|" +:+ RF_ID (sample_repo_finding "c" "k1")) with "r2|c" in Hrow. rewrite Hrow in E. cbn in E. injection E as E.
    destruct previous as [p|]; [|rewrite E in Hf; vm_compute in Hf; discriminate Hf].
    exists p, row. split; [exact Hp|]. split; [exact Hrow|]. split; [exact Hl|]. split; [exact Hst|exact Hf].
Defined.

Lemma CompleteRepoScan_closes_missing_witness :
  ∃ scan, repoScans repo_tables_three !! "r2" = Some scan ∧ RepoScan_Status scan = "succeeded" ∧
    RF_LifecycleStatus <$> repoFindings repo_tables_three !! "r1|b" = Some "fixed".
Proof.
  destruct (CompleteRepoScan_closes_missing sample_repo_ctx (mkScope "acme" "prod") "r2" "succeeded" 22 1 1 1 false
    sample_deep "" repo_tables_two repo_tables_three) as (scan & Hscan & _).
  - by vm_compute.
  - apply (bool_decide_unpack _). by vm_compute.
  - by vm_compute.
  - exists scan. split; [exact Hscan|]. split; [|by vm_compute].
    assert (scan = default zero_repo_scan (repoScans repo_tables_three !! "r2")) as -> by (rewrite Hscan; reflexivity).
    by vm_compute.
Defined.
