(* ===== verification/RepoFindingQueries.v ===== *)
(** * Queries over repository findings (internal/db/memory.go, store.go)

    Filters, the row shown for each lifecycle key, and the counts behind the
    trend charts. *)
From S2P Require Import Prelude GoStrings GoCollections GoTime GoFloat GoText Scope ScanDomain RepoFindings RepoScanRecords RepoScanStore RepoFindingStore RepoLifecycle.

Record RepoFindingFilter := mkRepoFilter {
  Filter_RepoScanID : string;
  Filter_FindingID : string;
  Filter_Repository : string;
  Filter_Severity : string;
  Filter_Type : string;
  Filter_Status : string;
  Filter_Detector : string;
  Filter_Owner : string;
  Filter_Source : string;
  Filter_MinConfidence : float64;
  Filter_MinAgeDays : Z;
  Filter_LifecycleStatus : string;
  Filter_Assignee : string;
  Filter_SortBy : string;
  Filter_SortDesc : bool;
  Filter_Now : Z;
  Filter_IncludeHistorical : bool;
}.

Definition repo_sort_keys : list string :=
  ["severity"; "type"; "title"; "created_at"; "first_seen_at"; "last_seen_at"; "status"; "owner"].
Definition clamp_confidence (f : float64) : float64 :=
  let f := if float_ltb f float_zero then float_zero else f in
  if float_ltb float_one f then float_one else f.
Definition NormalizeRepoFindingFilter (clock : Z) (f : RepoFindingFilter) : RepoFindingFilter :=
  let rawSortBy := canon (Filter_SortBy f) in
  let known := bool_decide (rawSortBy ∈ repo_sort_keys) in
  mkRepoFilter (TrimSpace (Filter_RepoScanID f)) (TrimSpace (Filter_FindingID f)) (TrimSpace (Filter_Repository f))
    (canon (Filter_Severity f)) (canon (Filter_Type f)) (canon (Filter_Status f)) (canon (Filter_Detector f))
    (canon (Filter_Owner f)) (canon (Filter_Source f)) (clamp_confidence (Filter_MinConfidence f))
    (if Filter_MinAgeDays f <? 0 then 0 else Filter_MinAgeDays f) (canon (Filter_LifecycleStatus f))
    (canon (Filter_Assignee f)) (if known then rawSortBy else "created_at")
    (if negb known && bool_decide (rawSortBy = "") then true else Filter_SortDesc f)
    (if IsZero (Filter_Now f) then clock else Filter_Now f) (Filter_IncludeHistorical f).

Section queries.
Context `{MapRange, SortSlice, FloatParser}.

Definition repoFindingMatchesRepository (f : RepoFinding) (repository : string) : bool :=
  let repository := TrimSpace repository in
  bool_decide (repository = "") || EqualFold (TrimSpace (RF_Repository f)) repository.

(** An empty filter matches everything. *)
Definition filter_text (wanted value : string) : bool := bool_decide (wanted = "") || bool_decide (canon value = wanted).
(** [now.Add(-time.Duration(days) * 24 * time.Hour)], whose product wraps. *)
Definition age_cutoff (f : RepoFindingFilter) : Z := Filter_Now f + wrap64 (wrap64 (- Filter_MinAgeDays f * 24) * Hour).
Definition repoFindingMatchesFilter (x : RepoFinding) (f : RepoFindingFilter) : bool :=
  filter_text (Filter_Detector f) (RF_Detector x) && filter_text (Filter_Owner f) (RF_Owner x) &&
  filter_text (Filter_Source f) (RF_AdapterSource x) &&
  negb (float_ltb float_zero (Filter_MinConfidence f) && float_ltb (RF_ConfidenceScore x) (Filter_MinConfidence f)) &&
  (negb (0 <? Filter_MinAgeDays f) || negb (After (timeValue (RF_FirstSeenAt x) (RF_CreatedAt x)) (age_cutoff f))).

(** ** The row of each lifecycle key *)
Definition listing_key (f : RepoFinding) : string :=
  or_string (TrimSpace (RF_LifecycleKey f)) (RF_ScanID f +:+ "|" +:+ RF_ID f).
Definition keep_latest (latest : gmap string RepoFinding) (f : RepoFinding) : gmap string RepoFinding :=
  match latest !! listing_key f with
  | None => <[listing_key f := f]> latest
  | Some existing => if repoFindingNewer f existing then <[listing_key f := f]> latest else latest
  end.
Definition latestRepoFindingLifecycleRows (findings : list RepoFinding) : list RepoFinding :=
  if (length findings <=? 1)%nat then findings
  else
    let latest := foldl keep_latest ∅ findings in
    omap (λ key, latest !! key) (unique (listing_key <$> findings)).

(** ** Sorting *)
Definition severityRank (severity : string) : Z :=
  if decide (severity = "critical") then 5 else if decide (severity = "high") then 4
  else if decide (severity = "medium") then 3 else if decide (severity = "low") then 2
  else if decide (severity = "info") then 1 else 0.
Definition finding_compare (sortBy : string) (l r : RepoFinding) : comparison :=
  let by_time := λ p q, Z.compare (timeValue p (RF_CreatedAt l)) (timeValue q (RF_CreatedAt r)) in
  let sortBy := canon sortBy in
  if decide (sortBy = "severity") then Z.compare (severityRank (RF_Severity l)) (severityRank (RF_Severity r))
  else if decide (sortBy = "type") then compare_string (RF_Type l) (RF_Type r)
  else if decide (sortBy = "title") then compare_string (RF_Title l) (RF_Title r)
  else if decide (sortBy = "first_seen_at") then by_time (RF_FirstSeenAt l) (RF_FirstSeenAt r)
  else if decide (sortBy = "last_seen_at") then by_time (RF_LastSeenAt l) (RF_LastSeenAt r)
  else if decide (sortBy = "status") then compare_string (RF_LifecycleStatus l) (RF_LifecycleStatus r)
  else if decide (sortBy = "owner") then compare_string (RF_Owner l) (RF_Owner r)
  else Z.compare (RF_CreatedAt l) (RF_CreatedAt r).
Definition finding_order (sortBy : string) (l r : RepoFinding) : comparison :=
  lex (finding_compare sortBy l r) (compare_string (RF_ID l) (RF_ID r)).
Definition sortFindingsForQuery (sortBy : string) (desc : bool) (l : list RepoFinding) : list RepoFinding :=
  sort_slice (λ x y, if desc then less_of (finding_order sortBy) y x else less_of (finding_order sortBy) x y) l.

(** ** Listing *)
Definition row_selected (f : RepoFindingFilter) (row : RepoFinding) : bool :=
  (bool_decide (Filter_FindingID f = "") || bool_decide (RF_ID row = Filter_FindingID f)) &&
  (bool_decide (Filter_Severity f = "") || bool_decide (ToLower (RF_Severity row) = Filter_Severity f)) &&
  (bool_decide (Filter_Type f = "") || bool_decide (ToLower (RF_Type row) = Filter_Type f)).
(** A stored row as the listing shows it, if the filter lets it through. *)
Definition listed_row (f : RepoFindingFilter) (repository : string) (row : RepoFinding) : option RepoFinding :=
  if row_selected f row then
    let read := read_row (TrimSpace repository) row in
    if repoFindingMatchesRepository read (Filter_Repository f) then Some read else None
  else None.
(** The rows of one scan, in the order they were stored. *)
Definition scan_rows (f : RepoFindingFilter) (repository : string) (s : RepoScanTables) : list RepoFinding :=
  filter (λ x, repoFindingMatchesFilter x f = true)
    (omap (λ key, row ← repoFindings s !! key; listed_row f repository row)
       (default [] (repoFindingIDs s !! Filter_RepoScanID f))).
(** The rows of all scans in the scope. *)
Definition scope_rows (scope : Scope) (f : RepoFindingFilter) (s : RepoScanTables) : list RepoFinding :=
  omap (λ '(_, row),
    record ← repoScans s !! RF_ScanID row;
    if repo_in_scope scope record then listed_row f (RepoScan_Repository record) row else None)
    (map_range (repoFindings s)).
Definition ListRepoFindings (clock : Z) (ctx : Context) (filter_ : RepoFindingFilter) (limit : Z) (s : RepoScanTables)
    : result (list RepoFinding) :=
  scope ← RequireScope ctx;
  let f := NormalizeRepoFindingFilter clock filter_ in
  rows ← (if decide (Filter_RepoScanID f = "") then
            let rows := scope_rows scope f s in
            let rows := if Filter_IncludeHistorical f then rows else latestRepoFindingLifecycleRows rows in
            mret (filter (λ x, repoFindingMatchesFilter x f = true) rows)
          else
            record ← scoped_repo_scan scope (Filter_RepoScanID f) s;
            mret (scan_rows f (RepoScan_Repository record) s));
  mret (truncate limit (sortFindingsForQuery (Filter_SortBy f) (Filter_SortDesc f) rows)).

(** ** Trend counts *)
Record FindingTrendCount := mkTrend {
  Trend_ScanID : string;
  Trend_StartedAt : Z;
  Trend_Severity : string;
  Trend_TotalCount : Z;
}.
Definition counted (severity type : string) (minConfidence : float64) (row : RepoFinding) : bool :=
  (bool_decide (severity = "") || bool_decide (ToLower (RF_Severity row) = severity)) &&
  (bool_decide (type = "") || bool_decide (ToLower (RF_Type row) = type)) &&
  negb (float_ltb float_zero minConfidence && float_ltb (RF_ConfidenceScore row) minConfidence).
Definition count_severity (counts : gmap string Z) (severity : string) : gmap string Z :=
  <[severity := default 0 (counts !! severity) + 1]> counts.
Definition trend_of (severity type : string) (minConfidence : float64) (s : RepoScanTables) (repoScanID : string)
    : list FindingTrendCount :=
  match repoScans s !! repoScanID with
  | None => []
  | Some repoScan =>
      let rows := omap (λ key, repoFindings s !! key) (default [] (repoFindingIDs s !! repoScanID)) in
      let counts := foldl count_severity ∅
                      (RF_Severity <$> filter (λ r, counted severity type minConfidence r = true) rows) in
      if map_is_empty counts then [mkTrend repoScanID (RepoScan_StartedAt repoScan) "" 0]
      else (λ '(severityKey, count), mkTrend repoScanID (RepoScan_StartedAt repoScan) severityKey count) <$> map_range counts
  end.
Definition ListRepoFindingTrendCounts (ctx : Context) (repoScanIDs : list string) (severity findingType : string)
    (minConfidence : float64) (s : RepoScanTables) : result (list FindingTrendCount) :=
  scope ← RequireScope ctx;
  let ids := filter (λ id, is_ok (scoped_repo_scan scope id s) = true) (unique (nonempty_map TrimSpace repoScanIDs)) in
  mret (ids ≫= trend_of (canon severity) (canon findingType) minConfidence s).
End queries.

(** ** The newest row of each key *)
Section latest.
Context `{MapRange, SortSlice, FloatParser}.

Lemma keep_latest_lookup l : ∀ m k,
  foldl keep_latest m l !! k = foldl (keep_best repoFindingNewer) (m !! k) (filter (λ f, listing_key f = k) l).
Proof.
  induction l as [|f l IH]; intros m k; [done|]. cbn [foldl]. rewrite IH, filter_cons. unfold keep_latest.
  destruct (decide (listing_key f = k)) as [<-|Hne].
  - cbn [foldl]. f_equal. destruct (m !! listing_key f) as [g|] eqn:E; cbn; [|by rewrite lookup_insert_eq].
    destruct (repoFindingNewer f g); [by rewrite lookup_insert_eq|done].
  - f_equal. destruct (m !! listing_key f) as [g|]; [destruct (repoFindingNewer f g)|]; rewrite ?lookup_insert_ne; done.
Qed.

(** The newest of the rows with its key. *)
Definition newest_in (l : list RepoFinding) (f : RepoFinding) : Prop :=
  f ∈ l ∧ ∀ g, g ∈ l → listing_key g = listing_key f → row_order f g ≠ Gt.

Lemma latest_lookup l k :
  match foldl keep_latest ∅ l !! k with
  | Some f => newest_in l f ∧ listing_key f = k
  | None => ∀ g, g ∈ l → listing_key g ≠ k
  end.
Proof.
  rewrite keep_latest_lookup, lookup_empty. pose proof (newer_select_best (filter (λ f, listing_key f = k) l)) as E.
  unfold select_best at 1 in E. rewrite E. pose proof (select_best_spec row_order (filter (λ f, listing_key f = k) l) row_order_ok) as Hs.
  destruct (select_best _ _) as [f|].
  - destruct Hs as [[Hk Hin]%list_elem_of_filter Hmin]. split; [|done]. split; [done|]. intros g Hg Ek. apply Hmin.
    apply list_elem_of_filter. split; [congruence|done].
  - intros g Hg Ek. assert (g ∈ filter (λ f, listing_key f = k) l) as Hin by (by apply list_elem_of_filter).
    rewrite Hs in Hin. by apply elem_of_nil in Hin.
Qed.

Lemma latest_rows_keys l : listing_key <$> latestRepoFindingLifecycleRows l = unique (listing_key <$> l).
Proof.
  unfold latestRepoFindingLifecycleRows. destruct (length l <=? 1)%nat eqn:E.
  { destruct l as [|x [|y l]]; [done|done|done]. }
  assert (∀ ks : list string, (∀ k, k ∈ ks → k ∈ listing_key <$> l) → listing_key <$> omap (λ k, foldl keep_latest ∅ l !! k) ks = ks) as Hks.
  { induction ks as [|k ks IH]; intros Hin; [done|]. cbn. pose proof (latest_lookup l k) as Hl.
    destruct (foldl keep_latest ∅ l !! k) as [f|].
    - cbn. destruct Hl as [_ ->]. f_equal. apply IH. intros j Hj. apply Hin. by right.
    - destruct (proj1 (list_elem_of_fmap _ _ _) (Hin k ltac:(left))) as (g & -> & Hg). by destruct (Hl g Hg). }
  apply Hks. intros k. by rewrite elem_of_unique.
Qed.
Lemma latest_rows_newest l f : f ∈ latestRepoFindingLifecycleRows l → newest_in l f.
Proof.
  unfold latestRepoFindingLifecycleRows. destruct (length l <=? 1)%nat eqn:E.
  - destruct l as [|x [|y l]]; [by intros ?%elem_of_nil| |done]. intros ->%list_elem_of_singleton. split; [by left|].
    intros g ->%list_elem_of_singleton _. pose proof (co_antisym _ row_order_ok x x) as Ea. by destruct (row_order x x).
  - intros (k & Hk & Hf)%list_elem_of_omap. pose proof (latest_lookup l k) as Hl. rewrite Hf in Hl. by destruct Hl.
Qed.
(** Nothing is missing, when rows with the same place are the same. *)
Lemma newest_in_latest l f :
  (∀ x y, x ∈ l → y ∈ l → row_key x = row_key y → x = y) → newest_in l f → f ∈ latestRepoFindingLifecycleRows l.
Proof.
  intros Hinj [Hin Hmin]. assert (listing_key f ∈ listing_key <$> latestRepoFindingLifecycleRows l) as Hk.
  { rewrite latest_rows_keys, elem_of_unique. apply list_elem_of_fmap. by exists f. }
  apply list_elem_of_fmap in Hk as (g & E & Hg). destruct (latest_rows_newest l g Hg) as [Hgin Hgmin].
  assert (f = g) as ->; [|done]. apply Hinj; [done..|]. apply row_order_Eq. pose proof (Hmin g Hgin (eq_sym E)) as Hle.
  pose proof (Hgmin f Hin E) as Hge. rewrite (co_antisym _ row_order_ok f g) in Hge. by destruct (row_order f g).
Qed.

(** *** What a listing shows *)

Lemma NoDup_fmap_filter (P : RepoFinding → Prop) `{∀ x, Decision (P x)} l :
  NoDup (listing_key <$> l) → NoDup (listing_key <$> filter P l).
Proof.
  induction l as [|x l IH]; [done|]. cbn [fmap list_fmap]. intros [Hx Hl]%NoDup_cons. rewrite filter_cons.
  destruct (decide (P x)); [|by apply IH]. cbn. apply NoDup_cons. split; [|by apply IH]. intros Hin. apply Hx.
  apply list_elem_of_fmap in Hin as (y & -> & [_ Hy]%list_elem_of_filter). apply list_elem_of_fmap. by exists y.
Qed.
Lemma NoDup_fmap_truncate limit l : NoDup (listing_key <$> l) → NoDup (listing_key <$> truncate limit l).
Proof. destruct (truncate_prefix limit l) as [k Hk]. rewrite Hk at 1. rewrite fmap_app. by intros [? _]%NoDup_app. Qed.

(** The rows a caller may see: those of the scans in its scope, as they are
    read, that pass the parts of the filter looked at first. *)
Definition visible (scope : Scope) (f : RepoFindingFilter) (s : RepoScanTables) (x : RepoFinding) : Prop :=
  ∃ key row record, repoFindings s !! key = Some row ∧ repoScans s !! RF_ScanID row = Some record ∧
    repo_in_scope scope record = true ∧ listed_row f (RepoScan_Repository record) row = Some x.
Lemma elem_of_scope_rows scope f s x : x ∈ scope_rows scope f s ↔ visible scope f s x.
Proof.
  unfold scope_rows, visible. rewrite list_elem_of_omap. split.
  - intros ([key row] & Hin%elem_of_map_range & (record & Hrec & E)%bind_Some). exists key, row, record.
    destruct (repo_in_scope scope record); [done|discriminate].
  - intros (key & row & record & Hrow & Hrec & Hsc & Hx). exists (key, row). split; [by apply elem_of_map_range|].
    cbn. by rewrite Hrec, <-Hx; cbn; rewrite Hsc.
Qed.
Lemma listed_row_key f repository row x : listed_row f repository row = Some x → row_key x = row_key row ∧ x = read_row (TrimSpace repository) row.
Proof. unfold listed_row. destruct (row_selected f row); [|done]. case_match; intros [= <-]. by rewrite read_row_key. Qed.
Lemma visible_inj scope f s x y :
  rows_wf s → visible scope f s x → visible scope f s y → row_key x = row_key y → x = y.
Proof.
  intros Hwf (kx & rx & sx & Hx & Hsx & _ & Lx) (ky & ry & sy & Hy & Hsy & _ & Ly) E.
  destruct (listed_row_key _ _ _ _ Lx) as [Ex ->]. destruct (listed_row_key _ _ _ _ Ly) as [Ey ->].
  assert (kx = ky) as <-. { rewrite <-(Hwf _ _ Hx), <-(Hwf _ _ Hy). congruence. }
  rewrite Hx in Hy. injection Hy as <-. rewrite Hsx in Hsy. by injection Hsy as <-.
Qed.

(** Listing the findings of a workspace, when no scan is named and no
    history is asked for, shows each lifecycle key once, by its newest row:
    every row shown is visible in the caller's scope, matches the filter, and is
    older than no visible row of its key, and without a limit every such row is
    shown. *)
Theorem ListRepoFindings_newest clock ctx scope filter_ limit s rows
    (Hscope : RequireScope ctx = Ok scope) (Hwf : rows_wf s)
    (Hscan : TrimSpace (Filter_RepoScanID filter_) = "") (Hlatest : Filter_IncludeHistorical filter_ = false)
    (Hok : ListRepoFindings clock ctx filter_ limit s = Ok rows) :
  let f := NormalizeRepoFindingFilter clock filter_ in
  let shown := λ x, visible scope f s x ∧ repoFindingMatchesFilter x f = true ∧
    ∀ y, visible scope f s y → listing_key y = listing_key x → repoFindingNewer y x = false in
  NoDup (listing_key <$> rows) ∧ (∀ x, x ∈ rows → shown x) ∧ (limit ≤ 0 → ∀ x, shown x → x ∈ rows).
Proof.
  intros f shown. unfold ListRepoFindings in Hok. rewrite Hscope in Hok. cbn [mbind result_bind] in Hok. fold f in Hok.
  rewrite decide_True in Hok by exact Hscan. change (Filter_IncludeHistorical f) with (Filter_IncludeHistorical filter_) in Hok.
  rewrite Hlatest in Hok. cbn [mbind result_bind] in Hok. injection Hok as <-.
  set (l := scope_rows scope f s). set (shownl := filter _ _).
  assert (∀ x, x ∈ shownl ↔ shown x) as Hshown.
  { intros x. unfold shownl. rewrite list_elem_of_filter. unfold shown. setoid_rewrite <-elem_of_scope_rows. fold l.
    assert (x ∈ latestRepoFindingLifecycleRows l ↔ newest_in l x) as ->.
    { split; [apply latest_rows_newest|]. apply newest_in_latest. intros y z Hy Hz. by apply (visible_inj scope f s); try apply elem_of_scope_rows. }
    unfold newest_in. setoid_rewrite repoFindingNewer_order. unfold less_of.
    setoid_rewrite (λ y, co_antisym _ row_order_ok x y). split.
    - intros [Hm [Hin Hmin]]. split_and!; [done..|]. intros y Hy E. specialize (Hmin y Hy E). by destruct (row_order x y).
    - intros (Hin & Hm & Hmin). split_and!; [done..|]. intros y Hy E. specialize (Hmin y Hy E). by destruct (row_order x y). }
  split_and!.
  - apply NoDup_fmap_truncate. unfold sortFindingsForQuery. rewrite sort_slice_perm. unfold shownl. apply NoDup_fmap_filter.
    rewrite latest_rows_keys. apply NoDup_unique.
  - intros x Hx%elem_of_truncate. unfold sortFindingsForQuery in Hx. apply elem_of_sort_slice in Hx. by apply Hshown.
  - intros Hlim x Hx. unfold truncate. rewrite (proj2 (Z.ltb_ge 0 limit)) by done. cbn [andb].
    unfold sortFindingsForQuery. apply elem_of_sort_slice. by apply Hshown.
Qed.
End latest.

(** ** Examples *)
#[local] Existing Instance canonical_range.
#[local] Existing Instance insertion_sort.
#[local] Existing Instance no_floats.
Definition sample_filter : RepoFindingFilter :=
  mkRepoFilter "" "" "ACME/app" "HIGH" "" "" "" "" "" float_zero 0 "" "" "severity" false 50 false.
Definition sample_listing : list RepoFinding := ok_or [] (ListRepoFindings 60 sample_repo_ctx sample_filter 0 repo_tables_three).

(** The row "r1|a" is hidden by the later "r2|c" of its key. *)
Lemma ListRepoFindings_newest_witness :
  NoDup (listing_key <$> sample_listing) ∧
  ((λ x, (row_key x, RF_LifecycleStatus x)) <$> sample_listing) = [("r1|b", "fixed"); ("r2|c", "open")].
Proof.
  destruct (ListRepoFindings_newest 60 sample_repo_ctx (mkScope "acme" "prod") sample_filter 0 repo_tables_three sample_listing)
    as (Hnd & _ & _).
  - by vm_compute.
  - apply (bool_decide_unpack _). by vm_compute.
  - by vm_compute.
  - done.
  - by vm_compute.
  - split; [exact Hnd|by vm_compute].
Defined.
