(* ===== verification/RepoScanRuns.v ===== *)
(** * Runs of the repository scan tables

    Any sequence of calls of the store, in any order, from any caller: the
    tables stay well-formed, a scan that is over stays as it ended, and the
    admission check keeps one pending scan per repository. *)
From S2P Require Import Prelude GoStrings GoCollections GoTime GoFloat GoText Runs Scope ScanQueue RepoFindings RepoScanRecords RepoScanStore RepoFindingStore RepoLifecycle.

Inductive repo_op :=
| RCreate (newID : string) (ctx : Context) (repository : string) (source : RepoScanSource) (c : RepoScanContext) (startedAt : Z)
| RQueue (newID : string) (trace : string * string) (ctx : Context) (repository : string) (source : RepoScanSource)
    (c : RepoScanContext) (historyLimit maxFindings queuedAt : Z)
| RQueueWithinLimit (newID : string) (trace : string * string) (ctx : Context) (repository : string) (source : RepoScanSource)
    (c : RepoScanContext) (historyLimit maxFindings queuedAt maxPending : Z)
| RClaim (now : Z) (ctx : Context)
| RClaimAny (now : Z)
| RRequeue (now : Z) (ctx : Context) (id : string)
| RFailStale (now staleBefore limit : Z) (message : string)
| RCancel (ctx : Context) (id : string) (finishedAt : Z) (message : string)
| RComplete (ctx : Context) (id status : string) (finishedAt commits files count : Z) (truncated : bool) (c : RepoScanContext)
    (message : string)
| RUpsertFindings (now : Z) (ctx : Context) (id : string) (findings : list RepoFinding)
| RDeleteScan (ctx : Context) (id : string)
| RDeleteFindings (ctx : Context) (id : string)
| RDeleteTargets (ctx : Context) (targets : list RepoFindingDeleteTarget)
| RUpsertCursor (ctx : Context) (cursor : RepoScanCursor).

Section runs.
Context `{MapRange, SortSlice, FloatParser}.

(** The tables after a call that succeeds. *)
Definition repo_call (op : repo_op) (s : RepoScanTables) : result RepoScanTables :=
  match op with
  | RCreate newID ctx repository source c startedAt => fst <$> CreateRepoScan newID ctx repository source c startedAt s
  | RQueue newID trace ctx repository source c historyLimit maxFindings queuedAt =>
      fst <$> CreateQueuedRepoScan newID trace ctx repository source c historyLimit maxFindings queuedAt s
  | RQueueWithinLimit newID trace ctx repository source c historyLimit maxFindings queuedAt maxPending =>
      fst <$> CreateQueuedRepoScanWithinLimit newID trace ctx repository source c historyLimit maxFindings queuedAt maxPending s
  | RClaim now ctx => fst <$> ClaimNextQueuedRepoScan now ctx s
  | RClaimAny now => fst <$> ClaimNextQueuedRepoScanAnyScope now s
  | RRequeue now ctx id => RequeueRepoScan now ctx id s
  | RFailStale now staleBefore limit message => Ok (FailStaleRepoScansAnyScope now staleBefore limit message s).1
  | RCancel ctx id finishedAt message => fst <$> CancelRepoScan ctx id finishedAt message s
  | RComplete ctx id status finishedAt commits files count truncated c message =>
      CompleteRepoScan ctx id status finishedAt commits files count truncated c message s
  | RUpsertFindings now ctx id findings => UpsertRepoFindings now ctx id findings s
  | RDeleteScan ctx id => DeleteRepoScan ctx id s
  | RDeleteFindings ctx id => DeleteRepoFindings ctx id s
  | RDeleteTargets ctx targets => fst <$> DeleteRepoFindingTargets ctx targets s
  | RUpsertCursor ctx cursor => UpsertRepoScanCursor ctx cursor s
  end.
Definition repo_step (s : RepoScanTables) (op : repo_op) : RepoScanTables := ok_or s (repo_call op s).

(** The id a call generates, if it is one that does. *)
Definition created_id (op : repo_op) : option string :=
  match op with
  | RCreate newID _ _ _ _ _ | RQueue newID _ _ _ _ _ _ _ _ | RQueueWithinLimit newID _ _ _ _ _ _ _ _ _ => Some newID
  | _ => None
  end.
(** [uuid.NewString] gives a new id, without a bar. *)
Definition fresh_id (op : repo_op) (s : RepoScanTables) : Prop :=
  ∀ id, created_id op = Some id → repoScans s !! id = None ∧ no_byte "|" id.

Inductive repo_runs : RepoScanTables → list repo_op → RepoScanTables → Prop :=
| repo_runs_nil s : repo_runs s [] s
| repo_runs_cons s op ops s' : fresh_id op s → repo_runs (repo_step s op) ops s' → repo_runs s (op :: ops) s'.

(** ** What a call does to a scan *)
Definition same_target (r r' : RepoScanRecord) : Prop :=
  RepoScan_ID r' = RepoScan_ID r ∧ RepoScan_TenantID r' = RepoScan_TenantID r ∧
  RepoScan_WorkspaceID r' = RepoScan_WorkspaceID r ∧ RepoScan_Repository r' = RepoScan_Repository r.
(** The row is still about the same repository, and only its count of findings
    moves once it is over. *)
Definition scan_moves (r r' : RepoScanRecord) : Prop :=
  same_target r r' ∧ (repo_pending r = false → r' = with_finding_count (RepoScan_FindingCount r') r).
Lemma scan_moves_refl r : scan_moves r r.
Proof. split; [done|]. intros _. by destruct r. Qed.
Lemma scan_moves_pending r r' : same_target r r' → repo_pending r = true → scan_moves r r'.
Proof. intros Ht Hp. split; [done|]. by rewrite Hp. Qed.
Lemma scan_moves_count n r : scan_moves r (with_finding_count n r).
Proof. by split. Qed.
Lemma scan_moves_trans r r' r'' :
  scan_moves r r' → scan_moves r' r'' → scan_moves r r''.
Proof.
  intros [(Hi & Ht & Hw & Hr) Hm] [(Hi' & Ht' & Hw' & Hr') Hm']. split; [split_and!; congruence|].
  intros Hp. pose proof (Hm Hp) as E. assert (repo_pending r' = false) as Hp' by (by rewrite E).
  rewrite (Hm' Hp'), E. by destruct r.
Qed.

(** The rows [s'] has came from those of [s]. *)
Definition scans_move (s s' : RepoScanTables) : Prop :=
  ∀ id r', repoScans s' !! id = Some r' → ∃ r, repoScans s !! id = Some r ∧ scan_moves r r'.

Lemma put_scan_moves s id r r' : repoScans s !! id = Some r → scan_moves r r' → scans_move s (put_repo_scan id r' s).
Proof.
  intros Hr Hm j x Hx. cbn in Hx. apply lookup_insert_Some in Hx as [[<- <-]|[_ Hx]]; [by exists r|].
  exists x. split; [done|apply scan_moves_refl].
Qed.
Lemma same_scans_move s s' : repoScans s' = repoScans s → scans_move s s'.
Proof. intros E j x Hx. rewrite E in Hx. exists x. split; [done|apply scan_moves_refl]. Qed.

Lemma status_running_pending r : status_is "running" r = true → repo_pending r = true.
Proof. unfold repo_pending. intros ->. apply orb_true_r. Qed.
Lemma status_queued_pending r : status_is "queued" r = true → repo_pending r = true.
Proof. unfold repo_pending. by intros ->. Qed.

Lemma ordered_repo_scans_elem s r : tables_wf s → r ∈ ordered_repo_scans s → repoScans s !! RepoScan_ID r = Some r.
Proof.
  intros Hwf (id & -> & Hin)%list_elem_of_fmap. apply (wf_order _ Hwf) in Hin as [r Hr]. rewrite Hr. cbn.
  by rewrite (proj1 (wf_scans _ Hwf _ _ Hr)).
Qed.

(** The row a claim takes is one of those that may be claimed, and no other
    such row was queued before it. *)
Lemma claim_spec now scope s s' claimed :
  tables_wf s → claimNextQueuedRepoScanLocked now scope s = Ok (s', claimed) →
  ∃ r, repoScans s !! RepoScan_ID r = Some r ∧ repo_claimable scope r = true ∧
    (∀ x, x ∈ ordered_repo_scans s → repo_claimable scope x = true → RepoScan_StartedAt r ≤ RepoScan_StartedAt x) ∧
    s' = put_repo_scan (RepoScan_ID r) (with_run "running" now r) s ∧ claimed = with_run "running" (RepoScan_StartedAt r) r.
Proof.
  intros Hwf. unfold claimNextQueuedRepoScanLocked.
  assert (compare_ok repo_started) as Hc by apply (compare_ok_on RepoScan_StartedAt), compare_ok_Z.
  pose proof (select_best_spec repo_started (filter (λ r, repo_claimable scope r = true) (ordered_repo_scans s)) Hc) as Hbest.
  destruct (select_best _ _) as [r|]; [|done]. intros [= <- <-]. destruct Hbest as [[Hcl Hin]%list_elem_of_filter Hmin].
  exists r. split_and!; try done; [by apply ordered_repo_scans_elem|]. intros x Hx Hxc.
  pose proof (Hmin x (proj2 (list_elem_of_filter _ _ _) (conj Hxc Hx))) as Hle. unfold repo_started in Hle.
  by apply Z.compare_le_iff.
Qed.

Lemma fold_put_scans s (f : RepoScanRecord → RepoScanRecord) l : ∀ s1,
  (∀ r, r ∈ l → repoScans s !! RepoScan_ID r = Some r ∧ scan_moves r (f r)) → scans_move s s1 →
  repoScanIDs s1 = repoScanIDs s → repoFindings s1 = repoFindings s → repoFindingIDs s1 = repoFindingIDs s →
  (∀ id, is_Some (repoScans s1 !! id) ↔ is_Some (repoScans s !! id)) →
  let s' := foldl (λ s r, put_repo_scan (RepoScan_ID r) (f r) s) s1 l in
  scans_move s s' ∧ repoScanIDs s' = repoScanIDs s ∧ repoFindings s' = repoFindings s ∧ repoFindingIDs s' = repoFindingIDs s ∧
  ∀ id, is_Some (repoScans s' !! id) ↔ is_Some (repoScans s !! id).
Proof.
  induction l as [|r l IH]; intros s1 Hl Hm Hi Hf Hk Hdom; [done|]. cbn [foldl]. destruct (Hl r) as [Hr Hrm]; [by left|].
  apply IH; try done.
  - intros x Hx. apply Hl. by right.
  - intros id x Hx. cbn in Hx. apply lookup_insert_Some in Hx as [[<- <-]|[_ Hx]]; [by exists r|by apply Hm].
  - intros id. cbn. rewrite <-Hdom. destruct (decide (RepoScan_ID r = id)) as [<-|Hne].
    + rewrite lookup_insert_eq, Hdom, Hr. by split; eexists.
    + by rewrite lookup_insert_ne.
Qed.

(** Calls that leave the findings, the order of the scans and the set of ids
    alone keep the tables well-formed. *)
Lemma moved_wf s s' :
  tables_wf s → scans_move s s' → repoScanIDs s' = repoScanIDs s → repoFindings s' = repoFindings s →
  repoFindingIDs s' = repoFindingIDs s → (∀ id, is_Some (repoScans s' !! id) ↔ is_Some (repoScans s !! id)) → tables_wf s'.
Proof.
  intros Hwf Hm Hi Hf Hk Hdom. split.
  - intros id r' Hr'. destruct (Hm id r' Hr') as (r & Hr & [(E & _) _]). rewrite E. by apply (wf_scans _ Hwf).
  - rewrite Hi. destruct (wf_order _ Hwf) as [Hnd Hin]. split; [done|]. intros id. by rewrite Hdom.
  - intros key f. rewrite Hf, Hk, Hdom. apply (wf_rows _ Hwf).
  - intros id. rewrite Hk. setoid_rewrite Hf. apply (wf_keys _ Hwf).
Qed.
Lemma put_moved_wf s id r r' :
  tables_wf s → repoScans s !! id = Some r → scan_moves r r' → tables_wf (put_repo_scan id r' s).
Proof.
  intros Hwf Hr Hm. apply (moved_wf s); try done; [by apply (put_scan_moves _ _ r)|]. intros j. cbn.
  destruct (decide (id = j)) as [<-|Hne]; [rewrite lookup_insert_eq, Hr; by split; eexists|by rewrite lookup_insert_ne].
Qed.

Lemma new_scan_wf s id r :
  tables_wf s → repoScans s !! id = None → no_byte "|" id → RepoScan_ID r = id →
  tables_wf (mkRepoTables (<[id := r]> (repoScans s)) (repoScanIDs s ++ [id]) (repoFindings s) (repoFindingIDs s) (repoCursors s)).
Proof.
  intros Hwf Hnew Hbar Hid. destruct (wf_order _ Hwf) as [Hnd Hin]. split; cbn.
  - intros j x [[<- <-]|[_ Hx]]%lookup_insert_Some; [done|by apply (wf_scans _ Hwf)].
  - split.
    + apply NoDup_app. split_and!; [done| |apply NoDup_singleton]. intros j Hj ->%list_elem_of_singleton.
      apply Hin in Hj. rewrite Hnew in Hj. by destruct Hj.
    + intros j. rewrite elem_of_app, list_elem_of_singleton, Hin. destruct (decide (id = j)) as [->|Hne].
      * rewrite lookup_insert_eq. split; [by eexists|by right].
      * rewrite lookup_insert_ne by done. naive_solver.
  - intros key f Hf. destruct (wf_rows _ Hwf _ _ Hf) as (? & Hs & ?). split_and!; [done| |done].
    destruct (decide (id = RF_ScanID f)) as [<-|Hne]; [rewrite lookup_insert_eq; by eexists|by rewrite lookup_insert_ne].
  - apply (wf_keys _ Hwf).
Qed.

(** ** What a call does to the findings *)

(** Each row was there before, under the same scan, or belongs to a scan that
    was not over. *)
Definition findings_from (s s' : RepoScanTables) : Prop :=
  ∀ key f, repoFindings s' !! key = Some f →
    (∃ f0, repoFindings s !! key = Some f0 ∧ RF_ScanID f0 = RF_ScanID f) ∨
    (∃ r, repoScans s !! RF_ScanID f = Some r ∧ repo_pending r = true).
Lemma same_findings_from s s' : repoFindings s' = repoFindings s → findings_from s s'.
Proof. intros E key f Hf. left. exists f. by rewrite <-E. Qed.

Lemma lookup_deletes {A} (m : gmap string A) l key :
  foldl (λ m k, delete k m) m l !! key = if decide (key ∈ l) then None else m !! key.
Proof.
  revert m. induction l as [|k l IH]; intros m; [by rewrite decide_False by apply not_elem_of_nil|]. cbn [foldl]. rewrite IH.
  destruct (decide (key ∈ l)) as [Hin|Hnot]; [by rewrite decide_True by (by right)|].
  destruct (decide (k = key)) as [->|Hne].
  - rewrite lookup_delete_eq. by rewrite decide_True by (by left).
  - rewrite lookup_delete_ne by done. rewrite decide_False; [done|]. rewrite elem_of_cons. naive_solver.
Qed.

(** Deleting rows, from the table and from the lists of their scans. *)
Lemma deleted_wf s s' (D : string → Prop) :
  tables_wf s →
  (∀ key f, repoFindings s' !! key = Some f ↔ repoFindings s !! key = Some f ∧ ¬ D key) →
  (∀ id, NoDup (default [] (repoFindingIDs s' !! id)) ∧
     ∀ key, key ∈ default [] (repoFindingIDs s' !! id) ↔ key ∈ default [] (repoFindingIDs s !! id) ∧ ¬ D key) →
  (∀ id r', repoScans s' !! id = Some r' → ∃ r, repoScans s !! id = Some r ∧ RepoScan_ID r' = RepoScan_ID r) →
  (NoDup (repoScanIDs s') ∧ ∀ id, id ∈ repoScanIDs s' ↔ is_Some (repoScans s' !! id)) →
  (∀ key f, repoFindings s' !! key = Some f → is_Some (repoScans s' !! RF_ScanID f)) → tables_wf s'.
Proof.
  intros Hwf Hrows Hids Hscans Horder Hlive. split.
  - intros id r' Hr'. destruct (Hscans id r' Hr') as (r & Hr & ->). by apply (wf_scans _ Hwf).
  - done.
  - intros key f Hf. pose proof (Hlive key f Hf) as Hs. apply Hrows in Hf as [Hf Hd].
    destruct (wf_rows _ Hwf _ _ Hf) as (Hk & _ & Hin). split_and!; [done..|]. by apply Hids.
  - intros id. split; [apply Hids|]. intros key Hkey. apply Hids in Hkey as [Hkey Hd].
    destruct (wf_keys _ Hwf id) as [_ Hall]. destruct (Hall key Hkey) as (f & Hf & Hid). exists f. split; [|done]. by apply Hrows.
Qed.

(** Every row of a scan goes. *)
Lemma cleared_rows s id : tables_wf s →
  (∀ key f, foldl (λ m k, delete k m) (repoFindings s) (default [] (repoFindingIDs s !! id)) !! key = Some f ↔
     repoFindings s !! key = Some f ∧ ¬ key ∈ default [] (repoFindingIDs s !! id)) ∧
  (∀ j, NoDup (default [] (delete id (repoFindingIDs s) !! j)) ∧
     ∀ key, key ∈ default [] (delete id (repoFindingIDs s) !! j) ↔
       key ∈ default [] (repoFindingIDs s !! j) ∧ ¬ key ∈ default [] (repoFindingIDs s !! id)).
Proof.
  intros Hwf. split.
  - intros key f. rewrite lookup_deletes. case_decide; naive_solver.
  - intros j. destruct (decide (id = j)) as [<-|Hne].
    + rewrite lookup_delete_eq. cbn. split; [constructor|]. intros key. rewrite elem_of_nil. naive_solver.
    + rewrite lookup_delete_ne by done. destruct (wf_keys _ Hwf j) as [Hnd Hin]. split; [done|]. intros key. split; [|naive_solver].
      intros Hk. split; [done|]. intros Hk'. destruct (Hin key Hk) as (f & Hf & E). destruct (wf_keys _ Hwf id) as [_ Hin'].
      destruct (Hin' key Hk') as (f' & Hf' & E'). congruence.
Qed.

Lemma cleared_scan_ne s id key f : tables_wf s →
  repoFindings s !! key = Some f → ¬ key ∈ default [] (repoFindingIDs s !! id) → RF_ScanID f ≠ id.
Proof. intros Hwf Hf Hno E. destruct (wf_rows _ Hwf _ _ Hf) as (_ & _ & Hin). rewrite E in Hin. done. Qed.

Lemma DeleteRepoScan_wf ctx id s s' : tables_wf s → DeleteRepoScan ctx id s = Ok s' →
  tables_wf s' ∧ scans_move s s' ∧ findings_from s s' ∧ repoScans s' !! id = None.
Proof.
  intros Hwf Hok. unfold DeleteRepoScan in Hok. open_bind Hok scope _. open_bind Hok r Hr. injection Hok as <-.
  destruct (cleared_rows s id Hwf) as [Hrows Hids]. destruct (wf_order _ Hwf) as [Hnd Hin]. split_and!.
  - apply (deleted_wf s _ (λ key, key ∈ default [] (repoFindingIDs s !! id))); cbn; try done.
    + intros j r' [Hne Hj]%lookup_delete_Some. by exists r'.
    + split; [by apply NoDup_filter|]. intros j. rewrite list_elem_of_filter, Hin.
      destruct (decide (j = id)) as [->|Hne]; [rewrite lookup_delete_eq; split; [by intros []|by intros []]|].
      rewrite lookup_delete_ne by done. naive_solver.
    + intros key f [Hf Hno]%Hrows. pose proof (cleared_scan_ne s id key f Hwf Hf Hno) as Hne.
      rewrite lookup_delete_ne by done. by destruct (wf_rows _ Hwf _ _ Hf) as (_ & ? & _).
  - intros j r' Hj. cbn in Hj. apply lookup_delete_Some in Hj as [_ Hj]. exists r'. split; [done|apply scan_moves_refl].
  - intros key f Hf. cbn in Hf. apply Hrows in Hf as [Hf _]. left. by exists f.
  - cbn. apply lookup_delete_eq.
Qed.

Lemma DeleteRepoFindings_wf ctx id s s' : tables_wf s → DeleteRepoFindings ctx id s = Ok s' →
  tables_wf s' ∧ scans_move s s' ∧ findings_from s s'.
Proof.
  intros Hwf Hok. unfold DeleteRepoFindings in Hok. open_bind Hok scope _. open_bind Hok r Hr. injection Hok as <-.
  apply scoped_repo_scan_Ok in Hr as [Hr _]. destruct (cleared_rows s id Hwf) as [Hrows Hids]. split_and!.
  - match goal with |- tables_wf (put_repo_scan id ?r' ?t) => assert (tables_wf t) as Ht end.
    { apply (deleted_wf s _ (λ key, key ∈ default [] (repoFindingIDs s !! id))); cbn; try done.
      - intros j r' Hj. by exists r'.
      - apply (wf_order _ Hwf).
      - intros key f [Hf _]%Hrows. by destruct (wf_rows _ Hwf _ _ Hf) as (_ & ? & _). }
    apply (put_moved_wf _ id r); [done|done|apply scan_moves_count].
  - intros j r' Hj. cbn in Hj. apply lookup_insert_Some in Hj as [[<- <-]|[_ Hj]].
    + exists r. split; [done|apply scan_moves_count].
    + exists r'. split; [done|apply scan_moves_refl].
  - intros key f Hf. cbn in Hf. apply Hrows in Hf as [Hf _]. left. by exists f.
Qed.

(** *** Deleting targets *)

(** After the first loop: the rows remembered by scan are gone. *)
Record targets_deleted (s s' : RepoScanTables) (byScan : gmap string (gset string)) : Prop := {
  td_scans : repoScans s' = repoScans s;
  td_order : repoScanIDs s' = repoScanIDs s;
  td_lists : repoFindingIDs s' = repoFindingIDs s;
  td_rows : ∀ key f, repoFindings s' !! key = Some f ↔
    repoFindings s !! key = Some f ∧ ¬ ∃ id keys, byScan !! id = Some keys ∧ key ∈ keys;
  td_keys : ∀ id keys key, byScan !! id = Some keys → key ∈ keys →
    ∃ f, repoFindings s !! key = Some f ∧ RF_ScanID f = id;
  td_known : ∀ id, is_Some (byScan !! id) → is_Some (repoScans s !! id);
}.

Lemma no_targets_deleted s : targets_deleted s s ∅.
Proof.
  split; [done..| | |].
  - intros key f. split; [|by intros []]. intros Hf. split; [done|]. intros (id & ks & Hks & _). by rewrite lookup_empty in Hks.
  - intros id ks key Hks. by rewrite lookup_empty in Hks.
  - intros id [ks Hks]. by rewrite lookup_empty in Hks.
Qed.

Lemma target_row_Some scope s t r f :
  target_row scope s t = Some (r, f) → repoScans s !! Target_RepoScanID t = Some r ∧ repoFindings s !! finding_key t = Some f.
Proof.
  unfold target_row. destruct (_ || _); [done|]. intros (x & Hx & E)%bind_Some. destruct (repo_in_scope scope x); [|done].
  apply bind_Some in E as (y & Hy & [= <- <-]). done.
Qed.
Lemma finding_key_scan s t f :
  tables_wf s → is_Some (repoScans s !! Target_RepoScanID t) → repoFindings s !! finding_key t = Some f →
  RF_ScanID f = Target_RepoScanID t.
Proof.
  intros Hwf [r Hr] Hf. destruct (wf_rows _ Hwf _ _ Hf) as (Hk & [r' Hr'] & _).
  pose proof (proj2 (wf_scans _ Hwf _ _ Hr)). pose proof (proj2 (wf_scans _ Hwf _ _ Hr')).
  unfold row_key, finding_key in Hk.
  change (RF_ScanID f +:+ String "|" "" +:+ RF_ID f = Target_RepoScanID t +:+ String "|" "" +:+ Target_FindingID t) in Hk.
  by apply join_inj in Hk as [? _].
Qed.

Lemma delete_target_inv scope s acc target :
  tables_wf s → targets_deleted s acc.1 acc.2.2 →
  targets_deleted s (delete_target scope acc target).1 (delete_target scope acc target).2.2.
Proof.
  intros Hwf. destruct acc as [s1 [deleted byScan]]. cbn [fst snd]. intros [Hs Ho Hl Hr Hk Hn]. unfold delete_target.
  set (t := trim_target target). destruct (target_row scope s1 t) as [[r f]|] eqn:E; [|by split].
  apply target_row_Some in E as [Hscan Hf]. rewrite Hs in Hscan. apply Hr in Hf as [Hf Hnot]. cbn [fst snd].
  assert (RF_ScanID f = Target_RepoScanID t) as Hid by (eapply finding_key_scan; [done| |done]; rewrite Hscan; by eexists).
  set (keys := default ∅ (byScan !! Target_RepoScanID t)). split; try done.
  - intros key g. cbn. rewrite lookup_delete_Some, Hr. split.
    + intros (Hne & Hg & Hno). split; [done|]. intros (id & ks & Hks & Hin).
      apply lookup_insert_Some in Hks as [[<- <-]|[_ Hks]]; [|by apply Hno; exists id, ks].
      apply elem_of_union in Hin as [->%elem_of_singleton|Hin]; [done|]. unfold keys in Hin.
      destruct (byScan !! Target_RepoScanID t) as [ks|] eqn:Eb; [|by apply elem_of_empty in Hin]. apply Hno. by exists (Target_RepoScanID t), ks.
    + intros (Hg & Hno). split_and!; [|done|].
      * intros <-. apply Hno. exists (Target_RepoScanID t). eexists. rewrite lookup_insert_eq. split; [done|]. set_solver.
      * intros (id & ks & Hks & Hin). apply Hno. destruct (decide (id = Target_RepoScanID t)) as [->|Hne].
        -- eexists _, _. rewrite lookup_insert_eq. split; [done|]. unfold keys. rewrite Hks. set_solver.
        -- exists id, ks. by rewrite lookup_insert_ne.
  - intros id ks key Hks Hin. apply lookup_insert_Some in Hks as [[<- <-]|[_ Hks]]; [|by eapply Hk].
    apply elem_of_union in Hin as [->%elem_of_singleton|Hin]; [by exists f|]. unfold keys in Hin.
    destruct (byScan !! Target_RepoScanID t) as [ks|] eqn:Eb; [by eapply Hk|by apply elem_of_empty in Hin].
  - intros id [ks Hks]. apply lookup_insert_Some in Hks as [[<- _]|[_ Hks]]; [rewrite Hscan; by eexists|apply Hn; by eexists].
Qed.

Lemma delete_targets_inv scope s targets : ∀ acc,
  tables_wf s → targets_deleted s acc.1 acc.2.2 →
  targets_deleted s (foldl (delete_target scope) acc targets).1 (foldl (delete_target scope) acc targets).2.2.
Proof.
  induction targets as [|t targets IH]; intros acc Hwf Hacc; [done|]. cbn [foldl]. apply IH; [done|]. by apply delete_target_inv.
Qed.

(** The second loop takes the keys off the lists. *)
Lemma forget_keys_fold (l : list (string * gset string)) : ∀ s, NoDup l.*1 →
  (∀ id ks, (id, ks) ∈ l → is_Some (repoScans s !! id)) →
  let s' := foldl forget_keys s l in
  repoFindings s' = repoFindings s ∧ repoScanIDs s' = repoScanIDs s ∧ scans_move s s' ∧
  (∀ id, is_Some (repoScans s' !! id) ↔ is_Some (repoScans s !! id)) ∧
  (∀ id, id ∉ l.*1 → default [] (repoFindingIDs s' !! id) = default [] (repoFindingIDs s !! id)) ∧
  ∀ id ks, (id, ks) ∈ l → default [] (repoFindingIDs s' !! id) = filter (.∉ ks) (default [] (repoFindingIDs s !! id)).
Proof.
  induction l as [|[id ks] l IH]; intros s Hnd Hlive; cbn [foldl].
  { split_and!; try done; [by apply same_scans_move|by intros ?? ?%elem_of_nil]. }
  cbn in Hnd. apply NoDup_cons in Hnd as [Hid Hnd]. destruct (Hlive id ks) as [r Hr]; [by left|].
  set (s1 := forget_keys s (id, ks)).
  assert (repoFindingIDs s1 = if is_nil (filter (.∉ ks) (default [] (repoFindingIDs s !! id))) then delete id (repoFindingIDs s)
    else <[id := filter (.∉ ks) (default [] (repoFindingIDs s !! id))]> (repoFindingIDs s)) as Hl1 by done.
  assert (repoScans s1 = <[id := with_finding_count (Z.of_nat (length (filter (.∉ ks) (default [] (repoFindingIDs s !! id))))) r]> (repoScans s)) as Hs1.
  { unfold s1. cbn. by rewrite Hr. }
  assert (∀ j, is_Some (repoScans s1 !! j) ↔ is_Some (repoScans s !! j)) as Hd1.
  { intros j. rewrite Hs1. destruct (decide (id = j)) as [<-|Hne]; [rewrite lookup_insert_eq, Hr; by split; eexists|by rewrite lookup_insert_ne]. }
  destruct (IH s1 Hnd) as (Hf & Ho & Hm & Hdom & Hout & Hin).
  { intros j kj Hj. apply Hd1, (Hlive j kj). by right. }
  assert (default [] (repoFindingIDs s1 !! id) = filter (.∉ ks) (default [] (repoFindingIDs s !! id))) as Hown.
  { rewrite Hl1. destruct (filter (.∉ ks) _) eqn:E; cbn; [by rewrite lookup_delete_eq|by rewrite lookup_insert_eq]. }
  assert (∀ j, j ≠ id → repoFindingIDs s1 !! j = repoFindingIDs s !! j) as Hoth.
  { intros j Hne. rewrite Hl1. destruct (is_nil _); [by apply lookup_delete_ne|by apply lookup_insert_ne]. }
  split_and!; try done.
  - intros j r' Hj. destruct (Hm j r' Hj) as (r1 & Hr1 & Hm1). rewrite Hs1 in Hr1.
    apply lookup_insert_Some in Hr1 as [[<- <-]|[_ Hr1]]; [|by exists r1].
    exists r. split; [done|]. eapply scan_moves_trans; [apply scan_moves_count|done].
  - intros j. by rewrite Hdom.
  - intros j Hj. cbn in Hj. apply not_elem_of_cons in Hj as [Hne Hj]. by rewrite Hout, Hoth.
  - intros j kj [[= -> ->]|Hj]%elem_of_cons; [by rewrite Hout|]. rewrite (Hin j kj Hj), Hoth; [done|]. intros ->.
    apply Hid, list_elem_of_fmap. by exists (id, kj).
Qed.

Lemma DeleteRepoFindingTargets_wf ctx targets s s' deleted : tables_wf s →
  DeleteRepoFindingTargets ctx targets s = Ok (s', deleted) → tables_wf s' ∧ scans_move s s' ∧ findings_from s s'.
Proof.
  intros Hwf Hok. unfold DeleteRepoFindingTargets in Hok. open_bind Hok scope _.
  pose proof (delete_targets_inv scope s targets (s, ([], ∅)) Hwf) as Htd. cbn [fst snd] in Htd.
  destruct (foldl _ _ _) as [s1 [d byScan]]. injection Hok as <- _. cbn [fst snd] in Htd.
  destruct Htd as [Hs Ho Hl Hr Hk Hn].
  { apply no_targets_deleted. }
  destruct (forget_keys_fold (map_range byScan) s1) as (Hf2 & Ho2 & Hm2 & Hd2 & Hout & Hin).
  { apply NoDup_map_range. }
  { intros id ks Hin%elem_of_map_range. rewrite Hs. apply Hn. by eexists. }
  assert (∀ id, id ∈ (map_range byScan).*1 ↔ is_Some (byScan !! id)) as Hdom.
  { intros id. rewrite list_elem_of_fmap. split; [intros ([? ks] & -> & Hi%elem_of_map_range); by eexists|].
    intros [ks Hks]. exists (id, ks). split; [done|]. by apply elem_of_map_range. }
  split_and!.
  - apply (deleted_wf s _ (λ key, ∃ id ks, byScan !! id = Some ks ∧ key ∈ ks)); [done| | | | |].
    + intros key f. rewrite Hf2. apply Hr.
    + intros id. destruct (wf_keys _ Hwf id) as [Hnd Hkeys]. destruct (byScan !! id) as [ks|] eqn:E.
      * rewrite (Hin id ks) by (by apply elem_of_map_range). rewrite Hl. split; [by apply NoDup_filter|].
        intros key. rewrite list_elem_of_filter. split; [|intros [? Hno]; split; [|done]; intros Hd; apply Hno; by exists id, ks].
        intros [Hno Hkey]. split; [done|]. intros (j & kj & Hj & Hin'). destruct (Hk j kj key Hj Hin') as (f & Hf & Hfid).
        destruct (Hkeys key Hkey) as (f' & Hf' & Hfid'). assert (j = id) as -> by congruence. congruence.
      * rewrite Hout by (rewrite Hdom, E; by intros []). rewrite Hl. split; [done|]. intros key. split; [|by intros []].
        intros Hkey. split; [done|]. intros (j & kj & Hj & Hin'). destruct (Hk j kj key Hj Hin') as (f & Hf & Hfid).
        destruct (Hkeys key Hkey) as (f' & Hf' & Hfid'). congruence.
    + intros id r' Hr'. destruct (Hm2 id r' Hr') as (r & Hr0 & [(E & _) _]). rewrite Hs in Hr0. by exists r.
    + rewrite Ho2, Ho. destruct (wf_order _ Hwf) as [Hnd Hi]. split; [done|]. intros id. by rewrite Hd2, Hs.
    + intros key f Hf. rewrite Hf2 in Hf. apply Hr in Hf as [Hf _]. rewrite Hd2, Hs. by destruct (wf_rows _ Hwf _ _ Hf) as (_ & ? & _).
  - intros id r' Hr'. destruct (Hm2 id r' Hr') as (r & Hr0 & Hm). rewrite Hs in Hr0. by exists r.
  - intros key f Hf. rewrite Hf2 in Hf. apply Hr in Hf as [Hf _]. left. by exists f.
Qed.

(** ** Any call *)

(** What a call that succeeds does: [created] is the scan it created. *)
Record step_ok (created : option string) (s s' : RepoScanTables) : Prop := {
  so_wf : tables_wf s';
  so_scans : ∀ id r', repoScans s' !! id = Some r' →
    (∃ r, repoScans s !! id = Some r ∧ scan_moves r r') ∨ (created = Some id ∧ repoScans s !! id = None);
  so_rows : findings_from s s';
}.
Lemma step_ok_moves created s s' : tables_wf s' → scans_move s s' → findings_from s s' → step_ok created s s'.
Proof. intros Hwf Hm Hf. split; [done| |done]. intros id r' Hr'. left. by apply Hm. Qed.
Lemma step_ok_put created s id r r' :
  tables_wf s → repoScans s !! id = Some r → scan_moves r r' → step_ok created s (put_repo_scan id r' s).
Proof.
  intros Hwf Hr Hm. apply step_ok_moves; [by apply (put_moved_wf _ _ r)|by apply (put_scan_moves _ _ r)|by apply same_findings_from].
Qed.
Lemma step_ok_new s id r :
  tables_wf s → repoScans s !! id = None → no_byte "|" id → RepoScan_ID r = id →
  step_ok (Some id) s (mkRepoTables (<[id := r]> (repoScans s)) (repoScanIDs s ++ [id]) (repoFindings s) (repoFindingIDs s) (repoCursors s)).
Proof.
  intros Hwf Hnew Hbar Hid. split; [by apply new_scan_wf| |by apply same_findings_from].
  intros j r' Hj. cbn in Hj. apply lookup_insert_Some in Hj as [[<- <-]|[_ Hj]]; [by right|]. left. exists r'. split; [done|apply scan_moves_refl].
Qed.
Lemma enqueue_new newID trace scope repository source c historyLimit maxFindings queuedAt s :
  enqueue_repo_scan newID trace scope repository source c historyLimit maxFindings queuedAt s =
  let r := with_repo_trace trace (new_repo_scan newID scope (TrimSpace repository) source c "queued" historyLimit maxFindings queuedAt) in
  (mkRepoTables (<[newID := r]> (repoScans s)) (repoScanIDs s ++ [newID]) (repoFindings s) (repoFindingIDs s) (repoCursors s), r).
Proof. unfold enqueue_repo_scan, createRepoScanLocked, put_repo_scan. cbn. by rewrite insert_insert_eq. Qed.
Lemma step_ok_claim now scope s s' claimed :
  tables_wf s → claimNextQueuedRepoScanLocked now scope s = Ok (s', claimed) → step_ok None s s'.
Proof.
  intros Hwf Hok. destruct (claim_spec now scope s s' claimed Hwf Hok) as (r & Hr & Hcl & _ & -> & _).
  apply (step_ok_put _ _ _ r); [done..|]. apply scan_moves_pending; [done|]. apply status_queued_pending.
  unfold repo_claimable in Hcl. by apply andb_true_iff in Hcl as [_ ?].
Qed.

Lemma step_ok_scoped ctx id s scope r r' :
  tables_wf s → RequireScope ctx = Ok scope → scoped_repo_scan scope id s = Ok r → repo_pending r = true → same_target r r' →
  step_ok None s (put_repo_scan id r' s).
Proof.
  intros Hwf _ [Hr _]%scoped_repo_scan_Ok Hp Ht. apply (step_ok_put _ _ _ r); [done..|]. by apply scan_moves_pending.
Qed.

Lemma step_ok_fail_stale now staleBefore limit message s :
  tables_wf s → step_ok None s (FailStaleRepoScansAnyScope now staleBefore limit message s).1.
Proof.
  intros Hwf. unfold FailStaleRepoScansAnyScope. case_match; cbn [fst].
  { apply step_ok_moves; [done|by apply same_scans_move|by apply same_findings_from]. }
  match goal with |- context [foldl _ s ?cs] => set (l := cs) end.
  destruct (fold_put_scans s (fail_stale now message) l s) as (Hm & Hi & Hf & Hk & Hd); try done; [|by apply same_scans_move|].
  - intros r Hr%elem_of_truncate. apply elem_of_sort_slice in Hr. apply list_elem_of_filter in Hr as [Hst Hr].
    split; [by apply ordered_repo_scans_elem|]. apply scan_moves_pending; [done|]. apply status_running_pending.
    unfold repo_stale in Hst. by apply andb_true_iff in Hst as [? _].
  - apply step_ok_moves; [by apply (moved_wf s)|done|by apply same_findings_from].
Qed.

Lemma closing_keeps scope scan t cnp inc cur s f :
  RF_ScanID (closing scope scan t cnp inc cur s f) = RF_ScanID f ∧ row_key (closing scope scan t cnp inc cur s f) = row_key f.
Proof.
  unfold closing. destruct (other_scan _ _ _ _ _) as [record|]; [|done]. cbv zeta. case_match; [|done].
  by rewrite closed_finding_ScanID, read_row_ScanID, closed_finding_key, read_row_key.
Qed.
Lemma step_ok_mark scope scan t cnp inc s :
  tables_wf s → step_ok None s (markMissingRepoFindingsFixedLocked scope scan t cnp inc s).
Proof.
  intros Hwf. unfold markMissingRepoFindingsFixedLocked. rewrite mark_missing_all by by apply tables_rows_wf.
  set (cur := current_keys (RepoScan_ID scan) s). set (cl := closing scope scan t cnp (list_to_set inc) cur s).
  assert (∀ f, RF_ScanID (cl f) = RF_ScanID f ∧ row_key (cl f) = row_key f) as Hcl by (intros f; apply closing_keeps).
  clearbody cl. apply step_ok_moves; [|by apply same_scans_move|].
  - split; cbn; [apply (wf_scans _ Hwf)|apply (wf_order _ Hwf)| |].
    + intros key f. rewrite lookup_fmap. intros (g & Hg & ->)%fmap_Some. destruct (Hcl g) as [-> ->]. by apply (wf_rows _ Hwf).
    + intros id. destruct (wf_keys _ Hwf id) as [Hnd Hin]. split; [done|]. intros key Hkey.
      destruct (Hin key Hkey) as (f & Hf & Hid). exists (cl f). by rewrite lookup_fmap, Hf, (proj1 (Hcl f)).
  - intros key f. cbn. rewrite lookup_fmap. intros (g & Hg & ->)%fmap_Some. left. exists g. split; [done|]. by rewrite (proj1 (Hcl g)).
Qed.
Lemma findings_from_put s id r s' :
  findings_from (put_repo_scan id r s) s' → (∃ r0, repoScans s !! id = Some r0 ∧ repo_pending r0 = true) → findings_from s s'.
Proof.
  intros Hf (r0 & Hr0 & Hp) key f Hkey. destruct (Hf key f Hkey) as [?|(r1 & Hr1 & Hp1)]; [by left|right].
  cbn in Hr1. apply lookup_insert_Some in Hr1 as [[<- _]|[_ Hr1]]; by eexists.
Qed.
Lemma step_ok_trans_put s id r r' s' :
  repoScans s !! id = Some r → repo_pending r = true → same_target r r' →
  step_ok None (put_repo_scan id r' s) s' → step_ok None s s'.
Proof.
  intros Hr Hp Ht [Hwf Hs Hf]. split; [done| |].
  - intros j x Hx. destruct (Hs j x Hx) as [(y & Hy & Hm)|[? _]]; [|done]. left. cbn in Hy.
    apply lookup_insert_Some in Hy as [[<- <-]|[_ Hy]]; [|by exists y]. exists r. split; [done|].
    eapply scan_moves_trans; [by apply scan_moves_pending|done].
  - eapply findings_from_put; [done|]. by exists r.
Qed.

Lemma step_ok_upsert now scope id scan findings : ∀ s s1,
  repoScans s !! id = Some scan → repo_pending scan = true → RepoScan_ID scan = id →
  repoScans s1 = repoScans s → step_ok None s s1 →
  step_ok None s (foldl (upsert_finding now scope id scan) s1 findings).
Proof.
  induction findings as [|f findings IH]; intros s s1 Hscan Hp Hid Hs1 Hok; [done|]. cbn [foldl]. rewrite upsert_finding_row by done.
  set (row := observation_row now scope id scan s1 f).
  destruct (observation_row_spec now scope id scan s1 f) as (_ & _ & _ & _ & Hrow & Hrid). fold row in Hrow, Hrid. clearbody row.
  apply IH; try done. destruct Hok as [Hwf Hm Hf]. split.
  - pose proof (put_finding_wf row s1 Hwf) as Hput. rewrite Hrow, Hs1, Hscan in Hput. by apply Hput; eexists.
  - exact Hm.
  - intros key g Hg. cbn in Hg. apply lookup_insert_Some in Hg as [[_ <-]|[_ Hg]]; [|by apply Hf].
    right. rewrite Hrow. by exists scan.
Qed.

(** Every call that succeeds. *)
Lemma repo_call_ok op s s' : fresh_id op s → tables_wf s → repo_call op s = Ok s' → step_ok (created_id op) s s'.
Proof.
  intros Hfresh Hwf Hok. destruct op; cbn [repo_call created_id] in Hok |- *.
  - destruct (Hfresh _ eq_refl). apply fmap_Ok in Hok as ([s1 r] & Hok & ->). cbn [fst]. unfold CreateRepoScan in Hok.
    open_bind Hok scope Hscope. injection Hok as <- _. by apply step_ok_new.
  - destruct (Hfresh _ eq_refl). apply fmap_Ok in Hok as ([s1 r] & Hok & ->). cbn [fst]. unfold CreateQueuedRepoScan in Hok.
    open_bind Hok scope Hscope. rewrite enqueue_new in Hok. injection Hok as <- _. by apply step_ok_new.
  - destruct (Hfresh _ eq_refl). apply fmap_Ok in Hok as ([s1 r] & Hok & ->). cbn [fst]. unfold CreateQueuedRepoScanWithinLimit in Hok.
    open_bind Hok scope Hscope. open_bind Hok u _. open_bind Hok v _. rewrite enqueue_new in Hok. injection Hok as <- _. by apply step_ok_new.
  - apply fmap_Ok in Hok as ([s1 r] & Hok & ->). cbn [fst]. unfold ClaimNextQueuedRepoScan in Hok. open_bind Hok scope Hscope.
    by eapply step_ok_claim.
  - apply fmap_Ok in Hok as ([s1 r] & Hok & ->). cbn [fst]. by eapply step_ok_claim.
  - unfold RequeueRepoScan in Hok. open_bind Hok scope Hscope. open_bind Hok r Hr. open_bind Hok u Hp. apply guard_err_Ok in Hp.
    injection Hok as <-. apply (step_ok_scoped ctx id s scope r); try done. by apply status_running_pending.
  - injection Hok as <-. by apply step_ok_fail_stale.
  - apply fmap_Ok in Hok as ([s1 r'] & Hok & ->). cbn [fst]. unfold CancelRepoScan in Hok. open_bind Hok scope Hscope. open_bind Hok r Hr.
    open_bind Hok u Hp. apply guard_err_Ok in Hp. injection Hok as <- _. by apply (step_ok_scoped ctx id s scope r).
  - unfold CompleteRepoScan in Hok. open_bind Hok scope Hscope. open_bind Hok r Hr. open_bind Hok u Hp. apply guard_err_Ok in Hp.
    pose proof Hr as [Hr' _]%scoped_repo_scan_Ok.
    match type of Hok with context [put_repo_scan id ?r' s] => set (scan := r') in *; assert (same_target r scan) as Ht by done end.
    clearbody scan. assert (step_ok None s (put_repo_scan id scan s)) as Hput by (by apply (step_ok_scoped ctx id s scope r)).
    destruct (shouldCloseMissingPostureRepoFindings _ _ _); injection Hok as <-; [|done].
    eapply step_ok_trans_put; [done..|]. apply step_ok_mark, Hput.
  - unfold UpsertRepoFindings in Hok. open_bind Hok scope Hscope. open_bind Hok r Hr. open_bind Hok u Hp. apply guard_err_Ok in Hp.
    injection Hok as <-. apply scoped_repo_scan_Ok in Hr as [Hr _]. apply step_ok_upsert; try done.
    + by apply (wf_scans _ Hwf).
    + apply step_ok_moves; [done|by apply same_scans_move|by apply same_findings_from].
  - apply DeleteRepoScan_wf in Hok as (? & ? & ? & _); [by apply step_ok_moves|done].
  - apply DeleteRepoFindings_wf in Hok as (? & ? & ?); [by apply step_ok_moves|done].
  - apply fmap_Ok in Hok as ([s1 d] & Hok & ->). cbn [fst].
    apply DeleteRepoFindingTargets_wf in Hok as (? & ? & ?); [by apply step_ok_moves|done].
  - unfold UpsertRepoScanCursor in Hok. open_bind Hok scope Hscope. open_bind Hok u Hp. injection Hok as <-.
    apply step_ok_moves; [by destruct Hwf|by apply same_scans_move|by apply same_findings_from].
Qed.
Lemma repo_step_ok op s : fresh_id op s → tables_wf s → step_ok (created_id op) s (repo_step s op).
Proof.
  intros Hfresh Hwf. unfold repo_step. destruct (repo_call op s) as [s'|] eqn:E; [by apply repo_call_ok|].
  apply step_ok_moves; [done|by apply same_scans_move|by apply same_findings_from].
Qed.

(** ** Runs *)

Lemma repo_runs_inv (I : RepoScanTables → Prop) (ok : repo_op → Prop) :
  (∀ op s, I s → tables_wf s → ok op → fresh_id op s → I (repo_step s op)) →
  ∀ s ops s', repo_runs s ops s' → tables_wf s → I s → (∀ op, op ∈ ops → ok op) → I s'.
Proof.
  intros Hstep s ops s' Hruns. induction Hruns as [|s op ops s' Hfresh _ IH]; intros Hwf Hi Hok; [done|].
  apply IH.
  - by apply repo_step_ok.
  - apply Hstep; try done. apply Hok. by left.
  - intros op' Hin. apply Hok. by right.
Qed.

(** Whatever sequence of calls is made, in any scopes, and whether they
    succeed or not, the tables stay well-formed: each scan is stored under its id
    and listed once, each finding is stored under its scan and id, belongs to a
    scan that exists, and is listed once under that scan. *)
Theorem repo_tables_invariant s ops s' (Hwf : tables_wf s) (Hruns : repo_runs s ops s') : tables_wf s'.
Proof.
  apply (repo_runs_inv tables_wf (λ _, True) (λ op s _ Hw _ Hf, so_wf _ _ _ (repo_step_ok op s Hf Hw)) s ops); done.
Qed.

(** What is left of the scan [r], and of its findings, later. *)
Record scan_frozen (id : string) (r : RepoScanRecord) (s0 s : RepoScanTables) : Prop := {
  frozen_scan : ∀ r', repoScans s !! id = Some r' → r' = with_finding_count (RepoScan_FindingCount r') r;
  frozen_rows : ∀ key f, repoFindings s !! key = Some f → RF_ScanID f = id →
    ∃ f0, repoFindings s0 !! key = Some f0 ∧ RF_ScanID f0 = id;
}.
Lemma scan_frozen_step id r s0 s op :
  repo_pending r = false → created_id op ≠ Some id → tables_wf s → fresh_id op s →
  scan_frozen id r s0 s → scan_frozen id r s0 (repo_step s op).
Proof.
  intros Hover Hne Hwf Hfresh [Hscan Hrows]. destruct (repo_step_ok op s Hfresh Hwf) as [_ Hm Hf].
  assert (∀ x, repoScans s !! id = Some x → repo_pending x = false) as Hstill.
  { intros x Hx. rewrite (Hscan x Hx). exact Hover. }
  split.
  - intros r' Hr'. destruct (Hm id r' Hr') as [(x & Hx & _ & Hsame)|[? _]]; [|done].
    rewrite (Hsame (Hstill x Hx)), (Hscan x Hx). by destruct r.
  - intros key f Hkey Hid. destruct (Hf key f Hkey) as [(f0 & Hf0 & E)|(x & Hx & Hp)].
    + apply (Hrows key f0 Hf0). congruence.
    + rewrite Hid in Hx. rewrite (Hstill x Hx) in Hp. done.
Qed.

(** C25. A repository scan that is over (succeeded, failed or cancelled) is never
    changed again: whatever calls follow, its row is the one it ended with, except
    for the count of its findings, or is gone, and no finding is added to it. *)
Theorem finished_repo_scan_final s ops s' id r
    (Hwf : tables_wf s) (Hruns : repo_runs s ops s')
    (Hscan : repoScans s !! id = Some r) (Hover : repo_pending r = false)
    (Hids : ∀ op, op ∈ ops → created_id op ≠ Some id) :
  (∀ r', repoScans s' !! id = Some r' → r' = with_finding_count (RepoScan_FindingCount r') r) ∧
  ∀ key f, repoFindings s' !! key = Some f → RF_ScanID f = id → ∃ f0, repoFindings s !! key = Some f0 ∧ RF_ScanID f0 = id.
Proof.
  assert (scan_frozen id r s s) as Hstart.
  { split; [|intros key f Hf Hid; by exists f]. intros r' Hr'. rewrite Hscan in Hr'. injection Hr' as <-. by destruct r. }
  destruct (repo_runs_inv (scan_frozen id r s) (λ op, created_id op ≠ Some id)
    (λ op t Hi Hw Hc Hf, scan_frozen_step id r s t op Hover Hc Hw Hf Hi) s ops s' Hruns Hwf Hstart Hids) as [Hrow Hrows].
  by split.
Qed.

(** *** One pending scan per repository *)
Definition same_repository (r r' : RepoScanRecord) : Prop :=
  RepoScan_TenantID r = RepoScan_TenantID r' ∧ RepoScan_WorkspaceID r = RepoScan_WorkspaceID r' ∧
  EqualFold (RepoScan_Repository r) (RepoScan_Repository r') = true.
Lemma same_repository_sym r r' : same_repository r r' → same_repository r' r.
Proof. unfold same_repository, EqualFold. rewrite !bool_decide_eq_true. naive_solver. Qed.
Definition one_pending (s : RepoScanTables) : Prop := ∀ id id' r r',
  repoScans s !! id = Some r → repoScans s !! id' = Some r' → repo_pending r = true → repo_pending r' = true →
  same_repository r r' → id = id'.

(** The row is admitted for the scope. *)
Definition admission_checked (op : repo_op) : Prop :=
  match op with RCreate _ _ _ _ _ _ | RQueue _ _ _ _ _ _ _ _ _ => False | _ => True end.

Lemma scan_moves_still_pending r r' : scan_moves r r' → repo_pending r' = true → repo_pending r = true.
Proof. intros [_ Hm] Hp. destruct (repo_pending r) eqn:E; [done|]. rewrite (Hm eq_refl) in Hp. rewrite <-E. exact Hp. Qed.
Lemma scan_moves_repository r r' : scan_moves r r' → same_repository r' r.
Proof. intros [(_ & Et & Ew & Er) _]. split_and!; [done..|]. unfold EqualFold. rewrite Er. by apply bool_decide_eq_true. Qed.
Lemma same_repository_trans r r' r'' : same_repository r r' → same_repository r' r'' → same_repository r r''.
Proof. unfold same_repository, EqualFold. rewrite !bool_decide_eq_true. intros (-> & -> & ->) (-> & -> & ->). done. Qed.

Lemma count_repo_scans_zero f s id r : count_repo_scans f s = 0 → repoScans s !! id = Some r → f r = false.
Proof.
  unfold count_repo_scans. intros Hz Hr. destruct (f r) eqn:E; [|done]. exfalso.
  assert (size (filter (λ '(_, r), f r = true) (repoScans s)) = 0%nat) as Hsz by lia.
  apply map_size_empty_inv in Hsz.
  assert (filter (λ '(_, r), f r = true) (repoScans s) !! id = Some r) as Hl by (by apply map_lookup_filter_Some).
  by rewrite Hsz, lookup_empty in Hl.
Qed.

Lemma one_pending_moves s s' : scans_move s s' → one_pending s → one_pending s'.
Proof.
  intros Hm Hone id id' r r' Hr Hr' Hp Hp' Hsame. destruct (Hm id r Hr) as (x & Hx & Hmx). destruct (Hm id' r' Hr') as (y & Hy & Hmy).
  apply (Hone id id' x y Hx Hy).
  - by eapply scan_moves_still_pending.
  - by eapply scan_moves_still_pending.
  - eapply same_repository_trans; [apply same_repository_sym, scan_moves_repository, Hmx|].
    eapply same_repository_trans; [done|by apply scan_moves_repository].
Qed.
Lemma one_pending_insert s id r ids :
  one_pending s → (∀ j x, repoScans s !! j = Some x → repo_pending x = true → ¬ same_repository x r) →
  one_pending (mkRepoTables (<[id := r]> (repoScans s)) ids (repoFindings s) (repoFindingIDs s) (repoCursors s)).
Proof.
  intros Hone Hnew i j x y Hx Hy Hp Hp' Hsame. cbn in Hx, Hy.
  apply lookup_insert_Some in Hx as [[<- <-]|[_ Hx]]; apply lookup_insert_Some in Hy as [[<- <-]|[_ Hy]].
  - done.
  - by destruct (Hnew j y Hy Hp'); apply same_repository_sym.
  - by destruct (Hnew i x Hx Hp).
  - by apply (Hone i j x y).
Qed.

Lemma one_pending_step op s :
  tables_wf s → fresh_id op s → admission_checked op → one_pending s → one_pending (repo_step s op).
Proof.
  intros Hwf Hfresh Hadm Hone. destruct (created_id op) eqn:Hc.
  2: { apply (one_pending_moves s); [|done]. intros id r' Hr'.
       destruct (so_scans _ _ _ (repo_step_ok op s Hfresh Hwf) id r' Hr') as [?|[E _]]; [done|congruence]. }
  destruct op as [| |newID trace ctx repository source c historyLimit maxFindings queuedAt maxPending| | | | | | | | | | |]; try done.
  unfold repo_step. cbn [repo_call]. destruct (fst <$> _) as [s'|] eqn:E; [|done].
  apply fmap_Ok in E as ([s1 r] & Hok & ->). cbn [fst ok_or]. unfold CreateQueuedRepoScanWithinLimit in Hok.
  open_bind Hok scope Hscope. open_bind Hok u Hbusy. open_bind Hok v _. rewrite enqueue_new in Hok. injection Hok as <- _.
  apply guard_err_Ok, Z.eqb_eq in Hbusy. apply one_pending_insert; [done|]. intros j x Hx Hp (Et & Ew & Er).
  pose proof (count_repo_scans_zero _ _ _ _ Hbusy Hx) as Hno. unfold repo_busy in Hno. rewrite Hp, andb_true_r in Hno.
  apply not_true_iff_false in Hno. apply Hno, andb_true_iff. split.
  - unfold repo_in_scope. cbn in Et, Ew. rewrite Et, Ew. by apply MatchScope_stamped.
  - cbn in Er. by rewrite !TrimSpace_idemp in Er.
Qed.

(** C26. When every scan is queued through the admission check, at most one scan
    of a repository is queued or running at a time in a workspace (names are
    compared without case): this holds after any sequence of calls, whatever is
    claimed, requeued, failed, cancelled, completed or deleted in between. *)
Theorem one_pending_repo_scan s ops s'
    (Hwf : tables_wf s) (Hone : one_pending s) (Hruns : repo_runs s ops s')
    (Hadmission : ∀ op, op ∈ ops → admission_checked op) : one_pending s'.
Proof.
  apply (repo_runs_inv one_pending admission_checked
    (λ op t Hi Hw Ha Hf, one_pending_step op t Hw Hf Ha Hi) s ops s'); done.
Qed.
End runs.

(** ** Examples *)
#[local] Existing Instance canonical_range.
#[local] Existing Instance insertion_sort.
#[local] Existing Instance no_floats.

(** A second scan is queued, refused, claimed, requeued and cancelled after the
    first one was completed. *)
Definition sample_queue_repo (id : string) (now : Z) : repo_op :=
  RQueueWithinLimit id ("", "") sample_repo_ctx "acme/App" no_repo_source sample_deep 100 10 now 5.
Definition sample_repo_ops : list repo_op :=
  [sample_queue_repo "q1" 30; sample_queue_repo "q2" 31; RClaim 32 sample_repo_ctx; sample_queue_repo "q3" 33;
   RRequeue 34 sample_repo_ctx "q1"; RCancel sample_repo_ctx "q1" 35 "stop"; sample_queue_repo "q4" 36;
   RUpsertFindings 37 sample_repo_ctx "r2" [sample_repo_finding "z" "k9"]; RDeleteTargets sample_repo_ctx [mkTarget "r2" "c"];
   RComplete sample_repo_ctx "r2" "failed" 38 0 0 0 false sample_deep ""].
Definition sample_repo_end : RepoScanTables := foldl repo_step repo_tables_three sample_repo_ops.

Lemma fresh_id_intro op s :
  match created_id op with None => True | Some id => repoScans s !! id = None ∧ no_byte "|" id end → fresh_id op s.
Proof. intros Hop id E. by rewrite E in Hop. Qed.
Lemma sample_repo_runs : repo_runs repo_tables_three sample_repo_ops sample_repo_end.
Proof.
  unfold sample_repo_end, sample_repo_ops.
  repeat (apply repo_runs_cons; [apply fresh_id_intro; cbn [created_id sample_queue_repo];
    first [exact I|split; [by vm_compute|apply (bool_decide_unpack _); by vm_compute]]|]).
  apply repo_runs_nil.
Qed.

Example sample_repo_end_scans :
  ((λ r, (RepoScan_Status r, RepoScan_FindingCount r)) <$> repoScans sample_repo_end) =
  {["r1" := ("succeeded", 2); "r2" := ("succeeded", 0); "q1" := ("failed", 0); "q4" := ("queued", 0)]}.
Proof. by vm_compute. Qed.

Lemma sample_tables_wf : tables_wf repo_tables_three.
Proof. apply tables_wfb_ok. by vm_compute. Qed.

Lemma repo_tables_invariant_witness : tables_wf sample_repo_end.
Proof. exact (repo_tables_invariant repo_tables_three sample_repo_ops sample_repo_end sample_tables_wf sample_repo_runs). Defined.

Lemma finished_repo_scan_final_witness :
  ∃ r r', repoScans repo_tables_three !! "r2" = Some r ∧ repoScans sample_repo_end !! "r2" = Some r' ∧ r' = with_finding_count 0 r.
Proof.
  destruct (repoScans repo_tables_three !! "r2") as [r|] eqn:Hr; [|by vm_compute in Hr].
  destruct (repoScans sample_repo_end !! "r2") as [r'|] eqn:Hr'; [|by vm_compute in Hr'].
  exists r, r'. split; [done|]. split; [done|].
  destruct (finished_repo_scan_final repo_tables_three sample_repo_ops sample_repo_end "r2" r sample_tables_wf sample_repo_runs Hr)
    as [Hsame _].
  - assert (r = default zero_repo_scan (repoScans repo_tables_three !! "r2")) as -> by (rewrite Hr; reflexivity). by vm_compute.
  - apply Forall_forall. apply (bool_decide_unpack _). by vm_compute.
  - rewrite (Hsame r' Hr'). f_equal.
    assert (r' = default zero_repo_scan (repoScans sample_repo_end !! "r2")) as -> by (rewrite Hr'; reflexivity). by vm_compute.
Defined.

Lemma one_pending_repo_scan_witness : one_pending sample_repo_end.
Proof.
  apply (one_pending_repo_scan repo_tables_three sample_repo_ops sample_repo_end sample_tables_wf); [|exact sample_repo_runs|].
  - intros id id' r r' Hr _ Hp _ _. exfalso. revert id r Hr Hp.
    assert (map_Forall (λ _ r, repo_pending r = false) (repoScans repo_tables_three)) as Hall
      by (apply (bool_decide_unpack _); by vm_compute).
    intros id r Hr Hp. by rewrite (Hall id r Hr) in Hp.
  - intros op Hop. repeat (apply elem_of_cons in Hop as [->|Hop]; [exact I|]). by apply elem_of_nil in Hop.
Defined.
