(* ===== verification/FindingEnrichment.v ===== *)
(** * Presenting findings (internal/api/service.go, finding_baselines.go, internal/findings/standards)

    What the API adds to a stored finding: repository metadata, the link to the
    line on GitHub, a confidence score and the compliance controls of its type.
    Also the exports of a finding for other tools. *)
From S2P Require Import Prelude GoStrings GoCollections GoTime GoFloat GoText ScanDomain RepoFindings RepoTargets.

(** ** More of [float64] *)
Definition float_add : float64 → float64 → float64 := SFadd 53 1024.
Definition float_mul : float64 → float64 → float64 := SFmul 53 1024.
Definition float_div : float64 → float64 → float64 := SFdiv 53 1024.
Definition float_leb : float64 → float64 → bool := SFleb.
(** The double nearest to [n / 100]. *)
Definition hundredths (n : Z) : float64 := float_div (float_of_int n) (float_of_int 100).
(** [math.Round]: to the nearest integer, halves away from zero. *)
Definition float_round (f : float64) : float64 :=
  match f with
  | S754_finite s m e =>
      if 0 <=? e then f
      else
        let r := (Z.pos m + 2 ^ (- e - 1)) / 2 ^ (- e) in
        if r =? 0 then S754_zero s else float_of_int (if s then - r else r)
  | _ => f
  end.
Definition float_finite (f : float64) : bool := match f with S754_nan | S754_infinity _ => false | _ => true end.

(** ** [path.Join] and the path of a [url.URL] *)
Fixpoint clean_segments (rooted : bool) (out segments : list string) : list string :=
  match segments with
  | [] => rev out
  | segment :: segments =>
      if bool_decide (segment = "") || bool_decide (segment = ".") then clean_segments rooted out segments
      else if decide (segment = "..") then
        match out with
        | last :: rest => if decide (last = "..") then clean_segments rooted (".." :: out) segments else clean_segments rooted rest segments
        | [] => clean_segments rooted (if rooted then [] else [".."]) segments
        end
      else clean_segments rooted (segment :: out) segments
  end.
Definition path_Clean (path : string) : string :=
  if decide (path = "") then "."
  else if HasPrefix path "/" then "/" +:+ Join (clean_segments true [] (Split path "/")) "/"
  else let cleaned := Join (clean_segments false [] (Split path "/")) "/" in if decide (cleaned = "") then "." else cleaned.
Definition path_Join (elements : list string) : string :=
  match filter (λ e, e ≠ "") elements with [] => "" | elements => path_Clean (Join elements "/") end.
(** [shouldEscape(c, encodePath)], negated, and [URL.EscapedPath]. *)
Definition path_byte (c : ascii) : bool := unreserved c || is_one_of "$&+,/:;=@" c.
Definition escape_path_byte (c : ascii) : list ascii :=
  if path_byte c then [c] else ["%"%char; upper_hex (code c / 16); upper_hex (code c mod 16)].
Definition EscapedPath (path : string) : string := if decide (path = "*") then "*" else of_bytes (bytes path ≫= escape_path_byte).

Example path_ex :
  path_Join ["a/b"; "blob"; "c1"; "x//y/../z w?.go"] = "a/b/blob/c1/x/z w?.go" ∧ EscapedPath "/a b?c" = "/a%20b%3Fc" ∧
  path_Clean "../a/../.." = "../..".
Proof. by vm_compute. Qed.

Definition repoFindingSourceURL `{URLParser} (repository commit filePath : string) (lineNumber : Z) : string :=
  if lineNumber <? 1 then ""
  else
    let normalizedRepository := normalizeGitHubRepositoryPath repository in
    let normalizedCommit := TrimSpace commit in
    let normalizedFilePath := TrimByte (TrimSpace filePath) "/" in
    if bool_decide (normalizedRepository = "") || bool_decide (normalizedCommit = "") || bool_decide (normalizedFilePath = "") then ""
    else "https://github.com" +:+ EscapedPath ("/" +:+ path_Join [normalizedRepository; "blob"; normalizedCommit; normalizedFilePath]) +:+
         "#L" +:+ Itoa lineNumber.

(** ** The confidence score *)
Definition roundConfidenceScore (value : float64) : float64 :=
  float_div (float_round (float_mul value (float_of_int 100))) (float_of_int 100).
Definition cap_score (score : float64) : float64 := if float_ltb (hundredths 99) score then hundredths 99 else score.
Definition normalizeFindingConfidenceScore (score : float64) : option float64 :=
  if float_leb score float_zero || negb (float_finite score) then None else Some (roundConfidenceScore (cap_score score)).
Definition findingEvidenceFloat `{FloatParser} (evidence : option (gmap string evidence)) (key : string) : option float64 :=
  floatFromAny (lookup_evidence evidence key).
Definition has_evidence (f : RepoFinding) : bool :=
  match RF_Evidence f with Some m => negb (bool_decide (m = ∅)) | None => false end.
Definition named (s : string) : bool := negb (bool_decide (TrimSpace s = "")).
Definition isRepoSecretClassifierFinding (f : RepoFinding) : bool :=
  let text key := stringFromAny (lookup_evidence (RF_Evidence f) key) in
  bool_decide (RF_Type f = FindingSecretExposure) && has_evidence f &&
  (HasPrefix (text "confidence_source") "repo_secret_classifier_v" ||
   named (text "confidence_state") && (named (RF_Repository f) || named (RF_FilePath f) || named (RF_Detector f))).
Definition base_score (type : string) : Z :=
  if decide (type = "ownerless_identity") then 92
  else if decide (type = "risky_trust_policy") then 88
  else if decide (type = "escalation_path") then 86
  else if decide (type = "overprivileged_identity") then 78
  else if decide (type = "stale_identity") then 74
  else if decide (type = FindingSecretExposure) then 96
  else if decide (type = FindingRepoMisconfig) then 84
  else 70.
Definition raise (condition : bool) (by_ : Z) (score : float64) : float64 :=
  if condition then float_add score (hundredths by_) else score.
Definition guessed_score (f : RepoFinding) : float64 :=
  let score := hundredths (base_score (RF_Type f)) in
  let score := raise (negb (bool_decide (RF_Path f = []))) 3 score in
  let score := raise (has_evidence f) 3 score in
  let score := raise (named (RF_Repository f) || named (RF_FilePath f)) 2 score in
  roundConfidenceScore (cap_score score).
Definition scoreFindingConfidence `{FloatParser} (f : RepoFinding) : float64 :=
  match normalizeFindingConfidenceScore (RF_ConfidenceScore f) with
  | Some score => score
  | None =>
      match (if isRepoSecretClassifierFinding f
             then score ← findingEvidenceFloat (RF_Evidence f) "confidence_score"; normalizeFindingConfidenceScore score
             else None) with
      | Some score => score
      | None => guessed_score f
      end
  end.

(** ** Compliance controls *)
Record ControlRef := mkControl { Control_Framework : string; Control_ControlID : string; Control_Title : string }.
Definition controlCatalog (type : string) : list ControlRef :=
  if decide (type = "overprivileged_identity") then
    [mkControl "CIS AWS Foundations" "1.22" "Ensure IAM policies are attached only to groups or roles";
     mkControl "NIST CSF" "PR.AC-4" "Access permissions are managed"]
  else if decide (type = "escalation_path") then
    [mkControl "CIS AWS Foundations" "1.16" "Ensure IAM policies that allow full administrative privileges are not attached";
     mkControl "NIST CSF" "PR.PT-3" "Principle of least functionality is incorporated"]
  else if decide (type = "stale_identity") then
    [mkControl "CIS AWS Foundations" "1.3" "Ensure credentials unused for 90 days or greater are disabled";
     mkControl "NIST CSF" "PR.AC-1" "Identities and credentials are managed"]
  else if decide (type = "ownerless_identity") then
    [mkControl "NIST CSF" "ID.AM-6" "Roles and responsibilities are established"]
  else if decide (type = "risky_trust_policy") then
    [mkControl "CIS AWS Foundations" "1.20" "Ensure IAM policies do not allow broad trust relationships";
     mkControl "NIST CSF" "PR.AC-4" "Access permissions are managed"]
  else if decide (type = FindingSecretExposure) then [mkControl "NIST CSF" "PR.DS-1" "Data-at-rest is protected"]
  else if decide (type = FindingRepoMisconfig) then
    [mkControl "NIST CSF" "PR.IP-1" "Baseline configuration is created and maintained"]
  else [].
Definition ControlsForFinding : string → list ControlRef := controlCatalog.
Definition frameworksFromControls (controls : list ControlRef) : list string :=
  SortStrings (unique (nonempty_map TrimSpace (Control_Framework <$> controls))).
Definition DefaultFindingTriage : FindingTriage := mkTriage FindingLifecycleOpen "" None None None "".
Definition with_presentation (sourceURL : string) (score : float64) (ev : option (gmap string evidence)) (triage : FindingTriage)
    (f : RepoFinding) : RepoFinding :=
  mkRF (RF_ID f) (RF_ScanID f) (RF_Type f) (RF_Severity f) score (RF_Actionability f)
    (RF_Exploitability f) (RF_EvidenceCompleteness f) (RF_Provenance f) (RF_Title f) (RF_HumanSummary f) (RF_Path f)
    (RF_Repository f) (RF_Commit f) (RF_FilePath f) (RF_LineNumber f) (RF_Detector f) (RF_LineSnippet f)
    (RF_LineSnippetRedacted f) sourceURL (RF_LifecycleKey f) (RF_LifecycleStatus f) (RF_Owner f) (RF_FirstSeenAt f)
    (RF_LastSeenAt f) (RF_FixedAt f) (RF_ReopenedAt f) (RF_DismissedAt f) (RF_SuppressionExpiresAt f) (RF_RuleVersion f)
    (RF_DetectorVersion f) (RF_AdapterSource f) (RF_ConfidenceState f) (RF_VerificationStatus f) (RF_ScanMode f)
    (RF_EvidenceVersion f) ev (RF_Remediation f) (RF_CreatedAt f) triage.
Definition with_triage (triage : FindingTriage) (f : RepoFinding) : RepoFinding :=
  with_presentation (RF_SourceURL f) (RF_ConfidenceScore f) (RF_Evidence f) triage f.
(** The lists of controls and of frameworks are evidence of other types. *)
Definition EnrichFinding (f : RepoFinding) : RepoFinding :=
  let triage := if decide (Triage_Status (RF_Triage f) = "") then DefaultFindingTriage else RF_Triage f in
  match ControlsForFinding (RF_Type f) with
  | [] => with_triage triage f
  | _ =>
      let ev := <["compliance_frameworks" := EvOther]> (<["schema_version" := EvString "v1"]>
                  (<["control_refs" := EvOther]> (default ∅ (RF_Evidence f)))) in
      with_presentation (RF_SourceURL f) (RF_ConfidenceScore f) (Some ev) triage f
  end.

Section enrichment.
Context `{FloatParser, URLParser}.

(** The part of [enrichFindingsWithRepoContext] after the metadata. *)
Definition present_finding (f : RepoFinding) : RepoFinding :=
  let sourceURL := or_string (RF_SourceURL f) (repoFindingSourceURL (RF_Repository f) (RF_Commit f) (RF_FilePath f) (RF_LineNumber f)) in
  let f := with_presentation sourceURL (RF_ConfidenceScore f) (RF_Evidence f) (RF_Triage f) f in
  EnrichFinding (with_presentation sourceURL (scoreFindingConfidence f) (RF_Evidence f) (RF_Triage f) f).
Definition enrich_finding (f : RepoFinding) : RepoFinding := present_finding (NormalizeRepoFindingMetadata f).
Definition enrichFindings (findings : list RepoFinding) : list RepoFinding := enrich_finding <$> findings.
End enrichment.

(** ** Exports *)

(** The payloads are built of these values. *)
Inductive payload :=
| PString (s : string)
| PInt (z : Z)
| PStrings (l : list string)
| PEvidence (m : option (gmap string evidence))
| PObject (fields : list (string * payload))
| PObjects (objects : list (list (string * payload))).

Definition controlsAsMaps (controls : list ControlRef) : payload :=
  PObjects ((λ c, [("framework", PString (Control_Framework c)); ("control_id", PString (Control_ControlID c));
                   ("title", PString (Control_Title c))]) <$> controls).
Definition node_provider (node : string) : option string :=
  if HasPrefix node "aws:" then Some "aws" else if HasPrefix node "k8s:" then Some "kubernetes" else None.
Definition inferProvider (f : RepoFinding) : string := default "unknown" (head (omap node_provider (RF_Path f))).
Definition ocsfSeverity (severity : string) : Z * string :=
  if decide (severity = "critical") then (5, "Critical") else if decide (severity = "high") then (4, "High")
  else if decide (severity = "medium") then (3, "Medium") else if decide (severity = "low") then (2, "Low")
  else (1, "Informational").
Definition BuildOCSFAlignedExport (f : RepoFinding) : payload :=
  let e := EnrichFinding f in
  let '(severityID, severityLabel) := ocsfSeverity (RF_Severity e) in
  PObject
    [("activity_name", PString "detect"); ("category_name", PString "Findings"); ("class_name", PString "Security Finding");
     ("severity", PObject [("id", PInt severityID); ("label", PString severityLabel)]);
     ("finding_info", PObject
       [("uid", PString (RF_ID e)); ("title", PString (RF_Title e)); ("desc", PString (RF_HumanSummary e));
        ("type_uid", PString (RF_Type e)); ("created", PString (Format_RFC3339 (RF_CreatedAt e)));
        ("remedy", PString (RF_Remediation e)); ("path", PStrings (RF_Path e));
        ("controls", controlsAsMaps (ControlsForFinding (RF_Type e))); ("evidence", PEvidence (RF_Evidence e));
        ("provider", PString (inferProvider e)); ("scan_id", PString (RF_ScanID e));
        ("framework", PStrings (frameworksFromControls (ControlsForFinding (RF_Type e))))])].
Definition asffTypesForFinding (type : string) : list string :=
  if decide (type = "escalation_path") then ["Software and Configuration Checks/AWS Security Best Practices"]
  else if decide (type = "overprivileged_identity") then ["Software and Configuration Checks/Industry and Regulatory Standards/CIS"]
  else if decide (type = "risky_trust_policy") then ["TTPs/Persistence"]
  else if decide (type = "stale_identity") then ["Effects/Data Exposure"]
  else if decide (type = "ownerless_identity") then ["Unusual Behaviors"]
  else ["Software and Configuration Checks"].
Definition or_blank (s fallback : string) : string := if decide (TrimSpace s = "") then fallback else s.
Definition BuildASFFExport (clock : Z) (f : RepoFinding) (productARN awsAccountID region : string) : payload :=
  let e := EnrichFinding f in
  let stamp := Format_RFC3339 (if IsZero (RF_CreatedAt e) then clock else RF_CreatedAt e) in
  let controls := controlsAsMaps (ControlsForFinding (RF_Type e)) in
  PObject
    [("SchemaVersion", PString "2018-10-08"); ("Id", PString (RF_ID e));
     ("ProductArn", PString (or_blank productARN "arn:aws:securityhub:::product/identrail/default"));
     ("GeneratorId", PString ("identrail/" +:+ RF_Type e)); ("AwsAccountId", PString (or_blank awsAccountID "000000000000"));
     ("Types", PStrings (asffTypesForFinding (RF_Type e))); ("CreatedAt", PString stamp); ("UpdatedAt", PString stamp);
     ("Severity", PObject [("Label", PString (ToUpper (RF_Severity e)))]);
     ("Title", PString (RF_Title e)); ("Description", PString (RF_HumanSummary e));
     ("Resources", PObjects
       [[("Type", PString "Other"); ("Id", PString (Join (RF_Path e) " -> ")); ("Region", PString (or_blank region "us-east-1"));
         ("Details", PObject [("ControlRefs", controls)])]]);
     ("ProductFields", PObject
       [("ProviderName", PString "Identrail"); ("ProviderType", PString (inferProvider e)); ("ScanID", PString (RF_ScanID e));
        ("ControlRefs", controls)]);
     ("Remediation", PObject [("Recommendation", PObject [("Text", PString (RF_Remediation e))])])].
