(* ===== verification/FindingStore.v ===== *)
(** * Findings of scans and their triage (internal/db/memory.go)

    The findings of a scan are stored under "scan|finding" and listed per scan;
    triage is kept per workspace and finding id, the current state in one table
    and the actions taken in another.  [RepoFinding] has all fields of
    [domain.Finding]. *)
From S2P Require Import Prelude GoStrings GoCollections GoTime GoFloat GoText Scope AuthzRecords ScanQueue RepoFindings FindingEnrichment.

(** ** Records *)
Record FindingTriageState := mkTriageState {
  TriageState_FindingID : string;
  TriageState_Status : string;
  TriageState_Assignee : string;
  TriageState_SuppressionExpiresAt : option Z;
  TriageState_ResolvedAt : option Z;
  TriageState_UpdatedAt : Z;
  TriageState_UpdatedBy : string;
}.
Record FindingTriageEvent := mkTriageEvent {
  TriageEvent_ID : string;
  TriageEvent_FindingID : string;
  TriageEvent_Action : string;
  TriageEvent_FromStatus : string;
  TriageEvent_ToStatus : string;
  TriageEvent_Assignee : string;
  TriageEvent_SuppressionExpiresAt : option Z;
  TriageEvent_Comment : string;
  TriageEvent_Actor : string;
  TriageEvent_CreatedAt : Z;
}.
#[export] Instance FindingTriageState_eq_dec : EqDecision FindingTriageState.
Proof. solve_decision. Defined.

Definition resolvedAtForStatus (status : string) (resolvedAt : option Z) : option Z :=
  if decide (status = FindingLifecycleResolved) then resolvedAt else None.
Definition normalizeFindingTriageStateForWrite (clock : Z) (state : FindingTriageState) : result FindingTriageState :=
  let normalizedID := TrimSpace (TriageState_FindingID state) in
  _ ← guard_err (negb (bool_decide (normalizedID = ""))) (Errorf "finding id is required");
  mret (mkTriageState normalizedID (TriageState_Status state) (TrimSpace (TriageState_Assignee state))
    (TriageState_SuppressionExpiresAt state) (resolvedAtForStatus (TriageState_Status state) (TriageState_ResolvedAt state))
    (if IsZero (TriageState_UpdatedAt state) then clock else TriageState_UpdatedAt state) (TrimSpace (TriageState_UpdatedBy state))).
Definition normalizeFindingTriageEventForWrite (clock : Z) (fresh : string) (event : FindingTriageEvent) : result FindingTriageEvent :=
  let normalizedID := TrimSpace (TriageEvent_FindingID event) in
  _ ← guard_err (negb (bool_decide (normalizedID = ""))) (Errorf "finding id is required");
  mret (mkTriageEvent (if decide (TrimSpace (TriageEvent_ID event) = "") then fresh else TriageEvent_ID event) normalizedID
    (TrimSpace (TriageEvent_Action event)) (TriageEvent_FromStatus event) (TriageEvent_ToStatus event)
    (TrimSpace (TriageEvent_Assignee event)) (TriageEvent_SuppressionExpiresAt event) (TrimSpace (TriageEvent_Comment event))
    (TrimSpace (TriageEvent_Actor event)) (if IsZero (TriageEvent_CreatedAt event) then clock else TriageEvent_CreatedAt event)).

Definition valid_lifecycle (status : string) : bool :=
  bool_decide (status ∈ [FindingLifecycleOpen; FindingLifecycleAck; FindingLifecycleSuppressed; FindingLifecycleResolved]).
Definition NormalizeFindingTriage (now : Z) (triage : FindingTriage) : FindingTriage :=
  let status := if valid_lifecycle (Triage_Status triage) then Triage_Status triage else FindingLifecycleOpen in
  let expires := Triage_SuppressionExpiresAt triage in
  let expired := match expires with Some t => negb (After t now) | None => false end in
  let '(status, expires) :=
    if bool_decide (status = FindingLifecycleSuppressed) && expired then (FindingLifecycleOpen, None) else (status, expires) in
  mkTriage status (Triage_Assignee triage) (if decide (status = FindingLifecycleSuppressed) then expires else None)
    (if decide (status = FindingLifecycleResolved) then Triage_ResolvedAt triage else None) (Triage_UpdatedAt triage)
    (Triage_UpdatedBy triage).

(** ** Tables *)
Record FindingTables := mkFindingTables {
  findings : gmap string RepoFinding;
  scanFindings : gmap string (list string);
  triageStates : gmap string FindingTriageState;
  triageEvents : gmap string (list FindingTriageEvent);
}.
Definition empty_finding_tables : FindingTables := mkFindingTables ∅ ∅ ∅ ∅.
Definition with_scan_id (scanID : string) (f : RepoFinding) : RepoFinding :=
  mkRF (RF_ID f) scanID (RF_Type f) (RF_Severity f) (RF_ConfidenceScore f) (RF_Actionability f)
    (RF_Exploitability f) (RF_EvidenceCompleteness f) (RF_Provenance f) (RF_Title f) (RF_HumanSummary f) (RF_Path f)
    (RF_Repository f) (RF_Commit f) (RF_FilePath f) (RF_LineNumber f) (RF_Detector f) (RF_LineSnippet f)
    (RF_LineSnippetRedacted f) (RF_SourceURL f) (RF_LifecycleKey f) (RF_LifecycleStatus f) (RF_Owner f) (RF_FirstSeenAt f)
    (RF_LastSeenAt f) (RF_FixedAt f) (RF_ReopenedAt f) (RF_DismissedAt f) (RF_SuppressionExpiresAt f) (RF_RuleVersion f)
    (RF_DetectorVersion f) (RF_AdapterSource f) (RF_ConfidenceState f) (RF_VerificationStatus f) (RF_ScanMode f)
    (RF_EvidenceVersion f) (RF_Evidence f) (RF_Remediation f) (RF_CreatedAt f) (RF_Triage f).

Definition findingScopeKey (scope : Scope) (findingID : string) : string :=
  let normalized := Scope_Normalize scope in
  Scope_TenantID normalized +:+ "|" +:+ Scope_WorkspaceID normalized +:+ "|" +:+ TrimSpace findingID.
Definition scan_finding_key (scanID findingID : string) : string := scanID +:+ "|" +:+ findingID.
Definition appendUniqueID (items : list string) (id : string) : list string :=
  if bool_decide (id ∈ items) then items else items ++ [id].

(** *** Findings *)
Definition put_finding (scanID : string) (t : FindingTables) (f : RepoFinding) : FindingTables :=
  let key := scan_finding_key scanID (RF_ID f) in
  mkFindingTables (<[key := with_scan_id scanID f]> (findings t))
    (<[scanID := appendUniqueID (default [] (scanFindings t !! scanID)) key]> (scanFindings t)) (triageStates t) (triageEvents t).
Definition UpsertFindings (ctx : Context) (scanID : string) (new : list RepoFinding) (q : QueueState) (t : FindingTables) : result FindingTables :=
  _ ← scoped_scan ctx scanID q;
  mret (foldl (put_finding scanID) t new).

(** *** Triage *)
Definition GetFindingTriageState (ctx : Context) (findingID : string) (t : FindingTables) : result FindingTriageState :=
  scope ← RequireScope ctx;
  match triageStates t !! findingScopeKey scope findingID with Some state => mret state | None => Err ErrNotFound end.
Definition ListFindingTriageStates (ctx : Context) (findingIDs : list string) (t : FindingTables) : result (list FindingTriageState) :=
  scope ← RequireScope ctx;
  mret (omap (λ id, triageStates t !! findingScopeKey scope id) (unique (nonempty_map TrimSpace findingIDs))).
Definition with_triage_state (key : string) (state : FindingTriageState) (t : FindingTables) : FindingTables :=
  mkFindingTables (findings t) (scanFindings t) (<[key := state]> (triageStates t)) (triageEvents t).
Definition with_triage_event (key : string) (event : FindingTriageEvent) (t : FindingTables) : FindingTables :=
  mkFindingTables (findings t) (scanFindings t) (triageStates t)
    (<[key := default [] (triageEvents t !! key) ++ [event]]> (triageEvents t)).
Definition UpsertFindingTriageState (clock : Z) (ctx : Context) (state : FindingTriageState) (t : FindingTables) : result FindingTables :=
  normalized ← normalizeFindingTriageStateForWrite clock state;
  scope ← RequireScope ctx;
  mret (with_triage_state (findingScopeKey scope (TriageState_FindingID normalized)) normalized t).
Definition AppendFindingTriageEvent (clock : Z) (fresh : string) (ctx : Context) (event : FindingTriageEvent) (t : FindingTables)
    : result FindingTables :=
  normalized ← normalizeFindingTriageEventForWrite clock fresh event;
  scope ← RequireScope ctx;
  mret (with_triage_event (findingScopeKey scope (TriageEvent_FindingID normalized)) normalized t).
Definition ApplyFindingTriageTransition (clock : Z) (fresh : string) (ctx : Context) (state : FindingTriageState)
    (event : FindingTriageEvent) (t : FindingTables) : result FindingTables :=
  normalizedState ← normalizeFindingTriageStateForWrite clock state;
  normalizedEvent ← normalizeFindingTriageEventForWrite clock fresh event;
  _ ← guard_err (bool_decide (TriageState_FindingID normalizedState = TriageEvent_FindingID normalizedEvent))
        (Errorf "finding id mismatch between state and event");
  scope ← RequireScope ctx;
  let key := findingScopeKey scope (TriageState_FindingID normalizedState) in
  mret (with_triage_event key normalizedEvent (with_triage_state key normalizedState t)).

(** ** Filters *)
Record FindingListFilter := mkListFilter {
  ListFilter_ScanID : string;
  ListFilter_FindingID : string;
  ListFilter_Severity : string;
  ListFilter_Type : string;
  ListFilter_LifecycleStatus : string;
  ListFilter_Assignee : string;
  ListFilter_SortBy : string;
  ListFilter_SortDesc : bool;
  ListFilter_Limit : Z;
  ListFilter_Offset : Z;
  ListFilter_Now : Z;
}.
Definition NormalizeFindingListFilter (clock : Z) (f : FindingListFilter) : FindingListFilter :=
  mkListFilter (TrimSpace (ListFilter_ScanID f)) (TrimSpace (ListFilter_FindingID f)) (canon (ListFilter_Severity f))
    (canon (ListFilter_Type f)) (canon (ListFilter_LifecycleStatus f)) (canon (ListFilter_Assignee f))
    (if bool_decide (canon (ListFilter_SortBy f) ∈ ["severity"; "type"; "title"]) then canon (ListFilter_SortBy f) else "created_at")
    (ListFilter_SortDesc f) (if ListFilter_Limit f <=? 0 then 100 else ListFilter_Limit f)
    (if ListFilter_Offset f <? 0 then 0 else ListFilter_Offset f) (if IsZero (ListFilter_Now f) then clock else ListFilter_Now f).

Section queries.
Context `{MapRange, SortSlice}.

Definition ListFindingTriageEvents (ctx : Context) (findingID : string) (limit : Z) (t : FindingTables) : result (list FindingTriageEvent) :=
  scope ← RequireScope ctx;
  let normalizedID := TrimSpace findingID in
  _ ← guard_err (negb (bool_decide (normalizedID = ""))) ErrNotFound;
  mret (truncate limit (sort_slice (λ l r, After (TriageEvent_CreatedAt l) (TriageEvent_CreatedAt r))
    (default [] (triageEvents t !! findingScopeKey scope normalizedID)))).

(** *** Lists *)
Definition default_limit (limit : Z) : Z := if limit <=? 0 then 100 else limit.
Definition newest_first (l : list RepoFinding) : list RepoFinding := sort_slice (λ l r, After (RF_CreatedAt l) (RF_CreatedAt r)) l.
(** The scan of a finding is in the scope. *)
Definition finding_in_scope (scope : Scope) (q : QueueState) (f : RepoFinding) : bool :=
  match scans q !! RF_ScanID f with Some record => in_scope scope record | None => false end.
Definition scope_findings (scope : Scope) (q : QueueState) (t : FindingTables) : list RepoFinding :=
  filter (λ f, finding_in_scope scope q f = true) (map_range (findings t)).*2.
Definition ListScans (ctx : Context) (limit : Z) (q : QueueState) : result (list ScanRecord) :=
  scope ← RequireScope ctx;
  let records := filter (λ r, in_scope scope r = true) ((λ id, default zero_scan (scans q !! id)) <$> scanIDs q) in
  mret (truncate (default_limit limit) (sort_slice (λ l r, After (Scan_StartedAt l) (Scan_StartedAt r)) records)).
Definition ListFindings (ctx : Context) (limit : Z) (q : QueueState) (t : FindingTables) : result (list RepoFinding) :=
  scope ← RequireScope ctx;
  mret (truncate (default_limit limit) (newest_first (scope_findings scope q t))).
Definition ListFindingsAll (ctx : Context) : QueueState → FindingTables → result (list RepoFinding) := ListFindings ctx 0.

Definition findingTriageForScopeLocked (scope : Scope) (findingID : string) (now : Z) (t : FindingTables) : FindingTriage :=
  match triageStates t !! findingScopeKey scope (TrimSpace findingID) with
  | None => DefaultFindingTriage
  | Some state =>
      NormalizeFindingTriage now (mkTriage (TriageState_Status state) (TriageState_Assignee state)
        (TriageState_SuppressionExpiresAt state) (TriageState_ResolvedAt state) (Some (TriageState_UpdatedAt state))
        (TriageState_UpdatedBy state))
  end.
Definition findingSeverityOrder (severity : string) : Z :=
  if decide (severity = "critical") then 5 else if decide (severity = "high") then 4
  else if decide (severity = "medium") then 3 else if decide (severity = "low") then 2
  else if decide (severity = "info") then 1 else 0.
Definition compare_finding (sortBy : string) (l r : RepoFinding) : comparison :=
  lex (if decide (sortBy = "severity") then Z.compare (findingSeverityOrder (RF_Severity l)) (findingSeverityOrder (RF_Severity r))
       else if decide (sortBy = "type") then compare_string (ToLower (RF_Type l)) (ToLower (RF_Type r))
       else if decide (sortBy = "title") then compare_string (ToLower (RF_Title l)) (ToLower (RF_Title r))
       else Z.compare (RF_CreatedAt l) (RF_CreatedAt r))
    (lex (compare_string (RF_ScanID l) (RF_ScanID r)) (compare_string (RF_ID l) (RF_ID r))).
Definition sortFilteredFindings (sortBy : string) (desc : bool) (l : list RepoFinding) : list RepoFinding :=
  sort_stable (λ l r, if desc then less_of (compare_finding sortBy) r l else less_of (compare_finding sortBy) l r) l.
(** An empty filter matches everything. *)
Definition matches_filter (wanted value : string) : bool := bool_decide (wanted = "") || bool_decide (value = wanted).
(** A stored finding, as the list shows it, if the filter lets it through. *)
Definition filtered_finding (scope : Scope) (f : FindingListFilter) (t : FindingTables) (x : RepoFinding) : option RepoFinding :=
  if matches_filter (ListFilter_ScanID f) (RF_ScanID x) && matches_filter (ListFilter_FindingID f) (RF_ID x) &&
     matches_filter (ListFilter_Severity f) (ToLower (RF_Severity x)) && matches_filter (ListFilter_Type f) (ToLower (RF_Type x))
  then
    let triage := findingTriageForScopeLocked scope (RF_ID x) (ListFilter_Now f) t in
    if matches_filter (ListFilter_LifecycleStatus f) (ToLower (Triage_Status triage)) &&
       matches_filter (ListFilter_Assignee f) (canon (Triage_Assignee triage))
    then Some (with_triage triage x) else None
  else None.
(** One row more than the limit tells the caller that there are more.  The sum
    wraps; a negative end makes the slice expression panic. *)
Definition ListFindingsFiltered (clock : Z) (ctx : Context) (filter_ : FindingListFilter) (q : QueueState) (t : FindingTables)
    : result (list RepoFinding) :=
  scope ← RequireScope ctx;
  let f := NormalizeFindingListFilter clock filter_ in
  _ ← (if decide (ListFilter_ScanID f = "") then mret tt else _ ← scoped_scan ctx (ListFilter_ScanID f) q; mret tt);
  let rows := sortFilteredFindings (ListFilter_SortBy f) (ListFilter_SortDesc f)
                (omap (filtered_finding scope f t) (scope_findings scope q t)) in
  let count := Z.of_nat (length rows) in
  if count <=? ListFilter_Offset f then mret []
  else
    let end_ := Z.min (wrap64 (ListFilter_Offset f + ListFilter_Limit f + 1)) count in
    if end_ <? ListFilter_Offset f then Err (Errorf "runtime error: slice bounds out of range")
    else mret (take (Z.to_nat (end_ - ListFilter_Offset f)) (drop (Z.to_nat (ListFilter_Offset f)) rows)).

Record FindingSummaryCounts := mkSummary { Summary_Total : Z; Summary_BySeverity : gmap string Z; Summary_ByType : gmap string Z }.
Definition count_key (counts : gmap string Z) (key : string) : gmap string Z := <[key := default 0 (counts !! key) + 1]> counts.
Definition SummarizeFindings (ctx : Context) (q : QueueState) (t : FindingTables) : result FindingSummaryCounts :=
  scope ← RequireScope ctx;
  let rows := scope_findings scope q t in
  mret (mkSummary (Z.of_nat (length rows)) (foldl count_key ∅ (RF_Severity <$> rows)) (foldl count_key ∅ (RF_Type <$> rows))).

(** *** The findings of one scan *)
Definition scan_rows (scanID : string) (t : FindingTables) : list RepoFinding :=
  omap (λ key, findings t !! key) (default [] (scanFindings t !! scanID)).
Definition ListFindingsByScan (ctx : Context) (scanID : string) (limit : Z) (q : QueueState) (t : FindingTables) : result (list RepoFinding) :=
  _ ← scoped_scan ctx scanID q;
  mret (truncate (default_limit limit) (newest_first (scan_rows scanID t))).
(** The newest finding with an id, the earliest listed of equally new ones. *)
Definition newer (best : option RepoFinding) (f : RepoFinding) : option RepoFinding :=
  match best with
  | None => Some f
  | Some latest => if After (RF_CreatedAt f) (RF_CreatedAt latest) then Some f else best
  end.
Definition GetFinding (ctx : Context) (findingID scanID : string) (q : QueueState) (t : FindingTables) : result RepoFinding :=
  scope ← RequireScope ctx;
  let id := TrimSpace findingID in
  _ ← guard_err (negb (bool_decide (id = ""))) ErrNotFound;
  let scanFilter := TrimSpace scanID in
  let candidates := omap (λ scanKey,
    if in_scope scope (default zero_scan (scans q !! scanKey)) && matches_filter scanFilter scanKey
    then findings t !! scan_finding_key scanKey id else None) (scanIDs q) in
  match (if decide (scanFilter = "") then foldl newer None candidates else head candidates) with
  | Some f => mret f
  | None => Err ErrNotFound
  end.
Record FindingMeta := mkMeta { Meta_ID : string; Meta_ScanID : string; Meta_Severity : string; Meta_Type : string; Meta_CreatedAt : Z }.
Definition ListFindingMetasByScan (ctx : Context) (scanID : string) (q : QueueState) (t : FindingTables) : result (list FindingMeta) :=
  _ ← scoped_scan ctx scanID q;
  mret ((λ f, mkMeta (RF_ID f) (RF_ScanID f) (RF_Severity f) (RF_Type f) (RF_CreatedAt f)) <$> scan_rows scanID t).
Definition ListFindingsByScanAndIDs (ctx : Context) (scanID : string) (findingIDs : list string) (q : QueueState) (t : FindingTables)
    : result (list RepoFinding) :=
  _ ← scoped_scan ctx scanID q;
  mret (omap (λ id, findings t !! scan_finding_key scanID id) (unique (nonempty_map TrimSpace findingIDs))).

(** *** Counts for the trend charts *)
Record ScanTrendCount := mkScanTrend { ScanTrend_ScanID : string; ScanTrend_StartedAt : Z; ScanTrend_Severity : string; ScanTrend_TotalCount : Z }.
Definition scan_trend (severity type : string) (t : FindingTables) (scanID : string) (startedAt : Z) : list ScanTrendCount :=
  let counted := filter (λ f, matches_filter severity (ToLower (RF_Severity f)) && matches_filter type (ToLower (RF_Type f)) = true)
                   (scan_rows scanID t) in
  let counts := foldl count_key ∅ (RF_Severity <$> counted) in
  if map_is_empty counts then [mkScanTrend scanID startedAt "" 0]
  else (λ '(severityKey, count), mkScanTrend scanID startedAt severityKey count) <$> map_range counts.
Definition ListFindingTrendCounts (ctx : Context) (trendIDs : list string) (severity findingType : string) (q : QueueState) (t : FindingTables)
    : result (list ScanTrendCount) :=
  scope ← RequireScope ctx;
  mret (trendIDs ≫= λ scanID,
    match scans q !! scanID with
    | Some record => if in_scope scope record then scan_trend (canon severity) (canon findingType) t scanID (Scan_StartedAt record) else []
    | None => []
    end).
End queries.
