(* ===== verification/FindingTriage.v ===== *)
(** * Working on findings (internal/api/service.go)

    The lists of findings an operator sees, with their triage, and the triage
    workflow: one request moves a finding between the states open, ack,
    suppressed and resolved and records the action taken. *)
From S2P Require Import Prelude GoStrings GoCollections GoTime GoFloat GoText Scope AuthzRecords ScanQueue RepoFindings RepoScanRecords RepoScanStore RepoFindingStore RepoLifecycle RepoFindingQueries RepoTargets FindingEnrichment FindingStore.

Definition ErrInvalidFindingTriageRequest : error := Sentinel "invalid finding triage request".
Definition defaultFindingsLimit : Z := 100.
Definition maxCursorFetchLimit : Z := 5000.
Definition repoFindingsTriageFilterStep : Z := maxCursorFetchLimit.
Definition repoFindingsTriageFilterCap : Z := maxCursorFetchLimit * 4.

Definition FindingTriageActionAcknowledged : string := "acknowledged".
Definition FindingTriageActionSuppressed : string := "suppressed".
Definition FindingTriageActionResolved : string := "resolved".
Definition FindingTriageActionReopened : string := "reopened".
Definition FindingTriageActionAssigned : string := "assignee_updated".
Definition FindingTriageActionSuppression : string := "suppression_updated".
Definition FindingTriageActionCommented : string := "commented".

Record FindingTriageRequest := mkTriageRequest {
  Request_Status : option string;
  Request_Assignee : option string;
  Request_SuppressionExpiresAt : option string;
  Request_Comment : string;
}.
Record FindingsFilter := mkFindingsFilter {
  Findings_FindingID : string;
  Findings_ScanID : string;
  Findings_Severity : string;
  Findings_Type : string;
  Findings_LifecycleStatus : string;
  Findings_Assignee : string;
  Findings_SortBy : string;
  Findings_SortDesc : bool;
  Findings_Offset : Z;
}.
(** The tables the findings service reads. *)
Record FindingWorld := mkFindingWorld {
  world_scans : QueueState;
  world_findings : FindingTables;
  world_repo : RepoScanTables;
}.
Definition with_findings (t : FindingTables) (w : FindingWorld) : FindingWorld := mkFindingWorld (world_scans w) t (world_repo w).

(** ** Triage states *)
Definition isRepoFinding (f : RepoFinding) : bool :=
  named (RF_Repository f) || named (RF_Commit f) || named (RF_FilePath f) || named (RF_SourceURL f).
Definition repoFindingTriageStatePrefix : string := "repo-finding-triage".
Definition findingTriageStateKey (f : RepoFinding) : string :=
  let id := TrimSpace (RF_ID f) in
  let scanID := TrimSpace (RF_ScanID f) in
  if bool_decide (id = "") then ""
  else if negb (isRepoFinding f) || bool_decide (scanID = "") then id
  else repoFindingTriageStatePrefix +:+ "|" +:+ scanID +:+ "|" +:+ id.
Definition normalizeFindingTriageState (now : Z) (s : FindingTriageState) : FindingTriageState :=
  let t := NormalizeFindingTriage now (mkTriage (TriageState_Status s) (TriageState_Assignee s) (TriageState_SuppressionExpiresAt s)
             (TriageState_ResolvedAt s) None "") in
  mkTriageState (TriageState_FindingID s) (Triage_Status t) (TriageState_Assignee s) (Triage_SuppressionExpiresAt t)
    (Triage_ResolvedAt t) (TriageState_UpdatedAt s) (TriageState_UpdatedBy s).
Definition resolveResolvedAt (current : FindingTriageState) (nextStatus : string) (now : Z) : option Z :=
  if decide (nextStatus = FindingLifecycleResolved) then
    match TriageState_ResolvedAt current with
    | Some t => if decide (TriageState_Status current = FindingLifecycleResolved) then Some t else Some now
    | None => Some now
    end
  else None.
Definition parseFindingLifecycleStatus (raw : string) : result string :=
  if valid_lifecycle (canon raw) then mret (canon raw) else Err ErrInvalidFindingTriageRequest.
Definition parseSuppressionExpiry (raw : string) (now : Z) : result (option Z) :=
  if decide (TrimSpace raw = "") then mret None
  else
    match Parse_RFC3339 (TrimSpace raw) with
    | Some t => if After t now then mret (Some t) else Err ErrInvalidFindingTriageRequest
    | None => Err ErrInvalidFindingTriageRequest
    end.
Definition normalizeActor (actor : string) : string := if decide (TrimSpace actor = "") then "unknown" else TrimSpace actor.
Definition deriveFindingTriageAction (current next : FindingTriageState) : string :=
  let from := TriageState_Status current in
  let to := TriageState_Status next in
  let changed := negb (bool_decide (from = to)) in
  if changed && bool_decide (to = FindingLifecycleAck) then FindingTriageActionAcknowledged
  else if changed && bool_decide (to = FindingLifecycleSuppressed) then FindingTriageActionSuppressed
  else if changed && bool_decide (to = FindingLifecycleResolved) then FindingTriageActionResolved
  else if changed && bool_decide (to = FindingLifecycleOpen) then FindingTriageActionReopened
  else if negb (bool_decide (TriageState_Assignee current = TriageState_Assignee next)) then FindingTriageActionAssigned
  else if negb (bool_decide (TriageState_SuppressionExpiresAt current = TriageState_SuppressionExpiresAt next))
  then FindingTriageActionSuppression
  else FindingTriageActionCommented.

(** A request as one step of the workflow: the next state and the comment. *)
Definition next_triage_state (request : FindingTriageRequest) (stateKey actor : string) (now : Z) (current : FindingTriageState)
    : result FindingTriageState :=
  let comment := TrimSpace (Request_Comment request) in
  status ← (match Request_Status request with Some raw => parseFindingLifecycleStatus raw | None => mret (TriageState_Status current) end);
  let assignee := match Request_Assignee request with Some raw => TrimSpace raw | None => TriageState_Assignee current end in
  expires ← (match Request_SuppressionExpiresAt request with
             | Some raw => parseSuppressionExpiry raw now
             | None => mret (TriageState_SuppressionExpiresAt current)
             end);
  let dropped := negb (bool_decide (status = FindingLifecycleSuppressed)) && isset expires in
  let changed := negb (bool_decide (TriageState_Status current = status)) || negb (bool_decide (TriageState_Assignee current = assignee)) ||
                 isset (Request_SuppressionExpiresAt request) && negb (bool_decide (TriageState_SuppressionExpiresAt current = expires)) ||
                 dropped in
  let expires := if dropped then None else expires in
  let suppressed := bool_decide (status = FindingLifecycleSuppressed) in
  let suppressionRequested := isset (Request_Status request) && suppressed in
  let enteringSuppression := negb (bool_decide (TriageState_Status current = FindingLifecycleSuppressed)) && suppressed in
  let enteringResolution := negb (bool_decide (TriageState_Status current = FindingLifecycleResolved)) &&
                            bool_decide (status = FindingLifecycleResolved) in
  let silent := bool_decide (comment = "") in
  _ ← guard_err (negb ((suppressionRequested || enteringSuppression) && silent)) ErrInvalidFindingTriageRequest;
  _ ← guard_err (negb (enteringResolution && silent)) ErrInvalidFindingTriageRequest;
  _ ← guard_err (negb (suppressed && match expires with Some t => negb (After t now) | None => false end)) ErrInvalidFindingTriageRequest;
  _ ← guard_err (changed || negb silent) ErrInvalidFindingTriageRequest;
  let status := if decide (status = "") then FindingLifecycleOpen else status in
  mret (mkTriageState stateKey status assignee expires (resolveResolvedAt current status now) now (normalizeActor actor)).
Definition empty_request (request : FindingTriageRequest) : bool :=
  negb (isset (Request_Status request)) && negb (isset (Request_Assignee request)) &&
  negb (isset (Request_SuppressionExpiresAt request)) && bool_decide (TrimSpace (Request_Comment request) = "").
Definition untouched_state (stateKey : string) : FindingTriageState := mkTriageState stateKey FindingLifecycleOpen "" None None time_zero "".
Definition triage_event (stateKey comment : string) (now : Z) (current next : FindingTriageState) : FindingTriageEvent :=
  mkTriageEvent "" stateKey (deriveFindingTriageAction current next) (TriageState_Status current) (TriageState_Status next)
    (TriageState_Assignee next) (TriageState_SuppressionExpiresAt next) comment (TriageState_UpdatedBy next) now.

Section service.
Context `{MapRange, SortSlice, FloatParser, URLParser} (defaultScope : Scope).

Definition scope_context (ctx : Context) : Context := WithDefaultScope ctx defaultScope.

(** *** Findings with their triage *)
Definition state_triage (s : FindingTriageState) : FindingTriage :=
  mkTriage (TriageState_Status s) (TriageState_Assignee s) (TriageState_SuppressionExpiresAt s) (TriageState_ResolvedAt s)
    (Some (TriageState_UpdatedAt s)) (TriageState_UpdatedBy s).
Definition states_by_id (now : Z) (states : list FindingTriageState) : gmap string FindingTriageState :=
  foldl (λ m s, <[TriageState_FindingID s := normalizeFindingTriageState now s]> m) ∅ states.
Definition applyFindingTriageStates (now : Z) (ctx : Context) (rows : list RepoFinding) (t : FindingTables) : result (list RepoFinding) :=
  match rows with
  | [] => mret []
  | _ =>
      states ← ListFindingTriageStates ctx (unique (nonempty_map id (findingTriageStateKey <$> rows))) t;
      let byID := states_by_id now states in
      mret ((λ f, with_triage (match byID !! findingTriageStateKey f with Some s => state_triage s | None => DefaultFindingTriage end) f) <$> rows)
  end.
Definition applyRepoFindingTriageStates (now : Z) (ctx : Context) (rows : list RepoFinding) (t : FindingTables) : result (list RepoFinding) :=
  withTriage ← applyFindingTriageStates now ctx rows t;
  mret (map ApplyRepoFindingTriageToLifecycle withTriage).
Definition shown_triage_status (f : RepoFinding) : string :=
  if valid_lifecycle (Triage_Status (RF_Triage f)) then Triage_Status (RF_Triage f) else FindingLifecycleOpen.
Definition filterRepoFindingsByLifecycleAndTriage (rows : list RepoFinding) (rawRepoStatus rawTriageStatus rawAssignee : string)
    : list RepoFinding :=
  let repoStatus := NormalizeRepoFindingLifecycleStatus rawRepoStatus in
  let triageStatus := canon rawTriageStatus in
  let assignee := canon rawAssignee in
  if bool_decide (repoStatus = "") && bool_decide (triageStatus = "") && bool_decide (assignee = "") then rows
  else if negb (bool_decide (TrimSpace rawRepoStatus = "")) && bool_decide (repoStatus = "") then []
  else if negb (bool_decide (triageStatus = "")) && negb (valid_lifecycle triageStatus) then []
  else
    filter (λ f, matches_filter repoStatus (or_string (RF_LifecycleStatus f) RepoFindingLifecycleOpen) &&
                 matches_filter triageStatus (shown_triage_status f) &&
                 matches_filter assignee (canon (Triage_Assignee (RF_Triage f))) = true) rows.

(** *** Repository findings *)
Definition shown_repo_findings (now : Z) (ctx : Context) (filter_ : RepoFindingFilter) (limit : Z) (w : FindingWorld) : result (list RepoFinding) :=
  rows ← RepoFindingQueries.ListRepoFindings now ctx filter_ limit (world_repo w);
  applyRepoFindingTriageStates now ctx (enrichFindings rows) (world_findings w).
(** The window of stored rows doubles until it shows enough of them, it shows
    all of them, or it is as large as it may get; [None] when the fuel runs out. *)
Fixpoint listRepoFindingsWithPostTriageFilter (fuel : nat) (now : Z) (ctx : Context) (repoLimit requestLimit : Z)
    (storeFilter postFilter : RepoFindingFilter) (w : FindingWorld) : option (result (list RepoFinding)) :=
  match fuel with
  | O => None
  | S fuel =>
      match shown_repo_findings now ctx storeFilter repoLimit w with
      | Err e => Some (Err e)
      | Ok rows =>
          let filtered := truncate requestLimit (filterRepoFindingsByLifecycleAndTriage rows (Filter_Status postFilter)
                            (Filter_LifecycleStatus postFilter) (Filter_Assignee postFilter)) in
          if (requestLimit <=? Z.of_nat (length filtered)) || (Z.of_nat (length rows) <? repoLimit) then Some (Ok filtered)
          else if repoFindingsTriageFilterCap <=? repoLimit then Some (Ok filtered)
          else listRepoFindingsWithPostTriageFilter fuel now ctx (Z.min (repoLimit * 2) repoFindingsTriageFilterCap) requestLimit
                 storeFilter postFilter w
      end
  end.
Definition without_status (f : RepoFindingFilter) : RepoFindingFilter :=
  mkRepoFilter (Filter_RepoScanID f) (Filter_FindingID f) (Filter_Repository f) (Filter_Severity f) (Filter_Type f) ""
    (Filter_Detector f) (Filter_Owner f) (Filter_Source f) (Filter_MinConfidence f) (Filter_MinAgeDays f) (Filter_LifecycleStatus f)
    (Filter_Assignee f) (Filter_SortBy f) (Filter_SortDesc f) (Filter_Now f) (Filter_IncludeHistorical f).
Definition has_post_filter (f : RepoFindingFilter) : bool :=
  negb (bool_decide (Filter_Status f = "")) || negb (bool_decide (Filter_LifecycleStatus f = "")) || negb (bool_decide (Filter_Assignee f = "")).
Definition window_fuel : nat := 3.
Definition ListRepoFindings (now : Z) (ctx : Context) (limit : Z) (filter_ : RepoFindingFilter) (w : FindingWorld)
    : option (result (list RepoFinding)) :=
  let ctx := scope_context ctx in
  let normalized := NormalizeRepoFindingFilter now filter_ in
  let storeFilter := without_status normalized in
  let requestLimit := if limit <=? 0 then defaultFindingsLimit else limit in
  if has_post_filter normalized then
    listRepoFindingsWithPostTriageFilter window_fuel now ctx (Z.max requestLimit repoFindingsTriageFilterStep) requestLimit storeFilter normalized w
  else Some (shown_repo_findings now ctx storeFilter requestLimit w).

(** *** One finding *)
Definition finding_filter (findingID repoScanID : string) : RepoFindingFilter :=
  mkRepoFilter repoScanID findingID "" "" "" "" "" "" "" float_zero 0 "" "" "" false time_zero false.
Definition first_or_missing (rows : list RepoFinding) : result RepoFinding :=
  match rows with f :: _ => mret f | [] => Err ErrNotFound end.
Definition GetFinding (now : Z) (ctx : Context) (findingID scanID : string) (w : FindingWorld) : result RepoFinding :=
  let scoped := scope_context ctx in
  let id := TrimSpace findingID in
  _ ← guard_err (negb (bool_decide (id = ""))) ErrNotFound;
  match FindingStore.GetFinding scoped id (TrimSpace scanID) (world_scans w) (world_findings w) with
  | Ok item =>
      withTriage ← applyFindingTriageStates now scoped (enrichFindings [item]) (world_findings w);
      first_or_missing withTriage
  | Err e =>
      if decide (e = ErrNotFound) then
        match ListRepoFindings now scoped maxCursorFetchLimit (finding_filter id (TrimSpace scanID)) w with
        | Some rows => rows ← rows; first_or_missing rows
        | None => Err ErrNotFound
        end
      else Err e
  end.
Definition ListFindingsFiltered (now : Z) (ctx : Context) (limit : Z) (f : FindingsFilter) (w : FindingWorld) : result (list RepoFinding) :=
  let sortBy := TrimSpace (Findings_SortBy f) in
  items ← FindingStore.ListFindingsFiltered now (scope_context ctx)
    (mkListFilter (Findings_ScanID f) (Findings_FindingID f) (Findings_Severity f) (Findings_Type f) (Findings_LifecycleStatus f)
       (Findings_Assignee f) sortBy (if decide (sortBy = "") then true else Findings_SortDesc f) limit (Findings_Offset f) now)
    (world_scans w) (world_findings w);
  mret (enrichFindings (truncate limit items)).

(** *** The workflow *)
Definition current_triage_state (now : Z) (ctx : Context) (stateKey : string) (w : FindingWorld) : result FindingTriageState :=
  match GetFindingTriageState ctx stateKey (world_findings w) with
  | Ok state => mret (normalizeFindingTriageState now state)
  | Err e => if decide (e = ErrNotFound) then mret (normalizeFindingTriageState now (untouched_state stateKey)) else Err e
  end.
(** The store after the request, and the finding shown for it. *)
Definition apply_triage (now : Z) (fresh : string) (ctx : Context) (request : FindingTriageRequest) (actor : string) (f : RepoFinding)
    (w : FindingWorld) : result FindingWorld :=
  _ ← guard_err (negb (empty_request request)) ErrInvalidFindingTriageRequest;
  let stateKey := findingTriageStateKey f in
  current ← current_triage_state now ctx stateKey w;
  next ← next_triage_state request stateKey actor now current;
  t ← ApplyFindingTriageTransition now fresh ctx next (triage_event stateKey (TrimSpace (Request_Comment request)) now current next)
        (world_findings w);
  mret (with_findings t w).
Definition TriageFinding (now : Z) (fresh : string) (ctx : Context) (findingID scanID : string) (request : FindingTriageRequest)
    (actor : string) (w : FindingWorld) : FindingWorld * result RepoFinding :=
  let id := TrimSpace findingID in
  if decide (id = "") then (w, Err ErrNotFound)
  else
    match (f ← GetFinding now ctx id scanID w; apply_triage now fresh ctx request actor f w) with
    | Ok w' => (w', GetFinding now ctx id scanID w')
    | Err e => (w, Err e)
    end.
Definition ListFindingTriageHistory (now : Z) (ctx : Context) (findingID scanID : string) (limit : Z) (w : FindingWorld)
    : result (list FindingTriageEvent) :=
  let id := TrimSpace findingID in
  _ ← guard_err (negb (bool_decide (id = ""))) ErrNotFound;
  f ← GetFinding now ctx id scanID w;
  ListFindingTriageEvents ctx (findingTriageStateKey f) limit (world_findings w).
Definition GetFindingExports (clock now : Z) (ctx : Context) (findingID scanID : string) (w : FindingWorld) : result (payload * payload) :=
  f ← GetFinding now ctx findingID scanID w;
  mret (BuildOCSFAlignedExport f, BuildASFFExport clock f "" "" "").
End service.
