(* ===== verification/FindingWorkflow.v ===== *)
(** * The triage workflow is sound

    What one triage request may do to a finding, that the recorded actions
    account for the state of every finding, and that the answer to a request
    shows what was asked for. *)
From S2P Require Import Prelude GoStrings GoCollections GoTime GoFloat GoParse GoText Scope AuthzRecords ScanQueue RepoFindings RepoScanRecords RepoScanStore RepoFindingStore RepoLifecycle RepoFindingQueries RepoTargets FindingEnrichment FindingStore FindingTriage.

(** ** Normal states *)

(** An expiry belongs to a suppression that lasts, a resolution time to a
    resolved finding. *)
Record triage_ok (now : Z) (status : string) (expires resolvedAt : option Z) : Prop := {
  to_valid : valid_lifecycle status = true;
  to_expires : ∀ t, expires = Some t → status = FindingLifecycleSuppressed ∧ now < t;
  to_resolved : isset resolvedAt = true → status = FindingLifecycleResolved;
}.
Lemma NormalizeFindingTriage_ok now triage :
  let t := NormalizeFindingTriage now triage in triage_ok now (Triage_Status t) (Triage_SuppressionExpiresAt t) (Triage_ResolvedAt t).
Proof.
  destruct triage as [status assignee expires resolvedAt updatedAt updatedBy]. unfold NormalizeFindingTriage. cbn.
  set (st := if valid_lifecycle status then status else FindingLifecycleOpen).
  assert (valid_lifecycle st = true) as Hst by (unfold st; destruct (valid_lifecycle status) eqn:E; [exact E|done]).
  destruct (bool_decide (st = FindingLifecycleSuppressed) && _) eqn:E; cbn.
  - split; cbn; [done|done|done].
  - split; cbn; [done| |].
    + intros t Ht. destruct (decide (st = FindingLifecycleSuppressed)) as [Hs|Hs]; [|done]. subst expires. split; [done|].
      rewrite (bool_decide_eq_true_2 _ Hs) in E. apply negb_false_iff in E. unfold After in E. lia.
    + destruct (decide (st = FindingLifecycleResolved)); done.
Qed.
(** What normalizing leaves of a valid status. *)
Lemma NormalizeFindingTriage_status now triage : valid_lifecycle (Triage_Status triage) = true →
  let status := Triage_Status (NormalizeFindingTriage now triage) in
  status = Triage_Status triage ∨
  (Triage_Status triage = FindingLifecycleSuppressed ∧ status = FindingLifecycleOpen ∧
   ∃ t, Triage_SuppressionExpiresAt triage = Some t ∧ t ≤ now).
Proof.
  intros Hv. unfold NormalizeFindingTriage. rewrite Hv. cbn. destruct (bool_decide _ && _) eqn:E; [|by left]. right.
  apply andb_true_iff in E as [Hs%bool_decide_eq_true E]. split; [done|]. split; [done|].
  destruct (Triage_SuppressionExpiresAt triage) as [t|]; [|done]. exists t. split; [done|]. apply negb_true_iff in E. unfold After in E. lia.
Qed.
(** Normalizing a normal state changes nothing. *)
Lemma NormalizeFindingTriage_id now triage :
  triage_ok now (Triage_Status triage) (Triage_SuppressionExpiresAt triage) (Triage_ResolvedAt triage) →
  NormalizeFindingTriage now triage = triage.
Proof.
  destruct triage as [status assignee expires resolvedAt updatedAt updatedBy]. intros [Hv He Hr]. cbn in *. unfold NormalizeFindingTriage. cbn.
  rewrite Hv. assert (bool_decide (status = FindingLifecycleSuppressed) && match expires with Some t => negb (After t now) | None => false end = false) as ->.
  { destruct expires as [t|]; [|by rewrite andb_false_r]. destruct (He t eq_refl) as [_ Ht]. unfold After.
    apply andb_false_iff. right. apply negb_false_iff. lia. }
  f_equal.
  - case_decide as Hs; [done|]. destruct expires as [t|]; [|done]. by destruct (He t eq_refl).
  - case_decide as Hs; [done|]. destruct resolvedAt; [|done]. by destruct Hs; apply Hr.
Qed.

(** ** One request *)

(** The step a request asks for. *)
Record triage_step (request : FindingTriageRequest) (actor : string) (now : Z) (current next : FindingTriageState) : Prop := {
  ts_status : TriageState_Status next = match Request_Status request with Some raw => canon raw | None => TriageState_Status current end;
  ts_assignee : TriageState_Assignee next = match Request_Assignee request with Some raw => TrimSpace raw | None => TriageState_Assignee current end;
  ts_ok : triage_ok now (TriageState_Status next) (TriageState_SuppressionExpiresAt next) (TriageState_ResolvedAt next);
  ts_expires : TriageState_Status next = FindingLifecycleSuppressed →
    match Request_SuppressionExpiresAt request with
    | Some raw => TriageState_SuppressionExpiresAt next = None ↔ TrimSpace raw = ""
    | None => TriageState_SuppressionExpiresAt next = TriageState_SuppressionExpiresAt current
    end;
  ts_resolved : TriageState_Status next = FindingLifecycleResolved →
    TriageState_ResolvedAt next = (if decide (TriageState_Status current = FindingLifecycleResolved)
                                   then Some (default now (TriageState_ResolvedAt current)) else Some now);
  ts_comment : TriageState_Status next ≠ TriageState_Status current →
    TriageState_Status next ∈ [FindingLifecycleSuppressed; FindingLifecycleResolved] → TrimSpace (Request_Comment request) ≠ "";
  ts_stamp : TriageState_UpdatedAt next = now ∧ TriageState_UpdatedBy next = normalizeActor actor;
}.
Lemma next_triage_state_Ok request stateKey actor now current next :
  triage_ok now (TriageState_Status current) (TriageState_SuppressionExpiresAt current) (TriageState_ResolvedAt current) →
  next_triage_state request stateKey actor now current = Ok next →
  triage_step request actor now current next ∧ TriageState_FindingID next = stateKey.
Proof.
  intros [Hv He Hr] Hok. unfold next_triage_state in Hok. cbv zeta in Hok. open_bind Hok status Hs. open_bind Hok expires Hx.
  open_bind Hok u1 Hg1. open_bind Hok u2 Hg2. open_bind Hok u3 Hg3. open_bind Hok u4 Hg4.
  apply guard_err_Ok in Hg1, Hg2, Hg3. clear Hg4.
  assert (valid_lifecycle status = true ∧ status = match Request_Status request with Some raw => canon raw | None => TriageState_Status current end) as [Hval Hst].
  { destruct (Request_Status request) as [raw|]; [|by injection Hs as <-]. unfold parseFindingLifecycleStatus in Hs.
    destruct (valid_lifecycle (canon raw)) eqn:E; [|done]. by injection Hs as <-. }
  assert (status ≠ "") as Hne by (intros ->; done). rewrite decide_False in Hok by done. injection Hok as <-.
  set (dropped := negb (bool_decide (status = FindingLifecycleSuppressed)) && isset expires) in *.
  set (kept := if dropped then None else expires) in *.
  split; [|done].
  split; cbn [TriageState_Status TriageState_Assignee TriageState_SuppressionExpiresAt TriageState_ResolvedAt TriageState_UpdatedAt TriageState_UpdatedBy]; try done.
  - split; [done| |].
    + intros t Ht. unfold kept in Ht. destruct dropped eqn:Ed; [done|]. subst expires. unfold dropped in Ed. cbn in Ed. rewrite andb_true_r in Ed.
      apply negb_false_iff, bool_decide_eq_true in Ed. split; [done|]. rewrite Ed, bool_decide_eq_true_2 in Hg3 by done. cbn in Hg3.
      unfold After in Hg3. apply negb_true_iff, negb_false_iff in Hg3. lia.
    + unfold resolveResolvedAt. by destruct (decide (status = FindingLifecycleResolved)).
  - intros Es. assert (kept = expires) as ->.
    { unfold kept, dropped. rewrite Es, bool_decide_eq_true_2 by done. done. }
    destruct (Request_SuppressionExpiresAt request) as [raw|]; [|by injection Hx as <-]. unfold parseSuppressionExpiry in Hx.
    case_decide as E; [by injection Hx as <-|]. destruct (Parse_RFC3339 (TrimSpace raw)) as [t|]; [|done]. destruct (After t now); [|done]. by injection Hx as <-.
  - intros Es. unfold resolveResolvedAt. rewrite decide_True by done. destruct (TriageState_ResolvedAt current) as [t|] eqn:Er; cbn [default from_option id]; by destruct (decide (TriageState_Status current = FindingLifecycleResolved)).
  - intros Hne' Hin Hc. rewrite Hc in Hg1, Hg2. rewrite (bool_decide_eq_true_2 ("" = "")) in Hg1, Hg2 by done. rewrite !andb_true_r in Hg1, Hg2.
    apply negb_true_iff in Hg1, Hg2. apply orb_false_iff in Hg1 as [_ Hg1].
    apply elem_of_cons in Hin as [E|[E|[]%elem_of_nil]%elem_of_cons]; rewrite E in *.
    + rewrite (bool_decide_eq_true_2 (FindingLifecycleSuppressed = _)), andb_true_r in Hg1 by done. apply negb_false_iff, bool_decide_eq_true in Hg1. congruence.
    + rewrite (bool_decide_eq_true_2 (FindingLifecycleResolved = _)), andb_true_r in Hg2 by done. apply negb_false_iff, bool_decide_eq_true in Hg2. congruence.
Qed.

(** ** What is stored *)
Lemma findingTriageStateKey_trimmed f : TrimSpace (findingTriageStateKey f) = findingTriageStateKey f.
Proof.
  unfold findingTriageStateKey. set (id := TrimSpace (RF_ID f)). assert (TrimSpace id = id) as Hid by apply TrimSpace_idemp.
  destruct (bool_decide (id = "")) eqn:E; [done|]. apply bool_decide_eq_false in E. destruct (_ || _); [done|].
  change (repoFindingTriageStatePrefix +:+ "|" +:+ TrimSpace (RF_ScanID f) +:+ "|" +:+ id)
    with (repoFindingTriageStatePrefix +:+ String "|" (TrimSpace (RF_ScanID f) +:+ String "|" id)).
  assert (repoFindingTriageStatePrefix +:+ String "|" (TrimSpace (RF_ScanID f) +:+ String "|" id) =
    repoFindingTriageStatePrefix +:+ (String "|" (TrimSpace (RF_ScanID f))) +:+ String "|" id) as -> by done.
  apply TrimSpace_tail; [by repeat constructor|done|done|done|done].
Qed.

(** The state a request starts from. *)
Definition starting_state (now : Z) (scope : Scope) (stateKey : string) (t : FindingTables) : FindingTriageState :=
  normalizeFindingTriageState now (default (untouched_state stateKey) (triageStates t !! findingScopeKey scope stateKey)).
Lemma starting_state_ok now scope stateKey t :
  let s := starting_state now scope stateKey t in
  triage_ok now (TriageState_Status s) (TriageState_SuppressionExpiresAt s) (TriageState_ResolvedAt s).
Proof. apply NormalizeFindingTriage_ok. Qed.

(** What a step writes: the state and the action. *)
Record triage_written (request : FindingTriageRequest) (actor stateKey : string) (now : Z) (current next : FindingTriageState)
    (s : FindingTriageState) (e : FindingTriageEvent) : Prop := {
  tw_state : s = mkTriageState stateKey (TriageState_Status next) (TrimSpace (TriageState_Assignee next))
    (TriageState_SuppressionExpiresAt next) (TriageState_ResolvedAt next) now (normalizeActor actor);
  tw_finding : TriageEvent_FindingID e = stateKey;
  tw_action : TriageEvent_Action e = TrimSpace (deriveFindingTriageAction current next);
  tw_from : TriageEvent_FromStatus e = TriageState_Status current;
  tw_to : TriageEvent_ToStatus e = TriageState_Status s;
  tw_assignee : TriageEvent_Assignee e = TriageState_Assignee s;
  tw_expires : TriageEvent_SuppressionExpiresAt e = TriageState_SuppressionExpiresAt s;
  tw_comment : TriageEvent_Comment e = TrimSpace (Request_Comment request);
  tw_actor : TriageEvent_Actor e = TriageState_UpdatedBy s;
  tw_created : TriageEvent_CreatedAt e = now;
}.
Lemma normalizeActor_trimmed actor : TrimSpace (normalizeActor actor) = normalizeActor actor.
Proof. unfold normalizeActor. case_decide; [done|apply TrimSpace_idemp]. Qed.
Lemma resolvedAtForStatus_id now status expires resolvedAt : triage_ok now status expires resolvedAt → resolvedAtForStatus status resolvedAt = resolvedAt.
Proof.
  intros [_ _ Hr]. unfold resolvedAtForStatus. destruct (decide (status = FindingLifecycleResolved)) as [|Hs]; [done|]. destruct resolvedAt; [|done]. by destruct Hs; apply Hr.
Qed.
Lemma IsZero_self now : (if IsZero now then now else now) = now.
Proof. by destruct (IsZero now). Qed.

Lemma written_normal request actor stateKey now current next s e :
  triage_step request actor now current next → triage_written request actor stateKey now current next s e → normalizeFindingTriageState now s = s.
Proof.
  intros Hstep Hw. pose proof (ts_ok _ _ _ _ _ Hstep) as Hok. rewrite (tw_state _ _ _ _ _ _ _ _ Hw). unfold normalizeFindingTriageState. cbn.
  by rewrite NormalizeFindingTriage_id.
Qed.
(** The tables after a request that was accepted. *)
Definition triaged (now : Z) (scope : Scope) (request : FindingTriageRequest) (actor stateKey : string) (w w' : FindingWorld) : Prop :=
  let current := starting_state now scope stateKey (world_findings w) in
  let key := findingScopeKey scope stateKey in
  ∃ next s e, triage_step request actor now current next ∧ triage_written request actor stateKey now current next s e ∧
    w' = with_findings (with_triage_event key e (with_triage_state key s (world_findings w))) w.
Lemma apply_triage_Ok now fresh ctx request actor f w w' :
  apply_triage now fresh ctx request actor f w = Ok w' →
  ∃ scope, RequireScope ctx = Ok scope ∧ findingTriageStateKey f ≠ "" ∧ triaged now scope request actor (findingTriageStateKey f) w w'.
Proof.
  unfold apply_triage. cbv zeta. set (key := findingTriageStateKey f). pose proof (findingTriageStateKey_trimmed f) as Hkey. fold key in Hkey.
  intros Hok. open_bind Hok u _. open_bind Hok current Hc. open_bind Hok next Hn. open_bind Hok t Ht. injection Hok as <-.
  unfold ApplyFindingTriageTransition in Ht. open_bind Ht st Hst. open_bind Ht ev Hev. open_bind Ht v _. open_bind Ht scope Hs.
  exists scope. split; [done|].
  assert (current = starting_state now scope key (world_findings w)) as Hcur.
  { unfold current_triage_state, GetFindingTriageState in Hc. rewrite Hs in Hc. cbn [mbind result_bind] in Hc. unfold starting_state.
    destruct (triageStates (world_findings w) !! findingScopeKey scope key) as [s|]; cbn in Hc; by injection Hc as <-. }
  pose proof (starting_state_ok now scope key (world_findings w)) as Hok. cbv zeta in Hok. rewrite <-Hcur in *.
  destruct (next_triage_state_Ok _ _ _ _ _ _ Hok Hn) as [Hstep Hid]. destruct (ts_stamp _ _ _ _ _ Hstep) as [Hat Hby].
  unfold normalizeFindingTriageStateForWrite in Hst. cbv zeta in Hst. open_bind Hst u1 Hne. injection Hst as <-.
  unfold normalizeFindingTriageEventForWrite, triage_event in Hev. cbv zeta in Hev. open_bind Hev u2 _. injection Hev as <-.
  injection Ht as <-. cbn [TriageState_FindingID]. rewrite Hid, Hkey in *.
  split; [apply guard_err_Ok, negb_true_iff, bool_decide_eq_false in Hne; exact Hne|].
  unfold triaged. cbv zeta. rewrite <-Hcur. eexists next, _, _. split; [exact Hstep|]. split; [|reflexivity].
  split; cbn; rewrite ?Hat, ?Hby, ?IsZero_self, ?normalizeActor_trimmed, ?TrimSpace_idemp; try done.
  by rewrite (resolvedAtForStatus_id now _ (TriageState_SuppressionExpiresAt next)) by apply (ts_ok _ _ _ _ _ Hstep).
Qed.

(** ** What is shown *)
Lemma findingScopeKey_inj scope a b : findingScopeKey scope a = findingScopeKey scope b → TrimSpace a = TrimSpace b.
Proof. unfold findingScopeKey. intros E. do 2 (apply (inj (String.append _)) in E). apply (inj (String.append _)) in E. by injection E. Qed.

(** The states of a workspace are stored under their ids. *)
Definition states_named (scope : Scope) (t : FindingTables) : Prop :=
  ∀ id s, triageStates t !! findingScopeKey scope id = Some s → TriageState_FindingID s = TrimSpace id.
(** The triage of the findings with a key. *)
Definition shown_triage (now : Z) (scope : Scope) (t : FindingTables) (stateKey : string) : FindingTriage :=
  match (if decide (stateKey = "") then None else triageStates t !! findingScopeKey scope stateKey) with
  | Some s => state_triage (normalizeFindingTriageState now s)
  | None => DefaultFindingTriage
  end.

Lemma states_by_id_lookup now l k :
  states_by_id now l !! k = normalizeFindingTriageState now <$> last (filter (λ s, TriageState_FindingID s = k) l).
Proof.
  unfold states_by_id. induction l as [|s l IH] using rev_ind; [done|]. rewrite foldl_app. cbn [foldl]. rewrite filter_app.
  destruct (decide (TriageState_FindingID s = k)) as [<-|Hne].
  - rewrite lookup_insert_eq. cbn. rewrite decide_True by done. by rewrite last_snoc.
  - rewrite lookup_insert_ne by done. cbn. rewrite decide_False by done. by rewrite app_nil_r.
Qed.
Lemma ListFindingTriageStates_Ok ctx scope ids t : RequireScope ctx = Ok scope →
  ListFindingTriageStates ctx ids t = Ok (omap (λ id, triageStates t !! findingScopeKey scope id) (unique (nonempty_map TrimSpace ids))).
Proof. intros Hs. unfold ListFindingTriageStates. by rewrite Hs. Qed.

Lemma shown_states now scope ids t k : states_named scope t → TrimSpace k = k → k ∈ ids → k ≠ "" →
  states_by_id now (omap (λ id, triageStates t !! findingScopeKey scope id) (unique (nonempty_map TrimSpace ids))) !! k =
  normalizeFindingTriageState now <$> triageStates t !! findingScopeKey scope k.
Proof.
  intros Hn Hk Hin Hne. rewrite states_by_id_lookup. f_equal. set (keys := unique (nonempty_map TrimSpace ids)).
  assert (k ∈ keys) as Hkin.
  { apply elem_of_unique, elem_of_nonempty_map. split; [done|]. by exists k. }
  assert (∀ id, id ∈ keys → TrimSpace id = id) as Htrim.
  { intros id (_ & y & _ & ->)%elem_of_unique%elem_of_nonempty_map. apply TrimSpace_idemp. }
  set (l := omap _ keys). assert (∀ s, s ∈ filter (λ s, TriageState_FindingID s = k) l → triageStates t !! findingScopeKey scope k = Some s) as Hall.
  { intros s [Hid (id & Hid' & Hs)%list_elem_of_omap]%list_elem_of_filter. pose proof (Hn id s Hs) as E. rewrite (Htrim id Hid') in E. congruence. }
  destruct (triageStates t !! findingScopeKey scope k) as [s|] eqn:Es.
  - assert (s ∈ filter (λ s, TriageState_FindingID s = k) l) as Hs.
    { apply list_elem_of_filter. split; [by rewrite (Hn k s Es)|]. apply list_elem_of_omap. by exists k. }
    destruct (last _) as [s'|] eqn:El.
    + f_equal. apply last_Some_elem_of, Hall in El. congruence.
    + apply last_None in El. rewrite El in Hs. by apply elem_of_nil in Hs.
  - destruct (last _) as [s'|] eqn:El; [|done]. by apply last_Some_elem_of, Hall in El.
Qed.

Lemma shown_no_state now scope ids t : states_named scope t →
  states_by_id now (omap (λ id, triageStates t !! findingScopeKey scope id) (unique (nonempty_map TrimSpace ids))) !! "" = None.
Proof.
  intros Hn. rewrite states_by_id_lookup. destruct (last _) as [s|] eqn:El; [|done]. exfalso.
  apply last_Some_elem_of, list_elem_of_filter in El as [Hid (id & (Hne & y & _ & ->)%elem_of_unique%elem_of_nonempty_map & Hs)%list_elem_of_omap].
  rewrite (Hn _ _ Hs), TrimSpace_idemp in Hid. done.
Qed.

(** Every row gets the triage of its key. *)
Lemma applyFindingTriageStates_Ok now ctx scope rows t : RequireScope ctx = Ok scope → states_named scope t →
  applyFindingTriageStates now ctx rows t = Ok ((λ f, with_triage (shown_triage now scope t (findingTriageStateKey f)) f) <$> rows).
Proof.
  intros Hs Hn. unfold applyFindingTriageStates. destruct rows as [|f0 rows0]; [done|].
  rewrite (ListFindingTriageStates_Ok _ scope) by done. cbn [mbind result_bind]. f_equal. apply list_fmap_ext. intros i f Hf.
  apply list_elem_of_lookup_2 in Hf. f_equal. unfold shown_triage. destruct (decide (findingTriageStateKey f = "")) as [->|Hne].
  - by rewrite shown_no_state.
  - rewrite shown_states; [|done|apply findingTriageStateKey_trimmed| |done]; [by destruct (triageStates t !! _)|].
    apply elem_of_unique, elem_of_nonempty_map. split; [done|]. exists (findingTriageStateKey f). split; [|done].
    apply list_elem_of_fmap. by exists f.
Qed.

Section reading.
Context `{MapRange, SortSlice, FloatParser, URLParser} (defaultScope : Scope).

Lemma scope_context_scoped ctx scope : RequireScope ctx = Ok scope → scope_context defaultScope ctx = ctx.
Proof. unfold RequireScope, scope_context, WithDefaultScope. by destruct (LookupScope ctx). Qed.

(** The rows a finding is looked up in, before their triage; whether they are
    repository findings. *)
Definition base_rows (now : Z) (ctx : Context) (id scanID : string) (w : FindingWorld) : result (bool * list RepoFinding) :=
  match FindingStore.GetFinding ctx id (TrimSpace scanID) (world_scans w) (world_findings w) with
  | Ok item => mret (false, enrichFindings [item])
  | Err e =>
      if decide (e = ErrNotFound) then
        rows ← RepoFindingQueries.ListRepoFindings now ctx
                 (without_status (NormalizeRepoFindingFilter now (finding_filter id (TrimSpace scanID)))) maxCursorFetchLimit (world_repo w);
        mret (true, enrichFindings rows)
      else Err e
  end.
Definition show_row (now : Z) (scope : Scope) (t : FindingTables) (repo : bool) (f : RepoFinding) : RepoFinding :=
  let f := with_triage (shown_triage now scope t (findingTriageStateKey f)) f in if repo then ApplyRepoFindingTriageToLifecycle f else f.
Definition show_first (now : Z) (scope : Scope) (t : FindingTables) (found : bool * list RepoFinding) : result RepoFinding :=
  match found.2 with f :: _ => mret (show_row now scope t found.1 f) | [] => Err ErrNotFound end.

Lemma base_rows_frame now ctx id scanID t w : findings t = findings (world_findings w) →
  base_rows now ctx id scanID (with_findings t w) = base_rows now ctx id scanID w.
Proof. intros Ht. unfold base_rows, FindingStore.GetFinding. cbn [world_scans world_findings world_repo with_findings]. by rewrite Ht. Qed.
Lemma GetFinding_base now ctx scope id scanID w : RequireScope ctx = Ok scope → states_named scope (world_findings w) → TrimSpace id ≠ "" →
  GetFinding defaultScope now ctx id scanID w =
    (found ← base_rows now ctx (TrimSpace id) scanID w; show_first now scope (world_findings w) found).
Proof.
  intros Hs Hn Hid. unfold GetFinding, base_rows. rewrite (scope_context_scoped _ _ Hs). cbv zeta. rewrite bool_decide_eq_false_2 by done.
  cbn [negb guard_err mbind result_bind]. destruct (FindingStore.GetFinding _ _ _ _ _) as [item|e].
  - cbn [mbind result_bind mret result_ret]. rewrite (applyFindingTriageStates_Ok _ _ scope) by done. done.
  - destruct (decide (e = ErrNotFound)); [|done]. unfold ListRepoFindings. rewrite (scope_context_scoped _ _ Hs). cbv zeta.
    change (has_post_filter (NormalizeRepoFindingFilter now (finding_filter (TrimSpace id) (TrimSpace scanID)))) with false. cbv iota.
    change (if maxCursorFetchLimit <=? 0 then defaultFindingsLimit else maxCursorFetchLimit) with maxCursorFetchLimit.
    unfold shown_repo_findings. destruct (RepoFindingQueries.ListRepoFindings _ _ _ _ _) as [rows|]; [|done]. cbn [mbind result_bind mret result_ret].
    unfold applyRepoFindingTriageStates. rewrite (applyFindingTriageStates_Ok _ _ scope) by done. cbn [mbind result_bind mret result_ret].
    by destruct (enrichFindings rows).
Qed.

Lemma show_row_place now scope t repo f :
  RF_ID (show_row now scope t repo f) = RF_ID f ∧ RF_ScanID (show_row now scope t repo f) = RF_ScanID f ∧
  findingTriageStateKey (show_row now scope t repo f) = findingTriageStateKey f ∧
  RF_Triage (show_row now scope t repo f) = shown_triage now scope t (findingTriageStateKey f).
Proof.
  unfold show_row. cbv zeta. destruct repo; [|done]. unfold ApplyRepoFindingTriageToLifecycle. cbv zeta.
  destruct (decide _); [done|]. by destruct (decide _).
Qed.

(** The states stay named. *)
Lemma states_named_insert scope t key s e : TriageState_FindingID s = key → TrimSpace key = key → states_named scope t →
  states_named scope (with_triage_event (findingScopeKey scope key) e (with_triage_state (findingScopeKey scope key) s t)).
Proof.
  intros Hs Hk Hn id x. cbn. intros [[E <-]|[_ Hx]]%lookup_insert_Some; [|by apply Hn].
  apply findingScopeKey_inj in E. congruence.
Qed.

(** C13. A triage request either fails and changes nothing, or it takes the one
    step of the workflow it asks for: it writes the next state and one action
    with it under the finding's key and nothing else, a suppression or
    resolution that is entered has a comment, an expiry stays only with a
    suppression and lies in the future, a resolution keeps the time it was
    reached; and the answer shows the finding in the state that was written. *)
Theorem TriageFinding_correct now fresh ctx scope findingID scanID request actor w w' r
    (Hs : RequireScope ctx = Ok scope) (Hn : states_named scope (world_findings w))
    (Hrun : TriageFinding defaultScope now fresh ctx findingID scanID request actor w = (w', r)) :
  (w' = w ∧ is_ok r = false) ∨
  ∃ f f' s, GetFinding defaultScope now ctx findingID scanID w = Ok f ∧
    triaged now scope request actor (findingTriageStateKey f) w w' ∧ states_named scope (world_findings w') ∧
    triageStates (world_findings w') !! findingScopeKey scope (findingTriageStateKey f) = Some s ∧
    r = Ok f' ∧ RF_ID f' = RF_ID f ∧ RF_ScanID f' = RF_ScanID f ∧ RF_Triage f' = state_triage s.
Proof.
  unfold TriageFinding in Hrun. cbv zeta in Hrun. destruct (decide (TrimSpace findingID = "")) as [|Hid]; [injection Hrun as <- <-; by left|].
  assert (∀ w, GetFinding defaultScope now ctx (TrimSpace findingID) scanID w = GetFinding defaultScope now ctx findingID scanID w) as Htrim
    by (intros x; unfold GetFinding; by rewrite TrimSpace_idemp).
  rewrite Htrim in Hrun. destruct (GetFinding defaultScope now ctx findingID scanID w) as [f|e] eqn:Hf; [|injection Hrun as <- <-; by left].
  cbn [mbind result_bind] in Hrun. destruct (apply_triage now fresh ctx request actor f w) as [w1|e] eqn:Ha; [|injection Hrun as <- <-; by left].
  injection Hrun as <- <-. right. apply apply_triage_Ok in Ha as (scope' & Hs' & Hne & Ht). rewrite Hs in Hs'. injection Hs' as <-.
  pose proof Ht as (next & s & e & Hstep & Hw & Ew). rewrite (GetFinding_base _ _ scope) in Hf by done.
  destruct (base_rows now ctx (TrimSpace findingID) scanID w) as [[repo rows]|] eqn:Hb; [|done]. cbn in Hf. destruct rows as [|g rows]; [done|].
  cbn in Hf. injection Hf as <-. destruct (show_row_place now scope (world_findings w) repo g) as (Hfi & Hfs & Hfk & _). rewrite Hfk in *.
  set (key := findingTriageStateKey g) in *. assert (TrimSpace key = key) as Hkey by apply findingTriageStateKey_trimmed.
  assert (states_named scope (world_findings w1)) as Hn1.
  { rewrite Ew. apply states_named_insert; [by rewrite (tw_state _ _ _ _ _ _ _ _ Hw)|done|done]. }
  exists (show_row now scope (world_findings w) repo g), (show_row now scope (world_findings w1) repo g), s.
  rewrite Hfk. fold key. split; [done|]. split; [exact Ht|]. split; [exact Hn1|].
  assert (triageStates (world_findings w1) !! findingScopeKey scope key = Some s) as Hst by (rewrite Ew; cbn; apply lookup_insert_eq).
  split; [exact Hst|]. destruct (show_row_place now scope (world_findings w1) repo g) as (Hgi & Hgs & _ & Hgt).
  split.
  - rewrite Htrim, (GetFinding_base _ _ scope) by done. rewrite Ew at 1. rewrite base_rows_frame by done. by rewrite Hb.
  - rewrite Hgi, Hgs, Hfi, Hfs. split; [done|]. split; [done|]. rewrite Hgt. unfold shown_triage. fold key.
    rewrite decide_False by done. rewrite Hst. by rewrite (written_normal _ _ _ _ _ _ _ _ Hstep Hw).
Qed.
End reading.

(** ** The recorded actions *)

(** [e'] is the action after [e]: it starts from the state [e] led to, or from
    "open" when that was a suppression that ran out. *)
Definition follows (e e' : FindingTriageEvent) : Prop :=
  TriageEvent_FromStatus e' = TriageEvent_ToStatus e ∨
  (TriageEvent_ToStatus e = FindingLifecycleSuppressed ∧ TriageEvent_FromStatus e' = FindingLifecycleOpen ∧
   ∃ t, TriageEvent_SuppressionExpiresAt e = Some t ∧ t ≤ TriageEvent_CreatedAt e').
Record history_ok (l : list FindingTriageEvent) : Prop := {
  ho_first : ∀ e, l !! 0%nat = Some e → TriageEvent_FromStatus e = FindingLifecycleOpen;
  ho_follows : ∀ i e e', l !! i = Some e → l !! S i = Some e' → follows e e';
}.
(** The state is the one the action led to. *)
Record accounts_for (e : FindingTriageEvent) (s : FindingTriageState) : Prop := {
  af_status : TriageEvent_ToStatus e = TriageState_Status s;
  af_assignee : TriageEvent_Assignee e = TriageState_Assignee s;
  af_expires : TriageEvent_SuppressionExpiresAt e = TriageState_SuppressionExpiresAt s;
  af_actor : TriageEvent_Actor e = TriageState_UpdatedBy s;
  af_time : TriageEvent_CreatedAt e = TriageState_UpdatedAt s;
  af_valid : valid_lifecycle (TriageState_Status s) = true;
}.
Definition audited (t : FindingTables) : Prop := ∀ key,
  match triageStates t !! key with
  | None => triageEvents t !! key = None
  | Some s => ∃ earlier e, triageEvents t !! key = Some (earlier ++ [e]) ∧ accounts_for e s ∧ history_ok (earlier ++ [e])
  end.

Lemma history_ok_snoc l e e' : history_ok (l ++ [e]) → follows e e' → history_ok ((l ++ [e]) ++ [e']).
Proof.
  intros [Hf Hs] He. split.
  - intros x. rewrite lookup_app_l by (rewrite length_app; cbn; lia). apply Hf.
  - intros i x y Hx Hy. destruct (decide (S i < length (l ++ [e]))%nat) as [Hi|Hi].
    + rewrite lookup_app_l in Hx, Hy by lia. by eapply Hs.
    + assert (S i = length (l ++ [e])) as Ei.
      { apply lookup_lt_Some in Hy. rewrite length_app in Hy. cbn in Hy. lia. }
      rewrite Ei, list_lookup_middle in Hy by done. injection Hy as <-. rewrite lookup_app_l in Hx by lia.
      rewrite length_app in Ei. cbn in Ei. assert (i = length l) as -> by lia. rewrite list_lookup_middle in Hx by done. by injection Hx as <-.
Qed.
Lemma history_ok_single e : TriageEvent_FromStatus e = FindingLifecycleOpen → history_ok [e].
Proof. intros He. split; [by intros x [= <-]|]. intros i x y Hx Hy. destruct i; done. Qed.

Lemma triaged_audited now scope request actor stateKey w w' :
  triaged now scope request actor stateKey w w' → audited (world_findings w) → audited (world_findings w').
Proof.
  intros (next & s & e & Hstep & Hw & ->) Ha key. set (k := findingScopeKey scope stateKey) in *. cbn.
  destruct (decide (k = key)) as [<-|Hne]; [|rewrite !lookup_insert_ne by done; apply Ha]. rewrite !lookup_insert_eq.
  pose proof (tw_state _ _ _ _ _ _ _ _ Hw) as Es.
  assert (accounts_for e s) as Hacc.
  { destruct Hw as [_ _ _ _ Hto Has Hex _ Hac Hcr]. split; [done..| |]; rewrite Es; [done|]. apply (to_valid _ _ _ _ (ts_ok _ _ _ _ _ Hstep)). }
  specialize (Ha k). pose proof (tw_from _ _ _ _ _ _ _ _ Hw) as Hfrom. unfold starting_state in Hfrom. fold k in Hfrom.
  destruct (triageStates (world_findings w) !! k) as [s0|].
  - destruct Ha as (earlier & e0 & He0 & Ha0 & Hh). rewrite He0. exists (earlier ++ [e0]), e. split; [done|]. split; [done|].
    apply history_ok_snoc; [done|]. unfold follows. rewrite Hfrom, (af_status _ _ Ha0), (af_expires _ _ Ha0), (tw_created _ _ _ _ _ _ _ _ Hw).
    cbn. destruct (NormalizeFindingTriage_status now (mkTriage (TriageState_Status s0) (TriageState_Assignee s0)
      (TriageState_SuppressionExpiresAt s0) (TriageState_ResolvedAt s0) None "") (af_valid _ _ Ha0)) as [E|E]; [by left|by right].
  - rewrite Ha. exists [], e. split; [done|]. split; [done|]. apply history_ok_single. by rewrite Hfrom.
Qed.

Record triage_call := mkTriageCall {
  Call_Now : Z; Call_Fresh : string; Call_Context : Context; Call_FindingID : string; Call_ScanID : string;
  Call_Request : FindingTriageRequest; Call_Actor : string;
}.
Section history.
Context `{MapRange, SortSlice, FloatParser, URLParser} (defaultScope : Scope).

Definition after_triage (w : FindingWorld) (c : triage_call) : FindingWorld :=
  (TriageFinding defaultScope (Call_Now c) (Call_Fresh c) (Call_Context c) (Call_FindingID c) (Call_ScanID c) (Call_Request c) (Call_Actor c) w).1.
Lemma after_triage_audited w c : audited (world_findings w) → audited (world_findings (after_triage w c)).
Proof.
  intros Ha. unfold after_triage, TriageFinding. cbv zeta. destruct (decide _); [done|].
  destruct (GetFinding _ _ _ _ _ _) as [f|]; [|done]. cbn [mbind result_bind]. destruct (apply_triage _ _ _ _ _ _ _) as [w1|] eqn:E; [|done].
  cbn [fst]. apply apply_triage_Ok in E as (scope & _ & _ & Ht). by eapply triaged_audited.
Qed.

(** C14. After any requests that run one after another, by anyone, on any
    findings, at any times, the recorded actions of a finding account for its
    state: a finding has a state only with actions, the last action led to
    exactly that state, by its actor and at its time, and each action started
    from the state the one before led to, or from "open" when that was a
    suppression that had run out. *)
Theorem triage_history_complete (calls : list triage_call) (w : FindingWorld)
    (Hstart : audited (world_findings w)) : audited (world_findings (foldl after_triage w calls)).
Proof.
  revert w Hstart. induction calls as [|c calls IH]; intros w Hstart; [done|]. cbn [foldl]. by apply IH, after_triage_audited.
Qed.
End history.

(** ** One finding that is suppressed, and acknowledged after the suppression *)
Definition sample_float_parser : FloatParser := {| parse_float := λ _, None |}.
Definition sample_url_parser : URLParser := {| url_Parse := λ _, None |}.
Definition sample_finding (scanID id severity : string) (createdAt : Z) : RepoFinding :=
  mkRF id scanID "escalation_path" severity float_zero "" "" "" "" id "" ["aws:identity:a"] "" "" "" 0 "" "" None "" "" ""
    "" None None None None None None "" "" "" "" "" "" "" None "" createdAt (mkTriage "" "" None None None "").
Definition sample_triage_scope : Scope := mkScope "acme" "prod".
Definition sample_triage_scan (id : string) (startedAt : Z) : ScanRecord :=
  mkScan id "acme" "prod" "core" "" "aws" "completed" startedAt (Some (startedAt + 1)) 1 1 "" 0 3 "" None false None "" "".
Definition sample_triage_world : FindingWorld :=
  let q := mkQueue {[ "s1" := sample_triage_scan "s1" 1 ]} ["s1"] in
  mkFindingWorld q (ok_or empty_finding_tables (UpsertFindings (Some sample_triage_scope) "s1" [sample_finding "s1" "f" "high" 2] q empty_finding_tables))
    empty_repo_tables.
Definition suppress_call : triage_call :=
  mkTriageCall (time_Date 2026 1 1 0 0 0) "e1" (Some sample_triage_scope) " f" "s1"
    (mkTriageRequest (Some "Suppressed") (Some " ana ") (Some "2026-02-01T00:00:00Z") "known") "ana".
Definition ack_call : triage_call :=
  mkTriageCall (time_Date 2026 3 1 0 0 0) "e2" (Some sample_triage_scope) "f" "" (mkTriageRequest (Some "ack") None None "") "".
Definition sample_run : FindingWorld :=
  foldl (@after_triage canonical_range insertion_sort sample_float_parser sample_url_parser sample_triage_scope) sample_triage_world [suppress_call; ack_call].

Lemma empty_audited w : triageStates (world_findings w) = ∅ → triageEvents (world_findings w) = ∅ → audited (world_findings w).
Proof. intros Es Ee key. rewrite Es, Ee. by rewrite !lookup_empty. Qed.
Lemma sample_run_events :
  (λ e, (TriageEvent_Action e, TriageEvent_FromStatus e, TriageEvent_ToStatus e, TriageEvent_Actor e)) <$>
    default [] (triageEvents (world_findings sample_run) !! "acme|prod|f") =
  [("suppressed", "open", "suppressed", "ana"); ("acknowledged", "open", "ack", "unknown")].
Proof. by vm_compute. Qed.
Lemma triage_history_complete_witness :
  audited (world_findings sample_run) ∧
  (TriageState_Status <$> triageStates (world_findings sample_run) !! "acme|prod|f") = Some "ack".
Proof.
  split; [|by vm_compute]. apply (@triage_history_complete canonical_range insertion_sort sample_float_parser sample_url_parser).
  by apply empty_audited.
Defined.

Definition sample_suppression : FindingWorld * result RepoFinding :=
  @TriageFinding canonical_range insertion_sort sample_float_parser sample_url_parser sample_triage_scope (Call_Now suppress_call) "e1"
    (Some sample_triage_scope) " f" "s1" (Call_Request suppress_call) "ana" sample_triage_world.
Lemma sample_suppression_ok : is_ok sample_suppression.2 = true.
Proof. by vm_compute. Qed.
Lemma TriageFinding_correct_witness :
  ∃ f', sample_suppression.2 = Ok f' ∧ RF_ID f' = "f" ∧
    ∃ s, triageStates (world_findings sample_suppression.1) !! "acme|prod|f" = Some s ∧ RF_Triage f' = state_triage s.
Proof.
  destruct (@TriageFinding_correct canonical_range insertion_sort sample_float_parser sample_url_parser sample_triage_scope
    (Call_Now suppress_call) "e1" (Some sample_triage_scope) sample_triage_scope " f" "s1" (Call_Request suppress_call) "ana"
    sample_triage_world sample_suppression.1 sample_suppression.2) as [[_ Hr]|(f & f' & s & Hf & _ & _ & Hs & Hr & Hi & _ & Ht)].
  - done.
  - intros id s Hs. change (triageStates (world_findings sample_triage_world)) with (∅ : gmap string FindingTriageState) in Hs. by rewrite lookup_empty in Hs.
  - unfold sample_suppression. by destruct (TriageFinding _ _ _ _ _ _ _ _ _).
  - by rewrite sample_suppression_ok in Hr.
  - exists f'. split; [exact Hr|]. assert (RF_ID f = "f" ∧ findingTriageStateKey f = "f") as [Hid Hk].
    { vm_compute in Hf. by injection Hf as <-. }
    split; [congruence|]. exists s. split; [|done]. by rewrite Hk in Hs.
Defined.

(** ** Two requests at once

    The service reads the state of a finding and writes the next one in separate
    calls of the store, without comparing.  Here is a request that read [seen]
    and writes into [w], which another request changed in between. *)
Definition late_triage (now : Z) (fresh : string) (ctx : Context) (request : FindingTriageRequest) (actor : string) (f : RepoFinding)
    (seen w : FindingWorld) : result FindingWorld :=
  _ ← guard_err (negb (empty_request request)) ErrInvalidFindingTriageRequest;
  let stateKey := findingTriageStateKey f in
  current ← current_triage_state now ctx stateKey seen;
  next ← next_triage_state request stateKey actor now current;
  t ← ApplyFindingTriageTransition now fresh ctx next (triage_event stateKey (TrimSpace (Request_Comment request)) now current next)
        (world_findings w);
  mret (with_findings t w).
(** Without another request in between it is the service's transition. *)
Lemma late_triage_alone now fresh ctx request actor f w : late_triage now fresh ctx request actor f w w = apply_triage now fresh ctx request actor f w.
Proof. done. Qed.

Definition assign_request (assignee : string) : FindingTriageRequest := mkTriageRequest None (Some assignee) None "".
Definition resolve_request : FindingTriageRequest := mkTriageRequest (Some "resolved") None None "fixed".
Definition raced_row : RepoFinding := sample_finding "s1" "f" "high" 2.
Definition raced_world : FindingWorld :=
  ok_or sample_triage_world
    (first ← apply_triage 10 "e1" (Some sample_triage_scope) resolve_request "ana" raced_row sample_triage_world;
     late_triage 11 "e2" (Some sample_triage_scope) (assign_request "bo") "bo" raced_row sample_triage_world first).
(** An assignment that raced a resolution undoes it, and the recorded actions
    do not show how: the second starts from "open" where the first had ended in
    "resolved". *)
Lemma raced_triage_loses_update :
  ((λ s, (TriageState_Status s, TriageState_Assignee s)) <$> triageStates (world_findings raced_world) !! "acme|prod|f") = Some ("open", "bo") ∧
  ((λ e, (TriageEvent_FromStatus e, TriageEvent_ToStatus e)) <$> default [] (triageEvents (world_findings raced_world) !! "acme|prod|f")) =
    [("open", "resolved"); ("open", "open")].
Proof. by vm_compute. Qed.
