(* ===== verification/FindingReports.v ===== *)
(** * Reports over findings (internal/api/service.go)

    Counts for dashboards, trends over the recent scans, and the difference
    between two scans. *)
From S2P Require Import Prelude GoStrings GoCollections GoTime GoFloat GoText Scope AuthzRecords ScanQueue RepoFindings RepoScanRecords RepoScanStore RepoFindingStore RepoLifecycle RepoFindingQueries RepoTargets FindingEnrichment FindingStore FindingTriage FindingWorkflow.

Definition ErrInvalidScanDiffBaseline : error := Sentinel "invalid scan diff baseline".
Definition repoFindingSLAHighCritical : Z := 7 * 24 * Hour.

(** [t.Sub(u)], which saturates, and [Duration.Seconds]. *)
Definition time_Sub (t u : Z) : Z := Z.max (- 2 ^ 63) (Z.min (2 ^ 63 - 1) (t - u)).
Definition Seconds (d : Z) : float64 :=
  float_add (float_of_int (Z.quot d Second)) (float_div (float_of_int (Z.rem d Second)) (float_of_int 1000000000)).

(** ** Repository findings at a glance *)
Record RepoFindingsSummary := mkRepoSummary {
  RepoSummary_TotalOpen : Z;
  RepoSummary_FixedCount : Z;
  RepoSummary_ReopenedCount : Z;
  RepoSummary_SuppressedCount : Z;
  RepoSummary_SLAAgedCount : Z;
  RepoSummary_MTTRReadyResolvedCount : Z;
  RepoSummary_OldestOpenFirstSeenAt : option Z;
  RepoSummary_ByOwner : gmap string Z;
  RepoSummary_ByDetector : gmap string Z;
  RepoSummary_BySeverity : gmap string Z;
  RepoSummary_TotalResolveSeconds : float64;
}.
Definition empty_repo_summary : RepoFindingsSummary := mkRepoSummary 0 0 0 0 0 0 None ∅ ∅ ∅ float_zero.
Definition one_if (b : bool) : Z := if b then 1 else 0.
(** One turn of the loop; the seconds are a local variable of the function. *)
Definition summarize_one (now : Z) (s : RepoFindingsSummary) (f : RepoFinding) : RepoFindingsSummary :=
  let status := or_string (RF_LifecycleStatus f) RepoFindingLifecycleOpen in
  let status_is x := bool_decide (status = x) in
  let fixed := status_is RepoFindingLifecycleFixed in
  let reopened := status_is RepoFindingLifecycleReopened in
  let dismissed := status_is RepoFindingLifecycleSuppressed || status_is RepoFindingLifecycleRiskAccepted || status_is RepoFindingLifecycleFalsePositive in
  let resolve_time := match RF_FirstSeenAt f, RF_FixedAt f with
                      | Some first, Some last => if fixed && After last first then Some (time_Sub last first) else None
                      | _, _ => None
                      end in
  let open := status_is RepoFindingLifecycleOpen || reopened in
  let firstSeen := default (RF_CreatedAt f) (RF_FirstSeenAt f) in
  let oldest := match RepoSummary_OldestOpenFirstSeenAt s with
                | Some t => if Before firstSeen t then Some firstSeen else Some t
                | None => Some firstSeen
                end in
  let aged := open && (bool_decide (RF_Severity f = "high") || bool_decide (RF_Severity f = "critical")) && negb (IsZero firstSeen) &&
              (repoFindingSLAHighCritical <=? time_Sub now firstSeen) in
  mkRepoSummary (RepoSummary_TotalOpen s + one_if (negb fixed && negb dismissed)) (RepoSummary_FixedCount s + one_if fixed)
    (RepoSummary_ReopenedCount s + one_if reopened) (RepoSummary_SuppressedCount s + one_if dismissed)
    (RepoSummary_SLAAgedCount s + one_if aged) (RepoSummary_MTTRReadyResolvedCount s + one_if (isset resolve_time))
    (if open then oldest else RepoSummary_OldestOpenFirstSeenAt s)
    (count_key (RepoSummary_ByOwner s) (or_string (TrimSpace (RF_Owner f)) "unassigned"))
    (count_key (RepoSummary_ByDetector s) (or_string (TrimSpace (RF_Detector f)) "unknown"))
    (count_key (RepoSummary_BySeverity s) (or_string (TrimSpace (RF_Severity f)) "unknown"))
    (match resolve_time with Some d => float_add (RepoSummary_TotalResolveSeconds s) (Seconds d) | None => RepoSummary_TotalResolveSeconds s end).
Definition MeanTimeToResolveSeconds (s : RepoFindingsSummary) : option float64 :=
  if 0 <? RepoSummary_MTTRReadyResolvedCount s
  then Some (float_div (RepoSummary_TotalResolveSeconds s) (float_of_int (RepoSummary_MTTRReadyResolvedCount s))) else None.
Definition summarizeRepoFindings (now : Z) (rows : list RepoFinding) : RepoFindingsSummary := foldl (summarize_one now) empty_repo_summary rows.

Record TrendPoint := mkPoint { Point_ScanID : string; Point_StartedAt : Z; Point_Total : Z; Point_BySeverity : gmap string Z }.
Definition add_count (severity : string) (count : Z) (p : TrendPoint) : TrendPoint :=
  mkPoint (Point_ScanID p) (Point_StartedAt p) (Point_Total p + count)
    (if decide (TrimSpace severity = "") then Point_BySeverity p
     else <[severity := default 0 (Point_BySeverity p !! severity) + count]> (Point_BySeverity p)).

Record ScanDiff := mkDiff {
  Diff_ScanID : string;
  Diff_PreviousScanID : string;
  Diff_AddedCount : Z;
  Diff_ResolvedCount : Z;
  Diff_PersistingCount : Z;
  Diff_Added : list RepoFinding;
  Diff_Resolved : list RepoFinding;
  Diff_Persisting : list RepoFinding;
}.

Section reports.
Context `{MapRange, SortSlice, FloatParser, URLParser} (defaultScope : Scope).

Definition GetRepoFindingsSummary (now : Z) (ctx : Context) (filter_ : RepoFindingFilter) (w : FindingWorld) : result RepoFindingsSummary :=
  let ctx := scope_context defaultScope ctx in
  let normalized := NormalizeRepoFindingFilter now filter_ in
  rows ← shown_repo_findings now ctx (without_status normalized) 0 w;
  let rows := if has_post_filter normalized
              then filterRepoFindingsByLifecycleAndTriage rows (Filter_Status normalized) (Filter_LifecycleStatus normalized) (Filter_Assignee normalized)
              else rows in
  mret (summarizeRepoFindings now rows).
Definition GetFindingsSummary (ctx : Context) (w : FindingWorld) : result FindingSummaryCounts :=
  SummarizeFindings (scope_context defaultScope ctx) (world_scans w) (world_findings w).

(** *** Trends: a point per scan, oldest first *)
Definition add_to_points (points : list TrendPoint) (scanID severity : string) (count : Z) : list TrendPoint :=
  (λ p, if decide (Point_ScanID p = scanID) then add_count severity count p else p) <$> points.
Definition default_points (points : Z) : Z := if points <=? 0 then 10 else points.
Definition GetFindingsTrendFiltered (ctx : Context) (points : Z) (severity findingType : string) (w : FindingWorld) : result (list TrendPoint) :=
  let ctx := scope_context defaultScope ctx in
  scans ← ListScans ctx (default_points points) (world_scans w);
  let scans := sort_slice (λ l r, Before (Scan_StartedAt l) (Scan_StartedAt r)) scans in
  counts ← ListFindingTrendCounts ctx (Scan_ID <$> scans) severity findingType (world_scans w) (world_findings w);
  mret (foldl (λ ps c, add_to_points ps (ScanTrend_ScanID c) (ScanTrend_Severity c) (ScanTrend_TotalCount c))
    ((λ scan, mkPoint (Scan_ID scan) (Scan_StartedAt scan) 0 ∅) <$> scans) counts).
Definition GetRepoFindingsTrendFiltered (ctx : Context) (points : Z) (severity findingType : string) (minConfidence : float64) (w : FindingWorld)
    : result (list TrendPoint) :=
  let ctx := scope_context defaultScope ctx in
  repoScans ← ListRepoScans ctx (default_points points) (world_repo w);
  let repoScans := sort_slice (λ l r, Before (RepoScan_StartedAt l) (RepoScan_StartedAt r)) repoScans in
  counts ← ListRepoFindingTrendCounts ctx (RepoScan_ID <$> repoScans) severity findingType minConfidence (world_repo w);
  mret (foldl (λ ps c, add_to_points ps (Trend_ScanID c) (Trend_Severity c) (Trend_TotalCount c))
    ((λ scan, mkPoint (RepoScan_ID scan) (RepoScan_StartedAt scan) 0 ∅) <$> repoScans) counts).

(** *** The difference between two scans *)
Definition meta_order (l r : FindingMeta) : comparison := lex (Z.compare (Meta_CreatedAt r) (Meta_CreatedAt l)) (compare_string (Meta_ID l) (Meta_ID r)).
Definition sortFindingMetas (l : list FindingMeta) : list FindingMeta := sort_slice (less_of meta_order) l.
Definition limitFindingIDsByMeta (items : list FindingMeta) (limit : Z) : list string := Meta_ID <$> truncate limit items.
Definition metas_by_id (metas : list FindingMeta) : gmap string FindingMeta := foldl (λ m x, <[Meta_ID x := x]> m) ∅ metas.
Definition findings_by_id (rows : list RepoFinding) : gmap string RepoFinding := foldl (λ m x, <[RF_ID x := x]> m) ∅ rows.
Definition findingsForDiffIDs (now : Z) (ctx : Context) (scanID : string) (ids : list string) (w : FindingWorld) : result (list RepoFinding) :=
  match ids with
  | [] => mret []
  | _ =>
      items ← ListFindingsByScanAndIDs (scope_context defaultScope ctx) scanID ids (world_scans w) (world_findings w);
      withTriage ← applyFindingTriageStates now ctx (enrichFindings items) (world_findings w);
      mret (omap (λ id, findings_by_id withTriage !! id) ids)
  end.
Definition applyLimit (limit : Z) (d : ScanDiff) : ScanDiff :=
  mkDiff (Diff_ScanID d) (Diff_PreviousScanID d) (Diff_AddedCount d) (Diff_ResolvedCount d) (Diff_PersistingCount d)
    (truncate limit (Diff_Added d)) (truncate limit (Diff_Resolved d)) (truncate limit (Diff_Persisting d)).
(** The scan a scan is compared with, "" when there is none. *)
Definition diff_baseline (ctx : Context) (currentScan : ScanRecord) (previousScanID : string) (w : FindingWorld) : result string :=
  let previous := TrimSpace previousScanID in
  if decide (previous = "") then
    scans ← ListScans ctx 500 (world_scans w);
    mret (default "" (head (Scan_ID <$> filter (λ scan,
      Scan_ID scan ≠ Scan_ID currentScan ∧ Scan_Provider scan = Scan_Provider currentScan ∧
      Before (Scan_StartedAt scan) (Scan_StartedAt currentScan) = true) scans)))
  else
    _ ← guard_err (negb (bool_decide (previous = Scan_ID currentScan))) ErrInvalidScanDiffBaseline;
    baselineScan ← GetScan ctx previous (world_scans w);
    _ ← guard_err (bool_decide (Scan_Provider baselineScan = Scan_Provider currentScan)) ErrInvalidScanDiffBaseline;
    _ ← guard_err (Before (Scan_StartedAt baselineScan) (Scan_StartedAt currentScan)) ErrInvalidScanDiffBaseline;
    mret previous.
Definition diff_metas (current previous : gmap string FindingMeta) : list FindingMeta * list FindingMeta * list FindingMeta :=
  let added := filter (λ x, previous !! Meta_ID x = None) (map_range current).*2 in
  let persisting := filter (λ x, is_Some (previous !! Meta_ID x)) (map_range current).*2 in
  let resolved := filter (λ x, current !! Meta_ID x = None) (map_range previous).*2 in
  (sortFindingMetas added, sortFindingMetas resolved, sortFindingMetas persisting).
Definition GetScanDiffAgainst (now : Z) (ctx : Context) (scanID previousScanID : string) (limit : Z) (w : FindingWorld) : result ScanDiff :=
  let ctx := scope_context defaultScope ctx in
  currentScan ← GetScan ctx scanID (world_scans w);
  currentMetas ← ListFindingMetasByScan ctx scanID (world_scans w) (world_findings w);
  previous ← diff_baseline ctx currentScan previousScanID w;
  if decide (previous = "") then
    added ← findingsForDiffIDs now ctx scanID (limitFindingIDsByMeta currentMetas limit) w;
    mret (applyLimit limit (mkDiff scanID "" (Z.of_nat (length currentMetas)) 0 0 added [] []))
  else
    previousMetas ← ListFindingMetasByScan ctx previous (world_scans w) (world_findings w);
    let '(added, resolved, persisting) := diff_metas (metas_by_id currentMetas) (metas_by_id previousMetas) in
    addedRows ← findingsForDiffIDs now ctx scanID (limitFindingIDsByMeta added limit) w;
    resolvedRows ← findingsForDiffIDs now ctx previous (limitFindingIDsByMeta resolved limit) w;
    persistingRows ← findingsForDiffIDs now ctx scanID (limitFindingIDsByMeta persisting limit) w;
    mret (applyLimit limit (mkDiff scanID previous (Z.of_nat (length added)) (Z.of_nat (length resolved)) (Z.of_nat (length persisting))
      addedRows resolvedRows persistingRows)).
End reports.

Lemma NoDup_key_filter {A B} (key : A → B) (P : A → Prop) `{∀ x, Decision (P x)} l : NoDup (key <$> l) → NoDup (key <$> filter P l).
Proof.
  induction l as [|x l IH]; [done|]. cbn [fmap list_fmap]. intros [Hx Hl]%NoDup_cons. rewrite filter_cons.
  destruct (decide (P x)); [|by apply IH]. cbn. apply NoDup_cons. split; [|by apply IH]. intros Hin. apply Hx.
  apply list_elem_of_fmap in Hin as (y & -> & [_ Hy]%list_elem_of_filter). apply list_elem_of_fmap. by exists y.
Qed.

(** ** What a difference says *)
Section diff.
Context `{MapRange, SortSlice, FloatParser, URLParser} (defaultScope : Scope).

Lemma metas_by_id_lookup metas id x : metas_by_id metas !! id = Some x → Meta_ID x = id ∧ x ∈ metas.
Proof.
  unfold metas_by_id. induction metas as [|y metas IH] using rev_ind; [done|]. rewrite foldl_app. cbn [foldl].
  intros [[<- <-]|[_ Hx]]%lookup_insert_Some.
  - split; [done|]. apply elem_of_app. right. by left.
  - destruct (IH Hx). split; [done|]. apply elem_of_app. by left.
Qed.
Lemma metas_by_id_is_Some metas id : id ∈ Meta_ID <$> metas ↔ is_Some (metas_by_id metas !! id).
Proof.
  split; [|intros [x [<- Hx]%metas_by_id_lookup]; apply list_elem_of_fmap; by exists x].
  unfold metas_by_id. induction metas as [|y metas IH] using rev_ind; [by intros ?%elem_of_nil|]. rewrite foldl_app, fmap_app. cbn [foldl].
  destruct (decide (id = Meta_ID y)) as [->|Hne]; [rewrite lookup_insert_eq; by eexists|]. rewrite lookup_insert_ne by done.
  intros [Hin|Hin%list_elem_of_singleton]%elem_of_app; [by apply IH|done].
Qed.
(** The ids of some metas. *)
Definition meta_ids (metas : list FindingMeta) : gset string := list_to_set (Meta_ID <$> metas).
Lemma selected_metas (P : FindingMeta → Prop) `{∀ x, Decision (P x)} metas (ids : gset string) :
  (∀ id x, metas_by_id metas !! id = Some x → P x ↔ id ∈ ids) → (∀ id, id ∈ ids → id ∈ meta_ids metas) →
  Z.of_nat (length (sortFindingMetas (filter P (map_range (metas_by_id metas)).*2))) = Z.of_nat (size ids) ∧
  ∀ x, x ∈ sortFindingMetas (filter P (map_range (metas_by_id metas)).*2) → Meta_ID x ∈ ids.
Proof.
  intros HP Hsub. set (l := filter P (map_range (metas_by_id metas)).*2).
  assert (∀ x, x ∈ l ↔ metas_by_id metas !! Meta_ID x = Some x ∧ P x) as Hl.
  { intros x. unfold l. rewrite list_elem_of_filter, list_elem_of_fmap. split.
    - intros [Hx ([k y] & -> & Hy%elem_of_map_range)]. cbn in *. by destruct (metas_by_id_lookup _ _ _ Hy) as [-> _].
    - intros [Hx Hpx]. split; [done|]. exists (Meta_ID x, x). split; [done|]. by apply elem_of_map_range. }
  assert (Meta_ID <$> (map_range (metas_by_id metas)).*2 = (map_range (metas_by_id metas)).*1) as E.
  { rewrite <-list_fmap_compose. apply list_fmap_ext. intros i [k x] Hi%list_elem_of_lookup_2. cbn. apply elem_of_map_range in Hi.
    by destruct (metas_by_id_lookup _ _ _ Hi). }
  assert (NoDup (Meta_ID <$> l)) as Hnd.
  { unfold l. assert (NoDup (Meta_ID <$> (map_range (metas_by_id metas)).*2)) as Hr by (rewrite E; apply NoDup_map_range).
    by apply NoDup_key_filter. }
  split.
  - f_equal. unfold sortFindingMetas. rewrite sort_slice_perm, <-(length_fmap Meta_ID), <-(size_list_to_set (C := gset string)) by done. f_equal.
    apply leibniz_equiv, set_equiv. intros id. rewrite elem_of_list_to_set, list_elem_of_fmap. split.
    + intros (x & -> & [Hx Hpx]%Hl). by apply (HP (Meta_ID x) x).
    + intros Hid. pose proof (Hsub id Hid) as Hm. unfold meta_ids in Hm. apply elem_of_list_to_set, metas_by_id_is_Some in Hm as [x Hx].
      destruct (metas_by_id_lookup _ _ _ Hx) as [<- _]. exists x. split; [done|]. apply Hl. split; [done|]. by apply (HP (Meta_ID x) x).
  - intros x [Hx Hpx]%elem_of_sort_slice%Hl. by apply (HP (Meta_ID x) x).
Qed.

Lemma findingsForDiffIDs_ids now ctx scanID ids w rows : findingsForDiffIDs defaultScope now ctx scanID ids w = Ok rows →
  ∀ f, f ∈ rows → RF_ID f ∈ ids.
Proof.
  assert (∀ l id f, findings_by_id l !! id = Some f → RF_ID f = id) as Hby.
  { intros l id f. unfold findings_by_id. induction l as [|y l IH] using rev_ind; [done|]. rewrite foldl_app. cbn [foldl].
    by intros [[<- <-]|[_ Hx]]%lookup_insert_Some; [|apply IH]. }
  unfold findingsForDiffIDs. destruct ids as [|id0 ids]; [by intros [= <-] f ?%elem_of_nil|]. intros Hok. open_bind Hok items Hi. open_bind Hok shown Hs.
  injection Hok as <-.
  intros f Hin. change (f ∈ omap (λ id, findings_by_id shown !! id) (id0 :: ids)) in Hin. apply list_elem_of_omap in Hin as (id & Hid & Hf).
  by rewrite (Hby _ _ _ Hf).
Qed.
Lemma limited_ids metas limit id : id ∈ limitFindingIDsByMeta metas limit → ∃ x, x ∈ metas ∧ Meta_ID x = id.
Proof. unfold limitFindingIDsByMeta. intros (x & -> & Hx%elem_of_truncate)%list_elem_of_fmap. by exists x. Qed.

Lemma metas_of_scan ctx id w metas : ListFindingMetasByScan ctx id (world_scans w) (world_findings w) = Ok metas →
  length metas = length (scan_rows id (world_findings w)) ∧
  meta_ids metas = list_to_set (C := gset string) (RF_ID <$> scan_rows id (world_findings w)).
Proof.
  unfold ListFindingMetasByScan. intros Hok. open_bind Hok r _. injection Hok as <-. rewrite length_fmap. split; [done|].
  unfold meta_ids. by rewrite <-list_fmap_compose.
Qed.

(** The scans a scan can be compared with: earlier ones of the same scope and
    provider. *)
Definition earlier_scan (scope : Scope) (q : QueueState) (current scan : ScanRecord) : Prop :=
  scans q !! Scan_ID scan = Some scan ∧ in_scope scope scan = true ∧ Scan_ID scan ≠ Scan_ID current ∧
  Scan_Provider scan = Scan_Provider current ∧ Scan_StartedAt scan < Scan_StartedAt current.
(** The requested one or, if none is requested, the latest; none when there is
    none among the 500 scans of the scope that started last. *)
Definition compared_with (scope : Scope) (q : QueueState) (current : ScanRecord) (requested previous : string) : Prop :=
  if decide (TrimSpace requested = "") then
    (previous = "" ∧ ∀ other, earlier_scan scope q current other →
       (500 < length (filter (λ x, in_scope scope x = true ∧ (Scan_StartedAt other ≤ Scan_StartedAt x)%Z) (ordered_scans q)))%nat) ∨
    ∃ baseline, Scan_ID baseline = previous ∧ previous ≠ "" ∧ earlier_scan scope q current baseline ∧
      ∀ other, earlier_scan scope q current other → Scan_StartedAt other ≤ Scan_StartedAt baseline
  else previous = TrimSpace requested ∧ ∃ baseline, Scan_ID baseline = previous ∧ earlier_scan scope q current baseline.

(** The first element of a sorted list that passes a test is the greatest of
    those that do; when the test fails on a prefix, the prefix is greater. *)
Lemma sorted_head_filter {A} (R : A → A → Prop) (P : A → Prop) `{∀ x, Decision (P x)} (l rest : list A) x : (∀ y, R y y) → StronglySorted R (l ++ rest) →
  head (filter P l) = Some x → x ∈ l ∧ P x ∧ ∀ y, y ∈ l ++ rest → P y → R x y.
Proof.
  intros HR. induction l as [|a l IH]; [done|]. cbn [app]. intros [Hs Ha]%StronglySorted_inv. rewrite filter_cons. destruct (decide (P a)) as [Hp|Hp].
  - intros [= ->]. split; [by left|]. split; [done|]. intros y [->|Hy]%elem_of_cons _; [done|]. by eapply Forall_forall in Ha.
  - intros Hh. destruct (IH Hs Hh) as (Hx & Hpx & Hall). split; [by right|]. split; [done|]. intros y [->|Hy]%elem_of_cons Hpy; [done|by apply Hall].
Qed.
Lemma sorted_prefix_before {A} (R : A → A → Prop) (l rest : list A) : StronglySorted R (l ++ rest) → ∀ x y, x ∈ l → y ∈ rest → R x y.
Proof.
  induction l as [|a l IH]; [by intros _ x y ?%elem_of_nil|]. intros [Hs Ha]%StronglySorted_inv x y [->|Hx]%elem_of_cons Hy; [|by apply IH].
  rewrite Forall_forall in Ha. apply Ha, elem_of_app. by right.
Qed.
Lemma filter_everything {A} (P : A → Prop) `{∀ x, Decision (P x)} (l : list A) : (∀ x, x ∈ l → P x) → filter P l = l.
Proof.
  induction l as [|x l IH]; [done|]. intros Hall. rewrite filter_cons, decide_True by (apply Hall; by left). f_equal. apply IH. intros y Hy. apply Hall. by right.
Qed.
Lemma diff_baseline_spec ctx scope current requested w previous : RequireScope ctx = Ok scope → queue_wf (world_scans w) →
  scans (world_scans w) !! "" = None → diff_baseline ctx current requested w = Ok previous →
  compared_with scope (world_scans w) current requested previous.
Proof.
  intros Hs Hwf Hblank. unfold diff_baseline, compared_with. cbv zeta. set (q := world_scans w) in *. case_decide as Hreq.
  2: { intros Hok. open_bind Hok u Hid. open_bind Hok b Hb. open_bind Hok u1 Hp. open_bind Hok u2 Ht. injection Hok as <-. split; [done|].
    apply guard_err_Ok in Hid, Hp, Ht. apply negb_true_iff, bool_decide_eq_false in Hid. apply bool_decide_eq_true in Hp.
    unfold GetScan, scoped_scan in Hb. rewrite Hs in Hb. cbn [mbind result_bind] in Hb. destruct (scans q !! TrimSpace requested) as [b'|] eqn:E; [|done].
    destruct (in_scope scope b') eqn:Ein; [|done]. injection Hb as ->. pose proof (proj1 Hwf _ _ E) as Ei. exists b. split; [done|].
    split; [by rewrite Ei|]. split; [done|]. split; [by rewrite Ei|]. split; [done|]. by apply Z.ltb_lt. }
  unfold ListScans. rewrite Hs. cbn [mbind result_bind mret result_ret]. set (rows := filter _ (_ <$> scanIDs q)).
  set (P := λ scan, Scan_ID scan ≠ Scan_ID current ∧ Scan_Provider scan = Scan_Provider current ∧
    Before (Scan_StartedAt scan) (Scan_StartedAt current) = true).
  change (λ l r : ScanRecord, After (Scan_StartedAt l) (Scan_StartedAt r)) with (less_of (λ a b : ScanRecord, Z.compare (Scan_StartedAt b) (Scan_StartedAt a))).
  set (sorted := sort_slice _ rows). pose proof (sort_slice_less_of (λ a b, Z.compare (Scan_StartedAt b) (Scan_StartedAt a)) rows
    (compare_ok_flip _ (compare_ok_on Scan_StartedAt _ compare_ok_Z))) as Hsorted. fold sorted in Hsorted.
  assert (∀ scan, P scan ∧ scan ∈ sorted ↔ earlier_scan scope q current scan) as Hearlier.
  { intros scan. unfold sorted, rows, P, earlier_scan. rewrite elem_of_sort_slice, list_elem_of_filter.
    change ((λ id, default zero_scan (scans q !! id)) <$> scanIDs q) with (ordered_scans q). rewrite ordered_scans_elem by done.
    unfold Before. rewrite Z.ltb_lt. tauto. }
  destruct (truncate_prefix (default_limit 500) sorted) as [rest Hrest]. set (page := truncate _ sorted) in *.
  assert (rest = [] ∨ length page = 500%nat) as Hpage.
  { unfold page, truncate in *. cbn in *. destruct (500 <? Z.of_nat (length sorted)) eqn:E; cbn in *.
    - right. apply Z.ltb_lt in E. rewrite length_take. lia.
    - left. apply (f_equal length) in Hrest. rewrite length_app in Hrest. destruct rest; [done|cbn in Hrest; lia]. }
  clearbody page. rewrite Hrest in Hsorted, Hearlier. intros [= <-].
  destruct (filter _ page) as [|b l] eqn:Ef.
  - left. split; [done|]. intros other [Hp Hin]%Hearlier. assert (other ∉ page) as Hnot.
    { intros Hpg. apply (elem_of_nil other). rewrite <-Ef. by apply list_elem_of_filter. }
    apply elem_of_app in Hin as [|Hin]; [done|]. destruct Hpage as [->|Hlen]; [by apply elem_of_nil in Hin|].
    assert (filter (λ x, in_scope scope x = true ∧ Scan_StartedAt other ≤ Scan_StartedAt x) (ordered_scans q) ≡ₚ
      filter (λ x, Scan_StartedAt other ≤ Scan_StartedAt x) (page ++ rest)) as ->.
    { rewrite <-Hrest. unfold sorted. rewrite sort_slice_perm. unfold rows. rewrite list_filter_filter.
      rewrite (list_filter_iff _ (λ x, Scan_StartedAt other ≤ Scan_StartedAt x ∧ in_scope scope x = true)) by tauto. done. }
    rewrite filter_app, length_app.
    assert (∀ x, x ∈ page → Scan_StartedAt other ≤ Scan_StartedAt x) as Hge by (intros x Hx; exact (sorted_prefix_before _ _ _ Hsorted x other Hx Hin)).
    rewrite filter_everything, Hlen by done. assert (other ∈ filter (λ x, Scan_StartedAt other ≤ Scan_StartedAt x) rest) as Hone by (apply list_elem_of_filter; split; [lia|done]).
    destruct (filter _ rest); [by apply elem_of_nil in Hone|cbn; lia].
  - right. destruct (sorted_head_filter (λ x y, (Scan_StartedAt y ?= Scan_StartedAt x) ≠ Gt) P page rest b) as (Hb & Hpb & Hall); [|exact Hsorted|by rewrite Ef|].
    { intros y. by rewrite Z.compare_refl. }
    assert (earlier_scan scope q current b) as Hb' by (apply Hearlier; split; [done|apply elem_of_app; by left]).
    exists b. split; [done|]. split; [|split; [done|]].
    + cbn. intros E. destruct Hb' as [Hb' _]. by rewrite E, Hblank in Hb'.
    + intros other [Hp Hin]%Hearlier. exact (Hall other Hin Hp).
Qed.

(** C29. A scan is compared with the requested scan, which must be an earlier
    scan of the same provider in the scope, or, if none is requested, with the
    latest of those among the 500 scans of the scope that started last.  The
    difference splits the findings of the two: what is added is in the new scan
    only, what is resolved in the old one only, what persists in both, each
    counted once and the listed findings among them; without a scan to compare
    with everything is new. *)
Theorem GetScanDiff_partition now ctx scope scanID previousScanID limit w d
    (Hs : RequireScope ctx = Ok scope) (Hwf : queue_wf (world_scans w)) (Hblank : scans (world_scans w) !! "" = None)
    (Hok : GetScanDiffAgainst defaultScope now ctx scanID previousScanID limit w = Ok d) :
  let ids := λ id, list_to_set (C := gset string) (RF_ID <$> scan_rows id (world_findings w)) in
  let cur := ids scanID in
  let prev := ids (Diff_PreviousScanID d) in
  (∃ currentScan, scans (world_scans w) !! scanID = Some currentScan ∧ in_scope scope currentScan = true ∧
     compared_with scope (world_scans w) currentScan previousScanID (Diff_PreviousScanID d)) ∧
  if decide (Diff_PreviousScanID d = "") then
    Diff_ResolvedCount d = 0 ∧ Diff_PersistingCount d = 0 ∧ Diff_AddedCount d = Z.of_nat (length (scan_rows scanID (world_findings w)))
  else
    Diff_AddedCount d = Z.of_nat (size (cur ∖ prev)) ∧ Diff_ResolvedCount d = Z.of_nat (size (prev ∖ cur)) ∧
    Diff_PersistingCount d = Z.of_nat (size (cur ∩ prev)) ∧
    (∀ f, f ∈ Diff_Added d → RF_ID f ∈ cur ∖ prev) ∧ (∀ f, f ∈ Diff_Resolved d → RF_ID f ∈ prev ∖ cur) ∧
    (∀ f, f ∈ Diff_Persisting d → RF_ID f ∈ cur ∩ prev).
Proof.
  intros ids cur prev. unfold GetScanDiffAgainst in Hok. rewrite (scope_context_scoped _ _ _ Hs) in Hok. cbv zeta in Hok.
  open_bind Hok currentScan Hcurrent. open_bind Hok currentMetas Hcm. open_bind Hok previous Hbase.
  assert (∃ currentScan, scans (world_scans w) !! scanID = Some currentScan ∧ in_scope scope currentScan = true ∧
    compared_with scope (world_scans w) currentScan previousScanID previous) as Hcompared.
  { unfold GetScan, scoped_scan in Hcurrent. rewrite Hs in Hcurrent. cbn [mbind result_bind] in Hcurrent.
    destruct (scans (world_scans w) !! scanID) as [x|]; [|done]. destruct (in_scope scope x) eqn:Ein; [|done]. injection Hcurrent as ->.
    exists currentScan. split; [done|]. split; [done|]. by eapply diff_baseline_spec. }
  clear Hbase. pose proof (metas_of_scan _ _ _ _ Hcm) as [Hlen Hcur'].
  assert (meta_ids currentMetas = cur) as Hcur by exact Hcur'. clear Hcur'.
  destruct (decide (previous = "")) as [->|Hne].
  { open_bind Hok added _. injection Hok as <-. cbn. split; [exact Hcompared|]. by rewrite Hlen. }
  open_bind Hok previousMetas Hpm. pose proof (metas_of_scan _ _ _ _ Hpm) as [_ Hprev'].
  assert (meta_ids previousMetas = ids previous) as Hprev by exact Hprev'. clear Hprev'.
  unfold diff_metas in Hok. cbv beta iota zeta in Hok. open_bind Hok rows1 R1. open_bind Hok rows2 R2. open_bind Hok rows3 R3.
  apply (f_equal (λ r, ok_or d r)) in Hok. cbn [ok_or mret result_ret] in Hok.
  assert (Diff_PreviousScanID d = previous) as Ep by by rewrite <-Hok. unfold prev. rewrite Ep, decide_False by done. split; [exact Hcompared|].
  pose proof (selected_metas (λ x, metas_by_id previousMetas !! Meta_ID x = None) currentMetas (cur ∖ ids previous)) as [L1 E1].
  { intros id x Hx. destruct (metas_by_id_lookup _ _ _ Hx) as [<- Hin]. rewrite elem_of_difference, <-Hcur, <-Hprev. unfold meta_ids.
    rewrite !elem_of_list_to_set, metas_by_id_is_Some, (metas_by_id_is_Some previousMetas), <-eq_None_not_Some. rewrite Hx. naive_solver. }
  { intros id. rewrite Hcur. set_solver. }
  pose proof (selected_metas (λ x, metas_by_id currentMetas !! Meta_ID x = None) previousMetas (ids previous ∖ cur)) as [L2 E2].
  { intros id x Hx. destruct (metas_by_id_lookup _ _ _ Hx) as [<- Hin]. rewrite elem_of_difference, <-Hcur, <-Hprev. unfold meta_ids.
    rewrite !elem_of_list_to_set, metas_by_id_is_Some, (metas_by_id_is_Some currentMetas), <-eq_None_not_Some. rewrite Hx. naive_solver. }
  { intros id. rewrite Hprev. set_solver. }
  pose proof (selected_metas (λ x, is_Some (metas_by_id previousMetas !! Meta_ID x)) currentMetas (cur ∩ ids previous)) as [L3 E3].
  { intros id x Hx. destruct (metas_by_id_lookup _ _ _ Hx) as [<- Hin]. rewrite elem_of_intersection, <-Hcur, <-Hprev. unfold meta_ids.
    rewrite !elem_of_list_to_set, metas_by_id_is_Some, (metas_by_id_is_Some previousMetas). rewrite Hx. naive_solver. }
  { intros id. rewrite Hcur. set_solver. }
  rewrite <-Hok. cbn [Diff_AddedCount Diff_ResolvedCount Diff_PersistingCount Diff_Added Diff_Resolved Diff_Persisting applyLimit].
  split; [exact L1|]. split; [exact L2|]. split; [exact L3|].
  split; [|split]; intros f Hf%elem_of_truncate.
  - destruct (limited_ids _ _ _ (findingsForDiffIDs_ids _ _ _ _ _ _ R1 f Hf)) as (x & Hx & <-). by apply E1.
  - destruct (limited_ids _ _ _ (findingsForDiffIDs_ids _ _ _ _ _ _ R2 f Hf)) as (x & Hx & <-). by apply E2.
  - destruct (limited_ids _ _ _ (findingsForDiffIDs_ids _ _ _ _ _ _ R3 f Hf)) as (x & Hx & <-). by apply E3.
Qed.
End diff.

(** ** Two scans *)
Definition sample_diff_world : FindingWorld :=
  let q := mkQueue (list_to_map [("s1", sample_triage_scan "s1" 1); ("s2", sample_triage_scan "s2" 5)]) ["s1"; "s2"] in
  let put id rows t := ok_or t (UpsertFindings (Some sample_triage_scope) id rows q t) in
  mkFindingWorld q
    (put "s2" [sample_finding "s2" "b" "high" 6; sample_finding "s2" "c" "low" 6]
      (put "s1" [sample_finding "s1" "a" "high" 2; sample_finding "s1" "b" "high" 2] empty_finding_tables)) empty_repo_tables.
Definition sample_diff : result ScanDiff :=
  @GetScanDiffAgainst canonical_range insertion_sort sample_float_parser sample_url_parser sample_triage_scope 9 (Some sample_triage_scope)
    "s2" "" 10 sample_diff_world.
Definition no_diff : ScanDiff := mkDiff "" "" 0 0 0 [] [] [].
Lemma GetScanDiff_partition_witness :
  sample_diff = Ok (ok_or no_diff sample_diff) ∧ Diff_PreviousScanID (ok_or no_diff sample_diff) = "s1" ∧
  Diff_AddedCount (ok_or no_diff sample_diff) =
    Z.of_nat (size (list_to_set (C := gset string) (RF_ID <$> scan_rows "s2" (world_findings sample_diff_world)) ∖
                    list_to_set (RF_ID <$> scan_rows "s1" (world_findings sample_diff_world)))) ∧
  (RF_ID <$> Diff_Added (ok_or no_diff sample_diff)) = ["c"].
Proof.
  assert (is_ok sample_diff = true) as Hok by by vm_compute.
  assert (Diff_PreviousScanID (ok_or no_diff sample_diff) = "s1") as Hp by by vm_compute.
  apply (is_ok_or no_diff) in Hok. split; [exact Hok|]. split; [exact Hp|]. split; [|by vm_compute].
  assert (RequireScope (Some sample_triage_scope) = Ok sample_triage_scope) as Hs by done. unfold sample_diff at 1 in Hok.
  assert (queue_wf (world_scans sample_diff_world)) as Hwf.
  { split; [|split].
    - assert (map_Forall (λ id r, Scan_ID r = id) (scans (world_scans sample_diff_world))) as Hm by (apply (bool_decide_unpack _); vm_compute; exact I). exact Hm.
    - apply (bool_decide_unpack _). vm_compute. exact I.
    - intros id. rewrite <-elem_of_dom. assert (dom (scans (world_scans sample_diff_world)) = list_to_set (scanIDs (world_scans sample_diff_world))) as ->
        by (apply (bool_decide_unpack _); vm_compute; exact I). by rewrite elem_of_list_to_set. }
  pose proof (@GetScanDiff_partition canonical_range insertion_sort sample_float_parser sample_url_parser sample_triage_scope 9
    (Some sample_triage_scope) sample_triage_scope "s2" "" 10 sample_diff_world _ Hs Hwf eq_refl Hok) as [_ Ht].
  rewrite Hp in Ht. rewrite decide_False in Ht by done. exact (proj1 Ht).
Defined.
