(* ===== verification/FindingBaselines.v ===== *)
(** * Baselines of suppressed findings (internal/api/finding_baselines.go)

    The suppressed findings of one scan can be exported, and suppressed again in
    another scan.  An import suppresses a finding only on an exact match of its
    fingerprint, the SHA-256 of its JSON; the encoder and the hash are
    parameters. *)
From S2P Require Import Prelude GoStrings GoCollections GoTime GoFloat GoText Scope AuthzRecords ScanQueue RepoFindings RepoScanRecords RepoScanStore RepoFindingStore RepoLifecycle RepoFindingQueries RepoTargets FindingEnrichment FindingStore FindingTriage FindingWorkflow.

Definition findingBaselineSchemaVersion : string := "v1".
Definition findingBaselineImportMatchThreshold : float64 := hundredths 95.
Definition findingBaselineImportPageSize : Z := 1000.
Definition ErrInvalidFindingBaselineRequest : error := Sentinel "invalid finding baseline request".

Record FindingBaselineEntry := mkBaselineEntry {
  Entry_FindingID : string;
  Entry_Type : string;
  Entry_Severity : string;
  Entry_ConfidenceScore : float64;
  Entry_Title : string;
  Entry_HumanSummary : string;
  Entry_Path : list string;
  Entry_Repository : string;
  Entry_FilePath : string;
  Entry_Detector : string;
  Entry_MatchFingerprint : string;
  Entry_SuppressionExpiresAt : option Z;
  Entry_Assignee : string;
}.
Record FindingBaseline := mkFindingBaseline {
  Baseline_SchemaVersion : string;
  Baseline_MatchMode : string;
  Baseline_ExportedAt : Z;
  Baseline_SourceScanID : string;
  Baseline_Items : list FindingBaselineEntry;
}.
Record FindingBaselineImportRequest := mkImportRequest { Import_ScanID : string; Import_Baseline : FindingBaseline; Import_Comment : string }.
Record FindingBaselineImportItem := mkImportItem {
  Item_BaselineFindingID : string;
  Item_FindingID : string;
  Item_MatchConfidenceScore : float64;
  Item_Status : string;
  Item_Reason : string;
  Item_SuppressionExpiresAt : option Z;
}.
Record FindingBaselineImportResult := mkImportResult {
  ImportResult_ScanID : string;
  ImportResult_ImportedAt : Z;
  ImportResult_AppliedCount : Z;
  ImportResult_SkippedCount : Z;
  ImportResult_Items : list FindingBaselineImportItem;
}.
(** What is hashed. *)
Record BaselinePayload := mkBaselinePayload {
  Payload_Type : string; Payload_Severity : string; Payload_Title : string; Payload_HumanSummary : string; Payload_Path : list string;
  Payload_Repository : string; Payload_FilePath : string; Payload_Detector : string; Payload_Evidence : option (gmap string evidence);
  Payload_Remediation : string;
}.

Section baselines.
Context `{MapRange, SortSlice, FloatParser, URLParser, BundleCodec} (defaultScope : Scope) (json_Marshal : BaselinePayload → option string).

Definition findingBaselineFingerprint (f : RepoFinding) : string :=
  match json_Marshal (mkBaselinePayload (RF_Type f) (RF_Severity f) (TrimSpace (RF_Title f)) (TrimSpace (RF_HumanSummary f)) (RF_Path f)
          (TrimSpace (RF_Repository f)) (TrimSpace (RF_FilePath f)) (TrimSpace (RF_Detector f)) (RF_Evidence f) (TrimSpace (RF_Remediation f))) with
  | Some encoded => sha256_hex encoded
  | None => ""
  end.
Definition same_text (x y : string) : bool := bool_decide (TrimSpace x = TrimSpace y).
Definition scoreFindingBaselineMatch (entry : FindingBaselineEntry) (f : RepoFinding) : float64 :=
  let fingerprint := findingBaselineFingerprint f in
  let same_id := same_text (Entry_FindingID entry) (RF_ID f) in
  if negb (bool_decide (fingerprint = "")) && bool_decide (TrimSpace (Entry_MatchFingerprint entry) = fingerprint)
  then (if same_id then hundredths 100 else hundredths 97)
  else
    let score := raise same_id 40 float_zero in
    let score := raise (bool_decide (Entry_Type entry = RF_Type f)) 15 score in
    let score := raise (bool_decide (Entry_Severity entry = RF_Severity f)) 10 score in
    let score := raise (bool_decide (canon (Entry_Title entry) = canon (RF_Title f))) 10 score in
    let score := raise (bool_decide (Entry_Path entry = RF_Path f)) 10 score in
    let score := raise (bool_decide (TrimSpace (Entry_MatchFingerprint entry) = fingerprint)) 15 score in
    roundConfidenceScore score.
Definition findingBaselineEntryFromFinding (f : RepoFinding) : FindingBaselineEntry :=
  mkBaselineEntry (RF_ID f) (RF_Type f) (RF_Severity f) (scoreFindingConfidence f) (RF_Title f) (RF_HumanSummary f) (RF_Path f)
    (RF_Repository f) (RF_FilePath f) (RF_Detector f) (findingBaselineFingerprint f) (Triage_SuppressionExpiresAt (RF_Triage f))
    (Triage_Assignee (RF_Triage f)).
Definition entry_order (a b : FindingBaselineEntry) : comparison :=
  lex (compare_string (Entry_FindingID a) (Entry_FindingID b)) (compare_string (Entry_Title a) (Entry_Title b)).
Definition sortFindingBaselineEntries (l : list FindingBaselineEntry) : list FindingBaselineEntry := sort_slice (less_of entry_order) l.
Definition latestScanID (ctx : Context) (w : FindingWorld) : result string :=
  scans ← ListScans (scope_context defaultScope ctx) 1 (world_scans w);
  match scans with scan :: _ => mret (Scan_ID scan) | [] => Err ErrNotFound end.
Definition scan_or_latest (ctx : Context) (scanID : string) (w : FindingWorld) : result string :=
  if decide (TrimSpace scanID = "") then latestScanID ctx w else mret (TrimSpace scanID).

(** ** Export *)
Definition ExportFindingBaseline (now : Z) (ctx : Context) (scanID : string) (limit : Z) (w : FindingWorld) : result FindingBaseline :=
  let ctx := scope_context defaultScope ctx in
  normalizedScanID ← scan_or_latest ctx scanID w;
  rows ← FindingTriage.ListFindingsFiltered defaultScope now ctx limit
           (mkFindingsFilter "" normalizedScanID "" "" FindingLifecycleSuppressed "" "created_at" true 0) w;
  mret (mkFindingBaseline findingBaselineSchemaVersion "exact_fingerprint_v1" now normalizedScanID
    (sortFindingBaselineEntries (findingBaselineEntryFromFinding <$> rows))).

(** ** Import *)
Definition validateFindingBaselineImportRequest (request : FindingBaselineImportRequest) : result unit :=
  let items := Baseline_Items (Import_Baseline request) in
  _ ← guard_err (bool_decide (TrimSpace (Baseline_SchemaVersion (Import_Baseline request)) = findingBaselineSchemaVersion))
        ErrInvalidFindingBaselineRequest;
  _ ← guard_err (negb (bool_decide (items = []))) ErrInvalidFindingBaselineRequest;
  guard_err (forallb (λ entry, named (Entry_FindingID entry) && named (Entry_MatchFingerprint entry)) items) ErrInvalidFindingBaselineRequest.
Definition page_filter (now : Z) (scanID : string) (offset : Z) : FindingListFilter :=
  mkListFilter scanID "" "" "" "" "" "created_at" true findingBaselineImportPageSize offset now.
(** The findings of the scan, page by page; [None] when the fuel runs out. *)
Fixpoint load_pages (fuel : nat) (now : Z) (ctx : Context) (scanID : string) (offset : Z) (w : FindingWorld) : option (result (list RepoFinding)) :=
  match fuel with
  | O => None
  | S fuel =>
      match FindingStore.ListFindingsFiltered now ctx (page_filter now scanID offset) (world_scans w) (world_findings w) with
      | Err e => Some (Err e)
      | Ok page =>
          if Z.of_nat (length page) <=? findingBaselineImportPageSize then Some (Ok (enrichFindings page))
          else
            match load_pages fuel now ctx scanID (offset + findingBaselineImportPageSize) w with
            | None => None
            | Some (Err e) => Some (Err e)
            | Some (Ok rest) => Some (Ok (enrichFindings (take (Z.to_nat findingBaselineImportPageSize) page) ++ rest))
            end
      end
  end.
Definition load_fuel (w : FindingWorld) : nat := S (size (findings (world_findings w))).
(** The findings by id, the last one of an id, and by fingerprint. *)
Definition target_by_id (targets : list RepoFinding) (id : string) : option RepoFinding :=
  last (filter (λ f, TrimSpace (RF_ID f) = id) targets).
Definition targets_by_fingerprint (targets : list RepoFinding) (fingerprint : string) : list RepoFinding :=
  if decide (fingerprint = "") then [] else filter (λ f, findingBaselineFingerprint f = fingerprint) targets.
Definition resolveBaselineImportFinding (entry : FindingBaselineEntry) (targets : list RepoFinding) : RepoFinding + string :=
  match target_by_id targets (TrimSpace (Entry_FindingID entry)) with
  | Some f => inl f
  | None =>
      match targets_by_fingerprint targets (TrimSpace (Entry_MatchFingerprint entry)) with
      | [] => inr "finding not present in target scan"
      | [f] => inl f
      | _ => inr "multiple exact baseline matches found in target scan"
      end
  end.

Definition import_request (comment : string) (entry : FindingBaselineEntry) (expires : Z) : FindingTriageRequest :=
  mkTriageRequest (Some FindingLifecycleSuppressed)
    (if decide (TrimSpace (Entry_Assignee entry) = "") then None else Some (TrimSpace (Entry_Assignee entry)))
    (Some (Format_RFC3339 expires)) comment.
Definition already_suppressed (entry : FindingBaselineEntry) (f : RepoFinding) : bool :=
  bool_decide (Triage_Status (RF_Triage f) = FindingLifecycleSuppressed) &&
  bool_decide (Triage_SuppressionExpiresAt (RF_Triage f) = Entry_SuppressionExpiresAt entry) &&
  same_text (Triage_Assignee (RF_Triage f)) (Entry_Assignee entry).
(** What to do with an entry: the finding to suppress and until when, or the
    reason to skip it with what is known of the match. *)
Definition plan_entry (now : Z) (targets : list RepoFinding) (entry : FindingBaselineEntry)
    : (RepoFinding * Z) + (string * string * float64) :=
  match Entry_SuppressionExpiresAt entry with
  | None => inr ("suppression expiry missing", "", float_zero)
  | Some expires =>
      if negb (After expires now) then inr ("suppression expiry already elapsed", "", float_zero)
      else
        match resolveBaselineImportFinding entry targets with
        | inr reason => inr (reason, "", float_zero)
        | inl f =>
            let score := scoreFindingBaselineMatch entry f in
            if float_ltb score findingBaselineImportMatchThreshold
            then inr ("baseline match confidence below required threshold", RF_ID f, score)
            else if already_suppressed entry f then inr ("finding already suppressed with matching expiry", RF_ID f, score)
            else inl (f, expires)
        end
  end.
Definition skipped (entry : FindingBaselineEntry) (reason findingID : string) (score : float64) : FindingBaselineImportItem :=
  mkImportItem (TrimSpace (Entry_FindingID entry)) findingID score "skipped" reason (Entry_SuppressionExpiresAt entry).
Definition add_item (item : FindingBaselineImportItem) (r : FindingBaselineImportResult) : FindingBaselineImportResult :=
  let applied := bool_decide (Item_Status item = "applied") in
  mkImportResult (ImportResult_ScanID r) (ImportResult_ImportedAt r) (ImportResult_AppliedCount r + (if applied then 1 else 0))
    (ImportResult_SkippedCount r + (if applied then 0 else 1)) (ImportResult_Items r ++ [item]).
(** [fresh n] is the id of the action recorded for the [n]th entry. *)
Fixpoint import_entries (now : Z) (fresh : nat → string) (n : nat) (ctx : Context) (scanID comment actor : string) (targets : list RepoFinding)
    (entries : list FindingBaselineEntry) (r : FindingBaselineImportResult) (w : FindingWorld)
    : FindingWorld * result FindingBaselineImportResult :=
  match entries with
  | [] => (w, Ok r)
  | entry :: entries =>
      let continue := import_entries now fresh (S n) ctx scanID comment actor targets entries in
      match plan_entry now targets entry with
      | inr (reason, findingID, score) => continue (add_item (skipped entry reason findingID score) r) w
      | inl (f, expires) =>
          let score := scoreFindingBaselineMatch entry f in
          match TriageFinding defaultScope now (fresh n) ctx (RF_ID f) scanID (import_request comment entry expires) actor w with
          | (w', Ok updated) =>
              continue (add_item (mkImportItem (TrimSpace (Entry_FindingID entry)) (RF_ID updated) score "applied" ""
                                    (Triage_SuppressionExpiresAt (RF_Triage updated))) r) w'
          | (w', Err e) =>
              if decide (e = ErrInvalidFindingTriageRequest)
              then continue (add_item (skipped entry "finding triage update rejected" (RF_ID f) score) r) w'
              else (w', Err e)
          end
      end
  end.
Definition ImportFindingBaseline (now : Z) (fresh : nat → string) (ctx : Context) (request : FindingBaselineImportRequest) (actor : string)
    (w : FindingWorld) : FindingWorld * result FindingBaselineImportResult :=
  let ctx := scope_context defaultScope ctx in
  let loaded :=
    _ ← validateFindingBaselineImportRequest request;
    scanID ← scan_or_latest ctx (Import_ScanID request) w;
    targets ← default (Err ErrNotFound) (load_pages (load_fuel w) now ctx scanID 0 w);
    mret (scanID, targets) in
  match loaded with
  | Err e => (w, Err e)
  | Ok (scanID, targets) =>
      let comment := TrimSpace (Import_Comment request) in
      let comment := if decide (comment = "") then "suppressed from imported finding baseline" else comment in
      import_entries now fresh 0 ctx scanID comment actor targets (Baseline_Items (Import_Baseline request))
        (mkImportResult scanID now 0 0 []) w
  end.
End baselines.

(** ** Pages *)

(** The rows a filter lets through, in the order of the list. *)
Definition matching `{MapRange} (scope : Scope) (f : FindingListFilter) (q : QueueState) (t : FindingTables) : list RepoFinding :=
  sortFilteredFindings (ListFilter_SortBy f) (ListFilter_SortDesc f) (omap (filtered_finding scope f t) (scope_findings scope q t)).

Section pages.
Context `{MapRange, SortSlice, FloatParser, URLParser}.

(** A page is a window of them, with one row more than the limit. *)
Lemma ListFindingsFiltered_page clock ctx scope f q t :
  let n := NormalizeFindingListFilter clock f in
  RequireScope ctx = Ok scope → (ListFilter_ScanID n = "" ∨ is_ok (scoped_scan ctx (ListFilter_ScanID n) q) = true) →
  ListFilter_Offset n + ListFilter_Limit n + 1 < 2 ^ 63 →
  FindingStore.ListFindingsFiltered clock ctx f q t =
    Ok (take (Z.to_nat (ListFilter_Limit n + 1)) (drop (Z.to_nat (ListFilter_Offset n)) (matching scope n q t))).
Proof.
  intros n Hs Hscan Hbig. unfold FindingStore.ListFindingsFiltered. rewrite Hs. cbn [mbind result_bind]. cbv zeta. fold n.
  assert (0 < ListFilter_Limit n) as Hlim.
  { unfold n, NormalizeFindingListFilter. cbn. destruct (ListFilter_Limit f <=? 0) eqn:E; lia. }
  assert (0 ≤ ListFilter_Offset n) as Hoff.
  { unfold n, NormalizeFindingListFilter. cbn. destruct (ListFilter_Offset f <? 0) eqn:E; lia. }
  clearbody n.
  assert ((if decide (ListFilter_ScanID n = "") then mret tt else _ ← scoped_scan ctx (ListFilter_ScanID n) q; mret tt) = Ok tt) as ->.
  { case_decide as E; [done|]. destruct Hscan as [|Hscan]; [done|]. by destruct (scoped_scan ctx (ListFilter_ScanID n) q). }
  cbn [mbind result_bind]. fold (matching scope n q t). set (rows := matching scope n q t).
  destruct (Z.of_nat (length rows) <=? ListFilter_Offset n) eqn:E1.
  { rewrite drop_ge by lia. by rewrite take_nil. }
  rewrite wrap64_id by (unfold in_int64, int64_min, int64_max; lia). set (end_ := Z.min _ _). destruct (end_ <? ListFilter_Offset n) eqn:E2; [unfold end_ in E2; lia|]. cbn. f_equal.
  unfold end_. destruct (Z.le_gt_cases (ListFilter_Offset n + ListFilter_Limit n + 1) (Z.of_nat (length rows))).
  - rewrite Z.min_l by lia. by replace (ListFilter_Offset n + ListFilter_Limit n + 1 - ListFilter_Offset n) with (ListFilter_Limit n + 1) by lia.
  - rewrite Z.min_r by lia. rewrite !take_ge; [done| |]; rewrite length_drop; lia.
Qed.

Lemma length_omap_le {A B} (f : A → option B) (l : list A) : (length (omap f l) ≤ length l)%nat.
Proof. induction l as [|x l IH]; cbn; [done|]. destruct (f x); cbn; lia. Qed.
Lemma matching_length scope f q t : (length (matching scope f q t) ≤ size (findings t))%nat.
Proof.
  unfold matching, sortFilteredFindings. rewrite sort_stable_perm. etransitivity; [apply length_omap_le|]. unfold scope_findings.
  etransitivity; [apply length_filter|]. rewrite length_fmap, map_range_perm, length_map_to_list. done.
Qed.
(** The findings of one scan with their triage, newest first. *)
Definition scan_targets (now : Z) (scope : Scope) (scanID : string) (w : FindingWorld) : list RepoFinding :=
  matching scope (NormalizeFindingListFilter now (page_filter now scanID 0)) (world_scans w) (world_findings w).
Lemma load_pages_all now ctx scope scanID w fuel : ∀ offset,
  RequireScope ctx = Ok scope → (TrimSpace scanID = "" ∨ is_ok (scoped_scan ctx (TrimSpace scanID) (world_scans w)) = true) →
  0 ≤ offset → Z.of_nat (size (findings (world_findings w))) + 1001 < 2 ^ 63 →
  (length (scan_targets now scope scanID w) < Z.to_nat offset + 1000 * fuel)%nat →
  offset ≤ Z.of_nat (length (scan_targets now scope scanID w)) →
  load_pages fuel now ctx scanID offset w = Some (Ok (enrichFindings (drop (Z.to_nat offset) (scan_targets now scope scanID w)))).
Proof.
  pose proof (matching_length scope (NormalizeFindingListFilter now (page_filter now scanID 0)) (world_scans w) (world_findings w)) as Hsize.
  fold (scan_targets now scope scanID w) in Hsize.
  induction fuel as [|fuel IH]; intros offset Hs Hscan Hoff Hbig Hlen Hle; [lia|]. cbn [load_pages].
  assert (offset <? 0 = false) as Eoff by lia.
  pose proof (ListFindingsFiltered_page now ctx scope (page_filter now scanID offset) (world_scans w) (world_findings w)) as Hpage.
  cbv zeta in Hpage.
  assert (matching scope (NormalizeFindingListFilter now (page_filter now scanID offset)) (world_scans w) (world_findings w) =
    scan_targets now scope scanID w) as Em by done. rewrite Em in Hpage. clear Em.
  assert (ListFilter_ScanID (NormalizeFindingListFilter now (page_filter now scanID offset)) = TrimSpace scanID) as Ei by done.
  assert (ListFilter_Offset (NormalizeFindingListFilter now (page_filter now scanID offset)) = offset) as Eo by (cbn; by rewrite Eoff).
  assert (ListFilter_Limit (NormalizeFindingListFilter now (page_filter now scanID offset)) = 1000) as El by done.
  rewrite Ei, Eo, El in Hpage. rewrite Hpage; [|done|done|lia]. set (all := scan_targets now scope scanID w) in *. clear Hpage.
  change (Z.to_nat (1000 + 1)) with 1001%nat. unfold findingBaselineImportPageSize. rewrite length_take, length_drop.
  destruct (Z.of_nat (1001 `min` (length all - Z.to_nat offset)) <=? 1000) eqn:E.
  - do 3 f_equal. apply take_ge. rewrite length_drop. clear -E. apply Z.leb_le in E. lia.
  - assert (1000 < length all - Z.to_nat offset)%nat as Hmore by (clear -E; apply Z.leb_gt in E; lia).
    rewrite IH; [|done..|clear -Hoff; lia|done|clear -Hlen Hoff; lia|clear -Hmore Hoff; lia]. rewrite take_take. change (Z.to_nat 1000 `min` 1001)%nat with 1000%nat.
    do 2 f_equal. unfold enrichFindings. rewrite <-fmap_app. f_equal. replace (Z.to_nat (offset + 1000)) with (Z.to_nat offset + 1000)%nat by lia.
    rewrite <-drop_drop. apply take_drop.
Qed.
End pages.

(** ** What an import does *)
Section import.
Context `{MapRange, SortSlice, FloatParser, URLParser, BundleCodec} (defaultScope : Scope) (json_Marshal : BaselinePayload → option string).

(** Without the fingerprint a finding scores at most 0.85. *)
Lemma partial_score (id ty severity title path : bool) :
  float_ltb (roundConfidenceScore (raise false 15 (raise path 10 (raise title 10 (raise severity 10 (raise ty 15 (raise id 40 float_zero))))))
    ) findingBaselineImportMatchThreshold = true.
Proof. by destruct id, ty, severity, title, path; vm_compute. Qed.
Lemma score_exact entry f :
  TrimSpace (Entry_MatchFingerprint entry) ≠ "" →
  float_ltb (scoreFindingBaselineMatch json_Marshal entry f) findingBaselineImportMatchThreshold = false →
  findingBaselineFingerprint json_Marshal f = TrimSpace (Entry_MatchFingerprint entry).
Proof.
  intros Hne. unfold scoreFindingBaselineMatch. cbv zeta. set (fp := findingBaselineFingerprint json_Marshal f).
  destruct (decide (fp = TrimSpace (Entry_MatchFingerprint entry))) as [->|Hdiff]; [done|].
  rewrite !(bool_decide_eq_false_2 (TrimSpace (Entry_MatchFingerprint entry) = fp)) by congruence.
  rewrite andb_false_r, partial_score. done.
Qed.

(** A reason to suppress one of the [targets]: an entry that has not run out
    and has exactly its fingerprint, and its id or no other candidate. *)
Definition justified (now : Z) (targets : list RepoFinding) (entries : list FindingBaselineEntry) (findingID : string)
    (request : FindingTriageRequest) : Prop :=
  ∃ entry f expires comment,
    entry ∈ entries ∧ f ∈ targets ∧ RF_ID f = findingID ∧
    Entry_SuppressionExpiresAt entry = Some expires ∧ now < expires ∧ request = import_request comment entry expires ∧
    findingBaselineFingerprint json_Marshal f = TrimSpace (Entry_MatchFingerprint entry) ∧
    (TrimSpace (RF_ID f) = TrimSpace (Entry_FindingID entry) ∨
     targets_by_fingerprint json_Marshal targets (TrimSpace (Entry_MatchFingerprint entry)) = [f]).

Lemma target_by_id_Some targets id f : target_by_id targets id = Some f → f ∈ targets ∧ TrimSpace (RF_ID f) = id.
Proof.
  intros E. apply last_Some_elem_of in E. by apply list_elem_of_filter in E as [? ?].
Qed.
Lemma targets_by_fingerprint_elem targets fp f : f ∈ targets_by_fingerprint json_Marshal targets fp → f ∈ targets.
Proof. unfold targets_by_fingerprint. case_decide; [set_solver|]. rewrite list_elem_of_filter. tauto. Qed.
Lemma resolve_inl entry targets f : resolveBaselineImportFinding json_Marshal entry targets = inl f →
  f ∈ targets ∧ (TrimSpace (RF_ID f) = TrimSpace (Entry_FindingID entry) ∨
                 targets_by_fingerprint json_Marshal targets (TrimSpace (Entry_MatchFingerprint entry)) = [f]).
Proof.
  unfold resolveBaselineImportFinding. destruct (target_by_id _ _) as [g|] eqn:E.
  - intros [= ->]. apply target_by_id_Some in E as [? ?]. auto.
  - destruct (targets_by_fingerprint _ _ _) as [|g [|? ?]] eqn:E2; [done| |done]. intros [= ->]. split; [|by right].
    eapply targets_by_fingerprint_elem. rewrite E2. set_solver.
Qed.
Lemma plan_entry_inl now targets entries comment entry f expires : entry ∈ entries → TrimSpace (Entry_MatchFingerprint entry) ≠ "" →
  plan_entry json_Marshal now targets entry = inl (f, expires) →
  justified now targets entries (RF_ID f) (import_request comment entry expires).
Proof.
  intros Hin Hne. unfold plan_entry. destruct (Entry_SuppressionExpiresAt entry) as [t|] eqn:Et; [|done].
  destruct (After t now) eqn:Ea; [cbn [negb]|done]. destruct (resolveBaselineImportFinding _ _ _) as [g|] eqn:Er; [|done]. cbv zeta.
  destruct (float_ltb _ _) eqn:El; [done|]. destruct (already_suppressed entry g); [done|]. intros [= -> ->].
  apply resolve_inl in Er as [? ?]. unfold After in Ea. exists entry, f, expires, comment. split_and!; try done; [lia|by apply score_exact].
Qed.

(** Everything an import changes, it changes by such suppressions. *)
Definition suppressions (now : Z) (ctx : Context) (scanID actor : string) (targets : list RepoFinding)
    (entries : list FindingBaselineEntry) (calls : list triage_call) : Prop :=
  Forall (λ c, Call_Now c = now ∧ Call_Context c = ctx ∧ Call_ScanID c = scanID ∧ Call_Actor c = actor ∧
               justified now targets entries (Call_FindingID c) (Call_Request c)) calls.
(** The finding an entry points at: the one with its id or, if no finding has
    it, the only one with its fingerprint. *)
Definition pointed (targets : list RepoFinding) (entry : FindingBaselineEntry) (f : RepoFinding) : Prop :=
  target_by_id targets (TrimSpace (Entry_FindingID entry)) = Some f ∨
  (target_by_id targets (TrimSpace (Entry_FindingID entry)) = None ∧
   targets_by_fingerprint json_Marshal targets (TrimSpace (Entry_MatchFingerprint entry)) = [f]).
(** The entry asks for a suppression: it has not run out, it points at a
    finding that has its fingerprint, and that is not suppressed just so. *)
Definition importable (now : Z) (targets : list RepoFinding) (entry : FindingBaselineEntry) : Prop :=
  ∃ f expires, Entry_SuppressionExpiresAt entry = Some expires ∧ now < expires ∧ pointed targets entry f ∧
    findingBaselineFingerprint json_Marshal f = TrimSpace (Entry_MatchFingerprint entry) ∧ already_suppressed entry f = false.
Definition is_applied (i : FindingBaselineImportItem) : Prop := Item_Status i = "applied".
Definition is_rejected (i : FindingBaselineImportItem) : Prop := Item_Status i = "skipped" ∧ Item_Reason i = "finding triage update rejected".
#[export] Instance is_applied_dec i : Decision (is_applied i).
Proof. unfold is_applied. apply _. Defined.
#[export] Instance is_rejected_dec i : Decision (is_rejected i).
Proof. unfold is_rejected. apply _. Defined.
(** What is reported for an entry. *)
Definition item_reports (now : Z) (targets : list RepoFinding) (entry : FindingBaselineEntry) (item : FindingBaselineImportItem) : Prop :=
  Item_BaselineFindingID item = TrimSpace (Entry_FindingID entry) ∧
  ((importable now targets entry ∧ (is_applied item ∨ is_rejected item)) ∨
   (¬ importable now targets entry ∧ Item_Status item = "skipped" ∧ ¬ is_rejected item)).
Record import_report (now : Z) (targets : list RepoFinding) (entries : list FindingBaselineEntry) (calls : list triage_call)
    (r r' : FindingBaselineImportResult) : Prop := {
  report_scan : ImportResult_ScanID r' = ImportResult_ScanID r;
  report_items : ∃ items, ImportResult_Items r' = ImportResult_Items r ++ items ∧ Forall2 (item_reports now targets) entries items ∧
    length calls = length (filter (λ i, is_applied i ∨ is_rejected i) items) ∧
    ImportResult_AppliedCount r' = ImportResult_AppliedCount r + Z.of_nat (length (filter is_applied items)) ∧
    ImportResult_AppliedCount r' + ImportResult_SkippedCount r' =
      ImportResult_AppliedCount r + ImportResult_SkippedCount r + Z.of_nat (length items);
}.

Lemma resolve_pointed entry targets f : resolveBaselineImportFinding json_Marshal entry targets = inl f ↔ pointed targets entry f.
Proof.
  unfold resolveBaselineImportFinding, pointed. destruct (target_by_id _ _) as [g|]; [split; [by intros [= ->]; left|by intros [[= ->]|[? ?]]]|].
  destruct (targets_by_fingerprint _ _ _) as [|g [|? ?]]; (split; [intros [=]|intros [[=]|[_ [=]]]]); subst; auto.
Qed.
Lemma exact_score entry f : TrimSpace (Entry_MatchFingerprint entry) ≠ "" →
  findingBaselineFingerprint json_Marshal f = TrimSpace (Entry_MatchFingerprint entry) →
  float_ltb (scoreFindingBaselineMatch json_Marshal entry f) findingBaselineImportMatchThreshold = false.
Proof.
  intros Hne Hf. unfold scoreFindingBaselineMatch. rewrite Hf, bool_decide_eq_false_2, bool_decide_eq_true_2 by done. cbn [negb andb].
  destruct (same_text _ _); by vm_compute.
Qed.
(** An entry is planned exactly when it is importable. *)
Lemma plan_entry_spec now targets entry : TrimSpace (Entry_MatchFingerprint entry) ≠ "" →
  match plan_entry json_Marshal now targets entry with
  | inl _ => importable now targets entry
  | inr (reason, _, _) => ¬ importable now targets entry ∧ reason ≠ "finding triage update rejected"
  end.
Proof.
  intros Hne. unfold plan_entry, importable. destruct (Entry_SuppressionExpiresAt entry) as [t|]; [|split; [by intros (? & ? & ? & _)|done]].
  destruct (After t now) eqn:Ea; unfold After in Ea; cbn [negb]; [|split; [intros (? & ? & [= <-] & ? & _); lia|done]].
  destruct (resolveBaselineImportFinding json_Marshal entry targets) as [f|reason] eqn:Er.
  - pose proof (proj1 (resolve_pointed _ _ _) Er) as Hp. cbv zeta.
    assert (∀ g, pointed targets entry g → g = f) as Huniq by (intros g Hg; apply resolve_pointed in Hg; rewrite Er in Hg; by injection Hg).
    destruct (float_ltb _ _) eqn:El.
    { split; [|done]. intros (g & e & _ & _ & Hg & Hfp & _). rewrite (Huniq g Hg) in Hfp. by rewrite exact_score in El. }
    destruct (already_suppressed entry f) eqn:Es.
    { split; [|done]. intros (g & e & _ & _ & Hg & _ & Hno). by rewrite (Huniq g Hg), Es in Hno. }
    exists f, t. split_and!; [done|lia|done|by apply score_exact|done].
  - split.
    + intros (g & e & _ & _ & Hg & _). apply resolve_pointed in Hg. by rewrite Er in Hg.
    + unfold resolveBaselineImportFinding in Er. destruct (target_by_id _ _); [done|].
      destruct (targets_by_fingerprint _ _ _) as [|? [|? ?]]; [by injection Er as <-|done|by injection Er as <-].
Qed.
(** Reporting one more item, for the entry and the calls made for it. *)
Lemma import_report_cons now targets entry entries item c calls r r' :
  item_reports now targets entry item → (Item_Status item = "applied" ∨ Item_Status item = "skipped") →
  length c = length (filter (λ i, is_applied i ∨ is_rejected i) [item]) →
  import_report now targets entries calls (add_item item r) r' → import_report now targets (entry :: entries) (c ++ calls) r r'.
Proof.
  intros Hitem Hstatus Hc [Hid (items & Hitems & Hall & Hcalls & Happ & Hsum)]. split; [done|]. exists (item :: items).
  unfold add_item in Hitems, Happ, Hsum. cbn in Hitems, Happ, Hsum. split; [by rewrite Hitems, <-app_assoc|]. split; [by constructor|].
  change (item :: items) with ([item] ++ items). rewrite !filter_app, !length_app, Hc, Hcalls. split; [done|].
  rewrite Happ. rewrite Happ in Hsum. unfold is_applied in *. rewrite filter_cons, filter_nil.
  destruct (decide (Item_Status item = "applied")) as [E|E].
  - rewrite bool_decide_eq_true_2 in Hsum |- * by done. cbn [length]. lia.
  - rewrite bool_decide_eq_false_2 in Hsum |- * by done. cbn [length]. lia.
Qed.
Lemma import_entries_calls now fresh ctx scanID comment actor targets all entries : ∀ n r w,
  (∀ e, e ∈ entries → e ∈ all ∧ TrimSpace (Entry_MatchFingerprint e) ≠ "") →
  ∃ calls, suppressions now ctx scanID actor targets all calls ∧
    (import_entries defaultScope json_Marshal now fresh n ctx scanID comment actor targets entries r w).1 =
      foldl (after_triage defaultScope) w calls ∧
    ∀ r', (import_entries defaultScope json_Marshal now fresh n ctx scanID comment actor targets entries r w).2 = Ok r' →
      import_report now targets entries calls r r'.
Proof.
  induction entries as [|entry entries IH]; intros n r w Hin; cbn [import_entries].
  { exists []. split; [by constructor|]. split; [done|]. cbn. intros r' [= <-]. split; [done|]. exists []. rewrite app_nil_r.
    split_and!; [done|constructor|done|cbn; lia|cbn; lia]. }
  assert (∀ item w1 c, suppressions now ctx scanID actor targets all c → w1 = foldl (after_triage defaultScope) w c →
    item_reports now targets entry item → (Item_Status item = "applied" ∨ Item_Status item = "skipped") →
    length c = length (filter (λ i, is_applied i ∨ is_rejected i) [item]) →
    let out := import_entries defaultScope json_Marshal now fresh (S n) ctx scanID comment actor targets entries (add_item item r) w1 in
    ∃ calls, suppressions now ctx scanID actor targets all calls ∧ out.1 = foldl (after_triage defaultScope) w calls ∧
      ∀ r', out.2 = Ok r' → import_report now targets (entry :: entries) calls r r') as Hnext.
  { intros item w1 c Hc -> Hitem Hstatus Hlen out. destruct (IH (S n) (add_item item r) (foldl (after_triage defaultScope) w c)) as (calls & Hcalls & Hw & Hr).
    { intros e He. apply Hin. set_solver. }
    exists (c ++ calls). split; [by apply Forall_app|]. split; [by rewrite foldl_app|]. intros r' Hr'. by eapply import_report_cons; [..|apply Hr]. }
  destruct (Hin entry) as [Hall Hne]; [set_solver|]. pose proof (plan_entry_spec now targets entry Hne) as Hplan.
  destruct (plan_entry json_Marshal now targets entry) as [[f expires]|[[reason findingID] score]] eqn:Ep.
  2: { destruct Hplan as [Hno Hreason]. assert (¬ is_rejected (skipped entry reason findingID score)) as Hnr by (intros [_ E]; by apply Hreason).
    apply (Hnext _ w []); [by constructor|done|split; [done|by right]|by right|].
    rewrite filter_cons, decide_False, filter_nil; [done|]. by intros [|]. }
  pose (c := mkTriageCall now (fresh n) ctx (RF_ID f) scanID (import_request comment entry expires) actor).
  assert (suppressions now ctx scanID actor targets all [c]) as Hc.
  { apply Forall_singleton. split_and!; try done. by apply (plan_entry_inl now targets all comment entry). }
  cbv zeta. destruct (TriageFinding _ _ _ _ _ _ _ _ _) as [w1 out] eqn:Et.
  assert (w1 = foldl (after_triage defaultScope) w [c]) as Hw1 by (cbn; unfold after_triage; cbn; by rewrite Et).
  destruct out as [updated|e]; [apply (Hnext _ w1 [c]); try done; [split; [done|left; split; [done|by left]]|by left]|].
  case_decide; [apply (Hnext _ w1 [c]); try done; [split; [done|left; split; [done|by right]]|by right]|].
  exists [c]. done.
Qed.

Lemma load_pages_missing now ctx scope scanID w : RequireScope ctx = Ok scope → TrimSpace scanID ≠ "" →
  is_ok (scoped_scan ctx (TrimSpace scanID) (world_scans w)) = false →
  ∃ e, load_pages (load_fuel w) now ctx scanID 0 w = Some (Err e).
Proof.
  intros Hs Hne Hscan. unfold load_fuel. cbn [load_pages]. unfold FindingStore.ListFindingsFiltered. rewrite Hs. cbn [mbind result_bind].
  change (ListFilter_ScanID _) with (TrimSpace scanID). rewrite decide_False by done.
  destruct (scoped_scan ctx (TrimSpace scanID) (world_scans w)) as [?|e]; [done|]. by exists e.
Qed.
(** ** Which scan *)
Definition scope_scan (scope : Scope) (q : QueueState) (scan : ScanRecord) : Prop :=
  ∃ id, id ∈ scanIDs q ∧ scan = default zero_scan (scans q !! id) ∧ in_scope scope scan = true.
(** The requested scan or, if none is named, a scan of the scope that started last. *)
Definition target_scan (scope : Scope) (request : FindingBaselineImportRequest) (w : FindingWorld) (scanID : string) : Prop :=
  let requested := TrimSpace (Import_ScanID request) in
  (requested ≠ "" ∧ scanID = requested) ∨
  (requested = "" ∧ ∃ scan, scope_scan scope (world_scans w) scan ∧ scanID = Scan_ID scan ∧
     ∀ other, scope_scan scope (world_scans w) other → Scan_StartedAt other ≤ Scan_StartedAt scan).
Definition scan_exists (ctx : Context) (w : FindingWorld) (scanID : string) : Prop :=
  TrimSpace scanID = "" ∨ is_ok (scoped_scan ctx (TrimSpace scanID) (world_scans w)) = true.
Definition valid_baseline (request : FindingBaselineImportRequest) : Prop :=
  TrimSpace (Baseline_SchemaVersion (Import_Baseline request)) = findingBaselineSchemaVersion ∧ Baseline_Items (Import_Baseline request) ≠ [] ∧
  ∀ e, e ∈ Baseline_Items (Import_Baseline request) → TrimSpace (Entry_FindingID e) ≠ "" ∧ TrimSpace (Entry_MatchFingerprint e) ≠ "".

Lemma validate_spec request : match validateFindingBaselineImportRequest request with Ok _ => valid_baseline request | Err _ => ¬ valid_baseline request end.
Proof.
  unfold validateFindingBaselineImportRequest, guard_err, valid_baseline. cbv zeta. set (items := Baseline_Items (Import_Baseline request)).
  destruct (bool_decide (TrimSpace (Baseline_SchemaVersion _) = _)) eqn:E1; cbn [mbind result_bind]; [|apply bool_decide_eq_false in E1; tauto].
  destruct (bool_decide (items = [])) eqn:E2; cbn [negb mbind result_bind]; [apply bool_decide_eq_true in E2; tauto|].
  apply bool_decide_eq_true in E1. apply bool_decide_eq_false in E2.
  assert (∀ e, named (Entry_FindingID e) && named (Entry_MatchFingerprint e) = true ↔
    TrimSpace (Entry_FindingID e) ≠ "" ∧ TrimSpace (Entry_MatchFingerprint e) ≠ "") as Hnamed
    by (intros e; unfold named; by rewrite andb_true_iff, !negb_true_iff, !bool_decide_eq_false).
  destruct (forallb _ _) eqn:E3.
  - rewrite forallb_forall in E3. split_and!; [done|done|]. intros e He. by apply Hnamed, E3, list_elem_of_In.
  - intros (_ & _ & Hall). enough (forallb (λ e, named (Entry_FindingID e) && named (Entry_MatchFingerprint e)) items = true) by congruence.
    apply forallb_forall. intros e He. by apply Hnamed, Hall, list_elem_of_In.
Qed.
Lemma scan_or_latest_spec ctx scope request w : RequireScope ctx = Ok scope →
  match scan_or_latest defaultScope ctx (Import_ScanID request) w with
  | Ok scanID => target_scan scope request w scanID
  | Err _ => ∀ scanID, ¬ target_scan scope request w scanID
  end.
Proof.
  intros Hs. unfold scan_or_latest, target_scan, latestScanID, ListScans. rewrite (scope_context_scoped defaultScope ctx scope) by done.
  case_decide as E; [|by left]. rewrite Hs. cbn [mbind result_bind mret result_ret]. set (rows := filter _ _).
  assert (∀ scan, scan ∈ rows ↔ scope_scan scope (world_scans w) scan) as Hrows.
  { intros scan. unfold rows, scope_scan. rewrite list_elem_of_filter, list_elem_of_fmap. split.
    - intros [Hin (id & -> & Hid)]. by exists id.
    - intros (id & Hid & -> & Hin). split; [done|]. by exists id. }
  pose proof (sort_slice_less_of (λ a b, Z.compare (Scan_StartedAt b) (Scan_StartedAt a)) rows) as Hsorted.
  change (λ l r : ScanRecord, After (Scan_StartedAt l) (Scan_StartedAt r)) with (λ a b : ScanRecord, Scan_StartedAt b <? Scan_StartedAt a).
  assert (sort_slice (λ a b : ScanRecord, Scan_StartedAt b <? Scan_StartedAt a) rows =
    sort_slice (less_of (λ a b : ScanRecord, Z.compare (Scan_StartedAt b) (Scan_StartedAt a))) rows) as -> by done.
  specialize (Hsorted (compare_ok_flip _ (compare_ok_on Scan_StartedAt _ compare_ok_Z))).
  assert (∀ scan, scan ∈ sort_slice (less_of (λ a b : ScanRecord, Z.compare (Scan_StartedAt b) (Scan_StartedAt a))) rows ↔
    scope_scan scope (world_scans w) scan) as Hin by (intros scan; by rewrite elem_of_sort_slice).
  destruct (sort_slice _ rows) as [|scan rest].
  { cbn. intros scanID [[? _]|(_ & scan & Hscan & _)]; [done|]. apply Hin in Hscan. by apply elem_of_nil in Hscan. }
  assert (∃ tail, truncate (default_limit 1) (scan :: rest) = scan :: tail) as [tail ->] by (unfold truncate; cbn; by destruct (_ <? _); eauto).
  right. split; [done|]. exists scan. split; [apply Hin; set_solver|]. split; [done|]. intros other Hother. apply Hin in Hother.
  apply StronglySorted_inv in Hsorted as [_ Hhd]. apply elem_of_cons in Hother as [->|Hother]; [lia|].
  eapply Forall_forall in Hhd; [|exact Hother]. exact Hhd.
Qed.

(** C15. Importing a baseline changes the store only by suppressing findings of
    the target scan (the scan the request names or, if it names none, the latest
    of the scope), one request of the acting user per suppression: each for an
    entry of the baseline that has not run out, until that entry's expiry, and
    for a finding whose fingerprint is exactly the entry's and which has the
    entry's id or is the only one of the scan with that fingerprint. All findings
    of the scan are considered, however many pages they take. An import refuses
    only an invalid baseline or a missing scan. When it ends without an error
    every entry is reported once and in order, as applied or rejected by the
    workflow if it asks for a suppression and as skipped if it does not, and the
    counts are those of the report. *)
Theorem import_only_exact_matches now fresh ctx scope request actor w
    (Hscope : RequireScope ctx = Ok scope) (Hsize : Z.of_nat (size (findings (world_findings w))) + 1001 < 2 ^ 63) :
  let out := ImportFindingBaseline defaultScope json_Marshal now fresh ctx request actor w in
  let entries := Baseline_Items (Import_Baseline request) in
  (∃ e, out = (w, Err e) ∧ (¬ valid_baseline request ∨ (∀ scanID, ¬ target_scan scope request w scanID) ∨
     ∃ scanID, target_scan scope request w scanID ∧ ¬ scan_exists ctx w scanID)) ∨
  ∃ scanID calls,
    let targets := enrichFindings (scan_targets now scope scanID w) in
    valid_baseline request ∧ target_scan scope request w scanID ∧ scan_exists ctx w scanID ∧
    suppressions now ctx scanID actor targets entries calls ∧
    out.1 = foldl (after_triage defaultScope) w calls ∧
    ∀ r, out.2 = Ok r →
      ImportResult_ScanID r = scanID ∧ Forall2 (item_reports now targets) entries (ImportResult_Items r) ∧
      length calls = length (filter (λ i, is_applied i ∨ is_rejected i) (ImportResult_Items r)) ∧
      ImportResult_AppliedCount r = Z.of_nat (length (filter is_applied (ImportResult_Items r))) ∧
      ImportResult_AppliedCount r + ImportResult_SkippedCount r = Z.of_nat (length entries).
Proof.
  intros out entries. subst out entries. unfold ImportFindingBaseline. rewrite (scope_context_scoped defaultScope ctx scope) by done.
  pose proof (validate_spec request) as Hvalid. destruct (validateFindingBaselineImportRequest request) as [[]|e]; [|left; exists e; auto].
  cbn [mbind result_bind]. pose proof (scan_or_latest_spec ctx scope request w Hscope) as Htarget.
  destruct (scan_or_latest defaultScope ctx (Import_ScanID request) w) as [scanID|e]; [|left; exists e; auto]. cbn [mbind result_bind].
  assert (scan_exists ctx w scanID ∨ ¬ scan_exists ctx w scanID) as [Hscan|Hscan] by (unfold scan_exists; destruct (is_ok _), (decide (TrimSpace scanID = "")); tauto || naive_solver).
  - right. pose proof (matching_length scope (NormalizeFindingListFilter now (page_filter now scanID 0)) (world_scans w) (world_findings w)) as Hl.
    rewrite (load_pages_all now ctx scope scanID w (load_fuel w) 0); [|done|done|lia|done| |lia].
    2:{ unfold load_fuel, scan_targets. clear -Hl. lia. }
    cbn [default mbind result_bind mret result_ret]. cbv zeta. rewrite drop_0.
    set (comment := if decide (TrimSpace (Import_Comment request) = "") then _ else _). clearbody comment.
    edestruct (import_entries_calls now fresh ctx scanID comment actor (enrichFindings (scan_targets now scope scanID w))
      (Baseline_Items (Import_Baseline request)) (Baseline_Items (Import_Baseline request)) 0 (mkImportResult scanID now 0 0 []) w)
      as (calls & Hcalls & Hw & Hr).
    { intros e He. split; [done|]. by apply Hvalid in He as [_ ?]. }
    exists scanID, calls. split; [done|]. split; [done|]. split; [done|]. split; [done|]. split; [done|]. intros r Hok.
    apply Hr in Hok as [Hid (items & Hitems & Hall & Hlen & Happ & Hsum)]. cbn in Hid, Hitems, Happ, Hsum. rewrite Hitems.
    pose proof (Forall2_length _ _ _ Hall) as Hn. split_and!; [done|done|done|lia|lia].
  - left. assert (TrimSpace scanID ≠ "" ∧ is_ok (scoped_scan ctx (TrimSpace scanID) (world_scans w)) ≠ true) as [Hne Hbad] by (unfold scan_exists in Hscan; tauto).
    apply not_true_is_false in Hbad. destruct (load_pages_missing now ctx scope scanID w) as [e ->]; [done..|]. exists e. split; [done|]. right. right.
    by exists scanID.
Qed.
End import.

(** ** An import

    The suppression of a finding of one scan is exported and imported in another,
    where a finding of another id has the same fingerprint. *)
Definition sample_marshal (p : BaselinePayload) : option string := Some (Payload_Type p +:+ "|" +:+ Payload_Severity p).
Definition sample_codec : BundleCodec := {| sha256_hex := λ s, s; json_Valid := λ _, true |}.
Definition two_scans : FindingWorld :=
  let q := mkQueue {[ "s1" := sample_triage_scan "s1" 1; "s2" := sample_triage_scan "s2" 5 ]} ["s1"; "s2"] in
  let t := ok_or empty_finding_tables (UpsertFindings (Some sample_triage_scope) "s1" [sample_finding "s1" "f" "high" 2] q empty_finding_tables) in
  mkFindingWorld q (ok_or t (UpsertFindings (Some sample_triage_scope) "s2"
    [sample_finding "s2" "g" "high" 6; sample_finding "s2" "h" "low" 7] q t)) empty_repo_tables.
Definition suppressed_in_s1 : FindingWorld :=
  @after_triage canonical_range insertion_sort sample_float_parser sample_url_parser sample_triage_scope two_scans suppress_call.
Definition exported : FindingBaseline :=
  ok_or (mkFindingBaseline "" "" 0 "" [])
    (@ExportFindingBaseline canonical_range insertion_sort sample_float_parser sample_url_parser sample_codec sample_triage_scope sample_marshal
       (Call_Now suppress_call) (Some sample_triage_scope) "s1" 0 suppressed_in_s1).
Definition sample_import : FindingWorld * result FindingBaselineImportResult :=
  @ImportFindingBaseline canonical_range insertion_sort sample_float_parser sample_url_parser sample_codec sample_triage_scope sample_marshal
    (Call_Now suppress_call) (λ n, "import" +:+ Itoa (Z.of_nat n)) (Some sample_triage_scope) (mkImportRequest "" exported "") "bo" suppressed_in_s1.
Lemma sample_import_items :
  match sample_import.2 with
  | Ok r => (λ i, (Item_BaselineFindingID i, Item_FindingID i, Item_Status i)) <$> ImportResult_Items r = [("f", "g", "applied")]
  | Err _ => False
  end ∧
  (TriageState_Status <$> triageStates (world_findings sample_import.1) !! "acme|prod|g") = Some FindingLifecycleSuppressed.
Proof. by vm_compute. Qed.
Lemma import_only_exact_matches_witness :
  ∃ calls, sample_import.1 = foldl (@after_triage canonical_range insertion_sort sample_float_parser sample_url_parser sample_triage_scope)
    suppressed_in_s1 calls ∧ calls ≠ [].
Proof.
  destruct (@import_only_exact_matches canonical_range insertion_sort sample_float_parser sample_url_parser sample_codec sample_triage_scope
    sample_marshal (Call_Now suppress_call) (λ n, "import" +:+ Itoa (Z.of_nat n)) (Some sample_triage_scope) sample_triage_scope
    (mkImportRequest "" exported "") "bo" suppressed_in_s1) as [(e & He & _)|(scanID & calls & _ & _ & _ & _ & Hw & _)]; [done|by vm_compute| |].
  { destruct sample_import_items as [Hok _]. change (sample_import = (suppressed_in_s1, Err e)) in He. rewrite He in Hok. destruct Hok. }
  exists calls. split; [exact Hw|]. intros ->. destruct sample_import_items as [_ Hs]. change (sample_import.1 = suppressed_in_s1) in Hw.
  rewrite Hw in Hs. by vm_compute in Hs.
Defined.
