(* ===== verification/WorkspaceService.v ===== *)
(** * Workspaces, members and projects behind the API (internal/api/service.go)

    What the service checks before it touches the tenancy tables: who may end or
    revive a workspace, who may change its members, which account a member row
    is bound to, and which workspaces a subject is shown.  The store calls of one
    request are one step; audit events and counters are not modelled. *)
From S2P Require Import Prelude GoStrings GoCollections GoTime Scope AuthzRecords AuthzStore TenancyRecords Tenancy Accounts RequestRoles FindingTriage FindingReports.

Definition ErrInvalidTenancyRequest : error := Sentinel "invalid tenancy request".
Definition ErrWorkspaceAccessDenied : error := Sentinel "workspace access denied".
Definition ErrWorkspaceSoleOwnerRequiresTransfer : error := Sentinel "workspace sole owner requires transfer".
Definition ErrWorkspaceDeletionGraceExpired : error := Sentinel "workspace deletion grace period has expired".
Definition ErrWorkspaceOwnerRequired : error := Sentinel "workspace owner role required".
Definition ErrWorkspaceAdminRequired : error := Sentinel "workspace admin role required".
Definition ErrWorkspaceNotReactivatable : error := Sentinel "workspace is not suspended".
Definition ErrWorkspaceNotSuspendable : error := Sentinel "workspace is not suspendable".
Definition ErrWorkspaceDeletionNotPending : error := Sentinel "workspace deletion is not pending".

(** Markers for callers without a subject; no subject starts with a NUL byte. *)
Definition workspaceMemberAPIKeyCaller : string := String "000" "identrail-api-key".
Definition workspaceMemberUnauthenticatedCaller : string := String "000" "identrail-unauthenticated".
Definition workspaceMemberCallerSubject (c : RequestContext) : string :=
  if decide (authContextString c "auth.subject" ≠ "") then authContextString c "auth.subject"
  else if decide (authContextString c "auth.api_key" ≠ "") then workspaceMemberAPIKeyCaller
  else workspaceMemberUnauthenticatedCaller.

Record OrganizationUpsertRequest := mkOrganizationRequest { OrgRequest_DisplayName : string; OrgRequest_Slug : string }.
Record WorkspaceUpsertRequest := mkWorkspaceRequest {
  WorkspaceRequest_WorkspaceID : string; WorkspaceRequest_DisplayName : string; WorkspaceRequest_Slug : string;
}.
Record WorkspaceMemberUpsertRequest := mkMemberRequest {
  MemberRequest_MemberID : string; MemberRequest_UserID : string; MemberRequest_Email : string;
  MemberRequest_Role : string; MemberRequest_Status : string;
}.
Record ProjectUpsertRequest := mkProjectRequest {
  ProjectRequest_ProjectID : string; ProjectRequest_Name : string; ProjectRequest_Slug : string;
  ProjectRequest_Description : string; ProjectRequest_ArchivedAt : option string;
}.
Record WorkspaceContext := mkWorkspaceContext {
  WorkspaceContext_Workspace : TenancyWorkspace;
  WorkspaceContext_Member : option TenancyWorkspaceMember;
  WorkspaceContext_IsActive : bool;
}.
Record WhoAmIContext := mkWhoAmI {
  WhoAmI_Scope : Scope;
  WhoAmI_ActiveWorkspace : option WorkspaceContext;
  WhoAmI_Workspaces : list WorkspaceContext;
}.
Record WorkspaceSoleOwnerStranding := mkStranding {
  Stranding_Workspace : TenancyWorkspace;
  Stranding_StrandedMembers : list TenancyWorkspaceMember;
}.
Definition zero_workspace : TenancyWorkspace := mkWorkspace "" "" "" "" "" None None time_zero time_zero.
Definition no_stranding : WorkspaceSoleOwnerStranding := mkStranding zero_workspace [].

(** Any error of the normalizers is reported as an invalid request. *)
Definition or_invalid {A} (r : result A) : result A := match r with Ok a => Ok a | Err _ => Err ErrInvalidTenancyRequest end.
Definition isValidUUID `{UUIDParser} (raw : string) : bool := negb (blank raw) && uuid_Parse (TrimSpace raw).
(** A filter of a list: a blank one lets everything through. *)
Definition matches_text (wanted value : string) : bool := bool_decide (canon wanted = "") || bool_decide (canon value = canon wanted).
Definition is_active (status : string) : bool := EqualFold (TrimSpace status) "active".

(** The lookups of members read the directory only. *)
Definition accounts (s : DirectoryState) : DirectoryState * (AuthzState * Z) := (s, (empty_authz_state, 0)).

Section service.
Context `{MapRange, SortSlice, UUIDParser} (defaultScope : Scope).

(** ** Organizations and workspaces *)
Definition GetOrganization (ctx : Context) (s : DirectoryState) : result TenancyOrganization :=
  Tenancy.GetOrganization (scope_context defaultScope ctx) s.
Definition UpsertOrganization (ctx : Context) (now : Z) (request : OrganizationUpsertRequest) (s : DirectoryState)
    : result (DirectoryState * TenancyOrganization) :=
  let ctx := scope_context defaultScope ctx in
  scope ← RequireScope ctx;
  normalized ← or_invalid (NormalizeTenancyOrganizationForWrite now
    (mkOrganization (Scope_TenantID scope) (OrgRequest_DisplayName request) (OrgRequest_Slug request) time_zero time_zero));
  s ← Tenancy.UpsertOrganization ctx now normalized s;
  saved ← Tenancy.GetOrganization ctx s;
  mret (s, saved).
Definition ListWorkspaces (ctx : Context) (limit : Z) (s : DirectoryState) : result (list TenancyWorkspace) :=
  Tenancy.ListWorkspaces (scope_context defaultScope ctx) limit s.
Definition UpsertWorkspace (ctx : Context) (now : Z) (request : WorkspaceUpsertRequest) (s : DirectoryState)
    : result (DirectoryState * TenancyWorkspace) :=
  let ctx := scope_context defaultScope ctx in
  '(scope, workspaceID) ← scoped_workspace ctx (WorkspaceRequest_WorkspaceID request);
  normalized ← or_invalid (NormalizeTenancyWorkspaceForWrite now
    (mkWorkspace (Scope_TenantID scope) workspaceID (WorkspaceRequest_DisplayName request) (WorkspaceRequest_Slug request) "" None None
       time_zero time_zero));
  s ← Tenancy.UpsertWorkspace ctx now normalized s;
  saved ← Tenancy.GetWorkspace ctx (Workspace_WorkspaceID normalized) s;
  mret (s, saved).
Definition GetWorkspace (ctx : Context) (workspaceID : string) (s : DirectoryState) : result TenancyWorkspace :=
  Tenancy.GetWorkspace (scope_context defaultScope ctx) (TrimSpace workspaceID) s.

(** ** The owner's gate and the lifecycle *)
Definition requireWorkspaceOwner (ctx : Context) (workspaceID callerUserUUID : string) (s : DirectoryState) : result unit :=
  _ ← Tenancy.GetWorkspace ctx workspaceID s;
  let uuid := TrimSpace callerUserUUID in
  _ ← guard_err (negb (bool_decide (uuid = ""))) ErrWorkspaceOwnerRequired;
  match GetWorkspaceMemberByUserUUID ctx workspaceID uuid s with
  | Err e => if errors_is e ErrNotFound then Err ErrWorkspaceOwnerRequired else Err e
  | Ok member =>
      active ← workspaceMemberAccountIsActive (accounts s) member;
      guard_err (active && bool_decide (Member_Role member = "owner")) ErrWorkspaceOwnerRequired
  end.
Definition checkWorkspaceSoleOwnerStranding (ctx : Context) (workspaceID callerUserUUID : string) (s : DirectoryState)
    : result WorkspaceSoleOwnerStranding :=
  workspace ← Tenancy.GetWorkspace ctx workspaceID s;
  if blank callerUserUUID then mret (mkStranding workspace [])
  else
    stranded ← ListWorkspaceStrandedActiveMembers ctx workspaceID callerUserUUID s;
    mret (mkStranding workspace stranded).
(** The stranding is shown with its own error, and empty otherwise. *)
Definition LifecycleOutcome : Type := WorkspaceSoleOwnerStranding * result (DirectoryState * TenancyWorkspace).
Definition refused (e : error) : LifecycleOutcome := (no_stranding, Err e).
Definition guard_stranding (stranding : result WorkspaceSoleOwnerStranding) (transition : result (DirectoryState * TenancyWorkspace))
    : LifecycleOutcome :=
  match stranding with
  | Err e => refused e
  | Ok stranding =>
      if decide (Stranding_StrandedMembers stranding = []) then (no_stranding, transition)
      else (stranding, Err ErrWorkspaceSoleOwnerRequiresTransfer)
  end.
(** [if errors.Is(err, db.ErrConflict) { return e }]. *)
Definition conflict_as {A} (e : error) (r : result A) : result A :=
  match r with Ok a => Ok a | Err err => if errors_is err ErrConflict then Err e else Err err end.
Definition is_deleted (w : TenancyWorkspace) : bool :=
  bool_decide (Workspace_Status w = WorkspaceStatusDeleted) || bool_decide (is_Some (Workspace_DeletedAt w)).

Definition SuspendWorkspace (ctx : Context) (workspaceID callerUserUUID : string) (now : Z) (s : DirectoryState) : LifecycleOutcome :=
  let ctx := scope_context defaultScope ctx in
  let id := TrimSpace workspaceID in
  match (_ ← guard_err (negb (bool_decide (id = ""))) ErrInvalidTenancyRequest;
         _ ← requireWorkspaceOwner ctx id callerUserUUID s;
         workspace ← Tenancy.GetWorkspace ctx id s;
         guard_err (negb (is_deleted workspace)) ErrWorkspaceNotSuspendable) with
  | Err e => refused e
  | Ok _ =>
      guard_stranding (checkWorkspaceSoleOwnerStranding ctx id callerUserUUID s)
        (conflict_as ErrWorkspaceNotSuspendable (Tenancy.SuspendWorkspace ctx id now s))
  end.
Definition ReactivateWorkspace (ctx : Context) (workspaceID callerUserUUID : string) (now : Z) (s : DirectoryState)
    : result (DirectoryState * TenancyWorkspace) :=
  let ctx := scope_context defaultScope ctx in
  let id := TrimSpace workspaceID in
  _ ← guard_err (negb (bool_decide (id = ""))) ErrInvalidTenancyRequest;
  _ ← requireWorkspaceOwner ctx id callerUserUUID s;
  workspace ← Tenancy.GetWorkspace ctx id s;
  if decide (Workspace_Status workspace = WorkspaceStatusActive) then mret (s, workspace)
  else if decide (Workspace_Status workspace = WorkspaceStatusSuspended)
  then conflict_as ErrWorkspaceNotReactivatable (Tenancy.ReactivateWorkspace ctx id now s)
  else Err ErrWorkspaceNotReactivatable.
Definition SoftDeleteWorkspace (ctx : Context) (workspaceID callerUserUUID : string) (now : Z) (s : DirectoryState) : LifecycleOutcome :=
  let ctx := scope_context defaultScope ctx in
  let id := TrimSpace workspaceID in
  match (_ ← guard_err (negb (bool_decide (id = ""))) ErrInvalidTenancyRequest; requireWorkspaceOwner ctx id callerUserUUID s) with
  | Err e => refused e
  | Ok _ => guard_stranding (checkWorkspaceSoleOwnerStranding ctx id callerUserUUID s) (Tenancy.SoftDeleteWorkspace ctx id now s)
  end.
Definition grace_over (now : Z) (w : TenancyWorkspace) : bool :=
  match Workspace_DeletedAt w with Some t => WorkspaceDeletionGracePeriod <? time_Sub now t | None => false end.
Definition CancelWorkspaceDeletion (ctx : Context) (workspaceID callerUserUUID : string) (now : Z) (s : DirectoryState)
    : result (DirectoryState * TenancyWorkspace) :=
  let ctx := scope_context defaultScope ctx in
  let id := TrimSpace workspaceID in
  _ ← guard_err (negb (bool_decide (id = ""))) ErrInvalidTenancyRequest;
  _ ← requireWorkspaceOwner ctx id callerUserUUID s;
  workspace ← Tenancy.GetWorkspace ctx id s;
  _ ← guard_err (negb (grace_over now workspace)) ErrWorkspaceDeletionGraceExpired;
  if decide (Workspace_Status workspace = WorkspaceStatusActive ∧ Workspace_DeletedAt workspace = None) then mret (s, workspace)
  else
    _ ← guard_err (is_deleted workspace) ErrWorkspaceDeletionNotPending;
    Tenancy.CancelWorkspaceDeletion ctx id now s.
Definition WorkspaceDeletionGraceDeadline (w : TenancyWorkspace) : Z :=
  match Workspace_DeletedAt w with None => time_zero | Some t => t + WorkspaceDeletionGracePeriod end.

(** ** The membership of a subject *)
Definition lookupWorkspaceMemberBySubject (c : RequestContext) (ctx : Context) (workspaceID subject : string) (s : DirectoryState)
    : result (option TenancyWorkspaceMember) :=
  let subject := TrimSpace subject in
  if decide (subject = "") then mret None
  else if decide (SubjectSource c = SubjectSourceSession) then
    match GetWorkspaceMemberByUserUUID ctx workspaceID subject s with
    | Err e => if errors_is e ErrNotFound then mret None else Err e
    | Ok member =>
        active ← workspaceMemberAccountIsActive (accounts s) member;
        mret (if (active : bool) then Some member else None)
    end
  else
    match lookupUserIdentityBySubject c (accounts s) subject with
    | Ok identity => lookupWorkspaceMemberForIdentity ctx (accounts s) workspaceID subject (Identity_UserID identity)
    | Err e =>
        if errors_is e ErrConflict then mret None
        else if negb (errors_is e ErrNotFound) then Err e
        else mret None
    end.
Definition is_admin (m : TenancyWorkspaceMember) : bool := bool_decide (canon (Member_Role m) ∈ ["owner"; "admin"]).
Definition active_member (m : TenancyWorkspaceMember) : bool := bool_decide (canon (Member_Status m) = "active").
Definition requireWorkspaceAdmin (c : RequestContext) (ctx : Context) (workspaceID callerSubject : string) (s : DirectoryState)
    : result unit :=
  _ ← Tenancy.GetWorkspace ctx workspaceID s;
  let caller := TrimSpace callerSubject in
  _ ← guard_err (negb (bool_decide (caller ∈ [workspaceMemberAPIKeyCaller; workspaceMemberUnauthenticatedCaller]))) ErrWorkspaceAdminRequired;
  if decide (caller = "") then mret tt
  else
    found ← lookupWorkspaceMemberBySubject c ctx workspaceID callerSubject s;
    match found with
    | None => Err ErrWorkspaceAdminRequired
    | Some member => guard_err (active_member member && is_admin member) ErrWorkspaceAdminRequired
    end.

(** ** Members *)
Definition ListWorkspaceMembers (ctx : Context) (workspaceID role status : string) (limit : Z) (s : DirectoryState)
    : result (list TenancyWorkspaceMember) :=
  let loadLimit := if limit <=? 0 then 100 else limit in
  let loadLimit := if negb (blank role && blank status) && (loadLimit <? 5000) then 5000 else loadLimit in
  items ← Tenancy.ListWorkspaceMembers (scope_context defaultScope ctx) (TrimSpace workspaceID) loadLimit s;
  mret (limit_positive limit (filter (λ m, matches_text role (Member_Role m) && matches_text status (Member_Status m) = true) items)).
(** [None] when there is no account; the identity of a subject used by two
    accounts is an invalid request. *)
Definition account_of_subject (subject : string) (s : DirectoryState) : result (option string) :=
  match GetUserIdentityBySubject subject s with
  | Ok identity => mret (Some (Identity_UserID identity))
  | Err e =>
      if errors_is e ErrNotFound then
        if isValidUUID subject then
          match GetUser subject s with
          | Ok user => mret (Some (User_ID user))
          | Err e => if errors_is e ErrNotFound then mret None else Err e
          end
        else mret None
      else if errors_is e ErrConflict then Err ErrInvalidTenancyRequest
      else Err e
  end.
Definition account_of_email (email : string) (s : DirectoryState) : result (option string) :=
  let email := TrimSpace email in
  if decide (email = "") then mret None
  else match GetUserByPrimaryEmail email s with
       | Ok user => mret (Some (User_ID user))
       | Err e => if errors_is e ErrNotFound then mret None else Err e
       end.
(** A missing account and an account with an empty id are told apart by nothing. *)
Definition nonempty_account (account : option string) : option string :=
  account ← account; if decide (account = "") then None else Some account.
Definition member_of_email (ctx : Context) (workspaceID email : string) (s : DirectoryState) : result TenancyWorkspaceMember :=
  account ← account_of_email email s;
  match account with
  | Some account => GetWorkspaceMemberByUserUUID ctx workspaceID account s
  | None => Err ErrNotFound
  end.
Definition findExistingWorkspaceMemberForTarget (ctx : Context) (workspaceID : string) (request : WorkspaceMemberUpsertRequest)
    (s : DirectoryState) : result TenancyWorkspaceMember :=
  let subject := TrimSpace (MemberRequest_UserID request) in
  let by_email := member_of_email ctx workspaceID (MemberRequest_Email request) s in
  if decide (subject = "") then by_email
  else
    match GetWorkspaceMemberByUserID ctx workspaceID subject s with
    | Ok member => mret member
    | Err e =>
        if negb (errors_is e ErrNotFound) then Err e
        else
          account ← account_of_subject subject s;
          match nonempty_account account with
          | None => by_email
          | Some account =>
              match GetWorkspaceMemberByUserUUID ctx workspaceID account s with
              | Ok member => mret member
              | Err e => if errors_is e ErrNotFound then by_email else Err e
              end
          end
    end.
Definition validateWorkspaceMemberUserUUID (userUUID status : string) (s : DirectoryState) : result string :=
  match GetUser (TrimSpace userUUID) s with
  | Err e => if errors_is e ErrNotFound then Err ErrInvalidTenancyRequest else Err e
  | Ok user =>
      _ ← guard_err (negb (is_active status && negb (is_active (User_Status user)))) ErrInvalidTenancyRequest;
      mret (User_ID user)
  end.
Definition differs (x : option string) (y : string) : bool := match x with Some x => negb (bool_decide (x = y)) | None => false end.
Definition resolveWorkspaceMemberUserUUID (request : WorkspaceMemberUpsertRequest) (existing : option TenancyWorkspaceMember)
    (s : DirectoryState) : result string :=
  let subject := TrimSpace (MemberRequest_UserID request) in
  let validated uuid := validateWorkspaceMemberUserUUID uuid (MemberRequest_Status request) s in
  _ ← guard_err (negb (bool_decide (subject = ""))) ErrInvalidTenancyRequest;
  account ← account_of_subject subject s;
  email ← account_of_email (MemberRequest_Email request) s;
  let account := nonempty_account account in
  let email := nonempty_account email in
  _ ← guard_err (negb (match email with Some email => differs account email | None => false end)) ErrInvalidTenancyRequest;
  let existingUUID := match existing with Some m => TrimSpace (Member_UserUUID m) | None => "" end in
  let existingSubject := match existing with Some m => TrimSpace (Member_UserID m) | None => "" end in
  if decide (existingUUID ≠ "") then
    _ ← guard_err (negb (differs account existingUUID || differs email existingUUID)) ErrInvalidTenancyRequest;
    _ ← guard_err (bool_decide (account = Some existingUUID) || bool_decide (email = Some existingUUID) ||
                   bool_decide (existingSubject = subject)) ErrInvalidTenancyRequest;
    validated existingUUID
  else
    match account, email with
    | Some account, _ => validated account
    | None, Some email => validated email
    | None, None =>
        _ ← guard_err (negb (is_active (MemberRequest_Status request))) ErrInvalidTenancyRequest;
        mret ""
    end.
Definition with_member_id (id : string) (request : WorkspaceMemberUpsertRequest) : WorkspaceMemberUpsertRequest :=
  mkMemberRequest id (MemberRequest_UserID request) (MemberRequest_Email request) (MemberRequest_Role request) (MemberRequest_Status request).
(** The request with the id of the row it is about, and that row. *)
Definition targeted_member (ctx : Context) (workspaceID : string) (request : WorkspaceMemberUpsertRequest) (s : DirectoryState)
    : result (WorkspaceMemberUpsertRequest * option TenancyWorkspaceMember) :=
  match Tenancy.GetWorkspaceMember ctx workspaceID (TrimSpace (MemberRequest_MemberID request)) s with
  | Ok existing => mret (request, Some existing)
  | Err e =>
      if negb (errors_is e ErrNotFound) then Err e
      else if blank (MemberRequest_MemberID request) then mret (request, None)
      else
        match findExistingWorkspaceMemberForTarget ctx workspaceID request s with
        | Ok existing => mret (with_member_id (Member_MemberID existing) request, Some existing)
        | Err e => if errors_is e ErrNotFound then mret (request, None) else Err e
        end
  end.
Definition requested_member (scope : Scope) (workspaceID uuid : string) (request : WorkspaceMemberUpsertRequest) : TenancyWorkspaceMember :=
  mkMember (Scope_TenantID scope) workspaceID (MemberRequest_MemberID request) (MemberRequest_UserID request) uuid
    (MemberRequest_Email request) (MemberRequest_Role request) (MemberRequest_Status request) time_zero time_zero.
Definition UpsertWorkspaceMemberAs (c : RequestContext) (now : Z) (workspaceID : string) (request : WorkspaceMemberUpsertRequest)
    (callerSubject : string) (s : DirectoryState) : result (DirectoryState * TenancyWorkspaceMember) :=
  let ctx := scope_context defaultScope (Req_Scope c) in
  '(scope, workspaceID) ← scoped_workspace ctx workspaceID;
  _ ← requireWorkspaceAdmin c ctx workspaceID callerSubject s;
  '(request, existing) ← targeted_member ctx workspaceID request s;
  uuid ← resolveWorkspaceMemberUserUUID request existing s;
  normalized ← or_invalid (NormalizeTenancyWorkspaceMemberForWrite now (requested_member scope workspaceID uuid request));
  s ← Tenancy.UpsertWorkspaceMember ctx now normalized s;
  saved ← Tenancy.GetWorkspaceMember ctx (Member_WorkspaceID normalized) (Member_MemberID normalized) s;
  mret (s, saved).
Definition UpsertWorkspaceMember (c : RequestContext) (now : Z) (workspaceID : string) (request : WorkspaceMemberUpsertRequest)
    (s : DirectoryState) : result (DirectoryState * TenancyWorkspaceMember) :=
  UpsertWorkspaceMemberAs c now workspaceID request "" s.
Definition GetWorkspaceMember (ctx : Context) (workspaceID memberID : string) (s : DirectoryState) : result TenancyWorkspaceMember :=
  Tenancy.GetWorkspaceMember (scope_context defaultScope ctx) (TrimSpace workspaceID) (TrimSpace memberID) s.
Definition DeleteWorkspaceMemberAs (c : RequestContext) (workspaceID memberID callerSubject : string) (s : DirectoryState)
    : result DirectoryState :=
  let ctx := scope_context defaultScope (Req_Scope c) in
  let id := TrimSpace workspaceID in
  _ ← requireWorkspaceAdmin c ctx id callerSubject s;
  Tenancy.DeleteWorkspaceMember ctx id (TrimSpace memberID) s.
Definition DeleteWorkspaceMember (c : RequestContext) (workspaceID memberID : string) (s : DirectoryState) : result DirectoryState :=
  DeleteWorkspaceMemberAs c workspaceID memberID "" s.

(** ** Projects *)
Definition parseTenancyArchivedAt (raw : option string) : result (option Z) :=
  match raw with
  | None => mret None
  | Some raw =>
      if blank raw then mret None
      else match Parse_RFC3339 (TrimSpace raw) with Some t => mret (Some t) | None => Err ErrInvalidTenancyRequest end
  end.
Definition ListProjects (ctx : Context) (workspaceID : string) (includeArchived : bool) (limit : Z) (s : DirectoryState)
    : result (list TenancyProject) :=
  Tenancy.ListProjects (scope_context defaultScope ctx) (TrimSpace workspaceID) includeArchived limit s.
Definition UpsertProject (ctx : Context) (now : Z) (workspaceID : string) (request : ProjectUpsertRequest) (s : DirectoryState)
    : result (DirectoryState * TenancyProject) :=
  let ctx := scope_context defaultScope ctx in
  '(scope, workspaceID) ← scoped_workspace ctx workspaceID;
  archivedAt ← parseTenancyArchivedAt (ProjectRequest_ArchivedAt request);
  normalized ← or_invalid (NormalizeTenancyProjectForWrite now
    (mkProject (Scope_TenantID scope) workspaceID (ProjectRequest_ProjectID request) (ProjectRequest_Name request)
       (ProjectRequest_Slug request) (ProjectRequest_Description request) archivedAt time_zero time_zero));
  s ← Tenancy.UpsertProject ctx now normalized s;
  saved ← Tenancy.GetProject ctx (Project_WorkspaceID normalized) (Project_ProjectID normalized) s;
  mret (s, saved).
Definition GetProject (ctx : Context) (workspaceID projectID : string) (s : DirectoryState) : result TenancyProject :=
  Tenancy.GetProject (scope_context defaultScope ctx) (TrimSpace workspaceID) (TrimSpace projectID) s.

(** ** The workspaces of a subject *)
Definition shown_to (subject : string) (member : option TenancyWorkspaceMember) : bool :=
  bool_decide (subject = "") || match member with Some m => active_member m | None => false end.
Fixpoint workspace_contexts (c : RequestContext) (ctx : Context) (scope : Scope) (subject : string) (rows : list TenancyWorkspace)
    (s : DirectoryState) : result (list WorkspaceContext) :=
  match rows with
  | [] => mret []
  | workspace :: rows =>
      let id := Workspace_WorkspaceID workspace in
      member ← lookupWorkspaceMemberBySubject c (WithScope ctx (mkScope (Scope_TenantID scope) id)) id subject s;
      contexts ← workspace_contexts c ctx scope subject rows s;
      mret (if shown_to subject member
            then mkWorkspaceContext workspace member (bool_decide (id = Scope_WorkspaceID scope)) :: contexts
            else contexts)
  end.
Definition ResolveWhoAmIContext (c : RequestContext) (subject : string) (s : DirectoryState) : result WhoAmIContext :=
  let ctx := scope_context defaultScope (Req_Scope c) in
  scope ← RequireScope ctx;
  rows ← Tenancy.ListWorkspaces ctx maxCursorFetchLimit s;
  contexts ← workspace_contexts c ctx scope (TrimSpace subject) rows s;
  mret (mkWhoAmI scope (last (filter (λ w, WorkspaceContext_IsActive w = true) contexts)) contexts).
Definition ResolveActiveWorkspace (c : RequestContext) (subject workspaceID : string) (s : DirectoryState) : result WorkspaceContext :=
  let ctx := scope_context defaultScope (Req_Scope c) in
  scope ← RequireScope ctx;
  let id := TrimSpace workspaceID in
  _ ← guard_err (negb (bool_decide (id = ""))) ErrInvalidTenancyRequest;
  let ctx := WithScope ctx (mkScope (Scope_TenantID scope) id) in
  workspace ← Tenancy.GetWorkspace ctx id s;
  let subject := TrimSpace subject in
  if decide (subject = "") then mret (mkWorkspaceContext workspace None true)
  else
    found ← lookupWorkspaceMemberBySubject c ctx id subject s;
    match found with
    | Some member =>
        _ ← guard_err (active_member member) ErrWorkspaceAccessDenied;
        mret (mkWorkspaceContext workspace (Some member) true)
    | None => Err ErrWorkspaceAccessDenied
    end.
End service.
