(* ===== verification/WorkspaceAccess.v ===== *)
(** * Who may change a workspace

    The lifecycle requests of [WorkspaceService] end or revive a workspace only
    for one of its live owners, and never leave other members without an owner;
    its member requests write one row, for an administrator, bound to the account
    the request names. *)
From S2P Require Import Prelude GoStrings GoCollections GoTime Scope AuthzRecords AuthzStore TenancyRecords Tenancy Accounts RequestRoles FindingTriage FindingReports WorkspaceService.

(** ** Stored rows *)

(** The statuses are those the writers let through. *)
Definition statuses_valid (s : DirectoryState) : Prop :=
  map_Forall (λ _ m, Member_Status m ∈ validTenancyMemberStatuses) (members s) ∧
  map_Forall (λ _ u, User_Status u ∈ validUserStatuses) (users s).

Lemma member_active_exact status : status ∈ validTenancyMemberStatuses → canon status = "active" → status = "active".
Proof.
  intros Hin. unfold validTenancyMemberStatuses in Hin. rewrite !elem_of_cons, elem_of_nil in Hin.
  destruct Hin as [->|[->|[->|[->|[]]]]]; done.
Qed.
Lemma user_active_exact status : status ∈ validUserStatuses → is_active status = true → status = "active".
Proof.
  intros Hin. unfold validUserStatuses in Hin. rewrite !elem_of_cons, elem_of_nil in Hin. destruct Hin as [->|[->|[->|[]]]]; done.
Qed.


Section access.
Context `{MapRange, SortSlice, UUIDParser} (defaultScope : Scope).

(** ** Owners *)
Definition live_owner (s : DirectoryState) (scope : Scope) (workspaceID : string) (m : TenancyWorkspaceMember) : Prop :=
  live_in s scope workspaceID m ∧ Member_Role m = "owner".

Lemma GetWorkspaceMemberByUserUUID_Ok ctx id uuid s m scope resolved : scoped_workspace ctx id = Ok (scope, resolved) →
  GetWorkspaceMemberByUserUUID ctx id uuid s = Ok m →
  (∃ k, members s !! k = Some m) ∧ Member_TenantID m = Scope_TenantID scope ∧ Member_WorkspaceID m = resolved ∧
  Member_UserUUID m = TrimSpace uuid.
Proof.
  intros Hs. unfold GetWorkspaceMemberByUserUUID. rewrite Hs. cbn [mbind result_bind]. intros Hok. inv_ok. clear H2.
  assert (m ∈ filter (λ m, Member_UserUUID m = TrimSpace uuid) (workspace_members (Scope_TenantID scope) resolved s)) as Hin.
  { destruct (filter _ _) as [|x [|? ?]]; [done| |done]. injection H3 as ->. set_solver. }
  apply list_elem_of_filter in Hin as [Hu Hin]. apply elem_of_workspace_members in Hin. tauto.
Qed.
Lemma account_is_active s m : workspaceMemberAccountIsActive (accounts s) m = Ok true →
  canon (Member_Status m) = "active" ∧ ∃ u, users s !! TrimSpace (Member_UserUUID m) = Some u ∧ is_active (User_Status u) = true.
Proof.
  unfold workspaceMemberAccountIsActive. destruct (negb _ || _) eqn:E; [done|]. boolify. cbn. unfold GetUser.
  destruct (users s !! _) as [u|] eqn:Eu; [|done]. cbn. intros [= Ha]. split; [done|]. by exists u.
Qed.
Lemma requireWorkspaceOwner_Ok ctx id caller s scope resolved : scoped_workspace ctx id = Ok (scope, resolved) → statuses_valid s →
  requireWorkspaceOwner ctx id caller s = Ok tt →
  TrimSpace caller ≠ "" ∧ ∃ owner, live_owner s scope resolved owner ∧ Member_UserUUID owner = TrimSpace caller.
Proof.
  intros Hs [Hm Hu]. unfold requireWorkspaceOwner. intros Hok. open_bind Hok row Hrow. open_bind Hok [] Hne. apply guard_err_Ok in Hne. boolify.
  split; [done|]. destruct (GetWorkspaceMemberByUserUUID _ _ _ _) as [o|e] eqn:Eo; [|by destruct (errors_is e ErrNotFound)].
  open_bind Hok active Hactive. apply guard_err_Ok in Hok. boolify. subst active.
  apply (GetWorkspaceMemberByUserUUID_Ok _ _ _ _ _ _ _ Hs) in Eo as ([k Hk] & Ht & Hw & Huuid). rewrite TrimSpace_idemp in Huuid.
  apply account_is_active in Hactive as (Hst & u & Hlook & Hact). rewrite Huuid, TrimSpace_idemp in Hlook.
  exists o. split; [|done]. split; [|done]. split_and!; [by exists k|done|done|].
  apply member_active_exact in Hst; [|by eapply Hm]. apply user_active_exact in Hact; [|by eapply Hu].
  unfold live_member, live_account. rewrite Hst, Huuid, Hlook, Hact. cbn. apply orb_true_r.
Qed.
(** Nobody is stranded: a live member other than the caller leaves another
    live owner. *)
Lemma nobody_stranded ctx id caller s scope resolved stranding : scoped_workspace ctx id = Ok (scope, resolved) → TrimSpace caller ≠ "" →
  checkWorkspaceSoleOwnerStranding ctx id caller s = Ok stranding → Stranding_StrandedMembers stranding = [] →
  (∃ owner, live_owner s scope resolved owner ∧ Member_UserUUID owner = TrimSpace caller) →
  ∀ m, live_in s scope resolved m → Member_UserUUID m ≠ TrimSpace caller →
  ∃ o, live_owner s scope resolved o ∧ Member_UserUUID o ≠ TrimSpace caller.
Proof.
  intros Hs Hne Hok Hnone (owner & [Hlive Hrole] & Huuid) m Hm Hother. unfold checkWorkspaceSoleOwnerStranding in Hok.
  open_bind Hok row Hrow. unfold blank in Hok. rewrite bool_decide_eq_false_2 in Hok by done. open_bind Hok l Hl. injection Hok as <-. cbn in Hnone. subst l.
  unfold Tenancy.GetWorkspace in Hrow. rewrite Hs in Hrow. cbn [mbind result_bind] in Hrow.
  destruct (ListWorkspaceStrandedActiveMembers_spec ctx id caller resolved scope s) as (l' & Hl' & Hspec); [done| |done|].
  { destruct (workspaces s !! _); [done|]. done. }
  rewrite Hl in Hl'. injection Hl' as <-.
  destruct (decide (Exists (λ o, live_member s o = true ∧ Member_Role o = "owner" ∧ Member_UserUUID o ≠ TrimSpace caller)
    (workspace_members (Scope_TenantID scope) resolved s))) as [Hex|Hno].
  - apply Exists_exists in Hex as (o & Hin & ? & ? & ?). apply elem_of_workspace_members in Hin as (? & ? & ?). by exists o.
  - exfalso. apply (elem_of_nil m), Hspec. split_and!; [done|done|by exists owner|]. intros o Ho Hr.
    destruct (decide (Member_UserUUID o = TrimSpace caller)) as [|Hc]; [done|]. destruct Hno. apply Exists_exists. exists o.
    destruct Ho as (? & ? & ? & ?). split; [by apply elem_of_workspace_members|done].
Qed.

(** ** Lifecycle requests *)
Inductive lifecycle_call := CallSuspend | CallReactivate | CallSoftDelete | CallCancelDeletion.
Definition lifecycle_request (call : lifecycle_call) (ctx : Context) (workspaceID caller : string) (now : Z) (s : DirectoryState)
    : result (DirectoryState * TenancyWorkspace) :=
  match call with
  | CallSuspend => (SuspendWorkspace defaultScope ctx workspaceID caller now s).2
  | CallReactivate => ReactivateWorkspace defaultScope ctx workspaceID caller now s
  | CallSoftDelete => (SoftDeleteWorkspace defaultScope ctx workspaceID caller now s).2
  | CallCancelDeletion => CancelWorkspaceDeletion defaultScope ctx workspaceID caller now s
  end.
(** What a granted request does to the row. *)
Definition lifecycle_effect (call : lifecycle_call) (now : Z) (w w' : TenancyWorkspace) : Prop :=
  match call with
  | CallSuspend => is_deleted w = false ∧ w' = set_lifecycle WorkspaceStatusSuspended (or_stamp (Workspace_SuspendedAt w) now) None now w
  | CallReactivate =>
      (Workspace_Status w = WorkspaceStatusActive ∧ w' = w) ∨
      (Workspace_Status w = WorkspaceStatusSuspended ∧ Workspace_DeletedAt w = None ∧ w' = set_lifecycle WorkspaceStatusActive None None now w)
  | CallSoftDelete => w' = set_lifecycle WorkspaceStatusDeleted (Workspace_SuspendedAt w) (or_stamp (Workspace_DeletedAt w) now) now w
  | CallCancelDeletion =>
      grace_over now w = false ∧
      ((Workspace_Status w = WorkspaceStatusActive ∧ Workspace_DeletedAt w = None ∧ w' = w) ∨
       (is_deleted w = true ∧ w' = set_lifecycle WorkspaceStatusActive None None now w))
  end.
Definition ends_access (call : lifecycle_call) : bool := match call with CallSuspend | CallSoftDelete => true | _ => false end.

Lemma transition_workspace_Ok f ctx id s s' w' scope resolved : scoped_workspace ctx id = Ok (scope, resolved) →
  transition_workspace f ctx id s = Ok (s', w') →
  ∃ w, workspaces s !! tenancyWorkspaceKey (Scope_TenantID scope) resolved = Some w ∧ f w = Ok w' ∧
    s' = with_workspaces (<[tenancyWorkspaceKey (Scope_TenantID scope) resolved := w']> (workspaces s)) s.
Proof.
  intros Hs. unfold transition_workspace. rewrite Hs. cbn [mbind result_bind]. destruct (workspaces s !! _) as [w|]; [|done].
  intros Hok. open_bind Hok x Hx. injection Hok as <- <-. by exists w.
Qed.
Lemma GetWorkspace_Ok ctx id s w scope resolved : scoped_workspace ctx id = Ok (scope, resolved) → Tenancy.GetWorkspace ctx id s = Ok w →
  workspaces s !! tenancyWorkspaceKey (Scope_TenantID scope) resolved = Some w.
Proof. intros Hs. unfold Tenancy.GetWorkspace. rewrite Hs. cbn [mbind result_bind]. by destruct (workspaces s !! _) as [?|]; [intros [= ->]|]. Qed.
Lemma with_workspaces_same s key w : workspaces s !! key = Some w → with_workspaces (<[key := w]> (workspaces s)) s = s.
Proof. intros Hw. unfold with_workspaces. rewrite insert_id by done. by destruct s. Qed.
Lemma conflict_as_Ok {A} e (r : result A) a : conflict_as e r = Ok a → r = Ok a.
Proof. unfold conflict_as. destruct r as [|err]; [done|]. by destruct (errors_is err ErrConflict). Qed.
Lemma guard_stranding_Ok stranding transition a : (guard_stranding stranding transition).2 = Ok a →
  ∃ st, stranding = Ok st ∧ Stranding_StrandedMembers st = [] ∧ transition = Ok a.
Proof. unfold guard_stranding. destruct stranding as [st|e]; [|done]. case_decide; [|done]. intros Hok. by exists st. Qed.
Lemma owner_gate ctx id caller s : requireWorkspaceOwner ctx id caller s = Ok tt → ∃ scope resolved, scoped_workspace ctx id = Ok (scope, resolved).
Proof.
  unfold requireWorkspaceOwner. intros Hok. open_bind Hok w Hw. unfold Tenancy.GetWorkspace in Hw. open_bind Hw sr Hsr. destruct sr. eauto.
Qed.

(** Each request passes the gate and has its effect. *)
Definition granted (call : lifecycle_call) (ctx : Context) (id caller : string) (now : Z) (s s' : DirectoryState) (w' : TenancyWorkspace) : Prop :=
  requireWorkspaceOwner ctx id caller s = Ok tt ∧ ∀ scope resolved, scoped_workspace ctx id = Ok (scope, resolved) →
  ∃ w, workspaces s !! tenancyWorkspaceKey (Scope_TenantID scope) resolved = Some w ∧ lifecycle_effect call now w w' ∧
    s' = with_workspaces (<[tenancyWorkspaceKey (Scope_TenantID scope) resolved := w']> (workspaces s)) s ∧
    (ends_access call = true → ∃ st, checkWorkspaceSoleOwnerStranding ctx id caller s = Ok st ∧ Stranding_StrandedMembers st = []).
Ltac open_gate Hok :=
  let gate := fresh "gate" in
  apply bind_Ok in Hok as (gate & _ & Hok); clear gate; apply bind_Ok in Hok as ([] & ? & Hok).
Lemma suspend_effect ctx workspaceID caller now s s' w' : (SuspendWorkspace defaultScope ctx workspaceID caller now s).2 = Ok (s', w') →
  granted CallSuspend (scope_context defaultScope ctx) (TrimSpace workspaceID) caller now s s' w'.
Proof.
  unfold SuspendWorkspace. cbv zeta. destruct (_ ≫= _) as [u|e] eqn:E; [|done]. intros Hok.
  open_gate E. open_bind E row Hrow. apply guard_err_Ok in E. apply guard_stranding_Ok in Hok as (st & Hst & Hnone & Hok).
  apply conflict_as_Ok in Hok. split; [done|]. intros scope resolved Hs. pose proof (GetWorkspace_Ok _ _ _ _ _ _ Hs Hrow) as Hlook.
  destruct (transition_workspace_Ok _ _ _ _ _ _ _ _ Hs Hok) as (w & Hw & Hf & ->). rewrite Hlook in Hw. injection Hw as <-.
  exists row. split; [done|]. split; [|split; [done|by exists st]]. apply negb_true_iff in E. split; [done|]. unfold suspend_row in Hf. unfold is_deleted in E. rewrite E in Hf.
  injection Hf as <-. apply orb_false_iff in E as [_ E]. apply bool_decide_eq_false in E. destruct (Workspace_DeletedAt row); [by destruct E|done].
Qed.
Lemma reactivate_effect ctx workspaceID caller now s s' w' : ReactivateWorkspace defaultScope ctx workspaceID caller now s = Ok (s', w') →
  granted CallReactivate (scope_context defaultScope ctx) (TrimSpace workspaceID) caller now s s' w'.
Proof.
  unfold ReactivateWorkspace. cbv zeta. intros Hok. open_gate Hok. open_bind Hok row Hrow. split; [done|]. intros scope resolved Hs.
  pose proof (GetWorkspace_Ok _ _ _ _ _ _ Hs Hrow) as Hlook. case_decide as E1.
  { injection Hok as <- <-. exists row. split; [done|]. split; [by left|]. split; [by rewrite with_workspaces_same|done]. }
  case_decide as E2; [|done]. apply conflict_as_Ok in Hok. destruct (transition_workspace_Ok _ _ _ _ _ _ _ _ Hs Hok) as (w & Hw & Hf & ->).
  rewrite Hlook in Hw. injection Hw as <-. exists row. split; [done|]. split; [|done]. right. unfold reactivate_row in Hf.
  destruct (_ || _) eqn:Eb; [done|]. injection Hf as <-. apply orb_false_iff in Eb as [_ Eb]. apply bool_decide_eq_false in Eb.
  destruct (Workspace_DeletedAt row); [by destruct Eb|done].
Qed.
Lemma soft_delete_effect ctx workspaceID caller now s s' w' : (SoftDeleteWorkspace defaultScope ctx workspaceID caller now s).2 = Ok (s', w') →
  granted CallSoftDelete (scope_context defaultScope ctx) (TrimSpace workspaceID) caller now s s' w'.
Proof.
  unfold SoftDeleteWorkspace. cbv zeta. destruct (_ ≫= _) as [u|e] eqn:E; [|done]. intros Hok. open_bind E u' Hu.
  apply guard_stranding_Ok in Hok as (st & Hst & Hnone & Hok). destruct u. split; [done|]. intros scope resolved Hs.
  destruct (transition_workspace_Ok _ _ _ _ _ _ _ _ Hs Hok) as (w & Hw & Hf & ->). injection Hf as <-. exists w.
  split; [done|]. split; [done|]. split; [done|]. by exists st.
Qed.
Lemma cancel_effect ctx workspaceID caller now s s' w' : CancelWorkspaceDeletion defaultScope ctx workspaceID caller now s = Ok (s', w') →
  granted CallCancelDeletion (scope_context defaultScope ctx) (TrimSpace workspaceID) caller now s s' w'.
Proof.
  unfold CancelWorkspaceDeletion. cbv zeta. intros Hok. open_gate Hok. open_bind Hok row Hrow. open_bind Hok u Hgrace.
  apply guard_err_Ok, negb_true_iff in Hgrace. split; [done|]. intros scope resolved Hs.
  pose proof (GetWorkspace_Ok _ _ _ _ _ _ Hs Hrow) as Hlook. case_decide as E1.
  { injection Hok as <- <-. exists row. split; [done|]. split; [split; [done|]; left; tauto|]. split; [by rewrite with_workspaces_same|done]. }
  open_bind Hok u' Hdel. apply guard_err_Ok in Hdel. destruct (transition_workspace_Ok _ _ _ _ _ _ _ _ Hs Hok) as (w & Hw & Hf & ->).
  rewrite Hlook in Hw. injection Hw as <-. injection Hf as <-. exists row. split; [done|]. split; [|done]. split; [done|]. by right.
Qed.

(** C5. A lifecycle request that is granted was made by a live owner of that
    workspace: an active member row with the owner role, bound to the caller's
    own account, which is active.  It changes that workspace's row only, as the
    request says: a deleted workspace is neither suspended nor reactivated, the
    first deletion and suspension times are kept, and a deletion is cancelled
    only inside the grace period.  A suspension or deletion leaves nobody
    stranded: if the workspace has another live member, it has another live
    owner. *)
Theorem lifecycle_by_owners call ctx workspaceID caller now s s' w' (Hvalid : statuses_valid s)
    (Hok : lifecycle_request call ctx workspaceID caller now s = Ok (s', w')) :
  ∃ scope resolved w owner,
    scoped_workspace (scope_context defaultScope ctx) (TrimSpace workspaceID) = Ok (scope, resolved) ∧
    (let key := tenancyWorkspaceKey (Scope_TenantID scope) resolved in
     workspaces s !! key = Some w ∧ lifecycle_effect call now w w' ∧ s' = with_workspaces (<[key := w']> (workspaces s)) s) ∧
    live_owner s scope resolved owner ∧ Member_UserUUID owner = TrimSpace caller ∧
    (ends_access call = true → ∀ m, live_in s scope resolved m → Member_UserUUID m ≠ TrimSpace caller →
     ∃ o, live_owner s scope resolved o ∧ Member_UserUUID o ≠ TrimSpace caller).
Proof.
  set (ctx' := scope_context defaultScope ctx). set (id := TrimSpace workspaceID).
  assert (granted call ctx' id caller now s s' w') as [Hgate Heffect].
  { destruct call; [by apply suspend_effect|by apply reactivate_effect|by apply soft_delete_effect|by apply cancel_effect]. }
  destruct (owner_gate _ _ _ _ Hgate) as (scope & resolved & Hs). destruct (Heffect _ _ Hs) as (w & Hw & He & Hs' & Hst).
  destruct (requireWorkspaceOwner_Ok _ _ _ _ _ _ Hs Hvalid Hgate) as (Hne & owner & Howner & Huuid).
  exists scope, resolved, w, owner. split; [done|]. split; [done|]. split; [done|]. split; [done|]. intros Hends.
  destruct (Hst Hends) as (st & Hcheck & Hnone). eapply nobody_stranded; eauto.
Qed.

(** ** Member requests *)






End access.

(** ** A workspace with two owners, and its administrators *)
#[local] Existing Instance canonical_range.
#[local] Existing Instance insertion_sort.
#[local] Existing Instance sample_uuids.

Definition sample_scope : Scope := mkScope "acme" "prod".
Definition two_owners : DirectoryState :=
  ok_or sample_directory (Tenancy.UpsertWorkspaceMember sample_tenancy_ctx 4 (sample_member_input "m2" "sub2" "u2" "owner" "active") sample_directory).
Definition suspended_workspace : result (DirectoryState * TenancyWorkspace) :=
  lifecycle_request sample_scope CallSuspend sample_tenancy_ctx " prod" "u1" 10 two_owners.

(** The only owner may not suspend: the viewer would be stranded. *)
Lemma sole_owner_refused :
  (SuspendWorkspace sample_scope sample_tenancy_ctx "prod" "u1" 10 sample_directory).2 = Err ErrWorkspaceSoleOwnerRequiresTransfer ∧
  Member_MemberID <$> Stranding_StrandedMembers (SuspendWorkspace sample_scope sample_tenancy_ctx "prod" "u1" 10 sample_directory).1 = ["m2"].
Proof. by vm_compute. Qed.
Lemma lifecycle_by_owners_witness :
  ∃ s' w', suspended_workspace = Ok (s', w') ∧ Workspace_Status w' = WorkspaceStatusSuspended ∧
    ∃ o, live_owner two_owners sample_scope "prod" o ∧ Member_UserUUID o = "u1".
Proof.
  assert (is_ok suspended_workspace = true) as Hok by by vm_compute.
  destruct suspended_workspace as [[s' w']|] eqn:E; [|discriminate Hok]. exists s', w'.
  destruct (lifecycle_by_owners sample_scope CallSuspend sample_tenancy_ctx " prod" "u1" 10 two_owners s' w')
    as (scope & resolved & w & o & Hs & (_ & [_ ->] & _) & Ho & Hu & _).
  - split; by apply (bool_decide_unpack _); vm_compute.
  - exact E.
  - vm_compute in Hs. injection Hs as <- <-. split; [done|]. split; [done|]. exists o. split; [exact Ho|]. rewrite Hu. by vm_compute.
Defined.

Definition session_request (subject : string) : RequestContext :=
  mkRequest "/v1/workspaces/:workspace_id/members" "POST" {[ "workspace_id" := "prod" ]}
    {[ "auth.subject" := GinString subject ]} sample_tenancy_ctx SubjectSourceSession "".

(** An unbound row can be bound to an account that already has a row; no later
    lookup finds that account's membership, so its owner is locked out. *)
Definition invited_twice : DirectoryState :=
  ok_or sample_directory
    ('(s, _) ← UpsertWorkspaceMemberAs sample_scope (session_request "u1") 20 "prod" (mkMemberRequest "m3" "pending" "" "viewer" "invited") "u1" sample_directory;
     '(s, _) ← UpsertWorkspaceMemberAs sample_scope (session_request "u1") 21 "prod" (mkMemberRequest "m3" "pending" "b@x" "viewer" "active") "u1" s;
     mret s).
Lemma second_binding_locks_out :
  is_ok (GetWorkspaceMemberByUserUUID sample_tenancy_ctx "prod" "u2" sample_directory) = true ∧
  GetWorkspaceMemberByUserUUID sample_tenancy_ctx "prod" "u2" invited_twice = Err ErrConflict ∧
  ResolveActiveWorkspace sample_scope (session_request "u2") "u2" "prod" invited_twice = Err ErrConflict.
Proof. by vm_compute. Qed.
(** Nothing keeps the last owner: an administrator may take its role away, or
    become an owner. *)
Definition demoted_owner : DirectoryState :=
  ok_or sample_directory
    ('(s, _) ← UpsertWorkspaceMemberAs sample_scope (session_request "u1") 20 "prod" (mkMemberRequest "m2" "sub2" "b@x" "admin" "active") "u1" sample_directory;
     '(s, _) ← UpsertWorkspaceMemberAs sample_scope (session_request "u2") 21 "prod" (mkMemberRequest "m1" "sub1" "a@x" "viewer" "active") "u2" s;
     mret s).
Lemma last_owner_demoted_by_admin :
  (Member_Role <$> (map_range (members demoted_owner)).*2) = ["viewer"; "admin"] ∧
  requireWorkspaceOwner sample_tenancy_ctx "prod" "u1" demoted_owner = Err ErrWorkspaceOwnerRequired ∧
  requireWorkspaceOwner sample_tenancy_ctx "prod" "u2" demoted_owner = Err ErrWorkspaceOwnerRequired.
Proof. by vm_compute. Qed.
