(* ===== verification/RepoScanService.v ===== *)
(** * Scanning repositories (internal/api/service.go)

    The service's side of repository scans: which requests are accepted, one
    worker pass (stale scans, claim, workspace gate, lock, execution, findings,
    terminal write, cursor), cancelling and deleting.

    The scanner, the GitHub sources, the status of a project's GitHub connection
    and the enrichment of findings for presentation are arguments; events and
    metrics are not modelled.  Other calls may change the tables while a scan
    runs: what they do at each point of a run is an argument too. *)
From S2P Require Import Prelude GoStrings GoCollections GoTime GoFloat GoText Runs Scope TenancyRecords Tenancy ScanQueue Scheduler ScanWorker RepoFindings RepoScanRecords RepoScanStore RepoFindingStore RepoTargets.

(** ** Requests *)
Definition defaultRepoQueueMaxPending : Z := 100.
Definition defaultRepoScanRunningStaleAfter : Z := 35 * Minute.
Definition defaultRepoScanStaleFailureLimit : Z := 100.
Definition staleRepoScanFailureMessage : string := "repository scan exceeded worker timeout before reporting a terminal result".
Definition userCanceledRepoScanMessage : string := "repository scan canceled by user".
Definition githubConnectorID : string := "github-app".

Definition ErrRepoScanDisabled : error := Sentinel "repo scan is disabled".
Definition ErrRepoTargetNotAllowed : error := Sentinel "repo target is not allowed".
Definition ErrRepoScanAlreadyCurrent : error := Sentinel "repo scan already current".
Definition ErrRepoScanInProgress : error := Sentinel "repo scan already in progress".
Definition ErrRepoScanCancelUnavailable : error := Sentinel "repo scan cancel is unavailable".
Definition ErrRepoScanDeleteUnavailable : error := Sentinel "repo scan delete is unavailable".
Definition errRepoScanTerminalStateChanged : error := Sentinel "repo scan terminal state changed".
Definition ErrRepoScanQueueFull : error := Sentinel "repo scan queue is full".
Definition ErrInvalidGitHubConnectionRequest : error := Sentinel "invalid github connection request".
Definition ErrGitHubConnectionNotFound : error := Sentinel "github connection not found".

Record RepoScanRequest := mkRepoRequest {
  Request_Repository : string;
  Request_ProjectID : string;
  Request_ConnectorID : string;
  Request_ScanMode : string;
  Request_BaseRevision : string;
  Request_HeadRevision : string;
  Request_ChangedPaths : list string;
  Request_HistoryLimit : Z;
  Request_MaxFindings : Z;
}.
(** The fields of a project's GitHub connection that scans read. *)
Record GitHubConnectionStatus := mkGitHubStatus {
  GitHub_Provider : string;
  GitHub_Connected : bool;
  GitHub_ConnectorID : string;
  GitHub_InstallationID : Z;
  GitHub_SelectedRepositories : list string;
}.

(** What one execution of the scanner reports. *)
Record ScanResult := mkScanResult {
  Result_Repository : string;
  Result_CommitsScanned : Z;
  Result_FilesScanned : Z;
  Result_Findings : list RepoFinding;
  Result_Truncated : bool;
  Result_ScanMode : string;
  Result_BaseRevision : string;
  Result_HeadRevision : string;
  Result_ChangedPaths : list string;
}.
(** What the GitHub sources add. *)
Record repoScanExternalEvidence := mkEvidence {
  External_Findings : list RepoFinding;
  External_SourceErrors : list SourceError;
  External_InconclusiveLifecycleKeys : list string;
}.

(** The configuration of the service. *)
Record RepoService := mkRepoService {
  RepoScanEnabled : bool;
  RepoScanDefaultHistoryLimit : Z;
  RepoScanMaxHistoryLimit : Z;
  RepoScanDefaultMaxFindings : Z;
  RepoScanMaxFindingsLimit : Z;
  RepoScanAllowedTargets : list string;
  RepoQueueMaxPending : Z;
  Repo_DefaultScope : Scope;
  Repo_LockNamespace : string;
  Repo_Locked : bool;
}.
Definition repo_scope_context (s : RepoService) (ctx : Context) : Context := WithDefaultScope ctx (Repo_DefaultScope s).
Definition repo_terminal_context (s : RepoService) (ctx : Context) : Context :=
  WithScope None (ScopeFromContext (repo_scope_context s ctx)).
Definition repo_lock_key (s : RepoService) (key : string) : string := namespaced_key (Repo_LockNamespace s) key.

(** ** Accepting a request *)
Definition repoScanRequestUsesConnector (r : RepoScanRequest) : bool :=
  negb (bool_decide (TrimSpace (Request_ProjectID r) = "")) || negb (bool_decide (TrimSpace (Request_ConnectorID r) = "")).
Definition repositoryCredentialsError : error :=
  Alias "repository target must not include credentials in URL userinfo" ErrInvalidRepoScanRequest.

Section requests.
Context `{MapRange, SortSlice, FloatParser, URLParser, LocalGit}.
Context (s : RepoService) (d : DirectoryState).
(** [GetGitHubConnection] (github_connect.go). *)
Context (GetGitHubConnection : Context → string → string → result GitHubConnectionStatus).

Definition requireScopedProject (ctx : Context) (workspaceID projectID : string) : result (TenancyProject * Scope) :=
  let ctx := repo_scope_context s ctx in
  scope ← RequireScope ctx;
  normalizedWorkspaceID ← ResolveScopedWorkspaceID scope workspaceID;
  let normalizedProjectID := TrimSpace projectID in
  _ ← guard_err (negb (bool_decide (normalizedProjectID = ""))) ErrInvalidGitHubConnectionRequest;
  project ← GetProject ctx normalizedWorkspaceID normalizedProjectID d;
  mret (project, mkScope (Scope_TenantID scope) normalizedWorkspaceID).

(** The first of the errors' translations that applies. *)
Definition translate_error {A} (r : result A) (matched : list error) (replacement : error) : result A :=
  match r with
  | Err e => if existsb (errors_is e) matched then Err replacement else Err e
  | Ok x => Ok x
  end.

Definition resolveRepoScanSource (ctx : Context) (target : string) (request : RepoScanRequest) : result RepoScanSource :=
  let projectID := TrimSpace (Request_ProjectID request) in
  let connectorID := TrimSpace (Request_ConnectorID request) in
  if bool_decide (projectID = "") && bool_decide (connectorID = "") then mret no_repo_source
  else
    _ ← guard_err (negb (bool_decide (projectID = ""))) ErrInvalidRepoScanRequest;
    '(project, _) ← translate_error (requireScopedProject ctx "" projectID) [ErrInvalidGitHubConnectionRequest; ErrNotFound]
                      ErrInvalidRepoScanRequest;
    status ← translate_error (GetGitHubConnection ctx (Project_WorkspaceID project) (Project_ProjectID project))
               [ErrInvalidGitHubConnectionRequest; ErrGitHubConnectionNotFound; ErrNotFound] ErrRepoTargetNotAllowed;
    let effectiveConnectorID := firstNonEmptyString [GitHub_ConnectorID status; githubConnectorID] in
    _ ← guard_err (bool_decide (connectorID = "") || bool_decide (connectorID = effectiveConnectorID)) ErrInvalidRepoScanRequest;
    _ ← guard_err (GitHub_Connected status && EqualFold (GitHub_Provider status) "github_app" && (0 <? GitHub_InstallationID status))
          ErrRepoTargetNotAllowed;
    _ ← guard_err (repositorySelected (GitHub_SelectedRepositories status) target) ErrRepoTargetNotAllowed;
    mret (RepoScanSource_Normalize
            (mkRepoSource "github_app" (Project_ProjectID project) effectiveConnectorID (GitHub_InstallationID status))).

(** What a request asks for, once accepted. *)
Record accepted_request := mkAccepted {
  acc_target : string;
  acc_source : RepoScanSource;
  acc_context : RepoScanContext;
  acc_historyLimit : Z;
  acc_maxFindings : Z;
}.
Definition request_context (request : RepoScanRequest) : RepoScanContext :=
  NormalizeRepoScanContext
    (mkRepoContext (Request_ScanMode request) (Request_BaseRevision request) (Request_HeadRevision request) "" ""
       (Request_ChangedPaths request) [] false "" []).
Definition validateRepoScanRequest (ctx : Context) (request : RepoScanRequest) : result accepted_request :=
  _ ← guard_err (RepoScanEnabled s) ErrRepoScanDisabled;
  let target := TrimSpace (Request_Repository request) in
  _ ← guard_err (negb (bool_decide (target = ""))) ErrInvalidRepoScanRequest;
  _ ← guard_err (negb (repoTargetContainsURLCredentials target)) repositoryCredentialsError;
  _ ← guard_err (negb (IsLocalRepositoryTarget target)) ErrRepoTargetNotAllowed;
  historyLimit ← sanitizeRepoScanLimit (Request_HistoryLimit request) (RepoScanDefaultHistoryLimit s) (RepoScanMaxHistoryLimit s);
  maxFindings ← sanitizeRepoScanLimit (Request_MaxFindings request) (RepoScanDefaultMaxFindings s) (RepoScanMaxFindingsLimit s);
  let scanContext := request_context request in
  _ ← guard_err (negb (bool_decide (Context_ScanMode scanContext = RepoScanModeDelta) &&
                       bool_decide (Context_HeadRevision scanContext = ""))) ErrInvalidRepoScanRequest;
  if repoScanRequestUsesConnector request then
    let normalizedTarget := normalizeGitHubRepositoryPath target in
    _ ← guard_err (negb (bool_decide (normalizedTarget = ""))) ErrInvalidRepoScanRequest;
    let target := normalizeGitHubRepository normalizedTarget in
    source ← resolveRepoScanSource ctx target request;
    mret (mkAccepted target source scanContext historyLimit maxFindings)
  else
    _ ← guard_err (repoTargetAllowed target (RepoScanAllowedTargets s)) ErrRepoTargetNotAllowed;
    mret (mkAccepted target no_repo_source scanContext historyLimit maxFindings).

(** *** The cursor *)
Definition repoScanCursor (ctx : Context) (repository : string) (source : RepoScanSource) (t : RepoScanTables)
    : result (option RepoScanCursor) :=
  match GetRepoScanCursor ctx repository source t with
  | Ok cursor => mret (Some cursor)
  | Err e => if errors_is e ErrNotFound then mret None else Err (Wrap "get repo scan cursor" e)
  end.
Definition repoScanCursorCoversDeltaHistory (cursor : RepoScanCursor) : bool :=
  bool_decide (canon (Cursor_LastScanMode cursor) ∈ [""; RepoScanModeDeep; RepoScanModeDelta]).
Definition repoScanCursorAlreadyCoversRequest (scanContext : RepoScanContext) (cursor : option RepoScanCursor) : bool :=
  bool_decide (Context_ScanMode scanContext = RepoScanModeDelta) && negb (bool_decide (Context_HeadRevision scanContext = "")) &&
  match cursor with
  | Some cursor =>
      EqualFold (Cursor_LastScannedRevision cursor) (Context_HeadRevision scanContext) && repoScanCursorCoversDeltaHistory cursor
  | None => false
  end.
(** [scanContext.CursorBefore = cursor.LastScannedRevision]. *)
Definition from_cursor (cursor : option RepoScanCursor) (c : RepoScanContext) : RepoScanContext :=
  match cursor with
  | Some cursor =>
      mkRepoContext (Context_ScanMode c) (Context_BaseRevision c) (Context_HeadRevision c)
        (or_string (Context_CursorBefore c) (Cursor_LastScannedRevision cursor)) (Context_CursorAfter c) (Context_ChangedPaths c)
        (Context_InconclusiveLifecycleKeys c) (Context_PartialSourceRun c) (Context_SourceHealth c) (Context_SourceDetails c)
  | None => c
  end.
(** The request with its place in the history of the repository. *)
Definition accept_request (ctx : Context) (request : RepoScanRequest) (t : RepoScanTables) : result accepted_request :=
  accepted ← validateRepoScanRequest ctx request;
  cursor ← repoScanCursor ctx (acc_target accepted) (acc_source accepted) t;
  let scanContext := from_cursor cursor (acc_context accepted) in
  _ ← guard_err (negb (repoScanCursorAlreadyCoversRequest scanContext cursor)) ErrRepoScanAlreadyCurrent;
  mret (mkAccepted (acc_target accepted) (acc_source accepted) scanContext (acc_historyLimit accepted) (acc_maxFindings accepted)).

Definition enqueue_error (e : error) : error :=
  if errors_is e ErrPendingRepoScanExists then ErrRepoScanInProgress
  else if errors_is e ErrQueueLimitReached then ErrRepoScanQueueFull else Wrap "enqueue repo scan" e.
Definition EnqueueRepoScan (newID : string) (trace : string * string) (now : Z) (ctx : Context) (request : RepoScanRequest)
    (t : RepoScanTables) : result (RepoScanTables * RepoScanRecord) :=
  let ctx := repo_scope_context s ctx in
  accepted ← accept_request ctx request t;
  let maxPending := if RepoQueueMaxPending s <=? 0 then defaultRepoQueueMaxPending else RepoQueueMaxPending s in
  match CreateQueuedRepoScanWithinLimit newID trace ctx (acc_target accepted) (acc_source accepted) (acc_context accepted)
          (acc_historyLimit accepted) (acc_maxFindings accepted) now maxPending t with
  | Ok r => mret r
  | Err e => Err (enqueue_error e)
  end.

(** ** Cancelling and deleting *)
Definition service_CancelRepoScan (now : Z) (ctx : Context) (repoScanID : string) (t : RepoScanTables)
    : result (RepoScanTables * RepoScanRecord) :=
  match CancelRepoScan (repo_scope_context s ctx) repoScanID now userCanceledRepoScanMessage t with
  | Err e => if errors_is e ErrConflict then Err ErrRepoScanCancelUnavailable else Err e
  | r => r
  end.
Definition isFailedRepoScanRecord (r : RepoScanRecord) : bool := EqualFold (TrimSpace (RepoScan_Status r)) scanLifecycleFailed.
Definition service_DeleteRepoScan (ctx : Context) (repoScanID : string) (t : RepoScanTables) : result RepoScanTables :=
  let ctx := repo_scope_context s ctx in
  let id := TrimSpace repoScanID in
  _ ← guard_err (negb (bool_decide (id = ""))) ErrNotFound;
  record ← GetRepoScan ctx id t;
  _ ← guard_err (isFailedRepoScanRecord record) ErrRepoScanDeleteUnavailable;
  DeleteRepoScan ctx id t.
End requests.

(** ** Running a scan *)

(** 0.90. *)
Definition gitHubRepoFindingConfidenceFloor : float64 := SpecFloat.S754_finite false 8106479329266893 (-53).

(** A point of a run at which other calls may change the tables. *)
Inductive run_point := WhileScanning | BeforeComplete | BeforeCleanup | BeforeCursor.

Section worker.
Context `{MapRange, SortSlice, FloatParser}.
Context {Executor Credential Alerts Posture OrganizationPosture : Type}.
Context (s : RepoService).
(** The scanners, what a run of one returns, and GitHub App credentials. *)
Context (RepoScannerFactory : option (Z → Z → Executor)) (AuthenticatedRepoScannerFactory : option (Z → Z → Credential → Executor))
  (run_executor : Executor → string → RepoScanContext → result ScanResult)
  (githubAppRepoScanCredential : Context → RepoScanRecord → result Credential) (Credential_Password : Credential → string).
(** The GitHub sources of a scan, and what becomes of what they report. *)
Record GitHubSources := mkSources {
  GitHubCodeScanningAlertCollector : option (Z → string → result Alerts);
  GitHubSecretScanningAlertCollector : option (Z → string → result Alerts);
  GitHubDependabotAlertCollector : option (Z → string → result Alerts);
  GitHubRepositoryPostureCollector : option ((Z → string → result Posture) * (Z → string → string → result OrganizationPosture));
}.
Context (sources : GitHubSources) (import_alerts : string → string → Alerts → Z → result (list RepoFinding))
  (RepositoryPostureFindings : Posture → Z → list RepoFinding) (RepositoryPostureInconclusiveLifecycleKeys : Posture → list string)
  (githubOrganizationPostureAvailable : OrganizationPosture → bool)
  (OrganizationPostureFindings : OrganizationPosture → string → Z → list RepoFinding)
  (OrganizationPostureInconclusiveLifecycleKeys : OrganizationPosture → string → list string).
(** [repoexposure.MergeExternalFindings], and the presentation of a finding:
    its source link, its confidence and the standards it falls under. *)
Context (MergeExternalFindings : list RepoFinding → list RepoFinding → Z → list RepoFinding * bool)
  (present_finding : RepoFinding → RepoFinding).
Context (meanwhile : run_point → RepoScanTables → RepoScanTables).

Definition collectors : Collectors :=
  mkCollectors (bool_decide (is_Some (GitHubCodeScanningAlertCollector sources)))
    (bool_decide (is_Some (GitHubSecretScanningAlertCollector sources)))
    (bool_decide (is_Some (GitHubDependabotAlertCollector sources)))
    (bool_decide (is_Some (GitHubRepositoryPostureCollector sources))).

(** *** The GitHub sources *)
Definition add_findings (findings : list RepoFinding) (ev : repoScanExternalEvidence) : repoScanExternalEvidence :=
  mkEvidence (External_Findings ev ++ findings) (External_SourceErrors ev) (External_InconclusiveLifecycleKeys ev).
Definition add_inconclusive (keys : list string) (ev : repoScanExternalEvidence) : repoScanExternalEvidence :=
  mkEvidence (External_Findings ev) (External_SourceErrors ev) (External_InconclusiveLifecycleKeys ev ++ keys).
Definition add_source_error (collector code : string) (e : error) (ev : repoScanExternalEvidence) : repoScanExternalEvidence :=
  mkEvidence (External_Findings ev)
    (External_SourceErrors ev ++ [mkSourceError collector code (error_string e) false]) (External_InconclusiveLifecycleKeys ev).
(** A source that fails is recorded, unless the context is done. *)
Definition source_failed (ctxErr : option error) (collector code : string) (e : error) (ev : repoScanExternalEvidence)
    : result repoScanExternalEvidence :=
  match ctxErr with Some done => Err done | None => mret (add_source_error collector code e ev) end.
Definition collect_alerts (ctxErr : option error) (collector : string) (source : option (Z → string → result Alerts))
    (installationID : Z) (repository : string) (detectedAt : Z) (ev : repoScanExternalEvidence) : result repoScanExternalEvidence :=
  match source with
  | None => mret ev
  | Some list_alerts =>
      match list_alerts installationID repository with
      | Err e => source_failed ctxErr collector "alert_list_error" e ev
      | Ok alerts =>
          match import_alerts collector repository alerts detectedAt with
          | Err e => source_failed ctxErr collector "normalize_error" e ev
          | Ok findings => mret (add_findings findings ev)
          end
      end
  end.
Definition collect_repository_posture (ctxErr : option error) (collect : Z → string → result Posture) (installationID : Z)
    (repository : string) (detectedAt : Z) (ev : repoScanExternalEvidence) : result repoScanExternalEvidence :=
  match collect installationID repository with
  | Err e => source_failed ctxErr "github_repository_posture" "posture_collect_error" e ev
  | Ok posture =>
      mret (add_inconclusive (RepositoryPostureInconclusiveLifecycleKeys posture)
              (add_findings (RepositoryPostureFindings posture detectedAt) ev))
  end.
Definition collect_organization_posture (ctxErr : option error) (collect : Z → string → string → result OrganizationPosture)
    (installationID : Z) (repository : string) (detectedAt : Z) (ev : repoScanExternalEvidence) : result repoScanExternalEvidence :=
  match SplitN repository "/" 2 with
  | [owner; _] =>
      if decide (TrimSpace owner = "") then mret ev
      else
        match collect installationID owner repository with
        | Err e => source_failed ctxErr "github_organization_posture" "posture_collect_error" e ev
        | Ok posture =>
            let ev := add_inconclusive (OrganizationPostureInconclusiveLifecycleKeys posture repository) ev in
            mret (if githubOrganizationPostureAvailable posture
                  then add_findings (OrganizationPostureFindings posture repository detectedAt) ev else ev)
        end
  | _ => mret ev
  end.
Definition no_evidence : repoScanExternalEvidence := mkEvidence [] [] [].
Definition repoScanExternalFindings (ctxErr : option error) (record : RepoScanRecord) (detectedAt : Z)
    : result repoScanExternalEvidence :=
  let repository := RepoScan_Repository record in
  let installationID := RepoSource_InstallationID (RepoScanSource_Normalize (RepoScan_Source record)) in
  if negb (github_source (RepoScan_Source record)) then mret no_evidence
  else
    let alerts := λ name source, collect_alerts ctxErr name source installationID repository detectedAt in
    ev ← alerts "github_code_scanning" (GitHubCodeScanningAlertCollector sources) no_evidence;
    ev ← alerts "github_secret_scanning" (GitHubSecretScanningAlertCollector sources) ev;
    ev ← alerts "github_dependabot" (GitHubDependabotAlertCollector sources) ev;
    match GitHubRepositoryPostureCollector sources with
    | None => mret ev
    | Some (repository_posture, organization_posture) =>
        ev ← collect_repository_posture ctxErr repository_posture installationID repository detectedAt ev;
        collect_organization_posture ctxErr organization_posture installationID repository detectedAt ev
    end.

(** *** The findings *)
Definition enrichFindingsWithRepoContext (repositoryHints : list string) (findings : list RepoFinding) : list RepoFinding :=
  let defaultRepository := firstNonEmptyString repositoryHints in
  (λ f,
    let f := if bool_decide (RF_Repository f = "") && negb (bool_decide (defaultRepository = ""))
             then with_repository defaultRepository f else f in
    present_finding (NormalizeRepoFindingMetadata f)) <$> findings.
Definition isHighImpactRepoFinding (f : RepoFinding) : bool :=
  bool_decide (RF_Severity f = "critical") || bool_decide (RF_Severity f = "high").
Definition filterReportableRepoFindings (findings : list RepoFinding) : list RepoFinding :=
  filter (λ f, negb (float_ltb (RF_ConfidenceScore f) gitHubRepoFindingConfidenceFloor) && isHighImpactRepoFinding f = true) findings.
Definition repoScanUsesGitHubAppSource (record : RepoScanRecord) : bool :=
  bool_decide (RepoSource_Provider (RepoScanSource_Normalize (RepoScan_Source record)) = "github_app").

(** *** Choosing and running the scanner *)
Definition repoScanExecutorForRecord (ctx : Context) (record : RepoScanRecord) (historyLimit maxFindings : Z)
    : result (Executor * list string) :=
  let source := RepoScanSource_Normalize (RepoScan_Source record) in
  if RepoScanSource_Empty source then
    match RepoScannerFactory with
    | None => Err (Errorf "repo scanner factory is not configured")
    | Some factory => mret (factory historyLimit maxFindings, [])
    end
  else if decide (RepoSource_Provider source = "github_app") then
    match AuthenticatedRepoScannerFactory with
    | None => Err (Errorf "authenticated repo scanner factory is not configured")
    | Some factory =>
        credential ← githubAppRepoScanCredential ctx record;
        mret (factory historyLimit maxFindings credential, [Credential_Password credential])
    end
  else Err ErrInvalidRepoScanRequest.
Definition applyRepoScanContextToResult (target : string) (c : RepoScanContext) (r : ScanResult) : ScanResult :=
  let normalized := NormalizeRepoScanContext c in
  let or_blank := λ value fallback, if blank value then fallback else value in
  mkScanResult (or_blank (Result_Repository r) (TrimSpace target)) (Result_CommitsScanned r) (Result_FilesScanned r)
    (Result_Findings r) (Result_Truncated r) (or_blank (Result_ScanMode r) (Context_ScanMode normalized))
    (or_blank (Result_BaseRevision r) (Context_BaseRevision normalized))
    (or_blank (Result_HeadRevision r) (Context_HeadRevision normalized))
    (match Result_ChangedPaths r with [] => Context_ChangedPaths normalized | paths => paths end).
Definition repoScanLastDeepScannedAt (mode : string) (completedAt : Z) : option Z :=
  if EqualFold (TrimSpace mode) RepoScanModeDeep then Some completedAt else None.

(** *** Terminal writes *)
Definition completeRepoScanTerminal (ctxErr : option error) (ctx : Context) (repoScanID status : string)
    (finishedAt commits files count : Z) (truncated : bool) (c : RepoScanContext) (message : string) (t : RepoScanTables)
    : result RepoScanTables :=
  let write := λ ctx, CompleteRepoScan ctx repoScanID status finishedAt commits files count truncated c message t in
  let writeCtx := if shouldRetryTerminalWrite ctxErr then repo_terminal_context s ctx else ctx in
  match write writeCtx with
  | Ok t => mret t
  | Err e =>
      if errors_is e ErrConflict then Err e
      else if negb (shouldRetryTerminalWrite (Some e)) then Err e
      else write (repo_terminal_context s ctx)
  end.
(** The scan ended while it was being written: its findings are taken back. *)
Definition terminal_changed (ctx : Context) (repoScanID : string) (e : error) (t : RepoScanTables)
    : error * RepoScanTables :=
  let t := meanwhile BeforeCleanup t in
  match DeleteRepoFindings ctx repoScanID t with
  | Ok t => (WrapBoth errRepoScanTerminalStateChanged e, t)
  | Err cleanup =>
      if errors_is cleanup ErrNotFound then (WrapBoth errRepoScanTerminalStateChanged e, t)
      else (Wrap "clear terminal repo scan findings" cleanup, t)
  end.

(** *** One run *)
Definition with_mode (mode : string) (r : RepoScanRecord) : RepoScanRecord :=
  mkRepoScan (RepoScan_ID r) (RepoScan_TenantID r) (RepoScan_WorkspaceID r) (RepoScan_Repository r) (RepoScan_Status r)
    (RepoScan_StartedAt r) (RepoScan_FinishedAt r) (RepoScan_CommitsScanned r) (RepoScan_FilesScanned r)
    (RepoScan_FindingCount r) (RepoScan_Truncated r) (RepoScan_SourceHealth r) (RepoScan_SourceHealthDetails r) mode
    (RepoScan_BaseRevision r) (RepoScan_HeadRevision r) (RepoScan_CursorBefore r) (RepoScan_CursorAfter r)
    (RepoScan_ChangedPaths r) (RepoScan_ErrorMessage r) (RepoScan_HistoryLimit r) (RepoScan_MaxFindings r)
    (RepoScan_Source r) (RepoScan_TraceParent r) (RepoScan_TraceState r).
(** The record returned to the caller. *)
Definition finished_repo_record (now : Z) (r : RepoScanRecord) (result : ScanResult) (health : string)
    (details : list RepoScanSourceHealth) (cursorAfter : string) (historyLimit maxFindings : Z) : RepoScanRecord :=
  mkRepoScan (RepoScan_ID r) (RepoScan_TenantID r) (RepoScan_WorkspaceID r) (RepoScan_Repository r) "succeeded"
    (RepoScan_StartedAt r) (Some now) (Result_CommitsScanned result) (Result_FilesScanned result)
    (Z.of_nat (length (Result_Findings result))) (Result_Truncated result) health details (Result_ScanMode result)
    (Result_BaseRevision result) (Result_HeadRevision result) (RepoScan_CursorBefore r) cursorAfter
    (Result_ChangedPaths result) (RepoScan_ErrorMessage r) historyLimit maxFindings (RepoScan_Source r)
    (RepoScan_TraceParent r) (RepoScan_TraceState r).
Definition with_result (findings : list RepoFinding) (truncated : bool) (r : ScanResult) : ScanResult :=
  mkScanResult (Result_Repository r) (Result_CommitsScanned r) (Result_FilesScanned r) findings truncated
    (Result_ScanMode r) (Result_BaseRevision r) (Result_HeadRevision r) (Result_ChangedPaths r).

(** The scan's own findings with those of the GitHub sources: the result, the
    sources' errors and the keys they could not settle, or the error of a
    context that is done. *)
Definition gather (ctxErr : option error) (now : Z) (record : RepoScanRecord) (maxFindings : Z) (r : ScanResult)
    : (ScanResult * list SourceError * list string) + error :=
  if Result_Truncated r then inl (r, [], [])
  else
    match repoScanExternalFindings ctxErr record now with
    | Err e => if errors_is e Canceled || errors_is e DeadlineExceeded then inr e else inl (r, [], [])
    | Ok ev =>
        let '(findings, truncated) :=
          match External_Findings ev with
          | [] => (Result_Findings r, false)
          | external => MergeExternalFindings (Result_Findings r) external maxFindings
          end in
        inl (with_result findings truncated r, External_SourceErrors ev, External_InconclusiveLifecycleKeys ev)
    end.
Definition completion_context (r : ScanResult) (health : string) (details : list RepoScanSourceHealth) (inconclusive : list string)
    (cursorAfter : string) : RepoScanContext :=
  let partial := negb (bool_decide (health = RepoScanSourceHealthComplete)) in
  mkRepoContext (Result_ScanMode r) (Result_BaseRevision r) (Result_HeadRevision r) ""
    (if negb (Result_Truncated r) && negb partial then cursorAfter else "") (Result_ChangedPaths r) inconclusive partial health details.
Definition moved_cursor (now : Z) (record : RepoScanRecord) (cursorAfter : string) : RepoScanCursor :=
  mkCursor "" "" (RepoScan_Repository record) (RepoScan_Source record) cursorAfter
    (repoScanLastDeepScannedAt (RepoScan_ScanMode record) now) (RepoScan_ID record) (RepoScan_ScanMode record) now now.

(** Everything after the scanner: findings, terminal write, cursor. *)
Definition store_result (ctxErr : option error) (now : Z) (ctx : Context) (record : RepoScanRecord) (historyLimit maxFindings : Z)
    (r : ScanResult) (sourceErrors : list SourceError) (inconclusive : list string) (t : RepoScanTables)
    : result RepoScanRecord * RepoScanTables :=
  let details := repoScanSourceHealthDetails collectors record (Result_Truncated r) sourceErrors in
  let health := (NormalizeRepoScanSourceHealth "" details).1 in
  let findings := enrichFindingsWithRepoContext [Result_Repository r; RepoScan_Repository record] (Result_Findings r) in
  let findings := if repoScanUsesGitHubAppSource record then filterReportableRepoFindings findings else findings in
  let r := with_result findings (Result_Truncated r) r in
  let cursorAfter := firstNonEmptyString [Result_HeadRevision r; RepoScan_HeadRevision record] in
  let c := completion_context r health details inconclusive cursorAfter in
  match UpsertRepoFindings now ctx (RepoScan_ID record) findings t with
  | Err e =>
      if errors_is e ErrConflict then let '(e, t) := terminal_changed ctx (RepoScan_ID record) e t in (Err e, t)
      else (Err (Wrap "persist repo findings" e),
            ok_or t (completeRepoScanTerminal ctxErr ctx (RepoScan_ID record) "failed" now (Result_CommitsScanned r)
                       (Result_FilesScanned r) 0 (Result_Truncated r) zero_repo_context (error_string e) t))
  | Ok t =>
      let t := meanwhile BeforeComplete t in
      match completeRepoScanTerminal ctxErr ctx (RepoScan_ID record) "succeeded" now (Result_CommitsScanned r)
              (Result_FilesScanned r) (Z.of_nat (length findings)) (Result_Truncated r) c "" t with
      | Err e =>
          if errors_is e ErrConflict then let '(e, t) := terminal_changed ctx (RepoScan_ID record) e t in (Err e, t)
          else (Err (Wrap "complete repo scan" e), t)
      | Ok t =>
          let complete := negb (Result_Truncated r) && bool_decide (health = RepoScanSourceHealthComplete) in
          let moves := negb (bool_decide (cursorAfter = "")) && complete in
          let t := meanwhile BeforeCursor t in
          (Ok (finished_repo_record now record r health details (if moves then cursorAfter else RepoScan_CursorAfter record)
                 historyLimit maxFindings),
           if moves then ok_or t (UpsertRepoScanCursor ctx (moved_cursor now record cursorAfter) t) else t)
      end
  end.

Definition runRepoScanWithRecord (ctxErr : option error) (now : Z) (ctx : Context) (record : RepoScanRecord)
    (historyLimit maxFindings : Z) (t : RepoScanTables) : result RepoScanRecord * RepoScanTables :=
  let ctx := repo_scope_context s ctx in
  let target := TrimSpace (RepoScan_Repository record) in
  if decide (target = "") then (Err ErrInvalidRepoScanRequest, t)
  else
    let record := with_mode (Context_ScanMode (NormalizeRepoScanContext
                    (mkRepoContext (RepoScan_ScanMode record) "" "" "" "" [] [] false "" []))) record in
    let fail := λ e message commits files count truncated t,
      (Err e, ok_or t (completeRepoScanTerminal ctxErr ctx (RepoScan_ID record) "failed" now commits files count truncated
                         zero_repo_context message t)) in
    let invalid := fail ErrInvalidRepoScanRequest (error_string ErrInvalidRepoScanRequest) 0 0 0 false in
    match sanitizeRepoScanLimit historyLimit (RepoScanDefaultHistoryLimit s) (RepoScanMaxHistoryLimit s) with
    | Err _ => invalid t
    | Ok normalizedHistory =>
    match sanitizeRepoScanLimit maxFindings (RepoScanDefaultMaxFindings s) (RepoScanMaxFindingsLimit s) with
    | Err _ => invalid t
    | Ok normalizedMaxFindings =>
    match repoScanExecutorForRecord ctx record normalizedHistory normalizedMaxFindings with
    | Err e => fail e (error_string e) 0 0 0 false t
    | Ok (executor, scanSecrets) =>
        let scanContext := NormalizeRepoScanContext
          (mkRepoContext (RepoScan_ScanMode record) (RepoScan_BaseRevision record) (RepoScan_HeadRevision record) "" ""
             (RepoScan_ChangedPaths record) [] false "" []) in
        let t := meanwhile WhileScanning t in
        match run_executor executor target scanContext with
        | Err e =>
            let safeErr := sanitizeRepoScanError e scanSecrets in
            fail safeErr (error_string safeErr) 0 0 0 false t
        | Ok r =>
            let r := applyRepoScanContextToResult target scanContext r in
            match gather ctxErr now record normalizedMaxFindings r with
            | inr e => fail e (error_string e) (Result_CommitsScanned r) (Result_FilesScanned r)
                         (Z.of_nat (length (Result_Findings r))) (Result_Truncated r) t
            | inl (r, sourceErrors, inconclusive) =>
                store_result ctxErr now ctx record normalizedHistory normalizedMaxFindings r sourceErrors inconclusive t
            end
        end
    end end end.

(** ** One worker pass *)
Definition skipRepoScanIfWorkspaceInactive (ctxErr : option error) (now : Z) (ctx : Context) (record : RepoScanRecord)
    (d : DirectoryState) (t : RepoScanTables) : result (bool * RepoScanTables) :=
  let workspaceID := TrimSpace (RepoScan_WorkspaceID record) in
  let tenantID := TrimSpace (RepoScan_TenantID record) in
  if bool_decide (workspaceID = "") || bool_decide (tenantID = "") then Ok (false, t)
  else match GetWorkspace ctx workspaceID d with
       | Err e => if errors_is e ErrNotFound then Ok (false, t) else Err (Wrap "repo scan workspace lifecycle gate" e)
       | Ok workspace =>
           if bool_decide (Workspace_Status workspace = WorkspaceStatusActive) &&
              bool_decide (Workspace_DeletedAt workspace = None) then Ok (false, t)
           else
             let reason := "workspace lifecycle is " +:+ Workspace_Status workspace +:+ "; repo scan refused (see #1420)" in
             match completeRepoScanTerminal ctxErr ctx (RepoScan_ID record) "failed" now 0 0 0 false zero_repo_context reason t with
             | Err e => Err (Wrap "mark repo scan failed for inactive workspace" e)
             | Ok t => Ok (true, t)
             end
       end.

Record RepoWorker (L : Type) := mkRepoWorker { rw_tables : RepoScanTables; rw_directory : DirectoryState; rw_locker : L }.
Arguments mkRepoWorker {L} _ _ _.
Arguments rw_tables {L} _.
Arguments rw_directory {L} _.
Arguments rw_locker {L} _.
Definition with_tables {L} (t : RepoScanTables) (w : RepoWorker L) : RepoWorker L :=
  mkRepoWorker t (rw_directory w) (rw_locker w).

(** A lock of the service, if it uses any: the lease, if there is one to give
    back, and the locker; [None] when the lock is held. *)
Definition acquire `{Locker L} (key : string) (l : L) : option (option nat * L) :=
  if Repo_Locked s then
    match try_acquire (repo_lock_key s key) l with
    | None => None
    | Some (lease, l) => Some (Some lease, l)
    end
  else Some (None, l).
Definition give_back `{Locker L} (lease : option nat) (l : L) : L := match lease with Some lease => release lease l | None => l end.
Definition scan_lock (repository : string) : string := "repo-scan:" +:+ ToLower repository.

(** What happens to a claimed scan of an active workspace. *)
Definition run_claimed `{Locker L} (ctxErr : option error) (clock now : Z) (ctx : Context) (record : RepoScanRecord)
    (w : RepoWorker L) : (bool * option error) * RepoWorker L :=
  match acquire (scan_lock (RepoScan_Repository record)) (rw_locker w) with
  | None =>
      match RequeueRepoScan clock ctx (RepoScan_ID record) (rw_tables w) with
      | Err e => if errors_is e ErrNotFound then ((true, None), w) else ((false, Some (Wrap "requeue repo scan" e)), w)
      | Ok t => ((true, None), with_tables t w)
      end
  | Some (lease, l) =>
      let '(outcome, t) := runRepoScanWithRecord ctxErr now ctx record (RepoScan_HistoryLimit record) (RepoScan_MaxFindings record)
                             (rw_tables w) in
      let w := mkRepoWorker t (rw_directory w) (give_back lease l) in
      match outcome with
      | Ok _ => ((true, None), w)
      | Err e => ((true, if errors_is e errRepoScanTerminalStateChanged then None else Some e), w)
      end
  end.
Definition ProcessNextQueuedRepoScan `{Locker L} (ctxErr : option error) (clock now : Z) (ctx : Context) (w : RepoWorker L)
    : (bool * option error) * RepoWorker L :=
  let ctx := repo_scope_context s ctx in
  let '(t, failedStale) := FailStaleRepoScansAnyScope clock (now - defaultRepoScanRunningStaleAfter)
                             defaultRepoScanStaleFailureLimit staleRepoScanFailureMessage (rw_tables w) in
  if 0 <? failedStale then ((true, None), with_tables t w)
  else
    match ClaimNextQueuedRepoScanAnyScope clock t with
    | Err e => if errors_is e ErrNotFound then ((false, None), with_tables t w)
               else ((false, Some (Wrap "claim queued repo scan" e)), with_tables t w)
    | Ok (t, record) =>
        let ctx := WithScope ctx (mkScope (RepoScan_TenantID record) (RepoScan_WorkspaceID record)) in
        match skipRepoScanIfWorkspaceInactive ctxErr now ctx record (rw_directory w) t with
        | Err e => ((true, Some e), with_tables t w)
        | Ok (true, t) => ((true, None), with_tables t w)
        | Ok (false, t) => run_claimed ctxErr clock now ctx record (with_tables t w)
        end
    end.

(** A scan outside the queue. *)
Definition RunRepoScanPersisted `{URLParser, LocalGit, Locker L}
    (GetGitHubConnection : Context → string → string → result GitHubConnectionStatus) (ctxErr : option error) (newID : string)
    (now : Z) (ctx : Context) (request : RepoScanRequest) (w : RepoWorker L) : result RepoScanRecord * RepoWorker L :=
  let ctx := repo_scope_context s ctx in
  match accept_request s (rw_directory w) GetGitHubConnection ctx request (rw_tables w) with
  | Err e => (Err e, w)
  | Ok accepted =>
      match acquire (scan_lock (acc_target accepted)) (rw_locker w) with
      | None => (Err ErrRepoScanInProgress, w)
      | Some (lease, l) =>
          match CreateRepoScan newID ctx (acc_target accepted) (acc_source accepted) (acc_context accepted) now (rw_tables w) with
          | Err e => (Err (Wrap "create repo scan" e), mkRepoWorker (rw_tables w) (rw_directory w) (give_back lease l))
          | Ok (t, record) =>
              let '(outcome, t) := runRepoScanWithRecord ctxErr now ctx record (acc_historyLimit accepted)
                                     (acc_maxFindings accepted) t in
              (outcome, mkRepoWorker t (rw_directory w) (give_back lease l))
          end
      end
  end.
End worker.
#[global] Arguments mkRepoWorker {L} _ _ _.
#[global] Arguments rw_tables {L} _.
#[global] Arguments rw_directory {L} _.
#[global] Arguments rw_locker {L} _.
