(* ===== verification/RepoScanPasses.v ===== *)
(** * What a repository scan request and a worker pass guarantee

    Theorems about RepoScanService over the tables: which requests enter the
    queue, how a pass ends the scan it claims, and what is left of a scan that
    was ended by someone else while a worker was running it. *)
From S2P Require Import Prelude GoStrings GoCollections GoTime GoFloat GoText Runs Scope TenancyRecords Tenancy ScanQueue Scheduler ScanWorker RepoFindings RepoScanRecords RepoScanStore RepoFindingStore RepoLifecycle RepoScanRuns RepoTargets RepoScanService.

(** ** Limits *)
Definition effective_fallback (fallback : Z) : Z := if fallback <=? 0 then 1 else fallback.
Definition effective_max (fallback maxAllowed : Z) : Z := if maxAllowed <=? 0 then effective_fallback fallback else maxAllowed.
Lemma sanitizeRepoScanLimit_spec candidate fallback maxAllowed :
  match sanitizeRepoScanLimit candidate fallback maxAllowed with
  | Ok n => 1 ≤ n ≤ effective_max fallback maxAllowed ∧ n = (if candidate =? 0 then effective_fallback fallback else candidate)
  | Err e => e = ErrInvalidRepoScanRequest ∧
      (candidate < 0 ∨ effective_max fallback maxAllowed < (if candidate =? 0 then effective_fallback fallback else candidate))
  end.
Proof.
  unfold sanitizeRepoScanLimit. fold (effective_fallback fallback).
  assert (0 < effective_fallback fallback) as Hf by (unfold effective_fallback; case_match; lia).
  change (if maxAllowed <=? 0 then effective_fallback fallback else maxAllowed) with (effective_max fallback maxAllowed).
  destruct (Z.ltb_spec candidate 0); cbn; [by split; [|left]|].
  destruct (Z.eqb_spec candidate 0); destruct (Z.ltb_spec (effective_max fallback maxAllowed) (if candidate =? 0 then effective_fallback fallback else candidate)) as [Hl|Hl];
    subst; cbn in *; rewrite ?Z.eqb_refl in *; try rewrite (proj2 (Z.eqb_neq candidate 0)) in * by done.
  - rewrite (proj2 (Z.ltb_lt _ _) Hl). cbn. split; [done|]. by right.
  - rewrite (proj2 (Z.ltb_ge _ _) Hl). cbn. split; [lia|done].
  - rewrite (proj2 (Z.ltb_lt _ _) Hl). cbn. split; [done|]. by right.
  - rewrite (proj2 (Z.ltb_ge _ _) Hl). cbn. split; [lia|done].
Qed.

Section requests.
Context `{MapRange, SortSlice, FloatParser, URLParser, LocalGit}.
Context (s : RepoService) (d : DirectoryState) (GetGitHubConnection : Context → string → string → result GitHubConnectionStatus).

(** The repository is one the workspace selected in the GitHub App connection of
    the project the request names. *)
Definition from_connection (ctx : Context) (request : RepoScanRequest) (target : string) (source : RepoScanSource) : Prop :=
  ∃ scope project status,
    RequireScope (repo_scope_context s ctx) = Ok scope ∧
    projects d !! tenancyProjectKey (Scope_TenantID scope) (Scope_WorkspaceID scope) (Request_ProjectID request) = Some project ∧
    GetGitHubConnection ctx (Project_WorkspaceID project) (Project_ProjectID project) = Ok status ∧
    GitHub_Connected status = true ∧ EqualFold (GitHub_Provider status) "github_app" = true ∧
    repositorySelected (GitHub_SelectedRepositories status) target = true ∧
    0 < GitHub_InstallationID status ∧ RepoSource_InstallationID source = GitHub_InstallationID status ∧
    RepoSource_ProjectID source = TrimSpace (Project_ProjectID project) ∧ RepoSource_Provider source = "github_app".

Lemma translate_error_Ok {A} (r : result A) matched replacement x : translate_error r matched replacement = Ok x ↔ r = Ok x.
Proof. unfold translate_error. destruct r; [done|]. split; [by destruct (existsb _ _)|done]. Qed.

Lemma requireScopedProject_Ok ctx projectID project scope' :
  requireScopedProject s d ctx "" projectID = Ok (project, scope') →
  ∃ scope, RequireScope (repo_scope_context s ctx) = Ok scope ∧
    projects d !! tenancyProjectKey (Scope_TenantID scope) (Scope_WorkspaceID scope) projectID = Some project.
Proof.
  unfold requireScopedProject. intros Hok. open_bind Hok scope Hscope. open_bind Hok w Hw. open_bind Hok u _. open_bind Hok p Hp.
  injection Hok as <- _. exists scope. split; [done|]. unfold GetProject, scoped_workspace in Hp. rewrite Hscope in Hp.
  cbn [mbind result_bind] in Hp. pose proof (RequireScope_normal _ _ Hscope) as Hn.
  apply ResolveScopedWorkspaceID_Ok in Hw. rewrite Scope_Normalize_id in Hw by done. subst w.
  open_bind Hp [scope1 w1] Hw1. open_bind Hw1 w2 Hw2. injection Hw1 as <- <-.
  apply ResolveScopedWorkspaceID_Ok in Hw2. rewrite Scope_Normalize_id in Hw2 by done. subst w2.
  unfold tenancyProjectKey in *. rewrite TrimSpace_idemp in Hp. destruct (projects d !! _) eqn:E; [|done]. by injection Hp as ->.
Qed.

(** A list of names is selected up to the form in which names are compared. *)
Lemma resolveRepoScanSource_Ok ctx request target source :
  repoScanRequestUsesConnector request = true →
  resolveRepoScanSource s d GetGitHubConnection ctx target request = Ok source → from_connection ctx request target source.
Proof.
  unfold resolveRepoScanSource, repoScanRequestUsesConnector. intros Hc Hok.
  rewrite <-negb_andb in Hc. apply negb_true_iff in Hc. rewrite Hc in Hok.
  open_bind Hok u1 _. open_bind Hok [project scope'] Hp. open_bind Hok status Hst. open_bind Hok u2 _. open_bind Hok u3 Hg.
  open_bind Hok u4 Hsel. injection Hok as <-. apply translate_error_Ok in Hp, Hst. apply guard_err_Ok in Hg, Hsel.
  rewrite !andb_true_iff, Z.ltb_lt in Hg. destruct Hg as [[Hconn Hprov] Hinst].
  apply requireScopedProject_Ok in Hp as (scope & Hscope & Hproject).
  exists scope, project, status. split_and!; try done.
  unfold tenancyProjectKey in *. by rewrite TrimSpace_idemp in Hproject.
Qed.

Lemma validateRepoScanRequest_Ok ctx request accepted :
  validateRepoScanRequest s d GetGitHubConnection ctx request = Ok accepted →
  RepoScanEnabled s = true ∧
  1 ≤ acc_historyLimit accepted ≤ effective_max (RepoScanDefaultHistoryLimit s) (RepoScanMaxHistoryLimit s) ∧
  1 ≤ acc_maxFindings accepted ≤ effective_max (RepoScanDefaultMaxFindings s) (RepoScanMaxFindingsLimit s) ∧
  (if repoScanRequestUsesConnector request then from_connection ctx request (acc_target accepted) (acc_source accepted)
   else acc_target accepted = TrimSpace (Request_Repository request) ∧ acc_target accepted ≠ "" ∧
        acc_source accepted = no_repo_source ∧
        repoTargetAllowed (acc_target accepted) (RepoScanAllowedTargets s) = true).
Proof.
  unfold validateRepoScanRequest. intros Hok. open_bind Hok u1 Hen. open_bind Hok u2 Hne. open_bind Hok u3 _. open_bind Hok u4 _.
  open_bind Hok history Hh. open_bind Hok findings Hf. open_bind Hok u5 _.
  apply guard_err_Ok in Hen. apply guard_err_Ok, negb_true_iff, bool_decide_eq_false in Hne.
  pose proof (sanitizeRepoScanLimit_spec (Request_HistoryLimit request) (RepoScanDefaultHistoryLimit s) (RepoScanMaxHistoryLimit s)) as Hh'.
  rewrite Hh in Hh'. destruct Hh' as [Hhr _].
  pose proof (sanitizeRepoScanLimit_spec (Request_MaxFindings request) (RepoScanDefaultMaxFindings s) (RepoScanMaxFindingsLimit s)) as Hf'.
  rewrite Hf in Hf'. destruct Hf' as [Hfr _]. destruct (repoScanRequestUsesConnector request) eqn:Hc.
  - open_bind Hok u6 _. open_bind Hok source Hs. injection Hok as <-. cbn [acc_target acc_source acc_historyLimit acc_maxFindings]. split_and!; try (done || lia). by apply resolveRepoScanSource_Ok.
  - open_bind Hok u6 Ha. apply guard_err_Ok in Ha. injection Hok as <-. cbn [acc_target acc_source acc_historyLimit acc_maxFindings]. split_and!; try (done || lia).
Qed.

Definition effective_max_pending : Z := if RepoQueueMaxPending s <=? 0 then defaultRepoQueueMaxPending else RepoQueueMaxPending s.

(** C12. A repository scan that is accepted is enabled, within the limits of the
    service, and of a repository that may be scanned: one that the workspace
    selected in the GitHub App connection of a project of its own, or one on the
    allowlist.  No scan of that repository was queued or running in the workspace
    and the workspace's queue was not full; the scan, queued in the caller's scope
    with those limits, is the only row that changes. *)
Theorem EnqueueRepoScan_admits newID trace now ctx request t t' r
    (Hok : EnqueueRepoScan s d GetGitHubConnection newID trace now ctx request t = Ok (t', r)) :
  ∃ scope, RequireScope (repo_scope_context s ctx) = Ok scope ∧ RepoScanEnabled s = true ∧
    1 ≤ RepoScan_HistoryLimit r ≤ effective_max (RepoScanDefaultHistoryLimit s) (RepoScanMaxHistoryLimit s) ∧
    1 ≤ RepoScan_MaxFindings r ≤ effective_max (RepoScanDefaultMaxFindings s) (RepoScanMaxFindingsLimit s) ∧
    (if repoScanRequestUsesConnector request then
       ∃ target source, from_connection (repo_scope_context s ctx) request target source ∧
         RepoScan_Repository r = TrimSpace target ∧ RepoScan_Source r = RepoScanSource_Normalize source
     else RepoScan_Repository r = TrimSpace (Request_Repository request) ∧ RepoScan_Repository r ≠ "" ∧
       repoTargetAllowed (RepoScan_Repository r) (RepoScanAllowedTargets s) = true) ∧
    (∀ id x, repoScans t !! id = Some x → repo_in_scope scope x = true → repo_pending x = true →
       EqualFold (RepoScan_Repository x) (RepoScan_Repository r) = false) ∧
    count_repo_scans (repo_queued scope) t < effective_max_pending ∧
    repoScans t' = <[newID := r]> (repoScans t) ∧ repoFindings t' = repoFindings t ∧
    RepoScan_ID r = newID ∧ RepoScan_Status r = "queued" ∧ RepoScan_StartedAt r = now ∧ repo_in_scope scope r = true.
Proof.
  unfold EnqueueRepoScan in Hok. open_bind Hok accepted Hacc. unfold accept_request in Hacc. open_bind Hacc a Hval.
  open_bind Hacc cursor _. open_bind Hacc u0 _. injection Hacc as <-. cbn in Hok.
  apply validateRepoScanRequest_Ok in Hval as (Hen & Hh & Hf & Htarget). fold effective_max_pending in Hok.
  destruct (CreateQueuedRepoScanWithinLimit _ _ _ _ _ _ _ _ _ _ _) as [[t1 r1]|e] eqn:E; [|done]. injection Hok as -> ->.
  unfold CreateQueuedRepoScanWithinLimit in E. open_bind E scope Hscope. open_bind E u1 Hbusy. open_bind E u2 Hfull.
  rewrite enqueue_new in E. injection E as <- <-. apply guard_err_Ok, Z.eqb_eq in Hbusy. apply guard_err_Ok, Z.ltb_lt in Hfull.
  assert (0 < effective_max_pending) as Hpos by (unfold effective_max_pending, defaultRepoQueueMaxPending; destruct (Z.leb_spec (RepoQueueMaxPending s) 0); lia).
  rewrite (proj2 (Z.leb_gt _ _) Hpos) in Hfull.
  exists scope. split_and!; try done; try (cbn; lia).
  - cbn. rewrite !TrimSpace_idemp. destruct (repoScanRequestUsesConnector request); [by eauto|].
    destruct Htarget as (-> & ? & _ & ?). rewrite TrimSpace_idemp. done.
  - intros id x Hx Hin Hp. pose proof (count_repo_scans_zero _ _ _ _ Hbusy Hx) as Hno. unfold repo_busy in Hno.
    rewrite Hin, Hp, andb_true_r in Hno. cbn. by rewrite !TrimSpace_idemp.
  - unfold repo_in_scope. cbn. by apply MatchScope_stamped.
Qed.
End requests.

(** ** A pass is a sequence of calls on the tables *)
Section calls.
Context `{MapRange, SortSlice, FloatParser}.

(** [t'] comes from [t] by calls that are all [ok]. *)
Definition calls (ok : repo_op → Prop) (t t' : RepoScanTables) : Prop :=
  ∃ ops, repo_runs t ops t' ∧ ∀ op, op ∈ ops → ok op.
Lemma calls_refl ok t : calls ok t t.
Proof. exists []. split; [constructor|]. intros op Hop. by apply elem_of_nil in Hop. Qed.
Lemma repo_runs_app t ops t' ops' t'' : repo_runs t ops t' → repo_runs t' ops' t'' → repo_runs t (ops ++ ops') t''.
Proof. induction 1 as [|t op ops t' Hf _ IH]; [done|]. intros Hr. cbn. constructor; [done|]. by apply IH. Qed.
Lemma calls_trans ok t t' t'' : calls ok t t' → calls ok t' t'' → calls ok t t''.
Proof.
  intros (ops & Hr & Hok) (ops' & Hr' & Hok'). exists (ops ++ ops'). split; [by eapply repo_runs_app|].
  intros op [?|?]%elem_of_app; auto.
Qed.
(** A call that creates no scan. *)
Lemma calls_call (ok : repo_op → Prop) op t t' : created_id op = None → ok op → repo_call op t = Ok t' → calls ok t t'.
Proof.
  intros Hnew Hok Hcall. exists [op]. split; [|by intros op' ->%list_elem_of_singleton].
  replace t' with (repo_step t op) by (unfold repo_step; by rewrite Hcall). constructor; [|constructor].
  intros id E. congruence.
Qed.
Lemma calls_wf ok t t' : calls ok t t' → tables_wf t → tables_wf t'.
Proof.
  intros (ops & Hr & _) Hwf. apply (repo_runs_inv tables_wf (λ _, True) (λ op s _ Hw _ Hf, so_wf _ _ _ (repo_step_ok op s Hf Hw)) t ops); done.
Qed.
End calls.

Section passes.
Context `{MapRange, SortSlice, FloatParser}.
Context {Executor Credential Alerts Posture OrganizationPosture : Type}.
Context (s : RepoService).
Context (RepoScannerFactory : option (Z → Z → Executor)) (AuthenticatedRepoScannerFactory : option (Z → Z → Credential → Executor))
  (run_executor : Executor → string → RepoScanContext → result ScanResult)
  (githubAppRepoScanCredential : Context → RepoScanRecord → result Credential) (Credential_Password : Credential → string).
Context (sources : @GitHubSources Alerts Posture OrganizationPosture)
  (import_alerts : string → string → Alerts → Z → result (list RepoFinding))
  (RepositoryPostureFindings : Posture → Z → list RepoFinding) (RepositoryPostureInconclusiveLifecycleKeys : Posture → list string)
  (githubOrganizationPostureAvailable : OrganizationPosture → bool)
  (OrganizationPostureFindings : OrganizationPosture → string → Z → list RepoFinding)
  (OrganizationPostureInconclusiveLifecycleKeys : OrganizationPosture → string → list string).
Context (MergeExternalFindings : list RepoFinding → list RepoFinding → Z → list RepoFinding * bool)
  (present_finding : RepoFinding → RepoFinding).
Context (meanwhile : run_point → RepoScanTables → RepoScanTables).

Notation run := (runRepoScanWithRecord s RepoScannerFactory AuthenticatedRepoScannerFactory run_executor githubAppRepoScanCredential
  Credential_Password sources import_alerts RepositoryPostureFindings RepositoryPostureInconclusiveLifecycleKeys
  githubOrganizationPostureAvailable OrganizationPostureFindings OrganizationPostureInconclusiveLifecycleKeys
  MergeExternalFindings present_finding meanwhile).
Notation store := (store_result s sources present_finding meanwhile).
Notation pass := (ProcessNextQueuedRepoScan s RepoScannerFactory AuthenticatedRepoScannerFactory run_executor githubAppRepoScanCredential
  Credential_Password sources import_alerts RepositoryPostureFindings RepositoryPostureInconclusiveLifecycleKeys
  githubOrganizationPostureAvailable OrganizationPostureFindings OrganizationPostureInconclusiveLifecycleKeys
  MergeExternalFindings present_finding meanwhile).

Section refinement.
Context (ok : repo_op → Prop) (Hquiet : ∀ op, created_id op = None → ok op).
Context (Hmeanwhile : ∀ p t, calls ok t (meanwhile p t)).

Lemma quiet_call op t t' : created_id op = None → repo_call op t = Ok t' → calls ok t t'.
Proof using Hquiet. intros Hn. apply calls_call; auto. Qed.
Lemma completeRepoScanTerminal_calls ctxErr ctx id status finishedAt commits files count truncated c message t t' :
  completeRepoScanTerminal s ctxErr ctx id status finishedAt commits files count truncated c message t = Ok t' → calls ok t t'.
Proof using Hquiet.
  unfold completeRepoScanTerminal. cbv zeta. intros Hok.
  assert (∀ ctx, CompleteRepoScan ctx id status finishedAt commits files count truncated c message t = Ok t' → calls ok t t') as Hone.
  { intros ctx' E. by apply (quiet_call (RComplete ctx' id status finishedAt commits files count truncated c message)). }
  set (write_ctx := if shouldRetryTerminalWrite ctxErr then _ else ctx) in Hok.
  destruct (CompleteRepoScan write_ctx _ _ _ _ _ _ _ _ _ _) as [t1|e] eqn:E; [injection Hok as <-; by eapply Hone|].
  destruct (errors_is e ErrConflict); [done|]. destruct (negb _); [done|]. by eapply Hone.
Qed.
Lemma ok_or_calls (r : result RepoScanTables) t : (∀ t', r = Ok t' → calls ok t t') → calls ok t (ok_or t r).
Proof using. intros Hr. destruct r as [t'|e]; [by apply Hr|apply calls_refl]. Qed.
Lemma terminal_changed_calls ctx id e t : calls ok t (terminal_changed meanwhile ctx id e t).2.
Proof using Hquiet Hmeanwhile.
  unfold terminal_changed. cbv zeta. eapply calls_trans; [apply (Hmeanwhile BeforeCleanup)|].
  destruct (DeleteRepoFindings _ _ _) as [t'|e'] eqn:E; [|case_match; apply calls_refl]. by apply (quiet_call (RDeleteFindings ctx id)).
Qed.
Lemma store_calls ctxErr now ctx record historyLimit maxFindings r sourceErrors inconclusive t :
  calls ok t (store ctxErr now ctx record historyLimit maxFindings r sourceErrors inconclusive t).2.
Proof using Hquiet Hmeanwhile.
  unfold store_result. cbv zeta. destruct (UpsertRepoFindings _ _ _ _ _) as [t1|e] eqn:Eu.
  - eapply calls_trans; [by eapply (quiet_call (RUpsertFindings _ _ _ _)); [|exact Eu]|].
    eapply calls_trans; [apply (Hmeanwhile BeforeComplete)|].
    destruct (completeRepoScanTerminal _ _ _ _ _ _ _ _ _ _ _ _ _) as [t2|e] eqn:Ec.
    + eapply calls_trans; [by eapply completeRepoScanTerminal_calls|]. eapply calls_trans; [apply (Hmeanwhile BeforeCursor)|].
      cbn [snd]. destruct (negb _ && _); [|apply calls_refl]. apply ok_or_calls. intros t3 E3. by eapply (quiet_call (RUpsertCursor _ _)); [|exact E3].
    + destruct (errors_is e ErrConflict); [|apply calls_refl]. rewrite (surjective_pairing (terminal_changed _ _ _ _ _)). apply terminal_changed_calls.
  - destruct (errors_is e ErrConflict).
    + rewrite (surjective_pairing (terminal_changed _ _ _ _ _)). apply terminal_changed_calls.
    + apply ok_or_calls. intros t1. apply completeRepoScanTerminal_calls.
Qed.
Lemma run_calls ctxErr now ctx record historyLimit maxFindings t :
  calls ok t (run ctxErr now ctx record historyLimit maxFindings t).2.
Proof using Hquiet Hmeanwhile.
  unfold runRepoScanWithRecord. cbv zeta. destruct (decide _); [apply calls_refl|].
  assert (∀ status message t, calls ok t (ok_or t (completeRepoScanTerminal s ctxErr (repo_scope_context s ctx) (RepoScan_ID record)
    status now 0 0 0 false zero_repo_context message t))) as Hfail.
  { intros status message t1. apply ok_or_calls. intros t2. apply completeRepoScanTerminal_calls. }
  destruct (sanitizeRepoScanLimit historyLimit _ _); [|apply Hfail]. destruct (sanitizeRepoScanLimit maxFindings _ _); [|apply Hfail].
  destruct (repoScanExecutorForRecord _ _ _ _ _ _ _ _) as [[executor secrets]|]; [|apply Hfail].
  eapply calls_trans; [apply (Hmeanwhile WhileScanning)|]. destruct (run_executor _ _ _); [|apply Hfail].
  destruct (gather _ _ _ _ _ _ _ _ _ _ _ _ _) as [[[r1 errs] inc]|e]; [apply store_calls|].
  apply ok_or_calls. intros t2. apply completeRepoScanTerminal_calls.
Qed.
Lemma skip_calls ctxErr now ctx record d t b t' :
  skipRepoScanIfWorkspaceInactive s ctxErr now ctx record d t = Ok (b, t') → calls ok t t'.
Proof using Hquiet.
  unfold skipRepoScanIfWorkspaceInactive. cbv zeta. destruct (_ || _); [intros [= _ <-]; apply calls_refl|].
  destruct (GetWorkspace _ _ _) as [workspace|e].
  - destruct (_ && _); [intros [= _ <-]; apply calls_refl|]. destruct (completeRepoScanTerminal _ _ _ _ _ _ _ _ _ _ _ _ _) as [t1|] eqn:E; [|done].
    intros [= _ <-]. by eapply completeRepoScanTerminal_calls.
  - destruct (errors_is e ErrNotFound); [|done]. intros [= _ <-]. apply calls_refl.
Qed.
Lemma pass_calls `{Locker L} ctxErr clock now ctx (w : RepoWorker L) :
  calls ok (rw_tables w) (rw_tables (pass ctxErr clock now ctx w).2).
Proof using Hquiet Hmeanwhile.
  unfold ProcessNextQueuedRepoScan. cbv zeta.
  pose proof (quiet_call (RFailStale clock (now - defaultRepoScanRunningStaleAfter) defaultRepoScanStaleFailureLimit
    staleRepoScanFailureMessage) (rw_tables w) _ eq_refl eq_refl) as Hstale.
  destruct (FailStaleRepoScansAnyScope _ _ _ _ _) as [t n]. cbn [fst] in Hstale. destruct (0 <? n); [done|].
  eapply calls_trans; [exact Hstale|]. destruct (ClaimNextQueuedRepoScanAnyScope clock t) as [[t1 record]|e] eqn:Ec; [|case_match; apply calls_refl].
  eapply calls_trans; [apply (quiet_call (RClaimAny clock) _ t1); [done|cbn [repo_call]; by rewrite Ec]|].
  destruct (skipRepoScanIfWorkspaceInactive _ _ _ _ _ _ _) as [[[] t2]|e] eqn:Es; [by eapply skip_calls| |apply calls_refl].
  eapply calls_trans; [by eapply skip_calls|]. unfold run_claimed. cbn [rw_locker rw_tables with_tables].
  destruct (acquire _ _ _) as [[lease l]|].
  - match goal with |- context [runRepoScanWithRecord _ _ _ _ _ _ _ _ _ _ _ _ _ _ _ _ ?e ?n ?c ?r ?h ?f t2] =>
      pose proof (run_calls e n c r h f t2) as Hrun end.
    destruct (runRepoScanWithRecord _ _ _ _ _ _ _ _ _ _ _ _ _ _ _ _ _ _ _ _ _ _ _) as [[r|e] t3]; [done|]. done.
  - destruct (RequeueRepoScan _ _ _ _) as [t3|e] eqn:Er; [|case_match; apply calls_refl].
    by apply (quiet_call (RRequeue _ _ _)) in Er.
Qed.
End refinement.

(** C7. A worker pass, whatever it does and however it ends, changes the tables
    only through the calls of the store, none of which queues or creates a scan.
    When other clients, at any point of the scan it runs, make such calls too,
    queue scans through the admission check only and take no id twice, then the
    tables stay well-formed, at most one scan of a repository is pending, and a
    scan that was over stays as it ended. *)
Theorem worker_pass_refines_store `{Locker L} ctxErr clock now ctx (w : RepoWorker L) id
    (Hmeanwhile : ∀ p t, calls (λ op, admission_checked op ∧ created_id op ≠ Some id) t (meanwhile p t)) :
  let t := rw_tables w in let t' := rw_tables (pass ctxErr clock now ctx w).2 in
  calls (λ op, admission_checked op ∧ created_id op ≠ Some id) t t' ∧
  (tables_wf t → tables_wf t' ∧ (one_pending t → one_pending t') ∧
   ∀ r r', repoScans t !! id = Some r → repo_pending r = false → repoScans t' !! id = Some r' →
     r' = with_finding_count (RepoScan_FindingCount r') r).
Proof.
  cbv zeta. assert (∀ op, created_id op = None → admission_checked op ∧ created_id op ≠ Some id) as Hquiet.
  { intros op E. split; [by destruct op|congruence]. }
  pose proof (pass_calls _ Hquiet Hmeanwhile ctxErr clock now ctx w) as Hcalls. split; [done|]. intros Hwf.
  split; [by eapply calls_wf|]. destruct Hcalls as (ops & Hruns & Hops). split.
  - intros Hone. apply (repo_runs_inv one_pending admission_checked (λ op t Hi Hw Ha Hf, one_pending_step op t Hw Hf Ha Hi)
      (rw_tables w) ops); try done. intros op Hop. by apply Hops.
  - intros r r' Hr Hover Hr'.
    assert (scan_frozen id r (rw_tables w) (rw_tables w)) as Hstart.
    { split; [|intros key f Hf Hid; by exists f]. intros x Hx. rewrite Hr in Hx. injection Hx as <-. by destruct r. }
    destruct (repo_runs_inv (scan_frozen id r (rw_tables w)) (λ op, created_id op ≠ Some id)
      (λ op t Hi Hw Hc Hf, scan_frozen_step id r _ t op Hover Hc Hw Hf Hi) _ ops _ Hruns Hwf Hstart) as [Hrow _];
      [intros op Hop; by apply Hops|]. by apply Hrow.
Qed.

(** *** Ending a scan *)
Lemma mark_missing_scans scope scan now close inc cur l : ∀ t,
  repoScans (foldl (mark_missing scope scan now close inc cur) t l) = repoScans t.
Proof using.
  induction l as [|[key f] l IH]; intros t; [done|]. cbn [foldl]. rewrite IH. unfold mark_missing.
  destruct (other_scan _ _ _ _ _) as [record|]; [|done]. cbv zeta. by case_match.
Qed.
Lemma upsert_scans now scope id scan l : ∀ t, repoScans (foldl (upsert_finding now scope id scan) t l) = repoScans t.
Proof using. induction l as [|f l IH]; intros t; [done|]. cbn [foldl]. by rewrite IH. Qed.

Lemma repo_terminal_scope ctx scope : RequireScope ctx = Ok scope → RequireScope (repo_terminal_context s ctx) = Ok scope.
Proof using.
  unfold repo_terminal_context, repo_scope_context, WithDefaultScope, ScopeFromContext. intros Hs. pose proof (RequireScope_normal _ _ Hs) as Hn.
  unfold RequireScope in Hs. destruct (LookupScope ctx) as [x|] eqn:E; [|done]. rewrite E. injection Hs as Hs.
  by rewrite RequireScope_WithScope, Hs.
Qed.

(** The row [x] of the scan [r] that ended with [status]. *)
Definition ended (status message : string) (now : Z) (r x : RepoScanRecord) : Prop :=
  same_target r x ∧ RepoScan_Status x = status ∧ RepoScan_FinishedAt x = Some now ∧ RepoScan_ErrorMessage x = TrimSpace message.
Lemma CompleteRepoScan_pending ctx scope id status now commits files count truncated c message t r :
  RequireScope ctx = Ok scope → repoScans t !! id = Some r → repo_in_scope scope r = true → repo_pending r = true →
  ∃ t' x, CompleteRepoScan ctx id status now commits files count truncated c message t = Ok t' ∧
    repoScans t' = <[id := x]> (repoScans t) ∧ ended (TrimSpace status) message now r x.
Proof using.
  intros Hscope Hr Hin Hp. unfold CompleteRepoScan. rewrite Hscope. cbn [mbind result_bind].
  rewrite (proj2 (scoped_repo_scan_Ok _ _ _ _) (conj Hr Hin)). cbn [mbind result_bind]. rewrite Hp. cbn [guard_err mbind result_bind].
  match goal with |- context [put_repo_scan id ?x t] => eexists _, x; split; [reflexivity|split; [|done]] end.
  case_match; [|done]. unfold markMissingRepoFindingsFixedLocked. by rewrite mark_missing_scans.
Qed.
Lemma completeRepoScanTerminal_pending ctxErr ctx scope id status now commits files count truncated c message t r :
  RequireScope ctx = Ok scope → repoScans t !! id = Some r → repo_in_scope scope r = true → repo_pending r = true →
  ∃ t' x, completeRepoScanTerminal s ctxErr ctx id status now commits files count truncated c message t = Ok t' ∧
    repoScans t' = <[id := x]> (repoScans t) ∧ ended (TrimSpace status) message now r x.
Proof using.
  intros Hscope Hr Hin Hp. unfold completeRepoScanTerminal. cbv zeta.
  set (write_ctx := if shouldRetryTerminalWrite ctxErr then _ else ctx).
  assert (RequireScope write_ctx = Ok scope) as Hw by (unfold write_ctx; case_match; [by apply repo_terminal_scope|done]).
  destruct (CompleteRepoScan_pending write_ctx scope id status now commits files count truncated c message t r Hw Hr Hin Hp)
    as (t' & x & -> & ? & ?). by exists t', x.
Qed.

(** *** When nobody interferes *)
Section alone.
Context (Halone : ∀ p t, meanwhile p t = t).

Lemma fold_put_same t l : (∀ x, x ∈ l → False) → foldl (λ t r, put_repo_scan (RepoScan_ID r) r t) t l = t.
Proof using. destruct l as [|x l]; [done|]. intros Hno. destruct (Hno x). by left. Qed.

Lemma store_finishes ctxErr now ctx scope record historyLimit maxFindings result errs inc t r :
  RequireScope ctx = Ok scope → repoScans t !! RepoScan_ID record = Some r → repo_in_scope scope r = true → repo_pending r = true →
  ∃ x finished t', store ctxErr now ctx record historyLimit maxFindings result errs inc t = (Ok finished, t') ∧
    repoScans t' = <[RepoScan_ID record := x]> (repoScans t) ∧ ended "succeeded" "" now r x.
Proof using Halone.
  intros Hscope Hr Hin Hp. unfold store_result. cbv zeta.
  unfold UpsertRepoFindings at 1. rewrite Hscope. cbn [mbind result_bind].
  rewrite (proj2 (scoped_repo_scan_Ok _ _ _ _) (conj Hr Hin)). cbn [mbind result_bind]. rewrite Hp. cbn [guard_err mbind result_bind mret result_ret].
  rewrite !Halone.
  match goal with |- context [completeRepoScanTerminal _ _ _ _ _ _ ?co ?fi ?n ?b ?c ?m ?t1] =>
    destruct (completeRepoScanTerminal_pending ctxErr ctx scope (RepoScan_ID record) "succeeded" now co fi n b c m t1 r Hscope) as (t2 & x & E & Hs & Hx); [by rewrite upsert_scans|done|done|] end.
  rewrite E. rewrite !Halone. exists x. do 2 eexists. split; [reflexivity|]. split; [|exact Hx].
  rewrite upsert_scans in Hs. clear E. destruct (negb _ && (negb _ && _)); [|done]. unfold UpsertRepoScanCursor. destruct (RequireScope ctx) as [sc|]; [|done].
  cbn [mbind result_bind]. cbv zeta. by destruct (guard_err _ _).
Qed.
Lemma run_finishes ctxErr now ctx scope record historyLimit maxFindings t r :
  RequireScope (repo_scope_context s ctx) = Ok scope → repoScans t !! RepoScan_ID record = Some r → repo_in_scope scope r = true →
  repo_pending r = true → TrimSpace (RepoScan_Repository record) ≠ "" →
  ∃ x outcome t', run ctxErr now ctx record historyLimit maxFindings t = (outcome, t') ∧
    repoScans t' = <[RepoScan_ID record := x]> (repoScans t) ∧
    match outcome with Ok _ => ended "succeeded" "" now r x | Err e => ended "failed" (error_string e) now r x end.
Proof using Halone.
  intros Hscope Hr Hin Hp Hne. unfold runRepoScanWithRecord. cbv zeta. rewrite decide_False by done.
  assert (∀ e commits files count truncated, ∃ x outcome t',
    (@Err RepoScanRecord e, ok_or t (completeRepoScanTerminal s ctxErr (repo_scope_context s ctx) (RepoScan_ID record)
      "failed" now commits files count truncated zero_repo_context (error_string e) t)) = (outcome, t') ∧
    repoScans t' = <[RepoScan_ID record := x]> (repoScans t) ∧
    match outcome with Ok _ => ended "succeeded" "" now r x | Err e => ended "failed" (error_string e) now r x end) as Hfail.
  { intros e commits files count truncated.
    destruct (completeRepoScanTerminal_pending ctxErr _ scope (RepoScan_ID record) "failed" now commits files count truncated
      zero_repo_context (error_string e) t r Hscope Hr Hin Hp) as (t' & x & E & Hs & Hx).
    rewrite E. by exists x, (Err e), t'. }
  destruct (sanitizeRepoScanLimit historyLimit _ _); [|apply Hfail]. destruct (sanitizeRepoScanLimit maxFindings _ _); [|apply Hfail].
  destruct (repoScanExecutorForRecord _ _ _ _ _ _ _ _) as [[executor secrets]|]; [|apply Hfail].
  rewrite Halone. destruct (run_executor _ _ _) as [result|]; [|apply Hfail].
  destruct (gather _ _ _ _ _ _ _ _ _ _ _ _ _) as [[[r1 errs] inc]|e]; [|apply Hfail].
  match goal with |- context [store_result _ _ _ _ ?e ?n ?c ?rec ?h ?f ?r1 ?er ?i t] =>
    destruct (store_finishes e n c scope rec h f r1 er i t r Hscope Hr Hin Hp) as (x & finished & t' & -> & Hs & Hx) end.
  by exists x, (Ok finished), t'.
Qed.

Lemma GetWorkspace_Err ctx scope workspaceID d e : RequireScope ctx = Ok scope → GetWorkspace ctx workspaceID d = Err e → e = ErrNotFound.
Proof using.
  unfold GetWorkspace, scoped_workspace. intros ->. cbn [mbind result_bind]. unfold ResolveScopedWorkspaceID. cbv zeta.
  destruct (decide (_ ≠ _)); cbn; [by intros [= <-]|]. destruct (workspaces d !! _); [done|by intros [= <-]].
Qed.
Lemma no_stale_scans clock cutoff limit message t : tables_wf t →
  (∀ id r, repoScans t !! id = Some r → repo_stale cutoff r = false) → FailStaleRepoScansAnyScope clock cutoff limit message t = (t, 0).
Proof using.
  intros Hwf Hno. unfold FailStaleRepoScansAnyScope. destruct (limit <=? 0); [done|]. cbv zeta.
  match goal with |- context [truncate limit ?l] => assert (truncate limit l = []) as -> end; [|done].
  apply elem_of_nil_inv. intros r Hr. apply elem_of_truncate, elem_of_sort_slice, list_elem_of_filter in Hr as [Hst Hr].
  apply ordered_repo_scans_elem in Hr; [|done]. by rewrite (Hno _ _ Hr) in Hst.
Qed.

(** The workspace of a scan takes no scans. *)
Definition workspace_closed (d : DirectoryState) (r : RepoScanRecord) : Prop :=
  ∃ workspace, GetWorkspace (WithScope None (mkScope (RepoScan_TenantID r) (RepoScan_WorkspaceID r)))
      (TrimSpace (RepoScan_WorkspaceID r)) d = Ok workspace ∧
    ¬ (Workspace_Status workspace = WorkspaceStatusActive ∧ Workspace_DeletedAt workspace = None).

Lemma skip_closed ctxErr now ctx record d t r :
  RepoScan_TenantID record = RepoScan_TenantID r → RepoScan_WorkspaceID record = RepoScan_WorkspaceID r →
  repoScans t !! RepoScan_ID record = Some r → repo_in_scope (mkScope (RepoScan_TenantID r) (RepoScan_WorkspaceID r)) r = true →
  repo_pending r = true →
  (workspace_closed d r ∧ ∃ x t' message,
     skipRepoScanIfWorkspaceInactive s ctxErr now (WithScope ctx (mkScope (RepoScan_TenantID record) (RepoScan_WorkspaceID record)))
       record d t = Ok (true, t') ∧ repoScans t' = <[RepoScan_ID record := x]> (repoScans t) ∧ ended "failed" message now r x) ∨
  (¬ workspace_closed d r ∧
     skipRepoScanIfWorkspaceInactive s ctxErr now (WithScope ctx (mkScope (RepoScan_TenantID record) (RepoScan_WorkspaceID record)))
       record d t = Ok (false, t)).
Proof using.
  intros Et Ew Hr Hin Hp. unfold skipRepoScanIfWorkspaceInactive. cbv zeta. rewrite Et, Ew. pose proof Hin as Hscope.
  unfold repo_in_scope in Hscope. apply MatchScope_true in Hscope as [Ht Hw]. rewrite Ht, Hw.
  destruct (Scope_Normalize_normal (mkScope (RepoScan_TenantID r) (RepoScan_WorkspaceID r))) as (_ & Hnt & _ & Hnw).
  rewrite !bool_decide_eq_false_2 by done. cbn [orb].
  pose proof (RequireScope_WithScope ctx (mkScope (RepoScan_TenantID r) (RepoScan_WorkspaceID r))) as Hreq.
  unfold workspace_closed. rewrite Hw.
  change (WithScope None (mkScope (RepoScan_TenantID r) (RepoScan_WorkspaceID r)))
    with (WithScope ctx (mkScope (RepoScan_TenantID r) (RepoScan_WorkspaceID r))).
  destruct (GetWorkspace _ _ _) as [workspace|e] eqn:Eg.
  2: { right. split; [by intros (? & ? & _)|]. by rewrite (GetWorkspace_Err _ _ _ _ _ Hreq Eg). }
  destruct (bool_decide (Workspace_Status workspace = WorkspaceStatusActive) && bool_decide (Workspace_DeletedAt workspace = None)) eqn:Ea.
  - right. split; [|done]. intros (w' & [= <-] & Hclosed). apply Hclosed. by rewrite andb_true_iff, !bool_decide_eq_true in Ea.
  - left. split.
    { exists workspace. split; [done|]. intros [Ha Hd]. by rewrite !bool_decide_eq_true_2 in Ea. }
    match goal with |- context [completeRepoScanTerminal _ _ ?c ?id _ _ _ _ _ _ _ ?m _] =>
      destruct (completeRepoScanTerminal_pending ctxErr c _ id "failed" now 0 0 0 false zero_repo_context m t r Hreq Hr)
        as (t' & x & -> & Hs & Hx); [|done|by exists x, t', m] end.
    unfold repo_in_scope. apply MatchScope_true. by rewrite Scope_Normalize_idemp.
Qed.

Lemma ordered_of t id r : tables_wf t → repoScans t !! id = Some r → r ∈ ordered_repo_scans t.
Proof using.
  intros Hwf Hr. apply list_elem_of_fmap. exists id. split; [by rewrite Hr|]. apply (wf_order _ Hwf). by exists r.
Qed.
Lemma claim_nothing now t e : tables_wf t → ClaimNextQueuedRepoScanAnyScope now t = Err e →
  ∀ id r, repoScans t !! id = Some r → status_is "queued" r = true → False.
Proof using.
  unfold ClaimNextQueuedRepoScanAnyScope, claimNextQueuedRepoScanLocked. intros Hwf Hc id r Hr Hq.
  assert (compare_ok repo_started) as Hok by apply (compare_ok_on RepoScan_StartedAt), compare_ok_Z.
  pose proof (select_best_spec repo_started (filter (λ r, repo_claimable None r = true) (ordered_repo_scans t)) Hok) as Hbest.
  destruct (select_best _ _) as [b|]; [done|].
  assert (r ∈ filter (λ r, repo_claimable None r = true) (ordered_repo_scans t)) as Hin.
  { apply list_elem_of_filter. split; [done|]. by eapply ordered_of. }
  rewrite Hbest in Hin. by apply elem_of_nil in Hin.
Qed.

(** C8. Suppose that nobody else touches the tables while the pass runs, and that
    every stored scan names a repository and carries its tenant and workspace.
    Then a worker pass that finds no stale scan takes the queued scan that has
    waited longest, and leaves it neither running nor lost: if its workspace is
    closed, the scan has failed now; if another worker holds the lock of its
    repository, it is queued again; otherwise it has succeeded, or has failed with
    the error that the pass reports, and the lock is given back.  No other scan
    changes.  (Writes by other clients during a pass are treated separately, in
    this file's other two properties of the worker.) *)
Theorem worker_pass_ends_scan `{Locker L} ctxErr clock now ctx (w : RepoWorker L)
    (Hwf : tables_wf (rw_tables w))
    (Hscoped : ∀ id r, repoScans (rw_tables w) !! id = Some r →
       repo_in_scope (mkScope (RepoScan_TenantID r) (RepoScan_WorkspaceID r)) r = true ∧ TrimSpace (RepoScan_Repository r) ≠ "")
    (Hfresh : ∀ id r, repoScans (rw_tables w) !! id = Some r → repo_stale (now - defaultRepoScanRunningStaleAfter) r = false)
    (Hqueued : ∃ id r, repoScans (rw_tables w) !! id = Some r ∧ status_is "queued" r = true) :
  ∃ r x reported w', pass ctxErr clock now ctx w = ((true, reported), w') ∧
    repoScans (rw_tables w) !! RepoScan_ID r = Some r ∧ status_is "queued" r = true ∧
    (∀ id y, repoScans (rw_tables w) !! id = Some y → status_is "queued" y = true → RepoScan_StartedAt r ≤ RepoScan_StartedAt y) ∧
    repoScans (rw_tables w') = <[RepoScan_ID r := x]> (repoScans (rw_tables w)) ∧ same_target r x ∧
    ((workspace_closed (rw_directory w) r ∧ (∃ message, ended "failed" message now r x) ∧ reported = None ∧ rw_locker w' = rw_locker w) ∨
     (¬ workspace_closed (rw_directory w) r ∧
      match acquire s (scan_lock (RepoScan_Repository r)) (rw_locker w) with
      | None => RepoScan_Status x = "queued" ∧ RepoScan_StartedAt x = clock ∧ reported = None ∧ rw_locker w' = rw_locker w
      | Some (lease, l) => rw_locker w' = give_back lease l ∧
          (ended "succeeded" "" now r x ∧ reported = None ∨
           ∃ e, ended "failed" (error_string e) now r x ∧
             reported = if errors_is e errRepoScanTerminalStateChanged then None else Some e)
      end)).
Proof using Halone.
  unfold ProcessNextQueuedRepoScan. cbv zeta. rewrite no_stale_scans by done. cbn [Z.ltb Z.compare].
  destruct (ClaimNextQueuedRepoScanAnyScope clock (rw_tables w)) as [[t1 record]|e] eqn:Ec.
  2: { exfalso. destruct Hqueued as (id & r & Hr & Hq). apply (claim_nothing clock (rw_tables w) e Hwf Ec id r Hr Hq). }
  destruct (claim_spec clock None (rw_tables w) t1 record Hwf Ec) as (r & Hr & Hcl & Hmin & -> & ->).
  destruct (Hscoped _ _ Hr) as [Hin Hne]. set (r1 := with_run "running" clock r).
  assert (repoScans (put_repo_scan (RepoScan_ID r) r1 (rw_tables w)) !! RepoScan_ID r = Some r1) as Hr1 by apply lookup_insert_eq.
  assert (∀ status message x, ended status message now r1 x → ended status message now r x) as Hended by done.
  assert (repo_pending r1 = true) as Hp1 by done.
  set (record := with_run "running" (RepoScan_StartedAt r) r).
  assert (∀ id y, repoScans (rw_tables w) !! id = Some y → status_is "queued" y = true → RepoScan_StartedAt r ≤ RepoScan_StartedAt y)
    as Holdest by (intros id y Hy Hq; apply Hmin; [by eapply ordered_of|done]).
  assert (∀ x, <[RepoScan_ID r := x]> (repoScans (put_repo_scan (RepoScan_ID r) r1 (rw_tables w))) =
    <[RepoScan_ID r := x]> (repoScans (rw_tables w))) as Hput by (intros x; apply insert_insert_eq).
  destruct (skip_closed ctxErr now (repo_scope_context s ctx) record (rw_directory w) _ r1 eq_refl eq_refl Hr1 Hin Hp1)
    as [(Hclosed & x & t' & message & -> & Hs & Hx)|[Hopen ->]].
  { exists r, x, None, (with_tables t' w). split_and!; try done; [cbn [rw_tables with_tables]; by rewrite Hs, Hput|apply Hx|]. left. by eauto. }
  unfold run_claimed. cbn [rw_locker rw_tables with_tables rw_directory]. change (RepoScan_Repository record) with (RepoScan_Repository r).
  destruct (acquire s (scan_lock (RepoScan_Repository r)) (rw_locker w)) as [[lease l]|] eqn:Ea.
  - match goal with |- context [runRepoScanWithRecord _ _ _ _ _ _ _ _ _ _ _ _ _ _ _ _ ?e ?n ?c ?rec ?h ?f ?t1] =>
      destruct (run_finishes e n c (Scope_Normalize (mkScope (RepoScan_TenantID r) (RepoScan_WorkspaceID r))) rec h f t1 r1)
        as (x & outcome & t' & -> & Hs & Hx) end; [apply (RequireScope_WithScope None)|done| |done|done|].
    { unfold repo_in_scope. apply MatchScope_true. rewrite Scope_Normalize_idemp. by apply MatchScope_true. }
    change (RepoScan_ID record) with (RepoScan_ID r) in Hs. rewrite Hput in Hs.
    destruct outcome as [finished|e]; exists r, x; do 2 eexists; (split; [reflexivity|]); do 3 (split; [done|]);
      (split; [exact Hs|]); (split; [apply Hx|]); right; (split; [done|]); rewrite Ea; (split; [done|]); [by left|right; by exists e].
  - unfold RequeueRepoScan.
    rewrite RequireScope_WithScope. cbn [mbind result_bind].
    rewrite (proj2 (scoped_repo_scan_Ok _ _ _ r1)).
    2: { split; [done|]. unfold repo_in_scope. apply MatchScope_true. rewrite Scope_Normalize_idemp. by apply MatchScope_true. }
    cbn [mbind result_bind]. eexists r, _, _, _. split; [reflexivity|]. do 3 (split; [done|]). split; [apply Hput|]. split; [done|].
    right. split; [done|]. by rewrite Ea.
Qed.
End alone.

(** *** When the scan is ended by someone else *)
Section interrupted.
Context (ctx : Context) (scope : Scope) (id : string) (Hscope : RequireScope ctx = Ok scope).
Context (Hmeanwhile : ∀ p t, calls (λ op, created_id op ≠ Some id) t (meanwhile p t)).
Context (message : string) (endedAt : Z).

Definition ended_elsewhere (x : RepoScanRecord) : Prop :=
  RepoScan_Status x = "failed" ∧ RepoScan_FinishedAt x = Some endedAt ∧ RepoScan_ErrorMessage x = message.
Definition scan_row (P : RepoScanRecord → Prop) (t : RepoScanTables) : Prop := ∀ x, repoScans t !! id = Some x → P x.
Definition no_findings (t : RepoScanTables) : Prop := ∀ key f, repoFindings t !! key = Some f → RF_ScanID f ≠ id.

Lemma ended_elsewhere_over x : ended_elsewhere x → repo_pending x = false.
Proof using. intros (E & _). unfold repo_pending, status_is. by rewrite E. Qed.
Lemma gone_no_findings t : tables_wf t → repoScans t !! id = None → no_findings t.
Proof using. intros Hwf Hno key f Hf E. destruct (wf_rows _ Hwf _ _ Hf) as (_ & [x Hx] & _). congruence. Qed.

Lemma calls_scan_row (P : RepoScanRecord → Prop) t t' :
  (∀ x x', P x → scan_moves x x' → P x') → tables_wf t → calls (λ op, created_id op ≠ Some id) t t' → scan_row P t → scan_row P t'.
Proof using.
  intros HP Hwf (ops & Hruns & Hops) Hrow. apply (repo_runs_inv (scan_row P) (λ op, created_id op ≠ Some id)) with t ops; try done.
  intros op t1 Hi Hw Hc Hf x' Hx'. destruct (so_scans _ _ _ (repo_step_ok op t1 Hf Hw) id x' Hx') as [(x & Hx & Hm)|[? _]]; [|done].
  eapply HP; [by apply Hi|done].
Qed.
Lemma in_scope_moves x x' : repo_in_scope scope x = true → scan_moves x x' → repo_in_scope scope x' = true.
Proof using. intros Hin [(_ & Et & Ew & _) _]. unfold repo_in_scope. by rewrite Et, Ew. Qed.
Lemma ended_moves x x' : ended_elsewhere x → scan_moves x x' → ended_elsewhere x'.
Proof using. intros He [_ Hm]. rewrite (Hm (ended_elsewhere_over _ He)). done. Qed.

(** Nothing is recorded for a scan that is over or gone. *)
Lemma CompleteRepoScan_over ctx' status now commits files count truncated c m t :
  RequireScope ctx' = Ok scope → scan_row (λ x, repo_in_scope scope x = true) t → scan_row (λ x, repo_pending x = false) t →
  CompleteRepoScan ctx' id status now commits files count truncated c m t =
    Err (if decide (repoScans t !! id = None) then ErrNotFound else ErrConflict).
Proof using.
  intros Hs Hin Hover. unfold CompleteRepoScan. rewrite Hs. cbn [mbind result_bind]. unfold scoped_repo_scan.
  destruct (repoScans t !! id) as [x|] eqn:E; [|by rewrite decide_True]. rewrite (Hin x E), decide_False by done.
  cbn [mbind result_bind mret result_ret]. by rewrite (Hover x E).
Qed.
Lemma completeRepoScanTerminal_over ctxErr status now commits files count truncated c m t :
  scan_row (λ x, repo_in_scope scope x = true) t → scan_row (λ x, repo_pending x = false) t →
  completeRepoScanTerminal s ctxErr ctx id status now commits files count truncated c m t =
    Err (if decide (repoScans t !! id = None) then ErrNotFound else ErrConflict).
Proof using Hscope.
  intros Hin Hover. unfold completeRepoScanTerminal. cbv zeta. set (write_ctx := if shouldRetryTerminalWrite ctxErr then _ else ctx).
  assert (RequireScope write_ctx = Ok scope) as Hw by (unfold write_ctx; case_match; [by apply repo_terminal_scope|done]).
  rewrite CompleteRepoScan_over by done. by destruct (decide _).
Qed.
Lemma terminal_changed_clears e t :
  tables_wf t → scan_row (λ x, repo_in_scope scope x = true) t → scan_row ended_elsewhere t →
  scan_row ended_elsewhere (terminal_changed meanwhile ctx id e t).2 ∧ no_findings (terminal_changed meanwhile ctx id e t).2.
Proof using Hscope Hmeanwhile.
  intros Hwf Hin He. unfold terminal_changed. cbv zeta. pose proof (Hmeanwhile BeforeCleanup t) as Hc.
  assert (tables_wf (meanwhile BeforeCleanup t)) as Hwf1 by (by eapply calls_wf).
  apply (calls_scan_row _ _ _ in_scope_moves Hwf Hc) in Hin. apply (calls_scan_row _ _ _ ended_moves Hwf Hc) in He.
  set (t1 := meanwhile BeforeCleanup t) in *. clearbody t1. clear Hc Hwf.
  unfold DeleteRepoFindings. rewrite Hscope. cbn [mbind result_bind]. unfold scoped_repo_scan.
  destruct (repoScans t1 !! id) as [x|] eqn:E; cbn [mbind result_bind].
  - rewrite (Hin x E). cbn [mbind result_bind mret result_ret snd]. split.
    + intros y Hy. cbn in Hy. rewrite lookup_insert_eq in Hy. injection Hy as <-. exact (He x E).
    + intros key f Hf. cbn in Hf. apply (proj1 (cleared_rows t1 id Hwf1)) in Hf as [Hf Hno]. by eapply cleared_scan_ne.
  - split; [exact He|by apply gone_no_findings].
Qed.

(** C9. A scan that is cancelled or deleted by another client while a worker is
    running it stays as it was ended: the worker, which may have stored findings
    for it, reports an error, does not record the scan as finished, and takes back
    every finding stored under it, whatever other clients do meanwhile. *)
Theorem interrupted_scan_keeps_its_end ctxErr now record historyLimit maxFindings result errs inc t
    (Hwf : tables_wf t) (Hid : RepoScan_ID record = id)
    (Hin : scan_row (λ x, repo_in_scope scope x = true) t)
    (Hstart : scan_row (λ x, repo_pending x = true ∨ ended_elsewhere x) t)
    (Hended : ∀ t', tables_wf t' → scan_row (λ x, repo_in_scope scope x = true ∧ repo_pending x = true) t' →
       scan_row ended_elsewhere (meanwhile BeforeComplete t')) :
  ∃ e t', store ctxErr now ctx record historyLimit maxFindings result errs inc t = (Err e, t') ∧
    scan_row ended_elsewhere t' ∧ no_findings t'.
Proof using Hscope Hmeanwhile.
  unfold store_result. cbv zeta. rewrite Hid.
  assert (∀ (t1 : RepoScanTables) (e0 : error), tables_wf t1 → scan_row (λ x, repo_in_scope scope x = true) t1 → scan_row ended_elsewhere t1 →
    ∃ e t', (let '(e, t2) := terminal_changed meanwhile ctx id e0 t1 in (@Err RepoScanRecord e, t2)) = (Err e, t') ∧
      scan_row ended_elsewhere t' ∧ no_findings t') as Hclear.
  { intros t1 e0 Hwf1 Hin1 He1. pose proof (terminal_changed_clears e0 t1 Hwf1 Hin1 He1) as Hc.
    destruct (terminal_changed _ _ _ _ _) as [e t2]. by exists e, t2. }
  destruct (UpsertRepoFindings _ _ _ _ t) as [t1|e] eqn:Eu.
  - pose proof (calls_call (λ op, created_id op ≠ Some id) (RUpsertFindings _ _ _ _) t t1 eq_refl ltac:(done) Eu) as Hup.
    assert (scan_row (λ x, repo_in_scope scope x = true ∧ repo_pending x = true) t1) as Hpend.
    { unfold UpsertRepoFindings in Eu. open_bind Eu scope' _. open_bind Eu x Hx. open_bind Eu u Hp. injection Eu as <-.
      apply guard_err_Ok in Hp. apply scoped_repo_scan_Ok in Hx as [Hx _]. intros y Hy. rewrite upsert_scans, Hx in Hy.
      injection Hy as <-. split; [by apply Hin|done]. }
    assert (tables_wf t1) as Hwf1 by (by eapply calls_wf). pose proof (Hended t1 Hwf1 Hpend) as He.
    pose proof (Hmeanwhile BeforeComplete t1) as Hc. set (t2 := meanwhile BeforeComplete t1) in *.
    assert (tables_wf t2) as Hwf2 by (by eapply calls_wf).
    assert (scan_row (λ x, repo_in_scope scope x = true) t2) as Hin2.
    { apply (calls_scan_row _ t1 _ in_scope_moves Hwf1 Hc). intros x Hx. by apply Hpend. }
    rewrite completeRepoScanTerminal_over by (try done; intros x Hx; by apply ended_elsewhere_over, He).
    destruct (decide (repoScans t2 !! id = None)) as [Hgone|_].
    + eexists _, t2. split; [reflexivity|]. split; [done|by apply gone_no_findings].
    + cbn [errors_is]. by apply Hclear.
  - unfold UpsertRepoFindings in Eu. rewrite Hscope in Eu. cbn [mbind result_bind] in Eu. unfold scoped_repo_scan in Eu.
    destruct (repoScans t !! id) as [x|] eqn:Ex.
    + rewrite (Hin x Ex) in Eu. cbn in Eu. destruct (repo_pending x) eqn:Hp; [done|]. injection Eu as <-.
      apply Hclear; [done..|]. intros y Hy. destruct (Hstart y Hy); [congruence|done].
    + injection Eu as <-. cbn [errors_is]. rewrite completeRepoScanTerminal_over.
      * eexists _, t. split; [reflexivity|]. split; [|by apply gone_no_findings]. intros y Hy. congruence.
      * done.
      * intros y Hy. congruence.
Qed.
End interrupted.
End passes.

(** ** Examples *)
#[local] Existing Instance canonical_range.
#[local] Existing Instance insertion_sort.
#[local] Existing Instance no_floats.
Definition no_urls : URLParser := {| url_Parse _ := None |}.
Definition no_git : LocalGit := {| git_repository _ := false |}.
#[local] Existing Instance no_urls.
#[local] Existing Instance no_git.

Definition sample_repo_service : RepoService :=
  mkRepoService true 100 500 10 50 ["acme/*"] 5 (mkScope "acme" "prod") "" true.
Definition no_connection (ctx : Context) (workspaceID projectID : string) : result GitHubConnectionStatus := Err ErrNotFound.
Definition sample_request : RepoScanRequest := mkRepoRequest " acme/App " "" "" "deep" "" "" [] 0 20.
Definition sample_enqueue : result (RepoScanTables * RepoScanRecord) :=
  EnqueueRepoScan sample_repo_service empty_directory no_connection "q1" ("", "") 30 None sample_request repo_tables_three.
Lemma EnqueueRepoScan_admits_witness :
  ∃ t r, sample_enqueue = Ok (t, r) ∧ 1 ≤ RepoScan_HistoryLimit r ≤ 500 ∧ RepoScan_Status r = "queued".
Proof.
  destruct sample_enqueue as [[t r]|e] eqn:E; [|by vm_compute in E]. exists t, r. split; [done|].
  destruct (EnqueueRepoScan_admits sample_repo_service empty_directory no_connection "q1" ("", "") 30 None sample_request
    repo_tables_three t r E) as (scope & _ & _ & Hh & _ & _ & _ & _ & _ & _ & _ & Hs & _). by split.
Defined.

Definition sample_sources : @GitHubSources unit unit unit := mkSources None None None None.
Definition sample_result : ScanResult := mkScanResult "acme/app" 3 4 [sample_repo_finding "d" "k3"] false "" "" "abc" [].
Section sample.
Context (meanwhile : run_point → RepoScanTables → RepoScanTables).
Definition sample_pass (w : RepoWorker LockerState) : (bool * option error) * RepoWorker LockerState :=
  ProcessNextQueuedRepoScan sample_repo_service (Some (λ _ _, tt)) None (λ _ _ _, Ok sample_result) (λ _ _, Ok tt) (λ _, "")
    sample_sources (λ _ _ _ _, Ok []) (λ _ _, []) (λ _, []) (λ _, false) (λ _ _ _, []) (λ _ _, []) (λ l _ _, (l, false)) id
    meanwhile None 41 40 None w.
End sample.
Definition sample_repo_worker : RepoWorker LockerState :=
  mkRepoWorker (ok_or repo_tables_three (fst <$> sample_enqueue)) empty_directory NewInMemoryLocker.
Lemma sample_repo_worker_wf : tables_wf (rw_tables sample_repo_worker).
Proof. apply tables_wfb_ok. by vm_compute. Qed.

Lemma worker_pass_ends_scan_witness :
  ∃ x w', sample_pass (λ _ t, t) sample_repo_worker = ((true, None), w') ∧ repoScans (rw_tables w') !! "q1" = Some x ∧
    RepoScan_Status x = "succeeded" ∧ RepoScan_FinishedAt x = Some 40.
Proof.
  destruct (worker_pass_ends_scan sample_repo_service (Some (λ _ _, tt)) None (λ _ _ _, Ok sample_result) (λ _ _, Ok tt) (λ _, "")
    sample_sources (λ _ _ _ _, Ok []) (λ _ _, []) (λ _, []) (λ _, false) (λ _ _ _, []) (λ _ _, []) (λ l _ _, (l, false)) id
    (λ _ t, t) (λ _ _, eq_refl) None 41 40 None sample_repo_worker sample_repo_worker_wf)
    as (r & x & reported & w' & Hpass & Hr & Hq & _ & Hs & _ & Hend).
  - intros i r Hr. revert i r Hr. apply (bool_decide_unpack (map_Forall (λ _ r,
      repo_in_scope (mkScope (RepoScan_TenantID r) (RepoScan_WorkspaceID r)) r = true ∧ TrimSpace (RepoScan_Repository r) ≠ "") _)).
    by vm_compute.
  - intros i r Hr. revert i r Hr. apply (bool_decide_unpack (map_Forall (λ _ r, repo_stale (40 - defaultRepoScanRunningStaleAfter) r = false) _)).
    by vm_compute.
  - exists "q1". destruct (repoScans (rw_tables sample_repo_worker) !! "q1") as [r|] eqn:E; [|by vm_compute in E]. exists r. split; [done|].
    assert (r = default zero_repo_scan (repoScans (rw_tables sample_repo_worker) !! "q1")) as -> by (by rewrite E). by vm_compute.
  - assert (w' = (sample_pass (λ _ t, t) sample_repo_worker).2) as Hw by (unfold sample_pass; by rewrite Hpass).
    exists (default zero_repo_scan (repoScans (rw_tables (sample_pass (λ _ t, t) sample_repo_worker).2) !! "q1")), w'.
    split; [|rewrite Hw; split_and!; by vm_compute].
    unfold sample_pass. rewrite Hpass. f_equal. assert (reported = (sample_pass (λ _ t, t) sample_repo_worker).1.2) as ->
      by (unfold sample_pass; by rewrite Hpass). by vm_compute.
Defined.

(** The user cancels the scan after its findings were stored. *)
Definition cancel_q1 : repo_op := RCancel sample_repo_ctx "q1" 39 userCanceledRepoScanMessage.
Definition cancelling (p : run_point) (t : RepoScanTables) : RepoScanTables :=
  match p with BeforeComplete => repo_step t cancel_q1 | _ => t end.
Lemma cancelling_calls ok p t : ok cancel_q1 → calls ok t (cancelling p t).
Proof.
  intros Hok. destruct p; try apply calls_refl. exists [cancel_q1]. split; [|by intros op ->%list_elem_of_singleton].
  unfold cancelling. constructor; [by intros i|constructor].
Qed.

Lemma cancel_q1_quiet : admission_checked cancel_q1 ∧ created_id cancel_q1 ≠ Some "r2".
Proof. by split. Qed.

Lemma worker_pass_refines_store_witness :
  tables_wf (rw_tables (sample_pass cancelling sample_repo_worker).2).
Proof.
  pose proof (worker_pass_refines_store sample_repo_service (Some (λ _ _, tt)) None (λ _ _ _, Ok sample_result) (λ _ _, Ok tt)
    (λ _, "") sample_sources (λ _ _ _ _, Ok []) (λ _ _, []) (λ _, []) (λ _, false) (λ _ _ _, []) (λ _ _, []) (λ l _ _, (l, false)) id
    cancelling None 41 40 None sample_repo_worker "r2"
    (λ p t, cancelling_calls (λ op, admission_checked op ∧ created_id op ≠ Some "r2") p t cancel_q1_quiet)) as Hpass.
  cbv zeta in Hpass. destruct Hpass as [_ Hpass]. destruct (Hpass sample_repo_worker_wf) as [Hwf _]. exact Hwf.
Defined.

Definition sample_running : RepoScanTables := repo_step (rw_tables sample_repo_worker) (RClaimAny 40).
Definition sample_record : RepoScanRecord := default zero_repo_scan (repoScans sample_running !! "q1").
Lemma cancelled_row t :
  scan_row "q1" (λ x, repo_in_scope (mkScope "acme" "prod") x = true ∧ repo_pending x = true) t →
  scan_row "q1" (ended_elsewhere userCanceledRepoScanMessage 39) (cancelling BeforeComplete t).
Proof.
  intros Hrow y Hy. unfold cancelling, repo_step, cancel_q1 in Hy. cbn [repo_call] in Hy. unfold CancelRepoScan, scoped_repo_scan in Hy.
  replace (RequireScope sample_repo_ctx) with (Ok (mkScope "acme" "prod")) in Hy by (by vm_compute).
  cbn [mbind result_bind] in Hy. destruct (repoScans t !! "q1") as [x|] eqn:E.
  - destruct (Hrow x E) as [Hin Hp]. rewrite Hin in Hy. cbn [mbind result_bind mret result_ret] in Hy. rewrite Hp in Hy.
    cbn in Hy. rewrite lookup_insert_eq in Hy. injection Hy as <-. by split_and!.
  - cbn in Hy. congruence.
Qed.
Lemma interrupted_scan_keeps_its_end_witness :
  ∃ e t, store_result sample_repo_service sample_sources id cancelling None 40 sample_repo_ctx sample_record 100 20 sample_result [] []
           sample_running = (Err e, t) ∧
    scan_row "q1" (ended_elsewhere userCanceledRepoScanMessage 39) t ∧ no_findings "q1" t.
Proof.
  assert (calls (λ _, True) (rw_tables sample_repo_worker) sample_running) as Hrun.
  { exists [RClaimAny 40]. split; [|done]. unfold sample_running. constructor; [by intros i|constructor]. }
  assert (repoScans sample_running !! "q1" = Some sample_record) as Hrow by (by vm_compute).
  apply (interrupted_scan_keeps_its_end sample_repo_service sample_sources id cancelling sample_repo_ctx (mkScope "acme" "prod") "q1"
    eq_refl (λ p t, cancelling_calls (λ op, created_id op ≠ Some "q1") p t (λ E, ltac:(discriminate E))) userCanceledRepoScanMessage 39).
  - exact (calls_wf _ _ _ Hrun sample_repo_worker_wf).
  - by vm_compute.
  - intros x Hx. rewrite Hrow in Hx. apply (inj Some) in Hx as <-. by vm_compute.
  - intros x Hx. rewrite Hrow in Hx. apply (inj Some) in Hx as <-. left. by vm_compute.
  - intros t _. apply cancelled_row.
Defined.
