(* ===== verification/ScanPolicies.v ===== *)
(** * Scan policies and their tables (internal/db/store.go, internal/db/memory_tenancy.go)

    A project's policies say when its repositories are scanned; those with a cron
    schedule are claimed tick by tick by the workers.  Writing, reading, listing,
    claiming and deleting them, and what claims guarantee whatever else happens to
    the tables. *)
From S2P Require Import Prelude GoStrings GoCollections GoTime Runs Scope AuthzRecords TenancyRecords Tenancy.

(** ** Policies *)
Definition ScanTriggerModeManual : string := "manual".
Definition ScanTriggerModeScheduled : string := "scheduled".
Definition ScanTriggerModeEvent : string := "event".
Definition ScanTriggerModeHybrid : string := "hybrid".
Definition defaultTenancyScanPolicyHistoryLimit : Z := 500.
Definition defaultTenancyScanPolicyMaxFindings : Z := 200.

Record TenancyScanPolicy := mkPolicy {
  Policy_TenantID : string;
  Policy_WorkspaceID : string;
  Policy_ProjectID : string;
  Policy_PolicyID : string;
  Policy_Name : string;
  Policy_Enabled : bool;
  Policy_TriggerMode : string;
  Policy_Cron : string;
  Policy_MaxConcurrentScans : Z;
  Policy_HistoryLimit : Z;
  Policy_MaxFindings : Z;
  Policy_LastScheduledAt : option Z;
  Policy_CreatedAt : Z;
  Policy_UpdatedAt : Z;
}.

#[export] Instance TenancyScanPolicy_eq_dec : EqDecision TenancyScanPolicy.
Proof. solve_decision. Defined.

Definition has_schedule (mode : string) : bool :=
  bool_decide (mode = ScanTriggerModeScheduled) || bool_decide (mode = ScanTriggerModeHybrid).
Definition trigger_modes : list string :=
  [ScanTriggerModeManual; ScanTriggerModeScheduled; ScanTriggerModeEvent; ScanTriggerModeHybrid].
Definition NormalizeTenancyScanPolicyForWrite (now : Z) (p : TenancyScanPolicy) : result TenancyScanPolicy :=
  let tenantID := TrimSpace (Policy_TenantID p) in
  _ ← required "tenant id" tenantID;
  let workspaceID := TrimSpace (Policy_WorkspaceID p) in
  _ ← required "workspace id" workspaceID;
  let projectID := TrimSpace (Policy_ProjectID p) in
  _ ← required "project id" projectID;
  let policyID := TrimSpace (Policy_PolicyID p) in
  _ ← required "policy id" policyID;
  let name := TrimSpace (Policy_Name p) in
  _ ← required "scan policy name" name;
  let mode := canon (Policy_TriggerMode p) in
  let mode := if decide (mode = "") then ScanTriggerModeManual else mode in
  _ ← guard_err (bool_decide (mode ∈ trigger_modes)) (Errorf "invalid scan policy trigger mode");
  let cron := TrimSpace (Policy_Cron p) in
  _ ← guard_err (negb (has_schedule mode && bool_decide (cron = "")))
        (Errorf "scan policy cron is required for scheduled or hybrid trigger mode");
  let createdAt := or_time (Policy_CreatedAt p) now in
  mret (mkPolicy tenantID workspaceID projectID policyID name (Policy_Enabled p) mode (if has_schedule mode then cron else "")
          (if Policy_MaxConcurrentScans p <=? 0 then 1 else Policy_MaxConcurrentScans p)
          (if Policy_HistoryLimit p <=? 0 then defaultTenancyScanPolicyHistoryLimit else Policy_HistoryLimit p)
          (if Policy_MaxFindings p <=? 0 then defaultTenancyScanPolicyMaxFindings else Policy_MaxFindings p)
          (Policy_LastScheduledAt p) createdAt (or_time (Policy_UpdatedAt p) createdAt)).

(** ** The table *)
Notation Policies := (gmap string TenancyScanPolicy).
Definition tenancyScanPolicyKey (tenantID workspaceID projectID policyID : string) : string :=
  tenancyCompositeKey [TrimSpace tenantID; TrimSpace workspaceID; TrimSpace projectID; TrimSpace policyID].
Definition policy_key (p : TenancyScanPolicy) : string :=
  tenancyScanPolicyKey (Policy_TenantID p) (Policy_WorkspaceID p) (Policy_ProjectID p) (Policy_PolicyID p).

Definition stamp_policy (tenantID workspaceID : string) (p : TenancyScanPolicy) : TenancyScanPolicy :=
  mkPolicy tenantID workspaceID (Policy_ProjectID p) (Policy_PolicyID p) (Policy_Name p) (Policy_Enabled p)
    (Policy_TriggerMode p) (Policy_Cron p) (Policy_MaxConcurrentScans p) (Policy_HistoryLimit p) (Policy_MaxFindings p)
    (Policy_LastScheduledAt p) (Policy_CreatedAt p) (Policy_UpdatedAt p).
(** What a write keeps of the row it replaces. *)
Definition keep_history (existing p : TenancyScanPolicy) : TenancyScanPolicy :=
  mkPolicy (Policy_TenantID p) (Policy_WorkspaceID p) (Policy_ProjectID p) (Policy_PolicyID p) (Policy_Name p) (Policy_Enabled p)
    (Policy_TriggerMode p) (Policy_Cron p) (Policy_MaxConcurrentScans p) (Policy_HistoryLimit p) (Policy_MaxFindings p)
    (Policy_LastScheduledAt existing) (Policy_CreatedAt existing) (Policy_UpdatedAt p).
Definition with_tick (tick now : Z) (p : TenancyScanPolicy) : TenancyScanPolicy :=
  mkPolicy (Policy_TenantID p) (Policy_WorkspaceID p) (Policy_ProjectID p) (Policy_PolicyID p) (Policy_Name p) (Policy_Enabled p)
    (Policy_TriggerMode p) (Policy_Cron p) (Policy_MaxConcurrentScans p) (Policy_HistoryLimit p) (Policy_MaxFindings p)
    (Some tick) (Policy_CreatedAt p) now.

(** Another policy of the project goes by the name. *)
Definition same_name (p : TenancyScanPolicy) (entry : string * TenancyScanPolicy) : bool :=
  let '(key, existing) := entry in
  negb (bool_decide (key = policy_key p)) && bool_decide (Policy_TenantID existing = Policy_TenantID p) &&
  bool_decide (Policy_WorkspaceID existing = Policy_WorkspaceID p) && bool_decide (Policy_ProjectID existing = Policy_ProjectID p) &&
  EqualFold (Policy_Name existing) (Policy_Name p).

Section operations.
Context `{MapRange, SortSlice}.

Definition UpsertTenancyScanPolicy (ctx : Context) (now : Z) (policy : TenancyScanPolicy) (d : DirectoryState) (m : Policies)
    : result Policies :=
  '(scope, resolved) ← scoped_workspace ctx (Policy_WorkspaceID policy);
  normalized ← NormalizeTenancyScanPolicyForWrite now (stamp_policy (Scope_TenantID scope) resolved policy);
  _ ← guard_err (bool_decide (is_Some (projects d !! tenancyProjectKey (Policy_TenantID normalized)
        (Policy_WorkspaceID normalized) (Policy_ProjectID normalized)))) ErrNotFound;
  _ ← guard_err (negb (existsb (same_name normalized) (map_range m))) ErrConflict;
  let key := policy_key normalized in
  mret (<[key := match m !! key with Some existing => keep_history existing normalized | None => normalized end]> m).

Definition GetTenancyScanPolicy (ctx : Context) (workspaceID projectID policyID : string) (m : Policies) : result TenancyScanPolicy :=
  '(scope, resolved) ← scoped_workspace ctx workspaceID;
  match m !! tenancyScanPolicyKey (Scope_TenantID scope) resolved projectID policyID with
  | None => Err ErrNotFound
  | Some policy => mret policy
  end.

Definition policy_column (sortBy : string) (l r : TenancyScanPolicy) : comparison :=
  if decide (sortBy = "policy_id") then compare_string (Policy_PolicyID l) (Policy_PolicyID r)
  else if decide (sortBy = "name") then compare_string (Policy_Name l) (Policy_Name r)
  else if decide (sortBy = "trigger_mode") then compare_string (Policy_TriggerMode l) (Policy_TriggerMode r)
  else if decide (sortBy = "updated_at") then Z.compare (Policy_UpdatedAt l) (Policy_UpdatedAt r)
  else Z.compare (Policy_CreatedAt l) (Policy_CreatedAt r).
Definition policy_less (sortBy : string) (sortDesc : bool) (l r : TenancyScanPolicy) : bool :=
  match policy_column sortBy l r with
  | Eq => str_ltb (Policy_PolicyID l) (Policy_PolicyID r)
  | Lt => negb sortDesc
  | Gt => sortDesc
  end.
Definition policy_selected (scope : Scope) (workspaceID projectID triggerMode : string) (enabled : option bool) (p : TenancyScanPolicy)
    : bool :=
  bool_decide (Policy_TenantID p = Scope_TenantID scope) && bool_decide (Policy_WorkspaceID p = workspaceID) &&
  bool_decide (Policy_ProjectID p = projectID) &&
  (bool_decide (triggerMode = "") || bool_decide (Policy_TriggerMode p = triggerMode)) &&
  match enabled with Some wanted => Bool.eqb (Policy_Enabled p) wanted | None => true end.
Definition ListTenancyScanPolicies (ctx : Context) (workspaceID projectID triggerMode : string) (enabled : option bool)
    (sortBy : string) (sortDesc : bool) (limit : Z) (m : Policies) : result (list TenancyScanPolicy) :=
  scope ← RequireScope ctx;
  let limit := if limit <=? 0 then 100 else limit in
  resolved ← ResolveScopedWorkspaceID scope workspaceID;
  mret (truncate limit (sort_slice (policy_less sortBy sortDesc)
    (filter (λ p, policy_selected scope resolved (TrimSpace projectID) (canon triggerMode) enabled p = true) (map_range m).*2))).

(** *** Schedules *)
Definition workspace_active (d : DirectoryState) (tenantID workspaceID : string) : bool :=
  match workspaces d !! tenancyWorkspaceKey tenantID workspaceID with
  | None => false
  | Some workspace =>
      bool_decide (Workspace_Status workspace = WorkspaceStatusActive) && bool_decide (Workspace_DeletedAt workspace = None)
  end.
Definition policy_listed (d : DirectoryState) (p : TenancyScanPolicy) : bool :=
  Policy_Enabled p && has_schedule (Policy_TriggerMode p) && workspace_active d (Policy_TenantID p) (Policy_WorkspaceID p).
Definition schedule_order (l r : TenancyScanPolicy) : comparison :=
  lex (Z.compare (Policy_CreatedAt l) (Policy_CreatedAt r))
    (lex (compare_string (Policy_TenantID l) (Policy_TenantID r))
      (lex (compare_string (Policy_WorkspaceID l) (Policy_WorkspaceID r))
        (lex (compare_string (Policy_ProjectID l) (Policy_ProjectID r)) (compare_string (Policy_PolicyID l) (Policy_PolicyID r))))).
(** All of them, in order; a call returns a page. *)
Definition scheduled_policies (d : DirectoryState) (m : Policies) : list TenancyScanPolicy :=
  sort_slice (less_of schedule_order) (filter (λ p, policy_listed d p = true) (map_range m).*2).
Definition ListScheduledTenancyScanPolicies (limit offset : Z) (d : DirectoryState) (m : Policies) : list TenancyScanPolicy :=
  let limit := if limit <=? 0 then 100 else limit in
  let offset := if offset <? 0 then 0 else offset in
  let policies := scheduled_policies d m in
  if Z.of_nat (length policies) <=? offset then [] else truncate limit (drop (Z.to_nat offset) policies).

(** A worker takes a tick: whether it did, and the table. *)
Definition ClaimTenancyScanPolicySchedule (ctx : Context) (workspaceID projectID policyID : string) (scheduledAt now : Z)
    (d : DirectoryState) (m : Policies) : result (bool * Policies) :=
  '(scope, resolved) ← scoped_workspace ctx workspaceID;
  let key := tenancyScanPolicyKey (Scope_TenantID scope) resolved projectID policyID in
  match m !! key with
  | None => Err ErrNotFound
  | Some policy =>
      let tick := TruncateMinute scheduledAt in
      if negb (Policy_Enabled policy) || negb (has_schedule (Policy_TriggerMode policy)) then mret (false, m)
      else if negb (workspace_active d (Scope_TenantID scope) resolved) then mret (false, m)
      else if match Policy_LastScheduledAt policy with Some last => negb (Before last tick) | None => false end then mret (false, m)
      else mret (true, <[key := with_tick tick now policy]> m)
  end.

Definition DeleteTenancyScanPolicy (ctx : Context) (workspaceID projectID policyID : string) (m : Policies) : result Policies :=
  '(scope, resolved) ← scoped_workspace ctx workspaceID;
  let key := tenancyScanPolicyKey (Scope_TenantID scope) resolved projectID policyID in
  _ ← guard_err (bool_decide (is_Some (m !! key))) ErrNotFound;
  mret (delete key m).
End operations.

(** ** Claims, whatever else happens to the table *)
Inductive policy_op :=
| PUpsert (ctx : Context) (now : Z) (policy : TenancyScanPolicy) (d : DirectoryState)
| PClaim (ctx : Context) (workspaceID projectID policyID : string) (scheduledAt now : Z) (d : DirectoryState)
| PDelete (ctx : Context) (workspaceID projectID policyID : string).

(** The key a scoped call works on. *)
Definition scoped_key (ctx : Context) (workspaceID projectID policyID : string) : option string :=
  match scoped_workspace ctx workspaceID with
  | Ok (scope, resolved) => Some (tenancyScanPolicyKey (Scope_TenantID scope) resolved projectID policyID)
  | Err _ => None
  end.

Section runs.
Context `{MapRange}.

(** The table after a call, and the tick it took, if it took one. *)
Definition policy_step (op : policy_op) (m : Policies) : Policies * option (string * Z) :=
  match op with
  | PUpsert ctx now policy d => (ok_or m (UpsertTenancyScanPolicy ctx now policy d m), None)
  | PClaim ctx workspaceID projectID policyID scheduledAt now d =>
      match ClaimTenancyScanPolicySchedule ctx workspaceID projectID policyID scheduledAt now d m with
      | Ok (true, m') => (m', (λ key, (key, TruncateMinute scheduledAt)) <$> scoped_key ctx workspaceID projectID policyID)
      | Ok (false, m') => (m', None)
      | Err _ => (m, None)
      end
  | PDelete ctx workspaceID projectID policyID => (ok_or m (DeleteTenancyScanPolicy ctx workspaceID projectID policyID m), None)
  end.
(** The ticks of a policy that are taken in the course of the calls. *)
Fixpoint policy_ticks (key : string) (ops : list policy_op) (m : Policies) : list Z :=
  match ops with
  | [] => []
  | op :: ops =>
      let '(m', claimed) := policy_step op m in
      match claimed with
      | Some (key', tick) => if decide (key' = key) then tick :: policy_ticks key ops m' else policy_ticks key ops m'
      | None => policy_ticks key ops m'
      end
  end.
Definition deletes_policy (key : string) (op : policy_op) : Prop :=
  match op with PDelete ctx workspaceID projectID policyID => scoped_key ctx workspaceID projectID policyID = Some key | _ => False end.

(** What a claim that succeeds did. *)
Lemma Claim_true ctx workspaceID projectID policyID scheduledAt now d m m' :
  ClaimTenancyScanPolicySchedule ctx workspaceID projectID policyID scheduledAt now d m = Ok (true, m') →
  ∃ scope resolved p, let key := tenancyScanPolicyKey (Scope_TenantID scope) resolved projectID policyID in
    scoped_workspace ctx workspaceID = Ok (scope, resolved) ∧ m !! key = Some p ∧
    Policy_Enabled p = true ∧ has_schedule (Policy_TriggerMode p) = true ∧ workspace_active d (Scope_TenantID scope) resolved = true ∧
    (∀ last, Policy_LastScheduledAt p = Some last → last < TruncateMinute scheduledAt) ∧
    m' = <[key := with_tick (TruncateMinute scheduledAt) now p]> m.
Proof.
  unfold ClaimTenancyScanPolicySchedule. intros Hok. open_bind Hok [scope resolved] Hs. exists scope, resolved. cbv zeta in *.
  destruct (m !! _) as [p|] eqn:E; [|done]. destruct (Policy_Enabled p) eqn:Ee; [|done]. destruct (has_schedule _) eqn:Eh; [|done].
  cbn [negb orb] in Hok. destruct (workspace_active _ _ _) eqn:Ew; [|done]. cbn [negb] in Hok. exists p. split_and!; try done.
  - intros last El. rewrite El in Hok. destruct (Before last _) eqn:Eb; [by apply Z.ltb_lt|done].
  - destruct (Policy_LastScheduledAt p) as [last|]; [destruct (Before last _)|]; cbn [negb] in Hok; first [discriminate Hok|by injection Hok as <-].
Qed.
Lemma Claim_false ctx workspaceID projectID policyID scheduledAt now d m m' :
  ClaimTenancyScanPolicySchedule ctx workspaceID projectID policyID scheduledAt now d m = Ok (false, m') → m' = m.
Proof.
  unfold ClaimTenancyScanPolicySchedule. intros Hok. open_bind Hok [scope resolved] Hs. cbv zeta in *.
  destruct (m !! _) as [p|]; [|done]. repeat (case_match; [by injection Hok as <-|]); done.
Qed.

(** A call keeps what is known of the last tick of a policy it does not delete,
    or takes a later one. *)
Definition last_tick (key : string) (m : Policies) (b : Z) : Prop := ∃ p, m !! key = Some p ∧ Policy_LastScheduledAt p = Some b.
Lemma policy_step_last op key m m' claimed :
  ¬ deletes_policy key op → policy_step op m = (m', claimed) →
  match claimed with
  | Some (key', tick) => if decide (key' = key) then (∀ b, last_tick key m b → b < tick) ∧ last_tick key m' tick
                         else ∀ b, last_tick key m b → last_tick key m' b
  | None => ∀ b, last_tick key m b → last_tick key m' b
  end.
Proof.
  intros Hno Hstep. destruct op as [ctx now policy d|ctx ws pr id at_ now d|ctx ws pr id]; cbn [policy_step] in Hstep.
  - injection Hstep as <- <-. intros b (p & Hp & Hb). destruct (UpsertTenancyScanPolicy _ _ _ _ _) as [m1|] eqn:E; cbn [ok_or]; [|by exists p].
    unfold UpsertTenancyScanPolicy in E. open_bind E [scope resolved] Hs. open_bind E normalized _. open_bind E u1 _. open_bind E u2 _.
    cbv zeta in E. injection E as <-. destruct (decide (policy_key normalized = key)) as [Ek|Hne].
    + rewrite Ek, Hp. exists (keep_history p normalized). by rewrite lookup_insert_eq.
    + exists p. by rewrite lookup_insert_ne.
  - destruct (ClaimTenancyScanPolicySchedule _ _ _ _ _ _ _ _) as [[[] m1]|] eqn:E; injection Hstep as <- <-; [|by apply Claim_false in E as ->|done].
    apply Claim_true in E as (scope & resolved & p & Hs & Hp & _ & _ & _ & Hlt & ->). unfold scoped_key. rewrite Hs. cbn [fmap option_fmap option_map].
    case_decide as Ek.
    + rewrite <-Ek. split; [|eexists; split; [apply lookup_insert_eq|done]]. intros b (p' & Hp' & Hb). rewrite Hp in Hp'. injection Hp' as <-. by apply Hlt.
    + intros b (p' & Hp' & Hb). exists p'. by rewrite lookup_insert_ne.
  - injection Hstep as <- <-. intros b (p & Hp & Hb). destruct (DeleteTenancyScanPolicy _ _ _ _ _) as [m1|] eqn:E; cbn [ok_or]; [|by exists p].
    unfold DeleteTenancyScanPolicy in E. open_bind E [scope resolved] Hs. open_bind E u _. injection E as <-. exists p.
    rewrite lookup_delete_ne; [done|]. intros Ek. apply Hno. unfold deletes_policy, scoped_key. rewrite Hs. by f_equal.
Qed.

(** C16. The ticks of a scan policy that workers take are taken once and in order:
    whatever calls write, claim and delete policies, each tick of a policy that is
    taken is later than all those taken before, as long as the policy is not
    deleted; in particular, rewriting a policy does not make a tick due again. *)
Theorem policy_ticks_increase key ops m (Hkept : ∀ op, op ∈ ops → ¬ deletes_policy key op) :
  StronglySorted Z.lt (policy_ticks key ops m) ∧ ∀ b tick, last_tick key m b → tick ∈ policy_ticks key ops m → b < tick.
Proof.
  revert m. induction ops as [|op ops IH]; intros m; cbn [policy_ticks].
  { split; [constructor|]. intros b tick _ Hin. by apply elem_of_nil in Hin. }
  destruct (policy_step op m) as [m' claimed] eqn:Hstep.
  pose proof (policy_step_last op key m m' claimed (Hkept op ltac:(by left)) Hstep) as Hlast.
  destruct (IH (λ op' Hin, Hkept op' (list_elem_of_further _ _ _ Hin)) m') as [Hsorted Hbound].
  destruct claimed as [[key' tick]|]; [|by eauto]. destruct (decide (key' = key)) as [_|_]; [|by eauto]. destruct Hlast as [Hlt Htick].
  split.
  - constructor; [done|]. apply Forall_forall. intros t Ht. by apply (Hbound tick).
  - intros b t Hb [->|Ht]%elem_of_cons; [by apply Hlt|]. apply Z.lt_trans with tick; [by apply Hlt|by apply Hbound].
Qed.
End runs.

(** *** Example *)
#[local] Existing Instance canonical_range.
Definition sample_policy_ctx : Context := Some (mkScope "acme" "prod").
Definition sample_policy (id cron : string) : TenancyScanPolicy :=
  mkPolicy "acme" "prod" "shop" id id true "scheduled" cron 2 100 50 None 0 0.
Definition sample_policies : Policies :=
  {[ policy_key (sample_policy "hourly" "0 * * * *") := sample_policy "hourly" "0 * * * *";
     policy_key (sample_policy "nightly" "30 2 * * *") := sample_policy "nightly" "30 2 * * *" ]}.
Definition sample_policy_directory : DirectoryState :=
  with_projects {[ tenancyProjectKey "acme" "prod" "shop" := mkProject "acme" "prod" "shop" "Shop" "shop" "" None 0 0 ]}
    (with_workspaces {[ tenancyWorkspaceKey "acme" "prod" :=
       mkWorkspace "acme" "prod" "Prod" "prod" WorkspaceStatusActive None None 0 0 ]} empty_directory).
Definition sample_policy_ops : list policy_op :=
  let claim tick := PClaim sample_policy_ctx "prod" "shop" "hourly" tick (tick + 5) sample_policy_directory in
  [claim (60 * Minute); claim (60 * Minute);
   PUpsert sample_policy_ctx 7 (sample_policy "hourly" "0 * * * *") sample_policy_directory; claim (60 * Minute); claim (120 * Minute);
   PDelete sample_policy_ctx "prod" "shop" "nightly"].
Example sample_policy_ticks :
  policy_ticks (policy_key (sample_policy "hourly" "")) sample_policy_ops sample_policies = [60 * Minute; 120 * Minute].
Proof. by vm_compute. Qed.
Lemma policy_ticks_increase_witness :
  StronglySorted Z.lt (policy_ticks (policy_key (sample_policy "hourly" "")) sample_policy_ops sample_policies).
Proof.
  refine (proj1 (policy_ticks_increase (policy_key (sample_policy "hourly" "")) sample_policy_ops sample_policies _)).
  intros op Hop. unfold sample_policy_ops in Hop. rewrite !elem_of_cons, elem_of_nil in Hop.
  destruct Hop as [->|[->|[->|[->|[->|[->|[]]]]]]]; try (by intros []). intros E. by vm_compute in E.
Defined.
