(* ===== verification/WorkspacePurge.v ===== *)
(** * Deleting workspaces and projects (internal/db/memory_tenancy.go)

    The cascades of the in-memory store: what is deleted with a workspace, with a
    project, and when a deleted workspace is purged for good.  They reach into
    every table of the store, so this file puts the tables of the other files
    together.  The tables of scan artifacts and triage records are read and
    written by key only, so their rows are opaque here. *)
From S2P Require Import Prelude GoStrings GoCollections GoTime GoText Scope AuthzRecords AuthzStore TenancyRecords Tenancy ConnectorRecords ScanQueue GoFloat RepoFindings RepoScanRecords RepoScanStore RepoFindingStore ScanPolicies.

(** ** The store *)

(** The fields of these rows that a cascade reads. *)
Record AWSAccountRegionCoverage := mkCoverage { Coverage_TenantID : string; Coverage_WorkspaceID : string; Coverage_ProjectID : string }.
Record AWSPlatformBaselineResult := mkBaseline { Baseline_TenantID : string; Baseline_WorkspaceID : string; Baseline_ProjectID : string }.
Record StoredFinding := mkStored { Stored_ID : string; Stored_ScanID : string }.
(** Where a user is in the onboarding. *)
Record OnboardingState := mkOnboarding {
  Onboarding_UserID : string;
  Onboarding_CurrentStep : string;
  Onboarding_OrgID : string;
  Onboarding_WorkspaceID : string;
  Onboarding_ProjectID : string;
  Onboarding_ConnectorID : string;
  Onboarding_ConnectorType : string;
  Onboarding_ConnectorSkipped : bool;
  Onboarding_ScanSkipped : bool;
  Onboarding_DashboardTourDismissedAt : option Z;
  Onboarding_CompletedAt : option Z;
  Onboarding_StartedAt : Z;
  Onboarding_UpdatedAt : Z;
}.
Definition place_onboarding (orgID workspaceID projectID connectorID : string) (o : OnboardingState) : OnboardingState :=
  mkOnboarding (Onboarding_UserID o) (Onboarding_CurrentStep o) orgID workspaceID projectID connectorID (Onboarding_ConnectorType o)
    (Onboarding_ConnectorSkipped o) (Onboarding_ScanSkipped o) (Onboarding_DashboardTourDismissedAt o) (Onboarding_CompletedAt o)
    (Onboarding_StartedAt o) (Onboarding_UpdatedAt o).
Definition place_session (orgID workspaceID projectID : string) (s : Session) : Session :=
  mkSession (Session_ID s) (Session_UserID s) orgID workspaceID projectID (Session_AuthMethod s) (Session_IP s) (Session_UserAgent s)
    (Session_IdleExpiresAt s) (Session_AbsoluteExpiresAt s) (Session_LastSeenAt s) (Session_RevokedAt s) (Session_CreatedAt s)
    (Session_User s).

(** Deleting entries while ranging over a map: the order does not matter. *)
Definition drop_rows {A} (gone : A → bool) (m : gmap string A) : gmap string A := filter (λ e, gone e.2 = false) m.
Definition drop_keys {A} (gone : string → bool) (m : gmap string A) : gmap string A := filter (λ e, gone e.1 = false) m.
Definition at_place (tenantID workspaceID rowTenantID rowWorkspaceID : string) : bool :=
  bool_decide (rowTenantID = tenantID) && bool_decide (rowWorkspaceID = workspaceID).

Section purge.
Context {Artifact : Type}.

(** What belongs to scans, by the scan's id. *)
Record ScanArtifacts := mkArtifacts {
  findings : gmap string StoredFinding;
  scanFindings : gmap string (list string);
  scanEvents : gmap string Artifact;
  rawAssets : gmap string Artifact;
  identities : gmap string Artifact;
  iamPolicies : gmap string Artifact;
  relationships : gmap string Artifact;
  permissions : gmap string Artifact;
  triageStates : gmap string Artifact;
  triageEvents : gmap string Artifact;
}.
Record MemoryStore := mkMemory {
  m_directory : DirectoryState;
  m_policies : Policies;
  m_connectors : ConnectorTables;
  awsCoverages : gmap string AWSAccountRegionCoverage;
  awsBaselines : gmap string AWSPlatformBaselineResult;
  onboardingStates : gmap string OnboardingState;
  m_scans : QueueState;
  m_artifacts : ScanArtifacts;
  m_repo : RepoScanTables;
  m_authz : AuthzState;
}.

(** *** What goes with a set of scans *)
Definition of_scans (ids : list string) (key : string) : bool := existsb (λ id, HasPrefix key (id +:+ "|")) ids.
Definition finding_keys {A} (ids : list string) (index : gmap string (list A)) : list A :=
  ids ≫= λ id, default [] (index !! id).
Definition drop_scans (ids : list string) (a : ScanArtifacts) : ScanArtifacts :=
  let listed := finding_keys ids (scanFindings a) in
  mkArtifacts (drop_keys (λ key, bool_decide (key ∈ listed)) (findings a)) (drop_keys (λ id, bool_decide (id ∈ ids)) (scanFindings a))
    (drop_keys (λ id, bool_decide (id ∈ ids)) (scanEvents a)) (drop_keys (of_scans ids) (rawAssets a))
    (drop_keys (of_scans ids) (identities a)) (drop_keys (of_scans ids) (iamPolicies a)) (drop_keys (of_scans ids) (relationships a))
    (drop_keys (of_scans ids) (permissions a)) (triageStates a) (triageEvents a).
Definition drop_triage (gone : string → bool) (a : ScanArtifacts) : ScanArtifacts :=
  mkArtifacts (findings a) (scanFindings a) (scanEvents a) (rawAssets a) (identities a) (iamPolicies a) (relationships a)
    (permissions a) (drop_keys gone (triageStates a)) (drop_keys gone (triageEvents a)).
Definition drop_repo_scans (ids : list string) (order : list string) (t : RepoScanTables) : RepoScanTables :=
  let listed := finding_keys ids (repoFindingIDs t) in
  mkRepoTables (drop_keys (λ id, bool_decide (id ∈ ids)) (repoScans t)) order
    (drop_keys (λ key, bool_decide (key ∈ listed)) (repoFindings t)) (drop_keys (λ id, bool_decide (id ∈ ids)) (repoFindingIDs t))
    (repoCursors t).
Definition drop_repo_cursors (gone : RepoScanCursor → bool) (t : RepoScanTables) : RepoScanTables :=
  mkRepoTables (repoScans t) (repoScanIDs t) (repoFindings t) (repoFindingIDs t) (drop_rows gone (repoCursors t)).
(** The ids of the rows that match. *)
Definition matching_ids {A} (f : A → bool) (m : gmap string A) : list string := (map_to_list (filter (λ e, f e.2 = true) m)).*1.

(** *** The tables of a workspace that every cascade deletes *)
Definition deleteAWSPlatformBaselineResultsLocked (tenantID workspaceID projectID : string) (m : gmap string AWSPlatformBaselineResult)
    : gmap string AWSPlatformBaselineResult :=
  drop_rows (λ b, (bool_decide (tenantID = "") || bool_decide (Baseline_TenantID b = tenantID)) &&
    (bool_decide (workspaceID = "") || bool_decide (Baseline_WorkspaceID b = workspaceID)) &&
    (bool_decide (projectID = "") || bool_decide (Baseline_ProjectID b = projectID))) m.
Definition drop_connectors (gone : string → string → string → bool) (c : ConnectorTables) : ConnectorTables :=
  let gone_connector := λ x, gone (Connector_TenantID x) (Connector_WorkspaceID x) (Connector_ProjectID x) in
  mkTables (drop_rows gone_connector (connectors c))
    (drop_keys (λ key, match connectors c !! key with Some x => gone_connector x | None => false end) (connStates c))
    (drop_rows (λ x, gone (Secret_TenantID x) (Secret_WorkspaceID x) (Secret_ProjectID x)) (connSecrets c))
    (awsOrgRollouts c) (awsOrgRolloutTargets c) (awsOnboardingAttempts c).
Definition drop_workspace_rows (tenantID workspaceID : string) (m : MemoryStore) : MemoryStore :=
  let here := at_place tenantID workspaceID in
  let d := m_directory m in
  mkMemory
    (mkDirectory (organizations d) (delete (tenancyWorkspaceKey tenantID workspaceID) (workspaces d))
       (drop_rows (λ x, here (Member_TenantID x) (Member_WorkspaceID x)) (members d))
       (drop_rows (λ x, here (Project_TenantID x) (Project_WorkspaceID x)) (projects d))
       (users d) (userIdentityByID d) (userIdentityByProviderSubject d) (sessions d))
    (drop_rows (λ x, here (Policy_TenantID x) (Policy_WorkspaceID x)) (m_policies m))
    (drop_connectors (λ t w _, here t w) (m_connectors m))
    (drop_rows (λ x, here (Coverage_TenantID x) (Coverage_WorkspaceID x)) (awsCoverages m))
    (deleteAWSPlatformBaselineResultsLocked tenantID workspaceID "" (awsBaselines m))
    (onboardingStates m) (m_scans m) (m_artifacts m) (m_repo m) (m_authz m).
Definition DeleteWorkspace (ctx : Context) (workspaceID : string) (m : MemoryStore) : result MemoryStore :=
  '(scope, resolved) ← scoped_workspace ctx workspaceID;
  _ ← guard_err (bool_decide (is_Some (workspaces (m_directory m) !! tenancyWorkspaceKey (Scope_TenantID scope) resolved))) ErrNotFound;
  mret (drop_workspace_rows (Scope_TenantID scope) resolved m).

(** *** Purging a workspace *)
Definition drop_authz (here : string → string → bool) (a : AuthzState) : AuthzState :=
  let gone_events := λ events, match events with e :: _ => here (Event_TenantID e) (Event_WorkspaceID e) | [] => false end in
  mkAuthzState (drop_rows (λ x, here (Attributes_TenantID x) (Attributes_WorkspaceID x)) (authzAttrs a))
    (drop_rows (λ x, here (Rel_TenantID x) (Rel_WorkspaceID x)) (authzRels a))
    (drop_rows (λ x, here (Set_TenantID x) (Set_WorkspaceID x)) (authzSets a))
    (drop_rows (λ x, here (Version_TenantID x) (Version_WorkspaceID x)) (authzVersions a))
    (drop_rows (λ x, here (Rollout_TenantID x) (Rollout_WorkspaceID x)) (authzRollouts a))
    (drop_rows gone_events (authzEvents a))
    (authzEventIDs a ∖ list_to_set (Event_ID <$> ((map_to_list (authzEvents a)).*2 ≫= λ events, if gone_events events then events else []))).
Definition map_sessions (f : Session → Session) (d : DirectoryState) : DirectoryState :=
  mkDirectory (organizations d) (workspaces d) (members d) (projects d) (users d) (userIdentityByID d)
    (userIdentityByProviderSubject d) (f <$> sessions d).
Definition leave_workspace (here : string → string → bool) (s : Session) : Session :=
  if here (Session_CurrentOrgID s) (Session_CurrentWorkspaceID s) then place_session "" "" "" s else s.
Definition purged_store (tenant id : string) (m : MemoryStore) : MemoryStore :=
  let here := at_place tenant id in
  let m := drop_workspace_rows tenant id m in
  let scan_ids := matching_ids (λ r, here (Scan_TenantID r) (Scan_WorkspaceID r)) (scans (m_scans m)) in
  let repo_ids := matching_ids (λ r, here (RepoScan_TenantID r) (RepoScan_WorkspaceID r)) (repoScans (m_repo m)) in
  mkMemory
    (map_sessions (leave_workspace here) (m_directory m)) (m_policies m) (m_connectors m) (awsCoverages m) (awsBaselines m)
    ((λ o, if here (Onboarding_OrgID o) (Onboarding_WorkspaceID o)
           then place_onboarding "" "" "" (Onboarding_ConnectorID o) o else o) <$> onboardingStates m)
    (mkQueue (drop_keys (λ i, bool_decide (i ∈ scan_ids)) (scans (m_scans m))) (scanIDs (m_scans m)))
    (drop_triage (λ key, HasPrefix key (tenant +:+ "|" +:+ id +:+ "|")) (drop_scans scan_ids (m_artifacts m)))
    (drop_repo_cursors (λ c, here (Cursor_TenantID c) (Cursor_WorkspaceID c))
       (drop_repo_scans repo_ids (repoScanIDs (m_repo m)) (m_repo m)))
    (drop_authz here (m_authz m)).
Definition HardDeleteWorkspace (render_time : Z → string) (tenantID workspaceID : string) (expectedDeletedAt now : Z) (m : MemoryStore)
    : result (MemoryStore * TenancyWorkspace) :=
  let tenant := TrimSpace tenantID in
  let id := TrimSpace workspaceID in
  match workspaces (m_directory m) !! tenancyWorkspaceKey tenant id with
  | None => Err ErrNotFound
  | Some workspace =>
      _ ← guard_err (bool_decide (Workspace_Status workspace = WorkspaceStatusDeleted) && bool_decide (is_Some (Workspace_DeletedAt workspace)))
            (Errorf ("hard delete: workspace " +:+ tenant +:+ "/" +:+ id +:+ " is not pending deletion (status=" +:+
                     Quote (Workspace_Status workspace) +:+ ")"));
      _ ← guard_err (bool_decide (Workspace_DeletedAt workspace = Some expectedDeletedAt))
            (Errorf ("hard delete: workspace " +:+ tenant +:+ "/" +:+ id +:+ " deleted_at drifted (worker saw " +:+
                     render_time expectedDeletedAt +:+ ", row now " +:+ render_time (default 0 (Workspace_DeletedAt workspace)) +:+
                     "); the row was likely re-deleted within grace"));
      mret (purged_store tenant id m,
        mkWorkspace (Workspace_TenantID workspace) (Workspace_WorkspaceID workspace) (Workspace_DisplayName workspace)
          (Workspace_Slug workspace) (Workspace_Status workspace) (Workspace_SuspendedAt workspace) (Workspace_DeletedAt workspace)
          (Workspace_CreatedAt workspace) now)
  end.

(** *** Deleting an organization *)
Definition DeleteOrganization (ctx : Context) (m : MemoryStore) : result MemoryStore :=
  scope ← RequireScope ctx;
  let d := m_directory m in
  let tenantID := Scope_TenantID scope in
  let here := λ rowTenantID, bool_decide (rowTenantID = tenantID) in
  _ ← guard_err (bool_decide (is_Some (organizations d !! tenantID))) ErrNotFound;
  mret (mkMemory
    (mkDirectory (delete tenantID (organizations d)) (drop_rows (λ x, here (Workspace_TenantID x)) (workspaces d))
       (drop_rows (λ x, here (Member_TenantID x)) (members d)) (drop_rows (λ x, here (Project_TenantID x)) (projects d))
       (users d) (userIdentityByID d) (userIdentityByProviderSubject d) (sessions d))
    (drop_rows (λ x, here (Policy_TenantID x)) (m_policies m)) (drop_connectors (λ t _ _, here t) (m_connectors m))
    (drop_rows (λ x, here (Coverage_TenantID x)) (awsCoverages m))
    (deleteAWSPlatformBaselineResultsLocked tenantID "" "" (awsBaselines m))
    (onboardingStates m) (m_scans m) (m_artifacts m) (m_repo m) (m_authz m)).

(** *** Deleting a project *)
Definition findingScopeKey (scope : Scope) (findingID : string) : string :=
  let normalized := Scope_Normalize scope in
  Scope_TenantID normalized +:+ "|" +:+ Scope_WorkspaceID normalized +:+ "|" +:+ TrimSpace findingID.
Definition findingExistsInScopeLocked (scope : Scope) (workspaceID findingID : string) (m : MemoryStore) : bool :=
  let id := TrimSpace findingID in
  let here := at_place (Scope_TenantID scope) workspaceID in
  negb (bool_decide (id = "")) &&
  (existsb (λ f, bool_decide (TrimSpace (Stored_ID f) = id) &&
      match scans (m_scans m) !! Stored_ScanID f with Some r => here (Scan_TenantID r) (Scan_WorkspaceID r) | None => false end)
     (map_to_list (findings (m_artifacts m))).*2 ||
   existsb (λ f, bool_decide (TrimSpace (RF_ID f) = id) &&
      match repoScans (m_repo m) !! RF_ScanID f with Some r => here (RepoScan_TenantID r) (RepoScan_WorkspaceID r) | None => false end)
     (map_to_list (repoFindings (m_repo m))).*2).
(** The finding ids of keys "scan|finding". *)
Definition finding_ids (keys : list string) : gset string :=
  list_to_set (keys ≫= λ key, match SplitN key "|" 2 with [_; id] => [id] | _ => [] end).
Definition DeleteProject (ctx : Context) (workspaceID projectID : string) (m : MemoryStore) : result MemoryStore :=
  '(scope, resolved) ← scoped_workspace ctx workspaceID;
  let tenantID := Scope_TenantID scope in
  let d := m_directory m in
  let key := tenancyProjectKey tenantID resolved projectID in
  _ ← guard_err (bool_decide (is_Some (projects d !! key))) ErrNotFound;
  let here := λ t w p, at_place tenantID resolved t w && bool_decide (p = projectID) in
  let c := drop_connectors here (m_connectors m) in
  let scan_ids := matching_ids (λ r, here (Scan_TenantID r) (Scan_WorkspaceID r) (Scan_ProjectID r)) (scans (m_scans m)) in
  let repo_ids := matching_ids (λ r, here (RepoScan_TenantID r) (RepoScan_WorkspaceID r) (RepoSource_ProjectID (RepoScan_Source r)))
                    (repoScans (m_repo m)) in
  let gone_findings := finding_ids (finding_keys scan_ids (scanFindings (m_artifacts m)) ++
                                    finding_keys repo_ids (repoFindingIDs (m_repo m))) in
  let rows := drop_keys (λ i, bool_decide (i ∈ scan_ids)) (scans (m_scans m)) in
  let repo_rows := drop_keys (λ i, bool_decide (i ∈ repo_ids)) (repoScans (m_repo m)) in
  let m' := mkMemory
    (map_sessions
       (λ s, if here (Session_CurrentOrgID s) (Session_CurrentWorkspaceID s) (Session_CurrentProjectID s)
             then place_session (Session_CurrentOrgID s) (Session_CurrentWorkspaceID s) "" s else s)
       (with_projects (delete key (projects d)) d))
    (drop_rows (λ x, here (Policy_TenantID x) (Policy_WorkspaceID x) (Policy_ProjectID x)) (m_policies m))
    (mkTables (connectors c) (connStates c) (connSecrets c)
       (drop_rows (λ x, here (OrgRollout_TenantID x) (OrgRollout_WorkspaceID x) (OrgRollout_ProjectID x)) (awsOrgRollouts c))
       (drop_rows (λ x, here (OrgTarget_TenantID x) (OrgTarget_WorkspaceID x) (OrgTarget_ProjectID x)) (awsOrgRolloutTargets c))
       (drop_rows (λ x, here (Attempt_TenantID x) (Attempt_WorkspaceID x) (Attempt_ProjectID x)) (awsOnboardingAttempts c)))
    (drop_rows (λ x, here (Coverage_TenantID x) (Coverage_WorkspaceID x) (Coverage_ProjectID x)) (awsCoverages m))
    (deleteAWSPlatformBaselineResultsLocked tenantID resolved projectID (awsBaselines m))
    ((λ o, if here (Onboarding_OrgID o) (Onboarding_WorkspaceID o) (Onboarding_ProjectID o)
           then place_onboarding (Onboarding_OrgID o) (Onboarding_WorkspaceID o) "" "" o else o) <$> onboardingStates m)
    (mkQueue rows (match scan_ids with [] => scanIDs (m_scans m) | _ => filter (λ i, is_Some (rows !! i)) (scanIDs (m_scans m)) end))
    (drop_scans scan_ids (m_artifacts m))
    (drop_repo_cursors (λ x, here (Cursor_TenantID x) (Cursor_WorkspaceID x) (RepoSource_ProjectID (Cursor_Source x)))
       (drop_repo_scans repo_ids (filter (λ i, is_Some (repo_rows !! i)) (repoScanIDs (m_repo m))) (m_repo m)))
    (m_authz m) in
  let gone := λ key, existsb (λ i, negb (findingExistsInScopeLocked scope resolved i m') &&
                                   bool_decide (key = findingScopeKey (mkScope tenantID resolved) i)) (elements gone_findings) in
  mret (mkMemory (m_directory m') (m_policies m') (m_connectors m') (awsCoverages m') (awsBaselines m') (onboardingStates m') (m_scans m')
          (drop_triage gone (m_artifacts m')) (m_repo m') (m_authz m')).
End purge.

(** ** No orphans *)
Lemma lookup_drop_rows {A} (gone : A → bool) (m : gmap string A) key x : drop_rows gone m !! key = Some x ↔ m !! key = Some x ∧ gone x = false.
Proof. unfold drop_rows. by rewrite map_lookup_filter_Some. Qed.
Lemma lookup_drop_keys {A} (gone : string → bool) (m : gmap string A) key x :
  drop_keys gone m !! key = Some x ↔ m !! key = Some x ∧ gone key = false.
Proof. unfold drop_keys. by rewrite map_lookup_filter_Some. Qed.
Lemma elem_of_matching_ids {A} (f : A → bool) (m : gmap string A) id : id ∈ matching_ids f m ↔ ∃ x, m !! id = Some x ∧ f x = true.
Proof.
  unfold matching_ids. rewrite list_elem_of_fmap. split.
  - intros ([k x] & -> & Hin). apply elem_of_map_to_list, map_lookup_filter_Some in Hin as [Hx Hf]. by exists x.
  - intros (x & Hx & Hf). exists (id, x). split; [done|]. apply elem_of_map_to_list, map_lookup_filter_Some. done.
Qed.
Lemma at_place_true t w t' w' : at_place t w t' w' = true ↔ t' = t ∧ w' = w.
Proof. unfold at_place. by rewrite andb_true_iff, !bool_decide_eq_true. Qed.

Definition trimmed (s : string) : Prop := TrimSpace s = s.
Lemma trimmed_project_key t w p t' w' p' : trimmed t → trimmed w → trimmed p → trimmed t' → trimmed w' → trimmed p' →
  tenancyProjectKey t w p = tenancyProjectKey t' w' p' → t = t' ∧ w = w' ∧ p = p'.
Proof.
  unfold trimmed. intros Ht Hw Hp Ht' Hw' Hp' E. apply (proj1 tenancyCompositeKey_inj) in E. injection E as E1 E2 E3. split_and!; congruence.
Qed.

(** The workspace, and the project, that a row names exist. *)
Definition in_workspace (d : DirectoryState) (t w : string) : Prop :=
  trimmed t ∧ trimmed w ∧ is_Some (workspaces d !! tenancyWorkspaceKey t w).
Definition in_project (d : DirectoryState) (t w p : string) : Prop :=
  trimmed t ∧ trimmed w ∧ trimmed p ∧ is_Some (projects d !! tenancyProjectKey t w p).
Definition rows_in {A} (P : A → Prop) (m : gmap string A) : Prop := ∀ key x, m !! key = Some x → P x.

Section closed.
Context {Artifact : Type}.

Record directory_closed (d : DirectoryState) : Prop := {
  dc_projects : ∀ key p, projects d !! key = Some p → key = tenancyProjectKey (Project_TenantID p) (Project_WorkspaceID p) (Project_ProjectID p) ∧
    trimmed (Project_ProjectID p) ∧ in_workspace d (Project_TenantID p) (Project_WorkspaceID p);
  dc_members : rows_in (λ x, in_workspace d (Member_TenantID x) (Member_WorkspaceID x)) (members d);
}.
Record connectors_closed (d : DirectoryState) (c : ConnectorTables) : Prop := {
  cc_connectors : rows_in (λ x, in_project d (Connector_TenantID x) (Connector_WorkspaceID x) (Connector_ProjectID x)) (connectors c);
  cc_states : ∀ key, is_Some (connStates c !! key) → is_Some (connectors c !! key);
  cc_secrets : rows_in (λ x, in_project d (Secret_TenantID x) (Secret_WorkspaceID x) (Secret_ProjectID x)) (connSecrets c);
}.
(** What the AWS onboarding of a project leaves. *)
Record aws_rows_closed (d : DirectoryState) (c : ConnectorTables) : Prop := {
  ac_rollouts : rows_in (λ x, in_project d (OrgRollout_TenantID x) (OrgRollout_WorkspaceID x) (OrgRollout_ProjectID x)) (awsOrgRollouts c);
  ac_targets : rows_in (λ x, in_project d (OrgTarget_TenantID x) (OrgTarget_WorkspaceID x) (OrgTarget_ProjectID x)) (awsOrgRolloutTargets c);
  ac_attempts : rows_in (λ x, in_project d (Attempt_TenantID x) (Attempt_WorkspaceID x) (Attempt_ProjectID x)) (awsOnboardingAttempts c);
}.
Definition of_scan (q : QueueState) (key : string) : Prop := ∃ id, is_Some (scans q !! id) ∧ HasPrefix key (id +:+ "|") = true.
Definition keys_of_scans {A} (q : QueueState) (m : gmap string A) : Prop := ∀ key, is_Some (m !! key) → of_scan q key.
(** Findings are listed under a row that exists. *)
Definition listed_under {A B} (rows : gmap string A) (index : gmap string (list string)) (m : gmap string B) : Prop :=
  ∀ key, is_Some (m !! key) → ∃ id keys, is_Some (rows !! id) ∧ index !! id = Some keys ∧ key ∈ keys.
Record artifacts_closed (q : QueueState) (a : @ScanArtifacts Artifact) : Prop := {
  xc_findings : listed_under (scans q) (scanFindings a) (findings a);
  xc_events : ∀ id, is_Some (scanEvents a !! id) → is_Some (scans q !! id);
  xc_rawAssets : keys_of_scans q (rawAssets a);
  xc_identities : keys_of_scans q (identities a);
  xc_iamPolicies : keys_of_scans q (iamPolicies a);
  xc_relationships : keys_of_scans q (relationships a);
  xc_permissions : keys_of_scans q (permissions a);
}.
Record store_closed (m : @MemoryStore Artifact) : Prop := {
  sc_directory : directory_closed (m_directory m);
  sc_policies : rows_in (λ x, in_project (m_directory m) (Policy_TenantID x) (Policy_WorkspaceID x) (Policy_ProjectID x)) (m_policies m);
  sc_connectors : connectors_closed (m_directory m) (m_connectors m);
  sc_coverages : rows_in (λ x, in_project (m_directory m) (Coverage_TenantID x) (Coverage_WorkspaceID x) (Coverage_ProjectID x)) (awsCoverages m);
  sc_baselines : rows_in (λ x, in_project (m_directory m) (Baseline_TenantID x) (Baseline_WorkspaceID x) (Baseline_ProjectID x)) (awsBaselines m);
  sc_artifacts : artifacts_closed (m_scans m) (m_artifacts m);
  sc_repo : listed_under (repoScans (m_repo m)) (repoFindingIDs (m_repo m)) (repoFindings (m_repo m));
}.

(** A cascade of [gone] rows from a project table that keeps the projects of the
    rows it keeps. *)
Lemma rows_in_drop {A} (P Q : A → Prop) (gone : A → bool) (m : gmap string A) :
  (∀ x, gone x = false → P x → Q x) → rows_in P m → rows_in Q (drop_rows gone m).
Proof. intros HPQ Hm key x [Hx Hg]%lookup_drop_rows. by apply HPQ, (Hm key). Qed.

(** *** Scans *)
Lemma of_scans_false ids key id : of_scans ids key = false → HasPrefix key (id +:+ "|") = true → id ∉ ids.
Proof.
  unfold of_scans. intros Hno Hp Hin. apply not_true_iff_false in Hno. apply Hno, existsb_exists. exists id. by rewrite <-list_elem_of_In.
Qed.
Lemma drop_keys_Some {A} (ids : list string) (m : gmap string A) id :
  is_Some (m !! id) → id ∉ ids → is_Some (drop_keys (λ i, bool_decide (i ∈ ids)) m !! id).
Proof. intros [x Hx] Hno. exists x. apply lookup_drop_keys. split; [done|]. by apply bool_decide_eq_false. Qed.
Lemma keys_of_scans_drop {A} ids q order (m : gmap string A) :
  keys_of_scans q m → keys_of_scans (mkQueue (drop_keys (λ i, bool_decide (i ∈ ids)) (scans q)) order) (drop_keys (of_scans ids) m).
Proof.
  intros Hm key [x [Hx Hno]%lookup_drop_keys]. destruct (Hm key) as (id & Hid & Hp); [by exists x|]. exists id. split; [|done].
  cbn. apply drop_keys_Some; [done|]. by eapply of_scans_false.
Qed.
Lemma listed_under_drop {A B} ids (rows : gmap string A) index (m : gmap string B) :
  listed_under rows index m →
  listed_under (drop_keys (λ i, bool_decide (i ∈ ids)) rows) (drop_keys (λ i, bool_decide (i ∈ ids)) index)
    (drop_keys (λ key, bool_decide (key ∈ finding_keys ids index)) m).
Proof.
  intros Hm key [x [Hx Hno]%lookup_drop_keys]. destruct (Hm key) as (id & keys & Hid & Hk & Hin); [by exists x|].
  apply bool_decide_eq_false in Hno. assert (id ∉ ids) as Hkeep.
  { intros Hi. apply Hno. unfold finding_keys. apply list_elem_of_bind. exists id. split; [by rewrite Hk|done]. }
  exists id, keys. split; [by apply drop_keys_Some|]. split; [|done]. apply lookup_drop_keys. split; [done|]. by apply bool_decide_eq_false.
Qed.
Lemma drop_scans_closed ids q order a : artifacts_closed q a →
  artifacts_closed (mkQueue (drop_keys (λ i, bool_decide (i ∈ ids)) (scans q)) order) (drop_scans ids a).
Proof.
  intros []. split; cbn; try by apply keys_of_scans_drop.
  - by apply listed_under_drop.
  - intros id [x [Hx Hno]%lookup_drop_keys]. apply bool_decide_eq_false in Hno. apply drop_keys_Some; [|done]. apply xc_events0. by exists x.
Qed.
Lemma drop_triage_closed q gone a : artifacts_closed q a → artifacts_closed q (drop_triage gone a).
Proof. by intros []. Qed.

Lemma project_kept (gone : string → string → string → bool) d d' t w p :
  directory_closed d →
  (∀ key x, projects d !! key = Some x → gone (Project_TenantID x) (Project_WorkspaceID x) (Project_ProjectID x) = false →
     projects d' !! key = Some x) →
  gone t w p = false → in_project d t w p → in_project d' t w p.
Proof.
  intros Hc Hkept Hg (Ht & Hw & Hp & [x Hx]). split_and!; [done..|]. destruct (dc_projects _ Hc _ _ Hx) as (E & Hxp & Hxt & Hxw & _).
  apply trimmed_project_key in E as (-> & -> & ->); [|done..]. exists x. by apply Hkept.
Qed.
Lemma drop_connectors_closed gone d d' c :
  (∀ t w p, gone t w p = false → in_project d t w p → in_project d' t w p) →
  connectors_closed d c → connectors_closed d' (drop_connectors gone c).
Proof.
  intros Hp [Hc Hst Hse]. split; cbn.
  - eapply rows_in_drop; [|exact Hc]. intros x Hg. by apply Hp.
  - intros key [st [Hs Hno]%lookup_drop_keys]. destruct (Hst key) as [x Hx]; [by exists st|]. rewrite Hx in Hno. exists x. by apply lookup_drop_rows.
  - eapply rows_in_drop; [|exact Hse]. intros x Hg. by apply Hp.
Qed.



(** *** What is taken *)

(** A table after some of its rows were deleted. *)
Definition kept_unless {A} (lost : string → A → Prop) (m m' : gmap string A) : Prop := ∀ key x, m' !! key = Some x ↔ m !! key = Some x ∧ ¬ lost key x.
Definition rows_kept {A} (gone : string → string → bool) (tenant workspace : A → string) : gmap string A → gmap string A → Prop :=
  kept_unless (λ _ x, gone (tenant x) (workspace x) = true).
(** The scans of some workspaces, and what is filed under them. *)
Definition lost_scan {A} (lost : A → Prop) (rows : gmap string A) (id : string) : Prop := ∃ r, rows !! id = Some r ∧ lost r.
Definition lost_prefix {A} (lost : A → Prop) (rows : gmap string A) (key : string) : Prop :=
  ∃ id, lost_scan lost rows id ∧ HasPrefix key (id +:+ "|") = true.
Definition lost_listed {A} (lost : A → Prop) (rows : gmap string A) (index : gmap string (list string)) (key : string) : Prop :=
  ∃ id keys, lost_scan lost rows id ∧ index !! id = Some keys ∧ key ∈ keys.
Definition scan_of (gone : string → string → bool) (r : ScanRecord) : Prop := gone (Scan_TenantID r) (Scan_WorkspaceID r) = true.
Definition repo_scan_of (gone : string → string → bool) (r : RepoScanRecord) : Prop := gone (RepoScan_TenantID r) (RepoScan_WorkspaceID r) = true.
(** The store before and after the rows of the workspaces [gone] were deleted,
    and of no other workspace, table by table. *)
Record connectors_taken (gone : string → string → bool) (c c' : ConnectorTables) : Prop := {
  tk_connectors : rows_kept gone Connector_TenantID Connector_WorkspaceID (connectors c) (connectors c');
  tk_states : kept_unless (λ key _, lost_scan (λ x, gone (Connector_TenantID x) (Connector_WorkspaceID x) = true) (connectors c) key) (connStates c) (connStates c');
  tk_secrets : rows_kept gone Secret_TenantID Secret_WorkspaceID (connSecrets c) (connSecrets c');
  tk_onboarding : awsOrgRollouts c' = awsOrgRollouts c ∧ awsOrgRolloutTargets c' = awsOrgRolloutTargets c ∧ awsOnboardingAttempts c' = awsOnboardingAttempts c;
}.
Record artifacts_taken (gone : string → string → bool) (rows : gmap string ScanRecord) (a a' : @ScanArtifacts Artifact) : Prop := {
  tk_findings : kept_unless (λ key _, lost_listed (scan_of gone) rows (scanFindings a) key) (findings a) (findings a');
  tk_scanFindings : kept_unless (λ id _, lost_scan (scan_of gone) rows id) (scanFindings a) (scanFindings a');
  tk_events : kept_unless (λ id _, lost_scan (scan_of gone) rows id) (scanEvents a) (scanEvents a');
  tk_rawAssets : kept_unless (λ key _, lost_prefix (scan_of gone) rows key) (rawAssets a) (rawAssets a');
  tk_identities : kept_unless (λ key _, lost_prefix (scan_of gone) rows key) (identities a) (identities a');
  tk_iamPolicies : kept_unless (λ key _, lost_prefix (scan_of gone) rows key) (iamPolicies a) (iamPolicies a');
  tk_relationships : kept_unless (λ key _, lost_prefix (scan_of gone) rows key) (relationships a) (relationships a');
  tk_permissions : kept_unless (λ key _, lost_prefix (scan_of gone) rows key) (permissions a) (permissions a');
  tk_triageStates : kept_unless (λ key _, ∃ t w, gone t w = true ∧ HasPrefix key (t +:+ "|" +:+ w +:+ "|") = true) (triageStates a) (triageStates a');
  tk_triageEvents : kept_unless (λ key _, ∃ t w, gone t w = true ∧ HasPrefix key (t +:+ "|" +:+ w +:+ "|") = true) (triageEvents a) (triageEvents a');
}.
Record repo_taken (gone : string → string → bool) (r r' : RepoScanTables) : Prop := {
  tk_repoScans : rows_kept gone RepoScan_TenantID RepoScan_WorkspaceID (repoScans r) (repoScans r');
  tk_repoFindings : kept_unless (λ key _, lost_listed (repo_scan_of gone) (repoScans r) (repoFindingIDs r) key)
    (repoFindings r) (repoFindings r');
  tk_repoFindingIDs : kept_unless (λ id _, lost_scan (repo_scan_of gone) (repoScans r) id)
    (repoFindingIDs r) (repoFindingIDs r');
  tk_cursors : rows_kept gone Cursor_TenantID Cursor_WorkspaceID (repoCursors r) (repoCursors r');
}.
(** The events of a scope are listed together. *)
Definition lost_events (gone : string → string → bool) (events : list AuthzPolicyEvent) : Prop :=
  ∃ e rest, events = e :: rest ∧ gone (Event_TenantID e) (Event_WorkspaceID e) = true.
Record authz_taken (gone : string → string → bool) (a a' : AuthzState) : Prop := {
  tk_attrs : rows_kept gone Attributes_TenantID Attributes_WorkspaceID (authzAttrs a) (authzAttrs a');
  tk_rels : rows_kept gone Rel_TenantID Rel_WorkspaceID (authzRels a) (authzRels a');
  tk_sets : rows_kept gone Set_TenantID Set_WorkspaceID (authzSets a) (authzSets a');
  tk_versions : rows_kept gone Version_TenantID Version_WorkspaceID (authzVersions a) (authzVersions a');
  tk_rollouts : rows_kept gone Rollout_TenantID Rollout_WorkspaceID (authzRollouts a) (authzRollouts a');
  tk_authzEvents : kept_unless (λ _, lost_events gone) (authzEvents a) (authzEvents a');
  tk_eventIDs : ∀ id, id ∈ authzEventIDs a' ↔ id ∈ authzEventIDs a ∧
    ¬ ∃ key events e, authzEvents a !! key = Some events ∧ lost_events gone events ∧ e ∈ events ∧ Event_ID e = id;
}.
Record directory_taken (gone : string → string → bool) (d d' : DirectoryState) : Prop := {
  tk_workspaces : kept_unless (λ key _, ∃ t w, gone t w = true ∧ key = tenancyWorkspaceKey t w) (workspaces d) (workspaces d');
  tk_members : rows_kept gone Member_TenantID Member_WorkspaceID (members d) (members d');
  tk_projects : rows_kept gone Project_TenantID Project_WorkspaceID (projects d) (projects d');
  tk_sessions : sessions d' = (λ s, if gone (Session_CurrentOrgID s) (Session_CurrentWorkspaceID s) then place_session "" "" "" s else s) <$> sessions d;
  tk_accounts : organizations d' = organizations d ∧ users d' = users d ∧ userIdentityByID d' = userIdentityByID d ∧
    userIdentityByProviderSubject d' = userIdentityByProviderSubject d;
}.
Record only_taken (gone : string → string → bool) (m m' : @MemoryStore Artifact) : Prop := {
  tk_directory : directory_taken gone (m_directory m) (m_directory m');
  tk_policies : rows_kept gone Policy_TenantID Policy_WorkspaceID (m_policies m) (m_policies m');
  tk_connector_tables : connectors_taken gone (m_connectors m) (m_connectors m');
  tk_coverages : rows_kept gone Coverage_TenantID Coverage_WorkspaceID (awsCoverages m) (awsCoverages m');
  tk_baselines : rows_kept gone Baseline_TenantID Baseline_WorkspaceID (awsBaselines m) (awsBaselines m');
  tk_onboardingStates : onboardingStates m' =
    (λ o, if gone (Onboarding_OrgID o) (Onboarding_WorkspaceID o) then place_onboarding "" "" "" (Onboarding_ConnectorID o) o else o) <$> onboardingStates m;
  tk_scans : rows_kept gone Scan_TenantID Scan_WorkspaceID (scans (m_scans m)) (scans (m_scans m'));
  tk_artifacts : artifacts_taken gone (scans (m_scans m)) (m_artifacts m) (m_artifacts m');
  tk_repo : repo_taken gone (m_repo m) (m_repo m');
  tk_authz : authz_taken gone (m_authz m) (m_authz m');
}.

Section dropped_scans.
Context {A : Type} (f : A → bool) (lost : A → Prop) (Hlost : ∀ x, f x = true ↔ lost x) (rows : gmap string A).
End dropped_scans.


(** *** One purge after another *)
Lemma kept_refl {A} (lost : string → A → Prop) (m : gmap string A) : (∀ key x, ¬ lost key x) → kept_unless lost m m.
Proof. intros Hno key x. split; [|tauto]. intros Hx. by split. Qed.
Lemma kept_trans {A} (P Q R : string → A → Prop) m m1 m2 : kept_unless P m m1 → kept_unless Q m1 m2 → (∀ key x, P key x → R key x) →
  (∀ key x, m !! key = Some x → ¬ P key x → Q key x ↔ R key x) → kept_unless R m m2.
Proof.
  intros H1 H2 HPR HQR key x. rewrite (H2 key x), (H1 key x). split.
  - intros [[Hx Hp] Hq]. split; [done|]. by rewrite <-(HQR key x).
  - intros [Hx Hr]. assert (¬ P key x) as Hp by (intros Hp; by apply Hr, HPR). split; [done|]. by rewrite (HQR key x).
Qed.
Ltac nothing_lost := apply kept_refl; unfold lost_listed, lost_prefix, lost_scan, scan_of, repo_scan_of, lost_events; naive_solver.
Lemma only_taken_nothing m : only_taken (λ _ _, false) m m.
Proof.
  split; [split|nothing_lost|split|nothing_lost|nothing_lost| |nothing_lost|split|split|split]; try nothing_lost; try done;
    [by rewrite map_fmap_id|by rewrite map_fmap_id|]. intros id. split; [|tauto]. intros Hid. split; [done|].
  intros (key & events & e & _ & (? & ? & _ & [=]) & _).
Qed.
Section after.
Context (g1 g2 : string → string → bool).
Definition either (t w : string) : bool := g1 t w || g2 t w.
Lemma either_true t w : either t w = true ↔ g1 t w = true ∨ g2 t w = true.
Proof. unfold either. by rewrite orb_true_iff. Qed.
Lemma rows_kept_trans {A} (tenant workspace : A → string) m m1 m2 :
  rows_kept g1 tenant workspace m m1 → rows_kept g2 tenant workspace m1 m2 → rows_kept either tenant workspace m m2.
Proof. intros H1 H2. eapply kept_trans; [exact H1|exact H2|..]; cbn; intros key x; rewrite either_true; tauto. Qed.
(** What is filed under scans. *)
Section filed.
Context {A : Type} (L1 L2 L : A → Prop) (HL : ∀ x, L x ↔ L1 x ∨ L2 x) (rows rows1 : gmap string A) (Hrows : kept_unless (λ _, L1) rows rows1).
Lemma lost_scan_either id : ¬ lost_scan L1 rows id → lost_scan L2 rows1 id ↔ lost_scan L rows id.
Proof.
  intros Hno. split.
  - intros (r & [Hr _]%Hrows & Hl). exists r. rewrite HL. tauto.
  - intros (r & Hr & [Hl|Hl]%HL); [destruct Hno; by exists r|]. exists r. split; [|done]. apply Hrows. split; [done|]. intros Hl1. apply Hno. by exists r.
Qed.
Lemma lost_scan_first id : lost_scan L1 rows id → lost_scan L rows id.
Proof. intros (r & ? & ?). exists r. rewrite HL. tauto. Qed.
Lemma filed_trans {B} (m m1 m2 : gmap string B) :
  kept_unless (λ id _, lost_scan L1 rows id) m m1 → kept_unless (λ id _, lost_scan L2 rows1 id) m1 m2 → kept_unless (λ id _, lost_scan L rows id) m m2.
Proof.
  intros H1 H2. eapply kept_trans; [exact H1|exact H2|..]; cbn; intros key x; [apply lost_scan_first|]. intros _. by apply lost_scan_either.
Qed.
Lemma prefix_trans {B} (m m1 m2 : gmap string B) :
  kept_unless (λ key _, lost_prefix L1 rows key) m m1 → kept_unless (λ key _, lost_prefix L2 rows1 key) m1 m2 → kept_unless (λ key _, lost_prefix L rows key) m m2.
Proof.
  intros H1 H2. eapply kept_trans; [exact H1|exact H2|..]; cbn; intros key x.
  - intros (id & Hid & Hp). exists id. split; [by apply lost_scan_first|done].
  - intros _ Hno. unfold lost_prefix in *. split; intros (id & Hid & Hp); exists id; (split; [|done]); apply (lost_scan_either id); try done;
      intros Hl; apply Hno; by exists id.
Qed.
Lemma listed_trans {B} (index index1 : gmap string (list string)) (m m1 m2 : gmap string B) :
  kept_unless (λ id _, lost_scan L1 rows id) index index1 →
  kept_unless (λ key _, lost_listed L1 rows index key) m m1 → kept_unless (λ key _, lost_listed L2 rows1 index1 key) m1 m2 →
  kept_unless (λ key _, lost_listed L rows index key) m m2.
Proof.
  intros Hi H1 H2. eapply kept_trans; [exact H1|exact H2|..]; cbn; intros key x.
  - intros (id & keys & Hid & Hk). exists id, keys. split; [by apply lost_scan_first|done].
  - intros _ Hno. unfold lost_listed in *. split.
    + intros (id & keys & Hid & [Hk Hn]%Hi & Hin). exists id, keys. split; [|done]. by apply (lost_scan_either id).
    + intros (id & keys & Hid & Hk & Hin). assert (¬ lost_scan L1 rows id) as Hn by (intros Hl; apply Hno; by exists id, keys).
      exists id, keys. split; [by apply (lost_scan_either id)|]. split; [|done]. by apply Hi.
Qed.
End filed.

Lemma directory_taken_trans d d1 d2 : directory_taken g1 d d1 → directory_taken g2 d1 d2 → directory_taken either d d2.
Proof.
  intros [W1 M1 P1 S1 (A1 & B1 & C1 & D1)] [W2 M2 P2 S2 (A2 & B2 & C2 & D2)]. split; [|by eapply rows_kept_trans..| |split_and!; congruence].
  - eapply kept_trans; [exact W1|exact W2|..]; cbn; intros key x; setoid_rewrite either_true; naive_solver.
  - rewrite S2, S1, <-map_fmap_compose. apply map_fmap_ext. intros k s _. cbn. unfold either.
    destruct (g1 (Session_CurrentOrgID s) (Session_CurrentWorkspaceID s)); cbn; [by destruct (g2 "" "")|done].
Qed.
Lemma connectors_taken_trans c c1 c2 : connectors_taken g1 c c1 → connectors_taken g2 c1 c2 → connectors_taken either c c2.
Proof.
  intros [C1 S1 E1 (A1 & B1 & D1)] [C2 S2 E2 (A2 & B2 & D2)]. split; [by eapply rows_kept_trans| |by eapply rows_kept_trans|split_and!; congruence].
  exact (filed_trans _ _ _ (λ x, either_true _ _) _ _ C1 _ _ _ S1 S2).
Qed.
Lemma artifacts_taken_trans rows rows1 a a1 a2 : rows_kept g1 Scan_TenantID Scan_WorkspaceID rows rows1 →
  artifacts_taken g1 rows a a1 → artifacts_taken g2 rows1 a1 a2 → artifacts_taken either rows a a2.
Proof.
  intros Hrows [] []. assert (∀ r, scan_of either r ↔ scan_of g1 r ∨ scan_of g2 r) as HL by (intros r; apply either_true).
  split; [by eapply listed_trans|by eapply filed_trans..|by eapply prefix_trans|by eapply prefix_trans|by eapply prefix_trans|by eapply prefix_trans|by eapply prefix_trans| |];
    (eapply kept_trans; [eassumption|eassumption|..]; cbn; intros key x; setoid_rewrite either_true; naive_solver).
Qed.
Lemma repo_taken_trans r r1 r2 : repo_taken g1 r r1 → repo_taken g2 r1 r2 → repo_taken either r r2.
Proof.
  intros [] []. assert (∀ x, repo_scan_of either x ↔ repo_scan_of g1 x ∨ repo_scan_of g2 x) as HL by (intros x; apply either_true).
  split; [by eapply rows_kept_trans|by eapply listed_trans|by eapply filed_trans|by eapply rows_kept_trans].
Qed.
Lemma lost_events_either events : lost_events either events ↔ lost_events g1 events ∨ lost_events g2 events.
Proof. unfold lost_events. setoid_rewrite either_true. naive_solver. Qed.
Lemma authz_taken_trans a a1 a2 : authz_taken g1 a a1 → authz_taken g2 a1 a2 → authz_taken either a a2.
Proof.
  intros [] []. split; [by eapply rows_kept_trans..| |].
  - eapply kept_trans; [eassumption|eassumption|..]; cbn; intros key x; rewrite lost_events_either; tauto.
  - intros id. rewrite tk_eventIDs1, tk_eventIDs0. setoid_rewrite lost_events_either. split.
    + intros [[Hin Hno1] Hno2]. split; [done|]. intros (key & events & e & Hk & [Hl|Hl] & He); [apply Hno1; by exists key, events, e|].
      apply Hno2. exists key, events, e. split; [|done]. apply tk_authzEvents0. split; [done|]. intros Hl1. apply Hno1. by exists key, events, e.
    + intros [Hin Hno]. split; [split; [done|]|]; intros (key & events & e & Hk & Hl & He); apply Hno; exists key, events, e; [tauto|].
      apply tk_authzEvents0 in Hk as [Hk _]. tauto.
Qed.
Lemma only_taken_trans m m1 m2 : only_taken g1 m m1 → only_taken g2 m1 m2 → only_taken either m m2.
Proof.
  intros [] []. split; [by eapply directory_taken_trans|by eapply rows_kept_trans|by eapply connectors_taken_trans|by eapply rows_kept_trans|by eapply rows_kept_trans| |
    by eapply rows_kept_trans|by eapply artifacts_taken_trans|by eapply repo_taken_trans|by eapply authz_taken_trans].
  rewrite tk_onboardingStates1, tk_onboardingStates0, <-map_fmap_compose. apply map_fmap_ext. intros k o _. cbn. unfold either.
  destruct (g1 (Onboarding_OrgID o) (Onboarding_WorkspaceID o)); cbn; [by destruct (g2 "" "")|done].
Qed.
End after.


(** Purging a workspace keeps the rows of its AWS onboarding, although every row
    of the workspace is meant to go. *)
Lemma HardDeleteWorkspace_keeps_onboarding render_time tenantID workspaceID expectedDeletedAt now (m m' : @MemoryStore Artifact) workspace :
  HardDeleteWorkspace render_time tenantID workspaceID expectedDeletedAt now m = Ok (m', workspace) →
  awsOnboardingAttempts (m_connectors m') = awsOnboardingAttempts (m_connectors m) ∧
  awsOrgRollouts (m_connectors m') = awsOrgRollouts (m_connectors m) ∧
  awsOrgRolloutTargets (m_connectors m') = awsOrgRolloutTargets (m_connectors m).
Proof.
  unfold HardDeleteWorkspace. cbv zeta. destruct (workspaces (m_directory m) !! _) as [row|]; [|done]. intros Hok.
  open_bind Hok u1 _. open_bind Hok u2 _. by injection Hok as <- <-.
Qed.

(** *** Projects *)
Lemma scoped_trimmed ctx workspaceID scope resolved :
  scoped_workspace ctx workspaceID = Ok (scope, resolved) → trimmed (Scope_TenantID scope) ∧ trimmed resolved.
Proof.
  unfold scoped_workspace. intros Hok. open_bind Hok scope' Hs. open_bind Hok r Hr. injection Hok as -> ->.
  pose proof (RequireScope_normal _ _ Hs) as Hn. apply ResolveScopedWorkspaceID_Ok in Hr. subst resolved.
  destruct (Scope_Normalize_normal scope) as (Et & _ & Ew & _). split; [|exact Ew]. by rewrite (Scope_Normalize_id scope Hn) in Et.
Qed.

(** Deleting a project leaves no orphans either, and takes the rows of its AWS
    onboarding too: what belonged to a project, workspace or scan that exists
    still does, the project and its scans are gone, and no other project of any
    workspace loses a scan. *)
Theorem DeleteProject_no_orphans ctx workspaceID projectID m m' scope resolved
    (Hclosed : store_closed m) (Haws : aws_rows_closed (m_directory m) (m_connectors m)) (Hid : trimmed projectID)
    (Hscope : scoped_workspace ctx workspaceID = Ok (scope, resolved))
    (Hok : DeleteProject ctx workspaceID projectID m = Ok m') :
  let here := λ t w p, at_place (Scope_TenantID scope) resolved t w && bool_decide (p = projectID) in
  store_closed m' ∧ aws_rows_closed (m_directory m') (m_connectors m') ∧
  ¬ in_project (m_directory m') (Scope_TenantID scope) resolved projectID ∧
  (∀ id r, scans (m_scans m') !! id = Some r ↔
     scans (m_scans m) !! id = Some r ∧ here (Scan_TenantID r) (Scan_WorkspaceID r) (Scan_ProjectID r) = false) ∧
  (∀ id r, repoScans (m_repo m') !! id = Some r ↔
     repoScans (m_repo m) !! id = Some r ∧
     here (RepoScan_TenantID r) (RepoScan_WorkspaceID r) (RepoSource_ProjectID (RepoScan_Source r)) = false).
Proof.
  intros here. unfold DeleteProject in Hok. rewrite Hscope in Hok. cbn [mbind result_bind] in Hok. cbv zeta in Hok. fold here in Hok.
  open_bind Hok u _. destruct (scoped_trimmed _ _ _ _ Hscope) as [Ht Hw]. injection Hok as <-.
  set (key := tenancyProjectKey (Scope_TenantID scope) resolved projectID). destruct Hclosed as [Hdir Hpol Hcon Hcov Hbas Hart Hrepo].
  match goal with |- context [map_sessions ?f ?d] => set (d' := map_sessions f d) end.
  assert (∀ t w p, here t w p = false → in_project (m_directory m) t w p → in_project d' t w p) as Hpr.
  { intros t w p. apply (project_kept here); [done|]. intros k x Hx Hg. cbn. rewrite lookup_delete_ne; [done|]. intros E.
    destruct (dc_projects _ Hdir _ _ Hx) as (-> & Hxp & Hxt & Hxw & _). apply trimmed_project_key in E as (E1 & E2 & E3); [|done..].
    unfold here in Hg. rewrite <-E1, <-E2, <-E3 in Hg. by rewrite (proj2 (at_place_true _ _ _ _)), bool_decide_eq_true_2 in Hg. }
  destruct Haws as [Hro Hta Hat]. split_and!.
  - split; cbn [m_directory m_policies m_connectors awsCoverages awsBaselines m_scans m_artifacts m_repo].
    + destruct Hdir as [Hp Hm]. split; [|exact Hm]. intros k p Hk. cbn in Hk. apply lookup_delete_Some in Hk as [_ Hk]. by apply Hp.
    + eapply rows_in_drop; [|exact Hpol]. intros x Hg. by apply Hpr.
    + destruct (drop_connectors_closed here (m_directory m) d' (m_connectors m) Hpr Hcon). by split.
    + eapply rows_in_drop; [|exact Hcov]. intros x Hg. by apply Hpr.
    + eapply rows_in_drop; [|exact Hbas]. intros x Hg. apply Hpr. apply not_true_iff_false. unfold here.
      rewrite andb_true_iff, at_place_true, bool_decide_eq_true. intros [[E1 E2] E3].
      cbv beta in Hg. by rewrite (bool_decide_eq_true_2 _ E1), (bool_decide_eq_true_2 _ E2), (bool_decide_eq_true_2 _ E3), !orb_true_r in Hg.
    + apply drop_triage_closed, drop_scans_closed, Hart.
    + cbn [repoScans repoFindingIDs repoFindings drop_repo_cursors drop_repo_scans]. apply listed_under_drop, Hrepo.
  - split; cbn; (eapply rows_in_drop; [|eassumption]); intros x Hg; by apply Hpr.
  - intros (_ & _ & _ & [x Hx]). cbn in Hx. by rewrite lookup_delete_eq in Hx.
  - intros i r. cbn. rewrite lookup_drop_keys, bool_decide_eq_false, elem_of_matching_ids. split; intros [Hr Hg]; (split; [done|]).
    + apply not_true_iff_false. intros Hh. apply Hg. by exists r.
    + intros (r' & Hr' & Hh). pose proof (eq_trans (eq_sym Hr) Hr') as E. apply (inj Some) in E as <-. exact (eq_true_false_abs _ Hh Hg).
  - intros i r. cbn. rewrite lookup_drop_keys, bool_decide_eq_false, elem_of_matching_ids. split; intros [Hr Hg]; (split; [done|]).
    + apply not_true_iff_false. intros Hh. apply Hg. by exists r.
    + intros (r' & Hr' & Hh). pose proof (eq_trans (eq_sym Hr) Hr') as E. apply (inj Some) in E as <-. exact (eq_true_false_abs _ Hh Hg).
Qed.
End closed.

(** ** A store with one deleted workspace *)
Definition sample_purged_scan : ScanRecord :=
  mkScan "scan-1" "acme" "prod" "core" "" "aws" "completed" 1 (Some 2) 1 1 "" 0 3 "" None false None "" "".
Definition sample_purge_store (status : string) (deletedAt : option Z) : @MemoryStore unit :=
  mkMemory
    (mkDirectory ∅ {[ tenancyWorkspaceKey "acme" "prod" := mkWorkspace "acme" "prod" "Prod" "prod" status None deletedAt 0 0 ]} ∅
       {[ tenancyProjectKey "acme" "prod" "core" := mkProject "acme" "prod" "core" "Core" "core" "" None 0 0 ]} ∅ ∅ ∅ ∅)
    ∅ empty_tables {[ "coverage-1" := mkCoverage "acme" "prod" "core" ]} ∅ ∅
    (mkQueue {[ "scan-1" := sample_purged_scan ]} ["scan-1"])
    (mkArtifacts {[ "scan-1|f" := mkStored "f" "scan-1" ]} {[ "scan-1" := ["scan-1|f"] ]} ∅ {[ "scan-1|asset" := tt ]} ∅ ∅ ∅ ∅
       {[ "acme|prod|f" := tt ]} ∅)
    empty_repo_tables empty_authz_state.
Lemma rows_in_empty {A} (P : A → Prop) : rows_in P ∅.
Proof. intros key x Hx. by rewrite lookup_empty in Hx. Qed.
Lemma rows_in_singleton {A} (P : A → Prop) k x : P x → rows_in P {[ k := x ]}.
Proof. intros HP key y [<- <-]%lookup_singleton_Some. done. Qed.
Lemma sample_purge_workspace status deletedAt : in_workspace (m_directory (sample_purge_store status deletedAt)) "acme" "prod".
Proof. split_and!; [done..|]. eexists. apply lookup_singleton_eq. Qed.
Lemma sample_purge_project status deletedAt : in_project (m_directory (sample_purge_store status deletedAt)) "acme" "prod" "core".
Proof. split_and!; [done..|]. eexists. apply lookup_singleton_eq. Qed.
Lemma sample_purge_closed status deletedAt : store_closed (sample_purge_store status deletedAt).
Proof.
  split; cbn [m_directory m_policies m_connectors awsCoverages awsBaselines m_scans m_artifacts m_repo sample_purge_store].
  - split; [|apply rows_in_empty]. intros key p Hp. cbn [projects] in Hp. apply lookup_singleton_Some in Hp as [<- <-].
    split; [done|]. split; [done|]. apply (sample_purge_workspace status deletedAt).
  - apply rows_in_empty.
  - split; cbn [connStates connectors connSecrets empty_tables]; [apply rows_in_empty| |apply rows_in_empty]. intros key [x Hx]. by apply lookup_empty_Some in Hx.
  - apply rows_in_singleton, sample_purge_project.
  - apply rows_in_empty.
  - split; cbn [scanEvents scanFindings findings rawAssets identities iamPolicies relationships permissions]; try (intros key [x Hx]; by apply lookup_empty_Some in Hx).
    + intros key [x [<- _]%lookup_singleton_Some]. exists "scan-1", ["scan-1|f"]. split_and!; [|apply lookup_singleton_eq|by left].
      eexists. apply lookup_singleton_eq.
    + intros key [x [<- _]%lookup_singleton_Some]. exists "scan-1". split; [|done]. eexists. apply lookup_singleton_eq.
  - intros key [x Hx]. change (repoFindings empty_repo_tables) with (∅ : gmap string RepoFinding) in Hx. by apply lookup_empty_Some in Hx.
Qed.
Definition sample_project_delete : result (@MemoryStore unit) :=
  DeleteProject (Some (mkScope "acme" "prod")) "" "core" (sample_purge_store WorkspaceStatusActive None).

Lemma DeleteProject_no_orphans_witness :
  ∃ m', sample_project_delete = Ok m' ∧ store_closed m' ∧ ¬ in_project (m_directory m') "acme" "prod" "core" ∧
    triageStates (m_artifacts m') = ∅ ∧ in_workspace (m_directory m') "acme" "prod".
Proof.
  destruct sample_project_delete as [m'|] eqn:E; [|by vm_compute in E]. exists m'.
  assert (triageStates (m_artifacts m') = ∅ ∧ in_workspace (m_directory m') "acme" "prod") as Ht.
  { vm_compute in E. injection E as <-. split; [done|]. split_and!; [done..|]. by eexists. }
  assert (aws_rows_closed (m_directory (sample_purge_store WorkspaceStatusActive None)) empty_tables) as Ha by (split; apply rows_in_empty).
  unfold sample_project_delete in E. assert (scoped_workspace (Some (mkScope "acme" "prod")) "" = Ok (mkScope "acme" "prod", "prod")) as Hs by done.
  destruct (DeleteProject_no_orphans _ _ _ _ _ _ _ (sample_purge_closed _ _) Ha eq_refl Hs E) as (Hc & _ & Hp & _). done.
Defined.
