(* ===== verification/PurgeWorkers.v ===== *)
(** * The purge workers (internal/workspacepurge, internal/userpurge)

    One pass lists the deleted workspaces, or accounts, past their grace period
    and purges them one by one.  [ctx.Err()] is read before each row and again
    when a purge failed; [ctxErr n] is what the [n]th reading gives. *)
From S2P Require Import Prelude GoStrings GoCollections GoTime GoParse GoText Scope AuthzRecords AuthzStore TenancyRecords Tenancy Accounts ConnectorRecords ScanQueue GoFloat RepoFindings RepoScanRecords RepoScanStore RepoFindingStore ScanPolicies WorkspacePurge.

Record PurgeResult := mkPurgeResult { Examined : Z; Purged : Z; Errors : Z }.
Definition one_purged (r : PurgeResult) : PurgeResult := mkPurgeResult (Examined r) (Purged r + 1) (Errors r).
Definition one_error (r : PurgeResult) : PurgeResult := mkPurgeResult (Examined r) (Purged r) (Errors r + 1).

Section pass.
Context {A S : Type} (ctxErr : nat → option error).

(** The loop over the listed rows; [purge] is [None] for a row that is counted
    as an error without a purge. *)
Fixpoint purge_rows (purge : A → option (S → result S)) (n : nat) (rows : list A) (r : PurgeResult) (s : S) : PurgeResult * option error * S :=
  match rows with
  | [] => (r, None, s)
  | row :: rows =>
      match ctxErr n with
      | Some err => (r, Some err, s)
      | None =>
          match purge row with
          | None => purge_rows purge (Datatypes.S n) rows (one_error r) s
          | Some run =>
              match run s with
              | Ok s' => purge_rows purge (Datatypes.S n) rows (one_purged r) s'
              | Err _ =>
                  match ctxErr (Datatypes.S n) with
                  | Some err => (r, Some err, s)
                  | None => purge_rows purge (Datatypes.S (Datatypes.S n)) rows (one_error r) s
                  end
              end
          end
      end
  end.
End pass.

Record Runner := mkRunner { Runner_BatchSize : Z; Runner_GracePeriod : Z }.
Definition batch_size (r : Runner) : Z := if Runner_BatchSize r <=? 0 then 100 else Runner_BatchSize r.
Definition grace_period (default_grace : Z) (r : Runner) : Z := if Runner_GracePeriod r <=? 0 then default_grace else Runner_GracePeriod r.

Section runners.
Context {Artifact : Type} `{MapRange, SortSlice} (render_time : Z → string) (ctxErr : nat → option error).


Definition pending_users (now : Z) (r : Runner) (d : DirectoryState) : list User :=
  ListUsersPendingHardDelete (now - grace_period UserDeletionGracePeriod r) (batch_size r) d.
(** [Runner.RunOnce] of the account purge. *)
Definition user_RunOnce (now : Z) (r : Runner) (d : DirectoryState) : PurgeResult * option error * DirectoryState :=
  let pending := pending_users now r d in
  purge_rows ctxErr (λ user, Some (λ d, fst <$> HardDeleteUser (User_ID user) now d)) 0 pending
    (mkPurgeResult (Z.of_nat (length pending)) 0 0) d.
End runners.

(** ** A pass over the workspaces *)

Lemma NoDup_keyed_values `{MapRange} {A} (key_of : A → string) (m : gmap string A) :
  (∀ key x, m !! key = Some x → key = key_of x) → NoDup (map_range m).*2.
Proof.
  intros Hk. apply (NoDup_fmap_1 key_of). assert (key_of <$> (map_range m).*2 = (map_range m).*1) as ->; [|apply NoDup_map_range].
  rewrite <-list_fmap_compose. apply list_fmap_ext. intros i [k x] Hi%list_elem_of_lookup_2. cbn.
  apply elem_of_map_range in Hi. by rewrite <-(Hk k x).
Qed.
Lemma NoDup_truncate {A} limit (l : list A) : NoDup l → NoDup (truncate limit l).
Proof. intros Hl. destruct (truncate_prefix limit l) as [k E]. rewrite E in Hl. by apply NoDup_app in Hl as [? _]. Qed.
Lemma truncate_short {A} limit (l : list A) : 0 < limit → Z.of_nat (length (truncate limit l)) < limit → truncate limit l = l.
Proof.
  unfold truncate. intros Hl. destruct (0 <? limit) eqn:E1; [|lia]. destruct (limit <? Z.of_nat (length l)) eqn:E2; [|done]. cbn.
  rewrite length_take. lia.
Qed.
Lemma batch_size_pos r : 0 < batch_size r.
Proof. unfold batch_size. destruct (Runner_BatchSize r <=? 0) eqn:E; lia. Qed.

Section workspace_pass.
Context {Artifact : Type} `{MapRange, SortSlice} (render_time : Z → string) (ctxErr : nat → option error).
Implicit Type m : @MemoryStore Artifact.




End workspace_pass.

(** ** A pass over the accounts *)
Definition users_keyed (d : DirectoryState) : Prop := ∀ id u, users d !! id = Some u → User_ID u = id ∧ trimmed id.
(** What is left of an account. *)
Definition tombstone (now : Z) (u : User) : User :=
  mkUser (User_ID u) (HardDeletedTombstoneEmail (User_ID u)) "" "" "deleted" (User_CreatedAt u) now (User_DeletedAt u).
(** Nothing in the directory leads to the account. *)
Record account_erased (id : string) (d : DirectoryState) : Prop := {
  ae_identities : ∀ k i, userIdentityByID d !! k = Some i → Identity_UserID i ≠ id;
  ae_sessions : ∀ k x, sessions d !! k = Some x → Session_UserID x ≠ id;
  ae_members : ∀ k x, members d !! k = Some x → Member_UserUUID x ≠ id;
}.

(** The address of a purged account says so. *)
Lemma tombstone_recognised now u : IsHardDeletedTombstoneEmailForUser (User_PrimaryEmail (tombstone now u)) (User_ID u) = true.
Proof.
  unfold IsHardDeletedTombstoneEmailForUser, EqualFold. apply bool_decide_eq_true_2. cbn [User_PrimaryEmail tombstone].
  unfold HardDeletedTombstoneEmail. rewrite TrimSpace_between; [done|by repeat constructor|done|by repeat constructor|done].
Qed.
Lemma HardDeleteUser_Ok now d u : users_keyed d → users d !! User_ID u = Some u → User_Status u = "deleted" → is_Some (User_DeletedAt u) →
  ∃ d', fst <$> HardDeleteUser (User_ID u) now d = Ok d' ∧ users d' = <[User_ID u := tombstone now u]> (users d) ∧
    account_erased (User_ID u) d' ∧ ∀ id, account_erased id d → account_erased id d'.
Proof.
  intros Hk Hu Hs [deletedAt Hd]. destruct (Hk _ _ Hu) as [_ Hid]. unfold HardDeleteUser. cbv zeta. rewrite Hid, Hu, Hs, Hd. cbn.
  eexists. split; [reflexivity|]. cbn. split; [by unfold tombstone; rewrite Hd|]. split; [split|intros id []; split]; cbn;
    intros k x [Hx Hne]%map_lookup_filter_Some; eauto.
Qed.

Section user_pass.
Context `{MapRange, SortSlice} (ctxErr : nat → option error).

Lemma elem_of_pending_users now r d u : u ∈ pending_users now r d →
  (∃ id, users d !! id = Some u) ∧ user_pending (now - grace_period UserDeletionGracePeriod r) u = true.
Proof.
  unfold pending_users, ListUsersPendingHardDelete. intros [Hp ([k u'] & -> & Hin)%list_elem_of_fmap]%elem_of_truncate%elem_of_sort_slice%list_elem_of_filter.
  apply elem_of_map_range in Hin. split; [by exists k|done].
Qed.
Lemma pending_users_complete now r d id u : Z.of_nat (length (pending_users now r d)) < batch_size r →
  users d !! id = Some u → user_pending (now - grace_period UserDeletionGracePeriod r) u = true → u ∈ pending_users now r d.
Proof.
  pose proof (batch_size_pos r) as Hb. unfold pending_users, ListUsersPendingHardDelete.
  assert (batch_size r <=? 0 = false) as -> by lia. intros Hlen Hu Hp. rewrite truncate_short by done.
  apply elem_of_sort_slice, list_elem_of_filter. split; [done|]. apply list_elem_of_fmap. exists (id, u). split; [done|]. by apply elem_of_map_range.
Qed.
Lemma NoDup_pending_users now r d : users_keyed d → NoDup (pending_users now r d).
Proof.
  intros Hk. unfold pending_users, ListUsersPendingHardDelete. apply NoDup_truncate. rewrite sort_slice_perm. apply NoDup_filter.
  apply (NoDup_keyed_values User_ID). intros id u Hu. by apply Hk in Hu as [<- _].
Qed.

Lemma purge_rows_users (live : ∀ n, ctxErr n = None) now rows : ∀ n r d,
  users_keyed d → NoDup rows →
  (∀ u, u ∈ rows → (∃ id, users d !! id = Some u) ∧ User_Status u = "deleted" ∧ is_Some (User_DeletedAt u)) →
  ∃ d', purge_rows ctxErr (λ user, Some (λ d, fst <$> HardDeleteUser (User_ID user) now d)) n rows r d =
    (mkPurgeResult (Examined r) (Purged r + Z.of_nat (length rows)) (Errors r), None, d') ∧
  (∀ id, users d' !! id = (λ u, if decide (u ∈ rows) then tombstone now u else u) <$> users d !! id) ∧
  (∀ u, u ∈ rows → account_erased (User_ID u) d') ∧ (∀ id, account_erased id d → account_erased id d').
Proof.
  induction rows as [|u rows IH]; intros n r d Hk Hnd Hrows.
  - exists d. cbn. split; [by destruct r; rewrite Z.add_0_r|]. split.
    + intros id. destruct (users d !! id) as [u|]; cbn; [|done]. case_decide as Hin; [by apply elem_of_nil in Hin|done].
    + split; [|done]. intros u Hin. by apply elem_of_nil in Hin.
  - apply NoDup_cons in Hnd as [Hnotin Hnd]. destruct (Hrows u) as ([id Hu] & Hs & Hd); [by left|]. destruct (Hk _ _ Hu) as [<- Hid].
    destruct (HardDeleteUser_Ok now d u Hk Hu Hs Hd) as (d1 & Hok & Hus & Her & Hkeep).
    assert (users_keyed d1) as Hk1.
    { intros k x. rewrite Hus. intros [[<- <-]|[_ Hx]]%lookup_insert_Some; [done|by apply Hk]. }
    destruct (IH (S n) (one_purged r) d1 Hk1 Hnd) as (d' & Hrun & Hall & Hrest & Hkeep').
    + intros x Hx. destruct (Hrows x) as ([k Hkx] & ?); [by right|]. split; [|done]. exists k. rewrite Hus, lookup_insert_ne; [done|].
      intros <-. congruence.
    + exists d'. split; [|split; [|split]].
      * cbn [purge_rows]. rewrite live, Hok, Hrun. cbn. do 2 f_equal. f_equal. lia.
      * intros k. rewrite Hall, Hus. destruct (decide (k = User_ID u)) as [->|Hne].
        -- rewrite lookup_insert_eq, Hu. cbn. rewrite (decide_True (P := u ∈ u :: rows)) by by left.
           by case_decide.
        -- rewrite lookup_insert_ne by done. destruct (users d !! k) as [x|] eqn:Ex; cbn; [|done]. f_equal.
           assert (x ≠ u) as Hxu by (intros ->; by destruct (Hk _ _ Ex) as [<- _]).
           destruct (decide (x ∈ rows)) as [Hin|Hin]; [rewrite decide_True by by right|rewrite decide_False by by rewrite not_elem_of_cons]; done.
      * intros x [->|Hx]%elem_of_cons; [by apply Hkeep'|by apply Hrest].
      * intros k Hx. by apply Hkeep', Hkeep.
Qed.

(** An uninterrupted pass erases every listed account, and no other; when the
    batch was large enough a second pass finds nothing to do. *)
Theorem user_purge_pass now r d (live : ∀ n, ctxErr n = None) (Hk : users_keyed d) :
  let pending := pending_users now r d in
  let count := Z.of_nat (length pending) in
  ∃ d', user_RunOnce ctxErr now r d = (mkPurgeResult count count 0, None, d') ∧
    (∀ id, users d' !! id = (λ u, if decide (u ∈ pending) then tombstone now u else u) <$> users d !! id) ∧
    (∀ u, u ∈ pending → account_erased (User_ID u) d') ∧
    (count < batch_size r → user_RunOnce ctxErr now r d' = (mkPurgeResult 0 0 0, None, d')).
Proof.
  intros pending count. destruct (purge_rows_users live now pending 0 (mkPurgeResult count 0 0) d) as (d' & Hrun & Hall & Her & _).
  - done.
  - by apply NoDup_pending_users.
  - intros u [Hu Hp]%elem_of_pending_users. split; [done|]. unfold user_pending in Hp.
    apply andb_true_iff in Hp as [[Hs%bool_decide_eq_true Hd]%andb_true_iff _]. split; [done|]. by destruct (User_DeletedAt u).
  - exists d'. split; [exact Hrun|]. do 2 (split; [done|]). intros Hlt. unfold user_RunOnce.
    destruct (pending_users now r d') as [|u rest] eqn:E; [done|]. exfalso.
    destruct (elem_of_pending_users now r d' u) as [[id Hu] Hp]; [rewrite E; by left|]. rewrite Hall in Hu.
    destruct (users d !! id) as [x|] eqn:Ex; [|done]. cbn in Hu. injection Hu as <-. case_decide as Hin.
    + unfold user_pending in Hp. cbn [User_ID tombstone] in Hp. by rewrite tombstone_recognised, andb_false_r in Hp.
    + by apply Hin, (pending_users_complete now r d id).
Qed.
End user_pass.

