(* ===== verification/PolicyScheduler.v ===== *)
(** * Scheduled scans (internal/api/scan_policy_scheduler.go, internal/api/scan_policy.go)

    A pass over the scan policies with a schedule: which are due, which ticks a
    worker takes, and the repository scans it queues for them; and the service's
    side of writing and reading policies.

    The status of a project's GitHub connection, the ids of new scans and the
    clock of the queue are arguments; metrics and spans are not modelled.  A store
    always supports policies here. *)
From S2P Require Import Prelude GoStrings GoCollections GoTime GoText GoFloat Runs Scope AuthzRecords TenancyRecords Tenancy Cron Scheduler ScanQueue RepoFindings RepoScanRecords RepoScanStore RepoTargets RepoScanService ScanPolicies.

(** ** Policies of the service *)
Definition ErrInvalidScanPolicyRequest : error := Sentinel "invalid scan policy request".
Record ScanPolicyUpsertRequest := mkPolicyRequest {
  PolicyRequest_PolicyID : string;
  PolicyRequest_Name : string;
  PolicyRequest_Enabled : option bool;
  PolicyRequest_TriggerMode : string;
  PolicyRequest_Cron : string;
  PolicyRequest_MaxConcurrentScans : Z;
  PolicyRequest_HistoryLimit : Z;
  PolicyRequest_MaxFindings : Z;
}.
Record ScanPolicyListFilter := mkPolicyFilter {
  PolicyFilter_TriggerMode : string;
  PolicyFilter_Enabled : option bool;
  PolicyFilter_SortBy : string;
  PolicyFilter_SortDesc : bool;
  PolicyFilter_Limit : Z;
}.
Definition normalizeScanTriggerMode (raw : string) (allowEmpty : bool) : result string :=
  let mode := canon raw in
  if decide (mode = "") then mret (if allowEmpty then "" else ScanTriggerModeManual)
  else if bool_decide (mode ∈ trigger_modes) then mret mode else Err ErrInvalidScanPolicyRequest.
Definition sanitizeScanPolicyLimit (candidate fallback maxAllowed : Z) : result Z :=
  let fallback := if fallback <=? 0 then 1 else fallback in
  let maxAllowed := if maxAllowed <=? 0 then fallback else maxAllowed in
  _ ← guard_err (negb (candidate <? 0)) ErrInvalidScanPolicyRequest;
  let candidate := if candidate =? 0 then fallback else candidate in
  _ ← guard_err (negb (maxAllowed <? candidate)) ErrInvalidScanPolicyRequest;
  mret candidate.
(** Any error becomes this one. *)
Definition or_error {A} (r : result A) (e : error) : result A := match r with Ok x => Ok x | Err _ => Err e end.

Section service.
Context `{MapRange, SortSlice}.
Context (s : RepoService) (d : DirectoryState).

Definition ListScanPolicies (ctx : Context) (workspaceID projectID : string) (filter : ScanPolicyListFilter) (m : Policies)
    : result (list TenancyScanPolicy) :=
  '(project, scope) ← requireScopedProject s d ctx workspaceID projectID;
  triggerMode ← normalizeScanTriggerMode (PolicyFilter_TriggerMode filter) true;
  ListTenancyScanPolicies (WithScope ctx scope) (Project_WorkspaceID project) (Project_ProjectID project) triggerMode
    (PolicyFilter_Enabled filter) (PolicyFilter_SortBy filter) (PolicyFilter_SortDesc filter) (PolicyFilter_Limit filter) m.
Definition GetScanPolicy (ctx : Context) (workspaceID projectID policyID : string) (m : Policies) : result TenancyScanPolicy :=
  '(project, scope) ← requireScopedProject s d ctx workspaceID projectID;
  GetTenancyScanPolicy (WithScope ctx scope) (Project_WorkspaceID project) (Project_ProjectID project) (TrimSpace policyID) m.
Definition UpsertScanPolicy (now : Z) (ctx : Context) (workspaceID projectID : string) (request : ScanPolicyUpsertRequest)
    (m : Policies) : result (Policies * TenancyScanPolicy) :=
  '(project, scope) ← requireScopedProject s d ctx workspaceID projectID;
  let ctx := WithScope ctx scope in
  triggerMode ← normalizeScanTriggerMode (PolicyRequest_TriggerMode request) false;
  _ ← (if has_schedule triggerMode then or_error (ParseCronSchedule (PolicyRequest_Cron request) ≫= λ _, mret tt)
                                           ErrInvalidScanPolicyRequest else mret tt);
  historyLimit ← sanitizeScanPolicyLimit (PolicyRequest_HistoryLimit request) (RepoScanDefaultHistoryLimit s) (RepoScanMaxHistoryLimit s);
  maxFindings ← sanitizeScanPolicyLimit (PolicyRequest_MaxFindings request) (RepoScanDefaultMaxFindings s) (RepoScanMaxFindingsLimit s);
  let maxConcurrent := PolicyRequest_MaxConcurrentScans request in
  _ ← guard_err (negb (maxConcurrent <? 0)) ErrInvalidScanPolicyRequest;
  policy ← or_error (NormalizeTenancyScanPolicyForWrite now
             (mkPolicy (Scope_TenantID scope) (Project_WorkspaceID project) (Project_ProjectID project)
                (TrimSpace (PolicyRequest_PolicyID request)) (TrimSpace (PolicyRequest_Name request))
                (default true (PolicyRequest_Enabled request)) triggerMode (TrimSpace (PolicyRequest_Cron request))
                (if maxConcurrent =? 0 then 1 else maxConcurrent) historyLimit maxFindings None time_zero time_zero))
             ErrInvalidScanPolicyRequest;
  m ← UpsertTenancyScanPolicy ctx now policy d m;
  stored ← GetTenancyScanPolicy ctx (Policy_WorkspaceID policy) (Policy_ProjectID policy) (Policy_PolicyID policy) m;
  mret (m, stored).
Definition DeleteScanPolicy (ctx : Context) (workspaceID projectID policyID : string) (m : Policies) : result Policies :=
  '(project, scope) ← requireScopedProject s d ctx workspaceID projectID;
  DeleteTenancyScanPolicy (WithScope ctx scope) (Project_WorkspaceID project) (Project_ProjectID project) (TrimSpace policyID) m.
End service.

(** ** Due policies *)
Definition defaultScanPolicyScheduleLimit : Z := 500.
(** The instant after which a tick of the policy counts. *)
Definition tick_after (p : TenancyScanPolicy) (now : Z) : Z :=
  match Policy_LastScheduledAt p with
  | Some last => last
  | None => if IsZero (Policy_CreatedAt p) then now - Minute else Policy_CreatedAt p - Minute
  end.
(** The tick that is due, if one is. *)
Definition dueScanPolicyTick (p : TenancyScanPolicy) (now : Z) : result (option Z) :=
  match ParseCronSchedule (Policy_Cron p) with
  | Err e => Err (Wrap ("parse scan policy cron " +:+ Quote (Policy_PolicyID p)) e)
  | Ok schedule => mret (LatestAfter schedule (tick_after p now) now)
  end.
Definition isExpectedScheduledRepoSkip (e : error) : bool :=
  errors_is e ErrRepoScanInProgress || errors_is e ErrRepoScanQueueFull || errors_is e ErrRepoScanDisabled ||
  errors_is e ErrRepoTargetNotAllowed || Contains (ToLower (error_string e)) "not connected".
Definition skipConsumesPolicyConcurrency (e : error) : bool :=
  errors_is e ErrRepoScanInProgress || errors_is e ErrRepoScanQueueFull.

Record ScanPolicyScheduleResult := mkScheduled {
  PoliciesChecked : Z;
  PoliciesDue : Z;
  PoliciesClaimed : Z;
  QueuedScans : Z;
  SkippedScans : Z;
}.
Definition nothing_scheduled : ScanPolicyScheduleResult := mkScheduled 0 0 0 0 0.
Definition skipped_one : ScanPolicyScheduleResult := mkScheduled 0 0 0 0 1.

Record PolicyWorld (L : Type) := mkPolicyWorld {
  pw_policies : Policies;
  pw_tables : RepoScanTables;
  pw_directory : DirectoryState;
  pw_locker : L;
}.
Arguments mkPolicyWorld {L} _ _ _ _.
Arguments pw_policies {L} _.
Arguments pw_tables {L} _.
Arguments pw_directory {L} _.
Arguments pw_locker {L} _.

Section scheduler.
Context `{MapRange, SortSlice, FloatParser, URLParser, LocalGit, Locker L}.
Context (s : RepoService).
Context (GetGitHubConnection : Context → string → string → result GitHubConnectionStatus)
  (newID : RepoScanTables → string) (trace : string * string) (clock : Z).
Implicit Types (w : PolicyWorld L).

(** The request for one repository of a policy. *)
Definition policy_request (p : TenancyScanPolicy) (status : GitHubConnectionStatus) (repository : string) : RepoScanRequest :=
  let app := EqualFold (GitHub_Provider status) "github_app" in
  mkRepoRequest repository (if app then Policy_ProjectID p else "")
    (if app then firstNonEmptyString [GitHub_ConnectorID status; githubConnectorID] else "") RepoScanModeDeep "" "" []
    (Policy_HistoryLimit p) (Policy_MaxFindings p).

(** The loop over the repositories: scans queued and skipped, the error that
    ended it, if one did, and the tables. *)
Fixpoint enqueue_repositories (ctx : Context) (d : DirectoryState) (p : TenancyScanPolicy) (status : GitHubConnectionStatus)
    (maxConcurrent : Z) (repositories : list string) (processed queued skipped : Z) (t : RepoScanTables)
    : (Z * Z * option error) * RepoScanTables :=
  match repositories with
  | [] => ((queued, skipped, None), t)
  | repository :: rest =>
      if maxConcurrent <=? processed then ((queued, skipped, None), t)
      else
        match EnqueueRepoScan s d GetGitHubConnection (newID t) trace clock ctx (policy_request p status repository) t with
        | Err e =>
            if isExpectedScheduledRepoSkip e then
              enqueue_repositories ctx d p status maxConcurrent rest
                (if skipConsumesPolicyConcurrency e then processed + 1 else processed) queued (skipped + 1) t
            else ((queued, skipped, Some e), t)
        | Ok (t, _) => enqueue_repositories ctx d p status maxConcurrent rest (processed + 1) (queued + 1) skipped t
        end
  end.

Definition policy_lock (p : TenancyScanPolicy) : string :=
  "scan-policy:" +:+ Policy_TenantID p +:+ ":" +:+ Policy_WorkspaceID p +:+ ":" +:+ Policy_ProjectID p +:+ ":" +:+ Policy_PolicyID p.
Definition max_concurrent (p : TenancyScanPolicy) : Z := if Policy_MaxConcurrentScans p <=? 0 then 1 else Policy_MaxConcurrentScans p.
(** What is done for a due policy under its lock. *)
Definition schedule_policy (ctx : Context) (p : TenancyScanPolicy) (scheduledAt now : Z) w
    : (ScanPolicyScheduleResult * option error) * PolicyWorld L :=
  let ctx := WithScope ctx (mkScope (Policy_TenantID p) (Policy_WorkspaceID p)) in
  if negb (RepoScanEnabled s) then ((skipped_one, None), w)
  else
    match ClaimTenancyScanPolicySchedule ctx (Policy_WorkspaceID p) (Policy_ProjectID p) (Policy_PolicyID p) scheduledAt now
            (pw_directory w) (pw_policies w) with
    | Err e => ((nothing_scheduled, Some e), w)
    | Ok (false, _) => ((skipped_one, None), w)
    | Ok (true, m) =>
        let w := mkPolicyWorld m (pw_tables w) (pw_directory w) (pw_locker w) in
        match GetGitHubConnection ctx (Policy_WorkspaceID p) (Policy_ProjectID p) with
        | Err e => ((mkScheduled 0 0 1 0 0, Some e), w)
        | Ok status =>
            let '((queued, skipped, failed), t) :=
              enqueue_repositories ctx (pw_directory w) p status (max_concurrent p) (GitHub_SelectedRepositories status) 0 0 0
                (pw_tables w) in
            ((mkScheduled 0 0 1 queued skipped, failed), mkPolicyWorld m t (pw_directory w) (pw_locker w))
        end
    end.
Definition enqueueDueScanPolicy (ctx : Context) (p : TenancyScanPolicy) (scheduledAt now : Z) w
    : (ScanPolicyScheduleResult * option error) * PolicyWorld L :=
  match acquire s (policy_lock p) (pw_locker w) with
  | None => ((skipped_one, None), w)
  | Some (lease, l) =>
      let '(outcome, w) := schedule_policy ctx p scheduledAt now (mkPolicyWorld (pw_policies w) (pw_tables w) (pw_directory w) l) in
      (outcome, mkPolicyWorld (pw_policies w) (pw_tables w) (pw_directory w) (give_back lease (pw_locker w)))
  end.

(** *** A pass *)
Definition add_counts (total part : ScanPolicyScheduleResult) : ScanPolicyScheduleResult :=
  mkScheduled (PoliciesChecked total) (PoliciesDue total) (PoliciesClaimed total + PoliciesClaimed part)
    (QueuedScans total + QueuedScans part) (SkippedScans total + SkippedScans part).
Definition add_checked (n : Z) (r : ScanPolicyScheduleResult) : ScanPolicyScheduleResult :=
  mkScheduled (PoliciesChecked r + n) (PoliciesDue r) (PoliciesClaimed r) (QueuedScans r) (SkippedScans r).
Definition add_due (r : ScanPolicyScheduleResult) : ScanPolicyScheduleResult :=
  mkScheduled (PoliciesChecked r) (PoliciesDue r + 1) (PoliciesClaimed r) (QueuedScans r) (SkippedScans r).
(** The loop over a page. *)
Fixpoint schedule_page (ctx : Context) (now : Z) (policies : list TenancyScanPolicy) (r : ScanPolicyScheduleResult) w
    : (ScanPolicyScheduleResult * option error) * PolicyWorld L :=
  match policies with
  | [] => ((r, None), w)
  | p :: rest =>
      match dueScanPolicyTick p now with
      | Err _ => schedule_page ctx now rest (add_counts r skipped_one) w
      | Ok None => schedule_page ctx now rest r w
      | Ok (Some scheduledAt) =>
          let r := add_due r in
          match enqueueDueScanPolicy ctx p scheduledAt now w with
          | ((_, Some e), w) => ((r, Some e), w)
          | ((part, None), w) => schedule_page ctx now rest (add_counts r part) w
          end
      end
  end.
(** The loop over the pages; [None] when the fuel is not enough. *)
Fixpoint schedule_pages (fuel : nat) (ctx : Context) (now offset : Z) (r : ScanPolicyScheduleResult) w
    : option ((ScanPolicyScheduleResult * option error) * PolicyWorld L) :=
  match fuel with
  | O => None
  | S fuel =>
      let policies := ListScheduledTenancyScanPolicies defaultScanPolicyScheduleLimit offset (pw_directory w) (pw_policies w) in
      let count := Z.of_nat (length policies) in
      match schedule_page ctx now policies (add_checked count r) w with
      | ((r, Some e), w) => Some ((r, Some e), w)
      | ((r, None), w) =>
          if count <? defaultScanPolicyScheduleLimit then Some ((r, None), w)
          else schedule_pages fuel ctx now (offset + defaultScanPolicyScheduleLimit) r w
      end
  end.
Definition EnqueueDueScanPoliciesAt (fuel : nat) (ctx : Context) (now : Z) w
    : option ((ScanPolicyScheduleResult * option error) * PolicyWorld L) :=
  schedule_pages fuel ctx now 0 nothing_scheduled w.
End scheduler.
#[global] Arguments mkPolicyWorld {L} _ _ _ _.
#[global] Arguments pw_policies {L} _.
#[global] Arguments pw_tables {L} _.
#[global] Arguments pw_directory {L} _.
#[global] Arguments pw_locker {L} _.
