(* ===== verification/PolicyPasses.v ===== *)
(** * What a pass over the scan policies does

    A pass reads the policies page by page while it writes to the table it reads;
    it still looks at every scheduled policy once, in order, queues no more scans
    for a policy than the policy allows, and leaves nothing to do for a second
    pass at the same instant. *)
From S2P Require Import Prelude GoStrings GoCollections GoTime GoText GoFloat Runs Scope AuthzRecords TenancyRecords Tenancy Cron Scheduler ScanQueue RepoFindings RepoScanRecords RepoScanStore RepoTargets RepoScanService RepoLifecycle RepoScanRuns RepoScanPasses ScanPolicies PolicyScheduler.

(** ** The listed policies *)

(** [q] is listed where [p] is. *)
Record same_listing (p q : TenancyScanPolicy) : Prop := {
  sl_key : policy_key q = policy_key p;
  sl_tenant : Policy_TenantID q = Policy_TenantID p;
  sl_workspace : Policy_WorkspaceID q = Policy_WorkspaceID p;
  sl_project : Policy_ProjectID q = Policy_ProjectID p;
  sl_policy : Policy_PolicyID q = Policy_PolicyID p;
  sl_enabled : Policy_Enabled q = Policy_Enabled p;
  sl_mode : Policy_TriggerMode q = Policy_TriggerMode p;
  sl_created : Policy_CreatedAt q = Policy_CreatedAt p;
}.
Lemma same_listing_refl p : same_listing p p.
Proof. done. Qed.
Lemma same_listing_trans p q r : same_listing p q → same_listing q r → same_listing p r.
Proof. intros [] []. split; congruence. Qed.
Lemma with_tick_listing tick now p : same_listing p (with_tick tick now p).
Proof. done. Qed.

(** Policies are stored under their keys, in named tenants and workspaces. *)
Definition policies_wf (m : Policies) : Prop := ∀ key p, m !! key = Some p →
  policy_key p = key ∧ TrimSpace (Policy_TenantID p) ≠ "" ∧ TrimSpace (Policy_WorkspaceID p) ≠ "".

Lemma policy_parts p q : policy_key p = policy_key q →
  TrimSpace (Policy_TenantID p) = TrimSpace (Policy_TenantID q) ∧ TrimSpace (Policy_WorkspaceID p) = TrimSpace (Policy_WorkspaceID q) ∧
  TrimSpace (Policy_ProjectID p) = TrimSpace (Policy_ProjectID q) ∧ TrimSpace (Policy_PolicyID p) = TrimSpace (Policy_PolicyID q).
Proof. intros E. apply (proj1 tenancyCompositeKey_inj) in E. by injection E. Qed.

(** Every call keeps the table so. *)
Lemma policy_step_wf `{MapRange} op m : policies_wf m → policies_wf (policy_step op m).1.
Proof.
  intros Hwf. destruct op as [ctx now policy d|ctx ws pr id at_ now d|ctx ws pr id]; cbn [policy_step].
  - cbn [fst]. destruct (UpsertTenancyScanPolicy _ _ _ _ _) as [m1|] eqn:E; cbn [ok_or]; [|done].
    unfold UpsertTenancyScanPolicy in E. open_bind E [scope resolved] Hs. open_bind E p Hn. open_bind E u1 _. open_bind E u2 _.
    cbv zeta in E. injection E as <-. unfold NormalizeTenancyScanPolicyForWrite in Hn. cbv zeta in Hn.
    open_bind Hn v1 Ht. open_bind Hn v2 Hw. open_bind Hn v3 _. open_bind Hn v4 _. open_bind Hn v5 _. open_bind Hn v6 _. open_bind Hn v7 _.
    injection Hn as <-. apply guard_err_Ok, bool_decide_eq_true in Ht, Hw. intros key q Hq. apply lookup_insert_Some in Hq as [[<- <-]|[_ Hq]]; [|by apply Hwf].
    destruct (m !! _); cbn; by rewrite !TrimSpace_idemp.
  - destruct (ClaimTenancyScanPolicySchedule _ _ _ _ _ _ _ _) as [[[] m1]|] eqn:E; cbn [fst]; [|by apply Claim_false in E as ->|done].
    apply Claim_true in E as (scope & resolved & p & _ & Hp & _ & _ & _ & _ & ->). intros key q Hq.
    apply lookup_insert_Some in Hq as [[<- <-]|[_ Hq]]; [|by apply Hwf]. exact (Hwf _ _ Hp).
  - cbn [fst]. destruct (DeleteTenancyScanPolicy _ _ _ _ _) as [m1|] eqn:E; cbn [ok_or]; [|done].
    unfold DeleteTenancyScanPolicy in E. open_bind E [scope resolved] Hs. open_bind E u _. injection E as <-.
    intros key q [_ Hq]%lookup_delete_Some. by apply Hwf.
Qed.

Section listing.
Context `{MapRange, SortSlice} (d : DirectoryState).

Lemma schedule_order_ok : compare_ok schedule_order.
Proof.
  apply (compare_ok_lex (λ l r, Z.compare (Policy_CreatedAt l) (Policy_CreatedAt r))); [apply (compare_ok_on Policy_CreatedAt), compare_ok_Z|].
  apply (compare_ok_lex (λ l r, compare_string (Policy_TenantID l) (Policy_TenantID r)));
    [apply (compare_ok_on Policy_TenantID), compare_ok_string|].
  apply (compare_ok_lex (λ l r, compare_string (Policy_WorkspaceID l) (Policy_WorkspaceID r)));
    [apply (compare_ok_on Policy_WorkspaceID), compare_ok_string|].
  apply (compare_ok_lex (λ l r, compare_string (Policy_ProjectID l) (Policy_ProjectID r)));
    [apply (compare_ok_on Policy_ProjectID), compare_ok_string|apply (compare_ok_on Policy_PolicyID), compare_ok_string].
Qed.
Lemma schedule_order_Eq p q : schedule_order p q = Eq → policy_key p = policy_key q.
Proof.
  unfold schedule_order, policy_key. rewrite !lex_Eq, !compare_string_Eq. intros (_ & -> & -> & -> & ->). done.
Qed.

Lemma elem_of_scheduled m p : p ∈ scheduled_policies d m ↔ policy_listed d p = true ∧ ∃ key, m !! key = Some p.
Proof.
  unfold scheduled_policies. rewrite elem_of_sort_slice, list_elem_of_filter. split; intros [Hl Hp]; (split; [done|]).
  - apply list_elem_of_fmap in Hp as ([key p'] & -> & Hin). apply elem_of_map_range in Hin. by exists key.
  - destruct Hp as [key Hp]. apply list_elem_of_fmap. exists (key, p). split; [done|]. by apply elem_of_map_range.
Qed.
Lemma scheduled_keys m : policies_wf m → NoDup (policy_key <$> scheduled_policies d m).
Proof.
  intros Hwf. unfold scheduled_policies. rewrite sort_slice_perm.
  assert (NoDup (policy_key <$> (map_range m).*2)) as Hnd.
  { rewrite <-list_fmap_compose. rewrite (list_fmap_ext (policy_key ∘ snd) fst (map_range m)).
    - rewrite map_range_perm. apply NoDup_fst_map_to_list.
    - intros i [key p] Hi. cbn. apply Hwf. apply elem_of_map_range. by eapply list_elem_of_lookup_2. }
  generalize ((map_range m).*2), Hnd. clear. intros l. induction l as [|p l IH]; [constructor|]. rewrite fmap_cons. intros [Hno Hnd]%NoDup_cons.
  rewrite filter_cons. case_decide; [|by apply IH]. rewrite fmap_cons. constructor; [|by apply IH]. intros Hin. apply Hno.
  apply list_elem_of_fmap in Hin as (q & -> & [_ Hq]%list_elem_of_filter). by apply list_elem_of_fmap_2.
Qed.

(** Rewriting policies in place does not move them. *)
Lemma scheduled_fmap (F : TenancyScanPolicy → TenancyScanPolicy) m :
  policies_wf m → (∀ p, same_listing p (F p)) → scheduled_policies d (F <$> m) = F <$> scheduled_policies d m.
Proof.
  intros Hwf HF. pose proof schedule_order_ok as Hc.
  assert (∀ p q, schedule_order (F p) (F q) = schedule_order p q) as Horder.
  { intros p q. unfold schedule_order. destruct (HF p) as [_ -> -> -> -> _ _ ->], (HF q) as [_ -> -> -> -> _ _ ->]. done. }
  assert (filter (λ p, policy_listed d p = true) (map_range (F <$> m)).*2 ≡ₚ F <$> filter (λ p, policy_listed d p = true) (map_range m).*2) as Hp.
  { rewrite !map_range_perm, map_to_list_fmap, <-list_fmap_compose.
    rewrite (list_fmap_ext (snd ∘ prod_map id F) (F ∘ snd)) by (by intros i []). rewrite list_fmap_compose.
    generalize ((map_to_list m).*2). intros l. induction l as [|p l IH]; [done|]. rewrite fmap_cons, !filter_cons.
    assert (policy_listed d (F p) = policy_listed d p) as -> by (unfold policy_listed; by destruct (HF p) as [_ -> -> _ _ -> -> _]).
    case_decide; rewrite ?fmap_cons; by rewrite IH. }
  apply (StronglySorted_unique_strong (λ x y, schedule_order x y ≠ Gt)).
  - intros x y Hx Hy Hxy Hyx. apply elem_of_scheduled in Hx as [_ [kx Hx]].
    assert (∃ ky, (F <$> m) !! ky = Some y) as [ky Hy'].
    { apply list_elem_of_fmap in Hy as (q & -> & Hq). apply elem_of_scheduled in Hq as [_ [ky Hq]]. exists ky. by rewrite lookup_fmap, Hq. }
    rewrite (co_antisym _ Hc x y) in Hyx. assert (schedule_order x y = Eq) as E by (by destruct (schedule_order x y)).
    apply schedule_order_Eq in E. rewrite lookup_fmap in Hx, Hy'.
    apply fmap_Some in Hx as (p & Hpx & ->). apply fmap_Some in Hy' as (q & Hqy & ->). rewrite (sl_key _ _ (HF p)), (sl_key _ _ (HF q)) in E.
    destruct (Hwf _ _ Hpx) as [Ek _]. destruct (Hwf _ _ Hqy) as [Ek' _]. congruence.
  - apply sort_slice_less_of, Hc.
  - unfold scheduled_policies. pose proof (sort_slice_less_of schedule_order (filter (λ p, policy_listed d p = true) (map_range m).*2) Hc) as Hs.
    induction Hs as [|p l Hl IH Hall]; cbn; constructor; [done|]. rewrite Forall_fmap. eapply Forall_impl; [exact Hall|].
    intros q. cbn. by rewrite Horder.
  - unfold scheduled_policies. rewrite sort_slice_perm, Hp. by rewrite sort_slice_perm.
Qed.
End listing.

(** ** What a pass writes *)

(** [m'] is [m] after ticks of policies with keys in [K] were taken. *)
Definition ticked (K : list string) (m m' : Policies) : Prop :=
  ∃ F : TenancyScanPolicy → TenancyScanPolicy, m' = F <$> m ∧ (∀ p, same_listing p (F p)) ∧ ∀ p, policy_key p ∉ K → F p = p.
Lemma ticked_refl K m : ticked K m m.
Proof. exists id. split; [by rewrite map_fmap_id|]. done. Qed.
Lemma ticked_trans K1 K2 m m' m'' : ticked K1 m m' → ticked K2 m' m'' → ticked (K1 ++ K2) m m''.
Proof.
  intros (F & -> & HF & HK) (G & -> & HG & HK'). exists (G ∘ F). split; [by rewrite map_fmap_compose|]. split.
  - intros p. eapply same_listing_trans; [apply HF|apply HG].
  - intros p Hno. rewrite not_elem_of_app in Hno. destruct Hno as [Hno Hno']. cbn. rewrite (HK p Hno). by apply HK'.
Qed.
Lemma ticked_wf K m m' : ticked K m m' → policies_wf m → policies_wf m'.
Proof.
  intros (F & -> & HF & _) Hwf key p Hp. rewrite lookup_fmap in Hp. apply fmap_Some in Hp as (q & Hq & ->).
  rewrite (sl_key _ _ (HF q)), (sl_tenant _ _ (HF q)), (sl_workspace _ _ (HF q)). by apply Hwf.
Qed.
Lemma ticked_listing `{MapRange, SortSlice} d K m m' :
  policies_wf m → ticked K m m' → ∃ F, scheduled_policies d m' = F <$> scheduled_policies d m ∧ ∀ p, policy_key p ∉ K → F p = p.
Proof. intros Hwf (F & -> & HF & HK). exists F. split; [by apply scheduled_fmap|done]. Qed.
(** Taking one tick. *)
Lemma insert_ticked m key p q :
  policies_wf m → m !! key = Some p → same_listing p q → ticked [key] m (<[key := q]> m).
Proof.
  intros Hwf Hp Hq. exists (λ r, if decide (r = p) then q else r). split_and!.
  - apply map_eq. intros k. rewrite lookup_fmap. destruct (decide (k = key)) as [->|Hne].
    + rewrite lookup_insert_eq, Hp. cbn. by rewrite decide_True.
    + rewrite lookup_insert_ne by done. destruct (m !! k) as [r|] eqn:E; [|done]. cbn. rewrite decide_False; [done|]. intros ->.
      destruct (Hwf _ _ Hp) as [? _]. destruct (Hwf _ _ E) as [? _]. congruence.
  - intros r. case_decide; [by subst|done].
  - intros r Hno. case_decide as E; [|done]. subst. destruct Hno. apply list_elem_of_singleton. by apply Hwf.
Qed.

Section passes.
Context `{MapRange, SortSlice, FloatParser, URLParser, LocalGit, Locker L}.
Context (s : RepoService).
Context (GetGitHubConnection : Context → string → string → result GitHubConnectionStatus)
  (newID : RepoScanTables → string) (trace : string * string) (clock : Z).
Implicit Types (w : PolicyWorld L).

Notation schedule_one := (enqueueDueScanPolicy s GetGitHubConnection newID trace clock).
Notation page := (schedule_page s GetGitHubConnection newID trace clock).
Notation pages := (schedule_pages s GetGitHubConnection newID trace clock).

(** *** One policy *)
(** A claim in the scope of a policy is a claim of that policy. *)
Lemma own_scope ctx p : TrimSpace (Policy_TenantID p) ≠ "" → TrimSpace (Policy_WorkspaceID p) ≠ "" →
  scoped_workspace (WithScope ctx (mkScope (Policy_TenantID p) (Policy_WorkspaceID p))) (Policy_WorkspaceID p) =
    Ok (mkScope (TrimSpace (Policy_TenantID p)) (TrimSpace (Policy_WorkspaceID p)), TrimSpace (Policy_WorkspaceID p)).
Proof using.
  intros Ht Hw. unfold scoped_workspace. rewrite RequireScope_WithScope. cbn [mbind result_bind].
  unfold ResolveScopedWorkspaceID. rewrite Scope_Normalize_idemp. unfold Scope_Normalize. cbn.
  destruct (decide (TrimSpace (Policy_TenantID p) = "")) as [?|_]; [done|].
  destruct (decide (TrimSpace (Policy_WorkspaceID p) = "")) as [?|_]; [done|]. cbn.
  destruct (decide (_ ≠ _)) as [Hne|_]; [by destruct Hne|done].
Qed.
Lemma own_claim ctx p tick now d m b m' :
  policies_wf m → m !! policy_key p = Some p →
  ClaimTenancyScanPolicySchedule (WithScope ctx (mkScope (Policy_TenantID p) (Policy_WorkspaceID p))) (Policy_WorkspaceID p)
    (Policy_ProjectID p) (Policy_PolicyID p) tick now d m = Ok (b, m') →
  m' = if b then <[policy_key p := with_tick (TruncateMinute tick) now p]> m else m.
Proof using.
  intros Hwf Hp Hc. destruct (Hwf _ _ Hp) as (_ & Ht & Hw). destruct b; [|by eapply Claim_false].
  apply Claim_true in Hc as (scope & resolved & p' & Hs & Hp' & _ & _ & _ & _ & ->). rewrite own_scope in Hs by done.
  injection Hs as <- <-. cbn [Scope_TenantID] in *.
  assert (tenancyScanPolicyKey (TrimSpace (Policy_TenantID p)) (TrimSpace (Policy_WorkspaceID p)) (Policy_ProjectID p) (Policy_PolicyID p) =
    policy_key p) as Ek by (unfold tenancyScanPolicyKey, policy_key, tenancyScanPolicyKey; by rewrite !TrimSpace_idemp).
  rewrite Ek in *. rewrite Hp in Hp'. by injection Hp' as <-.
Qed.

(** What a due policy becomes, and the counts of it. *)
Lemma schedule_one_spec ctx p tick now w r e w' :
  policies_wf (pw_policies w) → pw_policies w !! policy_key p = Some p →
  schedule_one ctx p tick now w = ((r, e), w') →
  pw_directory w' = pw_directory w ∧ PoliciesChecked r = 0 ∧ PoliciesDue r = 0 ∧
  ((PoliciesClaimed r = 0 ∧ QueuedScans r = 0 ∧ pw_policies w' = pw_policies w ∧ pw_tables w' = pw_tables w) ∨
   (PoliciesClaimed r = 1 ∧ pw_policies w' = <[policy_key p := with_tick (TruncateMinute tick) now p]> (pw_policies w))).
Proof using.
  intros Hwf Hp. unfold enqueueDueScanPolicy. destruct (acquire s _ _) as [[lease l]|]; [|intros [= <- <- <-]; by eauto 10].
  unfold schedule_policy. cbn [pw_directory pw_policies pw_tables pw_locker].
  destruct (RepoScanEnabled s); cbn [negb]; [|intros [= <- <- <-]; by eauto 10].
  destruct (ClaimTenancyScanPolicySchedule _ _ _ _ _ _ _ _) as [[b m']|] eqn:Ec; [|intros [= <- <- <-]; by eauto 10].
  pose proof (own_claim _ _ _ _ _ _ _ _ Hwf Hp Ec) as Hm. destruct b; [|intros [= <- <- <-]; by eauto 10]. subst m'.
  destruct (GetGitHubConnection _ _ _) as [status|]; [|intros [= <- <- <-]; by eauto 10].
  destruct (enqueue_repositories _ _ _ _ _ _ _ _ _ _ _ _ _ _) as [[[queued skipped] failed] t]. intros [= <- <- <-]. by eauto 10.
Qed.

Lemma schedule_one_ticked ctx p tick now w r e w' :
  policies_wf (pw_policies w) → pw_policies w !! policy_key p = Some p →
  schedule_one ctx p tick now w = ((r, e), w') → ticked [policy_key p] (pw_policies w) (pw_policies w').
Proof using.
  intros Hwf Hp Hs. destruct (schedule_one_spec _ _ _ _ _ _ _ _ Hwf Hp Hs) as (_ & _ & _ & [(_ & _ & -> & _)|[_ ->]]).
  - apply ticked_refl.
  - by apply (insert_ticked _ _ p).
Qed.

(** *** Pages *)
Definition in_table (m : Policies) (p : TenancyScanPolicy) : Prop := m !! policy_key p = Some p.
Lemma ticked_in_table K m m' p : policies_wf m → ticked K m m' → policy_key p ∉ K → in_table m p → in_table m' p.
Proof using.
  intros _ (F & -> & _ & HK) Hno Hp. unfold in_table. rewrite lookup_fmap, Hp. cbn. by rewrite HK.
Qed.
Lemma page_ticked ctx now policies : ∀ r w r' e w',
  policies_wf (pw_policies w) → NoDup (policy_key <$> policies) → Forall (in_table (pw_policies w)) policies →
  page ctx now policies r w = ((r', e), w') →
  ticked (policy_key <$> policies) (pw_policies w) (pw_policies w') ∧ pw_directory w' = pw_directory w.
Proof using.
  induction policies as [|p policies IH]; intros r w r' e w' Hwf Hnd Hin Hpage; cbn [schedule_page] in Hpage.
  { injection Hpage as <- <- <-. split; [apply ticked_refl|done]. }
  rewrite fmap_cons in *. apply NoDup_cons in Hnd as [Hno Hnd]. apply Forall_cons in Hin as [Hp Hin].
  assert (∀ r w1, policies_wf (pw_policies w1) → ticked [policy_key p] (pw_policies w) (pw_policies w1) → pw_directory w1 = pw_directory w →
    page ctx now policies r w1 = ((r', e), w') →
    ticked (policy_key p :: (policy_key <$> policies)) (pw_policies w) (pw_policies w') ∧ pw_directory w' = pw_directory w) as Hnext.
  { intros r1 w1 Hwf1 Ht Hd Hrest. destruct (IH r1 w1 r' e w' Hwf1 Hnd) as [Ht' Hd']; [|done|].
    - eapply Forall_impl; [|intros q Hq; exact Hq]. apply Forall_forall. intros q Hq. eapply ticked_in_table; [exact Hwf|done| |].
      + intros Eq%list_elem_of_singleton. apply Hno. rewrite <-Eq. by apply list_elem_of_fmap_2.
      + by eapply Forall_forall in Hin.
    - split; [exact (ticked_trans [policy_key p] _ _ _ _ Ht Ht')|congruence]. }
  destruct (dueScanPolicyTick p now) as [[tick|]|].
  - destruct (schedule_one ctx p tick now w) as [[part failed] w1] eqn:Es.
    pose proof (schedule_one_ticked _ _ _ _ _ _ _ _ Hwf Hp Es) as Ht.
    pose proof (proj1 (schedule_one_spec _ _ _ _ _ _ _ _ Hwf Hp Es)) as Hd. destruct failed as [e1|].
    + injection Hpage as <- <- <-. split; [|done]. rewrite <-(app_nil_r (policy_key <$> policies)).
      apply (ticked_trans [policy_key p] ((policy_key <$> policies) ++ []) _ (pw_policies w1)); [done|apply ticked_refl].
    + eapply Hnext; [by eapply ticked_wf|done|done|exact Hpage].
  - eapply Hnext; [done|apply ticked_refl|done|exact Hpage].
  - eapply Hnext; [done|apply ticked_refl|done|exact Hpage].
Qed.

Lemma page_app ctx now l1 l2 : ∀ r w,
  page ctx now (l1 ++ l2) r w =
  let '((r1, e), w1) := page ctx now l1 r w in match e with Some _ => ((r1, e), w1) | None => page ctx now l2 r1 w1 end.
Proof using.
  induction l1 as [|p l1 IH]; intros r w; [done|]. cbn [app schedule_page]. destruct (dueScanPolicyTick p now) as [[tick|]|]; [|apply IH..].
  destruct (schedule_one ctx p tick now w) as [[part [e|]] w1]; [done|apply IH].
Qed.
Lemma page_checked ctx now n l : ∀ r w,
  page ctx now l (add_checked n r) w = let '((r1, e), w1) := page ctx now l r w in ((add_checked n r1, e), w1).
Proof using.
  induction l as [|p l IH]; intros r w; [done|]. cbn [schedule_page].
  destruct (dueScanPolicyTick p now) as [[tick|]|]; [|apply IH|].
  - destruct (schedule_one ctx p tick now w) as [[part [e|]] w1]; [done|]. rewrite <-IH. done.
  - rewrite <-IH. done.
Qed.
Lemma add_checked_add n k r : add_checked n (add_checked k r) = add_checked (k + n) r.
Proof using. unfold add_checked. cbn. f_equal. lia. Qed.

Lemma list_page offset d m :
  ListScheduledTenancyScanPolicies defaultScanPolicyScheduleLimit (Z.of_nat offset) d m = take 500 (drop offset (scheduled_policies d m)).
Proof using.
  unfold ListScheduledTenancyScanPolicies, defaultScanPolicyScheduleLimit. cbv zeta. cbn [Z.leb Z.compare Pos.compare Pos.compare_cont].
  destruct (Z.ltb_spec (Z.of_nat offset) 0) as [?|_]; [lia|]. set (l := scheduled_policies d m).
  destruct (Z.leb_spec (Z.of_nat (length l)) (Z.of_nat offset)) as [Hle|Hlt].
  - rewrite drop_ge by lia. done.
  - rewrite Nat2Z.id. unfold truncate. cbn [Z.ltb Z.compare andb].
    destruct (Z.ltb_spec 500 (Z.of_nat (length (drop offset l)))); [done|]. rewrite take_ge; [done|lia].
Qed.
Lemma not_in_take_drop {A} (f : A → string) (l : list A) o n q : NoDup (f <$> l) → q ∈ drop (o + n) l → f q ∉ f <$> take n (drop o l).
Proof using.
  intros Hnd Hq Hin. rewrite <-(take_drop o l), fmap_app in Hnd. apply NoDup_app in Hnd as (_ & _ & Hnd).
  rewrite <-(take_drop n (drop o l)), fmap_app in Hnd. apply NoDup_app in Hnd as (_ & Hdis & _). apply (Hdis _ Hin).
  rewrite drop_drop. by apply list_elem_of_fmap_2.
Qed.
Lemma Forall_take_drop {A} (P : A → Prop) n o (l : list A) : Forall P l → Forall P (take n (drop o l)).
Proof using. intros Hall. by apply Forall_take, Forall_drop. Qed.

Lemma pages_visit ctx now fuel : ∀ offset r w (listed := scheduled_policies (pw_directory w) (pw_policies w)),
  policies_wf (pw_policies w) → (offset ≤ length listed)%nat → (length listed < offset + 500 * fuel)%nat →
  ∃ n, pages fuel ctx now (Z.of_nat offset) r w =
      (let '((r', e), w') := page ctx now (drop offset listed) r w in Some ((add_checked n r', e), w')) ∧
    0 ≤ n ≤ Z.of_nat (length (drop offset listed)) ∧ ((page ctx now (drop offset listed) r w).1.2 = None → n = Z.of_nat (length (drop offset listed))).
Proof using.
  induction fuel as [|fuel IH]; intros offset r w listed Hwf Hle Hlt; [lia|]. cbn [schedule_pages]. rewrite list_page. fold listed.
  set (P := take 500 (drop offset listed)). set (rest := drop 500 (drop offset listed)).
  assert (drop offset listed = P ++ rest) as Hsplit by (symmetry; apply take_drop).
  assert (length (drop offset listed) = (length P + length rest)%nat) as Hlen by (by rewrite Hsplit, length_app).
  pose proof (scheduled_keys (pw_directory w) _ Hwf) as Hnd. fold listed in Hnd.
  assert (Forall (in_table (pw_policies w)) listed) as Hall.
  { apply Forall_forall. intros p [_ [key Hp]]%elem_of_scheduled. unfold in_table. destruct (Hwf _ _ Hp) as [-> _]. done. }
  rewrite page_checked. destruct (page ctx now P r w) as [[r1 e1] w1] eqn:EP.
  assert (NoDup (policy_key <$> P)) as HndP.
  { unfold P. rewrite <-(take_drop offset listed), fmap_app in Hnd. apply NoDup_app in Hnd as (_ & _ & Hnd).
    rewrite <-(take_drop 500 (drop offset listed)), fmap_app in Hnd. by apply NoDup_app in Hnd as (Hnd & _). }
  destruct (page_ticked ctx now P r w r1 e1 w1 Hwf HndP (Forall_take_drop _ _ _ _ Hall) EP) as [Ht Hd].
  rewrite Hsplit, page_app, EP. destruct e1 as [e1|].
  { exists (Z.of_nat (length P)). cbn. split; [done|]. split; [rewrite length_app; lia|done]. }
  destruct (Z.ltb_spec (Z.of_nat (length P)) defaultScanPolicyScheduleLimit) as [Hshort|Hfull].
  - assert (rest = []) as ->.
    { unfold rest. apply drop_ge. unfold P, defaultScanPolicyScheduleLimit in Hshort. rewrite length_take in Hshort. lia. }
    exists (Z.of_nat (length P)). cbn. rewrite app_nil_r. split; [done|]. split; [lia|done].
  - unfold defaultScanPolicyScheduleLimit in Hfull. assert (length P = 500%nat) as H500 by (unfold P in *; rewrite length_take in *; lia).
    destruct (ticked_listing (pw_directory w) _ _ _ Hwf Ht) as (F & HF & HK).
    assert (drop (offset + 500) (scheduled_policies (pw_directory w1) (pw_policies w1)) = rest) as Hrest.
    { rewrite Hd, HF, <-fmap_drop. fold listed. unfold rest. rewrite drop_drop. rewrite <-(list_fmap_id (drop (offset + 500) listed)) at 2.
      apply list_fmap_ext. intros i q Hq. apply HK. apply not_in_take_drop; [done|]. by eapply list_elem_of_lookup_2. }
    assert (length (scheduled_policies (pw_directory w1) (pw_policies w1)) = length listed) as HlenL by (by rewrite Hd, HF, length_fmap).
    rewrite length_drop in Hlen.
    destruct (IH (offset + 500)%nat (add_checked (Z.of_nat (length P)) r1) w1 (ticked_wf _ _ _ Ht Hwf)) as (n & Hn & Hrange & Hdone);
      [lia..|]. rewrite Hrest in Hn, Hrange, Hdone. rewrite page_checked in Hn, Hdone.
    replace (Z.of_nat offset + defaultScanPolicyScheduleLimit) with (Z.of_nat (offset + 500)) by (unfold defaultScanPolicyScheduleLimit; lia).
    rewrite Hn. exists (Z.of_nat (length P) + n). destruct (page ctx now rest r1 w1) as [[r2 e2] w2]. rewrite add_checked_add. split; [done|].
    rewrite length_app. cbn in Hdone |- *. split; [lia|]. intros ->. rewrite Hdone by done. lia.
Qed.

Lemma page_keeps_checked ctx now l : ∀ r w r' e w',
  page ctx now l r w = ((r', e), w') → PoliciesChecked r' = PoliciesChecked r.
Proof using.
  induction l as [|p l IH]; intros r w r' e w' Hp; cbn [schedule_page] in Hp; [by injection Hp as <- _ _|].
  destruct (dueScanPolicyTick p now) as [[tick|]|]; [|by eapply IH|by apply IH in Hp].
  destruct (schedule_one ctx p tick now w) as [[part [e1|]] w1]; [by injection Hp as <- _ _|by apply IH in Hp].
Qed.

(** C18. A pass over the scan policies ends, and looks at every scheduled policy
    once, in the order of their creation: although it reads the list in pages and
    writes to the table between pages, it does what one loop over the list read at
    its start does, with as many pages as the list needs.  The count of policies
    checked is the length of the list, unless an error ends the pass early. *)
Theorem scheduled_pass_visits_each ctx now w fuel (listed := scheduled_policies (pw_directory w) (pw_policies w))
    (Hwf : policies_wf (pw_policies w)) (Hfuel : (length listed < 500 * fuel)%nat) :
  ∃ r e w' n, page ctx now listed nothing_scheduled w = ((r, e), w') ∧
    EnqueueDueScanPoliciesAt s GetGitHubConnection newID trace clock fuel ctx now w = Some ((add_checked n r, e), w') ∧
    PoliciesChecked (add_checked n r) ≤ Z.of_nat (length listed) ∧ (e = None → PoliciesChecked (add_checked n r) = Z.of_nat (length listed)).
Proof using.
  destruct (pages_visit ctx now fuel 0 nothing_scheduled w Hwf ltac:(lia) Hfuel) as (n & Hn & Hrange & Hdone).
  fold listed in Hn, Hrange, Hdone. rewrite drop_0 in *. destruct (page ctx now listed nothing_scheduled w) as [[r e] w'] eqn:E.
  exists r, e, w', n. split; [done|]. split; [exact Hn|]. apply page_keeps_checked in E. cbn in E, Hdone |- *. rewrite E.
  split; [lia|]. intros He. rewrite Hdone by done. lia.
Qed.

(** *** How many scans a policy gets *)
Lemma EnqueueRepoScan_size d ctx request t t' r :
  repoScans t !! newID t = None →
  EnqueueRepoScan s d GetGitHubConnection (newID t) trace clock ctx request t = Ok (t', r) →
  Z.of_nat (size (repoScans t')) = Z.of_nat (size (repoScans t)) + 1.
Proof using.
  intros Hnew. unfold EnqueueRepoScan. cbv zeta. intros Hok. open_bind Hok accepted _.
  destruct (CreateQueuedRepoScanWithinLimit _ _ _ _ _ _ _ _ _ _ _) as [[t1 r1]|] eqn:E; [|done]. injection Hok as <- <-.
  unfold CreateQueuedRepoScanWithinLimit in E. open_bind E scope _. open_bind E u1 _. open_bind E u2 _. rewrite enqueue_new in E. injection E as <- _.
  cbn. rewrite map_size_insert_None by done. lia.
Qed.
Lemma enqueue_repositories_spec ctx d p status maxConcurrent (Hnew : ∀ t, repoScans t !! newID t = None) repositories :
  ∀ processed queued skipped t q k e t',
  enqueue_repositories s GetGitHubConnection newID trace clock ctx d p status maxConcurrent repositories processed queued skipped t
    = ((q, k, e), t') →
  queued ≤ q ≤ queued + Z.max 0 (maxConcurrent - processed) ∧ skipped ≤ k ∧
  Z.of_nat (size (repoScans t')) = Z.of_nat (size (repoScans t)) + (q - queued).
Proof using.
  induction repositories as [|repository rest IH]; intros processed queued skipped t q k e t' Hq; cbn [enqueue_repositories] in Hq.
  { injection Hq as <- <- <- <-. lia. }
  destruct (Z.leb_spec maxConcurrent processed) as [Hstop|Hgo]; [injection Hq as <- <- <- <-; lia|].
  destruct (EnqueueRepoScan _ _ _ _ _ _ _ _ _) as [[t1 r1]|e1] eqn:E.
  - apply EnqueueRepoScan_size in E; [|done]. apply IH in Hq. lia.
  - destruct (isExpectedScheduledRepoSkip e1); [|injection Hq as <- <- <- <-; lia].
    apply IH in Hq. destruct (skipConsumesPolicyConcurrency e1); lia.
Qed.

(** A due policy gets no more repository scans than it allows at a time (one,
    when it does not say), whatever repositories are selected, and none at all
    unless this worker has taken the tick; the scans counted are exactly those
    added to the queue. *)
Theorem policy_scans_bounded ctx p tick now w r e w'
    (Hnew : ∀ t, repoScans t !! newID t = None)
    (Hwf : policies_wf (pw_policies w)) (Hp : pw_policies w !! policy_key p = Some p)
    (Hone : schedule_one ctx p tick now w = ((r, e), w')) :
  0 ≤ QueuedScans r ≤ Z.max 1 (Policy_MaxConcurrentScans p) ∧ 0 ≤ SkippedScans r ∧
  Z.of_nat (size (repoScans (pw_tables w'))) = Z.of_nat (size (repoScans (pw_tables w))) + QueuedScans r ∧
  (0 < QueuedScans r → PoliciesClaimed r = 1 ∧ RepoScanEnabled s = true ∧
     pw_policies w' = <[policy_key p := with_tick (TruncateMinute tick) now p]> (pw_policies w)).
Proof using.
  pose proof (schedule_one_spec _ _ _ _ _ _ _ _ Hwf Hp Hone) as (_ & _ & _ & Hcases). unfold enqueueDueScanPolicy in Hone.
  assert (0 ≤ Z.max 1 (Policy_MaxConcurrentScans p)) by lia.
  destruct (acquire s _ _) as [[lease l]|]; [|injection Hone as <- <- <-; cbn; split_and!; lia].
  unfold schedule_policy in Hone. cbn [pw_directory pw_policies pw_tables pw_locker] in Hone.
  destruct (RepoScanEnabled s); cbn [negb] in Hone; [|injection Hone as <- <- <-; cbn; split_and!; lia].
  destruct (ClaimTenancyScanPolicySchedule _ _ _ _ _ _ _ _) as [[[] m']|]; [|injection Hone as <- <- <-; cbn; split_and!; lia..].
  destruct (GetGitHubConnection _ _ _) as [status|]; [|injection Hone as <- <- <-; cbn; split_and!; lia].
  destruct (enqueue_repositories _ _ _ _ _ _ _ _ _ _ _ _ _ _) as [[[queued skipped] failed] t] eqn:E.
  injection Hone as <- <- <-. cbn in Hcases |- *. apply enqueue_repositories_spec in E; [|done].
  assert (max_concurrent p - 0 ≤ Z.max 1 (Policy_MaxConcurrentScans p)) by (unfold max_concurrent; destruct (Z.leb_spec (Policy_MaxConcurrentScans p) 0); lia).
  split_and!; try lia. intros _. destruct Hcases as [(? & _)|[_ ?]]; [lia|done].
Qed.

(** *** A second pass *)
(** A policy whose tick has just been taken is not due. *)
Lemma due_tick p now tick : dueScanPolicyTick p now = Ok (Some tick) →
  tick_after p now < tick ∧ TruncateMinute tick = tick ∧ dueScanPolicyTick (with_tick tick now p) now = Ok None.
Proof using.
  unfold dueScanPolicyTick. cbn [Policy_Cron with_tick]. destruct (ParseCronSchedule (Policy_Cron p)) as [schedule|]; [|done].
  intros [= Hdue]. pose proof (LatestAfter_latest schedule (tick_after p now) now) as Hl. rewrite Hdue in Hl.
  destruct Hl as (_ & Hmin & Hr & Hnone). split; [lia|]. split; [by apply TruncateMinute_id|].
  pose proof (LatestAfter_latest schedule (tick_after (with_tick tick now p) now) now) as Hl. cbn [tick_after with_tick Policy_LastScheduledAt] in *.
  destruct (LatestAfter schedule tick now) as [t|]; [|done]. destruct Hl as (Hm & Hmin' & Hr' & _). exfalso.
  by rewrite (Hnone t Hmin' ltac:(lia)) in Hm.
Qed.
Definition not_due (now : Z) (p : TenancyScanPolicy) : Prop := ∀ tick, dueScanPolicyTick p now ≠ Ok (Some tick).
(** What the pass makes of a policy. *)
Definition after_pass (now : Z) (p : TenancyScanPolicy) : TenancyScanPolicy :=
  match dueScanPolicyTick p now with Ok (Some tick) => with_tick tick now p | _ => p end.
Lemma after_pass_not_due now p : not_due now (after_pass now p).
Proof using.
  intros tick. unfold after_pass. destruct (dueScanPolicyTick p now) as [[t|]|] eqn:E; [|congruence..].
  apply due_tick in E as (_ & _ & ->). done.
Qed.
Lemma after_pass_key now p : policy_key (after_pass now p) = policy_key p.
Proof using. unfold after_pass. by destruct (dueScanPolicyTick p now) as [[t|]|]. Qed.

(** The lock of a policy is free, where the service uses locks. *)
Definition lock_free w (p : TenancyScanPolicy) : Prop :=
  Repo_Locked s = true → is_held (repo_lock_key s (policy_lock p)) (pw_locker w) = false.

Lemma acquire_free key (l : L) : (Repo_Locked s = true → is_held (repo_lock_key s key) l = false) → acquire s key l ≠ None.
Proof using.
  unfold acquire. destruct (Repo_Locked s); [|done]. intros Hfree. specialize (Hfree eq_refl).
  pose proof (try_acquire_spec (repo_lock_key s key) l) as Hspec. destruct (try_acquire _ l) as [[lease l']|]; [done|]. congruence.
Qed.
Lemma acquire_restores key (l : L) lease l' : acquire s key l = Some (lease, l') → ∀ key', is_held key' (give_back lease l') = is_held key' l.
Proof using.
  unfold acquire. destruct (Repo_Locked s); [|by intros [= <- <-]]. destruct (try_acquire _ l) as [[n l1]|] eqn:E; [|done].
  intros [= <- <-]. cbn [give_back]. exact (release_restores _ _ _ _ E).
Qed.
(** Whatever a pass does for a policy, its lock is given back. *)
Lemma schedule_one_locks ctx p tick now w out w1 : schedule_one ctx p tick now w = (out, w1) →
  ∀ key, is_held key (pw_locker w1) = is_held key (pw_locker w).
Proof using.
  unfold enqueueDueScanPolicy. destruct (acquire s _ _) as [[lease l]|] eqn:Ea; [|by intros [= <- <-]].
  destruct (schedule_policy _ _ _ _ _ _ _ _ _) as [o w2] eqn:Es. intros [= <- <-] key. cbn [pw_locker].
  assert (pw_locker w2 = l) as ->; [|by apply (acquire_restores _ _ _ _ Ea)].
  unfold schedule_policy in Es. cbn [pw_directory pw_policies pw_tables pw_locker] in Es. destruct (negb _); [by injection Es as <- <-|].
  destruct (ClaimTenancyScanPolicySchedule _ _ _ _ _ _ _ _) as [[[] m']|e]; [|by injection Es as <- <-..].
  destruct (GetGitHubConnection _ _ _); [|by injection Es as <- <-].
  destruct (enqueue_repositories _ _ _ _ _ _ _ _ _ _ _ _ _ _) as [[[q k] f] t]. by injection Es as <- <-.
Qed.

Section settled.
Context (Henabled : RepoScanEnabled s = true).

Lemma due_claimed ctx p now tick w r w' : lock_free w p →
  policies_wf (pw_policies w) → pw_policies w !! policy_key p = Some p → policy_listed (pw_directory w) p = true →
  dueScanPolicyTick p now = Ok (Some tick) → schedule_one ctx p tick now w = ((r, None), w') →
  PoliciesClaimed r = 1 ∧ pw_policies w' = <[policy_key p := after_pass now p]> (pw_policies w).
Proof using Henabled.
  intros Hfree Hwf Hp Hl Hdue Hone. pose proof (schedule_one_spec _ _ _ _ _ _ _ _ Hwf Hp Hone) as (_ & _ & _ & Hcases).
  destruct (due_tick p now tick Hdue) as (Hlt & Htr & _). destruct Hcases as [(Hno & _)|[Hc ->]].
  2: { split; [done|]. unfold after_pass. by rewrite Hdue, Htr. }
  exfalso. unfold enqueueDueScanPolicy in Hone. apply acquire_free in Hfree. destruct (acquire s _ _) as [[lease l]|]; [|done].
  unfold schedule_policy in Hone.
  cbn [pw_directory pw_policies pw_tables pw_locker] in Hone. rewrite Henabled in Hone. cbn [negb] in Hone.
  destruct (Hwf _ _ Hp) as (_ & Ht & Hw). unfold policy_listed in Hl. rewrite !andb_true_iff in Hl. destruct Hl as [[He Hs] Ha].
  destruct (ClaimTenancyScanPolicySchedule _ _ _ _ _ _ _ _) as [[[] m']|e] eqn:Ec; [|clear Hone|done].
  - destruct (GetGitHubConnection _ _ _); [|done]. destruct (enqueue_repositories _ _ _ _ _ _ _ _ _ _ _ _ _ _) as [[[q k] f] t].
    injection Hone as <- _ _. done.
  - unfold ClaimTenancyScanPolicySchedule in Ec. rewrite own_scope in Ec by done. cbn [mbind result_bind Scope_TenantID] in Ec. cbv zeta in Ec.
    assert (tenancyScanPolicyKey (TrimSpace (Policy_TenantID p)) (TrimSpace (Policy_WorkspaceID p)) (Policy_ProjectID p) (Policy_PolicyID p) =
      policy_key p) as Ek by (unfold tenancyScanPolicyKey, policy_key, tenancyScanPolicyKey; by rewrite !TrimSpace_idemp).
    rewrite Ek, Hp, He, Hs in Ec. cbn [negb orb] in Ec.
    assert (workspace_active (pw_directory w) (TrimSpace (Policy_TenantID p)) (TrimSpace (Policy_WorkspaceID p)) = true) as Ha'
      by (unfold workspace_active, tenancyWorkspaceKey in *; by rewrite !TrimSpace_idemp).
    rewrite Ha' in Ec. cbn [negb] in Ec. rewrite Htr in Ec. unfold tick_after in Hlt.
    destruct (Policy_LastScheduledAt p) as [last|]; [|done]. unfold Before in Ec. by rewrite (proj2 (Z.ltb_lt _ _) Hlt) in Ec.
Qed.

Lemma page_settles ctx now l : ∀ r w r' w',
  policies_wf (pw_policies w) → NoDup (policy_key <$> l) → Forall (in_table (pw_policies w)) l →
  Forall (λ p, policy_listed (pw_directory w) p = true) l → Forall (lock_free w) l →
  page ctx now l r w = ((r', None), w') →
  PoliciesClaimed r' - PoliciesClaimed r = PoliciesDue r' - PoliciesDue r ∧
  ∀ p, p ∈ l → pw_policies w' !! policy_key p = Some (after_pass now p).
Proof using Henabled.
  induction l as [|p l IH]; intros r w r' w' Hwf Hnd Hin Hlisted Hfrees Hpage; cbn [schedule_page] in Hpage.
  { injection Hpage as <- <-. split; [lia|]. intros p Hp. by apply elem_of_nil in Hp. }
  rewrite fmap_cons in Hnd. apply NoDup_cons in Hnd as [Hno Hnd]. apply Forall_cons in Hin as [Hp Hin]. apply Forall_cons in Hlisted as [Hl Hlisted].
  apply Forall_cons in Hfrees as [Hfree Hfrees].
  assert (∀ r1 w1, pw_directory w1 = pw_directory w → (∀ key, is_held key (pw_locker w1) = is_held key (pw_locker w)) → pw_policies w1 = <[policy_key p := after_pass now p]> (pw_policies w) →
    ticked [policy_key p] (pw_policies w) (pw_policies w1) → page ctx now l r1 w1 = ((r', None), w') →
    PoliciesClaimed r' - PoliciesClaimed r1 = PoliciesDue r' - PoliciesDue r1 ∧
    ∀ q, q ∈ p :: l → pw_policies w' !! policy_key q = Some (after_pass now q)) as Hnext.
  { intros r1 w1 Hd Hlocks Hm Ht Hrest. assert (policies_wf (pw_policies w1)) as Hwf1 by (by eapply ticked_wf).
    assert (Forall (in_table (pw_policies w1)) l) as Hin1.
    { apply Forall_forall. intros q Hq. unfold in_table. rewrite Hm, lookup_insert_ne; [by eapply Forall_forall in Hin|].
      intros Ek. apply Hno. rewrite Ek. by apply list_elem_of_fmap_2. }
    assert (Forall (lock_free w1) l) as Hfrees1 by (eapply Forall_impl; [exact Hfrees|]; intros q Hq Hlocked; rewrite Hlocks; by apply Hq).
    destruct (IH r1 w1 r' w' Hwf1 Hnd Hin1) as [Hcount Hafter]; [by rewrite Hd|done|done|]. split; [done|].
    intros q [->|Hq]%elem_of_cons; [|by apply Hafter].
    destruct (page_ticked ctx now l r1 w1 r' None w' Hwf1 Hnd Hin1 Hrest) as [(F & -> & _ & HK) _].
    rewrite lookup_fmap, Hm, lookup_insert_eq. cbn. rewrite HK; [done|]. by rewrite after_pass_key. }
  assert (after_pass now p = p → <[policy_key p := after_pass now p]> (pw_policies w) = pw_policies w) as Hsame
    by (intros ->; by apply insert_id).
  destruct (dueScanPolicyTick p now) as [[tick|]|] eqn:Edue.
  - destruct (schedule_one ctx p tick now w) as [[part [e|]] w1] eqn:Es; [done|].
    destruct (due_claimed ctx p now tick w part w1 Hfree Hwf Hp Hl Edue Es) as [Hc Hm].
    destruct (schedule_one_spec _ _ _ _ _ _ _ _ Hwf Hp Es) as (Hd & _).
    destruct (Hnext _ w1 Hd (schedule_one_locks _ _ _ _ _ _ _ Es) Hm (schedule_one_ticked _ _ _ _ _ _ _ _ Hwf Hp Es) Hpage) as [Hcount Hafter]. split; [|done].
    cbn in Hcount. lia.
  - apply (Hnext r w); [done|done| |apply ticked_refl|done]. symmetry. apply Hsame. unfold after_pass. by rewrite Edue.
  - destruct (Hnext (add_counts r skipped_one) w) as [Hcount Hafter]; [done|done| |apply ticked_refl|done|split; [cbn in Hcount; lia|done]].
    symmetry. apply Hsame. unfold after_pass. by rewrite Edue.
Qed.
End settled.

Lemma page_idle ctx now l : ∀ r w, Forall (not_due now) l →
  ∃ r', page ctx now l r w = ((r', None), w) ∧ PoliciesDue r' = PoliciesDue r ∧ PoliciesClaimed r' = PoliciesClaimed r ∧
    QueuedScans r' = QueuedScans r.
Proof using.
  induction l as [|p l IH]; intros r w Hidle; [by exists r|]. apply Forall_cons in Hidle as [Hp Hidle]. cbn [schedule_page].
  destruct (dueScanPolicyTick p now) as [[tick|]|] eqn:E; [by destruct (Hp tick)|by apply IH|].
  destruct (IH (add_counts r skipped_one) w Hidle) as (r' & -> & Hd & Hc & Hq). exists r'. split; [done|].
  cbn in Hd, Hc, Hq. rewrite Hd, Hc, Hq. split_and!; lia.
Qed.

Lemma scheduled_facts w : policies_wf (pw_policies w) →
  let l := scheduled_policies (pw_directory w) (pw_policies w) in
  NoDup (policy_key <$> l) ∧ Forall (in_table (pw_policies w)) l ∧ Forall (λ p, policy_listed (pw_directory w) p = true) l.
Proof using.
  intros Hwf l. split; [by apply scheduled_keys|]. split; apply Forall_forall; intros p Hp; apply elem_of_scheduled in Hp as [Hl [key Hkey]]; [|done].
  unfold in_table. by destruct (Hwf _ _ Hkey) as [-> _].
Qed.

(** C17. When scans are enabled, no other worker holds the lock of a policy with
    a schedule as the pass begins, and nobody else changes the tables during the
    pass, a pass that ends without an error takes the tick of every policy that is due, and leaves
    nothing to do: a second pass at the same instant finds no policy due, queues
    no scan and changes nothing. *)
Theorem second_pass_does_nothing ctx now w w' r fuel
    (Henabled : RepoScanEnabled s = true)
    (Hfree : ∀ p, p ∈ scheduled_policies (pw_directory w) (pw_policies w) → lock_free w p)
    (Hwf : policies_wf (pw_policies w))
    (Hfuel : (length (scheduled_policies (pw_directory w) (pw_policies w)) < 500 * fuel)%nat)
    (Hfirst : EnqueueDueScanPoliciesAt s GetGitHubConnection newID trace clock fuel ctx now w = Some ((r, None), w')) :
  PoliciesClaimed r = PoliciesDue r ∧
  ∃ r', EnqueueDueScanPoliciesAt s GetGitHubConnection newID trace clock fuel ctx now w' = Some ((r', None), w') ∧
    PoliciesChecked r' = PoliciesChecked r ∧ PoliciesDue r' = 0 ∧ PoliciesClaimed r' = 0 ∧ QueuedScans r' = 0.
Proof using.
  destruct (scheduled_facts w Hwf) as (Hnd & Hin & Hlisted).
  destruct (pages_visit ctx now fuel 0 nothing_scheduled w Hwf ltac:(lia) Hfuel) as (n & Hn & _ & Hcount). cbn zeta in *.
  set (l := scheduled_policies (pw_directory w) (pw_policies w)) in *. rewrite drop_0 in *.
  unfold EnqueueDueScanPoliciesAt in Hfirst |- *. change (Z.of_nat 0) with 0 in Hn. rewrite Hfirst in Hn.
  destruct (page ctx now l nothing_scheduled w) as [[r1 e1] w1] eqn:Ep. injection Hn as -> <- ->. cbn in Hcount. specialize (Hcount eq_refl).
  destruct (page_settles Henabled ctx now l _ _ _ _ Hwf Hnd Hin Hlisted (proj2 (Forall_forall _ _) Hfree) Ep) as [Hclaimed Hafter].
  destruct (page_ticked _ _ _ _ _ _ _ _ Hwf Hnd Hin Ep) as [Ht Hd]. cbn in Hclaimed. split; [cbn; lia|].
  pose proof (ticked_wf _ _ _ Ht Hwf) as Hwf1. destruct Ht as (F & Hm & HF & _).
  assert (scheduled_policies (pw_directory w1) (pw_policies w1) = F <$> l) as Hl1 by (rewrite Hd, Hm; by apply scheduled_fmap).
  assert (length (scheduled_policies (pw_directory w1) (pw_policies w1)) = length l) as Hlen by (by rewrite Hl1, length_fmap).
  destruct (pages_visit ctx now fuel 0 nothing_scheduled w1 Hwf1 ltac:(lia) ltac:(lia)) as (n1 & Hn1 & _ & Hcount1). cbn zeta in *. rewrite drop_0 in *.
  destruct (page_idle ctx now (scheduled_policies (pw_directory w1) (pw_policies w1)) nothing_scheduled w1) as (r2 & Er2 & Hdue & Hcl & Hqu).
  { apply Forall_forall. intros p' Hp'. rewrite Hl1 in Hp'. apply list_elem_of_fmap in Hp' as (p & -> & Hp).
    pose proof (Hafter p Hp) as Hrow. rewrite Hm, lookup_fmap in Hrow. eapply Forall_forall in Hin; [|exact Hp]. unfold in_table in Hin.
    rewrite Hin in Hrow. injection Hrow as ->. apply after_pass_not_due. }
  change (Z.of_nat 0) with 0 in Hn1. rewrite Er2 in Hn1, Hcount1. exists (add_checked n1 r2). split; [exact Hn1|]. specialize (Hcount1 eq_refl).
  apply page_keeps_checked in Ep, Er2. cbn in Ep, Er2, Hdue, Hcl, Hqu |- *. rewrite Ep, Er2, Hcount, Hcount1, Hlen. done.
Qed.
End passes.

(** ** Examples *)
#[local] Existing Instance canonical_range.
#[local] Existing Instance insertion_sort.
#[local] Existing Instance no_floats.
#[local] Existing Instance no_urls.
#[local] Existing Instance no_git.

Definition locked_repo_service : RepoService :=
  mkRepoService true 100 500 10 50 ["acme/*"] 5 (mkScope "acme" "prod") "" true.
Definition token_connection (ctx : Context) (workspaceID projectID : string) : result GitHubConnectionStatus :=
  Ok (mkGitHubStatus "token" true "" 0 ["acme/app"; "other/app"; "acme/web"; "acme/api"]).
Definition fresh_scan_id (t : RepoScanTables) : string := fresh ((map_to_list (repoScans t)).*1).
Lemma fresh_scan_id_new t : repoScans t !! fresh_scan_id t = None.
Proof.
  destruct (repoScans t !! fresh_scan_id t) as [r|] eqn:E; [|done]. exfalso. apply (infinite_is_fresh (map_to_list (repoScans t)).*1).
  apply list_elem_of_fmap. exists (fresh_scan_id t, r). split; [done|]. by apply elem_of_map_to_list.
Qed.
Definition sample_policy_world : PolicyWorld LockerState :=
  mkPolicyWorld sample_policies empty_repo_tables sample_policy_directory NewInMemoryLocker.
Lemma sample_policies_wf : policies_wf sample_policies.
Proof.
  intros key p Hp. revert key p Hp. apply (bool_decide_unpack (map_Forall (λ key p,
    policy_key p = key ∧ TrimSpace (Policy_TenantID p) ≠ "" ∧ TrimSpace (Policy_WorkspaceID p) ≠ "") sample_policies)). by vm_compute.
Qed.
(** An hourly tick is due at 10:05, a nightly one is too. *)
Definition sample_pass_at : Z := 10 * 60 * Minute + 5 * Minute.
Definition sample_policy_pass (w : PolicyWorld LockerState) :=
  EnqueueDueScanPoliciesAt locked_repo_service token_connection fresh_scan_id ("", "") sample_pass_at 1 None sample_pass_at w.
Example sample_policy_pass_counts :
  (λ '((r, e), w), (r, e, (λ r, RepoScan_Repository r) <$> (map_to_list (repoScans (pw_tables w))).*2)) <$> sample_policy_pass sample_policy_world =
  Some (mkScheduled 2 2 2 2 4, None, ["acme/web"; "acme/app"]).
Proof. vm_compute. reflexivity. Qed.
Lemma sample_policy_fuel :
  (length (scheduled_policies (pw_directory sample_policy_world) (pw_policies sample_policy_world)) < 500 * 1)%nat.
Proof. apply Nat.ltb_lt. by vm_compute. Qed.

Lemma scheduled_pass_visits_each_witness :
  ∃ r w', sample_policy_pass sample_policy_world = Some ((r, None), w') ∧ PoliciesChecked r = 2.
Proof.
  destruct (scheduled_pass_visits_each locked_repo_service token_connection fresh_scan_id ("", "") sample_pass_at None sample_pass_at
    sample_policy_world 1 sample_policies_wf sample_policy_fuel) as (r & e & w' & n & _ & Hpass & _ & Hdone).
  assert (e = None) as ->.
  { assert (e = from_option (λ x, x.1.2) None (sample_policy_pass sample_policy_world)) as -> by (unfold sample_policy_pass; by rewrite Hpass).
    by vm_compute. }
  exists (add_checked n r), w'. split; [exact Hpass|]. rewrite Hdone by done. by vm_compute.
Defined.

Definition hourly_policy : TenancyScanPolicy := sample_policy "hourly" "0 * * * *".
Lemma hourly_in_table : pw_policies sample_policy_world !! policy_key hourly_policy = Some hourly_policy.
Proof. by vm_compute. Qed.
Definition sample_policy_scans :=
  enqueueDueScanPolicy locked_repo_service token_connection fresh_scan_id ("", "") sample_pass_at None hourly_policy
    (10 * 60 * Minute) sample_pass_at sample_policy_world.
Lemma policy_scans_bounded_witness :
  0 ≤ QueuedScans sample_policy_scans.1.1 ≤ 2 ∧ QueuedScans sample_policy_scans.1.1 = 2.
Proof.
  destruct sample_policy_scans as [[r e] w'] eqn:E.
  destruct (policy_scans_bounded locked_repo_service token_connection fresh_scan_id ("", "") sample_pass_at None hourly_policy
    (10 * 60 * Minute) sample_pass_at sample_policy_world r e w' fresh_scan_id_new sample_policies_wf hourly_in_table E) as [Hq _].
  split; [exact Hq|]. replace r with sample_policy_scans.1.1 by (by rewrite E). by vm_compute.
Defined.

Lemma new_locker_free p : lock_free locked_repo_service sample_policy_world p.
Proof.
  intros _. change (held (lock_name (repo_lock_key locked_repo_service (policy_lock p))) NewInMemoryLocker = false).
  unfold held, NewInMemoryLocker. cbn [locks]. by rewrite lookup_empty.
Qed.
Lemma second_pass_does_nothing_witness :
  ∃ r w' r', sample_policy_pass sample_policy_world = Some ((r, None), w') ∧ PoliciesClaimed r = PoliciesDue r ∧
    sample_policy_pass w' = Some ((r', None), w') ∧ PoliciesDue r' = 0 ∧ QueuedScans r' = 0.
Proof.
  destruct (sample_policy_pass sample_policy_world) as [[[r [e|]] w']|] eqn:E; [by vm_compute in E| |by vm_compute in E].
  unfold sample_policy_pass in E |- *.
  destruct (second_pass_does_nothing locked_repo_service token_connection fresh_scan_id ("", "") sample_pass_at None sample_pass_at
    sample_policy_world w' r 1 eq_refl (λ p _, new_locker_free p) sample_policies_wf sample_policy_fuel E) as (Hc & r' & Hsecond & _ & Hd & _ & Hq).
  exists r, w', r'. split; [reflexivity|]. split; [exact Hc|]. split; [exact Hsecond|]. split; assumption.
Defined.
